(* ===== verification/_CoqProject ===== *)
-Q . S2P
Prelude.v
Bytes.v
BitAlloc.v
BitAllocSpec.v
Addr.v
PageFrame.v
PageFrameSpec.v
RangeMap.v
RangeMapSpec.v
FatIo.v
FatIoSpec.v
Disk.v
DiskSpec.v
FatTable.v
FatTableSpec.v
Errors.v
FdTable.v
FdTableSpec.v
PageTable.v
PageTableSpec.v
BaseFile.v
FatFile.v
FatFileSpec.v
VmArea.v
VmAreaSpec.v
MemorySet.v
MemorySetSpec.v
TicketLock.v
RwLock.v
VirtFile.v
VirtFileSpec.v
Pipe.v
PipeSpec.v
Bitset.v
Signals.v
SignalsSpec.v
Futex.v
Tasks.v
TasksSpec.v
FatTime.v
DirEntry.v
DirEntrySpec.v
BootSector.v
BootSectorSpec.v
FatFs.v
FatFsSpec.v
DiskFile.v
DiskFileSpec.v
DirNames.v
DirNamesSpec.v
Dir.v
DirSpec.v
DirWriteSpec.v
RootDirSpec.v
Paths.v
PathsSpec.v
Vfs.v
VfsSpec.v
FileNs.v
FileNsSpec.v
FileNsRootSpec.v
Waiting.v
WaitingSpec.v
TimeStat.v
FdCalls.v
FdCallsSpec.v
PathCalls.v
InitStack.v
Sockets.v
SocketsSpec.v
SpinLock.v
LazySpec.v
MemCalls.v
Loader.v
LoaderSpec.v
Programs.v
FileStat.v
Syscalls.v
Trap.v
