(* ===== verification/Prelude.v ===== *)
(** * Maturin: a verification development

    Maturin is an operating system kernel for RISC-V in Rust: processes on
    Sv39 address spaces, a FAT volume in memory, virtual files, pipes and
    loopback sockets, signals, futexes, and some eighty system calls.  This
    library models the kernel ([src/kernel]), its own crates ([src/modules]),
    the allocator and the locks it brings along ([src/dependencies/bitmap-allocator], [src/dependencies/kernel-sync]) and the FAT driver it
    changed ([src/modified_dependencies]), as executable definitions, and proves
    what each part promises to the part above it.

    A name of the source keeps its name where Rocq allows it.  A file [X.v] holds
    the data and the operations of a part, in the order of the source, and
    [XSpec.v] its theorems; small parts have both in one file.  Paths below are
    relative to [src/].

    ** Conventions

    - A call that may panic returns an [outcome]: [Ret] or [Panic].  A call that
      changes a state [W] is in the monad [M W]; what shares a state is a call
      on it.  [Result]s are [OSResult] (kernel), [SysResult] (system calls) and
      [result] (FAT driver), so that an error is a value and a panic is not.
    - A machine word is a [Z]; arithmetic that the source does on a word is
      wrapped where it happens ([wrap64], [swrap 64]).  The build is the one the
      kernel runs in: overflow wraps, [debug_assert!] is off, the feature
      [sifive] is off.  Bytes and code points are [Z]s in lists.
    - Loops: structural recursion, or fuel.  Fuel that is a bound of the loop
      (the bytes left, the clusters of the volume, the entries of a directory,
      the characters of a path) is computed inside the definition, and a
      theorem shows that it is enough: the loop returns before it ends.  Where
      a loop waits for others (epoll, sockets, the console) or need not end
      (interpreters that name each other) the fuel is an argument, [None] at
      its end, and the theorems say how much is enough; for interpreters the
      end of the fuel is the stack overflow.
    - Sharing: an [Arc] of a virtual directory, a file in memory or an open file
      is an address in a store, so that two names of one object see each
      other's changes; a file of the FAT driver refers to the volume it is on.
    - Concurrency: the locks (TicketLock, RwLock, SpinLock) and the life of tasks
      (Tasks) are step relations over all cores; everything else runs a system
      call under the locks it takes, so calls on one object are sequences.  A
      call that waits gives control away, and what others do meanwhile is a
      parameter: of a pipe, another side that changes the queue and a state of
      its own; of the waiting calls, a world that moves with every question asked
      of a file and of the clock, one after the other.  A lock that a call takes
      twice is a [Panic] of PathCalls.  The atomic operations of the locks are
      sequentially consistent; two loads are two steps ([is_locked] takes the
      states of both).
    - What never returns: a call of the task code that loops for ever answers
      [None], a value no step of the kernel relation accepts.
    - An interface is a class: [BitAlloc] (an allocator of numbers), [File]
      (modules/base-file), [Stream] (what the driver reads and writes),
      [Segment] (what a range map holds), [TaskTrampoline] (what the crates
      outside the kernel ask of it), [AppFiles] (where programs come from),
      [Handlers] (what the dispatcher calls).  Its laws are a second class
      ([BitAllocSpec], [FileStream], [StreamSpec], ...), which the instances of
      this library satisfy; clients are proved against the laws.

    ** Memory

    - BitAlloc(+Spec): dependencies/bitmap-allocator.  Any nesting of the tree of
      sixteen-bit nodes implements a set of free numbers; contiguous allocation
      is first fit.  The crate bit_field is a parameter.
    - Addr: kernel/src/memory/addr.rs.
    - PageFrame(+Spec): modules/maturin-page-frame, kernel/src/memory/allocator.
      No frame is lost or owned twice, whatever is allocated and dropped.
    - RangeMap(+Spec): modules/range-action-map.  The map of areas stays disjoint
      and sorted, and mmap, munmap and mprotect do to the world exactly what
      they do to the map.
    - PageTable(+Spec): kernel/src/memory/page_table.rs.  The walk over words of
      memory implements a map from pages to entries.
    - VmArea(+Spec), LazySpec: kernel/src/memory/areas.  Lazy and fixed areas
      keep the contract of the range map; the bytes of a lazy area.
    - MemorySet(+Spec): kernel/src/memory/vmm.rs.  An address space implements a
      map of rights and of mapped addresses, and gives all frames back.
    - MemCalls: mmap, munmap, mprotect, msync, brk, sysinfo of
      kernel/src/syscall/process.rs on a process.

    ** The FAT driver and the disk (modified_dependencies/rust-fatfs, fscommon)

    - FatIo(+Spec): traits and helpers of streams, DiskSlice with its mirrors.
    - Disk(+Spec): kernel/src/drivers/memory and the buffered stream.
    - FatTable(+Spec): entries of 12, 16 and 32 bits, allocation and freeing of
      chains.  FatTime, DirEntry(+Spec), BootSector(+Spec), FatFs(+Spec): what
      is on the volume, and round trips of its encodings.
    - DiskFile(+Spec): an open file is a byte sequence with a position, through
      its chain and the table on the disk; what a write leaves alone is said byte
      by byte of the whole disk, the mark of a dirty volume set apart.
    - DirNames(+Spec), Dir, DirSpec, DirWriteSpec, RootDirSpec: long and short
      names, listing, finding, creating, removing, renaming.

    ** Files of the kernel (kernel/src/file, modules/base-file)

    - BaseFile, FatFile(+Spec), VirtFile(+Spec), Pipe(+Spec), Sockets(+Spec): the
      kinds of files; bytes written are the bytes read.
    - FdTable(+Spec): fd_manager.rs.  FdCalls(+Spec): the calls on descriptors.
    - Paths(+Spec): normal forms of paths.  Vfs(+Spec): virtual directories
      refine a map of maps.  FileNs, FileNsSpec, FileNsRootSpec: opening, links
      and removal by path, over both.  PathCalls: the calls on paths.
    - FileStat: kstat.rs, stdio.rs, the attributes and the calls on them.

    ** Tasks

    - TicketLock, RwLock, SpinLock: dependencies/kernel-sync.  Exclusion in every
      interleaving; a ticket is served after those before it.
    - Tasks(+Spec): kernel/src/task, clone, exit, wait4.  In every run from the
      boot tasks, parents, children and tids stay consistent, and cores panic
      only where no tid, no kernel stack or no memory for the copied space is
      left; whether there is memory is an argument of the calls.  A thread that a
      signal ends leaves a reference on the kernel stack it never returns to
      ([stacks]), and keeps its block and its tid for ever.
    - Futex, Signals(+Spec) over Bitset: kernel/src/syscall/futex, 
      kernel/src/signal, modules/bitset.  TimeStat: modules/timer, time_stat.rs.
    - Waiting(+Spec): modules/poll, select, epoll.  The clock is a word of 64 bits;
      a wait with the largest time-out never ends by time.

    ** Programs and calls

    - InitStack, Loader(+Spec), Programs: kernel/src/loaders and exec.  Segments
      hold the bytes of the file, the first stack is what a program expects.
      The crate xmas_elf is a parameter that gives a parsed file.
    - Syscalls: kernel/src/syscall/mod.rs, syscall_no.rs, loops.rs.  The numbers,
      the arguments, the counter of endless calls, the answer.
    - Trap: kernel/src/trap/mod.rs over Syscalls, MemorySet, Signals, TimeStat.
    - Errors: kernel/src/error.rs, modules/syscall.

    ** How the parts meet

    A trap runs the dispatcher or the page fault of the address space, then the
    signals.  An address space is a range map of areas, whose segments take
    frames and edit the page table; frames, tids and descriptors come from the
    bit allocator.  A descriptor leads to a file; a file of the volume is a
    [FatFile] over the driver's file, which is clusters of the volume over the
    allocation table over the disk.  A path goes through the links and the
    virtual directories to the driver.  The theorems follow these edges: each
    uses the contract of the part below, and those on whole calls (opening by
    path, bytes written and read back, mmap and munmap, loading a segment) go
    through all of them.

    ** The theorems

    Refinement of an abstract state: allocator as a set, page table, address
    space and virtual directories as maps, files and pipes as byte sequences
    and queues.  Invariants over all histories: frames, descriptors, tasks, the
    locks.  Functions on every branch: allocation, unmapping, protection,
    faults, opening, waiting.  A theorem says which calls it is of: what the code
    does not check (the borders of pages, the options of a new volume) is a
    hypothesis, and what happens without it is a finding.  Round trips: entries of the table, volumes,
    memory calls, signal handlers, first stacks.  Termination: chains, short
    names, epoll.  What stops the kernel or fails is stated as such.

    ** Not modelled, and why

    - Assembly, registers of the machine (satp, stvec, TLB), kernel stacks, the
      boot: effects on hardware.
    - Console, logging, block devices, the heap: output, or crates that are not
      in the repository.
    - Times through floating point ([TimeSpec::new], nanosleep, clock_gettime):
      the current time is an argument everywhere.
    - Debug formatting, unused operations ([RwLock]'s leak and force operations,
      [add_link_for_all_files_in_dir], BTree iterators), the std variants of the
      driver.
    - The kernel's own areas at boot, the preloaded image, physical bytes of
      fixed areas.
    - The test runner, the image builder, user programs, vendored crates
      (core2, log, sbi-rt, sbi-spec, numeric-enum-macro), documents.

    ** This file

    Shared vocabulary of the development: outcomes of calls that may panic,
    machine words, loops over integer ranges, bounds-checked arrays, and the
    tactics and generic lemmas the components use. *)

From Stdlib Require Export ZArith Lia.
From stdpp Require Export base gmap sets list strings option numbers tactics.

#[global] Open Scope Z_scope.

(** ** Outcomes

    A call of the kernel returns or panics ([panic!], [assert!], [unwrap] of
    [None], an index out of bounds).  [Panic] has no way back. *)

Inductive outcome (A : Type) : Type :=
| Ret (a : A)
| Panic.
Arguments Ret {A} a.
Arguments Panic {A}.

(** The call returns. *)
Definition is_Ret {A} (x : outcome A) : Prop := ∃ a, x = Ret a.

Lemma is_Ret_intro {A} (x : outcome A) a : x = Ret a → is_Ret x.
Proof. by exists a. Qed.

#[export] Instance outcome_ret : MRet outcome := @Ret.
#[export] Instance outcome_bind : MBind outcome :=
  λ A B f x, match x with Ret a => f a | Panic => Panic end.
#[export] Instance outcome_fmap : FMap outcome :=
  λ A B f x, match x with Ret a => Ret (f a) | Panic => Panic end.

#[export] Instance outcome_eq_dec {A} `{EqDecision A} : EqDecision (outcome A).
Proof. solve_decision. Defined.

(** [assert!(b)] *)
Definition assert (b : bool) : outcome unit := if b then Ret tt else Panic.

(** [o.unwrap()] *)
Definition unwrap {A} (o : option A) : outcome A :=
  match o with Some a => Ret a | None => Panic end.

Lemma bind_Ret {A B} (a : A) (f : A → outcome B) : (Ret a ≫= f) = f a.
Proof. reflexivity. Qed.

Lemma bind_Ret_inv {A B} (m : outcome A) (f : A → outcome B) b :
  (m ≫= f) = Ret b → ∃ a, m = Ret a ∧ f a = Ret b.
Proof. destruct m; simpl; naive_solver. Qed.

(** ** Calls that also change the world

    [M W A]: a call that may panic and threads a state [W]. *)

Definition M (W A : Type) : Type := W → outcome (A * W).

#[export] Instance M_ret {W} : MRet (M W) := λ A a w, Ret (a, w).
#[export] Instance M_bind {W} : MBind (M W) :=
  λ A B f x w, match x w with Ret (a, w') => f a w' | Panic => Panic end.

(** [assert!(b)] in such a call *)
Definition assertM {W} (b : bool) : M W unit := λ w, if b then Ret (tt, w) else Panic.

(** [for i in l { s = f(s, i) }] *)
Fixpoint foldMW {W S I} (f : S → I → M W S) (s : S) (l : list I) : M W S :=
  match l with
  | [] => mret s
  | i :: l' => s' ← f s i; foldMW f s' l'
  end.

Lemma M_bind_Ret {W A B} (x : M W A) (f : A → M W B) w a w' :
  x w = Ret (a, w') → (x ≫= f) w = f a w'.
Proof. intros H. unfold mbind, M_bind. by rewrite H. Qed.

(** ** Machine words

    A [w]-bit unsigned integer is a [Z] in [0, 2^w).  The kernel is built in
    release mode, so [+], [-], [*] wrap and shift amounts are masked. *)

Definition wrap (w x : Z) : Z := x mod 2 ^ w.
Abbreviation wrap8 := (wrap 8).
Abbreviation wrap16 := (wrap 16).
Abbreviation wrap32 := (wrap 32).
Abbreviation wrap64 := (wrap 64).

(** The same for a signed [w]-bit integer. *)
Definition swrap (w x : Z) : Z := (x + 2 ^ (w - 1)) mod 2 ^ w - 2 ^ (w - 1).

Definition word (w x : Z) : Prop := 0 <= x < 2 ^ w.

(** [x << k] and [!x] on [w]-bit words. *)
Definition shl (w x k : Z) : Z := wrap w (Z.shiftl x (k mod w)).
Definition wnot (w x : Z) : Z := 2 ^ w - 1 - x.

Lemma wrap_small w x : word w x → wrap w x = x.
Proof. apply Z.mod_small. Qed.

Lemma swrap_small w x : 0 < w → - 2 ^ (w - 1) <= x < 2 ^ (w - 1) → swrap w x = x.
Proof.
  intros ??. unfold swrap. assert (2 ^ w = 2 * 2 ^ (w - 1)) as ->.
  { rewrite <- Z.pow_succ_r by lia. f_equal. lia. }
  rewrite Z.mod_small; lia.
Qed.

Lemma wrap_word w x : 0 <= w → word w (wrap w x).
Proof. intros. apply Z.mod_pos_bound. lia. Qed.

Lemma word_lor w a b : 0 <= w → word w a → word w b → word w (Z.lor a b).
Proof.
  intros Hw Ha Hb. assert (Z.lor a b = Z.lor a b mod 2 ^ w) as ->; [|apply Z.mod_pos_bound; lia].
  rewrite <- Z.land_ones, Z.land_lor_distr_l, !Z.land_ones by done. by rewrite !Z.mod_small.
Qed.

Lemma wnot_testbit w x i :
  word w x → 0 <= i < w → Z.testbit (wnot w x) i = negb (Z.testbit x i).
Proof.
  intros [Hx1 Hx2] Hi. unfold wnot.
  replace (2 ^ w - 1 - x) with (Z.lnot x + 2 ^ w * 1).
  2: { unfold Z.lnot. lia. }
  rewrite <- (Z.mod_pow2_bits_low _ w i) by lia.
  rewrite Z.add_comm, Z.mul_comm, Z.add_comm.
  rewrite Z.mod_add by lia.
  rewrite Z.mod_pow2_bits_low by lia.
  apply Z.lnot_spec. lia.
Qed.

Lemma wnot_word w x : word w x → word w (wnot w x).
Proof. unfold word, wnot. lia. Qed.

Lemma testbit_high w x i : word w x → w <= i → Z.testbit x i = false.
Proof.
  intros [H1 H2] Hi. destruct (decide (x = 0)) as [->|]; [apply Z.testbit_0_l|].
  apply Z.bits_above_log2; [lia|].
  assert (0 <= w) by (destruct (decide (0 <= w)); [lia|rewrite Z.pow_neg_r in H2; lia]).
  apply Z.log2_lt_pow2; [lia|]. assert (2 ^ w <= 2 ^ i) by (apply Z.pow_le_mono_r; lia). lia.
Qed.

Lemma word_bits_zero w x :
  word w x → (∀ i, 0 <= i < w → Z.testbit x i = false) ↔ x = 0.
Proof.
  intros Hx. split.
  - intros H. apply Z.bits_inj'. intros i Hi. rewrite Z.testbit_0_l.
    destruct (decide (i < w)); [apply H; lia|]. apply (testbit_high w); [done|lia].
  - intros -> i _. apply Z.testbit_0_l.
Qed.

Lemma word_bits_inj w x y :
  word w x → word w y → (∀ i, 0 <= i < w → Z.testbit x i = Z.testbit y i) → x = y.
Proof.
  intros Hx Hy H. apply Z.bits_inj'. intros i Hi.
  destruct (decide (i < w)); [apply H; lia|].
  rewrite !(testbit_high w) by (done || lia). done.
Qed.

Lemma word_of_bits w x :
  0 <= w → 0 <= x → (∀ i, w <= i → Z.testbit x i = false) → word w x.
Proof.
  intros Hw Hx H. split; [done|].
  destruct (decide (x = 0)) as [->|]; [lia|].
  apply Z.log2_lt_pow2; [lia|]. destruct (decide (Z.log2 x < w)); [done|].
  assert (Z.testbit x (Z.log2 x) = true) by (apply Z.bit_log2; lia).
  rewrite H in *; [done|lia].
Qed.

(** Fields of a word: [x & mask] for a mask of [k] ones above [n] zeros, and
    [a | b] of a field and what is below it. *)
Lemma land_low x k : 0 <= k → Z.land x (Z.ones k) = x mod 2 ^ k.
Proof. apply Z.land_ones. Qed.

Lemma land_field x k n : 0 <= k → 0 <= n →
  Z.land x (Z.shiftl (Z.ones k) n) = (x / 2 ^ n) mod 2 ^ k * 2 ^ n.
Proof.
  intros. rewrite <- Z.land_ones, <- Z.shiftr_div_pow2, <- Z.shiftl_mul_pow2 by done.
  apply Z.bits_inj'. intros i Hi. rewrite Z.land_spec, !Z.shiftl_spec by done.
  destruct (decide (i < n)).
  - by rewrite !(Z.testbit_neg_r _ (i - n)), andb_false_r by lia.
  - rewrite Z.land_spec, Z.shiftr_spec by lia. by replace (i - n + n) with i by lia.
Qed.

Lemma lor_low a b n : 0 <= n → 0 <= b < 2 ^ n → Z.lor (a * 2 ^ n) b = a * 2 ^ n + b.
Proof.
  intros Hn Hb. assert (Z.land (a * 2 ^ n) b = 0) as H.
  { apply Z.bits_inj'. intros i Hi. rewrite Z.land_spec, Z.testbit_0_l.
    destruct (decide (i < n)).
    - by rewrite Z.mul_pow2_bits_low by lia.
    - by rewrite (testbit_high n b i), andb_false_r by (unfold word; lia). }
  rewrite <- Z.lxor_lor by done. by rewrite Z.add_nocarry_lxor.
Qed.

Lemma lor_low_comm a b n : 0 <= n → 0 <= b < 2 ^ n → Z.lor b (a * 2 ^ n) = a * 2 ^ n + b.
Proof. intros. rewrite Z.lor_comm. by apply lor_low. Qed.

(** ** Searching a range of integers *)

(** [(s..s+n).find(p)] *)
Fixpoint find_from (p : Z → bool) (s : Z) (n : nat) : option Z :=
  match n with
  | O => None
  | S n' => if p s then Some s else find_from p (s + 1) n'
  end.

Lemma find_from_Some p s n i :
  find_from p s n = Some i →
  s <= i < s + Z.of_nat n ∧ p i = true ∧ ∀ j, s <= j < i → p j = false.
Proof.
  revert s. induction n as [|n IH]; intros s; simpl; [done|].
  destruct (p s) eqn:Hp.
  - intros [= <-]. split_and!; [lia|lia|done|lia].
  - intros (?&?&Hj)%IH. split_and!; [lia|lia|done|].
    intros j ?. destruct (decide (j = s)) as [->|]; [done|]. apply Hj. lia.
Qed.

Lemma find_from_None p s n :
  find_from p s n = None → ∀ j, s <= j < s + Z.of_nat n → p j = false.
Proof.
  revert s. induction n as [|n IH]; intros s; simpl; [lia|].
  destruct (p s) eqn:Hp; [done|]. intros H j ?.
  destruct (decide (j = s)) as [->|]; [done|]. apply (IH _ H). lia.
Qed.

(** [(s..s+n).find_map(f)] where the closure may panic. *)
Fixpoint find_map_from {A} (f : Z → outcome (option A)) (s : Z) (n : nat)
    : outcome (option A) :=
  match n with
  | O => Ret None
  | S n' =>
      r ← f s;
      match r with Some a => Ret (Some a) | None => find_map_from f (s + 1) n' end
  end.

(** [x.trailing_zeros()] of a [w]-bit word: [w] when [x] is zero. *)
Definition trailing_zeros (w : nat) (x : Z) : Z :=
  default (Z.of_nat w) (find_from (Z.testbit x) 0 w).

Lemma trailing_zeros_spec w x :
  (trailing_zeros w x = Z.of_nat w ∧ ∀ j, 0 <= j < Z.of_nat w → Z.testbit x j = false) ∨
  (0 <= trailing_zeros w x < Z.of_nat w ∧ Z.testbit x (trailing_zeros w x) = true ∧
   ∀ j, 0 <= j < trailing_zeros w x → Z.testbit x j = false).
Proof.
  unfold trailing_zeros. destruct (find_from _ _ _) eqn:H; simpl.
  - right. apply find_from_Some in H. naive_solver lia.
  - left. split; [done|]. intros. by eapply find_from_None.
Qed.

(** ** Loops *)

(** [for i in l { s = f(s, i) }] with a body that may panic. *)
Fixpoint foldM {S I} (f : S → I → outcome S) (s : S) (l : list I) : outcome S :=
  match l with
  | [] => Ret s
  | i :: l' => s' ← f s i; foldM f s' l'
  end.

Lemma foldM_app {S I} (f : S → I → outcome S) s l1 l2 :
  foldM f s (l1 ++ l2) = (s' ← foldM f s l1; foldM f s' l2).
Proof.
  revert s. induction l1 as [|i l1 IH]; intros s; simpl; [done|].
  destruct (f s i); simpl; [apply IH|done].
Qed.

(** The loop [for i in a..b] keeps an invariant indexed by the next index. *)
Lemma foldM_range {S} (P : Z → S → Prop) (f : S → Z → outcome S) a n s :
  P a s →
  (∀ i s, a <= i < a + Z.of_nat n → P i s → ∃ s', f s i = Ret s' ∧ P (i + 1) s') →
  ∃ s', foldM f s (seqZ a (Z.of_nat n)) = Ret s' ∧ P (a + Z.of_nat n) s'.
Proof.
  revert a s. induction n as [|n IH]; intros a s HP Hf.
  - rewrite Z.add_0_r. by exists s.
  - rewrite seqZ_cons by lia. simpl.
    destruct (Hf a s) as (s1&->&H1); [lia|done|]. rewrite bind_Ret.
    replace (Z.pred (Z.of_nat (Datatypes.S n))) with (Z.of_nat n) by lia.
    destruct (IH (Z.succ a) s1) as (s2&->&H2); [done| |].
    { intros. apply Hf; [lia|done]. }
    exists s2. split; [done|].
    by replace (a + Z.of_nat (Datatypes.S n)) with (Z.succ a + Z.of_nat n) by lia.
Qed.

(** ** Sums over [0..n] *)

Fixpoint sum_below (f : Z → Z) (n : nat) : Z :=
  match n with O => 0 | S n' => sum_below f n' + f (Z.of_nat n') end.

Lemma sum_below_ext f g n : (∀ i, 0 <= i < Z.of_nat n → f i = g i) → sum_below f n = sum_below g n.
Proof.
  induction n as [|n IH]; intros H; simpl; [done|]. rewrite H by lia. rewrite IH; [done|].
  intros. apply H. lia.
Qed.

Lemma sum_below_add f g n : sum_below (λ i, f i + g i) n = sum_below f n + sum_below g n.
Proof. induction n as [|n IH]; simpl; [done|]. rewrite IH. lia. Qed.

(** The size of a range, counted. *)
Lemma sum_below_range lo hi n : 0 <= lo <= hi → hi <= Z.of_nat n →
  sum_below (λ i, Z.b2z ((lo <=? i) && (i <? hi))) n = hi - lo.
Proof.
  revert lo hi. induction n as [|n IH]; intros lo hi Hlo Hhi; simpl; [lia|].
  destruct (decide (hi <= Z.of_nat n)).
  - rewrite IH by lia. destruct (Z.ltb_spec (Z.of_nat n) hi); [lia|]. rewrite andb_false_r. simpl. lia.
  - assert (hi = Z.of_nat n + 1) as -> by lia. destruct (decide (lo = Z.of_nat n + 1)) as [->|].
    + rewrite (sum_below_ext _ (λ i, Z.b2z ((Z.of_nat n <=? i) && (i <? Z.of_nat n)))).
      * rewrite IH by lia. destruct (Z.leb_spec (Z.of_nat n + 1) (Z.of_nat n)); simpl; lia.
      * intros i Hi. destruct (Z.leb_spec (Z.of_nat n + 1) i), (Z.leb_spec (Z.of_nat n) i); simpl; done || lia.
    + rewrite (sum_below_ext _ (λ i, Z.b2z ((lo <=? i) && (i <? Z.of_nat n)))).
      * rewrite IH by lia. destruct (Z.leb_spec lo (Z.of_nat n)), (Z.ltb_spec (Z.of_nat n) (Z.of_nat n + 1)); simpl; lia.
      * intros i Hi. destruct (Z.ltb_spec i (Z.of_nat n + 1)), (Z.ltb_spec i (Z.of_nat n)); simpl; done || lia.
Qed.

(** Counting at most everything. *)
Lemma sum_below_bool (p : Z → bool) n : 0 <= sum_below (λ i, Z.b2z (p i)) n <= Z.of_nat n.
Proof. induction n as [|n IH]; cbn [sum_below]; [lia|]. destruct (p (Z.of_nat n)); simpl Z.b2z; lia. Qed.

(** ** Arrays indexed by [usize]: [l[i]] panics out of range *)

Definition index {A} (l : list A) (i : Z) : outcome A :=
  if i <? 0 then Panic else unwrap (l !! Z.to_nat i).

Definition update {A} (l : list A) (i : Z) (x : A) : outcome (list A) :=
  if (0 <=? i) && (i <? Z.of_nat (length l))
  then Ret (<[Z.to_nat i := x]> l) else Panic.

Lemma index_Ret {A} (l : list A) i :
  0 <= i < Z.of_nat (length l) → ∃ x, index l i = Ret x ∧ l !! Z.to_nat i = Some x.
Proof.
  intros ?. unfold index. destruct (Z.ltb_spec i 0); [lia|].
  destruct (lookup_lt_is_Some_2 l (Z.to_nat i)) as [x Hx]; [lia|].
  exists x. by rewrite Hx.
Qed.

Lemma update_Ret {A} (l : list A) i x :
  0 <= i < Z.of_nat (length l) → update l i x = Ret (<[Z.to_nat i := x]> l).
Proof.
  intros. unfold update.
  destruct (Z.leb_spec 0 i), (Z.ltb_spec i (Z.of_nat (length l))); simpl; done || lia.
Qed.

(** ** Automation *)

Create HintDb maturin.

(** Case analysis on the integer comparisons of the goal, closing the
    arithmetically absurd branches. *)
Ltac zcases :=
  repeat match goal with
  | |- context [Z.ltb ?a ?b] => destruct (Z.ltb_spec a b); try lia
  | |- context [Z.leb ?a ?b] => destruct (Z.leb_spec a b); try lia
  | |- context [Z.eqb ?a ?b] => destruct (Z.eqb_spec a b); try lia
  end; simpl; try done.

(** [lia] with division and modulo by constants. *)
Ltac dlia := Z.to_euclidean_division_equations; lia.

(** Run the head of an [outcome] computation whose result is known. *)
Ltac run H := rewrite H; rewrite ?bind_Ret; cbn beta.

(** Run the head of an [M] computation whose result is known. *)
Ltac step H := rewrite (M_bind_Ret _ _ _ _ _ H); cbv beta iota.
