(* ===== verification/Bytes.v ===== *)
(** * Byte strings

    Bytes are integers in [0, 256).  Reading and overwriting a range of a byte
    string, and little-endian numbers in it; the vocabulary of the components
    that keep byte contents. *)

From S2P Require Import Prelude.

(** Overwriting [bs] at position [p]. *)
Definition splice (p : Z) (bs data : list Z) : list Z :=
  list_inserts (Z.to_nat p) bs data.

(** The [n] bytes at position [p]. *)
Definition bytes_at (p n : Z) (data : list Z) : list Z :=
  take (Z.to_nat n) (drop (Z.to_nat p) data).

Definition len (data : list Z) : Z := Z.of_nat (length data).

(** [from_le_bytes] and [to_le_bytes] *)
Fixpoint le_combine (bs : list Z) : Z :=
  match bs with [] => 0 | b :: bs' => b + 256 * le_combine bs' end.

Fixpoint le_split (n : nat) (x : Z) : list Z :=
  match n with O => [] | S n' => x mod 256 :: le_split n' (x / 256) end.

(** ** Bytes at a position *)

Lemma len_app (a b : list Z) : len (a ++ b) = len a + len b.
Proof. unfold len. rewrite length_app. lia. Qed.

Lemma len_nonneg (l : list Z) : 0 <= len l.
Proof. unfold len. lia. Qed.

Lemma splice_nil p l : splice p [] l = l.
Proof. done. Qed.

Lemma len_splice p bs l : len (splice p bs l) = len l.
Proof. unfold len, splice. by rewrite length_inserts. Qed.

Lemma splice_lookup p bs l i : 0 <= p → p + len bs <= len l →
  splice p bs l !! i =
    if decide (p <= Z.of_nat i < p + len bs) then bs !! (i - Z.to_nat p)%nat else l !! i.
Proof.
  unfold splice, len. intros. case_decide.
  - rewrite list_lookup_inserts by lia. done.
  - destruct (decide (i < Z.to_nat p)%nat).
    + rewrite list_lookup_inserts_lt by lia. done.
    + rewrite list_lookup_inserts_ge by lia. done.
Qed.

Lemma splice_app p a b l : 0 <= p → p + len (a ++ b) <= len l →
  splice p (a ++ b) l = splice (p + len a) b (splice p a l).
Proof.
  intros Hp Hl. assert (len (a ++ b) = len a + len b) by (unfold len; rewrite length_app; lia).
  assert (0 <= len a ∧ 0 <= len b) by (unfold len; lia).
  apply list_eq. intros i. rewrite splice_lookup by done.
  rewrite splice_lookup by (rewrite ?len_splice; lia). rewrite splice_lookup by lia.
  repeat case_decide; try done; try lia.
  - rewrite lookup_app_r by (unfold len in *; lia). f_equal. unfold len in *. lia.
  - rewrite lookup_app_l by (unfold len in *; lia). done.
Qed.

Lemma len_bytes_at p n l : 0 <= p → 0 <= n → p + n <= len l → len (bytes_at p n l) = n.
Proof. unfold len, bytes_at. intros. rewrite length_take, length_drop. lia. Qed.

Lemma bytes_at_bytes p n l : Forall (word 8) l → Forall (word 8) (bytes_at p n l).
Proof. intros. by apply Forall_take, Forall_drop. Qed.

Lemma bytes_at_app p a b l : 0 <= p → 0 <= a → 0 <= b →
  bytes_at p (a + b) l = bytes_at p a l ++ bytes_at (p + a) b l.
Proof.
  unfold bytes_at. intros. rewrite !Z2Nat.inj_add by lia. rewrite <- drop_drop.
  symmetry. apply take_take_drop.
Qed.

Lemma bytes_at_lookup p n l i : 0 <= p → 0 <= n →
  bytes_at p n l !! i = if decide (Z.of_nat i < n) then l !! (Z.to_nat p + i)%nat else None.
Proof.
  intros. unfold bytes_at. case_decide.
  - rewrite lookup_take_lt by lia. by rewrite lookup_drop.
  - by rewrite lookup_take_ge by lia.
Qed.

Lemma bytes_at_splice_same p bs l : 0 <= p → p + len bs <= len l →
  bytes_at p (len bs) (splice p bs l) = bs.
Proof.
  intros. apply list_eq. intros i. assert (0 <= len bs) by (unfold len; lia).
  rewrite bytes_at_lookup by done.
  case_decide.
  - rewrite splice_lookup by done. rewrite decide_True by lia. f_equal. lia.
  - symmetry. apply lookup_ge_None. unfold len in *. lia.
Qed.

Lemma bytes_at_splice_disjoint p bs q n l : 0 <= p → p + len bs <= len l → 0 <= q → 0 <= n →
  q + n <= p ∨ p + len bs <= q →
  bytes_at q n (splice p bs l) = bytes_at q n l.
Proof.
  intros. apply list_eq. intros i. rewrite !bytes_at_lookup by done. case_decide; [|done].
  rewrite splice_lookup by done. by rewrite decide_False by lia.
Qed.

Lemma splice_bytes p bs l : 0 <= p → p + len bs <= len l →
  Forall (word 8) l → Forall (word 8) bs → Forall (word 8) (splice p bs l).
Proof.
  intros ?? Hl Hb. apply Forall_lookup. intros i x. rewrite splice_lookup by done.
  case_decide; intros Hx; [by eapply (Forall_lookup_1 _ bs)|by eapply (Forall_lookup_1 _ l)].
Qed.

Lemma len_bytes_at_min p n l : 0 <= p <= len l → 0 <= n →
  len (bytes_at p n l) = Z.min n (len l - p).
Proof. unfold len, bytes_at. intros. rewrite length_take, length_drop. lia. Qed.

Lemma bytes_at_bytes_at p n q k l : 0 <= p → 0 <= q → 0 <= k → q + k <= n →
  bytes_at q k (bytes_at p n l) = bytes_at (p + q) k l.
Proof.
  intros. apply list_eq. intros i. rewrite !bytes_at_lookup by lia.
  case_decide; [|done]. rewrite decide_True by lia. f_equal. lia.
Qed.

Lemma bytes_at_splice_inside b n o bs l :
  0 <= b → 0 <= o → o + len bs <= n → b + n <= len l →
  bytes_at b n (splice (b + o) bs l) = splice o bs (bytes_at b n l).
Proof.
  intros. assert (0 <= len bs) by (unfold len; lia).
  apply list_eq. intros i. rewrite bytes_at_lookup by lia.
  rewrite !splice_lookup by (rewrite ?len_bytes_at; lia).
  rewrite bytes_at_lookup by lia.
  repeat case_decide; try done; try lia. f_equal. lia.
Qed.

(** ** Little-endian numbers *)

Lemma le_combine_bound bs : Forall (word 8) bs → word (8 * len bs) (le_combine bs).
Proof.
  unfold word, len. induction 1 as [|b bs Hb Hbs IH]; simpl le_combine; [simpl; lia|].
  replace (8 * Z.of_nat (length (b :: bs))) with (8 + 8 * Z.of_nat (length bs)) by (simpl; lia).
  rewrite Z.pow_add_r by lia. change (2 ^ 8) with 256 in *. lia.
Qed.

Lemma length_le_split n x : length (le_split n x) = n.
Proof. revert x. induction n; intros; simpl; auto. Qed.

Lemma le_split_bytes n x : Forall (word 8) (le_split n x).
Proof.
  revert x. induction n; intros; simpl; constructor; [|done].
  apply Z.mod_pos_bound. done.
Qed.

Lemma le_combine_split n x : le_combine (le_split n x) = x mod 2 ^ (8 * Z.of_nat n).
Proof.
  revert x. induction n as [|n IH]; intros x; simpl le_split; simpl le_combine.
  - by rewrite Z.mod_1_r.
  - rewrite IH. replace (8 * Z.of_nat (S n)) with (8 + 8 * Z.of_nat n) by lia.
    rewrite Z.pow_add_r by lia. rewrite Z.rem_mul_r by lia. done.
Qed.

Lemma le_combine_app a b :
  le_combine (a ++ b) = le_combine a + 2 ^ (8 * len a) * le_combine b.
Proof.
  unfold len. induction a as [|x a IH]; simpl app; simpl le_combine; [simpl length; lia|].
  rewrite IH. replace (8 * Z.of_nat (length (x :: a))) with (8 + 8 * Z.of_nat (length a))
    by (simpl; lia).
  rewrite Z.pow_add_r by lia. change (2 ^ 8) with 256. lia.
Qed.

(** Reading the [n]-byte little-endian number at [p]. *)
Definition le_at (p n : Z) (l : list Z) : Z := le_combine (bytes_at p n l).

Lemma le_at_bound p n l : Forall (word 8) l → 0 <= p → 0 <= n → p + n <= len l →
  word (8 * n) (le_at p n l).
Proof.
  intros. unfold le_at. rewrite <- (len_bytes_at p n l) at 1 by done.
  by apply le_combine_bound, bytes_at_bytes.
Qed.

(** A number written at [p] is the number read there; others are kept. *)
Lemma le_at_splice_same p n x l : 0 <= p → p + Z.of_nat n <= len l →
  le_at p (Z.of_nat n) (splice p (le_split n x) l) = x mod 2 ^ (8 * Z.of_nat n).
Proof.
  intros. unfold le_at. assert (len (le_split n x) = Z.of_nat n) as Hn
    by (unfold len; by rewrite length_le_split).
  rewrite <- Hn at 1. rewrite bytes_at_splice_same by lia. apply le_combine_split.
Qed.

Lemma le_at_splice_disjoint p n x q k l : 0 <= p → p + Z.of_nat n <= len l →
  0 <= q → 0 <= k → q + k <= p ∨ p + Z.of_nat n <= q →
  le_at q k (splice p (le_split n x) l) = le_at q k l.
Proof.
  intros. unfold le_at. rewrite bytes_at_splice_disjoint; try done;
    unfold len in *; rewrite length_le_split; lia.
Qed.

Lemma bytes_at_0 p l : bytes_at p 0 l = [].
Proof. done. Qed.

(** Bytes that were found at a position lie inside. *)
Lemma bytes_at_inside p bs l : 0 <= p <= len l → bs = bytes_at p (len bs) l → p + len bs <= len l.
Proof.
  intros Hp Hb. apply (f_equal len) in Hb. unfold bytes_at, len in *.
  rewrite length_take, length_drop in Hb. lia.
Qed.

(** ** Writing at a position, past the end too *)

(** [bs] written at [p] over, and past the end of, [l]. *)
Definition overwrite (p : Z) (bs l : list Z) : list Z :=
  take (Z.to_nat p) l ++ bs ++ drop (Z.to_nat (p + len bs)) l.

Lemma len_overwrite p bs l : 0 <= p <= len l → len (overwrite p bs l) = Z.max (len l) (p + len bs).
Proof.
  intros Hp. unfold overwrite. rewrite !len_app. unfold len in *.
  rewrite length_take, length_drop. lia.
Qed.

Lemma overwrite_end bs l : overwrite (len l) bs l = l ++ bs.
Proof.
  unfold overwrite. rewrite take_ge by (unfold len; lia). rewrite drop_ge by (unfold len; lia).
  by rewrite app_nil_r.
Qed.

Lemma overwrite_nil p l : 0 <= p → overwrite p [] l = l.
Proof. intros. unfold overwrite. simpl. rewrite Z.add_0_r. apply take_drop. Qed.

Lemma overwrite_app p a b l : 0 <= p <= len l →
  overwrite (p + len a) b (overwrite p a l) = overwrite p (a ++ b) l.
Proof.
  intros Hp. unfold overwrite. rewrite len_app.
  assert (length (take (Z.to_nat p) l) = Z.to_nat p) as Ht by (unfold len in *; rewrite length_take; lia).
  assert (Z.to_nat (p + len a) = (length (take (Z.to_nat p) l) + length a)%nat) as He
    by (rewrite Ht; unfold len; lia).
  rewrite He, firstn_app_2, take_app_length.
  replace (Z.to_nat (p + len a + len b)) with (length (take (Z.to_nat p) l) + (length a + length b))%nat
    by (rewrite Ht; unfold len; lia).
  replace (Z.to_nat (p + (len a + len b)))
    with (length (take (Z.to_nat p) l) + length a + length b)%nat by (rewrite Ht; unfold len; lia).
  by rewrite !drop_app_add, drop_drop, <- !app_assoc.
Qed.

(** Inside the bytes, [splice] and [overwrite] are the same. *)
Lemma splice_overwrite p bs l : 0 <= p → p + len bs <= len l → splice p bs l = overwrite p bs l.
Proof.
  intros. assert (0 <= len bs) by (unfold len; lia). apply list_eq. intros i.
  rewrite splice_lookup by done. unfold overwrite, len in *. case_decide as Hd.
  - rewrite lookup_app_r by (rewrite length_take; lia). rewrite length_take.
    rewrite lookup_app_l by lia. f_equal. lia.
  - destruct (decide (i < Z.to_nat p)%nat).
    + rewrite lookup_app_l by (rewrite length_take; lia). by rewrite lookup_take_lt.
    + rewrite !lookup_app_r by (rewrite ?length_take; lia). rewrite lookup_drop. f_equal.
      rewrite length_take. lia.
Qed.

(** The first [s] bytes as the content of a file, overwritten in place. *)
Lemma overwrite_take p bs s l : 0 <= p <= s → s <= len l → p + len bs <= len l →
  overwrite p bs (take (Z.to_nat s) l) = take (Z.to_nat (Z.max s (p + len bs))) (splice p bs l).
Proof.
  intros. rewrite splice_overwrite by lia. unfold overwrite, len in *.
  rewrite take_take, !take_app, !take_take, length_take, skipn_firstn_comm.
  f_equal; [f_equal; lia|]. f_equal; [symmetry; apply take_ge; lia|f_equal; lia].
Qed.

(** ** Ranges of a concatenation *)

Lemma bytes_at_app_r o n a b : 0 <= o → bytes_at (len a + o) n (a ++ b) = bytes_at o n b.
Proof.
  intros. unfold bytes_at, len. by rewrite Z2Nat.inj_add, Nat2Z.id, drop_app_add by lia.
Qed.

Lemma bytes_at_app_l o n a b : 0 <= o → o + n <= len a → bytes_at o n (a ++ b) = bytes_at o n a.
Proof.
  intros. unfold bytes_at, len in *. rewrite drop_app, take_app. rewrite length_drop.
  replace (Z.to_nat n - (length a - Z.to_nat o))%nat with 0%nat by lia. by rewrite take_0, app_nil_r.
Qed.

Lemma bytes_at_app_both o n a b : 0 <= o <= len a → len a <= o + n →
  bytes_at o n (a ++ b) = bytes_at o (len a - o) a ++ bytes_at 0 (n - (len a - o)) b.
Proof.
  intros. replace n with (len a - o + (n - (len a - o))) at 1 by lia.
  rewrite bytes_at_app by lia. rewrite bytes_at_app_l by lia. f_equal.
  replace (o + (len a - o)) with (len a + 0) by lia. by apply bytes_at_app_r.
Qed.

Lemma splice_app_r o bs a b : 0 <= o → splice (len a + o) bs (a ++ b) = a ++ splice o bs b.
Proof.
  intros. unfold splice, len. by rewrite Z2Nat.inj_add, Nat2Z.id, list_inserts_app_r by lia.
Qed.

Lemma splice_app_l o bs a b : 0 <= o → o + len bs <= len a →
  splice o bs (a ++ b) = splice o bs a ++ b.
Proof.
  intros. rewrite !splice_overwrite by (rewrite ?len_app; pose proof (len_nonneg b); lia).
  unfold overwrite, len in *. rewrite take_app_le by lia. rewrite drop_app_le by lia.
  by rewrite <- !app_assoc.
Qed.

(** A write across the border. *)
Lemma splice_app_both o x y a b : 0 <= o → o + len x = len a → len y <= len b →
  splice o (x ++ y) (a ++ b) = splice o x a ++ splice 0 y b.
Proof.
  intros Ho Hx Hy. rewrite splice_app by (try rewrite !len_app; lia).
  rewrite splice_app_l by lia. replace (o + len x) with (len (splice o x a) + 0) by (rewrite len_splice; lia).
  by apply splice_app_r.
Qed.

Lemma bytes_at_take q n s l : 0 <= q → 0 <= n → q + n <= s →
  bytes_at q n (take (Z.to_nat s) l) = bytes_at q n l.
Proof. intros. unfold bytes_at. rewrite skipn_firstn_comm, take_take. f_equal. lia. Qed.

Lemma bytes_at_all n l : len l = n → bytes_at 0 n l = l.
Proof. intros <-. unfold bytes_at, len. rewrite Nat2Z.id. apply firstn_all. Qed.

Lemma splice_all bs l : len bs = len l → splice 0 bs l = bs.
Proof.
  intros H. rewrite splice_overwrite by lia. unfold overwrite, len in *. rewrite drop_ge by lia.
  by rewrite take_0, app_nil_r.
Qed.

(** ** Ranges after a write that may grow the bytes *)

Lemma bytes_at_overwrite_before q n p bs l : 0 <= q → 0 <= n → q + n <= p <= len l →
  bytes_at q n (overwrite p bs l) = bytes_at q n l.
Proof.
  intros. unfold overwrite. rewrite bytes_at_app_l.
  - by rewrite bytes_at_take by lia.
  - done.
  - unfold len in *. rewrite length_take. lia.
Qed.

Lemma bytes_at_overwrite_same p bs l : 0 <= p <= len l →
  bytes_at p (len bs) (overwrite p bs l) = bs.
Proof.
  intros. unfold overwrite. assert (p = len (take (Z.to_nat p) l) + 0) as E
    by (unfold len in *; rewrite length_take; lia).
  rewrite E at 1. rewrite bytes_at_app_r by lia. rewrite bytes_at_app_l by lia. by apply bytes_at_all.
Qed.

Lemma bytes_at_overwrite_after q n p bs l : 0 <= p → p + len bs <= q → q <= len l →
  bytes_at q n (overwrite p bs l) = bytes_at q n l.
Proof.
  intros. pose proof (len_nonneg bs). unfold overwrite. rewrite app_assoc.
  assert (q = len (take (Z.to_nat p) l ++ bs) + (q - p - len bs)) as E
    by (rewrite len_app; unfold len in *; rewrite length_take; lia).
  rewrite E at 1. rewrite bytes_at_app_r by lia. unfold bytes_at. rewrite drop_drop. do 2 f_equal. lia.
Qed.

(** Writing back a part that was changed at its start. *)
Lemma splice_inside s k x l : 0 <= s → len x <= k → s + k <= len l →
  splice s (splice 0 x (bytes_at s k l)) l = splice s x l.
Proof.
  intros. pose proof (len_nonneg x). assert (len (bytes_at s k l) = k) as Hk by (apply len_bytes_at; lia).
  apply list_eq. intros i. rewrite !splice_lookup by (rewrite ?len_splice; lia). rewrite len_splice.
  repeat case_decide; try done; try lia.
  - f_equal. lia.
  - rewrite bytes_at_lookup, decide_True by lia. f_equal. lia.
Qed.
