(* ===== verification/BitAlloc.v ===== *)
(** * The segment-tree bit allocator ([dependencies/bitmap-allocator])

    [BitAlloc] is the source's trait as a class of operations.  The leaf
    [BitAlloc16] and the node [BitAllocCascade16 T] are its two instances, and
    [Tower] nests them as the type aliases [BitAlloc256 .. BitAlloc256M] do.
    [BitAllocSpec] is the contract of the trait, stated on an abstract view:
    the set of free bits, as a boolean function. *)

From S2P Require Import Prelude.

(** ** The [bit_field] crate

    [BitField] of a [u16]: third-party code, a parameter.  [BitFieldSpec]
    states what its documentation promises for in-range arguments. *)

Class BitFieldU16 := {
  get_bit : Z → Z → outcome bool;
  set_bit : Z → Z → bool → outcome Z;
  get_bits : Z → Z → Z → outcome Z;
  set_bits : Z → Z → Z → Z → outcome Z }.

Class BitFieldSpec (BF : BitFieldU16) : Prop := {
  get_bit_spec v i : word 16 v → 0 <= i < 16 → get_bit v i = Ret (Z.testbit v i);
  set_bit_spec v i b : word 16 v → 0 <= i < 16 →
    ∃ v', set_bit v i b = Ret v' ∧ word 16 v' ∧
      ∀ j, 0 <= j → Z.testbit v' j = if j =? i then b else Z.testbit v j;
  get_bits_spec v s e : word 16 v → 0 <= s < e → e <= 16 →
    ∃ r, get_bits v s e = Ret r ∧ word (e - s) r ∧
      ∀ j, 0 <= j < e - s → Z.testbit r j = Z.testbit v (s + j);
  set_bits_spec v s e x : word 16 v → 0 <= s < e → e <= 16 → word (e - s) x →
    ∃ v', set_bits v s e x = Ret v' ∧ word 16 v' ∧
      ∀ j, 0 <= j → Z.testbit v' j =
        if (s <=? j) && (j <? e) then Z.testbit x (j - s) else Z.testbit v j }.

(** ** The trait *)

Class BitAlloc (T : Type) := {
  CAP : Z;
  DEFAULT : T;
  alloc : T → outcome (option Z * T);
  dealloc : T → Z → outcome T;
  insert : T → Z → Z → outcome T;
  remove : T → Z → Z → outcome T;
  is_empty : T → bool;
  test : T → Z → outcome bool;
  next : T → Z → outcome (option Z) }.
Arguments CAP T {_} : assert.

(** [fn any] of both implementations. *)
Definition any {T} `{BitAlloc T} (ba : T) : bool := negb (is_empty ba).

(** ** Contiguous allocation, shared by both implementations *)

Section contiguous.
Context {T : Type} `{BitAlloc T}.

(** The [while] loop of [find_contiguous]; [offset] grows at every turn, so
    [capacity] turns are enough ([find_contiguous_spec]). *)
Fixpoint find_contiguous_loop (fuel : nat) (ba : T) (capacity size align_log2 : Z)
    (base offset : Z) : outcome (option Z) :=
  match fuel with
  | O => Panic
  | S fuel =>
      if offset <? capacity then
        r ← next ba offset;
        match r with
        | Some nxt =>
            if negb (nxt =? offset) then
              _ ← assert (offset <? nxt);
              let base := shl 64 (Z.shiftr (nxt - 1) align_log2 + 1) align_log2 in
              _ ← assert (negb (offset =? nxt));
              find_contiguous_loop fuel ba capacity size align_log2 base base
            else
              let offset := offset + 1 in
              if offset - base =? size then Ret (Some base)
              else find_contiguous_loop fuel ba capacity size align_log2 base offset
        | None => Ret None
        end
      else Ret None
  end.

Definition find_contiguous (ba : T) (capacity size align_log2 : Z)
    : outcome (option Z) :=
  if (capacity <? shl 64 1 align_log2) || is_empty ba then Ret None
  else find_contiguous_loop (Z.to_nat capacity + 1) ba capacity size align_log2 0 0.

Definition alloc_contiguous (ba : T) (size align_log2 : Z) : outcome (option Z * T) :=
  r ← find_contiguous ba (CAP T) size align_log2;
  match r with
  | Some base =>
      ba' ← remove ba base (base + size);
      Ret (Some base, ba')
  | None => Ret (None, ba)
  end.
End contiguous.

(** ** The leaf *)

Record BitAlloc16 := mkBitAlloc16 { bits16 : Z }.

Section leaf.
Context {BF : BitFieldU16}.

Definition leaf_alloc (ba : BitAlloc16) : outcome (option Z * BitAlloc16) :=
  let i := trailing_zeros 16 (bits16 ba) in
  if i <? 16 then
    v ← set_bit (bits16 ba) i false;
    Ret (Some i, mkBitAlloc16 v)
  else Ret (None, ba).

Definition leaf_test (ba : BitAlloc16) (key : Z) : outcome bool :=
  get_bit (bits16 ba) key.

Definition leaf_dealloc (ba : BitAlloc16) (key : Z) : outcome BitAlloc16 :=
  t ← leaf_test ba key;
  _ ← assert (negb t);
  v ← set_bit (bits16 ba) key true;
  Ret (mkBitAlloc16 v).

Definition leaf_insert (ba : BitAlloc16) (start end_ : Z) : outcome BitAlloc16 :=
  ones ← get_bits 0xffff start end_;
  v ← set_bits (bits16 ba) start end_ ones;
  Ret (mkBitAlloc16 v).

Definition leaf_remove (ba : BitAlloc16) (start end_ : Z) : outcome BitAlloc16 :=
  v ← set_bits (bits16 ba) start end_ 0;
  Ret (mkBitAlloc16 v).

Definition leaf_is_empty (ba : BitAlloc16) : bool := bits16 ba =? 0.

Definition leaf_next (ba : BitAlloc16) (key : Z) : outcome (option Z) :=
  find_map_from (λ i, b ← get_bit (bits16 ba) i;
                      Ret (if b : bool then Some i else None))
                key (Z.to_nat (16 - key)).

#[export] Instance BitAlloc16_ops : BitAlloc BitAlloc16 := {
  CAP := 16;
  DEFAULT := mkBitAlloc16 0;
  alloc := leaf_alloc;
  dealloc := leaf_dealloc;
  insert := leaf_insert;
  remove := leaf_remove;
  is_empty := leaf_is_empty;
  test := leaf_test;
  next := leaf_next }.
End leaf.

(** ** The node: sixteen sub-allocators and a summary bit for each *)

Record BitAllocCascade16 (T : Type) := mkCascade { bitset : Z; sub : list T }.
Arguments mkCascade {T}.
Arguments bitset {T}.
Arguments sub {T}.

Section node.
Context {BF : BitFieldU16} {T : Type} `{BitAlloc T}.
Implicit Types ba : BitAllocCascade16 T.

Definition node_is_empty ba : bool := bitset ba =? 0.

Definition node_alloc ba : outcome (option Z * BitAllocCascade16 T) :=
  if negb (node_is_empty ba) then
    let i := trailing_zeros 16 (bitset ba) in
    x ← index (sub ba) i;
    '(r, x') ← alloc x;
    k ← unwrap r;
    let res := k + i * CAP T in
    sub' ← update (sub ba) i x';
    bs ← set_bit (bitset ba) i (negb (is_empty x'));
    Ret (Some res, mkCascade bs sub')
  else Ret (None, ba).

Definition node_dealloc ba (key : Z) : outcome (BitAllocCascade16 T) :=
  let i := key / CAP T in
  x ← index (sub ba) i;
  x' ← dealloc x (key mod CAP T);
  sub' ← update (sub ba) i x';
  bs ← set_bit (bitset ba) i true;
  Ret (mkCascade bs sub').

(** One turn of the loop of [for_range]. *)
Definition for_range_body (f : T → Z → Z → outcome T) (start end_ : Z) ba (i : Z)
    : outcome (BitAllocCascade16 T) :=
  let b := if start / CAP T =? i then start mod CAP T else 0 in
  let e := if end_ / CAP T =? i then end_ mod CAP T else CAP T in
  x ← index (sub ba) i;
  x' ← f x b e;
  sub' ← update (sub ba) i x';
  bs ← set_bit (bitset ba) i (negb (is_empty x'));
  Ret (mkCascade bs sub').

Definition for_range (f : T → Z → Z → outcome T) ba (start end_ : Z)
    : outcome (BitAllocCascade16 T) :=
  _ ← assert (start <=? end_);
  _ ← assert (end_ <=? CAP T * 16);
  let first := start / CAP T in
  let last := wrap64 (end_ - 1) / CAP T in
  foldM (for_range_body f start end_) ba (seqZ first (last - first + 1)).

Definition node_insert := for_range insert.
Definition node_remove := for_range remove.

Definition node_test ba (key : Z) : outcome bool :=
  x ← index (sub ba) (key / CAP T);
  test x (key mod CAP T).

Definition node_next ba (key : Z) : outcome (option Z) :=
  let idx := key / CAP T in
  find_map_from
    (λ i, b ← get_bit (bitset ba) i;
          if b : bool then
            let key := if i =? idx then key - CAP T * idx else 0 in
            x ← index (sub ba) i;
            r ← next x key;
            Ret (option_map (λ k, k + CAP T * i) r)
          else Ret None)
    idx (Z.to_nat (16 - idx)).

#[export] Instance BitAllocCascade16_ops : BitAlloc (BitAllocCascade16 T) := {
  CAP := CAP T * 16;
  DEFAULT := mkCascade 0 (replicate 16 DEFAULT);
  alloc := node_alloc;
  dealloc := node_dealloc;
  insert := node_insert;
  remove := node_remove;
  is_empty := node_is_empty;
  test := node_test;
  next := node_next }.
End node.

(** ** The type aliases *)

Fixpoint Tower (n : nat) : Type :=
  match n with O => BitAlloc16 | S n => BitAllocCascade16 (Tower n) end.

Definition BitAlloc256 : Type := Tower 1.
Definition BitAlloc4K : Type := Tower 2.
Definition BitAlloc64K : Type := Tower 3.
Definition BitAlloc1M : Type := Tower 4.
Definition BitAlloc16M : Type := Tower 5.
Definition BitAlloc256M : Type := Tower 6.

#[export] Instance Tower_ops {BF : BitFieldU16} (n : nat) : BitAlloc (Tower n) :=
  nat_rect (λ n, BitAlloc (Tower n)) BitAlloc16_ops
           (λ n ops, @BitAllocCascade16_ops BF (Tower n) ops) n.
