(* ===== verification/BitAllocSpec.v ===== *)
(** * Correctness of the bit allocator

    The contract of [BitAlloc] ([BitAllocSpec]) over an abstract view, proved
    for the leaf, lifted through a node, and so for every tower of nodes; then
    first-fit correctness and termination of the contiguous allocation, proved
    once against the contract. *)

From S2P Require Import Prelude BitAlloc.

(** ** The contract *)

(** [wf] is the representation invariant, [free t] the set of free bits. *)
Class BitAllocView (T : Type) := {
  wf : T → Prop;
  free : T → Z → bool }.

(** [t'] is [t] with the bits of [[s, e)] all set to [v]. *)
Definition range_set {T} `{BitAllocView T} (t t' : T) (s e : Z) (v : bool) : Prop :=
  wf t' ∧ ∀ j, free t' j = if (s <=? j) && (j <? e) then v else free t j.

(** [k] is the lowest free bit of [t] that is not below [from]. *)
Definition lowest_free {T} `{BitAllocView T} (t : T) (from k : Z) : Prop :=
  from <= k ∧ free t k = true ∧ ∀ j, from <= j < k → free t j = false.

Class BitAllocSpec (T : Type) {ops : BitAlloc T} {V : BitAllocView T} : Prop := {
  cap_pos : 0 < CAP T;
  wf_DEFAULT : wf (DEFAULT : T);
  free_DEFAULT k : free (DEFAULT : T) k = false;
  free_range (t : T) k : wf t → free t k = true → 0 <= k < CAP T;
  is_empty_spec (t : T) : wf t → is_empty t = true ↔ ∀ k, free t k = false;
  test_spec (t : T) k : wf t → 0 <= k < CAP T → test t k = Ret (free t k);
  alloc_spec (t : T) : wf t →
    (∃ k t', alloc t = Ret (Some k, t') ∧ lowest_free t 0 k ∧
             range_set t t' k (k + 1) false) ∨
    (alloc t = Ret (None, t) ∧ ∀ k, free t k = false);
  dealloc_spec (t : T) k : wf t → 0 <= k < CAP T →
    if free t k then dealloc t k = Panic
    else ∃ t', dealloc t k = Ret t' ∧ range_set t t' k (k + 1) true;
  insert_spec (t : T) s e : wf t → 0 <= s < e → e <= CAP T →
    ∃ t', insert t s e = Ret t' ∧ range_set t t' s e true;
  remove_spec (t : T) s e : wf t → 0 <= s < e → e <= CAP T →
    ∃ t', remove t s e = Ret t' ∧ range_set t t' s e false;
  next_spec (t : T) k : wf t → 0 <= k →
    (∃ j, next t k = Ret (Some j) ∧ lowest_free t k j) ∨
    (next t k = Ret None ∧ ∀ j, k <= j → free t j = false) }.

#[export] Instance BitAlloc16_view : BitAllocView BitAlloc16 := {
  wf ba := word 16 (bits16 ba);
  free ba k := (0 <=? k) && Z.testbit (bits16 ba) k }.

#[export] Instance BitAllocCascade16_view {BF : BitFieldU16} {T} `{BitAlloc T, BitAllocView T} :
    BitAllocView (BitAllocCascade16 T) := {
  wf ba := word 16 (bitset ba) ∧ length (sub ba) = 16%nat ∧
           ∀ i x, sub ba !! i = Some x →
                  wf x ∧ Z.testbit (bitset ba) (Z.of_nat i) = negb (is_empty x);
  free ba k := (0 <=? k) && match sub ba !! Z.to_nat (k / CAP T) with
                            | Some x => free x (k mod CAP T)
                            | None => false
                            end }.

#[export] Instance Tower_view {BF : BitFieldU16} (n : nat) : BitAllocView (Tower n) :=
  nat_rect (λ n, BitAllocView (Tower n)) BitAlloc16_view
    (λ n V, @BitAllocCascade16_view BF (Tower n) (Tower_ops n) V) n.

(** The bit numbers of a view are first-fit for [size] and [align_log2]: the
    block at [base] is free, aligned and inside the bitmap. *)
Definition fits {T} `{BitAlloc T, BitAllocView T} (t : T) (size align_log2 base : Z) : Prop :=
  0 <= base ∧ base + size <= CAP T ∧ base mod 2 ^ align_log2 = 0 ∧
  ∀ j, base <= j < base + size → free t j = true.

(** ** The leaf *)

Section leaf.
Context {BF : BitFieldU16} {BFS : BitFieldSpec BF}.

Lemma leaf_free_high (t : BitAlloc16) k : wf t → 16 <= k → free t k = false.
Proof. intros Hwf ?. simpl. zcases. by apply (testbit_high 16). Qed.

Lemma leaf_alloc_spec (t : BitAlloc16) : wf t →
  (∃ k t', alloc t = Ret (Some k, t') ∧ lowest_free t 0 k ∧
           range_set t t' k (k + 1) false) ∨
  (alloc t = Ret (None, t) ∧ ∀ k, free t k = false).
Proof.
  intros Hwf. cbn [alloc BitAlloc16_ops]. unfold leaf_alloc.
  destruct (trailing_zeros_spec 16 (bits16 t)) as [[Htz H0]|(Htz&H1&H0)].
  - right. rewrite Htz. split; [done|]. intros k.
    destruct (decide (16 <= k)); [by apply leaf_free_high|].
    simpl. zcases. apply H0. lia.
  - left. set (k := trailing_zeros 16 (bits16 t)) in *.
    destruct (Z.ltb_spec k 16); [|lia].
    destruct (set_bit_spec (bits16 t) k false) as (v&Hv&Hw&Hb); [done|lia|].
    rewrite Hv. eexists _, _. split; [done|]. split.
    + split_and!; simpl; [lia|zcases|]. intros j ?. zcases. apply H0. lia.
    + split; [done|]. intros j. simpl. zcases; rewrite Hb by lia; zcases.
Qed.

Lemma leaf_set_bits (t : BitAlloc16) s e x v : wf t → 0 <= s < e → e <= 16 →
  word (e - s) x → (∀ j, 0 <= j < e - s → Z.testbit x j = v) →
  ∃ b, set_bits (bits16 t) s e x = Ret b ∧ range_set t (mkBitAlloc16 b) s e v.
Proof.
  intros Hwf ?? Hx Hv. destruct (set_bits_spec (bits16 t) s e x) as (b&Hb&Hw&Ht); try done.
  exists b. split; [done|]. split; [done|]. intros j. simpl. zcases; rewrite Ht by lia; zcases.
  apply Hv. lia.
Qed.

Lemma leaf_insert_spec (t : BitAlloc16) s e : wf t → 0 <= s < e → e <= 16 →
  ∃ t', insert t s e = Ret t' ∧ range_set t t' s e true.
Proof.
  intros. cbn [insert BitAlloc16_ops]. unfold leaf_insert.
  destruct (get_bits_spec 0xffff s e) as (r&Hr&Hw&Hb); [done|lia|lia|]. run Hr.
  destruct (leaf_set_bits t s e r true) as (b&Hs&?); [done..| |].
  { intros j ?. rewrite Hb by lia. change 0xffff with (Z.ones 16).
    apply Z.ones_spec_low. lia. }
  run Hs. eauto.
Qed.

Lemma leaf_remove_spec (t : BitAlloc16) s e : wf t → 0 <= s < e → e <= 16 →
  ∃ t', remove t s e = Ret t' ∧ range_set t t' s e false.
Proof.
  intros. cbn [remove BitAlloc16_ops]. unfold leaf_remove.
  destruct (leaf_set_bits t s e 0 false) as (b&Hs&?); [done..| | |].
  { unfold word. pose proof (Z.pow_pos_nonneg 2 (e - s)). lia. }
  { intros. apply Z.testbit_0_l. }
  run Hs. eauto.
Qed.

Lemma leaf_dealloc_spec (t : BitAlloc16) k : wf t → 0 <= k < 16 →
  if free t k then dealloc t k = Panic
  else ∃ t', dealloc t k = Ret t' ∧ range_set t t' k (k + 1) true.
Proof.
  intros Hwf Hk. cbn [dealloc free BitAlloc16_ops BitAlloc16_view].
  unfold leaf_dealloc, leaf_test. rewrite get_bit_spec by done. rewrite bind_Ret.
  destruct (Z.leb_spec 0 k); [|lia]. simpl.
  destruct (Z.testbit (bits16 t) k) eqn:Hb; [done|]. simpl.
  destruct (set_bit_spec (bits16 t) k true) as (v&Hv&Hw&Hb'); [done..|]. run Hv.
  eexists. split; [done|]. split; [done|]. intros j. simpl.
  zcases; rewrite Hb' by lia; zcases.
Qed.

Lemma leaf_next_find (t : BitAlloc16) k n : wf t → 0 <= k → k + Z.of_nat n <= 16 →
  find_map_from (λ i, b ← get_bit (bits16 t) i;
                      Ret (if b : bool then Some i else None)) k n
  = Ret (find_from (Z.testbit (bits16 t)) k n).
Proof.
  intros Hwf. revert k. induction n as [|n IH]; intros k ??; simpl; [done|].
  rewrite get_bit_spec by (done || lia). rewrite !bind_Ret.
  destruct (Z.testbit _ k); [done|]. apply IH; lia.
Qed.

Lemma leaf_next_spec (t : BitAlloc16) k : wf t → 0 <= k →
  (∃ j, next t k = Ret (Some j) ∧ lowest_free t k j) ∨
  (next t k = Ret None ∧ ∀ j, k <= j → free t j = false).
Proof.
  intros Hwf Hk. cbn [next BitAlloc16_ops]. unfold leaf_next.
  destruct (decide (k < 16)).
  - rewrite leaf_next_find by (done || lia).
    destruct (find_from _ _ _) as [j|] eqn:Hf.
    + apply find_from_Some in Hf as (?&Hj&Hlow). left. exists j. split; [done|].
      split_and!; [lia|simpl; zcases|]. intros i ?. simpl. zcases. apply Hlow. lia.
    + right. split; [done|]. intros j ?. destruct (decide (16 <= j)).
      { by apply leaf_free_high. }
      simpl. zcases. eapply find_from_None; [done|lia].
  - replace (Z.to_nat (16 - k)) with O by lia. right. split; [done|].
    intros. apply leaf_free_high; [done|lia].
Qed.

#[export] Instance BitAlloc16_spec : BitAllocSpec BitAlloc16.
Proof.
  split.
  - done.
  - done.
  - intros k. simpl. rewrite Z.testbit_0_l. apply andb_false_r.
  - intros t k Hwf Hf. destruct (decide (16 <= k)).
    { by rewrite leaf_free_high in Hf. }
    simpl in *. destruct (Z.leb_spec 0 k); [lia|done].
  - intros t Hwf. simpl. unfold leaf_is_empty. rewrite Z.eqb_eq.
    rewrite <- (word_bits_zero 16) by done. split; intros Hz k.
    + destruct (decide (16 <= k)); [by apply leaf_free_high|].
      simpl. zcases. apply Hz. lia.
    + intros ?. specialize (Hz k). simpl in Hz. destruct (Z.leb_spec 0 k); [done|lia].
  - intros t k Hwf Hk. simpl. unfold leaf_test. simpl in Hk.
    rewrite get_bit_spec by done. zcases.
  - apply leaf_alloc_spec.
  - apply leaf_dealloc_spec.
  - apply leaf_insert_spec.
  - apply leaf_remove_spec.
  - apply leaf_next_spec.
Qed.
End leaf.

(** ** The node *)

Section node.
Context {BF : BitFieldU16} {BFS : BitFieldSpec BF}.
Context {T : Type} {ops : BitAlloc T} {V : BitAllocView T} {HT : BitAllocSpec T}.
Implicit Types t : BitAllocCascade16 T.

Local Lemma cap_T : 0 < CAP T.
Proof. apply cap_pos. Qed.

Lemma div_range k : 0 <= k < CAP T * 16 → 0 <= k / CAP T < 16.
Proof.
  pose proof cap_T. intros. split; [apply Z.div_pos; lia|].
  apply Z.div_lt_upper_bound; lia.
Qed.

Lemma div_interval k i : i * CAP T <= k < (i + 1) * CAP T ↔ k / CAP T = i.
Proof.
  pose proof cap_T. pose proof (Z.div_mod k (CAP T)). pose proof (Z.mod_pos_bound k (CAP T)).
  split; [|nia]. intros. symmetry. apply (Z.div_unique_pos _ _ _ (k - i * CAP T)); lia.
Qed.

Lemma mod_interval k i : k / CAP T = i → k mod CAP T = k - i * CAP T.
Proof. pose proof cap_T. pose proof (Z.div_mod k (CAP T)). nia. Qed.

(** Reading and replacing one of the sixteen cells. *)
Lemma cell_read t i : wf t → 0 <= i < 16 →
  ∃ x, index (sub t) i = Ret x ∧ wf x ∧ Z.testbit (bitset t) i = negb (is_empty x) ∧
       ∀ k, k / CAP T = i → free t k = free x (k mod CAP T).
Proof.
  intros (_&Hlen&Hsub) Hi. destruct (index_Ret (sub t) i) as (x&Hx&Hl); [lia|].
  destruct (Hsub _ _ Hl) as [Hwx Hbx]. rewrite Z2Nat.id in Hbx by lia.
  exists x. split_and!; [done..|]. intros k <-. simpl. rewrite Hl.
  destruct (Z.leb_spec 0 k); [done|]. pose proof cap_T.
  assert (k / CAP T < 0) by (apply Z.div_lt_upper_bound; lia). lia.
Qed.

Lemma cell_write t i x' : wf t → 0 <= i < 16 → wf x' →
  ∃ bs, update (sub t) i x' = Ret (<[Z.to_nat i:=x']> (sub t)) ∧
    set_bit (bitset t) i (negb (is_empty x')) = Ret bs ∧
    let t' := mkCascade bs (<[Z.to_nat i:=x']> (sub t)) in
    wf t' ∧ ∀ k, free t' k = if k / CAP T =? i then free x' (k mod CAP T) else free t k.
Proof.
  intros (Hw&Hlen&Hsub) Hi Hx'.
  destruct (set_bit_spec (bitset t) i (negb (is_empty x'))) as (bs&Hbs&Hw'&Hb); [done..|].
  exists bs. split; [apply update_Ret; lia|]. split; [done|]. split; [split_and!|].
  - done.
  - simpl. by rewrite length_insert.
  - simpl. intros j x. rewrite list_lookup_insert_Some.
    rewrite Hb by lia. intros [(<-&->&_)|(Hne&Hx)].
    + rewrite Z2Nat.id by lia. rewrite Z.eqb_refl. done.
    + destruct (Hsub _ _ Hx) as [??]. split; [done|].
      destruct (Z.eqb_spec (Z.of_nat j) i); [lia|done].
  - intros k. simpl. pose proof cap_T.
    destruct (Z.leb_spec 0 k); simpl.
    + assert (0 <= k / CAP T) by (apply Z.div_pos; lia).
      destruct (Z.eqb_spec (k / CAP T) i) as [<-|].
      * rewrite list_lookup_insert_eq by lia. done.
      * rewrite list_lookup_insert_ne by lia. done.
    + assert (k / CAP T < 0) by (apply Z.div_lt_upper_bound; lia). zcases.
Qed.

(** A range of one cell that is set is a range of the node that is set. *)
Lemma cell_range_set t i x x' s e v bs sub' : 0 <= s → e <= CAP T →
  (∀ k, k / CAP T = i → free t k = free x (k mod CAP T)) →
  range_set x x' s e v →
  (let t' := mkCascade bs sub' in
   wf t' ∧ ∀ k, free t' k = if k / CAP T =? i then free x' (k mod CAP T) else free t k) →
  range_set t (mkCascade bs sub') (i * CAP T + s) (i * CAP T + e) v.
Proof.
  intros Hs He Hr (_&Hx') (Hwf&Hw). split; [done|]. intros k. rewrite Hw.
  pose proof (div_interval k i) as Hk. pose proof (mod_interval k i) as Hm.
  destruct (Z.eqb_spec (k / CAP T) i) as [Hd|Hd].
  - rewrite (Hr k) by done. rewrite Hx', Hm by done. apply Hk in Hd. zcases.
  - assert (¬ (i * CAP T <= k < (i + 1) * CAP T)) by tauto. zcases.
Qed.

Lemma node_free_range t k : wf t → free t k = true → 0 <= k < CAP T * 16.
Proof.
  intros (_&Hlen&_) Hf. simpl in Hf. apply andb_prop in Hf as [?%Z.leb_le Hf].
  destruct (sub t !! _) eqn:Hl; [|done]. apply lookup_lt_Some in Hl.
  pose proof cap_T. split; [done|]. pose proof (Z.div_mod k (CAP T)).
  pose proof (Z.mod_pos_bound k (CAP T)). nia.
Qed.

(** A set summary bit and a non-empty cell are the same thing. *)
Lemma cell_empty t i : wf t → 0 <= i < 16 →
  Z.testbit (bitset t) i = false ↔ ∀ k, k / CAP T = i → free t k = false.
Proof.
  intros Hwf Hi. destruct (cell_read t i) as (x&_&Hx&Hb&Hr); [done..|].
  rewrite Hb, negb_false_iff, is_empty_spec by done. pose proof cap_T as HC. split.
  - intros H k Hk. by rewrite Hr.
  - intros H k. destruct (free x k) eqn:Hf; [|done].
    pose proof (free_range x k Hx Hf) as Hk.
    assert ((i * CAP T + k) / CAP T = i) as Hd by (apply div_interval; lia).
    specialize (H _ Hd). rewrite Hr, mod_interval with (i := i) in H by done.
    replace (i * CAP T + k - i * CAP T) with k in H by lia. congruence.
Qed.

Lemma node_is_empty_spec t : wf t → node_is_empty t = true ↔ ∀ k, free t k = false.
Proof.
  intros Hwf. unfold node_is_empty. rewrite Z.eqb_eq.
  rewrite <- (word_bits_zero 16) by apply Hwf. split.
  - intros Hz k. destruct (free t k) eqn:Hf; [|done].
    pose proof (div_range k (node_free_range t k Hwf Hf)) as Hd.
    rewrite <- Hf. by apply (cell_empty t _ Hwf Hd); [apply Hz|].
  - intros Hz i Hi. apply cell_empty; [done..|]. intros; apply Hz.
Qed.

Lemma node_test_spec t k : wf t → 0 <= k < CAP T * 16 → node_test t k = Ret (free t k).
Proof.
  intros Hwf Hk. unfold node_test.
  destruct (cell_read t (k / CAP T)) as (x&Hx&Hwx&_&Hr); [done|by apply div_range|].
  run Hx. rewrite Hr by done. apply test_spec; [done|]. apply Z.mod_pos_bound, cap_T.
Qed.

Lemma node_alloc_spec t : wf t →
  (∃ k t', node_alloc t = Ret (Some k, t') ∧ lowest_free t 0 k ∧
           range_set t t' k (k + 1) false) ∨
  (node_alloc t = Ret (None, t) ∧ ∀ k, free t k = false).
Proof.
  intros Hwf. unfold node_alloc. pose proof (node_is_empty_spec t Hwf) as He.
  destruct (node_is_empty t) eqn:Hemp; simpl.
  { right. split; [done|]. by apply He. }
  destruct (trailing_zeros_spec 16 (bitset t)) as [[_ H0]|(Htz&H1&H0)].
  { exfalso. assert (bitset t = 0) as Hz by (apply (word_bits_zero 16); [apply Hwf|done]).
    unfold node_is_empty in Hemp. by rewrite Hz in Hemp. }
  left. set (i := trailing_zeros 16 (bitset t)) in *.
  destruct (cell_read t i) as (x&Hx&Hwx&Hb&Hr); [done|lia|]. run Hx.
  destruct (alloc_spec x Hwx) as [(k&x'&Ha&Hlow&Hset)|[_ Hnone]].
  2: { rewrite H1 in Hb. symmetry in Hb. apply negb_true_iff in Hb.
       pose proof (proj2 (is_empty_spec x Hwx) Hnone). congruence. }
  run Ha. simpl.
  destruct (cell_write t i x') as (bs&Hu&Hs&Hw); [done|lia|apply Hset|].
  run Hu. run Hs. eexists _, _. split; [done|].
  destruct Hlow as (Hk0&Hfk&Hlow). pose proof (free_range x k Hwx Hfk) as Hk.
  assert ((k + i * CAP T) / CAP T = i) as Hd by (apply div_interval; lia).
  assert ((k + i * CAP T) mod CAP T = k) as Hm by (rewrite (mod_interval _ i) by done; lia).
  split.
  - split_and!; [pose proof cap_T; nia|by rewrite Hr, Hm|].
    intros j Hj. pose proof cap_T.
    assert (0 <= j / CAP T <= i) as Hji.
    { split; [apply Z.div_pos; lia|]. rewrite <- Hd. apply Z.div_le_mono; lia. }
    destruct (decide (j / CAP T = i)) as [Hjd|Hjd].
    + rewrite Hr by done. rewrite (mod_interval _ i) by done. apply Hlow.
      apply div_interval in Hjd. lia.
    + by apply (cell_empty t (j / CAP T) Hwf); [lia|apply H0; lia|].
  - replace (k + i * CAP T) with (i * CAP T + k) by lia.
    replace (i * CAP T + k + 1) with (i * CAP T + (k + 1)) by lia.
    eapply cell_range_set; [..|done|done|done]; lia.
Qed.

Lemma node_dealloc_spec t k : wf t → 0 <= k < CAP T * 16 →
  if free t k then node_dealloc t k = Panic
  else ∃ t', node_dealloc t k = Ret t' ∧ range_set t t' k (k + 1) true.
Proof.
  intros Hwf Hk. unfold node_dealloc. pose proof (div_range k Hk) as Hi.
  destruct (cell_read t (k / CAP T)) as (x&Hx&Hwx&_&Hr); [done..|]. run Hx.
  rewrite (Hr k) by done. pose proof (Z.mod_pos_bound k (CAP T) cap_T) as Hm.
  pose proof (dealloc_spec x (k mod CAP T) Hwx Hm) as Hd.
  destruct (free x _) eqn:Hf; [by rewrite Hd|]. destruct Hd as (x'&Hd&Hset). run Hd.
  destruct (cell_write t (k / CAP T) x') as (bs&Hu&Hs&Hw); [done..|apply Hset|].
  assert (is_empty x' = false) as Hne.
  { apply not_true_is_false. rewrite is_empty_spec by apply Hset. intros H.
    specialize (H (k mod CAP T)). rewrite (proj2 Hset) in H. revert H. zcases. }
  rewrite Hne in Hs. run Hu. simpl in Hs. run Hs. eexists. split; [done|].
  assert (k mod CAP T + 1 <= CAP T) as Hm' by lia.
  pose proof (cell_range_set t _ x x' (k mod CAP T) (k mod CAP T + 1) true bs _
                (proj1 Hm) Hm' Hr Hset Hw) as H.
  assert (k / CAP T * CAP T + k mod CAP T = k) as Hk'
    by (pose proof (Z.div_mod k (CAP T)); pose proof cap_T; lia).
  by rewrite Z.add_assoc, Hk' in H.
Qed.

(** One turn of [for_range] sets the part of the range inside cell [i]. *)
Lemma for_range_body_spec (f : T → Z → Z → outcome T) v s e t i :
  (∀ x s e, wf x → 0 <= s < e → e <= CAP T →
     ∃ x', f x s e = Ret x' ∧ range_set x x' s e v) →
  wf t → 0 <= s < e → e <= CAP T * 16 → s / CAP T <= i <= (e - 1) / CAP T →
  ∃ t', for_range_body f s e t i = Ret t' ∧
        range_set t t' (Z.max s (i * CAP T)) (Z.min e ((i + 1) * CAP T)) v.
Proof.
  intros Hf Hwf Hse He Hi. unfold for_range_body. pose proof cap_T as HC.
  pose proof (div_range s ltac:(lia)) as Hs16.
  pose proof (div_range (e - 1) ltac:(lia)) as He16.
  set (b := if s / CAP T =? i then s mod CAP T else 0).
  set (e' := if e / CAP T =? i then e mod CAP T else CAP T).
  assert (i * CAP T + b = Z.max s (i * CAP T)) as Hb.
  { unfold b. pose proof (div_interval s i). pose proof (mod_interval s i).
    pose proof (div_interval s (s / CAP T)). zcases. nia. }
  assert (i * CAP T + e' = Z.min e ((i + 1) * CAP T)) as He'.
  { unfold e'. pose proof (div_interval e i). pose proof (mod_interval e i).
    pose proof (div_interval (e - 1) ((e - 1) / CAP T)). zcases. nia. }
  assert (i * CAP T < e) by (pose proof (div_interval (e - 1) ((e - 1) / CAP T)); nia).
  assert (s < (i + 1) * CAP T) by (pose proof (div_interval s (s / CAP T)); nia).
  destruct (cell_read t i) as (x&Hx&Hwx&_&Hr); [done|lia|]. run Hx.
  destruct (Hf x b e' Hwx) as (x'&Hfx&Hset); [nia|nia|]. run Hfx.
  destruct (cell_write t i x') as (bs&Hu&Hbs&Hw); [done|lia|apply Hset|].
  run Hu. run Hbs. eexists. split; [done|]. rewrite <- Hb, <- He'.
  apply (cell_range_set t i x x'); [nia|nia|done..].
Qed.

Lemma for_range_spec (f : T → Z → Z → outcome T) v t s e :
  CAP T * 16 < 2 ^ 64 →
  (∀ x s e, wf x → 0 <= s < e → e <= CAP T →
     ∃ x', f x s e = Ret x' ∧ range_set x x' s e v) →
  wf t → 0 <= s < e → e <= CAP T * 16 →
  ∃ t', for_range f t s e = Ret t' ∧ range_set t t' s e v.
Proof.
  intros Hcap Hf Hwf Hse He. unfold for_range. pose proof cap_T as HC.
  destruct (Z.leb_spec s e); [|lia]. destruct (Z.leb_spec e (CAP T * 16)); [|lia].
  simpl. rewrite wrap_small by (unfold word; lia).
  set (a := s / CAP T). set (b := (e - 1) / CAP T).
  assert (a <= b) by (apply Z.div_le_mono; lia).
  destruct (foldM_range
    (λ i t', wf t' ∧ ∀ j, free t' j =
       if (s <=? j) && (j <? Z.min e (i * CAP T)) then v else free t j)
    (for_range_body f s e) a (Z.to_nat (b - a + 1)) t) as (t'&Ht'&Hw&Hr).
  - split; [done|]. intros j. pose proof (div_interval s a). zcases.
  - intros i t1 Hi (Hw1&Hr1).
    destruct (for_range_body_spec f v s e t1 i) as (t2&Ht2&Hw2&Hr2);
      [done|done|done|done|lia|].
    exists t2. split; [done|]. split; [done|]. intros j. rewrite Hr2, Hr1. zcases.
  - rewrite Z2Nat.id in Ht' by lia. exists t'. split; [done|]. split; [done|].
    intros j. rewrite Hr. rewrite Z2Nat.id by lia.
    replace (a + (b - a + 1)) with (b + 1) by lia.
    pose proof (div_interval (e - 1) b). zcases.
Qed.

Lemma node_next_loop t k i n : wf t → 0 <= k → k / CAP T <= i → i + Z.of_nat n = 16 →
  (∀ j, k <= j → j / CAP T < i → free t j = false) →
  let r := find_map_from
    (λ i, b ← get_bit (bitset t) i;
          if b : bool then
            x ← index (sub t) i;
            r ← next x (if i =? k / CAP T then k - CAP T * (k / CAP T) else 0);
            Ret (option_map (λ k, k + CAP T * i) r)
          else Ret None) i n in
  (∃ j, r = Ret (Some j) ∧ lowest_free t k j) ∨
  (r = Ret None ∧ ∀ j, k <= j → free t j = false).
Proof.
  intros Hwf Hk. pose proof cap_T as HC. revert i.
  induction n as [|n IH]; intros i Hi Hn Hlow; simpl.
  { right. split; [done|]. intros j Hj. destruct (free t j) eqn:Hf; [|done].
    pose proof (div_range j (node_free_range t j Hwf Hf)).
    rewrite Hlow in Hf by lia. done. }
  assert (0 <= i < 16) as Hi16 by (assert (0 <= k / CAP T) by (apply Z.div_pos; lia); lia).
  rewrite get_bit_spec by (done || apply Hwf). rewrite bind_Ret.
  destruct (cell_read t i) as (x&Hx&Hwx&Hb&Hr); [done..|].
  set (key := if i =? k / CAP T then k - CAP T * (k / CAP T) else 0).
  assert (Hkey : 0 <= key ∧ ∀ j, k <= j → j / CAP T = i → key <= j mod CAP T).
  { unfold key. pose proof (div_interval k (k / CAP T)). split; [zcases|].
    intros j Hj Hd. pose proof (mod_interval j i Hd). pose proof (div_interval j i).
    zcases. }
  assert (Hstep : (∀ j, key <= j → free x j = false) →
    ∀ j, k <= j → j / CAP T < i + 1 → free t j = false).
  { intros Hno j Hj Hd. destruct (decide (j / CAP T < i)); [by apply Hlow|].
    assert (j / CAP T = i) by lia. rewrite Hr by done. apply Hno. by apply Hkey. }
  destruct (Z.testbit (bitset t) i) eqn:Hbi; simpl.
  2: { apply IH; [lia|lia|]. apply Hstep. intros j _.
       apply is_empty_spec; [done|]. by destruct (is_empty x). }
  run Hx. destruct (next_spec x key Hwx (proj1 Hkey)) as [(j&Hnx&Hj&Hfj&Hlj)|[Hnx Hno]];
    run Hnx; simpl.
  2: { apply IH; [lia|lia|]. by apply Hstep. }
  left. eexists. split; [done|]. pose proof (free_range x j Hwx Hfj) as Hjr.
  assert ((j + CAP T * i) / CAP T = i) as Hd by (apply div_interval; lia).
  assert (k <= j + CAP T * i).
  { unfold key in Hj. pose proof (div_interval k (k / CAP T)). revert Hj. zcases; nia. }
  split_and!; [done| |].
  - rewrite Hr, (mod_interval _ i) by done. by replace (j + CAP T * i - i * CAP T) with j by lia.
  - intros l Hl. assert (l / CAP T <= i) by (rewrite <- Hd; apply Z.div_le_mono; lia).
    destruct (decide (l / CAP T < i)); [by apply Hlow; [lia|]|].
    assert (l / CAP T = i) as Hli by lia. rewrite Hr by done. apply Hlj.
    split; [by apply Hkey; [lia|]|]. rewrite (mod_interval l i) by done. lia.
Qed.

Lemma node_next_spec t k : wf t → 0 <= k →
  (∃ j, node_next t k = Ret (Some j) ∧ lowest_free t k j) ∨
  (node_next t k = Ret None ∧ ∀ j, k <= j → free t j = false).
Proof.
  intros Hwf Hk. unfold node_next. pose proof cap_T as HC.
  destruct (decide (k / CAP T < 16)).
  - apply node_next_loop; [done|done|lia|lia|]. intros j Hj Hd.
    assert (k / CAP T <= j / CAP T) by (apply Z.div_le_mono; lia). lia.
  - replace (Z.to_nat (16 - k / CAP T)) with O by lia. right. split; [done|].
    intros j Hj. destruct (free t j) eqn:Hf; [|done].
    pose proof (div_range j (node_free_range t j Hwf Hf)).
    assert (k / CAP T <= j / CAP T) by (apply Z.div_le_mono; lia). lia.
Qed.

Lemma node_DEFAULT k : free (DEFAULT : BitAllocCascade16 T) k = false.
Proof.
  cbn -[replicate]. apply andb_false_iff. right.
  destruct (replicate 16 _ !! _) as [x|] eqn:Hl; [|done].
  apply lookup_replicate in Hl as [-> _]. apply free_DEFAULT.
Qed.

Lemma BitAllocCascade16_spec : CAP T * 16 < 2 ^ 64 → BitAllocSpec (BitAllocCascade16 T).
Proof.
  intros Hcap. pose proof cap_T as HC. split.
  - simpl. lia.
  - split_and!; [done|done|]. intros i x Hx.
    apply (lookup_replicate 16) in Hx as [-> _]. split; [apply wf_DEFAULT|].
    simpl. rewrite Z.testbit_0_l.
    rewrite (proj2 (is_empty_spec DEFAULT wf_DEFAULT)); [done|]. apply free_DEFAULT.
  - apply node_DEFAULT.
  - apply node_free_range.
  - apply node_is_empty_spec.
  - apply node_test_spec.
  - apply node_alloc_spec.
  - apply node_dealloc_spec.
  - intros. by apply (for_range_spec insert true); [|apply insert_spec|..].
  - intros. by apply (for_range_spec remove false); [|apply remove_spec|..].
  - apply node_next_spec.
Qed.
End node.

(** ** Contiguous allocation *)

Section contiguous.
Context {T : Type} {ops : BitAlloc T} {V : BitAllocView T} {HT : BitAllocSpec T}.
Implicit Types t : T.

(** Rounding up to the next multiple of [2^a], as the loop does. *)
Lemma round_up_spec x a : 0 <= x < 2 ^ 62 → 0 <= a < 62 →
  let r := shl 64 (Z.shiftr x a + 1) a in
  r mod 2 ^ a = 0 ∧ x < r <= x + 2 ^ a ∧
  ∀ b, b mod 2 ^ a = 0 → x < b → r <= b.
Proof.
  intros Hx Ha. assert (0 < 2 ^ a) by (apply Z.pow_pos_nonneg; lia).
  assert (2 ^ a <= 2 ^ 62) by (apply Z.pow_le_mono_r; lia).
  pose proof (Z.div_mod x (2 ^ a)). pose proof (Z.mod_pos_bound x (2 ^ a)).
  assert (shl 64 (Z.shiftr x a + 1) a = (x / 2 ^ a + 1) * 2 ^ a) as ->.
  { unfold shl. rewrite (Z.mod_small a) by lia.
    rewrite Z.shiftl_mul_pow2, Z.shiftr_div_pow2 by lia.
    apply wrap_small. unfold word. nia. }
  split; [apply Z.mod_mul; lia|]. split; [nia|]. intros b Hb Hxb.
  pose proof (Z.div_mod b (2 ^ a)). assert (x / 2 ^ a <= b / 2 ^ a) by (apply Z.div_le_mono; lia).
  destruct (decide (x / 2 ^ a = b / 2 ^ a)) as [Heq|]; [rewrite Heq in *; nia|nia].
Qed.

(** What the loop of [find_contiguous] knows at [base], [offset]. *)
Record scanned t (size a base offset : Z) : Prop := {
  scanned_range : 0 <= base <= offset;
  scanned_short : offset - base < size;
  scanned_aligned : base mod 2 ^ a = 0;
  scanned_free j : base <= j < offset → free t j = true;
  scanned_least b : fits t size a b → base <= b }.

Lemma scanned_skip t size a base offset nxt : wf t → CAP T <= 2 ^ 62 →
  0 < size → 0 <= a < 62 → scanned t size a base offset →
  lowest_free t offset nxt → offset <> nxt →
  let base' := shl 64 (Z.shiftr (nxt - 1) a + 1) a in
  scanned t size a base' base' ∧ offset < base'.
Proof.
  intros Hwf Hcap Hsize Ha [Hr Hs Hal Hf Hl] (Hn&Hfn&Hlow) Hne.
  pose proof (free_range t nxt Hwf Hfn).
  intros base'. destruct (round_up_spec (nxt - 1) a) as (Hm&Hb&Hmin); [lia|lia|].
  fold base' in Hm, Hb, Hmin. split; [|lia]. split; [lia|lia|done|lia|].
  intros b Hfit. apply Hmin; [apply Hfit|].
  pose proof (Hl b Hfit). destruct Hfit as (_&_&_&Hall).
  destruct (decide (nxt - 1 < b)); [done|]. exfalso.
  destruct (decide (b <= offset)).
  - specialize (Hall offset ltac:(lia)). rewrite Hlow in Hall by lia. done.
  - specialize (Hall b ltac:(lia)). rewrite Hlow in Hall by lia. done.
Qed.

Lemma find_contiguous_loop_spec t size a fuel base offset : wf t → CAP T <= 2 ^ 62 →
  0 < size → 0 <= a < 62 → scanned t size a base offset →
  CAP T - offset < Z.of_nat fuel →
  (∃ b, find_contiguous_loop fuel t (CAP T) size a base offset = Ret (Some b) ∧
        fits t size a b ∧ ∀ b', fits t size a b' → b <= b') ∨
  (find_contiguous_loop fuel t (CAP T) size a base offset = Ret None ∧
   ∀ b, ¬ fits t size a b) ∨ (fuel = O).
Proof.
  intros Hwf Hcap Hsize Ha. revert base offset.
  induction fuel as [|fuel IH]; intros base offset Hsc Hfuel; [by right; right|].
  assert (fuel = O → offset >= CAP T) by lia.
  destruct Hsc as [Hr Hs Hal Hf Hl] eqn:Hsc'; simpl.
  destruct (Z.ltb_spec offset (CAP T)).
  2: { right; left. split; [done|]. intros b Hfit. pose proof (Hl b Hfit).
       destruct Hfit as (_&?&_). lia. }
  destruct (next_spec t offset Hwf) as [(nxt&Hn&Hlow)|[Hn Hno]]; [lia| |].
  2: { run Hn. right; left. split; [done|]. intros b Hfit. pose proof (Hl b Hfit).
       destruct Hfit as (_&_&_&Hall). specialize (Hall (b + size - 1) ltac:(lia)).
       rewrite Hno in Hall by lia. done. }
  run Hn. destruct (Z.eqb_spec nxt offset) as [->|Hne]; simpl.
  - assert (Hfree : ∀ j, base <= j < offset + 1 → free t j = true).
    { intros j ?. destruct (decide (j = offset)) as [->|]; [apply Hlow|apply Hf; lia]. }
    destruct (Z.eqb_spec (offset + 1 - base) size).
    + left. exists base. split; [done|]. split; [|done].
      split_and!; [lia|lia|done|]. intros. apply Hfree. lia.
    + destruct (IH base (offset + 1)) as [?|[?| ->]]; [|lia|by left|by right; left|lia].
      by split; [lia|lia|..].
  - pose proof Hlow as (?&_&_).
    destruct (Z.ltb_spec offset nxt); [|lia]. simpl.
    destruct (Z.eqb_spec offset nxt); [lia|]. simpl.
    destruct (scanned_skip t size a base offset nxt Hwf Hcap Hsize Ha Hsc Hlow) as [Hsc2 ?];
      [done|].
    destruct (IH _ _ Hsc2) as [?|[?| ->]]; [lia|by left|by right; left|lia].
Qed.

Lemma alloc_contiguous_spec t size a : wf t → CAP T <= 2 ^ 62 → 0 < size →
  0 <= a < 62 → 2 ^ a <= CAP T →
  (∃ base t', alloc_contiguous t size a = Ret (Some base, t') ∧
     fits t size a base ∧ (∀ b, fits t size a b → base <= b) ∧
     range_set t t' base (base + size) false) ∨
  (alloc_contiguous t size a = Ret (None, t) ∧ ∀ b, ¬ fits t size a b).
Proof.
  intros Hwf Hcap Hsize Ha Hal. unfold alloc_contiguous, find_contiguous.
  assert (shl 64 1 a = 2 ^ a) as ->.
  { unfold shl. rewrite (Z.mod_small a) by lia. rewrite Z.shiftl_1_l.
    apply wrap_small. assert (2 ^ a <= 2 ^ 62) by (apply Z.pow_le_mono_r; lia).
    unfold word. pose proof (Z.pow_pos_nonneg 2 a). lia. }
  destruct (Z.ltb_spec (CAP T) (2 ^ a)); [lia|]. simpl.
  destruct (is_empty t) eqn:He.
  { right. split; [done|]. intros b (_&_&_&Hall). pose proof (proj1 (is_empty_spec t Hwf) He) as Hno.
    specialize (Hall b ltac:(lia)). congruence. }
  destruct (find_contiguous_loop_spec t size a (Z.to_nat (CAP T) + 1) 0 0)
    as [(b&Hb&Hfit&Hmin)|[[Hn Hno]|?]]; try done; try lia.
  { split; [lia|lia|apply Z.mod_0_l; lia|lia|]. by intros b (?&_). }
  - run Hb. pose proof Hfit as (?&?&_).
    destruct (remove_spec t b (b + size)) as (t'&Ht'&Hset); [done|lia|lia|].
    run Ht'. left. eauto 10.
  - run Hn. by right.
Qed.
End contiguous.

(** ** The towers *)

Lemma tower_spec {BF : BitFieldU16} {BFS : BitFieldSpec BF} n :
  (n <= 14)%nat → CAP (Tower n) = 16 ^ (Z.of_nat n + 1) ∧ BitAllocSpec (Tower n).
Proof.
  induction n as [|n IH]; intros Hn.
  - split; [done|]. apply BitAlloc16_spec.
  - destruct IH as [Hcap IH]; [lia|].
    assert (CAP (Tower (S n)) = CAP (Tower n) * 16) as Hs by done.
    replace (Z.of_nat (S n) + 1) with (Z.succ (Z.of_nat n + 1)) by lia.
    rewrite Z.pow_succ_r, Hs, Hcap by lia. split; [lia|].
    apply (@BitAllocCascade16_spec BF BFS (Tower n) (Tower_ops n) (Tower_view n) IH).
    rewrite Hcap. assert (16 ^ (Z.of_nat n + 1) <= 16 ^ 14) by (apply Z.pow_le_mono_r; lia).
    lia.
Qed.

(** ** A concrete bit field, for the witnesses *)

Module BitFieldModel.
Definition in_word (s e : Z) : bool := (0 <=? s) && (s <? e) && (e <=? 16).

Definition mget_bit (v i : Z) : outcome bool :=
  if in_word i (i + 1) then Ret (Z.testbit v i) else Panic.
Definition mset_bit (v i : Z) (b : bool) : outcome Z :=
  if in_word i (i + 1) then Ret (if b then Z.setbit v i else Z.clearbit v i) else Panic.
Definition mget_bits (v s e : Z) : outcome Z :=
  if in_word s e then Ret (Z.land (Z.shiftr v s) (Z.ones (e - s))) else Panic.
Definition mset_bits (v s e x : Z) : outcome Z :=
  if in_word s e
  then Ret (Z.lor (Z.ldiff v (Z.shiftl (Z.ones (e - s)) s)) (Z.shiftl x s)) else Panic.

#[export] Instance model_ops : BitFieldU16 :=
  {| get_bit := mget_bit; set_bit := mset_bit; get_bits := mget_bits; set_bits := mset_bits |}.

Lemma in_word_true s e : 0 <= s < e → e <= 16 → in_word s e = true.
Proof. intros. unfold in_word. zcases. Qed.

Lemma mset_bit_spec v i b : word 16 v → 0 <= i < 16 →
  ∃ v', mset_bit v i b = Ret v' ∧ word 16 v' ∧
    ∀ j, 0 <= j → Z.testbit v' j = if j =? i then b else Z.testbit v j.
Proof.
  intros Hv Hi. unfold mset_bit. rewrite in_word_true by lia. eexists. split; [done|].
  assert (∀ j, 0 <= j → Z.testbit (if b then Z.setbit v i else Z.clearbit v i) j
                        = if j =? i then b else Z.testbit v j) as Hb.
  { intros j Hj. destruct b.
    - rewrite Z.setbit_eqb by lia. rewrite (Z.eqb_sym j). by destruct (i =? j).
    - rewrite Z.clearbit_eqb. rewrite (Z.eqb_sym j).
      by destruct (i =? j), (Z.testbit v j). }
  split; [|done]. apply word_of_bits; [lia| |].
  - destruct b.
    + apply Z.lor_nonneg. split; [apply Hv|]. apply Z.shiftl_nonneg. lia.
    + apply Z.ldiff_nonneg. left. apply Hv.
  - intros j Hj. rewrite Hb by lia. zcases. by apply (testbit_high 16).
Qed.

Lemma mget_bits_spec v s e : word 16 v → 0 <= s < e → e <= 16 →
  ∃ r, mget_bits v s e = Ret r ∧ word (e - s) r ∧
    ∀ j, 0 <= j < e - s → Z.testbit r j = Z.testbit v (s + j).
Proof.
  intros Hv ??. unfold mget_bits. rewrite in_word_true by lia. eexists. split; [done|].
  split.
  - rewrite Z.land_ones by lia. apply Z.mod_pos_bound. apply Z.pow_pos_nonneg; lia.
  - intros j ?. rewrite Z.land_spec, Z.shiftr_spec, Z.ones_spec_low by lia.
    rewrite andb_true_r. f_equal. lia.
Qed.

Lemma mset_bits_spec v s e x : word 16 v → 0 <= s < e → e <= 16 → word (e - s) x →
  ∃ v', mset_bits v s e x = Ret v' ∧ word 16 v' ∧
    ∀ j, 0 <= j → Z.testbit v' j =
      if (s <=? j) && (j <? e) then Z.testbit x (j - s) else Z.testbit v j.
Proof.
  intros Hv ?? Hx. unfold mset_bits. rewrite in_word_true by lia. eexists. split; [done|].
  match goal with |- word 16 ?r ∧ _ => assert (∀ j, 0 <= j → Z.testbit r j =
    if (s <=? j) && (j <? e) then Z.testbit x (j - s) else Z.testbit v j) as Hb end.
  { intros j ?. rewrite Z.lor_spec, Z.ldiff_spec, !Z.shiftl_spec by lia.
    destruct (Z.leb_spec s j); simpl.
    - destruct (Z.ltb_spec j e).
      + rewrite Z.ones_spec_low by lia. rewrite andb_false_r. done.
      + rewrite Z.ones_spec_high by lia. rewrite (testbit_high (e - s) x) by (done || lia).
        rewrite andb_true_r. apply orb_false_r.
    - rewrite (Z.testbit_neg_r _ (j - s)), (Z.testbit_neg_r x) by lia.
      rewrite andb_true_r. apply orb_false_r. }
  split; [|done]. apply word_of_bits; [lia| |].
  - apply Z.lor_nonneg. split.
    + apply Z.ldiff_nonneg. left. apply Hv.
    + apply Z.shiftl_nonneg. apply Hx.
  - intros j ?. rewrite Hb by lia. zcases. by apply (testbit_high 16).
Qed.

#[export] Instance model_spec : BitFieldSpec model_ops.
Proof.
  split; simpl.
  - intros. unfold mget_bit. by rewrite in_word_true by lia.
  - apply mset_bit_spec.
  - apply mget_bits_spec.
  - apply mset_bits_spec.
Qed.
End BitFieldModel.
Import BitFieldModel.

(** ** Properties *)

(** C1. Every nesting of the allocator (in particular BitAlloc256 up to
    BitAlloc256M) holds 16^(n+1) bits and implements the trait's contract on
    the set of free bits: [alloc] returns the lowest free bit and removes
    exactly it, or [None] when there is none; [dealloc] of an allocated bit
    frees exactly it and of a free bit panics; [insert] and [remove] set
    exactly the range; [next], [test] and [is_empty] answer about the same set;
    and the summary bits stay in step with the cells. *)
Theorem tower_refines_free_set {BF : BitFieldU16} {BFS : BitFieldSpec BF} (n : nat) :
  (n <= 14)%nat →
  CAP (Tower n) = 16 ^ (Z.of_nat n + 1) ∧ BitAllocSpec (Tower n).
Proof. apply tower_spec. Qed.

Lemma tower_refines_free_set_witness :
  (5 <= 14)%nat ∧ CAP (Tower 5) = 16 ^ 6 ∧ BitAllocSpec (Tower 5).
Proof. split; [lia|]. apply (tower_refines_free_set 5). lia. Defined.

(** C3. [alloc_contiguous] terminates and is first-fit: it returns the lowest
    aligned base whose [size] bits are all free and removes exactly these
    bits, and it returns [None], changing nothing, only when no aligned free
    block exists. *)
Theorem alloc_contiguous_first_fit {BF : BitFieldU16} {BFS : BitFieldSpec BF} (n : nat)
    (t : Tower n) (size align_log2 : Z) :
  (n <= 14)%nat → wf t → 0 < size → 0 <= align_log2 → 2 ^ align_log2 <= CAP (Tower n) →
  (∃ base t', alloc_contiguous t size align_log2 = Ret (Some base, t') ∧
     fits t size align_log2 base ∧
     (∀ b, fits t size align_log2 b → base <= b) ∧
     range_set t t' base (base + size) false) ∨
  (alloc_contiguous t size align_log2 = Ret (None, t) ∧
   ∀ b, ¬ fits t size align_log2 b).
Proof.
  intros Hn Hwf Hsize Ha Hal. destruct (tower_spec n Hn) as [Hcap HT].
  assert (16 ^ (Z.of_nat n + 1) <= 2 ^ 60).
  { change (2 ^ 60) with (16 ^ 15). apply Z.pow_le_mono_r; lia. }
  apply alloc_contiguous_spec; [done|lia|done| |done].
  split; [done|]. apply (Z.pow_lt_mono_r_iff 2); lia.
Qed.

(** Bits 3..5 and 8..15 of a 16-bit map are free: four bits aligned to 4 start at 8. *)
Lemma alloc_contiguous_first_fit_witness :
  alloc_contiguous (mkBitAlloc16 0xff38 : Tower 0) 4 2 = Ret (Some 8, mkBitAlloc16 0xf038) ∧
  ((∃ base t', alloc_contiguous (mkBitAlloc16 0xff38 : Tower 0) 4 2 = Ret (Some base, t') ∧
     fits (mkBitAlloc16 0xff38 : Tower 0) 4 2 base ∧
     (∀ b, fits (mkBitAlloc16 0xff38 : Tower 0) 4 2 b → base <= b) ∧
     range_set (mkBitAlloc16 0xff38 : Tower 0) t' base (base + 4) false) ∨
   (alloc_contiguous (mkBitAlloc16 0xff38 : Tower 0) 4 2 = Ret (None, mkBitAlloc16 0xff38) ∧
    ∀ b, ¬ fits (mkBitAlloc16 0xff38 : Tower 0) 4 2 b)).
Proof.
  split; [reflexivity|].
  apply (alloc_contiguous_first_fit 0); [lia|by split|lia|lia|vm_compute; congruence].
Defined.
