(* ===== verification/Addr.v ===== *)
(** * Addresses and pages (kernel/src/memory/addr.rs, constants.rs)

    Addresses are 64-bit words; the arithmetic on them wraps. *)

From S2P Require Import Prelude.

Definition PAGE_SIZE : Z := 0x1000.
Definition PHYS_VIRT_OFFSET : Z := 0xFFFFFFFF00000000.
Definition PHYS_MEMORY_OFFSET : Z := 0x80000000.
Definition USER_VIRT_ADDR_LIMIT : Z := 0xFFFFFFFF.

Definition phys_to_virt (paddr : Z) : Z := wrap64 (paddr + PHYS_VIRT_OFFSET).
Definition virt_to_phys (vaddr : Z) : Z := wrap64 (vaddr - PHYS_VIRT_OFFSET).
Definition align_down (addr : Z) : Z := Z.land addr (wnot 64 (PAGE_SIZE - 1)).
Definition align_up (addr : Z) : Z :=
  Z.land (wrap64 (addr + PAGE_SIZE - 1)) (wnot 64 (PAGE_SIZE - 1)).
Definition cross_page (size addr : Z) : bool :=
  PAGE_SIZE <=? Z.lxor addr (wrap64 (addr + size)).
Definition page_count (size : Z) : Z := align_up size / PAGE_SIZE.
Definition addr_to_page_id (addr : Z) : Z := addr / PAGE_SIZE.
Definition page_id_to_addr (page_id : Z) : Z := wrap64 (page_id * PAGE_SIZE).
Definition page_offset (addr : Z) : Z := Z.land addr (PAGE_SIZE - 1).
Definition pte_idx_of_virt_addr (vaddr : Z) : Z * Z * Z :=
  (Z.land (Z.shiftr vaddr 30) 0x1ff, Z.land (Z.shiftr vaddr 21) 0x1ff,
   Z.land (Z.shiftr vaddr 12) 0x1ff).

(** ** In terms of division *)

Lemma page_offset_mod a : page_offset a = a mod 4096.
Proof. unfold page_offset. change (PAGE_SIZE - 1) with (Z.ones 12). by rewrite Z.land_ones. Qed.

Lemma align_down_div a : word 64 a → align_down a = a / 4096 * 4096.
Proof.
  intros Ha. unfold align_down.
  change (wnot 64 (PAGE_SIZE - 1)) with (Z.shiftl (Z.ones 52) 12).
  rewrite land_field by lia. change (2 ^ 12) with 4096. rewrite Z.mod_small; [done|].
  unfold word in Ha. change (2 ^ 52) with 4503599627370496. change (2 ^ 64) with 18446744073709551616 in Ha.
  dlia.
Qed.

Lemma align_up_div a : 0 <= a → a + 4095 < 2 ^ 64 → align_up a = (a + 4095) / 4096 * 4096.
Proof.
  intros Ha Hb. unfold align_up, PAGE_SIZE in *. replace (a + 0x1000 - 1) with (a + 4095) by lia.
  rewrite wrap_small by (unfold word; lia). apply align_down_div. unfold word. lia.
Qed.

Lemma page_count_div a : 0 <= a → a + 4095 < 2 ^ 64 → page_count a = (a + 4095) / 4096.
Proof.
  intros Ha Hb. unfold page_count, PAGE_SIZE. rewrite align_up_div by done.
  by rewrite Z.div_mul.
Qed.

Lemma align_down_page a : word 64 a → align_down a = PAGE_SIZE * addr_to_page_id a.
Proof. intros. rewrite align_down_div by done. unfold addr_to_page_id, PAGE_SIZE. lia. Qed.

(** Addresses that [cross_page] does not tell apart lie on the same page. *)
Lemma cross_page_false size a : word 64 a → word 64 (a + size) →
  cross_page size a = false → (a + size) / 4096 = a / 4096.
Proof.
  intros [Ha1 Ha2] [Hb1 Hb2] H. unfold cross_page in H. rewrite wrap_small in H by done.
  apply Z.leb_gt in H. unfold PAGE_SIZE in H.
  assert (0 <= Z.lxor a (a + size)) as Hx by (apply Z.lxor_nonneg; lia).
  assert (Z.shiftr (Z.lxor a (a + size)) 12 = 0) as Hs.
  { rewrite Z.shiftr_div_pow2 by lia. change (2 ^ 12) with 4096. dlia. }
  rewrite Z.shiftr_lxor in Hs. apply Z.lxor_eq in Hs. rewrite !Z.shiftr_div_pow2 in Hs by lia.
  change (2 ^ 12) with 4096 in Hs. lia.
Qed.

(** The three indices are the digits of the page number in base 512. *)
Lemma pte_idx_digits v : pte_idx_of_virt_addr v =
  ((v / 4096 / 512 / 512) mod 512, (v / 4096 / 512) mod 512, (v / 4096) mod 512).
Proof.
  unfold pte_idx_of_virt_addr. change 0x1ff with (Z.ones 9).
  rewrite !Z.land_ones, !Z.shiftr_div_pow2 by lia. change (2 ^ 9) with 512.
  rewrite !Z.div_div by lia. done.
Qed.
