(* ===== verification/PageFrame.v ===== *)
(** * Page frames

    The frame allocator and the owned frames of modules/maturin-page-frame, and
    the kernel's configuration of it (kernel/src/memory/allocator/frame.rs).
    The global [FRAME_ALLOCATOR] is the state [A] the calls thread. *)

From S2P Require Import Prelude BitAlloc Addr.

(** [PageFrameConfig], with its default methods as the instance
    [DefaultConfig] and the kernel's as [KernelConfig]. *)
Class PageFrameConfig := {
  get_page_size : Z;
  phys_addr_to_virt_addr : Z → Z;
  phys_addr_to_frame_idx : Z → Z;
  frame_idx_to_phys_addr : Z → Z }.

Definition DefaultConfig : PageFrameConfig :=
  {| get_page_size := PAGE_SIZE;
     phys_addr_to_virt_addr paddr := wrap64 (paddr + PHYS_VIRT_OFFSET);
     phys_addr_to_frame_idx addr := addr / PAGE_SIZE;
     frame_idx_to_phys_addr idx := wrap64 (idx * PAGE_SIZE) |}.

Definition KernelConfig : PageFrameConfig :=
  {| get_page_size := PAGE_SIZE;
     phys_addr_to_virt_addr paddr := wrap64 (paddr + PHYS_VIRT_OFFSET);
     phys_addr_to_frame_idx addr := wrap64 (addr - PHYS_MEMORY_OFFSET) / PAGE_SIZE;
     frame_idx_to_phys_addr idx := wrap64 (wrap64 (idx * PAGE_SIZE) + PHYS_MEMORY_OFFSET) |}.

(** ** [FrameAllocatorWrapper] *)

Section allocator.
Context {A : Type} `{BitAlloc A} `{PageFrameConfig}.

(** A call on the locked allocator. *)
Definition locked {R} (f : A → outcome (R * A)) : M A R := f.

Definition locked_unit (f : A → outcome A) : M A unit := λ a, a' ← f a; Ret (tt, a').

Definition init_region (region : Z * Z) : M A unit :=
  let frame_start := phys_addr_to_frame_idx region.1 in
  let frame_end := wrap64 (phys_addr_to_frame_idx (wrap64 (region.2 - 1)) + 1) in
  _ ← assertM (frame_start <? frame_end);
  locked_unit (λ ba, insert ba frame_start frame_end).

Definition frame_init (regions : list (Z * Z)) : M A unit :=
  foldMW (λ _ region, init_region region) tt regions.

Definition alloc_frame : M A (option Z) :=
  r ← locked alloc; mret (option_map frame_idx_to_phys_addr r).

Definition alloc_frame_contiguous (frame_count align_log2 : Z) : M A (option Z) :=
  r ← locked (λ ba, alloc_contiguous ba frame_count align_log2);
  mret (option_map frame_idx_to_phys_addr r).

Definition dealloc_frame (target : Z) : M A unit :=
  locked_unit (λ ba, dealloc ba (phys_addr_to_frame_idx target)).

Definition dealloc_frame_contiguous (target frame_count : Z) : M A unit :=
  let start_idx := phys_addr_to_frame_idx target in
  foldMW (λ _ i, locked_unit (λ ba, dealloc ba i)) tt (seqZ start_idx frame_count).

(** ** [Frame] *)

Record Frame := mkFrame { start_paddr : Z; frame_count : Z }.

Definition frame_new : M A (option Frame) :=
  r ← alloc_frame; mret (option_map (λ p, mkFrame p 1) r).

Definition frame_new_contiguous (count align_log2 : Z) : M A (option Frame) :=
  r ← alloc_frame_contiguous count align_log2; mret (option_map (λ p, mkFrame p count) r).

Definition frame_size (f : Frame) : Z := wrap64 (frame_count f * get_page_size).

Definition frame_as_ptr (f : Frame) : Z := phys_addr_to_virt_addr (start_paddr f).

(** [Drop for Frame] *)
Definition frame_drop (f : Frame) : M A unit :=
  if frame_count f =? 1 then dealloc_frame (start_paddr f)
  else dealloc_frame_contiguous (start_paddr f) (frame_count f).
End allocator.

(** ** The bytes of a frame

    A frame with the bytes it holds, and what a frame that was just allocated
    holds: whatever was there before. *)

Record PFrame := mkPFrame { pf_frame : Frame; pf_data : list Z }.

Class StaleBytes := stale : Frame → list Z.
