(* ===== verification/PageFrameSpec.v ===== *)
(** * Ownership of page frames

    Frames are handed out and given back against the contract of the bit
    allocator.  At any time each frame index of the initialised regions is
    either free or owned by exactly one live [Frame]. *)

From S2P Require Import Prelude Bytes BitAlloc BitAllocSpec Addr PageFrame.

(** A configuration maps the indices below [cap] to consecutive pages. *)
Class ConfigOk (cfg : PageFrameConfig) (cap : Z) := {
  base_paddr : Z;
  base_ok : 0 <= base_paddr ∧ base_paddr + cap * PAGE_SIZE < 2 ^ 64;
  page_size_ok : get_page_size = PAGE_SIZE;
  paddr_of_idx i : 0 <= i < cap → frame_idx_to_phys_addr i = base_paddr + i * PAGE_SIZE;
  idx_of_addr p : base_paddr <= p < base_paddr + cap * PAGE_SIZE →
    phys_addr_to_frame_idx p = (p - base_paddr) / PAGE_SIZE }.

(** The kernel's configuration covers the 16M frames of [BitAlloc16M]. *)
Definition KernelConfig_ok (cap : Z) (Hcap : cap <= 16 ^ 6) : ConfigOk KernelConfig cap.
Proof.
  refine {| base_paddr := PHYS_MEMORY_OFFSET |}; unfold PHYS_MEMORY_OFFSET, PAGE_SIZE in *; [lia|done| |].
  - intros i Hi. cbn. rewrite !(wrap_small 64); unfold word, PAGE_SIZE, PHYS_MEMORY_OFFSET;
      rewrite ?wrap_small; unfold word; try lia.
  - intros p Hp. cbn. rewrite wrap_small; [done|]. unfold word, PHYS_MEMORY_OFFSET. lia.
Defined.

Section frames.
Context {A : Type} {ops : BitAlloc A} {V : BitAllocView A} {BS : BitAllocSpec A}.
Context {cfg : PageFrameConfig} {CO : ConfigOk cfg (CAP A)}.
Implicit Types fr : Frame.
Implicit Types live : list Frame.

Lemma idx_of_paddr i : 0 <= i < CAP A → phys_addr_to_frame_idx (base_paddr + i * PAGE_SIZE) = i.
Proof.
  intros Hi. unfold PAGE_SIZE in *. rewrite idx_of_addr by (unfold PAGE_SIZE; lia).
  unfold PAGE_SIZE. replace (base_paddr + i * 0x1000 - base_paddr) with (i * 0x1000) by lia.
  by rewrite Z.div_mul.
Qed.

Definition frame_idx fr : Z := phys_addr_to_frame_idx (start_paddr fr).

Definition owns fr (i : Z) : bool :=
  (frame_idx fr <=? i) && (i <? frame_idx fr + frame_count fr).

(** How many live frames own an index. *)
Fixpoint owners live (i : Z) : Z :=
  match live with [] => 0 | fr :: live' => Z.b2z (owns fr i) + owners live' i end.

Definition frame_ok fr : Prop :=
  0 < frame_count fr ∧ 0 <= frame_idx fr ∧ frame_idx fr + frame_count fr <= CAP A ∧
  start_paddr fr = base_paddr + frame_idx fr * PAGE_SIZE.

(** [R] is the set of indices that were put into the allocator. *)
Definition frames_inv (R : Z → bool) (a : A) live : Prop :=
  wf a ∧ Forall frame_ok live ∧
  ∀ i, Z.b2z (free a i) + owners live i = Z.b2z (R i).

Lemma owners_nonneg live i : 0 <= owners live i.
Proof. induction live as [|fr live IH]; simpl; [lia|]. destruct (owns fr i); simpl; lia. Qed.

Lemma owners_perm live1 live2 i : live1 ≡ₚ live2 → owners live1 i = owners live2 i.
Proof. induction 1; simpl; lia. Qed.

Lemma owners_in fr live i : fr ∈ live → Z.b2z (owns fr i) <= owners live i.
Proof.
  induction live as [|g live IH]; simpl; [by intros ?%elem_of_nil|].
  pose proof (owners_nonneg live i). intros [->|Hin]%elem_of_cons; [lia|].
  specialize (IH Hin). destruct (owns g i); simpl; lia.
Qed.

Lemma range_set_free (a a' : A) s e v i : range_set a a' s e v →
  free a' i = if (s <=? i) && (i <? e) then v else free a i.
Proof. by intros [_ H]. Qed.

(** A frame whose indices were free may be handed out. *)
Lemma hand_out R a a' live fr : frames_inv R a live → frame_ok fr →
  range_set a a' (frame_idx fr) (frame_idx fr + frame_count fr) false →
  (∀ i, frame_idx fr <= i < frame_idx fr + frame_count fr → free a i = true) →
  frames_inv R a' (fr :: live).
Proof.
  intros (Hwf&Hlive&Hcons) Hfr Hset Hfree. split; [by destruct Hset|]. split; [by constructor|].
  intros i. rewrite (range_set_free _ _ _ _ _ _ Hset). simpl. fold (owns fr i).
  specialize (Hcons i). unfold owns.
  destruct (Z.leb_spec (frame_idx fr) i), (Z.ltb_spec i (frame_idx fr + frame_count fr)); simpl; try lia.
  rewrite Hfree in Hcons by lia. simpl in Hcons. lia.
Qed.

Lemma hand_back R a a' live live' fr : frames_inv R a live → live ≡ₚ fr :: live' →
  range_set a a' (frame_idx fr) (frame_idx fr + frame_count fr) true →
  frames_inv R a' live'.
Proof.
  intros (Hwf&Hlive&Hcons) Hp Hset. split; [by destruct Hset|].
  rewrite Hp in Hlive. split; [by inversion Hlive|]. intros i.
  rewrite (range_set_free _ _ _ _ _ _ Hset). specialize (Hcons i).
  rewrite (owners_perm _ _ i Hp) in Hcons. simpl in Hcons. unfold owns in Hcons.
  pose proof (owners_nonneg live' i).
  destruct (Z.leb_spec (frame_idx fr) i), (Z.ltb_spec i (frame_idx fr + frame_count fr)); simpl in *; try lia.
  destruct (R i), (free a i); simpl in *; lia.
Qed.

Lemma owned_not_free R a live fr i : frames_inv R a live → fr ∈ live →
  frame_idx fr <= i < frame_idx fr + frame_count fr → free a i = false.
Proof.
  intros (_&_&Hcons) Hin Hi. specialize (Hcons i). pose proof (owners_in fr live i Hin) as Ho.
  unfold owns in Ho.
  destruct (Z.leb_spec (frame_idx fr) i), (Z.ltb_spec i (frame_idx fr + frame_count fr)); try lia.
  destruct (free a i), (R i); simpl in *; lia.
Qed.

Lemma frames_inv_perm R a live live' : live ≡ₚ live' → frames_inv R a live → frames_inv R a live'.
Proof.
  intros Hp (Hwf&Hl&Hc). split; [done|]. split; [by rewrite <- Hp|].
  intros i. by rewrite <- (owners_perm _ _ i Hp).
Qed.

(** *** The calls *)

Lemma idx_of_new k : 0 <= k < CAP A →
  ∀ n, frame_idx (mkFrame (frame_idx_to_phys_addr k) n) = k.
Proof.
  intros Hk n. unfold frame_idx; simpl. rewrite paddr_of_idx by done. by apply idx_of_paddr.
Qed.

Lemma frame_new_spec R a live : frames_inv R a live →
  (∃ fr a', frame_new a = Ret (Some fr, a') ∧ frames_inv R a' (fr :: live) ∧ frame_count fr = 1) ∨
  (frame_new a = Ret (None, a) ∧ ∀ i, free a i = false).
Proof.
  intros Hinv. pose proof Hinv as (Hwf&_&_).
  unfold frame_new, alloc_frame, locked, mbind, M_bind.
  destruct (alloc_spec a Hwf) as [(k&a'&Ha&(Hk0&Hkf&_)&Hset)|[Ha Hno]]; rewrite Ha; simpl; [left|by right].
  pose proof (free_range a k Hwf Hkf) as Hk.
  eexists _, a'. split; [done|]. split; [|done].
  apply (hand_out R a); [done| | |]; rewrite ?idx_of_new by done; cbn [frame_count].
  - unfold frame_ok. rewrite idx_of_new by done. cbn [frame_count start_paddr].
    split_and!; try lia. by apply paddr_of_idx.
  - done.
  - intros i Hi. by replace i with k by lia.
Qed.

Lemma frame_new_contiguous_spec R a live n al : frames_inv R a live → CAP A <= 2 ^ 62 →
  0 < n → 0 <= al < 62 → 2 ^ al <= CAP A →
  (∃ fr a', frame_new_contiguous n al a = Ret (Some fr, a') ∧ frames_inv R a' (fr :: live) ∧
     frame_count fr = n ∧ frame_idx fr mod 2 ^ al = 0) ∨
  (frame_new_contiguous n al a = Ret (None, a) ∧ ∀ b, ¬ fits a n al b).
Proof.
  intros Hinv Hcap Hn Hal Hal2. pose proof Hinv as (Hwf&_&_).
  unfold frame_new_contiguous, alloc_frame_contiguous, locked, mbind, M_bind.
  destruct (alloc_contiguous_spec a n al Hwf Hcap Hn Hal Hal2)
    as [(b&a'&Ha&(Hb0&Hbc&Hbal&Hfree)&_&Hset)|[Ha Hno]]; rewrite Ha; simpl; [left|by right].
  assert (0 <= b < CAP A) as Hb by lia.
  eexists _, a'. split; [done|]. split; [|split; [done|by rewrite idx_of_new by done]].
  apply (hand_out R a); [done| | |]; rewrite ?idx_of_new by done; cbn [frame_count].
  - unfold frame_ok. rewrite idx_of_new by done. cbn [frame_count start_paddr].
    split_and!; try lia. by apply paddr_of_idx.
  - done.
  - done.
Qed.

Lemma dealloc_loop n a s : wf a → 0 <= s → s + Z.of_nat n <= CAP A →
  (∀ i, s <= i < s + Z.of_nat n → free a i = false) →
  ∃ a', foldMW (λ _ i, locked_unit (λ ba, dealloc ba i)) tt (seqZ s (Z.of_nat n)) a = Ret (tt, a') ∧
    range_set a a' s (s + Z.of_nat n) true.
Proof.
  revert a s. induction n as [|n IH]; intros a s Hwf Hs Hc Hno.
  - exists a. split; [done|]. split; [done|]. intros j.
    destruct (Z.leb_spec s j), (Z.ltb_spec j (s + Z.of_nat 0)); simpl; done || lia.
  - rewrite seqZ_cons by lia. cbn [foldMW].
    assert (0 <= s < CAP A) as Hsc by lia. pose proof (dealloc_spec a s Hwf Hsc) as Hd.
    rewrite Hno in Hd by lia. destruct Hd as (a1&Ha1&Hset1).
    assert (locked_unit (λ ba, dealloc ba s) a = Ret (tt, a1)) as Hst
      by (unfold locked_unit; by rewrite Ha1).
    step Hst. replace (Z.pred (Z.of_nat (S n))) with (Z.of_nat n) by lia.
    destruct (IH a1 (Z.succ s)) as (a2&Ha2&Hset2); [by destruct Hset1|lia|lia| |].
    { intros i Hi. rewrite (range_set_free _ _ _ _ _ _ Hset1).
      destruct (Z.leb_spec s i), (Z.ltb_spec i (s + 1)); simpl; try lia. apply Hno. lia. }
    exists a2. split; [exact Ha2|]. split; [by destruct Hset2|]. intros j.
    rewrite (range_set_free _ _ _ _ _ _ Hset2), (range_set_free _ _ _ _ _ _ Hset1).
    destruct (Z.leb_spec (Z.succ s) j), (Z.leb_spec s j), (Z.ltb_spec j (s + 1)),
      (Z.ltb_spec j (Z.succ s + Z.of_nat n)), (Z.ltb_spec j (s + Z.of_nat (S n))); simpl; done || lia.
Qed.

Lemma frame_drop_spec R a live live' fr : frames_inv R a live → live ≡ₚ fr :: live' →
  ∃ a', frame_drop fr a = Ret (tt, a') ∧ frames_inv R a' live'.
Proof.
  intros Hinv Hp. pose proof Hinv as (Hwf&Hlive&_).
  assert (fr ∈ live) as Hin by (rewrite Hp; left).
  assert (frame_ok fr) as (Hn&Hi0&Hic&_) by (by apply (proj1 (list.Forall_forall _ _) Hlive)).
  assert (∀ i, frame_idx fr <= i < frame_idx fr + frame_count fr → free a i = false) as Hno
    by (intros; by eapply owned_not_free).
  assert (∃ a', frame_drop fr a = Ret (tt, a') ∧
    range_set a a' (frame_idx fr) (frame_idx fr + frame_count fr) true) as (a'&Hd&Hset).
  { unfold frame_drop. destruct (Z.eqb_spec (frame_count fr) 1) as [He|He].
    - unfold dealloc_frame, locked_unit. fold (frame_idx fr).
      assert (0 <= frame_idx fr < CAP A) as Hc by lia.
      pose proof (dealloc_spec a (frame_idx fr) Hwf Hc) as Hd. rewrite Hno in Hd by lia.
      destruct Hd as (a'&Ha&Hset). exists a'. rewrite Ha, He. by split.
    - unfold dealloc_frame_contiguous. fold (frame_idx fr).
      destruct (dealloc_loop (Z.to_nat (frame_count fr)) a (frame_idx fr) Hwf) as (a'&Ha&Hset);
        [lia|lia|intros; apply Hno; lia|].
      rewrite Z2Nat.id in * by lia. by exists a'. }
  exists a'. split; [done|]. by eapply hand_back.
Qed.

(** *** How much memory is left *)

Definition free_count (a : A) : Z := sum_below (λ i, Z.b2z (free a i)) (Z.to_nat (CAP A)).

Fixpoint held live : Z :=
  match live with [] => 0 | fr :: live' => frame_count fr + held live' end.

Lemma sum_owners live : Forall frame_ok live → sum_below (owners live) (Z.to_nat (CAP A)) = held live.
Proof.
  induction 1 as [|fr live (?&?&?&_) _ IH]; simpl.
  - induction (Z.to_nat (CAP A)) as [|n IH]; simpl; [done|]. by rewrite IH.
  - rewrite sum_below_add, IH. f_equal. unfold owns. rewrite sum_below_range by lia. lia.
Qed.

(** What is free and what is held make up the initialised frames. *)
Lemma frames_count R a live : frames_inv R a live →
  free_count a + held live = sum_below (λ i, Z.b2z (R i)) (Z.to_nat (CAP A)).
Proof.
  intros (_&Hlive&Hcons). rewrite <- sum_owners by done. unfold free_count.
  rewrite <- sum_below_add. by apply sum_below_ext.
Qed.

Lemma held_app live1 live2 : held (live1 ++ live2) = held live1 + held live2.
Proof. induction live1 as [|fr live1 IH]; simpl; lia. Qed.

Lemma free_count_bound a : 0 <= free_count a <= Z.max 0 (CAP A).
Proof. unfold free_count. pose proof (sum_below_bool (free a) (Z.to_nat (CAP A))). lia. Qed.

(** Taking one more frame works as long as one is left. *)
Lemma frame_new_count R a live : frames_inv R a live →
  if 0 <? free_count a
  then ∃ fr a', frame_new a = Ret (Some fr, a') ∧ frames_inv R a' (fr :: live) ∧
    frame_count fr = 1 ∧ free_count a' = free_count a - 1
  else frame_new a = Ret (None, a).
Proof.
  intros Hinv. destruct (frame_new_spec R a live Hinv) as [(fr&a'&Hf&Hi&H1)|[Hf Hno]].
  - pose proof (frames_count _ _ _ Hinv) as H2. pose proof (frames_count _ _ _ Hi) as H3. simpl in H3.
    pose proof (free_count_bound a'). destruct (Z.ltb_spec 0 (free_count a)); [|lia].
    exists fr, a'. split_and!; try done. lia.
  - replace (free_count a) with 0; [done|]. unfold free_count.
    rewrite (sum_below_ext _ (λ _, 0)) by (intros; by rewrite Hno).
    induction (Z.to_nat (CAP A)) as [|n IH]; simpl; [done|]. by rewrite <- IH.
Qed.

(** *** The initialised regions *)

Definition region_ok (region : Z * Z) : Prop :=
  base_paddr <= region.1 < region.2 ∧ region.2 <= base_paddr + CAP A * PAGE_SIZE.

(** Page [i] of the configuration meets the region. *)
Definition region_has (region : Z * Z) (i : Z) : bool :=
  ((region.1 - base_paddr) / PAGE_SIZE <=? i) && (i <=? (region.2 - 1 - base_paddr) / PAGE_SIZE).

Definition regions_have (regions : list (Z * Z)) (i : Z) : bool :=
  existsb (λ r, region_has r i) regions.

Lemma init_region_spec region a : wf a → region_ok region →
  ∃ a', init_region region a = Ret (tt, a') ∧ wf a' ∧
    ∀ i, free a' i = region_has region i || free a i.
Proof.
  intros Hwf [[H1 H2] H3]. destruct region as [s e]; simpl in *. pose proof base_ok as [Hb0 Hb1].
  unfold init_region, region_has; cbn [fst snd]. unfold PAGE_SIZE in *.
  rewrite (wrap_small 64 (e - 1)) by (unfold word; lia).
  rewrite !idx_of_addr by (unfold PAGE_SIZE; lia). unfold PAGE_SIZE.
  set (x := (s - base_paddr) / 0x1000). set (y := (e - 1 - base_paddr) / 0x1000).
  assert (0 <= x <= y ∧ y + 1 <= CAP A) as [Hxy Hy] by (unfold x, y; split; dlia).
  rewrite (wrap_small 64 (y + 1)) by (unfold word; lia).
  unfold mbind, M_bind, assertM. destruct (Z.ltb_spec x (y + 1)); [|lia].
  destruct (insert_spec a x (y + 1) Hwf) as (a'&Ha&Hwf'&Hset); [lia|lia|].
  unfold locked_unit. rewrite Ha. exists a'. split; [done|]. split; [done|].
  intros i. rewrite Hset.
  destruct (Z.leb_spec x i), (Z.ltb_spec i (y + 1)), (Z.leb_spec i y); simpl; done || lia.
Qed.

Lemma frame_init_spec regions a : wf a → Forall region_ok regions →
  ∃ a', frame_init regions a = Ret (tt, a') ∧ wf a' ∧
    ∀ i, free a' i = regions_have regions i || free a i.
Proof.
  revert a. induction regions as [|r regions IH]; intros a Hwf Hr; simpl.
  - by exists a.
  - inversion_clear Hr as [|?? Hr1 Hr2].
    destruct (init_region_spec r a Hwf Hr1) as (a1&Ha1&Hwf1&Hf1).
    unfold frame_init. cbn [foldMW]. step Ha1.
    destruct (IH a1 Hwf1 Hr2) as (a2&Ha2&Hwf2&Hf2). exists a2. split; [exact Ha2|].
    split; [done|]. intros i. rewrite Hf2, Hf1. by destruct (region_has r i), (regions_have regions i).
Qed.

(** *** Histories of calls *)

(** The program's moves: a state is the allocator and the live frames. *)
Inductive frame_step : A * list Frame → A * list Frame → Prop :=
| step_new a live fr a' :
    frame_new a = Ret (Some fr, a') → frame_step (a, live) (a', fr :: live)
| step_new_contiguous a live n al fr a' :
    0 < n → 0 <= al < 62 → 2 ^ al <= CAP A →
    frame_new_contiguous n al a = Ret (Some fr, a') → frame_step (a, live) (a', fr :: live)
| step_drop a live fr live' a' :
    live ≡ₚ fr :: live' → frame_drop fr a = Ret (tt, a') → frame_step (a, live) (a', live').

Lemma frame_step_inv R a live a' live' : CAP A <= 2 ^ 62 → frames_inv R a live →
  frame_step (a, live) (a', live') → frames_inv R a' live'.
Proof.
  intros Hcap Hinv Hstep. inversion Hstep as [? ? ? ? Hn|? ? ? ? ? ? ? ? ? Hn|? ? ? ? ? ? Hd]; subst.
  - destruct (frame_new_spec R a live Hinv) as [(fr'&a''&Hn'&Hi&_)|[Hn' _]];
      rewrite Hn in Hn'; by simplify_eq.
  - destruct (frame_new_contiguous_spec R a live n al Hinv) as [(fr'&a''&Hn'&Hi&_)|[Hn' _]];
      try done; rewrite Hn in Hn'; by simplify_eq.
  - destruct (frame_drop_spec R a live live' fr Hinv) as (a''&Hd'&Hi); [done|].
    rewrite Hd in Hd'. by simplify_eq.
Qed.

Lemma frame_steps_inv R st st' : CAP A <= 2 ^ 62 → rtc frame_step st st' →
  frames_inv R st.1 st.2 → frames_inv R st'.1 st'.2.
Proof.
  intros Hcap. induction 1 as [|[a live] [a1 live1] ? Hs _ IH]; [done|].
  intros Hinv. apply IH. by eapply frame_step_inv.
Qed.

(** The bytes of two frames do not meet. *)
Definition frames_apart fr1 fr2 : Prop :=
  start_paddr fr1 + frame_count fr1 * PAGE_SIZE <= start_paddr fr2 ∨
  start_paddr fr2 + frame_count fr2 * PAGE_SIZE <= start_paddr fr1.

Lemma frames_inv_apart R a live fr1 fr2 rest : frames_inv R a live →
  live ≡ₚ fr1 :: fr2 :: rest → frames_apart fr1 fr2.
Proof.
  intros (_&Hlive&Hcons) Hp. rewrite Hp in Hlive.
  inversion_clear Hlive as [|?? (Hn1&Hi1&_&Hp1) Hlive']. inversion_clear Hlive' as [|?? (Hn2&Hi2&_&Hp2) _].
  unfold frames_apart. rewrite Hp1, Hp2. unfold PAGE_SIZE.
  destruct (decide (frame_idx fr1 + frame_count fr1 <= frame_idx fr2)); [left; lia|].
  destruct (decide (frame_idx fr2 + frame_count fr2 <= frame_idx fr1)); [right; lia|].
  exfalso. set (i := Z.max (frame_idx fr1) (frame_idx fr2)). specialize (Hcons i).
  rewrite (owners_perm _ _ i Hp) in Hcons. simpl in Hcons. pose proof (owners_nonneg rest i).
  assert (owns fr1 i = true ∧ owns fr2 i = true) as [Ho1 Ho2].
  { unfold owns. split; apply andb_true_iff; rewrite Z.leb_le, Z.ltb_lt; lia. }
  rewrite Ho1, Ho2 in Hcons. destruct (free a i), (R i); simpl in *; lia.
Qed.
End frames.

(** ** A small machine

    Sixteen frames under the kernel's configuration, for the examples. *)

Module Machine.
Export BitFieldModel.
#[export] Existing Instance KernelConfig.
#[export] Instance machine_alloc_spec : BitAllocSpec (Tower 0) := proj2 (tower_spec 0 ltac:(lia)).

Lemma machine_cap : CAP (Tower 0) <= 16 ^ 6.
Proof. by rewrite (proj1 (tower_spec 0 ltac:(lia))). Qed.

#[export] Instance machine_config_ok : ConfigOk KernelConfig (CAP (Tower 0)) :=
  KernelConfig_ok (CAP (Tower 0)) machine_cap.

#[export] Instance stale_bytes : StaleBytes := λ _, repeat 0xAA (Z.to_nat PAGE_SIZE).

Lemma stale_bytes_len fr : len (stale fr) = PAGE_SIZE.
Proof. unfold stale, stale_bytes, len. by rewrite repeat_length. Qed.

Definition first_16 (i : Z) : bool := (0 <=? i) && (i <? 16).

Definition machine_alloc : Tower 0 := mkBitAlloc16 0xffff.

Lemma machine_frames : frames_inv first_16 machine_alloc [].
Proof.
  split; [by split|]. split; [by constructor|]. intros i. unfold first_16. simpl.
  destruct (Z.leb_spec 0 i), (Z.ltb_spec i 16); simpl; try done.
  - change 65535 with (Z.ones 16). by rewrite Z.ones_spec_low by lia.
  - change 65535 with (Z.ones 16). by rewrite Z.ones_spec_high by lia.
Qed.
End Machine.

(** ** Properties *)

(** C4. After [init] the frames of the memory regions are shared between the
    allocator and the live [Frame]s, whatever allocations and drops follow: an
    index is free or in exactly one live frame, and only if it belongs to a
    region; the bytes of two live frames never meet and lie in the configured
    memory; dropping any live frame succeeds, and [Frame::new] fails only when
    no frame is free. *)
Theorem frames_conserved {A} {ops : BitAlloc A} {V : BitAllocView A} {BS : BitAllocSpec A}
    {cfg : PageFrameConfig} {CO : ConfigOk cfg (CAP A)} (regions : list (Z * Z)) :
  CAP A <= 2 ^ 62 → Forall region_ok regions →
  ∃ a0, frame_init regions (DEFAULT : A) = Ret (tt, a0) ∧
  ∀ a live, rtc frame_step (a0, []) (a, live) →
    (∀ i, Z.b2z (free a i) + owners live i = Z.b2z (regions_have regions i)) ∧
    (∀ fr1 fr2 rest, live ≡ₚ fr1 :: fr2 :: rest → frames_apart fr1 fr2) ∧
    (∀ fr live', live ≡ₚ fr :: live' →
       base_paddr <= start_paddr fr ∧
       start_paddr fr + frame_count fr * PAGE_SIZE <= base_paddr + CAP A * PAGE_SIZE ∧
       ∃ a', frame_drop fr a = Ret (tt, a')) ∧
    (frame_new a = Ret (None, a) ↔ ∀ i, free a i = false).
Proof.
  intros Hcap Hr. destruct (frame_init_spec regions DEFAULT wf_DEFAULT Hr) as (a0&Ha0&Hwf&Hf).
  exists a0. split; [done|]. intros a live Hsteps.
  assert (frames_inv (regions_have regions) a live) as Hinv.
  { apply (frame_steps_inv _ _ _ Hcap Hsteps). split; [done|]. split; [by constructor|].
    intros i. simpl. rewrite Hf, free_DEFAULT, orb_false_r. lia. }
  split_and!.
  - by destruct Hinv as (_&_&?).
  - intros. by eapply frames_inv_apart.
  - intros fr live' Hp. destruct (frame_drop_spec _ _ _ _ _ Hinv Hp) as (a'&Hd&_).
    pose proof Hinv as (_&Hlive&_). rewrite Hp in Hlive.
    inversion_clear Hlive as [|?? (?&?&?&Hp1) _]. rewrite Hp1. unfold PAGE_SIZE.
    split_and!; [lia|lia|by exists a'].
  - destruct (frame_new_spec _ _ _ Hinv) as [(fr&a'&Hn&(_&_&Hc)&_)|[Hn Hno]]; [|done].
    rewrite Hn. split; [done|]. intros Hno. exfalso.
    destruct (alloc_spec a) as [(k&a''&Ha&(_&Hk&_)&_)|[Ha _]];
      [by destruct Hinv|by rewrite Hno in Hk|].
    unfold frame_new, alloc_frame, locked, mbind, M_bind in Hn. rewrite Ha in Hn. by simplify_eq.
Qed.

Section frames_conserved_at.
Import BitFieldModel.

#[local] Existing Instance KernelConfig.
#[local] Instance kernel_alloc_spec : BitAllocSpec (Tower 5) := proj2 (tower_spec 5 ltac:(lia)).
Lemma kernel_cap : CAP (Tower 5) <= 16 ^ 6.
Proof. by rewrite (proj1 (tower_spec 5 ltac:(lia))). Qed.

#[local] Instance kernel_config_ok : ConfigOk KernelConfig (CAP (Tower 5)) :=
  KernelConfig_ok (CAP (Tower 5)) kernel_cap.

(** The kernel's [BitAlloc16M] over one region of memory. *)
Lemma frames_conserved_witness :
  ∃ a0 : Tower 5, frame_init [(0x80200000, 0x88000000)] (DEFAULT : Tower 5) = Ret (tt, a0) ∧
  ∀ a live, rtc frame_step (a0, []) (a, live) →
    ∀ i, Z.b2z (free a i) + owners live i = Z.b2z (regions_have [(0x80200000, 0x88000000)] i).
Proof.
  destruct (frames_conserved (A := Tower 5) [(0x80200000, 0x88000000)]) as (a0&Ha0&H).
  - vm_compute. congruence.
  - repeat constructor; vm_compute; congruence.
  - exists a0. split; [exact Ha0|]. intros a live Hs. exact (proj1 (H a live Hs)).
Defined.
End frames_conserved_at.
