(* ===== verification/RangeMap.v ===== *)
(** * The range map ([modules/range-action-map])

    [RangeActionMap] keeps disjoint half-open ranges, each with a user segment;
    the kernel's address spaces use it for mmap, munmap and mprotect.  The
    trait [Segment] is a class of operations on a segment that may also change
    a world [W] (page tables, frames), and [SegmentSpec] its contract. *)

From S2P Require Import Prelude.

(** ** [BTreeMap<usize, V>] as a list of pairs with increasing keys *)

Section btree.
Context {A : Type}.
Implicit Types m : list (Z * A).

(** [insert]: replaces the value of an existing key. *)
Fixpoint bt_insert (k : Z) (v : A) m : list (Z * A) :=
  match m with
  | [] => [(k, v)]
  | (k', v') :: m' =>
      if k <? k' then (k, v) :: m
      else if k =? k' then (k, v) :: m'
      else (k', v') :: bt_insert k v m'
  end.

(** [range(..=pos).last()] *)
Definition bt_last_le (pos : Z) m : option (Z * A) :=
  list.last (filter (λ kv, kv.1 <= pos) m).

(** [drain_filter(p)]: the values taken out, and the map without them. *)
Definition bt_drain_filter (p : A → bool) m : list A * list (Z * A) :=
  (snd <$> filter (λ kv, p kv.2 = true) m, filter (λ kv, p kv.2 = false) m).
End btree.

(** ** [segment.rs] *)

Class Segment (W S : Type) := {
  seg_remove : S → Z → M W S;
  seg_split : S → Z → Z → M W (S * S);
  seg_modify : S → Z → Z → M W S }.

Section segment.
Context {W S : Type} `{Segment W S}.

Definition shrink_to_left (self : S) (pos args : Z) : M W S :=
  '(self, right_) ← seg_split self pos args;
  _ ← seg_remove right_ args;
  mret self.

Definition shrink_to_right (self : S) (pos args : Z) : M W S :=
  '(self, right_) ← seg_split self pos args;
  _ ← seg_remove self args;
  mret right_.

Definition split_and_remove_middle (self : S) (pos_left pos_right args : Z) : M W (S * S) :=
  '(self, right_) ← seg_split self pos_right args;
  '(self, mid) ← seg_split self pos_left args;
  _ ← seg_remove mid args;
  mret (self, right_).

Definition modify_left (self : S) (pos new_flag args : Z) : M W (S * S) :=
  '(self, right_) ← seg_split self pos args;
  self ← seg_modify self new_flag args;
  mret (self, right_).

Definition modify_right (self : S) (pos new_flag args : Z) : M W (S * S) :=
  '(self, right_) ← seg_split self pos args;
  right_ ← seg_modify right_ new_flag args;
  mret (self, right_).

Definition modify_middle (self : S) (pos_left pos_right new_flag args : Z)
    : M W (S * (S * S)) :=
  '(self, right_) ← seg_split self pos_right args;
  '(self, middle) ← seg_split self pos_left args;
  middle ← seg_modify middle new_flag args;
  mret (self, (middle, right_)).
End segment.

(** ** [range_area.rs] and [set.rs] *)

Record RangeArea (S : Type) := mkArea { start : Z; end_ : Z; segment : S }.
Arguments mkArea {S}.
Arguments start {S}.
Arguments end_ {S}.
Arguments segment {S}.

Inductive DiffSet (S : Type) :=
| DUnchanged
| DRemoved
| DShrinked
| DSplitted (right_ : RangeArea S).
Arguments DUnchanged {S}.
Arguments DRemoved {S}.
Arguments DShrinked {S}.
Arguments DSplitted {S}.

Inductive CutSet (S : Type) :=
| CUnchanged
| CWholeModified
| CModifiedLeft (right_ : RangeArea S)
| CModifiedRight (right_ : RangeArea S)
| CModifiedMiddle (mid right_ : RangeArea S).
Arguments CUnchanged {S}.
Arguments CWholeModified {S}.
Arguments CModifiedLeft {S}.
Arguments CModifiedRight {S}.
Arguments CModifiedMiddle {S}.

Section area.
Context {W S : Type} `{Segment W S}.
Implicit Types self : RangeArea S.

Definition contains self (pos : Z) : bool := (start self <=? pos) && (pos <? end_ self).

Definition is_overlap_with self (s e : Z) : bool :=
  negb ((end_ self <=? s) || (e <=? start self)).

(** Both functions mutate [self]: the second component is its new value. *)
Definition shrink_or_split_if_overlap self (s e args : Z)
    : M W (DiffSet S * RangeArea S) :=
  if (e <=? start self) || (end_ self <=? s) then mret (DUnchanged, self)
  else if (s <=? start self) && (end_ self <=? e) then
    seg ← seg_remove (segment self) args;
    mret (DRemoved, mkArea (start self) (end_ self) seg)
  else if (start self <? s) && (e <? end_ self) then
    '(seg, right_) ← split_and_remove_middle (segment self) s e args;
    mret (DSplitted (mkArea e (end_ self) right_), mkArea (start self) s seg)
  else if e <? end_ self then
    seg ← shrink_to_right (segment self) e args;
    mret (DShrinked, mkArea e (end_ self) seg)
  else
    _ ← assertM (start self <? s);
    seg ← shrink_to_left (segment self) s args;
    mret (DShrinked, mkArea (start self) s seg).

Definition split_and_modify_if_overlap self (s e new_flag args : Z)
    : M W (CutSet S * RangeArea S) :=
  if (e <=? start self) || (end_ self <=? s) then mret (CUnchanged, self)
  else if (s <=? start self) && (end_ self <=? e) then
    seg ← seg_modify (segment self) new_flag args;
    mret (CWholeModified, mkArea (start self) (end_ self) seg)
  else if (start self <? s) && (e <? end_ self) then
    '(seg, (seg_middle, seg_right)) ← modify_middle (segment self) s e new_flag args;
    mret (CModifiedMiddle (mkArea s e seg_middle) (mkArea e (end_ self) seg_right),
          mkArea (start self) s seg)
  else if e <? end_ self then
    '(seg, right_) ← modify_left (segment self) e new_flag args;
    mret (CModifiedLeft (mkArea e (end_ self) right_), mkArea (start self) e seg)
  else
    _ ← assertM (start self <? s);
    '(seg, right_) ← modify_right (segment self) s new_flag args;
    mret (CModifiedRight (mkArea s (end_ self) right_), mkArea (start self) s seg).
End area.

(** ** [lib.rs] *)

Definition LOWER_LIMIT : Z := 0x1000.
Definition UPPER_LIMIT : Z := 0xffffffffffffffff.

Record RangeActionMap (S : Type) := mkRAM { segments : list (Z * RangeArea S); args : Z }.
Arguments mkRAM {S}.
Arguments segments {S}.
Arguments args {S}.

Section map.
Context {W S : Type} `{Segment W S}.
Implicit Types self : RangeActionMap S.

Definition ram_new (a : Z) : RangeActionMap S := mkRAM [] a.

(** [self.segments.insert(area.start, area)] *)
Definition put_area (m : list (Z * RangeArea S)) (a : RangeArea S) : list (Z * RangeArea S) :=
  bt_insert (start a) a m.

Definition insert_raw self (s e : Z) (seg : S) : RangeActionMap S :=
  mkRAM (bt_insert s (mkArea s e seg) (segments self)) (args self).

Definition find self (pos : Z) : option S :=
  match bt_last_le pos (segments self) with
  | Some (_, area) => if contains area pos then Some (segment area) else None
  | None => None
  end.

(** [iter()], as the list of what it yields. *)
Definition iter self : list S := (λ kv, segment kv.2) <$> segments self.

(** The loop of [find_free_area]. *)
Fixpoint find_free_loop (last_seg_end len : Z) (m : list (Z * RangeArea S)) : Z + Z :=
  match m with
  | [] => inr last_seg_end
  | (s, seg) :: m' =>
      if wrap64 (last_seg_end + len) <=? s then inl last_seg_end
      else find_free_loop (Z.max last_seg_end (end_ seg)) len m'
  end.

Definition find_free_area self (hint len : Z) : option Z :=
  match find_free_loop (Z.max hint LOWER_LIMIT) len (segments self) with
  | inl found => Some found
  | inr last_seg_end =>
      if wrap64 (last_seg_end + len) <=? UPPER_LIMIT then Some last_seg_end else None
  end.

Definition mmap_anywhere self (hint len : Z) (f : Z → M W S)
    : M W (option Z * RangeActionMap S) :=
  match find_free_area self hint len with
  | Some s =>
      seg ← f s;
      mret (Some s, insert_raw self s (wrap64 (s + len)) seg)
  | None => mret (None, self)
  end.

(** One turn of the loop of [unmap]. *)
Definition unmap_body (s e args : Z) (m : list (Z * RangeArea S)) (area : RangeArea S)
    : M W (list (Z * RangeArea S)) :=
  '(diff, area) ← shrink_or_split_if_overlap area s e args;
  mret match diff with
       | DShrinked => put_area m area
       | DSplitted right_ => put_area (put_area m area) right_
       | DUnchanged | DRemoved => m
       end.

Definition unmap self (s e : Z) : M W (RangeActionMap S) :=
  let '(areas_to_be_modified, rest) :=
    bt_drain_filter (λ area, is_overlap_with area s e) (segments self) in
  m ← foldMW (unmap_body s e (args self)) rest areas_to_be_modified;
  mret (mkRAM m (args self)).

Definition mmap_fixed self (s e : Z) (f : M W S)
    : M W (option Z * RangeActionMap S) :=
  if (s <? LOWER_LIMIT) || (UPPER_LIMIT <? e) then mret (None, self)
  else
    self ← unmap self s e;
    seg ← f;
    mret (Some s, insert_raw self s e seg).

(** One turn of the loop of [mprotect]. *)
Definition mprotect_body (s e new_flags args : Z) (m : list (Z * RangeArea S))
    (area : RangeArea S) : M W (list (Z * RangeArea S)) :=
  '(cut, area) ← split_and_modify_if_overlap area s e new_flags args;
  mret match cut with
       | CWholeModified => put_area m area
       | CModifiedLeft right_ | CModifiedRight right_ => put_area (put_area m area) right_
       | CModifiedMiddle mid right_ => put_area (put_area (put_area m area) mid) right_
       | CUnchanged => m
       end.

Definition mprotect self (s e new_flags : Z) : M W (RangeActionMap S) :=
  let '(areas_to_be_modified, rest) :=
    bt_drain_filter (λ area, is_overlap_with area s e) (segments self) in
  m ← foldMW (mprotect_body s e new_flags (args self)) rest areas_to_be_modified;
  mret (mkRAM m (args self)).
End map.
