(* ===== verification/RangeMapSpec.v ===== *)
(** * Correctness of the range map

    A map of well-formed areas denotes a partial function from addresses to
    contents ([view]); [unmap], [mprotect], [mmap_fixed] and [mmap_anywhere]
    act on it as their names say, against the contract [SegmentSpec] of the
    segments, and keep the areas sorted and disjoint. *)

From S2P Require Import Prelude RangeMap.

(** ** The contract of a segment

    Segments on addresses outside [lo, hi) stay what they were. *)
Definition keeps {W S} (wf : W → S → Z → Z → Prop) (w w' : W) (lo hi : Z) : Prop :=
  ∀ s l h, h <= lo ∨ hi <= l → wf w s l h → wf w' s l h.

(** [seg_wf w s lo hi]: in the world [w] the segment describes the addresses
    [lo, hi).  [seg_at s x]: what it holds at [x].  [mapped w x]: the world
    maps [x].  [cut_ok x]: a segment may be cut at [x]. *)
Class SegmentSpec (W S C : Type) {HS : Segment W S} := {
  seg_wf : W → S → Z → Z → Prop;
  seg_at : S → Z → C;
  set_flag : Z → C → C;
  cut_ok : Z → Prop;
  world_ok : W → Prop;
  mapped : W → Z → bool;
  remove_ok s lo hi a w : seg_wf w s lo hi → lo < hi → world_ok w →
    ∃ s' w', seg_remove s a w = Ret (s', w') ∧ world_ok w' ∧ keeps seg_wf w w' lo hi ∧
      ∀ x, mapped w' x = if (lo <=? x) && (x <? hi) then false else mapped w x;
  split_ok s lo hi pos a w : seg_wf w s lo hi → lo < pos < hi → cut_ok pos → world_ok w →
    ∃ (l r : S) w', seg_split s pos a w = Ret ((l, r), w') ∧ world_ok w' ∧
      keeps seg_wf w w' lo hi ∧ (∀ x, mapped w' x = mapped w x) ∧
      seg_wf w' l lo pos ∧ seg_wf w' r pos hi ∧
      (∀ x, lo <= x < pos → seg_at l x = seg_at s x) ∧
      (∀ x, pos <= x < hi → seg_at r x = seg_at s x);
  modify_ok s lo hi f a w : seg_wf w s lo hi → lo < hi → world_ok w →
    ∃ s' w', seg_modify s f a w = Ret (s', w') ∧ world_ok w' ∧
      keeps seg_wf w w' lo hi ∧ (∀ x, mapped w' x = mapped w x) ∧ seg_wf w' s' lo hi ∧
      (∀ x, lo <= x < hi → seg_at s' x = set_flag f (seg_at s x)) }.

Lemma keeps_trans {W S} (wf : W → S → Z → Z → Prop) w1 w2 w3 lo hi lo1 hi1 lo2 hi2 :
  keeps wf w1 w2 lo1 hi1 → keeps wf w2 w3 lo2 hi2 →
  lo <= lo1 → hi1 <= hi → lo <= lo2 → hi2 <= hi → keeps wf w1 w3 lo hi.
Proof. intros H1 H2 ???? s l h Hd Hs. apply H2; [lia|]. apply H1; [lia|done]. Qed.

Section spec.
Context {W S C : Type} {HS : Segment W S} {SP : SegmentSpec W S C}.
Implicit Types a b d : RangeArea S.
Implicit Types l ps : list (RangeArea S).
Implicit Types m : list (Z * RangeArea S).

(** ** What a map denotes *)

Section static.
Context (w : W).

Definition area_view a (x : Z) : option C :=
  if contains a x then Some (seg_at (segment a) x) else None.

Fixpoint areas_view l (x : Z) : option C :=
  match l with
  | [] => None
  | a :: l' => match area_view a x with Some c => Some c | None => areas_view l' x end
  end.

Definition view m (x : Z) : option C := areas_view (snd <$> m) x.

Definition area_wf a : Prop :=
  start a < end_ a ∧ seg_wf w (segment a) (start a) (end_ a).

(** Areas in increasing order from [lo] on, not overlapping. *)
Fixpoint areas_wf (lo : Z) l : Prop :=
  match l with
  | [] => True
  | a :: l' => lo <= start a ∧ area_wf a ∧ areas_wf (end_ a) l'
  end.

(** The representation invariant of [segments]. *)
Definition map_wf m : Prop :=
  areas_wf 0 (snd <$> m) ∧ Forall (λ kv, kv.1 = start kv.2) m.

Definition sep a b : Prop := end_ a <= start b ∨ end_ b <= start a.

(** ** Sorted lists of areas *)

Lemma areas_wf_weaken lo lo' l : lo' <= lo → areas_wf lo l → areas_wf lo' l.
Proof. destruct l; simpl; [done|]. intros ? (?&?&?). split_and!; [lia|done..]. Qed.

Lemma areas_wf_In lo l a : areas_wf lo l → a ∈ l → lo <= start a ∧ area_wf a.
Proof.
  revert lo. induction l as [|b l IH]; intros lo Hwf Hin; [by apply not_elem_of_nil in Hin|].
  destruct Hwf as (?&Hb&Hl). apply elem_of_cons in Hin as [->|Hin]; [done|].
  destruct (IH _ Hl Hin). destruct Hb. split; [lia|done].
Qed.

Lemma areas_wf_sep lo l a b : areas_wf lo l → a ∈ l → b ∈ l → a = b ∨ sep a b.
Proof.
  revert lo. induction l as [|d l IH]; intros lo Hwf Ha Hb; [by apply not_elem_of_nil in Ha|].
  destruct Hwf as (?&Hd&Hl). unfold sep.
  apply elem_of_cons in Ha as [->|Ha]; apply elem_of_cons in Hb as [->|Hb]; [by left|..].
  - destruct (areas_wf_In _ _ _ Hl Hb). lia.
  - destruct (areas_wf_In _ _ _ Hl Ha). lia.
  - by eapply IH.
Qed.

Lemma areas_view_below lo l x : areas_wf lo l → x < lo → areas_view l x = None.
Proof.
  revert lo. induction l as [|a l IH]; intros lo Hwf Hx; simpl; [done|].
  destruct Hwf as (?&[??]&Hl). unfold area_view, contains.
  rewrite (IH (end_ a)) by (done || lia). zcases.
Qed.

Lemma areas_view_Some l x c :
  areas_view l x = Some c → ∃ a, a ∈ l ∧ area_view a x = Some c.
Proof.
  induction l as [|a l IH]; simpl; [done|]. destruct (area_view a x) eqn:Ha.
  - intros [= <-]. exists a. split; [by left|done].
  - intros (b&?&?)%IH. exists b. split; [by right|done].
Qed.

Lemma area_view_Some a x c :
  area_view a x = Some c ↔ start a <= x < end_ a ∧ c = seg_at (segment a) x.
Proof.
  unfold area_view, contains. zcases; (split; [|intros [? ->]; done || lia]); [|done..].
  intros [= <-]. done.
Qed.

Lemma area_view_None a x : area_view a x = None ↔ ¬ (start a <= x < end_ a).
Proof. unfold area_view, contains. zcases; (split; [|done || lia]); done || lia. Qed.

(** In a sorted list the view at [x] is the one of the area that contains [x]. *)
Lemma areas_view_In lo l a x : areas_wf lo l → a ∈ l → start a <= x < end_ a →
  areas_view l x = area_view a x.
Proof.
  revert lo. induction l as [|b l IH]; intros lo Hwf Hin Hx; [by apply not_elem_of_nil in Hin|].
  destruct Hwf as (?&Hb&Hl). simpl. apply elem_of_cons in Hin as [->|Hin].
  - destruct (area_view b x) eqn:Hv; [done|]. apply area_view_None in Hv. lia.
  - destruct (areas_wf_In _ _ _ Hl Hin). rewrite (IH _ Hl Hin Hx).
    destruct (area_view b x) eqn:Hv; [|done]. apply area_view_Some in Hv. lia.
Qed.

Lemma areas_wf_filter lo m (P : Z * RangeArea S → Prop) `{∀ kv, Decision (P kv)} :
  areas_wf lo (snd <$> m) → areas_wf lo (snd <$> filter P m).
Proof.
  revert lo. induction m as [|[k a] m IH]; intros lo Hwf; [done|].
  destruct Hwf as (?&Ha&Hm). rewrite filter_cons. case_decide; simpl.
  - split_and!; [done..|by apply IH].
  - apply IH. apply (areas_wf_weaken (end_ a)); [|done]. destruct Ha. simpl in *. lia.
Qed.

(** ** Taking areas out *)

Lemma drain_filter_spec (p : RangeArea S → bool) m ds rest : map_wf m →
  bt_drain_filter p m = (ds, rest) →
  map_wf rest ∧ areas_wf 0 ds ∧
  (∀ d, d ∈ ds → p d = true) ∧ (∀ kv, kv ∈ rest → p kv.2 = false) ∧
  (∀ d kv, d ∈ ds → kv ∈ rest → sep d kv.2) ∧
  ∀ x, view m x = match areas_view ds x with Some c => Some c | None => view rest x end.
Proof.
  intros [Hwf Hkey] [= <- <-].
  assert (Hds : ∀ d, d ∈ (filter (λ kv, p kv.2 = true) m).*2 → p d = true ∧ d ∈ m.*2).
  { intros d Hd. apply list_elem_of_fmap in Hd as (kv&->&[? Hm]%list_elem_of_filter).
    split; [done|]. by apply list_elem_of_fmap_2. }
  split_and!.
  - split; [by apply areas_wf_filter|]. apply list.Forall_forall. intros kv [_ ?]%list_elem_of_filter.
    by eapply list.Forall_forall in Hkey.
  - by apply areas_wf_filter.
  - intros d Hd. by apply Hds.
  - intros kv [? _]%list_elem_of_filter. done.
  - intros d kv Hd [Hp Hm]%list_elem_of_filter. destruct (Hds d Hd) as [Hpd Hdm].
    destruct (areas_wf_sep 0 (m.*2) d kv.2) as [->|?]; [done|done| |congruence|done].
    by apply list_elem_of_fmap_2.
  - intros x. clear Hkey Hds. unfold view. generalize dependent 0.
    induction m as [|[k a] m IH]; intros lo Hwf; [done|].
    destruct Hwf as (?&Ha&Hm). rewrite !filter_cons. simpl.
    destruct (decide (p a = true)) as [Hp|Hp], (decide (p a = false)); try congruence; simpl.
    + destruct (area_view a x); [done|]. apply (IH _ Hm).
    + destruct (area_view a x) eqn:Hv; [|apply (IH _ Hm)].
      rewrite (areas_view_below (end_ a)); [done|by apply areas_wf_filter|].
      apply area_view_Some in Hv. lia.
    + by destruct (p a).
Qed.

(** ** Putting areas back *)

Lemma elem_of_put m a kv : kv ∈ put_area m a → kv = (start a, a) ∨ kv ∈ m.
Proof.
  unfold put_area. induction m as [|[k b] m IH]; simpl.
  - rewrite list_elem_of_singleton. by left.
  - destruct (start a <? k); [|destruct (start a =? k)]; rewrite !elem_of_cons.
    + intros [?|?]; auto.
    + intros [?|?]; auto.
    + intros [?|[?|?]%IH]; auto.
Qed.

Lemma put_spec lo m a : areas_wf lo (snd <$> m) → Forall (λ kv, kv.1 = start kv.2) m →
  area_wf a → lo <= start a → (∀ kv, kv ∈ m → sep a kv.2) →
  areas_wf lo (snd <$> put_area m a) ∧ Forall (λ kv, kv.1 = start kv.2) (put_area m a) ∧
  ∀ x, view (put_area m a) x = match area_view a x with Some c => Some c | None => view m x end.
Proof.
  intros Hwf Hkey Ha. unfold put_area, view. revert lo Hwf.
  induction Hkey as [|[k b] m Hk Hkey IH]; intros lo Hwf Hlo Hsep; simpl.
  { split; [by split|]. split; [by constructor|done]. }
  destruct Hwf as (?&Hb&Hm). simpl in *. subst k.
  assert (sep a b) as Hab by (apply (Hsep (start b, b)); by left).
  destruct Ha as [Ha ?], Hb as [Hb ?].
  destruct (Z.ltb_spec (start a) (start b)); [|destruct (Z.eqb_spec (start a) (start b))].
  - unfold sep in Hab. simpl. split; [repeat split; done || lia|].
    split; [by repeat constructor|done].
  - unfold sep in Hab. lia.
  - destruct (IH (end_ b)) as (Hwf'&Hkey'&Hv); [done|unfold sep in Hab; lia| |].
    { intros. apply Hsep. by right. }
    split; [by repeat split|]. split; [by constructor|]. intros x. simpl.
    unfold view in Hv. rewrite Hv.
    destruct (area_view b x) eqn:Hvb; [|done].
    destruct (area_view a x) eqn:Hva; [|done].
    apply area_view_Some in Hva, Hvb. unfold sep in Hab. lia.
Qed.

(** Putting back the pieces of an area that was taken out. *)
Lemma pieces_spec m lo hi ps : map_wf m → 0 <= lo → areas_wf lo ps →
  (∀ p, p ∈ ps → end_ p <= hi) →
  (∀ kv, kv ∈ m → hi <= start kv.2 ∨ end_ kv.2 <= lo) →
  let m' := foldl put_area m ps in
  map_wf m' ∧
  (∀ kv, kv ∈ m' → kv ∈ m ∨ kv.2 ∈ ps) ∧
  ∀ x, view m' x = match areas_view ps x with Some c => Some c | None => view m x end.
Proof.
  revert m lo. induction ps as [|a ps IH]; intros m lo Hm Hlo Hps Hhi Hsep; simpl.
  { split_and!; [done|by left|done]. }
  destruct Hps as (?&Ha&Hps). pose proof (Hhi a ltac:(by left)) as Hahi.
  destruct (put_spec 0 m a) as (Hwf&Hkey&Hv); [apply Hm|apply Hm|done|lia| |].
  { intros kv Hkv. unfold sep. destruct (Hsep kv Hkv); lia. }
  destruct Ha as [Ha ?].
  destruct (IH (put_area m a) (end_ a)) as (Hwf'&Hin'&Hv'); [done|lia|done| | |].
  { intros. apply Hhi. by right. }
  { intros kv Hkv. apply elem_of_put in Hkv as [->|Hkv]; simpl; [lia|].
    destruct (Hsep kv Hkv); lia. }
  split_and!; [done| |].
  - intros kv Hkv. destruct (Hin' kv Hkv) as [Hkv'|?]; [|by right; right].
    apply elem_of_put in Hkv' as [->|?]; [right; by left|by left].
  - intros x. rewrite Hv', Hv. destruct (area_view a x) eqn:Hva; [|by destruct (areas_view ps x)].
    rewrite (areas_view_below (end_ a)); [done|done|]. apply area_view_Some in Hva. lia.
Qed.

End static.

Lemma area_wf_keeps w w' lo hi a : keeps seg_wf w w' lo hi → end_ a <= lo ∨ hi <= start a →
  area_wf w a → area_wf w' a.
Proof. intros Hk Hd [? ?]. split; [done|]. by apply Hk. Qed.

Lemma areas_wf_keeps w w' lo hi from l : keeps seg_wf w w' lo hi →
  (∀ a, a ∈ l → end_ a <= lo ∨ hi <= start a) → areas_wf w from l → areas_wf w' from l.
Proof.
  intros Hk. revert from. induction l as [|a l IH]; intros from Hd; [done|]. intros (?&Ha&Hl).
  split; [done|]. split; [by eapply area_wf_keeps, Ha; [done|apply Hd; left]|].
  apply IH; [|done]. intros. apply Hd. by right.
Qed.

Lemma map_wf_keeps w w' lo hi m : keeps seg_wf w w' lo hi →
  (∀ kv, kv ∈ m → end_ kv.2 <= lo ∨ hi <= start kv.2) → map_wf w m → map_wf w' m.
Proof.
  intros Hk Hd [Hm Hkey]. split; [|done]. eapply areas_wf_keeps; [done| |done].
  intros a Ha. apply list_elem_of_fmap in Ha as (kv&->&Hkv). by apply Hd.
Qed.

(** ** The provided methods of [Segment] *)

Definition kills (w w' : W) (lo hi : Z) : Prop :=
  ∀ x, mapped w' x = if (lo <=? x) && (x <? hi) then false else mapped w x.

Definition same_at (w' : W) (s s' : S) (lo hi : Z) : Prop :=
  seg_wf w' s' lo hi ∧ ∀ x, lo <= x < hi → seg_at s' x = seg_at s x.

Definition flagged_at (w' : W) (f : Z) (s s' : S) (lo hi : Z) : Prop :=
  seg_wf w' s' lo hi ∧ ∀ x, lo <= x < hi → seg_at s' x = set_flag f (seg_at s x).

(** The new world is fine, and so are the segments outside [lo, hi). *)
Definition moves (w w' : W) (lo hi : Z) : Prop := world_ok w' ∧ keeps seg_wf w w' lo hi.

Lemma shrink_to_left_ok s lo hi pos g w : seg_wf w s lo hi → lo < pos < hi → cut_ok pos →
  world_ok w →
  ∃ s' w', shrink_to_left s pos g w = Ret (s', w') ∧ moves w w' lo hi ∧
    kills w w' pos hi ∧ same_at w' s s' lo pos.
Proof.
  intros Hs Hp Hc Hw. unfold shrink_to_left.
  destruct (split_ok s lo hi pos g w) as (l&r&w1&H1&Hw1&Hk1&Hm1&Hl&Hr&Hal&_); [done..|]. step H1.
  destruct (remove_ok r pos hi g w1) as (r'&w2&H2&Hw2&Hk2&Hm2); [done|lia|done|]. step H2.
  eexists _, _. split; [done|]. split; [split; [done|by eapply keeps_trans; try done; lia]|].
  split; [|split; [|done]].
  - intros x. by rewrite Hm2, Hm1.
  - apply Hk2; [lia|done].
Qed.

Lemma shrink_to_right_ok s lo hi pos g w : seg_wf w s lo hi → lo < pos < hi → cut_ok pos →
  world_ok w →
  ∃ s' w', shrink_to_right s pos g w = Ret (s', w') ∧ moves w w' lo hi ∧
    kills w w' lo pos ∧ same_at w' s s' pos hi.
Proof.
  intros Hs Hp Hc Hw. unfold shrink_to_right.
  destruct (split_ok s lo hi pos g w) as (l&r&w1&H1&Hw1&Hk1&Hm1&Hl&Hr&_&Har); [done..|]. step H1.
  destruct (remove_ok l lo pos g w1) as (l'&w2&H2&Hw2&Hk2&Hm2); [done|lia|done|]. step H2.
  eexists _, _. split; [done|]. split; [split; [done|by eapply keeps_trans; try done; lia]|].
  split; [|split; [|done]].
  - intros x. by rewrite Hm2, Hm1.
  - apply Hk2; [lia|done].
Qed.

(** Two cuts give three segments. *)
Lemma split_twice_ok s lo hi pl pr g w :
  seg_wf w s lo hi → lo < pl < pr → pr < hi → cut_ok pl → cut_ok pr → world_ok w →
  ∃ (l0 l m r : S) w1 w2, seg_split s pr g w = Ret ((l0, r), w1) ∧
    seg_split l0 pl g w1 = Ret ((l, m), w2) ∧ moves w w2 lo hi ∧
    (∀ x, mapped w2 x = mapped w x) ∧
    same_at w2 s l lo pl ∧ same_at w2 s m pl pr ∧ same_at w2 s r pr hi.
Proof.
  intros Hs Hp Hq Hcl Hcr Hw.
  destruct (split_ok s lo hi pr g w) as (l&r&w1&H1&Hw1&Hk1&Hm1&Hl&Hr&Hal&Har); [done|lia|done..|].
  destruct (split_ok l lo pr pl g w1) as (l2&m&w2&H2&Hw2&Hk2&Hm2&Hl2&Hm&Hal2&Ham); [done|lia|done..|].
  exists l, l2, m, r, w1, w2. split; [done|]. split; [done|].
  split; [split; [done|by eapply keeps_trans; try done; lia]|].
  split; [intros x; by rewrite Hm2, Hm1|].
  split; [|split].
  - split; [done|]. intros x Hx. by rewrite Hal2, Hal by lia.
  - split; [done|]. intros x Hx. by rewrite Ham, Hal by lia.
  - split; [|done]. apply Hk2; [lia|done].
Qed.

Lemma split_and_remove_middle_ok s lo hi pl pr g w :
  seg_wf w s lo hi → lo < pl < pr → pr < hi → cut_ok pl → cut_ok pr → world_ok w →
  ∃ (l r : S) w', split_and_remove_middle s pl pr g w = Ret ((l, r), w') ∧ moves w w' lo hi ∧
    kills w w' pl pr ∧ same_at w' s l lo pl ∧ same_at w' s r pr hi.
Proof.
  intros Hs Hp Hq Hcl Hcr Hw. unfold split_and_remove_middle.
  destruct (split_twice_ok s lo hi pl pr g w) as
    (l0&l&m&r&w1&w2&H1&H2&[Hw2 Hk2]&Hm2&[Hl Hvl]&[Hm _]&[Hr Hvr]); [done..|]. step H1. step H2.
  destruct (remove_ok m pl pr g w2) as (m'&w3&H3&Hw3&Hk3&Hm3); [done|lia|done|]. step H3.
  eexists _, _, _. split; [done|]. split; [split; [done|by eapply keeps_trans; try done; lia]|].
  split; [intros x; by rewrite Hm3, Hm2|].
  split; (split; [|done]); apply Hk3; lia || done.
Qed.

Lemma modify_left_ok s lo hi pos f g w : seg_wf w s lo hi → lo < pos < hi → cut_ok pos →
  world_ok w →
  ∃ (l r : S) w', modify_left s pos f g w = Ret ((l, r), w') ∧ moves w w' lo hi ∧
    (∀ x, mapped w' x = mapped w x) ∧ flagged_at w' f s l lo pos ∧ same_at w' s r pos hi.
Proof.
  intros Hs Hp Hc Hw. unfold modify_left.
  destruct (split_ok s lo hi pos g w) as (l&r&w1&H1&Hw1&Hk1&Hm1&Hl&Hr&Hal&Har); [done..|]. step H1.
  destruct (modify_ok l lo pos f g w1) as (l'&w2&H2&Hw2&Hk2&Hm2&Hl'&Hf); [done|lia|done|]. step H2.
  eexists _, _, _. split; [done|]. split; [split; [done|by eapply keeps_trans; try done; lia]|].
  split; [|split; [|split; [|done]]].
  - intros x. by rewrite Hm2, Hm1.
  - split; [done|]. intros x Hx. by rewrite Hf, Hal.
  - apply Hk2; [lia|done].
Qed.

Lemma modify_right_ok s lo hi pos f g w : seg_wf w s lo hi → lo < pos < hi → cut_ok pos →
  world_ok w →
  ∃ (l r : S) w', modify_right s pos f g w = Ret ((l, r), w') ∧ moves w w' lo hi ∧
    (∀ x, mapped w' x = mapped w x) ∧ same_at w' s l lo pos ∧ flagged_at w' f s r pos hi.
Proof.
  intros Hs Hp Hc Hw. unfold modify_right.
  destruct (split_ok s lo hi pos g w) as (l&r&w1&H1&Hw1&Hk1&Hm1&Hl&Hr&Hal&Har); [done..|]. step H1.
  destruct (modify_ok r pos hi f g w1) as (r'&w2&H2&Hw2&Hk2&Hm2&Hr'&Hf); [done|lia|done|]. step H2.
  eexists _, _, _. split; [done|]. split; [split; [done|by eapply keeps_trans; try done; lia]|].
  split; [|split; [split; [|done]|]].
  - intros x. by rewrite Hm2, Hm1.
  - apply Hk2; [lia|done].
  - split; [done|]. intros x Hx. by rewrite Hf, Har.
Qed.

Lemma modify_middle_ok s lo hi pl pr f g w :
  seg_wf w s lo hi → lo < pl < pr → pr < hi → cut_ok pl → cut_ok pr → world_ok w →
  ∃ (l m r : S) w', modify_middle s pl pr f g w = Ret ((l, (m, r)), w') ∧ moves w w' lo hi ∧
    (∀ x, mapped w' x = mapped w x) ∧
    same_at w' s l lo pl ∧ flagged_at w' f s m pl pr ∧ same_at w' s r pr hi.
Proof.
  intros Hs Hp Hq Hcl Hcr Hw. unfold modify_middle.
  destruct (split_twice_ok s lo hi pl pr g w) as
    (l0&l&m&r&w1&w2&H1&H2&[Hw2 Hk2]&Hm2&[Hl Hvl]&[Hm Hvm]&[Hr Hvr]); [done..|]. step H1. step H2.
  destruct (modify_ok m pl pr f g w2) as (m'&w3&H3&Hw3&Hk3&Hm3&Hm'&Hf); [done|lia|done|]. step H3.
  eexists _, _, _, _. split; [done|]. split; [split; [done|by eapply keeps_trans; try done; lia]|].
  split; [intros x; by rewrite Hm3, Hm2|].
  split; [split; [|done]; apply Hk3; lia || done|]. split; [|split; [|done]; apply Hk3; lia || done].
  split; [done|]. intros x Hx. by rewrite Hf, Hvm.
Qed.

(** ** One area against [s, e) *)

(** A cut at [x] is only asked of an area that has [x] inside. *)
Definition cuttable a (x : Z) : Prop := start a < x < end_ a → cut_ok x.

(** The pieces of an area that go back into the map. *)
Definition diff_pieces (r : DiffSet S * RangeArea S) : list (RangeArea S) :=
  match r with
  | (DShrinked, a) => [a]
  | (DSplitted b, a) => [a; b]
  | (DUnchanged, _) | (DRemoved, _) => []
  end.

Definition cut_pieces (r : CutSet S * RangeArea S) : list (RangeArea S) :=
  match r with
  | (CWholeModified, a) => [a]
  | (CModifiedLeft b, a) | (CModifiedRight b, a) => [a; b]
  | (CModifiedMiddle b c, a) => [a; b; c]
  | (CUnchanged, _) => []
  end.

(** [ps] replaces [a]: it stays inside [a], and what it holds is what [a] held,
    changed by [f]. *)
Definition pieces_of (w' : W) a ps (f : Z → C → option C) : Prop :=
  areas_wf w' (start a) ps ∧ (∀ p, p ∈ ps → end_ p <= end_ a) ∧
  ∀ x, areas_view ps x = area_view a x ≫= f x.

Definition cut_out (s e x : Z) (c : C) : option C :=
  if (s <=? x) && (x <? e) then None else Some c.

Definition reflag (s e fl x : Z) (c : C) : option C :=
  if (s <=? x) && (x <? e) then Some (set_flag fl c) else Some c.

(** The view of at most three pieces, compared case by case. *)
Ltac pieces_view :=
  intros; unfold areas_view, area_view, contains, cut_out, reflag; simpl; zcases;
  repeat match goal with
  | H : ∀ x : Z, _ → seg_at _ x = _ |- _ => rewrite H by lia; clear H
  end; try done.

Ltac pieces_wf :=
  split; [simpl; repeat split; done || lia|];
  split; [intros ?; cbn [diff_pieces cut_pieces]; rewrite ?elem_of_cons, elem_of_nil;
          intros; repeat destruct_or?; subst; simpl; done || lia|].

Lemma shrink_pieces a s e g w : area_wf w a → world_ok w →
  is_overlap_with a s e = true → s < e → cuttable a s → cuttable a e →
  ∃ r w', shrink_or_split_if_overlap a s e g w = Ret (r, w') ∧ moves w w' (start a) (end_ a) ∧
    pieces_of w' a (diff_pieces r) (cut_out s e) ∧
    ∀ x, mapped w' x =
      if (s <=? x) && (x <? e) && contains a x then false else mapped w x.
Proof.
  intros [Ha Hs] Hw Hov Hse Hcs Hce. unfold is_overlap_with in Hov. unfold shrink_or_split_if_overlap.
  destruct (Z.leb_spec e (start a)), (Z.leb_spec (end_ a) s); simpl in *; try done; try lia.
  destruct (Z.leb_spec s (start a)), (Z.leb_spec (end_ a) e); simpl.
  - destruct (remove_ok (segment a) (start a) (end_ a) g w Hs Ha Hw) as (s'&w'&Hop&Hw'&Hk&Hm).
    step Hop. eexists _, _. split; [done|]. split; [by split|]. split.
    + split; [done|]. split; [intros ? []%elem_of_nil|]. pieces_view.
    + intros x. rewrite Hm. unfold contains. zcases.
  - destruct (Z.ltb_spec (start a) s); [lia|]. simpl. destruct (Z.ltb_spec e (end_ a)); [|lia].
    destruct (shrink_to_right_ok _ _ _ e g w Hs) as (s'&w'&Hop&Hw'&Hm&[Hs' Hv]); [lia|apply Hce; lia|done|].
    step Hop. eexists _, _. split; [done|]. split; [done|]. split.
    + pieces_wf. pieces_view.
    + intros x. rewrite Hm. unfold contains. zcases.
  - destruct (Z.ltb_spec (start a) s); [|lia]. simpl. destruct (Z.ltb_spec e (end_ a)); [lia|].
    destruct (shrink_to_left_ok _ _ _ s g w Hs) as (s'&w'&Hop&Hw'&Hm&[Hs' Hv]); [lia|apply Hcs; lia|done|].
    unfold assertM, mbind, M_bind. fold (@M_bind W). rewrite Hop.
    eexists _, _. split; [done|]. split; [done|]. split.
    + pieces_wf. pieces_view.
    + intros x. rewrite Hm. unfold contains. zcases.
  - destruct (Z.ltb_spec (start a) s); [|lia]. destruct (Z.ltb_spec e (end_ a)); [|lia]. simpl.
    destruct (split_and_remove_middle_ok _ _ _ s e g w Hs)
      as (l&r&w'&Hop&Hw'&Hm&[Hl Hvl]&[Hr Hvr]); [lia|lia|apply Hcs; lia|apply Hce; lia|done|].
    step Hop. eexists _, _. split; [done|]. split; [done|]. split.
    + pieces_wf. pieces_view.
    + intros x. rewrite Hm. unfold contains. zcases.
Qed.

Lemma modify_pieces a s e fl g w : area_wf w a → world_ok w →
  is_overlap_with a s e = true → s < e → cuttable a s → cuttable a e →
  ∃ r w', split_and_modify_if_overlap a s e fl g w = Ret (r, w') ∧ moves w w' (start a) (end_ a) ∧
    pieces_of w' a (cut_pieces r) (reflag s e fl) ∧ ∀ x, mapped w' x = mapped w x.
Proof.
  intros [Ha Hs] Hw Hov Hse Hcs Hce. unfold is_overlap_with in Hov. unfold split_and_modify_if_overlap.
  destruct (Z.leb_spec e (start a)), (Z.leb_spec (end_ a) s); simpl in *; try done; try lia.
  destruct (Z.leb_spec s (start a)), (Z.leb_spec (end_ a) e); simpl.
  - destruct (modify_ok (segment a) (start a) (end_ a) fl g w Hs Ha Hw)
      as (s'&w'&Hop&Hw'&Hk&Hm&Hs'&Hv).
    step Hop. eexists _, _. split; [done|]. split; [by split|]. split; [|done].
    pieces_wf. pieces_view.
  - destruct (Z.ltb_spec (start a) s); [lia|]. simpl. destruct (Z.ltb_spec e (end_ a)); [|lia].
    destruct (modify_left_ok _ _ _ e fl g w Hs) as (l&r&w'&Hop&Hw'&Hm&[Hl Hvl]&[Hr Hvr]);
      [lia|apply Hce; lia|done|].
    step Hop. eexists _, _. split; [done|]. split; [done|]. split; [|done].
    pieces_wf. pieces_view.
  - destruct (Z.ltb_spec (start a) s); [|lia]. simpl. destruct (Z.ltb_spec e (end_ a)); [lia|].
    destruct (modify_right_ok _ _ _ s fl g w Hs) as (l&r&w'&Hop&Hw'&Hm&[Hl Hvl]&[Hr Hvr]);
      [lia|apply Hcs; lia|done|].
    unfold assertM, mbind, M_bind. fold (@M_bind W). rewrite Hop.
    eexists _, _. split; [done|]. split; [done|]. split; [|done].
    pieces_wf. pieces_view.
  - destruct (Z.ltb_spec (start a) s); [|lia]. destruct (Z.ltb_spec e (end_ a)); [|lia]. simpl.
    destruct (modify_middle_ok _ _ _ s e fl g w Hs)
      as (l&m&r&w'&Hop&Hw'&Hm&[Hl Hvl]&[Hmi Hvm]&[Hr Hvr]); [lia|lia|apply Hcs; lia|apply Hce; lia|done|].
    step Hop. eexists _, _. split; [done|]. split; [done|]. split; [|done].
    pieces_wf. pieces_view.
Qed.

(** ** All the areas taken out, one after the other *)

Lemma view_sep m d x : (∀ kv, kv ∈ m → sep d kv.2) → start d <= x < end_ d → view m x = None.
Proof.
  intros Hsep Hx. destruct (view m x) as [c|] eqn:Hv; [|done].
  apply areas_view_Some in Hv as (a&Ha&Hv). apply list_elem_of_fmap in Ha as (kv&->&Hkv).
  apply area_view_Some in Hv as [? _]. destruct (Hsep kv Hkv); lia.
Qed.

Section fold.
Context (s e : Z) (body : list (Z * RangeArea S) → RangeArea S → M W (list (Z * RangeArea S))).
Context (f : Z → C → option C) (kill : Z → bool).
Hypothesis body_ok : ∀ m d w, area_wf w d → is_overlap_with d s e = true →
  cuttable d s → cuttable d e → world_ok w →
  ∃ ps w', body m d w = Ret (foldl put_area m ps, w') ∧ moves w w' (start d) (end_ d) ∧
    pieces_of w' d ps f ∧
    ∀ x, mapped w' x = if kill x && contains d x then false else mapped w x.

Lemma body_step m d w : 0 <= start d → map_wf w m → area_wf w d →
  is_overlap_with d s e = true → cuttable d s → cuttable d e →
  (∀ kv, kv ∈ m → sep d kv.2) → world_ok w →
  ∃ m' w', body m d w = Ret (m', w') ∧ moves w w' (start d) (end_ d) ∧ map_wf w' m' ∧
    (∀ kv, kv ∈ m' → kv ∈ m ∨ end_ kv.2 <= end_ d) ∧
    (∀ x, view m' x = match area_view d x with Some c => f x c | None => view m x end) ∧
    (∀ x, mapped w' x = if kill x && contains d x then false else mapped w x).
Proof.
  intros Hd0 Hm Hd Hov Hcs Hce Hsep Hw.
  destruct (body_ok m d w Hd Hov Hcs Hce Hw) as (ps&w'&Hb&Hw'&(Hps&Hin&Hv)&Hmap).
  assert (map_wf w' m) as Hm'.
  { apply (map_wf_keeps w w' (start d) (end_ d)); [apply Hw'| |done].
    intros kv Hkv. destruct (Hsep kv Hkv); auto. }
  destruct (pieces_spec w' m (start d) (end_ d) ps) as (Hwf&Hin'&Hv'); [done..|].
  exists (foldl put_area m ps), w'. split; [done|]. split; [done|]. split; [done|].
  split; [|split; [|done]].
  - intros kv Hkv. destruct (Hin' kv Hkv); [by left|right; by apply Hin].
  - intros x. rewrite Hv', Hv. destruct (area_view d x) as [c|] eqn:Hc; simpl; [|done].
    destruct (f x c) eqn:Hf; [done|]. apply (view_sep m d); [done|].
    by apply area_view_Some in Hc as [? _].
Qed.

Lemma body_fold ds lo m w : 0 <= lo → map_wf w m → areas_wf w lo ds →
  (∀ d, d ∈ ds → is_overlap_with d s e = true ∧ cuttable d s ∧ cuttable d e) →
  (∀ d kv, d ∈ ds → kv ∈ m → sep d kv.2) → world_ok w →
  ∃ m' w', foldMW body m ds w = Ret (m', w') ∧ world_ok w' ∧ map_wf w' m' ∧
    (∀ x, view m' x = match areas_view ds x with Some c => f x c | None => view m x end) ∧
    (∀ x, mapped w' x =
       if kill x && bool_decide (is_Some (areas_view ds x)) then false else mapped w x).
Proof.
  revert lo m w. induction ds as [|d ds IH]; intros lo m w Hlo Hm Hds Hov Hsep Hw; simpl.
  { eexists _, _. split; [done|]. split; [done|]. split; [done|]. split; [done|].
    intros x. by rewrite andb_false_r. }
  destruct Hds as (?&Hd&Hds).
  destruct (body_step m d w) as (m1&w1&Hb&[Hw1 Hk1]&Hm1&Hin&Hv&Hmap);
    [lia|done|done|apply Hov; by left|apply Hov; by left|apply Hov; by left| |done|].
  { intros. apply Hsep; [by left|done]. }
  step Hb. pose proof (proj1 Hd) as Hlt.
  destruct (IH (end_ d) m1 w1) as (m2&w2&Hf&Hw2&Hm2&Hv2&Hmap2); [lia|done| | | |done|].
  { apply (areas_wf_keeps w w1 (start d) (end_ d)); [done| |done].
    intros a Ha. destruct (areas_wf_In _ _ _ _ Hds Ha). by right. }
  { intros. apply Hov. by right. }
  { intros d' kv Hd' Hkv. destruct (Hin kv Hkv); [apply Hsep; [by right|done]|].
    destruct (areas_wf_In _ _ _ _ Hds Hd'). right. lia. }
  exists m2, w2. split; [done|]. split; [done|]. split; [done|].
  assert (Hnone : ∀ x c, area_view d x = Some c → areas_view ds x = None).
  { intros x c [? _]%area_view_Some. apply (areas_view_below w (end_ d)); [done|lia]. }
  split; intros x.
  - rewrite Hv2, Hv. destruct (area_view d x) as [c|] eqn:Hc; [|done].
    by rewrite (Hnone x c).
  - rewrite Hmap2, Hmap. unfold contains, area_view in *. specialize (Hnone x).
    destruct (kill x); simpl; [|done]. unfold contains in *.
    destruct ((start d <=? x) && (x <? end_ d)); [|done].
    by rewrite (Hnone _ eq_refl).
Qed.
End fold.

(** ** The operations on a map *)

Implicit Types self : RangeActionMap S.

(** The areas are sorted and disjoint, and what the world maps lies in one. *)
Definition ram_wf (w : W) self : Prop :=
  map_wf w (segments self) ∧ ∀ x, mapped w x = true → is_Some (view (segments self) x).
Definition ram_view self (x : Z) : option C := view (segments self) x.

(** Every area that would be cut at [x] may be. *)
Definition cut_fits self (x : Z) : Prop := ∀ kv, kv ∈ segments self → cuttable kv.2 x.

Lemma drained_cuttable p self ds rest x : cut_fits self x →
  bt_drain_filter p (segments self) = (ds, rest) → ∀ d, d ∈ ds → cuttable d x.
Proof.
  intros Hc [= <- _] d Hd. apply list_elem_of_fmap in Hd as (kv&->&[_ Hm]%list_elem_of_filter).
  by apply Hc.
Qed.

Lemma cut_ok_fits self x : cut_ok x → cut_fits self x.
Proof. by intros Hx kv _ _. Qed.

Lemma drained_inside w s e self ds rest : ram_wf w self →
  bt_drain_filter (λ a, is_overlap_with a s e) (segments self) = (ds, rest) →
  ∀ x, s <= x < e → view rest x = None.
Proof.
  intros [Hwf _] Hd x Hx. destruct (drain_filter_spec _ _ _ _ _ Hwf Hd) as (_&_&_&Hrest&_&_).
  destruct (view rest x) as [c|] eqn:Hv; [|done].
  apply areas_view_Some in Hv as (a&Ha&Hv). apply list_elem_of_fmap in Ha as (kv&->&Hkv).
  apply area_view_Some in Hv as [? _]. specialize (Hrest kv Hkv).
  unfold is_overlap_with in Hrest. revert Hrest. zcases.
Qed.

Lemma unmap_ok self s e w : ram_wf w self → world_ok w → s < e → cut_fits self s → cut_fits self e →
  ∃ self' w', unmap self s e w = Ret (self', w') ∧ world_ok w' ∧ ram_wf w' self' ∧
    args self' = args self ∧
    (∀ x, ram_view self' x = if (s <=? x) && (x <? e) then None else ram_view self x) ∧
    (∀ x, mapped w' x =
       if (s <=? x) && (x <? e) && bool_decide (is_Some (ram_view self x)) then false
       else mapped w x).
Proof.
  intros [Hwf Hcov] Hw Hse Hcs Hce. unfold unmap.
  destruct (bt_drain_filter _ _) as [ds rest] eqn:Hd.
  destruct (drain_filter_spec _ _ _ _ _ Hwf Hd) as (Hrest&Hds&Hov&_&Hsep&Hview).
  pose proof (drained_inside w s e self ds rest (conj Hwf Hcov) Hd) as Hin.
  destruct (body_fold s e (unmap_body s e (args self)) (cut_out s e)
              (λ x, (s <=? x) && (x <? e))) with (ds := ds) (lo := 0) (m := rest) (w := w)
    as (m'&w'&Hf&Hw'&Hm'&Hv&Hmap); [|lia|done..| |done|done|].
  2: { intros d Hdd. split; [by apply Hov|]. split; by eapply drained_cuttable. }
  { intros m d w1 Hda Hdov Hdcs Hdce Hw1.
    destruct (shrink_pieces d s e (args self) w1) as ([diff a]&w2&Hop&Hw2&Hps&Hm); [done..|].
    exists (diff_pieces (diff, a)), w2. unfold unmap_body. step Hop.
    split; [by destruct diff|]. done. }
  step Hf. exists (mkRAM m' (args self)), w'.
  assert (∀ x, view m' x = if (s <=? x) && (x <? e) then None else view (segments self) x) as Hv'.
  { intros x. rewrite Hv, Hview. unfold cut_out. specialize (Hin x).
    destruct (areas_view ds x); [done|]. zcases. apply Hin. lia. }
  assert (∀ x, mapped w' x = if (s <=? x) && (x <? e) && bool_decide (is_Some (view (segments self) x))
    then false else mapped w x) as Hmap'.
  { intros x. rewrite Hmap, Hview. specialize (Hin x). destruct (areas_view ds x); [done|].
    zcases. rewrite Hin by lia. done. }
  split; [done|]. split; [done|]. split; [split; [done|]|split; [done|split; [exact Hv'|exact Hmap']]].
  intros x. simpl segments. rewrite Hv', Hmap'. intros Hx.
  destruct ((s <=? x) && (x <? e)); simpl in Hx; [|by apply Hcov].
  destruct (bool_decide (is_Some (view (segments self) x))) eqn:Hb; [done|].
  apply bool_decide_eq_false in Hb. by apply Hcov in Hx.
Qed.

Lemma mprotect_ok self s e fl w : ram_wf w self → world_ok w → s < e → cut_fits self s → cut_fits self e →
  ∃ self' w', mprotect self s e fl w = Ret (self', w') ∧ world_ok w' ∧ ram_wf w' self' ∧
    args self' = args self ∧
    (∀ x, ram_view self' x =
       if (s <=? x) && (x <? e) then set_flag fl <$> ram_view self x else ram_view self x) ∧
    (∀ x, mapped w' x = mapped w x).
Proof.
  intros [Hwf Hcov] Hw Hse Hcs Hce. unfold mprotect.
  destruct (bt_drain_filter _ _) as [ds rest] eqn:Hd.
  destruct (drain_filter_spec _ _ _ _ _ Hwf Hd) as (Hrest&Hds&Hov&_&Hsep&Hview).
  pose proof (drained_inside w s e self ds rest (conj Hwf Hcov) Hd) as Hin.
  destruct (body_fold s e (mprotect_body s e fl (args self)) (reflag s e fl)
              (λ x, false)) with (ds := ds) (lo := 0) (m := rest) (w := w)
    as (m'&w'&Hf&Hw'&Hm'&Hv&Hmap); [|lia|done..| |done|done|].
  2: { intros d Hdd. split; [by apply Hov|]. split; by eapply drained_cuttable. }
  { intros m d w1 Hda Hdov Hdcs Hdce Hw1.
    destruct (modify_pieces d s e fl (args self) w1) as ([cut a]&w2&Hop&Hw2&Hps&Hm); [done..|].
    exists (cut_pieces (cut, a)), w2. unfold mprotect_body. step Hop.
    split; [by destruct cut|]. done. }
  step Hf. exists (mkRAM m' (args self)), w'.
  assert (∀ x, view m' x = if (s <=? x) && (x <? e) then set_flag fl <$> view (segments self) x
    else view (segments self) x) as Hv'.
  { intros x. rewrite Hv, Hview. unfold reflag. specialize (Hin x).
    destruct (areas_view ds x); [zcases|]. zcases. by rewrite Hin by lia. }
  split; [done|]. split; [done|]. split; [split; [done|]|split; [done|split; [exact Hv'|exact Hmap]]].
  intros x. simpl segments. rewrite Hv', Hmap. intros [c Hc]%Hcov. rewrite Hc. simpl.
  by destruct (_ && _).
Qed.

(** Putting a segment where nothing was, in a world that changed there only. *)
Lemma insert_raw_ok self s e seg w w' : ram_wf w self → 0 <= s < e → seg_wf w' seg s e →
  keeps seg_wf w w' s e → (∀ x, mapped w' x = true → mapped w x = true ∨ s <= x < e) →
  (∀ x, s <= x < e → ram_view self x = None) →
  ram_wf w' (insert_raw self s e seg) ∧
  ∀ x, ram_view (insert_raw self s e seg) x =
    if (s <=? x) && (x <? e) then Some (seg_at seg x) else ram_view self x.
Proof.
  intros [Hmwf Hcov] Hse Hseg Hk Hmap Hfree. pose proof Hmwf as [Hwf Hkey].
  assert (∀ kv, kv ∈ segments self → sep (mkArea s e seg) kv.2) as Hsep.
  { intros kv Hkv. unfold sep. simpl.
    destruct (areas_wf_In w 0 _ kv.2 Hwf (list_elem_of_fmap_2 _ _ _ Hkv)) as [_ [??]].
    destruct (decide (end_ kv.2 <= s)); [by right|].
    destruct (decide (e <= start kv.2)); [by left|]. exfalso.
    set (x := Z.max s (start kv.2)).
    specialize (Hfree x ltac:(lia)). unfold ram_view, view in Hfree.
    rewrite (areas_view_In w 0 _ kv.2) in Hfree; [|done|by apply list_elem_of_fmap_2|lia].
    apply area_view_None in Hfree. lia. }
  assert (map_wf w' (segments self)) as [Hwf2 Hkey2].
  { apply (map_wf_keeps w w' s e); [done| |done]. intros kv Hkv. destruct (Hsep kv Hkv); simpl in *; auto. }
  destruct (put_spec w' 0 (segments self) (mkArea s e seg)) as (Hwf'&Hkey'&Hv);
    [done|done|split; [simpl; lia|done]|simpl; lia|done|].
  assert (∀ x, view (bt_insert s (mkArea s e seg) (segments self)) x =
    if (s <=? x) && (x <? e) then Some (seg_at seg x) else view (segments self) x) as Hv'.
  { intros x. unfold put_area in Hv. simpl in Hv. rewrite Hv. unfold area_view, contains. simpl. zcases. }
  split; [split; [done|]|exact Hv']. intros x Hx. unfold insert_raw. simpl segments. rewrite Hv'.
  destruct (Hmap x Hx) as [Hx'%Hcov|?]; zcases; eauto.
Qed.

(** ** Queries *)

Lemma last_le_spec w m lo pos : areas_wf w lo (snd <$> m) → Forall (λ kv, kv.1 = start kv.2) m →
  view m pos = match bt_last_le pos m with Some kv => area_view kv.2 pos | None => None end.
Proof.
  unfold bt_last_le, view. intros Hwf Hkey. revert lo Hwf.
  induction Hkey as [|[k a] m Hk Hkey IH]; intros lo Hwf; [done|].
  simpl in Hwf, Hk. destruct Hwf as (?&[Ha _]&Hm). subst k. specialize (IH _ Hm).
  rewrite filter_cons. simpl. case_decide as Hle.
  - destruct (filter (λ kv, kv.1 <= pos) m) as [|kv l] eqn:Hf.
    + simpl. destruct (area_view a pos); [done|]. exact IH.
    + assert (end_ a <= pos) as Hend.
      { assert (kv ∈ filter (λ kv, kv.1 <= pos) m) as Hin by (rewrite Hf; by left).
        apply list_elem_of_filter in Hin as [Hkv Hin].
        destruct (areas_wf_In _ _ _ kv.2 Hm (list_elem_of_fmap_2 _ _ _ Hin)).
        eapply list.Forall_forall in Hkey; [|done]. lia. }
      change (list.last ((start a, a) :: kv :: l)) with (list.last (kv :: l)).
      destruct (area_view a pos) eqn:Hv; [apply area_view_Some in Hv; lia|exact IH].
  - destruct (area_view a pos) eqn:Hv; [apply area_view_Some in Hv; lia|exact IH].
Qed.

Lemma find_ok w self pos : ram_wf w self →
  ram_view self pos = (λ seg, seg_at seg pos) <$> find self pos.
Proof.
  intros [[Hwf Hkey] _]. unfold ram_view, find. rewrite (last_le_spec w _ 0) by done.
  destruct (bt_last_le pos (segments self)) as [[k a]|]; simpl; [|done].
  unfold area_view. by destruct (contains a pos).
Qed.

Lemma last_le_In pos m kv : bt_last_le pos m = Some kv → kv ∈ m.
Proof.
  unfold bt_last_le. intros Hl. apply list.last_Some_elem_of in Hl.
  by apply list_elem_of_filter in Hl as [_ ?].
Qed.

(** A segment that changes in place, in a world that changes in its range. *)
Lemma replace_spec w w' m lo (ra : RangeArea S) (seg : S) :
  areas_wf w lo (snd <$> m) → Forall (λ kv, kv.1 = start kv.2) m → (start ra, ra) ∈ m →
  seg_wf w' seg (start ra) (end_ ra) → keeps seg_wf w w' (start ra) (end_ ra) →
  let m' := bt_insert (start ra) (mkArea (start ra) (end_ ra) seg) m in
  areas_wf w' lo (snd <$> m') ∧ Forall (λ kv, kv.1 = start kv.2) m' ∧
  ∀ x, view m' x = if contains ra x then Some (seg_at seg x) else view m x.
Proof.
  intros Hwf Hkey. revert lo Hwf. unfold view.
  induction Hkey as [|[k b] m Hk Hkey IH]; intros lo Hwf Hin Hseg Hkeep; [by apply not_elem_of_nil in Hin|].
  simpl in Hk. subst k. destruct Hwf as (Hlo&[Hb Hbs]&Hm). cbn [snd] in *.
  apply elem_of_cons in Hin as [Heq|Hin].
  - assert (b = ra) as -> by congruence. cbn [bt_insert].
    destruct (Z.ltb_spec (start ra) (start ra)); [lia|]. rewrite Z.eqb_refl.
    cbn [fmap list_fmap snd areas_wf areas_view]. split; [|split].
    + split; [done|]. split; [by split|]. cbn [end_]. apply (areas_wf_keeps w w' (start ra) (end_ ra)); [done| |done].
      intros a Ha. destruct (areas_wf_In _ _ _ _ Hm Ha). by right.
    + by constructor.
    + intros x. unfold area_view. change (contains (mkArea (start ra) (end_ ra) seg) x) with (contains ra x).
      by destruct (contains ra x).
  - destruct (areas_wf_In _ _ _ ra Hm (list_elem_of_fmap_2 snd _ _ Hin)) as [Hge _].
    cbn [bt_insert]. destruct (Z.ltb_spec (start ra) (start b)); [lia|].
    destruct (Z.eqb_spec (start ra) (start b)); [lia|].
    destruct (IH (end_ b)) as (IH1&IH2&IH3); [done..|].
    cbn [fmap list_fmap snd areas_wf areas_view]. split; [|split].
    + split; [done|]. split; [|done]. split; [done|]. apply Hkeep; [left; lia|done].
    + by constructor.
    + intros x. rewrite IH3. destruct (area_view b x) eqn:Hv; [|done].
      apply area_view_Some in Hv. unfold contains. zcases.
Qed.

(** No area meets [p, p + len). *)
Definition free_at m (p len : Z) : Prop :=
  ∀ kv, kv ∈ m → p + len <= start kv.2 ∨ end_ kv.2 <= p.

Lemma free_at_view w self p len : ram_wf w self → 0 < len →
  free_at (segments self) p len ↔ ∀ x, p <= x < p + len → ram_view self x = None.
Proof.
  intros [[Hwf Hkey] _] Hlen. split.
  - intros Hf x Hx. destruct (ram_view self x) as [c|] eqn:Hv; [|done].
    apply areas_view_Some in Hv as (a&Ha&Hv). apply list_elem_of_fmap in Ha as (kv&->&Hkv).
    apply area_view_Some in Hv as [? _]. destruct (Hf kv Hkv); lia.
  - intros Hv kv Hkv.
    pose proof (list_elem_of_fmap_2 snd _ _ Hkv) as Hin.
    destruct (areas_wf_In w 0 _ kv.2 Hwf Hin) as [_ [? _]].
    destruct (decide (end_ kv.2 <= p)); [by right|].
    destruct (decide (p + len <= start kv.2)); [by left|]. exfalso.
    specialize (Hv (Z.max p (start kv.2)) ltac:(lia)). unfold ram_view, view in Hv.
    rewrite (areas_view_In w 0 _ kv.2) in Hv; [|done|done|lia].
    apply area_view_None in Hv. lia.
Qed.

(** Where the loop of [find_free_area] stops: at a free range, or after the
    last area; nothing free lies before. *)
Definition stops_at m (cur len r : Z) (found : bool) : Prop :=
  cur <= r ∧ r + len < 2 ^ 64 ∧
  (∀ kv, kv ∈ m → (found = true ∧ r + len <= start kv.2) ∨ end_ kv.2 <= r) ∧
  ∀ p, cur <= p → free_at m p len → r <= p.

Lemma find_free_loop_ok w m lo cur len : areas_wf w lo (snd <$> m) →
  Forall (λ kv, kv.1 = start kv.2) m → 0 <= cur → 0 < len →
  cur + len < 2 ^ 64 → (∀ kv, kv ∈ m → end_ kv.2 + len < 2 ^ 64) →
  match find_free_loop cur len m with
  | inl r => stops_at m cur len r true
  | inr r => stops_at m cur len r false
  end.
Proof.
  intros Hwf Hkey. revert lo cur Hwf.
  induction Hkey as [|[k a] m Hk Hkey IH]; intros lo cur Hwf Hcur Hlen Hov Hm; simpl.
  { split; [done|]. split; [done|]. split; [by intros ? ?%elem_of_nil|done]. }
  simpl in Hk. subst k.
  destruct Hwf as (?&[Ha _]&Hwf). cbn [snd] in *.
  rewrite wrap_small by (unfold word; lia).
  pose proof (Hm (start a, a) ltac:(by left)) as Haov. simpl in Haov.
  destruct (Z.leb_spec (cur + len) (start a)) as [Hfit|Hno].
  - split; [done|]. split; [done|]. split; [|done].
    intros kv [->|Hkv]%elem_of_cons; [by left|].
    destruct (areas_wf_In _ _ _ kv.2 Hwf (list_elem_of_fmap_2 _ _ _ Hkv)). left. split; [done|lia].
  - assert (Hext : ∀ (b : bool) r, stops_at m (Z.max cur (end_ a)) len r b → stops_at ((start a, a) :: m) cur len r b).
    { intros b r (H1&H2&H3&H4). split; [lia|]. split; [done|]. split.
      - intros kv [->|Hkv]%elem_of_cons; [right; simpl; lia|]. by apply H3.
      - intros p Hp Hfree. apply H4.
        + destruct (Hfree (start a, a)) as [|]; [by left|simpl in *; lia|simpl in *; lia].
        + intros kv Hkv. apply Hfree. by right. }
    pose proof (IH (end_ a) (Z.max cur (end_ a)) Hwf) as IH'.
    destruct (find_free_loop _ _ _); apply Hext, IH'; try lia; intros; apply Hm; by right.
Qed.

Lemma find_free_area_ok w self hint len : ram_wf w self → 0 <= hint → 0 < len →
  Z.max hint LOWER_LIMIT + len < 2 ^ 64 →
  (∀ kv, kv ∈ segments self → end_ kv.2 + len < 2 ^ 64) →
  match find_free_area self hint len with
  | Some r => Z.max hint LOWER_LIMIT <= r ∧ r + len <= UPPER_LIMIT ∧
              free_at (segments self) r len ∧
              ∀ p, Z.max hint LOWER_LIMIT <= p → free_at (segments self) p len → r <= p
  | None => ∀ p, Z.max hint LOWER_LIMIT <= p → p + len <= UPPER_LIMIT →
                 ¬ free_at (segments self) p len
  end.
Proof.
  intros [[Hwf Hkey] _] Hh Hlen Hov Hm. unfold find_free_area.
  pose proof (find_free_loop_ok w (segments self) 0 (Z.max hint LOWER_LIMIT) len Hwf Hkey) as Hl.
  destruct (find_free_loop _ _ _) as [r|r]; destruct Hl as (H1&H2&H3&H4); try done; try lia.
  - split; [done|]. split; [unfold UPPER_LIMIT; lia|]. split; [|done].
    intros kv Hkv. destruct (H3 kv Hkv) as [[_ ?]|?]; auto.
  - rewrite wrap_small by (unfold word, LOWER_LIMIT in *; lia).
    unfold UPPER_LIMIT. zcases. split; [done|]. split; [done|]. split; [|done].
    intros kv Hkv. destruct (H3 kv Hkv) as [[? _]|?]; [done|auto].
Qed.
End spec.

(** ** A concrete segment, for the witnesses: a range with a flag; the world is
    the list of the ranges removed so far. *)
Module FlagSegment.
Definition Seg : Type := Z * Z * Z.
Definition World : Type := list (Z * Z).

Definition fremove (s : Seg) (_ : Z) : M World Seg := λ w, Ret (s, (s.1.1, s.1.2) :: w).
Definition fsplit (s : Seg) (pos _ : Z) : M World (Seg * Seg) :=
  mret ((s.1.1, pos, s.2), (pos, s.1.2, s.2)).
Definition fmodify (s : Seg) (f _ : Z) : M World Seg := mret (s.1.1, s.1.2, f).

#[export] Instance seg : Segment World Seg :=
  {| seg_remove := fremove; seg_split := fsplit; seg_modify := fmodify |}.

(** The ranges mapped at first. *)
Definition first_mapped (x : Z) : bool :=
  ((0x3000 <=? x) && (x <? 0x7000)) || ((0x9000 <=? x) && (x <? 0xa000)).

Definition seg_range (_ : World) (s : Seg) (lo hi : Z) : Prop := s.1.1 = lo ∧ s.1.2 = hi.

Lemma seg_range_keeps w w' lo hi : keeps seg_range w w' lo hi.
Proof. by intros s l h _ Hs. Qed.

#[export, program] Instance spec : SegmentSpec World Seg Z := {
  seg_wf := seg_range;
  seg_at s _ := s.2;
  set_flag f _ := f;
  cut_ok _ := True;
  world_ok _ := True;
  mapped w x := first_mapped x && negb (existsb (λ r, (r.1 <=? x) && (x <? r.2)) w) }.
Next Obligation.
  intros [[a b] f] lo hi g w [<- <-] Hlt _. eexists _, _. split; [done|]. split; [done|].
  split; [apply seg_range_keeps|]. intros x. cbn -[first_mapped Z.leb Z.ltb].
  destruct ((a <=? x) && (x <? b)); simpl; [by rewrite andb_false_r|done].
Qed.
Next Obligation.
  intros [[a b] f] lo hi pos g w [<- <-] Hlt _ _. eexists _, _, _. split; [done|].
  split; [done|]. split; [apply seg_range_keeps|]. done.
Qed.
Next Obligation.
  intros [[a b] f] lo hi fl g w [<- <-] Hlt _. eexists _, _. split; [done|].
  split; [done|]. split; [apply seg_range_keeps|]. done.
Qed.

(** [0x3000, 0x7000) with flag 5 and [0x9000, 0xa000) with flag 6. *)
Definition two : RangeActionMap Seg :=
  mkRAM [(0x3000, mkArea 0x3000 0x7000 (0x3000, 0x7000, 5));
         (0x9000, mkArea 0x9000 0xa000 (0x9000, 0xa000, 6))] 0.

Lemma two_wf : ram_wf ([] : World) two.
Proof.
  split; [split; [|by repeat constructor]; simpl; repeat split; done || lia|].
  intros x. unfold view, two. cbn [segments fmap list_fmap snd areas_view].
  unfold area_view, contains. cbn -[Z.leb Z.ltb]. unfold first_mapped. zcases; eauto.
Qed.
End FlagSegment.
Import FlagSegment.

(** ** Properties *)

Section properties.
Context {W S C : Type} {HS : Segment W S} {SP : SegmentSpec W S C}.
Implicit Types self : RangeActionMap S.

(** What the callback of an insertion promises: in a world that maps nothing in
    [s, e) it makes a segment for it and changes nothing outside. *)
Definition makes_segment (f : M W S) (s e : Z) : Prop :=
  ∀ w, world_ok w → (∀ x, s <= x < e → mapped w x = false) →
  ∃ seg w', f w = Ret (seg, w') ∧ world_ok w' ∧ seg_wf w' seg s e ∧ keeps seg_wf w w' s e ∧
    ∀ x, mapped w' x = true → mapped w x = true ∨ s <= x < e.

Lemma unmapped_outside w self s e : ram_wf w self → (∀ x, s <= x < e → ram_view self x = None) →
  ∀ x, s <= x < e → mapped w x = false.
Proof.
  intros [_ Hcov] Hnone x Hx. destruct (mapped w x) eqn:Hm; [|done].
  destruct (Hcov x Hm) as [c Hc]. unfold ram_view in Hnone. by rewrite Hnone in Hc.
Qed.

(** C7. [unmap] of a range [s, e) that is not empty, where an area that holds [s]
    or [e] inside can be cut there (for the areas of the kernel: at the border of
    a page), does not panic, leaves a well-formed map that holds nothing in
    [s, e) and exactly what it held outside, and removes from the world exactly
    the addresses of [s, e) that were held.  The code checks neither condition,
    and a cut inside a page panics ([munmap_inside_page_panics] in MemorySetSpec). *)
Theorem unmap_empties_range self (s e : Z) (w : W) :
  ram_wf w self → world_ok w → s < e → cut_fits self s → cut_fits self e →
  ∃ self' w', unmap self s e w = Ret (self', w') ∧ world_ok w' ∧ ram_wf w' self' ∧
    args self' = args self ∧
    (∀ x, ram_view self' x = if (s <=? x) && (x <? e) then None else ram_view self x) ∧
    (∀ x, mapped w' x =
       if (s <=? x) && (x <? e) && bool_decide (is_Some (ram_view self x)) then false
       else mapped w x).
Proof. apply unmap_ok. Qed.

(** C9. [mprotect] of a range [s, e) that is not empty, where an area that holds
    [s] or [e] inside can be cut there (for the areas of the kernel: at the border
    of a page), which the code does not check, does not panic, keeps the map
    well-formed and the set of held addresses, and changes the flags of exactly the held addresses
    of [s, e); it removes nothing from the world. *)
Theorem mprotect_reflags_range self (s e new_flags : Z) (w : W) :
  ram_wf w self → world_ok w → s < e → cut_fits self s → cut_fits self e →
  ∃ self' w', mprotect self s e new_flags w = Ret (self', w') ∧ world_ok w' ∧
    ram_wf w' self' ∧ args self' = args self ∧
    (∀ x, ram_view self' x =
       if (s <=? x) && (x <? e) then set_flag new_flags <$> ram_view self x
       else ram_view self x) ∧
    (∀ x, mapped w' x = mapped w x).
Proof. apply mprotect_ok. Qed.

(** [mmap_fixed] within the limits, where areas may be cut at
    [s] and [e], replaces whatever was in [s, e) by the
    given segment and keeps everything else; outside the limits it returns
    [None] and changes nothing. *)
Theorem mmap_fixed_replaces_range self (s e : Z) (f : M W S) (w : W) :
  ram_wf w self → world_ok w → 0 <= s < e → cut_fits self s → cut_fits self e →
  makes_segment f s e →
  if (s <? LOWER_LIMIT) || (UPPER_LIMIT <? e)
  then mmap_fixed self s e f w = Ret ((None, self), w)
  else ∃ seg self' w' w'', mmap_fixed self s e f w = Ret ((Some s, self'), w'') ∧
    f w' = Ret (seg, w'') ∧ world_ok w'' ∧ ram_wf w'' self' ∧
    ∀ x, ram_view self' x =
      if (s <=? x) && (x <? e) then Some (seg_at seg x) else ram_view self x.
Proof.
  intros Hwf Hw Hse Hcs Hce Hf. unfold mmap_fixed. destruct (_ || _); [done|].
  destruct (unmap_ok self s e w) as (self1&w1&Hu&Hw1&Hwf1&_&Hv&_); [done|done|lia|done|done|].
  assert (∀ x, s <= x < e → ram_view self1 x = None) as Hnone by (intros; rewrite Hv; zcases).
  destruct (Hf w1 Hw1) as (seg&w2&Hf2&Hw2&Hseg&Hk&Hmap); [by eapply unmapped_outside|].
  destruct (insert_raw_ok self1 s e seg w1 w2) as [Hwf2 Hv2]; [done..|].
  exists seg, (insert_raw self1 s e seg), w1, w2. step Hu. step Hf2. split; [done|].
  split; [done|]. split; [done|]. split; [done|]. intros x. rewrite Hv2, Hv. zcases.
Qed.

(** [mmap_anywhere] is first-fit above the hint: it returns the lowest
    address not below the hint and the lower limit where [len] bytes hold
    nothing, puts the segment exactly there, and returns [None] only when
    there is no such address. *)
Theorem mmap_anywhere_first_fit self (hint len : Z) (f : Z → M W S) (w : W) :
  ram_wf w self → world_ok w → 0 <= hint → 0 < len →
  Z.max hint LOWER_LIMIT + len < 2 ^ 64 →
  (∀ kv, kv ∈ segments self → end_ kv.2 + len < 2 ^ 64) →
  (∀ p, Z.max hint LOWER_LIMIT <= p → p + len <= UPPER_LIMIT → makes_segment (f p) p (p + len)) →
  let empty p := ∀ x, p <= x < p + len → ram_view self x = None in
  (∃ p seg self' w', mmap_anywhere self hint len f w = Ret ((Some p, self'), w') ∧
     f p w = Ret (seg, w') ∧ world_ok w' ∧ ram_wf w' self' ∧
     Z.max hint LOWER_LIMIT <= p ∧ p + len <= UPPER_LIMIT ∧ empty p ∧
     (∀ q, Z.max hint LOWER_LIMIT <= q → empty q → p <= q) ∧
     ∀ x, ram_view self' x =
       if (p <=? x) && (x <? p + len) then Some (seg_at seg x) else ram_view self x) ∨
  (mmap_anywhere self hint len f w = Ret ((None, self), w) ∧
   ∀ q, Z.max hint LOWER_LIMIT <= q → q + len <= UPPER_LIMIT → ¬ empty q).
Proof.
  intros Hwf Hw Hh Hlen Hov Hm Hf empty. unfold mmap_anywhere.
  pose proof (find_free_area_ok w self hint len Hwf Hh Hlen Hov Hm) as Ha.
  assert (Hemp : ∀ p, free_at (segments self) p len ↔ empty p)
    by (intros; by apply (free_at_view w)).
  destruct (find_free_area self hint len) as [p|].
  - left. destruct Ha as (H1&H2&H3%Hemp&H4). destruct (Hf p H1 H2 w Hw) as (seg&w'&Hfp&Hw'&Hseg&Hk&Hmap);
      [by eapply unmapped_outside|].
    rewrite wrap_small by (unfold word, UPPER_LIMIT, LOWER_LIMIT in *; lia).
    destruct (insert_raw_ok self p (p + len) seg w w') as [Hwf' Hv];
      [done|unfold LOWER_LIMIT in *; lia|done..|].
    exists p, seg, (insert_raw self p (p + len) seg), w'. step Hfp.
    split_and!; try done. intros q Hq Hemq. apply H4; [done|]. by apply Hemp.
  - right. split; [done|]. intros q Hq Hq' Hemq. apply (Ha q); [done|done|]. by apply Hemp.
Qed.

(** [find] returns the segment of the range that contains the address, and
    [None] exactly when no range contains it. *)
Theorem find_agrees_with_view self (pos : Z) (w : W) :
  ram_wf w self → ram_view self pos = (λ seg, seg_at seg pos) <$> find self pos.
Proof. apply find_ok. Qed.
End properties.

Lemma unmap_empties_range_witness :
  (∃ self' w', unmap two 0x4000 0x9800 [] = Ret (self', w') ∧ world_ok w' ∧
    ram_wf w' self' ∧ args self' = args two ∧
    (∀ x, ram_view self' x =
       if (0x4000 <=? x) && (x <? 0x9800) then None else ram_view two x) ∧
    (∀ x, mapped w' x =
       if (0x4000 <=? x) && (x <? 0x9800) && bool_decide (is_Some (ram_view two x))
       then false else mapped ([] : World) x)) ∧
  unmap two 0x4000 0x9800 [] = Ret
    (mkRAM [(0x3000, mkArea 0x3000 0x4000 (0x3000, 0x4000, 5));
            (0x9800, mkArea 0x9800 0xa000 (0x9800, 0xa000, 6))] 0,
     [(0x9000, 0x9800); (0x4000, 0x7000)]).
Proof.
  split; [apply unmap_empties_range; [apply two_wf|done|lia|by apply cut_ok_fits|by apply cut_ok_fits]|vm_compute; reflexivity].
Defined.

Lemma mprotect_reflags_range_witness :
  ∃ self' w', mprotect two 0x4000 0x5000 7 [] = Ret (self', w') ∧ world_ok w' ∧
    ram_wf w' self' ∧ args self' = args two ∧
    (∀ x, ram_view self' x =
       if (0x4000 <=? x) && (x <? 0x5000) then set_flag 7 <$> ram_view two x
       else ram_view two x) ∧
    (∀ x, mapped w' x = mapped ([] : World) x).
Proof. apply mprotect_reflags_range; [apply two_wf|done|lia|by apply cut_ok_fits|by apply cut_ok_fits]. Defined.

Lemma mmap_fixed_replaces_range_witness :
  ∃ seg self' w' w'',
    mmap_fixed two 0x6000 0x9800 (λ w, Ret ((0x6000, 0x9800, 1), w)) []
      = Ret ((Some 0x6000, self'), w'') ∧
    Ret ((0x6000, 0x9800, 1), w') = Ret (seg, w'') ∧ world_ok w'' ∧
    ram_wf w'' self' ∧
    ∀ x, ram_view self' x =
      if (0x6000 <=? x) && (x <? 0x9800) then Some (seg_at seg x) else ram_view two x.
Proof.
  apply (mmap_fixed_replaces_range two 0x6000 0x9800 (λ w, Ret ((0x6000, 0x9800, 1), w)) []);
    [apply two_wf|done|lia|by apply cut_ok_fits|by apply cut_ok_fits|].
  intros w _ _. exists (0x6000, 0x9800, 1), w. split; [done|].
  split; [done|]. split; [done|]. split; [apply seg_range_keeps|auto].
Defined.

Lemma mmap_anywhere_first_fit_witness :
  let f p : M World Seg := λ w, Ret ((p, p + 0x2000, 1), w) in
  let empty p := ∀ x, p <= x < p + 0x2000 → ram_view two x = None in
  (∃ p seg self' w', mmap_anywhere two 0x2000 0x2000 f [] = Ret ((Some p, self'), w') ∧
     f p [] = Ret (seg, w') ∧ world_ok w' ∧ ram_wf w' self' ∧
     Z.max 0x2000 LOWER_LIMIT <= p ∧ p + 0x2000 <= UPPER_LIMIT ∧ empty p ∧
     (∀ q, Z.max 0x2000 LOWER_LIMIT <= q → empty q → p <= q) ∧
     ∀ x, ram_view self' x =
       if (p <=? x) && (x <? p + 0x2000) then Some (seg_at seg x) else ram_view two x) ∨
  (mmap_anywhere two 0x2000 0x2000 f [] = Ret ((None, two), []) ∧
   ∀ q, Z.max 0x2000 LOWER_LIMIT <= q → q + 0x2000 <= UPPER_LIMIT → ¬ empty q).
Proof.
  apply mmap_anywhere_first_fit; [apply two_wf|done|lia|lia|vm_compute; reflexivity| |].
  - intros kv. simpl. rewrite !elem_of_cons. intros [->|[->|[]%elem_of_nil]]; simpl; lia.
  - intros p _ _ w _ _. eexists _, _. split; [reflexivity|]. split; [done|].
    split; [by split|]. split; [apply seg_range_keeps|auto].
Defined.

Lemma find_agrees_with_view_witness :
  ram_view two 0x5678 = (λ seg, seg_at seg 0x5678) <$> find two 0x5678 ∧
  find two 0x5678 = Some (0x3000, 0x7000, 5) ∧ find two 0x7000 = None.
Proof. split; [apply (find_agrees_with_view two 0x5678 []), two_wf|by split]. Defined.
