(* ===== verification/FatIo.v ===== *)
(** * Byte streams of the FAT driver ([modified_dependencies/rust-fatfs])

    Errors and results, the [Read], [Write] and [Seek] traits with their
    provided methods, the little-endian helpers ([io.rs]), and [DiskSlice], the
    window of a disk through which the allocation table is accessed ([fs.rs]).
    [StreamSpec] is the contract of a stream that does not fail; [DiskSlice]
    discharges it from the contract of the disk under it. *)

From S2P Require Import Prelude Bytes.

(** ** Errors *)

(** [Error<T>]; the error [T] the storage itself reports is not told apart. *)
Inductive Error :=
| EIo
| EUnexpectedEof
| EWriteZero
| EInvalidInput
| ENotFound
| EAlreadyExists
| EDirectoryIsNotEmpty
| ECorruptedFileSystem
| ENotEnoughSpace
| EInvalidFileNameLength
| EUnsupportedFileNameCharacter.

#[export] Instance Error_eq_dec : EqDecision Error.
Proof. solve_decision. Defined.

(** [IoError for Error<T>]: the errors of the storage (of kinds [Uncategorized],
    [UnexpectedEof] and [WriteZero]) are never to be retried. *)
Definition is_interrupted (e : Error) : bool :=
  match e with EIo => false | _ => false end.

Inductive result (A : Type) :=
| Ok (a : A)
| Err (e : Error).
Arguments Ok {A}.
Arguments Err {A}.

(** [FM D A]: a call with [?] that may panic and works on a stream [D]. *)
Definition FM (D A : Type) : Type := D → outcome (result A * D).

#[export] Instance FM_ret {D} : MRet (FM D) := λ A a d, Ret (Ok a, d).
#[export] Instance FM_bind {D} : MBind (FM D) := λ A B f x d,
  match x d with
  | Ret (Ok a, d') => f a d'
  | Ret (Err e, d') => Ret (Err e, d')
  | Panic => Panic
  end.

Definition fail {D A} (e : Error) : FM D A := λ d, Ret (Err e, d).
Definition fpanic {D A} : FM D A := λ d, Panic.

(** The stream itself. *)
Definition this {D} : FM D D := λ d, Ret (Ok d, d).

(** Run [x]; on an error run [h] instead of returning it ([match ... Err(e)]). *)
Definition catch {D A} (x : FM D A) (h : Error → FM D A) : FM D A := λ d,
  match x d with Ret (Err e, d') => h e d' | r => r end.

(** ** The traits *)

Inductive SeekFrom :=
| SStart (n : Z)
| SEnd (n : Z)
| SCurrent (n : Z).

(** The three traits over an error type: [read] returns the bytes put in the
    buffer of the given length; the last two fields are the errors
    [new_unexpected_eof_error] and [new_write_zero_error] of that type. *)
Class Stream (D : Type) := {
  read : Z → FM D (list Z);
  write : list Z → FM D Z;
  seek : SeekFrom → FM D Z;
  flush : FM D unit;
  unexpected_eof_error : Error;
  write_zero_error : Error }.

Section io.
Context {D : Type} `{Stream D}.

(** [Read::read_exact] for a buffer of [n] bytes; no error [is_interrupted],
    so each one is returned.  Every turn but the last
    reads at least one byte, so [n + 1] turns are enough. *)
Fixpoint read_exact_loop (fuel : nat) (n : Z) (acc : list Z) : FM D (list Z) :=
  match fuel with
  | O => fpanic
  | S fuel =>
      if n =? 0 then mret acc
      else
        bs ← read n;
        match bs with
        | [] => fail unexpected_eof_error
        | _ => read_exact_loop fuel (n - Z.of_nat (length bs)) (acc ++ bs)
        end
  end.

Definition read_exact (n : Z) : FM D (list Z) := read_exact_loop (Z.to_nat n + 1) n [].

(** [Write::write_all] *)
Fixpoint write_all_loop (fuel : nat) (buf : list Z) : FM D unit :=
  match fuel with
  | O => fpanic
  | S fuel =>
      match buf with
      | [] => mret tt
      | _ =>
          n ← write buf;
          if n =? 0 then fail write_zero_error
          else write_all_loop fuel (drop (Z.to_nat n) buf)
      end
  end.

Definition write_all (buf : list Z) : FM D unit := write_all_loop (length buf + 1) buf.
End io.

Section le_ext.
Context {D : Type} `{Stream D}.

Definition read_u8 : FM D Z := bs ← read_exact 1; mret (le_combine bs).
Definition read_u16_le : FM D Z := bs ← read_exact 2; mret (le_combine bs).
Definition read_u32_le : FM D Z := bs ← read_exact 4; mret (le_combine bs).

Definition write_u8 (n : Z) : FM D unit := write_all (le_split 1 n).
Definition write_u16_le (n : Z) : FM D unit := write_all (le_split 2 n).
Definition write_u32_le (n : Z) : FM D unit := write_all (le_split 4 n).

(** [write_zeros] of [fs.rs]: blocks of at most 512 zero bytes. *)
Fixpoint write_zeros_loop (fuel : nat) (len : Z) : FM D unit :=
  match fuel with
  | O => fpanic
  | S fuel =>
      if 0 <? len then
        let write_size := Z.min len 512 in
        _ ← write_all (replicate (Z.to_nat write_size) 0);
        write_zeros_loop fuel (len - write_size)
      else mret tt
  end.

Definition write_zeros (len : Z) : FM D unit := write_zeros_loop (Z.to_nat len + 1) len.
End le_ext.

(** ** [DiskSlice] *)

Record DiskSlice (D : Type) := mkSlice {
  begin : Z; slice_size : Z; offset : Z; mirrors : Z; inner : D }.
Arguments mkSlice {D}.
Arguments begin {D}.
Arguments slice_size {D}.
Arguments offset {D}.
Arguments mirrors {D}.
Arguments inner {D}.

Section slice.
Context {D : Type} `{Stream D}.
Implicit Types s : DiskSlice D.

Definition slice_new (b sz mir : Z) (d : D) : DiskSlice D := mkSlice b sz 0 mir d.

Definition abs_pos s : Z := wrap64 (begin s + offset s).

(** A call on the inner storage, with the slice's other fields kept. *)
Definition on_inner {A} (x : FM D A) : FM (DiskSlice D) A := λ s,
  match x (inner s) with
  | Ret (r, d) => Ret (r, mkSlice (begin s) (slice_size s) (offset s) (mirrors s) d)
  | Panic => Panic
  end.

Definition advance (n : Z) : FM (DiskSlice D) unit := λ s,
  Ret (Ok tt, mkSlice (begin s) (slice_size s) (wrap64 (offset s + n)) (mirrors s) (inner s)).

Definition slice_read (n : Z) : FM (DiskSlice D) (list Z) := λ s,
  let off := wrap64 (begin s + offset s) in
  let read_size := Z.min (wrap64 (slice_size s - offset s)) n in
  (_ ← on_inner (seek (SStart off));
   bs ← on_inner (read read_size);
   _ ← advance (Z.of_nat (length bs));
   mret bs) s.

(** The loop over the mirrors. *)
Fixpoint write_mirrors (n : nat) (off sz i : Z) (buf : list Z) : FM D unit :=
  match n with
  | O => mret tt
  | S n =>
      _ ← seek (SStart (wrap64 (off + wrap64 (i * sz))));
      _ ← write_all buf;
      write_mirrors n off sz (i + 1) buf
  end.

Definition slice_write (buf : list Z) : FM (DiskSlice D) Z := λ s,
  let off := wrap64 (begin s + offset s) in
  let write_size := Z.min (wrap64 (slice_size s - offset s)) (Z.of_nat (length buf)) in
  if write_size =? 0 then Ret (Ok 0, s)
  else
    (_ ← on_inner (write_mirrors (Z.to_nat (mirrors s)) off (slice_size s) 0
                     (take (Z.to_nat write_size) buf));
     _ ← advance write_size;
     mret write_size) s.

(** [i64::try_from], [checked_add] and [u64::try_from]. *)
Definition checked_i64 (x : Z) : option Z :=
  if (- 2 ^ 63 <=? x) && (x <? 2 ^ 63) then Some x else None.

Definition checked_offset (base delta : Z) : option Z :=
  b ← checked_i64 base; n ← checked_i64 (b + delta); if 0 <=? n then Some n else None.

Definition slice_seek (pos : SeekFrom) : FM (DiskSlice D) Z := λ s,
  let new_offset_opt :=
    match pos with
    | SCurrent x => checked_offset (offset s) x
    | SStart x => Some x
    | SEnd o => checked_offset (slice_size s) o
    end in
  match new_offset_opt with
  | Some new_offset =>
      if slice_size s <? new_offset then Ret (Err EInvalidInput, s)
      else Ret (Ok new_offset,
                mkSlice (begin s) (slice_size s) new_offset (mirrors s) (inner s))
  | None => Ret (Err EInvalidInput, s)
  end.

#[export] Instance DiskSlice_stream : Stream (DiskSlice D) :=
  {| read := slice_read; write := slice_write; seek := slice_seek;
     flush := on_inner flush;
     unexpected_eof_error := EUnexpectedEof; write_zero_error := EWriteZero |}.
End slice.

(** ** The contract of a stream *)

(** [ok]: the stream is usable; [data] what it holds and [pos] where it is. *)
Class StreamSpec (D : Type) {HD : Stream D} := {
  ok : D → Prop;
  data : D → list Z;
  pos : D → Z;
  bytes_ok d : ok d → Forall (word 8) (data d);
  len_ok d : ok d → word 63 (len (data d));
  pos_ok d : ok d → 0 <= pos d <= len (data d);
  read_ok d n : ok d → 0 <= n →
    ∃ bs d', read n d = Ret (Ok bs, d') ∧ ok d' ∧ data d' = data d ∧
      len bs <= n ∧ bs = bytes_at (pos d) (len bs) (data d) ∧
      pos d' = pos d + len bs ∧ (0 < n → pos d < len (data d) → 0 < len bs);
  write_ok d bs : ok d → Forall (word 8) bs → pos d + len bs <= len (data d) →
    ∃ n d', write bs d = Ret (Ok n, d') ∧ ok d' ∧ 0 <= n <= len bs ∧
      data d' = splice (pos d) (take (Z.to_nat n) bs) (data d) ∧
      pos d' = pos d + n ∧ (0 < len bs → 0 < n);
  seek_ok d p : ok d → 0 <= p <= len (data d) →
    ∃ d', seek (SStart p) d = Ret (Ok p, d') ∧ ok d' ∧ data d' = data d ∧ pos d' = p;
  seek_cur_ok d x : ok d → 0 <= pos d + x <= len (data d) →
    ∃ d', seek (SCurrent x) d = Ret (Ok (pos d + x), d') ∧ ok d' ∧ data d' = data d ∧
      pos d' = pos d + x;
  flush_ok d : ok d →
    ∃ d', flush d = Ret (Ok tt, d') ∧ ok d' ∧ data d' = data d ∧ pos d' = pos d }.
