(* ===== verification/FatIoSpec.v ===== *)
(** * Correctness of the stream layer

    Exact reads and full writes against [StreamSpec], the little-endian helpers
    as reads and writes of the bytes at a position, and [DiskSlice] as an
    implementation of [StreamSpec] over any other. *)

From S2P Require Import Prelude Bytes FatIo.

(** ** Exact reads and full writes *)

Lemma FM_step {D A B} (x : FM D A) (f : A → FM D B) d a d' :
  x d = Ret (Ok a, d') → (x ≫= f) d = f a d'.
Proof. intros H. unfold mbind, FM_bind. by rewrite H. Qed.

Lemma FM_step_err {D A B} (x : FM D A) (f : A → FM D B) d e d' :
  x d = Ret (Err e, d') → (x ≫= f) d = Ret (Err e, d').
Proof. intros H. unfold mbind, FM_bind. by rewrite H. Qed.

(** Run the head of an [FM] computation whose result is known. *)
Ltac fstep H := rewrite (FM_step _ _ _ _ _ H); cbv beta iota.

(** What a call that only moves the stream leaves. *)
Definition moved {D} `{StreamSpec D} (d d' : D) (p : Z) : Prop :=
  ok d' ∧ data d' = data d ∧ pos d' = p.

(** What a call that wrote [bs] at position [p] leaves. *)
Definition wrote {D} `{StreamSpec D} (d d' : D) (p : Z) (bs : list Z) : Prop :=
  ok d' ∧ data d' = splice p bs (data d) ∧ pos d' = p + len bs.

Section exact.
Context {D : Type} {HD : Stream D} {SS : StreamSpec D}.

Lemma read_exact_loop_ok fuel n acc d : ok d → 0 <= n → pos d + n <= len (data d) →
  n < Z.of_nat fuel →
  ∃ d', read_exact_loop fuel n acc d
          = Ret (Ok (acc ++ bytes_at (pos d) n (data d)), d') ∧ moved d d' (pos d + n).
Proof.
  revert n acc d. induction fuel as [|fuel IH]; intros n acc d Hd Hn Hp Hf; [lia|].
  cbn [read_exact_loop].
  destruct (Z.eqb_spec n 0) as [->|Hne].
  { exists d. split; [by rewrite app_nil_r|]. split; [done|]. split; [done|lia]. }
  destruct (read_ok d n Hd Hn) as (bs&d1&Hr&Hd1&Hdata&Hlen&Hbs&Hpos&Hprog).
  fstep Hr. pose proof (pos_ok d Hd). assert (0 < len bs) by (apply Hprog; lia).
  destruct bs as [|b bs']; [done|]. set (bs := b :: bs') in *. fold (len bs).
  destruct (IH (n - len bs) (acc ++ bs) d1) as (d2&Hr2&Hd2&Hdata2&Hpos2);
    [done|lia|rewrite Hdata; lia|lia|].
  exists d2. split; [|split; [done|split; [congruence|lia]]]. rewrite Hr2, Hdata, Hpos.
  rewrite <- app_assoc. rewrite Hbs at 1. rewrite <- bytes_at_app by lia.
  by replace (len bs + (n - len bs)) with n by lia.
Qed.

Lemma read_exact_ok d n : ok d → 0 <= n → pos d + n <= len (data d) →
  ∃ d', read_exact n d = Ret (Ok (bytes_at (pos d) n (data d)), d') ∧ moved d d' (pos d + n).
Proof. intros. apply (read_exact_loop_ok _ _ []); done || lia. Qed.

Lemma write_all_loop_ok fuel bs d : ok d → Forall (word 8) bs →
  pos d + len bs <= len (data d) → (length bs < fuel)%nat →
  ∃ d', write_all_loop fuel bs d = Ret (Ok tt, d') ∧ wrote d d' (pos d) bs.
Proof.
  revert bs d. induction fuel as [|fuel IH]; intros bs d Hd Hbs Hp Hf; [lia|].
  cbn [write_all_loop].
  pose proof (pos_ok d Hd).
  destruct bs as [|b bs'].
  { exists d. split; [done|]. split; [done|]. split; [done|]. unfold len. simpl. lia. }
  set (bs := b :: bs') in *. assert (0 < len bs) by (unfold len; simpl; lia).
  destruct (write_ok d bs Hd Hbs Hp) as (n&d1&Hw&Hd1&Hn&Hdata&Hpos&Hprog).
  fstep Hw. destruct (Z.eqb_spec n 0); [lia|].
  assert (len (take (Z.to_nat n) bs) = n) as Hlt by (unfold len in *; rewrite length_take; lia).
  assert (len (drop (Z.to_nat n) bs) = len bs - n) as Hld
    by (unfold len in *; rewrite length_drop; lia).
  destruct (IH (drop (Z.to_nat n) bs) d1) as (d2&Hw2&Hd2&Hdata2&Hpos2);
    [done|by apply Forall_drop|rewrite Hdata, len_splice, Hld; lia|unfold len in *; lia|].
  exists d2. split; [done|]. split; [done|]. split; [|lia].
  rewrite Hdata2, Hdata, Hpos. rewrite <- (take_drop (Z.to_nat n) bs) at 3.
  rewrite splice_app by (rewrite ?take_drop; lia). by rewrite Hlt.
Qed.

Lemma write_all_ok d bs : ok d → Forall (word 8) bs → pos d + len bs <= len (data d) →
  ∃ d', write_all bs d = Ret (Ok tt, d') ∧ wrote d d' (pos d) bs.
Proof. intros. apply write_all_loop_ok; done || lia. Qed.

Lemma read_le_ok d n : ok d → 0 <= n → pos d + n <= len (data d) →
  ∃ d', (bs ← read_exact n; mret (le_combine bs)) d = Ret (Ok (le_at (pos d) n (data d)), d') ∧
        moved d d' (pos d + n).
Proof.
  intros Hd Hn Hp. destruct (read_exact_ok d n Hd Hn Hp) as (d'&Hr&Hm).
  exists d'. fstep Hr. done.
Qed.

Lemma read_u8_ok d : ok d → pos d + 1 <= len (data d) →
  ∃ d', read_u8 d = Ret (Ok (le_at (pos d) 1 (data d)), d') ∧ moved d d' (pos d + 1).
Proof. intros. by apply read_le_ok. Qed.

Lemma read_u16_ok d : ok d → pos d + 2 <= len (data d) →
  ∃ d', read_u16_le d = Ret (Ok (le_at (pos d) 2 (data d)), d') ∧ moved d d' (pos d + 2).
Proof. intros. by apply read_le_ok. Qed.

Lemma read_u32_ok d : ok d → pos d + 4 <= len (data d) →
  ∃ d', read_u32_le d = Ret (Ok (le_at (pos d) 4 (data d)), d') ∧ moved d d' (pos d + 4).
Proof. intros. by apply read_le_ok. Qed.

Lemma write_le_ok d n x : ok d → pos d + Z.of_nat n <= len (data d) →
  ∃ d', write_all (le_split n x) d = Ret (Ok tt, d') ∧ wrote d d' (pos d) (le_split n x).
Proof.
  intros. apply write_all_ok; [done|apply le_split_bytes|].
  unfold len in *. rewrite length_le_split. lia.
Qed.

(** ** Encoders and decoders

    [Writes x bs]: the call writes just these bytes.  [Decodes x bs a]: where
    these are the next bytes, the call reads them and answers [a]. *)

Definition Writes (x : FM D unit) (bs : list Z) : Prop :=
  ∀ d, ok d → pos d + len bs <= len (data d) → ∃ d', x d = Ret (Ok tt, d') ∧ wrote d d' (pos d) bs.

Definition Decodes {A} (x : FM D A) (bs : list Z) (a : A) : Prop :=
  ∀ d, ok d → pos d + len bs <= len (data d) → bytes_at (pos d) (len bs) (data d) = bs →
    ∃ d', x d = Ret (Ok a, d') ∧ moved d d' (pos d + len bs).

Lemma writes_all bs : Forall (word 8) bs → Writes (write_all bs) bs.
Proof. intros Hb d Hd Hl. by apply write_all_ok. Qed.

Lemma writes_le n x : Writes (write_all (le_split n x)) (le_split n x).
Proof. apply writes_all, le_split_bytes. Qed.

Lemma writes_nil : Writes (mret tt) [].
Proof. intros d Hd _. exists d. split; [done|]. split; [done|]. split; [done|]. unfold len. simpl. lia. Qed.

Lemma writes_bind x y a b : Writes x a → Writes y b → Writes (_ ← x; y) (a ++ b).
Proof.
  intros Hx Hy d Hd Hl. rewrite len_app in Hl. pose proof (len_nonneg b). pose proof (pos_ok d Hd).
  destruct (Hx d Hd) as (d1&H1&Hd1&Hdata1&Hpos1); [lia|]. fstep H1.
  destruct (Hy d1 Hd1) as (d2&H2&Hd2&Hdata2&Hpos2); [rewrite Hpos1, Hdata1, len_splice; lia|].
  exists d2. split; [done|]. split; [done|]. split; [|rewrite len_app; lia].
  rewrite Hdata2, Hdata1, Hpos1. symmetry. apply splice_app; [lia|]. rewrite len_app. lia.
Qed.

Lemma decodes_ret {A} (a : A) : Decodes (mret a) [] a.
Proof. intros d Hd _ _. exists d. split; [done|]. split; [done|]. split; [done|]. unfold len. simpl. lia. Qed.

Lemma decodes_exact bs : Decodes (read_exact (len bs)) bs bs.
Proof.
  intros d Hd Hl Hbs. destruct (read_exact_ok d (len bs) Hd) as (d'&Hr&Hm); [apply len_nonneg|done|].
  exists d'. by rewrite Hr, Hbs.
Qed.

Lemma decodes_le n x : word (8 * Z.of_nat n) x →
  Decodes (bs ← read_exact (Z.of_nat n); mret (le_combine bs)) (le_split n x) x.
Proof.
  intros Hx d Hd Hl Hbs. assert (len (le_split n x) = Z.of_nat n) as Hn by (unfold len; by rewrite length_le_split).
  rewrite Hn in *. destruct (read_le_ok d (Z.of_nat n) Hd) as (d'&Hr&Hm); [lia|done|].
  exists d'. rewrite Hr. unfold le_at. rewrite Hbs, le_combine_split. split; [|done]. by rewrite Z.mod_small.
Qed.

Lemma decodes_bind {A B} (x : FM D A) (y : A → FM D B) a b bs bs' : Decodes x bs a → Decodes (y a) bs' b →
  Decodes (x ≫= y) (bs ++ bs') b.
Proof.
  intros Hx Hy d Hd Hl Hbs. rewrite len_app in *. pose proof (len_nonneg bs). pose proof (len_nonneg bs').
  pose proof (pos_ok d Hd). rewrite bytes_at_app in Hbs by lia.
  apply app_inj_1 in Hbs as [Hb1 Hb2].
  2: { pose proof (len_bytes_at (pos d) (len bs) (data d)). unfold len in *. lia. }
  destruct (Hx d Hd) as (d1&Hx1&Hd1&Hdata1&Hpos1); [lia|done|]. fstep Hx1.
  destruct (Hy d1 Hd1) as (d2&Hy2&Hd2&Hdata2&Hpos2); [rewrite Hpos1, Hdata1; lia|by rewrite Hpos1, Hdata1|].
  exists d2. split; [done|]. split; [done|]. split; [congruence|lia].
Qed.

Lemma decodes_last {A B} (x : FM D A) (y : A → FM D B) a b bs : Decodes x bs a → y a = mret b →
  Decodes (x ≫= y) bs b.
Proof.
  intros Hx Hy. rewrite <- (app_nil_r bs). apply (decodes_bind _ _ a); [done|]. rewrite Hy. apply decodes_ret.
Qed.

(** What was written at a place is what is read there. *)
Lemma roundtrip_at {A} (x : FM D unit) (y : FM D A) bs a p d : Writes x bs → Decodes y bs a →
  ok d → 0 <= p → p + len bs <= len (data d) →
  ∃ d1 d2, (_ ← seek (SStart p); x) d = Ret (Ok tt, d1) ∧ data d1 = splice p bs (data d) ∧
    (_ ← seek (SStart p); y) d1 = Ret (Ok a, d2) ∧ data d2 = data d1.
Proof.
  intros Hx Hy Hd Hp Hf. pose proof (len_nonneg bs).
  destruct (seek_ok d p Hd) as (s1&H1&Hs1&Hdata1&Hpos1); [lia|].
  destruct (Hx s1 Hs1) as (d1&Hw&Hd1&Hdata&_); [rewrite Hpos1, Hdata1; lia|].
  rewrite Hdata1, Hpos1 in Hdata. assert (len (data d1) = len (data d)) as Hlen by (rewrite Hdata, len_splice; lia).
  destruct (seek_ok d1 p Hd1) as (s2&H2&Hs2&Hdata2&Hpos2); [lia|].
  destruct (Hy s2 Hs2) as (d2&Hr&_&Hdata3&_).
  { rewrite Hpos2, Hdata2. lia. }
  { rewrite Hpos2, Hdata2, Hdata. apply bytes_at_splice_same; lia. }
  exists d1, d2. split; [by fstep H1|]. split; [done|]. split; [by fstep H2|congruence].
Qed.

End exact.

(** ** The window of a disk *)

Section slice.
Context {D : Type} {HD : Stream D} {SS : StreamSpec D}.
Implicit Types s : DiskSlice D.

(** The window and its mirrors lie on the disk. *)
Definition slice_ok s : Prop :=
  ok (inner s) ∧ 0 <= begin s ∧ 0 <= offset s <= slice_size s ∧ 1 <= mirrors s ∧
  begin s + mirrors s * slice_size s <= len (data (inner s)).

Definition mirror i s : list Z :=
  bytes_at (begin s + i * slice_size s) (slice_size s) (data (inner s)).

(** What a write of [bs] at [o] does to the mirrors from [i] on. *)
Lemma write_mirrors_ok n b o sz i bs d :
  ok d → Forall (word 8) bs → 0 <= b → 0 <= i → 0 <= o → o + len bs <= sz →
  b + (i + Z.of_nat n) * sz <= len (data d) →
  ∃ d', write_mirrors n (b + o) sz i bs d = Ret (Ok tt, d') ∧ ok d' ∧
    len (data d') = len (data d) ∧
    (∀ j, i <= j < i + Z.of_nat n →
       bytes_at (b + j * sz) sz (data d') = splice o bs (bytes_at (b + j * sz) sz (data d))) ∧
    (∀ q k, 0 <= q → 0 <= k → q + k <= b + i * sz ∨ b + (i + Z.of_nat n) * sz <= q →
       bytes_at q k (data d') = bytes_at q k (data d)).
Proof.
  intros Hd Hbs Hb Hi Ho Hfit. assert (0 <= len bs) by (unfold len; lia).
  revert i d Hd Hi. induction n as [|n IH]; intros i d Hd Hi Hlen; cbn [write_mirrors].
  { exists d. split; [done|]. split; [done|]. split; [done|]. split; [lia|done]. }
  pose proof (len_ok d Hd) as Hw. unfold word in Hw.
  assert (0 <= i * sz ∧ 0 <= Z.of_nat n * sz) by nia.
  assert (b + i * sz + sz <= len (data d)) by nia.
  rewrite (wrap_small 64 (i * sz)), (wrap_small 64 (b + o + i * sz)) by (unfold word; lia).
  destruct (seek_ok d (b + o + i * sz) Hd) as (d1&Hs&Hd1&Hdata1&Hpos1); [lia|].
  fstep Hs. destruct (write_all_ok d1 bs Hd1 Hbs) as (d2&Hw2&Hd2&Hdata2&_);
    [rewrite Hdata1, Hpos1; lia|].
  fstep Hw2. rewrite Hdata1, Hpos1 in Hdata2.
  replace (b + o + i * sz) with (b + i * sz + o) in Hdata2 by lia.
  assert (len (data d2) = len (data d)) as Hl2 by (rewrite Hdata2; apply len_splice).
  destruct (IH (i + 1) d2) as (d3&Hw3&Hd3&Hl3&Hin&Hout); [done|lia|rewrite Hl2; lia|].
  exists d3. split; [done|]. split; [done|]. split; [congruence|]. split.
  - intros j Hj. destruct (decide (j = i)) as [->|].
    + rewrite Hout by lia. rewrite Hdata2. apply bytes_at_splice_inside; lia.
    + rewrite Hin by lia. f_equal. rewrite Hdata2.
      assert ((i + 1) * sz <= j * sz) by (apply Z.mul_le_mono_nonneg_r; lia).
      apply bytes_at_splice_disjoint; lia.
  - intros q k Hq Hk Hqk. rewrite Hout by lia. rewrite Hdata2.
    apply bytes_at_splice_disjoint; lia.
Qed.

(** A write returns the number of bytes that fit before the end of the window,
    and puts them at the offset in each mirror. *)
Lemma slice_write_ok s bs : slice_ok s → Forall (word 8) bs →
  let n := Z.min (slice_size s - offset s) (len bs) in
  ∃ s', slice_write bs s = Ret (Ok n, s') ∧ slice_ok s' ∧
    (begin s', slice_size s', mirrors s') = (begin s, slice_size s, mirrors s) ∧
    offset s' = offset s + n ∧ len (data (inner s')) = len (data (inner s)) ∧
    (∀ i, 0 <= i < mirrors s →
       mirror i s' = splice (offset s) (take (Z.to_nat n) bs) (mirror i s)) ∧
    (∀ q k, 0 <= q → 0 <= k →
       q + k <= begin s ∨ begin s + mirrors s * slice_size s <= q →
       bytes_at q k (data (inner s')) = bytes_at q k (data (inner s))).
Proof.
  intros (Hd&Hb&Ho&Hm&Hfit) Hbs n. destruct s as [b sz o m d]; simpl in *.
  pose proof (len_ok d Hd) as Hw. unfold word in Hw. assert (sz <= m * sz) by nia.
  assert (0 <= len bs) by (unfold len; lia).
  unfold slice_write. cbn [begin slice_size offset mirrors inner]. fold (len bs).
  rewrite (wrap_small 64 (b + o)), (wrap_small 64 (sz - o)) by (unfold word; lia). fold n.
  destruct (Z.eqb_spec n 0) as [Hz|Hz].
  { eexists. split; [by rewrite Hz|]. unfold slice_ok; simpl. split; [done|].
    split; [done|]. split; [lia|]. split; [done|]. split; [|done].
    intros i _. by rewrite Hz. }
  assert (len (take (Z.to_nat n) bs) = n) as Hlt by (unfold len in *; rewrite length_take; lia).
  destruct (write_mirrors_ok (Z.to_nat m) b o sz 0 (take (Z.to_nat n) bs) d)
    as (d'&Hwm&Hd'&Hl'&Hin&Hout);
    [done|by apply Forall_take|lia|lia|lia|lia|rewrite Z2Nat.id; lia|].
  rewrite Z2Nat.id, Z.add_0_l in * by lia.
  unfold on_inner, advance, mbind, FM_bind, mret, FM_ret; cbn [begin slice_size offset mirrors inner].
  unfold mbind, FM_bind in Hwm. rewrite Hwm. cbn [begin slice_size offset mirrors inner].
  rewrite (wrap_small 64 (o + n)) by (unfold word; lia).
  eexists. split; [done|]. unfold slice_ok, mirror; cbn [begin slice_size offset mirrors inner].
  split; [rewrite Hl'; split_and!; done || lia|]. split; [done|]. split; [done|].
  split; [done|]. split; [done|]. intros q k ???. apply Hout; lia.
Qed.

Lemma slice_read_ok s n : slice_ok s → 0 <= n →
  ∃ bs s', slice_read n s = Ret (Ok bs, s') ∧ slice_ok s' ∧
    (begin s', slice_size s', mirrors s') = (begin s, slice_size s, mirrors s) ∧
    data (inner s') = data (inner s) ∧ len bs <= n ∧
    bs = bytes_at (offset s) (len bs) (mirror 0 s) ∧ offset s' = offset s + len bs ∧
    (0 < n → offset s < slice_size s → 0 < len bs).
Proof.
  intros (Hd&Hb&Ho&Hm&Hfit) Hn. destruct s as [b sz o m d]; simpl in *.
  pose proof (len_ok d Hd) as Hw. unfold word in Hw. assert (sz <= m * sz) by nia.
  unfold slice_read. cbn [begin slice_size offset mirrors inner].
  rewrite (wrap_small 64 (b + o)), (wrap_small 64 (sz - o)) by (unfold word; lia).
  destruct (seek_ok d (b + o) Hd) as (d1&Hs&Hd1&Hdata1&Hpos1); [lia|].
  destruct (read_ok d1 (Z.min (sz - o) n) Hd1) as (bs&d2&Hr&Hd2&Hdata2&Hl&Hbs&_&Hprog); [lia|].
  assert (0 <= len bs) by (unfold len; lia).
  unfold on_inner, advance, mbind, FM_bind, mret, FM_ret; cbn [begin slice_size offset mirrors inner].
  rewrite Hs. cbn [begin slice_size offset mirrors inner]. rewrite Hr. fold (len bs).
  cbn [begin slice_size offset mirrors inner].
  rewrite (wrap_small 64 (o + len bs)) by (unfold word; lia).
  eexists _, _. split; [done|].
  unfold slice_ok, mirror; cbn [begin slice_size offset mirrors inner].
  rewrite Hdata2, Hdata1 in *. split; [split_and!; done || lia|].
  split; [done|]. split; [done|]. split; [lia|].
  split; [|split; [done|intros; apply Hprog; lia]].
  rewrite bytes_at_bytes_at by lia. rewrite Z.mul_0_l, Z.add_0_r, <- Hpos1. exact Hbs.
Qed.

(** The window is itself a stream that does not fail: its contents are those
    of the first mirror. *)
#[export] Program Instance DiskSlice_spec : StreamSpec (DiskSlice D) :=
  {| ok := slice_ok; data := mirror 0; pos := offset |}.
Next Obligation. intros s (?&?). by apply bytes_at_bytes, bytes_ok. Qed.
Next Obligation.
  intros s (?&?&?&?&?). pose proof (len_ok (inner s) ltac:(done)) as Hw. unfold mirror.
  unfold word in *. rewrite len_bytes_at; nia.
Qed.
Next Obligation.
  intros s (?&?&?&?&?). unfold mirror. rewrite len_bytes_at; nia.
Qed.
Next Obligation.
  intros s n Hs Hn. destruct (slice_read_ok s n Hs Hn) as (bs&s'&?&?&[= Hb Hsz Hm]&Hd&?&?&?&Hp).
  exists bs, s'. split; [done|]. split; [done|]. unfold mirror. rewrite Hb, Hsz, Hd.
  do 4 (split; [done|]). intros ? Hlt. apply Hp; [done|].
  destruct Hs as (?&?&?&?&?). rewrite len_bytes_at in Hlt; nia.
Qed.
Next Obligation.
  intros s bs Hs Hbs Hfit. pose proof Hs as (?&?&?&?&?). assert (0 <= len bs) by (unfold len; lia).
  assert (len (mirror 0 s) = slice_size s) as Hl by (unfold mirror; rewrite len_bytes_at; nia).
  destruct (slice_write_ok s bs Hs Hbs) as (s'&?&?&_&?&_&Hmir&_).
  eexists _, s'. split; [done|]. rewrite Hl in Hfit. split; [done|]. split; [lia|].
  split; [apply Hmir; lia|]. split; [done|lia].
Qed.
Next Obligation.
  intros s p Hs Hp. pose proof Hs as (?&?&?&?&?).
  assert (len (mirror 0 s) = slice_size s) as Hl by (unfold mirror; rewrite len_bytes_at; nia).
  unfold seek; simpl. unfold slice_seek. destruct (Z.ltb_spec (slice_size s) p); [lia|].
  eexists. split; [done|]. split; [|done]. unfold slice_ok; simpl. split_and!; done || lia.
Qed.
Next Obligation.
  intros s x Hs Hp. pose proof Hs as (?&?&?&?&?).
  assert (len (mirror 0 s) = slice_size s) as Hl by (unfold mirror; rewrite len_bytes_at; nia).
  pose proof (len_ok (inner s) ltac:(done)) as Hw. unfold word in Hw.
  assert (slice_size s <= len (data (inner s))) by nia. rewrite Hl in Hp.
  unfold seek; simpl. unfold slice_seek, checked_offset, checked_i64.
  destruct (Z.leb_spec (- 2 ^ 63) (offset s)), (Z.ltb_spec (offset s) (2 ^ 63)); try lia. simpl.
  destruct (Z.leb_spec (- 2 ^ 63) (offset s + x)), (Z.ltb_spec (offset s + x) (2 ^ 63)); try lia.
  simpl. destruct (Z.leb_spec 0 (offset s + x)); [|lia].
  destruct (Z.ltb_spec (slice_size s) (offset s + x)); [lia|].
  eexists. split; [done|]. split; [|done]. unfold slice_ok; simpl. split_and!; done || lia.
Qed.
Next Obligation.
  intros s Hs. pose proof Hs as (Hd&?&?&?&?). destruct (flush_ok (inner s) Hd) as (d'&Hf&Hd'&Hdata&_).
  unfold flush; simpl. unfold on_inner. rewrite Hf. eexists. split; [done|].
  unfold slice_ok, mirror; simpl. rewrite Hdata. split; [split_and!; done || lia|done].
Qed.
End slice.

(** ** A disk in memory

    The [Cursor] over a vector of the repository's own tests, with which the
    examples of the development are evaluated. *)

Record MemDisk := mkMem { mem_bytes : list Z; mem_pos : Z }.

Definition mem_read (n : Z) : FM MemDisk (list Z) := λ d,
  let bs := bytes_at (mem_pos d) n (mem_bytes d) in
  Ret (Ok bs, mkMem (mem_bytes d) (mem_pos d + len bs)).

Definition mem_write (bs : list Z) : FM MemDisk Z := λ d,
  let n := Z.min (len bs) (len (mem_bytes d) - mem_pos d) in
  Ret (Ok n, mkMem (splice (mem_pos d) (take (Z.to_nat n) bs) (mem_bytes d)) (mem_pos d + n)).

Definition mem_seek (p : SeekFrom) : FM MemDisk Z := λ d,
  let q := match p with
           | SStart n => n | SEnd n => len (mem_bytes d) + n | SCurrent n => mem_pos d + n
           end in
  if q <? 0 then Ret (Err EInvalidInput, d) else Ret (Ok q, mkMem (mem_bytes d) q).

#[export] Instance MemDisk_stream : Stream MemDisk :=
  {| read := mem_read; write := mem_write; seek := mem_seek; flush := mret tt;
     unexpected_eof_error := EIo; write_zero_error := EIo |}.

Definition mem_ok (d : MemDisk) : Prop :=
  Forall (word 8) (mem_bytes d) ∧ word 63 (len (mem_bytes d)) ∧
  0 <= mem_pos d <= len (mem_bytes d).

#[export] Program Instance MemDisk_spec : StreamSpec MemDisk :=
  {| ok := mem_ok; data := mem_bytes; pos := mem_pos |}.
Next Obligation. by intros d (?&?&?). Qed.
Next Obligation. by intros d (?&?&?). Qed.
Next Obligation. by intros d (?&?&?). Qed.
Next Obligation.
  intros d n (Hb&Hw&Hp) Hn. eexists _, _. split; [done|].
  pose proof (len_bytes_at_min (mem_pos d) n (mem_bytes d) Hp Hn) as Hl. unfold mem_ok; simpl.
  split; [split_and!; done || lia|]. split; [done|]. split; [lia|]. split; [|split; [done|lia]].
  rewrite Hl. unfold bytes_at at 1 2. apply Z.min_case_strong; intros; [done|].
  rewrite !take_ge; [done|..]; rewrite length_drop; unfold len in *; lia.
Qed.
Next Obligation.
  intros d bs (Hb&Hw&Hp) Hbs Hfit. assert (0 <= len bs) by (unfold len; lia).
  set (n := Z.min (len bs) (len (mem_bytes d) - mem_pos d)).
  assert (len (take (Z.to_nat n) bs) = n) as Hlt by (unfold len in *; rewrite length_take; lia).
  eexists n, _. split; [done|]. unfold mem_ok; simpl. fold n. rewrite len_splice.
  split; [split_and!; [|done|lia|lia]|split_and!; done || lia].
  apply splice_bytes; [lia|lia|done|by apply Forall_take].
Qed.
Next Obligation.
  intros d p (Hb&Hw&Hp) Hq. unfold seek; simpl. unfold mem_seek.
  destruct (Z.ltb_spec p 0); [lia|]. eexists. split; [done|]. unfold mem_ok; simpl. done.
Qed.
Next Obligation.
  intros d x (Hb&Hw&Hp) Hq. unfold seek; simpl. unfold mem_seek.
  destruct (Z.ltb_spec (mem_pos d + x) 0); [lia|]. eexists. split; [done|].
  unfold mem_ok; simpl. done.
Qed.
Next Obligation. intros d Hd. by exists d. Qed.

(** A window on a disk of the given bytes. *)
Definition mem_slice (b sz mir : Z) (bs : list Z) : DiskSlice MemDisk :=
  slice_new b sz mir (mkMem bs 0).

Lemma mem_slice_ok b sz mir bs :
  bool_decide (Forall (word 8) bs) = true → len bs < 2 ^ 63 → 0 <= b → 0 <= sz → 1 <= mir →
  b + mir * sz <= len bs → slice_ok (mem_slice b sz mir bs).
Proof.
  intros Hb%bool_decide_eq_true ?????. unfold slice_ok, mem_slice; simpl. unfold mem_ok; simpl.
  unfold word. split_and!; done || unfold len in *; lia.
Qed.

(** A write through the window of the allocation table writes the bytes
    that fit before the window's end at the window's offset, in every mirror,
    and nowhere else on the disk; mirrors that agreed before agree after. *)
Theorem slice_write_mirrored {D} {HD : Stream D} {SS : StreamSpec D} (s : DiskSlice D) bs :
  slice_ok s → Forall (word 8) bs →
  ∃ n s', write bs s = Ret (Ok n, s') ∧ slice_ok s' ∧
    n = Z.min (slice_size s - offset s) (len bs) ∧
    (∀ i, 0 <= i < mirrors s →
       mirror i s' = splice (offset s) (take (Z.to_nat n) bs) (mirror i s)) ∧
    ((∀ i, 0 <= i < mirrors s → mirror i s = mirror 0 s) →
     ∀ i, 0 <= i < mirrors s' → mirror i s' = mirror 0 s') ∧
    (∀ q k, 0 <= q → 0 <= k → q + k <= begin s ∨ begin s + mirrors s * slice_size s <= q →
       bytes_at q k (data (inner s')) = bytes_at q k (data (inner s))).
Proof.
  intros Hs Hbs. destruct (slice_write_ok s bs Hs Hbs) as (s'&Hw&Hok&[= Hb Hz Hm]&_&_&Hmir&Hout).
  eexists _, s'. split; [done|]. split; [done|]. split; [done|]. split; [done|]. split; [|done].
  intros Heq i Hi. destruct Hs as (_&_&_&Hm1&_). rewrite !Hmir by lia. by rewrite Heq by lia.
Qed.

Lemma slice_write_mirrored_witness :
  ∃ n s', write [1; 2; 3] (mem_slice 1 4 2 (seqZ 0 12)) = Ret (Ok n, s') ∧ slice_ok s'.
Proof.
  destruct (slice_write_mirrored (mem_slice 1 4 2 (seqZ 0 12)) [1; 2; 3]) as (n&s'&Hw&Hok&_).
  - apply mem_slice_ok; vm_compute; done || lia.
  - repeat constructor; lia.
  - by exists n, s'.
Defined.
