(* ===== verification/Disk.v ===== *)
(** * The disk under the FAT driver

    [MemoryMappedDevice] (kernel/src/drivers/memory/device.rs), an image of the
    disk at a range of addresses; [BufStream] (fscommon/src/buf_stream.rs),
    which buffers it; [IoWrapper] (kernel/src/drivers/memory/wrapper.rs), which
    passes every call on.  The three together are the storage the kernel mounts. *)

From S2P Require Import Prelude Bytes FatIo.

(** ** The memory-mapped device *)

(** [dmem] is the memory at the addresses [dstart, dend). *)
Record MemoryMappedDevice := mkDev { dstart : Z; dend : Z; dpos : Z; dmem : list Z }.

Definition dev_new (s e : Z) (mem : list Z) : MemoryMappedDevice := mkDev s e s mem.

Definition dev_read (n : Z) : FM MemoryMappedDevice (list Z) := λ d,
  let read_len := Z.min (wrap64 (dend d - dpos d)) n in
  Ret (Ok (bytes_at (dpos d - dstart d) read_len (dmem d)),
       mkDev (dstart d) (dend d) (wrap64 (dpos d + read_len)) (dmem d)).

Definition dev_write (bs : list Z) : FM MemoryMappedDevice Z := λ d,
  let write_len := Z.min (wrap64 (dend d - dpos d)) (len bs) in
  Ret (Ok write_len,
       mkDev (dstart d) (dend d) (wrap64 (dpos d + write_len))
         (splice (dpos d - dstart d) (take (Z.to_nat write_len) bs) (dmem d))).

Definition dev_seek (p : SeekFrom) : FM MemoryMappedDevice Z := λ d,
  let new_pos :=
    match p with
    | SCurrent delta => wrap64 (dpos d + delta)
    | SStart delta => wrap64 (dstart d + delta)
    | SEnd delta => wrap64 (dend d + delta)
    end in
  if (new_pos <? dstart d) || (dend d <? new_pos) then Ret (Err EIo, d)
  else Ret (Ok (new_pos - dstart d), mkDev (dstart d) (dend d) new_pos (dmem d)).

Definition dev_flush : FM MemoryMappedDevice unit := mret tt.

#[export] Instance dev_stream : Stream MemoryMappedDevice :=
  {| read := dev_read; write := dev_write; seek := dev_seek; flush := dev_flush;
     unexpected_eof_error := EIo; write_zero_error := EIo |}.

(** ** The buffered stream *)

Definition BUF_SIZE : Z := 512.

Record BufStream (D : Type) := mkBuf {
  binner : D; bbuf : list Z; blen : Z; bpos : Z; bwrite : bool }.
Arguments mkBuf {D}.
Arguments binner {D}.
Arguments bbuf {D}.
Arguments blen {D}.
Arguments bpos {D}.
Arguments bwrite {D}.

Section buf.
Context {D : Type} `{Stream D}.
Definition buf_new (d : D) : BufStream D := mkBuf d (replicate 512 0) 0 0 false.

(** A call on the inner stream, and an assignment to the other fields. *)
Definition on_binner {A} (x : FM D A) : FM (BufStream D) A := λ b,
  match x (binner b) with
  | Ret (r, d) => Ret (r, mkBuf d (bbuf b) (blen b) (bpos b) (bwrite b))
  | Panic => Panic
  end.

Definition bset (buf : list Z) (l p : Z) (w : bool) : FM (BufStream D) unit := λ b,
  Ret (Ok tt, mkBuf (binner b) buf l p w).

Definition flush_buf : FM (BufStream D) unit :=
  b ← this;
  if bwrite b : bool then
    _ ← on_binner (write_all (take (Z.to_nat (bpos b)) (bbuf b)));
    bset (bbuf b) (blen b) 0 true
  else mret tt.

Definition make_reader : FM (BufStream D) unit :=
  b ← this;
  if bwrite b : bool then _ ← flush_buf; b ← this; bset (bbuf b) 0 0 false
  else mret tt.

Definition make_writter : FM (BufStream D) unit :=
  b ← this;
  if bwrite b : bool then mret tt
  else
    _ ← on_binner (seek (SCurrent (- (blen b - bpos b))));
    bset (bbuf b) 0 0 true.

(** The bytes of the buffer not read yet, after refilling an empty buffer. *)
Definition fill_buf : FM (BufStream D) (list Z) :=
  _ ← make_reader;
  b ← this;
  _ ← (if blen b <=? bpos b : bool then
         bs ← on_binner (read BUF_SIZE);
         bset (splice 0 bs (bbuf b)) (len bs) 0 (bwrite b)
       else mret tt);
  b ← this;
  mret (bytes_at (bpos b) (blen b - bpos b) (bbuf b)).

Definition consume (amt : Z) : FM (BufStream D) unit :=
  b ← this;
  bset (bbuf b) (blen b) (Z.min (bpos b + amt) (blen b)) (bwrite b).

Definition buf_read (n : Z) : FM (BufStream D) (list Z) :=
  _ ← make_reader;
  b ← this;
  if (bpos b =? blen b) && (BUF_SIZE <=? n) : bool then on_binner (read n)
  else
    rem ← fill_buf;
    let bs := take (Z.to_nat n) rem in
    _ ← consume (len bs);
    mret bs.

(** [(&mut self.buf[self.pos..]).write(buf)] *)
Definition buf_put (bs : list Z) : FM (BufStream D) Z :=
  b ← this;
  let written := Z.min (BUF_SIZE - bpos b) (len bs) in
  _ ← bset (splice (bpos b) (take (Z.to_nat written) bs) (bbuf b)) (blen b)
           (bpos b + written) (bwrite b);
  mret written.

Definition buf_write (bs : list Z) : FM (BufStream D) Z :=
  _ ← make_writter;
  b ← this;
  if BUF_SIZE <? bpos b + len bs : bool then
    _ ← flush_buf;
    if BUF_SIZE <=? len bs : bool then on_binner (write bs) else buf_put bs
  else buf_put bs.

Definition buf_flush : FM (BufStream D) unit := _ ← flush_buf; on_binner flush.

Definition buf_seek (p : SeekFrom) : FM (BufStream D) Z :=
  _ ← flush_buf;
  b ← this;
  let new_pos :=
    match p with
    | SCurrent x => SCurrent (swrap 64 (x - (blen b - bpos b)))
    | _ => p
    end in
  _ ← bset (bbuf b) 0 0 (bwrite b);
  on_binner (seek new_pos).

#[export] Instance buf_stream : Stream (BufStream D) :=
  {| read := buf_read; write := buf_write; seek := buf_seek; flush := buf_flush;
     unexpected_eof_error := unexpected_eof_error; write_zero_error := write_zero_error |}.
End buf.

(** ** The wrapper: every call goes to the inner stream *)

Record IoWrapper (T : Type) := mkWrap { winner : T }.
Arguments mkWrap {T}.
Arguments winner {T}.

Section wrapper.
Context {T : Type} `{Stream T}.

Definition on_winner {A} (x : FM T A) : FM (IoWrapper T) A := λ w,
  match x (winner w) with Ret (r, t) => Ret (r, mkWrap t) | Panic => Panic end.

#[export] Instance wrapper_stream : Stream (IoWrapper T) :=
  {| read n := on_winner (read n);
     write bs := on_winner (write bs);
     seek p := on_winner (seek p);
     flush := on_winner flush;
     unexpected_eof_error := unexpected_eof_error;
     write_zero_error := write_zero_error |}.
End wrapper.

(** The storage type of the mounted file system. *)
Definition IoType : Type := IoWrapper (BufStream MemoryMappedDevice).

Definition new_io (s e : Z) (mem : list Z) : IoType := mkWrap (buf_new (dev_new s e mem)).
