(* ===== verification/DiskSpec.v ===== *)
(** * Correctness of the disk

    The device, the buffered stream over any stream that does not fail, and the
    wrapper are streams that do not fail: [StreamSpec] holds of the storage the
    kernel mounts.  The contents of a buffered stream are those of the inner
    one with the bytes not yet flushed written over them. *)

From S2P Require Import Prelude Bytes FatIo FatIoSpec Disk.

(** ** The device *)

Definition dev_ok (d : MemoryMappedDevice) : Prop :=
  Forall (word 8) (dmem d) ∧ 0 <= dstart d ∧ dend d < 2 ^ 64 ∧
  dstart d <= dpos d <= dend d ∧ len (dmem d) = dend d - dstart d ∧ len (dmem d) < 2 ^ 63.

#[export] Program Instance dev_spec : StreamSpec MemoryMappedDevice :=
  {| ok := dev_ok; data := dmem; pos d := dpos d - dstart d |}.
Next Obligation. by intros d (?&?). Qed.
Next Obligation. intros d (?&?&?&?&?&?). unfold word. lia. Qed.
Next Obligation. intros d (?&?&?&?&?&?). simpl. lia. Qed.
Next Obligation.
  intros d n (Hb&Hs&He&Hp&Hl&Hl2) Hn. unfold read; simpl. unfold dev_read.
  rewrite (wrap_small 64 (dend d - _)) by (unfold word; lia).
  rewrite (wrap_small 64 (dpos d + _)) by (unfold word; lia).
  set (k := Z.min _ n). eexists _, _. split; [done|]. unfold dev_ok; simpl.
  rewrite len_bytes_at by lia. split; [split_and!; done || lia|]. split_and!; done || lia.
Qed.
Next Obligation.
  intros d bs (Hb&Hs&He&Hp&Hl&Hl2) Hbs Hfit. assert (0 <= len bs) by (unfold len; lia).
  unfold write; simpl. unfold dev_write.
  rewrite (wrap_small 64 (dend d - _)) by (unfold word; lia).
  rewrite (wrap_small 64 (dpos d + _)) by (unfold word; lia).
  set (k := Z.min _ (len bs)).
  assert (len (take (Z.to_nat k) bs) = k) as Hlt by (unfold len in *; rewrite length_take; lia).
  eexists _, _. split; [done|]. unfold dev_ok; simpl. rewrite len_splice.
  split; [split_and!; try done; try lia|split_and!; done || lia].
  apply splice_bytes; [lia|lia|done|by apply Forall_take].
Qed.
Next Obligation.
  intros d p (Hb&Hs&He&Hp&Hl&Hl2) Hq. unfold seek; simpl. unfold dev_seek.
  rewrite (wrap_small 64) by (unfold word; lia).
  destruct (Z.ltb_spec (dstart d + p) (dstart d)), (Z.ltb_spec (dend d) (dstart d + p)); try lia.
  simpl. eexists. split; [do 3 f_equal; lia|]. unfold dev_ok; simpl. split_and!; done || lia.
Qed.
Next Obligation.
  intros d p (Hb&Hs&He&Hp&Hl&Hl2) Hq. unfold seek; simpl. unfold dev_seek.
  rewrite (wrap_small 64) by (unfold word; lia).
  destruct (Z.ltb_spec (dpos d + p) (dstart d)), (Z.ltb_spec (dend d) (dpos d + p)); try lia.
  simpl. eexists. split; [do 3 f_equal; lia|]. unfold dev_ok; simpl. split_and!; done || lia.
Qed.
Next Obligation. intros d Hd. by exists d. Qed.

(** ** The wrapper *)

Section wrapper.
Context {T : Type} {HT : Stream T} {ST : StreamSpec T}.

Lemma on_winner_ok {A} (x : FM T A) w r t : x (winner w) = Ret (r, t) →
  on_winner x w = Ret (r, mkWrap t).
Proof. intros H. unfold on_winner. by rewrite H. Qed.

#[export] Program Instance wrapper_spec : StreamSpec (IoWrapper T) :=
  {| ok w := ok (winner w); data w := data (winner w); pos w := pos (winner w) |}.
Next Obligation. intros w Hw. by apply bytes_ok. Qed.
Next Obligation. intros w Hw. by apply len_ok. Qed.
Next Obligation. intros w Hw. by apply pos_ok. Qed.
Next Obligation.
  intros w n Hw Hn. destruct (read_ok _ n Hw Hn) as (bs&t&Hr&?).
  exists bs, (mkWrap t). split; [by apply on_winner_ok|done].
Qed.
Next Obligation.
  intros w bs Hw Hb Hf. destruct (write_ok _ bs Hw Hb Hf) as (n&t&Hr&?).
  exists n, (mkWrap t). split; [by apply on_winner_ok|done].
Qed.
Next Obligation.
  intros w p Hw Hp. destruct (seek_ok _ p Hw Hp) as (t&Hr&?).
  exists (mkWrap t). split; [by apply on_winner_ok|done].
Qed.
Next Obligation.
  intros w p Hw Hp. destruct (seek_cur_ok _ p Hw Hp) as (t&Hr&?).
  exists (mkWrap t). split; [by apply on_winner_ok|done].
Qed.
Next Obligation.
  intros w Hw. destruct (flush_ok _ Hw) as (t&Hr&?).
  exists (mkWrap t). split; [by apply on_winner_ok|done].
Qed.
End wrapper.

(** ** The buffered stream *)

Section buf.
Context {D : Type} {HD : Stream D} {SS : StreamSpec D}.
Implicit Types b : BufStream D.

(** The bytes written but not flushed. *)
Definition pending b : list Z := take (Z.to_nat (bpos b)) (bbuf b).

(** In read mode the buffer holds, from [bpos] to [blen], the bytes before the
    inner position; in write mode the bytes to be put at the inner position. *)
Definition buf_ok b : Prop :=
  ok (binner b) ∧ len (bbuf b) = BUF_SIZE ∧ Forall (word 8) (bbuf b) ∧
  0 <= bpos b <= BUF_SIZE ∧
  if bwrite b then blen b = 0 ∧ pos (binner b) + bpos b <= len (data (binner b))
  else bpos b <= blen b <= BUF_SIZE ∧ blen b - bpos b <= pos (binner b) ∧
       bytes_at (bpos b) (blen b - bpos b) (bbuf b)
         = bytes_at (pos (binner b) - (blen b - bpos b)) (blen b - bpos b) (data (binner b)).

Definition buf_data b : list Z :=
  if bwrite b then splice (pos (binner b)) (pending b) (data (binner b)) else data (binner b).

Definition buf_pos b : Z :=
  if bwrite b then pos (binner b) + bpos b else pos (binner b) - (blen b - bpos b).

(** A change of the buffer's state that keeps what it stands for. *)
Definition buf_same b b' : Prop :=
  buf_ok b' ∧ buf_data b' = buf_data b ∧ buf_pos b' = buf_pos b.

Lemma on_binner_ok {A} (x : FM D A) b r d : x (binner b) = Ret (r, d) →
  on_binner x b = Ret (r, mkBuf d (bbuf b) (blen b) (bpos b) (bwrite b)).
Proof. intros H. unfold on_binner. by rewrite H. Qed.

Lemma this_step {A} (f : BufStream D → FM (BufStream D) A) b :
  (b' ← this; f b') b = f b b.
Proof. done. Qed.

Lemma len_pending b : buf_ok b → len (pending b) = bpos b.
Proof.
  intros (_&Hl&_&Hp&_). unfold pending, len in *. rewrite length_take. unfold BUF_SIZE in *. lia.
Qed.

(** Flushing leaves nothing pending. *)
Lemma flush_buf_ok b : buf_ok b →
  ∃ b', flush_buf b = Ret (Ok tt, b') ∧ buf_same b b' ∧ bwrite b' = bwrite b ∧
        (bwrite b = true → bpos b' = 0 ∧ blen b' = 0).
Proof.
  intros Hb. pose proof Hb as (Hd&Hl&Hby&Hp&Hm). unfold flush_buf. rewrite this_step.
  destruct (bwrite b) eqn:Hw.
  2:{ exists b. split; [done|]. by split; [split|]. }
  destruct Hm as [Hl0 Hfit]. pose proof (len_pending b Hb) as Hlp.
  destruct (write_all_ok (binner b) (pending b) Hd) as (d'&Hwa&Hd'&Hdata&Hpos);
    [by apply Forall_take|lia|].
  fstep (on_binner_ok _ b _ _ Hwa). unfold bset.
  eexists. split; [done|]. unfold buf_same, buf_ok, buf_data, buf_pos, pending; simpl.
  rewrite Hw, Hpos, Hlp, Hdata, len_splice, splice_nil. unfold BUF_SIZE in *.
  split; [|split; [done|by intros]]. split; [split_and!; done || lia|]. split; [done|lia].
Qed.

Lemma make_reader_ok b : buf_ok b →
  ∃ b', make_reader b = Ret (Ok tt, b') ∧ buf_same b b' ∧ bwrite b' = false.
Proof.
  intros Hb. unfold make_reader. rewrite this_step. destruct (bwrite b) eqn:Hw.
  2:{ exists b. split; [done|]. split; [by split|done]. }
  destruct (flush_buf_ok b Hb) as (b1&Hf&(Hb1&Hd1&Hp1)&Hw1&Hz). destruct (Hz Hw) as [Hz1 Hz2].
  fstep Hf. rewrite this_step. unfold bset. eexists. split; [done|]. rewrite Hw in Hw1.
  unfold buf_same, buf_ok, buf_data, buf_pos, pending in *; simpl.
  rewrite Hw1, ?Hz1, ?Hz2 in *. rewrite <- Hd1, <- Hp1.
  destruct Hb1 as (?&?&?&?&?). pose proof (pos_ok (binner b1) ltac:(done)).
  unfold BUF_SIZE in *. split; [|done]. split; [split_and!; done || lia|].
  split; [done|lia].
Qed.

Lemma make_writter_ok b : buf_ok b →
  ∃ b', make_writter b = Ret (Ok tt, b') ∧ buf_same b b' ∧ bwrite b' = true.
Proof.
  intros Hb. unfold make_writter. rewrite this_step. destruct (bwrite b) eqn:Hw.
  { exists b. split; [done|]. split; [by split|done]. }
  pose proof Hb as (Hd&Hl&Hby&Hp&Hm). rewrite Hw in Hm. destruct Hm as (Hpl&Hlp&_).
  pose proof (pos_ok _ Hd).
  destruct (seek_cur_ok (binner b) (- (blen b - bpos b)) Hd) as (d'&Hs&Hd'&Hdata&Hpos); [lia|].
  fstep (on_binner_ok _ b _ _ Hs). unfold bset. eexists. split; [done|].
  unfold buf_same, buf_ok, buf_data, buf_pos, pending; simpl. rewrite Hw, Hdata, Hpos.
  unfold BUF_SIZE in *. split; [|done]. split; [split_and!; done || lia|]. split; [done|lia].
Qed.

(** The bytes not read yet. *)
Definition unread b : list Z := bytes_at (bpos b) (blen b - bpos b) (bbuf b).

Lemma fill_buf_ok b : buf_ok b → bwrite b = false →
  ∃ b', fill_buf b = Ret (Ok (unread b'), b') ∧ buf_same b b' ∧ bwrite b' = false ∧
        (buf_pos b < len (buf_data b) → bpos b' < blen b').
Proof.
  intros Hb Hw. unfold fill_buf.
  assert (make_reader b = Ret (Ok tt, b)) as Hr by (unfold make_reader; rewrite this_step, Hw; done).
  fstep Hr. rewrite this_step. pose proof Hb as (Hd&Hl&Hby&Hp&Hm). rewrite Hw in Hm.
  destruct Hm as (Hpl&Hpi&Heq). destruct (Z.leb_spec (blen b) (bpos b)).
  - destruct (read_ok (binner b) BUF_SIZE Hd) as (bs&d'&Hrd&Hd'&Hdata&Hlen&Hbs&Hpos&Hprog); [done|].
    assert (0 <= len bs) by (unfold len; lia). pose proof (pos_ok _ Hd).
    set (b' := mkBuf d' (splice 0 bs (bbuf b)) (len bs) 0 false).
    assert ((bs ← on_binner (read BUF_SIZE); bset (splice 0 bs (bbuf b)) (len bs) 0 (bwrite b)) b
            = Ret (Ok tt, b')) as Hstep.
    { fstep (on_binner_ok _ b _ _ Hrd). unfold bset, b'. by rewrite Hw. }
    fstep Hstep. rewrite this_step. exists b'. split; [done|].
    assert (bytes_at 0 (len bs) (splice 0 bs (bbuf b)) = bs) as Hsame
      by (apply bytes_at_splice_same; lia).
    unfold buf_same, buf_ok, buf_data, buf_pos, b'; simpl. rewrite Hw, Hdata, Z.sub_0_r, len_splice.
    split; [|split; [done|intros; apply Hprog; unfold BUF_SIZE in *; lia]].
    split; [|split; [done|lia]]. unfold BUF_SIZE in *. rewrite Hsame.
    split_and!; try done; try lia.
    + apply splice_bytes; [lia|lia|done|]. rewrite Hbs. by apply bytes_at_bytes, bytes_ok.
    + rewrite Hpos. by replace (pos (binner b) + len bs - len bs) with (pos (binner b)) by lia.
  - unfold mret at 1, FM_ret at 1. exists b. split; [done|]. split; [by split|]. split; [done|lia].
Qed.

Lemma consume_ok b k : buf_ok b → bwrite b = false → 0 <= k <= blen b - bpos b →
  ∃ b', consume k b = Ret (Ok tt, b') ∧ buf_ok b' ∧ buf_data b' = buf_data b ∧
        buf_pos b' = buf_pos b + k.
Proof.
  intros Hb Hw Hk. pose proof Hb as (Hd&Hl&Hby&Hp&Hm). rewrite Hw in Hm.
  destruct Hm as (Hpl&Hpi&Heq). unfold consume. rewrite this_step. unfold bset.
  eexists. split; [done|]. unfold buf_ok, buf_data, buf_pos; simpl. rewrite Hw.
  rewrite Z.min_l by lia. split; [split_and!; try done; try lia|split; [done|lia]].
  apply (f_equal (λ l, bytes_at k (blen b - (bpos b + k)) l)) in Heq. unfold BUF_SIZE in *.
  rewrite !bytes_at_bytes_at in Heq by lia. rewrite Heq. f_equal. lia.
Qed.

Lemma unread_data b : buf_ok b → bwrite b = false →
  unread b = bytes_at (buf_pos b) (blen b - bpos b) (buf_data b) ∧
  len (unread b) = blen b - bpos b.
Proof.
  intros (Hd&Hl&Hby&Hp&Hm) Hw. unfold buf_pos, buf_data, unread. rewrite Hw in *.
  destruct Hm as (Hpl&Hpi&Heq). split; [done|]. unfold BUF_SIZE in *. apply len_bytes_at; lia.
Qed.

Lemma take_bytes_at k p n l : 0 <= p → 0 <= k → 0 <= n →
  take (Z.to_nat k) (bytes_at p n l) = bytes_at p (Z.min k n) l.
Proof. intros. unfold bytes_at. rewrite take_take. f_equal. lia. Qed.

Lemma buf_read_ok b n : buf_ok b → 0 <= n →
  ∃ bs b', buf_read n b = Ret (Ok bs, b') ∧ buf_ok b' ∧ buf_data b' = buf_data b ∧
    len bs <= n ∧ bs = bytes_at (buf_pos b) (len bs) (buf_data b) ∧
    buf_pos b' = buf_pos b + len bs ∧ (0 < n → buf_pos b < len (buf_data b) → 0 < len bs).
Proof.
  intros Hb Hn. unfold buf_read.
  destruct (make_reader_ok b Hb) as (b1&Hr&(Hb1&Hd1&Hp1)&Hw1). fstep Hr. rewrite this_step.
  rewrite <- Hd1, <- Hp1. destruct ((bpos b1 =? blen b1) && (BUF_SIZE <=? n)) eqn:Hbig.
  - apply andb_prop in Hbig as [He%Z.eqb_eq _].
    pose proof Hb1 as (Hd&Hl&Hby&Hp&Hm). rewrite Hw1 in Hm. destruct Hm as (Hpl&Hpi&Heq).
    destruct (read_ok (binner b1) n Hd Hn) as (bs&d'&Hrd&Hd'&Hdata&Hlen&Hbs&Hpos&Hprog).
    assert (0 <= len bs) by (unfold len; lia). pose proof (pos_ok _ Hd).
    eexists bs, _. split; [by apply on_binner_ok|].
    unfold buf_ok, buf_data, buf_pos; simpl. rewrite Hw1.
    replace (blen b1 - bpos b1) with 0 by lia. rewrite !Z.sub_0_r.
    split; [split_and!; done || lia|]. split_and!; done || lia.
  - destruct (fill_buf_ok b1 Hb1 Hw1) as (b2&Hf&(Hb2&Hd2&Hp2)&Hw2&Hprog). fstep Hf.
    destruct (unread_data b2 Hb2 Hw2) as [Hun Hlu].
    pose proof Hb2 as (_&_&_&Hp&Hm). rewrite Hw2 in Hm. destruct Hm as (Hpl&_&_).
    set (bs := take (Z.to_nat n) (unread b2)).
    assert (len bs = Z.min n (blen b2 - bpos b2)) as Hlb.
    { unfold bs, len in *. rewrite length_take. lia. }
    destruct (consume_ok b2 (len bs) Hb2 Hw2) as (b3&Hc&Hb3&Hd3&Hp3); [lia|].
    fstep Hc. exists bs, b3. split; [done|]. rewrite <- Hd2, <- Hp2, Hd3, Hp3.
    split; [done|]. split; [done|]. split; [lia|]. split; [|split; [done|]].
    + rewrite Hlb. unfold bs. rewrite Hun. assert (0 <= buf_pos b2).
      { destruct Hb2 as (?&?&?&?&Hm). unfold buf_pos. rewrite Hw2 in *. lia. }
      apply take_bytes_at; lia.
    + rewrite <- Hd2, <- Hp2 in Hprog. intros ? Hlt. specialize (Hprog Hlt). lia.
Qed.

Lemma buf_put_ok b bs : buf_ok b → bwrite b = true → Forall (word 8) bs →
  buf_pos b + len bs <= len (buf_data b) →
  let n := Z.min (BUF_SIZE - bpos b) (len bs) in
  ∃ b', buf_put bs b = Ret (Ok n, b') ∧ buf_ok b' ∧
    buf_data b' = splice (buf_pos b) (take (Z.to_nat n) bs) (buf_data b) ∧
    buf_pos b' = buf_pos b + n.
Proof.
  intros Hb Hw Hbs Hfit n. pose proof Hb as (Hd&Hl&Hby&Hp&Hm). rewrite Hw in Hm.
  destruct Hm as [Hl0 Hin]. assert (0 <= len bs) by (unfold len; lia).
  pose proof (len_pending b Hb) as Hlp. pose proof (pos_ok _ Hd).
  assert (len (take (Z.to_nat n) bs) = n) as Hlt by (unfold len in *; rewrite length_take; lia).
  unfold buf_put. rewrite this_step. fold n. unfold bset.
  eexists. split; [done|]. unfold buf_ok, buf_data, buf_pos in *; simpl. rewrite Hw in *.
  rewrite len_splice in *.
  assert (take (Z.to_nat (bpos b + n)) (splice (bpos b) (take (Z.to_nat n) bs) (bbuf b))
          = pending b ++ take (Z.to_nat n) bs) as Hpend.
  { change (take (Z.to_nat (bpos b + n)) ?l) with (bytes_at 0 (bpos b + n) l).
    rewrite bytes_at_app by lia. f_equal.
    - rewrite bytes_at_splice_disjoint by (unfold BUF_SIZE in *; lia). done.
    - rewrite <- Hlt at 1. apply bytes_at_splice_same; lia. }
  split; [|split; [|lia]].
  - split_and!; try done; try lia. apply splice_bytes; [lia|lia|done|by apply Forall_take].
  - unfold pending at 1; simpl. rewrite Hpend. rewrite splice_app; [by rewrite Hlp|lia|].
    unfold len in *. rewrite length_app. lia.
Qed.

Lemma buf_write_ok b bs : buf_ok b → Forall (word 8) bs →
  buf_pos b + len bs <= len (buf_data b) →
  ∃ n b', buf_write bs b = Ret (Ok n, b') ∧ buf_ok b' ∧ 0 <= n <= len bs ∧
    buf_data b' = splice (buf_pos b) (take (Z.to_nat n) bs) (buf_data b) ∧
    buf_pos b' = buf_pos b + n ∧ (0 < len bs → 0 < n).
Proof.
  intros Hb Hbs Hfit. unfold buf_write. assert (0 <= len bs) by (unfold len; lia).
  destruct (make_writter_ok b Hb) as (b1&Hm&(Hb1&Hd1&Hp1)&Hw1). fstep Hm. rewrite this_step.
  rewrite <- Hd1, <- Hp1 in *. pose proof Hb1 as (_&_&_&Hpb&_).
  destruct (Z.ltb_spec BUF_SIZE (bpos b1 + len bs)).
  2:{ destruct (buf_put_ok b1 bs Hb1 Hw1 Hbs Hfit) as (b2&Hput&Hb2&Hd2&Hp2).
      exists (Z.min (BUF_SIZE - bpos b1) (len bs)), b2. split_and!; done || lia. }
  destruct (flush_buf_ok b1 Hb1) as (b2&Hf&(Hb2&Hd2&Hp2)&Hw2&Hz). destruct (Hz Hw1) as [Hz1 Hz2].
  fstep Hf. rewrite <- Hd2, <- Hp2 in *. rewrite Hw1 in Hw2.
  destruct (Z.leb_spec BUF_SIZE (len bs)).
  - pose proof Hb2 as (Hd&Hl&Hby&Hp&Hm2). rewrite Hw2, Hz1 in Hm2.
    unfold buf_data, buf_pos, pending in Hfit |- *. rewrite Hw2, Hz1, splice_nil in *.
    destruct (write_ok (binner b2) bs Hd Hbs) as (n&d'&Hwr&Hd'&Hn&Hdata&Hpos&Hprog); [lia|].
    assert (len (data d') = len (data (binner b2))) as Hld by (rewrite Hdata; apply len_splice).
    pose proof (pos_ok _ Hd').
    eexists n, _. split; [by apply on_binner_ok|]. unfold buf_ok; simpl.
    rewrite Hw2, Hz1, Hz2, splice_nil, Z.add_0_r in *. split; [split_and!; done || lia|].
    split; [done|]. split; [by rewrite Z.add_0_r|]. split; [lia|done].
  - destruct (buf_put_ok b2 bs Hb2 Hw2 Hbs Hfit) as (b3&Hput&Hb3&Hd3&Hp3).
    rewrite Hz1 in *. exists (Z.min (BUF_SIZE - 0) (len bs)), b3. unfold BUF_SIZE in *.
    split_and!; done || lia.
Qed.

(** A seek flushes the buffer first; a relative one counts from the position
    the buffer stands for. *)
Lemma buf_seek_ok b p q : buf_ok b → 0 <= q <= len (buf_data b) →
  (p = SStart q ∨ p = SCurrent (q - buf_pos b)) →
  ∃ b', buf_seek p b = Ret (Ok q, b') ∧ buf_ok b' ∧ buf_data b' = buf_data b ∧ buf_pos b' = q.
Proof.
  intros Hb Hq Hpq. unfold buf_seek.
  destruct (flush_buf_ok b Hb) as (b1&Hf&(Hb1&Hd1&Hp1)&Hw1&Hz). fstep Hf. rewrite this_step.
  rewrite <- Hd1, <- Hp1 in *. pose proof Hb1 as (Hd&Hl&Hby&Hp&Hm). rewrite Hw1 in *.
  assert (buf_data b1 = data (binner b1) ∧ buf_pos b1 = pos (binner b1) - (blen b1 - bpos b1))
    as [Hdat Hpos].
  { unfold buf_data, buf_pos, pending. rewrite Hw1. destruct (bwrite b) eqn:E; [|done].
    destruct (Hz eq_refl) as [-> ->]. by split; [|lia]. }
  rewrite Hdat, Hpos in *. pose proof (len_ok _ Hd) as Hlen. unfold word in Hlen.
  pose proof (pos_ok _ Hd).
  assert (0 <= blen b1 - bpos b1 <= pos (binner b1)) as Hrem.
  { destruct (bwrite b); [|lia]. destruct (Hz eq_refl). lia. }
  set (x := q - pos (binner b1)).
  assert (∃ d', seek (match p with
                      | SCurrent x => SCurrent (swrap 64 (x - (blen b1 - bpos b1)))
                      | _ => p end) (binner b1) = Ret (Ok q, d') ∧ ok d' ∧
                data d' = data (binner b1) ∧ pos d' = q) as (d'&Hs&Hd'&Hdata'&Hpos').
  { destruct Hpq as [->| ->]; [by apply seek_ok|].
    replace (swrap 64 (q - (pos (binner b1) - (blen b1 - bpos b1)) - (blen b1 - bpos b1))) with x.
    - replace q with (pos (binner b1) + x) by lia. apply seek_cur_ok; [done|lia].
    - rewrite swrap_small; lia. }
  unfold bset, mbind, FM_bind, on_binner; cbn [binner bbuf blen bpos bwrite].
  rewrite Hs. eexists. split; [done|].
  unfold buf_ok, buf_data, buf_pos, pending in *; cbn [binner bbuf blen bpos bwrite] in *.
  rewrite Hw1, Hdata', Hpos' in *. unfold BUF_SIZE in *.
  split; [|destruct (bwrite b); split; done || lia].
  split; [done|]. split; [done|]. split; [done|]. split; [lia|].
  destruct (bwrite b); split_and!; done || lia.
Qed.

(** After a flush the inner stream holds the contents. *)
Lemma buf_flush_ok b : buf_ok b →
  ∃ b', buf_flush b = Ret (Ok tt, b') ∧ buf_same b b' ∧ data (binner b') = buf_data b.
Proof.
  intros Hb. unfold buf_flush.
  destruct (flush_buf_ok b Hb) as (b1&Hf&(Hb1&Hd1&Hp1)&Hw1&Hz). fstep Hf.
  pose proof Hb1 as (Hd&Hl&Hby&Hp&Hm). destruct (flush_ok _ Hd) as (d'&Hfl&Hd'&Hdata&Hpos).
  eexists. split; [by apply on_binner_ok|]. unfold buf_same. rewrite <- Hd1, <- Hp1.
  unfold buf_ok, buf_data, buf_pos, pending in *; simpl. rewrite Hdata, Hpos, Hw1 in *.
  split; [split_and!; done || lia|]. destruct (bwrite b); [|done]. by destruct (Hz eq_refl) as [-> _].
Qed.

#[export] Program Instance buf_spec : StreamSpec (BufStream D) :=
  {| ok := buf_ok; data := buf_data; pos := buf_pos |}.
Next Obligation.
  intros b Hb. pose proof (len_pending b Hb) as Hlp. destruct Hb as (Hd&Hl&Hby&Hp&Hm).
  pose proof (pos_ok _ Hd). unfold buf_data. destruct (bwrite b); [|by apply bytes_ok].
  apply splice_bytes; [lia|lia|by apply bytes_ok|by apply Forall_take].
Qed.
Next Obligation.
  intros b (Hd&Hl&Hby&Hp&Hm). unfold buf_data. destruct (bwrite b); rewrite ?len_splice; by apply len_ok.
Qed.
Next Obligation.
  intros b (Hd&Hl&Hby&Hp&Hm). pose proof (pos_ok _ Hd).
  unfold buf_pos, buf_data. destruct (bwrite b); rewrite ?len_splice; lia.
Qed.
Next Obligation. intros b n Hb Hn. by apply buf_read_ok. Qed.
Next Obligation. intros b bs Hb Hbs Hfit. by apply buf_write_ok. Qed.
Next Obligation.
  intros b p Hb Hp. destruct (buf_seek_ok b (SStart p) p Hb Hp) as (b'&?&?&?&?); [by left|].
  by exists b'.
Qed.
Next Obligation.
  intros b x Hb Hp. destruct (buf_seek_ok b (SCurrent x) (buf_pos b + x) Hb Hp) as (b'&?&?&?&?);
    [right; f_equal; lia|]. by exists b'.
Qed.
Next Obligation.
  intros b Hb. destruct (buf_flush_ok b Hb) as (b'&?&(?&?&?)&_). by exists b'.
Qed.
End buf.

(** ** The mounted storage *)

(** The bytes on the device under the buffer. *)
Definition on_device (w : IoType) : list Z := dmem (binner (winner w)).

Lemma sector_bytes : Forall (word 8) (replicate 512 0).
Proof. by apply Forall_replicate. Qed.

Lemma new_io_ok s e mem : Forall (word 8) mem → 0 <= s <= e → e < 2 ^ 64 →
  len mem = e - s → len mem < 2 ^ 63 → ok (new_io s e mem) ∧ data (new_io s e mem) = mem.
Proof.
  intros Hb Hse He Hl Hl2. split; [|done]. simpl. unfold buf_ok; simpl. unfold dev_ok; simpl.
  split; [split_and!; done || lia|]. split; [done|]. split; [exact sector_bytes|].
  unfold BUF_SIZE. split_and!; done || lia.
Qed.

(** C26. Writing [bs] at position [p] of the mounted storage and flushing puts
    exactly these bytes at [p] of the device's memory and changes no other; a
    read of that range gives them back also when nothing was flushed. *)
Theorem storage_write_reaches_device (w : IoType) p bs : ok w → Forall (word 8) bs → 0 <= p →
  p + len bs <= len (data w) →
  (∃ w', (_ ← seek (SStart p); _ ← write_all bs; flush) w = Ret (Ok tt, w') ∧ ok w' ∧
         on_device w' = splice p bs (data w)) ∧
  (∃ w', (_ ← seek (SStart p); _ ← write_all bs; _ ← seek (SStart p); read_exact (len bs)) w
           = Ret (Ok bs, w') ∧ ok w' ∧ data w' = splice p bs (data w)).
Proof.
  intros Hw Hbs Hp Hfit. assert (0 <= len bs) by (unfold len; lia).
  destruct (seek_ok w p Hw) as (w1&Hs&Hw1&Hd1&Hp1); [lia|].
  destruct (write_all_ok w1 bs Hw1 Hbs) as (w2&Hwa&Hw2&Hd2&Hp2); [rewrite Hd1, Hp1; lia|].
  rewrite Hd1, Hp1 in Hd2. split.
  - destruct (buf_flush_ok (winner w2) Hw2) as (b3&Hf&(Hb3&_&_)&Hdev).
    exists (mkWrap b3). fstep Hs. fstep Hwa. split; [by apply on_winner_ok|].
    split; [done|]. by rewrite <- Hd2.
  - destruct (seek_ok w2 p Hw2) as (w3&Hs3&Hw3&Hd3&Hp3); [rewrite Hd2, len_splice; lia|].
    destruct (read_exact_ok w3 (len bs) Hw3) as (w4&Hr&Hw4&Hd4&_);
      [lia|rewrite Hd3, Hd2, Hp3, len_splice; lia|].
    exists w4. fstep Hs. fstep Hwa. fstep Hs3. rewrite Hr, Hp3, Hd3, Hd2.
    rewrite bytes_at_splice_same by lia. split; [done|]. split; [done|]. congruence.
Qed.

Lemma storage_write_reaches_device_witness :
  ∃ w', (_ ← seek (SStart 1); _ ← write_all [7; 8]; flush) (new_io 100 104 [0; 0; 0; 0])
          = Ret (Ok tt, w') ∧ on_device w' = [0; 7; 8; 0].
Proof.
  destruct (storage_write_reaches_device (new_io 100 104 [0; 0; 0; 0]) 1 [7; 8]) as [(w'&Hr&_&Hd) _].
  - apply new_io_ok; [by repeat constructor|done|done|done|done].
  - by repeat constructor.
  - done.
  - done.
  - exists w'. split; [exact Hr|]. rewrite Hd. by vm_compute.
Defined.
