(* ===== verification/FatTable.v ===== *)
(** * The file allocation table ([rust-fatfs/src/table.rs], [FatType] of [fs.rs])

    Entries of 12, 16 and 32 bits on a byte stream, the search for free
    entries, the allocation of clusters, formatting, and the iterator over a
    cluster chain.  Clusters are [u32]; the arithmetic on them wraps. *)

From S2P Require Import Prelude Bytes FatIo.

(** ** Types *)

Inductive FatType := Fat12 | Fat16 | Fat32.

#[export] Instance FatType_eq_dec : EqDecision FatType.
Proof. solve_decision. Defined.

Definition FAT16_MIN_CLUSTERS : Z := 4085.
Definition FAT32_MIN_CLUSTERS : Z := 65525.
Definition FAT32_MAX_CLUSTERS : Z := 0x0FFFFFF4.

Definition from_clusters (total_clusters : Z) : FatType :=
  if total_clusters <? FAT16_MIN_CLUSTERS then Fat12
  else if total_clusters <? FAT32_MIN_CLUSTERS then Fat16
  else Fat32.

Definition bits_per_fat_entry (t : FatType) : Z :=
  match t with Fat12 => 12 | Fat16 => 16 | Fat32 => 32 end.

Definition min_clusters (t : FatType) : Z :=
  match t with Fat12 => 0 | Fat16 => FAT16_MIN_CLUSTERS | Fat32 => FAT32_MIN_CLUSTERS end.

Definition max_clusters (t : FatType) : Z :=
  match t with
  | Fat12 => FAT16_MIN_CLUSTERS - 1
  | Fat16 => FAT32_MIN_CLUSTERS - 1
  | Fat32 => FAT32_MAX_CLUSTERS
  end.

Definition RESERVED_FAT_ENTRIES : Z := 2.

Inductive FatValue :=
| Free
| Data (n : Z)
| Bad
| EndOfChain.

#[export] Instance FatValue_eq_dec : EqDecision FatValue.
Proof. solve_decision. Defined.

(** [FsStatusFlags] of [fs.rs] *)
Record FsStatusFlags := mkFlags { dirty : bool; io_error : bool }.

Definition encode_flags (f : FsStatusFlags) : Z :=
  let res := 0 in
  let res := if dirty f then Z.lor res 1 else res in
  if io_error f then Z.lor res 2 else res.

Definition decode_flags (flags : Z) : FsStatusFlags :=
  mkFlags (negb (Z.land flags 1 =? 0)) (negb (Z.land flags 2 =? 0)).

(** ** The trait [FatTrait] *)

Record FatTrait (S : Type) := {
  get_raw : Z → FM S Z;
  get : Z → FM S FatValue;
  set_raw : Z → Z → FM S unit;
  set : Z → FatValue → FM S unit;
  find_free : Z → Z → FM S Z;
  count_free : Z → FM S Z }.
Arguments get_raw {S}.
Arguments get {S}.
Arguments set_raw {S}.
Arguments set {S}.
Arguments find_free {S}.
Arguments count_free {S}.

(** Turns of a loop whose [u32] counter runs from [a] until it equals [b]. *)
Definition turns (a b : Z) : nat := Z.to_nat (wrap32 (b - a - 1)) + 1.

Module F12.
Section fat12.
Context {S : Type} `{Stream S}.

Definition entry (cluster packed_val : Z) : Z :=
  if Z.land cluster 1 =? 0 then Z.land packed_val 0x0FFF else Z.shiftr packed_val 4.

Definition get_raw (cluster : Z) : FM S Z :=
  let fat_offset := wrap32 (cluster + cluster / 2) in
  _ ← seek (SStart fat_offset);
  packed_val ← read_u16_le;
  mret (entry cluster packed_val).

Definition get (cluster : Z) : FM S FatValue :=
  val ← get_raw cluster;
  mret (if val =? 0 then Free
        else if val =? 0xFF7 then Bad
        else if (0xFF8 <=? val) && (val <=? 0xFFF) then EndOfChain
        else Data val).

Definition set_raw (cluster raw_val : Z) : FM S unit :=
  let fat_offset := wrap32 (cluster + cluster / 2) in
  _ ← seek (SStart fat_offset);
  old_packed ← read_u16_le;
  _ ← seek (SStart fat_offset);
  let new_packed :=
    if Z.land cluster 1 =? 0 then Z.lor (Z.land old_packed 0xF000) (wrap16 raw_val)
    else Z.lor (Z.land old_packed 0x000F) (shl 16 (wrap16 raw_val) 4) in
  write_u16_le new_packed.

Definition set (cluster : Z) (value : FatValue) : FM S unit :=
  let raw_val :=
    match value with Free => 0 | Bad => 0xFF7 | EndOfChain => 0xFFF | Data n => n end in
  set_raw cluster raw_val.

Fixpoint find_free_loop (fuel : nat) (end_cluster cluster packed_val : Z) : FM S Z :=
  match fuel with
  | O => fpanic
  | Datatypes.S fuel =>
      if entry cluster packed_val =? 0 then mret cluster
      else
        let cluster := wrap32 (cluster + 1) in
        if cluster =? end_cluster then fail ENotEnoughSpace
        else
          packed_val ←
            (if Z.land cluster 1 =? 0 then read_u16_le
             else
               next_byte ← read_u8;
               mret (Z.lor (Z.shiftr packed_val 8) (shl 16 next_byte 8)));
          find_free_loop fuel end_cluster cluster packed_val
  end.

Definition find_free (start_cluster end_cluster : Z) : FM S Z :=
  let fat_offset := wrap32 (start_cluster + start_cluster / 2) in
  _ ← seek (SStart fat_offset);
  packed_val ← read_u16_le;
  find_free_loop (turns start_cluster end_cluster) end_cluster start_cluster packed_val.

Fixpoint count_free_loop (fuel : nat) (end_cluster cluster prev_packed_val count : Z) : FM S Z :=
  match fuel with
  | O => fpanic
  | Datatypes.S fuel =>
      if cluster <? end_cluster then
        packed_val ← (if Z.land cluster 1 =? 0 then read_u16_le else read_u8);
        let val :=
          if Z.land cluster 1 =? 0 then Z.land packed_val 0x0FFF
          else Z.lor (shl 16 packed_val 8) (Z.shiftr prev_packed_val 12) in
        let count := if val =? 0 then wrap32 (count + 1) else count in
        count_free_loop fuel end_cluster (wrap32 (cluster + 1)) packed_val count
      else mret count
  end.

Definition count_free (end_cluster : Z) : FM S Z :=
  let cluster := RESERVED_FAT_ENTRIES in
  _ ← seek (SStart (wrap32 (cluster * 3) / 2));
  count_free_loop (turns cluster end_cluster + 1) end_cluster cluster 0 0.

Definition trait : FatTrait S :=
  {| FatTable.get_raw := get_raw; FatTable.get := get; FatTable.set_raw := set_raw;
     FatTable.set := set; FatTable.find_free := find_free;
     FatTable.count_free := count_free |}.
End fat12.
End F12.

Module F16.
Section fat16.
Context {S : Type} `{Stream S}.

Definition get_raw (cluster : Z) : FM S Z :=
  _ ← seek (SStart (wrap32 (cluster * 2)));
  read_u16_le.

Definition get (cluster : Z) : FM S FatValue :=
  val ← get_raw cluster;
  mret (if val =? 0 then Free
        else if val =? 0xFFF7 then Bad
        else if (0xFFF8 <=? val) && (val <=? 0xFFFF) then EndOfChain
        else Data val).

Definition set_raw (cluster raw_value : Z) : FM S unit :=
  _ ← seek (SStart (wrap32 (cluster * 2)));
  write_u16_le (wrap16 raw_value).

Definition set (cluster : Z) (value : FatValue) : FM S unit :=
  let raw_value :=
    match value with Free => 0 | Bad => 0xFFF7 | EndOfChain => 0xFFFF | Data n => n end in
  set_raw cluster raw_value.

Fixpoint find_free_loop (fuel : nat) (end_cluster cluster : Z) : FM S Z :=
  match fuel with
  | O => fpanic
  | Datatypes.S fuel =>
      if cluster <? end_cluster then
        val ← read_u16_le;
        if val =? 0 then mret cluster
        else find_free_loop fuel end_cluster (wrap32 (cluster + 1))
      else fail ENotEnoughSpace
  end.

Definition find_free (start_cluster end_cluster : Z) : FM S Z :=
  _ ← seek (SStart (wrap32 (start_cluster * 2)));
  find_free_loop (turns start_cluster end_cluster + 1) end_cluster start_cluster.

Fixpoint count_free_loop (fuel : nat) (end_cluster cluster count : Z) : FM S Z :=
  match fuel with
  | O => fpanic
  | Datatypes.S fuel =>
      if cluster <? end_cluster then
        val ← read_u16_le;
        let count := if val =? 0 then wrap32 (count + 1) else count in
        count_free_loop fuel end_cluster (wrap32 (cluster + 1)) count
      else mret count
  end.

Definition count_free (end_cluster : Z) : FM S Z :=
  let cluster := RESERVED_FAT_ENTRIES in
  _ ← seek (SStart (wrap32 (cluster * 2)));
  count_free_loop (turns cluster end_cluster + 1) end_cluster cluster 0.

Definition trait : FatTrait S :=
  {| FatTable.get_raw := get_raw; FatTable.get := get; FatTable.set_raw := set_raw;
     FatTable.set := set; FatTable.find_free := find_free;
     FatTable.count_free := count_free |}.
End fat16.
End F16.

Module F32.
Section fat32.
Context {S : Type} `{Stream S}.

(** [(0x0FFF_FFF7..=0x0FFF_FFFF).contains(&cluster)] *)
Definition special (cluster : Z) : bool :=
  (0x0FFFFFF7 <=? cluster) && (cluster <=? 0x0FFFFFFF).

Definition get_raw (cluster : Z) : FM S Z :=
  _ ← seek (SStart (wrap32 (cluster * 4)));
  read_u32_le.

Definition get (cluster : Z) : FM S FatValue :=
  raw ← get_raw cluster;
  let val := Z.land raw 0x0FFFFFFF in
  mret (if (val =? 0) && special cluster then Bad
        else if val =? 0 then Free
        else if val =? 0x0FFFFFF7 then Bad
        else if (0x0FFFFFF8 <=? val) && (val <=? 0x0FFFFFFF) then EndOfChain
        else if special cluster then Bad
        else Data val).

Definition set_raw (cluster raw_value : Z) : FM S unit :=
  _ ← seek (SStart (wrap32 (cluster * 4)));
  write_u32_le raw_value.

Definition set (cluster : Z) (value : FatValue) : FM S unit :=
  raw ← get_raw cluster;
  let old_reserved_bits := Z.land raw 0xF0000000 in
  if bool_decide (value = Free) && special cluster then fpanic
  else
    let raw_val :=
      match value with
      | Free => 0 | Bad => 0x0FFFFFF7 | EndOfChain => 0x0FFFFFFF | Data n => n
      end in
    set_raw cluster (Z.lor raw_val old_reserved_bits).

Fixpoint find_free_loop (fuel : nat) (end_cluster cluster : Z) : FM S Z :=
  match fuel with
  | O => fpanic
  | Datatypes.S fuel =>
      if cluster <? end_cluster then
        raw ← read_u32_le;
        let val := Z.land raw 0x0FFFFFFF in
        if val =? 0 then mret cluster
        else find_free_loop fuel end_cluster (wrap32 (cluster + 1))
      else fail ENotEnoughSpace
  end.

Definition find_free (start_cluster end_cluster : Z) : FM S Z :=
  _ ← seek (SStart (wrap32 (start_cluster * 4)));
  find_free_loop (turns start_cluster end_cluster + 1) end_cluster start_cluster.

Fixpoint count_free_loop (fuel : nat) (end_cluster cluster count : Z) : FM S Z :=
  match fuel with
  | O => fpanic
  | Datatypes.S fuel =>
      if cluster <? end_cluster then
        raw ← read_u32_le;
        let val := Z.land raw 0x0FFFFFFF in
        let count := if val =? 0 then wrap32 (count + 1) else count in
        count_free_loop fuel end_cluster (wrap32 (cluster + 1)) count
      else mret count
  end.

Definition count_free (end_cluster : Z) : FM S Z :=
  let cluster := RESERVED_FAT_ENTRIES in
  _ ← seek (SStart (wrap32 (cluster * 4)));
  count_free_loop (turns cluster end_cluster + 1) end_cluster cluster 0.

Definition trait : FatTrait S :=
  {| FatTable.get_raw := get_raw; FatTable.get := get; FatTable.set_raw := set_raw;
     FatTable.set := set; FatTable.find_free := find_free;
     FatTable.count_free := count_free |}.
End fat32.
End F32.

(** ** Operations on a table of any type *)

Section table.
Context {S : Type} `{Stream S}.

(** The implementation of [FatTrait] a [match fat_type] selects. *)
Definition fat_trait (fat_type : FatType) : FatTrait S :=
  match fat_type with Fat12 => F12.trait | Fat16 => F16.trait | Fat32 => F32.trait end.

Definition read_fat (fat_type : FatType) (cluster : Z) : FM S FatValue :=
  get (fat_trait fat_type) cluster.

Definition write_fat (fat_type : FatType) (cluster : Z) (value : FatValue) : FM S unit :=
  set (fat_trait fat_type) cluster value.

Definition get_next_cluster (fat_type : FatType) (cluster : Z) : FM S (option Z) :=
  val ← read_fat fat_type cluster;
  mret (match val with Data n => Some n | _ => None end).

Definition find_free_cluster (fat_type : FatType) (start_cluster end_cluster : Z) : FM S Z :=
  find_free (fat_trait fat_type) start_cluster end_cluster.

Definition alloc_cluster (fat_type : FatType) (prev_cluster hint : option Z)
    (total_clusters : Z) : FM S Z :=
  let end_cluster := wrap32 (total_clusters + RESERVED_FAT_ENTRIES) in
  let start_cluster :=
    match hint with
    | Some n => if n <? end_cluster then n else RESERVED_FAT_ENTRIES
    | None => RESERVED_FAT_ENTRIES
    end in
  new_cluster ←
    catch (find_free_cluster fat_type start_cluster end_cluster) (λ e,
      if RESERVED_FAT_ENTRIES <? start_cluster
      then find_free_cluster fat_type RESERVED_FAT_ENTRIES start_cluster
      else fail e);
  _ ← write_fat fat_type new_cluster EndOfChain;
  _ ← (match prev_cluster with
       | Some n => write_fat fat_type n (Data new_cluster)
       | None => mret tt
       end);
  mret new_cluster.

Definition read_fat_flags (fat_type : FatType) : FM S FsStatusFlags :=
  val ← (match fat_type with
         | Fat12 => mret 0xFFF
         | Fat16 => F16.get_raw 1
         | Fat32 => F32.get_raw 1
         end);
  let dirty :=
    match fat_type with
    | Fat12 => false
    | Fat16 => Z.land val (Z.shiftl 1 15) =? 0
    | Fat32 => Z.land val (Z.shiftl 1 27) =? 0
    end in
  let io_error :=
    match fat_type with
    | Fat12 => false
    | Fat16 => Z.land val (Z.shiftl 1 14) =? 0
    | Fat32 => Z.land val (Z.shiftl 1 26) =? 0
    end in
  mret (mkFlags dirty io_error).

Definition count_free_clusters (fat_type : FatType) (total_clusters : Z) : FM S Z :=
  let end_cluster := wrap32 (total_clusters + RESERVED_FAT_ENTRIES) in
  count_free (fat_trait fat_type) end_cluster.

(** [for cluster in l { write_fat(fat, fat_type, cluster, value)?; }] *)
Fixpoint write_fat_all (fat_type : FatType) (value : FatValue) (l : list Z) : FM S unit :=
  match l with
  | [] => mret tt
  | cluster :: l' => _ ← write_fat fat_type cluster value; write_fat_all fat_type value l'
  end.

Definition format_fat (fat_type : FatType) (media bytes_per_fat total_clusters : Z)
    : FM S unit :=
  _ ← (match fat_type with
       | Fat12 => _ ← write_u8 media; write_u16_le 0xFFFF
       | Fat16 => _ ← write_u16_le (Z.lor media 0xFF00); write_u16_le 0xFFFF
       | Fat32 => _ ← write_u32_le (Z.lor media 0xFFFFF00); write_u32_le 0xFFFFFFFF
       end);
  let start_cluster := wrap32 (total_clusters + RESERVED_FAT_ENTRIES) in
  let end_cluster :=
    wrap32 (wrap64 (bytes_per_fat * 8) / bits_per_fat_entry fat_type) in
  _ ← write_fat_all fat_type EndOfChain (seqZ start_cluster (end_cluster - start_cluster));
  if 0x0FFFFFF0 <? end_cluster then
    let end_bad_cluster := Z.min (0x0FFFFFFF + 1) end_cluster in
    write_fat_all fat_type Bad (seqZ 0x0FFFFFF0 (end_bad_cluster - 0x0FFFFFF0))
  else mret tt.
End table.

(** ** Cluster chains *)

Record ClusterIterator (S : Type) := mkIter {
  fat : S; fat_type : FatType; cluster : option Z; err : bool }.
Arguments mkIter {S}.
Arguments fat {S}.
Arguments fat_type {S}.
Arguments cluster {S}.
Arguments err {S}.

Section iterator.
Context {S : Type} `{Stream S}.
Implicit Types it : ClusterIterator S.

Definition iter_new (f : S) (t : FatType) (c : Z) : ClusterIterator S :=
  mkIter f t (Some c) false.

(** A call on the table, with the iterator's other fields kept. *)
Definition on_fat {A} (x : FM S A) : FM (ClusterIterator S) A := λ it,
  match x (fat it) with
  | Ret (r, f) => Ret (r, mkIter f (fat_type it) (cluster it) (err it))
  | Panic => Panic
  end.

(** [Iterator::next] *)
Definition next : FM (ClusterIterator S) (option (result Z)) := λ it,
  if err it then Ret (Ok None, it)
  else
    match cluster it with
    | Some current_cluster =>
        match get_next_cluster (fat_type it) current_cluster (fat it) with
        | Ret (Ok next_cluster, f) =>
            Ret (Ok (option_map Ok next_cluster),
                 mkIter f (fat_type it) next_cluster (err it))
        | Ret (Err e, f) =>
            Ret (Ok (Some (Err e)), mkIter f (fat_type it) (cluster it) true)
        | Panic => Panic
        end
    | None => Ret (Ok None, it)
    end.

Fixpoint free_loop (fuel : nat) (num_free : Z) : FM (ClusterIterator S) Z := λ it,
  match fuel with
  | O => Panic
  | Datatypes.S fuel =>
      match cluster it with
      | Some n =>
          (_ ← next;
           _ ← on_fat (write_fat (fat_type it) n Free);
           free_loop fuel (wrap32 (num_free + 1))) it
      | None => Ret (Ok num_free, it)
      end
  end.

(** [free] and [truncate]; a chain of [n] clusters takes [n + 1] turns. *)
Definition free (fuel : nat) : FM (ClusterIterator S) Z := free_loop fuel 0.

Definition truncate (fuel : nat) : FM (ClusterIterator S) Z := λ it,
  match cluster it with
  | Some n =>
      (_ ← next;
       _ ← on_fat (write_fat (fat_type it) n EndOfChain);
       free fuel) it
  | None => Ret (Ok 0, it)
  end.
End iterator.
