(* ===== verification/FatTableSpec.v ===== *)
(** * Correctness of the file allocation table

    The table as a function from clusters to [FatValue]s ([value]); the
    contract [FatSpec] of an entry width, met by the three of them; and, over
    that contract, the allocation of clusters, formatting, and the traversal,
    truncation and freeing of cluster chains. *)

From S2P Require Import Prelude Bytes FatIo FatIoSpec FatTable.

(** ** The table as a function *)

(** Where the entry of a cluster is, and in how many bytes. *)
Definition entry_off (t : FatType) (c : Z) : Z :=
  match t with Fat12 => c + c / 2 | Fat16 => c * 2 | Fat32 => c * 4 end.

Definition entry_len (t : FatType) : Z :=
  match t with Fat12 | Fat16 => 2 | Fat32 => 4 end.

(** The first cluster number FAT32 reserves. *)
Definition cluster_limit : Z := 0x0FFFFFF7.

Definition fits (t : FatType) (l : list Z) (c : Z) : Prop :=
  0 <= c < cluster_limit ∧ entry_off t c + entry_len t <= len l.

Definition raw (t : FatType) (l : list Z) (c : Z) : Z :=
  let p := le_at (entry_off t c) (entry_len t) l in
  match t with
  | Fat12 => F12.entry c p
  | Fat16 => p
  | Fat32 => Z.land p 0x0FFFFFFF
  end.

(** The bits of a FAT32 entry that are not part of its value. *)
Definition reserved (t : FatType) (l : list Z) (c : Z) : Z :=
  match t with Fat32 => Z.land (le_at (entry_off t c) 4 l) 0xF0000000 | _ => 0 end.

Definition bad_value (t : FatType) : Z :=
  match t with Fat12 => 0xFF7 | Fat16 => 0xFFF7 | Fat32 => 0x0FFFFFF7 end.

Definition decode (t : FatType) (x : Z) : FatValue :=
  if x =? 0 then Free
  else if x =? bad_value t then Bad
  else if bad_value t <? x then EndOfChain
  else Data x.

Definition value (t : FatType) (l : list Z) (c : Z) : FatValue := decode t (raw t l c).

(** The values an entry can hold. *)
Definition storable (t : FatType) (v : FatValue) : Prop :=
  match v with Data n => 0 < n < bad_value t | _ => True end.


(** ** Single bytes *)

Lemma le_at_1 p l : 0 <= p → p + 1 <= len l → le_at p 1 l = default 0 (l !! Z.to_nat p).
Proof.
  intros Hp Hl. unfold le_at, bytes_at.
  destruct (lookup_lt_is_Some_2 l (Z.to_nat p)) as [x Hx]; [unfold len in *; lia|].
  rewrite (drop_S l x) by done. simpl. rewrite Hx. simpl. lia.
Qed.

Lemma le_at_add p a b l : 0 <= p → 0 <= a → 0 <= b → p + a + b <= len l →
  le_at p (a + b) l = le_at p a l + 2 ^ (8 * a) * le_at (p + a) b l.
Proof.
  intros. unfold le_at. rewrite bytes_at_app by done. rewrite le_combine_app.
  by rewrite len_bytes_at by lia.
Qed.

Lemma le_at_2 p l : 0 <= p → p + 2 <= len l →
  le_at p 2 l = le_at p 1 l + 256 * le_at (p + 1) 1 l.
Proof. intros. rewrite (le_at_add p 1 1) by lia. done. Qed.

Lemma byte_bound p l : Forall (word 8) l → 0 <= p → p + 1 <= len l →
  0 <= le_at p 1 l < 256.
Proof. intros. by apply (le_at_bound p 1 l). Qed.

Lemma byte_splice_2 p q x l : 0 <= p → p + 2 <= len l → 0 <= q → q + 1 <= len l →
  le_at q 1 (splice p (le_split 2 x) l) =
    if decide (q = p) then x mod 256
    else if decide (q = p + 1) then (x / 256) mod 256 else le_at q 1 l.
Proof.
  intros. assert (len (le_split 2 x) = 2) as Hlen by done.
  rewrite (le_at_1 q (splice _ _ _)) by (rewrite ?len_splice; lia).
  rewrite splice_lookup by (rewrite ?Hlen; lia). rewrite Hlen.
  destruct (decide (q = p)) as [->|].
  { rewrite decide_True by lia. by replace (Z.to_nat p - Z.to_nat p)%nat with 0%nat by lia. }
  destruct (decide (q = p + 1)) as [->|].
  { rewrite decide_True by lia.
    by replace (Z.to_nat (p + 1) - Z.to_nat p)%nat with 1%nat by lia. }
  rewrite decide_False by lia. by rewrite le_at_1.
Qed.

(** ** The packed entries of FAT12 *)

Lemma even_spec c : (Z.land c 1 =? 0) = (c mod 2 =? 0).
Proof. change 1 with (Z.ones 1) at 1. by rewrite Z.land_ones. Qed.

Lemma entry12_even c p : c mod 2 = 0 → F12.entry c p = p mod 4096.
Proof.
  intros H. unfold F12.entry. rewrite even_spec, H. simpl.
  change 0x0FFF with (Z.ones 12). by rewrite Z.land_ones.
Qed.

Lemma entry12_odd c p : c mod 2 = 1 → F12.entry c p = p / 16.
Proof.
  intros H. unfold F12.entry. rewrite even_spec, H. simpl. by rewrite Z.shiftr_div_pow2.
Qed.

Lemma packed_even p v : word 16 p → word 12 v →
  Z.lor (Z.land p 0xF000) (wrap16 v) = p / 4096 * 4096 + v.
Proof.
  intros [Hp1 Hp2] [Hv1 Hv2]. rewrite (wrap_small 16 v) by (unfold word; lia).
  change 0xF000 with (Z.shiftl (Z.ones 4) 12). rewrite land_field by lia.
  rewrite lor_low by lia. change (2 ^ 12) with 4096. rewrite Z.mod_small; [done|].
  change (2 ^ 4) with 16. change (2 ^ 16) with 65536 in *. dlia.
Qed.

Lemma packed_odd p v : word 16 p → word 12 v →
  Z.lor (Z.land p 0x000F) (shl 16 (wrap16 v) 4) = p mod 16 + v * 16.
Proof.
  intros [Hp1 Hp2] [Hv1 Hv2]. unfold shl. rewrite (wrap_small 16 v) by (unfold word; lia).
  change (4 mod 16) with 4. rewrite Z.shiftl_mul_pow2 by lia.
  rewrite (wrap_small 16) by (unfold word; lia).
  change 0x000F with (Z.ones 4). rewrite Z.land_ones by lia.
  rewrite lor_low_comm; [change (2 ^ 4) with 16; lia|lia|]. apply Z.mod_pos_bound. lia.
Qed.

(** An entry in terms of the bytes of the table. *)
Lemma raw12_even l c : Forall (word 8) l → fits Fat12 l c → c mod 2 = 0 →
  raw Fat12 l c = le_at (c + c / 2) 1 l + le_at (c + c / 2 + 1) 1 l mod 16 * 256.
Proof.
  intros Hl [Hc Hf] He. cbn in Hf. unfold raw; cbn [entry_off entry_len].
  rewrite entry12_even by done.
  rewrite le_at_2 by dlia. pose proof (byte_bound (c + c / 2) l Hl ltac:(dlia) ltac:(dlia)).
  dlia.
Qed.

Lemma raw12_odd l c : Forall (word 8) l → fits Fat12 l c → c mod 2 = 1 →
  raw Fat12 l c = le_at (c + c / 2) 1 l / 16 + le_at (c + c / 2 + 1) 1 l * 16.
Proof.
  intros Hl [Hc Hf] He. cbn in Hf. unfold raw; cbn [entry_off entry_len].
  rewrite entry12_odd by done. rewrite le_at_2 by dlia. dlia.
Qed.

Lemma mod2_cases c : c mod 2 = 0 ∨ c mod 2 = 1.
Proof. dlia. Qed.

(** Use the equations between the positions [o' + i] and [o + j] in the goal. *)
Ltac use_pos o' o :=
  repeat match goal with
  | E : o' = o |- context [le_at o' _ _] => rewrite E
  | E : o' = o + 1 |- context [le_at o' _ _] => rewrite E
  | E : o' + 1 = o |- context [le_at (o' + 1) _ _] => rewrite E
  | E : o' + 1 = o + 1 |- context [le_at (o' + 1) _ _] => rewrite E
  end.

(** Storing a value in an entry of FAT12 changes that entry and no other. *)
Lemma raw12_set l c v c' : Forall (word 8) l → fits Fat12 l c → fits Fat12 l c' → word 12 v →
  let p := le_at (c + c / 2) 2 l in
  let x := if Z.land c 1 =? 0 then Z.lor (Z.land p 0xF000) (wrap16 v)
           else Z.lor (Z.land p 0x000F) (shl 16 (wrap16 v) 4) in
  raw Fat12 (splice (c + c / 2) (le_split 2 x) l) c' =
    if decide (c' = c) then v else raw Fat12 l c'.
Proof.
  intros Hl Hc Hc' Hv p x. pose proof Hc as [? Hf]. pose proof Hc' as [? Hf']. cbn in Hf, Hf'.
  remember (c + c / 2) as o eqn:Ho. remember (c' + c' / 2) as o' eqn:Ho'.
  set (l' := splice o (le_split 2 x) l).
  assert (Forall (word 8) l') as Hl'.
  { apply splice_bytes; [dlia|unfold len in *; simpl; dlia|done|].
    apply le_split_bytes. }
  assert (fits Fat12 l' c') as Hfit' by (split; [done|]; unfold l'; rewrite len_splice; cbn; dlia).
  assert (word 16 p) as Hp by (apply (le_at_bound o 2 l); done || dlia).
  assert (p = le_at o 1 l + 256 * le_at (o + 1) 1 l) as Hpb by (apply le_at_2; dlia).
  pose proof (byte_bound o l Hl ltac:(dlia) ltac:(dlia)) as Hb0.
  pose proof (byte_bound (o + 1) l Hl ltac:(dlia) ltac:(dlia)) as Hb1.
  assert (x = if decide (c mod 2 = 0) then p / 4096 * 4096 + v else p mod 16 + v * 16) as Hx.
  { unfold x. rewrite even_spec. destruct (mod2_cases c) as [He|He]; rewrite He; simpl.
    - by rewrite packed_even by done.
    - by rewrite packed_odd by done. }
  clearbody x p. unfold word in Hv. change (2 ^ 12) with 4096 in Hv.
  destruct (mod2_cases c') as [He'|He'].
  - rewrite !raw12_even, <- Ho' by done. unfold l'. rewrite !byte_splice_2 by dlia.
    destruct (decide (c mod 2 = 0)); repeat case_decide; use_pos o' o; try dlia.
  - rewrite !raw12_odd, <- Ho' by done. unfold l'. rewrite !byte_splice_2 by dlia.
    destruct (decide (c mod 2 = 0)); repeat case_decide; use_pos o' o; try dlia.
Qed.

(** ** Storing values *)

Definition encode (t : FatType) (v : FatValue) : Z :=
  match v with
  | Free => 0
  | Bad => bad_value t
  | EndOfChain => 2 ^ (match t with Fat12 => 12 | Fat16 => 16 | Fat32 => 28 end) - 1
  | Data n => n
  end.

Lemma decode_encode t v : storable t v → decode t (encode t v) = v.
Proof.
  unfold decode, storable. destruct v as [|n| |], t; simpl; intros; zcases.
Qed.

Lemma decode_free t x : decode t x = Free ↔ x = 0.
Proof. unfold decode. destruct t; simpl; zcases; naive_solver lia. Qed.

Lemma encode_bound t v : storable t v →
  0 <= encode t v < 2 ^ (match t with Fat12 => 12 | Fat16 => 16 | Fat32 => 28 end).
Proof. destruct v as [|n| |], t; simpl; lia. Qed.

(** The entry after a store, and the others. *)
Definition stored (t : FatType) (l l' : list Z) (c : Z) (v : FatValue) : Prop :=
  len l' = len l ∧ value t l' c = v ∧
  (∀ c', fits t l c' → c' ≠ c → value t l' c' = value t l c') ∧
  (∀ c', fits t l c' → reserved t l' c' = reserved t l c').

Lemma stored_fits t l l' c v c' : stored t l l' c v → fits t l c' ↔ fits t l' c'.
Proof. intros (Hl&_). unfold fits. by rewrite Hl. Qed.

Section raw.
Context {S : Type} {HS : Stream S} {SS : StreamSpec S}.
Implicit Types f : S.

(** What a call that only reads leaves. *)
Definition same f f' : Prop := ok f' ∧ data f' = data f.

Lemma seek_same f p : ok f → 0 <= p <= len (data f) →
  ∃ f', seek (SStart p) f = Ret (Ok p, f') ∧ moved f f' p.
Proof. apply seek_ok. Qed.

(** [seek] then [read]. *)
Lemma seek_read_u16 f p : ok f → 0 <= p → p + 2 <= len (data f) →
  ∃ f', (_ ← seek (SStart p); read_u16_le) f = Ret (Ok (le_at p 2 (data f)), f') ∧
        moved f f' (p + 2).
Proof.
  intros Hf Hp Hl. destruct (seek_ok f p Hf) as (f1&Hs&H1&Hd1&Hp1); [lia|]. fstep Hs.
  destruct (read_u16_ok f1 H1) as (f2&Hr&H2&Hd2&Hp2); [rewrite Hd1, Hp1; lia|].
  rewrite Hd1, Hp1 in *. by exists f2.
Qed.

Lemma seek_read_u32 f p : ok f → 0 <= p → p + 4 <= len (data f) →
  ∃ f', (_ ← seek (SStart p); read_u32_le) f = Ret (Ok (le_at p 4 (data f)), f') ∧
        moved f f' (p + 4).
Proof.
  intros Hf Hp Hl. destruct (seek_ok f p Hf) as (f1&Hs&H1&Hd1&Hp1); [lia|]. fstep Hs.
  destruct (read_u32_ok f1 H1) as (f2&Hr&H2&Hd2&Hp2); [rewrite Hd1, Hp1; lia|].
  rewrite Hd1, Hp1 in *. by exists f2.
Qed.

(** [seek] then [write_all] of a number. *)
Lemma seek_write_le f p n x : ok f → 0 <= p → p + Z.of_nat n <= len (data f) →
  ∃ f', (_ ← seek (SStart p); write_all (le_split n x)) f = Ret (Ok tt, f') ∧
        ok f' ∧ data f' = splice p (le_split n x) (data f).
Proof.
  intros Hf Hp Hl. destruct (seek_ok f p Hf) as (f1&Hs&H1&Hd1&Hp1); [lia|]. fstep Hs.
  destruct (write_le_ok f1 n x H1) as (f2&Hw&H2&Hd2&_); [rewrite Hd1, Hp1; lia|].
  rewrite Hd1, Hp1 in *. by exists f2.
Qed.

Lemma fits_off t l c : fits t l c →
  0 <= entry_off t c ∧ entry_off t c + entry_len t <= len l ∧
  wrap32 (entry_off t c) = entry_off t c.
Proof.
  unfold fits, cluster_limit. intros [Hc Hl]. rewrite wrap_small; [|unfold word];
    destruct t; cbn [entry_off entry_len] in *; dlia.
Qed.

(** *** The three widths *)

Lemma F12_get_raw_ok f c : ok f → fits Fat12 (data f) c →
  ∃ f', F12.get_raw c f = Ret (Ok (raw Fat12 (data f) c), f') ∧ same f f'.
Proof.
  intros Hf (Hp&Hl&Hw)%fits_off. cbn [entry_off entry_len] in *.
  unfold F12.get_raw. rewrite Hw.
  destruct (seek_ok f (c + c / 2) Hf) as (f1&Hs&H1&Hd1&Hp1); [lia|]. fstep Hs.
  destruct (read_u16_ok f1 H1) as (f2&Hr&H2&Hd2&Hp2); [rewrite Hd1, Hp1; lia|].
  fstep Hr. rewrite Hd1, Hp1 in *. by exists f2.
Qed.

Lemma F16_get_raw_ok f c : ok f → fits Fat16 (data f) c →
  ∃ f', F16.get_raw c f = Ret (Ok (raw Fat16 (data f) c), f') ∧ same f f'.
Proof.
  intros Hf (Hp&Hl&Hw)%fits_off. unfold F16.get_raw. cbn [entry_off entry_len] in *. rewrite Hw.
  destruct (seek_read_u16 f (c * 2) Hf Hp Hl) as (f'&Hr&H1&Hd&_). by exists f'.
Qed.

Lemma F32_get_raw_ok f c : ok f → fits Fat32 (data f) c →
  ∃ f', F32.get_raw c f = Ret (Ok (le_at (c * 4) 4 (data f)), f') ∧ same f f'.
Proof.
  intros Hf (Hp&Hl&Hw)%fits_off. unfold F32.get_raw. cbn [entry_off entry_len] in *. rewrite Hw.
  destruct (seek_read_u32 f (c * 4) Hf Hp Hl) as (f'&Hr&H1&Hd&_). by exists f'.
Qed.

Lemma raw_bound t l c : Forall (word 8) l → fits t l c →
  0 <= raw t l c < 2 ^ (match t with Fat12 => 12 | Fat16 => 16 | Fat32 => 28 end).
Proof.
  intros Hl Hc. pose proof (fits_off t l c Hc) as (Hp&Hf&_).
  pose proof (le_at_bound (entry_off t c) (entry_len t) l Hl Hp ltac:(destruct t; simpl; lia) Hf)
    as [Hb1 Hb2].
  unfold raw. destruct t; cbn [entry_len] in *.
  - destruct (mod2_cases c); [rewrite entry12_even by done|rewrite entry12_odd by done];
      change (2 ^ (8 * 2)) with 65536 in *; dlia.
  - done.
  - change 0x0FFFFFFF with (Z.ones 28). rewrite Z.land_ones by lia. apply Z.mod_pos_bound. lia.
Qed.
End raw.

(** ** The contract of an entry width *)

Section widths.
Context {S : Type} {HS : Stream S} {SS : StreamSpec S}.
Implicit Types f : S.

(** Reading an entry of a stored table. *)
Lemma get12_value x : 0 <= x < 2 ^ 12 →
  (if x =? 0 then Free else if x =? 0xFF7 then Bad
   else if (0xFF8 <=? x) && (x <=? 0xFFF) then EndOfChain else Data x) = decode Fat12 x.
Proof. unfold decode; simpl. intros. zcases. Qed.

Lemma get16_value x : 0 <= x < 2 ^ 16 →
  (if x =? 0 then Free else if x =? 0xFFF7 then Bad
   else if (0xFFF8 <=? x) && (x <=? 0xFFFF) then EndOfChain else Data x) = decode Fat16 x.
Proof. unfold decode; simpl. intros. zcases. Qed.

Lemma get32_value x c : 0 <= x < 2 ^ 28 → c < cluster_limit →
  (if (x =? 0) && F32.special c then Bad
   else if x =? 0 then Free
   else if x =? 0x0FFFFFF7 then Bad
   else if (0x0FFFFFF8 <=? x) && (x <=? 0x0FFFFFFF) then EndOfChain
   else if F32.special c then Bad else Data x) = decode Fat32 x.
Proof. unfold decode, F32.special, cluster_limit; simpl. intros. zcases. Qed.

Lemma read_fat_ok t f c : ok f → fits t (data f) c →
  ∃ f', read_fat t c f = Ret (Ok (value t (data f) c), f') ∧ same f f'.
Proof.
  intros Hf Hc. pose proof (raw_bound t (data f) c (bytes_ok f Hf) Hc) as Hb.
  unfold value. destruct t; unfold read_fat; simpl.
  - destruct (F12_get_raw_ok f c Hf Hc) as (f'&Hr&Hs). exists f'. unfold F12.get. fstep Hr.
    by rewrite get12_value.
  - destruct (F16_get_raw_ok f c Hf Hc) as (f'&Hr&Hs). exists f'. unfold F16.get. fstep Hr.
    by rewrite get16_value.
  - destruct (F32_get_raw_ok f c Hf Hc) as (f'&Hr&Hs). exists f'. unfold F32.get. fstep Hr.
    rewrite get32_value; [done|done|apply Hc].
Qed.

Lemma reserved_12_16 t l c : t ≠ Fat32 → reserved t l c = 0.
Proof. by destruct t. Qed.

Lemma len_le_split n x : len (le_split n x) = Z.of_nat n.
Proof. unfold len. by rewrite length_le_split. Qed.

Lemma write_fat12_ok f c v : ok f → fits Fat12 (data f) c → storable Fat12 v →
  ∃ f', write_fat Fat12 c v f = Ret (Ok tt, f') ∧ ok f' ∧
    stored Fat12 (data f) (data f') c v.
Proof.
  intros Hf Hc Hv. pose proof (encode_bound Fat12 v Hv) as Hb.
  destruct (fits_off _ _ _ Hc) as (Hp&Hl&Hw). cbn [entry_off entry_len] in *.
  set (o := c + c / 2) in *. set (p := le_at o 2 (data f)).
  set (x := if Z.land c 1 =? 0 then Z.lor (Z.land p 0xF000) (wrap16 (encode Fat12 v))
            else Z.lor (Z.land p 0x000F) (shl 16 (wrap16 (encode Fat12 v)) 4)).
  assert (∃ f', write_fat Fat12 c v f = Ret (Ok tt, f') ∧ ok f' ∧
                data f' = splice o (le_split 2 x) (data f)) as (f'&Hr&Hf'&Hd').
  { unfold write_fat; simpl. unfold F12.set.
    change (match v with Free => 0 | Data n => n | Bad => 0xFF7 | EndOfChain => 0xFFF end)
      with (encode Fat12 v).
    unfold F12.set_raw. fold o. rewrite Hw.
    destruct (seek_ok f o Hf) as (f1&Hs&H1&Hd1&Hp1); [lia|]. fstep Hs.
    destruct (read_u16_ok f1 H1) as (f2&Hr&H2&Hd2&Hp2); [rewrite Hd1, Hp1; lia|]. fstep Hr.
    rewrite Hd1, Hp1 in *.
    destruct (seek_write_le f2 o 2 x H2) as (f3&Hw3&H3&Hd3); [lia|rewrite Hd2; lia|].
    exists f3. rewrite Hd2 in Hd3. split; [exact Hw3|done]. }
  exists f'. split; [done|]. split; [done|]. rewrite Hd'.
  split; [apply len_splice|]. unfold value.
  pose proof (raw12_set (data f) c (encode Fat12 v)) as Hset. fold o p x in Hset.
  split; [|split; [|done]].
  - rewrite Hset, decide_True by (done || apply bytes_ok; done). by apply decode_encode.
  - intros c' Hc' Hne. by rewrite Hset, decide_False by (done || apply bytes_ok; done).
Qed.

Lemma write_fat16_ok f c v : ok f → fits Fat16 (data f) c → storable Fat16 v →
  ∃ f', write_fat Fat16 c v f = Ret (Ok tt, f') ∧ ok f' ∧
    stored Fat16 (data f) (data f') c v.
Proof.
  intros Hf Hc Hv. pose proof (encode_bound Fat16 v Hv) as Hb.
  destruct (fits_off _ _ _ Hc) as (Hp&Hl&Hw). cbn [entry_off entry_len] in *.
  unfold write_fat; simpl. unfold F16.set.
  change (match v with Free => 0 | Data n => n | Bad => 0xFFF7 | EndOfChain => 0xFFFF end)
    with (encode Fat16 v).
  unfold F16.set_raw. rewrite Hw, (wrap_small 16) by done.
  destruct (seek_write_le f (c * 2) 2 (encode Fat16 v) Hf Hp Hl) as (f'&Hr&Hf'&Hd').
  exists f'. split; [exact Hr|]. split; [done|]. rewrite Hd'.
  split; [apply len_splice|]. unfold value, raw; cbn [entry_off entry_len].
  split; [|split; [|done]].
  - rewrite (le_at_splice_same (c * 2) 2) by done. simpl Z.mul. rewrite Z.mod_small by done.
    by apply decode_encode.
  - intros c' Hc' Hne. destruct (fits_off _ _ _ Hc') as (Hp'&Hl'&_).
    cbn [entry_off entry_len] in *. by rewrite le_at_splice_disjoint by lia.
Qed.

Lemma pack32 v old : 0 <= v < 2 ^ 28 → word 32 old →
  let x := Z.lor v (Z.land old 0xF0000000) in
  word 32 x ∧ Z.land x 0x0FFFFFFF = v ∧
  Z.land x 0xF0000000 = Z.land old 0xF0000000.
Proof.
  intros Hv [Ho1 Ho2] x. change (2 ^ 32) with 4294967296 in *. change (2 ^ 28) with 268435456 in *.
  assert (∀ y, Z.land y 0xF0000000 = (y / 268435456) mod 16 * 268435456) as Hland.
  { intros y. change 0xF0000000 with (Z.shiftl (Z.ones 4) 28). by rewrite land_field. }
  assert (x = (old / 268435456) mod 16 * 268435456 + v) as ->.
  { unfold x. rewrite Hland. by apply (lor_low_comm _ v 28). }
  rewrite !Hland. change 0x0FFFFFFF with (Z.ones 28). rewrite Z.land_ones by lia.
  unfold word. change (2 ^ 28) with 268435456. change (2 ^ 32) with 4294967296. dlia.
Qed.

Lemma write_fat32_ok f c v : ok f → fits Fat32 (data f) c → storable Fat32 v →
  ∃ f', write_fat Fat32 c v f = Ret (Ok tt, f') ∧ ok f' ∧
    stored Fat32 (data f) (data f') c v.
Proof.
  intros Hf Hc Hv. pose proof (encode_bound Fat32 v Hv) as Hb.
  destruct (fits_off _ _ _ Hc) as (Hp&Hl&Hw). cbn [entry_off entry_len] in *.
  unfold write_fat; simpl. unfold F32.set.
  destruct (F32_get_raw_ok f c Hf Hc) as (f1&Hg&H1&Hd1). fstep Hg.
  change (match v with Free => 0 | Data n => n | Bad => 0x0FFFFFF7 | EndOfChain => 0x0FFFFFFF end)
    with (encode Fat32 v).
  set (old := le_at (c * 4) 4 (data f)). set (x := Z.lor (encode Fat32 v) (Z.land old 0xF0000000)).
  assert (F32.special c = false) as ->.
  { destruct Hc. unfold F32.special, cluster_limit in *. zcases. }
  rewrite andb_false_r. unfold F32.set_raw. rewrite Hw.
  destruct (pack32 (encode Fat32 v) old) as (Hx&Hxv&Hxr); [done| |].
  { apply (le_at_bound (c * 4) 4 (data f)); [by apply bytes_ok|lia|lia|lia]. }
  fold x in Hx, Hxv, Hxr.
  destruct (seek_write_le f1 (c * 4) 4 x H1) as (f'&Hr&Hf'&Hd'); [lia|rewrite Hd1; simpl; lia|].
  exists f'. split; [exact Hr|]. split; [done|]. rewrite Hd', Hd1.
  split; [apply len_splice|]. unfold value, raw, reserved; cbn [entry_off entry_len].
  assert (le_at (c * 4) 4 (splice (c * 4) (le_split 4 x) (data f)) = x) as Hsame.
  { rewrite (le_at_splice_same (c * 4) 4) by done. simpl Z.mul. by apply Z.mod_small. }
  assert (∀ c', fits Fat32 (data f) c' → c' ≠ c →
    le_at (c' * 4) 4 (splice (c * 4) (le_split 4 x) (data f)) = le_at (c' * 4) 4 (data f)) as Hoth.
  { intros c' Hc' Hne. destruct (fits_off _ _ _ Hc') as (Hp'&Hl'&_).
    cbn [entry_off entry_len] in *. by rewrite le_at_splice_disjoint by lia. }
  split; [|split].
  - rewrite Hsame, Hxv. by apply decode_encode.
  - intros c' Hc' Hne. by rewrite Hoth.
  - intros c' Hc'. destruct (decide (c' = c)) as [->|]; [by rewrite Hsame|by rewrite Hoth].
Qed.

(** Storing a value: the entry holds it, the other entries and the reserved
    bits are kept. *)
Lemma write_fat_ok t f c v : ok f → fits t (data f) c → storable t v →
  ∃ f', write_fat t c v f = Ret (Ok tt, f') ∧ ok f' ∧ stored t (data f) (data f') c v.
Proof.
  destruct t; [apply write_fat12_ok|apply write_fat16_ok|apply write_fat32_ok].
Qed.
End widths.

(** ** Searching and counting free entries *)

Definition is_free (t : FatType) (l : list Z) (c : Z) : bool := raw t l c =? 0.

Lemma is_free_value t l c : is_free t l c = true ↔ value t l c = Free.
Proof. unfold is_free, value. rewrite decode_free. lia. Qed.

(** The least free cluster of [a, b). *)
Definition first_free (t : FatType) (l : list Z) (a b : Z) : option Z :=
  find_from (is_free t l) a (Z.to_nat (b - a)).

(** The free clusters of [a, b). *)
Definition free_clusters (t : FatType) (l : list Z) (a b : Z) : list Z :=
  filter (λ c, value t l c = Free) (seqZ a (b - a)).

Lemma first_free_step t l a b : a < b →
  first_free t l a b = if is_free t l a then Some a else first_free t l (a + 1) b.
Proof.
  intros. unfold first_free.
  replace (Z.to_nat (b - a)) with (Datatypes.S (Z.to_nat (b - (a + 1)))) by lia. done.
Qed.

Lemma first_free_end t l a b : b <= a → first_free t l a b = None.
Proof. intros. unfold first_free. by replace (Z.to_nat (b - a)) with O by lia. Qed.

Lemma free_clusters_step t l a b : a < b →
  free_clusters t l a b =
    (if is_free t l a then [a] else []) ++ free_clusters t l (a + 1) b.
Proof.
  intros. unfold free_clusters. rewrite seqZ_cons by lia. rewrite filter_cons.
  replace (Z.pred (b - a)) with (b - (a + 1)) by lia. change (Z.succ a) with (a + 1).
  pose proof (is_free_value t l a) as Hv. destruct (is_free t l a); case_decide as Hd; try done.
  - by destruct Hd; apply Hv.
  - by apply Hv in Hd.
Qed.

Lemma free_clusters_end t l a b : b <= a → free_clusters t l a b = [].
Proof. intros. unfold free_clusters. by rewrite seqZ_nil by lia. Qed.

Lemma free_clusters_length t l a b : a <= b → Z.of_nat (length (free_clusters t l a b)) <= b - a.
Proof.
  intros. unfold free_clusters. pose proof (length_filter (λ c, value t l c = Free) (seqZ a (b - a))).
  rewrite length_seqZ in *. lia.
Qed.

Definition found (o : option Z) : result Z :=
  match o with Some c => Ok c | None => Err ENotEnoughSpace end.

Section search.
Context {S : Type} {HS : Stream S} {SS : StreamSpec S}.
Implicit Types f : S.

Lemma same_refl f : ok f → same f f.
Proof. by split. Qed.

Lemma same_trans f1 f2 f3 : same f1 f2 → same f2 f3 → same f1 f3.
Proof. intros [? H1] [? H2]. split; [done|congruence]. Qed.

Lemma moved_same f f' p : moved f f' p → same f f'.
Proof. by intros (?&?&_). Qed.

Lemma wrap32_succ c b : 0 <= c < b → b <= cluster_limit → wrap32 (c + 1) = c + 1.
Proof. intros ? Hb. apply wrap_small. unfold word, cluster_limit in *. lia. Qed.

(** FAT16 and FAT32 read the entries one after the other. *)
Lemma F16_find_loop fuel c b f : ok f → pos f = c * 2 → 0 <= c <= b → b <= cluster_limit →
  (∀ c', c <= c' < b → fits Fat16 (data f) c') → b - c < Z.of_nat fuel →
  ∃ f', F16.find_free_loop fuel b c f = Ret (found (first_free Fat16 (data f) c b), f') ∧
        same f f'.
Proof.
  revert c f. induction fuel as [|fuel IH]; intros c f Hf Hp Hc Hb Hfit Hn; [lia|].
  cbn [F16.find_free_loop]. destruct (Z.ltb_spec c b).
  2:{ rewrite first_free_end by lia. exists f. split; [done|by apply same_refl]. }
  destruct (Hfit c ltac:(lia)) as [_ Hl]. cbn [entry_off entry_len] in Hl.
  destruct (read_u16_ok f Hf) as (f1&Hr&Hm); [lia|]. fstep Hr.
  rewrite first_free_step by lia. unfold is_free at 1, raw; cbn [entry_off entry_len].
  rewrite Hp. destruct (_ =? 0).
  { exists f1. split; [done|by eapply moved_same]. }
  destruct Hm as (H1&Hd1&Hp1). rewrite (wrap32_succ c b) by lia.
  destruct (IH (c + 1) f1) as (f2&Hr2&Hs2); [done|lia|lia|done|rewrite Hd1; intros; apply Hfit; lia|lia|].
  exists f2. rewrite Hr2, Hd1. split; [done|]. eapply same_trans; [|done]. by split.
Qed.

Lemma F32_find_loop fuel c b f : ok f → pos f = c * 4 → 0 <= c <= b → b <= cluster_limit →
  (∀ c', c <= c' < b → fits Fat32 (data f) c') → b - c < Z.of_nat fuel →
  ∃ f', F32.find_free_loop fuel b c f = Ret (found (first_free Fat32 (data f) c b), f') ∧
        same f f'.
Proof.
  revert c f. induction fuel as [|fuel IH]; intros c f Hf Hp Hc Hb Hfit Hn; [lia|].
  cbn [F32.find_free_loop]. destruct (Z.ltb_spec c b).
  2:{ rewrite first_free_end by lia. exists f. split; [done|by apply same_refl]. }
  destruct (Hfit c ltac:(lia)) as [_ Hl]. cbn [entry_off entry_len] in Hl.
  destruct (read_u32_ok f Hf) as (f1&Hr&Hm); [lia|]. fstep Hr.
  rewrite first_free_step by lia. unfold is_free at 1, raw; cbn [entry_off entry_len].
  rewrite Hp. destruct (_ =? 0).
  { exists f1. split; [done|by eapply moved_same]. }
  destruct Hm as (H1&Hd1&Hp1). rewrite (wrap32_succ c b) by lia.
  destruct (IH (c + 1) f1) as (f2&Hr2&Hs2); [done|lia|lia|done|rewrite Hd1; intros; apply Hfit; lia|lia|].
  exists f2. rewrite Hr2, Hd1. split; [done|]. eapply same_trans; [|done]. by split.
Qed.

(** FAT12 keeps the packed pair of the current entry. *)
Lemma F12_find_loop fuel c b f : ok f → pos f = c + c / 2 + 2 → 0 <= c < b → b <= cluster_limit →
  (∀ c', c <= c' < b → fits Fat12 (data f) c') → b - c <= Z.of_nat fuel →
  ∃ f', F12.find_free_loop fuel b c (le_at (c + c / 2) 2 (data f)) f
          = Ret (found (first_free Fat12 (data f) c b), f') ∧ same f f'.
Proof.
  revert c f. induction fuel as [|fuel IH]; intros c f Hf Hp Hc Hb Hfit Hn; [lia|].
  cbn [F12.find_free_loop]. rewrite first_free_step by lia.
  unfold is_free at 1, raw; cbn [entry_off entry_len]. destruct (_ =? 0).
  { exists f. split; [done|by apply same_refl]. }
  rewrite (wrap32_succ c b) by lia. destruct (Z.eqb_spec (c + 1) b) as [->|Hne].
  { rewrite first_free_end by lia. exists f. split; [done|by apply same_refl]. }
  destruct (Hfit (c + 1) ltac:(lia)) as [_ Hl]. cbn [entry_off entry_len] in Hl.
  rewrite even_spec. assert (∃ f1, (if (c + 1) mod 2 =? 0 then read_u16_le
      else next_byte ← read_u8;
           mret (Z.lor (Z.shiftr (le_at (c + c / 2) 2 (data f)) 8) (shl 16 next_byte 8))) f =
      Ret (Ok (le_at (c + 1 + (c + 1) / 2) 2 (data f)), f1) ∧
      moved f f1 (c + 1 + (c + 1) / 2 + 2)) as (f1&Hr&Hm).
  { destruct (mod2_cases (c + 1)) as [He|He]; rewrite He; cbn [Z.eqb].
    - destruct (read_u16_ok f Hf) as (f1&Hr&Hm); [dlia|]. exists f1.
      replace (c + 1 + (c + 1) / 2) with (pos f) by dlia. done.
    - destruct (read_u8_ok f Hf) as (f1&Hr&Hm); [dlia|]. exists f1. fstep Hr.
      split; [|by replace (c + 1 + (c + 1) / 2 + 2) with (pos f + 1) by dlia].
      pose proof (bytes_ok f Hf) as Hby. pose proof (pos_ok f Hf).
      assert (0 <= c + c / 2) by dlia.
      rewrite (le_at_2 (c + c / 2)), (le_at_2 (c + 1 + _)) by dlia.
      replace (c + 1 + (c + 1) / 2) with (c + c / 2 + 1) by dlia.
      rewrite Hp. replace (c + c / 2 + 1 + 1) with (c + c / 2 + 2) by lia.
      pose proof (byte_bound (c + c / 2) (data f) Hby ltac:(dlia) ltac:(dlia)).
      pose proof (byte_bound (c + c / 2 + 1) (data f) Hby ltac:(dlia) ltac:(dlia)).
      pose proof (byte_bound (c + c / 2 + 2) (data f) Hby ltac:(dlia) ltac:(dlia)).
      unfold shl. change (8 mod 16) with 8. rewrite Z.shiftl_mul_pow2, Z.shiftr_div_pow2 by lia.
      rewrite wrap_small by (unfold word; lia).
      change (2 ^ 8) with 256. rewrite (lor_low_comm _ _ 8) by dlia.
      change (2 ^ 8) with 256. unfold mret, FM_ret. do 3 f_equal. dlia. }
  fstep Hr. destruct Hm as (H1&Hd1&Hp1). rewrite <- Hd1.
  destruct (IH (c + 1) f1) as (f2&Hr2&Hs2); [done|lia|lia|done|rewrite Hd1; intros; apply Hfit; lia|lia|].
  exists f2. rewrite Hr2. split; [done|]. eapply same_trans; [|done]. by split.
Qed.

Lemma turns_enough a b : 0 <= a < b → b <= cluster_limit → Z.of_nat (turns a b) = b - a.
Proof.
  intros ? Hb. unfold turns. rewrite wrap_small; unfold word, cluster_limit in *; lia.
Qed.

(** [find_free_cluster] returns the least free cluster of the range. *)
Lemma find_free_cluster_ok t f a b : ok f → 0 <= a < b → b <= cluster_limit →
  (∀ c, a <= c < b → fits t (data f) c) →
  ∃ f', find_free_cluster t a b f = Ret (found (first_free t (data f) a b), f') ∧ same f f'.
Proof.
  intros Hf Hab Hb Hfit. pose proof (turns_enough a b Hab Hb) as Ht.
  destruct (fits_off _ _ _ (Hfit a ltac:(lia))) as (Hp&Hl&Hw).
  destruct t; unfold find_free_cluster; simpl; cbn [entry_off entry_len] in *.
  - unfold F12.find_free. rewrite Hw.
    destruct (seek_ok f (a + a / 2) Hf) as (f1&Hs&H1&Hd1&Hp1); [lia|]. fstep Hs.
    destruct (read_u16_ok f1 H1) as (f2&Hr&H2&Hd2&Hp2); [rewrite Hd1, Hp1; lia|]. fstep Hr.
    rewrite Hd1, Hp1 in *. rewrite <- Hd2.
    destruct (F12_find_loop (turns a b) a b f2) as (f'&Hr'&Hs');
      [done|done|lia|done|by rewrite Hd2|lia|].
    exists f'. split; [done|]. eapply same_trans; [|done]. by split.
  - unfold F16.find_free. rewrite Hw.
    destruct (seek_ok f (a * 2) Hf) as (f1&Hs&H1&Hd1&Hp1); [lia|]. fstep Hs. rewrite <- Hd1.
    destruct (F16_find_loop (turns a b + 1) a b f1) as (f'&Hr'&Hs');
      [done|done|lia|done|by rewrite Hd1|lia|].
    exists f'. split; [done|]. eapply same_trans; [|done]. by split.
  - unfold F32.find_free. rewrite Hw.
    destruct (seek_ok f (a * 4) Hf) as (f1&Hs&H1&Hd1&Hp1); [lia|]. fstep Hs. rewrite <- Hd1.
    destruct (F32_find_loop (turns a b + 1) a b f1) as (f'&Hr'&Hs');
      [done|done|lia|done|by rewrite Hd1|lia|].
    exists f'. split; [done|]. eapply same_trans; [|done]. by split.
Qed.
Lemma count_step t l c b cnt : 0 <= cnt → c < b → cnt + (b - c) <= cluster_limit →
  let cnt' := if is_free t l c then wrap32 (cnt + 1) else cnt in
  0 <= cnt' ∧ cnt' + (b - (c + 1)) <= cluster_limit ∧
  cnt + Z.of_nat (length (free_clusters t l c b)) =
    cnt' + Z.of_nat (length (free_clusters t l (c + 1) b)).
Proof.
  intros Hcnt Hc Hb. rewrite free_clusters_step, length_app by done.
  destruct (is_free t l c); cbn [length]; [|lia].
  rewrite wrap_small by (unfold word, cluster_limit in *; lia). lia.
Qed.

Lemma F16_count_loop fuel c b cnt f : ok f → pos f = c * 2 → 0 <= c <= b → 0 <= cnt →
  b <= cluster_limit → cnt + (b - c) <= cluster_limit →
  (∀ c', c <= c' < b → fits Fat16 (data f) c') → b - c < Z.of_nat fuel →
  ∃ f', F16.count_free_loop fuel b c cnt f
          = Ret (Ok (cnt + Z.of_nat (length (free_clusters Fat16 (data f) c b))), f') ∧ same f f'.
Proof.
  revert c cnt f. induction fuel as [|fuel IH]; intros c cnt f Hf Hp Hc Hcnt Hb Hcb Hfit Hn; [lia|].
  cbn [F16.count_free_loop]. destruct (Z.ltb_spec c b).
  2:{ rewrite free_clusters_end by lia. exists f. rewrite Z.add_0_r. split; [done|by apply same_refl]. }
  destruct (Hfit c ltac:(lia)) as [_ Hl]. cbn [entry_off entry_len] in Hl.
  destruct (read_u16_ok f Hf) as (f1&Hr&H1&Hd1&Hp1); [lia|]. fstep Hr. rewrite Hp.
  destruct (count_step Fat16 (data f) c b cnt) as (Hc1&Hc2&Hc3); [done|lia|done|].
  unfold is_free in Hc1, Hc2, Hc3. unfold raw in Hc1, Hc2, Hc3. cbn [entry_off entry_len] in *.
  rewrite Hc3, (wrap32_succ c b) by lia.
  edestruct (IH (c + 1)) as (f2&Hr2&Hs2); [done|lia|lia|exact Hc1|done|exact Hc2| | |].
  { rewrite Hd1. intros. apply Hfit. lia. } { lia. }
  rewrite Hd1 in Hr2. exists f2. rewrite Hr2. split; [done|]. eapply same_trans; [|done]. by split.
Qed.

Lemma F32_count_loop fuel c b cnt f : ok f → pos f = c * 4 → 0 <= c <= b → 0 <= cnt →
  b <= cluster_limit → cnt + (b - c) <= cluster_limit →
  (∀ c', c <= c' < b → fits Fat32 (data f) c') → b - c < Z.of_nat fuel →
  ∃ f', F32.count_free_loop fuel b c cnt f
          = Ret (Ok (cnt + Z.of_nat (length (free_clusters Fat32 (data f) c b))), f') ∧ same f f'.
Proof.
  revert c cnt f. induction fuel as [|fuel IH]; intros c cnt f Hf Hp Hc Hcnt Hb Hcb Hfit Hn; [lia|].
  cbn [F32.count_free_loop]. destruct (Z.ltb_spec c b).
  2:{ rewrite free_clusters_end by lia. exists f. rewrite Z.add_0_r. split; [done|by apply same_refl]. }
  destruct (Hfit c ltac:(lia)) as [_ Hl]. cbn [entry_off entry_len] in Hl.
  destruct (read_u32_ok f Hf) as (f1&Hr&H1&Hd1&Hp1); [lia|]. fstep Hr. rewrite Hp.
  destruct (count_step Fat32 (data f) c b cnt) as (Hc1&Hc2&Hc3); [done|lia|done|].
  unfold is_free in Hc1, Hc2, Hc3. unfold raw in Hc1, Hc2, Hc3. cbn [entry_off entry_len] in *.
  rewrite Hc3, (wrap32_succ c b) by lia.
  edestruct (IH (c + 1)) as (f2&Hr2&Hs2); [done|lia|lia|exact Hc1|done|exact Hc2| | |].
  { rewrite Hd1. intros. apply Hfit. lia. } { lia. }
  rewrite Hd1 in Hr2. exists f2. rewrite Hr2. split; [done|]. eapply same_trans; [|done]. by split.
Qed.

(** An odd entry of FAT12 is zero exactly when the value [count_free]
    computes from the two packed halves is. *)
Lemma count12_odd l c : Forall (word 8) l → fits Fat12 l c → c mod 2 = 1 →
  (Z.lor (shl 16 (le_at (c + c / 2 + 1) 1 l) 8)
         (Z.shiftr (le_at (c - 1 + (c - 1) / 2) 2 l) 12) =? 0) = is_free Fat12 l c.
Proof.
  intros Hl Hc He. pose proof Hc as [Hc0 Hf]. cbn [entry_off entry_len] in Hf.
  unfold is_free. rewrite raw12_odd by done.
  replace (c - 1 + (c - 1) / 2) with (c + c / 2 - 1) by dlia.
  rewrite le_at_2 by dlia. replace (c + c / 2 - 1 + 1) with (c + c / 2) by lia.
  pose proof (byte_bound (c + c / 2 - 1) l Hl ltac:(dlia) ltac:(dlia)).
  pose proof (byte_bound (c + c / 2) l Hl ltac:(dlia) ltac:(dlia)).
  pose proof (byte_bound (c + c / 2 + 1) l Hl ltac:(dlia) ltac:(dlia)).
  unfold shl. change (8 mod 16) with 8. rewrite Z.shiftl_mul_pow2, Z.shiftr_div_pow2 by lia.
  rewrite wrap_small by (unfold word; lia). change (2 ^ 12) with 4096.
  rewrite lor_low by dlia. change (2 ^ 8) with 256.
  apply eq_bool_prop_intro. rewrite !Is_true_true, !Z.eqb_eq. dlia.
Qed.

Lemma F12_count_loop fuel c b prev cnt f : ok f → 
  pos f = c + c / 2 + c mod 2 → (c mod 2 = 1 → prev = le_at (c - 1 + (c - 1) / 2) 2 (data f)) →
  0 <= c <= b → 0 <= cnt → b <= cluster_limit → cnt + (b - c) <= cluster_limit →
  (∀ c', c <= c' < b → fits Fat12 (data f) c') → b - c < Z.of_nat fuel →
  ∃ f', F12.count_free_loop fuel b c prev cnt f
          = Ret (Ok (cnt + Z.of_nat (length (free_clusters Fat12 (data f) c b))), f') ∧ same f f'.
Proof.
  revert c prev cnt f. induction fuel as [|fuel IH];
    intros c prev cnt f Hf Hp Hprev Hc Hcnt Hb Hcb Hfit Hn; [lia|].
  cbn [F12.count_free_loop]. destruct (Z.ltb_spec c b).
  2:{ rewrite free_clusters_end by lia. exists f. rewrite Z.add_0_r. split; [done|by apply same_refl]. }
  pose proof (Hfit c ltac:(lia)) as Hfc. pose proof Hfc as [_ Hl]. cbn [entry_off entry_len] in Hl.
  rewrite even_spec. destruct (count_step Fat12 (data f) c b cnt) as (Hc1&Hc2&Hc3); [done|lia|done|].
  set (n := if c mod 2 =? 0 then 2 else 1).
  assert (∃ f1, (if c mod 2 =? 0 then read_u16_le else read_u8) f =
      Ret (Ok (le_at (c + c / 2 + c mod 2) n (data f)), f1) ∧ moved f f1 (c + c / 2 + c mod 2 + n))
    as (f1&Hr&H1&Hd1&Hp1).
  { unfold n. rewrite <- Hp. destruct (mod2_cases c) as [He|He]; rewrite He; cbn [Z.eqb].
    - by apply read_u16_ok; [|dlia].
    - by apply read_u8_ok; [|dlia]. }
  fstep Hr. rewrite (wrap32_succ c b), Hc3 by lia.
  assert (((if c mod 2 =? 0 then Z.land (le_at (c + c / 2 + c mod 2) n (data f)) 0x0FFF
            else Z.lor (shl 16 (le_at (c + c / 2 + c mod 2) n (data f)) 8) (Z.shiftr prev 12)) =? 0)
          = is_free Fat12 (data f) c) as Hv.
  { unfold n. destruct (mod2_cases c) as [He|He]; rewrite He; cbn [Z.eqb].
    - unfold is_free, raw; cbn [entry_off entry_len]. rewrite entry12_even by done.
      replace (c + c / 2 + 0) with (c + c / 2) by lia.
      change 0x0FFF with (Z.ones 12). by rewrite Z.land_ones by lia.
    - rewrite Hprev by done. apply count12_odd; [by apply bytes_ok|done|done]. }
  rewrite Hv.
  set (cnt' := if is_free Fat12 (data f) c then wrap32 (cnt + 1) else cnt) in *.
  destruct (IH (c + 1) (le_at (c + c / 2 + c mod 2) n (data f)) cnt' f1) as (f2&Hr2&Hs2);
    [done| | |lia|exact Hc1|done|exact Hc2| | |].
  { rewrite Hp1. unfold n. destruct (mod2_cases c) as [He|He]; rewrite He; cbn [Z.eqb]; dlia. }
  { intros He. rewrite Hd1. assert (c mod 2 = 0) as He' by dlia. unfold n. rewrite He', Z.add_0_r.
    cbn [Z.eqb]. by replace (c + 1 - 1) with c by lia. }
  { rewrite Hd1. intros. apply Hfit. lia. } { lia. }
  rewrite Hd1 in Hr2. exists f2. rewrite Hr2. split; [done|]. eapply same_trans; [|done]. by split.
Qed.
End search.

(** ** Allocation *)

(** A table with room for the entries of [total] clusters. *)
Definition table (t : FatType) (total : Z) (l : list Z) : Prop :=
  1 <= total <= max_clusters t ∧ ∀ c, 2 <= c < total + 2 → fits t l c.

Definition data_cluster (total c : Z) : Prop := 2 <= c < total + 2.

Lemma table_end t total l : table t total l →
  wrap32 (total + RESERVED_FAT_ENTRIES) = total + 2 ∧ total + 2 <= cluster_limit ∧
  total + 2 < bad_value t.
Proof.
  intros [Ht _]. unfold RESERVED_FAT_ENTRIES, cluster_limit.
  rewrite wrap_small; destruct t; unfold word, max_clusters, FAT16_MIN_CLUSTERS,
    FAT32_MIN_CLUSTERS, FAT32_MAX_CLUSTERS in *; cbn [bad_value]; lia.
Qed.

Lemma first_free_Some t l a b c : first_free t l a b = Some c →
  a <= c < b ∧ value t l c = Free ∧ ∀ j, a <= j < c → value t l j ≠ Free.
Proof.
  unfold first_free. intros (Hc&Hv&Hj)%find_from_Some. split; [lia|].
  split; [by apply is_free_value|]. intros j Hja Hf. apply is_free_value in Hf.
  by rewrite Hj in Hf.
Qed.

Lemma first_free_None t l a b : first_free t l a b = None →
  ∀ j, a <= j < b → value t l j ≠ Free.
Proof.
  unfold first_free. intros H j Hj Hf. apply is_free_value in Hf.
  rewrite (find_from_None _ _ _ H) in Hf by lia. done.
Qed.

(** The cluster [alloc_cluster] looks for: the first free one from the hint,
    else the first free one before it. *)
Definition next_free (t : FatType) (l : list Z) (hint : option Z) (total : Z) : option Z :=
  let start := match hint with Some h => if h <? total + 2 then h else 2 | None => 2 end in
  match first_free t l start (total + 2) with
  | Some c => Some c
  | None => first_free t l 2 start
  end.

Lemma next_free_Some t l hint total c :
  (∀ h, hint = Some h → 2 <= h) → next_free t l hint total = Some c →
  data_cluster total c ∧ value t l c = Free.
Proof.
  unfold next_free, data_cluster. intros Hh.
  assert (2 <= match hint with Some h => if h <? total + 2 then h else 2 | None => 2 end) as Hs.
  { destruct hint as [h|]; [|done]. specialize (Hh h eq_refl). zcases. }
  assert (match hint with Some h => if h <? total + 2 then h else 2 | None => 2 end
          <= Z.max 2 (total + 2)) as Hs'.
  { destruct hint as [h|]; [|lia]. zcases. }
  revert Hs Hs'. generalize (match hint with Some h => if h <? total + 2 then h else 2 | None => 2 end).
  intros s Hs Hs'. destruct (first_free t l s (total + 2)) as [c'|] eqn:E.
  - intros [= ->]. apply first_free_Some in E as (?&?&_). split; [lia|done].
  - intros (?&?&_)%first_free_Some. split; [lia|done].
Qed.

Lemma next_free_None t l hint total :
  next_free t l hint total = None → ∀ c, data_cluster total c → value t l c ≠ Free.
Proof.
  unfold next_free, data_cluster.
  generalize (match hint with Some h => if h <? total + 2 then h else 2 | None => 2 end).
  intros s. destruct (first_free t l s (total + 2)) eqn:E; [done|]. intros E2 c Hc.
  destruct (decide (s <= c)).
  - apply (first_free_None _ _ _ _ E). lia.
  - apply (first_free_None _ _ _ _ E2). lia.
Qed.

Section alloc.
Context {S : Type} {HS : Stream S} {SS : StreamSpec S}.
Implicit Types f : S.

Lemma alloc_search_ok t f hint total : ok f → table t total (data f) →
  (∀ h, hint = Some h → 2 <= h) →
  let start := match hint with Some h => if h <? total + 2 then h else 2 | None => 2 end in
  ∃ f', catch (find_free_cluster t start (total + 2)) (λ e,
          if 2 <? start then find_free_cluster t 2 start else fail e) f
        = Ret (found (next_free t (data f) hint total), f') ∧ same f f'.
Proof.
  intros Hf Ht Hh start. destruct (table_end _ _ _ Ht) as (_&Hlim&_). destruct Ht as [Htot Hfit].
  assert (2 <= start < total + 2) as Hs.
  { unfold start. destruct hint as [h|]; [|lia]. specialize (Hh h eq_refl). zcases. }
  unfold next_free. fold start. clearbody start. unfold catch.
  destruct (find_free_cluster_ok t f start (total + 2) Hf) as (f1&Hr1&Hs1); [lia|done|..].
  { intros. apply Hfit. lia. }
  rewrite Hr1. destruct (first_free t (data f) start (total + 2)) as [c|]; cbn [found].
  { by exists f1. }
  destruct (Z.ltb_spec 2 start).
  - destruct Hs1 as [H1 Hd1].
    destruct (find_free_cluster_ok t f1 2 start H1) as (f2&Hr2&Hs2); [lia|lia|..].
    { intros. rewrite Hd1. apply Hfit. lia. }
    exists f2. rewrite Hr2, Hd1. split; [done|]. eapply same_trans; [|done]. by split.
  - exists f1. by rewrite first_free_end by lia.
Qed.

(** The effect of [alloc_cluster]: the new cluster ends a chain, the previous
    one leads to it, the other entries are kept. *)
Lemma alloc_cluster_ok t f prev hint total : ok f → table t total (data f) →
  (∀ h, hint = Some h → 2 <= h) →
  (∀ p, prev = Some p → data_cluster total p ∧ value t (data f) p ≠ Free) →
  ∃ f', ok f' ∧ len (data f') = len (data f) ∧
    match next_free t (data f) hint total with
    | Some c =>
        alloc_cluster t prev hint total f = Ret (Ok c, f') ∧
        value t (data f') c = EndOfChain ∧
        (∀ p, prev = Some p → value t (data f') p = Data c) ∧
        (∀ c', fits t (data f) c' → c' ≠ c → prev ≠ Some c' →
           value t (data f') c' = value t (data f) c')
    | None =>
        alloc_cluster t prev hint total f = Ret (Err ENotEnoughSpace, f') ∧
        data f' = data f
    end.
Proof.
  intros Hf Ht Hh Hprev. destruct (table_end _ _ _ Ht) as (Hend&Hlim&Hbad).
  destruct (alloc_search_ok t f hint total Hf Ht Hh) as (f1&Hr1&H1&Hd1).
  unfold alloc_cluster. rewrite Hend. unfold RESERVED_FAT_ENTRIES.
  destruct (next_free t (data f) hint total) as [c|] eqn:Hnf.
  2:{ exists f1. split; [done|]. split; [by rewrite Hd1|]. split; [|done].
      by rewrite (FM_step_err _ _ _ _ _ Hr1). }
  destruct (next_free_Some _ _ _ _ _ Hh Hnf) as [Hc Hfree]. unfold data_cluster in Hc.
  destruct Ht as [Htot Hfit]. fstep Hr1. rewrite <- Hd1 in Hfit, Hfree.
  destruct (write_fat_ok t f1 c EndOfChain H1 (Hfit _ Hc) I) as (f2&Hr2&H2&Hl2&Hv2&Hk2&_).
  fstep Hr2. destruct prev as [p|].
  - destruct (Hprev p eq_refl) as [Hp Hpv]. rewrite <- Hd1 in Hpv.
    destruct (write_fat_ok t f2 p (Data c) H2) as (f3&Hr3&H3&Hl3&Hv3&Hk3&_).
    { unfold fits. rewrite Hl2. by apply Hfit. } { cbn [storable]. lia. }
    fstep Hr3. exists f3. split; [done|]. split; [by rewrite Hl3, Hl2, Hd1|].
    assert (∀ c', fits t (data f1) c' → fits t (data f2) c') as Hff by (intros c'; unfold fits; by rewrite Hl2).
    split; [done|]. split; [|split].
    + rewrite Hk3; [done|by apply Hff, Hfit|]. intros ->. by rewrite Hfree in Hpv.
    + by intros p' [= <-].
    + intros c' Hc' Hne Hnp. rewrite <- Hd1 in Hc' |- *. rewrite Hk3; [by apply Hk2|by apply Hff|].
      intros ->. done.
  - exists f2. split; [done|]. split; [by rewrite Hl2, Hd1|]. split; [done|]. split; [done|].
    split; [done|]. intros c' Hc' Hne _. rewrite <- Hd1 in Hc' |- *. by apply Hk2.
Qed.

Lemma count_free_clusters_ok t f total : ok f → table t total (data f) →
  ∃ f', count_free_clusters t total f
          = Ret (Ok (Z.of_nat (length (free_clusters t (data f) 2 (total + 2)))), f') ∧ same f f'.
Proof.
  intros Hf Ht. destruct (table_end _ _ _ Ht) as (Hend&Hlim&Hbad).
  destruct Ht as [Htot Hfit]. pose proof (turns_enough 2 (total + 2) ltac:(lia) Hlim) as Hturns.
  destruct (fits_off _ _ _ (Hfit 2 ltac:(lia))) as (Hp&Hl&Hw).
  unfold count_free_clusters. rewrite Hend. unfold RESERVED_FAT_ENTRIES in *.
  destruct t; simpl; cbn [entry_off entry_len] in *.
  - unfold F12.count_free, RESERVED_FAT_ENTRIES. change (wrap32 (2 * 3) / 2) with 3.
    destruct (seek_ok f 3 Hf) as (f1&Hs&H1&Hd1&Hp1); [change (2 + 2 / 2) with 3 in *; lia|].
    fstep Hs. rewrite <- Hd1.
    destruct (F12_count_loop (turns 2 (total + 2) + 1) 2 (total + 2) 0 0 f1) as (f'&Hr'&Hs');
      [done|done|done|lia|lia|lia|lia|by rewrite Hd1|lia|].
    exists f'. split; [done|]. eapply same_trans; [|done]. by split.
  - unfold F16.count_free, RESERVED_FAT_ENTRIES. rewrite Hw.
    destruct (seek_ok f (2 * 2) Hf) as (f1&Hs&H1&Hd1&Hp1); [lia|]. fstep Hs. rewrite <- Hd1.
    destruct (F16_count_loop (turns 2 (total + 2) + 1) 2 (total + 2) 0 f1) as (f'&Hr'&Hs');
      [done|done|lia|lia|lia|lia|by rewrite Hd1|lia|].
    exists f'. split; [done|]. eapply same_trans; [|done]. by split.
  - unfold F32.count_free, RESERVED_FAT_ENTRIES. rewrite Hw.
    destruct (seek_ok f (2 * 4) Hf) as (f1&Hs&H1&Hd1&Hp1); [lia|]. fstep Hs. rewrite <- Hd1.
    destruct (F32_count_loop (turns 2 (total + 2) + 1) 2 (total + 2) 0 f1) as (f'&Hr'&Hs');
      [done|done|lia|lia|lia|lia|by rewrite Hd1|lia|].
    exists f'. split; [done|]. eapply same_trans; [|done]. by split.
Qed.
End alloc.

(** ** Cluster chains *)

Inductive chain (t : FatType) (l : list Z) : Z → list Z → Prop :=
| chain_end c : fits t l c → (∀ n, value t l c ≠ Data n) → chain t l c [c]
| chain_next c n cs : fits t l c → value t l c = Data n → chain t l n cs →
    chain t l c (c :: cs).

Lemma chain_head t l c cs : chain t l c cs → ∃ cs', cs = c :: cs'.
Proof. inversion 1; eauto. Qed.

Lemma chain_det t l c cs1 cs2 : chain t l c cs1 → chain t l c cs2 → cs1 = cs2.
Proof.
  intros H. revert cs2. induction H as [c Hc Hv|c n cs Hc Hv Hn IH]; intros cs2 H2.
  - inversion H2; subst; [done|]. by destruct (Hv n).
  - inversion H2 as [c' _ Hv'|c' n' cs' _ Hv' Hn']; subst; [by destruct (Hv' n)|].
    rewrite Hv in Hv'. injection Hv' as <-. f_equal. by apply IH.
Qed.

(** Every cluster of a chain starts a suffix of it. *)
Lemma chain_suffix t l c cs x : chain t l c cs → x ∈ cs →
  ∃ cs1 cs2, cs = cs1 ++ cs2 ∧ chain t l x cs2.
Proof.
  induction 1 as [c Hc Hv|c n cs Hc Hv Hn IH]; intros Hx.
  - apply list_elem_of_singleton in Hx as ->. exists [], [c]. split; [done|]. by apply chain_end.
  - apply elem_of_cons in Hx as [->|Hx].
    + exists [], (c :: cs). split; [done|]. by eapply chain_next.
    + destruct (IH Hx) as (cs1&cs2&->&Hch). by exists (c :: cs1), cs2.
Qed.

(** A chain that ends has no repeated cluster. *)
Lemma chain_NoDup t l c cs : chain t l c cs → NoDup cs.
Proof.
  induction 1 as [c Hc Hv|c n cs Hc Hv Hn IH]; [apply NoDup_singleton|].
  apply list.NoDup_cons. split; [|done]. intros Hin.
  destruct (chain_suffix _ _ _ _ _ Hn Hin) as (cs1&cs2&->&Hc2).
  assert (cs2 = c :: cs1 ++ cs2) as Heq.
  { eapply chain_det; [done|]. by eapply chain_next. }
  apply (f_equal length) in Heq. simpl in Heq. rewrite length_app in Heq. lia.
Qed.

Lemma chain_fits t l c cs x : chain t l c cs → x ∈ cs → fits t l x.
Proof.
  intros Hc Hx. destruct (chain_suffix _ _ _ _ _ Hc Hx) as (?&?&_&Hch). by inversion Hch.
Qed.

(** A chain depends only on its own entries. *)
Lemma chain_frame t l l' c cs : chain t l c cs → len l' = len l →
  (∀ x, x ∈ cs → value t l' x = value t l x) → chain t l' c cs.
Proof.
  intros Hch Hl. induction Hch as [c Hc Hv|c n cs Hc Hv Hn IH]; intros Hs.
  - apply chain_end; [unfold fits; by rewrite Hl|]. intros n. rewrite Hs; [done|set_solver].
  - eapply chain_next; [unfold fits; by rewrite Hl| |apply IH; set_solver].
    rewrite Hs; [done|set_solver].
Qed.

(** The table after the clusters [cs] were freed. *)
Definition freed (t : FatType) (l l' : list Z) (cs : list Z) : Prop :=
  len l' = len l ∧ (∀ x, x ∈ cs → value t l' x = Free) ∧
  (∀ x, fits t l x → x ∉ cs → value t l' x = value t l x).

Section chains.
Context {S : Type} {HS : Stream S} {SS : StreamSpec S}.
Implicit Types it : ClusterIterator S.

Lemma next_ok t f c : ok f → fits t (data f) c →
  ∃ f', next (mkIter f t (Some c) false)
          = Ret (Ok (match value t (data f) c with Data n => Some (Ok n) | _ => None end),
                 mkIter f' t (match value t (data f) c with Data n => Some n | _ => None end) false)
        ∧ same f f'.
Proof.
  intros Hf Hc. destruct (read_fat_ok t f c Hf Hc) as (f'&Hr&Hs). exists f'.
  unfold next, get_next_cluster; cbn [err cluster fat_type fat].
  rewrite (FM_step _ _ _ _ _ Hr). unfold mret, FM_ret. by destruct (value t (data f) c).
Qed.

(** A turn of [free], and the head of [truncate]. *)
Lemma next_write_ok {A} t f c v (k : FM (ClusterIterator S) A) :
  ok f → fits t (data f) c → storable t v →
  ∃ f', (_ ← next; _ ← on_fat (write_fat t c v); k) (mkIter f t (Some c) false)
          = k (mkIter f' t (match value t (data f) c with Data n => Some n | _ => None end) false)
        ∧ ok f' ∧ stored t (data f) (data f') c v.
Proof.
  intros Hf Hc Hv. destruct (next_ok t f c Hf Hc) as (f1&Hn&H1&Hd1). fstep Hn.
  rewrite <- Hd1 in Hc. destruct (write_fat_ok t f1 c v H1 Hc Hv) as (f2&Hw&H2&Hst).
  exists f2. unfold mbind, FM_bind, on_fat; cbn [fat fat_type cluster err]. rewrite Hw.
  by rewrite <- Hd1.
Qed.

Lemma free_loop_ok t c cs fuel k f : ok f → chain t (data f) c cs →
  (length cs < fuel)%nat → 0 <= k → k + Z.of_nat (length cs) < 2 ^ 32 →
  ∃ f', free_loop fuel k (mkIter f t (Some c) false)
          = Ret (Ok (k + Z.of_nat (length cs)), mkIter f' t None false) ∧
        ok f' ∧ freed t (data f) (data f') cs.
Proof.
  revert c cs k f. induction fuel as [|fuel IH]; intros c cs k f Hf Hch Hn Hk Hov; [lia|].
  cbn [free_loop cluster fat_type]. pose proof (chain_NoDup _ _ _ _ Hch) as Hnd.
  assert (length cs ≠ 0%nat) as Hne by (destruct (chain_head _ _ _ _ Hch) as [? ->]; done).
  assert (fits t (data f) c) as Hc by (by inversion Hch).
  destruct (next_write_ok t f c Free (free_loop fuel (wrap32 (k + 1))) Hf Hc I)
    as (f1&Hr1&H1&Hl1&Hv1&Hk1&_).
  rewrite Hr1, wrap_small by (unfold word; lia).
  inversion Hch as [c' _ Hv|c' n cs' _ Hv Hn']; subst.
  - exists f1. split; [|split; [done|split; [done|split]]].
    2:{ by intros x ->%list_elem_of_singleton. } 2:{ intros x Hx Hnx. apply Hk1; [done|set_solver]. }
    destruct (value t (data f) c) as [|m| |]; [|by destruct (Hv m)| |];
      (destruct fuel; [simpl in *; lia|done]).
  - rewrite Hv. apply list.NoDup_cons in Hnd as [Hnin Hnd].
    destruct (IH n cs' (k + 1) f1) as (f2&Hr2&H2&Hl2&Hv2&Hk2);
      [done| |simpl in *; lia|lia|simpl in *; lia|].
    { eapply chain_frame; [done|done|]. intros x Hx. apply Hk1; [by eapply chain_fits|set_solver]. }
    exists f2. rewrite Hr2. split; [do 3 f_equal; simpl; lia|]. split; [done|].
    split; [congruence|]. split.
    + intros x [->|Hx]%elem_of_cons; [|by apply Hv2].
      rewrite Hk2; [done| |done]. unfold fits. rewrite Hl1. done.
    + intros x Hx Hnin'. rewrite Hk2; [|unfold fits; by rewrite Hl1|set_solver].
      apply Hk1; [done|set_solver].
Qed.
End chains.

(** ** Counting what an allocation takes *)

Lemma free_clusters_elem t l a b c :
  c ∈ free_clusters t l a b ↔ a <= c < b ∧ value t l c = Free.
Proof.
  unfold free_clusters. rewrite list_elem_of_filter, elem_of_seqZ. split; intros [? ?]; split; done || lia.
Qed.

Lemma free_clusters_NoDup t l a b : NoDup (free_clusters t l a b).
Proof. apply list.NoDup_filter, NoDup_seqZ. Qed.

(** One free cluster less. *)
Lemma free_clusters_take t l l' a b c : c ∈ free_clusters t l a b →
  (∀ x, x ∈ free_clusters t l' a b ↔ x ∈ free_clusters t l a b ∧ x ≠ c) →
  length (free_clusters t l a b) = Datatypes.S (length (free_clusters t l' a b)).
Proof.
  intros Hc Hx. assert (free_clusters t l a b ≡ₚ c :: free_clusters t l' a b) as ->; [|done].
  apply list.NoDup_Permutation; [apply free_clusters_NoDup| |].
  - apply list.NoDup_cons. split; [rewrite Hx; naive_solver|apply free_clusters_NoDup].
  - intros x. rewrite elem_of_cons, Hx. destruct (decide (x = c)); naive_solver.
Qed.

(** Clusters more that are free. *)
Lemma free_clusters_more t l l' cs a b : NoDup cs →
  (∀ x, x ∈ cs → a <= x < b ∧ value t l x ≠ Free ∧ value t l' x = Free) →
  (∀ x, a <= x < b → x ∉ cs → value t l' x = Free ↔ value t l x = Free) →
  length (free_clusters t l' a b) = (length cs + length (free_clusters t l a b))%nat.
Proof.
  intros Hnd Hcs Hout. rewrite <- length_app. apply Permutation_length.
  apply list.NoDup_Permutation; [apply free_clusters_NoDup| |].
  - apply list.NoDup_app. split; [done|]. split; [|apply free_clusters_NoDup].
    intros x Hx Hf. apply free_clusters_elem in Hf as [_ Hf]. by apply (Hcs x Hx).
  - intros x. rewrite elem_of_app, !free_clusters_elem. destruct (decide (x ∈ cs)) as [Hx|Hx].
    + destruct (Hcs x Hx) as (?&?&?). naive_solver.
    + split; [intros [Hr Hf]; right; split; [done|by apply Hout]|intros [|[Hr Hf]]; [done|split; [done|by apply Hout]]].
Qed.

(** The clusters of a chain are free after it was freed. *)
Lemma freed_count t l l' cs a b : freed t l l' cs → NoDup cs →
  (∀ x, x ∈ cs → a <= x < b ∧ value t l x ≠ Free) → (∀ c, a <= c < b → fits t l c) →
  length (free_clusters t l' a b) = (length cs + length (free_clusters t l a b))%nat.
Proof.
  intros (Hl&Hin&Hout) Hnd Hcs Hfit. apply free_clusters_more; [done| |].
  - intros x Hx. destruct (Hcs x Hx). auto.
  - intros x Hx Hn. by rewrite Hout by auto.
Qed.

(** *** Chains freed and cut *)

Section chains.
Context {S : Type} {HS : Stream S} {SS : StreamSpec S}.
Lemma free_ok t (f : S) c cs total fuel : ok f → table t total (data f) →
  chain t (data f) c cs → (∀ x, x ∈ cs → data_cluster total x ∧ value t (data f) x ≠ Free) →
  (length cs < fuel)%nat →
  ∃ f', free fuel (iter_new f t c) = Ret (Ok (Z.of_nat (length cs)), mkIter f' t None false) ∧
    ok f' ∧ freed t (data f) (data f') cs ∧
    length (free_clusters t (data f') 2 (total + 2))
      = (length cs + length (free_clusters t (data f) 2 (total + 2)))%nat.
Proof.
  intros Hf Ht Hch Hcs Hfuel. pose proof (chain_NoDup _ _ _ _ Hch) as Hnd.
  destruct (table_end _ _ _ Ht) as (_&Hlim&_).
  assert (Z.of_nat (length cs) <= total) as Hlen.
  { assert (length cs <= length (seqZ 2 total))%nat as H; [|rewrite length_seqZ in H; destruct Ht; lia].
    apply submseteq_length, list.NoDup_submseteq; [done|]. intros x Hx.
    apply elem_of_seqZ. destruct (Hcs x Hx) as [[? ?] _]. lia. }
  destruct (free_loop_ok t c cs fuel 0 f Hf Hch Hfuel) as (f'&Hr&Hf'&Hfr);
    [lia|unfold cluster_limit in *; lia|].
  exists f'. split; [done|]. split; [done|]. split; [done|].
  apply freed_count; [done|done|done|]. apply Ht.
Qed.

Lemma truncate_ok t (f : S) c cs fuel : ok f →
  chain t (data f) c (c :: cs) → (length cs < fuel)%nat → Z.of_nat (length cs) < 2 ^ 32 →
  ∃ f', truncate fuel (iter_new f t c) = Ret (Ok (Z.of_nat (length cs)), mkIter f' t None false) ∧
    ok f' ∧ len (data f') = len (data f) ∧
    value t (data f') c = EndOfChain ∧ (∀ x, x ∈ cs → value t (data f') x = Free) ∧
    (∀ x, fits t (data f) x → x ≠ c → x ∉ cs → value t (data f') x = value t (data f) x) ∧
    chain t (data f') c [c].
Proof.
  intros Hf Hch Hfuel Hov. pose proof (chain_NoDup _ _ _ _ Hch) as [Hnin Hnd]%list.NoDup_cons.
  assert (fits t (data f) c) as Hc by (by inversion Hch).
  destruct (next_write_ok t f c EndOfChain (free fuel) Hf Hc I) as (f1&Hr1&H1&Hl1&Hv1&Hk1&_).
  unfold truncate, iter_new; cbn [cluster fat_type]. rewrite Hr1.
  assert (∀ y, fits t (data f) y → fits t (data f1) y) as Hff by (unfold fits; by rewrite Hl1).
  inversion Hch as [c' _ Hv|c' n cs' _ Hv Hn']; subst.
  - exists f1. split; [|split; [done|]].
    { destruct (value t (data f) c) as [|m| |]; [|by destruct (Hv m)| |];
        (destruct fuel; [simpl in *; lia|done]). }
    split; [done|]. split; [done|]. split; [set_solver|]. split; [by intros; apply Hk1|].
    apply chain_end; [by apply Hff|]. by rewrite Hv1.
  - rewrite Hv. assert (chain t (data f1) n cs) as Hn1.
    { eapply chain_frame; [done|done|]. intros x Hx. apply Hk1; [by eapply chain_fits|set_solver]. }
    destruct (free_loop_ok t n cs fuel 0 f1 H1 Hn1 Hfuel) as (f2&Hr2&H2&Hl2&Hv2&Hk2); [lia|done|].
    assert (value t (data f2) c = EndOfChain) as Hvc by (rewrite Hk2 by auto; done).
    exists f2. unfold free. rewrite Hr2. split; [done|]. split; [done|]. split; [congruence|].
    split; [done|]. split; [done|]. split.
    + intros x Hx Hne Hnin'. rewrite Hk2 by auto. by apply Hk1.
    + apply chain_end; [|by rewrite Hvc]. unfold fits. by rewrite Hl2, Hl1.
Qed.
End chains.

(** ** Theorems *)

Section claims.
Context {S : Type} {HS : Stream S} {SS : StreamSpec S}.

(** C22. Storing a value in an entry and reading any entry back, in a table of
    12, 16 or 32 bits: the stored entry gives the value, the others what they
    gave before, and the four upper bits of FAT32 entries are kept. *)
Theorem fat_entry_roundtrip t (f : S) c v : ok f → fits t (data f) c → storable t v →
  ∃ f', write_fat t c v f = Ret (Ok tt, f') ∧ ok f' ∧
    ∀ c', fits t (data f) c' →
      ∃ w g g', read_fat t c' f = Ret (Ok w, g) ∧
        read_fat t c' f' = Ret (Ok (if decide (c' = c) then v else w), g') ∧
        reserved t (data f') c' = reserved t (data f) c'.
Proof.
  intros Hf Hc Hv. destruct (write_fat_ok t f c v Hf Hc Hv) as (f'&Hw&Hf'&Hl&Hval&Hk&Hres).
  exists f'. split; [done|]. split; [done|]. intros c' Hc'.
  destruct (read_fat_ok t f c' Hf Hc') as (g&Hg&_).
  assert (fits t (data f') c') as Hc2 by (unfold fits; by rewrite Hl).
  destruct (read_fat_ok t f' c' Hf' Hc2) as (g'&Hg'&_).
  exists (value t (data f) c'), g, g'. split; [done|]. split; [|by apply Hres].
  rewrite Hg'. case_decide; [by subst|]. by rewrite Hk.
Qed.

(** C12. [alloc_cluster] on a table of any width takes the first free cluster
    from the hint on, or else the first one before it, marks it as the end of a
    chain, links it behind the previous cluster, keeps all other entries and
    leaves one free cluster less; it fails, with the table unchanged, exactly
    when no cluster is free. *)
Theorem alloc_cluster_takes_first_free t (f : S) prev hint total :
  ok f → table t total (data f) → (∀ h, hint = Some h → 2 <= h) →
  (∀ p, prev = Some p → data_cluster total p ∧ value t (data f) p ≠ Free) →
  ∃ f', ok f' ∧
    match next_free t (data f) hint total with
    | Some c =>
        alloc_cluster t prev hint total f = Ret (Ok c, f') ∧
        data_cluster total c ∧ value t (data f) c = Free ∧
        value t (data f') c = EndOfChain ∧
        (∀ p, prev = Some p → value t (data f') p = Data c) ∧
        (∀ c', fits t (data f) c' → c' ≠ c → prev ≠ Some c' →
           value t (data f') c' = value t (data f) c') ∧
        length (free_clusters t (data f) 2 (total + 2))
          = Datatypes.S (length (free_clusters t (data f') 2 (total + 2)))
    | None =>
        alloc_cluster t prev hint total f = Ret (Err ENotEnoughSpace, f') ∧
        data f' = data f ∧ ∀ c, data_cluster total c → value t (data f) c ≠ Free
    end.
Proof.
  intros Hf Ht Hh Hprev. destruct (alloc_cluster_ok t f prev hint total Hf Ht Hh Hprev)
    as (f'&Hf'&Hl&Hr). exists f'. split; [done|].
  destruct (next_free t (data f) hint total) as [c|] eqn:Hnf.
  2:{ destruct Hr as [Hr Hd]. split; [done|]. split; [done|]. by eapply next_free_None. }
  destruct Hr as (Hr&Hc&Hp&Hk). destruct (next_free_Some _ _ _ _ _ Hh Hnf) as [Hdc Hfree].
  do 6 (split; [done|]). apply (free_clusters_take _ _ _ _ _ c).
  { by apply free_clusters_elem. }
  destruct Ht as [_ Hfit]. intros x. rewrite !free_clusters_elem.
  destruct (decide (x = c)) as [->|Hne]; [rewrite Hc; naive_solver|].
  destruct (decide (prev = Some x)) as [Hpx|Hpx].
  - rewrite (Hp x Hpx). destruct (Hprev x Hpx) as [_ Hnf']. naive_solver.
  - split; [intros [Hx Hv]|intros [[Hx Hv] _]]; rewrite Hk in * by auto; auto.
Qed.

(** [count_free_clusters] returns the number of free data clusters, for
    each width. *)
Theorem count_free_clusters_exact t (f : S) total : ok f → table t total (data f) →
  ∃ f', count_free_clusters t total f
          = Ret (Ok (Z.of_nat (length (free_clusters t (data f) 2 (total + 2)))), f') ∧
        ok f' ∧ data f' = data f.
Proof. apply count_free_clusters_ok. Qed.

(** C19. Freeing the chain that starts at the iterator's cluster visits every
    cluster of it once, however they lie in the table, returns their number,
    marks exactly them free and stops; the free clusters of the table grow by
    that number. *)
Theorem free_chain t (f : S) c cs total fuel : ok f → table t total (data f) →
  chain t (data f) c cs → (∀ x, x ∈ cs → data_cluster total x ∧ value t (data f) x ≠ Free) →
  (length cs < fuel)%nat →
  ∃ f', free fuel (iter_new f t c) = Ret (Ok (Z.of_nat (length cs)), mkIter f' t None false) ∧
    ok f' ∧ freed t (data f) (data f') cs ∧
    length (free_clusters t (data f') 2 (total + 2))
      = (length cs + length (free_clusters t (data f) 2 (total + 2)))%nat.
Proof. apply free_ok. Qed.

(** Truncating a chain at the iterator's cluster makes that cluster the
    end of the chain and frees exactly the clusters behind it, whose number is
    returned. *)
Theorem truncate_chain t (f : S) c cs fuel : ok f →
  chain t (data f) c (c :: cs) → (length cs < fuel)%nat → Z.of_nat (length cs) < 2 ^ 32 →
  ∃ f', truncate fuel (iter_new f t c) = Ret (Ok (Z.of_nat (length cs)), mkIter f' t None false) ∧
    ok f' ∧ len (data f') = len (data f) ∧
    value t (data f') c = EndOfChain ∧ (∀ x, x ∈ cs → value t (data f') x = Free) ∧
    (∀ x, fits t (data f) x → x ≠ c → x ∉ cs → value t (data f') x = value t (data f) x) ∧
    chain t (data f') c [c].
Proof. apply truncate_ok. Qed.
End claims.

(** ** The theorems at a concrete table

    The FAT12 table of the repository's own test: thirty clusters, a chain
    9, 10, 20, 21, 22, 25, 26, and the clusters 18 and 27 to 31 free (but 30). *)

Definition test_fat12 : list Z :=
  [0xF0; 0xFF; 0xFF; 0x03; 0x40; 0x00; 0x05; 0x60; 0x00; 0x07; 0x80; 0x00;
   0xFF; 0xAF; 0x00; 0x14; 0xC0; 0x00; 0x0D; 0xE0; 0x00; 0x0F; 0x00; 0x01;
   0x11; 0xF0; 0xFF; 0x00; 0xF0; 0xFF; 0x15; 0x60; 0x01; 0x19; 0x70; 0xFF;
   0xF7; 0xAF; 0x01; 0xFF; 0x0F; 0x00; 0x00; 0x70; 0xFF; 0x00; 0x00; 0x00].

Definition test_disk : MemDisk := mkMem test_fat12 0.
Definition test_chain : list Z := [9; 10; 20; 21; 22; 25; 26].

Lemma test_disk_ok : ok test_disk.
Proof.
  split; [|split; [by vm_compute|by vm_compute]].
  apply (bool_decide_unpack _). by vm_compute.
Qed.

Lemma test_disk_table : table Fat12 30 (data test_disk).
Proof.
  split; [by vm_compute|]. intros c Hc. change (data test_disk) with test_fat12.
  unfold fits, cluster_limit. change (len test_fat12) with 48. cbn [entry_off entry_len]. dlia.
Qed.

Lemma test_disk_fits c : 2 <= c < 32 → fits Fat12 (data test_disk) c.
Proof. apply test_disk_table. Qed.

Lemma test_disk_chain : chain Fat12 (data test_disk) 9 test_chain.
Proof.
  do 6 (eapply chain_next; [by apply test_disk_fits|by vm_compute|]).
  apply chain_end; [by apply test_disk_fits|]. intros n. by vm_compute.
Qed.

Lemma test_chain_used x : x ∈ test_chain →
  data_cluster 30 x ∧ value Fat12 (data test_disk) x ≠ Free.
Proof.
  revert x. apply list.Forall_forall. apply (bool_decide_unpack _). by vm_compute.
Qed.

Lemma fat_entry_roundtrip_witness :
  ∃ f', write_fat Fat12 9 (Data 77) test_disk = Ret (Ok tt, f') ∧ ok f'.
Proof.
  destruct (fat_entry_roundtrip Fat12 test_disk 9 (Data 77) test_disk_ok) as (f'&?&?&_);
    [apply test_disk_fits; lia|vm_compute; done|by exists f'].
Defined.

Lemma alloc_cluster_takes_first_free_witness :
  ∃ f', alloc_cluster Fat12 (Some 26) (Some 19) 30 test_disk = Ret (Ok 27, f') ∧
        value Fat12 (data f') 26 = Data 27.
Proof.
  destruct (alloc_cluster_takes_first_free Fat12 test_disk (Some 26) (Some 19) 30 test_disk_ok)
    as (f'&_&Hr).
  - apply test_disk_table.
  - intros h [= <-]. lia.
  - intros p [= <-]. split; [vm_compute; done|vm_compute; done].
  - replace (next_free Fat12 (data test_disk) (Some 19) 30) with (Some 27) in Hr by (by vm_compute).
    destruct Hr as (Hr&_&_&_&Hp&_). exists f'. split; [exact Hr|by apply Hp].
Defined.

Lemma count_free_clusters_exact_witness :
  ∃ f', count_free_clusters Fat12 30 test_disk = Ret (Ok 5, f') ∧ ok f'.
Proof.
  destruct (count_free_clusters_exact Fat12 test_disk 30 test_disk_ok test_disk_table)
    as (f'&Hr&Hf&_).
  exists f'. replace (Z.of_nat _) with 5 in Hr by (by vm_compute). by split.
Defined.

Lemma free_chain_witness :
  ∃ f', free 8 (iter_new test_disk Fat12 9) = Ret (Ok 7, mkIter f' Fat12 None false) ∧ ok f'.
Proof.
  destruct (free_chain Fat12 test_disk 9 test_chain 30 8 test_disk_ok test_disk_table)
    as (f'&Hr&Hf&_); [apply test_disk_chain|apply test_chain_used|vm_compute; lia|].
  change (Z.of_nat (length test_chain)) with 7 in Hr. exists f'. exact (conj Hr Hf).
Defined.

Lemma truncate_chain_witness :
  ∃ f', truncate 7 (iter_new test_disk Fat12 9) = Ret (Ok 6, mkIter f' Fat12 None false) ∧ ok f'.
Proof.
  destruct (truncate_chain Fat12 test_disk 9 (tl test_chain) 7 test_disk_ok)
    as (f'&Hr&Hf&_); [apply test_disk_chain|vm_compute; lia|vm_compute; done|].
  change (Z.of_nat (length (tl test_chain))) with 6 in Hr. exists f'. exact (conj Hr Hf).
Defined.
