(* ===== verification/Errors.v ===== *)
(** * Errors of the kernel and of system calls (kernel/src/error.rs, modules/syscall/src/lib.rs) *)

From S2P Require Import Prelude.

(** ** Inside the kernel *)

(** [OSError], with the source's variants. *)
Inductive OSError :=
| OSError_Ok
| PageTable_FlagUpdateError
| PageTable_VirtNotFound
| PageTable_FrameAllocFailed
| PageTable_PageAlreadyMapped
| PageTable_UnknownErrorWhenMap
| PageTable_PageNotMapped
| PageTable_UnknownErrorWhenUnmap
| PageTable_RawAccessToPageTable
| VmArea_InvalidRange
| VmArea_VmSizeNotEqualToPmSize
| VmArea_InvalidUnmap
| PageFaultHandler_AccessDenied
| PageFaultHandler_TrapAtValidPage
| PageFaultHandler_Unhandled
| PmArea_OutOfRange
| PmArea_InvalidRange
| PmArea_ShrinkFailed
| PmArea_SplitFailed
| PmAreaLazy_ReleaseNotAllocatedPage
| Memory_RunOutOfMemory
| Memory_RunOutOfConsecutiveMemory
| MemorySet_UserMmapIntersectWithKernel
| MemorySet_InvalidRange
| MemorySet_UnmapAreaNotFound
| MemorySet_AreaNotMapped
| Task_MmapLengthDisagree
| MemorySet_PartialUnmap
| Loader_ParseElfFailed
| Loader_InvalidSegment
| Loader_InvalidSection
| Loader_AppNotFound
| Loader_CanNotParseInterpreter
| Loader_PhdrNotFound
| Loader_Skipped
| Task_NoTrapHandler
| Task_RunOutOfMemory
| CpuLocal_SwitchedFromEmptyTask
| FdManager_NoAvailableFd
| FdManager_FdNotFound.

#[export] Instance OSError_eq_dec : EqDecision OSError.
Proof. solve_decision. Defined.

(** [OSResult<T>] *)
Inductive OSResult (A : Type) :=
| OsOk (a : A)
| OsErr (e : OSError).
Arguments OsOk {A}.
Arguments OsErr {A}.

#[export] Instance OSResult_ret : MRet OSResult := @OsOk.
#[export] Instance OSResult_bind : MBind OSResult :=
  λ A B f x, match x with OsOk a => f a | OsErr e => OsErr e end.

Definition is_ok {A} (r : OSResult A) : bool := match r with OsOk _ => true | OsErr _ => false end.

(** ** Results of system calls *)

(** [ErrorNo], with the source's variants. *)
Inductive ErrorNo :=
| EPERM
| ENOENT
| ESRCH
| EBADF
| EAGAIN
| ENOMEM
| EFAULT
| EBUSY
| EEXIST
| ENOTDIR
| EISDIR
| EINVAL
| EMFILE
| ESPIPE
| ERANGE
| EPFNOSUPPORT
| EAFNOSUPPORT
| ECONNREFUSED.

#[export] Instance ErrorNo_eq_dec : EqDecision ErrorNo.
Proof. solve_decision. Defined.

(** The number the user program gets. *)
Definition errno (e : ErrorNo) : Z :=
  match e with
  | EPERM => -1
  | ENOENT => -2
  | ESRCH => -3
  | EBADF => -9
  | EAGAIN => -11
  | ENOMEM => -12
  | EFAULT => -14
  | EBUSY => -16
  | EEXIST => -17
  | ENOTDIR => -20
  | EISDIR => -21
  | EINVAL => -22
  | EMFILE => -24
  | ESPIPE => -29
  | ERANGE => -34
  | EPFNOSUPPORT => -96
  | EAFNOSUPPORT => -97
  | ECONNREFUSED => -111
  end.

(** [Result<T, ErrorNo>]; [SysResult] is the one of a [usize]. *)
Definition SysResult (A : Type) : Type := A + ErrorNo.
