(* ===== verification/FdTable.v ===== *)
(** * The file descriptor table of a process

    [FdManager] (kernel/src/file/fd_manager.rs) over [FdAllocator]
    (kernel/src/memory/allocator/fd.rs), which is a [BitAlloc256]: a bit is set
    while its descriptor may be handed out.  The development is generic in the
    allocator [A], known through the [BitAlloc] interface, and in the type [F]
    of shared file objects. *)

From S2P Require Import Prelude BitAlloc Errors.

Definition FD_LIMIT_ORIGIN : Z := 256.
Definition FD_LIMIT_HARD : Z := 256.

(** ** [FdAllocator] *)

Section allocator.
Context {A : Type} `{BitAlloc A}.

Definition fda_new (limit : Z) : outcome A := insert DEFAULT 0 limit.

Definition expand_range (a : A) (l r : Z) : outcome A := insert a l r.
Definition shrink_range (a : A) (l r : Z) : outcome A := remove a l r.

Definition is_allocated (a : A) (fd : Z) : outcome bool :=
  t ← test a fd; Ret (negb t).

Definition alloc_exact (a : A) (fd : Z) : outcome A := remove a fd (fd + 1).

Definition alloc_exact_if_possible (a : A) (fd : Z) : outcome (bool * A) :=
  t ← is_allocated a fd;
  if negb t then a' ← alloc_exact a fd; Ret (true, a')
  else Ret (false, a).
End allocator.

(** ** [FdManager] *)

Record FdManager (A F : Type) := mkFd {
  files : list (option F); fd_allocator : A; limit : Z; umask : Z }.
Arguments mkFd {A F}.
Arguments files {A F}.
Arguments fd_allocator {A F}.
Arguments limit {A F}.
Arguments umask {A F}.

(** [Vec::resize(n, None)] when it only grows. *)
Definition resize {F} (l : list (option F)) (n : Z) : list (option F) :=
  l ++ replicate (Z.to_nat n - length l) None.

Section manager.
Context {A F : Type} `{BitAlloc A} (cloexec : F → bool).
Implicit Types m : FdManager A F.

Definition nfiles m : Z := Z.of_nat (length (files m)).

Definition get_file m (fd : Z) : outcome (OSResult F) :=
  if nfiles m <=? fd then Ret (OsErr FdManager_FdNotFound)
  else
    o ← index (files m) fd;
    match o with
    | None => Ret (OsErr FdManager_FdNotFound)
    | Some f => Ret (OsOk f)
    end.

Definition push m (file : F) : outcome (OSResult Z * FdManager A F) :=
  '(r, a) ← alloc (fd_allocator m);
  match r with
  | Some fd =>
      let fs := if nfiles m <=? fd then resize (files m) (fd + 1) else files m in
      fs' ← update fs fd (Some file);
      Ret (OsOk fd, mkFd fs' a (limit m) (umask m))
  | None => Ret (OsErr FdManager_NoAvailableFd, mkFd (files m) a (limit m) (umask m))
  end.

(** [fd_manager.push(file).unwrap()] *)
Definition push_unwrap m (file : F) : outcome (FdManager A F) :=
  '(r, m') ← push m file;
  match r with OsOk _ => Ret m' | OsErr _ => Panic end.

Definition fd_new (stdin stdout stderr : F) (um : Z) : outcome (FdManager A F) :=
  let limit := FD_LIMIT_ORIGIN in
  a ← fda_new limit;
  m ← push_unwrap (mkFd [] a limit um) stdin;
  m ← push_unwrap m stdout;
  push_unwrap m stderr.

Definition copy_all_body (m0 : FdManager A F) m (fd : Z) : outcome (FdManager A F) :=
  o ← index (files m0) fd;
  match o with
  | Some file =>
      a ← alloc_exact (fd_allocator m) fd;
      fs ← update (files m) fd (Some file);
      Ret (mkFd fs a (limit m) (umask m))
  | None => Ret m
  end.

Definition copy_all m : outcome (FdManager A F) :=
  a ← fda_new (limit m);
  foldM (copy_all_body m)
    (mkFd (resize [] (nfiles m)) a (limit m) (umask m)) (seqZ 0 (nfiles m)).

Definition copy_fd_anywhere m (old_fd : Z) : outcome (OSResult Z * FdManager A F) :=
  r ← get_file m old_fd;
  match r with
  | OsOk file => push m file
  | OsErr e => Ret (OsErr e, m)
  end.

Definition copy_fd_to m (old_fd new_fd : Z) : outcome (bool * FdManager A F) :=
  r ← get_file m old_fd;
  match r with
  | OsOk file =>
      '(_, a) ← alloc_exact_if_possible (fd_allocator m) new_fd;
      let fs := if nfiles m <=? new_fd then resize (files m) (new_fd + 1) else files m in
      fs' ← update fs new_fd (Some file);
      Ret (true, mkFd fs' a (limit m) (umask m))
  | OsErr _ => Ret (false, m)
  end.

Fixpoint get_files_if_all_exists m (vec : list Z) : outcome (option (list F)) :=
  match vec with
  | [] => Ret (Some [])
  | fd :: vec' =>
      r ← get_file m fd;
      match r with
      | OsOk file => rest ← get_files_if_all_exists m vec'; Ret (option_map (cons file) rest)
      | OsErr _ => Ret None
      end
  end.

Definition remove_file m (fd : Z) : outcome (OSResult F * FdManager A F) :=
  r ← get_file m fd;
  match r with
  | OsErr _ => Ret (OsErr FdManager_FdNotFound, m)
  | OsOk file =>
      a ← dealloc (fd_allocator m) fd;
      fs ← update (files m) fd None;
      Ret (OsOk file, mkFd fs a (limit m) (umask m))
  end.

Definition is_full m : outcome (bool * FdManager A F) :=
  '(r, a) ← alloc (fd_allocator m);
  match r with
  | Some fd => a' ← dealloc a fd; Ret (false, mkFd (files m) a' (limit m) (umask m))
  | None => Ret (true, mkFd (files m) a (limit m) (umask m))
  end.

Definition get_limit m : Z := limit m.

Definition modify_limit m (new_limit : Z) : outcome (FdManager A F) :=
  let new_limit := Z.max (Z.min new_limit FD_LIMIT_HARD) 0 in
  a ← (if new_limit <? limit m : bool then shrink_range (fd_allocator m) new_limit (limit m)
       else if limit m <? new_limit : bool then expand_range (fd_allocator m) (limit m) new_limit
       else Ret (fd_allocator m));
  Ret (mkFd (files m) a new_limit (umask m)).

Definition close_cloexec_body (fs : list (option F)) (fd : nat) : list (option F) :=
  match fs !! fd with
  | Some (Some file) => if cloexec file then <[fd := None]> fs else fs
  | _ => fs
  end.

Definition close_cloexec_files m : FdManager A F :=
  mkFd (foldl close_cloexec_body (files m) (seq 0 (length (files m))))
       (fd_allocator m) (limit m) (umask m).

Definition get_umask m : Z := umask m.

Definition set_umask_and_get_old m (new_umask : Z) : Z * FdManager A F :=
  (umask m, mkFd (files m) (fd_allocator m) (limit m) new_umask).
End manager.
