(* ===== verification/FdTableSpec.v ===== *)
(** * Correctness of the file descriptor table

    The table is the function [file_at] from descriptors to files.  [inv] ties
    the allocator to it: exactly the descriptors below the limit without a file
    may be handed out.  It is proved against the contract [BitAllocSpec] of the
    allocator, and kept by every operation but [modify_limit] and
    [close_cloexec_files], for which the ways it breaks are proved. *)

From S2P Require Import Prelude BitAlloc BitAllocSpec Errors FdTable.

Section spec.
Context {A F : Type} {ops : BitAlloc A} {V : BitAllocView A} {BS : BitAllocSpec A}.
Implicit Types m : FdManager A F.

Definition file_at m (fd : Z) : option F := files m !! Z.to_nat fd ≫= id.

Definition inv m : Prop :=
  CAP A = 256 ∧ wf (fd_allocator m) ∧ 0 < limit m <= 256 ∧ nfiles m <= 256 ∧
  ∀ fd, 0 <= fd → free (fd_allocator m) fd = true ↔ fd < limit m ∧ file_at m fd = None.

(** The table with one descriptor changed. *)
Definition table_set m m' (fd : Z) (o : option F) : Prop :=
  (∀ j, 0 <= j → file_at m' j = if decide (j = fd) then o else file_at m j) ∧
  limit m' = limit m ∧ umask m' = umask m.

(** ** The vector of files *)

Lemma lookup_resize (l : list (option F)) n i :
  (resize l n !! i) ≫= id = (l !! i) ≫= id.
Proof.
  unfold resize. destruct (decide (i < length l)%nat).
  - by rewrite lookup_app_l.
  - rewrite lookup_app_r by lia. rewrite (lookup_ge_None_2 l) by lia.
    destruct (decide (i - length l < Z.to_nat n - length l)%nat).
    + by rewrite lookup_replicate_2 by done.
    + by rewrite lookup_ge_None_2 by (rewrite length_replicate; lia).
Qed.

Lemma length_resize (l : list (option F)) n :
  Z.of_nat (length (resize l n)) = Z.max (Z.of_nat (length l)) n.
Proof. unfold resize. rewrite length_app, length_replicate. lia. Qed.

(** [self.files[fd] = o] after making room for [fd]. *)
Lemma put_file (l : list (option F)) fd o : 0 <= fd →
  ∃ l', update (if Z.of_nat (length l) <=? fd then resize l (fd + 1) else l) fd o = Ret l' ∧
    Z.of_nat (length l') = Z.max (Z.of_nat (length l)) (fd + 1) ∧
    ∀ j, 0 <= j →
      (l' !! Z.to_nat j) ≫= id = if decide (j = fd) then o else (l !! Z.to_nat j) ≫= id.
Proof.
  intros Hfd. set (l1 := if _ : bool then _ else _).
  assert (Z.of_nat (length l1) = Z.max (Z.of_nat (length l)) (fd + 1)) as Hl1.
  { unfold l1. destruct (Z.leb_spec (Z.of_nat (length l)) fd); rewrite ?length_resize; lia. }
  assert (∀ i, l1 !! i ≫= id = l !! i ≫= id) as Hlk.
  { intros i. unfold l1. destruct (_ <=? _); [apply lookup_resize|done]. }
  rewrite update_Ret by lia. eexists. split; [done|]. rewrite length_insert. split; [done|].
  intros j Hj. case_decide as Hjf.
  - subst. by rewrite list_lookup_insert_eq by lia.
  - rewrite list_lookup_insert_ne by lia. apply Hlk.
Qed.

Lemma get_file_spec m fd : 0 <= fd →
  get_file m fd = Ret (match file_at m fd with
                       | Some f => OsOk f | None => OsErr FdManager_FdNotFound end).
Proof.
  intros Hfd. unfold get_file, nfiles, file_at.
  destruct (Z.leb_spec (Z.of_nat (length (files m))) fd) as [Hle|Hlt].
  { by rewrite lookup_ge_None_2 by lia. }
  destruct (index_Ret (files m) fd) as (o&Hi&Hl); [lia|]. run Hi. rewrite Hl. by destruct o.
Qed.

Lemma file_at_lt m fd f : 0 <= fd → file_at m fd = Some f → fd < nfiles m.
Proof.
  unfold file_at, nfiles. intros Hfd H. destruct (decide (fd < Z.of_nat (length (files m)))); [done|].
  rewrite lookup_ge_None_2 in H by lia. done.
Qed.

(** ** Inserting, copying and removing *)

Lemma push_spec m file : inv m →
  (∃ fd m', push m file = Ret (OsOk fd, m') ∧ 0 <= fd < limit m ∧ file_at m fd = None ∧
     (∀ j, 0 <= j < fd → file_at m j ≠ None) ∧ inv m' ∧ table_set m m' fd (Some file)) ∨
  (push m file = Ret (OsErr FdManager_NoAvailableFd, m) ∧
   ∀ j, 0 <= j < limit m → file_at m j ≠ None).
Proof.
  intros (Hcap&Hwf&Hlim&Hn&Hfree). unfold push.
  destruct (alloc_spec (fd_allocator m) Hwf) as [(fd&a&Ha&Hlow&Hset)|[Ha Hnone]]; rewrite Ha;
    rewrite bind_Ret; cbv beta iota.
  2:{ right. split; [by destruct m|]. intros j Hj Hf. assert (free (fd_allocator m) j = true)
        as Ht by (apply Hfree; [lia|split; [lia|done]]). by rewrite Hnone in Ht. }
  destruct Hlow as (Hfd&Hfr&Hmin). destruct Hset as [Hwf' Hset].
  assert (Hfr' := Hfr). apply Hfree in Hfr' as [Hfl Hnone]; [|lia].
  destruct (put_file (files m) fd (Some file)) as (fs&Hput&Hlen&Hat); [lia|].
  unfold nfiles at 1. run Hput. left. exists fd. eexists. split; [done|].
  split; [lia|]. split; [done|]. split.
  { intros j Hj Hf. assert (free (fd_allocator m) j = true) as Ht
      by (apply Hfree; [lia|split; [lia|done]]). rewrite Hmin in Ht by lia. done. }
  split; [|split; [done|done]].
  split; [done|]. split; [done|]. split; [done|].
  split; [unfold nfiles in *; cbn [files]; lia|].
  intros j Hj. unfold file_at. cbn [fd_allocator limit files]. rewrite Hset, Hat by done.
  case_decide as Hjf; destruct (Z.leb_spec fd j), (Z.ltb_spec j (fd + 1)); simpl; try lia;
    try (by apply Hfree); naive_solver.
Qed.

(** A descriptor whose bit and file change together keeps the invariant. *)
Lemma inv_put m a fs fd o v : inv m → 0 <= fd < 256 →
  range_set (fd_allocator m) a fd (fd + 1) v → (v = true ↔ fd < limit m ∧ o = None) →
  Z.of_nat (length fs) <= 256 →
  (∀ j, 0 <= j → (fs !! Z.to_nat j) ≫= id = if decide (j = fd) then o else file_at m j) →
  inv (mkFd fs a (limit m) (umask m)) ∧ table_set m (mkFd fs a (limit m) (umask m)) fd o.
Proof.
  intros (Hcap&Hwf&Hlim&Hn&Hfree) Hfd [Hwf' Hset] Hv Hlen Hat.
  split; [|split; [exact Hat|done]]. split; [done|]. split; [done|]. split; [done|].
  split; [exact Hlen|]. intros j Hj. unfold file_at; cbn [fd_allocator limit files].
  rewrite Hset, Hat by done. case_decide as Hjf.
  - subst. destruct (Z.leb_spec fd fd), (Z.ltb_spec fd (fd + 1)); try lia. exact Hv.
  - destruct (Z.leb_spec fd j), (Z.ltb_spec j (fd + 1)); simpl; try lia; by apply Hfree.
Qed.

Lemma is_allocated_spec m fd : inv m → 0 <= fd < 256 →
  is_allocated (fd_allocator m) fd = Ret (negb (free (fd_allocator m) fd)).
Proof.
  intros (Hcap&Hwf&_) Hfd. unfold is_allocated. by rewrite test_spec by (done || lia).
Qed.

Lemma copy_fd_to_spec m old new : inv m → 0 <= old → 0 <= new < 256 →
  match file_at m old with
  | Some f => ∃ m', copy_fd_to m old new = Ret (true, m') ∧ inv m' ∧ table_set m m' new (Some f)
  | None => copy_fd_to m old new = Ret (false, m)
  end.
Proof.
  intros Hm Hold Hnew. pose proof Hm as (Hcap&Hwf&Hlim&Hn&Hfree). unfold copy_fd_to.
  run (get_file_spec m old Hold). destruct (file_at m old) as [f|]; [|done].
  unfold alloc_exact_if_possible. run (is_allocated_spec m new Hm Hnew).
  destruct (put_file (files m) new (Some f)) as (fs&Hput&Hlen&Hat); [lia|].
  assert (∃ b a, (if negb (negb (free (fd_allocator m) new))
                  then a' ← alloc_exact (fd_allocator m) new; Ret (true, a')
                  else Ret (false, fd_allocator m)) = Ret (b, a) ∧
                 range_set (fd_allocator m) a new (new + 1) false) as (b&a&Hal&Hset).
  { destruct (free (fd_allocator m) new) eqn:Hf; simpl.
    - destruct (remove_spec (fd_allocator m) new (new + 1)) as (a&Ha&Hset); [done|lia|lia|].
      unfold alloc_exact. run Ha. by eexists _, _.
    - eexists _, _. split; [done|]. split; [done|]. intros j.
      destruct (Z.leb_spec new j), (Z.ltb_spec j (new + 1)); simpl; try done.
      by replace j with new by lia. }
  run Hal. cbv beta iota. unfold nfiles. run Hput. eexists. split; [done|].
  eapply inv_put; [done|done|done| |unfold nfiles in *; lia|exact Hat]. naive_solver.
Qed.

Lemma remove_file_spec m fd : inv m → 0 <= fd →
  match file_at m fd with
  | Some f => fd < limit m →
      ∃ m', remove_file m fd = Ret (OsOk f, m') ∧ inv m' ∧ table_set m m' fd None
  | None => remove_file m fd = Ret (OsErr FdManager_FdNotFound, m)
  end.
Proof.
  intros Hm Hfd. pose proof Hm as (Hcap&Hwf&Hlim&Hn&Hfree). unfold remove_file.
  run (get_file_spec m fd Hfd). destruct (file_at m fd) as [f|] eqn:Hf; [|done].
  intros Hlt. pose proof (file_at_lt m fd f Hfd Hf) as Hlen. unfold nfiles in *.
  assert (0 <= fd < CAP A) as Hcf by lia.
  pose proof (dealloc_spec (fd_allocator m) fd Hwf Hcf) as Hd.
  destruct (free (fd_allocator m) fd) eqn:Hfr.
  { apply Hfree in Hfr as [_ Hnone]; [|done]. by rewrite Hf in Hnone. }
  destruct Hd as (a&Ha&Hset). run Ha. rewrite update_Ret by lia. rewrite bind_Ret.
  eexists. split; [done|].
  eapply inv_put; [done|lia|done|naive_solver|rewrite length_insert; lia|].
  intros j Hj. case_decide as Hjf.
  - subst. by rewrite list_lookup_insert_eq by lia.
  - by rewrite list_lookup_insert_ne by lia.
Qed.

Lemma is_full_spec m : inv m →
  ∃ b m', is_full m = Ret (b, m') ∧ inv m' ∧ files m' = files m ∧ limit m' = limit m ∧
    umask m' = umask m ∧ (b = true ↔ ∀ j, 0 <= j < limit m → file_at m j ≠ None).
Proof.
  intros Hm. pose proof Hm as (Hcap&Hwf&Hlim&Hn&Hfree). unfold is_full.
  destruct (alloc_spec (fd_allocator m) Hwf) as [(fd&a&Ha&Hlow&Hwf'&Hset)|[Ha Hnone]]; rewrite Ha;
    rewrite bind_Ret; cbv beta iota.
  2:{ exists true, m. split; [by destruct m|]. do 4 (split; [done|]). split; [|done].
      intros _ j Hj Hf. assert (free (fd_allocator m) j = true) as Ht
        by (apply Hfree; [lia|split; [lia|done]]). by rewrite Hnone in Ht. }
  destruct Hlow as (Hfd&Hfr&Hmin).
  pose proof (free_range (fd_allocator m) fd Hwf Hfr) as Hcapfd.
  assert (free a fd = false) as Hfa.
  { rewrite Hset. destruct (Z.leb_spec fd fd), (Z.ltb_spec fd (fd + 1)); done || lia. }
  pose proof (dealloc_spec a fd Hwf' Hcapfd) as Hd. rewrite Hfa in Hd.
  destruct Hd as (a'&Ha'&Hwf2&Hset2). run Ha'. eexists false, _. split; [done|].
  assert (∀ j, free a' j = free (fd_allocator m) j) as Hsame.
  { intros j. rewrite Hset2, Hset. destruct (Z.leb_spec fd j), (Z.ltb_spec j (fd + 1)); simpl; try done.
    by replace j with fd by lia. }
  split. { split; [done|]. split; [done|]. split; [done|]. split; [done|].
    intros j Hj. cbn [fd_allocator limit]. rewrite Hsame. by apply Hfree. }
  do 3 (split; [done|]). split; [done|]. intros Hall. exfalso.
  apply Hfree in Hfr as [? Hnone]; [|lia]. by apply (Hall fd).
Qed.

(** *** Copying the whole table *)

Definition copied m m' (fd : Z) : Prop :=
  wf (fd_allocator m') ∧ limit m' = limit m ∧ umask m' = umask m ∧ nfiles m' = nfiles m ∧
  (∀ j, 0 <= j → file_at m' j = if decide (j < fd) then file_at m j else None) ∧
  ∀ j, 0 <= j → free (fd_allocator m') j = true ↔
    j < limit m ∧ (fd <= j ∨ file_at m j = None).

Lemma copy_all_body_spec m m' fd : inv m → 0 <= fd < nfiles m → copied m m' fd →
  ∃ m2, copy_all_body m m' fd = Ret m2 ∧ copied m m2 (fd + 1).
Proof.
  intros (Hcap&Hwf&Hlim&Hn&Hfree) Hfd (Hwf'&Hl&Hu&Hnf&Hat&Hfr). unfold copy_all_body.
  destruct (index_Ret (files m) fd) as (o&Hi&Hlk); [done|]. run Hi.
  assert (file_at m fd = o) as Ho by (unfold file_at; by rewrite Hlk).
  destruct o as [f|].
  - destruct (remove_spec (fd_allocator m') fd (fd + 1)) as (a&Ha&Hwfa&Hset); [done|lia|lia|].
    unfold alloc_exact. run Ha. rewrite update_Ret by (unfold nfiles in *; lia). rewrite bind_Ret.
    eexists. split; [done|]. unfold copied; cbn [fd_allocator limit umask].
    split; [done|]. split; [done|]. split; [done|].
    split; [unfold nfiles in *; cbn [files]; by rewrite length_insert|]. split.
    + intros j Hj. unfold file_at at 1; cbn [files]. destruct (decide (j = fd)) as [->|Hne].
      * rewrite list_lookup_insert_eq by (unfold nfiles in *; lia).
        by rewrite decide_True by lia.
      * rewrite list_lookup_insert_ne by lia. fold (file_at m' j). rewrite Hat by done.
        repeat case_decide; try done; lia.
    + intros j Hj. rewrite Hset. destruct (Z.leb_spec fd j), (Z.ltb_spec j (fd + 1)); simpl.
      * replace j with fd by lia. rewrite Ho. split; [done|]. intros [? [?|?]]; [lia|done].
      * rewrite Hfr by done. split; intros [? ?]; (split; [done|left; lia]).
      * rewrite Hfr by done. split; intros [? [?|?]]; (split; [done|]); lia || by right.
      * lia.
  - exists m'. split; [done|]. split; [done|]. split; [done|]. split; [done|]. split; [done|].
    split.
    + intros j Hj. rewrite Hat by done. destruct (decide (j = fd)) as [->|].
      * rewrite decide_False, decide_True by lia. by rewrite Ho.
      * repeat case_decide; try done; lia.
    + intros j Hj. rewrite Hfr by done. destruct (decide (j = fd)) as [->|].
      * rewrite Ho. split; intros [? ?]; (split; [done|]); [by right|left; lia].
      * split; intros [? [?|?]]; (split; [done|]); (left; lia) || by right.
Qed.

Lemma fda_new_spec n : CAP A = 256 → 0 < n <= 256 →
  ∃ a, fda_new n = Ret a ∧ wf a ∧ ∀ j, 0 <= j → free a j = true ↔ j < n.
Proof.
  intros Hcap Hn. destruct (insert_spec (DEFAULT : A) 0 n wf_DEFAULT) as (a&Ha&Hwf&Hset); [lia|lia|].
  exists a. split; [done|]. split; [done|]. intros j Hj. rewrite Hset, free_DEFAULT.
  destruct (Z.leb_spec 0 j), (Z.ltb_spec j n); simpl; split; done || lia.
Qed.

Lemma copy_all_spec m : inv m →
  ∃ m', copy_all m = Ret m' ∧ inv m' ∧ limit m' = limit m ∧ umask m' = umask m ∧
    ∀ j, 0 <= j → file_at m' j = file_at m j.
Proof.
  intros Hm. pose proof Hm as (Hcap&Hwf&Hlim&Hn&Hfree). unfold copy_all.
  destruct (fda_new_spec (limit m) Hcap Hlim) as (a&Ha&Hwfa&Hfa). run Ha.
  assert (0 <= nfiles m) by (unfold nfiles; lia).
  destruct (foldM_range (λ i s, copied m s i) (copy_all_body m) 0 (length (files m))
              (mkFd (resize [] (nfiles m)) a (limit m) (umask m))) as (m'&Hf&Hc).
  { split; [done|]. split; [done|]. split; [done|].
    split; [unfold nfiles; cbn [files]; rewrite length_resize; simpl; lia|]. split.
    - intros j Hj. rewrite decide_False by lia. unfold file_at; cbn [files].
      by rewrite lookup_resize.
    - intros j Hj. cbn [fd_allocator]. rewrite Hfa by done. naive_solver lia. }
  { intros i s Hi Hs. apply copy_all_body_spec; [done|unfold nfiles; lia|done]. }
  unfold nfiles in Hf |- *. rewrite Hf. exists m'. split; [done|].
  destruct Hc as (Hwf'&Hl&Hu&Hnf&Hat&Hfr). unfold nfiles in *.
  assert (∀ j, 0 <= j → file_at m' j = file_at m j) as Heq.
  { intros j Hj. rewrite Hat by done. case_decide; [done|].
    destruct (file_at m j) as [f|] eqn:E; [|done].
    pose proof (file_at_lt m j f Hj E). unfold nfiles in *. lia. }
  split; [|done]. split; [done|]. split; [done|]. split; [lia|]. split; [unfold nfiles; lia|].
  intros j Hj. rewrite Hfr, Hl, Heq by done. split; [|naive_solver].
  intros [? [?|?]]; split; try done. destruct (file_at m j) as [f|] eqn:E; [|done].
  pose proof (file_at_lt m j f Hj E). unfold nfiles in *. lia.
Qed.

(** ** The limit *)

(** Every open descriptor is below [n]. *)
Definition open_below m (n : Z) : Prop := ∀ fd, 0 <= fd → file_at m fd ≠ None → fd < n.

(** The limit [modify_limit] sets. *)
Definition clamp (n : Z) : Z := Z.max (Z.min n 256) 0.

Lemma modify_limit_spec m n : inv m → 0 < n →
  ∃ a, modify_limit m n = Ret (mkFd (files m) a (clamp n) (umask m)) ∧ wf a ∧
    ∀ j, 0 <= j → free a j =
      if (clamp n <=? j) && (j <? limit m) then false
      else if (limit m <=? j) && (j <? clamp n) then true else free (fd_allocator m) j.
Proof.
  intros (Hcap&Hwf&Hlim&Hn&Hfree) Hn0. unfold modify_limit, FD_LIMIT_HARD. fold (clamp n).
  assert (0 < clamp n <= 256) as Hc by (unfold clamp; lia).
  destruct (Z.ltb_spec (clamp n) (limit m)).
  - destruct (remove_spec (fd_allocator m) (clamp n) (limit m)) as (a&Ha&Hwfa&Hset); [done|lia|lia|].
    unfold shrink_range. run Ha. exists a. split; [done|]. split; [done|]. intros j Hj.
    rewrite Hset. zcases.
  - destruct (Z.ltb_spec (limit m) (clamp n)).
    + destruct (insert_spec (fd_allocator m) (limit m) (clamp n)) as (a&Ha&Hwfa&Hset); [done|lia|lia|].
      unfold expand_range. run Ha. exists a. split; [done|]. split; [done|]. intros j Hj.
      rewrite Hset. zcases.
    + exists (fd_allocator m). split; [done|]. split; [done|]. intros j Hj. zcases.
Qed.

Lemma modify_limit_inv m n : inv m → 0 < n → open_below m (limit m) → open_below m (clamp n) →
  ∃ m', modify_limit m n = Ret m' ∧ inv m' ∧ files m' = files m ∧ limit m' = clamp n ∧
    umask m' = umask m.
Proof.
  intros Hm Hn0 Hb Hb'. pose proof Hm as (Hcap&Hwf&Hlim&Hn&Hfree).
  destruct (modify_limit_spec m n Hm Hn0) as (a&Ha&Hwfa&Hset). eexists. split; [exact Ha|].
  split; [|done]. split; [done|]. split; [done|]. split; [cbn [limit]; unfold clamp; lia|].
  split; [done|]. intros j Hj. cbn [fd_allocator limit]. rewrite Hset by done.
  change (file_at (mkFd (files m) a (clamp n) (umask m)) j) with (file_at m j).
  pose proof (Hb j Hj) as Hbj. pose proof (Hfree j Hj) as Hfj.
  destruct (Z.leb_spec (clamp n) j), (Z.ltb_spec j (limit m)), (Z.leb_spec (limit m) j),
    (Z.ltb_spec j (clamp n)); simpl; try lia; try (split; [done|lia]).
  - rewrite Hfj. split; [lia|lia].
  - rewrite Hfj. split; intros [? ?]; (split; [lia|done]).
  - split; [|done]. intros _. split; [lia|]. destruct (file_at m j); [|done].
    assert (j < limit m) by by apply Hbj. lia.
Qed.

(** ** Closing on exec *)

Section cloexec.
Context (cloexec : F → bool).

Lemma close_loop n (fs : list (option F)) k i :
  foldl (close_cloexec_body cloexec) fs (seq k n) !! i =
    if decide (k <= i < k + n)%nat
    then option_map (λ o : option F, f ← o; if cloexec f then None else Some f) (fs !! i)
    else fs !! i.
Proof.
  revert fs k. induction n as [|n IH]; intros fs k; cbn [seq foldl].
  { by rewrite decide_False by lia. }
  rewrite IH. set (fs1 := close_cloexec_body cloexec fs k).
  assert (∀ j, fs1 !! j = if decide (j = k)
      then option_map (λ o : option F, f ← o; if cloexec f then None else Some f) (fs !! k)
      else fs !! j) as H1.
  { intros j. unfold fs1, close_cloexec_body.
    destruct (fs !! k) as [[f|]|] eqn:E; simpl; case_decide as Hjk; subst; try done.
    - destruct (cloexec f) eqn:Hc; simpl; [|done].
      by rewrite list_lookup_insert_eq by (by eapply lookup_lt_Some).
    - destruct (cloexec f); [by rewrite list_lookup_insert_ne by done|done]. }
  rewrite !H1. destruct (decide (i = k)) as [->|Hne].
  - rewrite decide_False, decide_True by lia. done.
  - repeat case_decide; try done; lia.
Qed.

Lemma close_cloexec_spec m fd : 0 <= fd →
  file_at (close_cloexec_files cloexec m) fd =
    f ← file_at m fd; if cloexec f then None else Some f.
Proof.
  intros Hfd. unfold close_cloexec_files, file_at; cbn [files]. rewrite close_loop.
  destruct (files m !! Z.to_nat fd) as [o|] eqn:E.
  - pose proof (lookup_lt_Some _ _ _ E). rewrite decide_True by lia. by destruct o.
  - by case_decide.
Qed.
End cloexec.

(** ** Runs of operations *)

(** What a process may ask of its table; the result is dropped. *)
Inductive fd_op :=
| OpPush (file : F)
| OpCopyAnywhere (old_fd : Z)
| OpCopyTo (old_fd new_fd : Z)
| OpRemove (fd : Z)
| OpIsFull
| OpLimit (n : Z)
| OpUmask (n : Z)
| OpCopyAll.

Definition exec m (op : fd_op) : outcome (FdManager A F) :=
  match op with
  | OpPush file => '(_, m') ← push m file; Ret m'
  | OpCopyAnywhere old_fd => '(_, m') ← copy_fd_anywhere m old_fd; Ret m'
  | OpCopyTo old_fd new_fd => '(_, m') ← copy_fd_to m old_fd new_fd; Ret m'
  | OpRemove fd => '(_, m') ← remove_file m fd; Ret m'
  | OpIsFull => '(_, m') ← is_full m; Ret m'
  | OpLimit n => modify_limit m n
  | OpUmask n => Ret (set_umask_and_get_old m n).2
  | OpCopyAll => copy_all m
  end.

(** Descriptors are not negative; [dup3] stays below the limit, and the limit
    is not set to zero or below an open descriptor. *)
Definition allowed m (op : fd_op) : Prop :=
  match op with
  | OpCopyAnywhere fd | OpRemove fd => 0 <= fd
  | OpCopyTo old_fd new_fd => 0 <= old_fd ∧ 0 <= new_fd < limit m
  | OpLimit n => 0 < n ∧ open_below m (clamp n)
  | _ => True
  end.

Definition good m : Prop := inv m ∧ open_below m (limit m).

Lemma good_set m m' fd o : good m → inv m' → table_set m m' fd o → 0 <= fd < limit m → good m'.
Proof.
  intros [_ Hb] Hm' (Hat&Hl&_) Hfd. split; [done|]. intros j Hj. rewrite Hat, Hl by done.
  case_decide; [subst; lia|]. by apply Hb.
Qed.

Lemma good_push m file : good m → ∃ r m', push m file = Ret (r, m') ∧ good m'.
Proof.
  intros Hg. pose proof Hg as [Hm Hb].
  destruct (push_spec m file Hm) as [(fd&m'&Hr&Hfd&_&_&Hm'&Ht)|[Hr _]]; rewrite Hr.
  - eexists _, m'. split; [done|]. by eapply good_set.
  - by eexists _, m.
Qed.

Lemma exec_good m op : good m → allowed m op → ∃ m', exec m op = Ret m' ∧ good m'.
Proof.
  intros Hg Ha. pose proof Hg as [Hm Hb]. destruct op; cbn [exec allowed] in *.
  - destruct (good_push m file Hg) as (r&m'&Hr&?). rewrite Hr. by exists m'.
  - unfold copy_fd_anywhere. rewrite (get_file_spec m old_fd Ha).
    destruct (file_at m old_fd) as [f|]; [|by exists m].
    rewrite bind_Ret. destruct (good_push m f Hg) as (r&m'&Hr&?). rewrite Hr. by exists m'.
  - destruct Ha as [Hold Hnew]. pose proof (copy_fd_to_spec m old_fd new_fd Hm Hold) as Hc.
    assert (0 <= new_fd < 256) as Hn by (destruct Hm as (_&_&?&_); lia). specialize (Hc Hn).
    destruct (file_at m old_fd) as [f|]; [|rewrite Hc; by exists m].
    destruct Hc as (m'&Hr&Hm'&Ht). rewrite Hr. exists m'. split; [done|]. by eapply good_set.
  - pose proof (remove_file_spec m fd Hm Ha) as Hc.
    destruct (file_at m fd) as [f|] eqn:Hf; [|rewrite Hc; by exists m].
    assert (fd < limit m) as Hlt by (apply Hb; [done|by rewrite Hf]).
    destruct (Hc Hlt) as (m'&Hr&Hm'&Ht). rewrite Hr. exists m'. split; [done|].
    by eapply good_set.
  - destruct (is_full_spec m Hm) as (b&m'&Hr&Hm'&Hfs&Hl&_). rewrite Hr. exists m'.
    split; [done|]. split; [done|]. unfold open_below, file_at. by rewrite Hfs, Hl.
  - destruct Ha as [Hn0 Hb']. destruct (modify_limit_inv m n Hm Hn0 Hb Hb') as (m'&Hr&Hm'&Hfs&Hl&_).
    exists m'. split; [done|]. split; [done|]. unfold open_below, file_at. by rewrite Hfs, Hl.
  - eexists. split; [done|]. done.
  - destruct (copy_all_spec m Hm) as (m'&Hr&Hm'&Hl&_&Hat). exists m'. split; [done|].
    split; [done|]. intros j Hj. rewrite Hat, Hl by done. by apply Hb.
Qed.

(** A new table holds the three standard files. *)
Lemma push_unwrap_good m file : good m → limit m = 256 →
  ∀ fd, 0 <= fd < 3 → (∀ j, 0 <= j < fd → file_at m j ≠ None) → 
  (∀ j, fd <= j → file_at m j = None) →
  ∃ m', push_unwrap m file = Ret m' ∧ good m' ∧ table_set m m' fd (Some file).
Proof.
  intros Hg Hl fd Hfd Hused Hunused. pose proof Hg as [Hm _].
  destruct (push_spec m file Hm) as [(k&m'&Hr&Hk&Hnone&Hmin&Hm'&Ht)|[_ Hfull]].
  2:{ exfalso. apply (Hfull fd); [lia|by apply Hunused; lia]. }
  assert (k = fd) as ->.
  { destruct (decide (k < fd)); [exfalso; apply (Hused k); [lia|done]|].
    destruct (decide (fd < k)); [exfalso; apply (Hmin fd); [lia|by apply Hunused; lia]|lia]. }
  exists m'. unfold push_unwrap. rewrite Hr. split; [done|]. split; [by eapply good_set|done].
Qed.

Lemma fd_new_spec stdin stdout stderr um : CAP A = 256 →
  ∃ m, fd_new stdin stdout stderr um = Ret m ∧ good m ∧ limit m = 256 ∧
    ∀ j, 0 <= j → file_at m j =
      if j =? 0 then Some stdin else if j =? 1 then Some stdout
      else if j =? 2 then Some stderr else None.
Proof.
  intros Hcap. unfold fd_new, FD_LIMIT_ORIGIN.
  destruct (fda_new_spec 256 Hcap) as (a&Ha&Hwf&Hfa); [lia|]. run Ha.
  set (m0 := mkFd [] a 256 um : FdManager A F).
  assert (∀ j, file_at m0 j = None) as H0 by done.
  assert (good m0) as Hg0.
  { split; [|by intros j Hj; rewrite H0]. split; [done|]. split; [done|]. split; [done|].
    split; [done|]. intros j Hj. rewrite H0. cbn [fd_allocator m0 limit]. rewrite Hfa by done.
    naive_solver. }
  destruct (push_unwrap_good m0 stdin Hg0) with (fd := 0) as (m1&Hr1&Hg1&Ht1&Hl1&_);
    [done|lia|lia|done|]. run Hr1.
  destruct (push_unwrap_good m1 stdout Hg1) with (fd := 1) as (m2&Hr2&Hg2&Ht2&Hl2&_);
    [by rewrite Hl1|lia|intros j Hj; rewrite Ht1 by lia; by rewrite decide_True by lia
    |intros j Hj; rewrite Ht1 by lia; by rewrite decide_False by lia|]. run Hr2.
  destruct (push_unwrap_good m2 stderr Hg2) with (fd := 2) as (m3&Hr3&Hg3&Ht3&Hl3&_);
    [by rewrite Hl2, Hl1|lia| | |].
  { intros j Hj. rewrite Ht2, Ht1 by lia. repeat case_decide; done || lia. }
  { intros j Hj. rewrite Ht2, Ht1 by lia. by rewrite !decide_False by lia. }
  rewrite Hr3. exists m3. split; [done|]. split; [done|]. split; [by rewrite Hl3, Hl2, Hl1|].
  intros j Hj. rewrite Ht3, Ht2, Ht1, H0 by done.
  repeat case_decide; subst; simpl; try done; zcases.
Qed.

Definition fd_step m m' : Prop := ∃ op, allowed m op ∧ exec m op = Ret m'.

(** ** Theorems *)

(** C8. From a new table, any sequence of allowed operations (inserting,
    duplicating, closing, forking, changing the limit above the open
    descriptors) keeps the allocator and the table in step, and from every
    table so reached each allowed operation returns without a panic. *)
Theorem fd_table_safe stdin stdout stderr um m0 m op : CAP A = 256 →
  fd_new stdin stdout stderr um = Ret m0 → rtc fd_step m0 m → allowed m op →
  good m ∧ ∃ m', exec m op = Ret m' ∧ good m'.
Proof.
  intros Hcap Hnew Hrun Ha. assert (good m) as Hg; [|split; [done|by apply exec_good]].
  destruct (fd_new_spec stdin stdout stderr um Hcap) as (m1&Hr&Hg&_).
  rewrite Hnew in Hr. injection Hr as ->. clear Hnew Ha.
  induction Hrun as [m|m m1' m2 (op'&Ha&He) _ IH]; [done|]. apply IH.
  destruct (exec_good m op' Hg Ha) as (m'&He'&Hg'). rewrite He in He'. by injection He' as ->.
Qed.

(** [push] returns the lowest descriptor that has no file and puts the file
    there, changing no other; it fails exactly when every descriptor below the
    limit has a file, and changes nothing then. *)
Theorem push_lowest m file : inv m →
  (∃ fd m', push m file = Ret (OsOk fd, m') ∧ 0 <= fd < limit m ∧ file_at m fd = None ∧
     (∀ j, 0 <= j < fd → file_at m j ≠ None) ∧ inv m' ∧ table_set m m' fd (Some file)) ∨
  (push m file = Ret (OsErr FdManager_NoAvailableFd, m) ∧
   ∀ j, 0 <= j < limit m → file_at m j ≠ None).
Proof. apply push_spec. Qed.

(** Lowering the limit below an open descriptor and raising it again gives
    the descriptor's bit back to the allocator although its file stays open:
    closing it then panics. *)
Theorem relimit_loses_open_fd m fd f n : inv m → 0 < n <= fd → fd < limit m →
  file_at m fd = Some f →
  ∃ m1 m2, modify_limit m n = Ret m1 ∧ modify_limit m1 (limit m) = Ret m2 ∧
    limit m2 = limit m ∧ file_at m2 fd = Some f ∧ free (fd_allocator m2) fd = true ∧
    remove_file m2 fd = Panic.
Proof.
  intros Hm Hn Hfd Hf. pose proof Hm as (Hcap&Hwf&Hlim&Hnf&Hfree).
  assert (clamp n = n) as Hcn by (unfold clamp; lia).
  assert (clamp (limit m) = limit m) as Hcl by (unfold clamp; lia).
  destruct (modify_limit_spec m n Hm) as (a&Ha&Hwfa&Hset); [lia|]. rewrite Hcn in *.
  set (m1 := mkFd (files m) a n (umask m)) in *.
  assert (∃ a2, modify_limit m1 (limit m) = Ret (mkFd (files m) a2 (limit m) (umask m)) ∧ wf a2 ∧
                free a2 fd = true) as (a2&Ha2&Hwf2&Hfr2).
  { destruct (insert_spec a n (limit m) Hwfa) as (a2&Hi&Hwf2&Hset2); [lia|lia|]. exists a2.
    unfold modify_limit, FD_LIMIT_HARD. fold (clamp (limit m)). rewrite Hcl. cbn [limit m1].
    destruct (Z.ltb_spec (limit m) n); [lia|]. destruct (Z.ltb_spec n (limit m)); [|lia].
    unfold expand_range. cbn [fd_allocator m1]. rewrite Hi. split; [done|]. split; [done|].
    rewrite Hset2. destruct (Z.leb_spec n fd), (Z.ltb_spec fd (limit m)); done || lia. }
  exists m1. eexists. split; [exact Ha|]. split; [exact Ha2|]. split; [done|].
  split; [done|]. split; [done|]. unfold remove_file.
  rewrite (get_file_spec _ fd) by lia.
  change (file_at (mkFd (files m) a2 (limit m) (umask m)) fd) with (file_at m fd).
  rewrite Hf, bind_Ret. cbv beta iota. cbn [fd_allocator].
  assert (0 <= fd < CAP A) as Hcf by lia.
  pose proof (dealloc_spec a2 fd Hwf2 Hcf) as Hd. rewrite Hfr2 in Hd. by rewrite Hd.
Qed.

(** [close_cloexec_files] removes exactly the files to be closed on exec
    from the table, but keeps their descriptors allocated: no later [push] can
    return one of them. *)
Theorem cloexec_leaks_fd (cloexec : F → bool) m fd f : inv m → 0 <= fd < limit m →
  file_at m fd = Some f → cloexec f = true →
  (∀ j, 0 <= j → file_at (close_cloexec_files cloexec m) j =
     g ← file_at m j; if cloexec g then None else Some g) ∧
  file_at (close_cloexec_files cloexec m) fd = None ∧
  free (fd_allocator (close_cloexec_files cloexec m)) fd = false ∧
  ∀ file r m', push (close_cloexec_files cloexec m) file = Ret (OsOk r, m') → r ≠ fd.
Proof.
  intros Hm Hfd Hf Hc. pose proof Hm as (Hcap&Hwf&Hlim&Hnf&Hfree).
  assert (free (fd_allocator m) fd = false) as Hfr.
  { destruct (free (fd_allocator m) fd) eqn:E; [|done]. apply Hfree in E as [_ E]; [|lia].
    by rewrite Hf in E. }
  split; [intros j Hj; by apply close_cloexec_spec|].
  split; [rewrite close_cloexec_spec, Hf by lia; simpl; by rewrite Hc|]. split; [done|].
  intros file r m' Hr ->. unfold push in Hr. change (fd_allocator (close_cloexec_files cloexec m))
    with (fd_allocator m) in Hr.
  destruct (alloc_spec (fd_allocator m) Hwf) as [(k&a&Ha&Hlow&_)|[Ha _]]; rewrite Ha in Hr; simpl in Hr.
  - destruct (update _ k _) in Hr; simpl in Hr; [|done]. injection Hr as <- _.
    destruct Hlow as (_&Hk&_). by rewrite Hk in Hfr.
  - done.
Qed.
End spec.

(** [dup3] to a descriptor of 256 or more on an open file panics: the
    allocator of the table is asked for a bit it does not have. *)
Theorem copy_fd_to_out_of_range_panics {BF : BitFieldU16} {BFS : BitFieldSpec BF} {F : Type}
    (m : FdManager (Tower 1) F) old new f :
  wf (fd_allocator m) → 0 <= old → file_at m old = Some f → 256 <= new →
  copy_fd_to m old new = Panic.
Proof.
  intros Hwf Hold Hf Hnew. unfold copy_fd_to. rewrite (get_file_spec m old Hold), Hf, bind_Ret.
  cbv beta iota. unfold alloc_exact_if_possible, is_allocated.
  assert (test (fd_allocator m) new = Panic) as ->; [|done].
  destruct Hwf as (_&Hl&_). change (node_test (T := BitAlloc16) (fd_allocator m) new = Panic).
  unfold node_test. change (CAP BitAlloc16) with 16.
  assert (index (sub (fd_allocator m)) (new / 16) = Panic) as ->; [|done].
  unfold index. destruct (Z.ltb_spec (new / 16) 0); [dlia|].
  rewrite lookup_ge_None_2; [done|]. eapply Nat.le_trans; [exact (Nat.eq_le_incl _ _ Hl)|].
  apply Nat2Z.inj_le. rewrite Z2Nat.id; dlia.
Qed.

(** ** The theorems at a concrete table

    The [BitAlloc256] the kernel uses, with strings for files. *)

Section witness.
Import BitFieldModel.
Open Scope string_scope.

Definition w_new : outcome (FdManager (Tower 1) string) :=
  fd_new "stdin" "stdout" "stderr" 18.

Lemma w_spec : BitAllocSpec (Tower 1).
Proof. apply tower_spec. lia. Qed.

Lemma w_ok : ∃ m, w_new = Ret m ∧ good m ∧ limit m = 256 ∧ file_at m 0 = Some "stdin" ∧
  file_at m 1 = Some "stdout".
Proof.
  destruct (fd_new_spec (BS := w_spec) "stdin" "stdout" "stderr" 18 eq_refl) as (m&Hr&Hg&Hl&Hat).
  exists m. split; [exact Hr|]. split; [exact Hg|]. split; [exact Hl|].
  clear Hr. split; rewrite Hat by lia; reflexivity.
Qed.

Lemma fd_table_safe_witness :
  ∃ m, w_new = Ret m ∧ good m ∧ ∃ m', exec m (OpCopyTo 1 7) = Ret m' ∧ good m'.
Proof.
  destruct w_ok as (m&Hr&_&Hl&_). exists m. split; [exact Hr|].
  apply (fd_table_safe (BS := w_spec) "stdin" "stdout" "stderr" 18 m m (OpCopyTo 1 7) eq_refl Hr).
  - apply rtc_refl.
  - split; [lia|]. rewrite Hl. lia.
Defined.

Lemma push_lowest_witness : ∃ m : FdManager (Tower 1) string, inv m ∧
  ((∃ fd m', push m "f" = Ret (OsOk fd, m') ∧ 0 <= fd < limit m ∧ file_at m fd = None ∧
     (∀ j, 0 <= j < fd → file_at m j ≠ None) ∧ inv m' ∧ table_set m m' fd (Some "f")) ∨
   (push m "f" = Ret (OsErr FdManager_NoAvailableFd, m) ∧
    ∀ j, 0 <= j < limit m → file_at m j ≠ None)).
Proof.
  destruct w_ok as (m&_&[Hm _]&_). exists m. split; [exact Hm|].
  exact (push_lowest (BS := w_spec) m "f" Hm).
Defined.

Lemma relimit_loses_open_fd_witness :
  ∃ m m1 m2 : FdManager (Tower 1) string, file_at m 1 = Some "stdout" ∧ modify_limit m 1 = Ret m1 ∧
    modify_limit m1 256 = Ret m2 ∧ remove_file m2 1 = Panic.
Proof.
  destruct w_ok as (m&_&[Hm _]&Hl&_&Hf). exists m.
  destruct (relimit_loses_open_fd (BS := w_spec) m 1 "stdout" 1 Hm) as (m1&m2&H1&H2&_&_&_&Hp);
    [lia|lia|exact Hf|].
  exists m1, m2. rewrite Hl in H2. exact (conj Hf (conj H1 (conj H2 Hp))).
Defined.

Lemma cloexec_leaks_fd_witness :
  ∃ m : FdManager (Tower 1) string, file_at m 1 = Some "stdout" ∧
    file_at (close_cloexec_files (String.eqb "stdout") m) 1 = None ∧
    free (fd_allocator (close_cloexec_files (String.eqb "stdout") m)) 1 = false.
Proof.
  destruct w_ok as (m&_&[Hm _]&Hl&_&Hf). exists m. split; [exact Hf|].
  destruct (cloexec_leaks_fd (BS := w_spec) (String.eqb "stdout") m 1 "stdout" Hm)
    as (_&H1&H2&_); [lia|exact Hf|reflexivity|exact (conj H1 H2)].
Defined.

Lemma copy_fd_to_out_of_range_panics_witness :
  ∃ m : FdManager (Tower 1) string, file_at m 1 = Some "stdout" ∧ copy_fd_to m 1 256 = Panic.
Proof.
  destruct w_ok as (m&_&[Hm _]&Hl&_&Hf). exists m. split; [exact Hf|].
  apply (copy_fd_to_out_of_range_panics m 1 256 "stdout"); [apply Hm|lia|exact Hf|lia].
Defined.
End witness.
