(* ===== verification/PageTable.v ===== *)
(** * Sv39 page tables (kernel/src/memory/page_table.rs)

    The entries live in memory: [pt_mem] maps the kernel virtual address of a
    word to its value, and new tables take frames from the frame allocator
    [A].  Registers ([satp]) and TLB flushes are outside the model. *)

From S2P Require Import Prelude BitAlloc Addr PageFrame Errors.

(** ** [PTEFlags] and [PageTableEntry] *)

Definition VALID : Z := 1.
Definition READ : Z := 2.
Definition WRITE : Z := 4.
Definition EXECUTE : Z := 8.
Definition USER : Z := 16.
Definition GLOBAL : Z := 32.
Definition ACCESS : Z := 64.
Definition DIRTY : Z := 128.

Definition pte_new (paddr flags : Z) : Z := Z.lor paddr flags.
Definition pte_empty : Z := 0.

(** [PTEFlags::from_bits(bits as u8).unwrap()]: all eight bits are flags. *)
Definition pte_flags (bits : Z) : Z := wrap8 bits.
Definition pte_is_empty (bits : Z) : bool := pte_flags bits =? 0.
Definition pte_addr (bits : Z) : Z :=
  shl 64 (Z.land (Z.shiftr bits 10) (shl 64 1 44 - 1)) 12.
Definition has_flag (f bits : Z) : bool := negb (Z.land (pte_flags bits) f =? 0).
Definition pte_is_valid : Z → bool := has_flag VALID.
Definition pte_readable : Z → bool := has_flag READ.
Definition pte_writable : Z → bool := has_flag WRITE.
Definition pte_executable : Z → bool := has_flag EXECUTE.

Definition pte_set_addr (bits paddr : Z) : Z :=
  Z.lor (shl 64 (Z.land (Z.shiftr paddr 12) (shl 64 1 44 - 1)) 10) (Z.land bits 0xff).
Definition pte_set_flags (bits flags : Z) : Z := Z.lor (Z.land bits (wnot 64 0xff)) flags.
Definition pte_set_all (paddr flags : Z) : Z := Z.lor (shl 64 (Z.shiftr paddr 12) 10) flags.
Definition pte_clear : Z := 0.

(** ** Memory *)

Definition pt_mem : Type := Z → Z.

Definition store (mem : pt_mem) (a x : Z) : pt_mem := λ b, if b =? a then x else mem b.

(** [frame.zero()] *)
Definition zero_page (mem : pt_mem) (vaddr : Z) : pt_mem :=
  foldl (λ mem i, store mem (wrap64 (vaddr + 8 * i)) 0) mem (seqZ 0 512).

(** The address of entry [idx] of the table at [paddr]. *)
Definition get_pte_at (paddr idx : Z) : Z := wrap64 (phys_to_virt paddr + 8 * idx).

(** ** [PageTable] *)

Record PageTable := mkPageTable { root_paddr : Z; frames : list Frame }.

Section page_table.
Context {A : Type} `{BitAlloc A} `{PageFrameConfig}.

(** The world of a page table: the frame allocator and the memory. *)
Definition PM : Type → Type := M (A * pt_mem).

Definition Frame_new : PM (option Frame) := λ '(a, mem),
  '(r, a') ← frame_new a; Ret (r, (a', mem)).

Definition Frame_zero (f : Frame) : PM unit := λ '(a, mem),
  Ret (tt, (a, zero_page mem (frame_as_ptr f))).

Definition load (a : Z) : PM Z := λ '(al, mem), Ret (mem a, (al, mem)).
Definition put (a x : Z) : PM unit := λ '(al, mem), Ret (tt, (al, store mem a x)).

(** [PageTableEntry::alloc_and_set] on the entry at [pte]. *)
Definition alloc_and_set (pte : Z) : PM (option Frame) :=
  r ← Frame_new;
  match r with
  | None => mret None
  | Some frame =>
      _ ← Frame_zero frame;
      _ ← put pte (pte_set_all (start_paddr frame) VALID);
      mret (Some frame)
  end.

Definition pt_new : PM (OSResult PageTable) :=
  r ← Frame_new;
  match r with
  | Some frame =>
      _ ← Frame_zero frame;
      mret (OsOk (mkPageTable (start_paddr frame) [frame]))
  | None => mret (OsErr PageTable_FrameAllocFailed)
  end.

Definition from_root (paddr : Z) : PageTable := mkPageTable paddr [].

Definition get_addr_create (pt : PageTable) (pte : Z) : PM (option Z * PageTable) :=
  bits ← load pte;
  if pte_is_valid bits then mret (Some (pte_addr bits), pt)
  else
    r ← alloc_and_set pte;
    match r with
    | Some frame =>
        bits ← load pte;
        mret (Some (pte_addr bits), mkPageTable (root_paddr pt) (frames pt ++ [frame]))
    | None => mret (None, pt)
    end.

Definition find_pte_create (pt : PageTable) (vaddr : Z) : PM (option Z * PageTable) :=
  let '(line0, line1, line2) := pte_idx_of_virt_addr vaddr in
  '(r, pt) ← get_addr_create pt (get_pte_at (root_paddr pt) line0);
  match r with
  | None => mret (None, pt)
  | Some paddr =>
      '(r, pt) ← get_addr_create pt (get_pte_at paddr line1);
      match r with
      | None => mret (None, pt)
      | Some paddr => mret (Some (get_pte_at paddr line2), pt)
      end
  end.

Definition find_pte (pt : PageTable) (mem : pt_mem) (vaddr : Z) : option Z :=
  let '(line0, line1, line2) := pte_idx_of_virt_addr vaddr in
  let pte := mem (get_pte_at (root_paddr pt) line0) in
  if pte_is_valid pte then
    let pte := mem (get_pte_at (pte_addr pte) line1) in
    if pte_is_valid pte then Some (get_pte_at (pte_addr pte) line2) else None
  else None.

Definition map_kernel_regions (pt kernel_pt : PageTable) : PM unit :=
  foldMW (λ _ line,
      bits ← load (get_pte_at (root_paddr kernel_pt) line);
      put (get_pte_at (root_paddr pt) line) bits) tt (seqZ 510 2).

Definition pt_map (pt : PageTable) (vaddr paddr flags : Z) : PM (OSResult unit * PageTable) :=
  '(r, pt) ← find_pte_create pt vaddr;
  match r with
  | Some pte =>
      bits ← load pte;
      if pte_is_valid bits then mret (OsErr PageTable_PageAlreadyMapped, pt)
      else if (flags =? 0) : bool then mret (OsOk tt, pt)
      else
        _ ← put pte (pte_set_all paddr (Z.lor (Z.lor (Z.lor flags VALID) ACCESS) DIRTY));
        mret (OsOk tt, pt)
  | None => mret (OsErr PageTable_FrameAllocFailed, pt)
  end.

Definition pt_set_flags (pt : PageTable) (vaddr flags : Z) : PM (OSResult unit * PageTable) :=
  '(r, pt) ← find_pte_create pt vaddr;
  match r with
  | Some pte =>
      bits ← load pte;
      if pte_is_valid bits then
        _ ← put pte (pte_set_flags bits (Z.lor (Z.lor (Z.lor flags VALID) ACCESS) DIRTY));
        mret (OsOk tt, pt)
      else mret (OsErr PageTable_PageNotMapped, pt)
  | None => mret (OsErr PageTable_FrameAllocFailed, pt)
  end.

Definition pt_unmap (pt : PageTable) (vaddr : Z) : PM (OSResult unit) := λ '(a, mem),
  match find_pte pt mem vaddr with
  | Some pte =>
      if pte_is_valid (mem pte) then Ret (OsOk tt, (a, store mem pte pte_clear))
      else Ret (OsErr PageTable_PageNotMapped, (a, mem))
  | None => Ret (OsErr PageTable_VirtNotFound, (a, mem))
  end.

Definition pt_query (pt : PageTable) (mem : pt_mem) (vaddr : Z) : option Z :=
  option_map (λ pte, pte_addr (mem pte)) (find_pte pt mem vaddr).

Definition token (pt : PageTable) : Z := Z.lor (shl 64 8 60) (root_paddr pt).

(** [force_write] up to the copy: where the bytes go, or [None] for [false]. *)
Definition force_write (pt : PageTable) (mem : pt_mem) (start data_len : Z) : outcome (option Z) :=
  let start_page := align_down start in
  let end_page := align_up (wrap64 (start + data_len)) in
  if end_page =? wrap64 (start_page + 1) then Ret (pt_query pt mem start) else Panic.
End page_table.
