(* ===== verification/PageTableSpec.v ===== *)
(** * Page tables implement a map from virtual pages to entries

    Against the frame allocator's ownership invariant: the tables of a page
    table form a tree of pages it owns, and [map], [set_flags], [unmap] and
    [query] act on the entry of one virtual page and on nothing else. *)

From S2P Require Import Prelude BitAlloc BitAllocSpec Addr PageFrame PageFrameSpec Errors PageTable.

(** ** Entries *)

Lemma pte_addr_div bits : 0 <= bits →
  pte_addr bits = (bits / 1024) mod 2 ^ 44 * 4096.
Proof.
  intros Hb. unfold pte_addr. change (shl 64 1 44 - 1) with (Z.ones 44).
  rewrite Z.shiftr_div_pow2, land_low by lia. change (2 ^ 10) with 1024.
  unfold shl. change (12 mod 64) with 12. rewrite Z.shiftl_mul_pow2 by lia. change (2 ^ 12) with 4096.
  apply wrap_small. unfold word. pose proof (Z.mod_pos_bound (bits / 1024) (2 ^ 44)). lia.
Qed.

Lemma pte_set_all_sum p f : 0 <= p < 2 ^ 56 → 0 <= f < 1024 →
  pte_set_all p f = p / 4096 * 1024 + f.
Proof.
  intros Hp Hf. unfold pte_set_all, shl. change (10 mod 64) with 10.
  rewrite Z.shiftr_div_pow2, Z.shiftl_mul_pow2 by lia. change (2 ^ 12) with 4096.
  rewrite wrap_small by (unfold word; dlia). change (2 ^ 10) with 1024.
  by apply (lor_low (p / 4096) f 10).
Qed.

Lemma pte_addr_set_all p f : 0 <= p < 2 ^ 56 → 0 <= f < 1024 → p mod 4096 = 0 →
  pte_addr (pte_set_all p f) = p.
Proof.
  intros Hp Hf Hpm. rewrite pte_set_all_sum, pte_addr_div by (done || dlia).
  replace ((p / 4096 * 1024 + f) / 1024) with (p / 4096) by dlia.
  rewrite Z.mod_small; dlia.
Qed.

Lemma pte_flags_set_all p f : 0 <= p < 2 ^ 56 → 0 <= f < 256 →
  pte_flags (pte_set_all p f) = f.
Proof.
  intros Hp Hf. rewrite pte_set_all_sum by lia. unfold pte_flags, wrap. change (2 ^ 8) with 256. dlia.
Qed.

Lemma pte_set_flags_sum bits f : word 64 bits → 0 <= f < 256 →
  pte_set_flags bits f = bits / 256 * 256 + f.
Proof.
  intros Hb Hf. unfold pte_set_flags. change (wnot 64 0xff) with (Z.shiftl (Z.ones 56) 8).
  rewrite land_field by lia. rewrite Z.mod_small; [by apply (lor_low _ _ 8)|].
  unfold word in Hb. change (2 ^ 8) with 256. dlia.
Qed.

Lemma pte_addr_set_flags bits f : word 64 bits → 0 <= f < 256 →
  pte_addr (pte_set_flags bits f) = pte_addr bits ∧ pte_flags (pte_set_flags bits f) = f.
Proof.
  intros Hb Hf. rewrite pte_set_flags_sum by done. pose proof Hb as [Hb0 _]. split.
  - rewrite !pte_addr_div by dlia. do 2 f_equal. dlia.
  - unfold pte_flags, wrap. change (2 ^ 8) with 256. dlia.
Qed.

Lemma pte_valid_odd bits : pte_is_valid bits = Z.odd bits.
Proof.
  unfold pte_is_valid, has_flag, VALID, pte_flags, wrap.
  change 1 with (Z.ones 1). rewrite Z.land_ones by lia. change (2 ^ 1) with 2. change (2 ^ 8) with 256.
  rewrite Zodd_mod. destruct (Z.eqb_spec (bits mod 256 mod 2) 0), (Z.eq_dec (bits mod 2) 1) as [He|He];
    simpl; try rewrite He; try (exfalso; dlia); try done.
  assert (bits mod 2 = 0) as -> by dlia. done.
Qed.

Lemma pte_valid_flags bits : pte_is_valid bits = Z.odd (pte_flags bits).
Proof.
  rewrite pte_valid_odd. unfold pte_flags, wrap. rewrite !Zodd_mod.
  f_equal. change (2 ^ 8) with 256. dlia.
Qed.

(** The flags [map] and [set_flags] write. *)
Lemma full_flags f : 0 <= f < 256 →
  0 <= Z.lor (Z.lor (Z.lor f VALID) ACCESS) DIRTY < 256 ∧
  Z.odd (Z.lor (Z.lor (Z.lor f VALID) ACCESS) DIRTY) = true.
Proof.
  intros Hf. split.
  - apply (word_of_bits 8); [lia| |].
    + rewrite !Z.lor_nonneg. unfold VALID, ACCESS, DIRTY. lia.
    + intros i Hi. rewrite !Z.lor_spec, (testbit_high 8 f) by (done || unfold word; lia).
      rewrite !(testbit_high 8) by (done || (unfold word, VALID, ACCESS, DIRTY; lia)). done.
  - rewrite <- !Z.bit0_odd, !Z.lor_spec. simpl. by rewrite orb_true_r.
Qed.

(** ** Addresses of entries *)

(** [paddr] is the start of a page the offset mapping covers. *)
Definition page_at (paddr : Z) : Prop := 0 <= paddr < 2 ^ 56 ∧ paddr mod 4096 = 0.

Lemma wrap64_inj x y : wrap64 x = wrap64 y → Z.abs (x - y) < 2 ^ 64 → x = y.
Proof. unfold wrap. intros. dlia. Qed.

Lemma get_pte_at_sum p i : get_pte_at p i = wrap64 (p + PHYS_VIRT_OFFSET + 8 * i).
Proof. unfold get_pte_at, phys_to_virt, wrap. by rewrite Zplus_mod_idemp_l. Qed.

Lemma get_pte_at_inj p q i j : page_at p → page_at q → 0 <= i < 512 → 0 <= j < 512 →
  get_pte_at p i = get_pte_at q j → p = q ∧ i = j.
Proof.
  intros [Hp Hpm] [Hq Hqm] Hi Hj He. rewrite !get_pte_at_sum in He.
  apply wrap64_inj in He; [|lia]. split; dlia.
Qed.

Lemma store_eq mem a x : store mem a x a = x.
Proof. unfold store. by rewrite Z.eqb_refl. Qed.

Lemma store_ne mem a x b : b ≠ a → store mem a x b = mem b.
Proof. unfold store. by destruct (Z.eqb_spec b a). Qed.

Lemma foldl_store_spec mem v n b :
  foldl (λ mem i, store mem (wrap64 (v + 8 * i)) 0) mem (seqZ 0 (Z.of_nat n)) b =
  if existsb (λ i, b =? wrap64 (v + 8 * i)) (seqZ 0 (Z.of_nat n)) then 0 else mem b.
Proof.
  induction n as [|n IH]; [done|].
  replace (Z.of_nat (S n)) with (Z.of_nat n + 1) by lia. rewrite seqZ_app, foldl_app, existsb_app by lia.
  change (seqZ (0 + Z.of_nat n) 1) with [0 + (0 + Z.of_nat n)]. rewrite !Z.add_0_l. cbn [foldl existsb].
  unfold store at 1. rewrite IH, orb_false_r.
  destruct (b =? wrap64 (v + 8 * Z.of_nat n)); [by rewrite orb_true_r|by rewrite orb_false_r].
Qed.

Lemma zero_page_in mem paddr i : 0 <= i < 512 →
  zero_page mem (phys_to_virt paddr) (get_pte_at paddr i) = 0.
Proof.
  intros Hi. unfold zero_page. rewrite (foldl_store_spec _ _ 512).
  assert (existsb (λ j, get_pte_at paddr i =? wrap64 (phys_to_virt paddr + 8 * j)) (seqZ 0 (Z.of_nat 512)) = true) as ->; [|done].
  apply existsb_exists. exists i. split; [|by apply Z.eqb_eq].
  apply list_elem_of_In, elem_of_seqZ. lia.
Qed.

Lemma zero_page_out mem paddr b : (∀ i, 0 <= i < 512 → b ≠ get_pte_at paddr i) →
  zero_page mem (phys_to_virt paddr) b = mem b.
Proof.
  intros Hb. unfold zero_page. rewrite (foldl_store_spec _ _ 512).
  destruct (existsb _ _) eqn:He; [|done]. apply existsb_exists in He as (i&Hi%list_elem_of_In&He).
  apply elem_of_seqZ in Hi. apply Z.eqb_eq in He. exfalso. apply (Hb i); [lia|done].
Qed.

(** ** The tree of tables

    A path lists the indices from the last level up, [[line1; line0]]; [tbl]
    is the table it leads to. *)

Fixpoint tbl (root : Z) (mem : pt_mem) (p : list Z) : option Z :=
  match p with
  | [] => Some root
  | i :: p' =>
      match tbl root mem p' with
      | Some a =>
          let e := mem (get_pte_at a i) in
          if pte_is_valid e then Some (pte_addr e) else None
      | None => None
      end
  end.

(** The page table's own lines of the root are those below [top]. *)
Fixpoint path_ok (top : Z) (p : list Z) : Prop :=
  match p with
  | [] => True
  | i :: p' => 0 <= i < (match p' with [] => top | _ => 512 end) ∧ path_ok top p'
  end.

(** The entry of a page: its last index and the path of its table. *)
Definition entry (root : Z) (mem : pt_mem) (p : list Z) (i : Z) : Z :=
  match tbl root mem p with Some a => mem (get_pte_at a i) | None => 0 end.

Definition pages_of (fs : list Frame) : list Z := start_paddr <$> fs.

Record pt_inv (top : Z) (pt : PageTable) (mem : pt_mem) : Prop := {
  pt_root : root_paddr pt ∈ pages_of (frames pt);
  pt_owned p a : path_ok top p → (length p <= 2)%nat → tbl (root_paddr pt) mem p = Some a →
    a ∈ pages_of (frames pt);
  pt_inj p q a : path_ok top p → path_ok top q → (length p <= 2)%nat → (length q <= 2)%nat →
    tbl (root_paddr pt) mem p = Some a → tbl (root_paddr pt) mem q = Some a → p = q }.

Section tree.
Context (top : Z) (Htop : 0 < top <= 512).

Lemma path_idx i p : path_ok top (i :: p) → 0 <= i < 512.
Proof. destruct p; simpl; lia. Qed.

Lemma path_tail i p : path_ok top (i :: p) → path_ok top p.
Proof. by intros [_ ?]. Qed.

(** A write to one entry leaves the tables that are not below it. *)
Lemma tbl_store pt mem p a i x q :
  pt_inv top pt mem → (∀ b, b ∈ pages_of (frames pt) → page_at b) →
  path_ok top (i :: p) → (length p <= 2)%nat → tbl (root_paddr pt) mem p = Some a →
  path_ok top q → (length q <= 3)%nat → (∀ s, q ≠ s ++ i :: p) →
  tbl (root_paddr pt) (store mem (get_pte_at a i) x) q = tbl (root_paddr pt) mem q.
Proof.
  intros Hinv Hpages Hip Hl Ha. induction q as [|j q IH]; intros Hq Hlq Hs; [done|]. simpl in Hlq |- *.
  rewrite IH; [|by eapply path_tail|lia|intros s ->; by apply (Hs (j :: s))].
  destruct (tbl (root_paddr pt) mem q) as [b|] eqn:Hb; [|done].
  rewrite store_ne; [done|]. intros He.
  assert (page_at a) as Hpa by (exact (Hpages _ (pt_owned _ _ _ Hinv p a (path_tail _ _ Hip) Hl Ha))).
  assert (path_ok top q ∧ (length q <= 2)%nat) as [Hqo Hql] by (split; [by eapply path_tail|lia]).
  assert (page_at b) as Hpb by (exact (Hpages _ (pt_owned _ _ _ Hinv q b Hqo Hql Hb))).
  apply get_pte_at_inj in He as [-> ->]; try done; [|by apply (path_idx _ q)|by apply (path_idx _ p)].
  apply (Hs []). simpl. f_equal. apply (pt_inj _ _ _ Hinv q p a); try done; by eapply path_tail.
Qed.

Lemma entry_store_other pt mem p a i x q j :
  pt_inv top pt mem → (∀ b, b ∈ pages_of (frames pt) → page_at b) →
  path_ok top (i :: p) → (length p <= 2)%nat → tbl (root_paddr pt) mem p = Some a →
  path_ok top (j :: q) → (length q <= 2)%nat → (∀ s, j :: q ≠ s ++ i :: p) →
  entry (root_paddr pt) (store mem (get_pte_at a i) x) q j = entry (root_paddr pt) mem q j.
Proof.
  intros Hinv Hpages Hip Hl Ha Hq Hlq Hs. unfold entry.
  rewrite (tbl_store pt mem p a i x q); try done; [|by eapply path_tail|lia|].
  2: { intros s ->. by apply (Hs (j :: s)). }
  destruct (tbl (root_paddr pt) mem q) as [b|] eqn:Hb; [|done]. apply store_ne. intros He.
  assert (page_at a) as Hpa by (exact (Hpages _ (pt_owned _ _ _ Hinv p a (path_tail _ _ Hip) Hl Ha))).
  assert (page_at b) as Hpb by (exact (Hpages _ (pt_owned _ _ _ Hinv q b (path_tail _ _ Hq) Hlq Hb))).
  apply get_pte_at_inj in He as [-> ->]; try done; [|by eapply path_idx|by eapply path_idx].
  apply (Hs []). simpl. f_equal. apply (pt_inj _ _ _ Hinv q p a); try done; by eapply path_tail.
Qed.

(** Memory that agrees on the tables' pages has the same tree. *)
Lemma tbl_agree root mem mem' q :
  (∀ p a i, path_ok top (i :: p) → (length p <= 2)%nat → tbl root mem p = Some a →
     mem' (get_pte_at a i) = mem (get_pte_at a i)) →
  path_ok top q → (length q <= 3)%nat → tbl root mem' q = tbl root mem q.
Proof.
  intros Hag. induction q as [|j q IH]; intros Hq Hl; [done|]. simpl in Hl |- *.
  rewrite IH; [|by eapply path_tail|lia]. destruct (tbl root mem q) as [b|] eqn:Hb; [|done].
  by rewrite (Hag q b j) by (done || lia).
Qed.

Lemma tbl_None_below root mem p s : tbl root mem p = None → tbl root mem (s ++ p) = None.
Proof. intros Hp. induction s as [|j s IH]; simpl; [done|]. by rewrite IH. Qed.

(** Nothing lies below a table of zeros. *)
Lemma tbl_zero_below root mem p f s : tbl root mem p = Some f →
  (∀ j, 0 <= j < 512 → mem (get_pte_at f j) = 0) → path_ok top (s ++ p) → s ≠ [] →
  tbl root mem (s ++ p) = None.
Proof.
  intros Hp Hz. induction s as [|j s IH]; intros Hok Hs; [done|].
  destruct s as [|k s]; simpl app in *.
  - simpl. rewrite Hp, Hz by (by eapply path_idx). done.
  - cbn [tbl] in *. by rewrite IH by (done || by eapply path_tail).
Qed.

(** [pt'] has the tables of [pt] and perhaps more, the same entries, and only
    its own pages changed. *)
Record grew (pt : PageTable) (mem : pt_mem) (pt' : PageTable) (mem' : pt_mem) : Prop := {
  grew_root : root_paddr pt' = root_paddr pt;
  grew_frames : ∃ new, frames pt' = frames pt ++ new;
  grew_tbl q b : path_ok top q → (length q <= 2)%nat → tbl (root_paddr pt) mem q = Some b →
    tbl (root_paddr pt) mem' q = Some b;
  grew_entry q j : path_ok top (j :: q) → length q = 2%nat →
    entry (root_paddr pt) mem' q j = entry (root_paddr pt) mem q j;
  grew_outside x : (∀ b i, b ∈ pages_of (frames pt') → 0 <= i < 512 → x ≠ get_pte_at b i) →
    mem' x = mem x }.

Lemma grew_refl pt mem : grew pt mem pt mem.
Proof. split; try done. exists []. by rewrite app_nil_r. Qed.

Lemma grew_trans pt1 mem1 pt2 mem2 pt3 mem3 :
  grew pt1 mem1 pt2 mem2 → grew pt2 mem2 pt3 mem3 → grew pt1 mem1 pt3 mem3.
Proof.
  intros [Hr1 [n1 Hf1] Ht1 He1 Ho1] [Hr2 [n2 Hf2] Ht2 He2 Ho2]. rewrite Hr1 in Ht2, He2. split.
  - congruence.
  - exists (n1 ++ n2). by rewrite Hf2, Hf1, app_assoc.
  - eauto.
  - intros. rewrite He2 by done. by apply He1.
  - intros x Hx. rewrite Ho2 by done. apply Ho1. intros b i Hb. apply Hx.
    unfold pages_of in *. rewrite Hf2, fmap_app. apply elem_of_app. by left.
Qed.

Section graft.
Context (pt : PageTable) (mem : pt_mem) (p : list Z) (a i : Z) (fr : Frame).
Context (Hinv : pt_inv top pt mem) (Hpages : ∀ b, b ∈ pages_of (frames pt) → page_at b).
Context (Hip : path_ok top (i :: p)) (Hl : (length p <= 1)%nat).
Context (Ha : tbl (root_paddr pt) mem p = Some a).
Context (Hinvalid : pte_is_valid (mem (get_pte_at a i)) = false).
Context (Hf : page_at (start_paddr fr)) (Hfresh : start_paddr fr ∉ pages_of (frames pt)).

Let mem1 := zero_page mem (phys_to_virt (start_paddr fr)).
Let mem2 := store mem1 (get_pte_at a i) (pte_set_all (start_paddr fr) VALID).
Let pt' := mkPageTable (root_paddr pt) (frames pt ++ [fr]).

Lemma graft_agree q b j : path_ok top (j :: q) → (length q <= 2)%nat →
  tbl (root_paddr pt) mem q = Some b → mem1 (get_pte_at b j) = mem (get_pte_at b j).
Proof.
  intros Hq Hlq Hb. apply zero_page_out. intros k Hk He.
  pose proof (pt_owned _ _ _ Hinv q b (path_tail _ _ Hq) Hlq Hb) as Ho.
  apply get_pte_at_inj in He as [-> _]; auto. by eapply path_idx.
Qed.

Lemma graft_tbl1 q : path_ok top q → (length q <= 3)%nat →
  tbl (root_paddr pt) mem1 q = tbl (root_paddr pt) mem q.
Proof. apply tbl_agree, graft_agree. Qed.

Lemma graft_entry1 q j : path_ok top (j :: q) → (length q <= 2)%nat →
  entry (root_paddr pt) mem1 q j = entry (root_paddr pt) mem q j.
Proof.
  intros Hq Hlq. unfold entry. rewrite graft_tbl1 by (lia || by eapply path_tail).
  destruct (tbl (root_paddr pt) mem q) eqn:Hb; [|done]. by eapply graft_agree.
Qed.

Lemma graft_inv1 : pt_inv top pt mem1.
Proof.
  destruct Hinv as [H1 H2 H3]. split; [done| |].
  - intros q b Hq Hlq. rewrite graft_tbl1 by (done || lia). by apply H2.
  - intros q q' b Hq Hq' Hlq Hlq'. rewrite !graft_tbl1 by (done || lia). by apply H3.
Qed.

Lemma graft_a : page_at a ∧ a ≠ start_paddr fr ∧ tbl (root_paddr pt) mem1 p = Some a.
Proof.
  assert (path_ok top p) as Hp by (by eapply path_tail).
  assert (a ∈ pages_of (frames pt)) as Hin by (apply (pt_owned _ _ _ Hinv p); (done || lia)).
  split_and!; [auto|by intros ->|]. by rewrite graft_tbl1 by (done || lia).
Qed.

Lemma graft_new : tbl (root_paddr pt) mem2 (i :: p) = Some (start_paddr fr).
Proof.
  destruct graft_a as (Hpa&_&Ha1). cbn [tbl]. unfold mem2 at 1.
  rewrite (tbl_store pt mem1 p a i); try done.
  - rewrite Ha1. unfold mem2. rewrite store_eq, pte_valid_odd. destruct Hf as [Hf1 Hf2].
    rewrite pte_addr_set_all by (done || (unfold VALID; lia)).
    rewrite pte_set_all_sum by (done || (unfold VALID; lia)).
    replace (_ / 4096 * 1024 + VALID) with (VALID + 2 * (start_paddr fr / 4096 * 512)) by lia.
    by rewrite Z.odd_add_mul_2.
  - apply graft_inv1.
  - lia.
  - by eapply path_tail.
  - lia.
  - intros s Hs. apply (f_equal length) in Hs. rewrite length_app in Hs. simpl in Hs. lia.
Qed.

Lemma graft_zero j : 0 <= j < 512 → mem2 (get_pte_at (start_paddr fr) j) = 0.
Proof.
  intros Hj. destruct graft_a as (Hpa&Hne&_). unfold mem2. rewrite store_ne; [by apply zero_page_in|].
  intros He. apply get_pte_at_inj in He as [? _]; try done. by eapply path_idx.
Qed.

Lemma graft_below s : path_ok top (s ++ i :: p) → s ≠ [] →
  tbl (root_paddr pt) mem2 (s ++ i :: p) = None.
Proof. apply (tbl_zero_below _ _ _ (start_paddr fr)); [apply graft_new|apply graft_zero]. Qed.

Lemma graft_other q : path_ok top q → (length q <= 3)%nat → (∀ s, q ≠ s ++ i :: p) →
  tbl (root_paddr pt) mem2 q = tbl (root_paddr pt) mem q.
Proof.
  intros Hq Hlq Hs. destruct graft_a as (_&_&Ha1). unfold mem2.
  rewrite (tbl_store pt mem1 p a i); try done; [by apply graft_tbl1|apply graft_inv1|lia].
Qed.

Lemma graft_old_None s : tbl (root_paddr pt) mem (s ++ i :: p) = None.
Proof. apply tbl_None_below. cbn [tbl]. by rewrite Ha, Hinvalid. Qed.

(** Either a path goes through the new table or it does not. *)
Lemma graft_path q : (∃ s, q = s ++ i :: p) ∨ ∀ s, q ≠ s ++ i :: p.
Proof.
  destruct (decide ((i :: p) `suffix_of` q)) as [[s Hs]|Hn]; [left; by exists s|right].
  intros s Hs. apply Hn. by exists s.
Qed.

Lemma graft_tbl_cases q b : path_ok top q → (length q <= 2)%nat →
  tbl (root_paddr pt) mem2 q = Some b →
  (q = i :: p ∧ b = start_paddr fr) ∨
  (tbl (root_paddr pt) mem q = Some b ∧ b ∈ pages_of (frames pt)).
Proof.
  intros Hq Hlq Hb. destruct (graft_path q) as [[s ->]|Hs].
  - destruct s as [|j s]; [|by rewrite graft_below in Hb].
    left. simpl app in *. rewrite graft_new in Hb. by simplify_eq.
  - right. rewrite graft_other in Hb by (done || lia). split; [done|].
    by apply (pt_owned _ _ _ Hinv q).
Qed.

Lemma graft_inv2 : pt_inv top pt' mem2.
Proof.
  assert (pages_of (frames pt') = pages_of (frames pt) ++ [start_paddr fr]) as Hpg
    by (unfold pages_of; simpl; by rewrite fmap_app).
  split; simpl root_paddr.
  - rewrite Hpg, elem_of_app. left. by destruct Hinv.
  - intros q b Hq Hlq [[-> ->]|[_ ?]]%graft_tbl_cases; try done; rewrite Hpg, elem_of_app, list_elem_of_singleton; auto.
  - intros q q' b Hq Hq' Hlq Hlq' [[-> ->]|[H1 H2]]%graft_tbl_cases [[-> ?]|[H1' ?]]%graft_tbl_cases;
      try done; [by subst|]. by apply (pt_inj _ _ _ Hinv q q' b).
Qed.

Lemma graft_grew : grew pt mem pt' mem2.
Proof.
  split; [done|by exists [fr]| | |].
  - intros q b Hq Hlq Hb. destruct (graft_path q) as [[s ->]|Hs]; [by rewrite graft_old_None in Hb|].
    by rewrite graft_other by (done || lia).
  - intros q j Hq Hlq. destruct (graft_path q) as [[s ->]|Hs].
    + unfold entry. rewrite graft_old_None. destruct s as [|k s].
      * simpl app. rewrite graft_new. apply graft_zero. by eapply path_idx.
      * rewrite graft_below; [done|by eapply path_tail|done].
    + rewrite <- graft_entry1 by (done || lia). destruct graft_a as (_&_&Ha1).
      apply (entry_store_other pt mem1 p a i); try done; [apply graft_inv1|lia|lia|].
      intros [|k s] Hs'; simpl in Hs'; simplify_eq; [simpl in *; lia|]. by apply (Hs s).
  - intros x Hx. unfold mem2. rewrite store_ne.
    + apply zero_page_out. intros k Hk ->. apply (Hx (start_paddr fr) k); try done.
      unfold pages_of; simpl. rewrite fmap_app. apply elem_of_app. right. left.
    + intros ->. apply (Hx a i); [|by eapply path_idx|done].
      unfold pages_of; simpl. rewrite fmap_app. apply elem_of_app. left.
      apply (pt_owned _ _ _ Hinv p a); [by eapply path_tail|lia|done].
Qed.
End graft.
End tree.

(** ** The operations *)

(** A configuration whose pages the entries and the offset mapping can name. *)
Class PtConfigOk (cfg : PageFrameConfig) (cap : Z) {CO : ConfigOk cfg cap} : Prop := {
  base_aligned : base_paddr mod 4096 = 0;
  base_fits : base_paddr + cap * PAGE_SIZE <= 2 ^ 56;
  virt_is_offset p : phys_addr_to_virt_addr p = phys_to_virt p }.

(** The index of the page of an address in the 39-bit space. *)
Definition vpn (v : Z) : Z := (v / 4096) mod 2 ^ 27.

Definition line0 (v : Z) : Z := (v / 4096 / 512 / 512) mod 512.
Definition line1 (v : Z) : Z := (v / 4096 / 512) mod 512.
Definition line2 (v : Z) : Z := (v / 4096) mod 512.

Lemma vpn_lines v : vpn v = line0 v * 2 ^ 18 + line1 v * 2 ^ 9 + line2 v.
Proof. unfold vpn, line0, line1, line2. dlia. Qed.

Lemma vpn_eq v w : vpn v = vpn w ↔ line0 v = line0 w ∧ line1 v = line1 w ∧ line2 v = line2 w.
Proof.
  rewrite !vpn_lines. split; [|naive_solver lia].
  assert (∀ x, 0 <= line0 x < 512 ∧ 0 <= line1 x < 512 ∧ 0 <= line2 x < 512) as Hl
    by (intros; unfold line0, line1, line2; repeat split; apply Z.mod_pos_bound; lia).
  pose proof (Hl v). pose proof (Hl w). lia.
Qed.

(** The entry a virtual address names. *)
Definition pt_entry (pt : PageTable) (mem : pt_mem) (v : Z) : Z :=
  entry (root_paddr pt) mem [line1 v; line0 v] (line2 v).

Section operations.
Context {A : Type} {ops : BitAlloc A} {V : BitAllocView A} {BS : BitAllocSpec A}.
Context {cfg : PageFrameConfig} {CO : ConfigOk cfg (CAP A)} {PCO : PtConfigOk cfg (CAP A)}.
Context (top : Z) (Htop : 0 < top <= 512).
Context (R : Z → bool) (rest : list Frame).

(** The allocator knows the tables' frames and those of the [rest] of the
    program; the tables form a tree. *)
Definition world_inv (pt : PageTable) (al : A) (mem : pt_mem) : Prop :=
  frames_inv R al (frames pt ++ rest) ∧ pt_inv top pt mem.

Lemma frame_ok_page fr : frame_ok fr → page_at (start_paddr fr).
Proof.
  intros (Hn&Hi&Hc&->). pose proof base_aligned. pose proof base_fits. pose proof base_ok.
  unfold PAGE_SIZE in *. split; [lia|]. replace (base_paddr + frame_idx fr * 0x1000) with
    (base_paddr + frame_idx fr * 4096) by lia. by rewrite Z.mod_add by lia.
Qed.

Lemma world_pages pt al mem b : world_inv pt al mem → b ∈ pages_of (frames pt) → page_at b.
Proof.
  intros [(_&Hlive&_) _] (fr&->&Hfr)%list_elem_of_fmap. apply frame_ok_page.
  apply (proj1 (list.Forall_forall _ _) Hlive), elem_of_app. by left.
Qed.

Lemma new_frame_fresh pt al fr : frames_inv R al (fr :: frames pt ++ rest) →
  start_paddr fr ∉ pages_of (frames pt).
Proof.
  intros Hinv (fr'&He&Hfr)%list_elem_of_fmap.
  apply list_elem_of_split in Hfr as (l1&l2&Hl).
  assert (fr :: frames pt ++ rest ≡ₚ fr :: fr' :: l1 ++ l2 ++ rest) as Hp
    by (rewrite Hl; rewrite <- app_assoc; simpl; by rewrite <- Permutation_middle).
  pose proof (frames_inv_apart _ _ _ _ _ _ Hinv Hp) as Hap.
  destruct Hinv as (_&Hlive&_). rewrite Hp in Hlive.
  inversion_clear Hlive as [|?? (Hn1&_) Hlive']. inversion_clear Hlive' as [|?? (Hn2&_) _].
  unfold frames_apart, PAGE_SIZE in Hap. lia.
Qed.

Lemma Frame_new_spec pt al mem : world_inv pt al mem →
  (∃ fr al', Frame_new (al, mem) = Ret (Some fr, (al', mem)) ∧ frame_count fr = 1 ∧
     frames_inv R al' (fr :: frames pt ++ rest)) ∨
  (Frame_new (al, mem) = Ret (None, (al, mem)) ∧ ∀ i, free al i = false).
Proof.
  intros [Hinv _]. unfold Frame_new. destruct (frame_new_spec R al _ Hinv) as [(fr&al'&->&?&?)|[-> ?]];
    simpl; [left; eauto|by right].
Qed.

Lemma get_addr_create_spec pt al mem p a i : world_inv pt al mem →
  path_ok top (i :: p) → (length p <= 1)%nat → tbl (root_paddr pt) mem p = Some a →
  ∃ r pt' al' mem', get_addr_create pt (get_pte_at a i) (al, mem) = Ret ((r, pt'), (al', mem')) ∧
    world_inv pt' al' mem' ∧ grew top pt mem pt' mem' ∧
    match r with
    | Some b => tbl (root_paddr pt) mem' (i :: p) = Some b
    | None => tbl (root_paddr pt) mem (i :: p) = None ∧ ∀ k, free al' k = false
    end.
Proof.
  intros Hw Hip Hl Ha. unfold get_addr_create, load, mbind, M_bind.
  destruct (pte_is_valid (mem (get_pte_at a i))) eqn:Hval.
  - eexists _, pt, al, mem. split; [done|]. split; [done|]. split; [apply grew_refl|].
    cbn [tbl]. by rewrite Ha, Hval.
  - unfold alloc_and_set, mbind, M_bind.
    destruct (Frame_new_spec pt al mem Hw) as [(fr&al'&->&Hc&Hinv')|[-> Hno]].
    + cbn. unfold frame_as_ptr. rewrite virt_is_offset.
      assert (page_at (start_paddr fr)) as Hf.
      { destruct Hinv' as (_&Hlive&_). inversion_clear Hlive. by apply frame_ok_page. }
      assert (start_paddr fr ∉ pages_of (frames pt)) as Hfresh by (by eapply new_frame_fresh).
      assert (∀ b, b ∈ pages_of (frames pt) → page_at b) as Hpages by (intros; by eapply world_pages).
      pose proof Hw as [_ Hpt].
      eexists _, _, _, _. split; [done|]. split; [split|].
      * simpl. rewrite <- app_assoc. simpl. destruct Hinv' as (?&Hlive&Hcons).
        assert (frames pt ++ fr :: rest ≡ₚ fr :: frames pt ++ rest) as Hp by (by rewrite Permutation_middle).
        split; [done|]. split; [by rewrite Hp|]. intros k. rewrite (owners_perm _ _ k Hp). apply Hcons.
      * by apply (graft_inv2 top Htop pt mem p a i fr).
      * split; [by apply (graft_grew top Htop pt mem p a i fr)|].
        pose proof (graft_new top Htop pt mem p a i fr Hpt Hpages Hip Hl Ha Hval Hf Hfresh) as Hn.
        etransitivity; [exact Hn|]. f_equal. symmetry. destruct Hf as [Hf1 Hf2].
        transitivity (pte_addr (pte_set_all (start_paddr fr) VALID)); [f_equal; apply store_eq|].
        by apply pte_addr_set_all.
    + simpl. eexists _, pt, al, mem. split; [done|]. split; [done|]. split; [apply grew_refl|].
      split; [|done]. cbn [tbl]. by rewrite Ha, Hval.
Qed.

Lemma lines_ok v : 0 <= line0 v < 512 ∧ 0 <= line1 v < 512 ∧ 0 <= line2 v < 512.
Proof. unfold line0, line1, line2. repeat split; apply Z.mod_pos_bound; lia. Qed.

Lemma path_lines v : line0 v < top → path_ok top [line2 v; line1 v; line0 v].
Proof. intros. pose proof (lines_ok v). simpl. lia. Qed.

Lemma find_pte_create_spec pt al mem v : world_inv pt al mem → line0 v < top →
  ∃ r pt' al' mem', find_pte_create pt v (al, mem) = Ret ((r, pt'), (al', mem')) ∧
    world_inv pt' al' mem' ∧ grew top pt mem pt' mem' ∧
    match r with
    | Some pte => ∃ b, tbl (root_paddr pt) mem' [line1 v; line0 v] = Some b ∧ pte = get_pte_at b (line2 v)
    | None => pt_entry pt mem v = 0 ∧ ∀ k, free al' k = false
    end.
Proof.
  intros Hw Hv. pose proof (path_lines v Hv) as Hp2. pose proof (path_tail _ _ _ Hp2) as Hp1.
  pose proof (path_tail _ _ _ Hp1) as Hp0.
  unfold find_pte_create. rewrite pte_idx_digits. fold (line0 v) (line1 v) (line2 v).
  destruct (get_addr_create_spec pt al mem [] (root_paddr pt) (line0 v) Hw Hp0) as
    (r&pt1&al1&mem1&H1&Hw1&Hg1&Hr); [simpl; lia|done|].
  step H1. destruct r as [b|].
  2: { destruct Hr as [Hr Hno]. eexists _, _, _, _. split; [done|]. do 2 (split; [done|]).
       split; [|done]. unfold pt_entry, entry. pose proof (tbl_None_below _ _ _ [line1 v] Hr) as Hx. simpl app in Hx. by rewrite Hx. }
  rewrite <- (grew_root _ _ _ _ _ Hg1) in Hr.
  destruct (get_addr_create_spec pt1 al1 mem1 [line0 v] b (line1 v) Hw1 Hp1) as
    (r&pt2&al2&mem2&H2&Hw2&Hg2&Hr2); [simpl; lia|done|].
  step H2. pose proof (grew_trans _ _ _ _ _ _ _ Hg1 Hg2) as Hg.
  rewrite (grew_root _ _ _ _ _ Hg1) in Hr2. destruct r as [c|].
  - eexists _, _, _, _. split; [done|]. split; [done|]. split; [done|]. by exists c.
  - destruct Hr2 as [Hr2 Hno]. eexists _, _, _, _. split; [done|]. split; [done|]. split; [done|].
    split; [|done]. unfold pt_entry, entry.
    destruct (tbl (root_paddr pt) mem [line1 v; line0 v]) eqn:Hd; [|done].
    assert (tbl (root_paddr pt) mem1 [line1 v; line0 v] = Some z) as Hd'
      by (apply (grew_tbl _ _ _ _ _ Hg1); (done || simpl; lia)).
    by rewrite Hr2 in Hd'.
Qed.

Lemma find_pte_tbl pt mem v :
  find_pte pt mem v = option_map (λ b, get_pte_at b (line2 v)) (tbl (root_paddr pt) mem [line1 v; line0 v]).
Proof.
  unfold find_pte. rewrite pte_idx_digits. fold (line0 v) (line1 v) (line2 v). cbn [tbl].
  destruct (pte_is_valid (mem (get_pte_at (root_paddr pt) (line0 v)))); [|done].
  by destruct (pte_is_valid _).
Qed.

(** A write to an entry of the last level. *)
Lemma leaf_store pt al mem v b x : world_inv pt al mem → line0 v < top →
  tbl (root_paddr pt) mem [line1 v; line0 v] = Some b →
  world_inv pt al (store mem (get_pte_at b (line2 v)) x) ∧
  (∀ w, line0 w < top → pt_entry pt (store mem (get_pte_at b (line2 v)) x) w =
     if vpn w =? vpn v then x else pt_entry pt mem w) ∧
  b ∈ pages_of (frames pt) ∧
  ∀ q, path_ok top q → (length q <= 2)%nat →
    tbl (root_paddr pt) (store mem (get_pte_at b (line2 v)) x) q = tbl (root_paddr pt) mem q.
Proof.
  intros Hw Hv Hb. pose proof Hw as [Hf Hpt].
  assert (∀ c, c ∈ pages_of (frames pt) → page_at c) as Hpages by (intros; by eapply world_pages).
  pose proof (path_lines v Hv) as Hp2.
  assert (∀ q, path_ok top q → (length q <= 2)%nat →
    tbl (root_paddr pt) (store mem (get_pte_at b (line2 v)) x) q = tbl (root_paddr pt) mem q) as Htbl.
  { intros q Hq Hl. apply (tbl_store top Htop pt mem [line1 v; line0 v] b); try done; [lia|].
    intros s ->. rewrite length_app in Hl. simpl in Hl. lia. }
  split; [split; [done|split]|split; [|split; [|exact Htbl]]].
  - by destruct Hpt.
  - intros q c Hq Hl. rewrite Htbl by done. by apply (pt_owned _ _ _ Hpt).
  - intros q q' c Hq Hq' Hl Hl'. rewrite !Htbl by done. by apply (pt_inj _ _ _ Hpt).
  - intros w Hwt. pose proof (path_lines w Hwt) as Hpw. unfold pt_entry.
    destruct (Z.eqb_spec (vpn w) (vpn v)) as [He|He].
    + apply vpn_eq in He as (->&->&->). unfold entry.
      rewrite Htbl by ((by eapply path_tail) || (simpl; lia)). rewrite Hb. apply store_eq.
    + apply (entry_store_other top Htop pt mem [line1 v; line0 v] b); try done.
      intros s Hs. apply He, vpn_eq. destruct s as [|? [|? [|? [|? s]]]]; by simplify_eq/=.
  - apply (pt_owned _ _ _ Hpt [line1 v; line0 v]); [by eapply path_tail|simpl; lia|done].
Qed.

(** *** Calls and their specification *)

Inductive pt_op :=
| OpMap (vaddr paddr flags : Z)
| OpSetFlags (vaddr flags : Z)
| OpUnmap (vaddr : Z)
| OpQuery (vaddr : Z).

Inductive pt_resp :=
| RUnit (r : OSResult unit)
| RAddr (r : option Z).

Definition run_op (pt : PageTable) (o : pt_op) : PM (A := A) (pt_resp * PageTable) :=
  match o with
  | OpMap v p f => '(r, pt') ← pt_map pt v p f; mret (RUnit r, pt')
  | OpSetFlags v f => '(r, pt') ← pt_set_flags pt v f; mret (RUnit r, pt')
  | OpUnmap v => r ← pt_unmap pt v; mret (RUnit r, pt)
  | OpQuery v => λ '(al, mem), Ret (RAddr (pt_query pt mem v), pt, (al, mem))
  end.

Definition op_vaddr (o : pt_op) : Z :=
  match o with OpMap v _ _ | OpSetFlags v _ | OpUnmap v | OpQuery v => v end.

(** What [map] and [set_flags] write besides the flags they are given. *)
Definition mapped_flags (f : Z) : Z := Z.lor (Z.lor (Z.lor f VALID) ACCESS) DIRTY.

Definition same_entries (E E' : Z → Z) : Prop := ∀ w, line0 w < top → E' w = E w.

Definition one_entry (E E' : Z → Z) (v x : Z) : Prop :=
  ∀ w, line0 w < top → E' w = if vpn w =? vpn v then x else E w.

(** [E] and [E'] are the entries before and after. *)
Definition op_spec (o : pt_op) (E E' : Z → Z) (resp : pt_resp) (exhausted : Prop) : Prop :=
  match o with
  | OpMap v p f =>
      if pte_is_valid (E v) then resp = RUnit (OsErr PageTable_PageAlreadyMapped) ∧ same_entries E E'
      else (resp = RUnit (OsOk tt) ∧ one_entry E E' v (if f =? 0 then E v else pte_set_all p (mapped_flags f)))
         ∨ (resp = RUnit (OsErr PageTable_FrameAllocFailed) ∧ exhausted ∧ same_entries E E')
  | OpSetFlags v f =>
      if pte_is_valid (E v) then
        resp = RUnit (OsOk tt) ∧ one_entry E E' v (pte_set_flags (E v) (mapped_flags f))
      else same_entries E E' ∧
        (resp = RUnit (OsErr PageTable_PageNotMapped) ∨
         (resp = RUnit (OsErr PageTable_FrameAllocFailed) ∧ exhausted))
  | OpUnmap v =>
      if pte_is_valid (E v) then resp = RUnit (OsOk tt) ∧ one_entry E E' v 0
      else same_entries E E' ∧ (resp = RUnit (OsErr PageTable_PageNotMapped) ∨
                                resp = RUnit (OsErr PageTable_VirtNotFound))
  | OpQuery v =>
      same_entries E E' ∧
      if pte_is_valid (E v) then resp = RAddr (Some (pte_addr (E v)))
      else resp = RAddr None ∨ resp = RAddr (Some (pte_addr (E v)))
  end.

(** The tables that lead to an entry stay. *)
Definition tables_kept (pt : PageTable) (mem : pt_mem) (pt' : PageTable) (mem' : pt_mem) : Prop :=
  ∀ w, line0 w < top → is_Some (find_pte pt mem w) → is_Some (find_pte pt' mem' w).

Definition op_done (pt : PageTable) (al : A) (mem : pt_mem) (o : pt_op) : Prop :=
  ∃ resp pt' al' mem', run_op pt o (al, mem) = Ret ((resp, pt'), (al', mem')) ∧
    world_inv pt' al' mem' ∧ root_paddr pt' = root_paddr pt ∧
    op_spec o (pt_entry pt mem) (pt_entry pt' mem') resp (∀ k, free al' k = false) ∧
    (tables_kept pt mem pt' mem' ∧
     (resp = RUnit (OsOk tt) → is_Some (find_pte pt' mem' (op_vaddr o)))) ∧
    ∀ x, (∀ b i, b ∈ pages_of (frames pt') → 0 <= i < 512 → x ≠ get_pte_at b i) → mem' x = mem x.

Lemma grew_same pt mem pt' mem' : grew top pt mem pt' mem' →
  same_entries (pt_entry pt mem) (pt_entry pt' mem').
Proof.
  intros Hg w Hw. unfold pt_entry. rewrite (grew_root _ _ _ _ _ Hg).
  apply (grew_entry _ _ _ _ _ Hg); [by apply path_lines|done].
Qed.

Lemma find_pte_is pt mem v b : tbl (root_paddr pt) mem [line1 v; line0 v] = Some b →
  is_Some (find_pte pt mem v).
Proof. intros Hb. rewrite find_pte_tbl, Hb. by eexists. Qed.

Lemma kept_by pt mem pt' mem' : root_paddr pt' = root_paddr pt →
  (∀ q b, path_ok top q → (length q <= 2)%nat → tbl (root_paddr pt) mem q = Some b →
    tbl (root_paddr pt) mem' q = Some b) → tables_kept pt mem pt' mem'.
Proof.
  intros Hr Ht w Hw [b Hb]. rewrite find_pte_tbl in Hb.
  destruct (tbl (root_paddr pt) mem [line1 w; line0 w]) as [c|] eqn:Hc; [|done].
  apply (find_pte_is _ _ _ c). rewrite Hr. apply Ht; [|done|done].
  eapply path_tail. by apply path_lines.
Qed.

Lemma grew_kept pt mem pt' mem' : grew top pt mem pt' mem' → tables_kept pt mem pt' mem'.
Proof. intros Hg. apply kept_by; [apply Hg|]. apply (grew_tbl _ _ _ _ _ Hg). Qed.

(** Entries are a function of the page number. *)
Lemma entry_vpn pt mem v w : vpn v = vpn w → pt_entry pt mem v = pt_entry pt mem w.
Proof. unfold pt_entry. by intros (->&->&->)%vpn_eq. Qed.

Lemma written pt mem pt' mem' al' v b x : world_inv pt' al' mem' → grew top pt mem pt' mem' →
  line0 v < top → tbl (root_paddr pt') mem' [line1 v; line0 v] = Some b →
  world_inv pt' al' (store mem' (get_pte_at b (line2 v)) x) ∧
  one_entry (pt_entry pt mem) (pt_entry pt' (store mem' (get_pte_at b (line2 v)) x)) v x ∧
  (∀ y, (∀ c i, c ∈ pages_of (frames pt') → 0 <= i < 512 → y ≠ get_pte_at c i) →
     store mem' (get_pte_at b (line2 v)) x y = mem y) ∧
  tables_kept pt mem pt' (store mem' (get_pte_at b (line2 v)) x) ∧
  is_Some (find_pte pt' (store mem' (get_pte_at b (line2 v)) x) v).
Proof.
  intros Hw Hg Hv Hb. destruct (leaf_store pt' al' mem' v b x Hw Hv Hb) as (Hw'&He&Hin&Htbl).
  split; [done|]. split; [|split].
  - intros w Hwt. rewrite He by done. by rewrite (grew_same _ _ _ _ Hg w Hwt).
  - intros y Hy. rewrite store_ne; [exact (grew_outside _ _ _ _ _ Hg y Hy)|].
    apply Hy; [done|]. by destruct (lines_ok v) as (_&_&?).
  - split.
    + apply kept_by; [apply Hg|]. intros q c Hq Hl Hc. rewrite <- (grew_root _ _ _ _ _ Hg).
      rewrite Htbl by done. rewrite (grew_root _ _ _ _ _ Hg). by apply (grew_tbl _ _ _ _ _ Hg).
    + apply (find_pte_is _ _ _ b). rewrite Htbl; [done| |simpl; lia].
      eapply path_tail. by apply path_lines.
Qed.

Lemma pt_map_done pt al mem v p f : world_inv pt al mem → line0 v < top →
  op_done pt al mem (OpMap v p f).
Proof.
  intros Hw Hv. unfold op_done, run_op, pt_map.
  destruct (find_pte_create_spec pt al mem v Hw Hv) as (r&pt'&al'&mem'&H1&Hw'&Hg&Hr).
  pose proof (grew_root _ _ _ _ _ Hg) as Hroot. pose proof (grew_same _ _ _ _ Hg v Hv) as Hsame.
  unfold mbind, M_bind. rewrite H1. destruct r as [pte|]; cbn beta iota.
  - destruct Hr as (b&Hb&->). rewrite <- Hroot in Hb. unfold load. cbn beta iota.
    assert (mem' (get_pte_at b (line2 v)) = pt_entry pt mem v) as Hbits.
    { rewrite <- Hsame. unfold pt_entry, entry. by rewrite Hb. }
    rewrite Hbits. simpl op_spec. destruct (pte_is_valid (pt_entry pt mem v)) eqn:Hval.
    + eexists _, _, _, _. split; [done|]. split; [done|]. split; [done|]. split; [|split; [split; [by apply grew_kept|done]|apply Hg]].
      split; [done|]. by apply grew_same.
    + destruct (Z.eqb_spec f 0).
      * eexists _, _, _, _. split; [done|]. split; [done|]. split; [done|]. split; [|split; [split; [by apply grew_kept|intros _; by apply (find_pte_is _ _ _ b)]|apply Hg]].
        left. split; [done|]. intros w Hwt. rewrite (grew_same _ _ _ _ Hg w Hwt).
        destruct (Z.eqb_spec (vpn w) (vpn v)); [by apply entry_vpn|done].
      * destruct (written pt mem pt' mem' al' v b (pte_set_all p (mapped_flags f)) Hw' Hg Hv Hb)
          as (Hw2&He2&Ho2&Hk2).
        eexists _, _, _, _. split; [done|]. split; [exact Hw2|]. split; [done|]. split; [|split; [by split; [|intros _]; apply Hk2|exact Ho2]].
        by left.
  - destruct Hr as [Hr Hno]. simpl op_spec. rewrite Hr.
    eexists _, _, _, _. split; [done|]. split; [done|]. split; [done|]. split; [|split; [split; [by apply grew_kept|done]|apply Hg]].
    right. split; [done|]. split; [done|]. by apply grew_same.
Qed.

Lemma pt_set_flags_done pt al mem v f : world_inv pt al mem → line0 v < top →
  op_done pt al mem (OpSetFlags v f).
Proof.
  intros Hw Hv. unfold op_done, run_op, pt_set_flags.
  destruct (find_pte_create_spec pt al mem v Hw Hv) as (r&pt'&al'&mem'&H1&Hw'&Hg&Hr).
  pose proof (grew_root _ _ _ _ _ Hg) as Hroot. pose proof (grew_same _ _ _ _ Hg v Hv) as Hsame.
  unfold mbind, M_bind. rewrite H1. destruct r as [pte|]; cbn beta iota.
  - destruct Hr as (b&Hb&->). rewrite <- Hroot in Hb. unfold load. cbn beta iota.
    assert (mem' (get_pte_at b (line2 v)) = pt_entry pt mem v) as Hbits.
    { rewrite <- Hsame. unfold pt_entry, entry. by rewrite Hb. }
    rewrite Hbits. simpl op_spec. destruct (pte_is_valid (pt_entry pt mem v)) eqn:Hval.
    + destruct (written pt mem pt' mem' al' v b (pte_set_flags (pt_entry pt mem v) (mapped_flags f))
        Hw' Hg Hv Hb) as (Hw2&He2&Ho2&Hk2).
      eexists _, _, _, _. split; [done|]. split; [exact Hw2|]. split; [done|]. split; [|split; [by split; [|intros _]; apply Hk2|exact Ho2]].
      done.
    + eexists _, _, _, _. split; [done|]. split; [done|]. split; [done|]. split; [|split; [split; [by apply grew_kept|done]|apply Hg]].
      split; [by apply grew_same|by left].
  - destruct Hr as [Hr Hno]. simpl op_spec. rewrite Hr.
    eexists _, _, _, _. split; [done|]. split; [done|]. split; [done|]. split; [|split; [split; [by apply grew_kept|done]|apply Hg]].
    split; [by apply grew_same|by right].
Qed.

Lemma pt_unmap_done pt al mem v : world_inv pt al mem → line0 v < top →
  op_done pt al mem (OpUnmap v).
Proof.
  intros Hw Hv. unfold op_done, run_op, pt_unmap, mbind, M_bind. rewrite find_pte_tbl. simpl op_spec.
  destruct (tbl (root_paddr pt) mem [line1 v; line0 v]) as [b|] eqn:Hb; cbn [option_map].
  - assert (mem (get_pte_at b (line2 v)) = pt_entry pt mem v) as Hbits
      by (unfold pt_entry, entry; by rewrite Hb).
    rewrite Hbits. destruct (pte_is_valid (pt_entry pt mem v)) eqn:Hval.
    + destruct (written pt mem pt mem al v b pte_clear Hw (grew_refl _ _ _) Hv Hb) as (Hw2&He2&Ho2&Hk2).
      eexists _, _, _, _. split; [done|]. split; [exact Hw2|]. split; [done|]. split; [|split; [by split; [|intros _]; apply Hk2|exact Ho2]]. done.
    + eexists _, _, _, _. split; [done|]. split; [done|]. split; [done|]. split; [|split; [split; [apply grew_kept, grew_refl|done]|done]].
      split; [done|by left].
  - assert (pt_entry pt mem v = 0) as -> by (unfold pt_entry, entry; by rewrite Hb).
    eexists _, _, _, _. split; [done|]. split; [done|]. split; [done|]. split; [|split; [split; [apply grew_kept, grew_refl|done]|done]].
    split; [done|by right].
Qed.

Lemma pt_query_done pt al mem v : world_inv pt al mem → line0 v < top →
  op_done pt al mem (OpQuery v).
Proof.
  intros Hw Hv. unfold op_done, run_op, pt_query. rewrite find_pte_tbl. simpl op_spec.
  eexists _, _, _, _. split; [done|]. split; [done|]. split; [done|]. split; [|split; [split; [apply grew_kept, grew_refl|done]|done]].
  split; [done|]. unfold pt_entry, entry.
  destruct (tbl (root_paddr pt) mem [line1 v; line0 v]); simpl; [|by left].
  destruct (pte_is_valid _); auto.
Qed.

(** A new page table owns one zeroed page. *)
Lemma pt_new_spec al mem : frames_inv R al rest →
  (∃ pt al' mem', pt_new (al, mem) = Ret (OsOk pt, (al', mem')) ∧ world_inv pt al' mem' ∧
     (∀ v, pt_entry pt mem' v = 0) ∧ (∀ i, 0 <= i < 512 → mem' (get_pte_at (root_paddr pt) i) = 0)) ∨
  (pt_new (al, mem) = Ret (OsErr PageTable_FrameAllocFailed, (al, mem)) ∧ ∀ i, free al i = false).
Proof.
  intros Hinv. unfold pt_new, mbind, M_bind, Frame_new.
  destruct (frame_new_spec R al _ Hinv) as [(fr&al'&->&Hinv'&Hc)|[-> ?]]; [left|by right]. cbn.
  unfold frame_as_ptr. rewrite virt_is_offset. set (pt := mkPageTable _ _).
  set (mem' := zero_page mem (phys_to_virt (start_paddr fr))).
  assert (∀ i, 0 <= i < 512 → mem' (get_pte_at (start_paddr fr) i) = 0) as Hz by apply zero_page_in.
  assert (∀ s, path_ok top s → s ≠ [] → tbl (start_paddr fr) mem' s = None) as Hnone.
  { intros s Hs Hne. rewrite <- (app_nil_r s) in Hs |- *.
    by apply (tbl_zero_below top Htop _ _ [] (start_paddr fr)). }
  exists pt, al', mem'. split; [done|]. split; [split; [done|split]|split; [|done]].
  - left.
  - intros [|j s] b Hs _ Hb; [simpl in Hb; simplify_eq; left|by rewrite Hnone in Hb].
  - intros [|j s] [|j' s'] b Hs Hs' _ _ Hb Hb'; try done; rewrite ?Hnone in Hb by done; rewrite ?Hnone in Hb' by done; done.
  - intros v. unfold pt_entry, entry. cbn [tbl root_paddr]. simpl root_paddr. rewrite Hz by (pose proof (lines_ok v); lia).
    done.
Qed.
End operations.

(** ** Properties *)

(** C6. A page table implements a map from virtual pages to entries: from the
    empty map of [new], every [map], [set_flags], [unmap] and [query] of an
    address whose root line the table owns returns what the entry of that page
    asks for, changes the entry of that page only (all other pages of the
    owned lines keep theirs, error or not), takes frames from the allocator
    without losing any, fails with [FrameAllocFailed] only when no frame is
    free, and writes to no memory but the table's own pages. *)
Theorem page_table_refines_map {A} {ops : BitAlloc A} {V : BitAllocView A} {BS : BitAllocSpec A}
    {cfg : PageFrameConfig} {CO : ConfigOk cfg (CAP A)} {PCO : PtConfigOk cfg (CAP A)}
    (top : Z) (R : Z → bool) (rest : list Frame) (al0 : A) (mem0 : pt_mem) :
  0 < top <= 512 → frames_inv R al0 rest →
  ((∃ pt al mem, pt_new (al0, mem0) = Ret (OsOk pt, (al, mem)) ∧ world_inv top R rest pt al mem ∧
      ∀ v, pt_entry pt mem v = 0) ∨
   (pt_new (al0, mem0) = Ret (OsErr PageTable_FrameAllocFailed, (al0, mem0)) ∧ ∀ i, free al0 i = false)) ∧
  (∀ pt al mem o, world_inv top R rest pt al mem → line0 (op_vaddr o) < top →
     op_done top R rest pt al mem o).
Proof.
  intros Htop Hinv. split.
  - destruct (pt_new_spec top Htop R rest al0 mem0 Hinv) as [(pt&al&mem&H1&H2&H3&_)|H]; [left|by right].
    by exists pt, al, mem.
  - intros pt al mem [v p f|v f|v|v] Hw Hv.
    + by apply pt_map_done.
    + by apply pt_set_flags_done.
    + by apply pt_unmap_done.
    + by apply pt_query_done.
Qed.

Section page_table_at.
Import Machine.

#[local] Instance small_pt_ok : PtConfigOk KernelConfig (CAP (Tower 0)).
Proof. split; [done|vm_compute; congruence|done]. Qed.

(** With sixteen free frames, mapping address 0x1000 of a new page table. *)
Lemma page_table_refines_map_witness :
  ∃ pt al mem, pt_new (machine_alloc, λ _, 7) = Ret (OsOk pt, (al, mem)) ∧
    op_done 510 first_16 [] pt al mem (OpMap 0x1000 0x80300000 0x16).
Proof.
  pose proof machine_frames as Hinv.
  assert (0 < 510 <= 512) as Htop by lia.
  destruct (page_table_refines_map 510 first_16 [] machine_alloc (λ _, 7) Htop Hinv) as [Hnew Hops].
  destruct Hnew as [(pt&al&mem&H1&H2&_)|[_ Hno]].
  - exists pt, al, mem. split; [exact H1|]. apply Hops; [exact H2|reflexivity].
  - exfalso. specialize (Hno 0). vm_compute in Hno. congruence.
Defined.
End page_table_at.

(** The fields of an entry: [set_all] stores a page address and flags that
    [addr] and [flags] read back, [set_flags] keeps the address and [set_addr]
    the flags. *)
Theorem pte_fields (bits p f : Z) :
  word 64 bits → page_at p → 0 <= f < 256 →
  pte_addr (pte_set_all p f) = p ∧ pte_flags (pte_set_all p f) = f ∧
  pte_is_valid (pte_set_all p f) = Z.odd f ∧
  pte_addr (pte_set_flags bits f) = pte_addr bits ∧ pte_flags (pte_set_flags bits f) = f ∧
  pte_addr (pte_set_addr bits p) = p ∧ pte_flags (pte_set_addr bits p) = pte_flags bits.
Proof.
  intros Hb [Hp Hpm] Hf.
  assert (pte_set_addr bits p = pte_set_all p (pte_flags bits)) as ->.
  { unfold pte_set_addr, pte_set_all. change (shl 64 1 44 - 1) with (Z.ones 44).
    change 0xff with (Z.ones 8). rewrite !land_low by lia. f_equal. f_equal.
    apply Z.mod_small. rewrite Z.shiftr_div_pow2 by lia. change (2 ^ 12) with 4096. dlia. }
  assert (0 <= pte_flags bits < 256) by (unfold pte_flags, wrap; apply Z.mod_pos_bound; lia).
  rewrite pte_valid_flags, !pte_flags_set_all, !pte_addr_set_all by (done || lia).
  by pose proof (pte_addr_set_flags bits f Hb Hf) as [-> ->].
Qed.

Lemma pte_fields_witness :
  word 64 0x200000DF ∧ page_at 0x80200000 ∧ 0 <= 0x17 < 256 ∧
  pte_addr (pte_set_all 0x80200000 0x17) = 0x80200000 ∧ pte_flags (pte_set_all 0x80200000 0x17) = 0x17.
Proof.
  pose proof (pte_fields 0x200000DF 0x80200000 0x17) as H.
  assert (word 64 0x200000DF) as H1 by (unfold word; lia).
  assert (page_at 0x80200000) as H2 by (split; [lia|reflexivity]).
  destruct (H H1 H2 ltac:(lia)) as (Ha&Hb&_).
  split; [exact H1|split; [exact H2|split; [lia|split; [exact Ha|exact Hb]]]].
Defined.

(** [query] answers with the address of the page, whatever the offset of
    the virtual address: the caller that writes through the answer
    (task.rs, the child's thread id) writes at the start of the page. *)
Theorem query_drops_offset (pt : PageTable) (mem : pt_mem) (v w a : Z) :
  vpn v = vpn w → (∀ x, 0 <= mem x) → pt_query pt mem v = Some a →
  pt_query pt mem w = Some a ∧ page_offset a = 0.
Proof.
  unfold pt_query. rewrite !find_pte_tbl. intros (<-&<-&<-)%vpn_eq Hmem Ha. split; [done|].
  destruct (tbl _ _ _) as [b|]; [|done]. simplify_eq/=.
  rewrite page_offset_mod, pte_addr_div by apply Hmem. by apply Z.mod_mul.
Qed.

(** Page 1 is mapped to 0x80300000 through two tables. *)
Definition query_mem : pt_mem := λ x,
  if x =? get_pte_at 0x80200000 0 then pte_set_all 0x80201000 VALID
  else if x =? get_pte_at 0x80201000 0 then pte_set_all 0x80202000 VALID
  else if x =? get_pte_at 0x80202000 1 then pte_set_all 0x80300000 0xdf
  else 0.

Lemma query_drops_offset_witness :
  pt_query (from_root 0x80200000) query_mem 0x1008 = Some 0x80300000 ∧ page_offset 0x80300000 = 0.
Proof.
  apply (query_drops_offset (from_root 0x80200000) query_mem 0x1000 0x1008 0x80300000); [reflexivity| |reflexivity].
  intros x. unfold query_mem. repeat destruct (_ =? _); vm_compute; congruence.
Defined.

(** [force_write] panics for every request: it compares the end of the
    last page with one byte after the start of the first. *)
Theorem force_write_panics (pt : PageTable) (mem : pt_mem) (start data_len : Z) :
  word 64 start → force_write pt mem start data_len = Panic.
Proof.
  intros Hs. unfold force_write. cbv zeta. set (x := wrap64 (start + data_len)).
  change (align_up x) with (align_down (wrap64 (x + PAGE_SIZE - 1))).
  rewrite !align_down_div by (done || by apply wrap_word).
  set (y := wrap64 (x + PAGE_SIZE - 1)). unfold word in Hs.
  rewrite (wrap_small 64 (start / 4096 * 4096 + 1)) by (unfold word; dlia).
  destruct (Z.eqb_spec (y / 4096 * 4096) (start / 4096 * 4096 + 1)); [exfalso; dlia|done].
Qed.

(** One whole page is still "cross page". *)
Lemma force_write_panics_witness :
  word 64 0x1000 ∧ force_write (from_root 0x80200000) (λ _, 0) 0x1000 0x1000 = Panic.
Proof.
  assert (word 64 0x1000) as H by (unfold word; lia). split; [exact H|].
  apply (force_write_panics (from_root 0x80200000) (λ _, 0) 0x1000 0x1000 H).
Defined.
