(* ===== verification/BaseFile.v ===== *)
(** * Files (modules/base-file, kernel/src/file/backend.rs)

    The trait [File] as a class of operations on a handle [F] over the state
    [W] of the files, its provided methods, and [BackEndFile], the part of a
    file behind a mapped memory area. *)

From S2P Require Import Prelude Bytes FatIo.

(** The methods used here; [read] is given the buffer and returns it filled. *)
Class File (W F : Type) := {
  file_read : F → list Z → M W (option Z * list Z);
  file_write : F → list Z → M W (option Z);
  file_seek : F → SeekFrom → M W (option Z);
  file_read_from_offset : F → Z → list Z → M W (option Z * list Z);
  file_write_to_offset : F → Z → list Z → M W (option Z) }.

(** ** Provided methods *)

Section provided.
Context {W F : Type}.
Context (read : F → list Z → M W (option Z * list Z)) (write : F → list Z → M W (option Z)).
Context (seek : F → SeekFrom → M W (option Z)).

Definition unwrapM {A} (o : option A) : M W A := λ w, match o with Some a => Ret (a, w) | None => Panic end.

Definition read_from_offset_default (self : F) (pos : Z) (buf : list Z) : M W (option Z * list Z) :=
  old_pos ← seek self (SCurrent 0);
  match old_pos with
  | None => mret (None, buf)
  | Some old_pos =>
      r ← seek self (SStart pos);
      match r with
      | None => mret (None, buf)
      | Some _ =>
          '(read_len, buf) ← read self buf;
          r ← seek self (SCurrent (swrap 64 old_pos));
          _ ← unwrapM r;
          mret (read_len, buf)
      end
  end.

Definition write_to_offset_default (self : F) (pos : Z) (buf : list Z) : M W (option Z) :=
  old_pos ← seek self (SCurrent 0);
  match old_pos with
  | None => mret None
  | Some old_pos =>
      r ← seek self (SStart pos);
      match r with
      | None => mret None
      | Some _ =>
          write_len ← write self buf;
          r ← seek self (SCurrent (swrap 64 old_pos));
          _ ← unwrapM r;
          mret write_len
      end
  end.
End provided.

(** ** [BackEndFile] *)

Inductive SyncPolicy := SyncRead | SyncWrite | SyncReadWrite.

#[export] Instance SyncPolicy_eq_dec : EqDecision SyncPolicy.
Proof. solve_decision. Defined.

Record BackEndFile (F : Type) := mkBackEnd { be_file : F; be_offset : Z; be_policy : SyncPolicy }.
Arguments mkBackEnd {F}.
Arguments be_file {F}.
Arguments be_offset {F}.
Arguments be_policy {F}.

Section backend.
Context {W F : Type} `{File W F}.
Implicit Types self : BackEndFile F.

Definition be_split self (delta : Z) : BackEndFile F :=
  mkBackEnd (be_file self) (wrap64 (be_offset self + delta)) (be_policy self).

Definition be_clone_as_fork self : BackEndFile F := be_split self 0.

Definition be_modify_offset self (delta : Z) : BackEndFile F :=
  mkBackEnd (be_file self) (wrap64 (be_offset self + delta)) (be_policy self).

Definition be_read_from_offset self (pos : Z) (buf : list Z) : M W (option Z * list Z) :=
  if bool_decide (be_policy self = SyncRead) || bool_decide (be_policy self = SyncReadWrite)
  then file_read_from_offset (be_file self) (wrap64 (be_offset self + pos)) buf
  else mret (None, buf).

Definition be_write_to_offset self (pos : Z) (buf : list Z) : M W (option Z) :=
  if bool_decide (be_policy self = SyncWrite) || bool_decide (be_policy self = SyncReadWrite)
  then file_write_to_offset (be_file self) (wrap64 (be_offset self + pos)) buf
  else mret None.

#[export] Instance BackEndFile_File : File W (BackEndFile F) := {|
  file_read _ buf := mret (None, buf);
  file_write _ _ := mret None;
  file_seek _ _ := mret None;
  file_read_from_offset := be_read_from_offset;
  file_write_to_offset := be_write_to_offset |}.
End backend.
