(* ===== verification/FatFile.v ===== *)
(** * Files of the FAT file system (kernel/src/file/device/fat_file.rs)

    [FatFile] wraps the driver's file, a byte stream [D] (the traits of
    [FatIo]); the state of the open file is the stream's. *)

From S2P Require Import Prelude Bytes FatIo BaseFile.

Definition IS_PRELOADED_FS_IMG : bool := false.
Definition LOCAL_FS_IMG_SIZE : Z := 0x2000000.
Definition TEST_FS_IMG_SIZE : Z := 0x40000000.
Definition FS_IMG_SIZE : Z := if IS_PRELOADED_FS_IMG then TEST_FS_IMG_SIZE else LOCAL_FS_IMG_SIZE.

Record FatFile := mkFatFile { readable : bool; writable : bool }.

Section fat_file.
Context {D : Type} `{Stream D}.
Implicit Types self : FatFile.

(** A call on the locked inner file whose result the caller looks at. *)
Definition inner {A} (f : FM D A) : M D (result A) := f.

(** [file.op().unwrap()] *)
Definition inner_unwrap {A} (f : FM D A) : M D A := λ d,
  match f d with Ret (Ok a, d') => Ret (a, d') | _ => Panic end.

(** The loop of [read]; every turn advances [pos], so [len buf] turns suffice. *)
Fixpoint fat_read_loop (fuel : nat) (pos : Z) (buf : list Z) : M D (option Z * list Z) :=
  match fuel with
  | O => mret (Some pos, buf)
  | S fuel' =>
      if pos <? len buf then
        r ← inner (read (len buf - pos));
        match r with
        | Ok bs =>
            if len bs =? 0 then mret (Some pos, buf)
            else fat_read_loop fuel' (pos + len bs) (splice pos bs buf)
        | Err _ => if pos =? 0 then mret (None, buf) else mret (Some pos, buf)
        end
      else mret (Some pos, buf)
  end.

Definition fat_read self (buf : list Z) : M D (option Z * list Z) :=
  if negb (readable self) then mret (None, buf)
  else fat_read_loop (Z.to_nat (len buf)) 0 buf.

Fixpoint fat_write_loop (fuel : nat) (pos : Z) (buf : list Z) : M D (option Z) :=
  match fuel with
  | O => mret (Some pos)
  | S fuel' =>
      if pos <? len buf then
        r ← inner (write (drop (Z.to_nat pos) buf));
        match r with
        | Ok write_len =>
            if write_len =? 0 then mret (Some pos)
            else fat_write_loop fuel' (pos + write_len) buf
        | Err _ => if pos =? 0 then mret None else mret (Some pos)
        end
      else mret (Some pos)
  end.

Definition fat_write self (buf : list Z) : M D (option Z) :=
  if negb (writable self) then mret None
  else fat_write_loop (Z.to_nat (len buf)) 0 buf.

(** [file.write(vec![0; n])], ignoring how much was written *)
Definition pad_zeros (n : Z) : M D unit :=
  _ ← inner_unwrap (write (repeat 0 (Z.to_nat n))); mret tt.

Definition fat_seek (seekfrom : SeekFrom) : M D (option Z) :=
  pos_before_seek ← inner_unwrap (seek (SCurrent 0));
  r ← inner (seek seekfrom);
  match r with
  | Ok pos =>
      match seekfrom with
      | SStart origin =>
          file_len ← inner_unwrap (seek (SEnd 0));
          _ ← (if (file_len <? origin) && (origin - file_len <=? FS_IMG_SIZE)
               then pad_zeros (origin - file_len) else mret tt);
          _ ← inner_unwrap (seek (SStart origin));
          mret (if 0 <? origin then Some origin else Some pos)
      | SEnd _ => mret (Some pos)
      | SCurrent origin =>
          _now ← inner_unwrap (seek (SCurrent 0));
          file_len ← inner_unwrap (seek (SEnd 0));
          let target := swrap 64 (swrap 64 pos_before_seek + origin) in
          _ ← (if file_len <? wrap64 target
               then pad_zeros (wrap64 (wrap64 target - file_len)) else mret tt);
          _ ← inner_unwrap (seek (SStart (wrap64 target)));
          mret (Some pos)
      end
  | Err _ =>
      match seekfrom with
      | SStart pos => if 0 <? pos then mret (Some pos) else mret None
      | _ => mret None
      end
  end.

(** The length and position of the file, with the pointer put back. *)
Definition pos_and_len : M D (Z * Z) :=
  pre_pos ← inner_unwrap (seek (SCurrent 0));
  file_len ← inner_unwrap (seek (SEnd 0));
  _ ← inner_unwrap (seek (SStart pre_pos));
  mret (pre_pos, file_len).

(** [st_size] of [get_stat] *)
Definition fat_stat_size : M D Z := '(_, file_len) ← pos_and_len; mret file_len.

Definition fat_clear (truncate : FM D unit) : M D unit :=
  _ ← inner_unwrap (seek (SStart 0)); inner_unwrap truncate.

Definition fat_ready_to_read self : M D bool :=
  if negb (readable self) then mret false
  else '(pre_pos, file_len) ← pos_and_len; mret (negb (pre_pos =? file_len)).

Definition fat_ready_to_write self : M D bool :=
  if negb (writable self) then mret false
  else '(pre_pos, file_len) ← pos_and_len; mret (negb (pre_pos =? file_len)).

(** The loop of [read_all]; every turn reads something or spins. *)
Fixpoint fat_read_all_loop (fuel : nat) (pos : Z) (temp : list Z) : M D (list Z) :=
  match fuel with
  | O => mret temp
  | S fuel' =>
      if pos <? len temp then
        bs ← inner_unwrap (read (len temp - pos));
        fat_read_all_loop fuel' (pos + len bs) (splice pos bs temp)
      else mret temp
  end.

Definition fat_read_all : M D (list Z) :=
  file_len ← inner_unwrap (seek (SEnd 0));
  _ ← inner_unwrap (seek (SStart 0));
  fat_read_all_loop (Z.to_nat file_len) 0 (repeat 0 (Z.to_nat file_len)).

#[export] Instance FatFile_File : File D FatFile := {|
  file_read := fat_read;
  file_write := fat_write;
  file_seek _ := fat_seek;
  file_read_from_offset := read_from_offset_default fat_read (λ _, fat_seek);
  file_write_to_offset := write_to_offset_default fat_write (λ _, fat_seek) |}.
End fat_file.
