(* ===== verification/FatFileSpec.v ===== *)
(** * Correctness of FAT files as the kernel sees them

    Against the contract of the driver's file: a byte sequence that grows at
    its end, with a position, reads and writes that may be partial (the driver
    stops at cluster boundaries), and seeks that stop at the end. *)

From S2P Require Import Prelude Bytes FatIo BaseFile FatFile.

(** Where a seek asks to go. *)
Definition seek_target (p l : Z) (s : SeekFrom) : Z :=
  match s with SStart n => n | SEnd n => l + n | SCurrent n => p + n end.

Class FileStream (D : Type) {HD : Stream D} := {
  fok : D → Prop;
  fdata : D → list Z;
  fpos : D → Z;
  (** The space the file system has for the file. *)
  fcap : D → Z;
  fok_bounds d : fok d → 0 <= fpos d <= len (fdata d) ∧ len (fdata d) <= fcap d < 2 ^ 32;
  fread_ok d n : fok d → 0 <= n →
    ∃ bs d', read n d = Ret (Ok bs, d') ∧ fok d' ∧ fdata d' = fdata d ∧ fcap d' = fcap d ∧
      bs = bytes_at (fpos d) (len bs) (fdata d) ∧ len bs <= n ∧ fpos d' = fpos d + len bs ∧
      (0 < n → fpos d < len (fdata d) → 0 < len bs);
  fwrite_ok d bs : fok d → Forall (word 8) bs → fpos d + len bs <= fcap d →
    ∃ n d', write bs d = Ret (Ok n, d') ∧ fok d' ∧ fcap d' = fcap d ∧ 0 <= n <= len bs ∧
      (0 < len bs → 0 < n) ∧
      fdata d' = overwrite (fpos d) (take (Z.to_nat n) bs) (fdata d) ∧ fpos d' = fpos d + n;
  fseek_ok d s : fok d →
    let t := seek_target (fpos d) (len (fdata d)) s in
    if (0 <=? t) && (t <? 2 ^ 32)
    then ∃ d', seek s d = Ret (Ok (Z.min t (len (fdata d))), d') ∧ fok d' ∧
           fdata d' = fdata d ∧ fcap d' = fcap d ∧ fpos d' = Z.min t (len (fdata d))
    else seek s d = Ret (Err EInvalidInput, d) }.

Section fat_file_spec.
Context {D : Type} {HD : Stream D} {FS : FileStream D}.
Implicit Types d : D.

Lemma M_step {A B} (x : M D A) (f : A → M D B) d a d' :
  x d = Ret (a, d') → (x ≫= f) d = f a d'.
Proof. apply M_bind_Ret. Qed.

(** *** Reading *)

Lemma fat_read_loop_ok fuel p buf d : fok d → 0 <= p <= len buf → len buf - p <= Z.of_nat fuel →
  let k := Z.min (len buf - p) (len (fdata d) - fpos d) in
  ∃ d', fat_read_loop fuel p buf d
      = Ret ((Some (p + k), splice p (bytes_at (fpos d) k (fdata d)) buf), d') ∧
    fok d' ∧ fdata d' = fdata d ∧ fcap d' = fcap d ∧ fpos d' = fpos d + k.
Proof.
  cbv zeta. revert p buf d. induction fuel as [|fuel IH]; intros p buf d Hd Hp Hf;
    pose proof (fok_bounds d Hd) as [Hpos _]; cbn [fat_read_loop].
  - rewrite Z.min_l by lia. replace (len buf - p) with 0 by lia. rewrite !Z.add_0_r.
    by exists d.
  - destruct (Z.ltb_spec p (len buf)) as [Hlt|Hge].
    2: { rewrite Z.min_l by lia. replace (len buf - p) with 0 by lia. rewrite !Z.add_0_r. by exists d. }
    destruct (fread_ok d (len buf - p) Hd) as (bs&d1&Hr&Hd1&Hdata&Hcap&Hbs&Hle&Hpos1&Hprog); [lia|].
    assert (inner (read (len buf - p)) d = Ret (Ok bs, d1)) as Hr' by exact Hr. step Hr'.
    pose proof (bytes_at_inside _ _ _ Hpos Hbs) as Hin. pose proof (len_nonneg bs).
    destruct (Z.eqb_spec (len bs) 0) as [H0|H0].
    + rewrite Z.min_r by lia. replace (len (fdata d) - fpos d) with 0 by lia. rewrite !Z.add_0_r.
      exists d1. split; [done|]. split_and!; try done. lia.
    + destruct (IH (p + len bs) (splice p bs buf) d1) as (d2&H2&Hd2&Hdata2&Hcap2&Hpos2);
        [done|rewrite len_splice; lia|rewrite len_splice; lia|].
      rewrite len_splice, Hdata, Hpos1 in *.
      set (k := Z.min (len buf - p) (len (fdata d) - fpos d)).
      replace (Z.min (len buf - (p + len bs)) (len (fdata d) - (fpos d + len bs)))
        with (k - len bs) in * by lia.
      exists d2. split; [|split_and!; [done|congruence|congruence|lia]].
      rewrite H2. do 3 f_equal; [f_equal; lia|].
      assert (len (bytes_at (fpos d + len bs) (k - len bs) (fdata d)) = k - len bs) as Hlen
        by (apply len_bytes_at; lia).
      rewrite <- splice_app by (rewrite ?len_app; lia). f_equal. rewrite Hbs at 1.
      rewrite <- bytes_at_app by lia. f_equal. lia.
Qed.

Lemma fat_read_ok self buf d : fok d → readable self = true →
  let k := Z.min (len buf) (len (fdata d) - fpos d) in
  ∃ d', fat_read self buf d = Ret ((Some k, splice 0 (bytes_at (fpos d) k (fdata d)) buf), d') ∧
    fok d' ∧ fdata d' = fdata d ∧ fcap d' = fcap d ∧ fpos d' = fpos d + k.
Proof.
  intros Hd Hr. unfold fat_read. rewrite Hr. cbn [negb]. pose proof (len_nonneg buf).
  destruct (fat_read_loop_ok (Z.to_nat (len buf)) 0 buf d) as (d'&H1&H2); [done|lia|lia|].
  rewrite Z.sub_0_r in *. by exists d'.
Qed.

(** *** Writing *)

Lemma fat_write_loop_ok fuel p buf d : fok d → 0 <= p <= len buf → len buf - p <= Z.of_nat fuel →
  Forall (word 8) buf → fpos d + (len buf - p) <= fcap d →
  ∃ d', fat_write_loop fuel p buf d = Ret (Some (len buf), d') ∧ fok d' ∧ fcap d' = fcap d ∧
    fdata d' = overwrite (fpos d) (drop (Z.to_nat p) buf) (fdata d) ∧
    fpos d' = fpos d + (len buf - p).
Proof.
  revert p d. induction fuel as [|fuel IH]; intros p d Hd Hp Hf Hby Hroom;
    pose proof (fok_bounds d Hd) as [Hpos _]; cbn [fat_write_loop].
  - assert (p = len buf) as -> by lia. exists d. split; [done|]. split; [done|]. split; [done|].
    rewrite drop_ge by (unfold len; lia). rewrite overwrite_nil by lia. split; [done|lia].
  - destruct (Z.ltb_spec p (len buf)) as [Hlt|Hge].
    2: { assert (p = len buf) as -> by lia. exists d. split; [done|]. split; [done|]. split; [done|].
         rewrite drop_ge by (unfold len; lia). rewrite overwrite_nil by lia. split; [done|lia]. }
    assert (len (drop (Z.to_nat p) buf) = len buf - p) as Hlen by (unfold len in *; rewrite length_drop; lia).
    destruct (fwrite_ok d (drop (Z.to_nat p) buf) Hd) as (n&d1&Hw&Hd1&Hcap&Hn&Hprog&Hdata&Hpos1); [by apply Forall_drop|lia|].
    assert (inner (write (drop (Z.to_nat p) buf)) d = Ret (Ok n, d1)) as Hw' by exact Hw. step Hw'.
    destruct (Z.eqb_spec n 0); [lia|].
    destruct (IH (p + n) d1) as (d2&H2&Hd2&Hcap2&Hdata2&Hpos2); [done|lia|lia|done|lia|].
    exists d2. split; [done|]. split; [done|]. split; [congruence|]. split; [|lia].
    rewrite Hdata2, Hpos1, Hdata.
    assert (len (take (Z.to_nat n) (drop (Z.to_nat p) buf)) = n) as Hlt'
      by (unfold len in *; rewrite length_take; lia).
    rewrite <- Hlt' at 1. rewrite overwrite_app by done. f_equal.
    replace (Z.to_nat (p + n)) with (Z.to_nat p + Z.to_nat n)%nat by lia.
    rewrite <- drop_drop. apply take_drop.
Qed.

Lemma fat_write_ok self buf d : fok d → writable self = true → Forall (word 8) buf → fpos d + len buf <= fcap d →
  ∃ d', fat_write self buf d = Ret (Some (len buf), d') ∧ fok d' ∧ fcap d' = fcap d ∧
    fdata d' = overwrite (fpos d) buf (fdata d) ∧ fpos d' = fpos d + len buf.
Proof.
  intros Hd Hw Hby Hroom. unfold fat_write. rewrite Hw. cbn [negb]. pose proof (len_nonneg buf).
  destruct (fat_write_loop_ok (Z.to_nat (len buf)) 0 buf d) as (d'&H1&H2&H3&H4&H5); [done|lia|lia|done|lia|].
  exists d'. split_and!; try done. lia.
Qed.

(** *** Seeking *)

Lemma seek_in d sf : fok d →
  0 <= seek_target (fpos d) (len (fdata d)) sf < 2 ^ 32 →
  let p := Z.min (seek_target (fpos d) (len (fdata d)) sf) (len (fdata d)) in
  ∃ d', seek sf d = Ret (Ok p, d') ∧ fok d' ∧ fdata d' = fdata d ∧ fcap d' = fcap d ∧ fpos d' = p.
Proof.
  intros Hd Ht. pose proof (fseek_ok d sf Hd) as H. cbv zeta in *.
  destruct (Z.leb_spec 0 (seek_target (fpos d) (len (fdata d)) sf)); [|lia].
  destruct (Z.ltb_spec (seek_target (fpos d) (len (fdata d)) sf) (2 ^ 32)); [|lia]. exact H.
Qed.

Lemma inner_unwrap_ok {A} (f : FM D A) d a d' : f d = Ret (Ok a, d') → inner_unwrap f d = Ret (a, d').
Proof. intros H. unfold inner_unwrap. by rewrite H. Qed.

Lemma take_repeat n k : take n (repeat 0 k) = repeat 0 (Nat.min n k).
Proof. revert k. induction n as [|n IH]; intros [|k]; simpl; [done..|]. by rewrite IH. Qed.

Lemma Forall_repeat_0 n : Forall (word 8) (repeat 0 n).
Proof. induction n; constructor; [unfold word; lia|done]. Qed.

Lemma len_repeat n : len (repeat 0 n) = Z.of_nat n.
Proof. unfold len. by rewrite repeat_length. Qed.

(** [d'] is [d] with [n] zeros appended. *)
Definition padded d d' (n : nat) : Prop :=
  fok d' ∧ fcap d' = fcap d ∧ fdata d' = fdata d ++ repeat 0 n.

Lemma pad_zeros_ok d n : fok d → fpos d = len (fdata d) → 0 < n → len (fdata d) + n <= fcap d →
  ∃ d' k, pad_zeros n d = Ret (tt, d') ∧ padded d d' k ∧ (0 < k)%nat ∧ Z.of_nat k <= n.
Proof.
  intros Hd Hp Hn Hroom. unfold pad_zeros.
  destruct (fwrite_ok d (repeat 0 (Z.to_nat n)) Hd) as (k&d'&Hw&Hd'&Hcap&Hk&Hprog&Hdata&_);
    [apply Forall_repeat_0|rewrite len_repeat; lia|].
  rewrite len_repeat in *.
  step (inner_unwrap_ok _ _ _ _ Hw). exists d', (Z.to_nat k). split; [done|].
  split; [|lia]. split; [done|]. split; [done|].
  rewrite Hdata, Hp, overwrite_end, take_repeat. do 2 f_equal. lia.
Qed.

(** The padding of a seek to [o], from the end of the file. *)
Definition pads d d' (o : Z) : Prop :=
  ∃ n, padded d d' n ∧ Z.of_nat n <= Z.max 0 (o - len (fdata d)) ∧
    (len (fdata d) < o → o - len (fdata d) <= FS_IMG_SIZE → (0 < n)%nat).

Lemma fat_seek_start_ok d o : fok d → 0 <= o <= fcap d →
  ∃ d', fat_seek (SStart o) d = Ret (Some o, d') ∧ pads d d' o ∧ fpos d' = Z.min o (len (fdata d')).
Proof.
  intros Hd Ho. pose proof (fok_bounds d Hd) as [Hpos Hlen]. unfold fat_seek.
  destruct (seek_in d (SCurrent 0) Hd) as (d1&H1&Hd1&Hdata1&Hcap1&Hpos1); [simpl; lia|].
  step (inner_unwrap_ok _ _ _ _ H1). simpl seek_target in *.
  destruct (seek_in d1 (SStart o) Hd1) as (d2&H2&Hd2&Hdata2&Hcap2&Hpos2); [simpl; lia|].
  unfold inner. step H2. simpl seek_target in *.
  destruct (seek_in d2 (SEnd 0) Hd2) as (d3&H3&Hd3&Hdata3&Hcap3&Hpos3);
    [simpl; rewrite Hdata2, Hdata1; lia|].
  step (inner_unwrap_ok _ _ _ _ H3). simpl seek_target in *.
  assert (fdata d3 = fdata d ∧ fcap d3 = fcap d) as [Hdata Hcap] by (split; congruence).
  rewrite Hdata2, Hdata1 in *. rewrite Z.add_0_r, Z.min_id in *.
  assert (∃ d4, (if (len (fdata d) <? o) && (o - len (fdata d) <=? FS_IMG_SIZE)
      then pad_zeros (o - len (fdata d)) else mret tt) d3 = Ret (tt, d4) ∧ pads d d4 o) as (d4&H4&Hpads).
  { destruct (Z.ltb_spec (len (fdata d)) o), (Z.leb_spec (o - len (fdata d)) FS_IMG_SIZE); simpl.
    - destruct (pad_zeros_ok d3 (o - len (fdata d))) as (d4&k&H4&(?&?&Hk)&?&?); [done|congruence|lia| |].
      { rewrite Hdata, Hcap. lia. }
      exists d4. split; [done|]. exists k. rewrite Hdata in Hk. split; [split_and!; try done; congruence|]. lia.
    - exists d3. split; [done|]. exists O. split; [split_and!; try done; simpl; by rewrite app_nil_r|]. simpl. lia.
    - exists d3. split; [done|]. exists O. split; [split_and!; try done; simpl; by rewrite app_nil_r|]. simpl. lia.
    - exists d3. split; [done|]. exists O. split; [split_and!; try done; simpl; by rewrite app_nil_r|]. simpl. lia. }
  step H4. destruct Hpads as (n&(Hd4&Hcap4&Hdata4)&Hn1&Hn2).
  destruct (seek_in d4 (SStart o) Hd4) as (d5&H5&Hd5&Hdata5&Hcap5&Hpos5); [simpl; lia|].
  step (inner_unwrap_ok _ _ _ _ H5). simpl seek_target in *. exists d5.
  split; [destruct (Z.ltb_spec 0 o); unfold mret, M_ret; do 3 f_equal; lia|].
  split; [|congruence]. exists n. split; [split_and!; congruence|done].
Qed.

Lemma fat_seek_current_ok d c : fok d → 0 <= fpos d + c <= fcap d →
  ∃ d', fat_seek (SCurrent c) d = Ret (Some (Z.min (fpos d + c) (len (fdata d))), d') ∧
    (∃ n, padded d d' n ∧ Z.of_nat n <= Z.max 0 (fpos d + c - len (fdata d)) ∧
      (len (fdata d) < fpos d + c → (0 < n)%nat)) ∧
    fpos d' = Z.min (fpos d + c) (len (fdata d')).
Proof.
  intros Hd Ho. pose proof (fok_bounds d Hd) as [Hpos Hlen]. unfold fat_seek.
  destruct (seek_in d (SCurrent 0) Hd) as (d1&H1&Hd1&Hdata1&Hcap1&Hpos1); [simpl; lia|].
  step (inner_unwrap_ok _ _ _ _ H1). simpl seek_target in *. rewrite Z.add_0_r, Z.min_l in * by lia.
  destruct (seek_in d1 (SCurrent c) Hd1) as (d2&H2&Hd2&Hdata2&Hcap2&Hpos2); [simpl; lia|].
  unfold inner. step H2. simpl seek_target in *.
  destruct (seek_in d2 (SCurrent 0) Hd2) as (d2'&H2'&Hd2'&Hdata2'&Hcap2'&Hpos2');
    [simpl; rewrite Hpos2, Hpos1, Hdata1; lia|].
  step (inner_unwrap_ok _ _ _ _ H2'). simpl seek_target in *.
  destruct (seek_in d2' (SEnd 0) Hd2') as (d3&H3&Hd3&Hdata3&Hcap3&Hpos3);
    [simpl; rewrite Hdata2', Hdata2, Hdata1; lia|].
  step (inner_unwrap_ok _ _ _ _ H3). simpl seek_target in *.
  assert (fdata d3 = fdata d ∧ fcap d3 = fcap d) as [Hdata Hcap] by (split; congruence).
  rewrite Hdata2', Hdata2, Hdata1 in *. rewrite Z.add_0_r, Z.min_id in *.
  rewrite (swrap_small 64 (fpos d)), (swrap_small 64 (fpos d + c)), (wrap_small 64 (fpos d + c))
    by (unfold word; lia).
  rewrite Hpos1 in *.
  assert (∃ d4 n, (if len (fdata d) <? fpos d + c
      then pad_zeros (wrap64 (fpos d + c - len (fdata d))) else mret tt) d3 = Ret (tt, d4) ∧
      padded d d4 n ∧ Z.of_nat n <= Z.max 0 (fpos d + c - len (fdata d)) ∧
      (len (fdata d) < fpos d + c → (0 < n)%nat)) as (d4&n&H4&(Hd4&Hcap4&Hdata4)&Hn1&Hn2).
  { destruct (Z.ltb_spec (len (fdata d)) (fpos d + c)).
    - rewrite (wrap_small 64) by (unfold word; lia).
      destruct (pad_zeros_ok d3 (fpos d + c - len (fdata d))) as (d4&k&H4&(?&?&Hk)&?&?);
        [done|congruence|lia|rewrite Hdata, Hcap; lia|].
      exists d4, k. split; [done|]. rewrite Hdata in Hk. split; [split_and!; try done; congruence|]. lia.
    - exists d3, O. split; [done|]. split; [split_and!; try done; simpl; by rewrite app_nil_r|]. simpl. lia. }
  step H4. destruct (seek_in d4 (SStart (fpos d + c)) Hd4) as (d5&H5&Hd5&Hdata5&Hcap5&Hpos5); [simpl; lia|].
  step (inner_unwrap_ok _ _ _ _ H5). simpl seek_target in *. exists d5.
  split; [done|]. split; [exists n; split; [split_and!; congruence|done]|congruence].
Qed.
End fat_file_spec.

(** ** A file in memory, for the witnesses: writes stop at multiples of 512. *)
Module MemFile.
Record memfile := mkMem { mdata : list Z; mpos : Z }.

Definition mcap : Z := 0x100000.

Definition mread (n : Z) : FM memfile (list Z) := λ d,
  let bs := bytes_at (mpos d) n (mdata d) in Ret (Ok bs, mkMem (mdata d) (mpos d + len bs)).

Definition mwrite (bs : list Z) : FM memfile Z := λ d,
  let n := Z.min (len bs) (512 - mpos d mod 512) in
  if mpos d + n <=? mcap
  then Ret (Ok n, mkMem (overwrite (mpos d) (take (Z.to_nat n) bs) (mdata d)) (mpos d + n))
  else Ret (Err ENotEnoughSpace, d).

Definition mseek (s : SeekFrom) : FM memfile Z := λ d,
  let t := seek_target (mpos d) (len (mdata d)) s in
  if (0 <=? t) && (t <? 2 ^ 32)
  then Ret (Ok (Z.min t (len (mdata d))), mkMem (mdata d) (Z.min t (len (mdata d))))
  else Ret (Err EInvalidInput, d).

#[export] Instance mem_stream : Stream memfile := {|
  read := mread; write := mwrite; seek := mseek; flush := mret tt;
  unexpected_eof_error := EUnexpectedEof; write_zero_error := EWriteZero |}.

#[export, program] Instance mem_file : FileStream memfile := {
  fok d := 0 <= mpos d <= len (mdata d) ∧ len (mdata d) <= mcap;
  fdata := mdata; fpos := mpos; fcap _ := mcap }.
Next Obligation. intros d [??]. unfold mcap in *. simpl. lia. Qed.
Next Obligation.
  intros d n [Hp Hl] Hn. eexists _, _. split; [done|].
  assert (len (bytes_at (mpos d) n (mdata d)) = Z.min n (len (mdata d) - mpos d)) as Hlen
    by (unfold bytes_at, len in *; rewrite length_take, length_drop; lia).
  cbn [mpos mdata]. rewrite Hlen. split_and!; try lia; try done.
  unfold bytes_at. replace (Z.to_nat (Z.min n (len (mdata d) - mpos d)))
    with (Z.to_nat n `min` Z.to_nat (len (mdata d) - mpos d))%nat by lia.
  rewrite <- take_take. f_equal. symmetry. apply take_ge. rewrite length_drop. unfold len. lia.
Qed.
Next Obligation.
  intros d bs [Hp Hl] _ Hroom. pose proof (len_nonneg bs). cbn [write mem_stream]. unfold mwrite.
  pose proof (Z.mod_pos_bound (mpos d) 512 ltac:(lia)).
  set (n := Z.min (len bs) (512 - mpos d mod 512)).
  destruct (Z.leb_spec (mpos d + n) mcap); [|unfold mcap in *; lia].
  eexists _, _. split; [done|]. cbn [mpos mdata].
  assert (len (take (Z.to_nat n) bs) = n) as Hn by (unfold len in *; rewrite length_take; lia).
  rewrite len_overwrite, Hn by done. split_and!; try lia; done.
Qed.
Next Obligation.
  intros d s [Hp Hl]. cbn [seek mem_stream]. unfold mseek. cbv zeta.
  destruct (Z.leb_spec 0 (seek_target (mpos d) (len (mdata d)) s)); simpl; [|done].
  destruct (seek_target (mpos d) (len (mdata d)) s <? 2 ^ 32); [|done].
  eexists. split; [done|]. cbn [mpos mdata]. split_and!; try done; lia.
Qed.
End MemFile.
Import MemFile.

(** ** Properties *)

Section properties.
Context {D : Type} {HD : Stream D} {FS : FileStream D}.

(** However the driver splits them, [read] fills the buffer with all the
    bytes the file has at the position, up to the buffer's length, and [write]
    with room left writes the whole buffer at the position, extending the file;
    both advance the position by what they return. *)
Theorem fat_file_reads_and_writes (self : FatFile) (buf : list Z) (d : D) :
  fok d → readable self = true → writable self = true → Forall (word 8) buf →
  fpos d + len buf <= fcap d →
  let k := Z.min (len buf) (len (fdata d) - fpos d) in
  (∃ d', file_read self buf d = Ret ((Some k, splice 0 (bytes_at (fpos d) k (fdata d)) buf), d') ∧
     fok d' ∧ fdata d' = fdata d ∧ fpos d' = fpos d + k) ∧
  (∃ d', file_write self buf d = Ret (Some (len buf), d') ∧
     fok d' ∧ fdata d' = overwrite (fpos d) buf (fdata d) ∧ fpos d' = fpos d + len buf).
Proof.
  intros Hd Hr Hw Hby Hroom k. split.
  - destruct (fat_read_ok self buf d Hd Hr) as (d'&H1&H2&H3&_&H4). by exists d'.
  - destruct (fat_write_ok self buf d Hd Hw Hby Hroom) as (d'&H1&H2&_&H3&H4). by exists d'.
Qed.

(** Seeking to [o] answers [o] and pads a shorter file with zeros, but with
    a single write: when the driver writes less than asked (it stops at a
    cluster boundary) the pointer stays at the end of what was padded, short of
    [o]. *)
Theorem fat_seek_start_pads (self : FatFile) (o : Z) (d : D) :
  fok d → 0 <= o <= fcap d →
  ∃ n d', file_seek self (SStart o) d = Ret (Some o, d') ∧ fok d' ∧
    fdata d' = fdata d ++ repeat 0 n ∧ Z.of_nat n <= Z.max 0 (o - len (fdata d)) ∧
    (fpos d' = o ↔ len (fdata d) + Z.of_nat n >= o) ∧ fpos d' <= o.
Proof.
  intros Hd Ho. destruct (fat_seek_start_ok d o Hd Ho) as (d'&H1&(n&(Hd'&_&Hdata)&Hn&_)&Hpos).
  rewrite Hdata, len_app, len_repeat in Hpos. exists n, d'.
  split; [done|]. split; [done|]. split; [done|]. split; [done|]. lia.
Qed.

(** Reading at an offset is meant to leave the pointer alone; the provided
    method seeks back relative to where the read stopped.  The bytes are right,
    but the pointer ends at the offset plus what was read plus its old value
    (or at the end), and when that is past the end the file is extended with
    zeros, although it was only read. *)
Theorem offset_read_moves_and_extends (self : FatFile) (pos : Z) (buf : list Z) (d : D) :
  fok d → readable self = true → 0 <= pos <= len (fdata d) →
  let k := Z.min (len buf) (len (fdata d) - pos) in
  pos + k + fpos d <= fcap d →
  ∃ n d', file_read_from_offset self pos buf d
            = Ret ((Some k, splice 0 (bytes_at pos k (fdata d)) buf), d') ∧
    fok d' ∧ fdata d' = fdata d ++ repeat 0 n ∧
    fpos d' = Z.min (pos + k + fpos d) (len (fdata d')) ∧
    (len (fdata d) < pos + k + fpos d → (0 < n)%nat).
Proof.
  intros Hd Hr Hp k Hroom. pose proof (fok_bounds d Hd) as [Hpos Hlen]. pose proof (len_nonneg buf).
  cbn [file_read_from_offset FatFile_File]. unfold read_from_offset_default.
  destruct (fat_seek_current_ok d 0 Hd) as (d1&H1&(n1&(Hd1&Hcap1&Hdata1)&Hn1&_)&Hpos1); [lia|].
  step H1. assert (n1 = O) as -> by lia. simpl in Hdata1. rewrite app_nil_r in Hdata1.
  rewrite Hdata1 in Hpos1. rewrite Z.add_0_r, Z.min_l in * by lia.
  destruct (fat_seek_start_ok d1 pos Hd1) as (d2&H2&(n2&(Hd2&Hcap2&Hdata2)&Hn2&_)&Hpos2); [lia|].
  step H2. rewrite Hdata1 in *. assert (n2 = O) as -> by lia. simpl in Hdata2. rewrite app_nil_r in Hdata2.
  rewrite Hdata2, Z.min_l in Hpos2 by lia.
  destruct (fat_read_ok self buf d2 Hd2 Hr) as (d3&H3&Hd3&Hdata3&Hcap3&Hpos3).
  rewrite Hpos2, Hdata2 in *. fold k in H3, Hpos3. step H3.
  rewrite swrap_small by lia.
  destruct (fat_seek_current_ok d3 (fpos d) Hd3) as (d4&H4&(n&(Hd4&_&Hdata4)&Hn&Hn')&Hpos4);
    [rewrite Hpos3; lia|].
  step H4. rewrite Hdata3, Hpos3 in *. exists n, d4. unfold unwrapM, mbind, M_bind.
  split; [done|]. split; [done|]. split; [done|]. split; [done|]. lia.
Qed.
End properties.

Lemma fat_file_reads_and_writes_witness :
  let d := mkMem (repeat 7 600) 100 in
  let buf := repeat 0 10 in
  let k := Z.min (len buf) (len (fdata d) - fpos d) in
  (∃ d', file_read (mkFatFile true true) buf d
     = Ret ((Some k, splice 0 (bytes_at (fpos d) k (fdata d)) buf), d') ∧
     fok d' ∧ fdata d' = fdata d ∧ fpos d' = fpos d + k) ∧ k = 10.
Proof.
  intros d buf k. split; [|reflexivity].
  apply (fat_file_reads_and_writes (mkFatFile true true) buf d);
    [split; vm_compute; [split|]; congruence|reflexivity|reflexivity|apply Forall_repeat_0|vm_compute; congruence].
Defined.

(** An empty file, seek to 2000: 512 zeros are written and the pointer is there. *)
Lemma fat_seek_start_pads_witness :
  let d := mkMem [] 0 in
  (∃ n d', file_seek (mkFatFile true true) (SStart 2000) d = Ret (Some 2000, d') ∧ fok d' ∧
    fdata d' = fdata d ++ repeat 0 n ∧ Z.of_nat n <= Z.max 0 (2000 - len (fdata d)) ∧
    (fpos d' = 2000 ↔ len (fdata d) + Z.of_nat n >= 2000) ∧ fpos d' <= 2000) ∧
  file_seek (mkFatFile true true) (SStart 2000) d = Ret (Some 2000, mkMem (repeat 0 512) 512).
Proof.
  intros d. split; [|vm_compute; reflexivity].
  apply (fat_seek_start_pads (mkFatFile true true) 2000 d);
    [split; vm_compute; [split|]; congruence|vm_compute; split; congruence].
Defined.

(** A file of four bytes with the pointer at 4: reading it from byte 1
    appends four zeros. *)
Lemma offset_read_moves_and_extends_witness :
  let d := mkMem [1; 2; 3; 4] 4 in
  let buf := [0; 0; 0; 0] in
  let k := Z.min (len buf) (len (fdata d) - 1) in
  (∃ n d', file_read_from_offset (mkFatFile true true) 1 buf d
            = Ret ((Some k, splice 0 (bytes_at 1 k (fdata d)) buf), d') ∧
    fok d' ∧ fdata d' = fdata d ++ repeat 0 n ∧
    fpos d' = Z.min (1 + k + fpos d) (len (fdata d')) ∧
    (len (fdata d) < 1 + k + fpos d → (0 < n)%nat)) ∧
  file_read_from_offset (mkFatFile true true) 1 buf d
    = Ret ((Some 3, [2; 3; 4; 0]), mkMem [1; 2; 3; 4; 0; 0; 0; 0] 8).
Proof.
  intros d buf k. split; [|vm_compute; reflexivity].
  apply (offset_read_moves_and_extends (mkFatFile true true) 1 buf d);
    [split; vm_compute; [split|]; congruence|reflexivity|vm_compute; split; congruence|vm_compute; congruence].
Defined.
