(* ===== verification/VmArea.v ===== *)
(** * Memory areas (kernel/src/memory/areas)

    [PmAreaFixed] and [PmAreaLazy], the physical side of an area, and [VmArea],
    a range of virtual addresses over one of them, as a [Segment] of the range
    map.  A lazy area owns the frames it took and the bytes in them. *)

From S2P Require Import Prelude Bytes BitAlloc Addr PageFrame Errors PageTable BaseFile RangeMap.

(** ** The world: a page table, the frame allocator, its memory, the files *)

Record VmWorld (A FW : Type) := mkVmWorld {
  vw_pt : PageTable;
  vw_alloc : A;
  vw_mem : pt_mem;
  vw_files : FW }.
Arguments mkVmWorld {A FW}.
Arguments vw_pt {A FW}.
Arguments vw_alloc {A FW}.
Arguments vw_mem {A FW}.
Arguments vw_files {A FW}.


Record PmAreaFixed := mkFixed { pm_start : Z; pm_end : Z }.

Record PmAreaLazy (F : Type) := mkLazy {
  lz_frames : list (option PFrame);
  lz_backend : option (BackEndFile F) }.
Arguments mkLazy {F}.
Arguments lz_frames {F}.
Arguments lz_backend {F}.

Inductive PmArea (F : Type) :=
| PmFixed (p : PmAreaFixed)
| PmLazy (p : PmAreaLazy F).
Arguments PmFixed {F}.
Arguments PmLazy {F}.

Record VmArea (F : Type) := mkVmArea {
  vm_start : Z;
  vm_end : Z;
  vm_flags : Z;
  vm_pma : PmArea F }.
Arguments mkVmArea {F}.
Arguments vm_start {F}.
Arguments vm_end {F}.
Arguments vm_flags {F}.
Arguments vm_pma {F}.

(** [self.unwrap()] of an [OSResult] *)
Definition os_unwrap {W A} (r : OSResult A) : M W A := λ w,
  match r with OsOk a => Ret (a, w) | OsErr _ => Panic end.

Definition lift {W A} (o : outcome A) : M W A := λ w, a ← o; Ret (a, w).

(** A loop whose body may return early with an error ([?]). *)
Fixpoint foldMR {W S I} (f : S → I → M W (OSResult unit * S)) (s : S) (l : list I)
    : M W (OSResult unit * S) :=
  match l with
  | [] => mret (OsOk tt, s)
  | i :: l' =>
      '(r, s) ← f s i;
      match r with OsOk _ => foldMR f s l' | OsErr e => mret (OsErr e, s) end
  end.

(** [(start..end).step_by(PAGE_SIZE)] *)
Definition step_pages (s e : Z) : list Z :=
  (λ i, s + i * PAGE_SIZE) <$> seqZ 0 ((e - s + PAGE_SIZE - 1) / PAGE_SIZE).

(** [v.drain(n..)] splits a vector at [n]; out of range it panics. *)
Definition split_at {A} (n : Z) (l : list A) : outcome (list A * list A) :=
  if (0 <=? n) && (n <=? Z.of_nat (length l))
  then Ret (take (Z.to_nat n) l, drop (Z.to_nat n) l) else Panic.

(** ** [fixed.rs] *)

Definition fixed_new (s e : Z) : OSResult PmAreaFixed :=
  if e <=? s then OsErr PmArea_InvalidRange else OsOk (mkFixed (align_down s) (align_up e)).

Definition fixed_size (self : PmAreaFixed) : Z := wrap64 (pm_end self - pm_start self).

Definition fixed_get_frame (self : PmAreaFixed) (idx : Z) : OSResult (option Z) :=
  OsOk (Some (wrap64 (pm_start self + wrap64 (idx * PAGE_SIZE)))).

(** [read] and [write] up to the copy: the physical range that is copied. *)
Definition fixed_copy_range (self : PmAreaFixed) (offset buf_len : Z) : outcome (OSResult (Z * Z)) :=
  if fixed_size self <=? offset then Ret (OsErr PmArea_OutOfRange)
  else
    let n := Z.min buf_len (wrap64 (pm_end self - offset)) in
    if n =? buf_len then Ret (OsOk (wrap64 (pm_start self + offset), n)) else Panic.

Definition fixed_shrink_left (self : PmAreaFixed) (new_start : Z) : OSResult unit * PmAreaFixed :=
  if new_start <? wrap64 (pm_end self - pm_start self)
  then (OsOk tt, mkFixed (wrap64 (pm_start self + new_start)) (pm_end self))
  else (OsErr PmArea_ShrinkFailed, self).

Definition fixed_shrink_right (self : PmAreaFixed) (new_end : Z) : OSResult unit * PmAreaFixed :=
  if new_end <? wrap64 (pm_end self - pm_start self)
  then (OsOk tt, mkFixed (pm_start self) (wrap64 (pm_start self + new_end)))
  else (OsErr PmArea_ShrinkFailed, self).

Definition fixed_split (self : PmAreaFixed) (left_end right_start : Z)
    : outcome (OSResult PmAreaFixed * PmAreaFixed) :=
  if (left_end <=? right_start) && (right_start <? wrap64 (pm_end self - pm_start self)) then
    match fixed_new (wrap64 (pm_start self + right_start)) (pm_end self) with
    | OsOk right_ => Ret (OsOk right_, mkFixed (pm_start self) (wrap64 (pm_start self + left_end)))
    | OsErr _ => Panic
    end
  else Ret (OsErr PmArea_SplitFailed, self).

(** ** [lazy.rs] *)


Section areas.
Context {A : Type} `{BitAlloc A} `{PageFrameConfig}.
Context {FW F : Type} `{File FW F}.
Context {SB : StaleBytes}.

Abbreviation W := (VmWorld A FW).
Implicit Types self : PmAreaLazy F.

(** Calls on one part of the world. *)
Definition on_alloc {R} (f : M A R) : M W R := λ w,
  '(r, a) ← f (vw_alloc w); Ret (r, mkVmWorld (vw_pt w) a (vw_mem w) (vw_files w)).

Definition on_files {R} (f : M FW R) : M W R := λ w,
  '(r, fs) ← f (vw_files w); Ret (r, mkVmWorld (vw_pt w) (vw_alloc w) (vw_mem w) fs).

Definition on_pt {R} (f : PageTable → PM (A := A) (R * PageTable)) : M W R := λ w,
  '(r, pt, (a, mem)) ← f (vw_pt w) (vw_alloc w, vw_mem w); Ret (r, mkVmWorld pt a mem (vw_files w)).

Definition zero_bytes : list Z := repeat 0 (Z.to_nat PAGE_SIZE).

Definition lazy_size self : Z := wrap64 (Z.of_nat (length (lz_frames self)) * PAGE_SIZE).

Definition lazy_new (pages : Z) (backend : option (BackEndFile F)) : OSResult (PmAreaLazy F) :=
  if pages =? 0 then OsErr PmArea_InvalidRange
  else if page_count USER_VIRT_ADDR_LIMIT <? pages then OsErr Memory_RunOutOfMemory
  else OsOk (mkLazy (repeat None (Z.to_nat pages)) backend).

Definition lazy_clone_as_fork self : OSResult (PmAreaLazy F) :=
  lazy_new (Z.of_nat (length (lz_frames self))) (option_map be_clone_as_fork (lz_backend self)).

Definition set_slot self (idx : Z) (pf : option PFrame) : PmAreaLazy F :=
  mkLazy (<[Z.to_nat idx := pf]> (lz_frames self)) (lz_backend self).

Definition lazy_get_frame self (idx : Z) (need_alloc : bool)
    : M W (OSResult (option Z) * PmAreaLazy F) :=
  slot ← lift (index (lz_frames self) idx);
  if need_alloc && bool_decide (slot = None) then
    frame ← on_alloc frame_new;
    match frame with
    | Some frame =>
        data ← match lz_backend self with
               | Some backend =>
                   '(r, data) ← on_files (be_read_from_offset backend (wrap64 (idx * PAGE_SIZE)) (stale frame));
                   mret match r with None => zero_bytes | Some _ => data end
               | None => mret zero_bytes
               end;
        mret (OsOk (Some (start_paddr frame)), set_slot self idx (Some (mkPFrame frame data)))
    | None => mret (OsErr Memory_RunOutOfMemory, self)
    end
  else mret (OsOk (option_map (λ pf, start_paddr (pf_frame pf)) slot), self).

Definition lazy_sync_frame_with_file self (idx : Z) : M W unit :=
  match lz_backend self with
  | Some backend =>
      slot ← lift (index (lz_frames self) idx);
      pf ← lift (unwrap slot);
      _ ← on_files (be_write_to_offset backend (wrap64 (idx * PAGE_SIZE)) (pf_data pf));
      mret tt
  | None => mret tt
  end.

Definition lazy_release_frame self (idx : Z) : M W (OSResult unit * PmAreaLazy F) :=
  slot ← lift (index (lz_frames self) idx);
  match slot with
  | None => mret (OsErr PmAreaLazy_ReleaseNotAllocatedPage, self)
  | Some pf =>
      _ ← match lz_backend self with
          | Some backend =>
              _ ← on_files (be_write_to_offset backend (wrap64 (idx * PAGE_SIZE)) (pf_data pf)); mret tt
          | None => mret tt
          end;
      _ ← on_alloc (frame_drop (pf_frame pf));
      mret (OsOk tt, set_slot self idx None)
  end.

(** [for_each_frame]: [op st processed bytes] is the caller's closure with its
    captured state, on the bytes of the frame it is given.  Every turn handles
    at least one byte, so [len] turns suffice. *)
Fixpoint for_each_loop {S} (op : S → Z → list Z → S * list Z) (fuel : nat)
    (self : PmAreaLazy F) (st : S) (start len processed : Z)
    : M W (OSResult Z * S * PmAreaLazy F) :=
  match fuel with
  | O => mret (OsOk processed, st, self)
  | Datatypes.S fuel' =>
      if 0 <? len then
        let start_align := align_down start in
        let pgoff := wrap64 (start - start_align) in
        let n := Z.min (wrap64 (PAGE_SIZE - pgoff)) len in
        let idx := start_align / PAGE_SIZE in
        slot ← lift (index (lz_frames self) idx);
        pf ← match slot with
             | Some pf => mret (Some pf)
             | None =>
                 frame ← on_alloc frame_new;
                 mret (option_map (λ f, mkPFrame f zero_bytes) frame)
             end;
        match pf with
        | None => mret (OsErr Memory_RunOutOfMemory, st, self)
        | Some pf =>
            let '(st, bs) := op st processed (bytes_at pgoff n (pf_data pf)) in
            let pf := mkPFrame (pf_frame pf) (splice pgoff bs (pf_data pf)) in
            for_each_loop op fuel' (set_slot self idx (Some pf)) st
              (wrap64 (start + n)) (wrap64 (len - n)) (wrap64 (processed + n))
        end
      else mret (OsOk processed, st, self)
  end.

Definition for_each_frame {S} (self : PmAreaLazy F) (offset len : Z)
    (op : S → Z → list Z → S * list Z) (st : S) : M W (OSResult Z * S * PmAreaLazy F) :=
  if (lazy_size self <=? offset) || (lazy_size self <? wrap64 (offset + len))
  then mret (OsErr PmArea_OutOfRange, st, self)
  else for_each_loop op (Z.to_nat len) self st offset len 0.

Definition lazy_read self (offset : Z) (dst : list Z) : M W (OSResult Z * list Z * PmAreaLazy F) :=
  for_each_frame self offset (len dst) (λ dst processed bs, (splice processed bs dst, bs)) dst.

Definition lazy_write self (offset : Z) (src : list Z) : M W (OSResult Z * PmAreaLazy F) :=
  '(r, _, self) ← for_each_frame self offset (len src)
                    (λ _ processed bs, (tt, bytes_at processed (len bs) src)) tt;
  mret (r, self).

(** [self.release_frame(idx).unwrap_or(())] for a range of indices *)
Definition release_range self (lo hi : Z) : M W (PmAreaLazy F) :=
  foldMW (λ self idx, '(_, self) ← lazy_release_frame self idx; mret self) self (seqZ lo (hi - lo)).

Definition lazy_shrink_left self (new_start : Z) : M W (OSResult unit * PmAreaLazy F) :=
  if new_start <? lazy_size self then
    self ← release_range self 0 (addr_to_page_id new_start);
    '(_, kept) ← lift (split_at (addr_to_page_id new_start) (lz_frames self));
    mret (OsOk tt, mkLazy kept (option_map (λ b, be_modify_offset b new_start) (lz_backend self)))
  else mret (OsErr PmArea_ShrinkFailed, self).

Definition lazy_shrink_right self (new_end : Z) : M W (OSResult unit * PmAreaLazy F) :=
  if new_end <? lazy_size self then
    self ← release_range self (addr_to_page_id new_end) (Z.of_nat (length (lz_frames self)));
    '(kept, _) ← lift (split_at (addr_to_page_id new_end) (lz_frames self));
    mret (OsOk tt, mkLazy kept (lz_backend self))
  else mret (OsErr PmArea_ShrinkFailed, self).

Definition lazy_split self (left_end right_start : Z)
    : M W (OSResult (PmAreaLazy F) * PmAreaLazy F) :=
  if (left_end <=? right_start) && (right_start <? lazy_size self) then
    '(left_, new_frames) ← lift (split_at (addr_to_page_id right_start) (lz_frames self));
    self ← release_range (mkLazy left_ (lz_backend self)) (addr_to_page_id left_end) (addr_to_page_id right_start);
    '(kept, _) ← lift (split_at (addr_to_page_id left_end) (lz_frames self));
    mret (OsOk (mkLazy new_frames (option_map (λ b, be_split b right_start) (lz_backend self))),
          mkLazy kept (lz_backend self))
  else mret (OsErr PmArea_SplitFailed, self).

(** Dropping the area drops the frames it still has. *)
Definition lazy_drop self : M W unit :=
  foldMW (λ _ slot, match slot with
                    | Some pf => on_alloc (frame_drop (pf_frame pf))
                    | None => mret tt
                    end) tt (lz_frames self).

(** ** The trait [PmArea] *)

Implicit Types pma : PmArea F.

Definition pm_size pma : Z :=
  match pma with PmFixed p => fixed_size p | PmLazy p => lazy_size p end.

Definition pm_clone_as_fork pma : OSResult (PmArea F) :=
  match pma with
  | PmFixed p => OsOk (PmFixed p)
  | PmLazy p => match lazy_clone_as_fork p with OsOk p => OsOk (PmLazy p) | OsErr e => OsErr e end
  end.

Definition pm_get_frame pma (idx : Z) (need_alloc : bool) : M W (OSResult (option Z) * PmArea F) :=
  match pma with
  | PmFixed p => mret (fixed_get_frame p idx, pma)
  | PmLazy p => '(r, p) ← lazy_get_frame p idx need_alloc; mret (r, PmLazy p)
  end.

Definition pm_sync_frame_with_file pma (idx : Z) : M W unit :=
  match pma with PmFixed _ => mret tt | PmLazy p => lazy_sync_frame_with_file p idx end.

Definition pm_release_frame pma (idx : Z) : M W (OSResult unit * PmArea F) :=
  match pma with
  | PmFixed _ => mret (OsOk tt, pma)
  | PmLazy p => '(r, p) ← lazy_release_frame p idx; mret (r, PmLazy p)
  end.

Definition pm_split pma (left_end right_start : Z) : M W (OSResult (PmArea F) * PmArea F) :=
  match pma with
  | PmFixed p =>
      '(r, p) ← lift (fixed_split p left_end right_start);
      mret (match r with OsOk q => OsOk (PmFixed q) | OsErr e => OsErr e end, PmFixed p)
  | PmLazy p =>
      '(r, p) ← lazy_split p left_end right_start;
      mret (match r with OsOk q => OsOk (PmLazy q) | OsErr e => OsErr e end, PmLazy p)
  end.

(** [dst.copy_from_slice(src)] on page [idx]; the pages of a fixed area are the
    same memory before and after. *)
Definition pm_copy_page pma (idx : Z) (src : list Z) : PmArea F :=
  match pma with
  | PmFixed _ => pma
  | PmLazy p =>
      PmLazy (mkLazy (alter (option_map (λ pf, mkPFrame (pf_frame pf) src)) (Z.to_nat idx) (lz_frames p))
                     (lz_backend p))
  end.

Definition pm_page pma (idx : Z) : list Z :=
  match pma with
  | PmFixed _ => []
  | PmLazy p => match lz_frames p !! Z.to_nat idx with Some (Some pf) => pf_data pf | _ => [] end
  end.

Definition pm_drop pma : M W unit :=
  match pma with PmFixed _ => mret tt | PmLazy p => lazy_drop p end.

(** ** [mod.rs]: [VmArea] *)

Implicit Types area : VmArea F.

Definition vm_new (s e flags : Z) pma : OSResult (VmArea F) :=
  if e <=? s then OsErr VmArea_InvalidRange
  else
    let s := align_down s in
    let e := align_up e in
    if negb (wrap64 (e - s) =? pm_size pma) then OsErr VmArea_VmSizeNotEqualToPmSize
    else OsOk (mkVmArea s e flags pma).

Definition vm_contains area (vaddr : Z) : bool := (vm_start area <=? vaddr) && (vaddr <? vm_end area).

Definition vm_is_overlap_with area (s e : Z) : bool :=
  negb ((vm_end area <=? align_down s) || (align_up e <=? vm_start area)).

Definition with_pma area pma : VmArea F := mkVmArea (vm_start area) (vm_end area) (vm_flags area) pma.

(** The page of an address in the area. *)
Definition vm_page area (vaddr : Z) : Z := wrap64 (vaddr - vm_start area) / PAGE_SIZE.

Definition vm_msync area (s e : Z) : M W unit :=
  let s := Z.max s (vm_start area) in
  let e := Z.min e (vm_end area) in
  foldMW (λ _ vaddr, pm_sync_frame_with_file (vm_pma area) (vm_page area vaddr)) tt (step_pages s e).

Definition modify_area_flags area : M W (OSResult unit * PmArea F) :=
  foldMR (λ pma vaddr,
      '(r, pma) ← pm_get_frame pma (vm_page area vaddr) false;
      match r with
      | OsErr e => mret (OsErr e, pma)
      | OsOk None => mret (OsOk tt, pma)
      | OsOk (Some _) =>
          r ← on_pt (λ pt, pt_set_flags pt vaddr (vm_flags area));
          _ ← os_unwrap r;
          mret (OsOk tt, pma)
      end) (vm_pma area) (step_pages (vm_start area) (vm_end area)).

Definition map_area area : M W (OSResult unit * PmArea F) :=
  foldMR (λ pma vaddr,
      '(r, pma) ← pm_get_frame pma (vm_page area vaddr) false;
      match r with
      | OsErr e => mret (OsErr e, pma)
      | OsOk page =>
          res ← on_pt (λ pt, match page with
                             | Some paddr => pt_map pt vaddr paddr (vm_flags area)
                             | None => pt_map pt vaddr 0 0
                             end);
          mret (res, pma)
      end) (vm_pma area) (step_pages (vm_start area) (vm_end area)).

Definition unmap_area_partial area (s e : Z) : M W (OSResult unit * PmArea F) :=
  foldMR (λ pma vaddr,
      '(res, pma) ← pm_release_frame pma (vm_page area vaddr);
      match res with
      | OsErr PmAreaLazy_ReleaseNotAllocatedPage => mret (OsOk tt, pma)
      | OsErr e => mret (OsErr e, pma)
      | OsOk _ =>
          r ← on_pt (λ pt, r ← pt_unmap pt vaddr; mret (r, pt));
          mret (r, pma)
      end) (vm_pma area) (step_pages s e).

Definition unmap_area area : M W (OSResult unit * PmArea F) :=
  unmap_area_partial area (vm_start area) (vm_end area).

(** [self.flags.contains(flags)] *)
Definition contains_flags (self flags : Z) : bool := Z.land self flags =? flags.

Definition vm_is_user area : bool := contains_flags (vm_flags area) USER.

Definition copy_to_new_area_empty area : OSResult (VmArea F) :=
  match pm_clone_as_fork (vm_pma area) with
  | OsOk pma => OsOk (with_pma area pma)
  | OsErr e => OsErr e
  end.

(** The loop of [copy_to_new_area_with_data]; reading the old area changes nothing. *)
Definition copy_pages area new_pma : M W (OSResult unit * PmArea F) :=
  foldMR (λ new_pma vaddr,
      '(r, _) ← pm_get_frame (vm_pma area) (vm_page area vaddr) false;
      match r with
      | OsErr e => mret (OsErr e, new_pma)
      | OsOk None => mret (OsOk tt, new_pma)
      | OsOk (Some old_paddr) =>
          '(r, new_pma) ← pm_get_frame new_pma (vm_page area vaddr) true;
          match r with
          | OsErr e => mret (OsErr e, new_pma)
          | OsOk new_paddr =>
              _ ← lift (unwrap new_paddr);
              mret (OsOk tt, pm_copy_page new_pma (vm_page area vaddr) (pm_page (vm_pma area) (vm_page area vaddr)))
          end
      end) new_pma (step_pages (vm_start area) (vm_end area)).

Definition copy_to_new_area_with_data area : M W (OSResult (VmArea F)) :=
  match copy_to_new_area_empty area with
  | OsErr e => mret (OsErr e)
  | OsOk new_area =>
      '(r, new_pma) ← copy_pages area (vm_pma new_area);
      match r with
      | OsErr e => _ ← pm_drop new_pma; mret (OsErr e)
      | OsOk _ => mret (OsOk (with_pma new_area new_pma))
      end
  end.

(** The bits [handle_page_fault] and [manually_alloc_page] give an entry. *)
Definition fault_bits area (paddr : Z) : Z :=
  pte_set_all paddr (Z.lor (Z.lor (Z.lor (vm_flags area) VALID) ACCESS) DIRTY).

(** [pt.get_entry(vaddr)] and the value of the entry. *)
Definition get_entry (vaddr : Z) : M W (option (Z * Z)) := λ w,
  Ret (option_map (λ pte, (pte, vw_mem w pte)) (find_pte (vw_pt w) (vw_mem w) vaddr), w).

Definition write_entry (pte bits : Z) : M W unit := λ w,
  Ret (tt, mkVmWorld (vw_pt w) (vw_alloc w) (store (vw_mem w) pte bits) (vw_files w)).

(** The part the two share: get the frame, then the entry; [on_valid] is the
    answer for an entry that is valid already. *)
Definition fill_page area (offset : Z) (on_valid : OSResult unit) : M W (OSResult unit * VmArea F) :=
  let offset := align_down offset in
  let vaddr := wrap64 (vm_start area + offset) in
  '(r, pma) ← pm_get_frame (vm_pma area) (offset / PAGE_SIZE) true;
  let area := with_pma area pma in
  match r with
  | OsErr e => mret (OsErr e, area)
  | OsOk None => mret (OsErr Memory_RunOutOfMemory, area)
  | OsOk (Some paddr) =>
      entry ← get_entry vaddr;
      match entry with
      | Some (pte, bits) =>
          if pte_is_valid bits then mret (on_valid, area)
          else _ ← write_entry pte (fault_bits area paddr); mret (OsOk tt, area)
      | None => mret (OsErr PageTable_PageNotMapped, area)
      end
  end.

Definition vm_handle_page_fault area (offset access_flags : Z) : M W (OSResult unit * VmArea F) :=
  if negb (contains_flags (vm_flags area) access_flags)
  then mret (OsErr PageFaultHandler_AccessDenied, area)
  else fill_page area offset (OsErr PageFaultHandler_TrapAtValidPage).

Definition vm_manually_alloc_page area (offset : Z) : M W (OSResult unit * VmArea F) :=
  fill_page area offset (OsOk tt).

(** ** [impl Segment for VmArea] *)

Definition vm_modify area (new_flag args : Z) : M W (VmArea F) :=
  let area := mkVmArea (vm_start area) (vm_end area) (wrap8 new_flag) (vm_pma area) in
  '(r, pma) ← modify_area_flags area;
  _ ← os_unwrap r;
  mret (with_pma area pma).

Definition vm_remove area (args : Z) : M W (VmArea F) :=
  '(r, pma) ← unmap_area area;
  _ ← os_unwrap r;
  mret (with_pma area pma).

Definition vm_split area (pos args : Z) : M W (VmArea F * VmArea F) :=
  let old_end := vm_end area in
  let area := mkVmArea (vm_start area) pos (vm_flags area) (vm_pma area) in
  '(r, pma) ← pm_split (vm_pma area) (wrap64 (pos - vm_start area)) (wrap64 (pos - vm_start area));
  right_pma ← os_unwrap r;
  right_ ← os_unwrap (vm_new pos old_end (vm_flags area) right_pma);
  mret (with_pma area pma, right_).

#[export] Instance VmArea_Segment : Segment W (VmArea F) :=
  {| seg_remove := vm_remove; seg_split := vm_split; seg_modify := vm_modify |}.

(** ** Making areas *)

Definition from_fixed_pma (start_paddr end_paddr offset flags : Z) : OSResult (VmArea F) :=
  pma ← fixed_new start_paddr end_paddr;
  vm_new (wrap64 (start_paddr + offset)) (wrap64 (end_paddr + offset)) flags (PmFixed pma).

Definition from_fixed_pma_negative_offset (start_paddr end_paddr offset flags : Z) : OSResult (VmArea F) :=
  pma ← fixed_new start_paddr end_paddr;
  vm_new (wrap64 (start_paddr - offset)) (wrap64 (end_paddr - offset)) flags (PmFixed pma).

Definition from_identical_pma (start_vaddr end_vaddr flags : Z) : OSResult (VmArea F) :=
  pma ← fixed_new start_vaddr end_vaddr;
  vm_new start_vaddr end_vaddr flags (PmFixed pma).

Definition from_delay_pma (start_vaddr size flags : Z) : OSResult (VmArea F) :=
  pma ← lazy_new size None;
  vm_new start_vaddr (wrap64 (start_vaddr + size)) flags (PmLazy pma).
End areas.
