(* ===== verification/VmAreaSpec.v ===== *)
(** * Lazy areas keep the contract of the range map

    Page by page an area agrees with the page table: a page with a frame is
    mapped to that frame with the area's rights, a page without one is not
    mapped.  On top of the ownership of frames and the refinement of page
    tables this makes [VmArea] an instance of [SegmentSpec], so the theorems on
    the range map hold of user address spaces. *)

From S2P Require Import Prelude Bytes BitAlloc BitAllocSpec Addr PageFrame PageFrameSpec Errors PageTable PageTableSpec.
From S2P Require Import BaseFile RangeMap RangeMapSpec VmArea.

(** Files that never panic, whatever they are asked. *)
Class FilesOk (FW F : Type) {HF : File FW F} := {
  files_ok : FW → Prop;
  read_offset_safe f pos buf fs : files_ok fs →
    ∃ r buf' fs', file_read_from_offset f pos buf fs = Ret ((r, buf'), fs') ∧ files_ok fs' ∧
      len buf' = len buf;
  write_offset_safe f pos buf fs : files_ok fs →
    ∃ r fs', file_write_to_offset f pos buf fs = Ret (r, fs') ∧ files_ok fs' }.

(** ** The frames the entries own *)

Definition entry_frame (e : Z) : option Frame :=
  if pte_is_valid e then Some (mkFrame (pte_addr e) 1) else None.

Definition owned_from (E : Z → Z) (lo n : Z) : list Frame :=
  omap (λ i, entry_frame (E (i * 4096))) (seqZ lo n).

Lemma owned_split E lo n k : 0 <= k < n →
  owned_from E lo n =
    owned_from E lo k ++ option_list (entry_frame (E ((lo + k) * 4096))) ++
    owned_from E (lo + k + 1) (n - k - 1).
Proof.
  intros Hk. unfold owned_from. replace n with (k + (1 + (n - k - 1))) at 1 by lia.
  rewrite !seqZ_app, !omap_app by lia. f_equal.
Qed.

Lemma owned_ext E E' lo n : (∀ i, lo <= i < lo + n → E' (i * 4096) = E (i * 4096)) →
  owned_from E' lo n = owned_from E lo n.
Proof.
  intros He. unfold owned_from. apply list_omap_ext, Forall_Forall2_diag, list.Forall_forall.
  intros i [? ?]%elem_of_seqZ. f_equal. by apply He.
Qed.

(** ** The world of an address space *)

Section vm_area_spec.
Context {A : Type} {ops : BitAlloc A} {V : BitAllocView A} {BS : BitAllocSpec A}.
Context {cfg : PageFrameConfig} {CO : ConfigOk cfg (CAP A)} {PCO : PtConfigOk cfg (CAP A)}.
Context {FW F : Type} {HF : File FW F} {FO : FilesOk FW F}.
Context {SB : StaleBytes}.
(** The lines of the root page table that belong to the address space, the
    frame indices of the machine and the frames of everything else. *)
Context (top : Z) (Htop : 0 < top <= 512) (R : Z → bool) (rest : list Frame).

Abbreviation W := (VmWorld A FW).
Implicit Types w : W.

Definition E w : Z → Z := pt_entry (vw_pt w) (vw_mem w).

(** The pages of the address space. *)
Definition in_space (x : Z) : Prop := 0 <= x < top * 2 ^ 30.

Definition owned w : list Frame := owned_from (E w) 0 (top * 2 ^ 18).

Definition has_table w (v : Z) : Prop := is_Some (find_pte (vw_pt w) (vw_mem w) v).

Record vworld_ok w : Prop := {
  vw_files_ok : files_ok (F := F) (vw_files w);
  vw_inv : world_inv top R (owned w ++ rest) (vw_pt w) (vw_alloc w) (vw_mem w);
  vw_words v : line0 v < top → word 64 (E w v) }.

Lemma in_space_line x : in_space x → line0 x < top ∧ vpn x = x / 4096.
Proof. unfold in_space, line0, vpn. intros. split; dlia. Qed.

(** [w'] is [w] but for the entry of the page of [v], which is [e]. *)
Record one_page w w' (v e : Z) : Prop := {
  op_entry x : in_space x → E w' x = if x / 4096 =? v / 4096 then e else E w x;
  op_tables x : in_space x → has_table w x → has_table w' x }.

Lemma one_page_of w w' v e : in_space v → one_entry top (E w) (E w') v e →
  tables_kept top (vw_pt w) (vw_mem w) (vw_pt w') (vw_mem w') → one_page w w' v e.
Proof.
  intros Hv He Ht. destruct (in_space_line v Hv) as [_ Hvv]. split.
  - intros x Hx. destruct (in_space_line x Hx) as [Hl <-]. rewrite <- Hvv. by apply He.
  - intros x Hx. apply Ht. by apply in_space_line.
Qed.

(** What an entry gives to the owned frames. *)
Lemma owned_one w w' v e : in_space v → one_page w w' v e → ∃ o,
  owned w ≡ₚ option_list (entry_frame (E w v)) ++ o ∧
  owned w' ≡ₚ option_list (entry_frame e) ++ o.
Proof.
  intros Hv [He _]. unfold in_space in *.
  assert (0 <= v / 4096 < top * 2 ^ 18) as Hk by (split; dlia).
  exists (owned_from (E w) 0 (v / 4096) ++ owned_from (E w) (v / 4096 + 1) (top * 2 ^ 18 - v / 4096 - 1)).
  assert (∀ i, 0 <= i < top * 2 ^ 18 → i ≠ v / 4096 → E w' (i * 4096) = E w (i * 4096)) as Hsame.
  { intros i Hi Hne. rewrite He by (unfold in_space; lia). rewrite Z.div_mul by lia.
    by destruct (Z.eqb_spec i (v / 4096)). }
  assert (E w (v / 4096 * 4096) = E w v) as Hev.
  { apply entry_vpn. destruct (in_space_line v Hv) as [_ ->].
    destruct (in_space_line (v / 4096 * 4096)) as [_ ->]; [unfold in_space; dlia|]. by rewrite Z.div_mul. }
  assert (E w' (v / 4096 * 4096) = e) as Hev'.
  { rewrite He by (unfold in_space; dlia). rewrite Z.div_mul by lia. by rewrite Z.eqb_refl. }
  split; unfold owned; rewrite (owned_split _ 0 _ (v / 4096)) by done; rewrite Z.add_0_l.
  - rewrite Hev. rewrite !(Permutation_app_comm (owned_from (E w) 0 (v / 4096))), <- app_assoc.
    by rewrite (Permutation_app_comm (owned_from _ _ _) (owned_from _ _ _)).
  - rewrite Hev'.
    rewrite (owned_ext (E w)) by (intros; apply Hsame; lia).
    rewrite (owned_ext (E w) (E w') (v / 4096 + 1)) by (intros; apply Hsame; lia).
    rewrite !(Permutation_app_comm (owned_from (E w) 0 (v / 4096))), <- app_assoc.
    by rewrite (Permutation_app_comm (owned_from _ _ _) (owned_from _ _ _)).
Qed.

Lemma owned_same w w' : (∀ x, in_space x → E w' x = E w x) → owned w' = owned w.
Proof. intros He. apply owned_ext. intros i Hi. apply He. unfold in_space. lia. Qed.

Lemma one_page_words w w' v e : vworld_ok w → one_entry top (E w) (E w') v e → word 64 e →
  ∀ x, line0 x < top → word 64 (E w' x).
Proof.
  intros Hw He Hwe x Hx. rewrite He by done. destruct (vpn x =? vpn v); [done|by apply Hw].
Qed.

Lemma one_page_refl w v : in_space v → one_page w w v (E w v).
Proof.
  intros Hv. split; [|done]. intros x Hx. destruct (Z.eqb_spec (x / 4096) (v / 4096)) as [He|]; [|done].
  apply entry_vpn. destruct (in_space_line x Hx) as [_ ->]. by destruct (in_space_line v Hv) as [_ ->].
Qed.

(** *** Calls of the page table on the world *)

Lemma run_map pt v p f al mem r pt' al' mem' :
  run_op (A := A) pt (OpMap v p f) (al, mem) = Ret (RUnit r, pt', (al', mem')) →
  pt_map pt v p f (al, mem) = Ret (r, pt', (al', mem')).
Proof.
  unfold run_op, mbind, M_bind. destruct (pt_map pt v p f (al, mem)) as [[[r1 pt1] [al1 mem1]]|]; [|done].
  intros [=]. by subst.
Qed.

Lemma run_set_flags pt v f al mem r pt' al' mem' :
  run_op (A := A) pt (OpSetFlags v f) (al, mem) = Ret (RUnit r, pt', (al', mem')) →
  pt_set_flags pt v f (al, mem) = Ret (r, pt', (al', mem')).
Proof.
  unfold run_op, mbind, M_bind. destruct (pt_set_flags pt v f (al, mem)) as [[[r1 pt1] [al1 mem1]]|]; [|done].
  intros [=]. by subst.
Qed.

Lemma run_unmap pt v al mem r pt' al' mem' :
  run_op (A := A) pt (OpUnmap v) (al, mem) = Ret (RUnit r, pt', (al', mem')) →
  (r ← pt_unmap pt v; mret (r, pt)) (al, mem) = Ret (r, pt', (al', mem')).
Proof.
  unfold run_op, mbind, M_bind. destruct (pt_unmap pt v (al, mem)) as [[r1 [al1 mem1]]|]; [|done].
  intros [=]. by subst.
Qed.

Lemma on_pt_ok {X} (f : PageTable → PM (A := A) (X * PageTable)) w r pt al mem :
  f (vw_pt w) (vw_alloc w, vw_mem w) = Ret (r, pt, (al, mem)) →
  on_pt f w = Ret (r, mkVmWorld pt al mem (vw_files w)).
Proof. intros Hf. unfold on_pt. by rewrite Hf. Qed.

Lemma on_alloc_ok {X} (f : M A X) w r a : f (vw_alloc w) = Ret (r, a) →
  on_alloc f w = Ret (r, mkVmWorld (vw_pt w) a (vw_mem w) (vw_files w)).
Proof. intros Hf. unfold on_alloc. by rewrite Hf. Qed.

Lemma world_inv_perm rest1 rest2 pt (al : A) mem : rest1 ≡ₚ rest2 →
  world_inv top R rest1 pt al mem → world_inv top R rest2 pt al mem.
Proof. intros Hp [Hf Ht]. split; [|done]. eapply frames_inv_perm; [|done]. by rewrite Hp. Qed.

(** [set_flags] on a mapped page. *)
Lemma page_set_flags w v f : vworld_ok w → in_space v → word 8 f → pte_is_valid (E w v) = true →
  ∃ w', on_pt (λ pt, pt_set_flags pt v f) w = Ret (OsOk tt, w') ∧ vworld_ok w' ∧
    one_page w w' v (pte_set_flags (E w v) (mapped_flags f)).
Proof.
  intros Hw Hv Hf Hval. destruct (in_space_line v Hv) as [Hl _].
  destruct (pt_set_flags_done top Htop R _ _ _ _ v f (vw_inv w Hw) Hl)
    as (resp&pt'&al'&mem'&Hrun&Hinv&_&Hspec&[Hkept _]&_).
  cbn [op_spec] in Hspec. fold (E w) in Hspec. rewrite Hval in Hspec. destruct Hspec as [-> He].
  eexists. split; [apply on_pt_ok, run_set_flags; exact Hrun|]. set (w' := mkVmWorld _ _ _ _).
  pose proof (vw_words w Hw v Hl) as Hword. pose proof (full_flags f Hf) as [Hff Hodd].
  fold (mapped_flags f) in *. destruct (pte_addr_set_flags (E w v) (mapped_flags f) Hword Hff) as [Ha Hfl].
  assert (word 64 (pte_set_flags (E w v) (mapped_flags f))) as Hw64.
  { rewrite pte_set_flags_sum by done. unfold word in *. dlia. }
  assert (one_page w w' v (pte_set_flags (E w v) (mapped_flags f))) as Hone by (by apply one_page_of).
  split; [|done]. destruct (owned_one _ _ _ _ Hv Hone) as (o&Ho&Ho').
  split; [apply Hw| |by eapply one_page_words].
  eapply world_inv_perm; [|exact Hinv]. rewrite Ho, Ho'. unfold entry_frame.
  by rewrite Hval, Ha, pte_valid_flags, Hfl, Hodd.
Qed.

(** Dropping the frame of a mapped page and unmapping it. *)
Lemma page_release w v fr : vworld_ok w → in_space v → entry_frame (E w v) = Some fr →
  ∃ w1 w2, on_alloc (frame_drop fr) w = Ret (tt, w1) ∧ vw_files w1 = vw_files w ∧
    on_pt (λ pt, r ← pt_unmap pt v; mret (r, pt)) w1 = Ret (OsOk tt, w2) ∧
    vworld_ok w2 ∧ one_page w w2 v 0.
Proof.
  intros Hw Hv Hfr. destruct (in_space_line v Hv) as [Hl _].
  destruct (owned_one w w v _ Hv (one_page_refl w v Hv)) as (o&Ho&_). rewrite Hfr in Ho. simpl in Ho.
  destruct (vw_inv w Hw) as [Hf Ht].
  destruct (frame_drop_spec R (vw_alloc w) _ (frames (vw_pt w) ++ o ++ rest) fr Hf) as (al1&Hdrop&Hf1).
  { rewrite Ho. simpl. symmetry. apply Permutation_middle. }
  eexists _. set (w1 := mkVmWorld (vw_pt w) al1 (vw_mem w) (vw_files w)).
  assert (world_inv top R (o ++ rest) (vw_pt w1) (vw_alloc w1) (vw_mem w1)) as Hinv1 by (by split).
  destruct (pt_unmap_done top Htop R _ _ _ _ v Hinv1 Hl)
    as (resp&pt'&al'&mem'&Hrun&Hinv&_&Hspec&[Hkept _]&_).
  cbn [op_spec] in Hspec. change (pt_entry (vw_pt w1) (vw_mem w1)) with (E w) in Hspec.
  assert (pte_is_valid (E w v) = true) as Hval by (unfold entry_frame in Hfr; by destruct (pte_is_valid (E w v))).
  rewrite Hval in Hspec. destruct Hspec as [-> He].
  eexists. split; [by apply on_alloc_ok|]. split; [done|].
  split; [apply (on_pt_ok _ w1), run_unmap; exact Hrun|]. set (w2 := mkVmWorld _ _ _ _).
  assert (one_page w w2 v 0) as Hone by (by apply one_page_of).
  split; [|done]. destruct (owned_one _ _ _ _ Hv Hone) as (o'&Ho1&Ho2). rewrite Hfr in Ho1. simpl in *.
  split; [apply Hw| |by eapply one_page_words].
  eapply world_inv_perm; [|exact Hinv]. rewrite Ho2.
  assert (o ≡ₚ o') as -> by (eapply Permutation_cons_inv; by rewrite <- Ho, <- Ho1). done.
Qed.

(** [map] of a page that is not mapped, without a frame: it makes the tables. *)
Lemma page_map_none w v : vworld_ok w → in_space v → pte_is_valid (E w v) = false →
  ∃ r w', on_pt (λ pt, pt_map pt v 0 0) w = Ret (r, w') ∧ vworld_ok w' ∧
    one_page w w' v (E w v) ∧ vw_files w' = vw_files w ∧
    match r with
    | OsOk _ => has_table w' v
    | OsErr e => e = PageTable_FrameAllocFailed ∧ ∀ k, free (vw_alloc w') k = false
    end.
Proof.
  intros Hw Hv Hval. destruct (in_space_line v Hv) as [Hl _].
  destruct (pt_map_done top Htop R _ _ _ _ v 0 0 (vw_inv w Hw) Hl)
    as (resp&pt'&al'&mem'&Hrun&Hinv&_&Hspec&[Hkept Htab]&_).
  cbn [op_spec] in Hspec. fold (E w) in Hspec. rewrite Hval in Hspec.
  assert (∃ r, resp = RUnit r ∧ one_entry top (E w) (pt_entry pt' mem') v (E w v) ∧
    match r with OsOk _ => True | OsErr e => e = PageTable_FrameAllocFailed ∧ ∀ k, free al' k = false end)
    as (r&->&He&Hr).
  { destruct Hspec as [[-> He]|(->&Hx&He)]; [by exists (OsOk tt)|]. eexists. split; [done|]. split; [|done].
    intros x Hx'. rewrite He by done. destruct (Z.eqb_spec (vpn x) (vpn v)); [by apply entry_vpn|done]. }
  eexists r, _. split; [apply on_pt_ok, run_map; exact Hrun|]. set (w' := mkVmWorld _ _ _ _).
  assert (one_page w w' v (E w v)) as Hone by (by apply one_page_of).
  assert (vworld_ok w') as Hw'.
  { destruct (owned_one _ _ _ _ Hv Hone) as (o&Ho1&Ho2).
    split; [apply Hw| |eapply one_page_words; [done..|by apply Hw]].
    eapply world_inv_perm; [|exact Hinv]. by rewrite Ho1, Ho2. }
  split; [done|]. split; [done|]. split; [done|]. destruct r as [[]|]; [|done].
  by apply Htab.
Qed.

(** ** An area in a world *)

(** What the page table says of a page of an area with rights [fl]. *)
Definition page_ok w (fl v : Z) (slot : option PFrame) : Prop :=
  has_table w v ∧
  match slot with
  | Some pf => entry_frame (E w v) = Some (pf_frame pf) ∧ pte_flags (E w v) = mapped_flags fl ∧
               len (pf_data pf) = PAGE_SIZE
  | None => pte_is_valid (E w v) = false
  end.

Definition pages_ok w (fl lo : Z) (slots : list (option PFrame)) : Prop :=
  ∀ i slot, slots !! i = Some slot → page_ok w fl (lo + Z.of_nat i * 4096) slot.

Record area_ok w (area : VmArea F) (lo hi : Z) : Prop := {
  ar_range : vm_start area = lo ∧ vm_end area = hi;
  ar_align : lo mod 4096 = 0 ∧ hi mod 4096 = 0;
  ar_bounds : 0 <= lo < hi ∧ hi <= top * 2 ^ 30;
  ar_flags : word 8 (vm_flags area);
  ar_lazy : ∃ p, vm_pma area = PmLazy p ∧ Z.of_nat (length (lz_frames p)) * 4096 = hi - lo ∧
    pages_ok w (vm_flags area) lo (lz_frames p) }.

(** [w'] agrees with [w] outside [lo, hi) and has its tables. *)
Record agrees w w' (lo hi : Z) : Prop := {
  ag_entry x : in_space x → x < lo ∨ hi <= x → E w' x = E w x;
  ag_tables x : in_space x → has_table w x → has_table w' x }.

Lemma agrees_refl w lo hi : agrees w w lo hi.
Proof. by split. Qed.

Lemma agrees_trans w1 w2 w3 lo hi : agrees w1 w2 lo hi → agrees w2 w3 lo hi → agrees w1 w3 lo hi.
Proof. intros [H1 T1] [H2 T2]. split; [intros x Hx Ho; by rewrite H2, H1|auto]. Qed.

Lemma one_page_agrees w w' v e lo hi : one_page w w' v e → lo mod 4096 = 0 → hi mod 4096 = 0 →
  lo <= v < hi → agrees w w' lo hi.
Proof.
  intros [H1 H2] Hl Hh Hv. split; [|done]. intros x Hx Ho. rewrite H1 by done.
  destruct (Z.eqb_spec (x / 4096) (v / 4096)); [|done]. exfalso. dlia.
Qed.

Lemma page_ok_agrees w w' fl v slot lo hi : agrees w w' lo hi → in_space v → v < lo ∨ hi <= v →
  page_ok w fl v slot → page_ok w' fl v slot.
Proof. intros [H1 H2] Hv Ho [Ht Hs]. split; [by apply H2|]. by rewrite H1. Qed.

(** The other pages of an area. *)
Lemma page_ok_other w w' fl v v' e slot : one_page w w' v e → in_space v' → v' / 4096 ≠ v / 4096 →
  page_ok w fl v' slot → page_ok w' fl v' slot.
Proof.
  intros [H1 H2] Hv Ho [Ht Hs]. split; [by apply H2|]. rewrite H1 by done.
  by destruct (Z.eqb_spec (v' / 4096) (v / 4096)).
Qed.

Lemma area_ok_keeps w w' lo hi : agrees w w' lo hi → keeps area_ok w w' lo hi.
Proof.
  intros Hag area l h Hd [Hr Ha Hb Hf (p&Hp&Hlen&Hpages)]. split; try done.
  exists p. split; [done|]. split; [done|]. intros i slot Hi.
  pose proof (lookup_lt_Some _ _ _ Hi). apply (page_ok_agrees w w' _ _ _ lo hi Hag); [| |by apply Hpages];
    unfold in_space; lia.
Qed.

(** *** Loops over the pages of an area *)

Lemma foldMR_until {X S} (P : nat → S → X → Prop) (Q : OSError → S → X → Prop)
    (f : S → Z → M X (OSResult unit * S)) (n : nat) (s : S) (x : X) (g : Z → Z) :
  P O s x →
  (∀ (i : nat) (s : S) (x : X), (i < n)%nat → P i s x →
     ∃ r s' x', f s (g (Z.of_nat i)) x = Ret ((r, s'), x') ∧
       match r with OsOk _ => P (Datatypes.S i) s' x' | OsErr e => Q e s' x' end) →
  ∃ r s' x', foldMR f s (g <$> seqZ 0 (Z.of_nat n)) x = Ret ((r, s'), x') ∧
    match r with OsOk _ => P n s' x' | OsErr e => Q e s' x' end.
Proof.
  intros H0 Hstep.
  assert (∀ (m k : nat) (s : S) (x : X), (k + m = n)%nat → P k s x →
    ∃ r s' x', foldMR f s (g <$> seqZ (Z.of_nat k) (Z.of_nat m)) x = Ret ((r, s'), x') ∧
      match r with OsOk _ => P n s' x' | OsErr e => Q e s' x' end) as Hgen.
  { induction m as [|m IH]; intros k s1 x1 Hk HP.
    - assert (k = n) as -> by lia. by exists (OsOk tt), s1, x1.
    - rewrite seqZ_cons by lia. cbn [fmap list_fmap foldMR].
      destruct (Hstep k s1 x1) as (r&s2&x2&H2&HP2); [lia|done|]. step H2.
      destruct r as [[]|e]; [|by exists (OsErr e), s2, x2].
      replace (Z.succ (Z.of_nat k)) with (Z.of_nat (Datatypes.S k)) by lia.
      replace (Z.pred (Z.of_nat (Datatypes.S m))) with (Z.of_nat m) by lia. apply IH; [lia|done]. }
  apply (Hgen n O); [lia|done].
Qed.

Lemma foldMR_pages {X S} (P : nat → S → X → Prop) (f : S → Z → M X (OSResult unit * S))
    (lo : Z) (n : nat) (s : S) (x : X) :
  P O s x →
  (∀ (i : nat) (s : S) (x : X), (i < n)%nat → P i s x →
     ∃ s' x', f s (lo + Z.of_nat i * 4096) x = Ret ((OsOk tt, s'), x') ∧ P (Datatypes.S i) s' x') →
  ∃ s' x', foldMR f s ((λ i, lo + i * PAGE_SIZE) <$> seqZ 0 (Z.of_nat n)) x = Ret ((OsOk tt, s'), x') ∧
    P n s' x'.
Proof.
  intros H0 Hstep. destruct (foldMR_until P (λ _ _ _, False) f n s x (λ i, lo + i * PAGE_SIZE) H0)
    as ([[]|e]&s'&x'&Hf&Hr); [|by exists s', x'|done].
  intros i s1 x1 Hi HP. destruct (Hstep i s1 x1 Hi HP) as (s2&x2&H2&HP2). by exists (OsOk tt), s2, x2.
Qed.

Lemma lookup_repeat {X} (x : X) n i : (i < n)%nat → repeat x n !! i = Some x.
Proof. revert i. induction n as [|n IH]; intros [|i] Hi; simpl; try done; [lia..|]. apply IH. lia. Qed.

Lemma step_pages_aligned lo n : step_pages lo (lo + Z.of_nat n * 4096) =
  (λ i, lo + i * PAGE_SIZE) <$> seqZ 0 (Z.of_nat n).
Proof. unfold step_pages, PAGE_SIZE. do 2 f_equal. dlia. Qed.

Lemma area_steps (area : VmArea F) lo hi n : vm_start area = lo → vm_end area = hi →
  Z.of_nat n * 4096 = hi - lo →
  step_pages (vm_start area) (vm_end area) = (λ i, lo + i * PAGE_SIZE) <$> seqZ 0 (Z.of_nat n).
Proof. intros -> -> Hn. rewrite <- step_pages_aligned. f_equal. lia. Qed.

(** The address of page [i] and its index. *)
Lemma vm_page_at (area : VmArea F) i n : 0 <= vm_start area →
  vm_start area + Z.of_nat n * 4096 <= top * 2 ^ 30 → (i < n)%nat →
  vm_page area (vm_start area + Z.of_nat i * 4096) = Z.of_nat i.
Proof.
  intros Hs He Hi. unfold vm_page. replace (vm_start area + Z.of_nat i * 4096 - vm_start area)
    with (Z.of_nat i * 4096) by lia.
  rewrite wrap_small by (unfold word; lia). unfold PAGE_SIZE. by rewrite Z.div_mul.
Qed.

Lemma index_nat {X} (l : list X) i x : l !! i = Some x → index l (Z.of_nat i) = Ret x.
Proof.
  intros Hi. unfold index. destruct (Z.ltb_spec (Z.of_nat i) 0); [lia|].
  by rewrite Nat2Z.id, Hi.
Qed.

(** *** Files *)

Definition with_files w fs : W := mkVmWorld (vw_pt w) (vw_alloc w) (vw_mem w) fs.

Lemma vworld_files w fs : vworld_ok w → files_ok (F := F) fs → vworld_ok (with_files w fs).
Proof. intros [H1 H2 H3] Hfs. by split. Qed.

Lemma be_write_ok (b : BackEndFile F) pos buf w : vworld_ok w →
  ∃ r fs, on_files (be_write_to_offset b pos buf) w = Ret (r, with_files w fs) ∧
    files_ok (F := F) fs.
Proof.
  intros [Hfs _ _]. unfold on_files, be_write_to_offset. destruct (_ || _).
  - destruct (write_offset_safe (be_file b) (wrap64 (be_offset b + pos)) buf _ Hfs) as (r&fs&->&Hfs').
    by exists r, fs.
  - by exists None, (vw_files w).
Qed.

Lemma be_read_ok (b : BackEndFile F) pos buf w : vworld_ok w →
  ∃ r buf' fs, on_files (be_read_from_offset b pos buf) w = Ret ((r, buf'), with_files w fs) ∧
    files_ok (F := F) fs ∧ len buf' = len buf.
Proof.
  intros [Hfs _ _]. unfold on_files, be_read_from_offset. destruct (_ || _).
  - destruct (read_offset_safe (be_file b) (wrap64 (be_offset b + pos)) buf _ Hfs) as (r&buf'&fs&->&Hfs'&?).
    by exists r, buf', fs.
  - by exists None, buf, (vw_files w).
Qed.

(** *** Removing an area *)

(** Before page [i] of the area at [lo] is handled: the pages below are gone. *)
Definition removing w0 (fl lo hi : Z) (p0 : PmAreaLazy F) (i : nat) (pma : PmArea F) w : Prop :=
  ∃ p, pma = PmLazy p ∧ length (lz_frames p) = length (lz_frames p0) ∧ vworld_ok w ∧
    pages_ok w fl lo (lz_frames p) ∧ agrees w0 w lo hi ∧
    ∀ j slot, lz_frames p !! j = Some slot → (j < i)%nat → slot = None.

Lemma lazy_release_ok w (p : PmAreaLazy F) i v fl slot : vworld_ok w → in_space v →
  lz_frames p !! i = Some slot → page_ok w fl v slot →
  match slot with
  | None => lazy_release_frame p (Z.of_nat i) w = Ret ((OsErr PmAreaLazy_ReleaseNotAllocatedPage, p), w)
  | Some pf => ∃ w1 w2, lazy_release_frame p (Z.of_nat i) w = Ret ((OsOk tt, set_slot p (Z.of_nat i) None), w1) ∧
      on_pt (λ pt, r ← pt_unmap pt v; mret (r, pt)) w1 = Ret (OsOk tt, w2) ∧
      vworld_ok w2 ∧ one_page w w2 v 0
  end.
Proof.
  intros Hw Hv Hi [_ Hs]. unfold lazy_release_frame.
  assert (lift (W := W) (index (lz_frames p) (Z.of_nat i)) w = Ret (slot, w)) as Hidx
    by (unfold lift; by rewrite (index_nat _ _ _ Hi)).
  destruct slot as [pf|]; [|by step Hidx]. destruct Hs as (He&_&_).
  assert (∃ fs, (match lz_backend p with
      | Some backend =>
          _ ← on_files (be_write_to_offset backend (wrap64 (Z.of_nat i * PAGE_SIZE)) (pf_data pf)); mret tt
      | None => mret tt
      end) w = Ret (tt, with_files w fs) ∧ files_ok (F := F) fs) as (fs&Hwr&Hfs).
  { destruct (lz_backend p) as [b|].
    - destruct (be_write_ok b (wrap64 (Z.of_nat i * PAGE_SIZE)) (pf_data pf) w Hw) as (r&fs&Hb&Hfs).
      exists fs. by step Hb.
    - exists (vw_files w). split; [by destruct w|apply Hw]. }
  destruct (page_release (with_files w fs) v (pf_frame pf)) as (w1&w2&H1&_&H2&Hw2&Hone);
    [by apply vworld_files|done|done|].
  exists w1, w2. split.
  { step Hidx. cbv beta iota. step Hwr. step H1. done. }
  split; [exact H2|]. split; [exact Hw2|]. by destruct Hone; split.
Qed.

Lemma pages_ok_set w w' fl lo n slots i v e slot' : one_page w w' v e →
  v = lo + Z.of_nat i * 4096 → lo mod 4096 = 0 → 0 <= lo → length slots = n →
  lo + Z.of_nat n * 4096 <= top * 2 ^ 30 →
  pages_ok w fl lo slots → page_ok w' fl v slot' → pages_ok w' fl lo (<[i := slot']> slots).
Proof.
  intros Hone -> Hlo Hlo0 Hn Hhi Hp Hs j s. pose proof (lookup_lt_Some (<[i:=slot']> slots) j s) as Hlt.
  rewrite length_insert, Hn in Hlt.
  rewrite list_lookup_insert_Some. intros [(<-&->&_)|[Hne Hj]]; [done|].
  apply (page_ok_other w w' _ (lo + Z.of_nat i * 4096) _ e); [done| | |by apply Hp].
  - specialize (Hlt ltac:(rewrite list_lookup_insert_ne; done)). unfold in_space. lia.
  - assert (lo / 4096 * 4096 = lo) by dlia. dlia.
Qed.

Lemma area_remove_ok (area : VmArea F) lo hi a w : area_ok w area lo hi → vworld_ok w →
  ∃ area' w', vm_remove area a w = Ret (area', w') ∧ vworld_ok w' ∧ agrees w w' lo hi ∧
    ∀ x, lo <= x < hi → pte_is_valid (E w' x) = false.
Proof.
  intros [[Hs He] [Hlo Hhi] Hb Hfl (p0&Hp0&Hlen&Hpages)] Hw.
  set (n := length (lz_frames p0)) in *. unfold vm_remove, unmap_area, unmap_area_partial.
  rewrite (area_steps area lo hi n Hs He) by lia.
  match goal with |- context [foldMR ?g _ _] => set (body := g) end.
  destruct (foldMR_pages (removing w (vm_flags area) lo hi p0) body lo n (vm_pma area) w)
    as (pma'&w'&Hfold&(p'&->&Hlen'&Hw'&Hpages'&Hag&Hnone)).
  - exists p0. split_and!; try done. intros j slot _ ?. lia.
  - intros i pma w1 Hi (p&->&Hlp&Hw1&Hpg&Hag&Hn). unfold body.
    pose proof (vm_page_at area i n) as Hvp. rewrite Hs in Hvp. rewrite Hvp by lia.
    destruct (lookup_lt_is_Some_2 (lz_frames p) i) as [slot Hslot]; [unfold n in *; lia|].
    set (v := lo + Z.of_nat i * 4096) in *. assert (in_space v) as Hv by (unfold in_space, v; lia).
    pose proof (lazy_release_ok w1 p i v _ slot Hw1 Hv Hslot (Hpg i slot Hslot)) as Hrel.
    cbn [pm_release_frame]. destruct slot as [pf|].
    + destruct Hrel as (w2&w3&Hr&Hu&Hw3&Hone).
      assert (∀ B (k : OSResult unit * PmAreaLazy F → M W B), (lazy_release_frame p (Z.of_nat i) ≫= k) w1
        = k (OsOk tt, set_slot p (Z.of_nat i) None) w2) as Hstep by (intros; by apply M_bind_Ret).
      exists (PmLazy (set_slot p (Z.of_nat i) None)), w3. split.
      { unfold mbind at 1, M_bind at 1. rewrite Hstep. cbn beta iota. unfold mret at 1, M_ret at 1.
        cbn beta iota. unfold mbind at 1, M_bind at 1. rewrite Hu. done. }
      exists (set_slot p (Z.of_nat i) None). cbn [lz_frames set_slot]. rewrite Nat2Z.id.
      split; [done|]. split; [by rewrite length_insert|]. split; [done|]. split; [|split].
      * apply (pages_ok_set w1 w3 _ _ n _ i v 0); try done; [lia|lia|]. split.
        -- apply (op_tables _ _ _ _ Hone); [done|]. by destruct (Hpg i _ Hslot).
        -- rewrite (op_entry _ _ _ _ Hone) by done. by rewrite Z.eqb_refl.
      * eapply agrees_trans; [exact Hag|]. apply (one_page_agrees _ _ v 0); try done. unfold v. lia.
      * intros j s. rewrite list_lookup_insert_Some. intros [(<-&->&_)|[Hne Hj]] Hji; [done|].
        apply (Hn j s Hj). lia.
    + exists (PmLazy p), w1. split.
      { unfold mbind at 1, M_bind at 1. unfold mbind at 1, M_bind at 1. by rewrite Hrel. }
      exists p. split_and!; try done. intros j s Hj Hji.
      destruct (decide (j = i)) as [->|]; [by simplify_eq|]. apply (Hn j s Hj). lia.
  - step Hfold. eexists _, w'. split; [done|]. split; [done|]. split; [done|].
    intros x Hx. set (i := Z.to_nat ((x - lo) / 4096)).
    assert ((i < n)%nat ∧ x / 4096 = (lo + Z.of_nat i * 4096) / 4096) as [Hi Hxi] by (unfold i; split; dlia).
    destruct (lookup_lt_is_Some_2 (lz_frames p') i) as [slot Hslot]; [lia|].
    destruct (Hpages' i slot Hslot) as [_ Hok]. rewrite (Hnone i slot Hslot Hi) in Hok.
    rewrite <- Hok. f_equal. apply entry_vpn.
    destruct (in_space_line x) as [_ ->]; [unfold in_space; lia|].
    by destruct (in_space_line (lo + Z.of_nat i * 4096)) as [_ ->]; [unfold in_space; lia|].
Qed.

(** *** Changing the rights of an area *)

Lemma lazy_get_present (p : PmAreaLazy F) i slot w : lz_frames p !! i = Some slot →
  lazy_get_frame p (Z.of_nat i) false w =
    Ret ((OsOk (option_map (λ pf, start_paddr (pf_frame pf)) slot), p), w).
Proof.
  intros Hi. unfold lazy_get_frame, lift, mbind, M_bind. by rewrite (index_nat _ _ _ Hi).
Qed.

(** Before page [i] is handled: the pages below have the new rights. *)
Definition modifying w0 (fl new lo hi : Z) (p : PmAreaLazy F) (i : nat) (pma : PmArea F) w : Prop :=
  pma = PmLazy p ∧ vworld_ok w ∧ agrees w0 w lo hi ∧
  (∀ x, in_space x → pte_is_valid (E w x) = pte_is_valid (E w0 x)) ∧
  ∀ j slot, lz_frames p !! j = Some slot →
    page_ok w (if decide (j < i)%nat then new else fl) (lo + Z.of_nat j * 4096) slot.

Lemma page_reflag w v fl new pf w' : vworld_ok w → in_space v → word 8 new →
  page_ok w fl v (Some pf) → one_page w w' v (pte_set_flags (E w v) (mapped_flags new)) →
  page_ok w' new v (Some pf) ∧ pte_is_valid (pte_set_flags (E w v) (mapped_flags new)) = true.
Proof.
  intros Hw Hv Hnew (Ht&He&Hfl&Hd) Hone. destruct (in_space_line v Hv) as [Hl _].
  pose proof (full_flags new Hnew) as [Hff Hodd]. fold (mapped_flags new) in *.
  destruct (pte_addr_set_flags (E w v) (mapped_flags new) (vw_words w Hw v Hl) Hff) as [Ha Hf].
  assert (pte_is_valid (pte_set_flags (E w v) (mapped_flags new)) = true) as Hval
    by (by rewrite pte_valid_flags, Hf).
  split; [|done]. split; [by apply (op_tables _ _ _ _ Hone)|].
  rewrite (op_entry _ _ _ _ Hone), Z.eqb_refl by done. split; [|done].
  unfold entry_frame in *. rewrite Hval, Ha. by destruct (pte_is_valid (E w v)).
Qed.

Lemma area_modify_ok (area : VmArea F) lo hi new a w : area_ok w area lo hi → vworld_ok w →
  ∃ w', vm_modify area new a w
      = Ret (mkVmArea (vm_start area) (vm_end area) (wrap8 new) (vm_pma area), w') ∧
    vworld_ok w' ∧ agrees w w' lo hi ∧
    area_ok w' (mkVmArea (vm_start area) (vm_end area) (wrap8 new) (vm_pma area)) lo hi ∧
    ∀ x, in_space x → pte_is_valid (E w' x) = pte_is_valid (E w x).
Proof.
  intros [[Hs He] [Hlo Hhi] Hb Hfl (p&Hp&Hlen&Hpages)] Hw.
  set (n := length (lz_frames p)) in *. unfold vm_modify, modify_area_flags.
  cbn [vm_start vm_end vm_flags vm_pma].
  rewrite (area_steps area lo hi n Hs He) by lia.
  assert (word 8 (wrap8 new)) as Hnew by (by apply wrap_word).
  match goal with |- context [foldMR ?g _ _] => set (body := g) end.
  destruct (foldMR_pages (modifying w (vm_flags area) (wrap8 new) lo hi p) body lo n (vm_pma area) w)
    as (pma'&w'&Hfold&(->&Hw'&Hag&Hval&Hpg)).
  - by split_and!.
  - intros i pma w1 Hi (->&Hw1&Hag&Hval&Hpg). unfold body.
    pose proof (vm_page_at area i n) as Hvp. unfold vm_page in *. rewrite Hs in Hvp.
    cbn [vm_start]. rewrite Hs, Hvp by lia.
    destruct (lookup_lt_is_Some_2 (lz_frames p) i) as [slot Hslot]; [unfold n in *; lia|].
    set (v := lo + Z.of_nat i * 4096) in *. assert (in_space v) as Hv by (unfold in_space, v; lia).
    pose proof (Hpg i slot Hslot) as Hpi. fold v in Hpi. destruct (decide (i < i)%nat); [lia|].
    cbn [pm_get_frame]. unfold mbind at 1, M_bind at 1. unfold mbind at 1, M_bind at 1.
    rewrite (lazy_get_present p i slot w1 Hslot). cbn beta iota. unfold mret at 1, M_ret at 1. cbn beta iota.
    destruct slot as [pf|]; cbn [option_map].
    + pose proof Hpi as (Htab&Hfr&_&_). assert (pte_is_valid (E w1 v) = true) as Hval1
        by (unfold entry_frame in Hfr; by destruct (pte_is_valid (E w1 v))).
      destruct (page_set_flags w1 v (wrap8 new) Hw1 Hv Hnew Hval1) as (w2&Hsf&Hw2&Hone).
      destruct (page_reflag w1 v _ _ pf w2 Hw1 Hv Hnew Hpi Hone) as [Hpi2 Hval2].
      exists (PmLazy p), w2. split; [by step Hsf|].
      split_and!; [done|done| | |].
      * eapply agrees_trans; [exact Hag|]. eapply one_page_agrees; try done. unfold v. lia.
      * intros x Hx. rewrite (op_entry _ _ _ _ Hone) by done.
        destruct (Z.eqb_spec (x / 4096) (v / 4096)) as [Hxv|]; [|by apply Hval].
        rewrite Hval2, <- Hval1, Hval by done. f_equal. symmetry. apply entry_vpn.
        destruct (in_space_line x Hx) as [_ ->]. by destruct (in_space_line v Hv) as [_ ->].
      * intros j slot Hj. destruct (decide (j = i)) as [->|Hne].
        { destruct (decide (i < Datatypes.S i)%nat); [|lia]. simplify_eq. done. }
        pose proof (lookup_lt_Some _ _ _ Hj) as Hjn. fold n in Hjn.
        eapply page_ok_other; [exact Hone|unfold in_space; lia| |].
        { unfold v. assert (lo / 4096 * 4096 = lo) by dlia. dlia. }
        specialize (Hpg j slot Hj). by repeat case_decide; try lia.
    + exists (PmLazy p), w1. split; [done|]. split_and!; try done. intros j slot Hj.
      specialize (Hpg j slot Hj). destruct (decide (j = i)) as [->|Hne].
      * simplify_eq. done.
      * by repeat case_decide; try lia.
  - step Hfold. exists w'. split; [unfold os_unwrap, mbind, M_bind, mret, M_ret, with_pma; by rewrite Hp|].
    split; [done|]. split; [done|]. split; [|done].
    split; try done. exists p. split; [done|]. split; [done|]. intros j slot Hj.
    specialize (Hpg j slot Hj). pose proof (lookup_lt_Some _ _ _ Hj). cbn [vm_flags].
    case_decide; [done|lia].
Qed.

(** *** Cutting an area *)

Lemma split_at_ok {X} (l : list X) n : (n <= length l)%nat →
  split_at (Z.of_nat n) l = Ret (take n l, drop n l).
Proof.
  intros Hn. unfold split_at. rewrite Nat2Z.id.
  destruct (Z.leb_spec 0 (Z.of_nat n)), (Z.leb_spec (Z.of_nat n) (Z.of_nat (length l))); done || lia.
Qed.

Lemma lazy_size_small (p : PmAreaLazy F) : Z.of_nat (length (lz_frames p)) * 4096 < 2 ^ 64 →
  lazy_size p = Z.of_nat (length (lz_frames p)) * 4096.
Proof. intros Hl. unfold lazy_size, PAGE_SIZE. apply wrap_small. unfold word. lia. Qed.

Lemma release_range_nil (p : PmAreaLazy F) k w : release_range p k k w = Ret (p, w).
Proof. unfold release_range. by rewrite Z.sub_diag. Qed.

Lemma lazy_split_ok (p : PmAreaLazy F) (n : nat) x w : x / 4096 = Z.of_nat n →
  x < Z.of_nat (length (lz_frames p)) * 4096 < 2 ^ 64 →
  ∃ b, lazy_split p x x w =
    Ret ((OsOk (mkLazy (drop n (lz_frames p)) b), mkLazy (take n (lz_frames p)) (lz_backend p)), w).
Proof.
  intros Hn Hx. unfold lazy_split. rewrite lazy_size_small by lia.
  destruct (Z.leb_spec x x); [|lia].
  destruct (Z.ltb_spec x (Z.of_nat (length (lz_frames p)) * 4096)); [|lia].
  assert (addr_to_page_id x = Z.of_nat n) as Hpg by done.
  cbn [andb]. rewrite Hpg.
  assert (∀ l : list (option PFrame), (n <= length l)%nat →
    lift (W := W) (split_at (Z.of_nat n) l) w = Ret ((take n l, drop n l), w)) as Hcut
    by (intros l Hll; unfold lift; by rewrite split_at_ok).
  assert ((n < length (lz_frames p))%nat) by dlia.
  step (Hcut (lz_frames p) ltac:(lia)). step (release_range_nil (mkLazy (take n (lz_frames p)) (lz_backend p)) (Z.of_nat n) w).
  cbn [lz_frames lz_backend]. assert (n <= length (take n (lz_frames p)))%nat as Hlt by (rewrite length_take; lia).
  step (Hcut _ Hlt). rewrite take_take, Nat.min_id. by eexists.
Qed.

Lemma area_split_ok (area : VmArea F) lo hi pos a w : area_ok w area lo hi →
  lo < pos < hi → pos mod 4096 = 0 →
  ∃ l r, vm_split area pos a w = Ret ((l, r), w) ∧ area_ok w l lo pos ∧ area_ok w r pos hi ∧
    vm_flags l = vm_flags area ∧ vm_flags r = vm_flags area.
Proof.
  intros [[Hs He] [Hlo Hhi] Hb Hfl (p&Hp&Hlen&Hpages)] Hpos Hal.
  set (n := Z.to_nat ((pos - lo) / 4096)).
  assert (pos = lo + Z.of_nat n * 4096) as Hpn by (unfold n; dlia).
  assert ((n < length (lz_frames p))%nat) as Hn by lia.
  unfold vm_split. cbn [vm_start vm_end vm_flags vm_pma]. rewrite Hp, Hs, He. cbn [pm_split].
  rewrite (wrap_small 64 (pos - lo)) by (unfold word; lia).
  replace (pos - lo) with (Z.of_nat n * 4096) by lia.
  destruct (lazy_split_ok p n (Z.of_nat n * 4096) w) as (b&Hsplit); [by rewrite Z.div_mul|lia|].
  unfold mbind at 1, M_bind at 1. unfold mbind at 1, M_bind at 1. rewrite Hsplit.
  cbn beta iota. unfold mret at 1, M_ret at 1. cbn beta iota. unfold mbind at 1, M_bind at 1.
  cbn [os_unwrap].
  assert (vm_new pos hi (vm_flags area) (PmLazy (mkLazy (drop n (lz_frames p)) b))
    = OsOk (mkVmArea pos hi (vm_flags area) (PmLazy (mkLazy (drop n (lz_frames p)) b)))) as Hnew.
  { unfold vm_new. destruct (Z.leb_spec hi pos); [lia|].
    assert (align_down pos = pos) as Hd by (rewrite align_down_div by (unfold word; lia); dlia).
    assert (align_up hi = hi) as Hu by (rewrite align_up_div by lia; dlia).
    cbn [pm_size]. rewrite Hd, Hu, wrap_small, lazy_size_small by (cbn; rewrite ?length_drop; unfold word; lia).
    cbn [lz_frames]. rewrite length_drop.
    by destruct (Z.eqb_spec (hi - pos) (Z.of_nat (length (lz_frames p) - n) * 4096)); [|lia]. }
  unfold mbind at 1, M_bind at 1. unfold os_unwrap. cbn [vm_flags]. rewrite Hnew.
  eexists _, _. split; [done|]. cbn [vm_flags with_pma vm_pma vm_start vm_end].
  split; [|split; [|done]].
  - split; cbn; try done; [lia|]. exists (mkLazy (take n (lz_frames p)) (lz_backend p)).
    cbn. split; [done|]. split; [rewrite length_take; lia|]. intros i slot.
    rewrite lookup_take_Some. intros [Hi _]. by apply Hpages.
  - split; cbn; try done; [lia|]. exists (mkLazy (drop n (lz_frames p)) b). cbn.
    split; [done|]. split; [rewrite length_drop; lia|]. intros i slot.
    rewrite lookup_drop. intros Hi. rewrite Hpn.
    replace (lo + Z.of_nat n * 4096 + Z.of_nat i * 4096) with (lo + Z.of_nat (n + i) * 4096) by lia.
    by apply Hpages.
Qed.

(** ** The contract of the range map *)

Definition vm_mapped w (x : Z) : bool :=
  (0 <=? x) && (x <? top * 2 ^ 30) && pte_is_valid (E w x).

Lemma vm_mapped_in w x : in_space x → vm_mapped w x = pte_is_valid (E w x).
Proof.
  intros [H1 H2]. unfold vm_mapped. destruct (Z.leb_spec 0 x), (Z.ltb_spec x (top * 2 ^ 30)); simpl; done || lia.
Qed.

Lemma vm_mapped_out w x : ¬ in_space x → vm_mapped w x = false.
Proof.
  intros H1. unfold vm_mapped, in_space in *.
  destruct (Z.leb_spec 0 x), (Z.ltb_spec x (top * 2 ^ 30)); simpl; done || lia.
Qed.

#[export, program] Instance VmArea_SegmentSpec : SegmentSpec W (VmArea F) Z := {
  seg_wf := area_ok;
  seg_at area _ := vm_flags area;
  set_flag f _ := wrap8 f;
  cut_ok x := x mod 4096 = 0;
  world_ok := vworld_ok;
  mapped := vm_mapped }.
Next Obligation.
  intros area lo hi a w Har Hlt Hw.
  destruct (area_remove_ok area lo hi a w Har Hw) as (area'&w'&H1&Hw'&Hag&Hno).
  exists area', w'. split; [done|]. split; [done|]. split; [by apply area_ok_keeps|].
  intros x. destruct (decide (in_space x)) as [Hx|Hx].
  - rewrite !vm_mapped_in by done. destruct (Z.leb_spec lo x), (Z.ltb_spec x hi); simpl;
      [apply Hno; lia|..]; rewrite (ag_entry _ _ _ _ Hag) by (done || lia); done.
  - rewrite !vm_mapped_out by done. by destruct (_ && _).
Qed.
Next Obligation.
  intros area lo hi pos a w Har Hlt Hal Hw.
  destruct (area_split_ok area lo hi pos a w Har Hlt Hal) as (l&r&H1&Hl&Hr&Hfl&Hfr).
  exists l, r, w. split; [done|]. split; [done|]. split; [apply area_ok_keeps, agrees_refl|].
  split_and!; done.
Qed.
Next Obligation.
  intros area lo hi f a w Har Hlt Hw.
  destruct (area_modify_ok area lo hi f a w Har Hw) as (w'&H1&Hw'&Hag&Har'&Hval).
  eexists _, w'. split; [done|]. split; [done|]. split; [by apply area_ok_keeps|].
  split; [|done]. intros x. destruct (decide (in_space x)).
  - rewrite !vm_mapped_in by done. by apply Hval.
  - by rewrite !vm_mapped_out by done.
Qed.

(** *** Filling a page *)

Context (stale_len : ∀ fr, len (stale fr) = PAGE_SIZE).

Lemma len_zero_bytes : len zero_bytes = PAGE_SIZE.
Proof. by vm_compute. Qed.

(** [get_frame] of a page that has no frame yet. *)
Lemma lazy_get_new w (p : PmAreaLazy F) i : vworld_ok w → lz_frames p !! i = Some None →
  (∃ fr data w', lazy_get_frame p (Z.of_nat i) true w =
      Ret ((OsOk (Some (start_paddr fr)), set_slot p (Z.of_nat i) (Some (mkPFrame fr data))), w') ∧
    frame_count fr = 1 ∧ len data = PAGE_SIZE ∧ files_ok (F := F) (vw_files w') ∧
    vw_pt w' = vw_pt w ∧ vw_mem w' = vw_mem w ∧
    frames_inv R (vw_alloc w') (fr :: frames (vw_pt w) ++ owned w ++ rest)) ∨
  (lazy_get_frame p (Z.of_nat i) true w = Ret ((OsErr Memory_RunOutOfMemory, p), w) ∧
   ∀ k, free (vw_alloc w) k = false).
Proof.
  intros Hw Hi. destruct (vw_inv w Hw) as [Hf _]. unfold lazy_get_frame.
  assert (lift (W := W) (index (lz_frames p) (Z.of_nat i)) w = Ret (None, w)) as Hidx
    by (unfold lift; by rewrite (index_nat _ _ _ Hi)).
  destruct (frame_new_spec R (vw_alloc w) _ Hf) as [(fr&al&Hn&Hf'&Hc)|[Hn Hno]].
  2: { right. split; [|done]. step Hidx. cbn [andb]. rewrite bool_decide_eq_true_2 by done.
       step (on_alloc_ok _ _ _ _ Hn). by destruct w. }
  left. set (w1 := mkVmWorld (vw_pt w) al (vw_mem w) (vw_files w)).
  assert (∃ data fs, (match lz_backend p with
      | Some backend =>
          '(r, data) ← on_files (be_read_from_offset backend (wrap64 (Z.of_nat i * PAGE_SIZE)) (stale fr));
          mret match r with None => zero_bytes | Some _ => data end
      | None => mret zero_bytes
      end) w1 = Ret (data, with_files w1 fs) ∧ files_ok (F := F) fs ∧ len data = PAGE_SIZE) as (data&fs&Hd&Hfs&Hlen).
  { destruct (lz_backend p) as [b|].
    - assert (files_ok (F := F) (vw_files w1)) as Hfs1 by apply Hw.
      unfold on_files, be_read_from_offset. destruct (_ || _).
      + destruct (read_offset_safe (be_file b) (wrap64 (be_offset b + wrap64 (Z.of_nat i * PAGE_SIZE))) (stale fr) _ Hfs1)
          as (r&buf&fs&Hr&Hfs&Hlen).
        exists (match r with None => zero_bytes | Some _ => buf end), fs. unfold mbind, M_bind. rewrite Hr. cbn.
        split; [done|]. split; [done|]. destruct r; [by rewrite Hlen|apply len_zero_bytes].
      + exists zero_bytes, (vw_files w1). cbn. split; [done|]. split; [done|]. apply len_zero_bytes.
    - exists zero_bytes, (vw_files w1). split; [done|]. split; [apply Hw|apply len_zero_bytes]. }
  exists fr, data, (with_files w1 fs). split_and!; try done.
  step Hidx. cbn [andb]. rewrite bool_decide_eq_true_2 by done.
  step (on_alloc_ok _ _ _ _ Hn). fold w1. by step Hd.
Qed.

Lemma get_entry_ok w v : has_table w v → ∃ b,
  tbl (root_paddr (vw_pt w)) (vw_mem w) [line1 v; line0 v] = Some b ∧
  get_entry (FW := FW) (A := A) v w = Ret (Some (get_pte_at b (line2 v), E w v), w).
Proof.
  intros [pte Hpte]. unfold get_entry. rewrite find_pte_tbl in *.
  destruct (tbl _ _ [line1 v; line0 v]) as [b|] eqn:Hb; [|done]. exists b. split; [done|].
  simpl. unfold E, pt_entry, entry. by rewrite Hb.
Qed.

(** Entering a new frame for a page that is not mapped. *)
Lemma page_fill w fr v fl b : in_space v → pte_is_valid (E w v) = false →
  files_ok (F := F) (vw_files w) → (∀ x, line0 x < top → word 64 (E w x)) →
  pt_inv top (vw_pt w) (vw_mem w) →
  frames_inv R (vw_alloc w) (fr :: frames (vw_pt w) ++ owned w ++ rest) →
  frame_count fr = 1 → word 8 fl →
  tbl (root_paddr (vw_pt w)) (vw_mem w) [line1 v; line0 v] = Some b →
  let bits := pte_set_all (start_paddr fr) (mapped_flags fl) in
  ∃ w', write_entry (get_pte_at b (line2 v)) bits w = Ret (tt, w') ∧ vworld_ok w' ∧
    one_page w w' v bits ∧ entry_frame bits = Some fr ∧ pte_flags bits = mapped_flags fl.
Proof.
  intros Hv Hval Hfs Hwords Hpt Hinv Hc Hfl Hb bits.
  destruct (in_space_line v Hv) as [Hl _]. pose proof (full_flags fl Hfl) as [Hff Hodd].
  fold (mapped_flags fl) in *.
  assert (page_at (start_paddr fr)) as [Hp Hpm].
  { destruct Hinv as (_&Hlive&_). inversion_clear Hlive. by apply frame_ok_page. }
  assert (entry_frame bits = Some fr ∧ pte_flags bits = mapped_flags fl) as [Hef Hfb].
  { unfold entry_frame, bits. rewrite pte_valid_flags, pte_flags_set_all, pte_addr_set_all by (done || lia).
    rewrite Hodd. split; [|done]. destruct fr as [st n]; simpl in *. by subst. }
  assert (world_inv top R (fr :: owned w ++ rest) (vw_pt w) (vw_alloc w) (vw_mem w)) as Hw1.
  { split; [|done]. eapply frames_inv_perm; [|exact Hinv]. by rewrite <- Permutation_middle. }
  destruct (leaf_store top Htop R _ _ _ _ v b bits Hw1 Hl Hb) as (Hw2&He&_&Htbl).
  eexists. split; [done|]. set (w' := mkVmWorld _ _ _ _).
  assert (one_page w w' v bits) as Hone.
  { apply one_page_of; [done|exact He|]. apply kept_by; [done|]. intros q c Hq Hlq Hc'. by rewrite Htbl. }
  split; [|done]. destruct (owned_one _ _ _ _ Hv Hone) as (o&Ho1&Ho2).
  unfold entry_frame in Ho1 at 1. rewrite Hval in Ho1. rewrite Hef in Ho2. simpl in Ho1, Ho2.
  split; [done| |].
  - eapply world_inv_perm; [|exact Hw2]. by rewrite Ho1, Ho2.
  - intros x Hx. unfold w' at 1, E at 1. cbn [vw_pt vw_mem]. rewrite He by done.
    destruct (vpn x =? vpn v); [|by apply Hwords]. unfold bits.
    rewrite pte_set_all_sum by lia. unfold word. dlia.
Qed.

(** The outcome of filling the page of an offset: it was there; it now is; or
    memory has run out. *)
Definition filled w (area : VmArea F) lo hi (v : Z) (ok_valid : OSResult unit)
    (r : OSResult unit) (area' : VmArea F) w' : Prop :=
  vworld_ok w' ∧ area_ok w' area' lo hi ∧ vm_flags area' = vm_flags area ∧
  ((pte_is_valid (E w v) = true ∧ r = ok_valid ∧ w' = w ∧ area' = area) ∨
   (pte_is_valid (E w v) = false ∧ r = OsOk tt ∧ ∃ fr, frame_count fr = 1 ∧
      one_page w w' v (pte_set_all (start_paddr fr) (mapped_flags (vm_flags area))) ∧
      entry_frame (E w' v) = Some fr ∧ pte_flags (E w' v) = mapped_flags (vm_flags area)) ∨
   (pte_is_valid (E w v) = false ∧ r = OsErr Memory_RunOutOfMemory ∧ w' = w ∧ area' = area ∧
      ∀ k, free (vw_alloc w) k = false)).

Lemma fill_page_ok w (area : VmArea F) lo hi v ok_valid : vworld_ok w → area_ok w area lo hi →
  lo <= v < hi →
  ∃ r area' w', fill_page area (v - lo) ok_valid w = Ret ((r, area'), w') ∧
    filled w area lo hi v ok_valid r area' w'.
Proof.
  intros Hw Har Hv. pose proof Har as [[Hs He] [Hlo Hhi] Hb Hfl (p&Hp&Hlen&Hpages)].
  set (i := Z.to_nat ((v - lo) / 4096)).
  assert (align_down (v - lo) = Z.of_nat i * 4096) as Hal
    by (rewrite align_down_div by (unfold word; lia); unfold i; dlia).
  set (v' := lo + Z.of_nat i * 4096).
  assert (in_space v ∧ in_space v' ∧ v' / 4096 = v / 4096) as (Hvs&Hvs'&Hvv)
    by (unfold in_space, v', i; split_and!; dlia).
  assert (E w v' = E w v) as Hev.
  { apply entry_vpn. destruct (in_space_line v' Hvs') as [_ ->]. by destruct (in_space_line v Hvs) as [_ ->]. }
  destruct (lookup_lt_is_Some_2 (lz_frames p) i) as [slot Hslot]; [unfold i; dlia|].
  destruct (Hpages i slot Hslot) as [Htab Hok]. fold v' in Htab, Hok. rewrite Hev in Hok.
  unfold fill_page. rewrite Hal, Hs. rewrite (wrap_small 64 (lo + Z.of_nat i * 4096)) by (fold v'; unfold in_space in Hvs'; unfold word; lia).
  fold v'. replace (Z.of_nat i * 4096 / PAGE_SIZE) with (Z.of_nat i) by (unfold PAGE_SIZE; by rewrite Z.div_mul).
  rewrite Hp. cbn [pm_get_frame].
  destruct (get_entry_ok w v' Htab) as (b&Htb&Hge). destruct slot as [pf|].
  - destruct Hok as (Hfr&_&_). assert (pte_is_valid (E w v) = true) as Hval
      by (unfold entry_frame in Hfr; by destruct (pte_is_valid (E w v))).
    assert (lazy_get_frame p (Z.of_nat i) true w = Ret ((OsOk (Some (start_paddr (pf_frame pf))), p), w)) as Hg.
    { unfold lazy_get_frame, lift, mbind, M_bind. rewrite (index_nat _ _ _ Hslot). cbn [mret outcome_ret].
      done. }
    unfold mbind at 1, M_bind at 1. unfold mbind at 1, M_bind at 1. rewrite Hg. cbn beta iota.
    unfold mret at 1, M_ret at 1. cbn beta iota. step Hge. rewrite Hev, Hval.
    assert (with_pma area (PmLazy p) = area) as -> by (rewrite <- Hp; by destruct area).
    exists ok_valid, area, w. split; [done|]. split_and!; try done. by left.
  - destruct (lazy_get_new w p i Hw Hslot) as [(fr&data&w1&Hg&Hc&Hld&Hfs&Hpt1&Hmem1&Hinv1)|[Hg Hno]].
    2: { unfold mbind at 1, M_bind at 1. unfold mbind at 1, M_bind at 1. rewrite Hg.
         assert (with_pma area (PmLazy p) = area) as Hwp by (rewrite <- Hp; by destruct area).
         eexists _, _, _. split; [reflexivity|]. cbn beta iota. rewrite Hwp.
         split_and!; try done. right. right. by split_and!. }
    assert (E w1 = E w) as HE by (unfold E; by rewrite Hpt1, Hmem1).
    destruct (page_fill w1 fr v' (vm_flags area) b) as (w2&Hwe&Hw2&Hone&Hef&Hfb); try done.
    { by rewrite HE, Hev. }
    { intros x Hx. rewrite HE. by apply Hw. }
    { rewrite Hpt1, Hmem1. apply (vw_inv w Hw). }
    { unfold owned. rewrite HE, Hpt1. exact Hinv1. }
    { by rewrite Hpt1, Hmem1. }
    set (bits := pte_set_all (start_paddr fr) (mapped_flags (vm_flags area))) in *.
    assert (one_page w w2 v' bits) as Hone'.
    { destruct Hone as [O1 O2]. split; [by rewrite HE in O1|]. intros x Hx Ht. apply O2; [done|].
      unfold has_table in *. by rewrite Hpt1, Hmem1. }
    unfold mbind at 1, M_bind at 1. unfold mbind at 1, M_bind at 1. rewrite Hg. cbn beta iota.
    unfold mret at 1, M_ret at 1. cbn beta iota.
    assert (get_entry (FW := FW) (A := A) v' w1 = Ret (Some (get_pte_at b (line2 v'), E w v'), w1)) as Hge1.
    { revert Hge. unfold get_entry. rewrite Hpt1, Hmem1. by intros [= ->]. }
    step Hge1. rewrite Hev, Hok. change (fault_bits (with_pma area _) (start_paddr fr)) with bits.
    step Hwe. eexists _, _, w2. split; [done|].
    assert (E w2 v = bits) as Hbits by (rewrite (op_entry _ _ _ _ Hone'), Hvv, Z.eqb_refl; done).
    split; [done|]. split; [|split; [done|]].
    + split; try done. eexists. split; [done|]. cbn [lz_frames set_slot vm_flags with_pma].
      rewrite Nat2Z.id, length_insert. split; [done|].
      apply (pages_ok_set w w2 _ _ (length (lz_frames p)) _ i v' bits); try done; [lia|lia|].
      split; [by apply (op_tables _ _ _ _ Hone')|].
      rewrite (op_entry _ _ _ _ Hone'), Z.eqb_refl by done. done.
    + right. left. split; [done|]. split; [done|]. exists fr. split; [done|].
      rewrite Hbits. split; [|done]. destruct Hone' as [O1 O2]. split; [|done].
      intros x Hx. rewrite <- Hvv. by apply O1.
Qed.
End vm_area_spec.
