(* ===== verification/MemorySet.v ===== *)
(** * Address spaces (kernel/src/memory/vmm.rs)

    [MemorySet] is a range map of [VmArea]s with their page table; the page
    table is in the world, where the areas reach it. *)

From S2P Require Import Prelude Bytes BitAlloc Addr PageFrame Errors PageTable BaseFile RangeMap VmArea.

Section memory_set.
Context {A : Type} `{BitAlloc A} `{PageFrameConfig}.
Context {FW F : Type} `{File FW F}.
Context {SB : StaleBytes}.

Abbreviation W := (VmWorld A FW).

Record MemorySet := mkMemorySet { area_map : RangeActionMap (VmArea F); is_user : bool }.

Implicit Types self : MemorySet.

Definition with_map self (m : RangeActionMap (VmArea F)) : MemorySet := mkMemorySet m (is_user self).

(** [new_kernel] and [new_user]: a page table of one page, no areas. *)
Definition new_set (user : bool) : M W MemorySet := λ w,
  '(r, (a, mem)) ← pt_new (vw_alloc w, vw_mem w);
  match r with
  | OsOk pt => Ret (mkMemorySet (ram_new (root_paddr pt)) user, mkVmWorld pt a mem (vw_files w))
  | OsErr _ => Panic
  end.

Definition new_kernel : M W MemorySet := new_set false.
Definition new_user : M W MemorySet := new_set true.

Definition munmap self (s e : Z) : M W (bool * MemorySet) :=
  m ← unmap (area_map self) s e; mret (true, with_map self m).

Definition mprotect self (s e new_flags : Z) : M W (bool * MemorySet) :=
  m ← RangeMap.mprotect (area_map self) s e new_flags; mret (true, with_map self m).

Definition msync_areas self (s e : Z) : M W (OSResult unit) :=
  let hit := filter (λ seg, vm_is_overlap_with seg s e = true) (iter (area_map self)) in
  _ ← foldMW (λ _ seg, vm_msync seg s e) tt hit;
  mret (if (0 <? Z.of_nat (length hit)) : bool then OsOk tt else OsErr MemorySet_AreaNotMapped).

(** The closure of [push_with_backend]: an area of [len] bytes at [s], mapped. *)
Definition mmap_area (len flags : Z) (backend : option (BackEndFile F)) (s : Z) : M W (VmArea F) :=
  let e := wrap64 (len + s) in
  pma ← os_unwrap (lazy_new (page_count (wrap64 (e - s))) backend);
  area ← os_unwrap (vm_new s e flags (PmLazy pma));
  '(r, pma) ← map_area area;
  _ ← os_unwrap r;
  mret (with_pma area pma).

Definition push_with_backend self (s e flags : Z) (backend : option (BackEndFile F)) (anywhere : bool)
    : M W (OSResult Z * MemorySet) :=
  if negb anywhere && (USER_VIRT_ADDR_LIMIT <=? e)
  then mret (OsErr MemorySet_UserMmapIntersectWithKernel, self)
  else
    let len := wrap64 (e - s) in
    '(r, m) ← (if anywhere
               then mmap_anywhere (area_map self) s len (mmap_area len flags backend)
               else mmap_fixed (area_map self) s e (mmap_area len flags backend s));
    start ← lift (unwrap r);
    mret (OsOk start, with_map self m).

Definition push self (vma : VmArea F) : M W (OSResult unit * MemorySet) :=
  '(r, m) ← mmap_fixed (area_map self) (vm_start vma) (vm_end vma)
              ('(r, pma) ← map_area vma; _ ← os_unwrap r; mret (with_pma vma pma));
  _ ← lift (unwrap r);
  mret (OsOk tt, with_map self m).

(** The area that holds [vaddr], with its key; areas change in place (their
    physical side is shared behind a lock), which [put_back] does to the map. *)
Definition find_entry self (vaddr : Z) : option (Z * RangeArea (VmArea F)) :=
  match bt_last_le vaddr (segments (area_map self)) with
  | Some (k, area) => if contains area vaddr then Some (k, area) else None
  | None => None
  end.

Definition put_back self (k : Z) (ra : RangeArea (VmArea F)) (area : VmArea F) : MemorySet :=
  with_map self (mkRAM (bt_insert k (mkArea (start ra) (end_ ra) area) (segments (area_map self)))
                       (args (area_map self))).

Definition handle_page_fault self (vaddr access_flags : Z) : M W (OSResult unit * MemorySet) :=
  match find_entry self vaddr with
  | Some (k, ra) =>
      '(r, area) ← vm_handle_page_fault (segment ra) (wrap64 (vaddr - vm_start (segment ra))) access_flags;
      mret (r, put_back self k ra area)
  | None => mret (OsErr PageFaultHandler_Unhandled, self)
  end.

Definition manually_alloc_page self (vaddr : Z) : M W (OSResult unit * MemorySet) :=
  match find_entry self vaddr with
  | Some (k, ra) =>
      '(r, area) ← vm_manually_alloc_page (segment ra) (wrap64 (vaddr - vm_start (segment ra)));
      mret (r, put_back self k ra area)
  | None => mret (OsErr PageFaultHandler_Unhandled, self)
  end.

(** The pages [first..=last], stopping at the first error. *)
Definition manually_alloc_pages self (first last : Z) : M W (OSResult unit * MemorySet) :=
  foldMR (λ self page, manually_alloc_page self (page_id_to_addr page)) self (seqZ first (last + 1 - first)).

Definition manually_alloc_type self (size vaddr : Z) : M W (OSResult unit * MemorySet) :=
  if cross_page size vaddr
  then manually_alloc_pages self (addr_to_page_id vaddr) (addr_to_page_id (wrap64 (vaddr + size - 1)))
  else manually_alloc_page self vaddr.

Definition manually_alloc_range self (start_vaddr end_vaddr : Z) : M W (OSResult unit * MemorySet) :=
  manually_alloc_pages self (addr_to_page_id start_vaddr) (addr_to_page_id end_vaddr).

Definition manually_alloc_user_str self (buf len : Z) : M W (OSResult unit * MemorySet) :=
  manually_alloc_range self buf (wrap64 (buf + len - 1)).

Definition clear_user_pages self : M W MemorySet :=
  if negb (is_user self) then mret self
  else m ← unmap (area_map self) LOWER_LIMIT UPPER_LIMIT; mret (with_map self m).

Definition clear_user_pages_and_save_kernel self : M W MemorySet :=
  if negb (is_user self) then mret self
  else m ← unmap (area_map self) LOWER_LIMIT USER_VIRT_ADDR_LIMIT; mret (with_map self m).

(** [read_write]; [op st area offset len processed] is the caller's closure.
    Every turn handles at least one byte, so [len] turns suffice. *)
Fixpoint read_write_loop {S} (op : S → VmArea F → Z → Z → Z → M W (OSResult unit * S * VmArea F))
    (fuel : nat) self (st : S) (start_ len processed access_flags : Z)
    : M W (OSResult unit * S * MemorySet) :=
  match fuel with
  | O => mret (OsOk tt, st, self)
  | Datatypes.S fuel' =>
      if 0 <? len then
        match find_entry self start_ with
        | Some (k, ra) =>
            let area := segment ra in
            if vm_end area <=? start_ then mret (OsErr MemorySet_InvalidRange, st, self)
            else if negb (contains_flags (vm_flags area) access_flags)
            then mret (OsErr PageFaultHandler_AccessDenied, st, self)
            else
              let n := Z.min (wrap64 (vm_end area - start_)) len in
              '(r, st, area) ← op st area (wrap64 (start_ - vm_start area)) n processed;
              let self := put_back self k ra area in
              match r with
              | OsErr e => mret (OsErr e, st, self)
              | OsOk _ => read_write_loop op fuel' self st (wrap64 (start_ + n)) (wrap64 (len - n))
                            (wrap64 (processed + n)) access_flags
              end
        | None => mret (OsErr MemorySet_InvalidRange, st, self)
        end
      else mret (OsOk tt, st, self)
  end.

Definition read_write {S} self (s len access_flags : Z)
    (op : S → VmArea F → Z → Z → Z → M W (OSResult unit * S * VmArea F)) (st : S)
    : M W (OSResult unit * S * MemorySet) :=
  read_write_loop op (Z.to_nat len) self st s len 0 access_flags.

(** A read or a write that an area over [PmAreaLazy] serves; the pages of a
    fixed area are raw memory, which is not modelled. *)
Definition on_lazy {R} (area : VmArea F) (f : PmAreaLazy F → M W (OSResult Z * R * PmAreaLazy F)) (st : R)
    : M W (OSResult unit * R * VmArea F) :=
  match vm_pma area with
  | PmLazy p =>
      '(r, st, p) ← f p;
      mret (match r with OsOk _ => OsOk tt | OsErr e => OsErr e end, st, with_pma area (PmLazy p))
  | PmFixed _ => λ _, Panic
  end.

Definition ms_read self (s len_ : Z) (dst : list Z) (access_flags : Z)
    : M W (OSResult unit * list Z * MemorySet) :=
  read_write self s len_ access_flags
    (λ dst area offset n processed,
      on_lazy area (λ p,
        '(r, bs, p) ← lazy_read p offset (bytes_at processed n dst);
        mret (r, splice processed bs dst, p)) dst) dst.

Definition ms_write self (s len_ : Z) (src : list Z) (access_flags : Z)
    : M W (OSResult unit * MemorySet) :=
  '(r, _, self) ← read_write self s len_ access_flags
    (λ _ area offset n processed,
      on_lazy area (λ p, '(r, p) ← lazy_write p offset (bytes_at processed n src); mret (r, tt, p)) tt) tt;
  mret (r, self).

(** Dropping the page table's frames. *)
Definition drop_page_table : M W unit := λ w,
  '(_, a) ← foldMW (λ _ f, frame_drop f) tt (frames (vw_pt w)) (vw_alloc w);
  Ret (tt, mkVmWorld (mkPageTable (root_paddr (vw_pt w)) []) a (vw_mem w) (vw_files w)).
(** [Drop for MemorySet], then the drop of its fields. *)
Definition drop_memory_set self : M W unit := _ ← clear_user_pages self; drop_page_table.

(** Run a call on an address space with its own page table. *)
Definition in_table {R} (pt : PageTable) (f : M W R) : M W (R * PageTable) := λ w,
  '(r, w') ← f (mkVmWorld pt (vw_alloc w) (vw_mem w) (vw_files w));
  Ret (r, vw_pt w', mkVmWorld (vw_pt w) (vw_alloc w') (vw_mem w') (vw_files w')).

(** [new_memory_set_for_task]: the new space runs in its own table. *)
Definition new_memory_set_for_task (kernel_pt : PageTable) : M W MemorySet :=
  ms ← new_user;
  _ ← on_pt (λ pt, _ ← map_kernel_regions pt kernel_pt; mret (tt, pt));
  mret ms.

Definition copy_areas (areas : list (VmArea F)) (ms : MemorySet) : M W (OSResult unit * MemorySet) :=
  foldMR (λ ms area,
      if vm_is_user area then
        r ← copy_to_new_area_with_data area;
        match r with
        | OsErr e => mret (OsErr e, ms)
        | OsOk new_area => push ms new_area
        end
      else mret (OsOk tt, ms)) ms areas.

Definition copy_as_fork self (kernel_pt : PageTable) : M W (OSResult MemorySet * PageTable) :=
  in_table (from_root 0)
    (ms ← new_memory_set_for_task kernel_pt;
     '(r, ms) ← copy_areas (iter (area_map self)) ms;
     match r with
     | OsOk _ => mret (OsOk ms)
     | OsErr e => _ ← drop_memory_set ms; mret (OsErr e)
     end).

End memory_set.
