(* ===== verification/MemorySetSpec.v ===== *)
(** * Correctness of user address spaces

    [munmap] and [mprotect] through the contract of the range map, page faults
    page by page, and the end of an address space: every frame goes back. *)

From S2P Require Import Prelude Bytes BitAlloc BitAllocSpec Addr PageFrame PageFrameSpec Errors PageTable PageTableSpec.
From S2P Require Import FatIo BaseFile FatFile FatFileSpec RangeMap RangeMapSpec VmArea VmAreaSpec MemorySet.

Section memory_set_spec.
Context {A : Type} {ops : BitAlloc A} {V : BitAllocView A} {BS : BitAllocSpec A}.
Context {cfg : PageFrameConfig} {CO : ConfigOk cfg (CAP A)} {PCO : PtConfigOk cfg (CAP A)}.
Context {FW F : Type} {HF : File FW F} {FO : FilesOk FW F}.
Context {SB : StaleBytes}.
Context (top : Z) (Htop : 0 < top <= 512) (R : Z → bool) (rest : list Frame).

Abbreviation W := (VmWorld A FW).
Implicit Types w : W.
Implicit Types ms : MemorySet (F := F).

#[local] Instance segment_spec : SegmentSpec W (VmArea F) Z := VmArea_SegmentSpec top Htop R rest.

(** A user address space in its world: areas sorted, disjoint and above the
    first page, every page as its area says, nothing mapped outside. *)
Record ms_ok w ms : Prop := {
  ms_world : vworld_ok (F := F) top R rest w;
  ms_map : ram_wf w (area_map ms);
  ms_user : is_user ms = true;
  ms_low x : x < LOWER_LIMIT → ram_view (W := W) (area_map ms) x = None }.

(** The rights of the area that holds an address. *)
Definition rights ms : Z → option Z := ram_view (W := W) (C := Z) (area_map ms).

Lemma munmap_ok w ms s e : ms_ok w ms → s < e → cut_fits (W := W) (area_map ms) s → cut_fits (W := W) (area_map ms) e →
  ∃ ms' w', munmap ms s e w = Ret ((true, ms'), w') ∧ ms_ok w' ms' ∧
    (∀ x, rights ms' x = if (s <=? x) && (x <? e) then None else rights ms x) ∧
    ∀ x, vm_mapped top w' x = if (s <=? x) && (x <? e) then false else vm_mapped top w x.
Proof.
  intros [Hw Hm Hu Hlow] Hse Hcs Hce.
  destruct (unmap_ok (area_map ms) s e w Hm Hw Hse Hcs Hce) as (m'&w'&Hun&Hw'&Hm'&_&Hv&Hmap).
  unfold munmap. step Hun. eexists _, w'. split; [done|]. split; [|split; [exact Hv|]].
  - split; [done|done|done|]. intros x Hx. unfold rights in *. rewrite Hv, Hlow by done. by destruct (_ && _).
  - intros x. pose proof (Hmap x) as Hx. cbn [mapped segment_spec VmArea_SegmentSpec] in Hx. rewrite Hx.
    destruct ((s <=? x) && (x <? e)); cbn [andb]; [|done].
    case_bool_decide as Hb; [done|]. destruct (vm_mapped top w x) eqn:Hmx; [|done].
    exfalso. apply Hb. by apply Hm.
Qed.

Lemma mprotect_ms_ok w ms s e fl : ms_ok w ms → s < e → cut_fits (W := W) (area_map ms) s →
  cut_fits (W := W) (area_map ms) e →
  ∃ ms' w', MemorySet.mprotect ms s e fl w = Ret ((true, ms'), w') ∧ ms_ok w' ms' ∧
    (∀ x, rights ms' x = if (s <=? x) && (x <? e) then (λ _, wrap8 fl) <$> rights ms x else rights ms x) ∧
    ∀ x, vm_mapped top w' x = vm_mapped top w x.
Proof.
  intros [Hw Hm Hu Hlow] Hse Hcs Hce.
  destruct (mprotect_ok (area_map ms) s e fl w Hm Hw Hse Hcs Hce) as (m'&w'&Hun&Hw'&Hm'&_&Hv&Hmap).
  unfold MemorySet.mprotect. step Hun. eexists _, w'. split; [done|]. split; [|split; [exact Hv|exact Hmap]].
  split; [done|done|done|]. intros x Hx. unfold rights in *. rewrite Hv, Hlow by done. by destruct (_ && _).
Qed.

Lemma in_space_vpn x : in_space top x → vpn x = x / 4096.
Proof. unfold in_space, vpn. intros. dlia. Qed.

(** Area entries agree with the page table. *)
Lemma rights_entry w ms x fl : ms_ok w ms → rights ms x = Some fl → in_space top x ∧
  (vm_mapped top w x = true → pte_flags (E w x) = mapped_flags fl).
Proof.
  intros [Hw [[Hwf _] _] _ _] Hr. unfold rights, ram_view, view in Hr.
  apply areas_view_Some in Hr as (ra&Hra&Hv). apply area_view_Some in Hv as [Hx ->].
  destruct (areas_wf_In _ _ _ _ Hwf Hra) as [_ [_ [[Hs He] [Hlo Hhi] Hb Hfl (p&Hp&Hlen&Hpages)]]].
  assert (in_space top x) as Hin by (unfold in_space; lia). split; [done|].
  rewrite vm_mapped_in by done. intros Hval.
  set (i := Z.to_nat ((x - start ra) / 4096)).
  destruct (lookup_lt_is_Some_2 (lz_frames p) i) as [slot Hslot]; [unfold i; dlia|].
  destruct (Hpages i slot Hslot) as [_ Hok].
  assert (E w (start ra + Z.of_nat i * 4096) = E w x) as Hex.
  { apply entry_vpn. rewrite (in_space_vpn x Hin).
    rewrite (in_space_vpn (start ra + Z.of_nat i * 4096)); unfold in_space, i; dlia. }
  rewrite Hex in Hok. destruct slot as [pf|]; [by destruct Hok as (_&?&_)|congruence].
Qed.

Lemma area_bound w ms kv : ms_ok w ms → kv ∈ segments (area_map ms) →
  0 <= start kv.2 < end_ kv.2 ∧ end_ kv.2 <= top * 2 ^ 30.
Proof.
  intros [_ [[Hwf _] _] _ _] Hkv.
  destruct (areas_wf_In _ _ _ kv.2 Hwf (list_elem_of_fmap_2 _ _ _ Hkv)) as [_ [_ [_ _ Hb _ _]]]. lia.
Qed.

(** *** Page faults *)

Context (stale_len : ∀ fr, len (stale fr) = PAGE_SIZE).

Lemma find_entry_some w ms v k ra : ms_ok w ms → find_entry ms v = Some (k, ra) →
  k = start ra ∧ (k, ra) ∈ segments (area_map ms) ∧ start ra <= v < end_ ra ∧
  area_ok top w (segment ra) (start ra) (end_ ra) ∧ rights ms v = Some (vm_flags (segment ra)).
Proof.
  intros [_ [[Hwf Hkey] _] _ _] Hf. unfold find_entry in Hf.
  destruct (bt_last_le v (segments (area_map ms))) as [[k' ra']|] eqn:Hl; [|done].
  destruct (contains ra' v) eqn:Hc; [|done]. injection Hf as -> ->.
  apply last_le_In in Hl. rewrite list.Forall_forall in Hkey. pose proof (Hkey _ Hl) as Hk. simpl in Hk. subst k.
  pose proof (list_elem_of_fmap_2 snd _ _ Hl) as Hra. destruct (areas_wf_In _ _ _ _ Hwf Hra) as [_ [_ Har]].
  unfold contains in Hc. apply andb_true_iff in Hc as [H1%Z.leb_le H2%Z.ltb_lt].
  split_and!; try done. unfold rights, ram_view, view. rewrite (areas_view_In _ _ _ ra v Hwf Hra) by (simpl; lia).
  by apply area_view_Some.
Qed.

Lemma find_entry_none w ms v : ms_ok w ms → find_entry ms v = None → rights ms v = None.
Proof.
  intros [_ Hm _ _] Hf. unfold rights. rewrite (find_ok w) by done. unfold find_entry in Hf. unfold find.
  destruct (bt_last_le _ _) as [[k ra]|]; [|done]. by destruct (contains ra v).
Qed.

(** An area that changes in place with the pages of its range. *)
Lemma put_back_ok w w' ms v k ra (area : VmArea F) : ms_ok w ms → find_entry ms v = Some (k, ra) →
  vworld_ok (F := F) top R rest w' → area_ok top w' area (start ra) (end_ ra) → agrees top w w' (start ra) (end_ ra) →
  vm_flags area = vm_flags (segment ra) →
  ms_ok w' (put_back ms k ra area) ∧ ∀ x, rights (put_back ms k ra area) x = rights ms x.
Proof.
  intros Hms Hf Hw' Har Hag Hfl. destruct (find_entry_some w ms v k ra Hms Hf) as (->&Hin&Hv&Har0&_).
  destruct Hms as [Hw [[Hwf Hkey] Hcov] Hu Hlow].
  assert (keeps (area_ok (F := F) top) w w' (start ra) (end_ ra)) as Hk by by apply area_ok_keeps.
  destruct (replace_spec w w' _ 0 ra area Hwf Hkey Hin Har Hk) as (H1&H2&H3).
  assert (∀ x, rights (put_back ms (start ra) ra area) x = rights ms x) as Hr.
  { intros x. unfold rights, ram_view, put_back, with_map. cbn [area_map segments]. rewrite H3.
    destruct (contains ra x) eqn:Hc; [|done]. unfold view.
    rewrite (areas_view_In _ _ _ ra x Hwf (list_elem_of_fmap_2 snd _ _ Hin)).
    - unfold area_view. rewrite Hc. f_equal. exact Hfl.
    - unfold contains in Hc. apply andb_true_iff in Hc as [?%Z.leb_le ?%Z.ltb_lt]. lia. }
  split; [|exact Hr]. unfold rights in Hr. split; [done| |done|intros x Hx; rewrite Hr; by apply Hlow].
  split; [by split|]. unfold ram_view in Hr. intros x Hx. rewrite Hr.
  destruct (decide (start ra <= x < end_ ra)) as [Hxr|Hxr].
  - exists (vm_flags (segment ra)). unfold view.
    rewrite (areas_view_In _ _ _ ra x Hwf (list_elem_of_fmap_2 snd _ _ Hin) Hxr). by apply area_view_Some.
  - apply Hcov. cbn [mapped segment_spec VmArea_SegmentSpec] in Hx |- *. destruct (decide (in_space top x)) as [Hs|Hs].
    + rewrite vm_mapped_in in Hx |- * by done. by rewrite (ag_entry _ _ _ _ _ Hag) in Hx by (done || lia).
    + by rewrite vm_mapped_out in Hx by done.
Qed.

(** What filling the page of [v] did, for an area with rights [fl]. *)
Definition fault_done w ms v fl (ok_valid r : OSResult unit) w' : Prop :=
  if pte_is_valid (E w v) then r = ok_valid ∧ w' = w
  else (r = OsOk tt ∧ ∃ fr, frame_count fr = 1 ∧
          one_page top w w' v (pte_set_all (start_paddr fr) (mapped_flags fl)) ∧
          owned top w' ≡ₚ fr :: owned top w ∧ entry_frame (E w' v) = Some fr ∧ pte_flags (E w' v) = mapped_flags fl) ∨
       (r = OsErr Memory_RunOutOfMemory ∧ w' = w ∧ ∀ k, free (vw_alloc w) k = false).

Lemma fill_entry_ok w ms v k ra ok_valid : ms_ok w ms → find_entry ms v = Some (k, ra) →
  ∃ r area w', fill_page (segment ra) (wrap64 (v - vm_start (segment ra))) ok_valid w = Ret ((r, area), w') ∧
    ms_ok w' (put_back ms k ra area) ∧ (∀ x, rights (put_back ms k ra area) x = rights ms x) ∧
    fault_done w ms v (vm_flags (segment ra)) ok_valid r w'.
Proof.
  intros Hms Hf. destruct (find_entry_some w ms v k ra Hms Hf) as (Hk&Hin&Hv&Har&_).
  pose proof Har as [[Hs He] [Hal Hah] Hb _ _].
  rewrite Hs, wrap_small by (unfold word; lia).
  destruct (fill_page_ok top Htop R rest stale_len w (segment ra) _ _ v ok_valid (ms_world _ _ Hms) Har Hv)
    as (r&area&w'&Hrun&Hw'&Har'&Hfl&Hcase). exists r, area, w'. split; [done|].
  assert (in_space top v) as Hvs by (unfold in_space; lia).
  assert (agrees top w w' (start ra) (end_ ra)) as Hag.
  { destruct Hcase as [(_&_&->&_)|[(_&_&fr&_&Hone&_)|(_&_&->&_)]]; [apply agrees_refl| |apply agrees_refl].
    by eapply one_page_agrees. }
  destruct (put_back_ok w w' ms v k ra area Hms Hf Hw' Har' Hag Hfl) as [H1 H2].
  split; [done|]. split; [done|]. unfold fault_done.
  destruct Hcase as [(->&->&->&_)|[(Hval&->&fr&Hc&Hone&Hef&Hfb)|(->&->&->&_&Hno)]]; [done| |by right].
  rewrite Hval. left. split; [done|]. exists fr. split_and!; try done.
  destruct (owned_one top Htop R w w' v _ Hvs Hone) as (o&Ho1&Ho2).
  pose proof (op_entry top w w' v _ Hone v Hvs) as Hev. rewrite Z.eqb_refl in Hev. rewrite <- Hev, Hef in Ho2.
  unfold entry_frame in Ho1 at 1. rewrite Hval in Ho1. by rewrite Ho1, Ho2.
Qed.

Lemma handle_page_fault_ok w ms v acc : ms_ok w ms →
  ∃ r ms' w', handle_page_fault ms v acc w = Ret ((r, ms'), w') ∧ ms_ok w' ms' ∧
    (∀ x, rights ms' x = rights ms x) ∧
    match rights ms v with
    | None => r = OsErr PageFaultHandler_Unhandled ∧ w' = w
    | Some fl =>
        if contains_flags fl acc then fault_done w ms v fl (OsErr PageFaultHandler_TrapAtValidPage) r w'
        else r = OsErr PageFaultHandler_AccessDenied ∧ w' = w
    end.
Proof.
  intros Hms. unfold handle_page_fault. destruct (find_entry ms v) as [[k ra]|] eqn:Hf.
  2: { rewrite (find_entry_none w) by done. by exists (OsErr PageFaultHandler_Unhandled), ms, w. }
  destruct (find_entry_some w ms v k ra Hms Hf) as (_&_&_&Har&->). unfold vm_handle_page_fault.
  destruct (contains_flags (vm_flags (segment ra)) acc); cbn [negb].
  - destruct (fill_entry_ok w ms v k ra (OsErr PageFaultHandler_TrapAtValidPage) Hms Hf) as (r&area&w'&Hrun&H1&H2&H3).
    step Hrun. by exists r, (put_back ms k ra area), w'.
  - exists (OsErr PageFaultHandler_AccessDenied), (put_back ms k ra (segment ra)), w. split; [done|].
    destruct (put_back_ok w w ms v k ra (segment ra) Hms Hf (ms_world _ _ Hms) Har) as [H1 H2]; [apply agrees_refl|done|].
    by split_and!.
Qed.

Lemma manually_alloc_page_ok w ms v : ms_ok w ms →
  ∃ r ms' w', manually_alloc_page ms v w = Ret ((r, ms'), w') ∧ ms_ok w' ms' ∧
    (∀ x, rights ms' x = rights ms x) ∧
    match rights ms v with
    | None => r = OsErr PageFaultHandler_Unhandled ∧ w' = w
    | Some fl => fault_done w ms v fl (OsOk tt) r w'
    end.
Proof.
  intros Hms. unfold manually_alloc_page. destruct (find_entry ms v) as [[k ra]|] eqn:Hf.
  2: { rewrite (find_entry_none w) by done. by exists (OsErr PageFaultHandler_Unhandled), ms, w. }
  destruct (find_entry_some w ms v k ra Hms Hf) as (_&_&_&_&->). unfold vm_manually_alloc_page.
  destruct (fill_entry_ok w ms v k ra (OsOk tt) Hms Hf) as (r&area&w'&Hrun&H1&H2&H3).
  step Hrun. by exists r, (put_back ms k ra area), w'.
Qed.

(** *** mmap *)

(** Mapping the pages of a new area makes the tables for them. *)
Definition mapping w0 (lo hi : Z) (p : PmAreaLazy F) (i : nat) (pma : PmArea F) w : Prop :=
  pma = PmLazy p ∧ vworld_ok (F := F) top R rest w ∧ (∀ x, in_space top x → E w x = E w0 x) ∧
  (∀ x, in_space top x → has_table w0 x → has_table w x) ∧
  ∀ j, (j < i)%nat → has_table w (lo + Z.of_nat j * 4096).

Lemma map_area_ok w (area : VmArea F) lo hi p n : vworld_ok (F := F) top R rest w →
  vm_start area = lo → vm_end area = hi → vm_pma area = PmLazy p → lz_frames p = repeat None n →
  Z.of_nat n * 4096 = hi - lo → 0 <= lo → hi <= top * 2 ^ 30 →
  (∀ x, lo <= x < hi → pte_is_valid (E w x) = false) →
  ∃ r w', map_area area w = Ret ((r, PmLazy p), w') ∧ vworld_ok (F := F) top R rest w' ∧
    (∀ x, in_space top x → E w' x = E w x) ∧ (∀ x, in_space top x → has_table w x → has_table w' x) ∧
    match r with
    | OsOk _ => ∀ j, (j < n)%nat → has_table w' (lo + Z.of_nat j * 4096)
    | OsErr e => e = PageTable_FrameAllocFailed ∧ ∀ k, free (vw_alloc w') k = false
    end.
Proof.
  intros Hw Hs He Hp Hfr Hn Hlo Hhi Hno. unfold map_area. rewrite (area_steps R area lo hi n Hs He) by lia.
  match goal with |- context [foldMR ?g _ _] => set (body := g) end.
  destruct (foldMR_until (mapping w lo hi p)
    (λ e pma w', pma = PmLazy p ∧ vworld_ok (F := F) top R rest w' ∧ (∀ x, in_space top x → E w' x = E w x) ∧
       (∀ x, in_space top x → has_table w x → has_table w' x) ∧
       e = PageTable_FrameAllocFailed ∧ ∀ k, free (vw_alloc w') k = false)
    body n (vm_pma area) w (λ i, lo + i * PAGE_SIZE)) as (r&pma&w'&Hfold&Hr).
  - split_and!; try done. intros. lia.
  - intros i pma w1 Hi (->&Hw1&Hsame&Hkt&Htab). unfold body, PAGE_SIZE.
    pose proof (vm_page_at top Htop area i n) as Hvp. rewrite Hs in Hvp. rewrite Hvp by lia.
    assert (lz_frames p !! i = Some None) as Hslot by (rewrite Hfr; by apply lookup_repeat).
    cbn [pm_get_frame]. pose proof (lazy_get_present p i None w1 Hslot) as Hg.
    set (v := lo + Z.of_nat i * 4096) in *.
    assert (in_space top v) as Hv by (unfold in_space, v; lia).
    destruct (page_map_none top Htop R rest w1 v Hw1 Hv) as (r&w2&Hm&Hw2&Hone&_&Hr).
    { rewrite Hsame by done. apply Hno. unfold v. lia. }
    assert (∀ x, in_space top x → E w2 x = E w x) as Hsame2.
    { intros x Hx. rewrite (op_entry _ _ _ _ _ Hone) by done. rewrite <- (Hsame x Hx).
      destruct (Z.eqb_spec (x / 4096) (v / 4096)) as [Hxv|]; [|done]. symmetry. apply entry_vpn.
      destruct (in_space_line top Htop R x Hx) as [_ ->]. by destruct (in_space_line top Htop R v Hv) as [_ ->]. }
    assert (∀ x, in_space top x → has_table w x → has_table w2 x) as Hkt2.
    { intros x Hx Ht. apply (op_tables _ _ _ _ _ Hone x Hx). by apply Hkt. }
    exists r, (PmLazy p), w2. split.
    { unfold mbind at 1, M_bind at 1. unfold mbind at 1, M_bind at 1. rewrite Hg. cbn beta iota.
      unfold mret at 1, M_ret at 1. cbn -[on_pt pt_map]. unfold mbind at 1, M_bind at 1. by rewrite Hm. }
    destruct r as [[]|e]; [|by split_and!; try apply Hr]. split_and!; try done.
    intros j Hj. destruct (decide (j = i)) as [->|]; [done|]. apply (op_tables _ _ _ _ _ Hone).
    + unfold in_space. lia.
    + apply Htab. lia.
  - exists r, w'. destruct r as [[]|e].
    + destruct Hr as (->&?&?&?&?). by split_and!.
    + destruct Hr as (->&?&?&?&?&?). by split_and!.
Qed.

(** Memory ran out while the pages of a new area were being mapped. *)
Definition map_ran_out w (area : VmArea F) : Prop :=
  ∃ pma w', map_area area w = Ret ((OsErr PageTable_FrameAllocFailed, pma), w') ∧
    ∀ k, free (vw_alloc w') k = false.

(** The area that [mmap] makes for the pages of [s, e). *)
Definition new_area (s e fl : Z) (backend : option (BackEndFile F)) : VmArea F :=
  mkVmArea s e fl (PmLazy (mkLazy (repeat None (Z.to_nat ((e - s) / 4096))) backend)).

Definition page_range (s e : Z) : Prop :=
  s mod 4096 = 0 ∧ e mod 4096 = 0 ∧ LOWER_LIMIT <= s < e ∧ e <= top * 2 ^ 30.

Lemma mmap_area_ok w s e fl backend : vworld_ok (F := F) top R rest w → page_range s e → e - s <= 2 ^ 32 →
  word 8 fl → (∀ x, s <= x < e → vm_mapped top w x = false) →
  (∃ w', mmap_area (e - s) fl backend s w = Ret (new_area s e fl backend, w') ∧
     vworld_ok (F := F) top R rest w' ∧ area_ok top w' (new_area s e fl backend) s e ∧
     agrees top w w' s e ∧ ∀ x, vm_mapped top w' x = vm_mapped top w x) ∨
  (mmap_area (e - s) fl backend s w = Panic ∧ map_ran_out w (new_area s e fl backend)).
Proof.
  intros Hw (Hsm&Hem&Hse&Htop') Hlen Hfl Hno. unfold LOWER_LIMIT in Hse.
  set (n := Z.to_nat ((e - s) / 4096)). assert (Z.of_nat n * 4096 = e - s) as Hn by (unfold n; dlia).
  assert (lazy_new (F := F) (page_count (e - s)) backend = OsOk (mkLazy (repeat None n) backend)) as Hnew.
  { unfold lazy_new. rewrite page_count_div by lia. replace ((e - s + 4095) / 4096) with ((e - s) / 4096) by dlia.
    destruct (Z.eqb_spec ((e - s) / 4096) 0); [dlia|].
    change (page_count USER_VIRT_ADDR_LIMIT) with 1048576.
    destruct (Z.ltb_spec 1048576 ((e - s) / 4096)); [dlia|]. done. }
  assert (vm_new s e fl (PmLazy (mkLazy (F := F) (repeat None n) backend)) = OsOk (new_area s e fl backend)) as Hvm.
  { unfold vm_new. destruct (Z.leb_spec e s); [lia|].
    rewrite align_down_div by (unfold word; lia). rewrite align_up_div by lia.
    replace (s / 4096 * 4096) with s by dlia. replace ((e + 4095) / 4096 * 4096) with e by dlia.
    cbn [pm_size]. rewrite wrap_small by (unfold word; lia).
    rewrite lazy_size_small by (cbn [lz_frames]; rewrite repeat_length; lia).
    cbn [lz_frames]. rewrite repeat_length. by destruct (Z.eqb_spec (e - s) (Z.of_nat n * 4096)); [|lia]. }
  assert (∀ x, s <= x < e → in_space top x) as Hin by (unfold in_space; lia).
  destruct (map_area_ok w (new_area s e fl backend) s e (mkLazy (repeat None n) backend) n)
    as (r&w'&Hmap&Hw'&Hsame&Hkt&Hr); try done; [lia| |].
  { intros x Hx. rewrite <- (vm_mapped_in top) by auto. by apply Hno. }
  assert (mmap_area (e - s) fl backend s w =
    match r with OsOk _ => Ret (new_area s e fl backend, w') | OsErr _ => Panic end) as Hrun.
  { unfold mmap_area. replace (e - s + s) with e by lia. rewrite (wrap_small 64 e) by (unfold word; lia).
    rewrite wrap_small by (unfold word; lia). rewrite Hnew. unfold mbind at 1, M_bind at 1, os_unwrap at 1.
    rewrite Hvm. unfold mbind at 1, M_bind at 1, os_unwrap at 1. unfold mbind at 1, M_bind at 1. rewrite Hmap.
    by destruct r as [[]|]. }
  destruct r as [[]|err]; [left|right].
  - exists w'. split; [exact Hrun|]. split; [done|].
    assert (∀ x, vm_mapped top w' x = vm_mapped top w x) as Hm.
    { intros x. destruct (decide (in_space top x)) as [Hx|Hx].
      - rewrite !vm_mapped_in by done. by rewrite Hsame.
      - by rewrite !vm_mapped_out by done. }
    split; [|split; [split; [by intros; apply Hsame|exact Hkt]|exact Hm]].
    split; cbn; try done; [lia|]. exists (mkLazy (repeat None n) backend). split; [done|]. cbn.
    split; [rewrite repeat_length; lia|]. intros i slot Hi. pose proof (lookup_lt_Some _ _ _ Hi) as Hlt.
    rewrite repeat_length in Hlt. rewrite lookup_repeat in Hi by done. injection Hi as <-.
    split; [by apply Hr|]. rewrite Hsame by (apply Hin; lia). rewrite <- (vm_mapped_in top) by (apply Hin; lia).
    apply Hno. lia.
  - split; [done|]. exists (PmLazy (mkLazy (repeat None n) backend)), w'. destruct Hr as [-> Hr]. by split.
Qed.

(** A new area where the space holds nothing. *)
Lemma place_ok w ms s e fl backend : ms_ok w ms → page_range s e → e - s <= 2 ^ 32 → word 8 fl →
  (∀ x, s <= x < e → rights ms x = None) →
  (∃ w', mmap_area (e - s) fl backend s w = Ret (new_area s e fl backend, w') ∧
     let ms' := with_map ms (insert_raw (area_map ms) s e (new_area s e fl backend)) in
     ms_ok w' ms' ∧ (∀ x, rights ms' x = if (s <=? x) && (x <? e) then Some fl else rights ms x) ∧
     ∀ x, vm_mapped top w' x = vm_mapped top w x) ∨
  (mmap_area (e - s) fl backend s w = Panic ∧ map_ran_out w (new_area s e fl backend)).
Proof.
  intros [Hw Hm Hu Hlow] Hr Hlen Hfl Hno.
  destruct (mmap_area_ok w s e fl backend Hw Hr Hlen Hfl) as [(w'&Hrun&Hw'&Har&Hag&Hmap)|]; [|left|by right].
  { intros x Hx. destruct (vm_mapped top w x) eqn:Hmx; [|done].
    destruct (proj2 Hm x Hmx) as [c Hc]. unfold rights, ram_view in Hno. by rewrite (Hno x Hx) in Hc. }
  exists w'. split; [done|]. destruct Hr as (_&_&Hse&_).
  destruct (insert_raw_ok (area_map ms) s e (new_area s e fl backend) w w') as [Hm' Hv];
    [done|unfold LOWER_LIMIT in *; lia|exact Har|by apply area_ok_keeps| |exact Hno|].
  { intros x Hx. left. cbn [mapped segment_spec VmArea_SegmentSpec] in Hx |- *. by rewrite <- Hmap. }
  split; [|split; [exact Hv|exact Hmap]]. split; [done|exact Hm'|done|].
  intros x Hx. cbn [area_map with_map]. rewrite Hv. destruct (Z.leb_spec s x); [lia|]. cbn [andb]. by apply Hlow.
Qed.

(** [mmap] with [MAP_FIXED]. *)
Lemma push_fixed_ok w ms s e fl backend : ms_ok w ms → page_range s e → e < USER_VIRT_ADDR_LIMIT → word 8 fl →
  (∃ ms' w', push_with_backend ms s e fl backend false w = Ret ((OsOk s, ms'), w') ∧ ms_ok w' ms' ∧
     (∀ x, rights ms' x = if (s <=? x) && (x <? e) then Some fl else rights ms x) ∧
     ∀ x, vm_mapped top w' x = if (s <=? x) && (x <? e) then false else vm_mapped top w x) ∨
  (push_with_backend ms s e fl backend false w = Panic ∧ ∃ ms1 w1, munmap ms s e w = Ret ((true, ms1), w1) ∧
     map_ran_out w1 (new_area s e fl backend)).
Proof.
  intros Hms Hr Hlim Hfl. pose proof Hr as (Hsm&Hem&Hse&Htop'). unfold LOWER_LIMIT, USER_VIRT_ADDR_LIMIT in *.
  destruct (munmap_ok w ms s e Hms) as (ms1&w1&Hun&Hms1&Hr1&Hmap1); [lia|by apply cut_ok_fits..|].
  assert (∃ m1, ms1 = with_map ms m1 ∧ unmap (area_map ms) s e w = Ret (m1, w1)) as (m1&->&Hun1).
  { unfold munmap, mbind, M_bind in Hun. destruct (unmap _ _ _ w) as [[m1 w1']|]; [|done].
    injection Hun as <- <-. by exists m1. }
  unfold push_with_backend. cbn [negb andb]. change USER_VIRT_ADDR_LIMIT with 0xFFFFFFFF.
  destruct (Z.leb_spec 0xFFFFFFFF e); [lia|]. rewrite wrap_small by (unfold word; lia).
  unfold mmap_fixed, LOWER_LIMIT, UPPER_LIMIT.
  destruct (Z.ltb_spec s 0x1000); [lia|]. destruct (Z.ltb_spec 0xffffffffffffffff e); [lia|]. cbn [orb].
  destruct (place_ok w1 (with_map ms m1) s e fl backend Hms1 Hr) as [(w2&Hrun&Hms2&Hr2&Hmap2)|[Hrun Hno]];
    [lia|done|intros x Hx; rewrite Hr1; zcases|left|right].
  - eexists _, w2. split.
    { unfold mbind at 1, M_bind at 1. step Hun1. by step Hrun. }
    split; [exact Hms2|]. split.
    + intros x. rewrite Hr2, Hr1. zcases.
    + intros x. by rewrite Hmap2, Hmap1.
  - split; [|by exists (with_map ms m1), w1]. unfold mbind at 1, M_bind at 1. step Hun1.
    unfold mbind at 1, M_bind at 1. by rewrite Hrun.
Qed.

Lemma find_free_aligned m cur n r : cur mod 4096 = 0 →
  (∀ kv, kv ∈ m → end_ kv.2 mod 4096 = 0) →
  (find_free_loop (S := VmArea F) cur n m = inl r ∨ find_free_loop (S := VmArea F) cur n m = inr r) →
  r mod 4096 = 0.
Proof.
  revert cur. induction m as [|[k a] m IH]; intros cur Hc Hm; cbn [find_free_loop].
  { by intros [[=]|[= <-]]. }
  destruct (_ <=? _); [by intros [[= <-]|[=]]|]. apply IH; [|intros kv ?; apply Hm; by right].
  pose proof (Hm (k, a) ltac:(by left)) as Ha. simpl in Ha. by destruct (Z.max_spec cur (end_ a)) as [[_ ->]|[_ ->]].
Qed.

Lemma find_free_area_aligned w ms hint n p : ms_ok w ms → hint mod 4096 = 0 →
  find_free_area (area_map ms) hint n = Some p → p mod 4096 = 0.
Proof.
  intros [_ Hm _ _] Hhm Hff. unfold find_free_area in Hff.
  pose proof (find_free_aligned (segments (area_map ms)) (Z.max hint LOWER_LIMIT) n p) as Hal.
  assert (∀ kv, kv ∈ segments (area_map ms) → end_ kv.2 mod 4096 = 0) as Hem.
  { intros kv Hkv. destruct Hm as [[Hwf _] _].
    by destruct (areas_wf_In _ _ _ kv.2 Hwf (list_elem_of_fmap_2 _ _ _ Hkv)) as [_ [_ [_ [_ ?] _ _ _]]]. }
  assert (Z.max hint LOWER_LIMIT mod 4096 = 0) as Hmx
    by (unfold LOWER_LIMIT; by destruct (Z.max_spec hint 0x1000) as [[_ ->]|[_ ->]]).
  destruct (find_free_loop _ _ _) as [r|r]; [|destruct (_ <=? _); [|done]]; injection Hff as ->; apply Hal; auto.
Qed.

(** [mmap] without [MAP_FIXED], where the space found belongs to the user. *)
Lemma push_anywhere_ok w ms hint n fl backend p : ms_ok w ms → 0 <= hint → hint mod 4096 = 0 → n mod 4096 = 0 →
  0 < n <= 2 ^ 32 → Z.max hint LOWER_LIMIT + n < 2 ^ 64 → word 8 fl →
  find_free_area (area_map ms) hint n = Some p → p + n <= top * 2 ^ 30 →
  hint <= p ∧ (∀ x, p <= x < p + n → rights ms x = None) ∧
  ((∃ ms' w', push_with_backend ms hint (hint + n) fl backend true w = Ret ((OsOk p, ms'), w') ∧ ms_ok w' ms' ∧
      (∀ x, rights ms' x = if (p <=? x) && (x <? p + n) then Some fl else rights ms x) ∧
      ∀ x, vm_mapped top w' x = vm_mapped top w x) ∨
   (push_with_backend ms hint (hint + n) fl backend true w = Panic ∧
    map_ran_out w (new_area p (p + n) fl backend))).
Proof.
  intros Hms Hh Hhm Hnm Hn Hov Hfl Hff Hp. pose proof Hms as [Hw Hm Hu Hlow].
  assert (∀ kv, kv ∈ segments (area_map ms) → end_ kv.2 + n < 2 ^ 64) as Hends.
  { intros kv Hkv. destruct (area_bound w ms kv Hms Hkv). lia. }
  pose proof (find_free_area_ok w (area_map ms) hint n Hm Hh ltac:(lia) Hov Hends) as Hfa.
  rewrite Hff in Hfa. destruct Hfa as (H1&H2&H3&_).
  pose proof (find_free_area_aligned w ms hint n p Hms Hhm Hff) as Hpm.
  pose proof (proj1 (free_at_view w (area_map ms) p n Hm ltac:(lia)) H3) as Hfree. unfold LOWER_LIMIT in *.
  split; [lia|]. split; [exact Hfree|].
  assert (page_range p (p + n)) as Hr by (split_and!; [done|dlia|unfold LOWER_LIMIT; lia..]).
  unfold push_with_backend. cbn [negb andb]. replace (hint + n - hint) with n by lia.
  rewrite wrap_small by (unfold word; lia). unfold mmap_anywhere. rewrite Hff.
  rewrite (wrap_small 64 (p + n)) by (unfold word; lia).
  destruct (place_ok w ms p (p + n) fl backend Hms Hr) as [(w2&Hrun&Hms2&Hr2&Hmap2)|[Hrun Hno]];
    [lia|done|exact Hfree|left|right]; replace (p + n - p) with n in Hrun by lia.
  - eexists _, w2. split; [|split; [exact Hms2|split; [exact Hr2|exact Hmap2]]].
    unfold mbind at 1, M_bind at 1. by step Hrun.
  - split; [|done]. unfold mbind at 1, M_bind at 1. unfold mbind at 1, M_bind at 1. by rewrite Hrun.
Qed.

(** *** The end of an address space *)

Lemma no_rights_above w ms x : ms_ok w ms → top * 2 ^ 30 <= x → rights ms x = None.
Proof.
  intros Hms Hx. destruct (rights ms x) as [fl|] eqn:Hr; [|done].
  destruct (rights_entry w ms x fl Hms Hr) as [[_ Hlt] _]. lia.
Qed.

Lemma owned_none w : (∀ x, vm_mapped top w x = false) → owned top w = [].
Proof.
  intros Hno. unfold owned, owned_from.
  assert (∀ l, (∀ i, i ∈ l → 0 <= i < top * 2 ^ 18) →
    omap (λ i, entry_frame (E w (i * 4096))) l = []) as H.
  { induction l as [|i l IH]; intros Hl; [done|]. csimpl.
    assert (in_space top (i * 4096)) as Hin by (specialize (Hl i ltac:(left)); unfold in_space; lia).
    specialize (Hno (i * 4096)). rewrite vm_mapped_in in Hno by done.
    unfold entry_frame at 1. rewrite Hno. apply IH. intros. apply Hl. by right. }
  apply H. intros i Hi. apply elem_of_seqZ in Hi. lia.
Qed.

Lemma drop_frames_ok fs a : frames_inv R a (fs ++ rest) →
  ∃ a', foldMW (λ _ f, frame_drop f) tt fs a = Ret (tt, a') ∧ frames_inv R a' rest.
Proof.
  revert a. induction fs as [|f fs IH]; intros a Hinv; [by exists a|]. cbn [foldMW].
  destruct (frame_drop_spec R a _ (fs ++ rest) f Hinv) as (a1&H1&Hinv1); [done|]. step H1. by apply IH.
Qed.

Lemma clear_user_pages_ok w ms : ms_ok w ms →
  ∃ ms' w', clear_user_pages ms w = Ret (ms', w') ∧ ms_ok w' ms' ∧
    (∀ x, rights ms' x = None) ∧ ∀ x, vm_mapped top w' x = false.
Proof.
  intros Hms. pose proof Hms as [Hw Hm Hu Hlow].
  destruct (munmap_ok w ms LOWER_LIMIT UPPER_LIMIT Hms) as (ms'&w'&Hun&Hms'&Hr&Hmap); [done| | |].
  - by apply cut_ok_fits.
  - intros kv Hkv [_ Hlt]. destruct (area_bound w ms kv Hms Hkv). unfold UPPER_LIMIT in Hlt. lia.
  - unfold munmap in Hun. unfold clear_user_pages. rewrite Hu. cbn [negb].
    unfold mbind, M_bind, mret, M_ret in *. destruct (unmap _ _ _ w) as [[m w1]|]; [|done].
    injection Hun as <- <-. exists (with_map ms m), w1. split; [done|]. split; [done|].
    assert (∀ x, rights (with_map ms m) x = None) as Hnone.
    { intros x. rewrite Hr. destruct (Z.leb_spec LOWER_LIMIT x); [|by apply Hlow].
      destruct (Z.ltb_spec x UPPER_LIMIT); [done|]. simpl. apply (no_rights_above w); [done|].
      unfold UPPER_LIMIT in *. lia. }
    split; [exact Hnone|]. intros x. destruct (vm_mapped top w1 x) eqn:Hx; [|done].
    destruct (ms_map _ _ Hms') as [_ Hcov]. destruct (Hcov x Hx) as [c Hc].
    unfold rights, ram_view in Hnone. by rewrite Hnone in Hc.
Qed.

Lemma drop_memory_set_ok w ms : ms_ok w ms →
  ∃ w', drop_memory_set ms w = Ret (tt, w') ∧ frames_inv R (vw_alloc w') rest.
Proof.
  intros Hms. destruct (clear_user_pages_ok w ms Hms) as (ms'&w1&Hc&Hms'&_&Hno).
  unfold drop_memory_set. step Hc. destruct (vw_inv _ _ _ _ (ms_world _ _ Hms')) as [Hf _].
  rewrite (owned_none w1 Hno) in Hf. simpl in Hf.
  destruct (drop_frames_ok _ _ Hf) as (a'&Hd&Hf'). unfold drop_page_table. rewrite Hd.
  eexists. split; [done|]. done.
Qed.
(** *** A new address space *)

Lemma new_user_ok w : files_ok (F := F) (vw_files w) → frames_inv R (vw_alloc w) rest →
  (∃ ms w', new_user (F := F) w = Ret (ms, w') ∧ ms_ok w' ms ∧ vw_files w' = vw_files w ∧
     (∀ x, rights ms x = None) ∧ ∀ x, vm_mapped top w' x = false) ∨
  (new_user (F := F) w = Panic ∧ ∀ k, free (vw_alloc w) k = false).
Proof.
  intros Hfs Hinv. unfold new_user, new_set.
  destruct (pt_new_spec top Htop R rest (vw_alloc w) (vw_mem w) Hinv)
    as [(pt&al&mem&H1&H2&H3&_)|[H1 H2]]; rewrite H1; [left|by right].
  eexists _, _. split; [done|]. set (w' := mkVmWorld _ _ _ _).
  assert (∀ x, vm_mapped top w' x = false) as Hno.
  { intros x. unfold vm_mapped, E. cbn [w' vw_pt vw_mem]. rewrite H3. by rewrite andb_false_r. }
  split; [|split; [done|split; [done|exact Hno]]]. split; [| |done|done].
  - split; [done| |].
    + rewrite (owned_none w' Hno). exact H2.
    + intros v _. unfold E. cbn [w' vw_pt vw_mem]. rewrite H3. unfold word. lia.
  - split; [by split|]. intros x Hx. exfalso. cbn [mapped segment_spec VmArea_SegmentSpec] in Hx.
    by rewrite Hno in Hx.
Qed.

(** *** The operations on an address space *)

Inductive ms_op :=
| MsMunmap (s e : Z)
| MsMprotect (s e fl : Z)
| MsMmapFixed (s e fl : Z) (backend : option (BackEndFile F))
| MsFault (v access_flags : Z)
| MsAlloc (v : Z).

Inductive ms_resp := MsBool (b : bool) | MsAddr (r : OSResult Z) | MsUnit (r : OSResult unit).

Definition run_ms ms (o : ms_op) : M W (ms_resp * MemorySet) :=
  match o with
  | MsMunmap s e => '(b, ms) ← munmap ms s e; mret (MsBool b, ms)
  | MsMprotect s e fl => '(b, ms) ← MemorySet.mprotect ms s e fl; mret (MsBool b, ms)
  | MsMmapFixed s e fl backend => '(r, ms) ← push_with_backend ms s e fl backend false; mret (MsAddr r, ms)
  | MsFault v acc => '(r, ms) ← handle_page_fault ms v acc; mret (MsUnit r, ms)
  | MsAlloc v => '(r, ms) ← manually_alloc_page ms v; mret (MsUnit r, ms)
  end.

(** Ranges begin and end on pages or where no area is cut. *)
Definition ms_asks ms (o : ms_op) : Prop :=
  match o with
  | MsMunmap s e | MsMprotect s e _ =>
      s < e ∧ cut_fits (W := W) (area_map ms) s ∧ cut_fits (W := W) (area_map ms) e
  | MsMmapFixed s e fl _ => page_range s e ∧ word 8 fl
  | MsFault _ _ | MsAlloc _ => True
  end.

(** What an operation answers and does to the rights and the mapped addresses. *)
Definition ms_does w ms (o : ms_op) (resp : ms_resp) w' ms' : Prop :=
  match o with
  | MsMunmap s e =>
      resp = MsBool true ∧
      (∀ x, rights ms' x = if (s <=? x) && (x <? e) then None else rights ms x) ∧
      ∀ x, vm_mapped top w' x = if (s <=? x) && (x <? e) then false else vm_mapped top w x
  | MsMprotect s e fl =>
      resp = MsBool true ∧
      (∀ x, rights ms' x = if (s <=? x) && (x <? e) then (λ _, wrap8 fl) <$> rights ms x else rights ms x) ∧
      ∀ x, vm_mapped top w' x = vm_mapped top w x
  | MsMmapFixed s e fl _ =>
      if USER_VIRT_ADDR_LIMIT <=? e
      then resp = MsAddr (OsErr MemorySet_UserMmapIntersectWithKernel) ∧ ms' = ms ∧ w' = w
      else resp = MsAddr (OsOk s) ∧
        (∀ x, rights ms' x = if (s <=? x) && (x <? e) then Some fl else rights ms x) ∧
        ∀ x, vm_mapped top w' x = if (s <=? x) && (x <? e) then false else vm_mapped top w x
  | MsFault v acc =>
      (∀ x, rights ms' x = rights ms x) ∧ ∃ r, resp = MsUnit r ∧
      match rights ms v with
      | None => r = OsErr PageFaultHandler_Unhandled ∧ w' = w
      | Some fl => if contains_flags fl acc
                   then fault_done w ms v fl (OsErr PageFaultHandler_TrapAtValidPage) r w'
                   else r = OsErr PageFaultHandler_AccessDenied ∧ w' = w
      end
  | MsAlloc v =>
      (∀ x, rights ms' x = rights ms x) ∧ ∃ r, resp = MsUnit r ∧
      match rights ms v with
      | None => r = OsErr PageFaultHandler_Unhandled ∧ w' = w
      | Some fl => fault_done w ms v fl (OsOk tt) r w'
      end
  end.

(** [mmap] panics when the frames for its tables run out. *)
Definition ms_ran_out w ms (o : ms_op) : Prop :=
  match o with
  | MsMmapFixed s e fl backend =>
      ∃ ms1 w1, munmap ms s e w = Ret ((true, ms1), w1) ∧ map_ran_out w1 (new_area s e fl backend)
  | _ => False
  end.

Lemma run_ms_ok w ms o : ms_ok w ms → ms_asks ms o →
  (∃ resp ms' w', run_ms ms o w = Ret ((resp, ms'), w') ∧ ms_ok w' ms' ∧ ms_does w ms o resp w' ms') ∨
  (run_ms ms o w = Panic ∧ ms_ran_out w ms o).
Proof.
  intros Hms. destruct o as [s e|s e fl|s e fl backend|v acc|v]; cbn [ms_asks run_ms].
  - intros (Hse&Hs&He). left. destruct (munmap_ok w ms s e Hms Hse Hs He) as (ms'&w'&Hr&Hms'&H1&H2).
    exists (MsBool true), ms', w'. split; [by step Hr|by split_and!].
  - intros (Hse&Hs&He). left. destruct (mprotect_ms_ok w ms s e fl Hms Hse Hs He) as (ms'&w'&Hr&Hms'&H1&H2).
    exists (MsBool true), ms', w'. split; [by step Hr|by split_and!].
  - intros [Hr Hfl]. destruct (Z.leb_spec USER_VIRT_ADDR_LIMIT e) as [Hle|Hlt].
    { left. exists (MsAddr (OsErr MemorySet_UserMmapIntersectWithKernel)), ms, w.
      unfold push_with_backend. cbn [negb andb ms_does]. destruct (Z.leb_spec USER_VIRT_ADDR_LIMIT e); [|lia].
      by split_and!. }
    destruct (push_fixed_ok w ms s e fl backend Hms Hr Hlt Hfl) as [(ms'&w'&Hrun&Hms'&H1&H2)|[Hrun Hno]];
      [left|right].
    + exists (MsAddr (OsOk s)), ms', w'. split; [by step Hrun|]. split; [done|]. cbn [ms_does].
      destruct (Z.leb_spec USER_VIRT_ADDR_LIMIT e); [lia|by split_and!].
    + split; [|exact Hno]. unfold mbind, M_bind. by rewrite Hrun.
  - intros _. left. destruct (handle_page_fault_ok w ms v acc Hms) as (r&ms'&w'&Hr&Hms'&H1&H2).
    exists (MsUnit r), ms', w'. split; [by step Hr|]. split; [done|]. split; [done|by exists r].
  - intros _. left. destruct (manually_alloc_page_ok w ms v Hms) as (r&ms'&w'&Hr&Hms'&H1&H2).
    exists (MsUnit r), ms', w'. split; [by step Hr|]. split; [done|]. split; [done|by exists r].
Qed.
(** *** Where the calls leave what they handle *)

Lemma vm_split_inside (area : VmArea F) lo hi k a w : area_ok top w area lo hi → 0 < k < 4096 → k < hi - lo →
  ∃ b r, vm_split area (lo + k) a w = Ret ((mkVmArea lo (lo + k) (vm_flags area) (PmLazy (mkLazy [] b)), r), w).
Proof.
  intros [[Hs He] [Hlo Hhi] Hb Hfl (p&Hp&Hlen&_)] Hk Hkh.
  unfold vm_split. cbn [vm_start vm_end vm_flags vm_pma]. rewrite Hp, Hs, He. cbn [pm_split].
  replace (lo + k - lo) with k by lia. rewrite (wrap_small 64 k) by (unfold word; lia).
  destruct (lazy_split_ok R p 0 k w) as [b Hsplit]; [dlia|lia|]. rewrite drop_0, take_0 in Hsplit.
  assert (vm_new (lo + k) hi (vm_flags area) (PmLazy (mkLazy (lz_frames p) b))
    = OsOk (mkVmArea lo hi (vm_flags area) (PmLazy (mkLazy (lz_frames p) b)))) as Hnew.
  { unfold vm_new. destruct (Z.leb_spec hi (lo + k)); [lia|].
    rewrite align_down_div by (unfold word; lia). rewrite align_up_div by lia.
    replace ((lo + k) / 4096 * 4096) with lo by dlia. replace ((hi + 4095) / 4096 * 4096) with hi by dlia.
    cbn [pm_size]. rewrite wrap_small by (unfold word; lia). rewrite lazy_size_small by (cbn [lz_frames]; lia).
    cbn [lz_frames]. by destruct (Z.eqb_spec (hi - lo) (Z.of_nat (length (lz_frames p)) * 4096)); [|lia]. }
  unfold mbind at 1, M_bind at 1. unfold mbind at 1, M_bind at 1. rewrite Hsplit.
  cbn beta iota. unfold mret at 1, M_ret at 1. cbn beta iota. unfold mbind at 1, M_bind at 1, os_unwrap at 1.
  unfold mbind at 1, M_bind at 1, os_unwrap. rewrite Hnew. by eexists _, _.
Qed.

Lemma vm_remove_empty lo k fl b a w : lo mod 4096 = 0 → 0 <= lo → lo + 4096 < 2 ^ 64 → 0 < k < 4096 →
  vm_remove (mkVmArea lo (lo + k) fl (PmLazy (F := F) (mkLazy [] b))) a w = Panic.
Proof.
  intros Hlo Hlo0 Hlo1 Hk. unfold vm_remove, unmap_area, unmap_area_partial, step_pages, PAGE_SIZE. cbn [vm_start vm_end vm_pma].
  replace ((lo + k - lo + 4096 - 1) / 4096) with 1 by dlia. cbn [seqZ fmap list_fmap].
  unfold mbind at 1, M_bind at 1. change (seqZ 0 1) with [0]. cbn [fmap list_fmap foldMR].
  unfold mbind at 1, M_bind at 1. unfold mbind at 1, M_bind at 1. cbn [pm_release_frame].
  unfold mbind at 1, M_bind at 1. unfold lazy_release_frame at 1, mbind at 1, M_bind at 1, lift at 1.
  cbn [lz_frames]. unfold index. by destruct (_ <? 0).
Qed.

Lemma munmap_inside_ok w (area : VmArea F) lo hi k a u : area_ok top w area lo hi → 0 < k < 4096 → k < hi - lo →
  munmap (mkMemorySet (mkRAM [(lo, mkArea lo hi area)] a) u) lo (lo + k) w = Panic.
Proof.
  intros Har Hk Hkh. destruct (vm_split_inside area lo hi k a w Har Hk Hkh) as (b&r&Hsp).
  destruct Har as [_ [Hlo Hhi] Hb _ _].
  unfold munmap, unmap, bt_drain_filter. cbn [area_map segments args].
  assert (is_overlap_with (mkArea lo hi area) lo (lo + k) = true) as Hov
    by (unfold is_overlap_with; cbn [start end_]; zcases).
  rewrite !filter_cons, !filter_nil. cbn [snd]. rewrite Hov.
  destruct (decide (true = true)); [|done]. destruct (decide (true = false)); [done|].
  cbn [fmap list_fmap snd foldMW]. unfold mbind at 1, M_bind at 1. unfold mbind at 1, M_bind at 1.
  unfold mbind at 1, M_bind at 1. unfold unmap_body, mbind at 1, M_bind at 1, shrink_or_split_if_overlap.
  cbn [start end_ segment].
  destruct (Z.leb_spec (lo + k) lo), (Z.leb_spec hi lo), (Z.leb_spec lo lo), (Z.leb_spec hi (lo + k)),
    (Z.ltb_spec lo lo), (Z.ltb_spec (lo + k) hi); try lia. cbn [andb orb].
  unfold mbind at 1, M_bind at 1. unfold shrink_to_right. cbn [seg_split seg_remove VmArea_Segment].
  unfold mbind at 1, M_bind at 1. rewrite Hsp. cbn beta iota. unfold mbind at 1, M_bind at 1.
  rewrite vm_remove_empty by (done || lia). done.
Qed.
Lemma mmap_area_lengths n fl backend s w : 0 <= s → n = 0 ∨ 2 ^ 32 < n < 2 ^ 63 → s < 2 ^ 63 → mmap_area n fl backend s w = Panic.
Proof.
  intros Hs Hn Hs'. unfold mmap_area. rewrite (wrap_small 64 (n + s)) by (unfold word; lia).
  replace (n + s - s) with n by lia. rewrite wrap_small by (unfold word; lia).
  unfold lazy_new. rewrite page_count_div by lia. change (page_count USER_VIRT_ADDR_LIMIT) with 1048576.
  destruct Hn as [->|Hn]; [done|].
  destruct (Z.eqb_spec ((n + 4095) / 4096) 0); [done|].
  by destruct (Z.ltb_spec 1048576 ((n + 4095) / 4096)); [|dlia].
Qed.

Lemma msync_untouched w (area : VmArea F) lo hi e a u p b : area_ok top w area lo hi → lo < e →
  vm_pma area = PmLazy p → lz_backend p = Some b → lz_frames p !! 0%nat = Some None → e < 2 ^ 63 →
  msync_areas (mkMemorySet (mkRAM [(lo, mkArea lo hi area)] a) u) lo e w = Panic.
Proof.
  intros [[Hs He] [Hlo Hhi] Hb _ _] Hle Hp Hbk Hslot Hov. unfold msync_areas, iter.
  cbn [area_map segments fmap list_fmap snd segment].
  assert (vm_is_overlap_with area lo e = true) as Hover.
  { unfold vm_is_overlap_with. rewrite Hs, He, align_down_div by (unfold word; lia). rewrite align_up_div by lia.
    destruct (Z.leb_spec hi (lo / 4096 * 4096)); [dlia|]. destruct (Z.leb_spec ((e + 4095) / 4096 * 4096) lo); [dlia|done]. }
  rewrite filter_cons, filter_nil, Hover. destruct (decide (true = true)); [|done].
  cbn [foldMW]. unfold mbind at 1, M_bind at 1. unfold mbind at 1, M_bind at 1. unfold vm_msync.
  rewrite Hs, He, Z.max_id, Hp. unfold step_pages.
  rewrite seqZ_cons by (unfold PAGE_SIZE; dlia). cbn [fmap list_fmap foldMW pm_sync_frame_with_file].
  unfold mbind at 1, M_bind at 1. unfold vm_page. rewrite Hs. replace (lo + 0 * PAGE_SIZE - lo) with 0 by lia.
  unfold lazy_sync_frame_with_file. rewrite Hbk. change (wrap64 0 / PAGE_SIZE) with (Z.of_nat 0).
  unfold mbind at 1, M_bind at 1, lift at 1. by rewrite (index_nat _ _ _ Hslot).
Qed.
End memory_set_spec.

(** ** A file of bytes and a small machine, for the witnesses *)
Module Small.
Export Machine.

#[export] Instance machine_pt_ok : PtConfigOk KernelConfig (CAP (Tower 0)).
Proof. split; [done|vm_compute; congruence|done]. Qed.

(** One file, its content the state; reads past the end are short. *)
Definition byte_read (_ : unit) (pos : Z) (buf : list Z) : M (list Z) (option Z * list Z) := λ d,
  let bs := bytes_at pos (len buf) d in Ret ((Some (len bs), splice 0 bs buf), d).
Definition byte_write (_ : unit) (pos : Z) (buf : list Z) : M (list Z) (option Z) := λ d,
  Ret (Some (len buf), splice pos buf d).

#[export] Instance byte_file : File (list Z) unit := {|
  file_read _ buf := mret (None, buf); file_write _ _ := mret None; file_seek _ _ := mret None;
  file_read_from_offset := byte_read; file_write_to_offset := byte_write |}.

#[export, program] Instance byte_files_ok : FilesOk (list Z) unit := { files_ok _ := True }.
Next Obligation. intros f pos buf d _. eexists _, _, _. split; [done|]. split; [done|apply len_splice]. Qed.
Next Obligation. intros f pos buf d _. by eexists _, _. Qed.

(** Sixteen free frames. *)
Definition world0 : VmWorld (Tower 0) (list Z) :=
  mkVmWorld (from_root 0) machine_alloc (λ _, 7) [1; 2; 3].

Lemma world0_frames : frames_inv first_16 (vw_alloc world0) [].
Proof. exact machine_frames. Qed.

Lemma world0_files : files_ok (F := unit) (vw_files world0).
Proof. exact I. Qed.

(** A user space after some operations. *)
Definition after (l : list (ms_op (F := unit))) : M (VmWorld (Tower 0) (list Z)) (MemorySet (F := unit)) :=
  ms ← new_user; foldMW (λ ms o, '(_, ms) ← run_ms ms o; mret ms) ms l.

Definition returns {X} (o : outcome X) : bool := match o with Ret _ => true | Panic => false end.
End Small.
Import Small.

(** ** Properties *)

Section properties.
Context {A : Type} {ops : BitAlloc A} {V : BitAllocView A} {BS : BitAllocSpec A}.
Context {cfg : PageFrameConfig} {CO : ConfigOk cfg (CAP A)} {PCO : PtConfigOk cfg (CAP A)}.
Context {FW F : Type} {HF : File FW F} {FO : FilesOk FW F}.
Context {SB : StaleBytes}.
Context (top : Z) (Htop : 0 < top <= 512) (R : Z → bool) (rest : list Frame).
Implicit Types w : VmWorld A FW.
Implicit Types ms : MemorySet (F := F).

(** C2. A user address space implements a map from addresses to rights and a
    set of mapped addresses. A new space is empty. On every well-formed space
    [munmap], [mprotect], [mmap] with [MAP_FIXED], a page fault and
    [manually_alloc_page] do to both maps what they are asked and nothing
    else: [munmap] empties its range, [mprotect] changes the rights of what
    the range holds, [mmap] gives its range the rights asked for and leaves it
    unmapped, a fault maps the one page to a frame of its own with the rights
    of its area, or answers why not, and changes nothing then. The space stays
    well-formed: areas and page table agree page by page and each frame has
    one owner. The only panic is [mmap] without frames for its tables. *)
Theorem address_space_refines_map :
  (∀ fr, len (stale fr) = PAGE_SIZE) →
  (∀ w, files_ok (F := F) (vw_files w) → frames_inv R (vw_alloc w) rest →
     (∃ ms w', new_user (F := F) w = Ret (ms, w') ∧ ms_ok top Htop R rest w' ms ∧ vw_files w' = vw_files w ∧
        (∀ x, rights top Htop R rest ms x = None) ∧ ∀ x, vm_mapped top w' x = false) ∨
     (new_user (F := F) w = Panic ∧ ∀ k, free (vw_alloc w) k = false)) ∧
  (∀ w ms o, ms_ok top Htop R rest w ms → ms_asks top Htop R rest ms o →
     (∃ resp ms' w', run_ms ms o w = Ret ((resp, ms'), w') ∧ ms_ok top Htop R rest w' ms' ∧
        ms_does top Htop R rest w ms o resp w' ms') ∨
     (run_ms ms o w = Panic ∧ ms_ran_out w ms o)).
Proof.
  intros Hst. split; [intros w; by apply new_user_ok|intros w ms o; by apply run_ms_ok].
Qed.

(** [mmap] without [MAP_FIXED] takes an address not below the hint where
    the space holds nothing (the lowest, by the search of the range map), and
    when the user's lines reach that far gives exactly that range the rights
    asked for, mapping and losing nothing; or memory for the tables ran out
    and it panics. *)
Theorem mmap_takes_free_range w ms (hint n fl p : Z) (backend : option (BackEndFile F)) :
  ms_ok top Htop R rest w ms → 0 <= hint → hint mod 4096 = 0 → n mod 4096 = 0 → 0 < n <= 2 ^ 32 →
  Z.max hint LOWER_LIMIT + n < 2 ^ 64 → word 8 fl →
  find_free_area (area_map ms) hint n = Some p → p + n <= top * 2 ^ 30 →
  hint <= p ∧ (∀ x, p <= x < p + n → rights top Htop R rest ms x = None) ∧
  ((∃ ms' w', push_with_backend ms hint (hint + n) fl backend true w = Ret ((OsOk p, ms'), w') ∧
      ms_ok top Htop R rest w' ms' ∧
      (∀ x, rights top Htop R rest ms' x =
         if (p <=? x) && (x <? p + n) then Some fl else rights top Htop R rest ms x) ∧
      ∀ x, vm_mapped top w' x = vm_mapped top w x) ∨
   (push_with_backend ms hint (hint + n) fl backend true w = Panic ∧
    map_ran_out w (new_area p (p + n) fl backend))).
Proof. apply push_anywhere_ok. Qed.

(** C10. The end of an address space: [Drop for MemorySet] and the drop of the
    page table give every frame back: after it the frames in use are those of
    everything else. *)
Theorem exit_returns_frames w ms : ms_ok top Htop R rest w ms →
  ∃ w', drop_memory_set ms w = Ret (tt, w') ∧ frames_inv R (vw_alloc w') rest.
Proof. apply drop_memory_set_ok. Qed.

(** [munmap] of a range that ends inside a page panics: the area is cut at
    an address that is no page boundary, the left part gets a range of one
    page but no frame, and unmapping it indexes past its frames.  The system
    call passes [start + len] as it is. *)
Theorem munmap_inside_page_panics w (area : VmArea F) (lo hi k a : Z) (u : bool) :
  area_ok top w area lo hi → 0 < k < 4096 → k < hi - lo →
  munmap (mkMemorySet (mkRAM [(lo, mkArea lo hi area)] a) u) lo (lo + k) w = Panic.
Proof. by apply munmap_inside_ok. Qed.
End properties.

Lemma small_top : 0 < 4 <= 512.
Proof. lia. Qed.

(** After [mmap] of [0x1000, 0x3000) by hand, reading and writing. *)
Lemma address_space_refines_map_witness :
  match new_user (F := unit) world0 with
  | Ret (ms, w) =>
      ms_ok 4 small_top first_16 [] w ms ∧
      match run_ms ms (MsMmapFixed 0x1000 0x3000 0x16 None) w with
      | Ret ((resp, ms'), w') => resp = MsAddr (OsOk 0x1000) ∧ ms_ok 4 small_top first_16 [] w' ms' ∧
          ∃ resp' ms'' w'', run_ms ms' (MsFault 0x2010 0x12) w' = Ret ((resp', ms''), w'') ∧
            ms_does 4 small_top first_16 [] w' ms' (MsFault 0x2010 0x12) resp' w'' ms''
      | Panic => False
      end
  | Panic => False
  end.
Proof.
  destruct (address_space_refines_map (A := Tower 0) (FW := list Z) (F := unit) 4 small_top first_16 []) as [Hnew Hops];
    [intros fr; by vm_compute|].
  destruct (Hnew world0 world0_files world0_frames) as [(ms&w&H1&H2&_)|[_ Hno]];
    [|specialize (Hno 0); vm_compute in Hno; congruence].
  assert (returns (after [MsMmapFixed 0x1000 0x3000 0x16 None] world0) = true) as Hret by by vm_compute.
  unfold after in Hret. rewrite H1. split; [exact H2|].
  destruct (Hops w ms (MsMmapFixed 0x1000 0x3000 0x16 None) H2) as [(resp&ms'&w'&H3&H4&H5)|[H3 _]].
  - split; [|unfold word; lia]. split; [done|]. split; [done|]. unfold LOWER_LIMIT. lia.
  - rewrite H3. split; [exact (proj1 H5)|]. split; [exact H4|].
    destruct (Hops w' ms' (MsFault 0x2010 0x12) H4 I) as [(resp'&ms''&w''&H6&_&H7)|[_ []]].
    exists resp', ms'', w''. split; [exact H6|exact H7].
  - exfalso. unfold mbind, M_bind in Hret. rewrite H1 in Hret. cbn [foldMW] in Hret.
    unfold mbind, M_bind in Hret. rewrite H3 in Hret. discriminate Hret.
Defined.

(** A new space of the small machine. *)
Lemma small_space : ∃ ms w, new_user (A := Tower 0) (F := unit) world0 = Ret (ms, w) ∧
  ms_ok 4 small_top first_16 [] w ms ∧ find_free_area (area_map ms) 0x5000 0x2000 = Some 0x5000.
Proof.
  destruct (new_user_ok (A := Tower 0) (FW := list Z) (F := unit) 4 small_top first_16 [] world0 world0_files world0_frames)
    as [(ms&w&H1&H2&_)|[_ Hno]]; [|specialize (Hno 0); vm_compute in Hno; congruence].
  exists ms, w. split; [exact H1|]. split; [exact H2|].
  assert (match new_user (A := Tower 0) (F := unit) world0 with
    | Ret (ms, _) => find_free_area (area_map ms) 0x5000 0x2000 | Panic => None end = Some 0x5000) as Hf
    by by vm_compute.
  by rewrite H1 in Hf.
Qed.

Lemma mmap_takes_free_range_witness :
  ∃ ms w, new_user (A := Tower 0) (F := unit) world0 = Ret (ms, w) ∧
    0x5000 <= 0x5000 ∧ (∀ x, 0x5000 <= x < 0x7000 → rights 4 small_top first_16 [] ms x = None).
Proof.
  destruct small_space as (ms&w&H1&H2&H3). exists ms, w. split; [exact H1|].
  destruct (mmap_takes_free_range 4 small_top first_16 [] w ms 0x5000 0x2000 0x16 0x5000 None H2)
    as (H4&H5&_); [lia|done|done|lia|unfold LOWER_LIMIT; lia|unfold word; lia|exact H3|lia|].
  split; [exact H4|exact H5].
Defined.

Lemma exit_returns_frames_witness :
  ∃ ms w w', new_user (A := Tower 0) (F := unit) world0 = Ret (ms, w) ∧
    drop_memory_set ms w = Ret (tt, w') ∧ frames_inv first_16 (vw_alloc w') [].
Proof.
  destruct small_space as (ms&w&H1&H2&_). exists ms, w.
  destruct (exit_returns_frames 4 small_top first_16 [] w ms H2) as (w'&H3&H4).
  exists w'. split; [exact H1|split; [exact H3|exact H4]].
Defined.

(** Two pages are mapped and the first byte of the second is unmapped. *)
Lemma munmap_inside_page_panics_witness :
  ∃ w, munmap (A := Tower 0) (mkMemorySet (mkRAM [(0x1000, mkArea 0x1000 0x3000 (new_area (F := unit) 0x1000 0x3000 0x16 None))] 0) true)
    0x1000 0x1001 w = Panic.
Proof.
  destruct small_space as (ms&w&H1&H2&_).
  destruct (mmap_area_ok (A := Tower 0) (FW := list Z) 4 small_top first_16 [] w 0x1000 0x3000 0x16 (None : option (BackEndFile unit)) (ms_world _ _ _ _ _ _ H2))
    as [(w'&_&_&Har&_)|[Hp _]].
  - split_and!; done || lia.
  - lia.
  - unfold word. lia.
  - intros x Hx. destruct (new_user_ok (A := Tower 0) (FW := list Z) (F := unit) 4 small_top first_16 [] world0 world0_files world0_frames)
      as [(ms2&w2&H3&_&_&_&H4)|[Hno _]]; rewrite H1 in *; [|discriminate Hno]. injection H3 as <- <-. apply H4.
  - exists w'. exact (munmap_inside_page_panics 4 small_top first_16 w' _ 0x1000 0x3000 1 0 true Har ltac:(lia) ltac:(lia)).
  - exfalso. assert (returns ((new_user (A := Tower 0) (F := unit) ≫= λ ms, mmap_area (F := unit) (0x3000 - 0x1000) 0x16 None 0x1000) world0) = true)
      as Hret by by vm_compute. unfold mbind, M_bind in Hret. rewrite H1, Hp in Hret. discriminate Hret.
Defined.
