(* ===== verification/TicketLock.v ===== *)
(** * The kernel's mutex (dependencies/kernel-sync, feature [ticket])

    [interrupt.rs]: the nesting of interrupt-free sections of a core, and
    [ticket.rs]: [TicketMutex], as atomic steps of cores that share its two
    counters.  Atomic operations take effect one after the other. *)

From S2P Require Import Prelude.

(** ** [interrupt.rs] *)

(** [Cpu] and the interrupt bit of the core's [sstatus]. *)
Record Cpu := mkCpu { noff : Z; interrupt_enable : bool; sie : bool }.

#[export] Instance Cpu_eq_dec : EqDecision Cpu.
Proof. solve_decision. Defined.

Definition push_off (c : Cpu) : Cpu :=
  mkCpu (noff c + 1) (if noff c =? 0 then sie c else interrupt_enable c) false.

Definition pop_off (c : Cpu) : outcome Cpu :=
  if sie c || (noff c <? 1) then Panic
  else
    let n := noff c - 1 in
    let should_enable := (n =? 0) && interrupt_enable c in
    Ret (mkCpu n (interrupt_enable c) (should_enable || sie c)).

(** ** [ticket.rs] *)

(** Where a core is: outside; in the spin loop of [lock] with its ticket; in
    the [fetch_update] of [try_lock] before the first load, with the loaded
    ticket, and with the closure's answer [Some]; with the guard. *)
Inductive tpoint :=
| Outside
| Waiting (ticket : Z)
| TryStart
| TryLoaded (ticket : Z)
| TryMatched (ticket : Z)
| Holding (ticket : Z)
| Panicked.

#[export] Instance tpoint_eq_dec : EqDecision tpoint.
Proof. solve_decision. Defined.

Record Core := mkCore { cpu : Cpu; at_ : tpoint }.

Record TicketMutex := mkTicket { next_ticket : Z; next_serving : Z; cores : list Core }.

Implicit Types m : TicketMutex.

Definition ticket_new (l : list Core) : TicketMutex := mkTicket 0 0 l.

Definition goto m (i : nat) (c : Core) : TicketMutex :=
  mkTicket (next_ticket m) (next_serving m) (<[i := c]> (cores m)).

(** Leaving the critical section or giving up. *)
Definition leave (c : Cpu) : Core :=
  match pop_off c with Ret c' => mkCore c' Outside | Panic => mkCore c Panicked end.

(** The atomic steps of a core: [lock] up to its ticket, one turn of its spin
    loop, [drop] of the guard; [try_lock] up to its first load, the load, the
    closure of [fetch_update], the weak compare-exchange (which may fail for
    no reason). *)
Inductive tact :=
| ALock | ASpin | ADrop
| ATry | ATryLoad | ATryCheck | ATryCas (spurious : bool).

(** What each does for core [i], now at [c]. *)
Section acts.
Context (m : TicketMutex) (i : nat) (c : Core).

Definition lock_take : TicketMutex :=
  let ticket := next_ticket m in
  mkTicket (wrap64 (ticket + 1)) (next_serving m) (<[i := mkCore (push_off (cpu c)) (Waiting ticket)]> (cores m)).

Definition lock_spin (ticket : Z) : TicketMutex :=
  if next_serving m =? ticket then goto m i (mkCore (cpu c) (Holding ticket)) else m.

Definition drop_guard (ticket : Z) : TicketMutex :=
  let new_ticket := wrap64 (ticket + 1) in
  mkTicket (next_ticket m) new_ticket (<[i := leave (cpu c)]> (cores m)).

Definition try_lock_start : TicketMutex := goto m i (mkCore (push_off (cpu c)) TryStart).
Definition try_lock_load : TicketMutex := goto m i (mkCore (cpu c) (TryLoaded (next_ticket m))).

Definition try_lock_check (ticket : Z) : TicketMutex :=
  if next_serving m =? ticket then goto m i (mkCore (cpu c) (TryMatched ticket)) else goto m i (leave (cpu c)).

Definition try_lock_cas (spurious : bool) (ticket : Z) : TicketMutex :=
  if negb spurious && (next_ticket m =? ticket)
  then mkTicket (wrap64 (ticket + 1)) (next_serving m) (<[i := mkCore (cpu c) (Holding ticket)]> (cores m))
  else goto m i (mkCore (cpu c) (TryLoaded (next_ticket m))).
End acts.

(** [None] when the act is not the next one of the core. *)
Definition core_act m (i : nat) (a : tact) : option TicketMutex :=
  c ← cores m !! i;
  match a, at_ c with
  | ALock, Outside => Some (lock_take m i c)
  | ASpin, Waiting ticket => Some (lock_spin m i c ticket)
  | ADrop, Holding ticket => Some (drop_guard m i c ticket)
  | ATry, Outside => Some (try_lock_start m i c)
  | ATryLoad, TryStart => Some (try_lock_load m i c)
  | ATryCheck, TryLoaded ticket => Some (try_lock_check m i c ticket)
  | ATryCas spurious, TryMatched ticket => Some (try_lock_cas m i c spurious ticket)
  | _, _ => None
  end.

Definition tstep m m' : Prop := ∃ i a, core_act m i a = Some m'.

(** A run of given acts of given cores. *)
Fixpoint run_acts m (l : list (nat * tact)) : option TicketMutex :=
  match l with
  | [] => Some m
  | (i, a) :: l' => m' ← core_act m i a; run_acts m' l'
  end.

(** [is_locked] is two loads: [m1] is the mutex at the load of [next_ticket],
    [m2] at the load of [next_serving].  Other cores move in between, and
    relaxed loads of two addresses may take effect in either order. *)
Definition is_locked (m1 m2 : TicketMutex) : bool :=
  let ticket := next_ticket m1 in
  negb (next_serving m2 =? ticket).

(** ** Correctness of the ticket mutex

    The tickets in the hands of cores are exactly those from [next_serving] up
    to [next_ticket], one core each; mutual exclusion, first come first served
    and the absence of deadlock follow. *)

Implicit Types c : Core.

Definition ticket_of (p : tpoint) : option Z :=
  match p with Waiting t | Holding t => Some t | _ => None end.

(** Core [i] has ticket [t]. *)
Definition has_ticket m (i : nat) (t : Z) : Prop :=
  ∃ c, cores m !! i = Some c ∧ ticket_of (at_ c) = Some t.

(** The tickets in circulation, after at most [n] steps. *)
Record tickets_ok (n : Z) m : Prop := {
  ti_bounds : 0 <= next_serving m <= next_ticket m ∧ next_ticket m <= n;
  ti_range i t : has_ticket m i t → next_serving m <= t < next_ticket m;
  ti_inj i j t : has_ticket m i t → has_ticket m j t → i = j;
  ti_all t : next_serving m <= t < next_ticket m → ∃ i, has_ticket m i t }.

(** A core whose interrupts were [b] outside, when [serving] is served. *)
Definition core_ok (serving : Z) (b : bool) c : Prop :=
  match at_ c with
  | Outside => noff (cpu c) = 0 ∧ sie (cpu c) = b
  | Panicked => False
  | p => noff (cpu c) = 1 ∧ sie (cpu c) = false ∧ interrupt_enable (cpu c) = b ∧
         match p with Holding t => t = serving | TryMatched t => t <= serving | _ => True end
  end.

Definition cores_ok m (bs : list bool) : Prop :=
  ∀ i c, cores m !! i = Some c → ∃ b, bs !! i = Some b ∧ core_ok (next_serving m) b c.

(** ** Updating one core *)

Section update.
Context (m : TicketMutex) (i : nat) (c0 : Core) (Hi : cores m !! i = Some c0).

Lemma has_ticket_at c nt ns j t : has_ticket (mkTicket nt ns (<[i := c]> (cores m))) j t ↔
  (j = i ∧ ticket_of (at_ c) = Some t) ∨ (j ≠ i ∧ has_ticket m j t).
Proof.
  unfold has_ticket. cbn [cores]. pose proof (lookup_lt_Some _ _ _ Hi) as Hlt. split.
  - intros (c'&Hc&Ht). apply list_lookup_insert_Some in Hc as [(<-&<-&_)|[Hne Hc]]; [by left|].
    right. split; [done|by exists c'].
  - intros [[-> Ht]|[Hne (c'&Hc&Ht)]].
    + exists c. by rewrite list_lookup_insert_eq.
    + exists c'. by rewrite list_lookup_insert_ne.
Qed.

Lemma has_ticket_here t : has_ticket m i t ↔ ticket_of (at_ c0) = Some t.
Proof. unfold has_ticket. rewrite Hi. split; [intros (c&[= <-]&?); done|by exists c0]. Qed.

Lemma cores_ok_at c nt ns bs b : cores_ok m bs → bs !! i = Some b → core_ok ns b c →
  (∀ j c' b', j ≠ i → cores m !! j = Some c' → core_ok (next_serving m) b' c' → core_ok ns b' c') →
  cores_ok (mkTicket nt ns (<[i := c]> (cores m))) bs.
Proof.
  intros Hok Hb Hc Hother j c' Hj. cbn [cores next_serving] in *.
  apply list_lookup_insert_Some in Hj as [(<-&<-&_)|[Hne Hj]]; [by exists b|].
  destruct (Hok j c' Hj) as (b'&Hb'&Hc'). exists b'. split; [done|]. by apply (Hother j).
Qed.

(** The core keeps what it has. *)
Lemma tickets_keep n c : tickets_ok n m → ticket_of (at_ c) = ticket_of (at_ c0) →
  tickets_ok n (goto m i c).
Proof.
  intros [Hb Hr Hinj Hall] Heq. unfold goto.
  assert (∀ j t, has_ticket (mkTicket (next_ticket m) (next_serving m) (<[i:=c]> (cores m))) j t ↔ has_ticket m j t) as Hsame.
  { intros j t. rewrite has_ticket_at, Heq, <- has_ticket_here.
    destruct (decide (j = i)) as [Heqj|]; [rewrite Heqj|]; intuition congruence. }
  split; cbn [next_ticket next_serving]; [done| | |].
  - intros j t. rewrite Hsame. apply Hr.
  - intros j k t. rewrite !Hsame. apply Hinj.
  - intros t Ht. destruct (Hall t Ht) as [j Hj]. exists j. by apply Hsame.
Qed.

(** The core takes the next ticket. *)
Lemma tickets_take n c : tickets_ok n m → ticket_of (at_ c0) = None →
  ticket_of (at_ c) = Some (next_ticket m) →
  tickets_ok (n + 1) (mkTicket (next_ticket m + 1) (next_serving m) (<[i := c]> (cores m))).
Proof.
  intros [Hb Hr Hinj Hall] H0 Hc. split; cbn [next_ticket next_serving]; [lia| | |].
  - intros j t [[-> Ht]|[_ Ht%Hr]]%has_ticket_at; [|lia]. rewrite Hc in Ht. injection Ht as <-. lia.
  - intros j k t [[-> Ht]|[_ Ht]]%has_ticket_at [[-> Hu]|[_ Hu]]%has_ticket_at; [done| | |by apply (Hinj j k t)];
      rewrite Hc in *; simplify_eq; [apply Hr in Hu|apply Hr in Ht]; lia.
  - intros t Ht. destruct (decide (t = next_ticket m)) as [->|].
    + exists i. apply has_ticket_at. by left.
    + destruct (Hall t) as [j Hj]; [lia|]. exists j. apply has_ticket_at. right. split; [|done].
      intros ->. apply has_ticket_here in Hj. congruence.
Qed.

(** The core gives up the ticket that is served. *)
Lemma tickets_give n c : tickets_ok n m → ticket_of (at_ c0) = Some (next_serving m) →
  ticket_of (at_ c) = None →
  tickets_ok n (mkTicket (next_ticket m) (next_serving m + 1) (<[i := c]> (cores m))).
Proof.
  intros [Hb Hr Hinj Hall] H0 Hc. apply has_ticket_here in H0. pose proof (Hr _ _ H0).
  split; cbn [next_ticket next_serving]; [lia| | |].
  - intros j t [[-> Ht]|[Hne Ht]]%has_ticket_at; [congruence|]. pose proof (Hr _ _ Ht).
    destruct (decide (t = next_serving m)) as [->|]; [|lia]. exfalso. by apply Hne, (Hinj _ _ (next_serving m)).
  - intros j k t [[-> Ht]|[_ Ht]]%has_ticket_at [[-> Hu]|[_ Hu]]%has_ticket_at; try congruence. by apply (Hinj j k t).
  - intros t Ht. destruct (Hall t) as [j Hj]; [lia|]. exists j. apply has_ticket_at. right. split; [|done].
    intros ->. pose proof (Hinj _ _ _ Hj Hj). apply has_ticket_here in Hj, H0. rewrite Hj in H0. simplify_eq. lia.
Qed.
End update.

(** ** Steps *)

Lemma leave_ok b c n : noff (cpu c) = 1 → sie (cpu c) = false → interrupt_enable (cpu c) = b →
  core_ok n b (leave (cpu c)) ∧ at_ (leave (cpu c)) = Outside.
Proof.
  destruct c as [[k e s] p]. cbn [cpu noff sie interrupt_enable]. intros -> -> ->.
  unfold leave, pop_off. cbn. unfold core_ok. cbn. by destruct b.
Qed.

Lemma push_ok b c : noff (cpu c) = 0 → sie (cpu c) = b →
  noff (push_off (cpu c)) = 1 ∧ sie (push_off (cpu c)) = false ∧ interrupt_enable (push_off (cpu c)) = b.
Proof. destruct c as [[k e s] p]. cbn. intros -> ->. by cbn. Qed.

Definition mutex_ok (n : Z) (bs : list bool) m : Prop := tickets_ok n m ∧ cores_ok m bs.

Lemma tickets_weaken n m : tickets_ok n m → tickets_ok (n + 1) m.
Proof. intros [Hb Hr Hi Ha]. split; try done. lia. Qed.

Lemma goto_ok n bs m i c0 c : mutex_ok n bs m → cores m !! i = Some c0 → ticket_of (at_ c) = ticket_of (at_ c0) →
  (∀ b, core_ok (next_serving m) b c0 → core_ok (next_serving m) b c) → mutex_ok (n + 1) bs (goto m i c).
Proof.
  intros [Ht Hc] Hi Heq Hcore. split; [by apply tickets_weaken, (tickets_keep m i c0)|].
  destruct (Hc i c0 Hi) as (b&Hb&Hok). apply (cores_ok_at m i) with b; try done. by apply Hcore.
Qed.

Lemma take_ok n bs m i c0 c : mutex_ok n bs m → cores m !! i = Some c0 → ticket_of (at_ c0) = None →
  ticket_of (at_ c) = Some (next_ticket m) → n + 1 < 2 ^ 64 →
  (∀ b, core_ok (next_serving m) b c0 → core_ok (next_serving m) b c) →
  mutex_ok (n + 1) bs (mkTicket (wrap64 (next_ticket m + 1)) (next_serving m) (<[i := c]> (cores m))).
Proof.
  intros [Ht Hc] Hi H0 H1 Hn Hcore. pose proof (ti_bounds _ _ Ht).
  rewrite wrap_small by (unfold word; lia). split; [by apply (tickets_take m i c0)|].
  destruct (Hc i c0 Hi) as (b&Hb&Hok). apply (cores_ok_at m i) with b; try done. by apply Hcore.
Qed.

Lemma give_ok n bs m i c0 t : mutex_ok n bs m → cores m !! i = Some c0 → at_ c0 = Holding t → n + 1 < 2 ^ 64 →
  mutex_ok (n + 1) bs (mkTicket (next_ticket m) (wrap64 (t + 1)) (<[i := leave (cpu c0)]> (cores m))).
Proof.
  intros [Ht Hc] Hi H0 Hn. pose proof (ti_bounds _ _ Ht). destruct (Hc i c0 Hi) as (b&Hb&Hok).
  unfold core_ok in Hok. rewrite H0 in Hok. destruct Hok as (H1&H2&H3&->).
  rewrite wrap_small by (unfold word; lia). destruct (leave_ok b c0 (next_serving m + 1) H1 H2 H3) as [Hl Ho].
  assert (has_ticket m i (next_serving m)) as Hhas by (exists c0; by rewrite H0).
  split; [apply tickets_weaken, (tickets_give m i c0); [done|done|by rewrite H0|by rewrite Ho]|].
  apply (cores_ok_at m i) with b; try done. intros j c b' Hne Hj Hcj.
  unfold core_ok in *. destruct (at_ c) as [|u| |u|u|u|] eqn:Hat; try done.
  - destruct Hcj as (?&?&?&?). split_and!; try done. lia.
  - destruct Hcj as (_&_&_&->). exfalso. apply Hne. apply (ti_inj _ _ Ht _ _ (next_serving m)); [|done].
    exists c. by rewrite Hat.
Qed.

Lemma act_ok n bs m i a m' : mutex_ok n bs m → n + 1 < 2 ^ 64 → core_act m i a = Some m' → mutex_ok (n + 1) bs m'.
Proof.
  intros Hok Hn. unfold core_act. destruct (cores m !! i) as [c|] eqn:Hi; [|done]. cbn [mbind option_bind].
  unfold lock_take, lock_spin, drop_guard, try_lock_start, try_lock_load, try_lock_check, try_lock_cas.
  pose proof Hok as [Ht Hc]. destruct a, (at_ c) as [|t| |t|t|t|] eqn:Hat; try done.
  - intros [= <-]. apply (take_ok _ _ _ _ c); try done; [by rewrite Hat|]. intros b. unfold core_ok. rewrite Hat.
    cbn [at_ cpu]. intros [H1 H2]. destruct (push_ok b c H1 H2) as (?&?&?). by split_and!.
  - destruct (Z.eqb_spec (next_serving m) t); intros [= <-]; [|split; [by apply tickets_weaken|done]].
    apply (goto_ok _ _ _ _ c); try done; [by rewrite Hat|]. intros b. unfold core_ok. rewrite Hat. cbn [at_ cpu].
    intros (?&?&?&_). by split_and!.
  - intros [= <-]. by apply give_ok.
  - intros [= <-]. apply (goto_ok _ _ _ _ c); try done; [by rewrite Hat|]. intros b. unfold core_ok. rewrite Hat.
    cbn [at_ cpu]. intros [H1 H2]. destruct (push_ok b c H1 H2) as (?&?&?). by split_and!.
  - intros [= <-]. apply (goto_ok _ _ _ _ c); try done; [by rewrite Hat|]. intros b. unfold core_ok. by rewrite Hat.
  - destruct (Z.eqb_spec (next_serving m) t); intros [= <-]; apply (goto_ok _ _ _ _ c); try done.
    + by rewrite Hat.
    + intros b. unfold core_ok. rewrite Hat. cbn [at_ cpu]. intros (?&?&?&_). split_and!; try done. lia.
    + destruct (Hc i c Hi) as (b&_&Hb). unfold core_ok in Hb. rewrite Hat in *. destruct Hb as (H1&H2&H3&_).
      by destruct (leave_ok b c 0 H1 H2 H3) as [_ ->].
    + intros b. unfold core_ok at 1. rewrite Hat. intros (H1&H2&H3&_). by apply leave_ok.
  - destruct spurious; cbn [negb andb].
    { intros [= <-]. apply (goto_ok _ _ _ _ c); try done; [by rewrite Hat|]. intros b. unfold core_ok. rewrite Hat.
      cbn [at_ cpu]. intros (?&?&?&_). by split_and!. }
    destruct (Z.eqb_spec (next_ticket m) t) as [<-|]; intros [= <-].
    + apply (take_ok _ _ _ _ c); try done; [by rewrite Hat|]. intros b. unfold core_ok. rewrite Hat.
      cbn [at_ cpu]. intros (?&?&?&Hle). pose proof (ti_bounds _ _ Ht). split_and!; try done. lia.
    + apply (goto_ok _ _ _ _ c); try done; [by rewrite Hat|]. intros b. unfold core_ok. rewrite Hat.
      cbn [at_ cpu]. intros (?&?&?&_). by split_and!.
Qed.

(** ** Runs *)

Definition fresh (l : list Core) : Prop := Forall (λ c, at_ c = Outside ∧ noff (cpu c) = 0) l.

Lemma new_ok l : fresh l → mutex_ok 0 ((λ c, sie (cpu c)) <$> l) (ticket_new l).
Proof.
  intros Hf. assert (∀ i c, l !! i = Some c → at_ c = Outside ∧ noff (cpu c) = 0) as Hl.
  { intros i c Hi. unfold fresh in Hf. rewrite list.Forall_lookup in Hf. by apply (Hf i). }
  assert (∀ i t, ¬ has_ticket (ticket_new l) i t) as Hno.
  { intros i t (c&Hi&Ht). destruct (Hl i c Hi) as [Ha _]. by rewrite Ha in Ht. }
  split.
  - split; cbn [ticket_new next_ticket next_serving]; [lia| | |intros; lia]; intros; exfalso; eapply Hno; done.
  - intros i c Hi. change (l !! i = Some c) in Hi. exists (sie (cpu c)). split; [by rewrite list_lookup_fmap, Hi|].
    destruct (Hl i c Hi) as [Ha Hn]. unfold core_ok. by rewrite Ha.
Qed.

Lemma steps_ok l n m : fresh l → nsteps tstep n (ticket_new l) m → Z.of_nat n < 2 ^ 64 →
  mutex_ok (Z.of_nat n) ((λ c, sie (cpu c)) <$> l) m.
Proof.
  intros Hf. revert m. induction n as [|n IH]; intros m Hs Hn.
  - apply nsteps_once_inv_0 in Hs || (inversion Hs; subst). by apply new_ok.
  - apply nsteps_inv_r in Hs as (m0&Hs&(i&a&Ha)). replace (Z.of_nat (S n)) with (Z.of_nat n + 1) by lia.
    eapply act_ok; [apply IH; [exact Hs|lia]|lia|exact Ha].
Qed.

(** The counters only grow. *)
Lemma act_grows n bs m i a m' : mutex_ok n bs m → n + 1 < 2 ^ 64 → core_act m i a = Some m' →
  next_serving m <= next_serving m' ∧ next_ticket m <= next_ticket m'.
Proof.
  intros [Ht Hc] Hn. pose proof (ti_bounds _ _ Ht). unfold core_act.
  destruct (cores m !! i) as [c|] eqn:Hi; [|done]. cbn [mbind option_bind]. destruct (Hc i c Hi) as (b&_&Hok).
  unfold core_ok in Hok. destruct a, (at_ c) as [|t| |t|t|t|]; try done;
    unfold lock_take, lock_spin, drop_guard, try_lock_start, try_lock_load, try_lock_check, try_lock_cas, goto;
    repeat case_match; intros [= <-]; cbn [next_serving next_ticket]; try lia.
  all: rewrite wrap_small by (unfold word; lia); try lia.
  all: destruct_and?; try match goal with H : _ && _ = true |- _ => apply andb_true_iff in H as [_ H%Z.eqb_eq] end; lia.
Qed.

Lemma steps_grow k n bs m m' : mutex_ok n bs m → nsteps tstep k m m' → n + Z.of_nat k < 2 ^ 64 →
  mutex_ok (n + Z.of_nat k) bs m' ∧ next_serving m <= next_serving m' ∧ next_ticket m <= next_ticket m'.
Proof.
  intros Hok. revert m'. induction k as [|k IH]; intros m' Hs Hn.
  - inversion Hs; subst. by rewrite Z.add_0_r.
  - apply nsteps_inv_r in Hs as (m1&Hs&(i&a&Ha)). destruct (IH m1 Hs) as (Hok1&?&?); [lia|].
    replace (n + Z.of_nat (S k)) with (n + Z.of_nat k + 1) by lia.
    destruct (act_grows _ _ _ _ _ _ Hok1 ltac:(lia) Ha). split; [by eapply act_ok; [|lia|]|lia].
Qed.

(** [is_locked] over a run from [m] to [m']: its loads see [m] and [m']. *)
Lemma is_locked_spec bs n k m m' : mutex_ok n bs m → nsteps tstep k m m' → n + Z.of_nat k < 2 ^ 64 →
  (is_locked m m' = false → ∀ i j t, has_ticket m i t → ¬ has_ticket m' j t) ∧
  (is_locked m m' = true → (∃ j t, has_ticket m' j t ∧ t < next_ticket m) ∨ next_ticket m < next_serving m') ∧
  (is_locked m' m = false → ∀ j t, ¬ has_ticket m j t ∧ ¬ has_ticket m' j t) ∧
  (is_locked m' m = true → (∃ j t, has_ticket m j t) ∨ next_ticket m < next_ticket m').
Proof.
  intros Hok Hs Hn. destruct (steps_grow _ _ _ _ _ Hok Hs Hn) as ([Ht' _]&Hg1&Hg2). destruct Hok as [Ht _].
  pose proof (ti_bounds _ _ Ht). pose proof (ti_bounds _ _ Ht'). unfold is_locked.
  split_and!; intros Hl; first [apply negb_false_iff, Z.eqb_eq in Hl|apply negb_true_iff, Z.eqb_neq in Hl].
  - intros i j t H1%(ti_range _ _ Ht) H2%(ti_range _ _ Ht'). lia.
  - destruct (decide (next_ticket m < next_serving m')); [by right|left].
    destruct (ti_all _ _ Ht' (next_serving m')) as [j Hj]; [lia|]. exists j, (next_serving m'). split; [done|lia].
  - intros j t. split; [intros H1%(ti_range _ _ Ht)|intros H1%(ti_range _ _ Ht')]; lia.
  - destruct (decide (next_ticket m < next_ticket m')); [by right|left].
    destruct (ti_all _ _ Ht (next_serving m)) as [j Hj]; [lia|]. by exists j, (next_serving m).
Qed.

Lemma hold_serving bs n m i c t : mutex_ok n bs m → cores m !! i = Some c → at_ c = Holding t →
  t = next_serving m ∧ has_ticket m i (next_serving m).
Proof.
  intros [_ Hc] Hi Hat. destruct (Hc i c Hi) as (b&_&Hok). unfold core_ok in Hok. rewrite Hat in Hok.
  destruct Hok as (_&_&_&->). split; [done|]. exists c. by rewrite Hat.
Qed.

Lemma run_acts_app l1 l2 m : run_acts m (l1 ++ l2) = run_acts m l1 ≫= λ m', run_acts m' l2.
Proof.
  revert m. induction l1 as [|[k a] l1 IH]; intros m; [done|]. simpl. destruct (core_act m k a); [apply IH|done].
Qed.

(** One turn of the queue: the core that is served takes the lock, if it has
    not, and drops it. *)
Lemma serve_one n bs m i c t : mutex_ok n bs m → n + 2 < 2 ^ 64 → cores m !! i = Some c → at_ c = Waiting t →
  next_serving m < t → ∃ j acts m', run_acts m acts = Some m' ∧ (length acts <= 2)%nat ∧
    Forall (λ ja, ja.1 = j) acts ∧ has_ticket m j (next_serving m) ∧
    mutex_ok (n + 2) bs m' ∧ next_serving m' = next_serving m + 1 ∧ cores m' !! i = Some c ∧
    ∀ k u, has_ticket m' k u → has_ticket m k u.
Proof.
  intros Hok Hn Hi Hat Hlt. pose proof Hok as [Ht Hc]. pose proof (ti_bounds _ _ Ht) as Hb.
  assert (has_ticket m i t) as Hit by (exists c; by rewrite Hat).
  pose proof (ti_range _ _ Ht _ _ Hit). destruct (ti_all _ _ Ht (next_serving m)) as [j Hj]; [lia|].
  assert (j ≠ i) as Hji.
  { intros ->. pose proof (ti_inj _ _ Ht). destruct Hj as (c'&Hc'&Htk). rewrite Hi in Hc'. injection Hc' as <-.
    rewrite Hat in Htk. simpl in Htk. injection Htk as ->. lia. }
  pose proof Hj as (cj&Hcj&Htj). exists j.
  assert (∃ pre m1 c1, run_acts m pre = Some m1 ∧ (length pre <= 1)%nat ∧ Forall (λ ja, ja.1 = j) pre ∧
    mutex_ok (n + 1) bs m1 ∧ cores m1 !! j = Some c1 ∧ at_ c1 = Holding (next_serving m) ∧
    next_serving m1 = next_serving m ∧ cores m1 !! i = Some c ∧ ∀ k u, has_ticket m1 k u → has_ticket m k u)
    as (pre&m1&c1&Hrun&Hlen&Hby&Hok1&Hc1&Hat1&Hsv&Hi1&Hkeep).
  { destruct (at_ cj) as [|u| |u|u|u|] eqn:Hatj; simpl in Htj; try done; injection Htj as ->.
    - exists [(j, ASpin)], (goto m j (mkCore (cpu cj) (Holding (next_serving m)))), (mkCore (cpu cj) (Holding (next_serving m))).
      assert (core_act m j ASpin = Some (goto m j (mkCore (cpu cj) (Holding (next_serving m))))) as Ha.
      { unfold core_act, lock_spin. rewrite Hcj. cbn [mbind option_bind]. by rewrite Hatj, Z.eqb_refl. }
      pose proof (lookup_lt_Some _ _ _ Hcj). split_and!.
      + cbn [run_acts]. by rewrite Ha.
      + simpl. lia.
      + by constructor.
      + eapply act_ok; [done|lia|exact Ha].
      + cbn [goto cores]. by apply list_lookup_insert_eq.
      + done.
      + done.
      + cbn [goto cores]. by rewrite list_lookup_insert_ne.
      + intros k u. unfold goto. rewrite (has_ticket_at m j cj Hcj). intros [[-> Hu]|[_ Hu]]; [|done].
        exists cj. by rewrite Hatj.
    - exists [], m, cj. split_and!; try done; [simpl; lia|]. split; [by apply tickets_weaken|done]. }
  assert (core_act m1 j ADrop = Some (mkTicket (next_ticket m1) (wrap64 (next_serving m + 1)) (<[j := leave (cpu c1)]> (cores m1)))) as Hd.
  { unfold core_act. rewrite Hc1. cbn [mbind option_bind]. by rewrite Hat1. }
  eexists (pre ++ [(j, ADrop)]), _. split_and!.
  - rewrite run_acts_app, Hrun. cbn [mbind option_bind run_acts]. rewrite Hd. done.
  - rewrite length_app. simpl. lia.
  - apply Forall_app. split; [done|by constructor].
  - done.
  - replace (n + 2) with (n + 1 + 1) by lia. eapply act_ok; [exact Hok1|lia|exact Hd].
  - cbn [next_serving]. apply wrap_small. unfold word. lia.
  - cbn [cores]. by rewrite list_lookup_insert_ne.
  - intros k u. rewrite (has_ticket_at m1 j c1 Hc1). intros [[-> Hu]|[_ Hu]]; [|by apply Hkeep].
    unfold leave in Hu. by destruct (pop_off _).
Qed.

Lemma serve_until d n bs m i c t : mutex_ok n bs m → cores m !! i = Some c → at_ c = Waiting t →
  t - next_serving m = Z.of_nat d → n + 2 * Z.of_nat d + 1 < 2 ^ 64 →
  ∃ acts m' c', run_acts m acts = Some m' ∧ (length acts <= 2 * d + 1)%nat ∧
    Forall (λ ja, ∃ u, has_ticket m ja.1 u ∧ u <= t) acts ∧ cores m' !! i = Some c' ∧ at_ c' = Holding t.
Proof.
  revert n m. induction d as [|d IH]; intros n m Hok Hi Hat Hd Hn.
  - exists [(i, ASpin)], (goto m i (mkCore (cpu c) (Holding t))), (mkCore (cpu c) (Holding t)).
    pose proof (lookup_lt_Some _ _ _ Hi). split_and!.
    + cbn [run_acts]. unfold core_act, lock_spin. rewrite Hi. cbn [mbind option_bind]. rewrite Hat.
      by destruct (Z.eqb_spec (next_serving m) t); [|lia].
    + simpl. lia.
    + constructor; [|done]. exists t. split; [exists c; by rewrite Hat|lia].
    + cbn [goto cores]. by apply list_lookup_insert_eq.
    + done.
  - destruct (serve_one n bs m i c t Hok) as (j&acts&m1&Hr1&Hl1&Hby&Hj&Hok1&Hs1&Hi1&Hkeep); [lia|done|done|lia|].
    destruct (IH (n + 2) m1 Hok1 Hi1 Hat) as (acts2&m2&c2&Hr2&Hl2&Hb2&Hc2&Hh2); [lia|lia|].
    exists (acts ++ acts2), m2, c2. split_and!; try done.
    + by rewrite run_acts_app, Hr1.
    + rewrite length_app. lia.
    + apply Forall_app. split.
      * eapply list.Forall_impl; [exact Hby|]. intros ja ->. exists (next_serving m). split; [done|lia].
      * eapply list.Forall_impl; [exact Hb2|]. intros ja (u&Hu&Hle). exists u. split; [by apply Hkeep|done].
Qed.

Lemma run_nsteps l m m' : run_acts m l = Some m' → nsteps tstep (length l) m m'.
Proof.
  revert m. induction l as [|[i a] l IH]; intros m; simpl; [intros [= ->]; constructor|].
  destruct (core_act m i a) as [m1|] eqn:Ha; [|done]. intros Hr. apply nsteps_l with m1; [by exists i, a|by apply IH].
Qed.

(** Core 0 with interrupts on and core 1 with interrupts off; core 0 holds the
    lock and core 1 waits. *)
Definition two_cores : list Core :=
  [mkCore (mkCpu 0 false true) Outside; mkCore (mkCpu 0 false false) Outside].
Definition two_acts : list (nat * tact) := [(0, ALock); (1, ALock); (0, ASpin); (1, ASpin)]%nat.
Definition two_after : TicketMutex :=
  mkTicket 2 0 [mkCore (mkCpu 1 true false) (Holding 0); mkCore (mkCpu 1 false false) (Waiting 1)].

(** Two loads may miss a lock that is never free: core 1, which waits, takes
    over from core 0 after core 2 has read [next_ticket] and before it reads
    [next_serving]; core 1 had no ticket yet at the first load. *)
Definition one_after : TicketMutex :=
  mkTicket 1 0 [mkCore (mkCpu 1 true false) (Holding 0); mkCore (mkCpu 0 false false) Outside].
Definition handover : list (nat * tact) := [(1, ALock); (0, ADrop)]%nat.

Lemma is_locked_misses : ∃ m', run_acts one_after handover = Some m' ∧ is_locked one_after m' = false ∧
  ∀ k mk, run_acts one_after (take k handover) = Some mk → ∃ j t, has_ticket mk j t.
Proof.
  eexists. split; [reflexivity|]. split; [reflexivity|]. intros k mk.
  destruct k as [|[|k]]; [| |cbn [take handover]; rewrite take_nil]; intros [= <-].
  - exists 0%nat, 0. eexists. by split.
  - exists 0%nat, 0. eexists. by split.
  - exists 1%nat, 1. eexists. by split.
Qed.

(** ** Properties *)

(** C14. The mutex excludes: whatever the cores do, in any order and for fewer
    than 2^64 atomic steps, at most one core holds the guard; it holds the
    smallest ticket in circulation, so the lock is granted in the order the
    tickets were taken; no [pop_off] panics, interrupts are off from taking a
    ticket to dropping the guard, and outside they are as they were.
    [is_locked], whose two loads fall at two moments of the run: when
    [next_ticket] is read first, the answer [false] says that every ticket in
    circulation at that moment has been given up by the second load, and the
    answer [true] that one of them is still in circulation or that a ticket
    taken since has been given up already; when [next_serving] is read first,
    [false] says that no ticket was in circulation at either load, and [true]
    that one was at the first or has been taken since. *)
Theorem ticket_mutex_excludes (l : list Core) (n : nat) (m : TicketMutex) :
  fresh l → nsteps tstep n (ticket_new l) m → Z.of_nat n < 2 ^ 64 →
  (∀ i j ci cj t u, cores m !! i = Some ci → cores m !! j = Some cj →
     at_ ci = Holding t → at_ cj = Holding u → i = j) ∧
  (∀ i j ci cj t u, cores m !! i = Some ci → cores m !! j = Some cj →
     at_ ci = Holding t → at_ cj = Waiting u → t < u) ∧
  (∀ k m', nsteps tstep k m m' → Z.of_nat (n + k) < 2 ^ 64 →
     (is_locked m m' = false → ∀ i j t, has_ticket m i t → ¬ has_ticket m' j t) ∧
     (is_locked m m' = true → (∃ j t, has_ticket m' j t ∧ t < next_ticket m) ∨ next_ticket m < next_serving m') ∧
     (is_locked m' m = false → ∀ j t, ¬ has_ticket m j t ∧ ¬ has_ticket m' j t) ∧
     (is_locked m' m = true → (∃ j t, has_ticket m j t) ∨ next_ticket m < next_ticket m')) ∧
  ∀ i c c0, cores m !! i = Some c → l !! i = Some c0 →
    match at_ c with
    | Panicked => False
    | Outside => sie (cpu c) = sie (cpu c0)
    | _ => sie (cpu c) = false
    end.
Proof.
  intros Hf Hs Hn. pose proof (steps_ok l n m Hf Hs Hn) as Hok. pose proof Hok as [Ht Hc]. split_and!.
  - intros i j ci cj t u Hi Hj Hti Htj. destruct (hold_serving _ _ _ _ _ _ Hok Hi Hti) as [_ H1].
    destruct (hold_serving _ _ _ _ _ _ Hok Hj Htj) as [_ H2]. by apply (ti_inj _ _ Ht _ _ (next_serving m)).
  - intros i j ci cj t u Hi Hj Hti Htj. destruct (hold_serving _ _ _ _ _ _ Hok Hi Hti) as [-> H1].
    assert (has_ticket m j u) as H2 by (exists cj; by rewrite Htj). pose proof (ti_range _ _ Ht _ _ H2).
    destruct (decide (u = next_serving m)) as [->|]; [|lia].
    pose proof (ti_inj _ _ Ht _ _ _ H1 H2) as ->. congruence.
  - intros k m' Hs' Hn'. eapply is_locked_spec; [exact Hok|exact Hs'|lia].
  - intros i c c0 Hi H0. destruct (Hc i c Hi) as (b&Hb&Hok'). rewrite list_lookup_fmap, H0 in Hb. simplify_eq/=.
    unfold core_ok in Hok'. by destruct (at_ c); destruct_and?.
Qed.

(** C17. No core waits in vain: when a core waits with a ticket, the cores that
    have the tickets before it and the core itself can run, in at most two
    steps per ticket and one more, to a state where it holds the guard; no
    other core has to move. *)
Theorem ticket_mutex_serves (l : list Core) (n : nat) (m : TicketMutex) (i : nat) (c : Core) (t : Z) :
  fresh l → nsteps tstep n (ticket_new l) m → Z.of_nat n < 2 ^ 62 →
  cores m !! i = Some c → at_ c = Waiting t →
  ∃ acts m' c', run_acts m acts = Some m' ∧
    Z.of_nat (length acts) <= 2 * (t - next_serving m) + 1 ∧
    Forall (λ ja, ∃ u, has_ticket m ja.1 u ∧ u <= t) acts ∧
    cores m' !! i = Some c' ∧ at_ c' = Holding t.
Proof.
  intros Hf Hs Hn Hi Hat. pose proof (steps_ok l n m Hf Hs ltac:(lia)) as Hok. pose proof Hok as [Ht _].
  assert (has_ticket m i t) as Hit by (exists c; by rewrite Hat).
  pose proof (ti_range _ _ Ht _ _ Hit). pose proof (ti_bounds _ _ Ht).
  destruct (serve_until (Z.to_nat (t - next_serving m)) (Z.of_nat n) _ m i c t Hok Hi Hat)
    as (acts&m'&c'&Hr&Hlen&Hby&Hc'&Hh); [lia|lia|].
  exists acts, m', c'. split_and!; try done. lia.
Qed.

Lemma ticket_mutex_excludes_witness :
  fresh two_cores ∧ nsteps tstep 4 (ticket_new two_cores) two_after ∧
  (∀ i j ci cj t u, cores two_after !! i = Some ci → cores two_after !! j = Some cj →
     at_ ci = Holding t → at_ cj = Holding u → i = j) ∧
  is_locked two_after two_after = true ∧ ∃ j t, has_ticket two_after j t.
Proof.
  assert (fresh two_cores) as Hf by (by repeat constructor).
  assert (nsteps tstep 4 (ticket_new two_cores) two_after) as Hs by (by apply (run_nsteps two_acts)).
  destruct (ticket_mutex_excludes two_cores 4 two_after Hf Hs ltac:(lia)) as (H1&_&H2&_).
  destruct (H2 0%nat two_after (nsteps_O _ _) ltac:(lia)) as (_&_&_&H3).
  split; [exact Hf|]. split; [exact Hs|]. split; [exact H1|]. split; [reflexivity|].
  destruct (H3 eq_refl) as [H|H]; [exact H|by apply Z.lt_irrefl in H].
Defined.

Lemma ticket_mutex_serves_witness :
  nsteps tstep 4 (ticket_new two_cores) two_after ∧
  ∃ acts m' c', run_acts two_after acts = Some m' ∧ Z.of_nat (length acts) <= 3 ∧
    cores m' !! 1%nat = Some c' ∧ at_ c' = Holding 1.
Proof.
  assert (fresh two_cores) as Hf by (by repeat constructor).
  assert (nsteps tstep 4 (ticket_new two_cores) two_after) as Hs by (by apply (run_nsteps two_acts)).
  destruct (ticket_mutex_serves two_cores 4 two_after 1 (mkCore (mkCpu 1 false false) (Waiting 1)) 1 Hf Hs ltac:(lia))
    as (acts&m'&c'&H1&H2&_&H3&H4); [done|done|].
  split; [exact Hs|]. exists acts, m', c'. split; [exact H1|]. split; [exact H2|]. split; [exact H3|exact H4].
Defined.
