(* ===== verification/RwLock.v ===== *)
(** * The reader-writer lock (dependencies/kernel-sync/src/rwlock.rs)

    One word that counts readers and has a bit for a writer and one for an
    upgradable reader, changed by atomic operations that take effect one after
    the other.  A core has at most one guard. *)

From S2P Require Import Prelude TicketLock.

Definition READER : Z := 4.
Definition UPGRADED : Z := 2.
Definition WRITER : Z := 1.

(** Where a core is: outside; in [try_read] with the value [fetch_add] gave
    it; with a guard; in [downgrade] of a guard after its [fetch_add]. *)
Inductive rpoint :=
| ROutside
| RTried (value : Z)
| RReader
| RWriter
| RUpgradable
| RDownWriter
| RDownUpgradable
| RPanicked.

#[export] Instance rpoint_eq_dec : EqDecision rpoint.
Proof. solve_decision. Defined.

Record RCore := mkRCore { rcpu : Cpu; rat : rpoint }.
Record RwLock := mkRw { word_ : Z; rcores : list RCore }.

Implicit Types m : RwLock.

Definition rw_new (l : list RCore) : RwLock := mkRw 0 l.

Definition rgoto m (w : Z) (i : nat) (c : RCore) : RwLock := mkRw w (<[i := c]> (rcores m)).

(** [pop_off] on the way to a point. *)
Definition rleave (c : Cpu) (p : rpoint) : RCore :=
  match pop_off c with Ret c' => mkRCore c' p | Panic => mkRCore c RPanicked end.

Definition locked_bits (value : Z) : Z := Z.land value (Z.lor WRITER UPGRADED).
Definition clear_bits (value : Z) : Z := Z.land value (wnot 64 (Z.lor WRITER UPGRADED)).

(** [try_read] in two steps; [try_write] and [try_upgrade], whose weak
    compare-exchange may fail for no reason; [try_upgradeable_read]; the drop
    of each guard; the downgrades.  [read], [write], [upgradeable_read] and
    [upgrade] repeat the attempts. *)
Inductive ract :=
| RTryRead | RTryReadCheck
| RTryWrite (spurious : bool)
| RTryUpgradable
| RTryUpgrade (spurious : bool)
| RDropReader | RDropWriter | RDropUpgradable
| RDowngrade | RDowngradeDrop
| RToUpgradable.

(** What each does for core [i], now at [c]. *)
Section acts.
Context (m : RwLock) (i : nat) (c : RCore).

Definition try_read : RwLock :=
  rgoto m (wrap64 (word_ m + READER)) i (mkRCore (push_off (rcpu c)) (RTried (word_ m))).

Definition try_read_check (value : Z) : RwLock :=
  if negb (locked_bits value =? 0)
  then rgoto m (wrap64 (word_ m - READER)) i (rleave (rcpu c) ROutside)
  else rgoto m (word_ m) i (mkRCore (rcpu c) RReader).

Definition try_write_internal (spurious : bool) : RwLock :=
  if negb spurious && (word_ m =? 0)
  then rgoto m WRITER i (mkRCore (push_off (rcpu c)) RWriter)
  else rgoto m (word_ m) i (rleave (push_off (rcpu c)) ROutside).

Definition try_upgradeable_read : RwLock :=
  let lock := word_ m in
  if locked_bits lock =? 0
  then rgoto m (Z.lor lock UPGRADED) i (mkRCore (push_off (rcpu c)) RUpgradable)
  else rgoto m (Z.lor lock UPGRADED) i (rleave (push_off (rcpu c)) ROutside).

Definition try_upgrade_internal (spurious : bool) : RwLock :=
  if negb spurious && (word_ m =? UPGRADED)
  then rgoto m WRITER i (mkRCore (rcpu c) RWriter)
  else m.

(** The drops go on to [ROutside], or to [RReader] in a downgrade. *)
Definition drop_read_guard : RwLock := rgoto m (wrap64 (word_ m - READER)) i (rleave (rcpu c) ROutside).
Definition drop_upgradable_guard (next : rpoint) : RwLock :=
  rgoto m (wrap64 (word_ m - UPGRADED)) i (rleave (rcpu c) next).
Definition drop_write_guard (next : rpoint) : RwLock :=
  rgoto m (clear_bits (word_ m)) i (rleave (rcpu c) next).

(** The first half of [downgrade] of the guard of a point. *)
Definition downgrade_add (next : rpoint) : RwLock :=
  rgoto m (wrap64 (word_ m + READER)) i (mkRCore (rcpu c) next).

Definition downgrade_to_upgradeable : RwLock := rgoto m UPGRADED i (mkRCore (rcpu c) RUpgradable).
End acts.

Definition rcore_act m (i : nat) (a : ract) : option RwLock :=
  c ← rcores m !! i;
  match a, rat c with
  | RTryRead, ROutside => Some (try_read m i c)
  | RTryReadCheck, RTried value => Some (try_read_check m i c value)
  | RTryWrite spurious, ROutside => Some (try_write_internal m i c spurious)
  | RTryUpgradable, ROutside => Some (try_upgradeable_read m i c)
  | RTryUpgrade spurious, RUpgradable => Some (try_upgrade_internal m i c spurious)
  | RDropReader, RReader => Some (drop_read_guard m i c)
  | RDropWriter, RWriter => Some (drop_write_guard m i c ROutside)
  | RDropUpgradable, RUpgradable => Some (drop_upgradable_guard m i c ROutside)
  | RDowngrade, RUpgradable => Some (downgrade_add m i c RDownUpgradable)
  | RDowngrade, RWriter => Some (downgrade_add m i c RDownWriter)
  | RDowngradeDrop, RDownUpgradable => Some (drop_upgradable_guard m i c RReader)
  | RDowngradeDrop, RDownWriter => Some (drop_write_guard m i c RReader)
  | RToUpgradable, RWriter => Some (downgrade_to_upgradeable m i c)
  | _, _ => None
  end.

Fixpoint rrun m (l : list (nat * ract)) : option RwLock :=
  match l with
  | [] => Some m
  | (i, a) :: l' => m' ← rcore_act m i a; rrun m' l'
  end.

Definition reader_count m : Z := word_ m / READER + Z.land (word_ m) UPGRADED / UPGRADED.
Definition writer_count m : Z := Z.land (word_ m) WRITER / WRITER.

(** ** Correctness of the reader-writer lock

    The word counts the cores by what they hold, which gives exclusion for
    every act but [downgrade_to_upgradeable]; that one, and the guard a
    downgrade leaves, break their promises. *)

Implicit Types l : list RCore.

(** ** Counting cores *)

Definition cnt (p : rpoint → bool) l : Z := Z.of_nat (length (filter (λ c, p (rat c) = true) l)).

Definition b2z (b : bool) : Z := if b then 1 else 0.

Lemma cnt_cons p c l : cnt p (c :: l) = b2z (p (rat c)) + cnt p l.
Proof. unfold cnt. rewrite filter_cons. by destruct (p (rat c)); simpl; lia. Qed.

Lemma cnt_nonneg p l : 0 <= cnt p l.
Proof. unfold cnt. lia. Qed.

Lemma cnt_insert p l i c c' : l !! i = Some c →
  cnt p (<[i := c']> l) = cnt p l - b2z (p (rat c)) + b2z (p (rat c')).
Proof.
  revert i. induction l as [|d l IH]; intros [|i] Hi; try done.
  - simpl in Hi. injection Hi as ->. simpl. rewrite !cnt_cons. lia.
  - simpl in *. rewrite !cnt_cons, IH by done. lia.
Qed.

Lemma cnt_one p l i c : l !! i = Some c → p (rat c) = true → 1 <= cnt p l.
Proof.
  revert i. induction l as [|d l IH]; intros [|i] Hi Hp; try done; rewrite cnt_cons.
  - simpl in Hi. injection Hi as ->. rewrite Hp. pose proof (cnt_nonneg p l). simpl. lia.
  - pose proof (IH i Hi Hp). destruct (p (rat d)); simpl; lia.
Qed.

Lemma cnt_two p l i j c d : l !! i = Some c → l !! j = Some d → i ≠ j →
  p (rat c) = true → p (rat d) = true → 2 <= cnt p l.
Proof.
  revert i j. induction l as [|e l IH]; intros [|i] [|j] Hi Hj Hne Hc Hd; try done; rewrite cnt_cons; simpl in *.
  - simplify_eq. rewrite Hc. pose proof (cnt_one p l j d Hj Hd). simpl. lia.
  - simplify_eq. rewrite Hd. pose proof (cnt_one p l i c Hi Hc). simpl. lia.
  - pose proof (IH i j Hi Hj ltac:(congruence) Hc Hd). destruct (p (rat e)); simpl; lia.
Qed.

Lemma cnt_disjoint p q l : (∀ x, p x = true → q x = true → False) → cnt p l + cnt q l <= Z.of_nat (length l).
Proof.
  intros Hpq. induction l as [|c l IH]; [done|]. rewrite !cnt_cons. pose proof (Hpq (rat c)).
  destruct (p (rat c)), (q (rat c)); simpl; lia || (exfalso; auto).
Qed.

(** ** What the word says *)

(** Cores with shared access; cores the count includes; writers; upgradable
    readers; cores that panicked. *)
Definition reading (p : rpoint) : bool :=
  match p with RReader => true | RTried v => locked_bits v =? 0 | _ => false end.
Definition counted (p : rpoint) : bool :=
  match p with RReader | RTried _ | RDownWriter | RDownUpgradable => true | _ => false end.
Definition writing (p : rpoint) : bool := match p with RWriter | RDownWriter => true | _ => false end.
Definition upgradable (p : rpoint) : bool := match p with RUpgradable | RDownUpgradable => true | _ => false end.
Definition panicked (p : rpoint) : bool := match p with RPanicked => true | _ => false end.

(** The word with [n] readers counted, the upgradable bit [b] and [w] writers. *)
Definition rw_word (n : Z) (b : bool) (w : Z) : Z := 4 * n + 2 * b2z b + w.

Lemma locked_bits_word n b w : 0 <= w <= 1 → locked_bits (rw_word n b w) = 2 * b2z b + w.
Proof.
  intros Hw. unfold locked_bits, rw_word. change (Z.lor WRITER UPGRADED) with (Z.ones 2).
  rewrite land_low by lia. change (2 ^ 2) with 4. destruct b; simpl; dlia.
Qed.

Lemma clear_bits_word n b w : 0 <= w <= 1 → 0 <= n < 2 ^ 62 → clear_bits (rw_word n b w) = 4 * n.
Proof.
  intros Hw Hn. unfold clear_bits, rw_word. change (wnot 64 (Z.lor WRITER UPGRADED)) with (Z.shiftl (Z.ones 62) 2).
  rewrite land_field by lia. change (2 ^ 2) with 4.
  replace ((4 * n + 2 * b2z b + w) / 4) with n by (destruct b; simpl; dlia). rewrite Z.mod_small by lia. lia.
Qed.

Lemma lor_upgraded_word n b w : 0 <= w <= 1 → Z.lor (rw_word n b w) UPGRADED = rw_word n true w.
Proof.
  intros Hw. unfold rw_word, UPGRADED.
  assert (4 * n + 2 * b2z b + w = Z.lor (n * 2 ^ 2) (2 * b2z b + w)) as ->
    by (rewrite lor_low by (destruct b; simpl; lia); change (2 ^ 2) with 4; lia).
  rewrite <- Z.lor_assoc. assert (Z.lor (2 * b2z b + w) 2 = 2 + w) as ->.
  { assert (w = 0 ∨ w = 1) as [->| ->] by lia; by destruct b. }
  rewrite lor_low by lia. simpl. lia.
Qed.

Record rw_inv m : Prop := {
  ri_word : ∃ k b, 0 <= k <= cnt panicked (rcores m) ∧
    word_ m = rw_word (cnt counted (rcores m) + k) b (cnt writing (rcores m)) ∧
    (1 <= cnt upgradable (rcores m) → b = true) ∧
    (b = true → cnt upgradable (rcores m) + cnt writing (rcores m) = 1);
  ri_one : cnt writing (rcores m) + cnt upgradable (rcores m) <= 1;
  ri_excl : 1 <= cnt writing (rcores m) → cnt reading (rcores m) = 0;
  ri_cores : Z.of_nat (length (rcores m)) < 2 ^ 60 }.

(** ** Steps *)

Lemma rleave_at c p : rat (rleave c p) = p ∨ rat (rleave c p) = RPanicked.
Proof. unfold rleave. destruct (pop_off c); auto. Qed.

Lemma counted_small m : rw_inv m → cnt counted (rcores m) + cnt panicked (rcores m) < 2 ^ 60.
Proof.
  intros Hi. pose proof (ri_cores m Hi). pose proof (cnt_disjoint counted panicked (rcores m)).
  assert (∀ x, counted x = true → panicked x = true → False) by (by intros []). intuition lia.
Qed.

(** Core [i] goes from [c] to [c'] and the word to [w]: what is left to show
    about numbers. *)
Lemma rgoto_inv m i c c' w k b : rw_inv m → rcores m !! i = Some c →
  let d p := cnt p (rcores m) - b2z (p (rat c)) + b2z (p (rat c')) in
  0 <= k <= d panicked → w = rw_word (d counted + k) b (d writing) →
  (1 <= d upgradable → b = true) → (b = true → d upgradable + d writing = 1) →
  d writing + d upgradable <= 1 → (1 <= d writing → d reading = 0) → rw_inv (rgoto m w i c').
Proof.
  intros Hinv Hi d Hk Hw Hb1 Hb2 Hone Hexcl. pose proof (ri_cores m Hinv).
  assert (∀ p, cnt p (<[i := c']> (rcores m)) = d p) as Hd by (intros p; by apply cnt_insert).
  split; unfold rgoto; cbn [rcores word_].
  - exists k, b. by rewrite !Hd.
  - by rewrite !Hd.
  - by rewrite !Hd.
  - by rewrite length_insert.
Qed.

Lemma wrap_word_shift n b w : 0 <= n < 2 ^ 61 → 0 <= w <= 1 → wrap64 (rw_word n b w) = rw_word n b w.
Proof. intros Hn Hw. apply wrap_small. unfold word, rw_word. destruct b; simpl; lia. Qed.

Lemma rinv_locked m : rw_inv m → ∃ k b, 0 <= k <= cnt panicked (rcores m) ∧
  word_ m = rw_word (cnt counted (rcores m) + k) b (cnt writing (rcores m)) ∧
  locked_bits (word_ m) = 2 * b2z b + cnt writing (rcores m) ∧
  (1 <= cnt upgradable (rcores m) → b = true) ∧
  (b = true → cnt upgradable (rcores m) + cnt writing (rcores m) = 1).
Proof.
  intros Hinv. destruct Hinv as [(k&b&Hk&Hw&Hb1&Hb2) Hone _ _]. exists k, b. split_and!; try done; try lia.
  rewrite Hw. apply locked_bits_word. pose proof (cnt_nonneg writing (rcores m)).
  pose proof (cnt_nonneg upgradable (rcores m)). lia.
Qed.

(** Numbers after a step: the counts of [m] are atoms. *)
Ltac rnum := unfold rw_word, READER, UPGRADED, WRITER in *; simpl b2z in *; (lia || (intros; lia) || (intros; done)).
(** [rstep k b]: the core is at a known point before and after. *)
Ltac rstep k b Hinv Hi Hat :=
  apply (rgoto_inv _ _ _ _ _ k b Hinv Hi); cbn zeta; rewrite ?Hat; cbn [rat reading counted writing upgradable panicked];
  try rnum.

Lemma cnt_sub p q l : (∀ x, p x = true → q x = true) → cnt p l <= cnt q l.
Proof.
  intros Hpq. induction l as [|c l IH]; [done|]. rewrite !cnt_cons. pose proof (Hpq (rat c)).
  destruct (p (rat c)), (q (rat c)); simpl; lia || (exfalso; naive_solver).
Qed.

Lemma reading_counted l : cnt reading l <= cnt counted l.
Proof. apply cnt_sub. by intros []. Qed.

(** Whether the core leaves or panics. *)
Ltac rleaving c p := destruct (rleave_at c p) as [Hp|Hp]; rewrite ?Hp.

Lemma ract_inv m i a m' : rw_inv m → rcore_act m i a = Some m' → a ≠ RToUpgradable → rw_inv m'.
Proof.
  intros Hinv. unfold rcore_act. destruct (rcores m !! i) as [c|] eqn:Hi; [|done]. cbn [mbind option_bind].
  pose proof (counted_small m Hinv) as Hsmall. pose proof (rinv_locked m Hinv) as (k&b&Hk&Hw&Hl&Hb1&Hb2).
  pose proof Hinv as [_ Hone Hexcl _]. pose proof (reading_counted (rcores m)) as Hrc.
  pose proof (cnt_nonneg writing (rcores m)) as Hnw. pose proof (cnt_nonneg counted (rcores m)) as Hnc.
  pose proof (cnt_nonneg upgradable (rcores m)) as Hnu. pose proof (cnt_nonneg reading (rcores m)) as Hnr.
  pose proof (cnt_nonneg panicked (rcores m)) as Hnp.
  pose proof (cnt_one writing _ i c Hi) as Hcw. pose proof (cnt_one upgradable _ i c Hi) as Hcu.
  pose proof (cnt_one counted _ i c Hi) as Hcc. pose proof (cnt_one reading _ i c Hi) as Hcr.
  destruct a, (rat c) as [|v| | | | | |] eqn:Hat; try done; intros Hact _;
    cbn [writing upgradable counted reading] in Hcw, Hcu, Hcc, Hcr;
    try specialize (Hcw eq_refl); try specialize (Hcu eq_refl); try specialize (Hcc eq_refl);
    unfold try_read, try_read_check, try_write_internal, try_upgradeable_read, try_upgrade_internal,
      drop_read_guard, drop_upgradable_guard, drop_write_guard, downgrade_add in Hact; cbn zeta in Hact;
    rewrite ?Hl, ?Hw in Hact.
  - (* try_read *)
    injection Hact as <-. assert (wrap64 (rw_word (cnt counted (rcores m) + k) b (cnt writing (rcores m)) + READER)
      = rw_word (cnt counted (rcores m) + k + 1) b (cnt writing (rcores m))) as ->
      by (destruct b; (rewrite wrap_small; [rnum|unfold word; rnum])).
    destruct b; [rstep k true Hinv Hi Hat|rstep k false Hinv Hi Hat];
      rewrite <- Hw, Hl; match goal with |- context [?e =? 0] => destruct (Z.eqb_spec e 0) end; rnum.
  - (* its check *)
    destruct (Z.eqb_spec (locked_bits v) 0) as [Hv|Hv]; cbn [negb] in Hact; injection Hact as <-.
    + destruct b; [rstep k true Hinv Hi Hat|rstep k false Hinv Hi Hat]; rewrite Hv; rnum.
    + assert (wrap64 (rw_word (cnt counted (rcores m) + k) b (cnt writing (rcores m)) - READER)
        = rw_word (cnt counted (rcores m) + k - 1) b (cnt writing (rcores m))) as ->
        by (destruct b; (rewrite wrap_small; [rnum|unfold word; rnum])).
      assert ((locked_bits v =? 0) = false) as Hv' by (by apply Z.eqb_neq).
      rleaving (rcpu c) ROutside; (destruct b; [rstep k true Hinv Hi Hat|rstep k false Hinv Hi Hat]);
        rewrite ?Hp, ?Hv'; rnum.
  - (* try_write *)
    destruct (negb spurious && (rw_word (cnt counted (rcores m) + k) b (cnt writing (rcores m)) =? 0)) eqn:Hcas;
      injection Hact as <-.
    + apply andb_true_iff in Hcas as [_ Hz%Z.eqb_eq]. destruct b; [exfalso; rnum|].
      rstep 0 false Hinv Hi Hat.
    + rleaving (push_off (rcpu c)) ROutside; (destruct b; [rstep k true Hinv Hi Hat|rstep k false Hinv Hi Hat]);
        rewrite ?Hp; cbn [counted writing upgradable reading panicked]; rnum.
  - (* try_upgradeable_read *)
    rewrite lor_upgraded_word in Hact by lia.
    destruct (Z.eqb_spec (2 * b2z b + cnt writing (rcores m)) 0); injection Hact as <-.
    + destruct b; [exfalso; rnum|]. rstep k true Hinv Hi Hat.
    + rleaving (push_off (rcpu c)) ROutside; (rstep k true Hinv Hi Hat);
        rewrite ?Hp; cbn [counted writing upgradable reading panicked]; destruct b; rnum.
  - (* try_upgrade *)
    destruct (negb spurious && (rw_word (cnt counted (rcores m) + k) b (cnt writing (rcores m)) =? UPGRADED)) eqn:Hcas;
      injection Hact as <-; [|done].
    apply andb_true_iff in Hcas as [_ Hz%Z.eqb_eq]. destruct b; [|exfalso; rnum].
    rstep 0 false Hinv Hi Hat.
  - (* drop of a reader *)
    injection Hact as <-. assert (wrap64 (rw_word (cnt counted (rcores m) + k) b (cnt writing (rcores m)) - READER)
        = rw_word (cnt counted (rcores m) + k - 1) b (cnt writing (rcores m))) as ->
        by (destruct b; (rewrite wrap_small; [rnum|unfold word; rnum])).
    rleaving (rcpu c) ROutside; (destruct b; [rstep k true Hinv Hi Hat|rstep k false Hinv Hi Hat]);
        rewrite ?Hp; cbn [counted writing upgradable reading panicked]; rnum.
  - (* drop of a writer *)
    injection Hact as <-. rewrite clear_bits_word by lia.
    rleaving (rcpu c) ROutside; rstep k false Hinv Hi Hat;
        rewrite ?Hp; cbn [counted writing upgradable reading panicked]; rnum.
  - (* drop of an upgradable reader *)
    injection Hact as <-. specialize (Hb1 Hcu). subst b.
    assert (wrap64 (rw_word (cnt counted (rcores m) + k) true (cnt writing (rcores m)) - UPGRADED)
        = rw_word (cnt counted (rcores m) + k) false (cnt writing (rcores m))) as ->
        by (rewrite wrap_small; [rnum|unfold word; rnum]).
    rleaving (rcpu c) ROutside; rstep k false Hinv Hi Hat;
        rewrite ?Hp; cbn [counted writing upgradable reading panicked]; rnum.
  - (* downgrade of a writer *)
    injection Hact as <-.
    assert (wrap64 (rw_word (cnt counted (rcores m) + k) b (cnt writing (rcores m)) + READER)
      = rw_word (cnt counted (rcores m) + k + 1) b (cnt writing (rcores m))) as ->
      by (destruct b; (rewrite wrap_small; [rnum|unfold word; rnum])).
    destruct b; [rstep k true Hinv Hi Hat|rstep k false Hinv Hi Hat].
  - (* downgrade of an upgradable reader *)
    injection Hact as <-. specialize (Hb1 Hcu). subst b.
    assert (wrap64 (rw_word (cnt counted (rcores m) + k) true (cnt writing (rcores m)) + READER)
      = rw_word (cnt counted (rcores m) + k + 1) true (cnt writing (rcores m))) as ->
      by (rewrite wrap_small; [rnum|unfold word; rnum]).
    rstep k true Hinv Hi Hat.
  - (* its drop, of a writer *)
    injection Hact as <-. rewrite clear_bits_word by lia.
    rleaving (rcpu c) RReader; [rstep k false Hinv Hi Hat|rstep (k + 1) false Hinv Hi Hat];
      rewrite ?Hp; cbn [counted writing upgradable reading panicked]; rnum.
  - (* its drop, of an upgradable reader *)
    injection Hact as <-. specialize (Hb1 Hcu). subst b.
    assert (wrap64 (rw_word (cnt counted (rcores m) + k) true (cnt writing (rcores m)) - UPGRADED)
        = rw_word (cnt counted (rcores m) + k) false (cnt writing (rcores m))) as ->
        by (rewrite wrap_small; [rnum|unfold word; rnum]).
    rleaving (rcpu c) RReader; [rstep k false Hinv Hi Hat|rstep (k + 1) false Hinv Hi Hat];
      rewrite ?Hp; cbn [counted writing upgradable reading panicked]; rnum.
Qed.

(** ** Properties *)

Definition rw_step m m' : Prop := ∃ i a, a ≠ RToUpgradable ∧ rcore_act m i a = Some m'.

Definition outside (l : list RCore) : Prop := Forall (λ c, rat c = ROutside) l.

Lemma rw_new_inv l : outside l → Z.of_nat (length l) < 2 ^ 60 → rw_inv (rw_new l).
Proof.
  intros Ho Hl. assert (∀ p, p ROutside = false → cnt p l = 0) as Hz.
  { intros p Hp. clear Hl. induction Ho as [|c l Hc Ho IH]; [done|]. rewrite cnt_cons, Hc, Hp. simpl. lia. }
  split; cbn [rw_new rcores word_]; rewrite ?(Hz writing), ?(Hz upgradable) by done; try done.
  exists 0, false. rewrite (Hz counted), (Hz panicked) by done. by split_and!.
Qed.

Lemma rw_steps_inv l m : outside l → Z.of_nat (length l) < 2 ^ 60 → rtc rw_step (rw_new l) m → rw_inv m.
Proof.
  intros Ho Hl Hs. pose proof (rw_new_inv l Ho Hl) as Hi. induction Hs as [|m1 m2 m3 (i&a&Ha&Hact) _ IH]; [done|].
  apply IH. by eapply ract_inv.
Qed.

(** C24. Whatever the cores do with [try_read], [try_write],
    [try_upgradeable_read], [try_upgrade], the drops of guards and
    [downgrade], in any order, a core with exclusive access is alone: no other
    core reads, writes or may upgrade; and there is at most one upgradable
    guard, beside which others may read. *)
Theorem rw_lock_excludes (l : list RCore) (m : RwLock) (i j : nat) (ci cj : RCore) :
  outside l → Z.of_nat (length l) < 2 ^ 60 → rtc rw_step (rw_new l) m →
  rcores m !! i = Some ci → rcores m !! j = Some cj → i ≠ j →
  (writing (rat ci) = true → reading (rat cj) = false ∧ writing (rat cj) = false ∧ upgradable (rat cj) = false) ∧
  (upgradable (rat ci) = true → upgradable (rat cj) = false).
Proof.
  intros Ho Hl Hs Hi Hj Hne. pose proof (rw_steps_inv l m Ho Hl Hs) as [_ Hone Hexcl _].
  pose proof (cnt_nonneg writing (rcores m)). pose proof (cnt_nonneg upgradable (rcores m)).
  split; [intros Hwi; pose proof (cnt_one writing _ i ci Hi Hwi)|intros Hui].
  - split_and!; apply not_true_iff_false; intros Hx.
    + pose proof (cnt_one reading _ j cj Hj Hx). lia.
    + pose proof (cnt_two writing _ i j ci cj Hi Hj Hne Hwi Hx). lia.
    + pose proof (cnt_one upgradable _ j cj Hj Hx). lia.
  - apply not_true_iff_false. intros Hx. pose proof (cnt_two upgradable _ i j ci cj Hi Hj Hne Hui Hx). lia.
Qed.

Definition three_cores : list RCore := replicate 3 (mkRCore (mkCpu 0 false true) ROutside).

(** A failed [try_read] whose two halves lie around
    [downgrade_to_upgradeable] takes the word below zero. *)
Definition to_upgradable_acts : list (nat * ract) :=
  [(0, RTryWrite false); (1, RTryRead); (0, RToUpgradable); (1, RTryReadCheck); (0, RDropUpgradable);
   (1, RTryRead); (1, RTryReadCheck); (2, RTryWrite false)]%nat.

Definition downgrade_acts : list (nat * ract) :=
  [(0, RTryWrite false); (0, RDowngrade); (0, RDowngradeDrop); (0, RDropReader)]%nat.

(** [downgrade_to_upgradeable] stores the word anew and loses the readers
    that are about to undo their attempt: after it and one failed [try_read] a
    reader and a writer hold the lock at once.  And the guard that [downgrade]
    gives back is dropped with interrupts already popped: its drop panics. *)
Theorem rw_downgrades_fail :
  (∃ m c1 c2, rrun (rw_new three_cores) to_upgradable_acts = Some m ∧
     rcores m !! 1%nat = Some c1 ∧ rcores m !! 2%nat = Some c2 ∧ rat c1 = RReader ∧ rat c2 = RWriter) ∧
  (∃ m c, rrun (rw_new three_cores) downgrade_acts = Some m ∧ rcores m !! 0%nat = Some c ∧ rat c = RPanicked).
Proof.
  split.
  - eexists _, _, _. split; [vm_compute; reflexivity|]. by vm_compute.
  - eexists _, _. split; [vm_compute; reflexivity|]. by vm_compute.
Qed.

Definition excl_acts : list (nat * ract) := [(1, RTryRead); (0, RTryUpgradable); (1, RTryReadCheck); (1, RDropReader);
  (0, RTryUpgrade false)]%nat.

Lemma rrun_steps (acts : list (nat * ract)) m m' : Forall (λ ia, ia.2 ≠ RToUpgradable) acts → rrun m acts = Some m' → rtc rw_step m m'.
Proof.
  revert m. induction acts as [|[i a] acts IH]; intros m Hf; simpl; [by intros [= ->]|].
  inversion_clear Hf as [|x y Ha Hf']. destruct (rcore_act m i a) as [m1|] eqn:Hact; [|done]. intros Hr.
  apply rtc_l with m1; [by exists i, a|by apply IH].
Qed.

(** Core 0 upgrades after the reader beside it has gone. *)
Lemma rw_lock_excludes_witness :
  ∃ m c0 c1, rrun (rw_new three_cores) excl_acts = Some m ∧ rcores m !! 0%nat = Some c0 ∧ rcores m !! 1%nat = Some c1 ∧
    writing (rat c0) = true ∧ reading (rat c1) = false.
Proof.
  set (o := mkCpu 0 true true). set (h := mkCpu 1 true false).
  exists (mkRw 1 [mkRCore h RWriter; mkRCore o ROutside; mkRCore (mkCpu 0 false true) ROutside]), (mkRCore h RWriter), (mkRCore o ROutside).
  assert (rrun (rw_new three_cores) excl_acts = Some (mkRw 1 [mkRCore h RWriter; mkRCore o ROutside; mkRCore (mkCpu 0 false true) ROutside]))
    as Hr by (by vm_compute).
  assert (outside three_cores) as Ho by (by repeat constructor).
  assert (Forall (λ ia, ia.2 ≠ RToUpgradable) excl_acts) as Hf by (by repeat constructor).
  split; [exact Hr|]. split; [done|]. split; [done|]. split; [done|].
  exact (proj1 (proj1 (rw_lock_excludes three_cores _ 0 1 _ (mkRCore o ROutside) Ho ltac:(simpl; lia)
    (rrun_steps _ _ _ Hf Hr) eq_refl eq_refl ltac:(lia)) eq_refl)).
Defined.
