(* ===== verification/VirtFile.v ===== *)
(** * Files in memory (kernel/src/file/vfs/virt_file.rs)

    [VirtFileInner]: frames with their bytes, a size and a position.  The
    methods of [VirtFile] run them under its lock. *)

From S2P Require Import Prelude Bytes BitAlloc Addr PageFrame FatIo BaseFile.

Record VirtFileInner := mkVf { vf_frames : list PFrame; vf_size : Z; vf_pos : Z }.

Implicit Types self : VirtFileInner.

Definition vf_new : VirtFileInner := mkVf [] 0 0.

(** [set_pos] *)
Definition vf_set_pos self (pos : Z) : VirtFileInner := mkVf (vf_frames self) (vf_size self) pos.

(** The loop over the pages after the first one. *)
Fixpoint read_pages (pages : list PFrame) (buf_pos read_len : Z) (buf : list Z) : list Z :=
  match pages with
  | [] => buf
  | page :: pages' =>
      if buf_pos + PAGE_SIZE <=? read_len
      then read_pages pages' (buf_pos + PAGE_SIZE) read_len (splice buf_pos (pf_data page) buf)
      else splice buf_pos (bytes_at 0 (read_len - buf_pos) (pf_data page)) buf
  end.

Definition vf_read_inner self (buf : list Z) : outcome (option Z * list Z * VirtFileInner) :=
  let read_len := Z.min (len buf) (wrap64 (vf_size self - vf_pos self)) in
  if read_len =? 0 then Ret (Some 0, buf, self)
  else
    let page_now := addr_to_page_id (vf_pos self) in
    let off := page_offset (vf_pos self) in
    page ← index (vf_frames self) page_now;
    let buf :=
      if off + read_len <=? PAGE_SIZE
      then splice 0 (bytes_at off read_len (pf_data page)) buf
      else
        let buf := splice 0 (bytes_at off (PAGE_SIZE - off) (pf_data page)) buf in
        read_pages (drop (Z.to_nat (page_now + 1)) (vf_frames self)) (PAGE_SIZE - off) read_len buf in
    Ret (Some read_len, buf, vf_set_pos self (wrap64 (vf_pos self + read_len))).

(** The same for writing; the pages as they are afterwards. *)
Fixpoint write_pages (pages : list PFrame) (buf_pos : Z) (buf : list Z) : list PFrame :=
  match pages with
  | [] => []
  | page :: pages' =>
      if buf_pos + PAGE_SIZE <=? len buf
      then mkPFrame (pf_frame page) (bytes_at buf_pos PAGE_SIZE buf) :: write_pages pages' (buf_pos + PAGE_SIZE) buf
      else mkPFrame (pf_frame page) (splice 0 (bytes_at buf_pos (len buf - buf_pos) buf) (pf_data page)) :: pages'
  end.

Definition put_bytes (off : Z) (bs : list Z) (page : PFrame) : PFrame :=
  mkPFrame (pf_frame page) (splice off bs (pf_data page)).

(** The copies into the frames, [page] the first one. *)
Definition write_frames (frames : list PFrame) (pos : Z) (page : PFrame) (buf : list Z) : list PFrame :=
  let page_now := addr_to_page_id pos in
  let off := page_offset pos in
  if off + len buf <=? PAGE_SIZE
  then <[Z.to_nat page_now := put_bytes off buf page]> frames
  else
    take (Z.to_nat page_now) frames ++
    put_bytes off (bytes_at 0 (PAGE_SIZE - off) buf) page ::
    write_pages (drop (Z.to_nat (page_now + 1)) frames) (PAGE_SIZE - off) buf.

Definition vf_seek self (seekfrom : SeekFrom) : option Z * VirtFileInner :=
  let go (pos : Z) := (Some pos, vf_set_pos self pos) in
  match seekfrom with
  | SStart pos => go pos
  | SCurrent pos =>
      if swrap 64 (swrap 64 (vf_pos self) + pos) <? 0 then (None, self)
      else go (wrap64 (swrap 64 (vf_pos self) + pos))
  | SEnd pos =>
      if swrap 64 (swrap 64 (vf_size self) + pos) <? 0 then (None, self)
      else go (wrap64 (swrap 64 (vf_size self) + pos))
  end.

Section virt_file.
Context {A : Type} `{BitAlloc A} `{PageFrameConfig}.
Context {SB : StaleBytes}.

Definition lift_outcome {R} (o : outcome R) : M A R := λ a, r ← o; Ret (r, a).

(** [for _i in frames.len()..=page_needed]: new frames keep what they held. *)
Definition grow (frames : list PFrame) (page_needed : Z) : M A (list PFrame) :=
  foldMW (λ frames _,
      f ← frame_new;
      match f with
      | Some f => mret (frames ++ [mkPFrame f (stale f)])
      | None => λ _, Panic
      end) frames (seqZ (Z.of_nat (length frames)) (page_needed + 1 - Z.of_nat (length frames))).

Definition vf_write_inner self (buf : list Z) : M A (option Z * VirtFileInner) :=
  if len buf =? 0 then mret (Some 0, self)
  else
    let page_needed := addr_to_page_id (wrap64 (vf_pos self + len buf - 1)) in
    frames ← grow (vf_frames self) page_needed;
    page ← lift_outcome (index frames (addr_to_page_id (vf_pos self)));
    let frames := write_frames frames (vf_pos self) page buf in
    let pos := wrap64 (vf_pos self + len buf) in
    mret (Some (len buf), mkVf frames (Z.max (vf_size self) pos) pos).

Definition vf_read_from_offset self (pos : Z) (buf : list Z) : outcome (option Z * list Z * VirtFileInner) :=
  let old_pos := vf_pos self in
  '(r, buf, self) ← vf_read_inner (vf_set_pos self pos) buf;
  Ret (r, buf, vf_set_pos self old_pos).

Definition vf_write_to_offset self (pos : Z) (buf : list Z) : M A (option Z * VirtFileInner) :=
  let old_pos := vf_pos self in
  '(r, self) ← vf_write_inner (vf_set_pos self pos) buf;
  mret (r, vf_set_pos self old_pos).

(** [clear] drops the frames. *)
Definition vf_clear self : M A VirtFileInner :=
  _ ← foldMW (λ _ page, frame_drop (pf_frame page)) tt (vf_frames self);
  mret (mkVf [] 0 0).

(** [VirtFile] as a file: its state is the inner file and the allocator. *)
Definition on_file {R} (f : VirtFileInner → M A (R * VirtFileInner)) : M (VirtFileInner * A) R := λ '(self, a),
  '(r, self, a) ← f self a; Ret (r, (self, a)).

Definition pure_read (r : outcome (option Z * list Z * VirtFileInner)) : M A ((option Z * list Z) * VirtFileInner) :=
  λ a, '(n, buf, self) ← r; Ret ((n, buf), self, a).

Definition vf_file_clear : M (VirtFileInner * A) unit :=
  on_file (λ self, self ← vf_clear self; mret (tt, self)).

#[export] Instance VirtFile_File : File (VirtFileInner * A) unit := {|
  file_read _ buf := on_file (λ self, pure_read (vf_read_inner self buf));
  file_write _ buf := on_file (λ self, vf_write_inner self buf);
  file_seek _ s := on_file (λ self, mret (vf_seek self s));
  file_read_from_offset _ pos buf := on_file (λ self, pure_read (vf_read_from_offset self pos buf));
  file_write_to_offset _ pos buf := on_file (λ self, vf_write_to_offset self pos buf) |}.
End virt_file.
