(* ===== verification/VirtFileSpec.v ===== *)
(** * A file in memory is a byte string and a position

    Histories of reads, writes, seeks and clears inside the file run like the
    same operations on a byte string; the file holds just the pages its size
    needs, and a write panics only when memory runs out. *)

From S2P Require Import Prelude Bytes BitAlloc BitAllocSpec Addr PageFrame PageFrameSpec FatIo BaseFile VirtFile.

(** The bytes of the pages, one after the other. *)
Definition flat (pages : list PFrame) : list Z := concat (map pf_data pages).

Definition page_full (page : PFrame) : Prop := len (pf_data page) = PAGE_SIZE ∧ frame_count (pf_frame page) = 1.

Implicit Types pages : list PFrame.
Implicit Types self : VirtFileInner.

Lemma flat_app pages1 pages2 : flat (pages1 ++ pages2) = flat pages1 ++ flat pages2.
Proof. unfold flat. by rewrite map_app, concat_app. Qed.

Lemma len_flat pages : Forall page_full pages → len (flat pages) = PAGE_SIZE * Z.of_nat (length pages).
Proof.
  unfold flat, PAGE_SIZE. induction 1 as [|page pages [Hp _] _ IH]; [done|]. cbn [map concat].
  rewrite len_app, IH, Hp. unfold PAGE_SIZE. cbn [length]. lia.
Qed.

(** Page [k] between the pages before and after it. *)
Lemma pages_split pages k page : pages !! k = Some page →
  pages = take k pages ++ page :: drop (k + 1) pages.
Proof. intros H. rewrite Nat.add_1_r. symmetry. by apply take_drop_middle. Qed.

(** ** Reading *)

Lemma read_pages_ok pages b n buf : Forall page_full pages →
  0 <= b <= n → n - b <= len (flat pages) → n <= len buf →
  read_pages pages b n buf = splice b (bytes_at 0 (n - b) (flat pages)) buf.
Proof.
  intros Hp. revert b buf. induction Hp as [|page pages [Hpl Hpc] Hps IH]; intros b buf Hb Hn Hbuf.
  - cbn in *. unfold len in Hn; simpl in Hn. replace (n - b) with 0 by lia. by rewrite bytes_at_0, splice_nil.
  - cbn [read_pages]. change (flat (page :: pages)) with (pf_data page ++ flat pages) in *.
    rewrite len_app in Hn. unfold PAGE_SIZE in *. destruct (Z.leb_spec (b + 0x1000) n).
    + rewrite IH by (rewrite ?len_splice; lia).
      rewrite bytes_at_app_both by lia. rewrite splice_app.
      2: lia.
      2: { rewrite len_app, !len_bytes_at by lia. lia. }
      rewrite len_bytes_at by lia. rewrite Hpl, Z.sub_0_r, (bytes_at_all 0x1000) by done.
      by replace (n - (b + 0x1000)) with (n - b - 0x1000) by lia.
    + by rewrite bytes_at_app_l by lia.
Qed.

(** Where a position falls. *)
Lemma pos_page p k : 0 <= p → p < PAGE_SIZE * Z.of_nat k →
  0 <= addr_to_page_id p < Z.of_nat k ∧ 0 <= page_offset p < PAGE_SIZE ∧
  p = PAGE_SIZE * addr_to_page_id p + page_offset p.
Proof.
  intros. rewrite page_offset_mod. unfold addr_to_page_id, PAGE_SIZE in *. dlia.
Qed.

(** The bytes at a position, seen from its page. *)
Lemma flat_at pages p page : Forall page_full pages → 0 <= p →
  pages !! Z.to_nat (addr_to_page_id p) = Some page →
  let k := Z.to_nat (addr_to_page_id p) in
  let rest := drop (Z.to_nat (addr_to_page_id p + 1)) pages in
  pages = take k pages ++ page :: rest ∧ len (flat (take k pages)) + page_offset p = p ∧
  flat pages = flat (take k pages) ++ pf_data page ++ flat rest ∧
  0 <= page_offset p < PAGE_SIZE ∧ len (pf_data page) = PAGE_SIZE ∧ Forall page_full rest ∧
  Forall page_full (take k pages).
Proof.
  intros Hp Hpos Hk k rest. pose proof (lookup_lt_Some _ _ _ Hk) as Hlt.
  destruct (pos_page p (length pages) Hpos) as (H1&H2&H3).
  { unfold addr_to_page_id, PAGE_SIZE in *. dlia. }
  assert (pages = take k pages ++ page :: rest) as Heq.
  { unfold rest. rewrite Z2Nat.inj_add by lia. by apply pages_split. }
  split; [done|]. split.
  { rewrite len_flat by (by apply Forall_take). rewrite length_take_le by (subst k; lia). subst k.
    rewrite Z2Nat.id by lia. lia. }
  split. { rewrite Heq at 1. by rewrite flat_app. }
  split; [done|]. split. { by apply (Forall_lookup_1 _ _ _ _ Hp Hk). }
  split; [by apply Forall_drop|by apply Forall_take].
Qed.

Lemma vf_read_inner_ok self buf : Forall page_full (vf_frames self) →
  0 <= vf_pos self <= vf_size self → vf_size self <= len (flat (vf_frames self)) → vf_size self < 2 ^ 63 →
  let n := Z.min (len buf) (vf_size self - vf_pos self) in
  vf_read_inner self buf =
    Ret (Some n, splice 0 (bytes_at (vf_pos self) n (flat (vf_frames self))) buf,
         vf_set_pos self (vf_pos self + n)).
Proof.
  intros Hp Hpos Hsize Hmax n. pose proof (len_nonneg buf) as Hb. unfold vf_read_inner.
  rewrite (wrap_small 64 (vf_size self - vf_pos self)) by (unfold word; lia). fold n.
  destruct (Z.eqb_spec n 0) as [Hn|Hn].
  { rewrite Hn, bytes_at_0, splice_nil, Z.add_0_r. by destruct self. }
  rewrite len_flat in Hsize by done.
  destruct (pos_page (vf_pos self) (length (vf_frames self))) as (H1&H2&H3); [lia|lia|].
  destruct (index_Ret (vf_frames self) (addr_to_page_id (vf_pos self))) as (page&Hi&Hk); [lia|].
  rewrite Hi, bind_Ret.
  destruct (flat_at _ _ _ Hp (proj1 Hpos) Hk) as (_&Hf1&Hf2&_&Hf3&Hf4&_).
  set (o := page_offset (vf_pos self)) in *. set (pre := flat (take _ _)) in *. set (rest := drop _ _) in *.
  assert (len (flat rest) = len (flat (vf_frames self)) - len pre - PAGE_SIZE) as Hrest.
  { rewrite Hf2, !len_app. lia. }
  rewrite (len_flat (vf_frames self)) in Hrest by done.
  rewrite (wrap_small 64 (vf_pos self + n)) by (unfold word; lia).
  replace (splice 0 (bytes_at (vf_pos self) n (flat (vf_frames self))) buf)
    with (splice 0 (bytes_at o n (pf_data page ++ flat rest)) buf).
  2: { rewrite Hf2, <- (bytes_at_app_r o n pre) by lia. by rewrite Hf1. }
  unfold PAGE_SIZE in *. destruct (Z.leb_spec (o + n) 0x1000).
  - by rewrite bytes_at_app_l by lia.
  - rewrite read_pages_ok by (rewrite ?len_splice; done || lia).
    rewrite bytes_at_app_both by lia. rewrite splice_app.
    2: lia.
    2: { rewrite len_app, !len_bytes_at by lia. lia. }
    rewrite len_bytes_at, Hf3 by lia. done.
Qed.

(** ** Writing *)

Lemma write_pages_ok pages b buf : Forall page_full pages →
  0 <= b <= len buf → len buf - b <= len (flat pages) →
  let pages' := write_pages pages b buf in
  flat pages' = splice 0 (bytes_at b (len buf - b) buf) (flat pages) ∧
  Forall page_full pages' ∧ map pf_frame pages' = map pf_frame pages.
Proof.
  intros Hp. revert b. induction Hp as [|page pages [Hpl Hpc] Hps IH]; intros b Hb Hn.
  - cbn in *. unfold len in Hn at 2; simpl in Hn. replace (len buf - b) with 0 by lia. done.
  - cbn [write_pages]. change (flat (page :: pages)) with (pf_data page ++ flat pages) in *.
    rewrite len_app in Hn. unfold PAGE_SIZE in *. destruct (Z.leb_spec (b + 0x1000) (len buf)).
    + destruct (IH (b + 0x1000)) as (H1&H2&H3); [lia|lia|]. cbn [map].
      split; [|split; [constructor; [|done]; split; [|done]; cbn; rewrite len_bytes_at; unfold PAGE_SIZE; lia|by rewrite H3]].
      unfold flat in *. cbn [map concat]. rewrite H1. cbn [pf_data].
      replace (len buf - b) with (0x1000 + (len buf - (b + 0x1000))) by lia.
      rewrite bytes_at_app, splice_app_both by (rewrite ?len_bytes_at; lia).
      by rewrite (splice_all (bytes_at b 0x1000 buf)) by (rewrite len_bytes_at; lia).
    + split; [|split; [constructor; [|done]; split; [|done]; cbn; rewrite len_splice; unfold PAGE_SIZE; lia|done]].
      unfold flat. cbn [map concat]. rewrite splice_app_l by (rewrite ?len_bytes_at; lia). done.
Qed.

Lemma write_frames_ok pages p buf : Forall page_full pages →
  0 <= p → 0 < len buf → p + len buf <= len (flat pages) →
  ∃ page, index pages (addr_to_page_id p) = Ret page ∧
    let pages' := write_frames pages p page buf in
    flat pages' = splice p buf (flat pages) ∧ Forall page_full pages' ∧
    map pf_frame pages' = map pf_frame pages.
Proof.
  intros Hp Hpos Hbuf Hn. pose proof Hn as Hn'. rewrite len_flat in Hn' by done.
  destruct (pos_page p (length pages)) as (H1&H2&H3); [lia|lia|].
  destruct (index_Ret pages (addr_to_page_id p)) as (page&Hi&Hk); [lia|].
  exists page. split; [done|]. unfold write_frames.
  destruct (flat_at _ _ _ Hp Hpos Hk) as (Heq&Hf1&Hf2&_&Hf3&Hf4&Hf5).
  assert (frame_count (pf_frame page) = 1) as Hc by (by apply (Forall_lookup_1 _ _ _ _ Hp Hk)).
  set (o := page_offset p) in *. set (rest := drop _ _) in *. set (pre := take _ _) in *.
  assert (len (flat pages) = len (flat pre) + PAGE_SIZE + len (flat rest)) as Hlen.
  { rewrite Hf2, !len_app. lia. }
  assert (∀ bs, o + len bs <= PAGE_SIZE → page_full (put_bytes o bs page)) as Hput.
  { intros. split; cbn; [by rewrite len_splice|done]. }
  assert (splice p buf (flat pages) = flat pre ++ splice o buf (pf_data page ++ flat rest)) as ->.
  { rewrite <- Hf1, Hf2. by rewrite splice_app_r by lia. }
  unfold PAGE_SIZE in *. destruct (Z.leb_spec (o + len buf) 0x1000).
  - rewrite insert_take_drop by (apply lookup_lt_Some in Hk; exact Hk). fold pre.
    replace (drop (S (Z.to_nat (addr_to_page_id p))) pages) with rest by (unfold rest; f_equal; lia).
    split; [|split].
    + rewrite flat_app. f_equal. unfold flat. cbn [map concat put_bytes pf_data].
      by rewrite splice_app_l by lia.
    + apply Forall_app. split; [done|]. constructor; [by apply Hput|done].
    + rewrite Heq. by rewrite !map_app.
  - destruct (write_pages_ok rest (0x1000 - o) buf Hf4) as (Hw1&Hw2&Hw3); [lia|lia|].
    split; [|split].
    + rewrite flat_app. f_equal. unfold flat in *. cbn [map concat put_bytes pf_data]. rewrite Hw1.
      replace (splice o buf) with (splice o (bytes_at 0 (0x1000 - o + (len buf - (0x1000 - o))) buf)).
      2: { f_equal. apply bytes_at_all. lia. }
      rewrite (bytes_at_app 0) by lia. rewrite Z.add_0_l.
      rewrite splice_app_both by (rewrite ?len_bytes_at by lia; lia). done.
    + apply Forall_app. split; [done|]. constructor; [|done].
      apply Hput. rewrite len_bytes_at; lia.
    + rewrite Heq. rewrite !map_app. cbn [map put_bytes pf_frame]. by rewrite Hw3.
Qed.

(** ** The byte string the file stands for *)

(** The pages a file of [n] bytes takes. *)
Definition pages_of (n : Z) : Z := (n + (PAGE_SIZE - 1)) / PAGE_SIZE.

Definition MemFile : Type := list Z * Z.

Inductive vf_op :=
| VRead (buf : list Z)
| VWrite (buf : list Z)
| VSeek (s : SeekFrom)
| VReadAt (pos : Z) (buf : list Z)
| VWriteAt (pos : Z) (buf : list Z)
| VClear.

(** Reads and writes start inside the content, positions are file positions. *)
Definition vf_asks (op : vf_op) (st : MemFile) : Prop :=
  let '(c, p) := st in
  let good (q : Z) := - 2 ^ 63 <= q < 2 ^ 63 in
  match op with
  | VRead _ => p <= len c
  | VWrite buf => p <= len c ∧ p + len buf < 2 ^ 63
  | VSeek (SStart q) => 0 <= q < 2 ^ 63
  | VSeek (SCurrent d) => good (p + d)
  | VSeek (SEnd d) => good (len c + d)
  | VReadAt q _ => 0 <= q <= len c
  | VWriteAt q buf => 0 <= q <= len c ∧ q + len buf < 2 ^ 63
  | VClear => True
  end.

Definition read_of (q : Z) (buf c : list Z) : option Z * list Z :=
  let n := Z.min (len buf) (len c - q) in (Some n, splice 0 (bytes_at q n c) buf).

(** What an operation does to the bytes, with memory for [m] pages. *)
Definition vf_does (m : Z) (op : vf_op) (st : MemFile) : option (option Z * list Z * MemFile) :=
  let '(c, p) := st in
  let write q buf (p' : Z) :=
    let c' := overwrite q buf c in
    if pages_of (len c') <=? m then Some (Some (len buf), [], (c', p')) else None in
  let seek q := if q <? 0 then Some (None, [], st) else Some (Some q, [], (c, q)) in
  match op with
  | VRead buf => Some (read_of p buf c, (c, p + Z.min (len buf) (len c - p)))
  | VWrite buf => write p buf (p + len buf)
  | VSeek (SStart q) => seek q
  | VSeek (SCurrent d) => seek (p + d)
  | VSeek (SEnd d) => seek (len c + d)
  | VReadAt q buf => Some (read_of q buf c, st)
  | VWriteAt q buf => write q buf p
  | VClear => Some (None, [], ([], 0))
  end.

Fixpoint vf_asks_all (m : Z) (l : list vf_op) (st : MemFile) : Prop :=
  match l with
  | [] => True
  | op :: l => vf_asks op st ∧ match vf_does m op st with Some (_, st) => vf_asks_all m l st | None => True end
  end.

Fixpoint vf_does_all (m : Z) (l : list vf_op) (st : MemFile) : option (list (option Z * list Z) * MemFile) :=
  match l with
  | [] => Some ([], st)
  | op :: l =>
      '(r, st) ← vf_does m op st;
      '(rs, st) ← vf_does_all m l st;
      Some (r :: rs, st)
  end.

Section memory_file.
Context {A : Type} {ops : BitAlloc A} {V : BitAllocView A} {BS : BitAllocSpec A}.
Context {cfg : PageFrameConfig} {CO : ConfigOk cfg (CAP A)} {SB : StaleBytes}.
Context (stale_len : ∀ fr, len (stale fr) = PAGE_SIZE).
Context (R : Z → bool) (live : list Frame).
Implicit Types a : A.

Definition holds a pages : Prop :=
  frames_inv R a (map pf_frame pages ++ live) ∧ Forall page_full pages.

(** The frames of the region that are not live elsewhere. *)
Definition room : Z := sum_below (λ i, Z.b2z (R i)) (Z.to_nat (CAP A)) - held live.

Lemma holds_room a pages : holds a pages → free_count a + Z.of_nat (length pages) = room.
Proof.
  intros [Hf Hp]. unfold room. rewrite <- (frames_count _ _ _ Hf), held_app.
  assert (held (map pf_frame pages) = Z.of_nat (length pages)) as ->; [|lia].
  clear Hf. induction Hp as [|page pages [_ Hc] _ IH]; cbn; [done|]. rewrite Hc, IH. lia.
Qed.

Lemma holds_small a pages : CAP A <= 2 ^ 50 → holds a pages → len (flat pages) < 2 ^ 63.
Proof.
  intros Hcap Hh. pose proof (holds_room _ _ Hh) as Hr. rewrite len_flat by apply Hh.
  pose proof (free_count_bound a). pose proof (sum_below_bool R (Z.to_nat (CAP A))).
  assert (0 <= held live) as Hl.
  { destruct Hh as [(_&Hl&_) _]. apply Forall_app in Hl. destruct Hl as [_ Hl]. clear -Hl.
    induction Hl as [|fr l (?&_)]; cbn; lia. }
  unfold room, PAGE_SIZE in *. lia.
Qed.

(** The body of [grow]; the loop's index is not used. *)
Lemma grow_loop (l : list Z) a pages : holds a pages →
  let r := foldMW (λ frames _,
      f ← frame_new;
      match f with
      | Some f => mret (frames ++ [mkPFrame f (stale f)])
      | None => λ _, Panic
      end) pages l a in
  if Z.of_nat (length l) <=? free_count a
  then ∃ new a', r = Ret (pages ++ new, a') ∧ length new = length l ∧ holds a' (pages ++ new)
  else r = Panic.
Proof.
  revert a pages. induction l as [|i l IH]; intros a pages Hh.
  - pose proof (free_count_bound a). cbv zeta. cbn [length foldMW].
    destruct (Z.leb_spec (Z.of_nat 0) (free_count a)); [|lia].
    exists [], a. by rewrite app_nil_r.
  - pose proof (frame_new_count _ _ _ (proj1 Hh)) as Hn. cbn [foldMW]. revert Hn.
    destruct (Z.ltb_spec 0 (free_count a)); intros Hn.
    + destruct Hn as (fr&a1&Hn&Hi&Hc&Hfc).
      assert (holds a1 (pages ++ [mkPFrame fr (stale fr)])) as Hh1.
      { split.
        - eapply frames_inv_perm; [|exact Hi]. rewrite map_app. cbn. rewrite <- app_assoc.
          apply Permutation_middle.
        - apply Forall_app. split; [apply Hh|]. constructor; [|constructor]. split; [apply stale_len|done]. }
      specialize (IH a1 _ Hh1). cbv zeta in IH. unfold mbind, M_bind in *. rewrite Hn. cbn.
      revert IH. destruct (Z.leb_spec (Z.of_nat (length l)) (free_count a1)),
        (Z.leb_spec (Z.of_nat (S (length l))) (free_count a)); intros IH; try lia; [|exact IH].
      destruct IH as (new&a2&Hr&Hl&Hh2). exists (mkPFrame fr (stale fr) :: new), a2.
      rewrite <- app_assoc in Hr, Hh2. split; [exact Hr|]. split; [by cbn; rewrite Hl|done].
    + destruct (Z.leb_spec (Z.of_nat (length (i :: l))) (free_count a)); [cbn in *; lia|].
      unfold mbind, M_bind. by rewrite Hn.
Qed.

Lemma grow_ok a pages k : holds a pages → 
  let more := Z.max 0 (k + 1 - Z.of_nat (length pages)) in
  if more <=? free_count a
  then ∃ new a', grow pages k a = Ret (pages ++ new, a') ∧ Z.of_nat (length new) = more ∧ holds a' (pages ++ new)
  else grow pages k a = Panic.
Proof.
  intros Hh more. unfold grow.
  pose proof (grow_loop (seqZ (Z.of_nat (length pages)) (k + 1 - Z.of_nat (length pages))) a pages Hh) as H.
  cbv zeta in H. rewrite length_seqZ in H.
  replace (Z.of_nat (Z.to_nat (k + 1 - Z.of_nat (length pages)))) with more in H by lia.
  destruct (more <=? free_count a); [|exact H]. destruct H as (new&a'&?&?&?). exists new, a'.
  split_and!; [done|lia|done].
Qed.

(** The file [self] is the bytes [c] at position [p]. *)
Definition stands_for a self (st : MemFile) : Prop :=
  holds a (vf_frames self) ∧ vf_pos self = st.2 ∧ vf_size self = len st.1 ∧
  Z.of_nat (length (vf_frames self)) = pages_of (len st.1) ∧
  st.1 = take (Z.to_nat (len st.1)) (flat (vf_frames self)).

Lemma take_len (c l : list Z) : c = take (Z.to_nat (len c)) l → len c <= len l.
Proof. intros H. apply (f_equal len) in H. unfold len in *. rewrite length_take in H. lia. Qed.

(** The file without its position. *)
Lemma stands_for_at a self c p q : stands_for a self (c, p) → stands_for a (vf_set_pos self q) (c, q).
Proof. intros (?&_&?&?&?). by split_and!. Qed.

Lemma read_ok a self buf c p : CAP A <= 2 ^ 50 → 0 <= p <= len c → stands_for a self (c, p) →
  vf_read_inner self buf = Ret (read_of p buf c, vf_set_pos self (p + Z.min (len buf) (len c - p))).
Proof.
  intros Hcap Hp (Hh&Hpos&Hsize&Hk&Hc). cbn [fst snd] in *. pose proof (take_len _ _ Hc) as Hle.
  pose proof (holds_small _ _ Hcap Hh).
  pose proof (len_nonneg buf).
  rewrite vf_read_inner_ok by (apply Hh || lia). rewrite Hpos, Hsize. unfold read_of. do 3 f_equal.
  set (s := len c) in *. rewrite Hc. by rewrite bytes_at_take by lia.
Qed.

Lemma write_ok a self buf c p : CAP A <= 2 ^ 50 → 0 <= p <= len c → p + len buf < 2 ^ 63 →
  stands_for a self (c, p) →
  let c' := overwrite p buf c in
  if pages_of (len c') <=? room
  then ∃ self' a', vf_write_inner self buf a = Ret ((Some (len buf), self'), a') ∧
    stands_for a' self' (c', p + len buf)
  else vf_write_inner self buf a = Panic.
Proof.
  intros Hcap Hp Hb Hst c'. pose proof Hst as (Hh&Hpos&Hsize&Hk&Hc). cbn [fst snd] in *.
  pose proof (take_len _ _ Hc) as Hle. pose proof (holds_room _ _ Hh) as Hr.
  pose proof (free_count_bound a) as Hf. pose proof (len_nonneg buf).
  assert (len c' = Z.max (len c) (p + len buf)) as Hc' by (by apply len_overwrite).
  unfold vf_write_inner. destruct (Z.eqb_spec (len buf) 0) as [Hz|Hz].
  - assert (buf = []) as -> by (unfold len in Hz; destruct buf; [done|cbn in Hz; lia]).
    unfold c'. rewrite overwrite_nil by lia. destruct (Z.leb_spec (pages_of (len c)) room); [|lia].
    exists self, a. split; [done|]. by rewrite Z.add_0_r.
  - rewrite Hpos, !(wrap_small 64) by (unfold word; lia).
    pose proof (grow_ok a (vf_frames self) (addr_to_page_id (p + len buf - 1)) Hh) as Hg.
    cbv zeta in Hg. set (more := Z.max 0 _) in Hg.
    assert (pages_of (len c') = Z.of_nat (length (vf_frames self)) + more) as Hpages.
    { unfold more, pages_of, addr_to_page_id, PAGE_SIZE in *. rewrite Hk, Hc'. dlia. }
    revert Hg. destruct (Z.leb_spec more (free_count a)), (Z.leb_spec (pages_of (len c')) room); try lia.
    2: { intros Hg. unfold mbind, M_bind. by rewrite Hg. }
    intros (new&a'&Hg&Hn&Hh'). step Hg.
    set (pages := vf_frames self ++ new) in *.
    assert (Z.of_nat (length pages) = pages_of (len c')) as Hlp by (unfold pages; rewrite length_app; lia).
    assert (len c' <= len (flat pages)) as Hlc.
    { rewrite len_flat by apply Hh'. unfold pages_of, PAGE_SIZE in *. dlia. }
    destruct (write_frames_ok pages p buf) as (page&Hi&Hw1&Hw2&Hw3); [apply Hh'|lia|lia|lia|].
    assert (lift_outcome (index pages (addr_to_page_id p)) a' = Ret (page, a')) as Hl
      by (unfold lift_outcome; by rewrite Hi).
    step Hl. eexists _, a'. split; [rewrite Hsize; done|]. rewrite <- Hc'.
    split_and!; cbn [fst snd vf_frames vf_pos vf_size]; try done.
    + split; [by rewrite Hw3; apply Hh'|done].
    + rewrite <- Hlp. apply (f_equal length) in Hw3. by rewrite !length_map in Hw3; rewrite Hw3.
    + rewrite Hw1, Hc', <- overwrite_take by lia. unfold c'. f_equal.
      unfold pages. rewrite flat_app, take_app_le by (unfold len in *; lia). done.
Qed.

(** Dropping the pages gives the memory back. *)
Lemma drop_pages pages a : holds a pages →
  ∃ a', foldMW (λ _ page, frame_drop (pf_frame page)) tt pages a = Ret (tt, a') ∧ holds a' [].
Proof.
  revert a. induction pages as [|page pages IH]; intros a [Hf Hp].
  - by exists a.
  - inversion_clear Hp. destruct (frame_drop_spec _ _ _ (map pf_frame pages ++ live) (pf_frame page) Hf)
      as (a1&Hd&Hf1); [done|].
    destruct (IH a1) as (a2&Hr&Hh); [by split|]. exists a2. split; [|done].
    cbn [foldMW]. step Hd. exact Hr.
Qed.

Definition vf_call (op : vf_op) : M (VirtFileInner * A) (option Z * list Z) :=
  match op with
  | VRead buf => file_read tt buf
  | VWrite buf => r ← file_write tt buf; mret (r, [])
  | VSeek s => r ← file_seek tt s; mret (r, [])
  | VReadAt pos buf => file_read_from_offset tt pos buf
  | VWriteAt pos buf => r ← file_write_to_offset tt pos buf; mret (r, [])
  | VClear => _ ← vf_file_clear; mret (None, [])
  end.

Fixpoint vf_calls (l : list vf_op) : M (VirtFileInner * A) (list (option Z * list Z)) :=
  match l with
  | [] => mret []
  | op :: l => r ← vf_call op; rs ← vf_calls l; mret (r :: rs)
  end.

(** One call and its counterpart on the byte string. *)
Definition call_agrees op a self (st : MemFile) : Prop :=
  match vf_does room op st with
  | Some (r, st') => ∃ self' a', vf_call op (self, a) = Ret (r, (self', a')) ∧
      stands_for a' self' st' ∧ - 2 ^ 63 <= st'.2 < 2 ^ 63
  | None => vf_call op (self, a) = Panic
  end.

Lemma seek_ok a self c p s : stands_for a self (c, p) → 0 <= p < 2 ^ 63 → len c < 2 ^ 63 →
  vf_asks (VSeek s) (c, p) → call_agrees (VSeek s) a self (c, p).
Proof.
  intros Hst Hp Hc Hasks. pose proof Hst as (_&Hpos&Hsize&_). cbn [fst snd] in *. pose proof (len_nonneg c).
  unfold call_agrees. cbn [vf_does vf_call file_seek VirtFile_File].
  unfold mbind, M_bind, on_file, mret, M_ret, vf_seek. cbv beta iota. rewrite Hpos, Hsize, !(swrap_small 64) by (destruct s; simpl in *; lia).
  destruct s as [q|d|d]; cbn [vf_asks] in Hasks.
  - destruct (Z.ltb_spec q 0); [lia|]. eexists _, _. split; [done|]. split; [by eapply stands_for_at|cbn; lia].
  - rewrite !(swrap_small 64) by lia. destruct (Z.ltb_spec (len c + d) 0).
    + exists self, a. split; [done|]. split; [done|cbn; lia].
    + rewrite !wrap_small by (unfold word; lia). eexists _, _. split; [done|].
      split; [by eapply stands_for_at|cbn; lia].
  - rewrite !(swrap_small 64) by lia. destruct (Z.ltb_spec (p + d) 0).
    + exists self, a. split; [done|]. split; [done|cbn; lia].
    + rewrite !wrap_small by (unfold word; lia). eexists _, _. split; [done|].
      split; [by eapply stands_for_at|cbn; lia].
Qed.

Lemma vf_call_ok op a self c p : CAP A <= 2 ^ 50 → stands_for a self (c, p) → 0 <= p < 2 ^ 63 →
  vf_asks op (c, p) → call_agrees op a self (c, p).
Proof.
  intros Hcap Hst Hp Hasks. pose proof Hst as (Hh&_&_&_&Hc). cbn [fst] in Hc.
  pose proof (take_len _ _ Hc). pose proof (holds_small _ _ Hcap Hh). pose proof (len_nonneg c).
  destruct op as [buf|buf|s|q buf|q buf|]; cbn [vf_asks] in Hasks.
  - unfold call_agrees. cbn. unfold pure_read. rewrite (read_ok a _ _ c p) by (done || lia). cbn.
    pose proof (len_nonneg buf). eexists _, _. split; [done|]. split; [by eapply stands_for_at|cbn; lia].
  - pose proof (write_ok a self buf c p Hcap) as Hw. cbv zeta in Hw.
    unfold call_agrees. cbn [vf_does vf_call file_write VirtFile_File]. unfold mbind, M_bind, on_file.
    revert Hw. destruct (pages_of _ <=? room); intros Hw.
    + destruct Hw as (self'&a'&Hw&Hst'); [lia|lia|done|]. pose proof (len_nonneg buf). rewrite Hw.
      eexists _, _. split; [done|]. split; [done|cbn; lia].
    + rewrite Hw by (done || lia). done.
  - apply seek_ok; done || lia.
  - unfold call_agrees. cbn. unfold pure_read, vf_read_from_offset.
    rewrite (read_ok a _ _ c q) by (try lia; by eapply stands_for_at). cbn.
    eexists _, _. split; [done|]. destruct Hst as (?&Hpos&?&?&?). cbn in Hpos. rewrite Hpos.
    split; [by split_and!|cbn; lia].
  - pose proof (write_ok a (vf_set_pos self q) buf c q Hcap) as Hw. cbv zeta in Hw.
    unfold call_agrees. cbn [vf_does vf_call file_write_to_offset VirtFile_File].
    unfold mbind, M_bind, on_file, vf_write_to_offset.
    revert Hw. destruct (pages_of _ <=? room); intros Hw.
    + destruct Hw as (self'&a'&Hw&Hst'); [lia|lia|by eapply stands_for_at|].
      unfold mbind, M_bind. rewrite Hw. eexists _, _. split; [done|].
      destruct Hst as (_&Hpos&_). cbn in Hpos. rewrite Hpos.
      split; [by eapply stands_for_at|cbn; lia].
    + unfold mbind, M_bind. rewrite Hw; [done|lia|lia|by eapply stands_for_at].
  - unfold call_agrees. destruct (drop_pages _ _ Hh) as (a'&Hd&Hh').
    cbn [vf_does vf_call]. unfold vf_file_clear, on_file, vf_clear, mbind, M_bind. rewrite Hd.
    eexists _, _. split; [done|]. split; [|cbn; lia]. by split_and!.
Qed.

Lemma vf_does_pos op st r st' : 0 <= st.2 → vf_asks op st → vf_does room op st = Some (r, st') → 0 <= st'.2.
Proof.
  destruct st as [c p]. pose proof (len_nonneg c). intros Hp Hasks Hd.
  destruct op as [buf|buf|[q|d|d]|q buf|q buf|]; cbn in *; try pose proof (len_nonneg buf);
    repeat (case_match || case_bool_decide); simplify_eq; cbn; try done; try lia;
    match goal with H : (_ <? _) = false |- _ => apply Z.ltb_ge in H; lia end.
Qed.

Lemma vf_calls_ok l a self st : CAP A <= 2 ^ 50 → stands_for a self st → 0 <= st.2 < 2 ^ 63 →
  vf_asks_all room l st →
  match vf_does_all room l st with
  | Some (rs, st') => ∃ self' a', vf_calls l (self, a) = Ret (rs, (self', a')) ∧ stands_for a' self' st'
  | None => vf_calls l (self, a) = Panic
  end.
Proof.
  intros Hcap. revert a self st. induction l as [|op l IH]; intros a self st Hst Hp Hasks.
  - by exists self, a.
  - destruct Hasks as [Hask Hasks]. destruct st as [c p].
    pose proof (vf_call_ok op a self c p Hcap Hst Hp Hask) as Hcall. unfold call_agrees in Hcall.
    cbn [vf_does_all vf_calls]. destruct (vf_does room op (c, p)) as [[r st1]|] eqn:Hd.
    + destruct Hcall as (self1&a1&Hcall&Hst1&Hp1). apply vf_does_pos in Hd; [|apply Hp|done].
      specialize (IH a1 self1 st1 Hst1 ltac:(lia) Hasks). step Hcall. cbn.
      destruct (vf_does_all room l st1) as [[rs st2]|]; cbn.
      * destruct IH as (self2&a2&Hr&Hst2). exists self2, a2. split; [|done]. by step Hr.
      * unfold mbind, M_bind. by rewrite IH.
    + cbn. unfold mbind, M_bind. by rewrite Hcall.
Qed.
End memory_file.

(** ** Properties *)

(** C20. From an empty file, any history of reads, writes, seeks and clears that
    starts inside the content returns what the same history on a byte string
    with a position returns: the bytes read, how many, and the bytes left in
    the file; the file holds just the pages its size needs, and the kernel
    panics exactly at the first write that needs more pages than the free
    frames there were. *)
Theorem memory_file_is_bytes {A : Type} {ops : BitAlloc A} {V : BitAllocView A} {BS : BitAllocSpec A}
    {cfg : PageFrameConfig} {CO : ConfigOk cfg (CAP A)} {SB : StaleBytes}
    (R : Z → bool) (live : list Frame) (a : A) (l : list vf_op) :
  (∀ fr, len (stale fr) = PAGE_SIZE) → CAP A <= 2 ^ 50 → frames_inv R a live →
  vf_asks_all (free_count a) l ([], 0) →
  match vf_does_all (free_count a) l ([], 0) with
  | Some (rs, (c, p)) => ∃ self a', vf_calls l (vf_new, a) = Ret (rs, (self, a')) ∧
      take (Z.to_nat (vf_size self)) (flat (vf_frames self)) = c ∧ vf_size self = len c ∧ vf_pos self = p ∧
      Z.of_nat (length (vf_frames self)) = pages_of (len c) ∧
      frames_inv R a' (map pf_frame (vf_frames self) ++ live)
  | None => vf_calls l (vf_new, a) = Panic
  end.
Proof.
  intros Hstale Hcap Hinv. assert (holds R live a []) as Hh by (by split).
  pose proof (holds_room _ _ _ _ Hh) as Hr. cbn in Hr. rewrite Z.add_0_r in Hr. rewrite Hr. intros Hasks.
  pose proof (vf_calls_ok Hstale R live l a vf_new ([], 0) Hcap) as H.
  destruct (vf_does_all (room R live) l ([], 0)) as [[rs [c p]]|].
  - destruct H as (self&a'&Hrun&Hst); [by split_and!|cbn; lia|done|].
    destruct Hst as ([Hf _]&Hpos&Hsize&Hk&Hc). cbn in *. exists self, a'. rewrite Hsize. by split_and!.
  - apply H; [by split_and!|cbn; lia|done].
Qed.

(** A read that starts past the end of a file in memory, which a seek
    allows, does not report the end: what is left of the file wraps around, so
    the read panics when the position is past the last frame, and else returns
    the bytes that the frame happens to hold. *)
Theorem memory_file_read_past_end self (buf : list Z) :
  word 64 (vf_pos self) → 0 <= vf_size self < vf_pos self →
  0 < len buf <= PAGE_SIZE - page_offset (vf_pos self) → len buf <= 2 ^ 64 + vf_size self - vf_pos self →
  vf_read_inner self buf =
    match vf_frames self !! Z.to_nat (addr_to_page_id (vf_pos self)) with
    | None => Panic
    | Some page =>
        Ret (Some (len buf), splice 0 (bytes_at (page_offset (vf_pos self)) (len buf) (pf_data page)) buf,
             vf_set_pos self (wrap64 (vf_pos self + len buf)))
    end.
Proof.
  intros Hw Hp Hb Hl. unfold vf_read_inner.
  assert (wrap64 (vf_size self - vf_pos self) = 2 ^ 64 + vf_size self - vf_pos self) as ->.
  { unfold wrap. rewrite <- (Z.mod_add _ 1) by lia. unfold word in Hw. rewrite Z.mod_small; lia. }
  rewrite Z.min_l by lia. destruct (Z.eqb_spec (len buf) 0); [lia|].
  assert (0 <= addr_to_page_id (vf_pos self)) by (unfold addr_to_page_id, PAGE_SIZE; dlia).
  unfold index. destruct (Z.ltb_spec (addr_to_page_id (vf_pos self)) 0); [lia|].
  destruct (vf_frames self !! _) as [page|]; [|done]. cbn.
  destruct (Z.leb_spec (page_offset (vf_pos self) + len buf) PAGE_SIZE); [done|lia].
Qed.

(** Reading one byte past an empty file, and past the end of one page. *)
Lemma memory_file_read_past_end_witness :
  vf_read_inner (mkVf [] 0 1) [0] = Panic ∧
  vf_read_inner (mkVf [mkPFrame (mkFrame 0x80000000 1) [7; 8; 9]] 1 2) [0] =
    Ret (Some 1, [9], mkVf [mkPFrame (mkFrame 0x80000000 1) [7; 8; 9]] 1 3).
Proof.
  split.
  - rewrite memory_file_read_past_end; [reflexivity|by split|split; done|split; done|done].
  - rewrite memory_file_read_past_end; [reflexivity|by split|split; done|split; done|done].
Defined.

Section memory_file_at.
Import Machine.

(** Writing across a page border of a file in memory and reading it back. *)
Definition across_pages : list vf_op :=
  [VWrite (repeat 1 (Z.to_nat 5000)); VSeek (SStart 4090); VWrite [2; 3]; VReadAt 4089 [0; 0; 0; 0]].

Lemma memory_file_is_bytes_witness :
  ∃ rs c p, vf_does_all 16 across_pages ([], 0) = Some (rs, (c, p)) ∧
  list.last rs = Some (Some 4, [1; 2; 3; 1]) ∧
  ∃ self a', vf_calls across_pages (vf_new, machine_alloc) = Ret (rs, (self, a')) ∧ vf_size self = len c.
Proof.
  assert (CAP (Tower 0) <= 2 ^ 50) as Hcap by (vm_compute; congruence).
  assert (free_count machine_alloc = 16) as Hfree by (vm_compute; reflexivity).
  assert (vf_asks_all 16 across_pages ([], 0)) as Hasks by (vm_compute; intuition congruence).
  pose proof (memory_file_is_bytes first_16 [] machine_alloc across_pages stale_bytes_len Hcap machine_frames) as H.
  rewrite Hfree in H. specialize (H Hasks).
  destruct (vf_does_all 16 across_pages ([], 0)) as [[rs [c p]]|] eqn:Hd; [|vm_compute in Hd; done].
  destruct H as (self&a'&Hrun&_&Hs&_).
  exists rs, c, p. split; [done|]. split; [|by exists self, a'].
  apply (f_equal (λ r, match r with Some (rs, _) => list.last rs | None => None end)) in Hd.
  etransitivity; [symmetry; exact Hd|]. vm_compute. reflexivity.
Defined.
End memory_file_at.
