(* ===== verification/Pipe.v ===== *)
(** * Pipes (kernel/src/file/pipe.rs)

    The ring buffer over a file in memory, and the two ends of a pipe.  The
    ends share the buffer; [suspend_current_task] lets the other tasks, whose
    state is [Others], run and is a parameter: what they do to the pipe in the
    meantime. *)

From S2P Require Import Prelude Bytes BitAlloc Addr PageFrame FatIo BaseFile VirtFile.

Definition PIPE_SIZE_LIMIT : Z := 0x40000.

(** [&buf[s..e]] *)
Definition slice (s e : Z) (buf : list Z) : outcome (list Z) :=
  if (s <=? e) && (e <=? len buf) then Ret (bytes_at s (e - s) buf) else Panic.

(** ** [RingBuffer] *)

Record RingBuffer := mkRing {
  rb_data : VirtFileInner;
  rb_head : Z;
  rb_end : Z;
  rb_len : Z;
  rb_limit : Z }.

Implicit Types self : RingBuffer.

Definition rb_new (size_limit : Z) : RingBuffer := mkRing vf_new 0 0 0 size_limit.

Definition rb_is_full self : bool := rb_len self =? rb_limit self.
Definition rb_is_empty self : bool := rb_len self =? 0.

(** [self.data.read_inner(&mut buf[s..e])] *)
Definition read_slice (data : VirtFileInner) (s e : Z) (buf : list Z) : outcome (VirtFileInner * list Z) :=
  part ← slice s e buf;
  '(_, part, data) ← vf_read_inner data part;
  Ret (data, splice s part buf).

(** [read]; the buffer comes back filled. *)
Definition rb_read self (buf : list Z) : outcome (Z * list Z * RingBuffer) :=
  let max_len := Z.min (len buf) (rb_len self) in
  let left := wrap64 (rb_len self - max_len) in
  let data := vf_set_pos (rb_data self) (rb_head self) in
  if wrap64 (rb_head self + max_len) <=? rb_limit self then
    '(data, buf) ← read_slice data 0 max_len buf;
    Ret (max_len, buf, mkRing data (wrap64 (rb_head self + max_len)) (rb_end self) left (rb_limit self))
  else
    let border := wrap64 (rb_limit self - rb_head self) in
    '(data, buf) ← read_slice data 0 border buf;
    '(data, buf) ← read_slice (vf_set_pos data 0) border max_len buf;
    Ret (max_len, buf,
         mkRing data (wrap64 (rb_head self + max_len - rb_limit self)) (rb_end self) left (rb_limit self)).

Section pipe.
Context {A Others : Type} `{BitAlloc A} `{PageFrameConfig} {SB : StaleBytes}.

(** [self.data.write_inner(&buf[s..e])] *)
Definition write_slice (data : VirtFileInner) (s e : Z) (buf : list Z) : M A VirtFileInner :=
  part ← lift_outcome (slice s e buf);
  '(_, data) ← vf_write_inner data part;
  mret data.

Definition rb_write self (buf : list Z) : M A (Z * RingBuffer) :=
  let max_len := Z.min (len buf) (wrap64 (rb_limit self - rb_len self)) in
  let now := wrap64 (rb_len self + max_len) in
  let data := vf_set_pos (rb_data self) (rb_end self) in
  if wrap64 (rb_end self + max_len) <=? rb_limit self then
    data ← write_slice data 0 max_len buf;
    mret (max_len, mkRing data (rb_head self) (wrap64 (rb_end self + max_len)) now (rb_limit self))
  else
    let border := wrap64 (rb_limit self - rb_end self) in
    data ← write_slice data 0 border buf;
    data ← write_slice (vf_set_pos data 0) border max_len buf;
    mret (max_len, mkRing data (rb_head self) (wrap64 (rb_end self + max_len - rb_limit self)) now (rb_limit self)).

(** ** [Pipe] *)

(** The buffer behind the [Arc], how many ends hold it, the allocator and the
    other tasks. *)
Record PipeWorld := mkPw { pw_ring : RingBuffer; pw_count : Z; pw_alloc : A; pw_others : Others }.

(** [new_pipe]: the reading end is [true], the writing end [false]. *)
Definition new_pipe (a : A) (o : Others) : (bool * bool) * PipeWorld :=
  ((true, false), mkPw (rb_new PIPE_SIZE_LIMIT) 2 a o).

(** The drop of an end. *)
Definition drop_end (w : PipeWorld) : PipeWorld := mkPw (pw_ring w) (pw_count w - 1) (pw_alloc w) (pw_others w).

(** [self.data.lock().read(&mut buf[start..])] *)
Definition locked_read (start : Z) (buf : list Z) : M PipeWorld (Z * list Z) := λ w,
  part ← slice start (len buf) buf;
  '(n, part, ring) ← rb_read (pw_ring w) part;
  Ret ((n, splice start part buf), mkPw ring (pw_count w) (pw_alloc w) (pw_others w)).

(** [self.data.lock().write(&buf[start..])] *)
Definition locked_write (start : Z) (buf : list Z) : M PipeWorld Z := λ w,
  part ← slice start (len buf) buf;
  '(n, ring, a) ← rb_write (pw_ring w) part (pw_alloc w);
  Ret (n, mkPw ring (pw_count w) a (pw_others w)).

Section ends.
Context (suspend_current_task : M PipeWorld unit).

(** [while len < buf.len() && strong_count == 2]: [tries] counts [cnt] down. *)
Fixpoint read_loop (tries : nat) (read_len : Z) (buf : list Z) : M PipeWorld (Z * list Z) := λ w,
  if (read_len <? len buf) && (pw_count w =? 2) then
    match tries with
    | O => Ret ((read_len, buf), w)
    | S tries =>
        (_ ← suspend_current_task;
         '(n, buf) ← locked_read read_len buf;
         read_loop tries (wrap64 (read_len + n)) buf) w
    end
  else Ret ((read_len, buf), w).

Fixpoint write_loop (tries : nat) (write_len : Z) (buf : list Z) : M PipeWorld Z := λ w,
  if (write_len <? len buf) && (pw_count w =? 2) then
    match tries with
    | O => Ret (write_len, w)
    | S tries =>
        (_ ← suspend_current_task;
         n ← locked_write write_len buf;
         write_loop tries (wrap64 (write_len + n)) buf) w
    end
  else Ret (write_len, w).

Definition pipe_read (is_read : bool) (buf : list Z) : M PipeWorld (option Z * list Z) :=
  if is_read then
    '(n, buf) ← locked_read 0 buf;
    '(n, buf) ← read_loop 2 n buf;
    mret (Some n, buf)
  else mret (None, buf).

Definition pipe_write (is_read : bool) (buf : list Z) : M PipeWorld (option Z) :=
  if is_read then mret None
  else
    n ← locked_write 0 buf;
    n ← write_loop 2 n buf;
    mret (Some n).
End ends.

Definition ready_to_read (is_read : bool) (w : PipeWorld) : bool := is_read && negb (rb_is_empty (pw_ring w)).
Definition ready_to_write (is_read : bool) (w : PipeWorld) : bool := negb is_read && negb (rb_is_full (pw_ring w)).
Definition is_hang_up (is_read : bool) (w : PipeWorld) : bool :=
  if is_read then rb_is_empty (pw_ring w) && (pw_count w <? 2) else pw_count w <? 2.
End pipe.
Arguments PipeWorld : clear implicits.
