(* ===== verification/PipeSpec.v ===== *)
(** * A pipe is a bounded queue of bytes

    The ring buffer over a file in memory holds the bytes of a queue: a read
    takes them from its front, a write appends what fits.  The calls on the
    ends of a pipe keep the order of the bytes whatever the other end does
    while they wait. *)

From S2P Require Import Prelude Bytes BitAlloc BitAllocSpec Addr PageFrame PageFrameSpec FatIo BaseFile VirtFile.
From S2P Require Import VirtFileSpec Pipe.

Implicit Types self : RingBuffer.

(** ** The window of a ring *)

(** The position [n] bytes after [h]; the border itself counts as inside. *)
Definition next (limit h n : Z) : Z := if h + n <=? limit then h + n else h + n - limit.

(** The [n] bytes from [h] on, across the border. *)
Definition window (limit : Z) (c : list Z) (h n : Z) : list Z :=
  if h + n <=? limit then bytes_at h n c
  else bytes_at h (limit - h) c ++ bytes_at 0 (h + n - limit) c.

(** The content covers the window. *)
Definition covers (limit : Z) (c : list Z) (h n : Z) : Prop :=
  if h + n <=? limit then h + n <= len c else len c = limit.

Lemma len_window limit c h n : 0 <= h <= limit → 0 <= n <= limit → covers limit c h n →
  len (window limit c h n) = n.
Proof.
  unfold covers, window. intros Hh Hn. destruct (Z.leb_spec (h + n) limit); intros Hc.
  - apply len_bytes_at; lia.
  - rewrite len_app, !len_bytes_at by lia. lia.
Qed.

Lemma window_app limit c h m n : 0 <= h <= limit → 0 <= m → 0 <= n → m + n <= limit →
  window limit c h (m + n) = window limit c h m ++ window limit c (next limit h m) n.
Proof.
  unfold window, next. intros Hh Hm Hn Hmn.
  destruct (Z.leb_spec (h + (m + n)) limit), (Z.leb_spec (h + m) limit); try lia.
  - destruct (Z.leb_spec (h + m + n) limit); [|lia]. apply bytes_at_app; lia.
  - destruct (Z.leb_spec (h + m + n) limit); [lia|].
    replace (limit - h) with (m + (limit - (h + m))) by lia. rewrite bytes_at_app by lia.
    rewrite <- app_assoc. do 3 f_equal. lia.
  - destruct (Z.leb_spec (h + m - limit + n) limit); [|lia].
    replace (h + (m + n) - limit) with (h + m - limit + n) by lia.
    by rewrite (bytes_at_app 0), app_assoc by lia.
Qed.

Lemma covers_next limit c h m n : 0 <= h <= limit → 0 <= m → 0 <= n → m + n <= limit → len c <= limit →
  covers limit c h (m + n) → covers limit c h m ∧ covers limit c (next limit h m) n.
Proof.
  unfold covers, next. intros Hh Hm Hn Hmn Hl.
  destruct (Z.leb_spec (h + (m + n)) limit), (Z.leb_spec (h + m) limit); intros Hc; try lia.
  - destruct (Z.leb_spec (h + m + n) limit); lia.
  - destruct (Z.leb_spec (h + m + n) limit); lia.
  - destruct (Z.leb_spec (h + m - limit + n) limit); lia.
Qed.

(** The content after [bs] was written behind the window. *)
Definition put (limit : Z) (c : list Z) (e : Z) (bs : list Z) : list Z :=
  if e + len bs <=? limit then overwrite e bs c
  else overwrite 0 (bytes_at (limit - e) (len bs - (limit - e)) bs) (overwrite e (bytes_at 0 (limit - e) bs) c).

Lemma put_ok limit c h n bs : 0 <= h <= limit → 0 <= n → n + len bs <= limit → len c <= limit →
  covers limit c h n →
  let c' := put limit c (next limit h n) bs in
  len c' <= limit ∧ covers limit c' h (n + len bs) ∧
  window limit c' h (n + len bs) = window limit c h n ++ bs.
Proof.
  intros Hh Hn Hb Hl Hc c'. pose proof (len_nonneg bs). pose proof (len_nonneg c).
  rewrite (window_app limit c' h n) by lia.
  unfold covers in *. unfold c', put, window, next in *. clear c'.
  destruct (Z.leb_spec (h + n) limit).
  - destruct (Z.leb_spec (h + n + len bs) limit).
    + rewrite !len_overwrite by lia. destruct (Z.leb_spec (h + (n + len bs)) limit); [|lia].
      split_and!; [lia|lia|]. rewrite bytes_at_overwrite_same by lia.
      by rewrite bytes_at_overwrite_before by lia.
    + destruct (Z.leb_spec (h + (n + len bs)) limit); [lia|].
      set (b1 := bytes_at 0 _ bs). set (b2 := bytes_at _ _ bs).
      assert (len b1 = limit - (h + n)) as Hb1 by (apply len_bytes_at; lia).
      assert (len b2 = len bs - (limit - (h + n))) as Hb2 by (apply len_bytes_at; lia).
      assert (len (overwrite (h + n) b1 c) = limit) as Hb3 by (rewrite len_overwrite; lia).
      rewrite !(len_overwrite 0), Hb3, Hb2 by lia. split_and!; [lia|lia|].
      rewrite bytes_at_overwrite_after by lia. rewrite bytes_at_overwrite_before by lia. f_equal.
      rewrite <- Hb1 at 1. rewrite bytes_at_overwrite_after by lia. rewrite bytes_at_overwrite_same by lia.
      replace (h + n + len bs - limit) with (len b2) by lia. rewrite bytes_at_overwrite_same by lia.
      unfold b1, b2. rewrite <- (Z.add_0_l (limit - (h + n))) at 2. rewrite <- bytes_at_app by lia.
      apply bytes_at_all. lia.
  - destruct (Z.leb_spec (h + n - limit + len bs) limit); [|lia].
    destruct (Z.leb_spec (h + (n + len bs)) limit); [lia|].
    rewrite !len_overwrite by lia. split_and!; [lia|lia|]. rewrite bytes_at_overwrite_same by lia.
    rewrite bytes_at_overwrite_after by lia. by rewrite bytes_at_overwrite_before by lia.
Qed.

(** ** The ring buffer *)

Lemma slice_ok s e buf : 0 <= s <= e → e <= len buf → slice s e buf = Ret (bytes_at s (e - s) buf).
Proof.
  intros. unfold slice. destruct (Z.leb_spec s e), (Z.leb_spec e (len buf)); simpl; done || lia.
Qed.

Section ring.
Context {A : Type} {ops : BitAlloc A} {V : BitAllocView A} {BS : BitAllocSpec A}.
Context {cfg : PageFrameConfig} {CO : ConfigOk cfg (CAP A)} {SB : StaleBytes}.
Context (stale_len : ∀ fr, len (stale fr) = PAGE_SIZE) (small : CAP A <= 2 ^ 50).
Context (R : Z → bool) (live : list Frame).
Implicit Types a : A.

Lemma read_slice_ok a data c p s e buf : stands_for R live a data (c, p) →
  0 <= p → 0 <= s <= e → e <= len buf → p + (e - s) <= len c →
  ∃ data', read_slice data s e buf = Ret (data', splice s (bytes_at p (e - s) c) buf) ∧
    stands_for R live a data' (c, p + (e - s)).
Proof.
  intros Hst Hp Hse He Hc. unfold read_slice. rewrite slice_ok, bind_Ret by lia.
  assert (len (bytes_at s (e - s) buf) = e - s) as Hl by (apply len_bytes_at; lia).
  rewrite (read_ok R live a _ _ c p small) by (done || lia). unfold read_of. rewrite Hl.
  rewrite Z.min_l by lia. rewrite splice_all by (rewrite !len_bytes_at; lia).
  eexists. split; [done|]. by eapply stands_for_at.
Qed.

Lemma write_slice_ok a data c p s e buf : stands_for R live a data (c, p) →
  0 <= p <= len c → 0 <= s <= e → e <= len buf → p + (e - s) < 2 ^ 63 →
  pages_of (Z.max (len c) (p + (e - s))) <= room R live →
  ∃ data' a', write_slice data s e buf a = Ret (data', a') ∧
    stands_for R live a' data' (overwrite p (bytes_at s (e - s) buf) c, p + (e - s)).
Proof.
  intros Hst Hp Hse He Hmax Hroom. unfold write_slice.
  assert (len (bytes_at s (e - s) buf) = e - s) as Hl by (apply len_bytes_at; lia).
  pose proof (write_ok stale_len R live a data (bytes_at s (e - s) buf) c p small) as Hw.
  cbv zeta in Hw. rewrite len_overwrite, Hl in Hw by lia. revert Hw.
  destruct (Z.leb_spec (pages_of (Z.max (len c) (p + (e - s)))) (room R live)); [|lia]. intros Hw.
  destruct Hw as (data'&a'&Hw&Hst'); [done|lia|done|].
  exists data', a'. split; [|done]. unfold mbind, M_bind, lift_outcome.
  rewrite slice_ok, bind_Ret by lia. by rewrite Hw.
Qed.

Context (limit : Z) (limit_ok : 0 <= limit < 2 ^ 62) (fits : pages_of limit <= room R live).

Lemma pages_of_mono n m : n <= m → pages_of n <= pages_of m.
Proof. intros. apply Z.div_le_mono; unfold PAGE_SIZE; lia. Qed.

(** The ring holds the queue [q]. *)
Definition ring_holds a self (q : list Z) : Prop :=
  ∃ c p, stands_for R live a (rb_data self) (c, p) ∧ rb_limit self = limit ∧
    0 <= rb_head self <= limit ∧ 0 <= rb_len self <= limit ∧
    rb_end self = next limit (rb_head self) (rb_len self) ∧
    len c <= limit ∧ covers limit c (rb_head self) (rb_len self) ∧
    q = window limit c (rb_head self) (rb_len self).

Lemma ring_holds_len a self q : ring_holds a self q → rb_len self = len q.
Proof. intros (c&p&_&_&?&?&_&_&?&->). by rewrite len_window. Qed.

Lemma rb_read_ok a self q buf : ring_holds a self q →
  let n := Z.min (len buf) (len q) in
  ∃ self', rb_read self buf = Ret (n, splice 0 (bytes_at 0 n q) buf, self') ∧
    ring_holds a self' (drop (Z.to_nat n) q).
Proof.
  intros Hr. rewrite <- (ring_holds_len _ _ _ Hr). intros n.
  destruct Hr as (c&p&Hst&Hlim&Hh&Hn&He&Hc&Hcov&Hq). pose proof (len_nonneg buf).
  assert (0 <= n <= rb_len self) as Hn0 by lia.
  set (h := rb_head self) in *. set (rest := rb_len self - n).
  assert (rb_len self = n + rest) as Hsum by lia. rewrite Hsum in He, Hq, Hcov.
  destruct (covers_next limit c h n rest) as [Hcov1 Hcov2]; [lia..|done|].
  rewrite window_app in Hq by lia. pose proof (len_window limit c h n Hh ltac:(lia) Hcov1) as Hlw.
  assert (bytes_at 0 n q = window limit c h n) as Hgot.
  { rewrite Hq, bytes_at_app_l by lia. by apply bytes_at_all. }
  assert (drop (Z.to_nat n) q = window limit c (next limit h n) rest) as Hdrop.
  { rewrite Hq. rewrite drop_app_length'; [done|]. unfold len in Hlw. lia. }
  assert (next limit h (n + rest) = next limit (next limit h n) rest) as Hnext.
  { unfold next. destruct (Z.leb_spec (h + (n + rest)) limit), (Z.leb_spec (h + n) limit); try lia;
      destruct (Z.leb_spec (h + n + rest) limit), (Z.leb_spec (h + n - limit + rest) limit); lia. }
  rewrite Hgot, Hdrop. unfold rb_read. fold n h. rewrite Hlim, !(wrap_small 64) by (unfold word; lia).
  assert (stands_for R live a (vf_set_pos (rb_data self) h) (c, h)) as Hst0 by (by eapply stands_for_at).
  assert (∀ data p, stands_for R live a data (c, p) →
    ring_holds a (mkRing data (next limit h n) (rb_end self) rest limit)
      (window limit c (next limit h n) rest)) as Hafter.
  { intros data p1 Hst1. exists c, p1. cbn. rewrite He, Hnext.
    split_and!; try done; unfold next; destruct (Z.leb_spec (h + n) limit); lia. }
  unfold covers in Hcov1. unfold next in Hafter |- *. unfold window at 1.
  revert Hcov1 Hafter. destruct (Z.leb_spec (h + n) limit); intros Hcov1 Hafter.
  - destruct (read_slice_ok a _ c h 0 n buf Hst0) as (d1&Hd1&Hst1); [lia..|].
    rewrite Z.sub_0_r in *. rewrite Hd1, bind_Ret. eexists. split; [done|]. by eapply Hafter.
  - destruct (read_slice_ok a _ c h 0 (limit - h) buf Hst0) as (d1&Hd1&Hst1); [lia..|].
    rewrite Z.sub_0_r in *. rewrite !(wrap_small 64) by (unfold word; lia). rewrite Hd1, bind_Ret.
    destruct (read_slice_ok a (vf_set_pos d1 0) c 0 (limit - h) n
      (splice 0 (bytes_at h (limit - h) c) buf)) as (d2&Hd2&Hst2);
      [by eapply stands_for_at|lia|lia|rewrite len_splice; lia|lia|].
    rewrite Hd2, bind_Ret. eexists. split; [|by eapply Hafter].
    rewrite splice_app by (rewrite ?len_app, ?len_bytes_at by lia; lia).
    rewrite len_bytes_at by lia. by replace (n - (limit - h)) with (h + n - limit) by lia.
Qed.

Lemma rb_write_ok a self q buf : ring_holds a self q →
  let n := Z.min (len buf) (limit - len q) in
  ∃ self' a', rb_write self buf a = Ret ((n, self'), a') ∧
    ring_holds a' self' (q ++ bytes_at 0 n buf).
Proof.
  intros Hr. rewrite <- (ring_holds_len _ _ _ Hr). intros n.
  destruct Hr as (c&p&Hst&Hlim&Hh&Hn&He&Hc&Hcov&Hq). pose proof (len_nonneg buf).
  set (h := rb_head self) in *. set (m := rb_len self) in *.
  set (bs := bytes_at 0 n buf). assert (len bs = n) as Hbs by (apply len_bytes_at; lia).
  destruct (put_ok limit c h m bs) as (Hp1&Hp2&Hp3); [lia..|done|].
  rewrite Hbs in Hp2, Hp3. unfold rb_write. fold m.
  rewrite Hlim, (wrap_small 64 (limit - m)) by (unfold word; lia). fold n.
  rewrite !(wrap_small 64 (m + n)) by (unfold word; lia). rewrite He.
  set (e := next limit h m) in *.
  assert (0 <= e <= limit ∧ e <= len c) as [He1 He2].
  { unfold e, next, covers in *. revert Hcov. destruct (Z.leb_spec (h + m) limit); lia. }
  assert (∀ a' data p', stands_for R live a' data (put limit c e bs, p') →
    ring_holds a' (mkRing data h (next limit h (m + n)) (m + n) limit) (q ++ bs)) as Hafter.
  { intros a' data p' Hst'. exists (put limit c e bs), p'. cbn.
    split_and!; try done; try lia. by rewrite Hp3, Hq. }
  assert (next limit h (m + n) = next limit e n) as Hnext.
  { unfold e, next. destruct (Z.leb_spec (h + (m + n)) limit), (Z.leb_spec (h + m) limit); try lia;
      destruct (Z.leb_spec (h + m + n) limit), (Z.leb_spec (h + m - limit + n) limit); lia. }
  rewrite Hnext in Hafter. unfold put, next in Hafter. rewrite Hbs in Hafter.
  rewrite !(wrap_small 64 (e + n)) by (unfold word; lia).
  assert (stands_for R live a (vf_set_pos (rb_data self) e) (c, e)) as Hst0 by (by eapply stands_for_at).
  revert Hafter. destruct (Z.leb_spec (e + n) limit); intros Hafter.
  - destruct (write_slice_ok a _ c e 0 n buf Hst0) as (d1&a1&Hd1&Hst1); [lia..| |].
    { etransitivity; [apply pages_of_mono|exact fits]. lia. }
    rewrite Z.sub_0_r in *. step Hd1. eexists _, a1. split; [done|]. by eapply Hafter.
  - rewrite !(wrap_small 64) by (unfold word; lia).
    destruct (write_slice_ok a _ c e 0 (limit - e) buf Hst0) as (d1&a1&Hd1&Hst1); [lia..| |].
    { etransitivity; [apply pages_of_mono|exact fits]. lia. }
    rewrite Z.sub_0_r in *. step Hd1.
    set (c1 := overwrite e (bytes_at 0 (limit - e) buf) c) in *.
    assert (len c1 = limit) as Hc1.
    { unfold c1. rewrite len_overwrite, len_bytes_at by lia. lia. }
    destruct (write_slice_ok a1 (vf_set_pos d1 0) c1 0 (limit - e) n buf)
      as (d2&a2&Hd2&Hst2); [by eapply stands_for_at|lia..| |].
    { etransitivity; [apply pages_of_mono|exact fits]. lia. }
    step Hd2. eexists _, a2. split; [done|]. eapply Hafter.
    unfold bs. rewrite !bytes_at_bytes_at by lia. exact Hst2.
Qed.

Lemma ring_new a : frames_inv R a live → ring_holds a (rb_new limit) [].
Proof.
  intros Hf. exists [], 0. unfold rb_new, vf_new, next, covers, window. cbn.
  destruct (Z.leb_spec (0 + 0) limit); [|lia]. split; [by split_and!|]. split_and!; try done; lia.
Qed.

(** *** Histories *)

Inductive ring_op := RRead (buf : list Z) | RWrite (buf : list Z).

Definition ring_call (o : ring_op) (self : RingBuffer) : M A (Z * list Z * RingBuffer) :=
  match o with
  | RRead buf => lift_outcome (rb_read self buf)
  | RWrite buf => '(n, self) ← rb_write self buf; mret (n, [], self)
  end.

(** On a queue with room for [limit] bytes. *)
Definition queue_does (o : ring_op) (q : list Z) : Z * list Z * list Z :=
  match o with
  | RRead buf =>
      let n := Z.min (len buf) (len q) in (n, splice 0 (bytes_at 0 n q) buf, drop (Z.to_nat n) q)
  | RWrite buf =>
      let n := Z.min (len buf) (limit - len q) in (n, [], q ++ bytes_at 0 n buf)
  end.

Fixpoint ring_calls (l : list ring_op) (self : RingBuffer) : M A (list (Z * list Z) * RingBuffer) :=
  match l with
  | [] => mret ([], self)
  | o :: l => '(n, buf, self) ← ring_call o self; '(rs, self) ← ring_calls l self; mret ((n, buf) :: rs, self)
  end.

Fixpoint queue_does_all (l : list ring_op) (q : list Z) : list (Z * list Z) * list Z :=
  match l with
  | [] => ([], q)
  | o :: l => let '(n, buf, q) := queue_does o q in let '(rs, q) := queue_does_all l q in ((n, buf) :: rs, q)
  end.

Lemma ring_calls_ok l a self q : ring_holds a self q →
  let '(rs, q') := queue_does_all l q in
  ∃ self' a', ring_calls l self a = Ret ((rs, self'), a') ∧ ring_holds a' self' q'.
Proof.
  revert a self q. induction l as [|o l IH]; intros a self q Hr; [by exists self, a|].
  cbn [queue_does_all ring_calls]. destruct o as [buf|buf]; cbn [queue_does].
  - destruct (rb_read_ok a self q buf Hr) as (self1&Hrd&Hr1).
    specialize (IH _ _ _ Hr1). destruct (queue_does_all l _) as [rs q'].
    destruct IH as (self2&a2&Hrun&Hr2). exists self2, a2. split; [|done].
    unfold mbind, M_bind, ring_call, lift_outcome. rewrite Hrd, bind_Ret. by rewrite Hrun.
  - destruct (rb_write_ok a self q buf Hr) as (self1&a1&Hrd&Hr1).
    specialize (IH _ _ _ Hr1). destruct (queue_does_all l _) as [rs q'].
    destruct IH as (self2&a2&Hrun&Hr2). exists self2, a2. split; [|done].
    unfold mbind, M_bind, ring_call, mbind, M_bind. rewrite Hrd. unfold mret, M_ret. by rewrite Hrun.
Qed.

(** ** The ends of a pipe *)

Context {Others : Type}.
Implicit Types w : PipeWorld A Others.
Implicit Types o : Others.

Definition pipe_holds w (q : list Z) : Prop := ring_holds (pw_alloc w) (pw_ring w) q.

(** The pipe holds [q], [n] ends are open and the other tasks are in the state [o]. *)
Definition pipe_at w (q : list Z) (n : Z) (o : Others) : Prop := pipe_holds w q ∧ pw_count w = n ∧ pw_others w = o.

Lemma locked_read_ok w q s buf : pipe_holds w q → 0 <= s <= len buf →
  let n := Z.min (len buf - s) (len q) in
  ∃ w', locked_read s buf w = Ret ((n, splice s (bytes_at 0 n q) buf), w') ∧
    pipe_at w' (drop (Z.to_nat n) q) (pw_count w) (pw_others w).
Proof.
  intros Hw Hs n. pose proof (len_nonneg q).
  assert (len (bytes_at s (len buf - s) buf) = len buf - s) as Hl by (apply len_bytes_at; lia).
  destruct (rb_read_ok _ _ _ (bytes_at s (len buf - s) buf) Hw) as (ring&Hrd&Hr).
  rewrite Hl in Hrd, Hr. fold n in Hrd, Hr. exists (mkPw ring (pw_count w) (pw_alloc w) (pw_others w)). split; [|done].
  unfold locked_read. rewrite slice_ok, bind_Ret by lia. rewrite Hrd, bind_Ret. do 3 f_equal.
  apply splice_inside; [lia| |lia]. rewrite len_bytes_at; lia.
Qed.

Lemma locked_write_ok w q s buf : pipe_holds w q → 0 <= s <= len buf →
  let n := Z.min (len buf - s) (limit - len q) in
  ∃ w', locked_write s buf w = Ret (n, w') ∧
    pipe_at w' (q ++ bytes_at s n buf) (pw_count w) (pw_others w) ∧ 0 <= limit - len q.
Proof.
  intros Hw Hs n. pose proof Hw as (c&p&_&_&_&Hn&_). rewrite (ring_holds_len _ _ _ Hw) in Hn.
  assert (len (bytes_at s (len buf - s) buf) = len buf - s) as Hl by (apply len_bytes_at; lia).
  destruct (rb_write_ok _ _ _ (bytes_at s (len buf - s) buf) Hw) as (ring&a'&Hrd&Hr).
  rewrite Hl in Hrd, Hr. fold n in Hrd, Hr. rewrite bytes_at_bytes_at, Z.add_0_r in Hr by lia.
  exists (mkPw ring (pw_count w) a' (pw_others w)). split; [|split; [done|lia]].
  unfold locked_write. rewrite slice_ok, bind_Ret by lia. by rewrite Hrd.
Qed.

(** What the tasks that run meanwhile do.  A reader gives way when the pipe is
    empty: in the state [o] the others then write the bytes [(writes o).1.1],
    leave [(writes o).1.2] ends open and end in [(writes o).2]. *)
Definition others_write (writes : Others → list Z * Z * Others) (suspend : M (PipeWorld A Others) unit) : Prop :=
  ∀ w o, pipe_at w [] 2 o → let '(more, n, o') := writes o in ∃ w', suspend w = Ret (tt, w') ∧ pipe_at w' more n o'.

(** A writer gives way when the pipe is full: the others then read [(reads o).1.1]
    bytes off the front. *)
Definition others_read (reads : Others → Z * Z * Others) (suspend : M (PipeWorld A Others) unit) : Prop :=
  ∀ w q o, len q = limit → pipe_at w q 2 o →
    let '(k, n, o') := reads o in ∃ w', suspend w = Ret (tt, w') ∧ pipe_at w' (drop (Z.to_nat k) q) n o'.

(** A read of [room] bytes from a queue that holds [q]: it takes what is there
    and, while that is not enough and both ends are open, gives way at most
    [tries] times to the others. It gives the bytes read, the bytes left, the
    ends still open and the others' state. *)
Fixpoint queue_read (writes : Others → list Z * Z * Others) (tries : nat) (room : Z) (q : list Z) (n : Z) (o : Others)
    : list Z * list Z * Z * Others :=
  let got := bytes_at 0 (Z.min room (len q)) q in
  let rest := drop (Z.to_nat (Z.min room (len q))) q in
  match tries with
  | S tries =>
      if (len got <? room) && (n =? 2) then
        let '(more, n, o) := writes o in
        let '(got', rest, n, o) := queue_read writes tries (room - len got) more n o in
        (got ++ got', rest, n, o)
      else (got, rest, n, o)
  | 0%nat => (got, rest, n, o)
  end.

(** A write of [bs] behind a queue that holds [q]: how many bytes were taken,
    the queue, the ends still open and the others' state. *)
Fixpoint queue_write (reads : Others → Z * Z * Others) (tries : nat) (bs q : list Z) (n : Z) (o : Others) : Z * list Z * Z * Others :=
  let put := Z.min (len bs) (limit - len q) in
  let q := q ++ bytes_at 0 put bs in
  match tries with
  | S tries =>
      if (put <? len bs) && (n =? 2) then
        let '(k, n, o) := reads o in
        let '(m, q, n, o) := queue_write reads tries (drop (Z.to_nat put) bs) (drop (Z.to_nat k) q) n o in
        (put + m, q, n, o)
      else (put, q, n, o)
  | 0%nat => (put, q, n, o)
  end.

(** No byte is lost, repeated or moved: what was there and what the others wrote
    is, in this order, what was read and what is left; and a read falls short
    only when nothing is left. *)
Lemma queue_read_order writes tries room q n o : 0 <= room →
  let '(got, rest, _, _) := queue_read writes tries room q n o in
  (∃ more, q ++ more = got ++ rest) ∧ len got <= room ∧ (len got < room → rest = []).
Proof.
  revert room q n o. induction tries as [|tries IH]; intros room q n o Hr; cbn [queue_read]; pose proof (len_nonneg q);
    set (k := Z.min room (len q)) in *;
    assert (len (bytes_at 0 k q) = k) as Hk by (apply len_bytes_at; lia);
    assert ((∃ more, q ++ more = bytes_at 0 k q ++ drop (Z.to_nat k) q) ∧ len (bytes_at 0 k q) <= room ∧
      (len (bytes_at 0 k q) < room → drop (Z.to_nat k) q = [])) as Hone
      by (split_and!; [exists []; rewrite app_nil_r; unfold bytes_at; by rewrite drop_0, take_drop|lia|
           intros; apply drop_ge; unfold len in *; lia]); [done|].
  destruct ((len (bytes_at 0 k q) <? room) && (n =? 2)) eqn:Hgo; [|done].
  apply andb_true_iff in Hgo as [Hgo%Z.ltb_lt _]. destruct (writes o) as [[more n1] o1].
  specialize (IH (room - len (bytes_at 0 k q)) more n1 o1 ltac:(lia)).
  destruct (queue_read writes tries _ more n1 o1) as [[[got rest] n2] o2]. destruct IH as ([more' Hm]&Hl&Hs).
  rewrite len_app. split_and!; [|lia|intros; apply Hs; lia]. exists (more ++ more').
  destruct Hone as (_&_&Hd). rewrite <- app_assoc, <- Hm. f_equal.
  rewrite <- (take_drop (Z.to_nat k) q) at 1. rewrite Hd, app_nil_r by lia.
  unfold bytes_at. by rewrite drop_0.
Qed.

Lemma queue_read_len writes tries room q n o : 0 <= room → len (queue_read writes tries room q n o).1.1.1 <= room.
Proof.
  intros Hr. pose proof (queue_read_order writes tries room q n o Hr) as H.
  by destruct (queue_read writes tries room q n o) as [[[got rest] n'] o'], H as (_&?&_).
Qed.

Lemma read_loop_ok writes suspend tries w q s buf n o : others_write writes suspend → pipe_at w q n o →
  0 <= s <= len buf → len buf < 2 ^ 63 →
  let got := bytes_at 0 (Z.min (len buf - s) (len q)) q in
  let '(all, rest, n', o') := queue_read writes tries (len buf - s) q n o in
  ∃ w', ('(k, buf) ← locked_read s buf; read_loop suspend tries (wrap64 (s + k)) buf) w =
    Ret ((s + len all, splice s all buf), w') ∧ pipe_at w' rest n' o'.
Proof.
  intros Hothers. revert w q s buf n o. induction tries as [|tries IH]; intros w q s buf n o (Hw&Hn&Ho) Hs Hb;
    cbv zeta; cbn [queue_read]; pose proof (len_nonneg q); set (k := Z.min (len buf - s) (len q)) in *;
    assert (len (bytes_at 0 k q) = k) as Hk by (apply len_bytes_at; lia);
    destruct (locked_read_ok w q s buf Hw Hs) as (w1&Hrd&Hw1); fold k in Hrd, Hw1; rewrite Hn, Ho in Hw1.
  - step Hrd. cbn [read_loop]. exists w1. split; [|done]. rewrite Hk, wrap_small by (unfold word; lia). by destruct (_ && _).
  - rewrite Hk. step Hrd. rewrite wrap_small by (unfold word; lia). cbn [read_loop]. rewrite len_splice by lia.
    destruct Hw1 as (Hw1&Hn1&Ho1). rewrite Hn1.
    replace (s + k <? len buf) with (k <? len buf - s) by (destruct (Z.ltb_spec k (len buf - s)), (Z.ltb_spec (s + k) (len buf)); lia || done).
    destruct ((k <? len buf - s) && (n =? 2)) eqn:Hgo; [|exists w1; by rewrite Hk].
    apply andb_true_iff in Hgo as [Hgo%Z.ltb_lt Hn2%Z.eqb_eq].
    assert (drop (Z.to_nat k) q = []) as Hd by (apply drop_ge; unfold len in *; lia). rewrite Hd in Hw1.
    pose proof (Hothers w1 o) as Hsus. destruct (writes o) as [[more n2] o2].
    destruct Hsus as (w2&Hsus'&Hw2); [split; [exact Hw1|split; congruence]|]. step Hsus'.
    specialize (IH w2 more (s + k) (splice s (bytes_at 0 k q) buf) n2 o2 Hw2). rewrite len_splice in IH by lia.
    specialize (IH ltac:(lia) Hb). cbv zeta in IH. replace (len buf - (s + k)) with (len buf - s - k) in IH by lia.
    pose proof (queue_read_len writes tries (len buf - s - k) more n2 o2 ltac:(lia)) as Hgot.
    destruct (queue_read writes tries (len buf - s - k) more n2 o2) as [[[got rest] n3] o3]. cbn [fst] in Hgot.
    destruct IH as (w3&Hrun&Hw3). exists w3. split; [|done]. pose proof (len_nonneg got).
    rewrite Hrun, len_app, Hk, Z.add_assoc. do 2 f_equal. f_equal. rewrite splice_app; [by rewrite Hk|..]; rewrite ?len_app, ?Hk; lia.
Qed.
Lemma queue_write_len reads tries bs q n o : len q <= limit →
  0 <= (queue_write reads tries bs q n o).1.1.1 <= len bs.
Proof.
  revert bs q n o. induction tries as [|tries IH]; intros bs q n o Hq; cbn [queue_write]; pose proof (len_nonneg bs).
  - cbn. lia.
  - set (put := Z.min (len bs) (limit - len q)). destruct ((put <? len bs) && (n =? 2)); [|cbn; lia].
    destruct (reads o) as [[k n1] o1].
    assert (len (q ++ bytes_at 0 put bs) <= limit) as Hl by (rewrite len_app, len_bytes_at by lia; lia).
    assert (len (drop (Z.to_nat k) (q ++ bytes_at 0 put bs)) <= limit) as Hd
      by (unfold len in *; rewrite length_drop; lia).
    specialize (IH (drop (Z.to_nat put) bs) _ n1 o1 Hd).
    destruct (queue_write _ _ _ _ n1 o1) as [[[m q2] n2] o2]. cbn [fst] in *. unfold len in IH |- *. rewrite length_drop in IH. unfold len in *. lia.
Qed.

Lemma write_loop_ok reads suspend tries w q s buf n o : others_read reads suspend → pipe_at w q n o →
  0 <= s <= len buf → len buf < 2 ^ 63 →
  let '(m, q', n', o') := queue_write reads tries (drop (Z.to_nat s) buf) q n o in
  ∃ w', (k ← locked_write s buf; write_loop suspend tries (wrap64 (s + k)) buf) w = Ret (s + m, w') ∧ pipe_at w' q' n' o'.
Proof.
  intros Hothers. revert w q s n o. induction tries as [|tries IH]; intros w q s n o (Hw&Hn&Ho) Hs Hb;
    cbn [queue_write];
    assert (len (drop (Z.to_nat s) buf) = len buf - s) as -> by (unfold len in *; rewrite length_drop; lia); set (k := Z.min (len buf - s) (limit - len q)) in *;
    destruct (locked_write_ok w q s buf Hw Hs) as (w1&Hwr&Hw1&Hroom); fold k in Hwr, Hw1; rewrite Hn, Ho in Hw1;
    assert (bytes_at 0 k (drop (Z.to_nat s) buf) = bytes_at s k buf) as -> by (unfold bytes_at; by rewrite drop_0).
  - step Hwr. cbn [write_loop]. exists w1. split; [|done]. rewrite wrap_small by (unfold word; lia). by destruct (_ && _).
  - step Hwr. rewrite wrap_small by (unfold word; lia). cbn [write_loop].
    destruct Hw1 as (Hw1&Hn1&Ho1). rewrite Hn1.
    replace (s + k <? len buf) with (k <? len buf - s) by (destruct (Z.ltb_spec k (len buf - s)), (Z.ltb_spec (s + k) (len buf)); lia || done).
    destruct ((k <? len buf - s) && (n =? 2)) eqn:Hgo; [|by exists w1].
    apply andb_true_iff in Hgo as [Hgo%Z.ltb_lt Hn2%Z.eqb_eq].
    assert (len (q ++ bytes_at s k buf) = limit) as Hfull by (rewrite len_app, len_bytes_at by lia; lia).
    pose proof (Hothers w1 (q ++ bytes_at s k buf) o Hfull) as Hsus. destruct (reads o) as [[j n2] o2].
    destruct Hsus as (w2&Hsus'&Hw2); [split; [exact Hw1|split; congruence]|]. step Hsus'.
    specialize (IH w2 _ (s + k) n2 o2 Hw2 ltac:(lia) Hb).
    replace (drop (Z.to_nat k) (drop (Z.to_nat s) buf)) with (drop (Z.to_nat (s + k)) buf)
      by (rewrite drop_drop; f_equal; lia).
    destruct (queue_write _ _ _ _ n2 o2) as [[[m q2] n3] o3]. destruct IH as (w3&Hrun&Hw3).
    exists w3. split; [|done]. rewrite Hrun. by rewrite Z.add_assoc.
Qed.

Lemma pipe_flags w q : pipe_holds w q →
  ready_to_read true w = negb (len q =? 0) ∧ ready_to_write false w = negb (len q =? limit).
Proof.
  intros Hw. pose proof (ring_holds_len _ _ _ Hw) as Hl. destruct Hw as (c&p&_&Hlim&_).
  unfold ready_to_read, ready_to_write, rb_is_empty, rb_is_full. by rewrite Hlim, Hl.
Qed.
End ring.

(** ** Properties *)

(** C28. The ring buffer of a pipe is a queue of at most [size_limit] bytes:
    from an empty buffer any sequence of reads and writes returns what the
    queue returns (a read takes from the front as much as there is, a write
    appends as much as fits), across the border of the ring and across pages,
    and with memory for the pages of [size_limit] bytes it never panics. *)
Theorem ring_is_bounded_queue {A : Type} {ops : BitAlloc A} {V : BitAllocView A} {BS : BitAllocSpec A}
    {cfg : PageFrameConfig} {CO : ConfigOk cfg (CAP A)} {SB : StaleBytes}
    (R : Z → bool) (live : list Frame) (a : A) (limit : Z) (l : list ring_op) :
  (∀ fr, len (stale fr) = PAGE_SIZE) → CAP A <= 2 ^ 50 → frames_inv R a live →
  0 <= limit < 2 ^ 62 → pages_of limit <= free_count a →
  let '(rs, q) := queue_does_all limit l [] in
  ∃ self a', ring_calls l (rb_new limit) a = Ret ((rs, self), a') ∧
    rb_len self = len q ∧ len q <= limit ∧
    rb_is_empty self = (len q =? 0) ∧ rb_is_full self = (len q =? limit).
Proof.
  intros Hst Hcap Hf Hlim Hroom.
  assert (pages_of limit <= room R live) as Hfit.
  { pose proof (holds_room R live a []) as H. cbn in H. rewrite <- H; [lia|by split]. }
  pose proof (ring_calls_ok Hst Hcap R live limit Hlim Hfit l a _ _ (ring_new R live limit Hlim a Hf)) as H.
  destruct (queue_does_all limit l []) as [rs q]. destruct H as (self&a'&Hrun&Hr).
  exists self, a'. split; [done|]. pose proof (ring_holds_len _ _ _ _ _ _ Hr) as Hl.
  destruct Hr as (c&p&_&Hl'&_&Hn&_). unfold rb_is_empty, rb_is_full. rewrite Hl', Hl in *. split_and!; done || lia.
Qed.

(** C30. The two ends of a pipe are the ends of one queue. A new pipe is empty.
    A read on the reading end does what [queue_read] does: it takes bytes off
    the front and, as long as its buffer is not full and both ends are open,
    gives way to the others, twice at most, and goes on with exactly what they
    have put into the empty queue meanwhile; the buffer gets these bytes in
    their order. A write on the writing end does what [queue_write] does: it
    puts the first bytes of its buffer behind the queue up to the limit and
    goes on, twice at most, with what is left of it when the others have read
    from the full queue. The wrong end answers [None] and the pipe is as before.
    Neither panics while memory for a full pipe is there. What the others do
    when the task gives way is any function of their own state. *)
Theorem pipe_is_fifo {A Others : Type} {ops : BitAlloc A} {V : BitAllocView A} {BS : BitAllocSpec A}
    {cfg : PageFrameConfig} {CO : ConfigOk cfg (CAP A)} {SB : StaleBytes}
    (R : Z → bool) (live : list Frame) :
  (∀ fr, len (stale fr) = PAGE_SIZE) → CAP A <= 2 ^ 50 → pages_of PIPE_SIZE_LIMIT <= room (A := A) R live →
  let pipe_at := pipe_at (A := A) (Others := Others) R live PIPE_SIZE_LIMIT in
  (∀ (a : A) o, frames_inv R a live → pipe_at (new_pipe a o).2 [] 2 o) ∧
  (∀ writes suspend w q n o buf, others_write R live PIPE_SIZE_LIMIT writes suspend →
     pipe_at w q n o → len buf < 2 ^ 63 →
     pipe_read suspend false buf w = Ret ((None, buf), w) ∧
     let '(got, rest, n', o') := queue_read writes 2 (len buf) q n o in
     ∃ w', pipe_read suspend true buf w = Ret ((Some (len got), splice 0 got buf), w') ∧ pipe_at w' rest n' o') ∧
  (∀ reads suspend w q n o buf, others_read R live PIPE_SIZE_LIMIT reads suspend →
     pipe_at w q n o → len buf < 2 ^ 63 →
     pipe_write suspend true buf w = Ret (None, w) ∧
     let '(m, q', n', o') := queue_write PIPE_SIZE_LIMIT reads 2 buf q n o in
     ∃ w', pipe_write suspend false buf w = Ret (Some m, w') ∧ pipe_at w' q' n' o') ∧
  (∀ w q n o, pipe_at w q n o →
     ready_to_read true w = negb (len q =? 0) ∧ ready_to_write false w = negb (len q =? PIPE_SIZE_LIMIT)).
Proof.
  intros Hst Hcap Hfit pat. assert (0 <= PIPE_SIZE_LIMIT < 2 ^ 62) as Hlim by (unfold PIPE_SIZE_LIMIT; lia).
  split; [|split; [|split]].
  - intros a o Hf. split; [by apply ring_new|done].
  - intros writes suspend w q n o buf Ho Hw Hb. split; [done|]. pose proof (len_nonneg buf).
    pose proof (read_loop_ok Hcap R live _ Hlim writes suspend 2 w q 0 buf n o Ho Hw ltac:(lia) Hb) as H1. cbv zeta in H1.
    rewrite Z.sub_0_r in H1. destruct (queue_read writes 2 (len buf) q n o) as [[[got rest] n'] o'].
    destruct H1 as (w'&Hrun&Hw'). exists w'. split; [|done]. unfold pipe_read.
    destruct (locked_read_ok Hcap R live _ Hlim w q 0 buf (proj1 Hw) ltac:(lia)) as (w1&Hrd&_). rewrite (M_bind_Ret _ _ _ _ _ Hrd) in Hrun.
    step Hrd. pose proof (len_nonneg q). rewrite wrap_small in Hrun by (unfold word; lia). rewrite Z.add_0_l in Hrun.
    by step Hrun.
  - intros reads suspend w q n o buf Ho Hw Hb. split; [done|]. pose proof (len_nonneg buf).
    pose proof (write_loop_ok Hst Hcap R live _ Hlim Hfit reads suspend 2 w q 0 buf n o Ho Hw ltac:(lia) Hb) as H1.
    change (drop (Z.to_nat 0) buf) with buf in H1. destruct (queue_write _ reads 2 buf q n o) as [[[m q'] n'] o'].
    destruct H1 as (w'&Hrun&Hw'). exists w'. split; [|done]. unfold pipe_write.
    destruct (locked_write_ok Hst Hcap R live _ Hlim Hfit w q 0 buf (proj1 Hw) ltac:(lia)) as (w1&Hwr&_&Hroom).
    rewrite (M_bind_Ret _ _ _ _ _ Hwr) in Hrun. step Hwr. rewrite wrap_small in Hrun by (unfold word; lia).
    rewrite !Z.add_0_l in Hrun. by step Hrun.
  - intros w q n o [Hw _]. by eapply pipe_flags.
Qed.

Section pipe_at.
Import Machine.

(** Writing around the border of a ring of eight bytes. *)
Definition around : list ring_op :=
  [RWrite [1; 2; 3; 4; 5; 6]; RRead [0; 0; 0; 0]; RWrite [7; 8; 9; 10; 11; 12; 13]; RRead (repeat 0 10)].

Lemma ring_is_bounded_queue_witness :
  ∃ self a', ring_calls around (rb_new 8) machine_alloc =
    Ret (([(6, []); (4, [1; 2; 3; 4]); (6, []); (8, [5; 6; 7; 8; 9; 10; 11; 12; 0; 0])], self), a') ∧ rb_len self = 0.
Proof.
  assert (CAP (Tower 0) <= 2 ^ 50) as Hcap by (vm_compute; congruence).
  assert (pages_of 8 <= free_count machine_alloc) as Hfit by (vm_compute; congruence).
  destruct (ring_is_bounded_queue first_16 [] machine_alloc 8 around stale_bytes_len Hcap machine_frames
    ltac:(lia) Hfit) as (self&a'&Hrun&Hlen&_).
  exists self, a'. split; [exact Hrun|]. rewrite Hlen. reflexivity.
Defined.

(** 1024 frames: room for the pages of a pipe. *)
#[local] Instance kilo_alloc_spec : BitAllocSpec (Tower 1) := proj2 (tower_spec 1 ltac:(lia)).

Lemma kilo_cap : CAP (Tower 1) <= 16 ^ 6.
Proof. by rewrite (proj1 (tower_spec 1 ltac:(lia))). Qed.

#[local] Instance kilo_config_ok : ConfigOk KernelConfig (CAP (Tower 1)) :=
  KernelConfig_ok (CAP (Tower 1)) kilo_cap.

Definition first_100 (i : Z) : bool := (0 <=? i) && (i <? 100).

Lemma kilo_frames : ∃ a : Tower 1, insert DEFAULT 0 100 = Ret a ∧ frames_inv first_100 a [].
Proof.
  destruct (insert_spec (DEFAULT : Tower 1) 0 100 wf_DEFAULT) as (a&Ha&Hwf&Hset);
    [lia|vm_compute; congruence|].
  exists a. split; [done|]. split; [done|]. split; [by constructor|].
  intros i. cbn [owners]. rewrite Hset, free_DEFAULT, Z.add_0_r. unfold first_100. by case_match.
Qed.

(** Reading from a new pipe onto which a writer puts the next number, once: the
    first time the reader gives way it writes, the second time it closes. *)
Definition counting (o : Z) : list Z * Z * Z := if o =? 7 then ([7], 2, 8) else ([], 1, o).
Definition counting_task : M (PipeWorld (Tower 1) Z) unit := λ w,
  if pw_others w =? 7
  then '(_, w) ← locked_write 0 [7] w; Ret (tt, mkPw (pw_ring w) (pw_count w) (pw_alloc w) 8)
  else Ret (tt, drop_end w).

Lemma pipe_is_fifo_witness :
  ∃ (a : Tower 1) w', insert DEFAULT 0 100 = Ret a ∧
    pipe_read counting_task true [0; 0; 0] (new_pipe a 7).2 = Ret ((Some 1, [7; 0; 0]), w') ∧
    pipe_holds first_100 [] PIPE_SIZE_LIMIT w' [] ∧ pw_count w' = 1.
Proof.
  assert (CAP (Tower 1) <= 2 ^ 50) as Hcap by (vm_compute; congruence).
  assert (pages_of PIPE_SIZE_LIMIT <= room (A := Tower 1) first_100 []) as Hfit by (vm_compute; congruence).
  destruct (pipe_is_fifo (Others := Z) first_100 [] stale_bytes_len Hcap Hfit) as (Hnew&Hread&_).
  destruct kilo_frames as (a&Ha&Hf).
  destruct (Hread counting counting_task (new_pipe a 7).2 [] 2 7 [0; 0; 0]) as [_ (w'&Hr&Hw'&Hn&_)];
    [|by apply Hnew|done|].
  - intros w1 o (Hw1&Hn1&Ho1). unfold counting, counting_task. rewrite Ho1. destruct (o =? 7).
    + destruct (locked_write_ok stale_bytes_len Hcap first_100 [] PIPE_SIZE_LIMIT
        ltac:(unfold PIPE_SIZE_LIMIT; lia) Hfit w1 [] 0 [7] Hw1) as (w2&Hwr&(Hw2&Hn2&_)&_); [done|].
      rewrite Hwr, bind_Ret. eexists. split; [done|]. split; [exact Hw2|]. cbn [pw_count pw_others]. split; [by rewrite Hn2|done].
    + eexists. split; [done|]. split; [exact Hw1|]. split; [exact (f_equal (λ x, x - 1) Hn1)|done].
  - exists a, w'. split; [exact Ha|]. split; [exact Hr|]. split; [exact Hw'|exact Hn].
Defined.
End pipe_at.
