(* ===== verification/Bitset.v ===== *)
(** * Bit arrays (modules/bitset)

    [Bitset] is one word; [LongBitset] a vector of them; [ShadowBitset] the
    words of user memory from an address on, here a function from word index to
    word.  A shift amount is masked to the width, as in release mode. *)

From S2P Require Import Prelude.

Implicit Types s mask set : Z.

Definition contain_bit s (kth : Z) : bool := 0 <? Z.land (Z.shiftr s (kth mod 64)) 1.
Definition add_bit s (kth : Z) : Z := Z.lor s (shl 64 1 kth).
Definition remove_bit s (kth : Z) : Z := Z.land s (wnot 64 (shl 64 1 kth)).
Definition get_union s set : Z := Z.lor s set.
Definition get_difference s set : Z := Z.land s (wnot 64 set).
Definition set_new s set : Z := set.
Definition get_trailing_zeros s : Z := trailing_zeros 64 s.

Definition find_first_one s mask : option Z :=
  let ans := trailing_zeros 64 (Z.land s (wnot 64 mask)) in
  if ans =? 64 then None else Some ans.

(** ** [LongBitset] *)

Record LongBitset := mkLong { lb_bits : list Z; lb_len : Z }.

Definition lb_new (len : Z) : LongBitset :=
  mkLong (repeat 0 (Z.to_nat (Z.land (wrap64 (len + 0x3f)) 0x3f))) len.

Definition lb_add (self : LongBitset) (pos : Z) : outcome LongBitset :=
  if pos <? lb_len self then
    w ← index (lb_bits self) (Z.shiftr pos 8);
    bits ← update (lb_bits self) (Z.shiftr pos 8) (add_bit w (Z.land pos 0x3f));
    Ret (mkLong bits (lb_len self))
  else Ret self.

Definition lb_check (self : LongBitset) (pos : Z) : outcome bool :=
  w ← index (lb_bits self) (Z.shiftr pos 8);
  Ret (contain_bit w (Z.land pos 0x3f)).

(** ** [ShadowBitset] *)

Record ShadowBitset := mkShadow { sb_addr : Z; sb_len : Z }.

Definition sb_is_valid (self : ShadowBitset) : bool := negb (sb_addr self =? 0).

(** The words at [addr], [addr + 8], ... *)
Definition sb_set (self : ShadowBitset) (pos : Z) (words : Z → Z) : Z → Z :=
  if pos <? sb_len self then
    λ i, if i =? Z.shiftr pos 8 then Z.lor (words i) (shl 64 1 (Z.land pos 0x3f)) else words i
  else words.

Definition sb_check (self : ShadowBitset) (pos : Z) (words : Z → Z) : bool :=
  negb (Z.land (words (Z.shiftr pos 8)) (shl 64 1 (Z.land pos 0x3f)) =? 0).

Definition sb_clear (self : ShadowBitset) (words : Z → Z) : Z → Z :=
  λ i, if (0 <=? i) && (i <=? wrap64 (sb_len self - 1) / 64) then 0 else words i.

(** ** One word as a set of positions *)

Lemma testbit_shl1 k i : 0 <= k < 64 → 0 <= i → Z.testbit (shl 64 1 k) i = (i =? k).
Proof.
  intros Hk Hi. unfold shl. rewrite (Z.mod_small k 64), Z.shiftl_1_l by lia.
  rewrite wrap_small; [|split; [lia|apply Z.pow_lt_mono_r; lia]].
  rewrite Z.pow2_bits_eqb by lia. apply Z.eqb_sym.
Qed.

Lemma word_shl1 k : word 64 (shl 64 1 k).
Proof. apply wrap_word. lia. Qed.

Lemma contain_bit_spec s k : 0 <= k < 64 → contain_bit s k = Z.testbit s k.
Proof.
  intros Hk. unfold contain_bit. rewrite Z.mod_small by lia.
  change 1 with (Z.ones 1). rewrite Z.land_ones, Z.shiftr_div_pow2 by lia. change (2 ^ 1) with 2.
  rewrite Z.testbit_odd, Z.shiftr_div_pow2 by lia. rewrite Zmod_odd.
  by destruct (Z.odd (s / 2 ^ k)).
Qed.

Lemma add_bit_spec s k i : 0 <= k < 64 → 0 <= i → Z.testbit (add_bit s k) i = Z.testbit s i || (i =? k).
Proof. intros. unfold add_bit. by rewrite Z.lor_spec, testbit_shl1. Qed.

Lemma remove_bit_spec s k i : word 64 s → 0 <= k < 64 → 0 <= i →
  Z.testbit (remove_bit s k) i = Z.testbit s i && negb (i =? k).
Proof.
  intros Hs Hk Hi. unfold remove_bit. rewrite Z.land_spec. destruct (decide (i < 64)).
  - by rewrite wnot_testbit, testbit_shl1 by (apply word_shl1 || lia).
  - by rewrite (testbit_high 64 s i) by (done || lia).
Qed.

Lemma word_land a b : word 64 a → 0 <= b → word 64 (Z.land a b).
Proof.
  intros Ha Hb. apply word_of_bits; [lia|apply Z.land_nonneg; unfold word in *; lia|].
  intros i Hi. by rewrite Z.land_spec, (testbit_high 64 a) by done.
Qed.

(** The lowest position that is in [s] and not masked. *)
Lemma find_first_one_spec s mask : word 64 s → word 64 mask →
  match find_first_one s mask with
  | Some k => 0 <= k < 64 ∧ Z.testbit s k = true ∧ Z.testbit mask k = false ∧
      ∀ j, 0 <= j < k → Z.testbit s j = true → Z.testbit mask j = true
  | None => ∀ j, 0 <= j < 64 → Z.testbit s j = true → Z.testbit mask j = true
  end.
Proof.
  intros Hs Hm. unfold find_first_one. set (v := Z.land s (wnot 64 mask)).
  assert (∀ j, 0 <= j < 64 → Z.testbit v j = Z.testbit s j && negb (Z.testbit mask j)) as Hv.
  { intros j Hj. unfold v. by rewrite Z.land_spec, wnot_testbit. }
  assert (∀ j, 0 <= j < 64 → Z.testbit v j = false → Z.testbit s j = true → Z.testbit mask j = true) as Hno.
  { intros j Hj. rewrite Hv by done. by destruct (Z.testbit s j), (Z.testbit mask j). }
  destruct (trailing_zeros_spec 64 v) as [[-> H]|(Hk&H1&H2)].
  - intros j Hj. apply Hno; [done|]. apply H. lia.
  - destruct (Z.eqb_spec (trailing_zeros 64 v) 64); [lia|]. rewrite Hv in H1 by lia.
    apply andb_true_iff in H1 as [? ?%negb_true_iff]. split_and!; try done; try lia.
    intros j Hj. apply Hno; [lia|]. by apply H2.
Qed.
