(* ===== verification/Signals.v ===== *)
(** * Signals (kernel/src/signal, and their delivery in kernel/src/task)

    The pending and masked signals of a thread, the actions of a process, the
    table from thread to signals, and what happens on the way back to the user:
    [handle_signals] and [signal_return].  A thread is what these touch of it:
    its receivers and handlers, the user context on its kernel stack, the
    context saved for a handler, and the user memory as bytes. *)

From S2P Require Import Prelude Bytes Bitset Errors.

(** ** Numbers (signal_no.rs); the enumeration is its numbers 0 to 63 *)

Definition SIGBUS : Z := 7.
Definition SIGKILL : Z := 9.
Definition SIGSEGV : Z := 11.
Definition SIGCHLD : Z := 17.
Definition SIGSTOP : Z := 19.
Definition SIGURG : Z := 23.

Definition SignalNo_from (num : Z) : Z := let n := wrap8 num in if n <? 64 then n else 0.

Inductive SigActionDefault := Terminate | Ignore.

Definition of_signal (signal : Z) : SigActionDefault :=
  if (signal =? SIGCHLD) || (signal =? SIGURG) then Ignore else Terminate.

(** ** Actions (sig_action.rs) *)

Definition SIG_DFL : Z := 0.
Definition SIG_IGN : Z := 1.
Definition SA_SIGINFO : Z := 4.
Definition SA_RESTORER : Z := 0x04000000.
Definition SIGNAL_RETURN_TRAP : Z := 0xffff000080800000.
Definition USER_STACK_RED_ZONE : Z := 0x200.
Definition SIGSET_SIZE_IN_BIT : Z := 64.

Record SigAction := mkAction { handler : Z; sa_flags : Z; restorer : Z; sa_mask : Z }.

Definition contains_flag (flags flag : Z) : bool := Z.land flags flag =? flag.

Definition get_restorer (a : SigAction) : Z :=
  if contains_flag (sa_flags a) SA_RESTORER then restorer a else SIGNAL_RETURN_TRAP.

(** [SignalHandlers]: the array of actions. *)
Definition SignalHandlers : Type := list (option SigAction).

Definition handlers_new : SignalHandlers := repeat None (Z.to_nat SIGSET_SIZE_IN_BIT).
Definition handlers_clear (self : SignalHandlers) : SignalHandlers := map (λ _, None) self.
Definition get_action (self : SignalHandlers) (signum : Z) : outcome (option SigAction) :=
  index self (wrap64 (signum - 1)).
Definition get_action_ref (self : SignalHandlers) (signum : Z) : outcome (option SigAction) :=
  a ← index self (wrap64 (signum - 1));
  Ret (match a with Some act => if handler act =? SIG_DFL then None else Some act | None => None end).
Definition set_action (self : SignalHandlers) (signum : Z) (action : SigAction) : outcome SignalHandlers :=
  update self (wrap64 (signum - 1)) (Some action).

(** ** Receivers (mod.rs) *)

Record SignalReceivers := mkRecv { recv_mask : Z; sig_received : Z }.

Definition recv_new : SignalReceivers := mkRecv 0 0.
Definition recv_clear (self : SignalReceivers) : SignalReceivers := mkRecv 0 0.

Definition get_one_signal (self : SignalReceivers) : option Z * SignalReceivers :=
  match find_first_one (sig_received self) (recv_mask self) with
  | Some pos => (Some (pos + 1), mkRecv (recv_mask self) (remove_bit (sig_received self) pos))
  | None => (None, self)
  end.

Definition try_add_bit (self : SignalReceivers) (signum : Z) : SignalReceivers :=
  mkRecv (recv_mask self) (add_bit (sig_received self) (wrap64 (signum - 1))).

(** ** The table (tid2signals.rs) and sending *)

Definition Tid2Signals : Type := gmap Z SignalReceivers.

Definition global_register_signals (tid : Z) (signals : SignalReceivers) (t : Tid2Signals) : Tid2Signals :=
  <[tid := signals]> t.
Definition global_logoff_signals (tid : Z) (t : Tid2Signals) : Tid2Signals := delete tid t.

Definition send_signal (tid signum : Z) (t : Tid2Signals) : Tid2Signals :=
  match t !! tid with Some signals => <[tid := try_add_bit signals signum]> t | None => t end.

Definition sys_kill (pid signal_id : Z) (t : Tid2Signals) : SysResult Z * Tid2Signals :=
  if (0 <? pid) && (0 <? signal_id) then (inl 0, send_signal pid signal_id t)
  else if pid =? 0 then (inr ESRCH, t)
  else (inr EINVAL, t).

Definition sys_tkill (tid signal_id : Z) (t : Tid2Signals) : SysResult Z * Tid2Signals :=
  if 0 <? tid then (inl 0, send_signal tid (wrap64 signal_id) t) else (inr EINVAL, t).

(** [sys_sigprocmask] on the receivers: the new set is [None] when the pointer
    is zero; the old mask is answered too. *)
Definition sigprocmask (how : Z) (set : option Z) (self : SignalReceivers) : (SysResult Z * Z) * SignalReceivers :=
  let old := recv_mask self in
  match set with
  | None => ((inl 0, old), self)
  | Some v =>
      if how =? 0 then ((inl 0, old), mkRecv (get_union old v) (sig_received self))
      else if how =? 1 then ((inl 0, old), mkRecv (get_difference old v) (sig_received self))
      else if how =? 2 then ((inl 0, old), mkRecv (set_new old v) (sig_received self))
      else ((inr EINVAL, old), self)
  end.

(** [sys_sigaction] on the handlers: the old action and the new handlers. *)
Definition sigaction (signum : Z) (action : option SigAction) (self : SignalHandlers) :
    outcome (option (option SigAction) * SignalHandlers) :=
  if (signum =? SIGKILL) || (signum =? SIGSTOP) then Ret (None, self)
  else
    old ← get_action self signum;
    match action with
    | None => Ret (Some old, self)
    | Some a => self ← set_action self signum a; Ret (Some old, self)
    end.

(** ** The user context (trap/context.rs) *)

Record TrapContext := mkTrap { tc_x : list Z; tc_sstatus : Z; tc_sepc : Z; tc_cpu_id : Z; tc_fs : list Z }.

Implicit Types cx : TrapContext.

Definition get_x cx (i : nat) : Z := default 0 (tc_x cx !! i).
Definition set_x cx (i : nat) (v : Z) : TrapContext :=
  mkTrap (<[i := v]> (tc_x cx)) (tc_sstatus cx) (tc_sepc cx) (tc_cpu_id cx) (tc_fs cx).
Definition set_ra cx (v : Z) := set_x cx 1 v.
Definition set_sp cx (v : Z) := set_x cx 2 v.
Definition get_sp cx : Z := get_x cx 2.
Definition set_a0 cx (v : Z) := set_x cx 10 v.
Definition get_a0 cx : Z := get_x cx 10.
Definition set_a1 cx (v : Z) := set_x cx 11 v.
Definition set_a2 cx (v : Z) := set_x cx 12 v.
Definition set_sepc cx (v : Z) : TrapContext :=
  mkTrap (tc_x cx) (tc_sstatus cx) v (tc_cpu_id cx) (tc_fs cx).

(** ** User memory *)

Definition UserMem : Type := Z → Z.

Definition store (p : Z) (bs : list Z) (mem : UserMem) : UserMem := λ a,
  if p <=? a then default (mem a) (bs !! Z.to_nat (a - p)) else mem a.
Definition load (p : Z) (n : nat) (mem : UserMem) : list Z :=
  (λ i, mem (p + i)) <$> seqZ 0 (Z.of_nat n).

(** [SigInfo]: three [i32]. *)
Definition siginfo_bytes (signum : Z) : list Z :=
  le_split 4 (wrap32 signum) ++ le_split 4 0 ++ le_split 4 (wrap32 (-6)).

(** [SignalUserContext::init]: flags, link, the disabled stack, the mask, and
    the machine context with [pc] after 16 words. *)
Definition ucontext_bytes (mask pc : Z) : list Z :=
  le_split 8 0 ++ le_split 8 0 ++ (le_split 8 0 ++ le_split 8 2 ++ le_split 8 0) ++
  le_split 8 mask ++ repeat 0 (16 * 8) ++ le_split 8 pc ++ repeat 0 ((17 + 66) * 8).

Definition SIZE_OF_SIGINFO : Z := 12.
Definition SIZE_OF_UCONTEXT : Z := 848.
Definition UCONTEXT_PC : Z := 0xb0.

Definition get_pc (sp : Z) (mem : UserMem) : Z := le_combine (load (sp + UCONTEXT_PC) 8 mem).

(** ** Delivery (task/cpu_local.rs, task/task.rs) *)

Record SigThread := mkSig {
  st_recv : SignalReceivers;
  st_handlers : SignalHandlers;
  st_cx : TrapContext;
  trap_cx_before_signal : option TrapContext;
  signal_set_siginfo : bool;
  st_mem : UserMem }.

Implicit Types th : SigThread.

Definition set_recv th (r : SignalReceivers) : SigThread :=
  mkSig r (st_handlers th) (st_cx th) (trap_cx_before_signal th) (signal_set_siginfo th) (st_mem th).

Definition save_trap_cx_if_not_handling_signals th : bool * SigThread :=
  match trap_cx_before_signal th with
  | Some _ => (false, th)
  | None => (true, mkSig (st_recv th) (st_handlers th) (st_cx th) (Some (st_cx th)) false (st_mem th))
  end.

Definition load_trap_cx_if_handling_signals th : bool * SigThread :=
  match trap_cx_before_signal th with
  | Some old =>
      let sp := get_sp (st_cx th) in
      let pc := get_pc sp (st_mem th) in
      let cx := if signal_set_siginfo th then set_sepc old pc else old in
      (true, mkSig (st_recv th) (st_handlers th) cx None (signal_set_siginfo th) (st_mem th))
  | None => (false, th)
  end.

(** The jump to the user's handler. *)
Definition enter_handler th (signum : Z) (action : SigAction) : SigThread :=
  let cx := set_ra (st_cx th) (get_restorer action) in
  let sp := wrap64 (get_sp cx - USER_STACK_RED_ZONE) in
  let old_pc := tc_sepc cx in
  let cx := set_sepc cx (handler action) in
  let cx := set_a0 cx signum in
  if contains_flag (sa_flags action) SA_SIGINFO then
    let sp := Z.land (wrap64 (sp - SIZE_OF_SIGINFO)) (wnot 64 0xf) in
    let mem := store sp (siginfo_bytes signum) (st_mem th) in
    let cx := set_a1 cx sp in
    let sp := Z.land (wrap64 (sp - SIZE_OF_UCONTEXT)) (wnot 64 0xf) in
    let mem := store sp (ucontext_bytes (recv_mask (st_recv th)) old_pc) mem in
    let cx := set_sp (set_a2 cx sp) sp in
    mkSig (st_recv th) (st_handlers th) cx (trap_cx_before_signal th) true mem
  else mkSig (st_recv th) (st_handlers th) (set_sp cx sp) (trap_cx_before_signal th)
         (signal_set_siginfo th) (st_mem th).

(** What becomes of the thread. *)
Inductive Fate := Goes | Exits (code : Z).

Definition handle_signals th : outcome (Fate * SigThread) :=
  let '(sig, recv) := get_one_signal (st_recv th) in
  match sig with
  | None => Ret (Goes, th)
  | Some signum =>
      let signal := SignalNo_from signum in
      let '(ok, th) := save_trap_cx_if_not_handling_signals (set_recv th recv) in
      if ok : bool then
        action ← get_action_ref (st_handlers th) signum;
        match action with
        | Some action =>
            if handler action =? SIG_IGN then Ret (Goes, th)
            else Ret (Goes, enter_handler th signum action)
        | None =>
            match of_signal signal with
            | Terminate => Ret (Exits 0, th)
            | Ignore => Ret (Goes, (load_trap_cx_if_handling_signals th).2)
            end
        end
      else if (signal =? SIGSEGV) || (signal =? SIGBUS) then Ret (Exits (-1), th)
      else Ret (Goes, th)
  end.

(** [signal_return]: an [isize]. *)
Definition signal_return th : Z * SigThread :=
  let '(ok, th) := load_trap_cx_if_handling_signals th in
  if ok : bool then (swrap 64 (get_a0 (st_cx th)), th) else (-1, th).

Definition sys_sigreturn th : SysResult Z * SigThread :=
  let '(a0, th) := signal_return th in
  ((if a0 =? -1 then inr EINVAL else inl (wrap64 a0)), th).

(** What the trap handler does with a call of [sigreturn] from the user: the
    result goes to [a0] of the context, then signals are handled. *)
Definition syscall_result (r : SysResult Z) : Z :=
  match r with inl a0 => a0 | inr e => wrap64 (errno e) end.

Definition set_cx th cx : SigThread :=
  mkSig (st_recv th) (st_handlers th) cx (trap_cx_before_signal th) (signal_set_siginfo th) (st_mem th).

Definition sigreturn_call th : SigThread :=
  let th := set_cx th (set_sepc (st_cx th) (wrap64 (tc_sepc (st_cx th) + 4))) in
  let '(r, th) := sys_sigreturn th in
  set_cx th (set_a0 (st_cx th) (syscall_result r)).

(** The page fault at [SIGNAL_RETURN_TRAP] that stands for [sigreturn]. *)
Definition sigreturn_trap th : SigThread :=
  let '(a0, th) := signal_return th in
  set_cx th (set_a0 (st_cx th) (wrap64 a0)).
