(* ===== verification/SignalsSpec.v ===== *)
(** * Pending signals and handlers

    The pending signals are a set from which the lowest unmasked one is taken;
    a handler that returns leaves the interrupted context as it was; and the
    ways in which a thread stops receiving signals. *)

From S2P Require Import Prelude Bytes Bitset Errors Signals.

Implicit Types th : SigThread.
Implicit Types cx : TrapContext.

(** ** The pending set *)

Definition pending (r : SignalReceivers) (signum : Z) : bool := Z.testbit (sig_received r) (signum - 1).
Definition masked (r : SignalReceivers) (signum : Z) : bool := Z.testbit (recv_mask r) (signum - 1).

Definition recv_ok (r : SignalReceivers) : Prop := word 64 (recv_mask r) ∧ word 64 (sig_received r).

Definition is_signal (signum : Z) : Prop := 1 <= signum <= 64.

Lemma try_add_bit_ok r signum : recv_ok r → is_signal signum →
  recv_ok (try_add_bit r signum) ∧ recv_mask (try_add_bit r signum) = recv_mask r ∧
  ∀ j, is_signal j → pending (try_add_bit r signum) j = pending r j || (j =? signum).
Proof.
  intros [Hm Hr] Hs. unfold is_signal in *. unfold try_add_bit, pending. cbn.
  rewrite wrap_small by (unfold word; lia). split; [split; [done|]|split; [done|]].
  - unfold add_bit. apply word_lor; [lia|done|apply word_shl1].
  - intros j Hj. rewrite add_bit_spec by lia. f_equal.
    destruct (Z.eqb_spec (j - 1) (signum - 1)), (Z.eqb_spec j signum); done || lia.
Qed.

Lemma get_one_signal_ok r : recv_ok r →
  let '(sig, r') := get_one_signal r in
  recv_ok r' ∧ recv_mask r' = recv_mask r ∧
  match sig with
  | Some signum => is_signal signum ∧ pending r signum = true ∧ masked r signum = false ∧
      (∀ j, is_signal j → j < signum → pending r j = true → masked r j = true) ∧
      ∀ j, is_signal j → pending r' j = pending r j && negb (j =? signum)
  | None => r' = r ∧ ∀ j, is_signal j → pending r j = true → masked r j = true
  end.
Proof.
  intros [Hm Hr]. unfold get_one_signal, is_signal, pending, masked.
  pose proof (find_first_one_spec (sig_received r) (recv_mask r) Hr Hm) as Hf.
  destruct (find_first_one _ _) as [k|]; cbn.
  - destruct Hf as (Hk&H1&H2&H3). replace (k + 1 - 1) with k by lia.
    split; [split; [done|apply word_land; [done|]; pose proof (word_shl1 k); unfold wnot, word in *; lia]|].
    split; [done|]. split; [lia|]. split; [done|]. split; [done|]. split.
    + intros j Hj Hlt. apply H3. lia.
    + intros j Hj. rewrite remove_bit_spec by (done || lia). do 2 f_equal.
      destruct (Z.eqb_spec (j - 1) k), (Z.eqb_spec j (k + 1)); done || lia.
  - split; [done|]. split; [done|]. split; [done|]. intros j Hj. apply Hf. lia.
Qed.

(** ** User memory *)

Lemma load_store p o n bs mem : 0 <= o → o + Z.of_nat n <= len bs →
  load (p + o) n (store p bs mem) = bytes_at o (Z.of_nat n) bs.
Proof.
  intros Ho Hn. unfold load, store, len in *. apply list_eq. intros i.
  rewrite bytes_at_lookup by lia. rewrite list_lookup_fmap. case_decide as Hd.
  - rewrite lookup_seqZ_lt by lia. cbn. destruct (Z.leb_spec p (p + o + (0 + Z.of_nat i))); [|lia].
    destruct (lookup_lt_is_Some_2 bs (Z.to_nat o + i)) as [b Hb]; [lia|].
    replace (Z.to_nat (p + o + (0 + Z.of_nat i) - p)) with (Z.to_nat o + i)%nat by lia. by rewrite Hb.
  - rewrite lookup_seqZ_ge by lia. done.
Qed.

(** The context on the user stack holds the interrupted [pc]. *)
Lemma get_pc_ucontext sp mask pc mem : word 64 pc → get_pc sp (store sp (ucontext_bytes mask pc) mem) = pc.
Proof.
  intros Hpc. unfold get_pc, UCONTEXT_PC. rewrite load_store.
  2: done.
  2: { unfold ucontext_bytes. rewrite !len_app. unfold len. by rewrite !length_le_split, !repeat_length. }
  transitivity (le_combine (le_split 8 pc)).
  - reflexivity.
  - rewrite le_combine_split. apply wrap_small. exact Hpc.
Qed.

(** ** Contexts *)

Definition cx_ok cx : Prop := length (tc_x cx) = 32%nat ∧ Forall (word 64) (tc_x cx) ∧ word 64 (tc_sepc cx).

Lemma get_x_word cx i : cx_ok cx → word 64 (get_x cx i).
Proof.
  intros (_&Hx&_). unfold get_x. destruct (tc_x cx !! i) eqn:He; cbn; [|done].
  by apply (Forall_lookup_1 _ _ _ _ Hx He).
Qed.

Lemma get_set_x cx i j v : length (tc_x cx) = 32%nat → (i < 32)%nat →
  get_x (set_x cx i v) j = if decide (i = j) then v else get_x cx j.
Proof.
  intros Hl Hi. unfold get_x, set_x. cbn. case_decide as Hd.
  - subst. by rewrite list_lookup_insert_eq by lia.
  - by rewrite list_lookup_insert_ne.
Qed.

Lemma set_x_get cx i : cx_ok cx → set_x cx i (get_x cx i) = cx.
Proof.
  intros (Hl&_). destruct cx as [xs ss pc id fs]. unfold set_x, get_x; cbn in *. f_equal.
  destruct (xs !! i) eqn:He; cbn; [by apply list_insert_id|].
  apply list_insert_ge. by apply lookup_ge_None.
Qed.

Lemma set_sepc_get cx : set_sepc cx (tc_sepc cx) = cx.
Proof. by destruct cx. Qed.

Lemma wrap_swrap x : word 64 x → wrap64 (swrap 64 x) = x.
Proof.
  unfold word, wrap, swrap. intros Hx. change (2 ^ (64 - 1)) with (2 ^ 63).
  destruct (decide (x < 2 ^ 63)).
  - rewrite (Z.mod_small (x + 2 ^ 63)) by lia. rewrite Z.mod_small; lia.
  - replace (x + 2 ^ 63) with (x - 2 ^ 63 + 1 * 2 ^ 64) by lia. rewrite Z.mod_add by lia.
    rewrite (Z.mod_small (x - 2 ^ 63)) by lia. replace (x - 2 ^ 63 - 2 ^ 63) with (x + (-1) * 2 ^ 64) by lia.
    rewrite Z.mod_add by lia. by apply Z.mod_small.
Qed.

(** ** Delivery and return *)

(** The state in which a user returns from a handler: its registers [cx], the
    memory [mem] and what was received meanwhile. *)
Definition at_return th (r : SignalReceivers) cx (mem : UserMem) : SigThread :=
  mkSig r (st_handlers th) cx (trap_cx_before_signal th) (signal_set_siginfo th) mem.

Lemma get_pc_ext sp mem1 mem2 :
  (∀ a, sp + UCONTEXT_PC <= a < sp + UCONTEXT_PC + 8 → mem1 a = mem2 a) → get_pc sp mem1 = get_pc sp mem2.
Proof.
  intros H. unfold get_pc, load. f_equal. apply list_fmap_ext. intros i x Hx.
  apply lookup_seqZ in Hx as [-> Hx]. apply H. lia.
Qed.

Lemma enter_handler_regs th signum action : cx_ok (st_cx th) →
  let th1 := enter_handler th signum action in
  tc_sepc (st_cx th1) = handler action ∧ get_a0 (st_cx th1) = signum ∧
  get_x (st_cx th1) 1 = get_restorer action ∧ trap_cx_before_signal th1 = trap_cx_before_signal th.
Proof.
  intros (Hl&_&_). unfold enter_handler, get_a0, set_sp, set_a0, set_a1, set_a2, set_ra.
  destruct (contains_flag (sa_flags action) SA_SIGINFO); cbn; unfold get_x, set_x; cbn;
    repeat (rewrite list_lookup_insert_eq || rewrite list_lookup_insert_ne by lia);
    rewrite ?length_insert; try lia; done.
Qed.

(** The [pc] that the return would use is the interrupted one. *)
Lemma enter_handler_pc th signum action : cx_ok (st_cx th) → signal_set_siginfo th = false →
  let th1 := enter_handler th signum action in
  signal_set_siginfo th1 = contains_flag (sa_flags action) SA_SIGINFO ∧
  (contains_flag (sa_flags action) SA_SIGINFO = true →
     get_pc (get_sp (st_cx th1)) (st_mem th1) = tc_sepc (st_cx th)).
Proof.
  intros (Hl&_&Hpc) Hno. unfold enter_handler.
  destruct (contains_flag (sa_flags action) SA_SIGINFO); [|by split].
  cbn [signal_set_siginfo st_mem st_cx]. split; [done|]. intros _.
  set (sp := Z.land _ _). unfold set_sp. unfold get_sp at 1.
  rewrite get_set_x, decide_True; [|done|by cbn; rewrite !length_insert|lia].
  by apply get_pc_ucontext.
Qed.

Lemma sigreturn_ok th r cx mem old : trap_cx_before_signal th = Some old → cx_ok old →
  (signal_set_siginfo th = true → get_pc (get_sp cx) mem = tc_sepc old) →
  sigreturn_trap (at_return th r cx mem) = mkSig r (st_handlers th) old None (signal_set_siginfo th) mem ∧
  sigreturn_call (at_return th r cx mem) =
    mkSig r (st_handlers th)
      (set_a0 old (if get_a0 old =? 2 ^ 64 - 1 then 2 ^ 64 - 22 else get_a0 old)) None (signal_set_siginfo th) mem.
Proof.
  intros Hsaved Hok Hpc. pose proof (get_x_word old 10 Hok) as Hw. fold (get_a0 old) in Hw.
  assert ((if signal_set_siginfo th then set_sepc old (get_pc (get_sp cx) mem) else old) = old) as Hold.
  { destruct (signal_set_siginfo th); [|done]. rewrite Hpc by done. apply set_sepc_get. }
  split.
  - unfold sigreturn_trap, signal_return, load_trap_cx_if_handling_signals, at_return.
    cbn [trap_cx_before_signal st_cx st_mem signal_set_siginfo st_recv st_handlers]. rewrite Hsaved, Hold.
    unfold set_cx. cbn. f_equal. rewrite wrap_swrap by done. by apply set_x_get.
  - unfold sigreturn_call, sys_sigreturn, signal_return, load_trap_cx_if_handling_signals, at_return, set_cx.
    cbn [trap_cx_before_signal st_cx st_mem signal_set_siginfo st_recv st_handlers]. rewrite Hsaved.
    change (get_sp (set_sepc cx _)) with (get_sp cx). rewrite Hold. cbn. f_equal. f_equal.
    destruct (Z.eqb_spec (get_a0 old) (2 ^ 64 - 1)) as [He|He].
    + by rewrite He.
    + destruct (Z.eqb_spec (swrap 64 (get_a0 old)) (-1)) as [Hs|Hs].
      * exfalso. apply He. rewrite <- (wrap_swrap (get_a0 old)), Hs by done. done.
      * cbn. by rewrite wrap_swrap.
Qed.

(** ** A thread with a saved context *)

(** Later arrivals: each trap brings signals and then handles one. *)
Fixpoint later th (l : list (list Z)) : outcome (Fate * SigThread) :=
  match l with
  | [] => Ret (Goes, th)
  | sent :: l =>
      '(fate, th) ← handle_signals (set_recv th (fold_left try_add_bit sent (st_recv th)));
      match fate with Goes => later th l | Exits code => Ret (Exits code, th) end
  end.

Lemma handle_while_saved th old : trap_cx_before_signal th = Some old →
  let '(sig, r) := get_one_signal (st_recv th) in
  handle_signals th = Ret
    (match sig with
     | Some signum => if (SignalNo_from signum =? SIGSEGV) || (SignalNo_from signum =? SIGBUS) then Exits (-1) else Goes
     | None => Goes
     end, set_recv th r).
Proof.
  intros Hs. unfold handle_signals, save_trap_cx_if_not_handling_signals.
  destruct (get_one_signal (st_recv th)) as [[signum|] r] eqn:Hg; cbn [trap_cx_before_signal set_recv].
  - rewrite Hs. by destruct (_ || _).
  - unfold get_one_signal in Hg. destruct (find_first_one _ _); simplify_eq. by destruct th.
Qed.

Lemma later_while_saved l th old : trap_cx_before_signal th = Some old →
  ∃ fate r, later th l = Ret (fate, set_recv th r) ∧ (fate = Goes ∨ fate = Exits (-1)).
Proof.
  revert th. induction l as [|sent l IH]; intros th Hs.
  - exists Goes, (st_recv th). split; [by destruct th|by left].
  - cbn [later]. set (th' := set_recv th _). pose proof (handle_while_saved th' old Hs) as Hh.
    destruct (get_one_signal (st_recv th')) as [sig r]. rewrite Hh, bind_Ret.
    set (fate := match sig with Some _ => _ | None => _ end).
    destruct fate as [|code] eqn:Hf.
    + destruct (IH (set_recv th' r) Hs) as (fate'&r'&Hr&Hfate). exists fate', r'. by split.
    + exists (Exits code), r. split; [done|]. right. unfold fate in Hf. by destruct sig; [destruct (_ || _)|]; simplify_eq.
Qed.

(** ** Properties *)

(** Pending signals are a set of the numbers 1 to 64: sending one adds just
    it, and [get_one_signal] takes out just the lowest one that is not masked,
    or answers [None] and changes nothing when all pending ones are masked. *)
Theorem pending_signals_are_a_set (r : SignalReceivers) : recv_ok r →
  (∀ signum, is_signal signum →
     recv_ok (try_add_bit r signum) ∧ recv_mask (try_add_bit r signum) = recv_mask r ∧
     ∀ j, is_signal j → pending (try_add_bit r signum) j = pending r j || (j =? signum)) ∧
  let '(sig, r') := get_one_signal r in
  recv_ok r' ∧ recv_mask r' = recv_mask r ∧
  match sig with
  | Some signum => is_signal signum ∧ pending r signum = true ∧ masked r signum = false ∧
      (∀ j, is_signal j → j < signum → pending r j = true → masked r j = true) ∧
      ∀ j, is_signal j → pending r' j = pending r j && negb (j =? signum)
  | None => r' = r ∧ ∀ j, is_signal j → pending r j = true → masked r j = true
  end.
Proof. intros Hr. split; [intros; by apply try_add_bit_ok|by apply get_one_signal_ok]. Qed.

(** Signals 2, 11 and 15 are pending, 2 is masked. *)
Lemma pending_signals_are_a_set_witness :
  let r := try_add_bit (try_add_bit (try_add_bit (mkRecv 2 0) 15) 11) 2 in
  get_one_signal r = (Some 11, mkRecv 2 (2 + 2 ^ 14)) ∧ pending (mkRecv 2 (2 + 2 ^ 14)) 15 = true.
Proof.
  intros r. assert (recv_ok r) as Hr by (vm_compute; intuition congruence).
  pose proof (pending_signals_are_a_set r Hr) as [_ H].
  split; [reflexivity|]. change (get_one_signal r) with (Some 11, mkRecv 2 (2 + 2 ^ 14)) in H.
  destruct H as (_&_&_&_&_&_&H). rewrite H; [reflexivity|]. unfold is_signal. lia.
Defined.

(** C31. A handler is transparent. When a thread that runs no handler takes a
    signal with an action, it continues at the handler with the number in [a0]
    and the restorer in [ra]; and whatever the handler does to registers and
    memory, when it returns with its stack pointer restored (and, with
    [SA_SIGINFO], the program counter in its context not rewritten), the
    interrupted context is back register for register and no context is saved
    any more. The one exception is a return by the system call over an [a0] of
    [-1], which comes back as [EINVAL]. *)
Theorem signal_handler_transparent th (signum : Z) (recv : SignalReceivers) (action : SigAction) :
  cx_ok (st_cx th) → trap_cx_before_signal th = None →
  get_one_signal (st_recv th) = (Some signum, recv) →
  get_action_ref (st_handlers th) signum = Ret (Some action) → handler action ≠ SIG_IGN →
  ∃ th1, handle_signals th = Ret (Goes, th1) ∧
    tc_sepc (st_cx th1) = handler action ∧ get_a0 (st_cx th1) = signum ∧
    get_x (st_cx th1) 1 = get_restorer action ∧ trap_cx_before_signal th1 = Some (st_cx th) ∧
    ∀ r cx mem, get_sp cx = get_sp (st_cx th1) →
      (contains_flag (sa_flags action) SA_SIGINFO = true →
         ∀ a, get_sp cx + UCONTEXT_PC <= a < get_sp cx + UCONTEXT_PC + 8 → mem a = st_mem th1 a) →
      let after cx := mkSig r (st_handlers th1) cx None (signal_set_siginfo th1) mem in
      let a0 := get_a0 (st_cx th) in
      sigreturn_trap (at_return th1 r cx mem) = after (st_cx th) ∧
      sigreturn_call (at_return th1 r cx mem) =
        after (set_a0 (st_cx th) (if a0 =? 2 ^ 64 - 1 then 2 ^ 64 - 22 else a0)).
Proof.
  intros Hcx Hno Hg Ha Hign.
  set (th0 := mkSig recv (st_handlers th) (st_cx th) (Some (st_cx th)) false (st_mem th)).
  exists (enter_handler th0 signum action). split.
  { unfold handle_signals. rewrite Hg. unfold save_trap_cx_if_not_handling_signals.
    cbn [trap_cx_before_signal set_recv]. rewrite Hno. cbv beta iota. cbn [st_handlers st_recv st_cx st_mem set_recv]. rewrite Ha, bind_Ret.
    destruct (Z.eqb_spec (handler action) SIG_IGN); done. }
  destruct (enter_handler_regs th0 signum action Hcx) as (H1&H2&H3&H4).
  destruct (enter_handler_pc th0 signum action Hcx eq_refl) as [H5 H6].
  split; [done|]. split; [done|]. split; [done|]. split; [done|].
  intros r cx mem Hsp Hmem. apply sigreturn_ok; [done|done|]. intros Hsi. rewrite H5 in Hsi.
  rewrite (get_pc_ext _ mem (st_mem (enter_handler th0 signum action))) by auto.
  rewrite Hsp. by apply H6.
Qed.

(** A signal whose action is [SIG_IGN] ends all delivery: the context saved
    for the handler that is not run stays saved, so whatever is sent later is
    taken off the pending set without any effect, [SIGKILL] included; only
    [SIGSEGV] and [SIGBUS] still end the thread. *)
Theorem ignored_signal_ends_delivery th (signum : Z) (recv : SignalReceivers) (action : SigAction) :
  trap_cx_before_signal th = None → get_one_signal (st_recv th) = (Some signum, recv) →
  get_action_ref (st_handlers th) signum = Ret (Some action) → handler action = SIG_IGN →
  ∃ th1, handle_signals th = Ret (Goes, th1) ∧ st_cx th1 = st_cx th ∧
    ∀ l, ∃ fate r, later th1 l = Ret (fate, set_recv th1 r) ∧ (fate = Goes ∨ fate = Exits (-1)).
Proof.
  intros Hno Hg Ha Hign.
  exists (mkSig recv (st_handlers th) (st_cx th) (Some (st_cx th)) false (st_mem th)). split; [|split; [done|]].
  - unfold handle_signals. rewrite Hg. unfold save_trap_cx_if_not_handling_signals.
    cbn [trap_cx_before_signal set_recv]. rewrite Hno. cbv beta iota. cbn [st_handlers st_recv st_cx st_mem set_recv]. rewrite Ha, bind_Ret, Hign. done.
  - intros l. by eapply later_while_saved.
Qed.

(** A thread with signal 10 pending and the given action for it. *)
Definition with_action (a : SigAction) : SigThread :=
  mkSig (mkRecv 0 (2 ^ 9)) (<[9%nat := Some a]> handlers_new)
    (mkTrap (replicate 32 0x1000) 0 0x400 0 [0; 0]) None false (λ _, 0).

Lemma signal_handler_transparent_witness :
  let a := mkAction 0x8000 SA_SIGINFO 0 0 in
  ∃ th1, handle_signals (with_action a) = Ret (Goes, th1) ∧ tc_sepc (st_cx th1) = 0x8000 ∧
    st_cx (sigreturn_trap th1) = st_cx (with_action a).
Proof.
  intros a. destruct (signal_handler_transparent (with_action a) 10 (mkRecv 0 0) a) as (th1&H1&H2&_&_&H3&H4).
  - split; [done|]. split; [apply Forall_replicate; by split|done].
  - done.
  - vm_compute. reflexivity.
  - vm_compute. reflexivity.
  - done.
  - exists th1. split; [exact H1|]. split; [exact H2|].
    destruct (H4 (st_recv th1) (st_cx th1) (st_mem th1) eq_refl (λ _ _ _, eq_refl)) as [H5 _].
    replace (at_return th1 (st_recv th1) (st_cx th1) (st_mem th1)) with th1 in H5 by (by destruct th1).
    by rewrite H5.
Defined.

Lemma ignored_signal_ends_delivery_witness :
  let a := mkAction SIG_IGN 0 0 0 in
  ∃ th1, handle_signals (with_action a) = Ret (Goes, th1) ∧
    ∃ fate r, later th1 [[SIGKILL]; []] = Ret (fate, set_recv th1 r).
Proof.
  intros a. destruct (ignored_signal_ends_delivery (with_action a) 10 (mkRecv 0 0) a) as (th1&H1&_&H2).
  - done.
  - vm_compute. reflexivity.
  - vm_compute. reflexivity.
  - done.
  - exists th1. split; [exact H1|]. destruct (H2 [[SIGKILL]; []]) as (fate&r&H3&_). by exists fate, r.
Defined.
