(* ===== verification/Futex.v ===== *)
(** * Waiting threads (kernel/src/syscall/futex)

    The board that says which thread waits for what, and the system call on it.
    The board grows as the source's vector does. *)

From S2P Require Import Prelude.

Definition USIZE_MAX : Z := 2 ^ 64 - 1.

(** ** [FutexWaiter] *)

Record FutexWaiter := mkWaiter { timed_out_us : Z; woken : bool }.

Definition waiter_new (timed_out : option Z) : FutexWaiter := mkWaiter (default USIZE_MAX timed_out) false.
Definition waiter_wake (self : FutexWaiter) : FutexWaiter := mkWaiter (timed_out_us self) true.

(** [is_woken], [now] the time in microseconds *)
Definition is_woken (self : FutexWaiter) (now : Z) : bool :=
  if woken self then true else timed_out_us self <=? now.

(** ** [WAITING_BOARD] *)

Definition WaitingBoard : Type := list (option FutexWaiter).

Definition set_waiter_for_thread (tid : Z) (waiter : FutexWaiter) (board : list (option FutexWaiter)) : outcome WaitingBoard :=
  let board :=
    if Z.of_nat (length board) <=? tid
    then board ++ repeat None (Z.to_nat (tid + 1 - Z.of_nat (length board)))
    else board in
  update board tid (Some waiter).

Definition check_thread_blocked (tid now : Z) (board : WaitingBoard) : outcome (bool * WaitingBoard) :=
  if Z.of_nat (length board) <=? tid then Ret (false, board)
  else
    waiter ← index board tid;
    board ← update board tid None;
    match waiter with
    | None => Ret (false, board)
    | Some w =>
        if is_woken w now then Ret (false, board)
        else board ← update board tid waiter; Ret (true, board)
    end.

Definition wake_thread (tid : Z) (board : WaitingBoard) : outcome (bool * WaitingBoard) :=
  if Z.of_nat (length board) <=? tid then Ret (false, board)
  else
    waiter ← index board tid;
    match waiter with
    | None => Ret (false, board)
    | Some w => board ← update board tid (Some (waiter_wake w)); Ret (true, board)
    end.

(** ** [sys_futex]

    The value at [uaddr] and the time at [val2], in microseconds, are [None]
    when the page cannot be had. *)

Inductive FutexOp := WAIT | WAKE | REQUEUE | UNSUPPORTED.

Definition is_private (flag : Z) : bool := 0 <? Z.land flag 0x80.

Definition operation (flag : Z) : FutexOp :=
  let op := Z.land flag 0x7f in
  if op =? 0 then WAIT else if op =? 1 then WAKE else if op =? 3 then REQUEUE else UNSUPPORTED.

Inductive FutexError := EAGAIN | EFAULT | EINVAL.

(** The answer, whether the thread is suspended before it, and the board. *)
Definition sys_futex (tid futex_op val val2 : Z) (at_uaddr at_val2 : option Z) (board : WaitingBoard) :
    outcome ((Z + FutexError) * bool * WaitingBoard) :=
  match operation futex_op with
  | WAIT =>
      match at_uaddr with
      | Some real_val =>
          if negb (real_val =? val) then Ret (inr EAGAIN, false, board)
          else
            let timed_out :=
              match (if val2 =? 0 then None else at_val2) with
              | Some time_us => Some time_us
              | None => Some 0
              end in
            board ← set_waiter_for_thread tid (waiter_new timed_out) board;
            Ret (inl 0, true, board)
      | None => Ret (inr EFAULT, false, board)
      end
  | WAKE => Ret (inl val, true, board)
  | _ => Ret (inr EINVAL, false, board)
  end.

(** ** The board as a map *)

Implicit Types board : list (option FutexWaiter).

Definition waiter_of board (tid : Z) : option FutexWaiter :=
  if tid <? 0 then None else default None (board !! Z.to_nat tid).

Lemma waiter_of_grown board n tid : waiter_of (board ++ repeat None n) tid = waiter_of board tid.
Proof.
  unfold waiter_of. destruct (tid <? 0); [done|]. destruct (decide (Z.to_nat tid < length board)%nat).
  - by rewrite lookup_app_l.
  - rewrite lookup_app_r, (lookup_ge_None_2 board) by lia. destruct (repeat None n !! _) eqn:He; [|done].
    apply list_elem_of_lookup_2, list_elem_of_In, repeat_spec in He. by subst.
Qed.

Lemma waiter_of_set board tid w tid' : 0 <= tid < Z.of_nat (length board) →
  waiter_of (<[Z.to_nat tid := w]> board) tid' = if tid' =? tid then w else waiter_of board tid'.
Proof.
  intros Ht. unfold waiter_of. destruct (Z.eqb_spec tid' tid) as [->|Hn].
  - destruct (Z.ltb_spec tid 0); [lia|]. by rewrite list_lookup_insert_eq by lia.
  - destruct (Z.ltb_spec tid' 0); [done|]. by rewrite list_lookup_insert_ne by lia.
Qed.

Lemma set_waiter_ok board tid w : 0 <= tid →
  ∃ board', set_waiter_for_thread tid w board = Ret board' ∧
    ∀ tid', waiter_of board' tid' = if tid' =? tid then Some w else waiter_of board tid'.
Proof.
  intros Ht. unfold set_waiter_for_thread.
  set (grown := if Z.of_nat (length board) <=? tid then _ else board).
  assert (tid < Z.of_nat (length grown) ∧ ∀ t, waiter_of grown t = waiter_of board t) as [Hl Hw].
  { unfold grown. destruct (Z.leb_spec (Z.of_nat (length board)) tid); [|by split].
    split; [rewrite length_app, repeat_length; lia|intros; apply waiter_of_grown]. }
  rewrite update_Ret by lia. eexists. split; [done|]. intros tid'. by rewrite waiter_of_set, Hw by lia.
Qed.

Lemma check_thread_blocked_ok board tid now : 0 <= tid →
  ∃ board', check_thread_blocked tid now board =
      Ret (match waiter_of board tid with Some w => negb (is_woken w now) | None => false end, board') ∧
    ∀ tid', waiter_of board' tid' =
      if tid' =? tid then
        match waiter_of board tid with Some w => if is_woken w now then None else Some w | None => None end
      else waiter_of board tid'.
Proof.
  intros Ht. unfold check_thread_blocked. destruct (Z.leb_spec (Z.of_nat (length board)) tid).
  - assert (waiter_of board tid = None) as Hw.
    { unfold waiter_of. destruct (tid <? 0); [done|]. by rewrite lookup_ge_None_2 by lia. }
    rewrite Hw. exists board. split; [done|]. intros tid'. by destruct (Z.eqb_spec tid' tid) as [->|].
  - destruct (index_Ret board tid) as (w&Hi&Hw); [lia|]. rewrite Hi, bind_Ret, update_Ret, bind_Ret by lia.
    assert (waiter_of board tid = w) as ->.
    { unfold waiter_of. destruct (Z.ltb_spec tid 0); [lia|]. by rewrite Hw. }
    destruct w as [w|]; [destruct (is_woken w now) eqn:Hwk|].
    2: rewrite update_Ret by (rewrite length_insert; lia); cbn; rewrite list_insert_insert_eq.
    all: eexists; (split; [done|]); intros tid'; by rewrite waiter_of_set by lia.
Qed.

(** The wait without a time limit is over at once: it is registered with the
    limit 0. *)
Lemma futex_wait_does_not_wait tid op val at_val2 board now : 0 <= tid → 0 <= now → operation op = WAIT →
  ∃ board', sys_futex tid op val 0 (Some val) at_val2 board = Ret (inl 0, true, board') ∧
    ∃ board'', check_thread_blocked tid now board' = Ret (false, board'').
Proof.
  intros Ht Hnow Hop. unfold sys_futex. rewrite Hop, Z.eqb_refl. cbn [negb].
  destruct (set_waiter_ok board tid (waiter_new (Some 0)) Ht) as (board'&Hs&Hw).
  change (if 0 =? 0 then None else at_val2) with (@None Z). cbv beta iota.
  rewrite Hs, bind_Ret. exists board'. split; [done|].
  destruct (check_thread_blocked_ok board' tid now Ht) as (board''&Hc&_). exists board''.
  rewrite Hc, Hw, Z.eqb_refl. unfold is_woken. cbn. by destruct (Z.leb_spec 0 now); [|lia].
Qed.
