(* ===== verification/Tasks.v ===== *)
(** * Tasks (kernel/src/task, and clone, exit and wait of kernel/src/syscall)

    Task control blocks behind their [Arc]s, the ready queue, what each core
    runs, and the operations on them.  A block is found by the identity of its
    [Arc]; it is dropped when no strong reference is left, and its tid with it.
    The calls are atomic: each holds the lock of what it changes.  A call that
    never returns answers [None] and is not a step: the runs are those in which
    every call that was begun has come to an end.  Of a block the model keeps
    what concerns its life; address space, files, signal handlers and contexts
    are in other files. *)

From S2P Require Import Prelude BitAlloc Errors Signals Futex.

Definition NO_PARENT : Z := 2 ^ 64 - 1.
Definition TID_LIMIT : Z := 4096.

Inductive TaskStatus := UnInit | Ready | Running | Dying | Zombie | Exited.

#[export] Instance TaskStatus_eq_dec : EqDecision TaskStatus.
Proof. solve_decision. Defined.

Record Task := mkTask {
  t_pid : Z;
  t_tid : Z;
  send_sigchld_when_exit : bool;
  t_ppid : Z;
  t_parent : option nat;
  t_children : list nat;
  t_status : TaskStatus;
  t_exit_code : Z }.

Implicit Types t : Task.

Definition set_status (s : TaskStatus) t : Task :=
  mkTask (t_pid t) (t_tid t) (send_sigchld_when_exit t) (t_ppid t) (t_parent t) (t_children t) s (t_exit_code t).
Definition set_exit_code (code : Z) t : Task :=
  mkTask (t_pid t) (t_tid t) (send_sigchld_when_exit t) (t_ppid t) (t_parent t) (t_children t) (t_status t) code.
Definition set_children (cs : list nat) t : Task :=
  mkTask (t_pid t) (t_tid t) (send_sigchld_when_exit t) (t_ppid t) (t_parent t) cs (t_status t) (t_exit_code t).
Definition set_parent (ppid : Z) (parent : option nat) t : Task :=
  mkTask (t_pid t) (t_tid t) (send_sigchld_when_exit t) ppid parent (t_children t) (t_status t) (t_exit_code t).

Definition get_ppid t : Z := if t_ppid t =? NO_PARENT then 1 else t_ppid t.

Definition get_code_if_exit t : option Z :=
  match t_status t with Zombie => Some (t_exit_code t) | _ => None end.

(** [CloneFlags] used here *)
Definition CLONE_VM : Z := 2 ^ 8.
Definition CLONE_PARENT : Z := 2 ^ 15.
Definition CLONE_THREAD : Z := 2 ^ 16.

(** What a core does: idle, in the loop at the end of the tests, in a task, or
    switched back from a task that is still its current one. *)
Inductive Cpu := Idle | Halts | Runs (h : nat) | Leaves (h : nat).

Definition cpu_task (c : Cpu) : option nat :=
  match c with Idle | Halts => None | Runs h | Leaves h => Some h end.

(** [stacks]: the [Arc]s in the frames of [handle_signals] on kernel stacks that
    were switched away from for good, each with whether the guards of the
    thread's two signal locks are in the frame too. *)
Record Kernel (A : Type) := mkKernel {
  tasks : gmap nat Task;
  next_id : nat;
  tids : A;
  ready_queue : list nat;
  cpus : list Cpu;
  board : WaitingBoard;
  signals : Tid2Signals;
  stacks : list (nat * bool) }.
Arguments mkKernel {A}.
Arguments tasks {A}.
Arguments next_id {A}.
Arguments tids {A}.
Arguments ready_queue {A}.
Arguments cpus {A}.
Arguments board {A}.
Arguments signals {A}.
Arguments stacks {A}.

Section tasks.
Context {A : Type} `{BitAlloc A}.
Context (IS_TEST_ENV : bool).
Implicit Types k : Kernel A.

Definition with_tasks k (m : gmap nat Task) : Kernel A :=
  mkKernel m (next_id k) (tids k) (ready_queue k) (cpus k) (board k) (signals k) (stacks k).
Definition with_cpus k (l : list Cpu) : Kernel A :=
  mkKernel (tasks k) (next_id k) (tids k) (ready_queue k) l (board k) (signals k) (stacks k).
Definition with_tids k (al : A) : Kernel A :=
  mkKernel (tasks k) (next_id k) al (ready_queue k) (cpus k) (board k) (signals k) (stacks k).
Definition with_ready k (l : list nat) : Kernel A :=
  mkKernel (tasks k) (next_id k) (tids k) l (cpus k) (board k) (signals k) (stacks k).
Definition with_signals k (s : Tid2Signals) : Kernel A :=
  mkKernel (tasks k) (next_id k) (tids k) (ready_queue k) (cpus k) (board k) s (stacks k).
Definition with_board k (b : WaitingBoard) : Kernel A :=
  mkKernel (tasks k) (next_id k) (tids k) (ready_queue k) (cpus k) b (signals k) (stacks k).
Definition with_stacks k (l : list (nat * bool)) : Kernel A :=
  mkKernel (tasks k) (next_id k) (tids k) (ready_queue k) (cpus k) (board k) (signals k) l.

(** Through an [Arc]. *)
Definition the_task (h : nat) : M (Kernel A) Task := λ k, t ← unwrap (tasks k !! h); Ret (t, k).
Definition on_task (h : nat) (f : Task → Task) : M (Kernel A) unit := λ k,
  t ← unwrap (tasks k !! h); Ret (tt, with_tasks k (<[h := f t]> (tasks k))).

Definition set_cpu (i : nat) (c : Cpu) : M (Kernel A) unit := λ k,
  l ← update (cpus k) (Z.of_nat i) c; Ret (tt, with_cpus k l).

(** [panic!] *)
Definition panic {X} : M (Kernel A) X := λ _, Panic.

(** [unwrap] of what another component makes: [made] says that it could. *)
Definition unwrap_made (made : bool) : M (Kernel A) unit := if made then mret tt else panic.

(** ** Tids (memory/allocator/tid.rs) *)

Definition tid_init (al : A) : outcome A := insert al 2 TID_LIMIT.

Definition alloc_tid : M (Kernel A) (option Z) := λ k,
  '(r, al) ← alloc (tids k); Ret (r, with_tids k al).

Definition tid_drop (tid : Z) : M (Kernel A) unit := λ k,
  al ← dealloc (tids k) tid; Ret (tt, with_tids k al).

(** ** [Arc] *)

Definition ORIGIN : nat := 0%nat.

(** [ORIGIN_USER_PROC] is a static, but only used outside of tests. *)
Definition is_origin (h : nat) : bool := negb IS_TEST_ENV && bool_decide (h = ORIGIN).

Definition child_of (p c : nat) (m : gmap nat Task) : Prop := ∃ t, m !! p = Some t ∧ c ∈ t_children t.

(** A strong reference is left. *)
Definition referenced (h : nat) k : bool :=
  bool_decide (h ∈ ready_queue k ++ omap cpu_task (cpus k)) || is_origin h ||
  bool_decide (map_Exists (λ _ t, h ∈ t_children t) (tasks k)) ||
  bool_decide (h ∈ (stacks k).*1).

(** The drop of a reference; a block that goes drops its tid and then its
    references to its children. *)
Fixpoint drop_arc (fuel : nat) (h : nat) : M (Kernel A) unit := λ k,
  match fuel with
  | O => Panic
  | S fuel =>
      if referenced h k then Ret (tt, k)
      else
        t ← unwrap (tasks k !! h);
        '(_, k) ← tid_drop (t_tid t) k;
        foldMW (λ _ c, drop_arc fuel c) tt (t_children t) (with_tasks k (delete h (tasks k)))
  end.

Definition drop_ref (h : nat) : M (Kernel A) unit := λ k, drop_arc (S (size (tasks k))) h k.

(** ** New blocks *)

(** [Tid::new().unwrap()], the block, and its registration for signals. *)
Definition add_task (mk : Z → Task) : M (Kernel A) nat := λ k,
  '(r, k) ← alloc_tid k;
  tid ← unwrap r;
  Ret (next_id k,
    mkKernel (<[next_id k := mk tid]> (tasks k)) (S (next_id k)) (tids k) (ready_queue k) (cpus k) (board k)
      (global_register_signals tid recv_new (signals k)) (stacks k)).

(** [made]: the program is found, and its address space and kernel stack could
    be made. *)
Definition from_app_name (ppid : Z) (made : bool) : M (Kernel A) nat :=
  _ ← unwrap_made made;
  add_task (λ tid, mkTask tid tid true ppid None [] Ready 0).

(** [copied]: [copy_as_fork] could copy the address space; [stack_made]: there
    were frames for the kernel stack. *)
Definition from_clone (h : nat) (sigchld : bool) (flags : Z) (copied stack_made : bool) : M (Kernel A) nat :=
  t ← the_task h;
  _ ← (if contains_flag flags CLONE_VM then mret tt else unwrap_made copied);
  new ← add_task (λ tid,
    mkTask (if contains_flag flags CLONE_THREAD then t_pid t else tid) tid sigchld
      (if contains_flag flags CLONE_PARENT then t_ppid t else t_tid t) (Some h) [] Ready 0);
  _ ← unwrap_made stack_made;
  _ ← (if contains_flag flags CLONE_PARENT then mret tt
       else on_task h (λ t, set_children (t_children t ++ [new]) t));
  mret new.

(** ** The scheduler *)

Definition push_task_to_scheduler (h : nat) : M (Kernel A) unit := λ k,
  Ret (tt, with_ready k (ready_queue k ++ [h])).

Definition sched_pop : M (Kernel A) (option nat) := λ k,
  match ready_queue k with
  | [] => Ret (None, k)
  | h :: l => Ret (Some h, with_ready k l)
  end.

(** In tests an empty queue loads the next test; [None] is the loop without end
    when there is none left, and outside of tests an empty queue. *)
Definition fetch_task_from_scheduler (test_left made : bool) : M (Kernel A) (option nat) :=
  task ← sched_pop;
  match task with
  | Some h => mret (Some h)
  | None => if IS_TEST_ENV && test_left then h ← from_app_name NO_PARENT made; mret (Some h) else mret None
  end.

Definition blocked (h : nat) (now : Z) : M (Kernel A) bool := λ k,
  t ← unwrap (tasks k !! h);
  '(b, bd) ← check_thread_blocked (t_tid t) now (board k);
  Ret (b, with_board k bd).

(** [run_tasks] up to the switch into the task *)
Definition run_fetch (i : nat) (now : Z) (test_left made : bool) : M (Kernel A) unit :=
  task ← fetch_task_from_scheduler test_left made;
  match task with
  | None => if IS_TEST_ENV then set_cpu i Halts else mret tt
  | Some h =>
      b ← blocked h now;
      if b : bool then push_task_to_scheduler h
      else
        _ ← on_task h (set_status Running);
        set_cpu i (Runs h)
  end.

(** The static [GLOBAL_TASK_SCHEDULER]: the first test or [ORIGIN_USER_PROC],
    which is the first block either way. *)
Definition scheduler_init (made : bool) : M (Kernel A) unit :=
  h ← from_app_name (if IS_TEST_ENV then NO_PARENT else 0) made;
  push_task_to_scheduler h.

(** The statics of the kernel, up to the first task. *)
Definition kernel_boot (num_cpus : nat) (made : bool) : outcome (Kernel A) :=
  al ← tid_init DEFAULT;
  '(_, k) ← scheduler_init made (mkKernel ∅ 0 al [] (replicate num_cpus Idle) [] ∅ []);
  Ret k.

(** ** Leaving a core *)

Definition suspend_current_task (i h : nat) : M (Kernel A) unit :=
  _ ← on_task h (set_status Ready);
  set_cpu i (Leaves h).

Definition exit_current_task (i h : nat) (exit_code : Z) : M (Kernel A) unit :=
  _ ← on_task h (λ t, set_exit_code exit_code (set_status Dying t));
  set_cpu i (Leaves h).

(** The two ends of [handle_signals] that do not return: a signal whose default
    is to terminate, and SIGSEGV or SIGBUS while a handler runs.  Its own [Arc]
    stays on the kernel stack, in the second case with the guards. *)
Definition handle_signals_exit (i h : nat) (handling : bool) : M (Kernel A) unit :=
  _ ← (λ k, Ret (tt, with_stacks k ((h, handling) :: stacks k)));
  exit_current_task i h (if handling then -1 else 0).

(** The lock of the receivers registered for [tid] was never given back. *)
Definition receivers_lost (tid : Z) k : bool :=
  bool_decide (is_Some (signals k !! tid)) &&
  existsb (λ x, x.2 && bool_decide (t_tid <$> tasks k !! x.1 = Some tid)) (stacks k).

(** One turn of the loop over the children; [true] when it comes to an end. *)
Definition reparent (h : nat) (ok : bool) (child : nat) : M (Kernel A) bool :=
  if ok then
    t ← the_task h;
    if (t_ppid t =? NO_PARENT) || IS_TEST_ENV then
      _ ← on_task child (λ c, set_parent NO_PARENT (t_parent c) c);
      mret true
    else if bool_decide (h = ORIGIN) then mret false
    else
      _ ← on_task child (set_parent 0 (Some ORIGIN));
      _ ← on_task ORIGIN (λ o, set_children (t_children o ++ [child]) o);
      mret true
  else mret false.

(** [None]: it never returns, since a [try_lock] in the loop over the children
    never succeeds or since it waits for a lost lock to send SIGCHLD. *)
Definition handle_zombie_task (h : nat) : M (Kernel A) (option unit) :=
  t ← the_task h;
  ok ← foldMW (reparent h) true (t_children t);
  if negb ok then mret None
  else
    _ ← on_task h (set_children []);
    _ ← foldMW (λ _ c, drop_ref c) tt (t_children t);
    _ ← on_task h (set_status Zombie);
    t ← the_task h;
    let sends := send_sigchld_when_exit t || (t_pid t =? t_tid t) in
    lost ← (λ k, Ret (receivers_lost (t_ppid t) k, k));
    if sends && lost then mret None
    else
      _ ← (λ k, Ret (tt, with_signals k
            (global_logoff_signals (t_tid t)
              (if sends then send_signal (t_ppid t) SIGCHLD (signals k) else signals k))));
      _ ← drop_ref h;
      mret (Some tt).

(** [run_tasks] after the switch back *)
Definition run_leave (i h : nat) : M (Kernel A) (option unit) :=
  _ ← set_cpu i Idle;
  t ← the_task h;
  match t_status t with
  | Ready => _ ← push_task_to_scheduler h; mret (Some tt)
  | Dying => if negb IS_TEST_ENV && (t_pid t =? 0) then panic else handle_zombie_task h
  | _ => panic
  end.

(** ** System calls of the task [h] on core [i] *)

Definition sys_clone (h : nat) (flags user_stack : Z) (copied stack_made : bool) : M (Kernel A) (Z + unit) :=
  let clone_flags := Z.land flags (wnot 32 0x3f) in
  let signal := Z.land flags 0x3f in
  if user_stack <? 0 then mret (inr tt)
  else
    new ← from_clone h (signal =? SIGCHLD) clone_flags copied stack_made;
    t ← the_task new;
    _ ← push_task_to_scheduler new;
    mret (inl (t_tid t)).

(** The loop of [waitpid]: the flag, the exit code and the pid found. *)
Fixpoint wait_scan (m : gmap nat Task) (pid : Z) (cs : list nat) (idx flag : Z) : outcome (Z * Z * Z) :=
  match cs with
  | [] => Ret (flag, -1, pid)
  | c :: cs =>
      child ← unwrap (m !! c);
      if pid =? -1 then
        match get_code_if_exit child with
        | Some code => Ret (idx, code, t_pid child)
        | None => wait_scan m pid cs (idx + 1) (-2)
        end
      else if t_pid child =? wrap64 pid then
        match get_code_if_exit child with
        | Some code => Ret (idx, code, pid)
        | None => Ret (-2, -1, pid)
        end
      else wait_scan m pid cs (idx + 1) flag
  end.

(** The answer and the value written to [exit_code_ptr]. *)
Definition waitpid (h : nat) (pid : Z) : M (Kernel A) (Z * option Z) := λ k,
  t ← unwrap (tasks k !! h);
  '(flag, exit_code, pid_found) ← wait_scan (tasks k) pid (t_children t) 0 (-1);
  if 0 <=? flag then
    child ← unwrap (t_children t !! Z.to_nat flag);
    '(_, k) ← on_task h (set_children (delete (Z.to_nat flag) (t_children t))) k;
    '(_, k) ← drop_ref child k;
    Ret ((pid_found, Some (swrap 32 (exit_code * 256))), k)
  else Ret ((flag, None), k).

(** One turn of the loop of [sys_wait4]: its answer, or [None] when it suspends
    to try again. *)
Definition sys_wait4 (i h : nat) (pid : Z) (wnohang : bool) : M (Kernel A) (option (Z + unit)) :=
  '(child_pid, _) ← waitpid h pid;
  if child_pid =? -1 then mret (Some (inr tt))
  else if child_pid =? -2 then
    if wnohang then mret (Some (inl 0)) else _ ← suspend_current_task i h; mret None
  else mret (Some (inl (wrap64 child_pid))).

(** [sys_futex] of the thread: the suspension comes before the answer. *)
Definition call_futex (i h : nat) (futex_op val val2 : Z) (at_uaddr at_val2 : option Z) :
    M (Kernel A) (Z + FutexError) := λ k,
  t ← unwrap (tasks k !! h);
  '(r, suspends, b) ← sys_futex (t_tid t) futex_op val val2 at_uaddr at_val2 (board k);
  if suspends : bool then '(_, k) ← suspend_current_task i h (with_board k b); Ret (r, k)
  else Ret (r, with_board k b).

(** ** The steps of the cores

    A core in a task may do any call of the task; the calls that only send and
    receive signals change [signals]. *)
Inductive step k k' : Prop :=
  | step_fetch i now test_left made : cpus k !! i = Some Idle →
      run_fetch i now test_left made k = Ret (tt, k') → step k k'
  | step_leave i h : cpus k !! i = Some (Leaves h) → run_leave i h k = Ret (Some tt, k') → step k k'
  | step_suspend i h : cpus k !! i = Some (Runs h) → suspend_current_task i h k = Ret (tt, k') → step k k'
  | step_exit i h code : cpus k !! i = Some (Runs h) → exit_current_task i h code k = Ret (tt, k') → step k k'
  | step_kill i h handling : cpus k !! i = Some (Runs h) →
      handle_signals_exit i h handling k = Ret (tt, k') → step k k'
  | step_clone i h flags user_stack copied stack_made r : cpus k !! i = Some (Runs h) →
      sys_clone h flags user_stack copied stack_made k = Ret (r, k') → step k k'
  | step_wait i h pid wnohang r : cpus k !! i = Some (Runs h) →
      sys_wait4 i h pid wnohang k = Ret (r, k') → step k k'
  | step_futex i h op val val2 at_uaddr at_val2 r : cpus k !! i = Some (Runs h) →
      call_futex i h op val val2 at_uaddr at_val2 k = Ret (r, k') → step k k'
  | step_signals i h s : cpus k !! i = Some (Runs h) → k' = with_signals k s → step k k'.

Definition reachable (num_cpus : nat) k : Prop := ∃ made k0, kernel_boot num_cpus made = Ret k0 ∧ rtc step k0 k.
End tasks.
