(* ===== verification/TasksSpec.v ===== *)
(** * The life of tasks

    Whatever the cores do, a task is in one place: in the ready queue, on one
    core, or a zombie that something still refers to (a task that lists it as
    its child, the static of the origin, or the kernel stack it was ended on by
    a signal); at most one task lists it; a tid belongs to one task; a block and
    its tid go with the last reference. *)

From S2P Require Import Prelude BitAlloc BitAllocSpec Errors Signals Futex Tasks.

Section tasks.
Context {A : Type} {ops : BitAlloc A} {V : BitAllocView A} {BS : BitAllocSpec A}.
Context (TEST : bool) (CAP_ok : TID_LIMIT <= CAP A).
Implicit Types k : Kernel A.
Implicit Types al : A.
Implicit Types cs ready busy pend : list nat.

Definition is_tid (i : Z) : bool := (2 <=? i) && (i <? TID_LIMIT).

Lemma is_tid_ok i : is_tid i = true → 0 <= i < CAP A.
Proof. intros [H1 H2]%andb_true_iff. apply Z.leb_le in H1. apply Z.ltb_lt in H2. lia. Qed.

(** ** The invariant, on what matters of the blocks *)

Abbreviation Core := (Z * TaskStatus * list nat)%type.
Definition core (t : Task) : Core := (t_tid t, t_status t, t_children t).
Definition cores (m : gmap nat Task) : gmap nat Core := core <$> m.

Implicit Types c : gmap nat Core.

Definition cpu_ok (x : Cpu) (s : TaskStatus) : Prop :=
  match x with
  | Idle | Halts => True
  | Runs _ => s = Running
  | Leaves _ => s = Ready ∨ s = Dying
  end.

(** [busy]: blocks on their way to another place; [pend]: blocks a variable on
    some stack refers to. *)
Record inv c ready (cpus : list Cpu) al (next : nat) busy pend : Prop := {
  i_wf : wf al;
  i_places : NoDup (ready ++ omap cpu_task cpus);
  i_ready h : h ∈ ready → ∃ tid cs, c !! h = Some (tid, Ready, cs);
  i_cpu x h : x ∈ cpus → cpu_task x = Some h → ∃ tid s cs, c !! h = Some (tid, s, cs) ∧ cpu_ok x s;
  i_child p tid s cs x : c !! p = Some (tid, s, cs) → x ∈ cs → is_Some (c !! x) ∧ (p < x)%nat;
  i_one p1 tid1 s1 cs1 p2 tid2 s2 cs2 x : c !! p1 = Some (tid1, s1, cs1) → c !! p2 = Some (tid2, s2, cs2) →
    x ∈ cs1 → x ∈ cs2 → p1 = p2;
  i_nodup p tid s cs : c !! p = Some (tid, s, cs) → NoDup cs;
  i_tid h1 tid s1 cs1 h2 s2 cs2 : c !! h1 = Some (tid, s1, cs1) → c !! h2 = Some (tid, s2, cs2) → h1 = h2;
  i_used h tid s cs : c !! h = Some (tid, s, cs) → free al tid = false ∧ is_tid tid = true;
  i_cover i : is_tid i = true → free al i = true ∨ ∃ h s cs, c !! h = Some (i, s, cs);
  i_sub i : free al i = true → is_tid i = true;
  i_fresh h : (next <= h)%nat → c !! h = None;
  i_origin : TEST = false → (0 < next)%nat → is_Some (c !! ORIGIN);
  i_zombie h tid s cs : c !! h = Some (tid, s, cs) → h ∉ ready ++ omap cpu_task cpus → h ∉ busy →
    s = Zombie ∧ (cs = [] ∨ is_origin TEST h = true);
  i_ref h : is_Some (c !! h) →
    h ∈ ready ++ omap cpu_task cpus ∨ (∃ p tid s cs, c !! p = Some (tid, s, cs) ∧ h ∈ cs) ∨
    is_origin TEST h = true ∨ h ∈ pend;
  i_pend h : h ∈ pend → is_Some (c !! h) }.

Definition kinv k busy pend : Prop :=
  inv (cores (tasks k)) (ready_queue k) (cpus k) (tids k) (next_id k) busy (pend ++ (stacks k).*1).

Lemma inv_weaken c ready cpus al next busy busy' pend pend' :
  busy ⊆ busy' → pend ⊆ pend' → (∀ h, h ∈ pend' → is_Some (c !! h)) →
  inv c ready cpus al next busy pend → inv c ready cpus al next busy' pend'.
Proof.
  intros Hb Hp Hl []. split; try done.
  - intros h tid s cs Hc Hpl Hbusy. apply (i_zombie0 h tid s cs Hc Hpl). intros ?. by apply Hbusy, Hb.
  - intros h Hc. destruct (i_ref0 h Hc) as [?|[?|[?|?]]]; [tauto|tauto|tauto|]. right; right; right. by apply Hp.
Qed.

(** A block in its place needs no other reason to be there. *)
Lemma inv_settle c ready cpus al next busy pend h : h ∈ ready ++ omap cpu_task cpus →
  inv c ready cpus al next (h :: busy) (h :: pend) → inv c ready cpus al next busy pend.
Proof.
  intros Hpl []. split; try done.
  - intros h' tid s cs Hc Hpl' Hbusy. apply (i_zombie0 h' tid s cs Hc Hpl').
    intros [->|?]%elem_of_cons; done.
  - intros h' Hc. destruct (i_ref0 h' Hc) as [?|[?|[?|Hp]]]; [tauto|tauto|tauto|].
    apply elem_of_cons in Hp as [->|?]; tauto.
  - intros h' Hp. apply i_pend0. by right.
Qed.

(** A new block. *)
Lemma inv_add c ready cpus al al' next busy pend tid : inv c ready cpus al next busy pend →
  free al tid = true → range_set al al' tid (tid + 1) false →
  inv (<[next := (tid, Ready, [])]> c) ready cpus al' (S next) (next :: busy) (next :: pend).
Proof.
  intros [] Hfree [Hwf' Hset].
  assert (c !! next = None) as Hnew by (by apply i_fresh0).
  assert (∀ h x, c !! h = Some x → h ≠ next) as Hne by (intros h x Hx ->; by rewrite Hnew in Hx).
  assert (∀ i, free al' i = if decide (i = tid) then false else free al i) as Hal.
  { intros i. rewrite Hset. case_decide; destruct (Z.leb_spec tid i), (Z.ltb_spec i (tid + 1)); simpl; done || lia. }
  split; try done.
  - intros h (tid'&cs&Hh)%i_ready0. exists tid', cs. rewrite lookup_insert_ne by naive_solver. done.
  - intros x h Hx Hh. destruct (i_cpu0 x h Hx Hh) as (tid'&s&cs&?&?). exists tid', s, cs.
    rewrite lookup_insert_ne by naive_solver. done.
  - intros p tid' s cs x [[<- ?]|[? Hp]]%lookup_insert_Some Hx; simplify_eq; [by apply elem_of_nil in Hx|].
    destruct (i_child0 p tid' s cs x Hp Hx) as [[y Hy] ?]. split; [|done]. exists y.
    rewrite lookup_insert_ne by naive_solver. done.
  - intros p1 tid1 s1 cs1 p2 tid2 s2 cs2 x [[<- ?]|[? Hp1]]%lookup_insert_Some
      [[<- ?]|[? Hp2]]%lookup_insert_Some Hx1 Hx2; simplify_eq; try by apply elem_of_nil in Hx1; try by apply elem_of_nil in Hx2.
    + by apply elem_of_nil in Hx2.
    + by eapply i_one0.
  - intros p tid' s cs [[<- ?]|[? Hp]]%lookup_insert_Some; simplify_eq; [by constructor|by eapply i_nodup0].
  - intros h1 tid' s1 cs1 h2 s2 cs2 [[<- ?]|[? Hp1]]%lookup_insert_Some [[<- ?]|[? Hp2]]%lookup_insert_Some;
      simplify_eq; try done.
    + destruct (i_used0 _ _ _ _ Hp2). congruence.
    + destruct (i_used0 _ _ _ _ Hp1). congruence.
    + by eapply i_tid0.
  - intros h tid' s cs [[<- ?]|[? Hp]]%lookup_insert_Some; simplify_eq; rewrite Hal.
    + rewrite decide_True by done. split; [done|by apply i_sub0].
    + destruct (i_used0 _ _ _ _ Hp). split; [|done]. by case_decide.
  - intros i Hi. rewrite Hal. case_decide as Hd.
    + subst. right. exists next, Ready, []. by rewrite lookup_insert_eq.
    + destruct (i_cover0 i Hi) as [?|(h&s&cs&?)]; [by left|right]. exists h, s, cs.
      rewrite lookup_insert_ne by naive_solver. done.
  - intros i. rewrite Hal. case_decide; [done|apply i_sub0].
  - intros h Hh. rewrite lookup_insert_ne by lia. apply i_fresh0. lia.
  - intros Ht _. apply lookup_insert_is_Some'. destruct (decide (next = ORIGIN)); [by left|right].
    apply i_origin0; [done|]. unfold ORIGIN in *. lia.
  - intros h tid' s cs [[<- ?]|[? Hp]]%lookup_insert_Some Hpl Hbusy; [set_solver|].
    apply (i_zombie0 h tid' s cs Hp Hpl). set_solver.
  - intros h [x [[<- ?]|[? Hp]]%lookup_insert_Some]; [set_solver|].
    destruct (i_ref0 h (mk_is_Some _ _ Hp)) as [?|[(p&tid'&s&cs&Hc&Hx)|[?|?]]]; [tauto| |tauto|set_solver].
    right; left. exists p, tid', s, cs. rewrite lookup_insert_ne by naive_solver. done.
  - intros h [->|Hp]%elem_of_cons; apply lookup_insert_is_Some'; [by left|right; by apply i_pend0].
Qed.

(** Another status and other children for one block. *)
Lemma inv_update c ready cpus al next busy pend h tid s cs s' cs' : inv c ready cpus al next busy pend →
  c !! h = Some (tid, s, cs) →
  (h ∈ ready → s' = Ready) → (∀ x, x ∈ cpus → cpu_task x = Some h → cpu_ok x s') →
  NoDup cs' →
  (∀ x, x ∈ cs' → is_Some (c !! x) ∧ (h < x)%nat ∧
     (x ∈ cs ∨ ∀ p tid s cs, c !! p = Some (tid, s, cs) → x ∉ cs)) →
  (h ∉ ready ++ omap cpu_task cpus → h ∉ busy → s' = Zombie ∧ (cs' = [] ∨ is_origin TEST h = true)) →
  (∀ x, x ∈ cs → x ∉ cs' → x ∈ pend) →
  inv (<[h := (tid, s', cs')]> c) ready cpus al next busy pend.
Proof.
  intros [] Hh Hready Hcpu Hnd Hcs Hz Href.
  split; try done.
  - intros x Hx. destruct (i_ready0 x Hx) as (tid'&cs''&Hc). destruct (decide (x = h)) as [->|].
    + rewrite lookup_insert_eq. rewrite (Hready Hx). simplify_eq. by eexists _, _.
    + rewrite lookup_insert_ne by done. by eexists _, _.
  - intros x y Hx Hy. destruct (i_cpu0 x y Hx Hy) as (tid'&s1&cs1&Hc&Hok). destruct (decide (y = h)) as [->|].
    + rewrite lookup_insert_eq. simplify_eq. eexists _, _, _. split; [done|by apply Hcpu].
    + rewrite lookup_insert_ne by done. by eexists _, _, _.
  - intros p tid' s1 cs1 x [[<- ?]|[? Hp]]%lookup_insert_Some Hx; simplify_eq.
    + destruct (Hcs x Hx) as (Hl&?&_). split; [|done]. by apply lookup_insert_is_Some'; right.
    + destruct (i_child0 p tid' s1 cs1 x Hp Hx) as [Hl ?]. split; [|done]. by apply lookup_insert_is_Some'; right.
  - intros p1 tid1 s1 cs1 p2 tid2 s2 cs2 x [[<- ?]|[? Hp1]]%lookup_insert_Some
      [[<- ?]|[? Hp2]]%lookup_insert_Some Hx1 Hx2; simplify_eq; try done.
    + destruct (Hcs x Hx1) as (_&_&[Hx|Hx]); [exact (i_one0 _ _ _ _ _ _ _ _ x Hh Hp2 Hx Hx2)|by eapply Hx in Hp2].
    + destruct (Hcs x Hx2) as (_&_&[Hx|Hx]); [exact (i_one0 _ _ _ _ _ _ _ _ x Hp1 Hh Hx1 Hx)|by eapply Hx in Hp1].
    + by eapply i_one0.
  - intros p tid' s1 cs1 [[<- ?]|[? Hp]]%lookup_insert_Some; simplify_eq; [done|by eapply i_nodup0].
  - intros h1 tid' s1 cs1 h2 s2 cs2 [[<- ?]|[? Hp1]]%lookup_insert_Some [[<- ?]|[? Hp2]]%lookup_insert_Some;
      simplify_eq; try done; by eapply i_tid0.
  - intros h' tid' s1 cs1 [[<- ?]|[? Hp]]%lookup_insert_Some; simplify_eq; by eapply i_used0.
  - intros i Hi. destruct (i_cover0 i Hi) as [?|(h'&s1&cs1&Hc)]; [by left|right].
    destruct (decide (h' = h)) as [->|].
    + simplify_eq. exists h, s', cs'. by rewrite lookup_insert_eq.
    + exists h', s1, cs1. by rewrite lookup_insert_ne.
  - intros h' Hh'. destruct (decide (h' = h)) as [->|]; [by rewrite i_fresh0 in Hh|].
    rewrite lookup_insert_ne by done. by apply i_fresh0.
  - intros Ht Hn. apply lookup_insert_is_Some'. right. by apply i_origin0.
  - intros h' tid' s1 cs1 [[<- ?]|[? Hp]]%lookup_insert_Some Hpl Hbusy; simplify_eq; [by apply Hz|].
    by eapply i_zombie0.
  - intros h' Hl. apply lookup_insert_is_Some' in Hl.
    assert (is_Some (c !! h')) as Hl' by (by destruct Hl as [<-|?]).
    destruct (i_ref0 h' Hl') as [?|[(p&tid'&s1&cs1&Hc&Hx)|[?|?]]]; [tauto| |tauto|tauto].
    destruct (decide (p = h)) as [->|].
    + simplify_eq. destruct (decide (h' ∈ cs')) as [Hin|Hin].
      * right; left. exists h, tid, s', cs'. by rewrite lookup_insert_eq.
      * right; right; right. by apply Href.
    + right; left. exists p, tid', s1, cs1. by rewrite lookup_insert_ne.
  - intros x Hx. apply lookup_insert_is_Some'. right. by apply i_pend0.
Qed.

(** Blocks change place. *)
Lemma inv_move c ready ready' (cpus cpus' : list Cpu) al next busy busy' pend pend' :
  inv c ready cpus al next busy pend →
  NoDup (ready' ++ omap cpu_task cpus') →
  (∀ h, h ∈ ready' → ∃ tid cs, c !! h = Some (tid, Ready, cs)) →
  (∀ x h, x ∈ cpus' → cpu_task x = Some h → ∃ tid s cs, c !! h = Some (tid, s, cs) ∧ cpu_ok x s) →
  (∀ h, h ∈ ready ++ omap cpu_task cpus → h ∈ ready' ++ omap cpu_task cpus' ∨ (h ∈ busy' ∧ h ∈ pend')) →
  (∀ h, h ∈ busy → h ∈ busy' ∨ h ∈ ready' ++ omap cpu_task cpus') →
  (∀ h, h ∈ pend → h ∈ pend' ∨ h ∈ ready' ++ omap cpu_task cpus') →
  (∀ h, h ∈ pend' → is_Some (c !! h)) →
  inv c ready' cpus' al next busy' pend'.
Proof.
  intros [] Hnd Hready Hcpu Hpl Hbusy Hpend Hlive. split; try done.
  - intros h tid s cs Hc Hno Hb. apply (i_zombie0 h tid s cs Hc).
    + intros Hp. destruct (Hpl h Hp) as [?|[? _]]; done.
    + intros Hb'. destruct (Hbusy h Hb'); done.
  - intros h Hc. destruct (i_ref0 h Hc) as [Hp|[?|[?|Hp]]]; [|tauto|tauto|].
    + destruct (Hpl h Hp) as [?|[_ ?]]; tauto.
    + destruct (Hpend h Hp); tauto.
Qed.

(** The end of a block that nothing refers to. *)
Lemma inv_drop c ready cpus al al' next busy pend h tid s : inv c ready cpus al next busy (h :: pend) →
  c !! h = Some (tid, s, []) → h ∉ ready ++ omap cpu_task cpus → is_origin TEST h = false →
  (∀ p tid s cs, c !! p = Some (tid, s, cs) → h ∉ cs) → h ∉ pend →
  range_set al al' tid (tid + 1) true →
  inv (delete h c) ready cpus al' next busy pend.
Proof.
  intros [] Hh Hpl Ho Hno Hpd [Hwf' Hset].
  assert (∀ i, free al' i = if decide (i = tid) then true else free al i) as Hal.
  { intros i. rewrite Hset. case_decide; destruct (Z.leb_spec tid i), (Z.ltb_spec i (tid + 1)); simpl; done || lia. }
  split; try done.
  - intros x Hx. rewrite lookup_delete_ne; [by apply i_ready0|]. set_solver.
  - intros x y Hx Hy. rewrite lookup_delete_ne; [by apply (i_cpu0 x)|]. intros <-. apply Hpl.
    apply elem_of_app. right. apply list_elem_of_omap. by exists x.
  - intros p tid' s1 cs1 x [? Hp]%lookup_delete_Some Hx. destruct (i_child0 _ _ _ _ _ Hp Hx) as [Hl ?].
    split; [|done]. rewrite lookup_delete_ne; [done|]. intros <-. by eapply Hno.
  - intros p1 tid1 s1 cs1 p2 tid2 s2 cs2 x [? Hp1]%lookup_delete_Some [? Hp2]%lookup_delete_Some. by eapply i_one0.
  - intros p tid' s1 cs1 [? Hp]%lookup_delete_Some. by eapply i_nodup0.
  - intros h1 tid' s1 cs1 h2 s2 cs2 [? Hp1]%lookup_delete_Some [? Hp2]%lookup_delete_Some. by eapply i_tid0.
  - intros h' tid' s1 cs1 [? Hp]%lookup_delete_Some. rewrite Hal.
    rewrite decide_False; [by eapply i_used0|]. intros ->. by eapply H, i_tid0.
  - intros i Hi. rewrite Hal. case_decide; [by left|].
    destruct (i_cover0 i Hi) as [?|(h'&s1&cs1&Hc)]; [by left|right]. exists h', s1, cs1.
    rewrite lookup_delete_ne; [done|]. intros <-. by simplify_eq.
  - intros i. rewrite Hal. case_decide; [|apply i_sub0]. subst. intros _. by eapply i_used0.
  - intros h' Hh'. rewrite lookup_delete_None. right. by apply i_fresh0.
  - intros Ht Hn. rewrite lookup_delete_ne; [by apply i_origin0|]. intros Heq.
    unfold is_origin in Ho. rewrite Ht, bool_decide_eq_true_2 in Ho by done. done.
  - intros h' tid' s1 cs1 [? Hp]%lookup_delete_Some. by eapply i_zombie0.
  - intros h' [x [? Hp]%lookup_delete_Some].
    destruct (i_ref0 h' (mk_is_Some _ _ Hp)) as [?|[(p&tid'&s1&cs1&Hc&Hx)|[?|Hp']]]; [tauto| |tauto|].
    + right; left. exists p, tid', s1, cs1. rewrite lookup_delete_ne; [done|]. intros <-. simplify_eq. by apply elem_of_nil in Hx.
    + apply elem_of_cons in Hp' as [->|?]; [done|tauto].
  - intros x Hx. rewrite lookup_delete_ne by (intros ->; done). apply i_pend0. by right.
Qed.

(** What is referred to needs no variable. *)
Lemma inv_unpend c ready cpus al next busy pend h : inv c ready cpus al next busy (h :: pend) →
  h ∈ ready ++ omap cpu_task cpus ∨ (∃ p tid s cs, c !! p = Some (tid, s, cs) ∧ h ∈ cs) ∨ is_origin TEST h = true ∨
    h ∈ pend →
  inv c ready cpus al next busy pend.
Proof.
  intros [] Hr. split; try done.
  - intros h' Hc. destruct (i_ref0 h' Hc) as [?|[?|[?|Hp]]]; [tauto|tauto|tauto|].
    apply elem_of_cons in Hp as [->|?]; tauto.
  - intros h' Hp. apply i_pend0. by right.
Qed.

(** ** The kernel's state *)

Definition places k : list nat := ready_queue k ++ omap cpu_task (cpus k).

Lemma cores_lookup (m : gmap nat Task) h x : cores m !! h = Some x ↔ ∃ t, m !! h = Some t ∧ core t = x.
Proof. unfold cores. rewrite lookup_fmap_Some. naive_solver. Qed.

Lemma cores_insert (m : gmap nat Task) h t : cores (<[h := t]> m) = <[h := core t]> (cores m).
Proof. apply fmap_insert. Qed.

Lemma referenced_spec h k : referenced TEST h k = true ↔
  h ∈ places k ∨ (∃ p tid s cs, cores (tasks k) !! p = Some (tid, s, cs) ∧ h ∈ cs) ∨ is_origin TEST h = true ∨
  h ∈ (stacks k).*1.
Proof.
  unfold referenced. rewrite !orb_true_iff, !bool_decide_eq_true. fold (places k).
  assert (map_Exists (λ _ t, h ∈ t_children t) (tasks k) ↔
    ∃ p tid s cs, cores (tasks k) !! p = Some (tid, s, cs) ∧ h ∈ cs); [|tauto].
  split.
  - intros (p&t&Hp&Hh). exists p, (t_tid t), (t_status t), (t_children t). rewrite cores_lookup. naive_solver.
  - intros (p&tid&s&cs&(t&Hp&[= <- <- <-])%cores_lookup&Hh). by exists p, t.
Qed.

Lemma next_pos k busy pend h t : kinv k busy pend → tasks k !! h = Some t → (0 < next_id k)%nat.
Proof.
  intros Hinv Ht. destruct (decide (0 < next_id k)%nat); [done|].
  pose proof (i_fresh _ _ _ _ _ _ _ Hinv h ltac:(lia)) as Hn.
  assert (is_Some (cores (tasks k) !! h)) as [x Hx] by (exists (core t); apply cores_lookup; by exists t).
  congruence.
Qed.

(** What stays the same while references are dropped. *)
Definition same_run k k' : Prop :=
  ready_queue k' = ready_queue k ∧ cpus k' = cpus k ∧ next_id k' = next_id k ∧ board k' = board k ∧
  signals k' = signals k ∧ stacks k' = stacks k.

Lemma drop_ref_ok k busy pend h : kinv k busy (h :: pend) → h ∉ busy → h ∉ pend → is_Some (tasks k !! h) →
  ∃ k', drop_ref TEST h k = Ret (tt, k') ∧ kinv k' busy pend ∧ same_run k k' ∧
    tasks k' = (if referenced TEST h k then tasks k else delete h (tasks k)) ∧ tasks k' ⊆ tasks k.
Proof.
  intros Hinv Hb Hpd [t Ht]. unfold drop_ref. cbn [drop_arc].
  destruct (referenced TEST h k) eqn:Hr.
  - exists k. apply referenced_spec in Hr. split; [done|]. split; [|by split_and!].
    eapply inv_unpend; [exact Hinv|]. destruct Hr as [?|[?|[?|?]]]; [tauto|tauto|tauto|].
    right; right; right. apply elem_of_app. by right.
  - assert (¬ (h ∈ places k ∨ (∃ p tid s cs, cores (tasks k) !! p = Some (tid, s, cs) ∧ h ∈ cs) ∨
      is_origin TEST h = true ∨ h ∈ (stacks k).*1)) as Hno by (rewrite <- referenced_spec, Hr; done).
    assert (cores (tasks k) !! h = Some (core t)) as Hc by (rewrite cores_lookup; naive_solver).
    destruct (i_zombie _ _ _ _ _ _ _ Hinv h _ _ _ Hc) as [Hs [Hcs|?]]; [tauto|done| |tauto].
    rewrite Ht. cbn [unwrap]. rewrite bind_Ret.
    destruct (i_used _ _ _ _ _ _ _ Hinv h _ _ _ Hc) as [Hfree HR].
    pose proof (dealloc_spec (tids k) (t_tid t) (i_wf _ _ _ _ _ _ _ Hinv) (is_tid_ok _ HR)) as Hd.
    rewrite Hfree in Hd. destruct Hd as (al&Hd&Hset). unfold tid_drop. rewrite Hd, !bind_Ret.
    rewrite Hcs. cbn [foldMW]. eexists. split; [done|]. split; [|split; [by split_and!|split; [done|apply delete_subseteq]]].
    unfold kinv. cbn. replace (cores (delete h (tasks k))) with (delete h (cores (tasks k)))
      by (symmetry; apply fmap_delete).
    apply (inv_drop _ _ _ (tids k) al _ _ _ _ (t_tid t) (t_status t)); [exact Hinv| | | | | |done].
    + etransitivity; [exact Hc|]. unfold core. by rewrite Hcs.
    + intros Hp. apply Hno. by left.
    + destruct (is_origin TEST h); tauto.
    + intros p tid s cs Hp Hin. apply Hno. right; left. by exists p, tid, s, cs.
    + rewrite elem_of_app. tauto.
Qed.

Lemma drop_refs_ok cs k busy pend : kinv k busy (cs ++ pend) → NoDup (cs ++ pend) →
  (∀ x, x ∈ cs → (x ∉ busy) ∧ is_Some (tasks k !! x)) →
  ∃ k', foldMW (λ _ x, drop_ref TEST x) tt cs k = Ret (tt, k') ∧ kinv k' busy pend ∧ same_run k k' ∧
    tasks k' ⊆ tasks k ∧ ∀ x, x ∉ cs → tasks k' !! x = tasks k !! x.
Proof.
  revert k. induction cs as [|h cs IH]; intros k Hinv Hnd Hcs; [by exists k|].
  inversion_clear Hnd as [|?? Hh Hnd'].
  destruct (drop_ref_ok k busy (cs ++ pend) h) as (k1&Hd&Hinv1&Hs1&Ht1&Hsub1);
    [done|by apply Hcs; left|done|by apply Hcs; left|].
  assert (∀ x, x ≠ h → tasks k1 !! x = tasks k !! x) as Hother.
  { intros x Hx. rewrite Ht1. destruct (referenced _ _ _); [done|]. by rewrite lookup_delete_ne. }
  destruct (IH k1 Hinv1 Hnd') as (k2&Hr&Hinv2&Hs2&Hsub2&Ht2).
  { intros x Hx. rewrite Hother by (intros ->; apply Hh, elem_of_app; by left). apply Hcs. by right. }
  exists k2. cbn [foldMW]. step Hd. split; [done|]. split; [done|]. split.
  - unfold same_run in *. destruct Hs1 as (?&?&?&?&?&?), Hs2 as (?&?&?&?&?&?). split_and!; congruence.
  - split; [by etransitivity|]. intros x Hx. rewrite Ht2 by set_solver. apply Hother. set_solver.
Qed.

(** ** New blocks and the queue *)

Lemma add_task_ok k busy pend (mk : Z → Task) : kinv k busy pend →
  (∀ tid, core (mk tid) = (tid, Ready, [])) →
  (∃ tid k', add_task mk k = Ret (next_id k, k') ∧ kinv k' (next_id k :: busy) (next_id k :: pend) ∧
     free (tids k) tid = true ∧ tasks k' = <[next_id k := mk tid]> (tasks k) ∧
     ready_queue k' = ready_queue k ∧ cpus k' = cpus k ∧ board k' = board k ∧ stacks k' = stacks k) ∨
  (add_task mk k = Panic ∧ ∀ i, free (tids k) i = false).
Proof.
  intros Hinv Hmk. unfold add_task, alloc_tid.
  destruct (alloc_spec (tids k) (i_wf _ _ _ _ _ _ _ Hinv)) as [(tid&al&Ha&(_&Hf&_)&Hset)|[Ha Hno]];
    rewrite Ha; [left|by right].
  eexists tid, _. split; [done|]. split; [|by split_and!].
  unfold kinv. cbn. rewrite cores_insert, Hmk. by eapply inv_add.
Qed.

Lemma not_in_places k busy pend h : kinv k busy pend → (next_id k <= h)%nat → h ∉ places k.
Proof.
  intros Hinv Hh Hp. pose proof (i_fresh _ _ _ _ _ _ _ Hinv h Hh) as Hn.
  apply elem_of_app in Hp as [Hp|Hp].
  - destruct (i_ready _ _ _ _ _ _ _ Hinv h Hp) as (?&?&?). congruence.
  - apply list_elem_of_omap in Hp as (y&Hy&Ht). destruct (i_cpu _ _ _ _ _ _ _ Hinv y h Hy Ht) as (?&?&?&?&?). congruence.
Qed.

Lemma push_ready_ok k busy pend h tid cs : kinv k (h :: busy) (h :: pend) → h ∉ places k →
  cores (tasks k) !! h = Some (tid, Ready, cs) →
  kinv (with_ready k (ready_queue k ++ [h])) busy pend.
Proof.
  intros Hinv Hp Hc. unfold places in Hp. eapply inv_move; [exact Hinv| | | | | | |]; cbn.
  - rewrite <- app_assoc. pose proof (i_places _ _ _ _ _ _ _ Hinv) as Hnd.
    apply (list.NoDup_Permutation_proper _ (h :: ready_queue k ++ omap cpu_task (cpus k))).
    + cbn. symmetry. apply Permutation_middle.
    + by constructor.
  - intros x [Hx|Hx]%elem_of_app; [by apply (i_ready _ _ _ _ _ _ _ Hinv)|].
    apply list_elem_of_singleton in Hx as ->. by eexists _, _.
  - apply (i_cpu _ _ _ _ _ _ _ Hinv).
  - set_solver.
  - set_solver.
  - set_solver.
  - intros x Hx. apply (i_pend _ _ _ _ _ _ _ Hinv). by right.
Qed.

(** ** Cores *)

Lemma omap_insert (l : list Cpu) i x y : l !! i = Some x →
  omap cpu_task (<[i := y]> l) ≡ₚ
    option_list (cpu_task y) ++ omap cpu_task (take i l ++ drop (S i) l).
Proof.
  intros Hi. rewrite insert_take_drop by (by eapply lookup_lt_Some). rewrite !omap_app. cbn.
  destruct (cpu_task y); cbn; [|done]. by rewrite <- Permutation_middle.
Qed.

Lemma omap_take_drop (l : list Cpu) i x : l !! i = Some x →
  omap cpu_task l ≡ₚ option_list (cpu_task x) ++ omap cpu_task (take i l ++ drop (S i) l).
Proof. intros Hi. rewrite <- (list_insert_id l i x Hi) at 1. by rewrite (omap_insert l i x x Hi). Qed.

Lemma cpu_elem (l : list Cpu) i x y z : l !! i = Some x → z ∈ <[i := y]> l → z = y ∨ z ∈ l.
Proof.
  intros Hi [j Hj]%list_elem_of_lookup. apply list_lookup_insert_Some in Hj as [(?&?&?)|[? Hj]]; [by left|right].
  by eapply list_elem_of_lookup_2.
Qed.

Lemma leave_cpu k busy pend i x h : kinv k busy pend → cpus k !! i = Some x → cpu_task x = Some h →
  kinv (with_cpus k (<[i := Idle]> (cpus k))) (h :: busy) (h :: pend) ∧
  h ∉ places (with_cpus k (<[i := Idle]> (cpus k))).
Proof.
  intros Hinv Hi Hx. pose proof (i_places _ _ _ _ _ _ _ Hinv) as Hnd.
  pose proof (omap_take_drop _ _ _ Hi) as Hp1. rewrite Hx in Hp1. cbn in Hp1.
  pose proof (omap_insert _ _ _ Idle Hi) as Hp2. cbn in Hp2.
  rewrite Hp1, <- Permutation_middle, <- Hp2 in Hnd. apply list.NoDup_cons in Hnd as [Hno Hnd].
  split; [|exact Hno]. eapply inv_move; [exact Hinv|exact Hnd|apply (i_ready _ _ _ _ _ _ _ Hinv)| | |set_solver|set_solver|].
  - intros z y Hz Hy. destruct (cpu_elem _ _ _ _ _ Hi Hz) as [->|Hz']; [done|].
    by apply (i_cpu _ _ _ _ _ _ _ Hinv z).
  - cbn. intros y. rewrite Hp2, Hp1. set_solver.
  - intros y [->|Hy]%elem_of_cons; [|by apply (i_pend _ _ _ _ _ _ _ Hinv)].
    destruct (i_cpu _ _ _ _ _ _ _ Hinv x h) as (?&?&?&Hl&_); [by eapply list_elem_of_lookup_2|done|exact (mk_is_Some _ _ Hl)].
Qed.

Lemma enter_cpu k busy pend i x h tid s cs : kinv k (h :: busy) (h :: pend) → cpus k !! i = Some Idle →
  h ∉ places k → cores (tasks k) !! h = Some (tid, s, cs) → cpu_task x = Some h → cpu_ok x s →
  kinv (with_cpus k (<[i := x]> (cpus k))) busy pend.
Proof.
  intros Hinv Hi Hno Hc Hx Hok. pose proof (i_places _ _ _ _ _ _ _ Hinv) as Hnd. unfold places in Hno.
  pose proof (omap_take_drop _ _ _ Hi) as Hp1. cbn in Hp1.
  pose proof (omap_insert _ _ _ x Hi) as Hp2. rewrite Hx in Hp2. cbn in Hp2. rewrite <- Hp1 in Hp2.
  eapply inv_move; [exact Hinv| |apply (i_ready _ _ _ _ _ _ _ Hinv)| | | | |]; cbn.
  - rewrite Hp2, <- Permutation_middle. by constructor.
  - intros z y Hz Hy. destruct (cpu_elem _ _ _ _ _ Hi Hz) as [->|Hz'].
    + simplify_eq. by eexists _, _, _.
    + by apply (i_cpu _ _ _ _ _ _ _ Hinv z).
  - intros y. rewrite Hp2. set_solver.
  - intros y. rewrite Hp2. set_solver.
  - intros y. rewrite Hp2. set_solver.
  - intros y Hy. apply (i_pend _ _ _ _ _ _ _ Hinv). by right.
Qed.

(** Another status for a block on its way. *)
Lemma set_core k busy pend h t t' : kinv k busy pend → h ∈ busy → h ∉ places k → tasks k !! h = Some t →
  t_tid t' = t_tid t → t_children t' = t_children t →
  kinv (with_tasks k (<[h := t']> (tasks k))) busy pend.
Proof.
  intros Hinv Hb Hno Ht Htid Hcs. unfold places in Hno.
  assert (cores (tasks k) !! h = Some (t_tid t, t_status t, t_children t)) as Hc by (rewrite cores_lookup; by exists t).
  unfold kinv. cbn. rewrite cores_insert. unfold core. rewrite Htid, Hcs.
  eapply inv_update; [exact Hinv|exact Hc| | | | | |].
  - intros ?. exfalso. apply Hno. set_solver.
  - intros x Hx Hh. exfalso. apply Hno. apply elem_of_app. right. apply list_elem_of_omap. by exists x.
  - by eapply (i_nodup _ _ _ _ _ _ _ Hinv).
  - intros x Hx. destruct (i_child _ _ _ _ _ _ _ Hinv _ _ _ _ _ Hc Hx). split_and!; try done. by left.
  - done.
  - done.
Qed.

Lemma set_cpu_Ret k i (x y : Cpu) : cpus k !! i = Some x → set_cpu i y k = Ret (tt, with_cpus k (<[i := y]> (cpus k))).
Proof.
  intros Hi. apply lookup_lt_Some in Hi. unfold set_cpu. rewrite update_Ret by lia. by rewrite Nat2Z.id.
Qed.

Lemma on_task_Ret k h t f : tasks k !! h = Some t →
  on_task h f k = Ret (tt, with_tasks k (<[h := f t]> (tasks k))).
Proof. intros Ht. unfold on_task. by rewrite Ht. Qed.

Lemma the_task_Ret k h t : tasks k !! h = Some t → the_task h k = Ret (t, k).
Proof. intros Ht. unfold the_task. by rewrite Ht. Qed.

Lemma live_on_cpu k busy pend i x h : kinv k busy pend → cpus k !! i = Some x → cpu_task x = Some h →
  ∃ t, tasks k !! h = Some t ∧ cpu_ok x (t_status t).
Proof.
  intros Hinv Hi Hx. destruct (i_cpu _ _ _ _ _ _ _ Hinv x h) as (tid&s&cs&Hc&Hok); [by eapply list_elem_of_lookup_2|done|].
  apply cores_lookup in Hc as (t&Ht&[= <- <- <-]). by exists t.
Qed.

(** A running task gets another status and its core switches back. *)
Lemma switch_back k i h (f : Task → Task) : kinv k [] [] → cpus k !! i = Some (Runs h) →
  (∀ t, t_tid (f t) = t_tid t ∧ t_children (f t) = t_children t ∧ cpu_ok (Leaves h) (t_status (f t))) →
  ∃ k', (_ ← on_task h f; set_cpu i (Leaves h)) k = Ret (tt, k') ∧ kinv k' [] [] ∧
    ∃ t, tasks k !! h = Some t ∧ tasks k' = <[h := f t]> (tasks k).
Proof.
  intros Hinv Hi Hf. destruct (live_on_cpu _ _ _ _ _ _ Hinv Hi eq_refl) as (t&Ht&_).
  destruct (Hf t) as (H1&H2&H3).
  step (on_task_Ret k h t f Ht). rewrite (set_cpu_Ret _ i (Runs h)) by done. eexists. split; [done|].
  split; [|by exists t]. destruct (leave_cpu _ _ _ _ _ _ Hinv Hi eq_refl) as [Hinv1 Hno].
  pose proof (set_core _ _ _ h t (f t) Hinv1 ltac:(left) Hno Ht H1 H2) as Hinv2.
  pose proof (enter_cpu _ [] [] i (Leaves h) h (t_tid (f t)) (t_status (f t)) (t_children (f t)) Hinv2) as Hinv3.
  cbn in Hinv3. rewrite list_insert_insert_eq in Hinv3. apply Hinv3; try done.
  - apply list_lookup_insert_eq. by eapply lookup_lt_Some.
  - rewrite cores_insert. by rewrite lookup_insert_eq.
Qed.

(** ** The end of a task *)

Lemma inv_done c ready cpus al next busy pend h tid : inv c ready cpus al next (h :: busy) pend →
  c !! h = Some (tid, Zombie, []) → inv c ready cpus al next busy pend.
Proof.
  intros [] Hh. split; try done. intros h' tid' s cs Hc Hpl Hb.
  destruct (decide (h' = h)) as [->|]; [simplify_eq; by split; [|left]|].
  apply (i_zombie0 h' tid' s cs Hc Hpl). set_solver.
Qed.

(** The children without a parent: the references are only in [pend]. *)
Lemma inv_orphan c ready cpus al next busy pend h tid s cs : inv c ready cpus al next (h :: busy) pend →
  c !! h = Some (tid, s, cs) → h ∉ ready ++ omap cpu_task cpus →
  inv (<[h := (tid, s, [])]> c) ready cpus al next (h :: busy) (cs ++ pend).
Proof.
  intros Hinv Hc Hno.
  eapply inv_update; [eapply inv_weaken; [done| | |exact Hinv]; [set_solver|]|exact Hc| | | | | |].
  - intros x [Hx|Hx]%elem_of_app; [by eapply (i_child _ _ _ _ _ _ _ Hinv) in Hx as [? _]|].
    by apply (i_pend _ _ _ _ _ _ _ Hinv).
  - intros ?. exfalso. apply Hno. set_solver.
  - intros x Hx Hh. exfalso. apply Hno. apply elem_of_app. right. apply list_elem_of_omap. by exists x.
  - constructor.
  - intros x []%elem_of_nil.
  - intros _ []. by left.
  - intros x Hx _. set_solver.
Qed.

(** Children without a parent, given to a block that is no zombie. *)
Lemma inv_adopt c ready cpus al next busy pend o tid s cs : inv c ready cpus al next busy pend →
  c !! o = Some (tid, s, cs) → o ∈ ready ++ omap cpu_task cpus ∨ is_origin TEST o = true → ∀ cs',
  NoDup cs' → (∀ x, x ∈ cs' → is_Some (c !! x) ∧ (o < x)%nat ∧ ∀ p tid s cs, c !! p = Some (tid, s, cs) → x ∉ cs) →
  inv (<[o := (tid, s, cs ++ cs')]> c) ready cpus al next busy pend.
Proof.
  intros Hinv Hc Ho cs' Hnd Hcs'. eapply inv_update; [exact Hinv|exact Hc| | | | | |].
  - intros Hr. destruct (i_ready _ _ _ _ _ _ _ Hinv o Hr) as (?&?&?). by simplify_eq.
  - intros x Hx Hy. destruct (i_cpu _ _ _ _ _ _ _ Hinv x o Hx Hy) as (?&?&?&?&?). by simplify_eq.
  - apply list.NoDup_app. split; [by eapply (i_nodup _ _ _ _ _ _ _ Hinv)|]. split; [|done].
    intros x Hx Hx'. destruct (Hcs' x Hx') as (_&_&H). by eapply H.
  - intros x [Hx|Hx]%elem_of_app.
    + destruct (i_child _ _ _ _ _ _ _ Hinv _ _ _ _ _ Hc Hx). split_and!; [done|done|by left].
    + destruct (Hcs' x Hx) as (?&?&?). split_and!; [done|done|by right].
  - intros Hpl Hb. destruct Ho as [?|?]; [done|].
    destruct (i_zombie _ _ _ _ _ _ _ Hinv _ _ _ _ Hc Hpl Hb). split; [done|by right].
  - set_solver.
Qed.

(** What the loop over the children leaves alone. *)
Definition same_rest k k' : Prop :=
  ready_queue k' = ready_queue k ∧ cpus k' = cpus k ∧ next_id k' = next_id k ∧ tids k' = tids k ∧
  stacks k' = stacks k ∧ signals k' = signals k ∧
  t_pid <$> tasks k' = t_pid <$> tasks k ∧ t_tid <$> tasks k' = t_tid <$> tasks k.

Lemma same_rest_insert k h t t' : tasks k !! h = Some t → t_pid t' = t_pid t → t_tid t' = t_tid t →
  same_rest k (with_tasks k (<[h := t']> (tasks k))).
Proof.
  intros Ht Hp Hq. split_and!; try done; cbn; rewrite fmap_insert, ?Hp, ?Hq; apply insert_id; by rewrite lookup_fmap, Ht.
Qed.

Lemma same_rest_trans k1 k2 k3 : same_rest k1 k2 → same_rest k2 k3 → same_rest k1 k3.
Proof. unfold same_rest. intros (?&?&?&?&?&?&?&?) (?&?&?&?&?&?&?&?). split_and!; congruence. Qed.

Lemma reparent_orphans cs h t k : tasks k !! h = Some t → (t_ppid t =? NO_PARENT) || TEST = true →
  (∀ x, x ∈ cs → is_Some (tasks k !! x) ∧ x ≠ h) →
  ∃ k', foldMW (reparent TEST h) true cs k = Ret (true, k') ∧ cores (tasks k') = cores (tasks k) ∧
    same_rest k k' ∧ tasks k' !! h = Some t.
Proof.
  intros Ht Hb. revert k Ht. induction cs as [|x cs IH]; intros k Ht Hcs; [by exists k|].
  destruct (Hcs x) as [[c Hc] Hne]; [left|].
  set (k1 := with_tasks k (<[x := set_parent NO_PARENT (t_parent c) c]> (tasks k))).
  assert (reparent TEST h true x k = Ret (true, k1)) as Hstep.
  { unfold reparent. step (the_task_Ret _ _ _ Ht). rewrite Hb. by step (on_task_Ret _ _ _ (λ y : Task, set_parent NO_PARENT (t_parent y) y) Hc). }
  destruct (IH k1) as (k2&Hr&Hcores&Hsame&Ht2).
  - cbn. by rewrite lookup_insert_ne.
  - intros y Hy. destruct (Hcs y) as [? ?]; [by right|]. split; [|done]. apply lookup_insert_is_Some'. by right.
  - exists k2. cbn [foldMW]. step Hstep. split; [done|]. split; [|split; [|done]].
    + rewrite Hcores. cbn. rewrite cores_insert. apply insert_id. apply cores_lookup. by exists c.
    + eapply same_rest_trans; [|exact Hsame]. by eapply same_rest_insert.
Qed.

Lemma reparent_adopt cs h t k tid0 s0 cs0 : tasks k !! h = Some t → (t_ppid t =? NO_PARENT) || TEST = false →
  h ≠ ORIGIN → cores (tasks k) !! ORIGIN = Some (tid0, s0, cs0) →
  (∀ x, x ∈ cs → is_Some (tasks k !! x) ∧ x ≠ h ∧ x ≠ ORIGIN) →
  ∃ k', foldMW (reparent TEST h) true cs k = Ret (true, k') ∧
    cores (tasks k') = <[ORIGIN := (tid0, s0, cs0 ++ cs)]> (cores (tasks k)) ∧
    same_rest k k' ∧ tasks k' !! h = Some t.
Proof.
  intros Ht Hb Hno. revert k cs0 Ht. induction cs as [|x cs IH]; intros k cs0 Ht Ho Hcs.
  { exists k. split; [done|]. rewrite app_nil_r. by rewrite insert_id. }
  destruct (Hcs x) as ([c Hc]&Hne&Hne0); [left|].
  apply cores_lookup in Ho as (o&Ho&[= <- <- <-]).
  set (k1 := with_tasks k (<[x := set_parent 0 (Some ORIGIN) c]> (tasks k))).
  set (k2 := with_tasks k1 (<[ORIGIN := set_children (t_children o ++ [x]) o]> (tasks k1))).
  assert (tasks k1 !! ORIGIN = Some o) as Ho1 by (cbn; by rewrite lookup_insert_ne by done).
  assert (reparent TEST h true x k = Ret (true, k2)) as Hstep.
  { unfold reparent. step (the_task_Ret _ _ _ Ht). rewrite Hb, bool_decide_eq_false_2 by done.
    step (on_task_Ret _ _ _ (set_parent 0 (Some ORIGIN)) Hc). fold k1.
    by step (on_task_Ret _ _ _ (λ y : Task, set_children (t_children y ++ [x]) y) Ho1). }
  destruct (IH k2 (t_children o ++ [x])) as (k3&Hr&Hcores&Hsame&Ht3).
  - cbn. rewrite !lookup_insert_ne by done. done.
  - apply cores_lookup. exists (set_children (t_children o ++ [x]) o). split; [|done]. cbn. by rewrite lookup_insert_eq.
  - intros y Hy. destruct (Hcs y) as (?&?&?); [by right|]. split; [|done].
    apply lookup_insert_is_Some'. right. apply lookup_insert_is_Some'. by right.
  - exists k3. cbn [foldMW]. step Hstep. split; [done|]. split; [|split; [|done]].
    + rewrite Hcores. cbn. rewrite !cores_insert, insert_insert_eq, <- app_assoc. f_equal.
      apply insert_id. apply cores_lookup. by exists c.
    + eapply same_rest_trans; [|exact Hsame]. apply (same_rest_trans k k1).
      * exact (same_rest_insert k x c (set_parent 0 (Some ORIGIN) c) Hc eq_refl eq_refl).
      * exact (same_rest_insert k1 ORIGIN o (set_children (t_children o ++ [x]) o) Ho1 eq_refl eq_refl).
Qed.

Definition pids_ok (m : gmap nat Task) : Prop := map_Forall (λ _ p, is_tid p = true) (t_pid <$> m).

Lemma pids_lookup (m : gmap nat Task) h t : pids_ok m → m !! h = Some t → is_tid (t_pid t) = true.
Proof. intros Hp Ht. apply (Hp h). by rewrite lookup_fmap, Ht. Qed.

Lemma pids_sub (m m' : gmap nat Task) : m' ⊆ m → pids_ok m → pids_ok m'.
Proof.
  intros Hsub Hp h p. rewrite lookup_fmap_Some. intros (t&<-&Ht). eapply pids_lookup; [done|].
  by eapply lookup_weaken.
Qed.

Lemma pids_insert (m : gmap nat Task) h t : is_tid (t_pid t) = true → pids_ok m → pids_ok (<[h := t]> m).
Proof. intros Ht Hp. unfold pids_ok. rewrite fmap_insert. by apply map_Forall_insert_2. Qed.

(** The lost locks are the same as long as the tids of the blocks on abandoned
    stacks are. *)
Lemma receivers_lost_same tid k k' : stacks k' = stacks k → signals k' = signals k →
  (∀ x, x ∈ (stacks k).*1 → t_tid <$> tasks k' !! x = t_tid <$> tasks k !! x) →
  receivers_lost tid k' = receivers_lost tid k.
Proof.
  intros Hst Hsg Htid. unfold receivers_lost. rewrite Hst, Hsg. f_equal.
  revert Htid. generalize (stacks k) as l. induction l as [|[x b] l IH]; intros Htid; [done|]. cbn [existsb fst snd].
  rewrite IH by (intros y Hy; apply Htid; cbn; by right). by rewrite Htid by (cbn; by left).
Qed.

(** What is left of a map holds the same. *)
Lemma tids_sub k k' x : tasks k' ⊆ tasks k → is_Some (tasks k' !! x) → t_tid <$> tasks k' !! x = t_tid <$> tasks k !! x.
Proof. intros Hsub [t Ht]. by rewrite Ht, (lookup_weaken _ _ _ _ Ht Hsub). Qed.

Definition sends_sigchld (t : Task) : bool := send_sigchld_when_exit t || (t_pid t =? t_tid t).

(** The end of [handle_zombie_task]. *)
Definition zombie_end (h : nat) : M (Kernel A) (option unit) :=
  t ← the_task h;
  let sends := send_sigchld_when_exit t || (t_pid t =? t_tid t) in
  lost ← (λ k, Ret (receivers_lost (t_ppid t) k, k));
  if sends && lost then mret None
  else
    _ ← (λ k, Ret (tt, with_signals k
          (global_logoff_signals (t_tid t)
            (if sends then send_signal (t_ppid t) SIGCHLD (signals k) else signals k))));
    _ ← drop_ref TEST h;
    mret (Some tt).

(** The block is a zombie; its references to the children and the core's
    reference to it are dropped. *)
Lemma zombie_tail k h t : tasks k !! h = Some t → h ∉ places k →
  h ∉ t_children t → NoDup (t_children t) → (∀ x, x ∈ t_children t → is_Some (tasks k !! x)) →
  kinv (with_tasks k (<[h := set_children [] t]> (tasks k))) [h] (t_children t ++ [h]) →
  pids_ok (tasks k) →
  let rest := (_ ← on_task h (set_children []);
         _ ← foldMW (λ _ x, drop_ref TEST x) tt (t_children t);
         _ ← on_task h (set_status Zombie);
         zombie_end h) k in
  if sends_sigchld t && receivers_lost (t_ppid t) k then ∃ k', rest = Ret (None, k')
  else ∃ k', rest = Ret (Some tt, k') ∧
    kinv k' [] [] ∧ pids_ok (tasks k') ∧ ready_queue k' = ready_queue k ∧ cpus k' = cpus k ∧ stacks k' = stacks k.
Proof.
  intros Ht Hno Hself Hnd Hcs Hinv Hp rest. unfold rest. clear rest. step (on_task_Ret _ _ _ (set_children []) Ht).
  set (k1 := with_tasks k (<[h := set_children [] t]> (tasks k))) in *.
  destruct (drop_refs_ok (t_children t) k1 [h] [h] Hinv) as (k2&Hd&Hinv2&(Hr2&Hc2&_&_&Hsg2&Hst2)&Hsub2&Hsame2).
  { apply list.NoDup_app. split_and!; [done|set_solver|apply list.NoDup_singleton]. }
  { intros x Hx. split; [set_solver|]. cbn. apply lookup_insert_is_Some'. right. by apply Hcs. }
  step Hd. assert (tasks k2 !! h = Some (set_children [] t)) as Ht2.
  { rewrite Hsame2 by done. cbn. by rewrite lookup_insert_eq. }
  set (z := set_status Zombie (set_children [] t)).
  step (on_task_Ret _ _ _ (set_status Zombie) Ht2). fold z.
  set (k3 := with_tasks k2 (<[h := z]> (tasks k2))).
  assert (tasks k3 !! h = Some z) as Hz by (cbn; by rewrite lookup_insert_eq).
  assert (kinv k3 [] [h]) as Hinv3.
  { eapply inv_done; [apply (set_core k2 [h] [h] h (set_children [] t) z Hinv2); [by left| |done..]|].
    - unfold places. by rewrite Hr2, Hc2.
    - apply cores_lookup. by exists z. }
  assert (receivers_lost (t_ppid z) k3 = receivers_lost (t_ppid t) k) as Hlost.
  { apply receivers_lost_same; [done..|]. intros x Hx. cbn.
    assert (is_Some (tasks k2 !! x)) as [t2 Hl].
    { destruct (i_pend _ _ _ _ _ _ _ Hinv2 x) as [y (y'&Hy&_)%cores_lookup]; [|by exists y'].
      apply elem_of_app. right. by rewrite Hst2. }
    pose proof (tids_sub k1 k2 x Hsub2 (mk_is_Some _ _ Hl)) as H1. cbn in H1.
    destruct (decide (x = h)) as [->|Hx']; [by rewrite lookup_insert_eq, Ht|].
    rewrite lookup_insert_ne in H1 |- * by done. exact H1. }
  unfold zombie_end. step (the_task_Ret _ _ _ Hz). fold (sends_sigchld z).
  step (eq_refl : (λ k, Ret (receivers_lost (t_ppid z) k, k)) k3 = Ret (receivers_lost (t_ppid z) k3, k3)).
  rewrite Hlost. change (sends_sigchld z) with (sends_sigchld t).
  destruct (sends_sigchld t && receivers_lost (t_ppid t) k); [by eexists|].
  set (sigs := global_logoff_signals (t_tid z)
    (if sends_sigchld t then send_signal (t_ppid z) SIGCHLD (signals k3) else signals k3)).
  step (eq_refl : (λ k : Kernel A, Ret (tt, with_signals k (global_logoff_signals (t_tid z)
    (if sends_sigchld t then send_signal (t_ppid z) SIGCHLD (signals k) else signals k)))) k3 = Ret (tt, with_signals k3 sigs)).
  destruct (drop_ref_ok (with_signals k3 sigs) [] [] h) as (k4&Hd4&Hinv4&(Hr4&Hc4&_&_&_&Hst4)&_&Hsub4);
    [done|set_solver|set_solver|done|].
  step Hd4. exists k4. split; [done|]. split; [done|]. split; [|rewrite Hr4, Hc4, Hst4; cbn; by rewrite Hr2, Hc2, Hst2].
  pose proof (pids_lookup _ _ _ Hp Ht) as Hpid.
  eapply pids_sub; [exact Hsub4|]. apply pids_insert; [done|]. eapply pids_sub; [exact Hsub2|]. by apply pids_insert.
Qed.

Lemma reparent_stuck h cs k : foldMW (reparent TEST h) false cs k = Ret (false, k).
Proof. induction cs as [|x cs IH]; [done|]. cbn [foldMW]. by step (eq_refl : reparent TEST h false x k = Ret (false, k)). Qed.

Definition stuck (h : nat) (t : Task) : bool :=
  is_origin TEST h && negb (t_ppid t =? NO_PARENT) && negb (bool_decide (t_children t = [])).

Lemma children_ok k busy pend h t : kinv k busy pend → tasks k !! h = Some t →
  NoDup (t_children t) ∧ (h ∉ t_children t) ∧
  ∀ x, x ∈ t_children t → is_Some (tasks k !! x) ∧ x ≠ h ∧ x ≠ ORIGIN.
Proof.
  intros Hinv Ht.
  assert (cores (tasks k) !! h = Some (t_tid t, t_status t, t_children t)) as Hc by (apply cores_lookup; by exists t).
  pose proof (λ x, i_child _ _ _ _ _ _ _ Hinv _ _ _ _ x Hc) as Hchild.
  assert (∀ x, x ∈ t_children t → is_Some (tasks k !! x) ∧ x ≠ h ∧ x ≠ ORIGIN) as Hcs.
  { intros x Hx. destruct (Hchild x Hx) as [[y (z&Hz&_)%cores_lookup] Hlt]. unfold ORIGIN.
    split; [by exists z|]. lia. }
  split; [by eapply (i_nodup _ _ _ _ _ _ _ Hinv)|]. split; [|done]. intros Hx. by destruct (Hcs h Hx) as (_&?&_).
Qed.

(** The loop over the children of a task that is on no core. *)
Lemma reparent_all_ok k h t : kinv k [h] [h] → h ∉ places k → tasks k !! h = Some t → t_status t = Dying →
  if stuck h t then foldMW (reparent TEST h) true (t_children t) k = Ret (false, k)
  else ∃ k1, foldMW (reparent TEST h) true (t_children t) k = Ret (true, k1) ∧ tasks k1 !! h = Some t ∧
    same_rest k k1 ∧
    kinv (with_tasks k1 (<[h := set_children [] t]> (tasks k1))) [h] (t_children t ++ [h]).
Proof.
  intros Hinv Hno Ht Hd. destruct (children_ok _ _ _ _ _ Hinv Ht) as (Hnd&Hself&Hcs).
  assert (cores (tasks k) !! h = Some (t_tid t, t_status t, t_children t)) as Hc by (apply cores_lookup; by exists t).
  pose proof (inv_orphan _ _ _ _ _ [] ([h] ++ (stacks k).*1) h _ _ _ Hinv Hc Hno) as Horph.
  destruct ((t_ppid t =? NO_PARENT) || TEST) eqn:Hb.
  - assert (stuck h t = false) as ->.
    { unfold stuck, is_origin. apply orb_true_iff in Hb as [-> | ->]; [by rewrite andb_false_r|done]. }
    destruct (reparent_orphans (t_children t) h t k Ht Hb) as (k1&Hr&Hcores&Hsame&Ht1).
    { intros x Hx. by destruct (Hcs x Hx) as (?&?&_). }
    exists k1. split_and!; try done. destruct Hsame as (Hq&Hcpu&Hn&Hal&Hst&_).
    unfold kinv. cbn. rewrite cores_insert, Hcores, Hq, Hcpu, Hn, Hal, Hst, <- app_assoc. exact Horph.
  - destruct (decide (h = ORIGIN)) as [->|Hne].
    + pose proof Hb as [Hpp HT]%orb_false_iff.
      assert (stuck ORIGIN t = negb (bool_decide (t_children t = []))) as ->.
      { unfold stuck, is_origin. by rewrite HT, Hpp, bool_decide_eq_true_2. }
      destruct (t_children t) as [|x cs] eqn:Hcst; rewrite ?bool_decide_eq_true_2, ?bool_decide_eq_false_2 by done; cbn [negb].
      * exists k. split_and!; try done. unfold kinv. cbn. by rewrite cores_insert.
      * cbn [foldMW]. assert (reparent TEST ORIGIN true x k = Ret (false, k)) as Hs.
        { unfold reparent. step (the_task_Ret _ _ _ Ht). by rewrite Hb. }
        step Hs. apply reparent_stuck.
    + assert (stuck h t = false) as ->.
      { unfold stuck, is_origin. by rewrite bool_decide_eq_false_2, andb_false_r by done. }
      assert (TEST = false) as HT by (by apply orb_false_iff in Hb as [_ ?]).
      destruct (i_origin _ _ _ _ _ _ _ Hinv HT) as [[[tid0 s0] cs0] Ho]; [by eapply next_pos|].
      destruct (reparent_adopt (t_children t) h t k tid0 s0 cs0 Ht Hb Hne Ho Hcs) as (k1&Hr&Hcores&Hsame&Ht1).
      exists k1. split_and!; try done. destruct Hsame as (Hq&Hcpu&Hn&Hal&Hst&_).
      unfold kinv. cbn. rewrite cores_insert, Hcores, Hq, Hcpu, Hn, Hal, Hst, insert_insert_ne, <- app_assoc by done.
      eapply inv_adopt; [exact Horph| | |exact Hnd|].
      * by rewrite lookup_insert_ne.
      * right. unfold is_origin. by rewrite HT, bool_decide_eq_true_2.
      * intros x Hx. destruct (i_child _ _ _ _ _ _ _ Hinv _ _ _ _ x Hc Hx) as [Hl Hlt].
        split; [apply lookup_insert_is_Some'; by right|]. destruct (Hcs x Hx) as (_&_&Hxo).
        split; [unfold ORIGIN in *; lia|]. intros p tid s cs [[<- [= <- <- <-]]|[? Hpc]]%lookup_insert_Some; [by apply not_elem_of_nil|].
        intros Hx'. by pose proof (i_one _ _ _ _ _ _ _ Hinv _ _ _ _ _ _ _ _ x Hc Hpc Hx Hx').
Qed.

(** [handle_zombie_task] of the block [t] never returns: the origin has children
    to hand over to itself, or the parent's lock is lost. *)
Definition endless (h : nat) (t : Task) k : bool :=
  stuck h t || sends_sigchld t && receivers_lost (t_ppid t) k.

(** The task on its way out of a core. *)
Lemma handle_zombie_ok k h t : kinv k [h] [h] → h ∉ places k → pids_ok (tasks k) →
  tasks k !! h = Some t → t_status t = Dying →
  if endless h t k then ∃ k', handle_zombie_task TEST h k = Ret (None, k')
  else ∃ k', handle_zombie_task TEST h k = Ret (Some tt, k') ∧ kinv k' [] [] ∧ pids_ok (tasks k') ∧
    ready_queue k' = ready_queue k ∧ cpus k' = cpus k ∧ stacks k' = stacks k.
Proof.
  intros Hinv Hno Hp Ht Hdying. destruct (children_ok _ _ _ _ _ Hinv Ht) as (Hnd&Hself&Hcs).
  unfold endless. pose proof (reparent_all_ok k h t Hinv Hno Ht Hdying) as Hall.
  unfold handle_zombie_task. step (the_task_Ret _ _ _ Ht). destruct (stuck h t).
  { cbn [orb]. step Hall. by exists k. }
  destruct Hall as (k1&Hfold&Ht1&(Hr&Hcpu&_&_&Hst&Hsg&Hpid&Htid)&Hinv1). step Hfold. cbn [negb orb].
  assert (receivers_lost (t_ppid t) k1 = receivers_lost (t_ppid t) k) as <-.
  { apply receivers_lost_same; [done..|]. intros x _. by rewrite <- !lookup_fmap, Htid. }
  rewrite <- Hr, <- Hcpu, <- Hst. apply zombie_tail; try done.
  - unfold places. by rewrite Hr, Hcpu.
  - intros x Hx. destruct (Hcs x Hx) as ([y Hy]&_).
    assert (is_Some ((t_pid <$> tasks k1) !! x)) as Hl by (rewrite Hpid, lookup_fmap, Hy; done).
    rewrite lookup_fmap in Hl. by apply fmap_is_Some in Hl.
  - unfold pids_ok. by rewrite Hpid.
Qed.

(** ** One step of a core *)

Definition consistent k : Prop := kinv k [] [] ∧ pids_ok (tasks k).

Lemma push_back k h t : kinv k [h] [h] → h ∉ places k → tasks k !! h = Some t → t_status t = Ready →
  kinv (with_ready k (ready_queue k ++ [h])) [] [].
Proof.
  intros Hinv Hno Ht Hs. apply (push_ready_ok k [] [] h (t_tid t) (t_children t)); [done..|].
  apply cores_lookup. exists t. unfold core. by rewrite Hs.
Qed.

Definition leaves_never (h : nat) (t : Task) k : bool := bool_decide (t_status t = Dying) && endless h t k.

Lemma run_leave_ok k i h : consistent k → cpus k !! i = Some (Leaves h) →
  ∃ t, tasks k !! h = Some t ∧
  if leaves_never h t k then ∃ k', run_leave TEST i h k = Ret (None, k')
  else ∃ k', run_leave TEST i h k = Ret (Some tt, k') ∧ consistent k'.
Proof.
  intros [Hinv Hp] Hi. unfold run_leave.
  destruct (leave_cpu _ _ _ _ _ _ Hinv Hi eq_refl) as [Hinv1 Hno1].
  destruct (live_on_cpu _ _ _ _ _ _ Hinv Hi eq_refl) as (t&Ht&Hs). exists t. split; [done|].
  step (set_cpu_Ret _ _ _ Idle Hi).
  step (the_task_Ret _ _ t (Ht : tasks (with_cpus k (<[i := Idle]> (cpus k))) !! h = Some t)).
  unfold leaves_never. destruct Hs as [Hs|Hs]; rewrite Hs; cbn [bool_decide decide andb].
  - eexists. split; [done|]. split; [by eapply push_back|done].
  - assert ((t_pid t =? 0) = false) as -> by (pose proof (pids_lookup _ _ _ Hp Ht); destruct (Z.eqb_spec (t_pid t) 0) as [He|]; [by rewrite He in *|done]).
    rewrite andb_false_r, bool_decide_eq_true_2 by done. cbn [andb].
    pose proof (handle_zombie_ok (with_cpus k (<[i := Idle]> (cpus k))) h t Hinv1 Hno1 Hp Ht Hs) as Hz.
    change (endless h t (with_cpus k (<[i := Idle]> (cpus k)))) with (endless h t k) in Hz.
    destruct (endless h t k); [done|]. destruct Hz as (k'&Hk&?&?&_). by exists k'.
Qed.

(** A task taken from the queue is at the hand of the core. *)
Lemma take_ready k h l : kinv k [] [] → ready_queue k = h :: l →
  kinv (with_ready k l) [h] [h] ∧ (h ∉ places (with_ready k l)) ∧ ∃ t, tasks k !! h = Some t ∧ t_status t = Ready.
Proof.
  intros Hinv Hq. pose proof (i_places _ _ _ _ _ _ _ Hinv) as Hnd. rewrite Hq in Hnd.
  apply list.NoDup_cons in Hnd as [Hno Hnd].
  split; [|split; [done|]].
  - eapply inv_move; [exact Hinv|exact Hnd| |apply (i_cpu _ _ _ _ _ _ _ Hinv)| |set_solver|set_solver|].
    + intros x Hx. apply (i_ready _ _ _ _ _ _ _ Hinv). rewrite Hq. by right.
    + intros x. rewrite Hq. set_solver.
    + cbn. intros x [->|Hx]%elem_of_cons; [|by apply (i_pend _ _ _ _ _ _ _ Hinv)].
      destruct (i_ready _ _ _ _ _ _ _ Hinv h) as (?&?&Hl); [rewrite Hq; by left|exact (mk_is_Some _ _ Hl)].
  - destruct (i_ready _ _ _ _ _ _ _ Hinv h) as (tid&cs&(t&Ht&Hc)%cores_lookup); [rewrite Hq; by left|].
    exists t. split; [done|]. unfold core in Hc. congruence.
Qed.

Lemma blocked_ok k busy pend h t now : kinv k busy pend → tasks k !! h = Some t →
  ∃ b bd, blocked h now k = Ret (b, with_board k bd).
Proof.
  intros Hinv Ht. unfold blocked. rewrite Ht. cbn [unwrap]. rewrite bind_Ret.
  destruct (i_used _ _ _ _ _ _ _ Hinv h (t_tid t) (t_status t) (t_children t)) as [_ HR].
  { apply cores_lookup. by exists t. }
  destruct (check_thread_blocked_ok (board k) (t_tid t) now) as (bd&Hb&_); [by apply is_tid_ok|].
  rewrite Hb, bind_Ret. by eexists _, _.
Qed.

(** A task at the hand of the core is pushed back or run. *)
Lemma run_task_ok k i h t now : kinv k [h] [h] → h ∉ places k → pids_ok (tasks k) → cpus k !! i = Some Idle →
  tasks k !! h = Some t → t_status t = Ready →
  ∃ k', (b ← blocked h now;
         if b : bool then push_task_to_scheduler h
         else _ ← on_task h (set_status Running); set_cpu i (Runs h)) k = Ret (tt, k') ∧ consistent k'.
Proof.
  intros Hinv Hno Hp Hi Ht Hs. destruct (blocked_ok k _ _ h t now Hinv Ht) as (b&bd&Hb). step Hb.
  assert (kinv (with_board k bd) [h] [h]) as Hinv1 by done.
  destruct b.
  - eexists. split; [done|]. split; [by eapply push_back|done].
  - step (on_task_Ret (with_board k bd) _ _ (set_status Running) Ht). rewrite (set_cpu_Ret _ i Idle) by done. eexists. split; [done|].
    pose proof (set_core _ _ _ h t (set_status Running t) Hinv1 ltac:(left) Hno Ht eq_refl eq_refl) as Hinv2.
    split; [|by apply pids_insert; [apply (pids_lookup _ _ _ Hp Ht)|]].
    apply (enter_cpu _ [] [] i (Runs h) h (t_tid t) Running (t_children t) Hinv2); try done.
    cbn. rewrite cores_insert. by rewrite lookup_insert_eq.
Qed.

Lemma halt_ok k i : consistent k → cpus k !! i = Some Idle →
  consistent (with_cpus k (<[i := Halts]> (cpus k))).
Proof.
  intros [Hinv Hp] Hi. split; [|done]. unfold kinv. cbn.
  pose proof (omap_insert _ _ _ Halts Hi) as Hp2. rewrite <- (omap_take_drop _ _ _ Hi) in Hp2.
  eapply inv_move; [exact Hinv| |apply (i_ready _ _ _ _ _ _ _ Hinv)| | |set_solver|set_solver|apply (i_pend _ _ _ _ _ _ _ Hinv)].
  - rewrite Hp2. apply (i_places _ _ _ _ _ _ _ Hinv).
  - intros z y Hz Hy. destruct (cpu_elem _ _ _ _ _ Hi Hz) as [->|Hz']; [done|].
    by apply (i_cpu _ _ _ _ _ _ _ Hinv z).
  - intros y. rewrite Hp2. by left.
Qed.

(** The step of an idle core; it ends in a panic only when the next test cannot
    be made or gets no tid. *)
Lemma run_fetch_ok k i now test_left made : consistent k → cpus k !! i = Some Idle →
  (∃ k', run_fetch TEST i now test_left made k = Ret (tt, k') ∧ consistent k') ∨
  (run_fetch TEST i now test_left made k = Panic ∧ TEST && test_left = true ∧ ready_queue k = [] ∧
   (made = false ∨ ∀ tid, free (tids k) tid = false)).
Proof.
  intros Hk Hi. pose proof Hk as [Hinv Hp]. unfold run_fetch.
  destruct (ready_queue k) as [|h l] eqn:Hq.
  - assert (sched_pop k = Ret (None, k)) as Hpop by (unfold sched_pop; by rewrite Hq).
    destruct (TEST && test_left) eqn:Hb.
    + destruct made.
      2: { right. split; [|by split_and!; [..|left]]. unfold fetch_task_from_scheduler.
        unfold mbind at 1, M_bind at 1. unfold mbind at 1, M_bind at 1. rewrite Hpop, Hb. done. }
      destruct (add_task_ok k [] [] (λ tid, mkTask tid tid true NO_PARENT None [] Ready 0) Hinv) as
        [(tid&k1&Ha&Hinv1&Hf&Ht1&Hr1&Hc1&_)|[Ha Hno]]; [done| |].
      * left. assert (fetch_task_from_scheduler TEST test_left true k = Ret (Some (next_id k), k1)) as Hfetch.
        { unfold fetch_task_from_scheduler. step Hpop. rewrite Hb. by step Ha. }
        step Hfetch. eapply run_task_ok; [exact Hinv1| | | | |].
        -- unfold places. rewrite Hr1, Hc1. by apply (not_in_places k [] []).
        -- rewrite Ht1. apply pids_insert; [|done]. by apply (i_sub _ _ _ _ _ _ _ Hinv).
        -- by rewrite Hc1.
        -- rewrite Ht1. by rewrite lookup_insert_eq.
        -- done.
      * right. split; [|by split_and!; [..|right]].
        assert (from_app_name NO_PARENT true k = Panic) as Hnew.
        { unfold from_app_name. step (eq_refl : (unwrap_made true : M (Kernel A) unit) k = Ret (tt, k)). exact Ha. }
        unfold fetch_task_from_scheduler.
        unfold mbind at 1, M_bind at 1. unfold mbind at 1, M_bind at 1. rewrite Hpop, Hb.
        unfold mbind at 1, M_bind. by rewrite Hnew.
    + left. assert (fetch_task_from_scheduler TEST test_left made k = Ret (None, k)) as Hfetch.
      { unfold fetch_task_from_scheduler. step Hpop. by rewrite Hb. }
      step Hfetch. destruct TEST; [|by exists k]. rewrite (set_cpu_Ret _ _ _ _ Hi). eexists. split; [done|]. by apply halt_ok.
  - left. destruct (take_ready k h l Hinv Hq) as (Hinv1&Hno&t&Ht&Hs).
    assert (fetch_task_from_scheduler TEST test_left made k = Ret (Some h, with_ready k l)) as Hfetch.
    { unfold fetch_task_from_scheduler. by step (ltac:(unfold sched_pop; by rewrite Hq) : sched_pop k = Ret (Some h, with_ready k l)). }
    step Hfetch. by eapply run_task_ok.
Qed.

(** ** The calls of the task on a core *)

Lemma on_cpu_place k i x h : cpus k !! i = Some x → cpu_task x = Some h → h ∈ places k.
Proof.
  intros Hi Hx. apply elem_of_app. right. apply list_elem_of_omap. exists x. split; [|done].
  by eapply list_elem_of_lookup_2.
Qed.

Lemma task_core k h t : tasks k !! h = Some t →
  cores (tasks k) !! h = Some (t_tid t, t_status t, t_children t).
Proof. intros Ht. apply cores_lookup. by exists t. Qed.

Definition clone_pid (t : Task) (flags tid : Z) : Z := if contains_flag flags CLONE_THREAD then t_pid t else tid.

Definition cloned (h : nat) (t : Task) (sigchld : bool) (flags tid : Z) : Task :=
  mkTask (clone_pid t flags tid) tid sigchld
    (if contains_flag flags CLONE_PARENT then t_ppid t else t_tid t) (Some h) [] Ready 0.

(** What [from_clone] unwraps besides the tid could be made. *)
Definition clone_made (flags : Z) (copied stack_made : bool) : bool :=
  (contains_flag flags CLONE_VM || copied) && stack_made.

Lemma from_clone_ok k i h sigchld flags copied stack_made : consistent k → cpus k !! i = Some (Runs h) →
  (∃ t tid k', tasks k !! h = Some t ∧ from_clone h sigchld flags copied stack_made k = Ret (next_id k, k') ∧
     free (tids k) tid = true ∧ kinv k' [next_id k] [next_id k] ∧ (next_id k ∉ places k') ∧
     tasks k' = <[next_id k := cloned h t sigchld flags tid]>
       (if contains_flag flags CLONE_PARENT then tasks k
        else <[h := set_children (t_children t ++ [next_id k]) t]> (tasks k))) ∨
  (from_clone h sigchld flags copied stack_made k = Panic ∧
   (clone_made flags copied stack_made = false ∨ ∀ tid, free (tids k) tid = false)).
Proof.
  intros [Hinv Hp] Hi. destruct (live_on_cpu _ _ _ _ _ _ Hinv Hi eq_refl) as (t&Ht&_).
  pose proof (on_cpu_place _ _ _ _ Hi eq_refl) as Hpl.
  unfold from_clone, clone_made. step (the_task_Ret _ _ _ Ht).
  destruct (contains_flag flags CLONE_VM || copied) eqn:Hcopy.
  2: { right. split; [|by left]. by apply orb_false_iff in Hcopy as [-> ->]. }
  assert (∀ k : Kernel A, (if contains_flag flags CLONE_VM then mret tt else unwrap_made copied) k = Ret (tt, k)) as Hcp.
  { intros k'. apply orb_true_iff in Hcopy as [-> | ->]; [done|]. by destruct (contains_flag _ _). }
  step (Hcp k). change (λ tid : Z, mkTask _ tid _ _ _ _ _ _) with (cloned h t sigchld flags).
  destruct (add_task_ok k [] [] (cloned h t sigchld flags) Hinv) as [(tid&k1&Ha&Hinv1&Hf&Ht1&Hr1&Hc1&_&Hst1)|[Ha Hno]];
    [done| |right; split; [|by right]].
  2: { unfold mbind, M_bind. by rewrite Ha. }
  destruct stack_made; [|right; split; [by step Ha|by left]].
  left. exists t, tid. set (n := next_id k) in *.
  assert (n ∉ places k1) as Hno by (unfold places; rewrite Hr1, Hc1; by apply (not_in_places k [] [])).
  assert (h < n)%nat as Hlt.
  { destruct (decide (h < n)%nat); [done|]. pose proof (i_fresh _ _ _ _ _ _ _ Hinv h) as Hfresh.
    rewrite (task_core _ _ _ Ht) in Hfresh. discriminate Hfresh. lia. }
  assert (tasks k1 !! h = Some t) as Hth by (rewrite Ht1, lookup_insert_ne by lia; done).
  step Ha. step (eq_refl : (unwrap_made true : M (Kernel A) unit) k1 = Ret (tt, k1)).
  destruct (contains_flag flags CLONE_PARENT) eqn:Hcpar.
  - exists k1. split_and!; try done.
  - step (on_task_Ret _ _ _ (λ t, set_children (t_children t ++ [n]) t) Hth).
    eexists. split; [done|]. split; [done|]. split; [done|].
    split; [|split; [done|cbn; rewrite Ht1; apply insert_insert_ne; lia]].
    unfold kinv. cbn. rewrite cores_insert. unfold core. cbn.
    eapply inv_adopt; [exact Hinv1|by apply task_core| | |].
    + left. rewrite Hr1, Hc1. exact Hpl.
    + apply list.NoDup_singleton.
    + intros x ->%list_elem_of_singleton. rewrite Ht1, cores_insert.
      split; [by rewrite lookup_insert_eq|]. split; [done|].
      intros p tid' s cs [[<- [= <- <- <-]]|[? Hpc]]%lookup_insert_Some; [by apply not_elem_of_nil|].
      intros [[y Hy] _]%(i_child _ _ _ _ _ _ _ Hinv _ _ _ _ _ Hpc).
      by rewrite (i_fresh _ _ _ _ _ _ _ Hinv n) in Hy.
Qed.

(** [clone] makes one ready task, child of the caller unless it asks for the
    caller's parent, and answers its tid. *)
Lemma sys_clone_ok k i h flags user_stack copied stack_made : consistent k → cpus k !! i = Some (Runs h) →
  (∃ r k', sys_clone h flags user_stack copied stack_made k = Ret (r, k') ∧ consistent k') ∨
  (sys_clone h flags user_stack copied stack_made k = Panic ∧
   (clone_made (Z.land flags (wnot 32 0x3f)) copied stack_made = false ∨ ∀ tid, free (tids k) tid = false)).
Proof.
  intros Hk Hi. unfold sys_clone. destruct (user_stack <? 0); [left; by eexists _, _|].
  set (f := Z.land flags (wnot 32 0x3f)). set (sg := Z.land flags 0x3f =? SIGCHLD).
  destruct (from_clone_ok k i h sg f copied stack_made Hk Hi) as [(t&tid&k1&Ht&Hc&Hf&Hinv&Hno&Ht1)|[Hc Hno]].
  - left. step Hc.
    assert (tasks k1 !! next_id k = Some (cloned h t sg f tid)) as Hn by (by rewrite Ht1, lookup_insert_eq).
    step (the_task_Ret _ _ _ Hn). eexists _, _. split; [done|]. split; [by eapply push_back|].
    destruct Hk as [Hinv0 Hp]. cbn. rewrite Ht1. pose proof (pids_lookup _ _ _ Hp Ht) as Hpid.
    apply pids_insert.
    + cbn. unfold clone_pid. destruct (contains_flag f CLONE_THREAD); [done|]. by apply (i_sub _ _ _ _ _ _ _ Hinv0).
    + destruct (contains_flag f CLONE_PARENT); [done|]. by apply pids_insert.
  - right. split; [|done]. unfold mbind at 1, M_bind. by rewrite Hc.
Qed.

(** The child that [waitpid] looks for: for -1 one that has exited, otherwise
    the one with the pid. *)
Definition wanted (m : gmap nat Task) (pid : Z) (x : nat) : bool :=
  match m !! x with
  | Some y => if pid =? -1 then bool_decide (t_status y = Zombie) else t_pid y =? wrap64 pid
  | None => false
  end.

Definition wait_find (m : gmap nat Task) (pid : Z) cs : option (nat * nat) :=
  list_find (λ x, wanted m pid x = true) cs.

(** What the loop must find. *)
Definition wait_found (m : gmap nat Task) (pid : Z) cs (idx flag : Z) : Z * Z * Z :=
  match wait_find m pid cs with
  | Some (j, x) =>
      match m !! x with
      | Some y =>
          if bool_decide (t_status y = Zombie)
          then (idx + Z.of_nat j, t_exit_code y, if pid =? -1 then t_pid y else pid)
          else (-2, -1, pid)
      | None => (flag, -1, pid)
      end
  | None => (if (pid =? -1) && negb (bool_decide (cs = [])) then -2 else flag, -1, pid)
  end.

Lemma wait_scan_ok (m : gmap nat Task) pid cs (idx flag : Z) : (∀ x, x ∈ cs → is_Some (m !! x)) →
  wait_scan m pid cs idx flag = Ret (wait_found m pid cs idx flag).
Proof.
  revert idx flag. induction cs as [|x cs IH]; intros idx flag Hcs.
  { unfold wait_found, wait_find. cbn. by rewrite andb_false_r. }
  destruct (Hcs x) as [y Hy]; [by left|].
  assert (∀ z, z ∈ cs → is_Some (m !! z)) as Hcs' by (intros z ?; apply Hcs; by right).
  assert (wait_scan m pid (x :: cs) idx flag =
    if wanted m pid x then Ret (if bool_decide (t_status y = Zombie)
      then (idx, t_exit_code y, if pid =? -1 then t_pid y else pid) else (-2, -1, pid))
    else wait_scan m pid cs (idx + 1) (if pid =? -1 then -2 else flag)) as ->.
  { cbn [wait_scan]. unfold wanted. rewrite Hy. cbn [unwrap]. rewrite bind_Ret. unfold get_code_if_exit.
    destruct (Z.eqb_spec pid (-1)) as [->|]; [by destruct (t_status y)|].
    destruct (t_pid y =? wrap64 pid); [|done]. by destruct (t_status y). }
  unfold wait_found, wait_find. cbn [list_find]. destruct (wanted m pid x) eqn:Hw.
  - rewrite decide_True by done. rewrite Hy. cbn. by rewrite Z.add_0_r.
  - rewrite decide_False by congruence. rewrite IH by done. unfold wait_found, wait_find.
    destruct (list_find _ cs) as [[j z]|] eqn:Hf; cbn.
    + apply list_find_Some in Hf as (Hj&_&_). destruct (Hcs' z) as [y' Hy']; [by eapply list_elem_of_lookup_2|].
      rewrite Hy'. by replace (idx + 1 + Z.of_nat j) with (idx + Z.of_nat (S j)) by lia.
    + destruct (pid =? -1); cbn; [|done]. by destruct (bool_decide (cs = [])).
Qed.

Lemma zombie_no_place k busy pend x y : kinv k busy pend → tasks k !! x = Some y → t_status y = Zombie → x ∉ places k.
Proof.
  intros Hinv Hy Hs [Hx|Hx]%elem_of_app.
  - destruct (i_ready _ _ _ _ _ _ _ Hinv x Hx) as (?&?&Hc). rewrite (task_core _ _ _ Hy) in Hc. congruence.
  - apply list_elem_of_omap in Hx as (z&Hz&Hx). destruct (i_cpu _ _ _ _ _ _ _ Hinv z x Hz Hx) as (?&?&?&Hc&Hok).
    rewrite (task_core _ _ _ Hy) in Hc. simplify_eq. rewrite Hs in Hok. destruct z; cbn in *; naive_solver.
Qed.

(** A child leaves the list of a task on a core. *)
Lemma forget_child k i h t j x : kinv k [] [] → cpus k !! i = Some (Runs h) → tasks k !! h = Some t →
  t_children t !! j = Some x →
  kinv (with_tasks k (<[h := set_children (delete j (t_children t)) t]> (tasks k))) [] [x] ∧
  ∀ p tid s cs, cores (<[h := set_children (delete j (t_children t)) t]> (tasks k)) !! p = Some (tid, s, cs) → x ∉ cs.
Proof.
  intros Hinv Hi Ht Hj. pose proof (task_core _ _ _ Ht) as Hc.
  pose proof (i_nodup _ _ _ _ _ _ _ Hinv _ _ _ _ Hc) as Hnd.
  pose proof (delete_Permutation _ _ _ Hj) as Hperm. rewrite Hperm in Hnd. apply list.NoDup_cons in Hnd as [Hx Hnd].
  assert (∀ z, z ∈ t_children t ↔ z = x ∨ z ∈ delete j (t_children t)) as Hin.
  { intros z. rewrite Hperm at 1. apply elem_of_cons. }
  split.
  - unfold kinv. cbn. rewrite cores_insert. unfold core. cbn.
    eapply inv_update; [eapply (inv_weaken _ _ _ _ _ [] _ ([] ++ (stacks k).*1)); [done|set_solver| |exact Hinv]|exact Hc| | |exact Hnd| | |].
    + intros z [->|Hz]%elem_of_cons; [|by apply (i_pend _ _ _ _ _ _ _ Hinv)].
      apply (i_child _ _ _ _ _ _ _ Hinv _ _ _ _ x Hc). apply Hin. by left.
    + intros Hr. destruct (i_ready _ _ _ _ _ _ _ Hinv h Hr) as (?&?&?). congruence.
    + intros z Hz Hh. destruct (i_cpu _ _ _ _ _ _ _ Hinv z h Hz Hh) as (?&?&?&?&?). by simplify_eq.
    + intros z Hz. destruct (i_child _ _ _ _ _ _ _ Hinv _ _ _ _ z Hc) as [? ?]; [apply Hin; by right|].
      split_and!; [done|done|]. left. apply Hin. by right.
    + intros []. by eapply on_cpu_place.
    + intros z [->|?]%Hin ?; [by left|done].
  - intros p tid s cs. rewrite cores_insert. intros [[<- [= <- <- <-]]|[Hne Hp]]%lookup_insert_Some; [done|].
    intros Hx'. apply Hne. by apply (i_one _ _ _ _ _ _ _ Hinv _ _ _ _ _ _ _ _ x Hc Hp (proj2 (Hin x) (or_introl eq_refl))).
Qed.

Lemma waitpid_ok k i h t pid : consistent k → cpus k !! i = Some (Runs h) → tasks k !! h = Some t →
  ∃ k', consistent k' ∧ cpus k' = cpus k ∧
    waitpid TEST h pid k = Ret
      (match wait_find (tasks k) pid (t_children t) with
       | Some (j, x) =>
           match tasks k !! x with
           | Some y =>
               if bool_decide (t_status y = Zombie)
               then (if pid =? -1 then t_pid y else pid, Some (swrap 32 (t_exit_code y * 256)))
               else (-2, None)
           | None => (-1, None)
           end
       | None => (if (pid =? -1) && negb (bool_decide (t_children t = [])) then -2 else -1, None)
       end, k') ∧
    match wait_find (tasks k) pid (t_children t) with
    | Some (j, x) =>
        match tasks k !! x with
        | Some y =>
            if bool_decide (t_status y = Zombie)
            then
              let m := <[h := set_children (delete j (t_children t)) t]> (tasks k) in
              let kept := bool_decide (x ∈ (stacks k).*1) in
              tasks k' = (if kept then m else delete x m) ∧ free (tids k') (t_tid y) = negb kept
            else k' = k
        | None => False
        end
    | None => k' = k
    end.
Proof.
  intros [Hinv Hp] Hi Ht. destruct (children_ok _ _ _ _ _ Hinv Ht) as (_&_&Hcs).
  unfold waitpid. rewrite Ht. cbn [unwrap]. rewrite bind_Ret, wait_scan_ok by (intros x Hx; by apply Hcs).
  rewrite bind_Ret. unfold wait_found.
  destruct (wait_find (tasks k) pid (t_children t)) as [[j x]|] eqn:Hf.
  2: { exists k. split; [done|]. by destruct (_ && _). }
  apply list_find_Some in Hf as (Hj&_&_).
  destruct (Hcs x) as ([y Hy]&Hne&Hno); [by eapply list_elem_of_lookup_2|]. rewrite Hy.
  case_bool_decide as Hs; [|by exists k]. cbv beta iota.
  destruct (Z.leb_spec 0 (0 + Z.of_nat j)); [|lia].
  replace (Z.to_nat (0 + Z.of_nat j)) with j by lia. rewrite Hj. cbn [unwrap]. rewrite bind_Ret.
  rewrite (on_task_Ret _ _ _ _ Ht), bind_Ret.
  destruct (forget_child k i h t j x Hinv Hi Ht Hj) as [Hinv1 Hno1].
  set (k1 := with_tasks k _) in *.
  destruct (drop_ref_ok k1 [] [] x Hinv1) as (k2&Hd&Hinv2&(_&Hcpu&_)&Ht2&Hsub); [set_solver|set_solver|cbn; by rewrite lookup_insert_ne|].
  rewrite Hd, bind_Ret. exists k2.
  assert (referenced TEST x k1 = bool_decide (x ∈ (stacks k).*1)) as Hr.
  { apply eq_true_iff_eq. rewrite referenced_spec, bool_decide_eq_true. split; [|tauto].
    intros [Hr|[(p&tid&s&cs&Hpc&Hx)|[Ho|?]]]; [| | |done].
    - by destruct (zombie_no_place k _ _ _ _ Hinv Hy Hs).
    - by destruct (Hno1 p tid s cs Hpc).
    - unfold is_origin in Ho. by rewrite bool_decide_eq_false_2, andb_false_r in Ho. }
  rewrite Hr in Ht2. destruct (i_used _ _ _ _ _ _ _ Hinv _ _ _ _ (task_core _ _ _ Hy)) as [_ HR].
  split; [split; [done|]|split; [exact Hcpu|split; [done|split; [done|]]]].
  { eapply pids_sub; [exact Hsub|]. cbn. apply pids_insert; [|done]. exact (pids_lookup _ _ _ Hp Ht). }
  case_bool_decide as Hkept; cbn [negb].
  - eapply (i_used _ _ _ _ _ _ _ Hinv2 x). apply task_core. rewrite Ht2. cbn. by rewrite lookup_insert_ne.
  - destruct (i_cover _ _ _ _ _ _ _ Hinv2 _ HR) as [?|(h'&s&cs&(z&Hz&Hcz)%cores_lookup)]; [done|exfalso].
    rewrite Ht2 in Hz. apply lookup_delete_Some in Hz as [Hx Hz]. apply Hx. cbn in Hz.
    assert (∃ z', tasks k !! h' = Some z' ∧ t_tid z' = t_tid y) as (z'&Hz'&Htid).
    { unfold core in Hcz. apply lookup_insert_Some in Hz as [[<- <-]|[_ Hz]]; [exists t|exists z]; cbn in Hcz; split; congruence. }
    pose proof (task_core _ _ _ Hz') as Hc'. rewrite Htid in Hc'.
    exact (i_tid _ _ _ _ _ _ _ Hinv _ _ _ _ _ _ _ (task_core _ _ _ Hy) Hc').
Qed.

Lemma switch_back_ok k i h (f : Task → Task) : consistent k → cpus k !! i = Some (Runs h) →
  (∀ t, t_tid (f t) = t_tid t ∧ t_children (f t) = t_children t ∧ cpu_ok (Leaves h) (t_status (f t))) →
  (∀ t, t_pid (f t) = t_pid t) →
  ∃ k', (_ ← on_task h f; set_cpu i (Leaves h)) k = Ret (tt, k') ∧ consistent k'.
Proof.
  intros [Hinv Hp] Hi Hf Hpid. destruct (switch_back k i h f Hinv Hi Hf) as (k'&Hk&Hinv'&t&Ht&Ht').
  exists k'. split; [done|]. split; [done|]. rewrite Ht'. apply pids_insert; [|done].
  rewrite Hpid. exact (pids_lookup _ _ _ Hp Ht).
Qed.

Lemma suspend_ok k i h : consistent k → cpus k !! i = Some (Runs h) →
  ∃ k', suspend_current_task i h k = Ret (tt, k') ∧ consistent k'.
Proof. intros Hk Hi. apply switch_back_ok; [done..| |done]. intros t. split_and!; [done..|by left]. Qed.

Lemma exit_ok k i h code : consistent k → cpus k !! i = Some (Runs h) →
  ∃ k', exit_current_task i h code k = Ret (tt, k') ∧ consistent k'.
Proof. intros Hk Hi. apply switch_back_ok; [done..| |done]. intros t. split_and!; [done..|by right]. Qed.

Lemma kill_ok k i h handling : consistent k → cpus k !! i = Some (Runs h) →
  ∃ k', handle_signals_exit i h handling k = Ret (tt, k') ∧ consistent k'.
Proof.
  intros [Hinv Hp] Hi. unfold handle_signals_exit.
  step (eq_refl : (λ k : Kernel A, Ret (tt, with_stacks k ((h, handling) :: stacks k))) k =
    Ret (tt, with_stacks k ((h, handling) :: stacks k))).
  apply exit_ok; [|done]. split; [|done].
  destruct (live_on_cpu _ _ _ _ _ _ Hinv Hi eq_refl) as (t&Ht&_).
  eapply inv_weaken; [done| | |exact Hinv]; [set_solver|]. cbn. intros x [->|Hx]%elem_of_cons.
  - apply task_core in Ht. by eexists.
  - by apply (i_pend _ _ _ _ _ _ _ Hinv).
Qed.

Lemma sys_wait4_ok k i h pid wnohang : consistent k → cpus k !! i = Some (Runs h) →
  ∃ r k', sys_wait4 TEST i h pid wnohang k = Ret (r, k') ∧ consistent k'.
Proof.
  intros Hk Hi. destruct (live_on_cpu _ _ _ _ _ _ (proj1 Hk) Hi eq_refl) as (t&Ht&_).
  destruct (waitpid_ok k i h t pid Hk Hi Ht) as (k'&Hk'&Hcpu&Hw&_). unfold sys_wait4.
  destruct (waitpid TEST h pid k) as [[[r code] k1]|] eqn:He; [|done]. injection Hw as _ ->. step He.
  destruct (r =? -1); [by eexists _, _|]. destruct (r =? -2); [|by eexists _, _].
  destruct wnohang; [by eexists _, _|].
  destruct (suspend_ok k' i h) as (k2&Hs&?); [done|by rewrite Hcpu|]. step Hs. by eexists _, _.
Qed.

Lemma call_futex_ok k i h op val val2 a1 a2 : consistent k → cpus k !! i = Some (Runs h) →
  ∃ r k', call_futex i h op val val2 a1 a2 k = Ret (r, k') ∧ consistent k'.
Proof.
  intros Hk Hi. pose proof Hk as [Hinv Hp]. destruct (live_on_cpu _ _ _ _ _ _ Hinv Hi eq_refl) as (t&Ht&_).
  assert (0 <= t_tid t) as Htid.
  { apply is_tid_ok. by eapply (i_used _ _ _ _ _ _ _ Hinv), task_core. }
  assert (∀ bd, ∃ k', suspend_current_task i h (with_board k bd) = Ret (tt, k') ∧ consistent k') as Hsusp.
  { intros bd. by apply suspend_ok. }
  unfold call_futex. rewrite Ht. cbn [unwrap]. rewrite bind_Ret. unfold sys_futex. destruct (operation op).
  - destruct a1 as [v|]; [|by eexists _, _]. destruct (negb (v =? val)); [by eexists _, _|].
    cbv zeta. set (w := waiter_new _).
    destruct (set_waiter_ok (board k) (t_tid t) w Htid) as (bd&Hb&_).
    rewrite Hb, !bind_Ret. destruct (Hsusp bd) as (k'&Hs&?). rewrite Hs, bind_Ret. by eexists _, _.
  - rewrite bind_Ret. destruct (Hsusp (board k)) as (k'&Hs&?). rewrite Hs, bind_Ret. by eexists _, _.
  - by eexists _, _.
  - by eexists _, _.
Qed.

(** ** Every run *)

Lemma step_consistent k k' : consistent k → step TEST k k' → consistent k'.
Proof.
  intros Hk Hs. destruct Hs as [i now tl made Hi Hr|i h Hi Hr|i h Hi Hr|i h code Hi Hr|i h b Hi Hr
    |i h flags us c st r Hi Hr|i h pid wn r Hi Hr|i h op v v2 a1 a2 r Hi Hr|i h s Hi ->].
  - destruct (run_fetch_ok k i now tl made Hk Hi) as [(k1&Hr1&?)|[Hr1 _]]; rewrite Hr in Hr1; by simplify_eq.
  - destruct (run_leave_ok k i h Hk Hi) as (t&_&Hl). rewrite Hr in Hl.
    destruct (leaves_never h t k); destruct Hl as [k1 Hr1]; [done|]. destruct Hr1; by simplify_eq.
  - destruct (suspend_ok k i h Hk Hi) as (k1&Hr1&?). rewrite Hr in Hr1; by simplify_eq.
  - destruct (exit_ok k i h code Hk Hi) as (k1&Hr1&?). rewrite Hr in Hr1; by simplify_eq.
  - destruct (kill_ok k i h b Hk Hi) as (k1&Hr1&?). rewrite Hr in Hr1; by simplify_eq.
  - destruct (sys_clone_ok k i h flags us c st Hk Hi) as [(r1&k1&Hr1&?)|[Hr1 _]]; rewrite Hr in Hr1; by simplify_eq.
  - destruct (sys_wait4_ok k i h pid wn Hk Hi) as (r1&k1&Hr1&?). rewrite Hr in Hr1; by simplify_eq.
  - destruct (call_futex_ok k i h op v v2 a1 a2 Hk Hi) as (r1&k1&Hr1&?). rewrite Hr in Hr1; by simplify_eq.
  - exact Hk.
Qed.

Lemma inv_nothing n al : wf al → (∀ i, free al i = is_tid i) → inv ∅ [] (replicate n Idle) al 0 [] [].
Proof.
  intros Hwf Hal. assert (omap cpu_task (replicate n Idle) = []) as Ho by (by induction n).
  assert (∀ x h, x ∈ replicate n Idle → cpu_task x = Some h → False) as Hidle.
  { intros x h [-> _]%elem_of_replicate. done. }
  split; rewrite ?Ho; try done; try set_solver.
  - constructor.
  - intros _ Hn. lia.
  - intros h [x Hx]. done.
Qed.

Lemma kernel_boot_ok n : ∃ k, kernel_boot TEST n true = Ret k ∧ consistent k.
Proof.
  unfold kernel_boot, tid_init.
  destruct (insert_spec (DEFAULT : A) 2 TID_LIMIT wf_DEFAULT ltac:(done) CAP_ok) as (al&Ha&Hwf&Hset).
  rewrite Ha, bind_Ret. set (k0 := mkKernel _ _ _ _ _ _ _ _).
  assert (∀ i, free al i = is_tid i) as Hal.
  { intros i. rewrite Hset, free_DEFAULT. unfold is_tid. by destruct (_ && _). }
  assert (kinv k0 [] []) as Hinv by (by apply inv_nothing).
  set (ppid := if TEST then NO_PARENT else 0).
  destruct (add_task_ok k0 [] [] (λ tid, mkTask tid tid true ppid None [] Ready 0) Hinv) as
    [(tid&k1&Hk&Hinv1&Hf&Ht1&Hr1&Hc1&_)|[_ Hno]]; [done| |].
  2: { specialize (Hno 2). cbn in Hno. rewrite Hal in Hno. done. }
  assert (from_app_name ppid true k0 = Ret (next_id k0, k1)) as Hnew.
  { unfold from_app_name. step (eq_refl : (unwrap_made true : M (Kernel A) unit) k0 = Ret (tt, k0)). exact Hk. }
  unfold scheduler_init. fold ppid. rewrite (M_bind_Ret _ _ _ _ _ Hnew). unfold push_task_to_scheduler.
  rewrite bind_Ret. eexists. split; [done|]. split.
  - eapply push_back; [exact Hinv1| |by rewrite Ht1, lookup_insert_eq|done].
    unfold places. rewrite Hr1, Hc1. by apply (not_in_places k0 [] []).
  - cbn. rewrite Ht1. apply pids_insert; [|intros h p Hp; cbn in Hp; by rewrite lookup_fmap, lookup_empty in Hp].
    by apply (i_sub _ _ _ _ _ _ _ Hinv).
Qed.

Lemma reachable_consistent n k : reachable TEST n k → consistent k.
Proof.
  intros (made&k0&Hb&Hs). destruct made.
  2: { exfalso. unfold kernel_boot in Hb. by destruct (tid_init DEFAULT). }
  destruct (kernel_boot_ok n) as (k1&Hb1&Hk). rewrite Hb in Hb1. injection Hb1 as <-.
  clear Hb. induction Hs as [|x y z Hxy _ IH]; [done|]. apply IH. by eapply step_consistent.
Qed.

(** What the invariant says of the blocks. *)
Record sane k : Prop := {
  sane_places : NoDup (places k);
  sane_ready h : h ∈ ready_queue k → ∃ t, tasks k !! h = Some t ∧ t_status t = Ready;
  sane_cpu i x h : cpus k !! i = Some x → cpu_task x = Some h →
    ∃ t, tasks k !! h = Some t ∧ cpu_ok x (t_status t);
  sane_rest h t : tasks k !! h = Some t → h ∉ places k →
    t_status t = Zombie ∧
    ((∃ p t', tasks k !! p = Some t' ∧ h ∈ t_children t') ∨ is_origin TEST h = true ∨ h ∈ (stacks k).*1);
  sane_child p t x : tasks k !! p = Some t → x ∈ t_children t → is_Some (tasks k !! x) ∧ (p < x)%nat;
  sane_parent p1 t1 p2 t2 x : tasks k !! p1 = Some t1 → tasks k !! p2 = Some t2 →
    x ∈ t_children t1 → x ∈ t_children t2 → p1 = p2;
  sane_tid h1 t1 h2 t2 : tasks k !! h1 = Some t1 → tasks k !! h2 = Some t2 → t_tid t1 = t_tid t2 → h1 = h2;
  sane_tids tid : is_tid tid = true →
    free (tids k) tid = negb (bool_decide (map_Exists (λ _ t, t_tid t = tid) (tasks k)));
  sane_stacks h : h ∈ (stacks k).*1 → is_Some (tasks k !! h) }.

Lemma consistent_sane k : consistent k → sane k.
Proof.
  intros [Hinv _]. split.
  - apply (i_places _ _ _ _ _ _ _ Hinv).
  - intros h Hh. destruct (i_ready _ _ _ _ _ _ _ Hinv h Hh) as (tid&cs&(t&Ht&Hc)%cores_lookup).
    exists t. split; [done|]. unfold core in Hc. congruence.
  - intros i x h Hi Hx. by eapply live_on_cpu.
  - intros h t Ht Hno. destruct (i_zombie _ _ _ _ _ _ _ Hinv _ _ _ _ (task_core _ _ _ Ht) Hno) as [Hs _]; [by apply not_elem_of_nil|].
    split; [done|]. destruct (i_ref _ _ _ _ _ _ _ Hinv h) as [?|[(p&tid&s&cs&(t'&Ht'&[= <- <- <-])%cores_lookup&Hx)|[?|?]]];
      [by rewrite (task_core _ _ _ Ht)|done| |tauto|tauto].
    left. by exists p, t'.
  - intros p t x Ht Hx. destruct (i_child _ _ _ _ _ _ _ Hinv _ _ _ _ x (task_core _ _ _ Ht) Hx) as [[y (z&Hz&_)%cores_lookup] ?].
    split; [by exists z|done].
  - intros p1 t1 p2 t2 x H1 H2. apply (i_one _ _ _ _ _ _ _ Hinv _ _ _ _ _ _ _ _ x (task_core _ _ _ H1) (task_core _ _ _ H2)).
  - intros h1 t1 h2 t2 H1 H2 He. pose proof (task_core _ _ _ H1) as Hc1. rewrite He in Hc1.
    exact (i_tid _ _ _ _ _ _ _ Hinv _ _ _ _ _ _ _ Hc1 (task_core _ _ _ H2)).
  - intros tid Htid. case_bool_decide as He; cbn.
    + destruct He as (h&t&Ht&<-). by apply (i_used _ _ _ _ _ _ _ Hinv _ _ _ _ (task_core _ _ _ Ht)).
    + destruct (i_cover _ _ _ _ _ _ _ Hinv tid Htid) as [?|(h&s&cs&(t&Ht&Hc)%cores_lookup)]; [done|].
      destruct He. exists h, t. split; [done|]. unfold core in Hc. congruence.
  - intros h Hh. destruct (i_pend _ _ _ _ _ _ _ Hinv h Hh) as [x (t&Ht&_)%cores_lookup]. by exists t.
Qed.

(** ** What stays on the stacks *)

(** Only [handle_signals_exit] touches [stacks]. *)
Definition same_stacks {X} (m : M (Kernel A) X) : Prop := ∀ k r k', m k = Ret (r, k') → stacks k' = stacks k.

Lemma same_stacks_bind {X Y} (m : M (Kernel A) X) (f : X → M (Kernel A) Y) :
  same_stacks m → (∀ x, same_stacks (f x)) → same_stacks (m ≫= f).
Proof.
  intros Hm Hf k r k'. unfold mbind, M_bind. destruct (m k) as [[x k1]|] eqn:Hk; [|done].
  intros Hr. rewrite (Hf _ _ _ _ Hr). by eapply Hm.
Qed.

Lemma same_stacks_ret {X} (x : X) : same_stacks (mret x).
Proof. intros k r k' [= _ <-]. done. Qed.

Lemma same_stacks_fold {X Y} (f : Y → X → M (Kernel A) Y) (y : Y) (l : list X) :
  (∀ y x, same_stacks (f y x)) → same_stacks (foldMW f y l).
Proof.
  intros Hf. revert y. induction l as [|x l IH]; intros y; cbn [foldMW]; [apply same_stacks_ret|].
  by apply same_stacks_bind.
Qed.

(** An operation that ends in a panic or in a state with the same [stacks]. *)
Ltac same_stacks_prim := intros ? ? ?; cbn; repeat case_match; cbn; try done; intros [= _ <-]; done.

Lemma same_stacks_the_task h : same_stacks (the_task h).
Proof. unfold the_task, unwrap. same_stacks_prim. Qed.

Lemma same_stacks_on_task h f : same_stacks (on_task h f).
Proof. unfold on_task, unwrap. same_stacks_prim. Qed.

Lemma same_stacks_set_cpu i x : same_stacks (set_cpu (A := A) i x).
Proof. intros k r k'. unfold set_cpu. destruct (update _ _ _); cbn; [|done]. by intros [= _ <-]. Qed.

Lemma same_stacks_made b : same_stacks (unwrap_made (A := A) b).
Proof. destruct b; [apply same_stacks_ret|done]. Qed.

Lemma same_stacks_push h : same_stacks (push_task_to_scheduler (A := A) h).
Proof. unfold push_task_to_scheduler. same_stacks_prim. Qed.

Lemma same_stacks_pop : same_stacks (sched_pop (A := A)).
Proof. unfold sched_pop. same_stacks_prim. Qed.

Lemma same_stacks_alloc : same_stacks (alloc_tid (A := A)).
Proof. intros k r k'. unfold alloc_tid. destruct (alloc _) as [[]|]; cbn; [|done]. by intros [= _ <-]. Qed.

Lemma same_stacks_drop n h : same_stacks (drop_arc TEST n h).
Proof.
  revert h. induction n as [|n IH]; intros h; [done|]. intros k r k'. cbn [drop_arc].
  destruct (referenced _ _ _); [by intros [= _ <-]|]. destruct (tasks k !! h) as [t|]; cbn; [|done].
  unfold tid_drop. destruct (dealloc _ _) as [al|]; cbn; [|done]. intros Hr.
  by rewrite (same_stacks_fold _ _ _ (λ _, IH) _ _ _ Hr).
Qed.

Lemma same_stacks_drop_ref h : same_stacks (drop_ref TEST h).
Proof. intros k. apply same_stacks_drop. Qed.

Lemma same_stacks_add mk : same_stacks (add_task (A := A) mk).
Proof.
  intros k r k'. unfold add_task. destruct (alloc_tid k) as [[x k1]|] eqn:Hk; cbn; [|done].
  destruct x as [tid|]; cbn; [|done]. intros [= _ <-]. by rewrite <- (same_stacks_alloc _ _ _ Hk).
Qed.

Lemma same_stacks_blocked h now : same_stacks (blocked (A := A) h now).
Proof.
  intros k r k'. unfold blocked. destruct (tasks k !! h) as [t|]; cbn; [|done].
  destruct (check_thread_blocked _ _ _) as [[]|]; cbn; [|done]. by intros [= _ <-].
Qed.

Create HintDb stacks.
#[local] Hint Resolve same_stacks_the_task same_stacks_on_task same_stacks_set_cpu same_stacks_made same_stacks_push same_stacks_pop same_stacks_drop_ref same_stacks_add
  same_stacks_blocked : stacks.

(** An operation composed of those. *)
Ltac same_stacks_all :=
  repeat first
    [ apply same_stacks_ret
    | apply same_stacks_fold; intros ? ?
    | solve [eauto with stacks]
    | apply same_stacks_bind; [|intros ?]
    | match goal with |- same_stacks (match ?x with _ => _ end) => destruct x end
    | done
    | solve [same_stacks_prim] ].

Lemma same_stacks_new ppid made : same_stacks (from_app_name (A := A) ppid made).
Proof. unfold from_app_name. same_stacks_all. Qed.

Lemma same_stacks_clone h b flags copied made : same_stacks (from_clone (A := A) h b flags copied made).
Proof. unfold from_clone. same_stacks_all. Qed.

Lemma same_stacks_suspend i h : same_stacks (suspend_current_task (A := A) i h).
Proof. unfold suspend_current_task. same_stacks_all. Qed.

Lemma same_stacks_exit i h code : same_stacks (exit_current_task (A := A) i h code).
Proof. unfold exit_current_task. same_stacks_all. Qed.

#[local] Hint Resolve same_stacks_new same_stacks_clone same_stacks_suspend same_stacks_exit : stacks.

Lemma same_stacks_fetch i now tl made : same_stacks (run_fetch TEST i now tl made).
Proof. unfold run_fetch, fetch_task_from_scheduler. same_stacks_all. Qed.

Lemma same_stacks_reparent h ok x : same_stacks (reparent (A := A) TEST h ok x).
Proof. unfold reparent. same_stacks_all. Qed.

#[local] Hint Resolve same_stacks_reparent : stacks.

Lemma same_stacks_leave i h : same_stacks (run_leave TEST i h).
Proof. unfold run_leave, handle_zombie_task. same_stacks_all. Qed.

Lemma same_stacks_sys_clone h flags us copied made : same_stacks (sys_clone (A := A) h flags us copied made).
Proof. unfold sys_clone. same_stacks_all. Qed.

Lemma same_stacks_waitpid h pid : same_stacks (waitpid TEST h pid).
Proof.
  intros k r k'. unfold waitpid. destruct (tasks k !! h) as [t|]; cbn [unwrap]; rewrite ?bind_Ret; [|done].
  destruct (wait_scan _ _ _ _ _) as [[[flag code] found]|]; rewrite ?bind_Ret; [|done].
  destruct (0 <=? flag); [|by intros [= _ <-]]. destruct (t_children t !! _) as [c|]; cbn [unwrap]; rewrite ?bind_Ret; [|done].
  destruct (on_task h _ k) as [[u k1]|] eqn:H1; [|done].
  rewrite bind_Ret. destruct (drop_ref TEST c k1) as [[v k2]|] eqn:H2; [|done].
  intros [= _ <-]. by rewrite (same_stacks_drop_ref _ _ _ _ H2), (same_stacks_on_task _ _ _ _ _ H1).
Qed.

Lemma same_stacks_wait4 i h pid wn : same_stacks (sys_wait4 TEST i h pid wn).
Proof. unfold sys_wait4. apply same_stacks_bind; [apply same_stacks_waitpid|intros [r c]]. same_stacks_all. Qed.

Lemma same_stacks_futex i h op v v2 a1 a2 : same_stacks (call_futex (A := A) i h op v v2 a1 a2).
Proof.
  intros k r k'. unfold call_futex. destruct (tasks k !! h) as [t|]; cbn; [|done].
  destruct (sys_futex _ _ _ _ _ _ _) as [[[x b] bd]|]; cbn; [|done].
  destruct b; [|by intros [= _ <-]]. destruct (suspend_current_task i h _) as [[u k1]|] eqn:H1; [|done].
  intros [= _ <-]. by rewrite (same_stacks_suspend _ _ _ _ _ H1).
Qed.

(** What is on the stacks stays there. *)
Lemma step_stacks k k' : step TEST k k' → ∃ l, stacks k' = l ++ stacks k.
Proof.
  intros Hs. destruct Hs as [? ? ? ? _ Hr|? ? _ Hr|? ? _ Hr|? ? ? _ Hr|i h b _ Hr|? ? ? ? ? ? ? _ Hr|? ? ? ? ? _ Hr
    |? ? ? ? ? ? ? ? _ Hr|? ? ? _ ->].
  - exists []. by eapply same_stacks_fetch.
  - exists []. by eapply same_stacks_leave.
  - exists []. by eapply same_stacks_suspend.
  - exists []. by eapply same_stacks_exit.
  - exists [(h, b)]. unfold handle_signals_exit in Hr. by apply same_stacks_exit in Hr.
  - exists []. by eapply same_stacks_sys_clone.
  - exists []. by eapply same_stacks_wait4.
  - exists []. by eapply same_stacks_futex.
  - by exists [].
Qed.

Lemma steps_stacks k k' : rtc (step TEST) k k' → ∃ l, stacks k' = l ++ stacks k.
Proof.
  induction 1 as [k|k k1 k' H1 _ (l&Hl)]; [by exists []|]. destruct (step_stacks _ _ H1) as [l1 H2].
  exists (l ++ l1). by rewrite Hl, H2, app_assoc.
Qed.

(** A thread ended by a signal keeps its block and its tid for good. *)
Lemma killed_never_freed n k k' h t : reachable TEST n k → rtc (step TEST) k k' → h ∈ (stacks k).*1 →
  tasks k !! h = Some t → ∃ t', tasks k' !! h = Some t' ∧ free (tids k') (t_tid t') = false.
Proof.
  intros (made&k0&Hb&H0) Hs Hh Ht.
  assert (consistent k') as [Hinv _] by (apply (reachable_consistent n); exists made, k0; split; [done|by etransitivity]).
  destruct (steps_stacks _ _ Hs) as [l Hl].
  destruct (i_pend _ _ _ _ _ _ _ Hinv h) as [x (t'&Ht'&_)%cores_lookup].
  { cbn. rewrite Hl, fmap_app. apply elem_of_app. by right. }
  exists t'. split; [done|]. by eapply (i_used _ _ _ _ _ _ _ Hinv), task_core.
Qed.

(** ** Claims *)

(** C5. In every run of any number of cores from the boot, as far as every call
    that was begun has come to an end: a task that runs is on one core and one
    that is ready is once in the queue or on the core it leaves; a task in
    neither place is a zombie that some task still lists as its child, or the
    origin, or was ended by a signal and its reference stays on its own kernel
    stack; children are younger than the task that lists them and at most one
    task lists a child; no two tasks have the same tid, and a tid is taken
    exactly as long as the block of a task has it.  So a block and its tid go
    together, with the last reference. *)
Theorem tasks_stay_sane n k : reachable TEST n k → sane k.
Proof. intros Hr. by eapply consistent_sane, reachable_consistent. Qed.


(** C25. What a running task waits for: for -1 its first child that has exited, for
    a pid its first child with that pid.  When that one has exited, [waitpid]
    answers its pid and its exit code shifted left by 8 and takes it out of the
    children; its block is dropped and its tid freed, unless it was ended by a
    signal: then a reference is left on its kernel stack and both stay.  When it
    has not exited, -2; when there is none, -1 (for -1: only without children),
    and nothing changes. *)
Theorem waitpid_takes_first n k i h t pid : reachable TEST n k → cpus k !! i = Some (Runs h) →
  tasks k !! h = Some t →
  let answer := waitpid TEST h pid k in
  match wait_find (tasks k) pid (t_children t) with
  | Some (j, x) => ∃ y, tasks k !! x = Some y ∧
      if bool_decide (t_status y = Zombie)
      then
        let m := <[h := set_children (delete j (t_children t)) t]> (tasks k) in
        let kept := bool_decide (x ∈ (stacks k).*1) in
        ∃ k', answer = Ret ((if pid =? -1 then t_pid y else pid, Some (swrap 32 (t_exit_code y * 256))), k') ∧
             tasks k' = (if kept then m else delete x m) ∧
             free (tids k') (t_tid y) = negb kept
      else answer = Ret ((-2, None), k)
  | None => answer = Ret ((if (pid =? -1) && negb (bool_decide (t_children t = [])) then -2 else -1, None), k)
  end.
Proof.
  intros Hr%reachable_consistent Hi Ht. cbv zeta. destruct (waitpid_ok k i h t pid Hr Hi Ht) as (k'&_&_&->&Hk').
  destruct (wait_find (tasks k) pid (t_children t)) as [[j x]|]; [|by rewrite Hk'].
  destruct (tasks k !! x) as [y|]; [|done]. exists y. split; [done|].
  case_bool_decide; [|by rewrite Hk']. by exists k'.
Qed.
End tasks.

(** ** A small run: the first process clones, its child exits *)

Module Run.
Export BitFieldModel.

#[export] Instance tid_alloc_spec : BitAllocSpec (Tower 2) := proj2 (tower_spec 2 ltac:(lia)).

Lemma tid_cap : TID_LIMIT <= CAP (Tower 2).
Proof. by rewrite (proj1 (tower_spec 2 ltac:(lia))). Qed.

Definition nothing : Kernel (Tower 2) := mkKernel ∅ 0 DEFAULT [] [] [] ∅ [].
Definition after {X} (x : outcome (X * Kernel (Tower 2))) : Kernel (Tower 2) :=
  match x with Ret (_, k) => k | Panic => nothing end.

Definition k0 : Kernel (Tower 2) := match kernel_boot false 2 true with Ret k => k | Panic => nothing end.
Definition k1 := after (run_fetch false 0 0 false true k0).
Definition k2 := after (sys_clone 0 SIGCHLD 0 true true k1).
Definition k3 := after (run_fetch false 1 0 false true k2).
Definition k4 := after (exit_current_task 1 1 3 k3).
Definition k5 := after (run_leave false 1 1 k4).

Lemma k5_reachable : reachable false 2 k5.
Proof.
  exists true, k0. split; [vm_compute; reflexivity|].
  apply (rtc_l _ _ k1); [apply (step_fetch _ _ _ 0 0 false true); vm_compute; reflexivity|].
  apply (rtc_l _ _ k2); [apply (step_clone _ _ _ 0 0 SIGCHLD 0 true true (inl 3)); vm_compute; reflexivity|].
  apply (rtc_l _ _ k3); [apply (step_fetch _ _ _ 1 0 false true); vm_compute; reflexivity|].
  apply (rtc_l _ _ k4); [apply (step_exit _ _ _ 1 1 3); vm_compute; reflexivity|].
  apply (rtc_l _ _ k5); [apply (step_leave _ _ _ 1 1); vm_compute; reflexivity|].
  apply rtc_refl.
Qed.
End Run.
Import Run.

Lemma tasks_stay_sane_witness : reachable false 2 k5 ∧ sane false k5.
Proof. split; [apply k5_reachable|]. apply (tasks_stay_sane false tid_cap 2), k5_reachable. Defined.


Definition first_task : Task := match tasks k5 !! 0%nat with Some t => t | None => mkTask 0 0 false 0 None [] UnInit 0 end.

Lemma waitpid_takes_first_witness :
  wait_find (tasks k5) (-1) (t_children first_task) = Some (0%nat, 1%nat) ∧
  ∃ k', waitpid false 0 (-1) k5 = Ret ((3, Some 768), k') ∧ free (tids k') 3 = true.
Proof.
  assert (cpus k5 !! 0%nat = Some (Runs 0)) as Hi by (vm_compute; reflexivity).
  assert (tasks k5 !! 0%nat = Some first_task) as Ht by (vm_compute; reflexivity).
  assert (wait_find (tasks k5) (-1) (t_children first_task) = Some (0%nat, 1%nat)) as Hf by (vm_compute; reflexivity).
  split; [exact Hf|].
  pose proof (waitpid_takes_first false tid_cap 2 k5 0 0 first_task (-1) k5_reachable Hi Ht) as H.
  cbv zeta in H. rewrite Hf in H. destruct H as (y&Hy&H).
  assert (tasks k5 !! 1%nat = Some (mkTask 3 3 true 2 (Some 0%nat) [] Zombie 3)) as Hy' by (vm_compute; reflexivity).
  rewrite Hy' in Hy. injection Hy as <-. destruct H as (k'&Hk&_&Hfree). exists k'. split; [exact Hk|exact Hfree].
Defined.
