(* ===== verification/FatTime.v ===== *)
(** * Dates and times of directory entries (rust-fatfs/src/time.rs)

    The packing of a date into 16 bits and of a time into 16 bits and a byte of
    hundredths, and what survives it. *)

From S2P Require Import Prelude.

Definition MIN_YEAR : Z := 1980.
Definition MAX_YEAR : Z := 2107.
Definition MIN_MONTH : Z := 1.
Definition MAX_MONTH : Z := 12.
Definition MIN_DAY : Z := 1.
Definition MAX_DAY : Z := 31.

Record Date := mkDate { year : Z; month : Z; day : Z }.
Record Time := mkTime { hour : Z; min : Z; sec : Z; millis : Z }.
Record DateTime := mkDateTime { date : Date; time : Time }.

#[export] Instance Date_eq_dec : EqDecision Date.
Proof. solve_decision. Defined.
#[export] Instance Time_eq_dec : EqDecision Time.
Proof. solve_decision. Defined.
#[export] Instance DateTime_eq_dec : EqDecision DateTime.
Proof. solve_decision. Defined.

Definition in_range (lo hi x : Z) : bool := (lo <=? x) && (x <=? hi).

Definition Date_new (year month day : Z) : outcome Date :=
  if in_range MIN_YEAR MAX_YEAR year && in_range MIN_MONTH MAX_MONTH month && in_range MIN_DAY MAX_DAY day
  then Ret (mkDate year month day) else Panic.

Definition Date_decode (dos_date : Z) : Date :=
  mkDate (wrap16 (Z.shiftr dos_date 9 + MIN_YEAR)) (Z.land (Z.shiftr dos_date 5) 0xF) (Z.land dos_date 0x1F).

Definition Date_encode (self : Date) : Z :=
  Z.lor (Z.lor (shl 16 (wrap16 (year self - MIN_YEAR)) 9) (shl 16 (month self) 5)) (day self).

Definition Time_new (hour min sec millis : Z) : outcome Time :=
  if (hour <=? 23) && (min <=? 59) && (sec <=? 59) && (millis <=? 999)
  then Ret (mkTime hour min sec millis) else Panic.

Definition Time_decode (dos_time dos_time_hi_res : Z) : Time :=
  mkTime (Z.shiftr dos_time 11) (Z.land (Z.shiftr dos_time 5) 0x3F)
    (wrap16 (Z.land dos_time 0x1F * 2 + dos_time_hi_res / 100))
    (wrap16 (dos_time_hi_res mod 100 * 10)).

Definition Time_encode (self : Time) : Z * Z :=
  let dos_time := Z.lor (Z.lor (shl 16 (hour self) 11) (shl 16 (min self) 5)) (sec self / 2) in
  let dos_time_hi_res := wrap16 (millis self / 10 + wrap16 (sec self mod 2 * 100)) in
  (dos_time, wrap8 dos_time_hi_res).

Definition DateTime_new (d : Date) (t : Time) : DateTime := mkDateTime d t.

Definition DateTime_decode (dos_date dos_time dos_time_hi_res : Z) : DateTime :=
  DateTime_new (Date_decode dos_date) (Time_decode dos_time dos_time_hi_res).

(** [TimeProvider]; without the [chrono] feature the driver's default is
    [NullTimeProvider]. *)
Class TimeProvider := { get_current_date : Date; get_current_date_time : DateTime }.

Definition NullTimeProvider : TimeProvider :=
  {| get_current_date := Date_decode 0; get_current_date_time := DateTime_decode 0 0 0 |}.

(** ** What the packing keeps *)

Definition date_ok (d : Date) : Prop := ∃ y m dd, Date_new y m dd = Ret d.
Definition time_ok (t : Time) : Prop :=
  0 <= hour t <= 23 ∧ 0 <= min t <= 59 ∧ 0 <= sec t <= 59 ∧ 0 <= millis t <= 999.

Lemma date_ok_bounds d : date_ok d →
  1980 <= year d <= 2107 ∧ 1 <= month d <= 12 ∧ 1 <= day d <= 31.
Proof.
  intros (y&m&dd&H). unfold Date_new, in_range, MIN_YEAR, MAX_YEAR, MIN_MONTH, MAX_MONTH, MIN_DAY, MAX_DAY in H.
  revert H. zcases. intros [= <-]. cbn. lia.
Qed.

(** Three fields of [a], [b] and [c] bits in one word. *)
Lemma pack_fields b c x y z : 0 <= b → 0 <= c → 0 <= y < 2 ^ b → 0 <= z < 2 ^ c →
  Z.lor (Z.lor (x * 2 ^ (b + c)) (y * 2 ^ c)) z = x * 2 ^ (b + c) + y * 2 ^ c + z.
Proof.
  intros Hb Hc Hy Hz. assert (x * 2 ^ (b + c) = x * 2 ^ b * 2 ^ c) as Hx by (rewrite Z.pow_add_r; lia).
  rewrite (lor_low x (y * 2 ^ c) (b + c)); [|lia|rewrite Z.pow_add_r by lia; nia].
  rewrite Hx, <- Z.mul_add_distr_r. by apply lor_low.
Qed.

Lemma shl_small x k : 0 <= k < 16 → 0 <= x * 2 ^ k < 2 ^ 16 → shl 16 x k = x * 2 ^ k.
Proof.
  intros Hk Hx. unfold shl. rewrite Z.mod_small by lia. rewrite Z.shiftl_mul_pow2 by lia. by apply wrap_small.
Qed.

Lemma Date_encode_value d : date_ok d → Date_encode d = (year d - 1980) * 2 ^ 9 + month d * 2 ^ 5 + day d.
Proof.
  intros H%date_ok_bounds. unfold Date_encode, MIN_YEAR. rewrite (wrap_small 16) by (unfold word; lia).
  rewrite !shl_small by lia. by apply (pack_fields 4 5); lia.
Qed.

Lemma date_roundtrip d : date_ok d → Date_decode (Date_encode d) = d.
Proof.
  intros H. rewrite (Date_encode_value d H). apply date_ok_bounds in H. destruct d as [y m dd]. cbn in *.
  unfold Date_decode. change 0xF with (Z.ones 4). change 0x1F with (Z.ones 5).
  rewrite !Z.land_ones, !Z.shiftr_div_pow2 by lia. unfold MIN_YEAR.
  rewrite (wrap_small 16) by (unfold word; dlia). f_equal; dlia.
Qed.

(** Every word is a date, and packs to itself. *)
Lemma dos_date_roundtrip x : word 16 x → Date_encode (Date_decode x) = x.
Proof.
  intros [H0 H1]. unfold Date_decode, Date_encode, MIN_YEAR. cbn.
  change 15 with (Z.ones 4). change 31 with (Z.ones 5).
  rewrite !Z.land_ones, !Z.shiftr_div_pow2 by lia.
  rewrite (wrap_small 16 (x / 2 ^ 9 + 1980)) by (unfold word; dlia).
  replace (x / 2 ^ 9 + 1980 - 1980) with (x / 2 ^ 9) by lia. rewrite (wrap_small 16) by (unfold word; dlia).
  change (2 ^ 9) with 512. change (2 ^ 5) with 32. change (2 ^ 4) with 16. change (2 ^ 16) with 65536 in *.
  rewrite !shl_small by (split; dlia). rewrite (pack_fields 4 5) by dlia. dlia.
Qed.

Lemma Time_encode_value t : time_ok t →
  Time_encode t = (hour t * 2 ^ 11 + min t * 2 ^ 5 + sec t / 2, millis t / 10 + sec t mod 2 * 100).
Proof.
  intros (Hh&Hm&Hs&Hms). unfold Time_encode.
  rewrite (wrap_small 16 (sec t mod 2 * 100)), (wrap_small 16 (_ + _)), (wrap_small 8) by (unfold word; dlia).
  rewrite !shl_small by lia. f_equal. apply (pack_fields 6 5); dlia.
Qed.

(** Up to the tens of milliseconds that the format has. *)
Lemma time_roundtrip t : time_ok t →
  let '(dos_time, hi_res) := Time_encode t in
  Time_decode dos_time hi_res = mkTime (hour t) (min t) (sec t) (millis t / 10 * 10).
Proof.
  intros H. rewrite (Time_encode_value t H). destruct H as (Hh&Hm&Hs&Hms).
  unfold Time_decode. change 0x3F with (Z.ones 6). change 0x1F with (Z.ones 5).
  rewrite !Z.land_ones, !Z.shiftr_div_pow2 by lia.
  rewrite (wrap_small 16 (_ mod 100 * 10)), (wrap_small 16 (_ + _)) by (unfold word; dlia). f_equal; dlia.
Qed.
