(* ===== verification/DirEntry.v ===== *)
(** * Directory entries (rust-fatfs/src/dir_entry.rs)

    The 32-byte entries of short and long names, their bytes on a stream, the
    decoded short name, and the editor that holds the entry of an open file
    until it is flushed.  Bytes, [u16] and [u32] are [Z]. *)

From S2P Require Import Prelude Bytes FatIo FatTime FatTable.

(** [FileAttributes] *)
Definition READ_ONLY : Z := 0x01.
Definition HIDDEN : Z := 0x02.
Definition SYSTEM : Z := 0x04.
Definition VOLUME_ID : Z := 0x08.
Definition DIRECTORY : Z := 0x10.
Definition ARCHIVE : Z := 0x20.
Definition LFN : Z := Z.lor (Z.lor (Z.lor READ_ONLY HIDDEN) SYSTEM) VOLUME_ID.

Definition attrs_from_bits_truncate (bits : Z) : Z := Z.land bits 0x3F.
Definition has_attr (attrs flag : Z) : bool := Z.land attrs flag =? flag.

Definition DIR_ENTRY_SIZE : Z := 32.
Definition DIR_ENTRY_DELETED_FLAG : Z := 0xE5.
Definition DIR_ENTRY_REALLY_E5_FLAG : Z := 0x05.
Definition SFN_SIZE : Z := 11.
Definition SFN_PADDING : Z := 0x20.
Definition LFN_PART_LEN : Z := 13.
Definition LFN_ENTRY_LAST_FLAG : Z := 0x40.

(** ** Short names *)

Record ShortName := mkShort { sn_name : list Z; sn_len : Z }.

(** [rposition(|x| *x != SFN_PADDING).map_or(0, |p| p + 1)] *)
Fixpoint unpadded_len (l : list Z) : Z :=
  match l with
  | [] => 0
  | x :: l =>
      let n := unpadded_len l in
      if 0 <? n then n + 1 else if x =? SFN_PADDING then 0 else 1
  end.

Definition ShortName_new (raw_name : list Z) : ShortName :=
  let name_len := unpadded_len (bytes_at 0 8 raw_name) in
  let ext_len := unpadded_len (bytes_at 8 3 raw_name) in
  let name := replicate 12 SFN_PADDING in
  let name := splice 0 (bytes_at 0 name_len raw_name) name in
  let name :=
    if 0 <? ext_len
    then splice (name_len + 1) (bytes_at 8 ext_len raw_name) (splice name_len [0x2E] name)
    else name in
  let total_len := if 0 <? ext_len then name_len + 1 + ext_len else name_len in
  let name :=
    if default 0 (name !! 0%nat) =? DIR_ENTRY_REALLY_E5_FLAG then splice 0 [0xE5] name else name in
  mkShort name (wrap8 total_len).

Definition short_as_bytes (s : ShortName) : list Z := bytes_at 0 (sn_len s) (sn_name s).

(** ** The entry of a file or directory *)

Record DirFileEntryData := mkEntry {
  e_name : list Z;
  e_attrs : Z;
  e_reserved_0 : Z;
  e_create_time_0 : Z;
  e_create_time_1 : Z;
  e_create_date : Z;
  e_access_date : Z;
  e_first_cluster_hi : Z;
  e_modify_time : Z;
  e_modify_date : Z;
  e_first_cluster_lo : Z;
  e_size : Z }.

Implicit Types e : DirFileEntryData.

Definition entry_default : DirFileEntryData := mkEntry (replicate 11 0) 0 0 0 0 0 0 0 0 0 0 0.

Definition entry_new (name : list Z) (attrs : Z) : DirFileEntryData :=
  mkEntry name attrs 0 0 0 0 0 0 0 0 0 0.

Definition entry_renamed e (new_name : list Z) : DirFileEntryData :=
  mkEntry new_name (e_attrs e) (e_reserved_0 e) (e_create_time_0 e) (e_create_time_1 e) (e_create_date e)
    (e_access_date e) (e_first_cluster_hi e) (e_modify_time e) (e_modify_date e) (e_first_cluster_lo e) (e_size e).

Definition entry_first_cluster e (fat_type : FatType) : option Z :=
  let first_cluster_hi := match fat_type with Fat32 => e_first_cluster_hi e | _ => 0 end in
  let n := Z.lor (shl 32 first_cluster_hi 16) (e_first_cluster_lo e) in
  if n =? 0 then None else Some n.

Definition entry_set_first_cluster e (cluster : option Z) (fat_type : FatType) : DirFileEntryData :=
  let n := default 0 cluster in
  let hi := match fat_type with Fat32 => wrap16 (Z.shiftr n 16) | _ => e_first_cluster_hi e end in
  mkEntry (e_name e) (e_attrs e) (e_reserved_0 e) (e_create_time_0 e) (e_create_time_1 e) (e_create_date e)
    (e_access_date e) hi (e_modify_time e) (e_modify_date e) (wrap16 (Z.land n 0xFFFF)) (e_size e).

Definition entry_is_dir e : bool := has_attr (e_attrs e) DIRECTORY.
Definition entry_is_file e : bool := negb (entry_is_dir e).
Definition entry_size e : option Z := if entry_is_file e then Some (e_size e) else None.

Definition entry_set_size e (sz : Z) : DirFileEntryData :=
  mkEntry (e_name e) (e_attrs e) (e_reserved_0 e) (e_create_time_0 e) (e_create_time_1 e) (e_create_date e)
    (e_access_date e) (e_first_cluster_hi e) (e_modify_time e) (e_modify_date e) (e_first_cluster_lo e) sz.

Definition entry_lowercase_basename e : bool := negb (Z.land (e_reserved_0 e) (shl 8 1 3) =? 0).
Definition entry_lowercase_ext e : bool := negb (Z.land (e_reserved_0 e) (shl 8 1 4) =? 0).

(** [make_ascii_lowercase] *)
Definition ascii_lowercase (c : Z) : Z := if (0x41 <=? c) && (c <=? 0x5A) then c + 0x20 else c.

Definition entry_lowercase_name e : ShortName :=
  let name := e_name e in
  let name := if entry_lowercase_basename e
    then splice 0 (ascii_lowercase <$> bytes_at 0 8 name) name else name in
  let name := if entry_lowercase_ext e
    then splice 8 (ascii_lowercase <$> bytes_at 8 3 name) name else name in
  ShortName_new name.

Definition entry_created e : DateTime := DateTime_decode (e_create_date e) (e_create_time_1 e) (e_create_time_0 e).
Definition entry_accessed e : Date := Date_decode (e_access_date e).
Definition entry_modified e : DateTime := DateTime_decode (e_modify_date e) (e_modify_time e) 0.

Definition entry_set_created e (dt : DateTime) : DirFileEntryData :=
  let encoded_time := Time_encode (time dt) in
  mkEntry (e_name e) (e_attrs e) (e_reserved_0 e) (snd encoded_time) (fst encoded_time) (Date_encode (date dt))
    (e_access_date e) (e_first_cluster_hi e) (e_modify_time e) (e_modify_date e) (e_first_cluster_lo e) (e_size e).
Definition entry_set_accessed e (d : Date) : DirFileEntryData :=
  mkEntry (e_name e) (e_attrs e) (e_reserved_0 e) (e_create_time_0 e) (e_create_time_1 e) (e_create_date e)
    (Date_encode d) (e_first_cluster_hi e) (e_modify_time e) (e_modify_date e) (e_first_cluster_lo e) (e_size e).
Definition entry_set_modified e (dt : DateTime) : DirFileEntryData :=
  mkEntry (e_name e) (e_attrs e) (e_reserved_0 e) (e_create_time_0 e) (e_create_time_1 e) (e_create_date e)
    (e_access_date e) (e_first_cluster_hi e) (fst (Time_encode (time dt))) (Date_encode (date dt))
    (e_first_cluster_lo e) (e_size e).

Definition set_first_byte (b : Z) (name : list Z) : list Z := <[0%nat := b]> name.
Definition first_byte (name : list Z) : Z := default 0 (name !! 0%nat).

Definition entry_is_deleted e : bool := first_byte (e_name e) =? DIR_ENTRY_DELETED_FLAG.
Definition entry_set_deleted e : DirFileEntryData := entry_renamed e (set_first_byte DIR_ENTRY_DELETED_FLAG (e_name e)).
Definition entry_is_end e : bool := first_byte (e_name e) =? 0.
Definition entry_is_volume e : bool := has_attr (e_attrs e) VOLUME_ID.

(** ** A piece of a long name *)

Record DirLfnEntryData := mkLfn {
  l_order : Z;
  l_name_0 : list Z;
  l_attrs : Z;
  l_entry_type : Z;
  l_checksum : Z;
  l_name_1 : list Z;
  l_reserved_0 : Z;
  l_name_2 : list Z }.

Implicit Types l : DirLfnEntryData.

Definition lfn_new (order checksum : Z) : DirLfnEntryData :=
  mkLfn order (replicate 5 0) LFN 0 checksum (replicate 6 0) 0 (replicate 2 0).

Definition copy_name_from_slice l (lfn_part : list Z) : DirLfnEntryData :=
  mkLfn (l_order l) (bytes_at 0 5 lfn_part) (l_attrs l) (l_entry_type l) (l_checksum l) (bytes_at 5 6 lfn_part)
    (l_reserved_0 l) (bytes_at 11 2 lfn_part).

(** What [copy_name_to_slice] puts into its 13 units. *)
Definition copy_name_to_slice l : list Z := l_name_0 l ++ l_name_1 l ++ l_name_2 l.

Definition lfn_is_deleted l : bool := l_order l =? DIR_ENTRY_DELETED_FLAG.
Definition lfn_set_deleted l : DirLfnEntryData :=
  mkLfn DIR_ENTRY_DELETED_FLAG (l_name_0 l) (l_attrs l) (l_entry_type l) (l_checksum l) (l_name_1 l)
    (l_reserved_0 l) (l_name_2 l).
Definition lfn_is_end l : bool := l_order l =? 0.

Inductive DirEntryData := DFile (e : DirFileEntryData) | DLfn (l : DirLfnEntryData).

Definition is_deleted (d : DirEntryData) : bool :=
  match d with DFile e => entry_is_deleted e | DLfn l => lfn_is_deleted l end.
Definition set_deleted (d : DirEntryData) : DirEntryData :=
  match d with DFile e => DFile (entry_set_deleted e) | DLfn l => DLfn (lfn_set_deleted l) end.
Definition is_end (d : DirEntryData) : bool :=
  match d with DFile e => entry_is_end e | DLfn l => lfn_is_end l end.

(** ** On a stream *)

Section stream.
Context {D : Type} `{Stream D}.

Definition entry_serialize e : FM D unit :=
  _ ← write_all (e_name e);
  _ ← write_u8 (e_attrs e);
  _ ← write_u8 (e_reserved_0 e);
  _ ← write_u8 (e_create_time_0 e);
  _ ← write_u16_le (e_create_time_1 e);
  _ ← write_u16_le (e_create_date e);
  _ ← write_u16_le (e_access_date e);
  _ ← write_u16_le (e_first_cluster_hi e);
  _ ← write_u16_le (e_modify_time e);
  _ ← write_u16_le (e_modify_date e);
  _ ← write_u16_le (e_first_cluster_lo e);
  write_u32_le (e_size e).

(** [for ch in chars { wrt.write_u16_le(ch)?; }] *)
Fixpoint write_units (chars : list Z) : FM D unit :=
  match chars with
  | [] => mret tt
  | ch :: chars => _ ← write_u16_le ch; write_units chars
  end.

Fixpoint read_units (n : nat) : FM D (list Z) :=
  match n with
  | O => mret []
  | S n => x ← read_u16_le; xs ← read_units n; mret (x :: xs)
  end.

Definition lfn_serialize l : FM D unit :=
  _ ← write_u8 (l_order l);
  _ ← write_units (l_name_0 l);
  _ ← write_u8 (l_attrs l);
  _ ← write_u8 (l_entry_type l);
  _ ← write_u8 (l_checksum l);
  _ ← write_units (l_name_1 l);
  _ ← write_u16_le (l_reserved_0 l);
  write_units (l_name_2 l).

Definition serialize (d : DirEntryData) : FM D unit :=
  match d with DFile e => entry_serialize e | DLfn l => lfn_serialize l end.

(** [name[1..].chunks_exact(2)] as [u16]s *)
Fixpoint le_units (bs : list Z) : list Z :=
  match bs with
  | a :: b :: bs => le_combine [a; b] :: le_units bs
  | _ => []
  end.

Definition deserialize_rest (name : list Z) : FM D DirEntryData :=
  bits ← read_u8;
  let attrs := attrs_from_bits_truncate bits in
  if Z.land attrs LFN =? LFN then
    entry_type ← read_u8;
    checksum ← read_u8;
    name_1 ← read_units 6;
    reserved_0 ← read_u16_le;
    name_2 ← read_units 2;
    mret (DLfn (mkLfn (first_byte name) (le_units (drop 1 name)) attrs entry_type checksum name_1 reserved_0 name_2))
  else
    reserved_0 ← read_u8;
    create_time_0 ← read_u8;
    create_time_1 ← read_u16_le;
    create_date ← read_u16_le;
    access_date ← read_u16_le;
    first_cluster_hi ← read_u16_le;
    modify_time ← read_u16_le;
    modify_date ← read_u16_le;
    first_cluster_lo ← read_u16_le;
    sz ← read_u32_le;
    mret (DFile (mkEntry name attrs reserved_0 create_time_0 create_time_1 create_date access_date
      first_cluster_hi modify_time modify_date first_cluster_lo sz)).

(** At the end of the directory's clusters an empty entry. *)
Definition deserialize : FM D DirEntryData := λ d,
  match read_exact SFN_SIZE d with
  | Ret (Err EUnexpectedEof, d) => Ret (Ok (DFile entry_default), d)
  | Ret (Err e, d) => Ret (Err e, d)
  | Ret (Ok name, d) => deserialize_rest name d
  | Panic => Panic
  end.
End stream.

(** ** [DirEntryEditor] *)

Record DirEntryEditor := mkEditor { ed_data : DirFileEntryData; ed_pos : Z; ed_dirty : bool }.

Implicit Types ed : DirEntryEditor.

Definition editor_new (data : DirFileEntryData) (pos : Z) : DirEntryEditor := mkEditor data pos false.

Definition editor_set_first_cluster ed (first_cluster : option Z) (fat_type : FatType) : DirEntryEditor :=
  if bool_decide (first_cluster = entry_first_cluster (ed_data ed) fat_type) then ed
  else mkEditor (entry_set_first_cluster (ed_data ed) first_cluster fat_type) (ed_pos ed) true.

Definition editor_set_size ed (sz : Z) : DirEntryEditor :=
  match entry_size (ed_data ed) with
  | Some n => if sz =? n then ed else mkEditor (entry_set_size (ed_data ed) sz) (ed_pos ed) true
  | None => ed
  end.

Definition editor_set_created ed (dt : DateTime) : DirEntryEditor :=
  if bool_decide (dt = entry_created (ed_data ed)) then ed
  else mkEditor (entry_set_created (ed_data ed) dt) (ed_pos ed) true.
Definition editor_set_accessed ed (d : Date) : DirEntryEditor :=
  if bool_decide (d = entry_accessed (ed_data ed)) then ed
  else mkEditor (entry_set_accessed (ed_data ed) d) (ed_pos ed) true.
Definition editor_set_modified ed (dt : DateTime) : DirEntryEditor :=
  if bool_decide (dt = entry_modified (ed_data ed)) then ed
  else mkEditor (entry_set_modified (ed_data ed) dt) (ed_pos ed) true.

(** [write]: the entry at its position on the disk. *)
Definition editor_write {D} `{Stream D} ed : FM D unit :=
  _ ← seek (SStart (ed_pos ed));
  entry_serialize (ed_data ed).

Definition editor_flush {D} `{Stream D} ed : FM D DirEntryEditor :=
  if ed_dirty ed then
    _ ← editor_write ed;
    mret (mkEditor (ed_data ed) (ed_pos ed) false)
  else mret ed.
