(* ===== verification/DirEntrySpec.v ===== *)
(** * Correctness of directory entries

    What an entry looks like on the disk, that reading gives back what was
    written, and what the setters change. *)

From S2P Require Import Prelude Bytes FatIo FatIoSpec Disk DiskSpec FatTime FatTable DirEntry.

Implicit Types e : DirFileEntryData.
Implicit Types l : DirLfnEntryData.

(** ** The bytes of an entry *)

Definition entry_bytes e : list Z :=
  e_name e ++ le_split 1 (e_attrs e) ++ le_split 1 (e_reserved_0 e) ++ le_split 1 (e_create_time_0 e) ++
  le_split 2 (e_create_time_1 e) ++ le_split 2 (e_create_date e) ++ le_split 2 (e_access_date e) ++
  le_split 2 (e_first_cluster_hi e) ++ le_split 2 (e_modify_time e) ++ le_split 2 (e_modify_date e) ++
  le_split 2 (e_first_cluster_lo e) ++ le_split 4 (e_size e).

Definition units_bytes (us : list Z) : list Z := us ≫= le_split 2.

Definition lfn_bytes l : list Z :=
  le_split 1 (l_order l) ++ units_bytes (l_name_0 l) ++ le_split 1 (l_attrs l) ++ le_split 1 (l_entry_type l) ++
  le_split 1 (l_checksum l) ++ units_bytes (l_name_1 l) ++ le_split 2 (l_reserved_0 l) ++ units_bytes (l_name_2 l).

Definition data_bytes (d : DirEntryData) : list Z := match d with DFile e => entry_bytes e | DLfn l => lfn_bytes l end.

(** The fields have their widths, and the attributes tell the two kinds apart. *)
Record entry_ok e : Prop := {
  eo_name : length (e_name e) = 11%nat ∧ Forall (word 8) (e_name e);
  eo_attrs : word 6 (e_attrs e) ∧ Z.land (e_attrs e) LFN ≠ LFN;
  eo_bytes : word 8 (e_reserved_0 e) ∧ word 8 (e_create_time_0 e);
  eo_times : word 16 (e_create_time_1 e) ∧ word 16 (e_create_date e) ∧ word 16 (e_access_date e) ∧
    word 16 (e_modify_time e) ∧ word 16 (e_modify_date e);
  eo_cluster : word 16 (e_first_cluster_hi e) ∧ word 16 (e_first_cluster_lo e);
  eo_size : word 32 (e_size e) }.

Record lfn_ok l : Prop := {
  lo_names : length (l_name_0 l) = 5%nat ∧ length (l_name_1 l) = 6%nat ∧ length (l_name_2 l) = 2%nat;
  lo_units : Forall (word 16) (l_name_0 l) ∧ Forall (word 16) (l_name_1 l) ∧ Forall (word 16) (l_name_2 l);
  lo_attrs : word 6 (l_attrs l) ∧ Z.land (l_attrs l) LFN = LFN;
  lo_bytes : word 8 (l_order l) ∧ word 8 (l_entry_type l) ∧ word 8 (l_checksum l);
  lo_reserved : word 16 (l_reserved_0 l) }.

Definition data_ok (d : DirEntryData) : Prop := match d with DFile e => entry_ok e | DLfn l => lfn_ok l end.

Lemma attrs_kept x : word 6 x → attrs_from_bits_truncate x = x.
Proof.
  intros Hx. unfold attrs_from_bits_truncate. change 0x3F with (Z.ones 6).
  rewrite Z.land_ones by lia. by apply Z.mod_small.
Qed.

(** A cluster number put together from its halves. *)
Lemma halves n : word 32 n → Z.lor (shl 32 (wrap16 (Z.shiftr n 16)) 16) (n mod 2 ^ 16) = n.
Proof.
  intros Hw. unfold shl. rewrite (Z.shiftr_div_pow2 n 16), (Z.mod_small 16 32) by lia.
  assert (0 <= n / 2 ^ 16 < 2 ^ 16) as Hq by (unfold word in Hw; dlia).
  rewrite (wrap_small 16), wrap_small by (rewrite ?Z.shiftl_mul_pow2 by lia; unfold word; lia).
  rewrite Z.shiftl_mul_pow2, lor_low by (try apply Z.mod_pos_bound; lia). pose proof (Z.div_mod n (2 ^ 16)). lia.
Qed.

(** The first cluster set is the first cluster read. *)
Lemma first_cluster_set e cluster ft : match cluster with Some c => 0 < c | None => True end →
  (match ft with Fat32 => word 32 (default 0 cluster) | _ => word 16 (default 0 cluster) end) →
  entry_first_cluster (entry_set_first_cluster e cluster ft) ft = cluster.
Proof.
  intros Hc Hw. unfold entry_first_cluster, entry_set_first_cluster. cbn [e_first_cluster_hi e_first_cluster_lo].
  set (n := default 0 cluster) in *.
  assert (wrap16 (Z.land n 0xFFFF) = n mod 2 ^ 16) as ->.
  { change 0xFFFF with (Z.ones 16). rewrite Z.land_ones by lia. apply Zmod_mod. }
  assert (Z.lor (shl 32 match ft with Fat32 => match ft with Fat32 => wrap16 (Z.shiftr n 16) | _ => e_first_cluster_hi e end
    | _ => 0 end 16) (n mod 2 ^ 16) = n) as ->.
  { destruct ft; [by rewrite Z.mod_small..|by apply halves]. }
  destruct cluster as [c|]; subst n; cbn in *; [|done]. destruct (Z.eqb_spec c 0); [lia|done].
Qed.

Section stream.
Context {D : Type} {HD : Stream D} {SS : StreamSpec D}.

Lemma entry_serialize_writes e : Forall (word 8) (e_name e) → Writes (entry_serialize e) (entry_bytes e).
Proof.
  intros Hn. apply writes_bind; [by apply writes_all|].
  do 10 (apply writes_bind; [apply writes_le|]). apply writes_le.
Qed.

Lemma write_units_writes us : Writes (write_units us) (units_bytes us).
Proof.
  induction us as [|u us IH]; [apply writes_nil|]. cbn [write_units]. apply writes_bind; [apply writes_le|done].
Qed.

Lemma lfn_serialize_writes l : Writes (lfn_serialize l) (lfn_bytes l).
Proof.
  unfold lfn_serialize, lfn_bytes.
  repeat (apply writes_bind; [apply writes_le || apply write_units_writes|]). apply write_units_writes.
Qed.

Lemma serialize_writes d : data_ok d → Writes (serialize d) (data_bytes d).
Proof.
  destruct d as [e|l]; intros Hd; [apply entry_serialize_writes, (eo_name e Hd)|apply lfn_serialize_writes].
Qed.

(** ** Reading *)

Lemma read_units_decodes n us : length us = n → Forall (word 16) us → Decodes (read_units n) (units_bytes us) us.
Proof.
  intros <-. induction 1 as [|u us Hu _ IH]; [apply decodes_ret|]. cbn [length read_units].
  apply (decodes_bind _ _ u); [by apply (decodes_le 2)|]. by apply (decodes_last _ _ us).
Qed.

Lemma le_units_bytes us : Forall (word 16) us → le_units (units_bytes us) = us.
Proof.
  induction 1 as [|u us Hu _ IH]; [done|].
  change (le_combine (le_split 2 u) :: le_units (units_bytes us) = u :: us). rewrite IH. f_equal.
  rewrite le_combine_split. by apply (wrap_small 16).
Qed.

#[local] Ltac decode_field :=
  first [eapply decodes_bind|eapply decodes_last];
  [first [by apply (decodes_le 1)|by apply (decodes_le 2)|by apply (decodes_le 4)|by apply read_units_decodes]|].

#[local] Tactic Notation "fields" := cbn [e_name e_attrs e_reserved_0 e_create_time_0 e_create_time_1 e_create_date
  e_access_date e_first_cluster_hi e_modify_time e_modify_date e_first_cluster_lo e_size
  l_order l_name_0 l_attrs l_entry_type l_checksum l_name_1 l_reserved_0 l_name_2].
#[local] Tactic Notation "fields" "in" "*" := cbn [e_name e_attrs e_reserved_0 e_create_time_0 e_create_time_1 e_create_date
  e_access_date e_first_cluster_hi e_modify_time e_modify_date e_first_cluster_lo e_size
  l_order l_name_0 l_attrs l_entry_type l_checksum l_name_1 l_reserved_0 l_name_2] in *.

Lemma entry_rest_decodes e : entry_ok e → Decodes (deserialize_rest (e_name e)) (drop 11 (entry_bytes e)) (DFile e).
Proof.
  intros [[Hn _] [Ha Hl] [] (?&?&?&?&?) [] ?]. unfold entry_bytes. rewrite drop_app_length' by done.
  destruct e; fields in *. unfold deserialize_rest. eapply decodes_bind; [apply (decodes_le 1)|].
  { unfold word in *. lia. }
  rewrite attrs_kept by done. destruct (Z.eqb_spec (Z.land e_attrs LFN) LFN); [done|].
  repeat decode_field. done.
Qed.

Lemma lfn_rest_decodes l : lfn_ok l → Decodes (deserialize_rest (take 11 (lfn_bytes l))) (drop 11 (lfn_bytes l)) (DLfn l).
Proof.
  intros [(H0&H1&H2) (U0&U1&U2) [Ha Hl] (Ho&Ht&Hc) Hr].
  destruct l as [order name_0 attrs ty sum name_1 reserved_0 name_2]; fields in *.
  do 5 (destruct name_0 as [|? name_0]; [done|]). destruct name_0; [|done].
  unfold lfn_bytes. fields. rewrite app_assoc, take_app_length', drop_app_length' by done.
  unfold deserialize_rest. eapply decodes_bind; [apply (decodes_le 1); unfold word in *; lia|].
  rewrite attrs_kept by done. destruct (Z.eqb_spec (Z.land attrs LFN) LFN); [|done].
  repeat decode_field. f_equal. f_equal. f_equal.
  - apply Z.mod_small. unfold word in Ho. lia.
  - by apply (le_units_bytes [_; _; _; _; _]).
Qed.

Lemma rest_decodes x : data_ok x →
  length (take 11 (data_bytes x)) = 11%nat ∧ Decodes (deserialize_rest (take 11 (data_bytes x))) (drop 11 (data_bytes x)) x.
Proof.
  destruct x as [e|l]; intros Hx; cbn [data_bytes].
  - pose proof (entry_rest_decodes e Hx) as Hd. destruct Hx as [[Hn _] _ _ _ _ _].
    assert (take 11 (entry_bytes e) = e_name e) as -> by (unfold entry_bytes; by rewrite take_app_length'). done.
  - split; [|by apply lfn_rest_decodes]. destruct Hx as [(H0&_) _ _ _ _].
    rewrite length_take. unfold lfn_bytes, units_bytes. destruct (l_name_0 l) as [|? [|? [|? [|? [|? [|]]]]]]; done.
Qed.

(** What was serialized is what is read. *)
Lemma deserialize_decodes x : data_ok x → Decodes deserialize (data_bytes x) x.
Proof.
  intros Hx d Hd Hl Hbs. destruct (rest_decodes x Hx) as [Hlen Hrest].
  set (name := take 11 (data_bytes x)) in *. set (more := drop 11 (data_bytes x)) in *.
  assert (Decodes (read_exact SFN_SIZE ≫= deserialize_rest) (name ++ more) x) as Hdec.
  { eapply decodes_bind; [|exact Hrest]. replace SFN_SIZE with (len name) by (unfold len; by rewrite Hlen).
    apply decodes_exact. }
  unfold name, more in Hdec. rewrite take_drop in Hdec. destruct (Hdec d Hd Hl Hbs) as (d'&Hr&Hm). exists d'. split; [|done].
  unfold deserialize. revert Hr. unfold mbind, FM_bind. by destruct (read_exact _ d) as [[[name'|e] d1]|].
Qed.

Lemma len_entry_bytes e : length (e_name e) = 11%nat → len (entry_bytes e) = 32.
Proof. intros Hn. unfold len, entry_bytes. rewrite !length_app, !length_le_split. lia. Qed.

Lemma length_units us : length (units_bytes us) = (2 * length us)%nat.
Proof. induction us as [|u us IH]; [done|]. change (units_bytes (u :: us)) with (le_split 2 u ++ units_bytes us).
  rewrite length_app, length_le_split, IH. simpl. lia. Qed.

Lemma len_data_bytes x : data_ok x → len (data_bytes x) = DIR_ENTRY_SIZE.
Proof.
  destruct x as [e|l]; intros Hx; [apply len_entry_bytes, (eo_name e Hx)|].
  destruct Hx as [(H0&H1&H2) _ _ _ _]. unfold len. cbn [data_bytes]. unfold lfn_bytes.
  rewrite !length_app, !length_units, !length_le_split, H0, H1, H2. done.
Qed.

(** ** The editor *)

Lemma editor_write_ok ed d : entry_ok (ed_data ed) → ok d → 0 <= ed_pos ed → ed_pos ed + 32 <= len (data d) →
  ∃ d', editor_write ed d = Ret (Ok tt, d') ∧ wrote d d' (ed_pos ed) (entry_bytes (ed_data ed)).
Proof.
  intros He Hd Hp Hf. unfold editor_write.
  destruct (seek_ok d (ed_pos ed) Hd) as (d1&H1&Hd1&Hdata1&Hpos1); [lia|]. fstep H1.
  pose proof (eo_name _ He) as [Hn Hb].
  destruct (entry_serialize_writes (ed_data ed) Hb d1 Hd1) as (d2&H2&Hd2&Hdata2&Hpos2).
  { rewrite Hpos1, Hdata1, len_entry_bytes; done. }
  exists d2. split; [done|]. rewrite Hdata1, Hpos1 in *. done.
Qed.

(** A flushed editor is clean, and the entry is on the disk. *)
Lemma editor_flush_ok ed d : entry_ok (ed_data ed) → ok d → 0 <= ed_pos ed → ed_pos ed + 32 <= len (data d) →
  ∃ d', editor_flush ed d = Ret (Ok (mkEditor (ed_data ed) (ed_pos ed) false), d') ∧ ok d' ∧
    data d' = (if ed_dirty ed then splice (ed_pos ed) (entry_bytes (ed_data ed)) (data d) else data d).
Proof.
  intros He Hd Hp Hf. unfold editor_flush. destruct ed as [e p []]; cbn in *.
  - destruct (editor_write_ok (mkEditor e p true) d) as (d'&H&Hd'&Hdata&_); [done..|]. fstep H.
    exists d'. done.
  - exists d. done.
Qed.

(** Reading an entry of a directory, a file's or a part of a long name, gives
    back the entry written there: every field at its width, and the two kinds
    told apart by their attributes.  Nothing but these 32 bytes changes. *)
Theorem entry_roundtrip x p d : data_ok x → ok d → 0 <= p → p + DIR_ENTRY_SIZE <= len (data d) →
  ∃ d1 d2, (_ ← seek (SStart p); serialize x) d = Ret (Ok tt, d1) ∧
    data d1 = splice p (data_bytes x) (data d) ∧ len (data_bytes x) = DIR_ENTRY_SIZE ∧
    (_ ← seek (SStart p); deserialize) d1 = Ret (Ok x, d2) ∧ data d2 = data d1.
Proof.
  intros Hx Hd Hp Hf. pose proof (len_data_bytes x Hx) as Hl.
  destruct (roundtrip_at _ _ _ _ p d (serialize_writes x Hx) (deserialize_decodes x Hx)) as (d1&d2&?&?&?&?);
    [done|done|by rewrite Hl|]. by exists d1, d2.
Qed.
End stream.

(** ** A concrete disk and its entries *)

Module Example_entries.

Definition disk : MemoryMappedDevice := dev_new 0x1000 0x1060 (replicate 96 0).

(** The file HELLO.TXT of 5 bytes at cluster 3. *)
Definition hello : DirFileEntryData :=
  mkEntry [72; 69; 76; 76; 79; 32; 32; 32; 84; 88; 84] ARCHIVE 0 0 0 0x21 0x21 0 0 0x21 3 5.

(** The last part of a long name. *)
Definition long : DirLfnEntryData :=
  mkLfn 0x41 [104; 101; 108; 108; 111] LFN 0 0xB2 [46; 116; 120; 116; 0; 0xFFFF] 0 [0xFFFF; 0xFFFF].

Lemma disk_ok : ok disk.
Proof.
  split; [apply Forall_replicate; unfold word; lia|]. cbn [dstart dend dpos dmem disk dev_new].
  unfold len. rewrite length_replicate. lia.
Defined.
End Example_entries.

Lemma entry_roundtrip_witness : ∃ d1 d2,
  (_ ← seek (SStart 32); serialize (DLfn Example_entries.long)) Example_entries.disk = Ret (Ok tt, d1) ∧
  (_ ← seek (SStart 32); deserialize) d1 = Ret (Ok (DLfn Example_entries.long), d2).
Proof.
  destruct (entry_roundtrip (DLfn Example_entries.long) 32 Example_entries.disk) as (d1&d2&H1&_&_&H2&_).
  - split; cbn; repeat (split || constructor); try done; by vm_compute.
  - apply Example_entries.disk_ok.
  - lia.
  - by vm_compute.
  - exists d1, d2. split; [exact H1|exact H2].
Defined.
