(* ===== verification/BootSector.v ===== *)
(** * The boot sector of a FAT volume ([rust-fatfs/src/boot_sector.rs])

    The parameter block and the boot sector around it, on a byte stream; their
    validation; the quantities the driver derives from them; and the choice of
    the geometry when a volume is formatted ([FormatVolumeOptions] of [fs.rs]).
    The code's logging is left out.  Arithmetic wraps at the width it has in
    the code; a division by zero panics. *)

From S2P Require Import Prelude Bytes FatIo FatTable DirEntry.

(** ** [BiosParameterBlock] *)

Record BiosParameterBlock := mkBpb {
  bytes_per_sector : Z;
  sectors_per_cluster : Z;
  b_reserved_sectors : Z;
  fats : Z;
  root_entries : Z;
  total_sectors_16 : Z;
  media : Z;
  sectors_per_fat_16 : Z;
  sectors_per_track : Z;
  heads : Z;
  hidden_sectors : Z;
  total_sectors_32 : Z;
  sectors_per_fat_32 : Z;
  extended_flags : Z;
  fs_version : Z;
  root_dir_first_cluster : Z;
  b_fs_info_sector : Z;
  b_backup_boot_sector : Z;
  b_reserved_0 : list Z;
  drive_num : Z;
  reserved_1 : Z;
  ext_sig : Z;
  volume_id : Z;
  volume_label : list Z;
  fs_type_label : list Z }.

Implicit Types b : BiosParameterBlock.

Definition is_fat32 b : bool := sectors_per_fat_16 b =? 0.

Section stream.
Context {D : Type} `{Stream D}.

(** The fields only a FAT32 volume has. *)
Definition read_fat32_fields (fat32 : bool) : FM D (Z * Z * Z * Z * Z * Z * list Z) :=
  if fat32 then
    sectors_per_fat_32 ← read_u32_le;
    extended_flags ← read_u16_le;
    fs_version ← read_u16_le;
    root_dir_first_cluster ← read_u32_le;
    fs_info_sector ← read_u16_le;
    backup_boot_sector ← read_u16_le;
    reserved_0 ← read_exact 12;
    mret (sectors_per_fat_32, extended_flags, fs_version, root_dir_first_cluster, fs_info_sector,
          backup_boot_sector, reserved_0)
  else mret (0, 0, 0, 0, 0, 0, replicate 12 0).

Definition bpb_deserialize : FM D BiosParameterBlock :=
  bytes_per_sector ← read_u16_le;
  sectors_per_cluster ← read_u8;
  reserved_sectors ← read_u16_le;
  fats ← read_u8;
  root_entries ← read_u16_le;
  total_sectors_16 ← read_u16_le;
  media ← read_u8;
  sectors_per_fat_16 ← read_u16_le;
  sectors_per_track ← read_u16_le;
  heads ← read_u16_le;
  hidden_sectors ← read_u32_le;
  total_sectors_32 ← read_u32_le;
  '(sectors_per_fat_32, extended_flags, fs_version, root_dir_first_cluster, fs_info_sector, backup_boot_sector,
    reserved_0) ← read_fat32_fields (sectors_per_fat_16 =? 0);
  drive_num ← read_u8;
  reserved_1 ← read_u8;
  ext_sig ← read_u8;
  volume_id ← read_u32_le;
  volume_label ← read_exact 11;
  fs_type_label ← read_exact 8;
  let '(volume_id, volume_label, fs_type_label) :=
    if negb (ext_sig =? 0x29) then (0, replicate 11 0, replicate 8 0)
    else (volume_id, volume_label, fs_type_label) in
  mret (mkBpb bytes_per_sector sectors_per_cluster reserved_sectors fats root_entries total_sectors_16 media
    sectors_per_fat_16 sectors_per_track heads hidden_sectors total_sectors_32 sectors_per_fat_32 extended_flags
    fs_version root_dir_first_cluster fs_info_sector backup_boot_sector reserved_0 drive_num reserved_1 ext_sig
    volume_id volume_label fs_type_label).

Definition write_fat32_fields b : FM D unit :=
  if is_fat32 b then
    _ ← write_u32_le (sectors_per_fat_32 b);
    _ ← write_u16_le (extended_flags b);
    _ ← write_u16_le (fs_version b);
    _ ← write_u32_le (root_dir_first_cluster b);
    _ ← write_u16_le (b_fs_info_sector b);
    _ ← write_u16_le (b_backup_boot_sector b);
    write_all (b_reserved_0 b)
  else mret tt.

Definition bpb_serialize b : FM D unit :=
  _ ← write_u16_le (bytes_per_sector b);
  _ ← write_u8 (sectors_per_cluster b);
  _ ← write_u16_le (b_reserved_sectors b);
  _ ← write_u8 (fats b);
  _ ← write_u16_le (root_entries b);
  _ ← write_u16_le (total_sectors_16 b);
  _ ← write_u8 (media b);
  _ ← write_u16_le (sectors_per_fat_16 b);
  _ ← write_u16_le (sectors_per_track b);
  _ ← write_u16_le (heads b);
  _ ← write_u32_le (hidden_sectors b);
  _ ← write_u32_le (total_sectors_32 b);
  _ ← write_fat32_fields b;
  _ ← write_u8 (drive_num b);
  _ ← write_u8 (reserved_1 b);
  _ ← write_u8 (ext_sig b);
  _ ← write_u32_le (volume_id b);
  _ ← write_all (volume_label b);
  write_all (fs_type_label b).
End stream.

(** ** What the driver derives from the block *)

(** An integer division. *)
Definition udiv (a b : Z) : outcome Z := if b =? 0 then Panic else Ret (a / b).

(** A call that touches no stream. *)
Definition lift {D A} (x : outcome A) : FM D A := λ d, a ← x; Ret (Ok a, d).

Definition mirroring_enabled b : bool := Z.land (extended_flags b) 0x80 =? 0.

Definition active_fat b : Z := if mirroring_enabled b then 0 else Z.land (extended_flags b) 0x0F.

Definition status_flags b : FsStatusFlags := decode_flags (reserved_1 b).

Definition sectors_per_fat b : Z := if is_fat32 b then sectors_per_fat_32 b else sectors_per_fat_16 b.

Definition total_sectors b : Z := if total_sectors_16 b =? 0 then total_sectors_32 b else total_sectors_16 b.

Definition reserved_sectors b : Z := b_reserved_sectors b.

Definition root_dir_sectors b : outcome Z :=
  let root_dir_bytes := wrap32 (root_entries b * DIR_ENTRY_SIZE) in
  udiv (wrap32 (wrap32 (root_dir_bytes + bytes_per_sector b) - 1)) (bytes_per_sector b).

Definition sectors_per_all_fats b : Z := wrap32 (fats b * sectors_per_fat b).

Definition first_data_sector b : outcome Z :=
  rds ← root_dir_sectors b;
  let fat_sectors := sectors_per_all_fats b in
  Ret (wrap32 (wrap32 (reserved_sectors b + fat_sectors) + rds)).

Definition total_clusters b : outcome Z :=
  fds ← first_data_sector b;
  let data_sectors := wrap32 (total_sectors b - fds) in
  udiv data_sectors (sectors_per_cluster b).

Definition bytes_from_sectors b (sectors : Z) : Z := wrap64 (sectors * bytes_per_sector b).

Definition sectors_from_clusters b (clusters : Z) : Z := wrap32 (clusters * sectors_per_cluster b).

Definition cluster_size b : Z := wrap32 (sectors_per_cluster b * bytes_per_sector b).

Definition clusters_from_bytes b (bytes : Z) : outcome Z :=
  n ← udiv (wrap64 (wrap64 (bytes + cluster_size b) - 1)) (cluster_size b); Ret (wrap32 n).

Definition fs_info_sector b : Z := b_fs_info_sector b.
Definition backup_boot_sector b : Z := b_backup_boot_sector b.

(** ** Validation *)

(** [count_ones] of a [w]-bit integer *)
Definition count_ones (w : nat) (x : Z) : Z := sum_below (λ i, Z.b2z (Z.testbit x i)) w.

Section validate.
Context {D : Type}.

Definition corrupted_if (c : bool) : FM D unit := if c then fail ECorruptedFileSystem else mret tt.

Definition validate_bytes_per_sector b : FM D unit :=
  _ ← corrupted_if (negb (count_ones 16 (bytes_per_sector b) =? 1));
  corrupted_if ((bytes_per_sector b <? 512) || (4096 <? bytes_per_sector b)).

Definition validate_sectors_per_cluster b : FM D unit :=
  _ ← corrupted_if (negb (count_ones 8 (sectors_per_cluster b) =? 1));
  corrupted_if ((sectors_per_cluster b <? 1) || (128 <? sectors_per_cluster b)).

Definition validate_reserved_sectors b : FM D unit :=
  let is_fat32 := is_fat32 b in
  _ ← corrupted_if (b_reserved_sectors b <? 1);
  _ ← corrupted_if (is_fat32 && (b_reserved_sectors b <=? b_backup_boot_sector b));
  corrupted_if (is_fat32 && (b_reserved_sectors b <=? b_fs_info_sector b)).

Definition validate_fats b : FM D unit := corrupted_if (fats b =? 0).

(** The remainder is only computed for a warning, but it is computed. *)
Definition validate_root_entries b : FM D unit :=
  let is_fat32 := is_fat32 b in
  _ ← corrupted_if (is_fat32 && negb (root_entries b =? 0));
  _ ← corrupted_if (negb is_fat32 && (root_entries b =? 0));
  _ ← lift (udiv (wrap32 (root_entries b * DIR_ENTRY_SIZE)) (bytes_per_sector b));
  mret tt.

Definition validate_total_sectors b : FM D unit :=
  let is_fat32 := is_fat32 b in
  _ ← corrupted_if (is_fat32 && negb (total_sectors_16 b =? 0));
  _ ← corrupted_if (bool_decide ((total_sectors_16 b =? 0) = (total_sectors_32 b =? 0)));
  let total_sectors := total_sectors b in
  first_data_sector ← lift (first_data_sector b);
  corrupted_if (total_sectors <=? first_data_sector).

Definition validate_sectors_per_fat b : FM D unit := corrupted_if (is_fat32 b && (sectors_per_fat_32 b =? 0)).

(** What follows in the code only decides a warning. *)
Definition validate_total_clusters b : FM D unit :=
  let is_fat32 := is_fat32 b in
  total_clusters ← lift (total_clusters b);
  let fat_type := from_clusters total_clusters in
  _ ← corrupted_if (negb (bool_decide (is_fat32 = bool_decide (fat_type = Fat32))));
  corrupted_if (bool_decide (fat_type = Fat32) && (0x0FFFFFFF <? total_clusters)).

Definition bpb_validate b : FM D unit :=
  _ ← corrupted_if (negb (fs_version b =? 0));
  _ ← validate_bytes_per_sector b;
  _ ← validate_sectors_per_cluster b;
  _ ← validate_reserved_sectors b;
  _ ← validate_fats b;
  _ ← validate_root_entries b;
  _ ← validate_total_sectors b;
  _ ← validate_sectors_per_fat b;
  validate_total_clusters b.
End validate.

(** ** [BootSector] *)

Record BootSector := mkBoot {
  bootjmp : list Z;
  oem_name : list Z;
  bpb : BiosParameterBlock;
  boot_code : list Z;
  boot_sig : list Z }.

Implicit Types boot : BootSector.

Section boot.
Context {D : Type} `{Stream D}.

(** The code of a FAT32 volume is shorter: the rest of the array stays zero. *)
Definition boot_deserialize : FM D BootSector :=
  bootjmp ← read_exact 3;
  oem_name ← read_exact 8;
  bpb ← bpb_deserialize;
  boot_code ← (if is_fat32 bpb then
      code ← read_exact 420; mret (code ++ replicate 28 0)
    else read_exact 448);
  boot_sig ← read_exact 2;
  mret (mkBoot bootjmp oem_name bpb boot_code boot_sig).

Definition boot_serialize boot : FM D unit :=
  _ ← write_all (bootjmp boot);
  _ ← write_all (oem_name boot);
  _ ← bpb_serialize (bpb boot);
  _ ← (if is_fat32 (bpb boot) then write_all (bytes_at 0 420 (boot_code boot))
       else write_all (bytes_at 0 448 (boot_code boot)));
  write_all (boot_sig boot).

Definition boot_validate boot : FM D unit :=
  _ ← corrupted_if (negb (bool_decide (boot_sig boot = [0x55; 0xAA])));
  bpb_validate (bpb boot).
End boot.

(** ** Geometry of a new volume *)

Definition KB : Z := 1024.
Definition MB : Z := KB * 1024.
Definition GB : Z := MB * 1024.

Definition estimate_fat_type (total_bytes : Z) : FatType :=
  if total_bytes <? 4 * MB then Fat12
  else if total_bytes <? 512 * MB then Fat16
  else Fat32.

(** [u64::next_power_of_two] *)
Definition next_power_of_two (x : Z) : Z := wrap64 (if x <=? 1 then 1 else 2 ^ Z.log2_up x).

Definition determine_bytes_per_cluster (total_bytes bytes_per_sector : Z) (fat_type : option FatType) : Z :=
  let MAX_CLUSTER_SIZE := 32 * KB in
  let fat_type := default (estimate_fat_type total_bytes) fat_type in
  let bytes_per_cluster :=
    match fat_type with
    | Fat12 => wrap32 (wrap64 (next_power_of_two total_bytes / MB * 512))
    | Fat16 =>
        if total_bytes <=? 16 * MB then KB
        else if total_bytes <=? 128 * MB then 2 * KB
        else wrap32 (wrap32 (next_power_of_two total_bytes / (64 * MB)) * KB)
    | Fat32 =>
        if total_bytes <=? 260 * MB then 512
        else if total_bytes <=? 8 * GB then 4 * KB
        else wrap32 (wrap32 (next_power_of_two total_bytes / (2 * GB)) * KB)
    end in
  Z.min (Z.max bytes_per_cluster bytes_per_sector) MAX_CLUSTER_SIZE.

Definition determine_sectors_per_fat (total_sectors bytes_per_sector sectors_per_cluster : Z) (fat_type : FatType)
    (reserved_sectors root_dir_sectors fats : Z) : outcome Z :=
  let t0 := wrap32 (wrap32 (total_sectors - reserved_sectors) - root_dir_sectors) in
  let t1 := wrap64 (t0 + wrap32 (2 * sectors_per_cluster)) in
  let bits_per_cluster := wrap32 (wrap32 (sectors_per_cluster * bytes_per_sector) * 8) in
  let t2 := wrap32 (bits_per_cluster / bits_per_fat_entry fat_type + fats) in
  sectors_per_fat ← udiv (wrap64 (wrap64 (t1 + t2) - 1)) t2;
  Ret (wrap32 sectors_per_fat).

Section geometry.
Context {D : Type}.

Definition try_fs_geometry (total_sectors bytes_per_sector sectors_per_cluster : Z) (fat_type : FatType)
    (root_dir_sectors fats : Z) : FM D (Z * Z) :=
  let reserved_sectors := if bool_decide (fat_type = Fat32) then 8 else 1 in
  if total_sectors <=? wrap32 (wrap32 (reserved_sectors + root_dir_sectors) + 8) then fail EInvalidInput
  else
    sectors_per_fat ← lift (determine_sectors_per_fat total_sectors bytes_per_sector sectors_per_cluster fat_type
      reserved_sectors root_dir_sectors fats);
    let data_sectors := wrap32 (wrap32 (wrap32 (total_sectors - reserved_sectors) - root_dir_sectors)
      - wrap32 (sectors_per_fat * fats)) in
    total_clusters ← lift (udiv data_sectors sectors_per_cluster);
    if bool_decide (fat_type ≠ from_clusters total_clusters) then fail EInvalidInput
    else if max_clusters fat_type <? total_clusters then fail EInvalidInput
    else mret (reserved_sectors, sectors_per_fat).

Definition determine_root_dir_sectors (root_dir_entries bytes_per_sector : Z) (fat_type : FatType) : outcome Z :=
  if bool_decide (fat_type = Fat32) then Ret 0
  else
    let root_dir_bytes := wrap32 (root_dir_entries * DIR_ENTRY_SIZE) in
    udiv (wrap32 (wrap32 (root_dir_bytes + bytes_per_sector) - 1)) bytes_per_sector.

(** The loop over the types, the widest first. *)
Fixpoint determine_fs_geometry_loop (types : list FatType)
    (total_sectors bytes_per_sector sectors_per_cluster root_dir_entries fats : Z) : FM D (FatType * Z * Z) :=
  match types with
  | [] => fail EInvalidInput
  | fat_type :: types =>
      root_dir_sectors ← lift (determine_root_dir_sectors root_dir_entries bytes_per_sector fat_type);
      catch
        ('(reserved_sectors, sectors_per_fat) ← try_fs_geometry total_sectors bytes_per_sector sectors_per_cluster
           fat_type root_dir_sectors fats;
         mret (fat_type, reserved_sectors, sectors_per_fat))
        (λ _, determine_fs_geometry_loop types total_sectors bytes_per_sector sectors_per_cluster root_dir_entries fats)
  end.

Definition determine_fs_geometry : Z → Z → Z → Z → Z → FM D (FatType * Z * Z) :=
  determine_fs_geometry_loop [Fat32; Fat16; Fat12].

(** ** [FormatVolumeOptions] *)

Record FormatVolumeOptions := mkOptions {
  o_bytes_per_sector : option Z;
  o_total_sectors : option Z;
  o_bytes_per_cluster : option Z;
  o_fat_type : option FatType;
  o_max_root_dir_entries : option Z;
  o_fats : option Z;
  o_media : option Z;
  o_sectors_per_track : option Z;
  o_heads : option Z;
  o_drive_num : option Z;
  o_volume_id : option Z;
  o_volume_label : option (list Z) }.

Definition options_new : FormatVolumeOptions :=
  mkOptions None None None None None None None None None None None None.

(** The builder's setters; three of them check their argument. *)

Definition set_bytes_per_cluster (x : Z) (o : FormatVolumeOptions) : outcome FormatVolumeOptions :=
  _ ← assert ((count_ones 32 x =? 1) && (512 <=? x));
  Ret (mkOptions (o_bytes_per_sector o) (o_total_sectors o) (Some x) (o_fat_type o) (o_max_root_dir_entries o)
    (o_fats o) (o_media o) (o_sectors_per_track o) (o_heads o) (o_drive_num o) (o_volume_id o) (o_volume_label
    o)).
Definition set_fat_type (x : FatType) (o : FormatVolumeOptions) : FormatVolumeOptions :=
  mkOptions (o_bytes_per_sector o) (o_total_sectors o) (o_bytes_per_cluster o) (Some x) (o_max_root_dir_entries
    o) (o_fats o) (o_media o) (o_sectors_per_track o) (o_heads o) (o_drive_num o) (o_volume_id o)
    (o_volume_label o).
Definition set_bytes_per_sector (x : Z) (o : FormatVolumeOptions) : outcome FormatVolumeOptions :=
  _ ← assert ((count_ones 16 x =? 1) && (512 <=? x));
  Ret (mkOptions (Some x) (o_total_sectors o) (o_bytes_per_cluster o) (o_fat_type o) (o_max_root_dir_entries o)
    (o_fats o) (o_media o) (o_sectors_per_track o) (o_heads o) (o_drive_num o) (o_volume_id o) (o_volume_label
    o)).
Definition set_total_sectors (x : Z) (o : FormatVolumeOptions) : FormatVolumeOptions :=
  mkOptions (o_bytes_per_sector o) (Some x) (o_bytes_per_cluster o) (o_fat_type o) (o_max_root_dir_entries o)
    (o_fats o) (o_media o) (o_sectors_per_track o) (o_heads o) (o_drive_num o) (o_volume_id o) (o_volume_label
    o).
Definition set_max_root_dir_entries (x : Z) (o : FormatVolumeOptions) : FormatVolumeOptions :=
  mkOptions (o_bytes_per_sector o) (o_total_sectors o) (o_bytes_per_cluster o) (o_fat_type o) (Some x) (o_fats
    o) (o_media o) (o_sectors_per_track o) (o_heads o) (o_drive_num o) (o_volume_id o) (o_volume_label o).
Definition set_fats (x : Z) (o : FormatVolumeOptions) : outcome FormatVolumeOptions :=
  _ ← assert ((1 <=? x) && (x <=? 2));
  Ret (mkOptions (o_bytes_per_sector o) (o_total_sectors o) (o_bytes_per_cluster o) (o_fat_type o)
    (o_max_root_dir_entries o) (Some x) (o_media o) (o_sectors_per_track o) (o_heads o) (o_drive_num o)
    (o_volume_id o) (o_volume_label o)).
Definition set_media (x : Z) (o : FormatVolumeOptions) : FormatVolumeOptions :=
  mkOptions (o_bytes_per_sector o) (o_total_sectors o) (o_bytes_per_cluster o) (o_fat_type o)
    (o_max_root_dir_entries o) (o_fats o) (Some x) (o_sectors_per_track o) (o_heads o) (o_drive_num o)
    (o_volume_id o) (o_volume_label o).
Definition set_sectors_per_track (x : Z) (o : FormatVolumeOptions) : FormatVolumeOptions :=
  mkOptions (o_bytes_per_sector o) (o_total_sectors o) (o_bytes_per_cluster o) (o_fat_type o)
    (o_max_root_dir_entries o) (o_fats o) (o_media o) (Some x) (o_heads o) (o_drive_num o) (o_volume_id o)
    (o_volume_label o).
Definition set_heads (x : Z) (o : FormatVolumeOptions) : FormatVolumeOptions :=
  mkOptions (o_bytes_per_sector o) (o_total_sectors o) (o_bytes_per_cluster o) (o_fat_type o)
    (o_max_root_dir_entries o) (o_fats o) (o_media o) (o_sectors_per_track o) (Some x) (o_drive_num o)
    (o_volume_id o) (o_volume_label o).
Definition set_drive_num (x : Z) (o : FormatVolumeOptions) : FormatVolumeOptions :=
  mkOptions (o_bytes_per_sector o) (o_total_sectors o) (o_bytes_per_cluster o) (o_fat_type o)
    (o_max_root_dir_entries o) (o_fats o) (o_media o) (o_sectors_per_track o) (o_heads o) (Some x) (o_volume_id
    o) (o_volume_label o).
Definition set_volume_id (x : Z) (o : FormatVolumeOptions) : FormatVolumeOptions :=
  mkOptions (o_bytes_per_sector o) (o_total_sectors o) (o_bytes_per_cluster o) (o_fat_type o)
    (o_max_root_dir_entries o) (o_fats o) (o_media o) (o_sectors_per_track o) (o_heads o) (o_drive_num o) (Some
    x) (o_volume_label o).
Definition set_volume_label (x : list Z) (o : FormatVolumeOptions) : FormatVolumeOptions :=
  mkOptions (o_bytes_per_sector o) (o_total_sectors o) (o_bytes_per_cluster o) (o_fat_type o)
    (o_max_root_dir_entries o) (o_fats o) (o_media o) (o_sectors_per_track o) (o_heads o) (o_drive_num o)
    (o_volume_id o) (Some x).

Definition NO_NAME : list Z := [78; 79; 32; 78; 65; 77; 69; 32; 32; 32; 32].

Definition fs_type_str (fat_type : FatType) : list Z :=
  [70; 65; 84] ++ match fat_type with Fat12 => [49; 50] | Fat16 => [49; 54] | Fat32 => [51; 50] end ++ [32; 32; 32].

(** The block of a new volume, for the geometry found. *)
Definition new_bpb (options : FormatVolumeOptions) (total_sectors bytes_per_sector sectors_per_cluster : Z)
    (fat_type : FatType) (reserved_sectors sectors_per_fat : Z) : BiosParameterBlock :=
  let fats := default 2 (o_fats options) in
  let root_dir_entries := default 512 (o_max_root_dir_entries options) in
  let drive_num := default (if bool_decide (fat_type = Fat12) then 0 else 0x80) (o_drive_num options) in
  let is_fat32 := bool_decide (fat_type = Fat32) in
  mkBpb bytes_per_sector sectors_per_cluster reserved_sectors fats
    (if is_fat32 then 0 else root_dir_entries)
    (if total_sectors <? 0x10000 then wrap16 total_sectors else 0)
    (default 0xF8 (o_media options))
    (if is_fat32 then 0 else wrap16 sectors_per_fat)
    (default 0x20 (o_sectors_per_track options))
    (default 0x40 (o_heads options))
    0
    (if 0x10000 <=? total_sectors then total_sectors else 0)
    (if is_fat32 then sectors_per_fat else 0)
    0 0
    (if is_fat32 then 2 else 0)
    (if is_fat32 then 1 else 0)
    (if is_fat32 then 6 else 0)
    (replicate 12 0)
    drive_num 0 0x29
    (default 0x12345678 (o_volume_id options))
    (default NO_NAME (o_volume_label options))
    (fs_type_str fat_type).

Definition format_bpb (options : FormatVolumeOptions) (total_sectors bytes_per_sector : Z)
    : FM D (BiosParameterBlock * FatType) :=
  let bytes_per_cluster := default
    (let total_bytes := wrap64 (total_sectors * bytes_per_sector) in
     determine_bytes_per_cluster total_bytes bytes_per_sector (o_fat_type options)) (o_bytes_per_cluster options) in
  sectors_per_cluster ← lift (udiv bytes_per_cluster bytes_per_sector);
  _ ← lift (assert (sectors_per_cluster <=? 255));
  let fats := default 2 (o_fats options) in
  let root_dir_entries := default 512 (o_max_root_dir_entries options) in
  '(fat_type, reserved_sectors, sectors_per_fat) ←
    determine_fs_geometry total_sectors bytes_per_sector sectors_per_cluster root_dir_entries fats;
  let bpb := new_bpb options total_sectors bytes_per_sector sectors_per_cluster fat_type reserved_sectors
    sectors_per_fat in
  clusters ← lift (total_clusters bpb);
  if bool_decide (from_clusters clusters ≠ fat_type) then fail EInvalidInput
  else mret (bpb, fat_type).

Definition BOOT_CODE : list Z := [
  0x0E; 0x1F; 0xBE; 0x77; 0x7C; 0xAC; 0x22; 0xC0; 0x74; 0x0B; 0x56; 0xB4; 0x0E; 0xBB; 0x07; 0x00; 0xCD; 0x10;
  0x5E; 0xEB; 0xF0; 0x32; 0xE4; 0xCD; 0x16; 0xCD; 0x19; 0xEB; 0xFE; 0x54; 0x68; 0x69; 0x73; 0x20; 0x69; 0x73;
  0x20; 0x6E; 0x6F; 0x74; 0x20; 0x61; 0x20; 0x62; 0x6F; 0x6F; 0x74; 0x61; 0x62; 0x6C; 0x65; 0x20; 0x64; 0x69;
  0x73; 0x6B; 0x2E; 0x20; 0x20; 0x50; 0x6C; 0x65; 0x61; 0x73; 0x65; 0x20; 0x69; 0x6E; 0x73; 0x65; 0x72; 0x74;
  0x20; 0x61; 0x20; 0x62; 0x6F; 0x6F; 0x74; 0x61; 0x62; 0x6C; 0x65; 0x20; 0x66; 0x6C; 0x6F; 0x70; 0x70; 0x79;
  0x20; 0x61; 0x6E; 0x64; 0x0D; 0x0A; 0x70; 0x72; 0x65; 0x73; 0x73; 0x20; 0x61; 0x6E; 0x79; 0x20; 0x6B; 0x65;
  0x79; 0x20; 0x74; 0x6F; 0x20; 0x74; 0x72; 0x79; 0x20; 0x61; 0x67; 0x61; 0x69; 0x6E; 0x20; 0x2E; 0x2E; 0x2E;
  0x20; 0x0D; 0x0A].

Definition OEM_NAME : list Z := [77; 83; 87; 73; 78; 52; 46; 49].

Definition format_boot_sector (options : FormatVolumeOptions) (total_sectors bytes_per_sector : Z)
    : FM D (BootSector * FatType) :=
  '(bpb, fat_type) ← format_bpb options total_sectors bytes_per_sector;
  let bootjmp := [0xEB; 0x58; 0x90] in
  let boot_code := splice 0 BOOT_CODE (replicate 448 0) in
  let '(bootjmp, boot_code) :=
    if bool_decide (fat_type ≠ Fat32) then
      let BOOT_CODE_OFFSET := 0x36 + 8 in
      let MESSAGE_OFFSET := 29 in
      let message_offset_in_sector := BOOT_CODE_OFFSET + MESSAGE_OFFSET + 0x7c00 in
      (<[1%nat := BOOT_CODE_OFFSET - 2]> bootjmp,
       <[4%nat := wrap8 (Z.shiftr message_offset_in_sector 8)]>
         (<[3%nat := wrap8 (Z.land message_offset_in_sector 0xff)]> boot_code))
    else (bootjmp, boot_code) in
  mret (mkBoot bootjmp OEM_NAME bpb boot_code [0x55; 0xAA], fat_type).
End geometry.
