(* ===== verification/BootSectorSpec.v ===== *)
(** * Correctness of the boot sector

    Reading gives back what was written; validation decides the documented
    conditions; a formatted volume has a table entry for each of its clusters
    and all its parts on the disk. *)

From S2P Require Import Prelude Bytes FatIo FatIoSpec Disk DiskSpec FatTable DirEntry BootSector.

Implicit Types b : BiosParameterBlock.
Implicit Types boot : BootSector.

(** ** The bytes of the sector *)

Definition fat32_bytes b : list Z :=
  if is_fat32 b then
    le_split 4 (sectors_per_fat_32 b) ++ le_split 2 (extended_flags b) ++ le_split 2 (fs_version b) ++
    le_split 4 (root_dir_first_cluster b) ++ le_split 2 (b_fs_info_sector b) ++
    le_split 2 (b_backup_boot_sector b) ++ b_reserved_0 b
  else [].

Definition bpb_bytes b : list Z :=
  le_split 2 (bytes_per_sector b) ++ le_split 1 (sectors_per_cluster b) ++ le_split 2 (b_reserved_sectors b) ++
  le_split 1 (fats b) ++ le_split 2 (root_entries b) ++ le_split 2 (total_sectors_16 b) ++ le_split 1 (media b) ++
  le_split 2 (sectors_per_fat_16 b) ++ le_split 2 (sectors_per_track b) ++ le_split 2 (heads b) ++
  le_split 4 (hidden_sectors b) ++ le_split 4 (total_sectors_32 b) ++ fat32_bytes b ++ le_split 1 (drive_num b) ++
  le_split 1 (reserved_1 b) ++ le_split 1 (ext_sig b) ++ le_split 4 (volume_id b) ++ volume_label b ++
  fs_type_label b.

Definition boot_bytes boot : list Z :=
  bootjmp boot ++ oem_name boot ++ bpb_bytes (bpb boot) ++
  (if is_fat32 (bpb boot) then bytes_at 0 420 (boot_code boot) else bytes_at 0 448 (boot_code boot)) ++ boot_sig boot.

(** A byte array of a fixed length. *)
Definition bytes (n : nat) (bs : list Z) : Prop := length bs = n ∧ Forall (word 8) bs.

(** The fields have their widths. *)
Record bpb_word b : Prop := {
  bw_16 : word 16 (bytes_per_sector b) ∧ word 16 (b_reserved_sectors b) ∧ word 16 (root_entries b) ∧
    word 16 (total_sectors_16 b) ∧ word 16 (sectors_per_fat_16 b) ∧ word 16 (sectors_per_track b) ∧ word 16 (heads b);
  bw_8 : word 8 (sectors_per_cluster b) ∧ word 8 (fats b) ∧ word 8 (media b) ∧ word 8 (drive_num b) ∧
    word 8 (reserved_1 b) ∧ word 8 (ext_sig b);
  bw_32 : word 32 (hidden_sectors b) ∧ word 32 (total_sectors_32 b) ∧ word 32 (volume_id b);
  bw_fat32 : word 32 (sectors_per_fat_32 b) ∧ word 16 (extended_flags b) ∧ word 16 (fs_version b) ∧
    word 32 (root_dir_first_cluster b) ∧ word 16 (b_fs_info_sector b) ∧ word 16 (b_backup_boot_sector b) ∧
    bytes 12 (b_reserved_0 b);
  bw_labels : bytes 11 (volume_label b) ∧ bytes 8 (fs_type_label b) }.

(** The fields a volume of the other types has no place for. *)
Definition no_fat32_fields b : Prop :=
  sectors_per_fat_32 b = 0 ∧ extended_flags b = 0 ∧ fs_version b = 0 ∧ root_dir_first_cluster b = 0 ∧
  b_fs_info_sector b = 0 ∧ b_backup_boot_sector b = 0 ∧ b_reserved_0 b = replicate 12 0.

(** Without the extended signature the fields after it are void. *)
Definition signed b : Prop :=
  ext_sig b = 0x29 ∨ volume_id b = 0 ∧ volume_label b = replicate 11 0 ∧ fs_type_label b = replicate 8 0.

Record boot_ok boot : Prop := {
  bo_bpb : bpb_word (bpb boot);
  bo_fat32 : is_fat32 (bpb boot) = false → no_fat32_fields (bpb boot);
  bo_signed : signed (bpb boot);
  bo_arrays : bytes 3 (bootjmp boot) ∧ bytes 8 (oem_name boot) ∧ bytes 448 (boot_code boot) ∧ bytes 2 (boot_sig boot);
  bo_code : is_fat32 (bpb boot) = true → bytes_at 420 28 (boot_code boot) = replicate 28 0 }.

Section stream.
Context {D : Type} {HD : Stream D} {SS : StreamSpec D}.

Lemma writes_if (c : bool) x y u v : Writes x u → Writes y v →
  Writes (if c then x else y) (if c then u else v).
Proof. by destruct c. Qed.

Ltac write_fields := repeat first
  [apply writes_bind | apply writes_le | apply writes_if | apply writes_nil | by apply writes_all].

Lemma bpb_serialize_writes b : bpb_word b → Writes (bpb_serialize b) (bpb_bytes b).
Proof.
  intros [_ _ _ (_&_&_&_&_&_&_&?) ((_&?)&(_&?))]. unfold bpb_serialize, bpb_bytes, write_fat32_fields, fat32_bytes.
  write_fields.
Qed.

Lemma boot_serialize_writes boot : boot_ok boot → Writes (boot_serialize boot) (boot_bytes boot).
Proof.
  intros [Hb _ _ ((_&?)&(_&?)&(Hl&Hc)&(_&?)) _]. unfold boot_serialize, boot_bytes.
  assert (∀ n, Forall (word 8) (bytes_at 0 n (boot_code boot))).
  { intros n. by apply Forall_take, Forall_drop. }
  do 2 (apply writes_bind; [by apply writes_all|]). apply writes_bind; [by apply bpb_serialize_writes|].
  apply writes_bind; [|by apply writes_all]. apply writes_if; apply writes_all; auto.
Qed.

(** ** Reading *)

Lemma decodes_bytes n bs : bytes n bs → Decodes (read_exact (Z.of_nat n)) bs bs.
Proof. intros [<- _]. apply decodes_exact. Qed.

#[local] Ltac decode_field :=
  first [eapply decodes_bind|eapply decodes_last];
  [first [by apply (decodes_le 1)|by apply (decodes_le 2)|by apply (decodes_le 4)
         |by apply (decodes_bytes 2)|by apply (decodes_bytes 3)|by apply (decodes_bytes 8)
         |by apply (decodes_bytes 11)|by apply (decodes_bytes 12)]|].

Lemma fat32_decodes b : bpb_word b → (is_fat32 b = false → no_fat32_fields b) →
  Decodes (read_fat32_fields (sectors_per_fat_16 b =? 0)) (fat32_bytes b)
    (sectors_per_fat_32 b, extended_flags b, fs_version b, root_dir_first_cluster b, b_fs_info_sector b,
     b_backup_boot_sector b, b_reserved_0 b).
Proof.
  intros [_ _ _ (?&?&?&?&?&?&?) _] Hno. unfold fat32_bytes. fold (is_fat32 b). destruct (is_fat32 b) eqn:E.
  - unfold read_fat32_fields. repeat decode_field. done.
  - destruct Hno as (->&->&->&->&->&->&->); [done|]. apply decodes_ret.
Qed.

Lemma bpb_decodes b : bpb_word b → (is_fat32 b = false → no_fat32_fields b) → signed b →
  Decodes bpb_deserialize (bpb_bytes b) b.
Proof.
  intros Hw Hno Hs. pose proof (fat32_decodes b Hw Hno) as H32.
  destruct Hw as [(?&?&?&?&?&?&?) (?&?&?&?&?&?) (?&?&?) _ [??]]. unfold bpb_deserialize, bpb_bytes.
  do 12 decode_field. eapply decodes_bind; [exact H32|]. cbv beta iota. do 5 decode_field.
  eapply decodes_last; [by apply (decodes_bytes 8)|].
  destruct (Z.eqb_spec (ext_sig b) 0x29) as [E|E]; [by destruct b|].
  destruct Hs as [?|(Hi&Hl&Ht)]; [done|]. cbn [negb]. destruct b; cbn in Hi, Hl, Ht. by subst.
Qed.

Lemma boot_decodes boot : boot_ok boot → Decodes boot_deserialize (boot_bytes boot) boot.
Proof.
  intros [Hw Hno Hs (?&?&[Hl Hc]&?) Hcode]. unfold boot_deserialize, boot_bytes. do 2 decode_field.
  eapply decodes_bind; [by apply bpb_decodes|]. cbv beta.
  apply (decodes_bind _ _ (boot_code boot)); [|eapply decodes_last; [by apply (decodes_bytes 2)|by destruct boot]].
  assert (∀ n, 0 <= n <= 448 → bytes (Z.to_nat n) (bytes_at 0 n (boot_code boot))) as Hby.
  { intros n Hn. split; [|by apply Forall_take, Forall_drop]. pose proof (len_bytes_at 0 n (boot_code boot)).
    unfold len in *. lia. }
  destruct (is_fat32 (bpb boot)).
  - eapply decodes_last; [apply (decodes_bytes 420), Hby; lia|]. cbv beta. f_equal. rewrite <- Hcode by done.
    change 420 with (0 + 420) at 2. rewrite <- bytes_at_app by lia. apply bytes_at_all. unfold len. lia.
  - rewrite bytes_at_all by (unfold len; lia). by apply (decodes_bytes 448).
Qed.

Lemma len_boot_bytes boot : boot_ok boot → len (boot_bytes boot) = 512.
Proof.
  intros [[_ _ _ (_&_&_&_&_&_&[H12 _]) [[H11 _] [H8 _]]] _ _ ([H3 _]&[H8' _]&[Hl _]&[H2 _]) _].
  pose proof (len_bytes_at 0 420 (boot_code boot)) as L420. pose proof (len_bytes_at 0 448 (boot_code boot)) as L448.
  unfold boot_bytes, bpb_bytes, fat32_bytes. unfold len in *. rewrite !length_app, !length_le_split.
  destruct (is_fat32 (bpb boot)); rewrite ?length_app, ?length_le_split; simpl length in *; lia.
Qed.

(** The boot sector read from a volume is the one that was written: all its
    fields, of the FAT32 layout and of the other one, in 512 bytes. *)
Theorem boot_sector_roundtrip boot p d : boot_ok boot → ok d → 0 <= p → p + 512 <= len (data d) →
  ∃ d1 d2, (_ ← seek (SStart p); boot_serialize boot) d = Ret (Ok tt, d1) ∧
    data d1 = splice p (boot_bytes boot) (data d) ∧ len (boot_bytes boot) = 512 ∧
    (_ ← seek (SStart p); boot_deserialize) d1 = Ret (Ok boot, d2) ∧ data d2 = data d1.
Proof.
  intros Hx Hd Hp Hf. pose proof (len_boot_bytes boot Hx) as Hl.
  destruct (roundtrip_at _ _ _ _ p d (boot_serialize_writes boot Hx) (boot_decodes boot Hx)) as (d1&d2&?&?&?&?);
    [done|done|by rewrite Hl|]. by exists d1, d2.
Qed.
End stream.

(** ** Validation *)

(** The sectors of the root directory of a FAT12 or FAT16 volume, and where the
    data starts. *)
Definition root_sectors b : Z := (root_entries b * 32 + bytes_per_sector b - 1) / bytes_per_sector b.

Definition data_start b : Z := b_reserved_sectors b + fats b * sectors_per_fat b + root_sectors b.

Record bpb_valid b : Prop := {
  bv_version : fs_version b = 0;
  bv_sector : bytes_per_sector b ∈ [512; 1024; 2048; 4096];
  bv_cluster : sectors_per_cluster b ∈ [1; 2; 4; 8; 16; 32; 64; 128];
  bv_reserved : 1 <= b_reserved_sectors b ∧
    (is_fat32 b = true → b_backup_boot_sector b < b_reserved_sectors b ∧ b_fs_info_sector b < b_reserved_sectors b);
  bv_fats : fats b ≠ 0;
  bv_root : is_fat32 b = true ↔ root_entries b = 0;
  bv_total : (is_fat32 b = true → total_sectors_16 b = 0) ∧ (total_sectors_16 b = 0 ↔ total_sectors_32 b ≠ 0);
  bv_data : wrap32 (data_start b) < total_sectors b;
  bv_fat : is_fat32 b = true → sectors_per_fat_32 b ≠ 0;
  bv_type : let n := (total_sectors b - wrap32 (data_start b)) / sectors_per_cluster b in
    (is_fat32 b = true ↔ from_clusters n = Fat32) ∧ n <= 0x0FFFFFFF }.

(** A check answers whether [P] holds and touches nothing. *)
Definition checks {D} (P : Prop) (x : FM D unit) : Prop :=
  ∀ d, (P ∧ x d = Ret (Ok tt, d)) ∨ (¬ P ∧ x d = Ret (Err ECorruptedFileSystem, d)).

Section checks.
Context {D : Type}.

Lemma checks_if c (P : Prop) : (c = true → ¬ P) → (c = false → P) → checks (D := D) P (corrupted_if c).
Proof. intros H1 H2 d. destruct c; [right|left]; auto. Qed.

Lemma checks_bind (P Q : Prop) (x y : FM D unit) : checks P x → (P → checks Q y) → checks (P ∧ Q) (_ ← x; y).
Proof.
  intros Hx Hy d. unfold mbind, FM_bind. destruct (Hx d) as [[HP ->]|[HP ->]]; [|right; tauto].
  destruct (Hy HP d) as [[HQ ->]|[HQ ->]]; [left|right]; tauto.
Qed.

Lemma checks_iff (P Q : Prop) (x : FM D unit) : (P ↔ Q) → checks P x → checks Q x.
Proof. intros HPQ Hx d. destruct (Hx d); tauto. Qed.

Lemma checks_lift {A} P (x : outcome A) a (y : A → FM D unit) : x = Ret a → checks P (y a) → checks P (v ← lift x; y v).
Proof. intros -> Hy d. apply Hy. Qed.
End checks.

(** A fact about each integer of a range, by computation. *)
Lemma forall_range (P : Z → bool) lo n x : forallb (λ i, P (lo + Z.of_nat i)) (seq 0 n) = true →
  lo <= x < lo + Z.of_nat n → P x = true.
Proof.
  intros Hall Hx. rewrite forallb_forall in Hall. specialize (Hall (Z.to_nat (x - lo))).
  rewrite Z2Nat.id, Zplus_minus in Hall by lia. apply Hall, in_seq. lia.
Qed.

Lemma pow2_sector x : 512 <= x <= 4096 → (count_ones 16 x =? 1) = bool_decide (x ∈ [512; 1024; 2048; 4096]).
Proof.
  intros Hx. apply eqb_prop.
  pose proof (forall_range (λ y, eqb (count_ones 16 y =? 1) (bool_decide (y ∈ [512; 1024; 2048; 4096]))) 512 3585 x) as H.
  apply H; [by vm_compute|lia].
Qed.

Lemma pow2_cluster x : 0 <= x < 256 → (count_ones 8 x =? 1) = bool_decide (x ∈ [1; 2; 4; 8; 16; 32; 64; 128]).
Proof.
  intros Hx. apply eqb_prop.
  pose proof (forall_range (λ y, eqb (count_ones 8 y =? 1) (bool_decide (y ∈ [1; 2; 4; 8; 16; 32; 64; 128]))) 0 256 x) as H.
  apply H; [by vm_compute|lia].
Qed.

Section validate.
Context {D : Type}.

Lemma validate_bytes_per_sector_checks b :
  checks (D := D) (bytes_per_sector b ∈ [512; 1024; 2048; 4096]) (validate_bytes_per_sector b).
Proof.
  eapply checks_iff; [|apply checks_bind; [apply (checks_if _ (count_ones 16 (bytes_per_sector b) = 1))
    |intros _; apply (checks_if _ (512 <= bytes_per_sector b <= 4096))]].
  - split.
    + intros [H1 H2]. apply pow2_sector in H2. rewrite H1 in H2. by eapply bool_decide_eq_true_1.
    + intros Hin. set_unfold. destruct_or! Hin; rewrite Hin; split; done || lia.
  - intros ?%negb_true_iff%Z.eqb_neq. done.
  - by intros ?%negb_false_iff%Z.eqb_eq.
  - intros [?%Z.ltb_lt|?%Z.ltb_lt]%orb_true_iff; lia.
  - intros [?%Z.ltb_ge ?%Z.ltb_ge]%orb_false_iff. lia.
Qed.

Lemma validate_sectors_per_cluster_checks b : word 8 (sectors_per_cluster b) →
  checks (D := D) (sectors_per_cluster b ∈ [1; 2; 4; 8; 16; 32; 64; 128]) (validate_sectors_per_cluster b).
Proof.
  intros Hw.
  eapply checks_iff; [|apply checks_bind; [apply (checks_if _ (count_ones 8 (sectors_per_cluster b) = 1))
    |intros _; apply (checks_if _ (1 <= sectors_per_cluster b <= 128))]].
  - split.
    + intros [H1 H2]. pose proof (pow2_cluster _ Hw) as H3. rewrite H1 in H3. by eapply bool_decide_eq_true_1.
    + intros Hin. set_unfold. destruct_or! Hin; rewrite Hin; split; done || lia.
  - intros ?%negb_true_iff%Z.eqb_neq. done.
  - by intros ?%negb_false_iff%Z.eqb_eq.
  - intros [?%Z.ltb_lt|?%Z.ltb_lt]%orb_true_iff; lia.
  - intros [?%Z.ltb_ge ?%Z.ltb_ge]%orb_false_iff. lia.
Qed.

Lemma validate_reserved_sectors_checks b :
  checks (D := D) (1 <= b_reserved_sectors b ∧ (is_fat32 b = true →
    b_backup_boot_sector b < b_reserved_sectors b ∧ b_fs_info_sector b < b_reserved_sectors b))
    (validate_reserved_sectors b).
Proof.
  eapply checks_iff; [|apply checks_bind; [apply (checks_if _ (1 <= b_reserved_sectors b)); lia
    |intros _; apply checks_bind; [apply (checks_if _ (is_fat32 b = true → b_backup_boot_sector b < b_reserved_sectors b))
    |intros _; apply (checks_if _ (is_fat32 b = true → b_fs_info_sector b < b_reserved_sectors b))]]].
  - tauto.
  - destruct (is_fat32 b); simpl; intros; [lia|done].
  - destruct (is_fat32 b); simpl; intros; [lia|done].
  - destruct (is_fat32 b); simpl; intros; [lia|done].
  - destruct (is_fat32 b); simpl; intros; [lia|done].
Qed.

Lemma validate_fats_checks b : checks (D := D) (fats b ≠ 0) (validate_fats b).
Proof. apply checks_if; lia. Qed.

Lemma validate_root_entries_checks b : bytes_per_sector b ≠ 0 →
  checks (D := D) (is_fat32 b = true ↔ root_entries b = 0) (validate_root_entries b).
Proof.
  intros Hs. eapply checks_iff; [|apply checks_bind; [apply (checks_if _ (is_fat32 b = true → root_entries b = 0))
    |intros _; apply checks_bind; [apply (checks_if _ (is_fat32 b = false → root_entries b ≠ 0))
    |intros _; eapply checks_lift; [|by apply (checks_if false True)]]]].
  - destruct (is_fat32 b); naive_solver.
  - destruct (is_fat32 b); simpl; intros; [lia|done].
  - destruct (is_fat32 b); simpl; intros; [lia|done].
  - destruct (is_fat32 b); simpl; intros; [done|lia].
  - destruct (is_fat32 b); simpl; intros; [done|lia].
  - unfold udiv. by destruct (Z.eqb_spec (bytes_per_sector b) 0).
Qed.

(** The derived quantities, where the sector size is not zero. *)
Lemma root_dir_sectors_eq b : bpb_word b → bytes_per_sector b ≠ 0 → root_dir_sectors b = Ret (root_sectors b).
Proof.
  intros [(Hs&_&He&_) _ _ _ _] Hne. unfold root_dir_sectors, udiv. destruct (Z.eqb_spec (bytes_per_sector b) 0); [done|].
  unfold root_sectors, DIR_ENTRY_SIZE, word in *. rewrite (wrap_small 32 (_ * _)) by (unfold word; lia).
  rewrite (wrap_small 32 (_ + _)) by (unfold word; lia). rewrite (wrap_small 32) by (unfold word; lia). done.
Qed.

Lemma first_data_sector_eq b : bpb_word b → bytes_per_sector b ≠ 0 → first_data_sector b = Ret (wrap32 (data_start b)).
Proof.
  intros Hw Hne. unfold first_data_sector. rewrite (root_dir_sectors_eq b Hw Hne). cbn. f_equal.
  unfold sectors_per_all_fats, data_start, reserved_sectors, wrap.
  rewrite Zplus_mod_idemp_l, Z.add_shuffle0, Zplus_mod_idemp_r. f_equal. lia.
Qed.

Lemma total_clusters_eq b : bpb_word b → bytes_per_sector b ≠ 0 → sectors_per_cluster b ≠ 0 →
  wrap32 (data_start b) < total_sectors b →
  total_clusters b = Ret ((total_sectors b - wrap32 (data_start b)) / sectors_per_cluster b).
Proof.
  intros Hw Hs Hc Hd. unfold total_clusters. rewrite (first_data_sector_eq b Hw Hs). cbn. unfold udiv.
  destruct (Z.eqb_spec (sectors_per_cluster b) 0); [done|]. rewrite (wrap_small 32 (_ - _)); [done|].
  pose proof (wrap_word 32 (data_start b)). destruct Hw as [(?&?&?&?&?) _ (?&?&?) _ _].
  assert (word 32 (total_sectors b)) by (unfold total_sectors; destruct (_ =? _); unfold word in *; lia).
  unfold word in *. lia.
Qed.

Lemma validate_total_sectors_checks b : bpb_word b → bytes_per_sector b ≠ 0 →
  checks (D := D) (((is_fat32 b = true → total_sectors_16 b = 0) ∧ (total_sectors_16 b = 0 ↔ total_sectors_32 b ≠ 0)) ∧
    wrap32 (data_start b) < total_sectors b) (validate_total_sectors b).
Proof.
  intros Hw Hs.
  eapply checks_iff; [|apply checks_bind; [apply (checks_if _ (is_fat32 b = true → total_sectors_16 b = 0))
    |intros _; apply checks_bind; [apply (checks_if _ (total_sectors_16 b = 0 ↔ total_sectors_32 b ≠ 0))
    |intros _; eapply checks_lift; [by apply first_data_sector_eq|apply (checks_if _ (wrap32 (data_start b) < total_sectors b)); lia]]]].
  - tauto.
  - destruct (is_fat32 b); simpl; intros; [lia|done].
  - destruct (is_fat32 b); simpl; intros; [lia|done].
  - intros E%bool_decide_eq_true. destruct (Z.eqb_spec (total_sectors_16 b) 0), (Z.eqb_spec (total_sectors_32 b) 0); naive_solver.
  - intros E%bool_decide_eq_false. destruct (Z.eqb_spec (total_sectors_16 b) 0), (Z.eqb_spec (total_sectors_32 b) 0); naive_solver.
Qed.

Lemma validate_sectors_per_fat_checks b :
  checks (D := D) (is_fat32 b = true → sectors_per_fat_32 b ≠ 0) (validate_sectors_per_fat b).
Proof. apply checks_if; destruct (is_fat32 b); simpl; intros; lia || done. Qed.

Lemma validate_total_clusters_checks b : bpb_word b → bytes_per_sector b ≠ 0 → sectors_per_cluster b ≠ 0 →
  wrap32 (data_start b) < total_sectors b →
  checks (D := D) (let n := (total_sectors b - wrap32 (data_start b)) / sectors_per_cluster b in
    (is_fat32 b = true ↔ from_clusters n = Fat32) ∧ n <= 0x0FFFFFFF) (validate_total_clusters b).
Proof.
  intros Hw Hs Hc Hd. cbv zeta. eapply checks_lift; [by apply total_clusters_eq|].
  set (n := _ / _). apply checks_bind.
  - apply checks_if; destruct (is_fat32 b), (decide (from_clusters n = Fat32)) as [E|E]; rewrite ?E;
      rewrite ?(bool_decide_eq_true_2 _ E), ?(bool_decide_eq_false_2 _ E); simpl; naive_solver.
  - intros _. apply checks_if.
    + intros [_ ?]%andb_prop. lia.
    + intros [E%bool_decide_eq_false|?]%andb_false_iff; [|lia].
      unfold from_clusters, FAT16_MIN_CLUSTERS, FAT32_MIN_CLUSTERS in E.
      destruct (Z.ltb_spec n 4085); [lia|]. destruct (Z.ltb_spec n 65525); [lia|done].
Qed.

End validate.

Lemma sector_ne b : bytes_per_sector b ∈ [512; 1024; 2048; 4096] → bytes_per_sector b ≠ 0.
Proof. intros Hin. set_unfold. lia. Qed.

Lemma cluster_ne b : sectors_per_cluster b ∈ [1; 2; 4; 8; 16; 32; 64; 128] → sectors_per_cluster b ≠ 0.
Proof. intros Hin. set_unfold. lia. Qed.

Lemma bpb_validate_checks {D} b : bpb_word b → checks (D := D) (bpb_valid b) (bpb_validate b).
Proof.
  intros Hw.
  eapply checks_iff; [|apply checks_bind; [apply (checks_if _ (fs_version b = 0)); lia|intros _;
    apply checks_bind; [apply validate_bytes_per_sector_checks|intros Hs%sector_ne;
    apply checks_bind; [apply validate_sectors_per_cluster_checks, (bw_8 b Hw)|intros Hc%cluster_ne;
    apply checks_bind; [apply validate_reserved_sectors_checks|intros _;
    apply checks_bind; [apply validate_fats_checks|intros _;
    apply checks_bind; [by apply validate_root_entries_checks|intros _;
    apply checks_bind; [by apply validate_total_sectors_checks|intros [_ Hd];
    apply checks_bind; [apply validate_sectors_per_fat_checks|intros _; by apply validate_total_clusters_checks]]]]]]]]].
  split; [|by intros []; tauto]. intros (?&?&?&?&?&?&[]&?&?). by split.
Qed.

Lemma boot_validate_checks {D} boot : bpb_word (bpb boot) →
  checks (D := D) (boot_sig boot = [0x55; 0xAA] ∧ bpb_valid (bpb boot)) (boot_validate boot).
Proof.
  intros Hw. apply checks_bind; [|intros _; by apply bpb_validate_checks].
  apply checks_if; [intros E%negb_true_iff%bool_decide_eq_false|intros E%negb_false_iff%bool_decide_eq_true]; done.
Qed.

(** Validation accepts a boot sector exactly when its signature and the fields
    of its parameter block satisfy the format's conditions (sizes that are powers
    of two in range, the special sectors inside the reserved ones, a data area
    that starts before the end, a number of clusters that fits the type), and
    otherwise reports a corrupted file system; it never panics. *)
Theorem validation_decides {D} boot (d : D) : bpb_word (bpb boot) →
  (boot_sig boot = [0x55; 0xAA] ∧ bpb_valid (bpb boot)) ∧ boot_validate boot d = Ret (Ok tt, d) ∨
  ¬ (boot_sig boot = [0x55; 0xAA] ∧ bpb_valid (bpb boot)) ∧ boot_validate boot d = Ret (Err ECorruptedFileSystem, d).
Proof. intros Hw. by apply boot_validate_checks. Qed.

(** ** The size of the table of a new volume *)

(** Every cluster has an entry, with the two reserved ones. *)
Lemma determine_sectors_per_fat_enough ts bps spc ft res rds fats :
  word 32 ts → 512 <= bps < 2 ^ 16 → 1 <= spc < 2 ^ 8 → 1 <= fats <= 2 → 0 <= res → 0 <= rds → res + rds + 8 < ts →
  ∃ spf, determine_sectors_per_fat ts bps spc ft res rds fats = Ret spf ∧ 0 < spf ∧
    0 < ts - res - rds - fats * spf ∧
    ((ts - res - rds - fats * spf) / spc + 2) * bits_per_fat_entry ft <= spf * bps * 8 ∧
    (spf - 1) * (spc * bps * 8 / bits_per_fat_entry ft + fats) < ts - res - rds + 2 * spc.
Proof.
  intros Hts Hbps Hspc Hfats Hres Hrds Hfit. unfold determine_sectors_per_fat.
  set (t0 := ts - res - rds). set (bits := bits_per_fat_entry ft).
  assert (12 <= bits <= 32) as Hbits by (subst bits; destruct ft; simpl; lia).
  assert (512 <= spc * bps <= 255 * 65535) as Hsb by nia.
  set (q := spc * bps * 8 / bits).
  assert (spc * bps * 8 = bits * q + (spc * bps * 8) mod bits) as Hq by (apply Z.div_mod; lia).
  assert (0 <= (spc * bps * 8) mod bits < bits) as Hm by (apply Z.mod_pos_bound; lia).
  assert (128 * spc <= q < 2 ^ 27) as Hq2 by nia.
  assert (wrap32 (wrap32 (ts - res) - rds) = t0) as ->.
  { unfold word in *. rewrite (wrap_small 32 (ts - res)) by (unfold word; lia). apply wrap_small. unfold word. lia. }
  assert (8 < t0 < 2 ^ 32) as Ht0 by (unfold word in *; lia).
  rewrite (wrap_small 32 (2 * spc)), (wrap_small 64 (t0 + _)), (wrap_small 32 (spc * bps)), (wrap_small 32 (spc * bps * 8))
    by (unfold word; lia). fold q.
  rewrite (wrap_small 32 (q + fats)), (wrap_small 64 (t0 + _ + _)), (wrap_small 64) by (unfold word; lia).
  unfold udiv. destruct (Z.eqb_spec (q + fats) 0); [lia|]. cbn [mbind outcome_bind].
  set (t1 := t0 + 2 * spc). set (t2 := q + fats).
  set (spf := (t1 + t2 - 1) / t2).
  assert (t1 + t2 - 1 = t2 * spf + (t1 + t2 - 1) mod t2) as Hspf by (apply Z.div_mod; lia).
  assert (0 <= (t1 + t2 - 1) mod t2 < t2) as Hm2 by (apply Z.mod_pos_bound; lia).
  assert (0 < spf) by nia. assert (spf <= t1) by nia.
  exists spf. split; [f_equal; apply wrap_small; unfold word|].
  { assert (spf * 128 <= t1 + 128) by nia. lia. }
  split; [done|]. split.
  { subst t2 t1. nia. }
  split; [|nia].
  set (data := t0 - fats * spf). replace (ts - res - rds - fats * spf) with data by lia.
  pose proof (Z.div_mod data spc). pose proof (Z.mod_pos_bound data spc).
  assert (data + 2 * spc <= spf * q) as Hk1 by (subst data t1 t2; nia).
  set (k := data / spc) in *. set (m := (spc * bps * 8) mod bits) in *.
  assert (spc * (k + 2) <= data + 2 * spc) as Hk2 by lia.
  assert (bits * (spc * (k + 2)) <= bits * (spf * q)) as Hk3 by (apply Z.mul_le_mono_nonneg_l; lia).
  assert (0 <= spf * m) as Hk4 by (apply Z.mul_nonneg_nonneg; lia).
  apply (Z.mul_le_mono_pos_l _ _ spc); [lia|].
  replace (spc * (spf * bps * 8)) with (spf * (spc * bps * 8)) by lia. rewrite Hq.
  replace (spf * (bits * q + m)) with (bits * (spf * q) + spf * m) by ring. lia.
Qed.

(** A layout: the parts fit in the volume, the number of clusters is one of the
    type, each cluster has an entry, and the size of the table fits its field. *)
Record layout (ts bps spc : Z) (ft : FatType) (res rds fats spf n : Z) : Prop := {
  ly_data : 0 < ts - res - rds - fats * spf;
  ly_clusters : n = (ts - res - rds - fats * spf) / spc;
  ly_type : from_clusters n = ft;
  ly_max : n <= max_clusters ft;
  ly_entries : (n + 2) * bits_per_fat_entry ft <= spf * bps * 8;
  ly_fat : 0 < spf ∧ match ft with Fat32 => spf < 2 ^ 32 | _ => spf < 2 ^ 16 end }.

Definition reserved_of (ft : FatType) : Z := if bool_decide (ft = Fat32) then 8 else 1.

(** The table of at most 65524 entries of 16 bits is small. *)
Lemma table_fits spf q spc fats data : 1 <= spc → 128 * spc <= q → 0 < spf → 1 <= fats <= 2 → data < 65525 * spc →
  (spf - 1) * (q + fats) < data + fats * spf + 2 * spc → spf < 2 ^ 16.
Proof.
  intros Hspc Hq Hspf Hf Hdata Hb.
  assert ((spf - 1) * (128 * spc) <= (spf - 1) * q) by (apply Z.mul_le_mono_nonneg_l; lia).
  assert ((spf - 1) * 128 * spc < 65529 * spc) as Hlt by lia. apply Z.mul_lt_mono_pos_r in Hlt; lia.
Qed.

Section format.
Context {D : Type}.
Implicit Types d : D.

(** A call that only computes: it answers [v] with [P v] or refuses its input. *)
Definition computes {A} (x : FM D A) (P : A → Prop) : Prop :=
  ∀ d, x d = Ret (Err EInvalidInput, d) ∨ ∃ v, x d = Ret (Ok v, d) ∧ P v.

Lemma computes_bind {A B} (x : FM D A) (y : A → FM D B) P Q :
  computes x P → (∀ v, P v → computes (y v) Q) → computes (x ≫= y) Q.
Proof.
  intros Hx Hy d. unfold mbind, FM_bind. destruct (Hx d) as [->|(v&->&Hv)]; [by left|]. by apply Hy.
Qed.

Lemma computes_lift {A B} (x : outcome A) a (y : A → FM D B) Q : x = Ret a → computes (y a) Q →
  computes (v ← lift x; y v) Q.
Proof. intros -> Hy d. apply Hy. Qed.

Lemma computes_ret {A} v (P : A → Prop) : P v → computes (mret v) P.
Proof. intros Hv d. right. by exists v. Qed.

Lemma computes_fail {A} (P : A → Prop) : computes (fail EInvalidInput) P.
Proof. intros d. by left. Qed.

Lemma computes_mono {A} (x : FM D A) (P Q : A → Prop) : computes x P → (∀ v, P v → Q v) → computes x Q.
Proof. intros Hx HPQ d. destruct (Hx d) as [?|(v&?&?)]; [by left|right; eauto]. Qed.

Lemma try_fs_geometry_layout ts bps spc ft rds fats :
  word 32 ts → 512 <= bps < 2 ^ 16 → 1 <= spc < 2 ^ 8 → 1 <= fats <= 2 → 0 <= rds < 2 ^ 21 →
  computes (try_fs_geometry ts bps spc ft rds fats)
    (λ r, fst r = reserved_of ft ∧ ∃ n, layout ts bps spc ft (fst r) rds fats (snd r) n).
Proof.
  intros Hts Hbps Hspc Hfats Hrds. unfold try_fs_geometry. fold (reserved_of ft).
  assert (1 <= reserved_of ft <= 8) as Hres by (unfold reserved_of; destruct (bool_decide _); lia).
  rewrite (wrap_small 32 (_ + rds)), (wrap_small 32 (_ + 8)) by (unfold word; lia).
  destruct (Z.leb_spec ts (reserved_of ft + rds + 8)) as [|Hlt]; [apply computes_fail|].
  destruct (determine_sectors_per_fat_enough ts bps spc ft (reserved_of ft) rds fats)
    as (spf&Hs&Hpos&Hdata&Hent&Htight); [done|done|lia..|].
  eapply computes_lift; [exact Hs|]. eapply computes_lift; [unfold udiv; destruct (Z.eqb_spec spc 0); [lia|done]|].
  assert (word 32 (spf * fats)) as Hsf by (unfold word in *; nia).
  set (n := _ / spc). assert (n = (ts - reserved_of ft - rds - fats * spf) / spc) as Hn.
  { unfold n. f_equal. unfold word in Hts. rewrite (wrap_small 32 (spf * fats)), (wrap_small 32 (ts - _)),
      (wrap_small 32 (_ - rds)), (wrap_small 32) by (done || unfold word in *; nia). lia. }
  clearbody n.
  destruct (bool_decide_reflect (ft ≠ from_clusters n)) as [|Hft]; [apply computes_fail|]. apply dec_stable in Hft.
  destruct (Z.ltb_spec (max_clusters ft) n); [apply computes_fail|]. apply computes_ret. cbn [fst snd].
  split; [done|]. exists n. split; [done|done|done|lia|by rewrite Hn|split; [done|]].
  destruct (decide (ft = Fat32)) as [->|Hne]; [unfold word in *; nia|].
  assert (n <= 65524) as Hmax.
  { destruct ft; unfold max_clusters, FAT16_MIN_CLUSTERS, FAT32_MIN_CLUSTERS in *; [lia|lia|done]. }
  assert (spf < 2 ^ 16); [|by destruct ft].
  assert (spf < 2 ^ 16); [|by destruct ft].
  set (q := spc * bps * 8 / bits_per_fat_entry ft) in *.
  assert (128 * spc <= q) by (apply Z.div_le_lower_bound; destruct ft; simpl; nia).
  set (data := ts - reserved_of ft - rds - fats * spf) in *.
  pose proof (Z.mod_pos_bound data spc). pose proof (Z.div_mod data spc). set (k := data / spc) in *.
  apply (table_fits spf q spc fats data); [lia|done|done|lia| |lia].
  assert (spc * k <= spc * 65524) by (apply Z.mul_le_mono_nonneg_l; lia). lia.
Qed.

Lemma determine_root_dir_sectors_eq re bps ft : 0 <= re < 2 ^ 16 → 512 <= bps < 2 ^ 16 →
  ∃ rds, determine_root_dir_sectors re bps ft = Ret rds ∧ 0 <= rds < 2 ^ 21 ∧
    rds = if bool_decide (ft = Fat32) then 0 else (re * 32 + bps - 1) / bps.
Proof.
  intros Hre Hbps. unfold determine_root_dir_sectors, DIR_ENTRY_SIZE. destruct (bool_decide _); [by exists 0|].
  rewrite (wrap_small 32 (_ * _)), (wrap_small 32 (_ + _)), (wrap_small 32) by (unfold word; lia).
  unfold udiv. destruct (Z.eqb_spec bps 0); [lia|]. eexists. split; [done|]. split; [|done].
  split; [apply Z.div_pos; lia|]. apply Z.div_lt_upper_bound; lia.
Qed.

(** The layout found for the options' number of root entries [re]. *)
Definition layout_for (ts bps spc re fats : Z) (r : FatType * Z * Z) : Prop :=
  let '(ft, res, spf) := r in
  res = reserved_of ft ∧ ∃ n, layout ts bps spc ft res
    (if bool_decide (ft = Fat32) then 0 else (re * 32 + bps - 1) / bps) fats spf n.

Lemma determine_fs_geometry_loop_layout types ts bps spc re fats :
  word 32 ts → 512 <= bps < 2 ^ 16 → 1 <= spc < 2 ^ 8 → 1 <= fats <= 2 → 0 <= re < 2 ^ 16 →
  computes (determine_fs_geometry_loop types ts bps spc re fats) (layout_for ts bps spc re fats).
Proof.
  intros Hts Hbps Hspc Hfats Hre. induction types as [|ft types IH]; [apply computes_fail|].
  cbn [determine_fs_geometry_loop].
  destruct (determine_root_dir_sectors_eq re bps ft Hre Hbps) as (rds&Hrds&Hr&Heq).
  eapply computes_lift; [exact Hrds|]. intros d. unfold catch, mbind, FM_bind.
  destruct (try_fs_geometry_layout ts bps spc ft rds fats Hts Hbps Hspc Hfats Hr d) as [->|([res spf]&->&Hres&n&Hn)].
  - apply IH.
  - right. eexists. split; [done|]. split; [done|]. exists n. by rewrite <- Heq.
Qed.
End format.

(** ** The size of the clusters of a new volume *)

Definition pow2 (x : Z) : Prop := ∃ k, 0 <= k ∧ x = 2 ^ k.
Definition pow2_or_0 (x : Z) : Prop := x = 0 ∨ pow2 x.

Lemma pow2_intro k : 0 <= k → pow2 (2 ^ k).
Proof. intros Hk. by exists k. Qed.

Lemma pow2_mul x j : 0 <= j → pow2_or_0 x → pow2_or_0 (x * 2 ^ j).
Proof.
  intros Hj [->|(k&Hk&->)]; [by left|right]. exists (k + j). rewrite Z.pow_add_r by lia. split; [lia|done].
Qed.

Lemma pow2_div x j : 0 <= j → pow2_or_0 x → pow2_or_0 (x / 2 ^ j).
Proof.
  intros Hj [->|(k&Hk&->)]; [by left|]. destruct (Z.leb_spec j k).
  - right. exists (k - j). rewrite Z.pow_sub_r by lia. split; [lia|done].
  - left. apply Z.div_small. split; [apply Z.pow_nonneg; lia|apply Z.pow_lt_mono_r; lia].
Qed.

Lemma pow2_wrap x w : 0 <= w → pow2_or_0 x → pow2_or_0 (wrap w x).
Proof.
  intros Hw [->|(k&Hk&->)]; [by left|]. destruct (Z.leb_spec w k).
  - left. unfold wrap. replace k with ((k - w) + w) by lia. rewrite Z.pow_add_r by lia. apply Z_mod_mult.
  - right. exists k. split; [done|]. apply wrap_small. split; [apply Z.pow_nonneg; lia|apply Z.pow_lt_mono_r; lia].
Qed.

Lemma pow2_max x y : pow2_or_0 x → pow2 y → pow2 (Z.max x y).
Proof.
  intros [->|Hx] Hy.
  - destruct Hy as (k&Hk&->). rewrite Z.max_r by (apply Z.pow_nonneg; lia). by exists k.
  - by destruct (Z.max_spec x y) as [[_ ->]|[_ ->]].
Qed.

Lemma next_power_of_two_pow2 x : pow2_or_0 (next_power_of_two x).
Proof.
  apply pow2_wrap; [lia|]. destruct (x <=? 1); right; [by exists 0|]. apply pow2_intro, Z.log2_up_nonneg.
Qed.

#[local] Ltac pow2 :=
  first [apply next_power_of_two_pow2
        |apply pow2_wrap; [lia|pow2]
        |match goal with |- pow2_or_0 (?x * ?c) => change c with (2 ^ Z.log2 c); apply pow2_mul; [apply Z.log2_nonneg|pow2] end
        |match goal with |- pow2_or_0 (?x / ?c) => change c with (2 ^ Z.log2 c); apply pow2_div; [apply Z.log2_nonneg|pow2] end].

Lemma determine_bytes_per_cluster_pow2 tb bps ft : pow2 bps → bps <= 32 * KB →
  pow2 (determine_bytes_per_cluster tb bps ft) ∧ bps <= determine_bytes_per_cluster tb bps ft <= 32 * KB.
Proof.
  intros Hb Hle. unfold determine_bytes_per_cluster. set (c := match default _ _ with Fat12 => _ | _ => _ end).
  assert (pow2_or_0 c) as Hc.
  { unfold c. destruct (default _ _).
    - pow2.
    - destruct (_ <=? _); [right; by exists 10|]. destruct (_ <=? _); [right; by exists 11|]. pow2.
    - destruct (_ <=? _); [right; by exists 9|]. destruct (_ <=? _); [right; by exists 12|]. pow2. }
  pose proof (pow2_max c bps Hc Hb) as Hm. split; [|lia].
  destruct (Z.min_spec (Z.max c bps) (32 * KB)) as [[_ ->]|[_ ->]]; [done|by exists 15].
Qed.

(** Clusters of up to 128 sectors. *)
Lemma pow2_quotient c bps : pow2 c → bps ∈ [512; 1024; 2048; 4096] → bps <= c <= 128 * bps →
  c / bps ∈ [1; 2; 4; 8; 16; 32; 64; 128].
Proof.
  intros (k&Hk&->) Hb Hle.
  assert (∃ j, 0 <= j ∧ bps = 2 ^ j) as (j&Hj&->).
  { set_unfold. destruct_or! Hb; subst; [by exists 9|by exists 10|by exists 11|by exists 12]. }
  change 128 with (2 ^ 7) in Hle. rewrite <- Z.pow_add_r in Hle by lia.
  assert (j <= k) by (apply (Z.pow_le_mono_r_iff 2); lia). assert (k <= 7 + j) by (apply (Z.pow_le_mono_r_iff 2); lia).
  rewrite <- Z.pow_sub_r by lia. set (m := k - j). assert (0 <= m <= 7) as Hm by lia. clearbody m. set_unfold.
  assert (m = 0 ∨ m = 1 ∨ m = 2 ∨ m = 3 ∨ m = 4 ∨ m = 5 ∨ m = 6 ∨ m = 7) as Hcases by lia.
  destruct_or! Hcases; subst; simpl; tauto.
Qed.

(** ** New volumes *)

(** The options as the builder and their types leave them. *)
Record options_ok (o : FormatVolumeOptions) (bps : Z) : Prop := {
  oo_fats : 1 <= default 2 (o_fats o) <= 2;
  oo_root : 1 <= default 512 (o_max_root_dir_entries o) < 2 ^ 16;
  oo_cluster : match o_bytes_per_cluster o with Some c => pow2 c ∧ bps <= c <= 128 * bps | None => True end;
  oo_words : word 8 (default 0xF8 (o_media o)) ∧ word 16 (default 0x20 (o_sectors_per_track o)) ∧
    word 16 (default 0x40 (o_heads o)) ∧ word 8 (default 0 (o_drive_num o)) ∧ word 32 (default 0 (o_volume_id o));
  oo_label : bytes 11 (default NO_NAME (o_volume_label o)) }.

Record new_volume (ts bps : Z) (ft : FatType) b : Prop := {
  nv_word : bpb_word b ∧ (is_fat32 b = false → no_fat32_fields b) ∧ ext_sig b = 0x29;
  nv_valid : bpb_valid b;
  nv_size : total_sectors b = ts ∧ bytes_per_sector b = bps;
  nv_layout : ∃ n, total_clusters b = Ret n ∧ data_start b + n * sectors_per_cluster b <= ts ∧
    layout ts bps (sectors_per_cluster b) ft (b_reserved_sectors b) (root_sectors b) (fats b) (sectors_per_fat b) n }.

Section new_bpb.
Context (o : FormatVolumeOptions) (ts bps spc : Z) (ft : FatType) (spf n : Z).
Hypothesis Hts : word 32 ts.
Hypothesis Hbps : bps ∈ [512; 1024; 2048; 4096].
Hypothesis Hspc : spc ∈ [1; 2; 4; 8; 16; 32; 64; 128].
Hypothesis Ho : options_ok o bps.

Let re : Z := default 512 (o_max_root_dir_entries o).
Let fs : Z := default 2 (o_fats o).
Let rds : Z := if bool_decide (ft = Fat32) then 0 else (re * 32 + bps - 1) / bps.
Let nb : BiosParameterBlock := new_bpb o ts bps spc ft (reserved_of ft) spf.

Hypothesis Hlayout : layout ts bps spc ft (reserved_of ft) rds fs spf n.

Lemma bps_range : 512 <= bps <= 4096.
Proof. clear -Hbps. set_unfold. lia. Qed.

Lemma spc_range : 1 <= spc <= 128.
Proof. clear -Hspc. set_unfold. lia. Qed.

Lemma spf_word : 0 < spf ∧ word 32 spf ∧ (ft ≠ Fat32 → wrap16 spf = spf).
Proof.
  destruct Hlayout as [_ _ _ _ _ [H0 H1]]. split; [done|].
  destruct ft; [split; [unfold word; lia|intros _; apply wrap_small; unfold word; lia]..|].
  split; [unfold word; lia|done].
Qed.

Lemma new_bpb_fat32 : is_fat32 nb = bool_decide (ft = Fat32).
Proof.
  destruct spf_word as (Hp&_&Hw). unfold is_fat32, nb, new_bpb. cbn [sectors_per_fat_16].
  destruct (bool_decide_reflect (ft = Fat32)) as [->|Hne]; [done|]. rewrite Hw by done. apply Z.eqb_neq. lia.
Qed.

Lemma new_bpb_sectors_per_fat : sectors_per_fat nb = spf.
Proof.
  destruct spf_word as (Hp&_&Hw). unfold sectors_per_fat. rewrite new_bpb_fat32. unfold nb, new_bpb.
  cbn [sectors_per_fat_16 sectors_per_fat_32].
  destruct (bool_decide_reflect (ft = Fat32)) as [->|Hne]; [done|]. by apply Hw.
Qed.

Lemma new_bpb_root_sectors : root_sectors nb = rds.
Proof.
  unfold root_sectors, nb, new_bpb, rds. cbn [root_entries bytes_per_sector]. pose proof bps_range.
  destruct (bool_decide _); [|done]. apply Z.div_small. lia.
Qed.

Lemma new_bpb_total_sectors : total_sectors nb = ts.
Proof.
  unfold total_sectors, nb, new_bpb. cbn [total_sectors_16 total_sectors_32]. unfold word in Hts.
  destruct (Z.ltb_spec ts 0x10000), (Z.leb_spec 0x10000 ts); try lia; rewrite ?(wrap_small 16) by (unfold word; lia).
  - by destruct (Z.eqb_spec ts 0) as [->|].
  - done.
Qed.

Lemma rds_range : 0 <= rds.
Proof.
  destruct Ho as [_ Hr _ _ _]. fold re in Hr. pose proof bps_range. unfold rds. destruct (bool_decide _); [lia|].
  apply Z.div_pos; lia.
Qed.

Lemma new_bpb_data_start : data_start nb = reserved_of ft + fs * spf + rds ∧ word 32 (data_start nb) ∧ data_start nb < ts.
Proof.
  assert (data_start nb = reserved_of ft + fs * spf + rds) as ->.
  { unfold data_start. by rewrite new_bpb_sectors_per_fat, new_bpb_root_sectors. }
  destruct Hlayout as [Hd _ _ _ _ [Hp _]]. destruct Ho as [Hf _ _ _ _]. fold fs in Hf. pose proof rds_range.
  assert (1 <= reserved_of ft <= 8) by (unfold reserved_of; destruct (bool_decide _); lia).
  assert (0 <= fs * spf) by nia. split; [done|]. unfold word in *. lia.
Qed.

Lemma new_bpb_word : bpb_word nb ∧ (is_fat32 nb = false → no_fat32_fields nb) ∧ ext_sig nb = 0x29.
Proof.
  destruct Ho as [Hf Hr _ (Hm&Ht&Hh&Hd&Hv) Hl]. fold re in Hr. fold fs in Hf. pose proof bps_range. pose proof spc_range.
  destruct spf_word as (Hp&Hw&Hw16).
  assert (1 <= reserved_of ft <= 8) by (unfold reserved_of; destruct (bool_decide _); lia).
  split; [|split; [|done]].
  - assert (∀ A (x y : A) (c : bool) (P : A → Prop), P x → P y → P (if c then x else y)) as Hif by (by intros ??? []).
    assert (∀ x, word 16 (wrap16 x)) as H16 by (intros; by apply wrap_word).
    split; unfold nb, new_bpb; cbn; fold re fs; split_and!; try done; try (unfold word; lia);
      try (apply Hif; done || (unfold word; lia)).
    + destruct (o_drive_num o); [done|]. apply Hif; unfold word; simpl; lia.
    + destruct (o_volume_id o); [done|]. unfold word; simpl; lia.
    + split; [done|]. repeat constructor; unfold word; lia.
    + split; [by destruct ft|]. destruct ft; repeat constructor; unfold word; lia.
  - rewrite new_bpb_fat32. unfold nb, new_bpb, no_fat32_fields. cbn. by intros ->.
Qed.

Lemma new_bpb_clusters : (total_sectors nb - wrap32 (data_start nb)) / sectors_per_cluster nb = n.
Proof.
  destruct new_bpb_data_start as (Heq&Hw&Hlt). rewrite (wrap_small 32 _ Hw), Heq, new_bpb_total_sectors.
  rewrite (ly_clusters _ _ _ _ _ _ _ _ _ Hlayout). unfold nb, new_bpb. cbn [sectors_per_cluster]. f_equal. lia.
Qed.

Lemma fat32_large : ft = Fat32 → 0x10000 <= ts.
Proof.
  intros ->. destruct Hlayout as [Hd Hn Ht _ He [Hp _]]. destruct Ho as [Hf _ _ _ _]. fold fs in Hf.
  pose proof bps_range. pose proof spc_range. unfold reserved_of, rds in *.
  rewrite !bool_decide_eq_true_2 in Hd by done. rewrite !bool_decide_eq_true_2 in Hn by done. cbn in He.
  assert (65525 <= n) as Hmin.
  { unfold from_clusters, FAT16_MIN_CLUSTERS, FAT32_MIN_CLUSTERS in Ht.
    destruct (Z.ltb_spec n 4085); [done|]. destruct (Z.ltb_spec n 65525); [done|lia]. }
  set (data := ts - 8 - 0 - fs * spf) in *. pose proof (Z.mul_div_le data spc).
  assert (65525 <= data).
  { assert (spc * n <= data) by (rewrite Hn; lia). assert (1 * n <= spc * n) by (apply Z.mul_le_mono_nonneg_r; lia). lia. }
  assert (spf * bps <= spf * 4096) by (apply Z.mul_le_mono_nonneg_l; lia).
  assert (1 * spf <= fs * spf) by (apply Z.mul_le_mono_nonneg_r; lia). lia.
Qed.

Lemma new_bpb_valid : bpb_valid nb.
Proof.
  pose proof bps_range. pose proof spc_range. destruct spf_word as (Hp&_). pose proof new_bpb_fat32 as H32.
  destruct new_bpb_data_start as (_&Hw&Hlt). pose proof fat32_large as Hlarge.
  destruct Ho as [Hf Hr _ _ _]. fold re in Hr. fold fs in Hf.
  assert (is_fat32 nb = true ↔ ft = Fat32) as Hft by (rewrite H32; apply bool_decide_eq_true).
  split.
  - done.
  - done.
  - done.
  - rewrite Hft. split; [|intros ->; by vm_compute].
    change (1 <= reserved_of ft). unfold reserved_of. destruct (bool_decide _); lia.
  - change (fs ≠ 0). lia.
  - rewrite Hft. unfold nb, new_bpb. cbn [root_entries]. fold re.
    destruct (bool_decide_reflect (ft = Fat32)); [done|]. split; [done|lia].
  - rewrite Hft. unfold nb, new_bpb. cbn [total_sectors_16 total_sectors_32]. unfold word in Hts. split.
    + intros E%Hlarge. destruct (Z.ltb_spec ts 0x10000); [lia|done].
    + assert (0 < ts).
      { pose proof rds_range. destruct Hlayout as [Hd _ _ _ _ _]. unfold reserved_of in Hd. destruct (bool_decide _); nia. }
      destruct (Z.ltb_spec ts 0x10000), (Z.leb_spec 0x10000 ts); try lia; rewrite ?(wrap_small 16) by (unfold word; lia); lia.
  - rewrite (wrap_small 32 _ Hw), new_bpb_total_sectors. done.
  - rewrite Hft. intros E. unfold nb, new_bpb. cbn. rewrite bool_decide_eq_true_2 by done. lia.
  - cbv zeta. rewrite new_bpb_clusters, Hft. destruct Hlayout as [_ _ Ht Hm _ _]. rewrite Ht. split; [done|].
    unfold max_clusters, FAT16_MIN_CLUSTERS, FAT32_MIN_CLUSTERS, FAT32_MAX_CLUSTERS in Hm. destruct ft; lia.
Qed.

Lemma new_bpb_new_volume : new_volume ts bps ft nb ∧ total_clusters nb = Ret n.
Proof.
  pose proof new_bpb_valid as Hv. pose proof new_bpb_word as Hw. destruct new_bpb_data_start as (Heq&Hww&Hlt).
  assert (total_clusters nb = Ret n) as Hn.
  { rewrite total_clusters_eq; [by rewrite new_bpb_clusters|apply Hw|apply sector_ne, Hv|apply cluster_ne, Hv|apply Hv]. }
  split; [|done]. split; [done|done|by rewrite new_bpb_total_sectors|]. exists n. split; [done|]. split.
  - rewrite Heq. rewrite (ly_clusters _ _ _ _ _ _ _ _ _ Hlayout). change (sectors_per_cluster nb) with spc.
    pose proof spc_range. pose proof (Z.mul_div_le (ts - reserved_of ft - rds - fs * spf) spc). lia.
  - rewrite new_bpb_root_sectors, new_bpb_sectors_per_fat. exact Hlayout.
Qed.
End new_bpb.

Lemma format_bpb_new {D} o ts bps : word 32 ts → bps ∈ [512; 1024; 2048; 4096] → options_ok o bps →
  computes (D := D) (format_bpb o ts bps) (λ '(b, ft), new_volume ts bps ft b).
Proof.
  intros Hts Hbps Ho. unfold format_bpb. set (c := default _ (o_bytes_per_cluster o)).
  assert (c / bps ∈ [1; 2; 4; 8; 16; 32; 64; 128]) as Hspc.
  { assert (pow2 bps) as Hpow.
    { clear -Hbps. set_unfold. destruct_or! Hbps; subst; [by exists 9|by exists 10|by exists 11|by exists 12]. }
    assert (512 <= bps <= 4096) by (clear -Hbps; set_unfold; lia).
    destruct Ho as [_ _ Hc _ _]. subst c. destruct (o_bytes_per_cluster o) as [c|]; cbn [default from_option id].
    - destruct Hc. by apply pow2_quotient.
    - destruct (determine_bytes_per_cluster_pow2 (wrap64 (ts * bps)) bps (o_fat_type o)) as [H1 H2]; [done|unfold KB; lia|].
      apply pow2_quotient; [done|done|]. unfold KB in H2. lia. }
  set (spc := c / bps) in *. assert (1 <= spc <= 128) by (clear -Hspc; set_unfold; lia).
  eapply computes_lift.
  { unfold udiv. destruct (Z.eqb_spec bps 0) as [E|]; [exfalso; clear -Hbps E; set_unfold; lia|]. by fold spc. }
  eapply computes_lift; [by destruct (Z.leb_spec spc 255); [|lia]|].
  eapply computes_bind.
  { apply determine_fs_geometry_loop_layout; [done|clear -Hbps; set_unfold; lia|lia|apply Ho|]. destruct Ho. lia. }
  intros [[ft res] spf] [-> [n Hn]].
  destruct (new_bpb_new_volume o ts bps spc ft spf n) as [Hnew Htc]; [done..|].
  eapply computes_lift; [exact Htc|]. rewrite (ly_type _ _ _ _ _ _ _ _ _ Hn).
  destruct (bool_decide_reflect (ft ≠ ft)); [done|]. by apply computes_ret.
Qed.

(** Constant arrays are checked by computation. *)
Lemma bytes_compute n l : length l = n → forallb (λ x, (0 <=? x) && (x <? 256)) l = true → bytes n l.
Proof.
  intros Hl Hb. split; [done|]. rewrite forallb_forall in Hb. apply Forall_forall. intros x Hx.
  assert ((0 <=? x) && (x <? 256) = true) by (by apply Hb). unfold word. lia.
Qed.

(** The sector around the block. *)
Lemma new_boot_ok {D} ts bps ft b (d : D) jmp code : new_volume ts bps ft b → bytes 3 jmp → bytes 448 code →
  (is_fat32 b = true → bytes_at 420 28 code = replicate 28 0) →
  let boot := mkBoot jmp OEM_NAME b code [0x55; 0xAA] in
  boot_ok boot ∧ boot_validate boot d = Ret (Ok tt, d) ∧ new_volume ts bps ft (bpb boot).
Proof.
  intros Hn Hj Hc H28 boot. pose proof (nv_word _ _ _ _ Hn) as (Hw&H0&Hs). split; [|split; [|done]].
  - split; [done|done|by left|split_and!; [done| |done|]|done]; (split; [done|]); repeat constructor; unfold word; lia.
  - destruct (boot_validate_checks boot Hw d) as [[_ ?]|[[] _]]; [done|]. split; [done|]. apply (nv_valid _ _ _ _ Hn).
Qed.

(** C32. For sectors of 512 to 4096 bytes and options that ask for one or two
    tables, for at least one root entry and, if for a size of cluster, for one of
    a sector to 128 sectors that is a power of two, formatting computes a boot
    sector or refuses its input, and does not panic; outside of these it may
    ([wide_cluster_panics], [narrow_cluster_panics]).  The boot sector passes
    validation; the number of clusters is one of the
    chosen type; the reserved sectors, the tables, the root directory and all
    clusters lie inside the volume; and the table has an entry for every cluster
    and the two reserved ones, with its size within the field that holds it. *)
Theorem formatted_volume_fits {D} o ts bps (d : D) : word 32 ts → bps ∈ [512; 1024; 2048; 4096] → options_ok o bps →
  format_boot_sector o ts bps d = Ret (Err EInvalidInput, d) ∨
  ∃ boot ft, format_boot_sector o ts bps d = Ret (Ok (boot, ft), d) ∧ boot_ok boot ∧
    boot_validate boot d = Ret (Ok tt, d) ∧ new_volume ts bps ft (bpb boot).
Proof.
  intros Hts Hbps Ho. unfold format_boot_sector, mbind, FM_bind.
  destruct (format_bpb_new o ts bps Hts Hbps Ho d) as [->|([b ft]&->&Hn)]; [by left|right].
  assert (∃ jmp code, bytes 3 jmp ∧ bytes 448 code ∧ bytes_at 420 28 code = replicate 28 0 ∧
    (if bool_decide (ft ≠ Fat32) then
      (<[1%nat := 0x36 + 8 - 2]> [0xEB; 0x58; 0x90], <[4%nat := wrap8 (Z.shiftr (0x36 + 8 + 29 + 0x7c00) 8)]>
        (<[3%nat := wrap8 (Z.land (0x36 + 8 + 29 + 0x7c00) 0xff)]> (splice 0 BOOT_CODE (replicate 448 0))))
     else ([0xEB; 0x58; 0x90], splice 0 BOOT_CODE (replicate 448 0))) = (jmp, code)) as (jmp&code&Hj&Hc&H28&E).
  { destruct (bool_decide _); eexists _, _;
      (split; [|split; [|split; [|done]]]); (by apply bytes_compute; vm_compute) || by vm_compute. }
  rewrite E. exists (mkBoot jmp OEM_NAME b code [0x55; 0xAA]), ft. split; [done|]. by apply new_boot_ok.
Qed.

(** ** A floppy disk *)

Module Floppy.

(** 1440 KB with two sectors per cluster, as it is formatted. *)
Definition floppy_bpb : BiosParameterBlock := new_bpb options_new 2880 512 2 Fat12 1 5.

Definition floppy : BootSector :=
  mkBoot [0xEB; 0x3C; 0x90] OEM_NAME floppy_bpb (splice 0 BOOT_CODE (replicate 448 0)) [0x55; 0xAA].

Definition disk : MemoryMappedDevice := dev_new 0x1000 0x1400 (replicate 1024 0).

Lemma floppy_disk_ok : ok disk.
Proof.
  split; [apply Forall_replicate; unfold word; lia|]. cbn [dstart dend dpos dmem disk dev_new].
  unfold len. rewrite length_replicate. lia.
Defined.

Lemma floppy_word : bpb_word floppy_bpb.
Proof. split; split_and?; try (by apply bytes_compute); by vm_compute. Defined.

Lemma floppy_valid : bpb_valid floppy_bpb.
Proof. destruct (bpb_validate_checks floppy_bpb floppy_word tt) as [[H _]|[_ H]]; [exact H|]. vm_compute in H. discriminate H. Defined.

Lemma floppy_ok : boot_ok floppy.
Proof.
  split.
  - apply floppy_word.
  - intros _. by vm_compute.
  - left. by vm_compute.
  - split_and!; apply bytes_compute; by vm_compute.
  - by vm_compute.
Defined.

Lemma options_new_ok : options_ok options_new 512.
Proof. split; [by vm_compute| |done| |apply bytes_compute; by vm_compute]; cbn; unfold word; lia. Defined.

(** A FAT32 volume of 2^20 sectors whose two tables are said to have 2^31
    sectors each: their sum wraps to 0, and validation accepts it. *)
Definition wrapped : BiosParameterBlock :=
  mkBpb 512 1 32 2 0 0 0xF8 0 0x20 0x40 0 0x100000 0x80000000 0 0 2 1 6 (replicate 12 0) 0x80 0 0x29 0
    (replicate 11 0) (replicate 8 0).

(** Options the builder accepts, for a volume of 64 MB: clusters of 128 KB with
    sectors of 512 bytes, clusters of 512 bytes with sectors of 4096 bytes, and
    no root entries. *)
Lemma wide_cluster_panics : (o ← set_bytes_per_cluster 0x20000 options_new; format_boot_sector o 131072 512 tt) = Panic.
Proof. by vm_compute. Qed.

Lemma narrow_cluster_panics : (o ← set_bytes_per_cluster 512 options_new; format_boot_sector o 16384 4096 tt) = Panic.
Proof. by vm_compute. Qed.

Lemma no_root_entries_refused :
  ('(boot, _) ← format_boot_sector (set_max_root_dir_entries 0 options_new) 2880 512; boot_validate boot) tt =
    Ret (Err ECorruptedFileSystem, tt).
Proof. by vm_compute. Qed.

Lemma wrapped_accepted : bpb_validate wrapped tt = Ret (Ok tt, tt) ∧ total_sectors wrapped < data_start wrapped.
Proof. by split; vm_compute. Qed.
End Floppy.

Lemma boot_sector_roundtrip_witness : ∃ d1 d2,
  (_ ← seek (SStart 512); boot_serialize Floppy.floppy) Floppy.disk = Ret (Ok tt, d1) ∧
  (_ ← seek (SStart 512); boot_deserialize) d1 = Ret (Ok Floppy.floppy, d2).
Proof.
  destruct (boot_sector_roundtrip Floppy.floppy 512 Floppy.disk) as (d1&d2&H1&_&_&H2&_).
  - apply Floppy.floppy_ok.
  - apply Floppy.floppy_disk_ok.
  - lia.
  - by vm_compute.
  - exists d1, d2. split; [exact H1|exact H2].
Defined.

Lemma validation_decides_witness : boot_validate Floppy.floppy tt = Ret (Ok tt, tt).
Proof.
  destruct (validation_decides Floppy.floppy tt Floppy.floppy_word) as [[_ H]|[_ H]]; [exact H|].
  vm_compute in H. discriminate H.
Defined.

Lemma formatted_volume_fits_witness : ∃ boot, format_boot_sector options_new 2880 512 tt = Ret (Ok (boot, Fat12), tt) ∧
  boot_validate boot tt = Ret (Ok tt, tt).
Proof.
  destruct (formatted_volume_fits options_new 2880 512 tt) as [H|(boot&ft&H&_&Hv&_)].
  - unfold word. lia.
  - by left.
  - apply Floppy.options_new_ok.
  - vm_compute in H. discriminate H.
  - exists boot. assert (ft = Fat12) as ->; [|by split]. vm_compute in H. congruence.
Defined.
