(* ===== verification/FatFs.v ===== *)
(** * The mounted FAT volume ([rust-fatfs/src/fs.rs])

    The file system information sector, the file system object with its disk,
    the adapter through which the allocation table reaches the disk, and the
    operations of the object.  The locks around the disk, the information and
    the flags are taken for the length of one access each and never nested the
    other way round; a call here is the sequence of these accesses. *)

From S2P Require Import Prelude Bytes FatIo FatTime FatTable DirEntry BootSector.

(** ** [FsInfoSector] *)

Record FsInfoSector := mkInfo {
  free_cluster_count : option Z;
  next_free_cluster : option Z;
  info_dirty : bool }.

Implicit Types i : FsInfoSector.

Definition LEAD_SIG : Z := 0x41615252.
Definition STRUC_SIG : Z := 0x61417272.
Definition TRAIL_SIG : Z := 0xAA550000.

Definition info_default : FsInfoSector := mkInfo None None false.

Definition info_deserialize {D} `{Stream D} : FM D FsInfoSector :=
  lead_sig ← read_u32_le;
  if negb (lead_sig =? LEAD_SIG) then fail ECorruptedFileSystem
  else
    _ ← read_exact 480;
    struc_sig ← read_u32_le;
    if negb (struc_sig =? STRUC_SIG) then fail ECorruptedFileSystem
    else
      count ← read_u32_le;
      let free_cluster_count := if count =? 0xFFFFFFFF then None else Some count in
      next ← read_u32_le;
      let next_free_cluster :=
        if next =? 0xFFFFFFFF then None
        else if (next =? 0) || (next =? 1) then None
        else Some next in
      _ ← read_exact 12;
      trail_sig ← read_u32_le;
      if negb (trail_sig =? TRAIL_SIG) then fail ECorruptedFileSystem
      else mret (mkInfo free_cluster_count next_free_cluster false).

Definition info_serialize {D} `{Stream D} i : FM D unit :=
  _ ← write_u32_le LEAD_SIG;
  _ ← write_all (replicate 480 0);
  _ ← write_u32_le STRUC_SIG;
  _ ← write_u32_le (default 0xFFFFFFFF (free_cluster_count i));
  _ ← write_u32_le (default 0xFFFFFFFF (next_free_cluster i));
  _ ← write_all (replicate 12 0);
  write_u32_le TRAIL_SIG.

Definition validate_and_fix i (total_clusters : Z) : FsInfoSector :=
  let max_valid_cluster_number := wrap32 (total_clusters + RESERVED_FAT_ENTRIES) in
  mkInfo
    (n ← free_cluster_count i; if total_clusters <? n then None else Some n)
    (n ← next_free_cluster i; if max_valid_cluster_number <? n then None else Some n)
    (info_dirty i).

Definition map_free_clusters (map_fn : Z → Z) i : FsInfoSector :=
  match free_cluster_count i with
  | Some n => mkInfo (Some (map_fn n)) (next_free_cluster i) true
  | None => i
  end.

Definition set_next_free_cluster (cluster : Z) i : FsInfoSector := mkInfo (free_cluster_count i) (Some cluster) true.

Definition set_free_cluster_count (free_cluster_count : Z) i : FsInfoSector :=
  mkInfo (Some free_cluster_count) (next_free_cluster i) true.

(** ** [FileSystem] *)

(** The option that is used here; the time provider is a class, and the
    conversion of names is with the directories. *)
Record FsOptions := mkFsOptions { update_accessed_date : bool }.

Definition fs_options_new : FsOptions := mkFsOptions false.
Definition set_update_accessed_date (enabled : bool) (o : FsOptions) : FsOptions := mkFsOptions enabled.

Record FileSystem (D : Type) := mkFs {
  disk : D;
  options : FsOptions;
  fs_type : FatType;
  fs_bpb : BiosParameterBlock;
  fs_first_data_sector : Z;
  fs_root_dir_sectors : Z;
  fs_total_clusters : Z;
  fs_info : FsInfoSector;
  current_status_flags : FsStatusFlags }.
Arguments mkFs {D}.
Arguments disk {D}.
Arguments options {D}.
Arguments fs_type {D}.
Arguments fs_bpb {D}.
Arguments fs_first_data_sector {D}.
Arguments fs_root_dir_sectors {D}.
Arguments fs_total_clusters {D}.
Arguments fs_info {D}.
Arguments current_status_flags {D}.

#[export] Instance FsStatusFlags_eq_dec : EqDecision FsStatusFlags.
Proof. solve_decision. Defined.

Section fs.
Context {D : Type} `{Stream D}.
Implicit Types fs : FileSystem D.

Definition set_disk fs (d : D) : FileSystem D :=
  mkFs d (options fs) (fs_type fs) (fs_bpb fs) (fs_first_data_sector fs) (fs_root_dir_sectors fs)
    (fs_total_clusters fs) (fs_info fs) (current_status_flags fs).

Definition set_info fs i : FileSystem D :=
  mkFs (disk fs) (options fs) (fs_type fs) (fs_bpb fs) (fs_first_data_sector fs) (fs_root_dir_sectors fs)
    (fs_total_clusters fs) i (current_status_flags fs).

Definition set_flags fs (f : FsStatusFlags) : FileSystem D :=
  mkFs (disk fs) (options fs) (fs_type fs) (fs_bpb fs) (fs_first_data_sector fs) (fs_root_dir_sectors fs)
    (fs_total_clusters fs) (fs_info fs) f.

(** A call on [self.disk.lock()], and a change of [self.fs_info.lock()]. *)
Definition on_disk {A} (x : FM D A) : FM (FileSystem D) A := λ fs,
  match x (disk fs) with
  | Ret (r, d) => Ret (r, set_disk fs d)
  | Panic => Panic
  end.

Definition on_info (f : FsInfoSector → FsInfoSector) : FM (FileSystem D) unit := λ fs,
  Ret (Ok tt, set_info fs (f (fs_info fs))).

Definition put_flags (f : FsStatusFlags) : FM (FileSystem D) unit := λ fs, Ret (Ok tt, set_flags fs f).

(** [FileSystem::new]: the parts of the object, read from the disk at its start. *)
Definition fs_new_parts (opts : FsOptions) : FM D (D → FileSystem D) :=
  boot ← boot_deserialize;
  _ ← boot_validate boot;
  let b := bpb boot in
  root_dir_sectors ← lift (root_dir_sectors b);
  first_data_sector ← lift (first_data_sector b);
  total_clusters ← lift (total_clusters b);
  let fat_type := from_clusters total_clusters in
  fs_info ← (if bool_decide (fat_type = Fat32) then
      _ ← seek (SStart (bytes_from_sectors b (fs_info_sector b)));
      info_deserialize
    else mret info_default);
  let fs_info := if dirty (status_flags b) then mkInfo None (next_free_cluster fs_info) (info_dirty fs_info)
                 else fs_info in
  let fs_info := validate_and_fix fs_info total_clusters in
  mret (λ d, mkFs d opts fat_type b first_data_sector root_dir_sectors total_clusters fs_info (status_flags b)).

Definition fs_new (opts : FsOptions) (storage : D) : outcome (result (FileSystem D)) :=
  match fs_new_parts opts storage with
  | Ret (Ok fs, d) => Ret (Ok (fs d))
  | Ret (Err e, _) => Ret (Err e)
  | Panic => Panic
  end.

Definition fs_volume_id fs : Z := volume_id (fs_bpb fs).

(** The label without the padding at its end. *)
Definition volume_label_as_bytes fs : list Z :=
  let full_label_slice := volume_label (fs_bpb fs) in
  bytes_at 0 (unpadded_len full_label_slice) full_label_slice.

Definition offset_from_sector fs (sector : Z) : Z := bytes_from_sectors (fs_bpb fs) sector.

Definition sector_from_cluster fs (cluster : Z) : Z :=
  wrap32 (fs_first_data_sector fs + sectors_from_clusters (fs_bpb fs) (wrap32 (cluster - RESERVED_FAT_ENTRIES))).

Definition fs_cluster_size fs : Z := cluster_size (fs_bpb fs).

Definition offset_from_cluster fs (cluster : Z) : Z := offset_from_sector fs (sector_from_cluster fs cluster).

Definition bytes_from_clusters fs (clusters : Z) : Z :=
  bytes_from_sectors (fs_bpb fs) (sectors_from_clusters (fs_bpb fs) clusters).

Definition fs_clusters_from_bytes fs (bytes : Z) : outcome Z := clusters_from_bytes (fs_bpb fs) bytes.

(** The byte written is the one of the flags; the rest of the boot sector stays. *)
Definition set_dirty_flag (dirty' : bool) : FM (FileSystem D) unit := λ fs,
  let flags := status_flags (fs_bpb fs) in
  let flags := mkFlags (dirty flags || dirty') (io_error flags) in
  if bool_decide (flags = current_status_flags fs) then Ret (Ok tt, fs)
  else
    let encoded := encode_flags flags in
    let offset := if bool_decide (fs_type fs = Fat32) then 0x041 else 0x025 in
    (_ ← on_disk (seek (SStart offset));
     _ ← on_disk (write_u8 encoded);
     put_flags flags) fs.

(** [FsIoAdapter]: a write that changed something marks the volume dirty. *)
Definition adapter_write (buf : list Z) : FM (FileSystem D) Z :=
  size ← on_disk (write buf);
  _ ← (if 0 <? size then set_dirty_flag true else mret tt);
  mret size.

Definition FsIoAdapter : Stream (FileSystem D) :=
  {| read n := on_disk (read n);
     write := adapter_write;
     seek p := on_disk (seek p);
     flush := on_disk flush;
     unexpected_eof_error := unexpected_eof_error (D := D);
     write_zero_error := write_zero_error (D := D) |}.
End fs.
#[export] Existing Instance FsIoAdapter.

(** The window of the allocation table on a storage [S]. *)
Definition from_sectors {S} (b : BiosParameterBlock) (first_sector sector_count mirrors : Z) (inner : S) : DiskSlice S :=
  slice_new (bytes_from_sectors b first_sector) (bytes_from_sectors b sector_count) mirrors inner.

Definition fat_slice {S} (b : BiosParameterBlock) (io : S) : DiskSlice S :=
  let sectors_per_fat := sectors_per_fat b in
  let '(fat_first_sector, mirrors) :=
    if mirroring_enabled b then (reserved_sectors b, fats b)
    else (wrap32 (reserved_sectors b + wrap32 (active_fat b * sectors_per_fat)), 1) in
  from_sectors b fat_first_sector sectors_per_fat mirrors io.

Section fat.
Context {D : Type} `{Stream D}.
Implicit Types fs : FileSystem D.

(** A call on the table of the volume, [self.fat_slice()]. *)
Definition on_fat_slice {A} (x : FM (DiskSlice (FileSystem D)) A) : FM (FileSystem D) A := λ fs,
  match x (fat_slice (fs_bpb fs) fs) with
  | Ret (r, s) => Ret (r, inner s)
  | Panic => Panic
  end.

(** A call on an iterator, [self.cluster_iter(cluster)]. *)
Definition on_cluster_iter {A} (cluster : Z) (x : FM (ClusterIterator (DiskSlice (FileSystem D))) A)
    : FM (FileSystem D) A := λ fs,
  on_fat_slice (λ s, match x (iter_new s (fs_type fs) cluster) with
                     | Ret (r, it) => Ret (r, fat it)
                     | Panic => Panic
                     end) fs.

(** A chain without a repetition has at most this many clusters. *)
Definition chain_fuel fs : nat := Z.to_nat (fs_total_clusters fs) + 3.

Definition truncate_cluster_chain (cluster : Z) : FM (FileSystem D) unit :=
  fs ← this;
  num_free ← on_cluster_iter cluster (truncate (chain_fuel fs));
  on_info (map_free_clusters (λ n, wrap32 (n + num_free))).

Definition free_cluster_chain (cluster : Z) : FM (FileSystem D) unit :=
  fs ← this;
  num_free ← on_cluster_iter cluster (free (chain_fuel fs));
  on_info (map_free_clusters (λ n, wrap32 (n + num_free))).

Definition fs_alloc_cluster (prev_cluster : option Z) (zero : bool) : FM (FileSystem D) Z :=
  fs ← this;
  let hint := next_free_cluster (fs_info fs) in
  cluster ← on_fat_slice (alloc_cluster (fs_type fs) prev_cluster hint (fs_total_clusters fs));
  _ ← (if zero then
      _ ← on_disk (seek (SStart (offset_from_cluster fs cluster)));
      on_disk (write_zeros (fs_cluster_size fs))
    else mret tt);
  _ ← on_info (set_next_free_cluster (wrap32 (cluster + 1)));
  _ ← on_info (map_free_clusters (λ n, wrap32 (n - 1)));
  mret cluster.

Definition read_status_flags : FM (FileSystem D) FsStatusFlags :=
  fs ← this;
  let bpb_status := status_flags (fs_bpb fs) in
  fat_status ← on_fat_slice (read_fat_flags (fs_type fs));
  mret (mkFlags (dirty bpb_status || dirty fat_status) (io_error bpb_status || io_error fat_status)).

Record FileSystemStats := mkStats { st_cluster_size : Z; st_total_clusters : Z; st_free_clusters : Z }.

Definition recalc_free_clusters : FM (FileSystem D) Z :=
  fs ← this;
  free_cluster_count ← on_fat_slice (count_free_clusters (fs_type fs) (fs_total_clusters fs));
  _ ← on_info (set_free_cluster_count free_cluster_count);
  mret free_cluster_count.

Definition stats : FM (FileSystem D) FileSystemStats :=
  fs ← this;
  free_clusters ← (match free_cluster_count (fs_info fs) with
                   | Some n => mret n
                   | None => recalc_free_clusters
                   end);
  mret (mkStats (fs_cluster_size fs) (fs_total_clusters fs) free_clusters).

Definition flush_fs_info : FM (FileSystem D) unit :=
  fs ← this;
  if bool_decide (fs_type fs = Fat32) && info_dirty (fs_info fs) then
    let fs_info_sector_offset := offset_from_sector fs (b_fs_info_sector (fs_bpb fs)) in
    _ ← on_disk (seek (SStart fs_info_sector_offset));
    _ ← on_disk (info_serialize (fs_info fs));
    on_info (λ i, mkInfo (free_cluster_count i) (next_free_cluster i) false)
  else mret tt.

(** Also what dropping the object does, its error ignored. *)
Definition unmount : FM (FileSystem D) unit :=
  _ ← flush_fs_info;
  set_dirty_flag false.
End fat.

(** ** Formatting the volume *)

Section format.
Context {D : Type} `{Stream D}.

Definition write_zeros_until_end_of_sector (bytes_per_sector : Z) : FM D unit :=
  pos ← seek (SCurrent 0);
  _ ← lift (udiv pos bytes_per_sector);
  let total_bytes_to_write := wrap64 (bytes_per_sector - pos mod bytes_per_sector) in
  if negb (total_bytes_to_write =? bytes_per_sector) then write_zeros total_bytes_to_write else mret tt.

(** A call on the table of a storage that is not mounted yet. *)
Definition on_slice_of {A} (b : BiosParameterBlock) (x : FM (DiskSlice D) A) : FM D A := λ d,
  match x (fat_slice b d) with
  | Ret (r, s) => Ret (r, inner s)
  | Panic => Panic
  end.

Definition format_volume (opts : FormatVolumeOptions) : FM D unit :=
  let bps := default 512 (o_bytes_per_sector opts) in
  total_sectors ← (match o_total_sectors opts with
    | Some total_sectors => mret total_sectors
    | None =>
        total_bytes ← seek (SEnd 0);
        total_sectors_64 ← lift (udiv total_bytes bps);
        _ ← seek (SStart 0);
        if 0xFFFFFFFF <? total_sectors_64 then fail EInvalidInput else mret (wrap32 total_sectors_64)
    end);
  '(boot, fat_type) ← format_boot_sector opts total_sectors bps;
  _ ← catch (boot_validate boot) (λ _, fail EInvalidInput);
  _ ← boot_serialize boot;
  let b := bpb boot in
  let bps := bytes_per_sector b in
  _ ← write_zeros_until_end_of_sector bps;
  _ ← (if is_fat32 b then
      _ ← seek (SStart (bytes_from_sectors b (fs_info_sector b)));
      _ ← info_serialize info_default;
      _ ← write_zeros_until_end_of_sector bps;
      _ ← seek (SStart (bytes_from_sectors b (backup_boot_sector b)));
      _ ← boot_serialize boot;
      write_zeros_until_end_of_sector bps
    else mret tt);
  let reserved_sectors := reserved_sectors b in
  let fat_pos := bytes_from_sectors b reserved_sectors in
  let sectors_per_all_fats := sectors_per_all_fats b in
  _ ← seek (SStart fat_pos);
  _ ← write_zeros (bytes_from_sectors b sectors_per_all_fats);
  clusters ← lift (total_clusters b);
  _ ← on_slice_of b (format_fat fat_type (media b) (bytes_from_sectors b (sectors_per_fat b)) clusters);
  let root_dir_first_sector := wrap32 (reserved_sectors + sectors_per_all_fats) in
  root_dir_sectors ← lift (root_dir_sectors b);
  let root_dir_pos := bytes_from_sectors b root_dir_first_sector in
  _ ← seek (SStart root_dir_pos);
  _ ← write_zeros (bytes_from_sectors b root_dir_sectors);
  _ ← (if bool_decide (fat_type = Fat32) then
      root_dir_first_cluster' ← on_slice_of b (alloc_cluster fat_type None None 1);
      _ ← lift (assert (root_dir_first_cluster' =? root_dir_first_cluster b));
      let first_data_sector := wrap32 (wrap32 (reserved_sectors + sectors_per_all_fats) + root_dir_sectors) in
      let data_sectors_before_root_dir :=
        sectors_from_clusters b (wrap32 (root_dir_first_cluster' - RESERVED_FAT_ENTRIES)) in
      let fat32_root_dir_first_sector := wrap32 (first_data_sector + data_sectors_before_root_dir) in
      _ ← seek (SStart (bytes_from_sectors b fat32_root_dir_first_sector));
      write_zeros (cluster_size b)
    else mret tt);
  _ ← (match o_volume_label opts with
    | Some volume_label =>
        _ ← seek (SStart root_dir_pos);
        entry_serialize (entry_new volume_label VOLUME_ID)
    | None => mret tt
    end);
  _ ← seek (SStart 0);
  mret tt.
End format.

(** ** [LossyOemCpConverter] *)

(** A character is its code point. *)
Definition oem_decode (oem_char : Z) : Z := if oem_char <=? 0x7F then oem_char else 0xFFFD.
Definition oem_encode (uni_char : Z) : option Z := if uni_char <=? 0x7F then Some uni_char else None.
