(* ===== verification/FatFsSpec.v ===== *)
(** * Correctness of the mounted volume

    The information sector reads back as written; a volume is mounted as its
    boot sector says; the allocation table is reached through the adapter as
    through a stream that does not fail and leaves the rest of the disk alone;
    and the operations on clusters do what the table operations do. *)

From S2P Require Import Prelude Bytes FatIo FatIoSpec FatTime FatTable FatTableSpec DirEntry BootSector BootSectorSpec FatFs.

Implicit Types i : FsInfoSector.

(** ** The information sector *)

Definition info_bytes i : list Z :=
  le_split 4 LEAD_SIG ++ replicate 480 0 ++ le_split 4 STRUC_SIG ++
  le_split 4 (default 0xFFFFFFFF (free_cluster_count i)) ++ le_split 4 (default 0xFFFFFFFF (next_free_cluster i)) ++
  replicate 12 0 ++ le_split 4 TRAIL_SIG.

(** The numbers fit, and are none of the values that mean something else. *)
Definition info_ok i : Prop :=
  match free_cluster_count i with Some n => 0 <= n < 0xFFFFFFFF | None => True end ∧
  match next_free_cluster i with Some n => 2 <= n < 0xFFFFFFFF | None => True end.

Lemma zeros_bytes n : bytes n (replicate n 0).
Proof. split; [apply length_replicate|]. apply Forall_replicate. unfold word. lia. Qed.

Lemma lift_Ret {D A B} (a : A) (f : A → FM D B) d : (x ← lift (Ret a); f x) d = f a d.
Proof. done. Qed.

Section info.
Context {D : Type} {HD : Stream D} {SS : StreamSpec D}.

Lemma info_writes i : Writes (info_serialize i) (info_bytes i).
Proof.
  unfold info_serialize, info_bytes.
  apply writes_bind; [apply writes_le|]. apply writes_bind; [apply writes_all, zeros_bytes|].
  do 3 (apply writes_bind; [apply writes_le|]). apply writes_bind; [apply writes_all, zeros_bytes|]. apply writes_le.
Qed.

Lemma info_decodes i : info_ok i → Decodes info_deserialize (info_bytes i)
  (mkInfo (free_cluster_count i) (next_free_cluster i) false).
Proof.
  intros [Hc Hn]. unfold info_deserialize, info_bytes. set (c := free_cluster_count i) in *.
  set (n := next_free_cluster i) in *.
  eapply decodes_bind; [apply (decodes_le 4); unfold word, LEAD_SIG; lia|]. rewrite Z.eqb_refl. cbn [negb].
  eapply decodes_bind; [apply (decodes_bytes 480), zeros_bytes|].
  eapply decodes_bind; [apply (decodes_le 4); unfold word, STRUC_SIG; lia|]. rewrite Z.eqb_refl. cbn [negb].
  eapply decodes_bind; [apply (decodes_le 4); unfold word; destruct c; simpl; lia|].
  eapply decodes_bind; [apply (decodes_le 4); unfold word; destruct n; simpl; lia|].
  eapply decodes_bind; [apply (decodes_bytes 12), zeros_bytes|].
  eapply decodes_last; [apply (decodes_le 4); unfold word, TRAIL_SIG; lia|]. rewrite Z.eqb_refl. cbn [negb].
  f_equal. f_equal.
  - destruct c as [c|]; cbn [default from_option id]; [|done]. destruct (Z.eqb_spec c 0xFFFFFFFF); [lia|done].
  - destruct n as [n|]; cbn [default from_option id]; [|done].
    destruct (Z.eqb_spec n 0xFFFFFFFF), (Z.eqb_spec n 0), (Z.eqb_spec n 1); lia || done.
Qed.

Lemma len_info_bytes i : len (info_bytes i) = 512.
Proof. unfold len, info_bytes. rewrite !length_app, !length_le_split, !length_replicate. done. Qed.

(** What is kept of the information for a volume of [n] clusters. *)
Definition info_kept (clean : bool) i (n : Z) : FsInfoSector :=
  validate_and_fix (mkInfo (if clean then free_cluster_count i else None) (next_free_cluster i) false) n.

(** Mounting a volume whose boot sector is valid. *)
Lemma fs_new_ok (opts : FsOptions) boot i d :
  boot_ok boot → boot_sig boot = [0x55; 0xAA] → bpb_valid (bpb boot) → data_start (bpb boot) < total_sectors (bpb boot) →
  ok d → pos d = 0 → bytes_at 0 512 (data d) = boot_bytes boot → 512 <= len (data d) →
  let b := bpb boot in
  let n := (total_sectors b - data_start b) / sectors_per_cluster b in
  (if is_fat32 b then info_ok i ∧ b_fs_info_sector b * bytes_per_sector b + 512 <= len (data d) ∧
     bytes_at (b_fs_info_sector b * bytes_per_sector b) 512 (data d) = info_bytes i
   else i = info_default) →
  ∃ d', fs_new opts d = Ret (Ok (mkFs d' opts (from_clusters n) b (data_start b) (root_sectors b) n
      (info_kept (negb (dirty (status_flags b))) i n) (status_flags b))) ∧ ok d' ∧ data d' = data d.
Proof.
  intros Hb Hsig Hv Hstart Hd Hpos Hboot Hlen b n Hi. pose proof (bo_bpb _ Hb) as Hw. fold b in Hv, Hw, Hstart.
  pose proof (sector_ne b (bv_sector b Hv)) as Hs0. pose proof (cluster_ne b (bv_cluster b Hv)) as Hc0.
  assert (wrap32 (data_start b) = data_start b) as Hwrap.
  { apply wrap_small. destruct Hw as [(?&?&?&?&?&?&?) (?&?&?) (?&?&?) (?&?) _].
    assert (word 32 (total_sectors b)) by (unfold total_sectors; destruct (_ =? _); unfold word in *; lia).
    assert (0 <= root_sectors b) by (apply Z.div_pos; unfold word in *; lia).
    assert (0 <= sectors_per_fat b) by (unfold sectors_per_fat; destruct (is_fat32 b); unfold word in *; lia).
    unfold word, data_start in *. nia. }
  unfold fs_new, fs_new_parts.
  destruct (boot_decodes boot Hb d Hd) as (d1&H1&Hd1&Hdata1&Hpos1);
    [rewrite Hpos, len_boot_bytes; done|by rewrite Hpos, len_boot_bytes|].
  fstep H1. fold b.
  assert (boot_validate boot d1 = Ret (Ok tt, d1)) as H2.
  { destruct (boot_validate_checks boot Hw d1) as [[_ ?]|[[] _]]; done. }
  fstep H2. rewrite (root_dir_sectors_eq b Hw Hs0), (first_data_sector_eq b Hw Hs0), Hwrap.
  rewrite (total_clusters_eq b Hw Hs0 Hc0) by (by rewrite Hwrap). rewrite Hwrap. fold n. rewrite !lift_Ret.
  destruct (bv_type b Hv) as [Ht _]. rewrite Hwrap in Ht. fold n in Ht.
  assert (∃ d2, (if bool_decide (from_clusters n = Fat32) then
      _ ← seek (SStart (bytes_from_sectors b (fs_info_sector b))); info_deserialize
    else mret info_default) d1 = Ret (Ok (mkInfo (free_cluster_count i) (next_free_cluster i) false), d2) ∧
    ok d2 ∧ data d2 = data d) as (d2&H3&Hd2&Hdata2).
  { destruct (is_fat32 b) eqn:E32.
    - rewrite bool_decide_eq_true_2 by (by apply Ht). destruct Hi as (Hi&Hlen2&Hbytes).
      unfold fs_info_sector, bytes_from_sectors. pose proof (bw_16 _ Hw) as (?&_). pose proof (bw_fat32 _ Hw) as (_&_&_&_&?&_).
      rewrite wrap_small by (unfold word in *; nia).
      destruct (seek_ok d1 (b_fs_info_sector b * bytes_per_sector b) Hd1) as (s1&Hs&Hs1&Hsd&Hsp);
        [rewrite Hdata1; unfold word in *; nia|].
      fstep Hs. destruct (info_decodes i Hi s1 Hs1) as (d2&Hr&Hd2&Hdata2&_).
      { rewrite Hsd, Hsp, Hdata1, len_info_bytes. lia. }
      { by rewrite Hsd, Hsp, Hdata1, len_info_bytes. }
      exists d2. split; [exact Hr|]. split; [done|congruence].
    - rewrite bool_decide_eq_false_2 by (intros E%Ht; done). subst i. by exists d1. }
  fstep H3. exists d2. split; [|done]. unfold mret, FM_ret. do 2 f_equal. f_equal.
  unfold info_kept. by destruct (dirty (status_flags b)).
Qed.
End info.

(** ** A window that leaves the rest alone

    The contract of [DiskSlice] with, beside the contents of the window, what
    is fixed: its place, and all bytes outside of it. *)

Section framed.
Context {S : Type} {HS : Stream S} {SS : StreamSpec S}.
Implicit Types s : DiskSlice S.
Variables (b sz m : Z) (base : list Z).

(** All copies of the window have the same bytes. *)
Definition in_step (l : list Z) : Prop := ∀ k, 0 <= k < m → bytes_at (b + k * sz) sz l = bytes_at b sz l.

Definition outside (l : list Z) : Prop :=
  len l = len base ∧
  (∀ q k, 0 <= q → 0 <= k → q + k <= b ∨ b + m * sz <= q → bytes_at q k l = bytes_at q k base) ∧
  (in_step base → in_step l).

Definition framed_ok s : Prop :=
  slice_ok s ∧ (begin s, slice_size s, mirrors s) = (b, sz, m) ∧ outside (data (inner s)).

Program Definition framed : StreamSpec (DiskSlice S) :=
  {| ok := framed_ok; data := mirror 0; pos := offset |}.
Next Obligation. intros s (Hs&_). by apply (bytes_ok (StreamSpec := DiskSlice_spec)). Qed.
Next Obligation. intros s (Hs&_). by apply (len_ok (StreamSpec := DiskSlice_spec)). Qed.
Next Obligation. intros s (Hs&_). by apply (pos_ok (StreamSpec := DiskSlice_spec)). Qed.
Next Obligation.
  intros s n (Hs&Hb&Ho) Hn. destruct (slice_read_ok s n Hs Hn) as (bs&s'&Hr&Hs'&Hb'&Hd&Hle&Hbs&Hoff&Hp).
  exists bs, s'. split; [done|]. split; [split; [done|split; [congruence|by rewrite Hd]]|].
  unfold mirror. injection Hb' as Hb1 Hb2 _. rewrite Hb1, Hb2, Hd. do 4 (split; [done|]). intros ? Hlt. apply Hp; [done|].
  destruct Hs as (?&?&?&?&?). rewrite len_bytes_at in Hlt; nia.
Qed.
Next Obligation.
  intros s bs (Hs&Hb&Ho) Hbs Hfit. pose proof Hs as (?&?&?&?&?). pose proof (len_nonneg bs).
  assert (len (mirror 0 s) = slice_size s) as Hl by (unfold mirror; rewrite len_bytes_at; nia).
  destruct (slice_write_ok s bs Hs Hbs) as (s'&Hw&Hs'&Hb'&Hoff&Hlen&Hmir&Hout).
  eexists _, s'. split; [exact Hw|]. split; [|split; [lia|split; [apply Hmir; lia|split; [done|lia]]]].
  split; [done|]. split; [congruence|]. destruct Ho as (Hol&Hoo&Hos). split; [congruence|].
  injection Hb as Hb1 Hb2 Hb3. split.
  - intros q k Hq Hk Hqk. rewrite Hout; [by apply Hoo|done|done|]. by rewrite Hb1, Hb2, Hb3.
  - intros Hst%Hos i Hi. injection Hb' as Hb1' Hb2' _. pose proof (Hmir i) as Hm1. pose proof (Hmir 0) as Hm0. unfold mirror in Hm1, Hm0.
    rewrite Z.mul_0_l, Z.add_0_r, ?Hb1', ?Hb2', ?Hb1, ?Hb2, ?Hb3 in *. rewrite Hm1, Hm0 by lia. f_equal. rewrite Z.add_0_r. by apply Hst.
Qed.
Next Obligation.
  intros s p (Hs&Hb&Ho) Hp. destruct (seek_ok (StreamSpec := DiskSlice_spec) s p Hs Hp) as (s'&Hr&Hs'&Hd&Hpos).
  pose proof Hr as Hr'. unfold seek in Hr'. simpl in Hr'. unfold slice_seek in Hr'.
  destruct (slice_size s <? p); [discriminate|]. injection Hr' as <-. eexists. split; [exact Hr|]. done.
Qed.
Next Obligation.
  intros s x (Hs&Hb&Ho) Hp. destruct (seek_cur_ok (StreamSpec := DiskSlice_spec) s x Hs Hp) as (s'&Hr&Hs'&Hd&Hpos).
  pose proof Hr as Hr'. unfold seek in Hr'. simpl in Hr'. unfold slice_seek in Hr'.
  destruct (checked_offset (offset s) x); [|discriminate].
  destruct (slice_size s <? z); [discriminate|]. injection Hr' as _ <-. eexists. split; [exact Hr|]. done.
Qed.
Next Obligation.
  intros s (Hs&Hb&Ho). pose proof Hs as (Hd&?&?&?&?). destruct (flush_ok (inner s) Hd) as (d'&Hf&Hd'&Hdata&_).
  unfold flush; simpl. unfold on_inner. rewrite Hf. eexists. split; [done|].
  unfold framed_ok, slice_ok, mirror; simpl. rewrite Hdata. split; [split; [split_and!; done || lia|done]|done].
Qed.
End framed.

(** ** The adapter *)

Section adapter.
Context {D : Type} {HD : Stream D} {SS : StreamSpec D}.
Implicit Types fs : FileSystem D.

(** The adapter without the mark: enough where nothing is written. *)
Definition plain_io : Stream (FileSystem D) :=
  {| read n := on_disk (read n); write bs := on_disk (write bs); seek p := on_disk (seek p); flush := on_disk flush;
     unexpected_eof_error := unexpected_eof_error (D := D); write_zero_error := write_zero_error (D := D) |}.

(** A volume whose mark is set already. *)
Definition marked fs : Prop := current_status_flags fs = mkFlags true (io_error (status_flags (fs_bpb fs))).

#[export] Instance marked_dec fs : Decision (marked fs).
Proof. unfold marked. apply _. Defined.

Lemma set_dirty_marked fs : marked fs → set_dirty_flag true fs = Ret (Ok tt, fs).
Proof.
  intros Hm. unfold set_dirty_flag. rewrite orb_true_r. cbn [io_error]. by rewrite bool_decide_eq_true_2.
Qed.

Lemma adapter_write_marked fs d bs : marked fs → adapter_write bs (set_disk fs d) = on_disk (write bs) (set_disk fs d).
Proof.
  intros Hm. unfold adapter_write, mbind, FM_bind, on_disk. cbn [disk set_disk].
  destruct (write bs d) as [[[n|e] d']|]; [|done..]. destruct (0 <? n); [|done].
  rewrite set_dirty_marked; [done|]. done.
Qed.

Lemma on_disk_Ret {A} (x : FM D A) fs r d : x (disk fs) = Ret (r, d) → on_disk x fs = Ret (r, set_disk fs d).
Proof. unfold on_disk. by intros ->. Qed.

(** The file systems that differ from [fs0] in their disk only. *)
Definition same_fs (fs0 fs : FileSystem D) : Prop := ok (disk fs) ∧ fs = set_disk fs0 (disk fs).

Section io.
Context (HS : Stream (FileSystem D)) (fs0 : FileSystem D).
Hypothesis Hread : ∀ n, read (Stream := HS) n = on_disk (read n).
Hypothesis Hseek : ∀ p, seek (Stream := HS) p = on_disk (seek p).
Hypothesis Hflush : flush (Stream := HS) = on_disk flush.
Hypothesis Hwrite : ∀ bs d, write (Stream := HS) bs (set_disk fs0 d) = on_disk (write bs) (set_disk fs0 d).

Lemma same_fs_set fs d : same_fs fs0 fs → ok d → same_fs fs0 (set_disk fs d).
Proof. intros [_ ->] Hd. done. Qed.

#[program] Definition io_spec : StreamSpec (FileSystem D) :=
  {| ok := same_fs fs0; data fs := data (disk fs); pos fs := pos (disk fs) |}.
Next Obligation. intros fs [Hd _]. by apply bytes_ok. Qed.
Next Obligation. intros fs [Hd _]. by apply len_ok. Qed.
Next Obligation. intros fs [Hd _]. by apply pos_ok. Qed.
Next Obligation.
  intros fs n Hfs Hn. rewrite Hread. destruct (read_ok (disk fs) n (proj1 Hfs) Hn) as (bs&d&Hr&Hd&?).
  exists bs, (set_disk fs d). split; [by apply on_disk_Ret|]. split; [by apply same_fs_set|done].
Qed.
Next Obligation.
  intros fs bs Hfs Hbs Hfit. destruct (write_ok (disk fs) bs (proj1 Hfs) Hbs Hfit) as (n&d&Hr&Hd&?).
  exists n, (set_disk fs d). split; [|split; [by apply same_fs_set|done]].
  rewrite (proj2 Hfs), Hwrite. by apply on_disk_Ret.
Qed.
Next Obligation.
  intros fs p Hfs Hp. rewrite Hseek. destruct (seek_ok (disk fs) p (proj1 Hfs) Hp) as (d&Hr&Hd&?).
  exists (set_disk fs d). split; [by apply on_disk_Ret|]. split; [by apply same_fs_set|done].
Qed.
Next Obligation.
  intros fs p Hfs Hp. rewrite Hseek. destruct (seek_cur_ok (disk fs) p (proj1 Hfs) Hp) as (d&Hr&Hd&?).
  exists (set_disk fs d). split; [by apply on_disk_Ret|]. split; [by apply same_fs_set|done].
Qed.
Next Obligation.
  intros fs Hfs. rewrite Hflush. destruct (flush_ok (disk fs) (proj1 Hfs)) as (d&Hr&Hd&?).
  exists (set_disk fs d). split; [by apply on_disk_Ret|]. split; [by apply same_fs_set|done].
Qed.
End io.

Definition plain_spec fs0 : StreamSpec (FileSystem D) (HD := plain_io) :=
  io_spec plain_io fs0 (λ n, eq_refl) (λ p, eq_refl) eq_refl (λ bs d, eq_refl).

Definition marked_spec fs0 (Hm : marked fs0) : StreamSpec (FileSystem D) (HD := FsIoAdapter) :=
  io_spec FsIoAdapter fs0 (λ n, eq_refl) (λ p, eq_refl) eq_refl (λ bs d, adapter_write_marked fs0 d bs Hm).

(** Reading an entry does not depend on how the adapter writes. *)
Lemma next_plain (it : ClusterIterator (DiskSlice (FileSystem D))) :
  next (H := DiskSlice_stream (H := FsIoAdapter)) it = next (H := DiskSlice_stream (H := plain_io)) it.
Proof. destruct it as [f [] c e]; reflexivity. Qed.
End adapter.

(** ** A mounted volume *)

(** Where the table and the clusters are. *)
Definition fat_begin (b : BiosParameterBlock) : Z :=
  (b_reserved_sectors b + (if mirroring_enabled b then 0 else active_fat b * sectors_per_fat b)) * bytes_per_sector b.
Definition fat_size (b : BiosParameterBlock) : Z := sectors_per_fat b * bytes_per_sector b.
Definition fat_mirrors (b : BiosParameterBlock) : Z := if mirroring_enabled b then fats b else 1.
Definition csize (b : BiosParameterBlock) : Z := sectors_per_cluster b * bytes_per_sector b.
Definition cluster_off (b : BiosParameterBlock) (c : Z) : Z :=
  (data_start b + (c - 2) * sectors_per_cluster b) * bytes_per_sector b.

Record vol_ok {D} `{StreamSpec D} (fs : FileSystem D) : Prop := {
  vo_disk : ok (disk fs);
  vo_word : bpb_word (fs_bpb fs);
  vo_valid : bpb_valid (fs_bpb fs);
  vo_active : mirroring_enabled (fs_bpb fs) = false → active_fat (fs_bpb fs) < fats (fs_bpb fs);
  vo_type : fs_type fs = from_clusters (fs_total_clusters fs);
  vo_total : 1 <= fs_total_clusters fs <= max_clusters (fs_type fs);
  vo_entries : (fs_total_clusters fs + 2) * bits_per_fat_entry (fs_type fs) <= fat_size (fs_bpb fs) * 8;
  vo_first : fs_first_data_sector fs = data_start (fs_bpb fs);
  vo_clusters : data_start (fs_bpb fs) + fs_total_clusters fs * sectors_per_cluster (fs_bpb fs) <= total_sectors (fs_bpb fs);
  vo_len : total_sectors (fs_bpb fs) * bytes_per_sector (fs_bpb fs) <= len (data (disk fs));
  vo_hint : ∀ h, next_free_cluster (fs_info fs) = Some h → 2 <= h }.

(** The table, and the bytes of a cluster. *)
Definition fat_data {D} `{StreamSpec D} (fs : FileSystem D) : list Z :=
  bytes_at (fat_begin (fs_bpb fs)) (fat_size (fs_bpb fs)) (data (disk fs)).
Definition cluster_data {D} `{StreamSpec D} (fs : FileSystem D) (c : Z) : list Z :=
  bytes_at (cluster_off (fs_bpb fs) c) (csize (fs_bpb fs)) (data (disk fs)).

Section volume.
Context {D : Type} {HD : Stream D} {SS : StreamSpec D}.
Implicit Types fs : FileSystem D.

(** The numbers of the layout, without overflow. *)
Record numbers fs : Prop := {
  nu_sector : 512 <= bytes_per_sector (fs_bpb fs) <= 4096;
  nu_cluster : 1 <= sectors_per_cluster (fs_bpb fs) <= 128;
  nu_reserved : 1 <= b_reserved_sectors (fs_bpb fs);
  nu_fats : 1 <= fats (fs_bpb fs);
  nu_spf : 0 <= sectors_per_fat (fs_bpb fs);
  nu_root : 0 <= root_sectors (fs_bpb fs);
  nu_active : 0 <= active_fat (fs_bpb fs);
  nu_total : total_sectors (fs_bpb fs) < 2 ^ 32 }.

Lemma vol_numbers fs : vol_ok fs → numbers fs.
Proof.
  intros [_ Hw Hv _ _ _ _ _ _ _ _]. set (b := fs_bpb fs) in *.
  pose proof (bv_sector b Hv) as Hs. pose proof (bv_cluster b Hv) as Hc. pose proof (bv_fats b Hv).
  destruct (bv_reserved b Hv) as [Hr _].
  assert (512 <= bytes_per_sector b <= 4096) by (clear -Hs; set_unfold; lia).
  assert (1 <= sectors_per_cluster b <= 128) by (clear -Hc; set_unfold; lia).
  destruct Hw as [(?&?&?&?&?&?&?) (?&?&?) (?&?&?) (?&?&_) _].
  split; fold b; try lia; unfold word in *.
  - lia.
  - unfold sectors_per_fat. destruct (is_fat32 b); lia.
  - apply Z.div_pos; lia.
  - unfold active_fat. destruct (mirroring_enabled b); [lia|]. apply Z.land_nonneg. lia.
  - unfold total_sectors. destruct (_ =? _); lia.
Qed.

(** The parts lie one after the other: what is before the table, the tables,
    the clusters, the end of the disk. *)
Record places fs : Prop := {
  pl_fat : 512 <= fat_begin (fs_bpb fs) ∧ 0 <= fat_size (fs_bpb fs) ∧ 1 <= fat_mirrors (fs_bpb fs);
  pl_after : fat_begin (fs_bpb fs) + fat_mirrors (fs_bpb fs) * fat_size (fs_bpb fs) <= cluster_off (fs_bpb fs) 2;
  pl_cluster c : data_cluster (fs_total_clusters fs) c →
    cluster_off (fs_bpb fs) 2 <= cluster_off (fs_bpb fs) c ∧
    cluster_off (fs_bpb fs) c + csize (fs_bpb fs) <= len (data (disk fs)) ∧
    offset_from_cluster fs c = cluster_off (fs_bpb fs) c;
  pl_apart c c' : c < c' → cluster_off (fs_bpb fs) c + csize (fs_bpb fs) <= cluster_off (fs_bpb fs) c';
  pl_csize : fs_cluster_size fs = csize (fs_bpb fs) ∧ 512 <= csize (fs_bpb fs) <= 2 ^ 19 }.

Lemma vol_places fs : vol_ok fs → places fs.
Proof.
  intros Hv. destruct (vol_numbers fs Hv) as [H1 H2 H3 H4 H5 H6 H7 H8].
  destruct Hv as [_ _ _ Hact _ Ht _ Hf Hc Hl _].
  set (b := fs_bpb fs) in *. set (n := fs_total_clusters fs) in *. set (bps := bytes_per_sector b) in *.
  set (spc := sectors_per_cluster b) in *. set (spf := sectors_per_fat b) in *.
  assert (0 <= fats b * spf) by nia.
  split; fold b; unfold fat_begin, fat_size, fat_mirrors, cluster_off, csize; fold bps spc spf.
  - destruct (mirroring_enabled b); [split; [|split]; nia|].
    assert (0 <= active_fat b * spf) by nia. split; [|split]; nia.
  - change (2 - 2) with 0. unfold data_start. fold spf. destruct (mirroring_enabled b); [nia|].
    assert ((active_fat b + 1) * spf <= fats b * spf) by (apply Z.mul_le_mono_nonneg_r; [done|]; specialize (Hact eq_refl); lia).
    nia.
  - intros c Hcc. unfold data_cluster in Hcc. fold n in Hcc. assert (0 <= (c - 2) * spc <= (n - 1) * spc) as Hoff.
    { split; [apply Z.mul_nonneg_nonneg|apply Z.mul_le_mono_nonneg_r]; lia. }
    assert (0 <= data_start b) by (unfold data_start; fold spf; lia).
    assert ((data_start b + (c - 2) * spc + spc) * bps <= total_sectors b * bps) by (apply Z.mul_le_mono_nonneg_r; lia).
    split; [apply Z.mul_le_mono_nonneg_r; lia|]. split; [lia|].
    unfold offset_from_cluster, offset_from_sector, bytes_from_sectors, sector_from_cluster, sectors_from_clusters.
    unfold RESERVED_FAT_ENTRIES. rewrite Hf. fold b bps spc.
    assert (n <= n * spc) by nia.
    rewrite (wrap_small 32 (c - 2)), (wrap_small 32 ((c - 2) * spc)), (wrap_small 32), wrap_small
      by (unfold word; nia). done.
  - intros c c' Hlt. rewrite <- Z.mul_add_distr_r. apply Z.mul_le_mono_nonneg_r; [lia|].
    assert ((c - 2 + 1) * spc <= (c' - 2) * spc) by (apply Z.mul_le_mono_nonneg_r; lia). lia.
  - unfold fs_cluster_size, cluster_size. fold b bps spc. split; [|nia]. apply wrap_small. unfold word. nia.
Qed.

(** Changes that keep the layout. *)
Lemma vol_set_disk fs d : vol_ok fs → ok d → len (data d) = len (data (disk fs)) → vol_ok (set_disk fs d).
Proof. intros [] Hd Hl. split; try done. cbn [disk set_disk fs_bpb]. by rewrite Hl. Qed.

Lemma vol_set_info fs i : vol_ok fs → (∀ h, next_free_cluster i = Some h → 2 <= h) → vol_ok (set_info fs i).
Proof. intros [] Hi. by split. Qed.

Lemma vol_set_flags fs f : vol_ok fs → vol_ok (set_flags fs f).
Proof. intros []. by split. Qed.

(** *** The table through the adapter *)

Lemma fat_slice_eq fs : vol_ok fs →
  fat_slice (fs_bpb fs) fs = mkSlice (fat_begin (fs_bpb fs)) (fat_size (fs_bpb fs)) 0 (fat_mirrors (fs_bpb fs)) fs.
Proof.
  intros Hv. destruct (vol_numbers fs Hv) as [H1 H2 H3 H4 H5 H6 H7 H8].
  destruct Hv as [_ Hw Hva Hact _ Ht _ _ Hc _ _]. set (b := fs_bpb fs) in *.
  assert (fats b * sectors_per_fat b < 2 ^ 32) as Hff.
  { unfold data_start in Hc. nia. }
  unfold fat_slice, from_sectors, slice_new, fat_begin, fat_size, fat_mirrors, bytes_from_sectors, reserved_sectors.
  destruct (bw_16 b Hw) as (_&Hr&_). unfold word in Hr.
  assert (sectors_per_fat b < 2 ^ 32) by nia.
  rewrite (wrap_small 64 (sectors_per_fat b * _)) by (unfold word; nia).
  destruct (mirroring_enabled b) eqn:E.
  - rewrite wrap_small by (unfold word; nia). by rewrite Z.add_0_r.
  - assert ((active_fat b + 1) * sectors_per_fat b <= fats b * sectors_per_fat b)
      by (apply Z.mul_le_mono_nonneg_r; [done|]; specialize (Hact eq_refl); lia).
    assert (data_start b <= total_sectors b) by nia. unfold data_start in *.
    rewrite (wrap_small 32 (active_fat b * _)), (wrap_small 32), wrap_small by (unfold word; nia). done.
Qed.

Lemma fat_data_len fs : vol_ok fs → len (fat_data fs) = fat_size (fs_bpb fs).
Proof.
  intros Hv. pose proof (vol_places fs Hv) as [(Hf1&Hf2&Hf3) Ha Hc _ _]. destruct (Hc 2) as (_&Hl&_).
  { pose proof (vo_total fs Hv). unfold data_cluster. lia. }
  destruct (vol_numbers fs Hv) as [H1 H2 _ _ _ _ _ _].
  assert (0 <= csize (fs_bpb fs)) by (unfold csize; nia).
  unfold fat_data. apply len_bytes_at; nia.
Qed.

Lemma vol_table fs : vol_ok fs → table (fs_type fs) (fs_total_clusters fs) (fat_data fs).
Proof.
  intros Hv. pose proof (fat_data_len fs Hv) as Hlen. pose proof (vol_places fs Hv) as [(Hf1&Hf2&Hf3) _ _ _ _].
  split; [apply vo_total, Hv|]. intros c Hcc. unfold fits. rewrite Hlen.
  pose proof (vo_entries fs Hv) as He. pose proof (vo_total fs Hv) as Ht.
  unfold cluster_limit, max_clusters, FAT16_MIN_CLUSTERS, FAT32_MIN_CLUSTERS, FAT32_MAX_CLUSTERS in *.
  destruct (fs_type fs); cbn [entry_off entry_len bits_per_fat_entry] in *; (split; [lia|]); dlia.
Qed.

(** What an operation on the table may change of the disk. *)
Definition fat_only fs (d : D) : Prop :=
  ok d ∧ outside (fat_begin (fs_bpb fs)) (fat_size (fs_bpb fs)) (fat_mirrors (fs_bpb fs)) (data (disk fs)) (data d).

Lemma fat_only_cluster fs d c : vol_ok fs → fat_only fs d → data_cluster (fs_total_clusters fs) c →
  cluster_data (set_disk fs d) c = cluster_data fs c.
Proof.
  intros Hv (_&_&Ho&_) Hc. pose proof (vol_places fs Hv) as [(?&?&?) Ha Hcl _ (_&?&_)]. destruct (Hcl c Hc) as (?&?&_).
  unfold cluster_data. cbn [disk set_disk fs_bpb]. apply Ho; [nia|lia|right; lia].
Qed.

Lemma fat_only_vol fs d : vol_ok fs → fat_only fs d → vol_ok (set_disk fs d).
Proof. intros Hv (Hd&Hl&_). by apply vol_set_disk. Qed.

(** A call proved of any stream that does not fail, made on the table: [R]
    relates its result to the table after it. *)
Lemma on_slice_ok {A} (HS : Stream (FileSystem D)) (SP : StreamSpec (FileSystem D) (HD := HS)) fs
    (x : FM (DiskSlice (FileSystem D)) A) (R : result A → list Z → Prop) :
  vol_ok fs → (∀ fs', ok (StreamSpec := SP) fs' ↔ same_fs fs fs') →
  (∀ fs', data (StreamSpec := SP) fs' = data (disk fs')) →
  (∀ (FR : StreamSpec (DiskSlice (FileSystem D)) (HD := DiskSlice_stream (H := HS))) s, ok s → data s = fat_data fs →
     ∃ r s', x s = Ret (r, s') ∧ ok s' ∧ R r (data s')) →
  ∃ r s' d, x (fat_slice (fs_bpb fs) fs) = Ret (r, s') ∧ inner s' = set_disk fs d ∧ fat_only fs d ∧
    R r (fat_data (set_disk fs d)).
Proof.
  intros Hv Hok Hdata Hx. rewrite (fat_slice_eq fs Hv).
  destruct (vol_places fs Hv) as [(Hf1&Hf2&Hf3) Ha Hc _ (_&Hcs&_)]. destruct (Hc 2) as (_&Hl&_).
  { pose proof (vo_total fs Hv). unfold data_cluster. lia. }
  set (s0 := mkSlice _ _ _ _ fs).
  destruct (Hx (framed (SS := SP) (fat_begin (fs_bpb fs)) (fat_size (fs_bpb fs)) (fat_mirrors (fs_bpb fs)) (data (disk fs))) s0)
    as (r&s'&Hr&(Hs'&Hb&Ho)&HR).
  - split; [|split; [done|]].
    + unfold slice_ok. rewrite Hdata. cbn. split; [|lia]. apply Hok. split; [apply Hv|by destruct fs].
    + rewrite Hdata. by split.
  - cbn. unfold mirror. rewrite Hdata. cbn. by rewrite Z.add_0_r.
  - destruct Hs' as (Hi&_). apply Hok in Hi as [Hd Heq]. exists r, s', (disk (inner s')). rewrite Hdata in Ho.
    split; [done|]. split; [done|]. split; [done|]. cbn in HR. unfold mirror in HR. rewrite Hdata, Z.mul_0_l, Z.add_0_r in HR.
    injection Hb as Hb1 Hb2 Hb3. rewrite Hb1, Hb2 in HR. done.
Qed.

(** Looking up the next cluster needs no mark. *)
Lemma fs_next_ok fs c : vol_ok fs → fits (fs_type fs) (fat_data fs) c →
  ∃ d, on_cluster_iter c next fs
         = Ret (Ok (match value (fs_type fs) (fat_data fs) c with Data n => Some (Ok n) | _ => None end), set_disk fs d) ∧
    fat_only fs d ∧ fat_data (set_disk fs d) = fat_data fs.
Proof.
  intros Hv Hc.
  destruct (on_slice_ok plain_io (plain_spec fs) fs (λ s, match next (H := DiskSlice_stream (H := plain_io)) (iter_new s (fs_type fs) c) with
      | Ret (r, it) => Ret (r, fat it) | Panic => Panic end)
    (λ r l, r = Ok (match value (fs_type fs) (fat_data fs) c with Data n => Some (Ok n) | _ => None end) ∧ l = fat_data fs))
    as (r&s'&d&Hr&Hi&Hd&->&Hl); [done|done|done| |].
  { intros FR s Hs Hdata. destruct (next_ok (SS := FR) (fs_type fs) s c Hs) as (f'&Hn&Hf'&Hd'); [by rewrite Hdata|].
    unfold iter_new. rewrite Hn. cbn [fat]. rewrite Hdata in *. eexists _, f'. split; [done|]. split; [done|]. by split. }
  exists d. split; [|done]. unfold on_cluster_iter, on_fat_slice. rewrite next_plain, Hr. by rewrite Hi.
Qed.

(** What no operation changes. *)
Definition kept fs fs' : Prop :=
  fs_bpb fs' = fs_bpb fs ∧ fs_type fs' = fs_type fs ∧ fs_total_clusters fs' = fs_total_clusters fs ∧
  options fs' = options fs ∧ len (data (disk fs')) = len (data (disk fs)).

(** The clusters other than those of [P] have the same bytes. *)
Definition clusters_kept fs fs' (P : Z → Prop) : Prop :=
  ∀ c, data_cluster (fs_total_clusters fs) c → ¬ P c → cluster_data fs' c = cluster_data fs c.

Lemma kept_refl fs : kept fs fs.
Proof. done. Qed.

Lemma kept_trans fs1 fs2 fs3 : kept fs1 fs2 → kept fs2 fs3 → kept fs1 fs3.
Proof. intros (?&?&?&?&?) (?&?&?&?&?). split_and!; congruence. Qed.

Lemma fat_only_kept fs d : fat_only fs d → kept fs (set_disk fs d).
Proof. by intros (_&?&_). Qed.

(** The bytes of the disk that are neither in the tables nor in [P] are as they
    were, and tables that had the same bytes have the same bytes. *)
Definition in_fats (b : BiosParameterBlock) (p : Z) : Prop :=
  fat_begin b <= p < fat_begin b + fat_mirrors b * fat_size b.
Definition fats_in_step fs : Prop :=
  in_step (fat_begin (fs_bpb fs)) (fat_size (fs_bpb fs)) (fat_mirrors (fs_bpb fs)) (data (disk fs)).
Definition disk_kept fs fs' (P : Z → Prop) : Prop :=
  (∀ p, 0 <= p → ¬ in_fats (fs_bpb fs) p → ¬ P p → bytes_at p 1 (data (disk fs')) = bytes_at p 1 (data (disk fs))) ∧
  (fats_in_step fs → fats_in_step fs').

Lemma disk_kept_same fs fs' P : fs_bpb fs' = fs_bpb fs → data (disk fs') = data (disk fs) → disk_kept fs fs' P.
Proof. intros Hb Hd. split; [by rewrite Hd|]. unfold fats_in_step. by rewrite Hb, Hd. Qed.

Lemma disk_kept_trans fs1 fs2 fs3 (P Q R : Z → Prop) : fs_bpb fs2 = fs_bpb fs1 → disk_kept fs1 fs2 P → disk_kept fs2 fs3 Q →
  (∀ p, P p → R p) → (∀ p, Q p → R p) → disk_kept fs1 fs3 R.
Proof.
  intros Hb [H1 Hs1] [H2 Hs2] HP HQ. split; [|tauto]. intros p Hp Hf HR.
  rewrite H2, H1; [done|done|done|by intros ?%HP|done|by rewrite Hb|by intros ?%HQ].
Qed.

Lemma fat_only_disk fs fs' : fs_bpb fs' = fs_bpb fs → fat_only fs (disk fs') → disk_kept fs fs' (λ _, False).
Proof.
  intros Hb (_&_&Ho&Hs). split; [|unfold fats_in_step; by rewrite Hb]. intros p Hp Hf _. apply Ho; [done|done|]. unfold in_fats in Hf. lia.
Qed.

(** A write away from the tables. *)
Lemma splice_disk fs d q bs (P : Z → Prop) : vol_ok fs → 0 <= q → 0 < len bs → q + len bs <= len (data (disk fs)) →
  data d = splice q bs (data (disk fs)) → (∀ p, q <= p < q + len bs → P p) →
  q + len bs <= fat_begin (fs_bpb fs) ∨ fat_begin (fs_bpb fs) + fat_mirrors (fs_bpb fs) * fat_size (fs_bpb fs) <= q →
  disk_kept fs (set_disk fs d) P.
Proof.
  intros Hv Hq Hn Hl Hd HP Ha. destruct (vol_places fs Hv) as [(Hf1&Hf2&Hf3) _ _ _ _].
  assert (∀ p k, 0 <= p → 0 <= k → p + k <= q ∨ q + len bs <= p → bytes_at p k (data d) = bytes_at p k (data (disk fs))) as Hs.
  { intros p k ???. rewrite Hd. apply bytes_at_splice_disjoint; lia. }
  split.
  - intros p Hp _ HnP. cbn [disk set_disk]. apply Hs; [done|done|]. destruct (decide (q <= p < q + len bs)) as [Hin|]; [by apply HP in Hin|lia].
  - intros Hst i Hi. specialize (Hst i Hi). cbn [fs_bpb disk set_disk] in *. assert (0 <= i * fat_size (fs_bpb fs)) by nia.
    assert (fat_size (fs_bpb fs) * (i + 1) <= fat_mirrors (fs_bpb fs) * fat_size (fs_bpb fs)) by nia.
    rewrite !Hs; [exact Hst|lia..].
Qed.

(** Setting the mark touches one byte before the tables, that of the mark. *)
Definition mark_at fs : Z := if bool_decide (fs_type fs = Fat32) then 0x41 else 0x25.
Definition mark_of fs : Z := encode_flags (mkFlags true (io_error (status_flags (fs_bpb fs)))).

Lemma mark_at_range fs : 0 < mark_at fs < 512.
Proof. unfold mark_at. destruct (bool_decide _); lia. Qed.

Lemma set_dirty_ok fs : vol_ok fs → ∃ fs', set_dirty_flag true fs = Ret (Ok tt, fs') ∧ vol_ok fs' ∧ marked fs' ∧
  kept fs fs' ∧ fs_info fs' = fs_info fs ∧ fat_data fs' = fat_data fs ∧ clusters_kept fs fs' (λ _, False) ∧
  disk_kept fs fs' (λ p, p = mark_at fs) ∧
  data (disk fs') = if bool_decide (marked fs) then data (disk fs) else splice (mark_at fs) [mark_of fs] (data (disk fs)).
Proof.
  intros Hv. destruct (bool_decide_reflect (mkFlags true (io_error (status_flags (fs_bpb fs))) = current_status_flags fs)) as [E|E].
  { symmetry in E. exists fs. split; [by apply set_dirty_marked|]. do 6 (split; [done|]). split; [by apply disk_kept_same|].
    by rewrite bool_decide_eq_true_2. }
  destruct (vol_places fs Hv) as [(Hf1&Hf2&Hf3) Ha Hc _ (_&Hcs&_)]. destruct (Hc 2) as (_&Hl&_).
  { pose proof (vo_total fs Hv). unfold data_cluster. lia. }
  unfold set_dirty_flag. rewrite orb_true_r. cbn [io_error]. rewrite bool_decide_eq_false_2 by done. cbv zeta.
  fold (mark_at fs). pose proof (mark_at_range fs) as Ho. set (o := mark_at fs) in *.
  assert (fat_size (fs_bpb fs) <= fat_mirrors (fs_bpb fs) * fat_size (fs_bpb fs)) by nia.
  destruct (seek_ok (disk fs) o (vo_disk fs Hv)) as (d1&Hs&Hd1&Hdata1&Hp1); [lia|].
  fstep (on_disk_Ret (seek (SStart o)) fs _ _ Hs).
  destruct (write_le_ok d1 1 (encode_flags (mkFlags true (io_error (status_flags (fs_bpb fs))))) Hd1) as (d2&Hw&Hd2&Hdata2&_);
    [rewrite Hdata1, Hp1; lia|].
  fstep (on_disk_Ret (write_u8 (encode_flags (mkFlags true (io_error (status_flags (fs_bpb fs)))))) (set_disk fs d1) _ _ Hw).
  rewrite Hdata1, Hp1 in Hdata2. eexists. split; [done|].
  assert (le_split 1 (encode_flags (mkFlags true (io_error (status_flags (fs_bpb fs))))) = [mark_of fs]) as Hmk
    by (unfold mark_of; by destruct (io_error (status_flags (fs_bpb fs)))).
  assert (∀ p k, 512 <= p → 0 <= k → bytes_at p k (data d2) = bytes_at p k (data (disk fs))) as Hsame.
  { intros p k Hp Hk. rewrite Hdata2. apply bytes_at_splice_disjoint; [lia|rewrite len_le_split|..]; try lia.
    right. rewrite len_le_split. lia. }
  assert (len (data d2) = len (data (disk fs))) as Hlen by (by rewrite Hdata2, len_splice).
  split; [apply vol_set_flags; by apply (vol_set_disk fs d2)|]. split; [done|]. split; [by split_and!|]. split; [done|].
  split; [by apply (Hsame (fat_begin (fs_bpb fs)))|]. rewrite Hmk in Hdata2. split; [|split].
  - intros c Hcc _. destruct (Hc c Hcc) as (?&?&_). apply (Hsame (cluster_off (fs_bpb fs) c)); cbn [fs_bpb set_flags set_disk]; nia.
  - assert (len [mark_of fs] = 1) as Hl1 by done.
    apply (splice_disk fs d2 o [mark_of fs]); rewrite ?Hl1; [done|lia|lia|lia|exact Hdata2|intros; lia|left; lia].
  - rewrite bool_decide_eq_false_2 by (intros E'; by rewrite E' in E). exact Hdata2.
Qed.

(** *** Allocation *)

Lemma fs_alloc_ok fs prev : vol_ok fs → marked fs →
  (∀ p, prev = Some p → data_cluster (fs_total_clusters fs) p ∧ value (fs_type fs) (fat_data fs) p ≠ Free) →
  ∃ fs', vol_ok fs' ∧ marked fs' ∧ kept fs fs' ∧ clusters_kept fs fs' (λ _, False) ∧ fat_only fs (disk fs') ∧
    match next_free (fs_type fs) (fat_data fs) (next_free_cluster (fs_info fs)) (fs_total_clusters fs) with
    | Some c =>
        fs_alloc_cluster prev false fs = Ret (Ok c, fs') ∧
        value (fs_type fs) (fat_data fs') c = EndOfChain ∧
        (∀ p, prev = Some p → value (fs_type fs) (fat_data fs') p = Data c) ∧
        (∀ c', data_cluster (fs_total_clusters fs) c' → c' ≠ c → prev ≠ Some c' →
           value (fs_type fs) (fat_data fs') c' = value (fs_type fs) (fat_data fs) c')
    | None => fs_alloc_cluster prev false fs = Ret (Err ENotEnoughSpace, fs') ∧ fat_data fs' = fat_data fs
    end.
Proof.
  intros Hv Hm Hprev. pose proof (vol_table fs Hv) as Ht. set (t := fs_type fs) in *. set (n := fs_total_clusters fs) in *.
  set (hint := next_free_cluster (fs_info fs)) in *.
  destruct (on_slice_ok FsIoAdapter (marked_spec fs Hm) fs (alloc_cluster t prev hint n)
    (λ r l, match next_free t (fat_data fs) hint n with
      | Some c => r = Ok c ∧ value t l c = EndOfChain ∧ (∀ p, prev = Some p → value t l p = Data c) ∧
          (∀ c', fits t (fat_data fs) c' → c' ≠ c → prev ≠ Some c' → value t l c' = value t (fat_data fs) c')
      | None => r = Err ENotEnoughSpace ∧ l = fat_data fs end))
    as (r&s'&d&Hr&Hi&Hd&HR); [done|done|done| |].
  { intros FR s Hs Hdata. destruct (alloc_cluster_ok (SS := FR) t s prev hint n Hs) as (s'&Hs'&_&Hres).
    { by rewrite Hdata. } { apply vo_hint, Hv. } { by rewrite Hdata. }
    rewrite Hdata in Hres. destruct (next_free t (fat_data fs) hint n) as [c|].
    - destruct Hres as (Hr&?&?&?). by exists (Ok c), s'.
    - destruct Hres as (Hr&?). by exists (Err ENotEnoughSpace), s'. }
  pose proof (fat_only_vol fs d Hv Hd) as Hv1.
  assert (on_fat_slice (alloc_cluster t prev hint n) fs = Ret (r, set_disk fs d)) as Hslice
    by (unfold on_fat_slice; by rewrite Hr, Hi).
  unfold fs_alloc_cluster. change (fs_type fs) with t. change (fs_total_clusters fs) with n.
  destruct (next_free t (fat_data fs) hint n) as [c|] eqn:E.
  - destruct HR as (->&Hc&Hp&Hk).
    destruct (next_free_Some _ _ _ _ _ (vo_hint fs Hv) E) as [Hcc _]. unfold data_cluster in Hcc.
    pose proof (vo_total fs Hv) as Hn. fold n in Hn. destruct (table_end _ _ _ Ht) as (_&Hlim&_). unfold cluster_limit in Hlim.
    rewrite (FM_step this _ fs fs fs eq_refl). fold hint t n. fstep Hslice.
    set (j := set_next_free_cluster (wrap32 (c + 1)) (fs_info fs)).
    exists (set_info (set_disk fs d) (map_free_clusters (λ k, wrap32 (k - 1)) j)).
    split; [|split; [done|split; [by apply (fat_only_kept fs d)|split]]].
    + apply vol_set_info; [done|]. intros h Hh. unfold map_free_clusters in Hh.
      assert (next_free_cluster j = Some h) as Hh' by (by destruct (free_cluster_count j)). injection Hh' as <-.
      rewrite wrap_small by (unfold word; lia). lia.
    + intros x Hx _. by apply (fat_only_cluster fs d).
    + split; [exact Hd|]. split; [done|]. split; [done|]. split; [done|]. intros c' Hc'. apply Hk, Ht. done.
  - destruct HR as (->&Hl). exists (set_disk fs d). split; [done|]. split; [done|]. split; [by apply fat_only_kept|].
    split; [intros x Hx _; by apply fat_only_cluster|]. split; [exact Hd|]. split; [|done].
    rewrite (FM_step this _ fs fs fs eq_refl). by rewrite (FM_step_err _ _ _ _ _ Hslice).
Qed.

(** *** Chains freed and cut *)

(** A call on an iterator of a volume that carries the mark. *)
Lemma marked_iter_ok {A} fs c (x : FM (ClusterIterator (DiskSlice (FileSystem D))) A) (R : result A → list Z → Prop) :
  vol_ok fs → marked fs →
  (∀ (FR : StreamSpec (DiskSlice (FileSystem D)) (HD := DiskSlice_stream (H := FsIoAdapter))) s, ok s → data s = fat_data fs →
     ∃ r it, x (iter_new s (fs_type fs) c) = Ret (r, it) ∧ ok (fat it) ∧ R r (data (fat it))) →
  ∃ r fs', on_cluster_iter c x fs = Ret (r, fs') ∧ vol_ok fs' ∧ marked fs' ∧ kept fs fs' ∧ fs_info fs' = fs_info fs ∧
    clusters_kept fs fs' (λ _, False) ∧ R r (fat_data fs') ∧ fat_only fs (disk fs') ∧ fs_root_dir_sectors fs' = fs_root_dir_sectors fs.
Proof.
  intros Hv Hm Hx.
  destruct (on_slice_ok FsIoAdapter (marked_spec fs Hm) fs
    (λ s, match x (iter_new s (fs_type fs) c) with Ret (r, it) => Ret (r, fat it) | Panic => Panic end) R)
    as (r&s'&d&Hr&Hi&Hd&HR); [done|done|done| |].
  { intros FR s Hs Hdata. destruct (Hx FR s Hs Hdata) as (r&it&Hrun&Hok&HR). exists r, (fat it). by rewrite Hrun. }
  exists r, (set_disk fs d). split; [unfold on_cluster_iter, on_fat_slice; by rewrite Hr, Hi|].
  split; [by apply fat_only_vol|]. split; [done|]. split; [by apply fat_only_kept|]. split; [done|].
  split; [intros y Hy _; by apply fat_only_cluster|]. split; [exact HR|by split].
Qed.

(** The free count of the information sector after clusters were freed. *)
Lemma more_free_ok fs n : vol_ok fs → marked fs →
  ∃ fs', on_info (map_free_clusters (λ k, wrap32 (k + n))) fs = Ret (Ok tt, fs') ∧ vol_ok fs' ∧ marked fs' ∧ kept fs fs' ∧
    clusters_kept fs fs' (λ _, False) ∧ fat_data fs' = fat_data fs ∧ disk fs' = disk fs ∧ fs_root_dir_sectors fs' = fs_root_dir_sectors fs.
Proof.
  intros Hv Hm. eexists. split; [done|]. split; [|done]. apply vol_set_info; [done|]. intros h Hh. apply (vo_hint fs Hv).
  unfold map_free_clusters in Hh. by destruct (free_cluster_count _).
Qed.

Lemma chain_data_length fs c cs : vol_ok fs → chain (fs_type fs) (fat_data fs) c cs →
  (∀ x, x ∈ cs → data_cluster (fs_total_clusters fs) x) → Z.of_nat (length cs) <= fs_total_clusters fs.
Proof.
  intros Hv Hch Hd. pose proof (vo_total fs Hv). pose proof (chain_NoDup _ _ _ _ Hch) as Hnd.
  assert (length cs <= length (seqZ 2 (fs_total_clusters fs)))%nat as H'; [|rewrite length_seqZ in H'; lia].
  apply submseteq_length, list.NoDup_submseteq; [done|]. intros x Hx%Hd. apply elem_of_seqZ. unfold data_cluster in Hx. lia.
Qed.

Lemma fs_free_ok fs c cs : vol_ok fs → marked fs → chain (fs_type fs) (fat_data fs) c cs →
  (∀ x, x ∈ cs → data_cluster (fs_total_clusters fs) x ∧ value (fs_type fs) (fat_data fs) x ≠ Free) →
  ∃ fs', free_cluster_chain c fs = Ret (Ok tt, fs') ∧ vol_ok fs' ∧ marked fs' ∧ kept fs fs' ∧
    clusters_kept fs fs' (λ _, False) ∧ freed (fs_type fs) (fat_data fs) (fat_data fs') cs ∧ fat_only fs (disk fs') ∧
    fs_root_dir_sectors fs' = fs_root_dir_sectors fs.
Proof.
  intros Hv Hm Hch Hcs. pose proof (vol_table fs Hv) as Ht.
  pose proof (chain_data_length fs c cs Hv Hch (λ x Hx, proj1 (Hcs x Hx))) as Hl.
  destruct (marked_iter_ok fs c (free (chain_fuel fs)) (λ r l, r = Ok (Z.of_nat (length cs)) ∧ freed (fs_type fs) (fat_data fs) l cs))
    as (r&fs1&Hr&Hv1&Hm1&Hk1&_&Hc1&(->&Hf)&Ho1&Hs1); [done|done| |].
  { intros FR s Hs Hd. destruct (free_ok (SS := FR) (fs_type fs) s c cs (fs_total_clusters fs) (chain_fuel fs))
      as (f'&Hrun&Hf'&Hfr&_); rewrite ?Hd; try done; [unfold chain_fuel; lia|].
    rewrite Hd in Hfr. by exists (Ok (Z.of_nat (length cs))), (mkIter f' (fs_type fs) None false). }
  destruct (more_free_ok fs1 (Z.of_nat (length cs)) Hv1 Hm1) as (fs2&H2&Hv2&Hm2&Hk2&Hc2&Ht2&Ho2&Hs2).
  exists fs2. unfold free_cluster_chain. rewrite (FM_step this _ fs fs fs eq_refl). fstep Hr.
  split; [exact H2|]. split; [done|]. split; [done|]. split; [by eapply kept_trans|]. split; [|rewrite Ht2, Ho2, Hs2; by split_and!].
  intros x Hx Hn. rewrite Hc2; [by apply Hc1| |done]. destruct Hk1 as (_&_&E&_). by rewrite E.
Qed.

Lemma fs_truncate_ok fs c cs : vol_ok fs → marked fs → chain (fs_type fs) (fat_data fs) c (c :: cs) →
  (∀ x, x ∈ c :: cs → data_cluster (fs_total_clusters fs) x) →
  ∃ fs', truncate_cluster_chain c fs = Ret (Ok tt, fs') ∧ vol_ok fs' ∧ marked fs' ∧ kept fs fs' ∧
    clusters_kept fs fs' (λ _, False) ∧ value (fs_type fs) (fat_data fs') c = EndOfChain ∧
    (∀ x, x ∈ cs → value (fs_type fs) (fat_data fs') x = Free) ∧
    (∀ x, fits (fs_type fs) (fat_data fs) x → x ≠ c → x ∉ cs →
       value (fs_type fs) (fat_data fs') x = value (fs_type fs) (fat_data fs) x).
Proof.
  intros Hv Hm Hch Hcs. pose proof (chain_data_length fs c _ Hv Hch Hcs) as Hl. simpl in Hl.
  destruct (table_end _ _ _ (vol_table fs Hv)) as (_&Hlim&_). unfold cluster_limit in Hlim.
  destruct (marked_iter_ok fs c (FatTable.truncate (chain_fuel fs)) (λ r l, r = Ok (Z.of_nat (length cs)) ∧
      value (fs_type fs) l c = EndOfChain ∧ (∀ x, x ∈ cs → value (fs_type fs) l x = Free) ∧
      (∀ x, fits (fs_type fs) (fat_data fs) x → x ≠ c → x ∉ cs → value (fs_type fs) l x = value (fs_type fs) (fat_data fs) x)))
    as (r&fs1&Hr&Hv1&Hm1&Hk1&_&Hc1&(->&H1&H2&H3)&_); [done|done| |].
  { intros FR s Hs Hd. destruct (truncate_ok (SS := FR) (fs_type fs) s c cs (chain_fuel fs))
      as (f'&Hrun&Hf'&_&He&Hf&Ho&_); rewrite ?Hd; try done; [unfold chain_fuel; lia|lia|].
    rewrite Hd in Ho. by exists (Ok (Z.of_nat (length cs))), (mkIter f' (fs_type fs) None false). }
  destruct (more_free_ok fs1 (Z.of_nat (length cs)) Hv1 Hm1) as (fs2&Hr2&Hv2&Hm2&Hk2&Hc2&Ht2&_).
  exists fs2. unfold truncate_cluster_chain. rewrite (FM_step this _ fs fs fs eq_refl). fstep Hr.
  split; [exact Hr2|]. split; [done|]. split; [done|]. split; [by eapply kept_trans|]. split.
  { intros x Hx Hn. rewrite Hc2; [by apply Hc1| |done]. destruct Hk1 as (_&_&E&_). by rewrite E. }
  by rewrite Ht2.
Qed.
End volume.

(** ** Mounting *)

Section mount.
Context {D : Type} {HD : Stream D} {SS : StreamSpec D}.

(** Mounting reads the boot sector at the start of the disk and, on FAT32, the
    information sector it names, and makes a file system with the block as it was
    written, the type of its number of clusters, the layout of its parts, and the
    free count and hint that are in range, the count only of a clean volume.
    The file system meets the driver's invariant when the table has an entry for
    every cluster, the disk has the volume's sectors, the active table is one of
    them and the number of clusters is one its type allows: what validation
    only warns of or leaves unchecked. *)
Theorem mount_reads_volume (opts : FsOptions) boot i (d : D) :
  boot_ok boot → boot_sig boot = [0x55; 0xAA] → bpb_valid (bpb boot) → data_start (bpb boot) < total_sectors (bpb boot) →
  ok d → pos d = 0 → bytes_at 0 512 (data d) = boot_bytes boot → 512 <= len (data d) → info_ok i →
  let b := bpb boot in
  let n := (total_sectors b - data_start b) / sectors_per_cluster b in
  (if is_fat32 b then b_fs_info_sector b * bytes_per_sector b + 512 <= len (data d) ∧
     bytes_at (b_fs_info_sector b * bytes_per_sector b) 512 (data d) = info_bytes i
   else i = info_default) →
  ∃ d', let fs := mkFs d' opts (from_clusters n) b (data_start b) (root_sectors b) n
          (info_kept (negb (dirty (status_flags b))) i n) (status_flags b) in
    fs_new opts d = Ret (Ok fs) ∧ ok d' ∧ data d' = data d ∧
    ((mirroring_enabled b = false → active_fat b < fats b) → 1 <= n <= max_clusters (from_clusters n) →
     (n + 2) * bits_per_fat_entry (from_clusters n) <= fat_size b * 8 →
     total_sectors b * bytes_per_sector b <= len (data d) → vol_ok fs).
Proof.
  intros Hb Hsig Hv Hs Hd Hp Hboot Hlen Hi b n Hinfo.
  destruct (fs_new_ok opts boot i d Hb Hsig Hv Hs Hd Hp Hboot Hlen) as (d'&Hnew&Hd'&Hdata).
  { fold b. destruct (is_fat32 b); [by destruct Hinfo|done]. }
  exists d'. split; [exact Hnew|]. split; [done|]. split; [done|]. intros Ha Hn He Hl. split; cbn; try done.
  - apply (bo_bpb _ Hb).
  - assert (0 < sectors_per_cluster b) as Hc.
    { pose proof (bv_cluster b Hv) as Hc. rewrite !elem_of_cons, elem_of_nil in Hc. lia. }
    pose proof (Z.mul_div_le (total_sectors b - data_start b) (sectors_per_cluster b) Hc). unfold n. lia.
  - by rewrite Hdata.
  - intros h. destruct Hi as [_ Hi]. destruct (next_free_cluster i) as [x|]; cbn; [|done].
    destruct (_ <? x); [done|]. intros [= <-]. lia.
Qed.
End mount.

(** The 1440 KB floppy, its first sectors. *)
Lemma mount_reads_volume_witness : ∃ fs : FileSystem MemDisk,
  fs_new fs_options_new (mkMem (boot_bytes Floppy.floppy ++ replicate 512 0) 0) = Ret (Ok fs) ∧
  fs_type fs = Fat12 ∧ fs_total_clusters fs = 1418.
Proof.
  destruct (mount_reads_volume fs_options_new Floppy.floppy info_default (mkMem (boot_bytes Floppy.floppy ++ replicate 512 0) 0)) as (d'&H&_).
  - exact Floppy.floppy_ok.
  - reflexivity.
  - exact Floppy.floppy_valid.
  - by vm_compute.
  - split; [|split; by vm_compute]. apply (bytes_compute 1024); [by vm_compute|by vm_compute].
  - reflexivity.
  - by vm_compute.
  - by vm_compute.
  - split; exact I.
  - reflexivity.
  - eexists. split; [exact H|]. by split; vm_compute.
Defined.
