(* ===== verification/DiskFile.v ===== *)
(** * Files of the FAT driver ([rust-fatfs/src/file.rs])

    An open file: its first cluster, the cluster its position is in, the
    position, the editor of its directory entry (none for the root directory)
    and the file system, which an open file refers to and here carries.  The
    file is itself a stream. *)

From S2P Require Import Prelude Bytes FatIo FatTime FatTable DirEntry BootSector FatFs.

Definition MAX_FILE_SIZE : Z := 2 ^ 32 - 1.

Record File (D : Type) := mkFile {
  first_cluster : option Z;
  current_cluster : option Z;
  f_offset : Z;
  f_entry : option DirEntryEditor;
  f_fs : FileSystem D }.
Arguments mkFile {D}.
Arguments first_cluster {D}.
Arguments current_cluster {D}.
Arguments f_offset {D}.
Arguments f_entry {D}.
Arguments f_fs {D}.

(** The remainder of a division. *)
Definition urem (a b : Z) : outcome Z := if b =? 0 then Panic else Ret (a mod b).

(** The loop over the clusters to skip: the cluster reached, and how many there
    were when the chain ends before. *)
Fixpoint skip_clusters {S} `{Stream S} (n : nat) (i cluster : Z) : FM (ClusterIterator S) (Z * option Z) :=
  match n with
  | O => mret (cluster, None)
  | Datatypes.S n =>
      r ← next;
      match r with
      | Some (Ok cluster) => skip_clusters n (i + 1) cluster
      | Some (Err err) => fail err
      | None => mret (cluster, Some (wrap32 (i + 1)))
      end
  end.

Section file.
Context {D : Type} `{Stream D} {TP : TimeProvider}.
Implicit Types f : File D.

Definition file_new (first_cluster : option Z) (entry : option DirEntryEditor) (fs : FileSystem D) : File D :=
  mkFile first_cluster None 0 entry fs.

Definition with_first f c : File D := mkFile c (current_cluster f) (f_offset f) (f_entry f) (f_fs f).
Definition with_entry f e : File D := mkFile (first_cluster f) (current_cluster f) (f_offset f) e (f_fs f).
Definition with_position f c o : File D := mkFile (first_cluster f) c o (f_entry f) (f_fs f).

Definition put_file f : FM (File D) unit := λ _, Ret (Ok tt, f).

(** A call on the file system, and [if let Some(ref mut e) = self.entry]. *)
Definition on_fs {A} (x : FM (FileSystem D) A) : FM (File D) A := λ f,
  match x (f_fs f) with
  | Ret (r, fs) => Ret (r, mkFile (first_cluster f) (current_cluster f) (f_offset f) (f_entry f) fs)
  | Panic => Panic
  end.

Definition on_entry (g : DirEntryEditor → DirEntryEditor) : FM (File D) unit := λ f,
  Ret (Ok tt, with_entry f (option_map g (f_entry f))).

Definition size f : option Z := e ← f_entry f; entry_size (ed_data e).

Definition is_dir f : bool := match f_entry f with Some e => entry_is_dir (ed_data e) | None => false end.

Definition bytes_left_in_file f : option Z := s ← size f; Some (wrap32 (s - f_offset f)).

Definition truncate : FM (File D) unit :=
  f ← this;
  _ ← (match f_entry f with
       | Some _ =>
           on_entry (λ e,
             let e := editor_set_size e (f_offset f) in
             if f_offset f =? 0 then editor_set_first_cluster e None (fs_type (f_fs f)) else e)
       | None => fpanic
       end);
  match current_cluster f with
  | Some current_cluster => on_fs (truncate_cluster_chain current_cluster)
  | None =>
      match first_cluster f with
      | Some n =>
          _ ← on_fs (free_cluster_chain n);
          f ← this;
          put_file (with_first f None)
      | None => mret tt
      end
  end.

Definition file_abs_pos f : outcome (option Z) :=
  match current_cluster f with
  | Some n =>
      let cluster_size := fs_cluster_size (f_fs f) in
      offset_mod_cluster_size ← urem (f_offset f) cluster_size;
      let offset_in_cluster := if offset_mod_cluster_size =? 0 then cluster_size else offset_mod_cluster_size in
      Ret (Some (wrap64 (offset_from_cluster (f_fs f) n + offset_in_cluster)))
  | None => Ret None
  end.

Definition flush_dir_entry : FM (File D) unit :=
  f ← this;
  match f_entry f with
  | Some e =>
      e ← on_fs (on_disk (editor_flush e));
      f ← this;
      put_file (with_entry f (Some e))
  | None => mret tt
  end.

Definition file_flush : FM (File D) unit :=
  _ ← flush_dir_entry;
  on_fs (on_disk flush).

Definition file_set_created (dt : DateTime) : FM (File D) unit := on_entry (λ e, editor_set_created e dt).
Definition file_set_accessed (d : Date) : FM (File D) unit := on_entry (λ e, editor_set_accessed e d).
Definition file_set_modified (dt : DateTime) : FM (File D) unit := on_entry (λ e, editor_set_modified e dt).

Definition set_first_cluster (cluster : Z) : FM (File D) unit :=
  f ← this;
  _ ← put_file (with_first f (Some cluster));
  on_entry (λ e, editor_set_first_cluster e (Some cluster) (fs_type (f_fs f))).

Definition update_dir_entry_after_write : FM (File D) unit :=
  f ← this;
  let offset := f_offset f in
  on_entry (λ e,
    let e := editor_set_modified e get_current_date_time in
    if match entry_size (ed_data e) with Some s => s <? offset | None => false end
    then editor_set_size e offset else e).

(** The cluster after the current one, or the first. *)
Definition next_cluster : FM (File D) (option Z) :=
  f ← this;
  match current_cluster f with
  | None => mret (first_cluster f)
  | Some n =>
      r ← on_fs (on_cluster_iter n next);
      match r with
      | Some (Err err) => fail err
      | Some (Ok n) => mret (Some n)
      | None => mret None
      end
  end.

(** [Read::read] *)
Definition file_read (buf_len : Z) : FM (File D) (list Z) :=
  f ← this;
  let cluster_size := fs_cluster_size (f_fs f) in
  offset_in_cluster ← lift (urem (f_offset f) cluster_size);
  current_cluster_opt ← (if offset_in_cluster =? 0 then next_cluster else mret (current_cluster f));
  match current_cluster_opt with
  | None => mret []
  | Some current_cluster =>
      let bytes_left_in_cluster := wrap32 (cluster_size - offset_in_cluster) in
      let bytes_left_in_file := default bytes_left_in_cluster (bytes_left_in_file f) in
      let read_size := Z.min (Z.min buf_len bytes_left_in_cluster) bytes_left_in_file in
      if read_size =? 0 then mret []
      else
        let offset_in_fs := wrap64 (offset_from_cluster (f_fs f) current_cluster + offset_in_cluster) in
        bs ← on_fs (on_disk (_ ← seek (SStart offset_in_fs); read read_size));
        if len bs =? 0 then mret []
        else
          f ← this;
          _ ← put_file (with_position f (Some current_cluster) (wrap32 (f_offset f + len bs)));
          _ ← (if update_accessed_date (options (f_fs f))
               then on_entry (λ e, editor_set_accessed e get_current_date) else mret tt);
          mret bs
  end.

(** The cluster to write in at the start of a cluster: the next one or a new one. *)
Definition cluster_for_write : FM (File D) Z :=
  next ← next_cluster;
  match next with
  | Some n => mret n
  | None =>
      f ← this;
      new_cluster ← on_fs (fs_alloc_cluster (current_cluster f) (is_dir f));
      _ ← (match first_cluster f with
           | None => set_first_cluster new_cluster
           | Some _ => mret tt
           end);
      mret new_cluster
  end.

(** [Write::write] *)
Definition file_write (buf : list Z) : FM (File D) Z :=
  f ← this;
  let cluster_size := fs_cluster_size (f_fs f) in
  offset_in_cluster ← lift (urem (f_offset f) cluster_size);
  let bytes_left_in_cluster := wrap32 (cluster_size - offset_in_cluster) in
  let bytes_left_until_max_file_size := wrap32 (MAX_FILE_SIZE - f_offset f) in
  let write_size := Z.min (len buf) bytes_left_in_cluster in
  let write_size := Z.min write_size bytes_left_until_max_file_size in
  if write_size =? 0 then mret 0
  else
    _ ← on_fs (set_dirty_flag true);
    current_cluster ← (if offset_in_cluster =? 0 then cluster_for_write
                       else match current_cluster f with Some n => mret n | None => fpanic end);
    let offset_in_fs := wrap64 (offset_from_cluster (f_fs f) current_cluster + offset_in_cluster) in
    written_bytes ← on_fs (on_disk (_ ← seek (SStart offset_in_fs); write (take (Z.to_nat write_size) buf)));
    if written_bytes =? 0 then mret 0
    else
      f ← this;
      _ ← put_file (with_position f (Some current_cluster) (wrap32 (f_offset f + written_bytes)));
      _ ← update_dir_entry_after_write;
      mret written_bytes.

(** [u32::try_from] *)
Definition checked_u32 (x : Z) : option Z := if (0 <=? x) && (x <? 2 ^ 32) then Some x else None.

(** Where [seek] is asked to go, if that is a [u32]. *)
Definition new_offset_opt f (pos : SeekFrom) : option Z :=
  match pos with
  | SCurrent x => n ← checked_i64 (f_offset f + x); checked_u32 n
  | SStart x => checked_u32 x
  | SEnd o => s ← size f; n ← checked_i64 (s + o); checked_u32 n
  end.

(** The move to another position, clamped to the size already. *)
Definition move_to (new_offset : Z) : FM (File D) Z :=
  f ← this;
  new_offset_in_clusters ← lift (fs_clusters_from_bytes (f_fs f) new_offset);
  old_offset_in_clusters ← lift (fs_clusters_from_bytes (f_fs f) (f_offset f));
  '(new_cluster, new_offset) ←
    (if new_offset =? 0 then mret (None, new_offset)
     else if new_offset_in_clusters =? old_offset_in_clusters then mret (current_cluster f, new_offset)
     else
       match first_cluster f with
       | Some first_cluster =>
           let clusters_to_skip := wrap32 (new_offset_in_clusters - 1) in
           '(cluster, ended) ← on_fs (on_cluster_iter first_cluster
             (skip_clusters (Z.to_nat clusters_to_skip) 0 first_cluster));
           mret (Some cluster, match ended with
                               | Some n => wrap32 (bytes_from_clusters (f_fs f) n)
                               | None => new_offset
                               end)
       | None => mret (None, 0)
       end);
  f ← this;
  _ ← put_file (with_position f new_cluster new_offset);
  mret new_offset.

(** [Seek::seek] *)
Definition file_seek (pos : SeekFrom) : FM (File D) Z :=
  f ← this;
  match new_offset_opt f pos with
  | None => fail EInvalidInput
  | Some new_offset =>
      let new_offset := match size f with
                        | Some size => if size <? new_offset then size else new_offset
                        | None => new_offset
                        end in
      if new_offset =? f_offset f then mret (f_offset f) else move_to new_offset
  end.

#[export] Instance File_stream : Stream (File D) :=
  {| read := file_read; write := file_write; seek := file_seek; flush := file_flush;
     unexpected_eof_error := EUnexpectedEof; write_zero_error := EWriteZero |}.
End file.
