(* ===== verification/DiskFileSpec.v ===== *)
(** * Correctness of files on a FAT volume

    A file is the first bytes, as many as its entry says, of the clusters of
    its chain.  Reads, writes and seeks of the driver keep the driver's own
    invariant and meet the contract [FileStream] of a growing byte sequence;
    a write changes no other chain and no byte of another cluster. *)

From S2P Require Import Prelude Bytes FatIo FatIoSpec FatTime FatTable FatTableSpec DirEntry DirEntrySpec BootSector.
From S2P Require Import BootSectorSpec BaseFile FatFile FatFileSpec FatFs FatFsSpec DiskFile.

(** ** Clusters one after the other *)

Lemma in_take {A} (x : A) n l : x ∈ take n l → x ∈ l.
Proof. intros (j&Hj&_)%elem_of_take. by eapply list_elem_of_lookup_2. Qed.

Lemma in_drop {A} (x : A) n l : x ∈ drop n l → x ∈ l.
Proof. intros (j&Hj)%list_elem_of_lookup. rewrite lookup_drop in Hj. by eapply list_elem_of_lookup_2. Qed.

Section blocks.
Context (k : Z).
Implicit Types g h : Z → list Z.

(** The bytes of the clusters [cs], each [k] bytes long. *)
Definition blocks (h : Z → list Z) (cs : list Z) : list Z := cs ≫= h.

Definition sized (h : Z → list Z) (cs : list Z) : Prop := ∀ c, c ∈ cs → len (h c) = k.

Lemma len_blocks h cs : sized h cs → len (blocks h cs) = Z.of_nat (length cs) * k.
Proof.
  induction cs as [|c cs IH]; intros Hs; [done|]. cbn [blocks mbind list_bind length].
  rewrite len_app. fold (blocks h cs). rewrite IH by (intros x Hx; apply Hs; set_solver). rewrite (Hs c) by set_solver. lia.
Qed.

Lemma blocks_app h cs1 cs2 : blocks h (cs1 ++ cs2) = blocks h cs1 ++ blocks h cs2.
Proof. unfold blocks. by rewrite bind_app. Qed.

(** Around the cluster at index [i]. *)
Lemma blocks_at h cs i c : cs !! i = Some c →
  blocks h cs = blocks h (take i cs) ++ h c ++ blocks h (drop (S i) cs).
Proof.
  intros Hi. rewrite <- (take_drop_middle cs i c Hi) at 1. by rewrite blocks_app.
Qed.

Lemma len_blocks_take h cs i c : sized h cs → cs !! i = Some c → len (blocks h (take i cs)) = Z.of_nat i * k.
Proof.
  intros Hs Hi. apply lookup_lt_Some in Hi as Hlt. rewrite len_blocks.
  - rewrite length_take. f_equal. lia.
  - intros x Hx. apply Hs. by eapply in_take.
Qed.

(** Bytes inside one cluster. *)
Lemma blocks_bytes_at g cs i c o n : sized g cs → cs !! i = Some c → 0 <= o → o + n <= k → 0 <= n →
  bytes_at (Z.of_nat i * k + o) n (blocks g cs) = bytes_at o n (g c).
Proof.
  intros Hs Hi Ho Hn Hn0. rewrite (blocks_at _ _ _ _ Hi), <- (len_blocks_take g cs i c Hs Hi), bytes_at_app_r by done.
  apply bytes_at_app_l; [done|]. rewrite (Hs c); [done|]. by eapply list_elem_of_lookup_2.
Qed.

Lemma blocks_ext g h cs : (∀ c, c ∈ cs → h c = g c) → blocks h cs = blocks g cs.
Proof.
  induction cs as [|c cs IH]; intros He; [done|]. cbn. rewrite (He c) by set_solver.
  f_equal. apply IH. intros x Hx. apply He. set_solver.
Qed.

(** One cluster changed. *)
Lemma blocks_splice g h cs i c o bs : NoDup cs → sized g cs → cs !! i = Some c → 0 <= o → o + len bs <= k →
  h c = splice o bs (g c) → (∀ x, x ∈ cs → x ≠ c → h x = g x) →
  blocks h cs = splice (Z.of_nat i * k + o) bs (blocks g cs).
Proof.
  intros Hnd Hs Hi Ho Hn Hc Hne. rewrite (blocks_at h _ _ _ Hi), (blocks_at g _ _ _ Hi).
  assert (len (g c) = k) by (apply Hs; by eapply list_elem_of_lookup_2).
  rewrite <- (len_blocks_take g cs i c Hs Hi), splice_app_r, splice_app_l by lia.
  rewrite Hc. rewrite <- (take_drop_middle cs i c Hi) in Hnd.
  apply list.NoDup_app in Hnd as (_&Hd1&(Hd2&_)%list.NoDup_cons).
  rewrite !(blocks_ext g h); [done|..].
  - intros x Hx. apply Hne; [by eapply in_drop|]. intros ->. done.
  - intros x Hx. apply Hne; [by eapply in_take|]. intros ->. apply (Hd1 c Hx). set_solver.
Qed.
End blocks.

(** ** Chains as lists *)

Fixpoint walk (fuel : nat) (t : FatType) (l : list Z) (c : Z) : list Z :=
  match fuel with
  | O => []
  | S fuel => c :: match value t l c with Data n => walk fuel t l n | _ => [] end
  end.

Lemma chain_walk fuel t l c cs : chain t l c cs → (length cs <= fuel)%nat → walk fuel t l c = cs.
Proof.
  intros Hch. revert fuel. induction Hch as [c Hc Hv|c n cs Hc Hv Hn IH]; intros [|fuel] Hl; simpl in Hl; try lia; cbn [walk].
  - destruct (value t l c) as [|m| |]; [done|by destruct (Hv m)|done..].
  - rewrite Hv, IH; [done|lia].
Qed.

Lemma chain_length t l c cs n : chain t l c cs → (∀ x, x ∈ cs → data_cluster n x) → 0 <= n → Z.of_nat (length cs) <= n.
Proof.
  intros Hch Hd Hn. pose proof (chain_NoDup _ _ _ _ Hch) as Hnd.
  assert (cs ⊆+ seqZ 2 n) as Hsub.
  { apply NoDup_submseteq; [done|]. intros x Hx%Hd. apply elem_of_seqZ. unfold data_cluster in Hx. lia. }
  apply submseteq_length in Hsub. rewrite length_seqZ in Hsub. lia.
Qed.

(** The entry of the cluster at index [i]. *)
Lemma chain_lookup t l c cs i x : chain t l c cs → cs !! i = Some x →
  match value t l x with Data n => Some n | _ => None end = cs !! S i.
Proof.
  intros Hch. revert i x. induction Hch as [c Hc Hv|c n cs Hc Hv Hn IH]; intros [|i] x Hx; simpl in Hx; simplify_eq.
  - destruct (value t l x) as [|m| |]; [done|by destruct (Hv m)|done..].
  - rewrite Hv. by destruct (chain_head _ _ _ _ Hn) as [? ->].
  - by apply IH.
Qed.

Lemma chain_first t l c cs : chain t l c cs → cs !! 0%nat = Some c.
Proof. by intros [? ->]%chain_head. Qed.

(** A cluster added at the end. *)
Lemma chain_snoc t l l' c cs p x : chain t l c cs → list.last cs = Some p → len l' = len l → x ∉ cs →
  fits t l x → value t l' p = Data x → value t l' x = EndOfChain →
  (∀ y, y ∈ cs → y ≠ p → value t l' y = value t l y) → chain t l' c (cs ++ [x]).
Proof.
  intros Hch Hlast Hl Hx Hfx Hp Hvx Ho. assert (chain t l' x [x]) as Hend.
  { apply chain_end; [unfold fits; by rewrite Hl|]. intros n. by rewrite Hvx. }
  induction Hch as [c Hc Hv|c n cs Hc Hv Hn IH].
  - injection Hlast as ->. eapply chain_next; [unfold fits; by rewrite Hl|done|done].
  - assert (list.last cs = Some p) as Hlast' by (by destruct (chain_head _ _ _ _ Hn) as [cs' ->]).
    cbn [app]. eapply chain_next; [unfold fits; by rewrite Hl| |apply IH; [done|set_solver|set_solver]].
    rewrite Ho; [done|set_solver|]. intros ->. pose proof (chain_NoDup _ _ _ _ (chain_next _ _ _ _ _ Hc Hv Hn)) as Hnd.
    apply list.NoDup_cons in Hnd as [Hnin _]. apply Hnin. by apply last_Some_elem_of.
Qed.

(** The rest of a chain, and a chain that ends earlier. *)
Lemma chain_drop t l c cs i x : chain t l c cs → cs !! i = Some x → chain t l x (drop i cs).
Proof.
  intros Hch. revert i. induction Hch as [c Hc Hv|c n cs Hc Hv Hn IH]; intros [|i] Hi; simpl in Hi; simplify_eq.
  - by apply chain_end.
  - by eapply chain_next.
  - by apply IH.
Qed.

Lemma chain_cut t l l' c cs i x : chain t l c cs → cs !! i = Some x → len l' = len l → value t l' x = EndOfChain →
  (∀ y, y ∈ take i cs → value t l' y = value t l y) → chain t l' c (take (S i) cs).
Proof.
  intros Hch Hi Hl Hx. revert i Hi. induction Hch as [c Hc Hv|c n cs Hc Hv Hn IH]; intros [|i] Hi Hsame; simpl in Hi; simplify_eq.
  - apply chain_end; [unfold fits; by rewrite Hl|]. intros m. by rewrite Hx.
  - cbn [take]. rewrite take_0. apply chain_end; [unfold fits; by rewrite Hl|]. intros m. by rewrite Hx.
  - cbn [take]. eapply chain_next; [unfold fits; by rewrite Hl| |apply IH; [done|]].
    + rewrite Hsame; [done|set_solver].
    + intros y Hy. apply Hsame. set_solver.
Qed.

(** ** Skipping clusters *)

Lemma skip_clusters_ok {S} {HS : Stream S} {SS : StreamSpec S} t n i c cs f : ok f → chain t (data f) c cs →
  (n < length cs)%nat →
  ∃ f' x, cs !! n = Some x ∧ same f f' ∧
    skip_clusters n i c (mkIter f t (Some c) false) = Ret (Ok (x, None), mkIter f' t (Some x) false).
Proof.
  revert i c cs f. induction n as [|n IH]; intros i c cs f Hf Hch Hn.
  - destruct (chain_head _ _ _ _ Hch) as [cs' ->]. exists f, c. split; [done|]. split; [by apply same_refl|done].
  - inversion Hch as [c' Hc Hv|c' m cs' Hc Hv Hm]; subst; [simpl in Hn; lia|]. cbn [skip_clusters].
    destruct (next_ok t f c Hf Hc) as (f1&Hnx&Hs1). rewrite Hv in Hnx. fstep Hnx.
    destruct Hs1 as [H1 Hd1]. destruct (IH (i + 1) m cs' f1 H1) as (f2&x&Hx&Hs2&H2); [by rewrite Hd1|simpl in Hn; lia|].
    exists f2, x. split; [done|]. split; [|done]. by eapply same_trans.
Qed.

Lemma skip_clusters_plain {D} {HD : Stream D} n i c (it : ClusterIterator (DiskSlice (FileSystem D))) :
  skip_clusters (H := DiskSlice_stream (H := FsIoAdapter)) n i c it
  = skip_clusters (H := DiskSlice_stream (H := plain_io)) n i c it.
Proof.
  revert i c it. induction n as [|n IH]; intros i c it; [done|]. cbn [skip_clusters]. unfold mbind, FM_bind.
  rewrite next_plain. destruct (next it) as [[[[[c'|e]|]|e] it']|]; [apply IH|done..].
Qed.

Lemma fs_skip_ok {D} {HD : Stream D} {SS : StreamSpec D} (fs : FileSystem D) n c cs : vol_ok fs →
  chain (fs_type fs) (fat_data fs) c cs → (n < length cs)%nat →
  ∃ d x, cs !! n = Some x ∧ on_cluster_iter c (skip_clusters n 0 c) fs = Ret (Ok (x, None), set_disk fs d) ∧
    fat_only fs d ∧ fat_data (set_disk fs d) = fat_data fs.
Proof.
  intros Hv Hch Hn. apply lookup_lt_is_Some in Hn as Hx. destruct Hx as [x Hx].
  destruct (on_slice_ok plain_io (plain_spec fs) fs
    (λ s, match skip_clusters (H := DiskSlice_stream (H := plain_io)) n 0 c (iter_new s (fs_type fs) c) with
      | Ret (r, it) => Ret (r, fat it) | Panic => Panic end)
    (λ r l, r = Ok (x, None) ∧ l = fat_data fs))
    as (r&s'&d&Hr&Hi&Hd&->&Hl); [done|done|done| |].
  { intros FR s Hs Hdata. destruct (skip_clusters_ok (SS := FR) (fs_type fs) n 0 c cs s Hs) as (f'&y&Hy&[Hf' Hd']&Hk);
      [by rewrite Hdata|done|].
    unfold iter_new. rewrite Hk. cbn [fat]. rewrite Hdata in *. eexists _, f'. split; [done|]. split; [done|].
    split; [congruence|done]. }
  exists d, x. split; [done|]. split; [|done]. unfold on_cluster_iter, on_fat_slice. rewrite skip_clusters_plain, Hr. by rewrite Hi.
Qed.

(** ** Open files *)

(** Steps that read the file or only compute. *)
Ltac fthis := match goal with |- context [mbind ?k this ?d] => rewrite (FM_step this k d d d eq_refl) end; cbv beta.

Section file.
Context {D : Type} {HD : Stream D} {SS : StreamSpec D} {TP : TimeProvider}.
Implicit Types f : File D.

Definition with_fs f fs : File D := mkFile (first_cluster f) (current_cluster f) (f_offset f) (f_entry f) fs.

Definition ftype f : FatType := fs_type (f_fs f).
Definition ftable f : list Z := fat_data (f_fs f).
Definition ftotal f : Z := fs_total_clusters (f_fs f).
Definition fcsize f : Z := csize (fs_bpb (f_fs f)).

(** An open file with its entry and the clusters of its chain. *)
Record view f (e : DirEntryEditor) (cs : list Z) : Prop := {
  vw_vol : vol_ok (f_fs f);
  vw_entry : f_entry f = Some e;
  vw_file : entry_is_file (ed_data e) = true;
  vw_size : word 32 (e_size (ed_data e));
  vw_chain : match first_cluster f with Some c => chain (ftype f) (ftable f) c cs | None => cs = [] end;
  vw_data x : x ∈ cs → data_cluster (ftotal f) x ∧ value (ftype f) (ftable f) x ≠ Free;
  vw_room : e_size (ed_data e) <= Z.of_nat (length cs) * fcsize f;
  vw_pos : 0 <= f_offset f <= e_size (ed_data e);
  vw_current : current_cluster f =
    if f_offset f =? 0 then None else cs !! Z.to_nat ((f_offset f - 1) / fcsize f);
  vw_link : entry_first_cluster (ed_data e) (ftype f) = first_cluster f }.

(** The clusters of a file, its bytes and the size it can grow to. *)
Definition file_clusters f : list Z :=
  match first_cluster f with Some c => walk (chain_fuel (f_fs f)) (ftype f) (ftable f) c | None => [] end.

Definition file_size f : Z := default 0 (size f).

Definition file_bytes f : list Z :=
  take (Z.to_nat (file_size f)) (blocks (cluster_data (f_fs f)) (file_clusters f)).

Definition free_count f : Z := Z.of_nat (length (free_clusters (ftype f) (ftable f) 2 (ftotal f + 2))).

Definition file_cap f : Z := Z.min MAX_FILE_SIZE ((Z.of_nat (length (file_clusters f)) + free_count f) * fcsize f).

Lemma on_fs_Ret {A} (x : FM (FileSystem D) A) f r fs : x (f_fs f) = Ret (r, fs) → on_fs x f = Ret (r, with_fs f fs).
Proof. unfold on_fs. by intros ->. Qed.

Lemma fcsize_range f : vol_ok (f_fs f) → 512 <= fcsize f <= 2 ^ 19 ∧ fs_cluster_size (f_fs f) = fcsize f.
Proof. intros Hv. destruct (vol_places _ Hv) as [_ _ _ _ [??]]. done. Qed.

Lemma view_clusters f e cs : view f e cs → file_clusters f = cs.
Proof.
  intros Hw. pose proof (vw_chain _ _ _ Hw) as Hch. unfold file_clusters. destruct (first_cluster f) as [c|]; [|done].
  apply chain_walk; [done|]. pose proof (vo_total _ (vw_vol _ _ _ Hw)).
  assert (Z.of_nat (length cs) <= ftotal f) as Hl.
  { eapply chain_length; [done| |unfold ftotal; lia]. intros x Hx. by apply (vw_data _ _ _ Hw). }
  unfold chain_fuel. unfold ftotal in Hl. lia.
Qed.

Lemma view_size f e cs : view f e cs → size f = Some (e_size (ed_data e)) ∧ file_size f = e_size (ed_data e).
Proof.
  intros Hw. assert (size f = Some (e_size (ed_data e))) as Hs.
  { unfold size. rewrite (vw_entry _ _ _ Hw). cbn. unfold entry_size. by rewrite (vw_file _ _ _ Hw). }
  split; [done|]. unfold file_size. by rewrite Hs.
Qed.

Lemma view_sized f e cs : view f e cs → sized (fcsize f) (cluster_data (f_fs f)) cs.
Proof.
  intros Hw c Hc. destruct (vw_data _ _ _ Hw c Hc) as [Hd _].
  destruct (vol_places _ (vw_vol _ _ _ Hw)) as [(?&?&?) ? Hcl _ [_ ?]]. destruct (Hcl c Hd) as (?&?&_).
  unfold cluster_data. apply len_bytes_at; unfold fcsize; nia.
Qed.

Lemma view_NoDup f e cs : view f e cs → NoDup cs.
Proof.
  intros Hw. pose proof (vw_chain _ _ _ Hw) as Hch. destruct (first_cluster f); [by eapply chain_NoDup|].
  subst cs. apply NoDup_nil_2.
Qed.

Lemma view_len f e cs : view f e cs → len (file_bytes f) = e_size (ed_data e).
Proof.
  intros Hw. unfold file_bytes. destruct (view_size _ _ _ Hw) as [_ ->]. rewrite (view_clusters _ _ _ Hw).
  pose proof (len_blocks _ _ _ (view_sized _ _ _ Hw)) as Hl. pose proof (vw_room _ _ _ Hw). pose proof (vw_size _ _ _ Hw) as Hs.
  unfold word, len in *. rewrite length_take. lia.
Qed.

(** The cluster a position is in, for a position with a cluster. *)
Lemma view_index f e cs o : view f e cs → 0 <= o → o < Z.of_nat (length cs) * fcsize f →
  ∃ c, cs !! Z.to_nat (o / fcsize f) = Some c.
Proof.
  intros Hw Ho Hlt. pose proof (fcsize_range f (vw_vol _ _ _ Hw)) as [Hr _].
  apply lookup_lt_is_Some. assert (o / fcsize f < Z.of_nat (length cs)) by (apply Z.div_lt_upper_bound; lia).
  pose proof (Z.div_pos o (fcsize f)). lia.
Qed.

(** A change of the disk that keeps the table keeps the view. *)
Lemma view_with_fs f e cs fs : view f e cs → vol_ok fs → kept (f_fs f) fs → fat_data fs = ftable f → view (with_fs f fs) e cs.
Proof.
  intros [] Hv (Hb&Ht&Hn&_&_) Hd.
  split; try done; unfold ftype, ftable, ftotal, fcsize in *; cbn [with_fs f_fs first_cluster f_offset current_cluster];
    by rewrite ?Hb, ?Ht, ?Hn, ?Hd.
Qed.

Lemma view_set_disk f e cs d : view f e cs → fat_only (f_fs f) d → fat_data (set_disk (f_fs f) d) = ftable f →
  view (with_fs f (set_disk (f_fs f) d)) e cs.
Proof.
  intros Hw Hd Ht. pose proof (vw_vol _ _ _ Hw) as Hv. apply view_with_fs; [done|by apply fat_only_vol|by apply fat_only_kept|done].
Qed.

Lemma view_same_disk f e cs d : view f e cs → ok d → data d = data (disk (f_fs f)) →
  view (with_fs f (set_disk (f_fs f) d)) e cs.
Proof.
  intros Hw Hd Hdata. apply view_with_fs; [done|..].
  - apply vol_set_disk; [apply (vw_vol _ _ _ Hw)|done|by rewrite Hdata].
  - unfold kept. cbn [disk set_disk]. by rewrite Hdata.
  - unfold ftable, fat_data. cbn [disk set_disk fs_bpb]. by rewrite Hdata.
Qed.

Lemma last_index o k : 0 < k → 0 < o → o mod k = 0 → (o - 1) / k + 1 = o / k.
Proof. intros. pose proof (Z.div_mod o k). replace (o - 1) with ((o / k - 1) * k + (k - 1)) by lia.
  rewrite Z.div_add_l, (Z.div_small (k - 1)) by lia. lia. Qed.

Lemma inner_index o k : 0 < k → o mod k ≠ 0 → (o - 1) / k = o / k.
Proof.
  intros Hk Hm. pose proof (Z.div_mod o k). pose proof (Z.mod_pos_bound o k). replace (o - 1) with (o / k * k + (o mod k - 1)) by lia.
  rewrite Z.div_add_l, (Z.div_small (o mod k - 1)) by lia. lia.
Qed.

(** The next cluster is the one the position is at the start of. *)
Lemma next_cluster_ok f e cs : view f e cs → f_offset f mod fcsize f = 0 →
  ∃ d, next_cluster f = Ret (Ok (cs !! Z.to_nat (f_offset f / fcsize f)), with_fs f (set_disk (f_fs f) d)) ∧
    fat_only (f_fs f) d ∧ fat_data (set_disk (f_fs f) d) = ftable f.
Proof.
  intros Hw Hm. pose proof (vw_vol _ _ _ Hw) as Hv. destruct (fcsize_range f Hv) as [Hr _].
  pose proof (vw_current _ _ _ Hw) as Hc. pose proof (vw_pos _ _ _ Hw) as Hp. pose proof (vw_room _ _ _ Hw) as Hroom.
  unfold next_cluster. fthis. destruct (Z.eqb_spec (f_offset f) 0) as [E|E].
  - rewrite Hc, E. exists (disk (f_fs f)). split; [|split; [split; [apply Hv|done]|done]].
    replace (with_fs f (set_disk (f_fs f) (disk (f_fs f)))) with f by (by destruct f as [???? []]).
    rewrite Z.div_0_l by lia. change (Z.to_nat 0) with 0%nat. pose proof (vw_chain _ _ _ Hw) as Hch. unfold mret, FM_ret.
    destruct (first_cluster f) as [c|]; [by rewrite (chain_first _ _ _ _ Hch)|by subst cs].
  - destruct (view_index f e cs (f_offset f - 1) Hw) as [x Hx]; [lia|lia|]. rewrite Hx in Hc. rewrite Hc.
    assert (x ∈ cs) as Hin by (by eapply list_elem_of_lookup_2).
    assert (∃ c, first_cluster f = Some c ∧ chain (ftype f) (ftable f) c cs) as (c&_&Hch).
    { pose proof (vw_chain _ _ _ Hw). destruct (first_cluster f); [eauto|]. subst cs. by apply elem_of_nil in Hin. }
    destruct (fs_next_ok (f_fs f) x Hv) as (d&Hn&Hd&Ht); [by eapply chain_fits|].
    exists d. split; [|done]. fstep (on_fs_Ret _ f _ _ Hn).
    pose proof (chain_lookup _ _ _ _ _ _ Hch Hx) as Hl.
    assert (S (Z.to_nat ((f_offset f - 1) / fcsize f)) = Z.to_nat (f_offset f / fcsize f)) as Hi.
    { pose proof (last_index (f_offset f) (fcsize f)). pose proof (Z.div_pos (f_offset f - 1) (fcsize f)). lia. }
    rewrite Hi in Hl. unfold ftype, ftable in Hl. rewrite <- Hl. by destruct (value _ _ x).
Qed.

(** *** The bytes of a cluster *)

Lemma cluster_offset fs c r : vol_ok fs → data_cluster (fs_total_clusters fs) c → 0 <= r < csize (fs_bpb fs) →
  wrap64 (offset_from_cluster fs c + r) = cluster_off (fs_bpb fs) c + r ∧
  0 <= cluster_off (fs_bpb fs) c ∧ cluster_off (fs_bpb fs) c + csize (fs_bpb fs) <= len (data (disk fs)).
Proof.
  intros Hv Hc Hr. destruct (vol_places fs Hv) as [(Hf1&Hf2&Hf3) Ha Hcl _ _]. destruct (Hcl c Hc) as (H1&H2&->).
  pose proof (len_ok (disk fs) (vo_disk fs Hv)) as Hlen. unfold word in Hlen.
  assert (0 <= fat_mirrors (fs_bpb fs) * fat_size (fs_bpb fs)) by nia.
  split; [apply wrap_small; unfold word; lia|lia].
Qed.

Lemma cluster_read_ok fs c r n : vol_ok fs → data_cluster (fs_total_clusters fs) c → 0 <= r → 0 < n → r + n <= csize (fs_bpb fs) →
  ∃ bs d, on_disk (_ ← seek (SStart (wrap64 (offset_from_cluster fs c + r))); read n) fs = Ret (Ok bs, set_disk fs d) ∧
    ok d ∧ data d = data (disk fs) ∧ 0 < len bs <= n ∧ bs = bytes_at r (len bs) (cluster_data fs c).
Proof.
  intros Hv Hc Hr Hn Hrn. destruct (cluster_offset fs c r Hv Hc) as (->&H1&H2); [lia|].
  destruct (seek_ok (disk fs) (cluster_off (fs_bpb fs) c + r) (vo_disk fs Hv)) as (d1&Hs&Hd1&Hdata1&Hp1); [lia|].
  destruct (read_ok d1 n Hd1) as (bs&d2&Hrd&Hd2&Hdata2&Hle&Hbs&_&Hprog); [lia|].
  exists bs, d2. split; [apply on_disk_Ret; by fstep Hs|]. split; [done|]. split; [congruence|].
  assert (0 < len bs) by (apply Hprog; [lia|]; rewrite Hp1, Hdata1; lia). split; [lia|].
  unfold cluster_data. rewrite bytes_at_bytes_at by lia. by rewrite Hp1, Hdata1 in Hbs.
Qed.

(** The place of a cluster on the disk. *)
Definition in_cluster {D} (fs : FileSystem D) (c p : Z) : Prop :=
  cluster_off (fs_bpb fs) c <= p < cluster_off (fs_bpb fs) c + csize (fs_bpb fs).

Lemma cluster_write_ok fs c r bs : vol_ok fs → data_cluster (fs_total_clusters fs) c → 0 <= r → 0 < len bs →
  r + len bs <= csize (fs_bpb fs) → Forall (word 8) bs →
  ∃ n d, on_disk (_ ← seek (SStart (wrap64 (offset_from_cluster fs c + r))); write bs) fs = Ret (Ok n, set_disk fs d) ∧
    0 < n <= len bs ∧ vol_ok (set_disk fs d) ∧ kept fs (set_disk fs d) ∧ fat_data (set_disk fs d) = fat_data fs ∧
    cluster_data (set_disk fs d) c = splice r (take (Z.to_nat n) bs) (cluster_data fs c) ∧
    clusters_kept fs (set_disk fs d) (λ x, x = c) ∧ disk_kept fs (set_disk fs d) (in_cluster fs c).
Proof.
  intros Hv Hc Hr Hn Hrn Hby. destruct (cluster_offset fs c r Hv Hc) as (->&H1&H2); [lia|].
  destruct (vol_places fs Hv) as [(Hf1&Hf2&Hf3) Ha Hcl Hap [_ Hcs]].
  destruct (seek_ok (disk fs) (cluster_off (fs_bpb fs) c + r) (vo_disk fs Hv)) as (d1&Hs&Hd1&Hdata1&Hp1); [lia|].
  destruct (write_ok d1 bs Hd1 Hby) as (n&d2&Hw&Hd2&Hle&Hdata2&_&Hprog); [rewrite Hdata1, Hp1; lia|].
  rewrite Hdata1, Hp1 in Hdata2. exists n, d2. split; [apply on_disk_Ret; by fstep Hs|]. split; [lia|].
  assert (len (data d2) = len (data (disk fs))) as Hlen by (by rewrite Hdata2, len_splice).
  assert (len (take (Z.to_nat n) bs) = n) as Hlt by (unfold len in *; rewrite length_take; lia).
  assert (0 <= fat_mirrors (fs_bpb fs) * fat_size (fs_bpb fs)) by nia.
  assert (fat_size (fs_bpb fs) <= fat_mirrors (fs_bpb fs) * fat_size (fs_bpb fs)) by nia.
  destruct (Hcl c Hc) as (H3&_&_).
  split; [by apply vol_set_disk|]. split; [done|]. split.
  { unfold fat_data. cbn [disk set_disk fs_bpb]. rewrite Hdata2. apply bytes_at_splice_disjoint; lia. }
  split.
  { unfold cluster_data. cbn [disk set_disk fs_bpb]. rewrite Hdata2. apply bytes_at_splice_inside; lia. }
  split; [|apply (splice_disk fs d2 (cluster_off (fs_bpb fs) c + r) (take (Z.to_nat n) bs)); rewrite ?Hlt;
    [done|lia|lia|lia|exact Hdata2|unfold in_cluster; lia|right; lia]].
  intros x Hx Hne. unfold cluster_data. cbn [disk set_disk fs_bpb]. rewrite Hdata2. destruct (Hcl x Hx) as (H4&_&_).
  apply bytes_at_splice_disjoint; try lia. destruct (Z.lt_total x c) as [Hlt'|[Hlt'|Hlt']]; [|done|].
  - specialize (Hap _ _ Hlt'). lia.
  - specialize (Hap _ _ Hlt'). lia.
Qed.

(** *** Reading *)

(** The two views show the same file. *)
Lemma view_same f e cs f' e' : view f e cs → view f' e' cs → e_size (ed_data e') = e_size (ed_data e) →
  (∀ c, c ∈ cs → cluster_data (f_fs f') c = cluster_data (f_fs f) c) → ftable f' = ftable f → ftype f' = ftype f →
  ftotal f' = ftotal f → fcsize f' = fcsize f → file_bytes f' = file_bytes f ∧ file_cap f' = file_cap f.
Proof.
  intros Hw Hw' Hs Hc Ht Hty Hn Hk. unfold file_bytes, file_cap, free_count.
  rewrite (view_clusters _ _ _ Hw), (view_clusters _ _ _ Hw'), Ht, Hty, Hn, Hk.
  destruct (view_size _ _ _ Hw) as [_ ->], (view_size _ _ _ Hw') as [_ ->]. rewrite Hs. split; [|done].
  f_equal. by apply blocks_ext.
Qed.

Lemma view_with_position f e cs o c : view f e cs → 0 <= o <= e_size (ed_data e) →
  c = (if o =? 0 then None else cs !! Z.to_nat ((o - 1) / fcsize f)) → view (with_position f c o) e cs.
Proof. intros [] Ho ->. by split. Qed.

(** A change of the entry that keeps what the file needs. *)
Lemma view_with_entry f e cs e' : view f e cs → entry_is_file (ed_data e') = true →
  e_size (ed_data e') = e_size (ed_data e) →
  entry_first_cluster (ed_data e') (ftype f) = entry_first_cluster (ed_data e) (ftype f) →
  view (with_entry f (Some e')) e' cs.
Proof.
  intros [] Hf Hs Hc. split; try done; try (rewrite Hs; done). etransitivity; [exact Hc|done].
Qed.

Lemma accessed_kept e d : e_size (ed_data (editor_set_accessed e d)) = e_size (ed_data e) ∧
  entry_is_file (ed_data (editor_set_accessed e d)) = entry_is_file (ed_data e) ∧
  ∀ t, entry_first_cluster (ed_data (editor_set_accessed e d)) t = entry_first_cluster (ed_data e) t.
Proof. unfold editor_set_accessed. by destruct (bool_decide _). Qed.

Lemma file_read_ok f e cs n : view f e cs → 0 <= n →
  ∃ bs f' e', file_read n f = Ret (Ok bs, f') ∧ view f' e' cs ∧ file_bytes f' = file_bytes f ∧ file_cap f' = file_cap f ∧
    bs = bytes_at (f_offset f) (len bs) (file_bytes f) ∧ len bs <= n ∧ f_offset f' = f_offset f + len bs ∧
    (0 < n → f_offset f < len (file_bytes f) → 0 < len bs).
Proof.
  intros Hw Hn. pose proof (vw_vol _ _ _ Hw) as Hv. destruct (fcsize_range f Hv) as [Hr Hcs].
  rewrite (view_len _ _ _ Hw). pose proof (vw_pos _ _ _ Hw) as Hp. pose proof (vw_room _ _ _ Hw) as Hroom.
  pose proof (vw_size _ _ _ Hw) as Hsz. unfold word in Hsz.
  unfold file_read. fthis. rewrite Hcs. unfold urem. destruct (Z.eqb_spec (fcsize f) 0); [lia|]. rewrite lift_Ret.
  set (r := f_offset f mod fcsize f). pose proof (Z.mod_pos_bound (f_offset f) (fcsize f)) as Hmod. fold r in Hmod.
  pose proof (Z.div_mod (f_offset f) (fcsize f)) as Hdm. fold r in Hdm.
  assert (∃ d, (if r =? 0 then next_cluster else mret (current_cluster f)) f
      = Ret (Ok (cs !! Z.to_nat (f_offset f / fcsize f)), with_fs f (set_disk (f_fs f) d)) ∧
    fat_only (f_fs f) d ∧ fat_data (set_disk (f_fs f) d) = ftable f) as (d&H1&Hd&Ht).
  { destruct (Z.eqb_spec r 0) as [E|E]; [by eapply next_cluster_ok|].
    exists (disk (f_fs f)). split; [|split; [split; [apply Hv|done]|done]].
    replace (with_fs f (set_disk (f_fs f) (disk (f_fs f)))) with f by (by destruct f as [???? []]).
    rewrite (vw_current _ _ _ Hw). destruct (Z.eqb_spec (f_offset f) 0) as [E0|E0].
    - exfalso. apply E. unfold r. by rewrite E0, Z.mod_0_l by lia.
    - by rewrite inner_index by (done || lia). }
  fstep H1. pose proof (view_set_disk _ _ _ _ Hw Hd Ht) as Hw1. set (f1 := with_fs f (set_disk (f_fs f) d)) in *.
  assert (∀ c, c ∈ cs → cluster_data (f_fs f1) c = cluster_data (f_fs f) c) as Hcd1.
  { intros c Hc. apply fat_only_cluster; [done..|]. by apply (vw_data _ _ _ Hw). }
  destruct (cs !! Z.to_nat (f_offset f / fcsize f)) as [c|] eqn:Hc.
  2: { exists [], f1, e. destruct (view_same _ _ _ f1 e Hw Hw1) as [Hb Hcap]; [done..|].
       split; [done|]. split; [done|]. split; [done|]. split; [done|]. rewrite bytes_at_0. split; [done|].
       unfold len; simpl. split; [lia|]. split; [unfold f1; simpl; lia|]. intros _ Hlt.
       destruct (view_index f e cs (f_offset f) Hw) as [x Hx]; [lia|lia|]. congruence. }
  pose proof (list_elem_of_lookup_2 _ _ _ Hc) as Hin. destruct (vw_data _ _ _ Hw1 c Hin) as [Hdc _].
  destruct (view_size _ _ _ Hw) as [Hsize _]. unfold bytes_left_in_file. rewrite Hsize. cbn [mbind option_bind default from_option id].
  rewrite (wrap_small 32 (fcsize f - r)), (wrap_small 32 (_ - f_offset f)) by (unfold word; lia).
  set (m := Z.min (Z.min n (fcsize f - r)) (e_size (ed_data e) - f_offset f)).
  destruct (Z.eqb_spec m 0) as [E|E].
  { exists [], f1, e. destruct (view_same _ _ _ f1 e Hw Hw1) as [Hb Hcap]; [done..|].
    split; [done|]. split; [done|]. split; [done|]. split; [done|]. rewrite bytes_at_0. split; [done|].
    unfold len; simpl. split; [lia|]. split; [unfold f1; simpl; lia|]. lia. }
  destruct (cluster_read_ok (f_fs f1) c r m (vw_vol _ _ _ Hw1) Hdc) as (bs&d2&Hrd&Hd2&Hdata2&Hbl&Hbs); [lia|lia|unfold fcsize in *; simpl; lia|].
  fstep (on_fs_Ret _ f1 _ _ Hrd). destruct (Z.eqb_spec (len bs) 0); [lia|]. fthis.
  set (f2 := with_fs f1 (set_disk (f_fs f1) d2)).
  assert (view f2 e cs) as Hw2 by (by apply view_same_disk).
  assert (f_offset f = fcsize f * (f_offset f / fcsize f) + r) as Hoff by lia.
  assert (0 <= f_offset f / fcsize f) by (apply Z.div_pos; lia).
  change (f_offset f2) with (f_offset f). rewrite (wrap_small 32 (_ + len bs)) by (unfold word; lia).
  assert (view (with_position f2 (Some c) (f_offset f + len bs)) e cs) as Hw3.
  { apply view_with_position; [done|lia|]. destruct (Z.eqb_spec (f_offset f + len bs) 0); [lia|].
    rewrite <- Hc. f_equal. f_equal. change (fcsize f2) with (fcsize f). symmetry.
    rewrite Hoff at 1. replace (fcsize f * (f_offset f / fcsize f) + r + len bs - 1) with (f_offset f / fcsize f * fcsize f + (r + len bs - 1)) by lia.
    rewrite Z.div_add_l, (Z.div_small (r + len bs - 1)) by lia. lia. }
  assert (bs = bytes_at (f_offset f) (len bs) (file_bytes f)) as Hbytes.
  { unfold file_bytes. destruct (view_size _ _ _ Hw) as [_ ->]. rewrite (view_clusters _ _ _ Hw), bytes_at_take by lia.
    rewrite Hoff at 1. rewrite (Z.mul_comm (fcsize f)). replace (f_offset f / fcsize f) with (Z.of_nat (Z.to_nat (f_offset f / fcsize f))) at 1 by lia.
    rewrite (blocks_bytes_at (fcsize f) (cluster_data (f_fs f)) cs _ c r (len bs) (view_sized _ _ _ Hw) Hc) by lia.
    by rewrite <- (Hcd1 c Hin). }
  set (f3 := with_position f2 (Some c) (f_offset f + len bs)) in *.
  assert (∃ f4 e4, (if update_accessed_date (options (f_fs f2)) then on_entry (λ e, editor_set_accessed e get_current_date) else mret tt) f3
      = Ret (Ok tt, f4) ∧ view f4 e4 cs ∧ e_size (ed_data e4) = e_size (ed_data e) ∧ f_fs f4 = f_fs f2 ∧ f_offset f4 = f_offset f + len bs)
    as (f4&e4&H4&Hw4&Hs4&Hfs4&Ho4).
  { destruct (update_accessed_date _); [|by exists f3, e].
    destruct (accessed_kept e get_current_date) as (Hs&Hf&Hl).
    exists (with_entry f3 (Some (editor_set_accessed e get_current_date))), (editor_set_accessed e get_current_date).
    split; [unfold on_entry; by rewrite (vw_entry _ _ _ Hw3)|]. split; [|done].
    apply (view_with_entry _ e); [done|rewrite Hf; apply (vw_file _ _ _ Hw)|done|apply Hl]. }
  exists bs, f4, e4. split.
  { unfold put_file at 1. unfold mbind at 1, FM_bind at 1. fold f3. by fstep H4. }
  split; [done|].
  destruct (view_same _ _ _ f4 e4 Hw Hw4 Hs4) as [Hb Hcap].
  { intros x Hx. rewrite Hfs4, <- (Hcd1 x Hx). unfold f2, cluster_data. cbn [f_fs with_fs disk set_disk fs_bpb]. by rewrite Hdata2. }
  { unfold ftable. rewrite Hfs4. unfold fat_data in *. cbn [f_fs f2 with_fs disk set_disk fs_bpb] in *. by rewrite Hdata2. }
  { unfold ftype. by rewrite Hfs4. } { unfold ftotal. by rewrite Hfs4. } { unfold fcsize. by rewrite Hfs4. }
  split_and!; try done; lia.
Qed.

(** *** Seeking *)

Lemma ceil_index o k : 0 < k → 0 < o → (o + k - 1) / k = (o - 1) / k + 1.
Proof. intros. replace (o + k - 1) with (1 * k + (o - 1)) by lia. rewrite Z.div_add_l by lia. lia. Qed.

Lemma clusters_of_offset f o : vol_ok (f_fs f) → 0 <= o < 2 ^ 32 →
  fs_clusters_from_bytes (f_fs f) o = Ret (if o =? 0 then 0 else (o - 1) / fcsize f + 1).
Proof.
  intros Hv Ho. destruct (fcsize_range f Hv) as [Hr Hcs]. unfold fs_clusters_from_bytes, clusters_from_bytes, udiv.
  unfold fs_cluster_size in Hcs. rewrite Hcs. destruct (Z.eqb_spec (fcsize f) 0); [lia|].
  rewrite (wrap_small 64 (o + _)), (wrap_small 64) by (unfold word; lia). cbn. f_equal.
  destruct (Z.eqb_spec o 0) as [->|].
  - rewrite Z.div_small by lia. done.
  - rewrite ceil_index by lia. apply wrap_small. assert ((o - 1) / fcsize f < 2 ^ 23) by (apply Z.div_lt_upper_bound; lia).
    pose proof (Z.div_pos (o - 1) (fcsize f)). unfold word. lia.
Qed.

Lemma move_to_ok f e cs o : view f e cs → 0 <= o <= e_size (ed_data e) → o ≠ f_offset f →
  ∃ f', move_to o f = Ret (Ok o, f') ∧ view f' e cs ∧ f_offset f' = o ∧
    file_bytes f' = file_bytes f ∧ file_cap f' = file_cap f.
Proof.
  intros Hw Ho Hne. pose proof (vw_vol _ _ _ Hw) as Hv. destruct (fcsize_range f Hv) as [Hr Hcs].
  pose proof (vw_pos _ _ _ Hw) as Hp. pose proof (vw_room _ _ _ Hw) as Hroom. pose proof (vw_size _ _ _ Hw) as Hsz.
  unfold word in Hsz. unfold move_to. fthis. rewrite !clusters_of_offset by (done || lia). rewrite !lift_Ret.
  assert (∀ f', view f' e cs → ftable f' = ftable f → (∀ c, c ∈ cs → cluster_data (f_fs f') c = cluster_data (f_fs f) c) →
    ftype f' = ftype f → ftotal f' = ftotal f → fcsize f' = fcsize f →
    file_bytes f' = file_bytes f ∧ file_cap f' = file_cap f) as Hsame by (intros; by eapply view_same).
  destruct (Z.eqb_spec o 0) as [E|E].
  { exists (with_position f None o). split; [done|].
    assert (view (with_position f None o) e cs) as Hw' by (apply view_with_position; [done|lia|by rewrite E]).
    split; [done|]. split; [done|]. by apply Hsame. }
  destruct (Z.eqb_spec ((o - 1) / fcsize f + 1) (if f_offset f =? 0 then 0 else (f_offset f - 1) / fcsize f + 1)) as [E2|E2].
  { exists (with_position f (current_cluster f) o). split; [done|]. pose proof (Z.div_pos (o - 1) (fcsize f)).
    assert (view (with_position f (current_cluster f) o) e cs) as Hw'.
    { apply view_with_position; [done|lia|]. rewrite (vw_current _ _ _ Hw). destruct (Z.eqb_spec o 0); [done|].
      destruct (Z.eqb_spec (f_offset f) 0); [lia|]. f_equal. f_equal. lia. }
    split; [done|]. split; [done|]. by apply Hsame. }
  destruct (view_index f e cs (o - 1) Hw) as [x Hx]; [lia|lia|]. pose proof (vw_chain _ _ _ Hw) as Hch.
  destruct (first_cluster f) as [c|]; [|subst cs; done]. pose proof (Z.div_pos (o - 1) (fcsize f)).
  assert ((o - 1) / fcsize f < 2 ^ 23) by (apply Z.div_lt_upper_bound; lia).
  rewrite wrap_small by (unfold word; lia). rewrite Z.add_simpl_r.
  destruct (fs_skip_ok (f_fs f) (Z.to_nat ((o - 1) / fcsize f)) c cs Hv Hch) as (d&y&Hy&Hs&Hd&Ht).
  { by eapply lookup_lt_Some. }
  rewrite Hx in Hy. injection Hy as <-. cbv zeta. set (f1 := with_fs f (set_disk (f_fs f) d)).
  pose proof (view_set_disk _ _ _ _ Hw Hd Ht) as Hw1. exists (with_position f1 (Some x) o).
  split; [unfold mbind at 1, FM_bind at 1, mbind at 1, FM_bind at 1; by rewrite (on_fs_Ret _ f _ _ Hs)|].
  assert (view (with_position f1 (Some x) o) e cs) as Hw'.
  { apply view_with_position; [done|lia|]. destruct (Z.eqb_spec o 0); [done|]. by rewrite <- Hx. }
  split; [done|]. split; [done|]. apply Hsame; [done|done| |done..].
  intros y Hy. apply fat_only_cluster; [done..|]. by apply (vw_data _ _ _ Hw).
Qed.

Lemma file_seek_ok f e cs sf : view f e cs →
  let t := seek_target (f_offset f) (e_size (ed_data e)) sf in
  if (0 <=? t) && (t <? 2 ^ 32)
  then ∃ f', file_seek sf f = Ret (Ok (Z.min t (e_size (ed_data e))), f') ∧ view f' e cs ∧
         f_offset f' = Z.min t (e_size (ed_data e)) ∧ file_bytes f' = file_bytes f ∧ file_cap f' = file_cap f
  else file_seek sf f = Ret (Err EInvalidInput, f).
Proof.
  intros Hw t. pose proof (vw_pos _ _ _ Hw) as Hp. pose proof (vw_size _ _ _ Hw) as Hsz. unfold word in Hsz.
  destruct (view_size _ _ _ Hw) as [Hsize _].
  assert (new_offset_opt f sf = if (0 <=? t) && (t <? 2 ^ 32) then Some t else None) as Ht.
  { assert (∀ x, checked_i64 x ≫= checked_u32 = checked_u32 x) as Hc.
    { intros x. unfold checked_i64, checked_u32. destruct (Z.leb_spec (- 2 ^ 63) x), (Z.ltb_spec x (2 ^ 63)); cbn [andb]; [done|..];
        destruct (Z.leb_spec 0 x), (Z.ltb_spec x (2 ^ 32)); cbn; lia || done. }
    unfold new_offset_opt. rewrite Hsize. destruct sf; [done|exact (Hc _)|exact (Hc _)]. }
  unfold file_seek. fthis. rewrite Ht, Hsize. destruct ((0 <=? t) && (t <? 2 ^ 32)) eqn:Hin; [|done].
  apply andb_prop in Hin as [?%Z.leb_le ?%Z.ltb_lt]. cbv zeta.
  assert ((if e_size (ed_data e) <? t then e_size (ed_data e) else t) = Z.min t (e_size (ed_data e))) as ->
    by (destruct (Z.ltb_spec (e_size (ed_data e)) t); lia).
  set (o := Z.min t _). destruct (Z.eqb_spec o (f_offset f)) as [->|Hne].
  - by exists f.
  - apply move_to_ok; [done|lia|done].
Qed.

(** *** The cluster to write in *)

(** The file has its clusters or one more, which was free; nothing else of the
    table changed, and no cluster. *)
Record grown f f1 (cs cs1 : list Z) : Prop := {
  gr_kept : kept (f_fs f) (f_fs f1);
  gr_data : clusters_kept (f_fs f) (f_fs f1) (λ _, False);
  gr_new : cs1 = cs ∨ ∃ c, cs1 = cs ++ [c] ∧ data_cluster (ftotal f) c ∧ value (ftype f) (ftable f) c = Free;
  gr_table y : data_cluster (ftotal f) y → y ∉ cs1 → value (ftype f) (ftable f1) y = value (ftype f) (ftable f) y;
  gr_cap : file_cap f1 = file_cap f }.

Lemma grown_refl f f1 e e1 cs : view f e cs → view f1 e1 cs → kept (f_fs f) (f_fs f1) → ftable f1 = ftable f →
  clusters_kept (f_fs f) (f_fs f1) (λ _, False) → grown f f1 cs cs.
Proof.
  intros Hw Hw1 Hk Ht Hc. destruct Hk as (Hb&Hty&Hn&?&?).
  split; [done|done|by left|intros; by rewrite Ht|].
  unfold file_cap, free_count. rewrite (view_clusters _ _ _ Hw), (view_clusters _ _ _ Hw1), Ht.
  unfold ftype, ftotal, fcsize. by rewrite Hb, Hty, Hn.
Qed.

(** A free cluster is left while the file can grow. *)
Lemma room_means_free f e cs : view f e cs → Z.of_nat (length cs) * fcsize f < file_cap f →
  next_free (ftype f) (ftable f) (next_free_cluster (fs_info (f_fs f))) (ftotal f) ≠ None.
Proof.
  intros Hw Hcap Hnf. unfold file_cap, free_count in Hcap. rewrite (view_clusters _ _ _ Hw) in Hcap.
  assert (free_clusters (ftype f) (ftable f) 2 (ftotal f + 2) = []) as E.
  { destruct (free_clusters _ _ _ _) as [|c l] eqn:E; [done|].
    assert (c ∈ free_clusters (ftype f) (ftable f) 2 (ftotal f + 2)) as Hc by (rewrite E; by left).
    apply free_clusters_elem in Hc as [Hc Hv]. by apply (next_free_None _ _ _ _ Hnf c) in Hv. }
  rewrite E in Hcap. simpl in Hcap. lia.
Qed.

Lemma set_first_kept e c t : 0 < c → match t with Fat32 => word 32 c | _ => word 16 c end →
  entry_first_cluster (ed_data (editor_set_first_cluster e (Some c) t)) t = Some c ∧
  e_size (ed_data (editor_set_first_cluster e (Some c) t)) = e_size (ed_data e) ∧
  entry_is_file (ed_data (editor_set_first_cluster e (Some c) t)) = entry_is_file (ed_data e).
Proof.
  intros Hc Hw. unfold editor_set_first_cluster. destruct (bool_decide_reflect (Some c = entry_first_cluster (ed_data e) t)) as [<-|]; [done|].
  split; [by apply first_cluster_set|done].
Qed.

(** The free clusters after one was taken for the chain. *)
Lemma alloc_free_count t l l' n c prev : data_cluster n c → value t l c = Free → value t l' c = EndOfChain →
  (∀ p, prev = Some p → value t l p ≠ Free ∧ value t l' p = Data c) →
  (∀ x, data_cluster n x → x ≠ c → prev ≠ Some x → value t l' x = value t l x) →
  length (free_clusters t l 2 (n + 2)) = S (length (free_clusters t l' 2 (n + 2))).
Proof.
  intros Hc Hf He Hp Ho. apply (free_clusters_take _ _ _ _ _ c).
  - apply free_clusters_elem. by split.
  - intros x. rewrite !free_clusters_elem. destruct (decide (x = c)) as [->|Hne]; [naive_solver congruence|].
    destruct (decide (prev = Some x)) as [Hx|Hx].
    + destruct (Hp x Hx) as [H1 H2]. rewrite H2. naive_solver.
    + split; [intros [Hr Hv]|intros [[Hr Hv] _]].
      * by rewrite Ho in Hv.
      * by rewrite Ho.
Qed.

(** The file with a new last cluster [c]. *)
Lemma view_grown f e cs fs2 c prev e1 : view f e cs → vol_ok fs2 → kept (f_fs f) fs2 →
  f_offset f = Z.of_nat (length cs) * fcsize f → prev = list.last cs →
  data_cluster (ftotal f) c → value (ftype f) (ftable f) c = Free →
  value (ftype f) (fat_data fs2) c = EndOfChain → (∀ p, prev = Some p → value (ftype f) (fat_data fs2) p = Data c) →
  (∀ x, data_cluster (ftotal f) x → x ≠ c → prev ≠ Some x → value (ftype f) (fat_data fs2) x = value (ftype f) (ftable f) x) →
  clusters_kept (f_fs f) fs2 (λ _, False) →
  e_size (ed_data e1) = e_size (ed_data e) → entry_is_file (ed_data e1) = true →
  let first := match first_cluster f with None => Some c | Some x => Some x end in
  entry_first_cluster (ed_data e1) (ftype f) = first →
  let f2 := mkFile first (current_cluster f) (f_offset f) (Some e1) fs2 in
  view f2 e1 (cs ++ [c]) ∧ grown f f2 cs (cs ++ [c]).
Proof.
  intros Hw Hv2 Hk Hend Hprev Hdc Hfree Heoc Hpl Hoth Hcl Hs1 Hf1 first Hlink f2.
  pose proof (vw_vol _ _ _ Hw) as Hv. destruct (fcsize_range f Hv) as [Hr _]. pose proof Hk as (Hb&Hty&Hn&_).
  pose proof (vol_table _ Hv) as [_ Hfit]. change (fs_total_clusters (f_fs f)) with (ftotal f) in *.
  assert (c ∉ cs) as Hnin by (intros Hin; by apply (vw_data _ _ _ Hw c Hin)).
  assert (len (fat_data fs2) = len (ftable f)) as Hlen by (unfold ftable; rewrite !fat_data_len, Hb; done).
  assert (∀ p, prev = Some p → p ∈ cs) as Hpin by (intros p ->; by apply last_Some_elem_of).
  assert (∀ x, x ∈ cs → prev ≠ Some x → value (ftype f) (fat_data fs2) x = value (ftype f) (ftable f) x) as Hcs.
  { intros x Hx Hne. apply Hoth; [by apply (vw_data _ _ _ Hw)|by intros ->|done]. }
  assert (ftype f2 = ftype f ∧ ftotal f2 = ftotal f ∧ fcsize f2 = fcsize f ∧ ftable f2 = fat_data fs2) as (Et&En&Ec&Etab).
  { unfold ftype, ftotal, fcsize, ftable, f2. cbn [f_fs]. by rewrite Hb, Hty, Hn. }
  assert (view f2 e1 (cs ++ [c])) as Hw2.
  { split; rewrite ?Et, ?En, ?Ec, ?Etab, ?Hs1, ?length_app; cbn [length]; try done; cbn [f2 first_cluster current_cluster f_offset].
    - apply (vw_size _ _ _ Hw).
    - pose proof (vw_chain _ _ _ Hw) as Hch. subst first. destruct (first_cluster f) as [c0|].
      + destruct (list.last cs) as [p|] eqn:Hl.
        * eapply chain_snoc; [done|done|done|done|apply Hfit, Hdc|by apply Hpl|done|].
          intros y Hy Hne. apply Hcs; [done|congruence].
        * apply last_None in Hl. subst cs. inversion Hch.
      + subst cs. apply chain_end; [unfold fits; rewrite Hlen; apply Hfit, Hdc|]. intros n. by rewrite Heoc.
    - intros x [Hx|Hx%list_elem_of_singleton]%elem_of_app; [|subst x; split; [done|by rewrite Heoc]].
      destruct (vw_data _ _ _ Hw x Hx) as [Hdx Hvx]. split; [done|].
      destruct (decide (prev = Some x)) as [E|E]; [by rewrite (Hpl x E)|by rewrite Hcs].
    - pose proof (vw_room _ _ _ Hw). nia.
    - apply (vw_pos _ _ _ Hw).
    - rewrite (vw_current _ _ _ Hw). destruct (Z.eqb_spec (f_offset f) 0) as [|Hne]; [done|].
      pose proof (vw_pos _ _ _ Hw). destruct (view_index f e cs (f_offset f - 1) Hw) as [x Hx]; [lia|lia|].
      rewrite Hx. symmetry. by apply lookup_app_l_Some. }
  split; [done|]. split; cbn [f_fs f2]; try done.
  - right. by exists c.
  - intros y Hy Hnin'. rewrite Etab. apply Hoth; [done|set_solver|]. intros E%Hpin. set_solver.
  - unfold file_cap, free_count. rewrite (view_clusters _ _ _ Hw), (view_clusters _ _ _ Hw2), Et, En, Ec, Etab, length_app.
    rewrite (alloc_free_count _ _ (fat_data fs2) (ftotal f) c prev Hdc Hfree Heoc); [|intros p Hp; split; [|by apply Hpl]|done].
    + cbn [length]. do 2 f_equal. lia.
    + by apply (vw_data _ _ _ Hw), Hpin.
Qed.

Lemma cluster_for_write_ok f e cs : view f e cs → marked (f_fs f) → f_offset f mod fcsize f = 0 → f_offset f < file_cap f →
  ∃ f1 e1 cs1 c, cluster_for_write f = Ret (Ok c, f1) ∧ view f1 e1 cs1 ∧ marked (f_fs f1) ∧
    cs1 !! Z.to_nat (f_offset f / fcsize f) = Some c ∧ f_offset f1 = f_offset f ∧
    e_size (ed_data e1) = e_size (ed_data e) ∧ grown f f1 cs cs1 ∧ disk_kept (f_fs f) (f_fs f1) (λ _, False).
Proof.
  intros Hw Hm Hmod Hcap. pose proof (vw_vol _ _ _ Hw) as Hv. destruct (fcsize_range f Hv) as [Hr _].
  pose proof (vw_pos _ _ _ Hw) as Hp. pose proof (vw_room _ _ _ Hw) as Hroom.
  destruct (next_cluster_ok f e cs Hw Hmod) as (d&H1&Hd&Ht). unfold cluster_for_write. fstep H1.
  set (f1 := with_fs f (set_disk (f_fs f) d)). pose proof (view_set_disk _ _ _ _ Hw Hd Ht) as Hw1. fold f1 in Hw1.
  assert (grown f f1 cs cs) as Hg1.
  { eapply grown_refl; [done|done|by apply (fat_only_kept (f_fs f))|done|]. intros x Hx _. by apply (fat_only_cluster (f_fs f)). }
  destruct (cs !! Z.to_nat (f_offset f / fcsize f)) as [c|] eqn:Hc; [exists f1, e, cs, c; do 6 (split; [done|]); split; [done|by apply fat_only_disk]|].
  (* the chain ends here: the position is the end of its last cluster *)
  assert (f_offset f = Z.of_nat (length cs) * fcsize f) as Hend.
  { destruct (Z.ltb_spec (f_offset f) (Z.of_nat (length cs) * fcsize f)); [|lia].
    destruct (view_index f e cs (f_offset f) Hw) as [x Hx]; [lia|lia|]. congruence. }
  fthis. assert (is_dir f1 = false) as Hdir.
  { unfold is_dir. rewrite (vw_entry _ _ _ Hw1). pose proof (vw_file _ _ _ Hw1) as Hf. unfold entry_is_file in Hf.
    by apply negb_true_iff in Hf. }
  rewrite Hdir. change (current_cluster f1) with (current_cluster f).
  set (prev := current_cluster f). pose proof (vw_current _ _ _ Hw) as Hcur. fold prev in Hcur.
  assert (Z.of_nat (length cs) - 1 = (f_offset f - 1) / fcsize f) as Hlast.
  { rewrite Hend. replace (Z.of_nat (length cs) * fcsize f - 1) with ((Z.of_nat (length cs) - 1) * fcsize f + (fcsize f - 1)) by lia.
    rewrite Z.div_add_l, (Z.div_small (fcsize f - 1)) by lia. lia. }
  assert (prev = list.last cs) as Hprev.
  { rewrite Hcur, last_lookup. destruct (Z.eqb_spec (f_offset f) 0).
    - assert (length cs = 0%nat) by nia. by destruct cs.
    - f_equal. lia. }
  assert (∀ p, prev = Some p → data_cluster (fs_total_clusters (f_fs f1)) p ∧ value (fs_type (f_fs f1)) (fat_data (f_fs f1)) p ≠ Free) as Hpok.
  { intros p Hpp. apply (vw_data _ _ _ Hw1). apply last_Some_elem_of. by rewrite <- Hprev. }
  destruct (fs_alloc_ok (f_fs f1) prev (vw_vol _ _ _ Hw1) Hm Hpok) as (fs2&Hv2&Hm2&Hk2&Hc2&Ho2&Halloc).
  pose proof (room_means_free f e cs Hw) as Hroomy. rewrite <- Hend in Hroomy. specialize (Hroomy Hcap).
  change (fs_type (f_fs f1)) with (ftype f) in Halloc. change (fs_total_clusters (f_fs f1)) with (ftotal f) in Halloc.
  change (fs_info (f_fs f1)) with (fs_info (f_fs f)) in Halloc.
  change (fat_data (f_fs f1)) with (fat_data (set_disk (f_fs f) d)) in Halloc. rewrite Ht in Halloc.
  destruct (next_free (ftype f) (ftable f) (next_free_cluster (fs_info (f_fs f))) (ftotal f)) as [c|] eqn:Hnf; [|done].
  destruct (next_free_Some _ _ _ _ _ (vo_hint _ Hv) Hnf) as [Hdc Hfree]. destruct Halloc as (Hal&Heoc&Hpl&Hoth).
  fstep (on_fs_Ret _ f1 _ _ Hal). set (f2 := with_fs f1 fs2).
  assert (kept (f_fs f) fs2) as Hk by (eapply kept_trans; [by apply (fat_only_kept (f_fs f))|done]).
  assert (clusters_kept (f_fs f) fs2 (λ _, False)) as Hcl.
  { intros x Hx _. rewrite (Hc2 x Hx (λ H, H)). by apply (fat_only_cluster (f_fs f)). }
  assert (0 < c ∧ match ftype f with Fat32 => word 32 c | _ => word 16 c end) as [Hc0 Hcw].
  { pose proof (vo_total _ Hv) as Htot. unfold data_cluster in Hdc. change (fs_type (f_fs f)) with (ftype f) in Htot.
    change (fs_total_clusters (f_fs f)) with (ftotal f) in Htot. split; [lia|].
    unfold max_clusters, FAT16_MIN_CLUSTERS, FAT32_MIN_CLUSTERS, FAT32_MAX_CLUSTERS in Htot. unfold word. destruct (ftype f); lia. }
  assert (disk_kept (f_fs f) fs2 (λ _, False)) as Hdk.
  { apply (disk_kept_trans (f_fs f) (f_fs f1) fs2 (λ _, False) (λ _, False)); [done|by apply fat_only_disk|apply fat_only_disk; [by destruct Hk2|exact Ho2]|done|done]. }
  assert ((cs ++ [c]) !! Z.to_nat (f_offset f / fcsize f) = Some c) as Hat.
  { rewrite Hend, Z.div_mul by lia. rewrite Nat2Z.id. by apply list_lookup_middle. }
  pose proof (vw_entry _ _ _ Hw) as Hent. pose proof (vw_link _ _ _ Hw) as Hlink.
  destruct (set_first_kept e c (ftype f) Hc0 Hcw) as (Hsl&Hss&Hsf).
  change (first_cluster f2) with (first_cluster f). destruct (first_cluster f) as [x|] eqn:Hfirst.
  - destruct (view_grown f e cs fs2 c prev e) as [Hw3 Hg3]; try done; [apply (vw_file _ _ _ Hw)|by rewrite Hfirst|].
    rewrite Hfirst in Hw3, Hg3. exists (mkFile (Some x) prev (f_offset f) (Some e) fs2), e, (cs ++ [c]), c.
    split; [|split; [done|]; by split]. unfold f2, f1, with_fs. cbn [first_cluster current_cluster f_offset f_entry].
    by rewrite Hfirst, Hent.
  - set (e1 := editor_set_first_cluster e (Some c) (ftype f)) in *.
    destruct (view_grown f e cs fs2 c prev e1) as [Hw3 Hg3]; try done;
      [rewrite Hsf; apply (vw_file _ _ _ Hw)|by rewrite Hfirst|].
    rewrite Hfirst in Hw3, Hg3. exists (mkFile (Some c) prev (f_offset f) (Some e1) fs2), e1, (cs ++ [c]), c.
    split; [|split; [done|]; by split]. unfold set_first_cluster, on_entry, put_file, with_first, with_entry, mbind, FM_bind, this, f2, f1, with_fs.
    cbn [first_cluster current_cluster f_offset f_entry f_fs option_map]. rewrite Hent, Hfirst.
    cbn [current_cluster f_offset f_entry f_fs option_map]. destruct Hk as (_&Hty&_). by rewrite Hty.
Qed.
(** *** Writing *)

(** The bytes of the file do not change when its chain grows. *)
Lemma grown_bytes f f1 e e1 cs cs1 : view f e cs → view f1 e1 cs1 → grown f f1 cs cs1 →
  e_size (ed_data e1) = e_size (ed_data e) → file_bytes f1 = file_bytes f.
Proof.
  intros Hw Hw1 [Hk Hc Hn _ _] Hs. unfold file_bytes. rewrite (view_clusters _ _ _ Hw), (view_clusters _ _ _ Hw1).
  destruct (view_size _ _ _ Hw) as [_ ->], (view_size _ _ _ Hw1) as [_ ->]. rewrite Hs.
  assert (∀ x, x ∈ cs → cluster_data (f_fs f1) x = cluster_data (f_fs f) x) as Hx.
  { intros x Hx. apply Hc; [by apply (vw_data _ _ _ Hw)|by intros []]. }
  destruct Hn as [->|(c&->&_&_)]; [by rewrite (blocks_ext (cluster_data (f_fs f)))|].
  rewrite blocks_app, (blocks_ext (cluster_data (f_fs f)) (cluster_data (f_fs f1)) cs) by done. apply take_app_le.
  pose proof (len_blocks _ _ _ (view_sized _ _ _ Hw)) as Hl. pose proof (vw_room _ _ _ Hw). unfold len in Hl. lia.
Qed.

(** Growth after a change of the disk that keeps the table and the clusters. *)
Lemma grown_after f f0 f1 cs cs1 : kept (f_fs f) (f_fs f0) → ftable f0 = ftable f →
  clusters_kept (f_fs f) (f_fs f0) (λ _, False) → file_cap f0 = file_cap f → grown f0 f1 cs cs1 → grown f f1 cs cs1.
Proof.
  intros Hk Ht Hc Hcap [Hk1 Hc1 Hn Htab Hcap1]. pose proof Hk as (_&Hty&Hto&_).
  unfold ftype, ftotal in *. rewrite Ht, Hty, Hto in *. split.
  - by eapply kept_trans.
  - intros x Hx _. rewrite Hc1, Hc; [done|done|by intros []|by rewrite Hto|by intros []].
  - done.
  - done.
  - congruence.
Qed.

(** What a write changes of the disk: the file's chain may get one more
    cluster, which was free; the other entries of the table stay.  Outside the
    tables, which stay copies of each other, the bytes of the file's clusters
    may change and the byte of the boot sector that marks the volume dirty,
    which gets the mark with the write that sets it; all others stay: the rest
    of the boot sector and the reserved sectors, the root directory of FAT12 and
    FAT16, the other clusters and the end of the disk. *)
Record write_frame f f' (cs cs' : list Z) : Prop := {
  wf_kept : kept (f_fs f) (f_fs f');
  wf_chain : cs' = cs ∨ ∃ c, cs' = cs ++ [c] ∧ data_cluster (ftotal f) c ∧ value (ftype f) (ftable f) c = Free;
  wf_table y : data_cluster (ftotal f) y → y ∉ cs' → value (ftype f) (ftable f') y = value (ftype f) (ftable f) y;
  wf_clusters : clusters_kept (f_fs f) (f_fs f') (λ c, c ∈ cs');
  wf_disk : disk_kept (f_fs f) (f_fs f') (λ p, p = mark_at (f_fs f) ∨ ∃ c, c ∈ cs' ∧ in_cluster (f_fs f) c p);
  wf_same : marked (f_fs f) ∨ ¬ marked (f_fs f') →
    bytes_at (mark_at (f_fs f)) 1 (data (disk (f_fs f'))) = bytes_at (mark_at (f_fs f)) 1 (data (disk (f_fs f)));
  wf_mark : ¬ marked (f_fs f) → marked (f_fs f') →
    bytes_at (mark_at (f_fs f)) 1 (data (disk (f_fs f'))) = [mark_of (f_fs f)] }.

(** The parts of a write: the mark, the cluster found or added, the bytes. *)
Lemma mark_disk (fs fs0 fs1 fs2 : FileSystem D) c : vol_ok fs → kept fs fs0 → kept fs fs1 → marked fs2 →
  data_cluster (fs_total_clusters fs) c →
  data (disk fs0) = (if bool_decide (marked fs) then data (disk fs) else splice (mark_at fs) [mark_of fs] (data (disk fs))) →
  disk_kept fs0 fs1 (λ _, False) → disk_kept fs1 fs2 (in_cluster fs1 c) →
  (marked fs ∨ ¬ marked fs2 → bytes_at (mark_at fs) 1 (data (disk fs2)) = bytes_at (mark_at fs) 1 (data (disk fs))) ∧
  (¬ marked fs → marked fs2 → bytes_at (mark_at fs) 1 (data (disk fs2)) = [mark_of fs]).
Proof.
  intros Hv (Hb0&_) (Hb1&_) Hm Hc Hd [H1 _] [H2 _].
  destruct (vol_places fs Hv) as [(Hf1&Hf2&Hf3) Ha Hcl _ [_ Hcs]]. destruct (Hcl c Hc) as (H3&H4&_).
  pose proof (mark_at_range fs) as Hr. assert (0 <= fat_mirrors (fs_bpb fs) * fat_size (fs_bpb fs)) by nia.
  assert (bytes_at (mark_at fs) 1 (data (disk fs2)) = bytes_at (mark_at fs) 1 (data (disk fs0))) as ->.
  { rewrite H2, H1; [done|lia|unfold in_fats; rewrite Hb0; lia|tauto|lia|unfold in_fats; rewrite Hb1; lia|].
    unfold in_cluster. rewrite Hb1. lia. }
  rewrite Hd. split.
  - intros [?|?]; [|done]. by rewrite bool_decide_eq_true_2.
  - intros ? _. rewrite bool_decide_eq_false_2 by done.
    assert (len [mark_of fs] = 1) as E by done. rewrite <- E at 1. apply bytes_at_splice_same; rewrite ?E; lia.
Qed.

(** The entry after a write that ends at [o]. *)
Lemma entry_after_write f e o : f_entry f = Some e → entry_is_file (ed_data e) = true → f_offset f = o →
  ∃ e', update_dir_entry_after_write f = Ret (Ok tt, with_entry f (Some e')) ∧
    e_size (ed_data e') = Z.max (e_size (ed_data e)) o ∧ entry_is_file (ed_data e') = true ∧
    ∀ t, entry_first_cluster (ed_data e') t = entry_first_cluster (ed_data e) t.
Proof.
  intros He Hf <-. unfold update_dir_entry_after_write. fthis. unfold on_entry. rewrite He. cbn [option_map].
  set (m := editor_set_modified e get_current_date_time).
  assert (e_size (ed_data m) = e_size (ed_data e) ∧ entry_is_file (ed_data m) = entry_is_file (ed_data e) ∧
    ∀ t, entry_first_cluster (ed_data m) t = entry_first_cluster (ed_data e) t) as (Hs&Hfm&Hl).
  { unfold m, editor_set_modified. by destruct (bool_decide _). }
  eexists. split; [done|]. unfold editor_set_size, entry_size. rewrite Hfm, Hf, Hs.
  destruct (Z.ltb_spec (e_size (ed_data e)) (f_offset f)).
  - destruct (Z.eqb_spec (f_offset f) (e_size (ed_data e))); [lia|]. cbn [ed_data]. split; [cbn; lia|]. split; [by rewrite <- Hf, <- Hfm|done].
  - split; [lia|]. split; [congruence|done].
Qed.

(** The write in the cluster found. *)
Lemma write_in_cluster f e cs c bs : let r := f_offset f mod fcsize f in
  view f e cs → cs !! Z.to_nat (f_offset f / fcsize f) = Some c →
  0 < len bs → r + len bs <= fcsize f → f_offset f + len bs <= MAX_FILE_SIZE → Forall (word 8) bs →
  ∃ n f' e', (written_bytes ← on_fs (on_disk (_ ← seek (SStart (wrap64 (offset_from_cluster (f_fs f) c + r))); write bs));
      if written_bytes =? 0 then mret 0
      else
        g ← this;
        _ ← put_file (with_position g (Some c) (wrap32 (f_offset g + written_bytes)));
        _ ← update_dir_entry_after_write;
        mret written_bytes) f = Ret (Ok n, f') ∧ view f' e' cs ∧ 0 < n <= len bs ∧
    file_bytes f' = overwrite (f_offset f) (take (Z.to_nat n) bs) (file_bytes f) ∧ f_offset f' = f_offset f + n ∧
    file_cap f' = file_cap f ∧ kept (f_fs f) (f_fs f') ∧ ftable f' = ftable f ∧ clusters_kept (f_fs f) (f_fs f') (λ x, x = c) ∧
    disk_kept (f_fs f) (f_fs f') (in_cluster (f_fs f) c) ∧ (marked (f_fs f) → marked (f_fs f')).
Proof.
  intros r Hw Hc Hn Hrn Hmax Hby. pose proof (vw_vol _ _ _ Hw) as Hv. destruct (fcsize_range f Hv) as [Hr Hcs].
  pose proof (vw_pos _ _ _ Hw) as Hp. pose proof (vw_size _ _ _ Hw) as Hsz. pose proof (vw_room _ _ _ Hw) as Hroom.
  pose proof (Z.mod_pos_bound (f_offset f) (fcsize f)) as Hmod. pose proof (Z.div_mod (f_offset f) (fcsize f)) as Hdm. fold r in Hmod, Hdm.
  pose proof (list_elem_of_lookup_2 _ _ _ Hc) as Hin. destruct (vw_data _ _ _ Hw c Hin) as [Hdc _].
  destruct (cluster_write_ok (f_fs f) c r bs Hv Hdc) as (n&d&Hwr&Hnr&Hv2&Hk2&Ht2&Hcd2&Hck2&Hdk2); [lia|lia|exact Hrn|done|].
  fstep (on_fs_Ret _ f _ _ Hwr). destruct (Z.eqb_spec n 0); [lia|]. fthis.
  set (f2 := with_fs f (set_disk (f_fs f) d)). assert (view f2 e cs) as Hw2 by (by apply view_with_fs).
  unfold put_file at 1. unfold mbind at 1, FM_bind at 1. change (f_offset f2) with (f_offset f).
  unfold MAX_FILE_SIZE in Hmax. rewrite (wrap_small 32) by (unfold word; lia).
  set (f3 := with_position f2 (Some c) (f_offset f + n)).
  destruct (entry_after_write f3 e (f_offset f + n) (vw_entry _ _ _ Hw2) (vw_file _ _ _ Hw2) eq_refl) as (e'&Hup&Hs'&Hf'&Hl').
  fstep Hup. exists n, (with_entry f3 (Some e')), e'. split; [done|].
  set (i := f_offset f / fcsize f) in *. assert (0 <= i) by (unfold i; apply Z.div_pos; lia).
  assert (f_offset f + n <= Z.of_nat (length cs) * fcsize f) as Hin2.
  { apply lookup_lt_Some in Hc. nia. }
  assert (view (with_entry f3 (Some e')) e' cs) as Hw3.
  { destruct Hw2. split; try done; rewrite ?Hs'; cbn [f_offset with_entry with_position f3 current_cluster]; try done.
    - unfold word in *. lia.
    - change (fcsize (with_entry f3 (Some e'))) with (fcsize f). lia.
    - lia.
    - destruct (Z.eqb_spec (f_offset f + n) 0); [lia|]. change (fcsize (with_entry f3 (Some e'))) with (fcsize f).
      rewrite <- Hc. f_equal. f_equal. symmetry. replace (f_offset f + n - 1) with (i * fcsize f + (r + n - 1)) by lia.
      rewrite Z.div_add_l, (Z.div_small (r + n - 1)) by lia. lia.
    - etransitivity; [apply Hl'|exact vw_link0]. }
  split; [done|]. split; [done|].
  assert (len (take (Z.to_nat n) bs) = n) as Hlt by (unfold len in *; rewrite length_take; lia).
  split; [|split; [done|split; [|done]]].
  - unfold file_bytes at 1. rewrite (view_clusters _ _ _ Hw3). destruct (view_size _ _ _ Hw3) as [_ ->]. rewrite Hs'.
    unfold file_bytes. rewrite (view_clusters _ _ _ Hw). destruct (view_size _ _ _ Hw) as [_ ->].
    pose proof (len_blocks _ _ _ (view_sized _ _ _ Hw)) as Hlb. unfold fcsize in Hlb.
    rewrite overwrite_take by (rewrite ?Hlt; unfold word, fcsize in *; lia). rewrite Hlt. f_equal.
    change (f_fs (with_entry f3 (Some e'))) with (set_disk (f_fs f) d).
    rewrite (blocks_splice (fcsize f) (cluster_data (f_fs f)) _ cs (Z.to_nat i) c r (take (Z.to_nat n) bs)); [|by eapply view_NoDup|by eapply view_sized|done|lia|lia|exact Hcd2|].
    + f_equal. lia.
    + intros x Hx Hne. apply Hck2; [by apply (vw_data _ _ _ Hw)|done].
  - unfold file_cap, free_count. rewrite (view_clusters _ _ _ Hw3), (view_clusters _ _ _ Hw).
    change (ftable (with_entry f3 (Some e'))) with (fat_data (set_disk (f_fs f) d)). by rewrite Ht2.
Qed.
Lemma file_write_ok f e cs bs : view f e cs → Forall (word 8) bs → f_offset f + len bs <= file_cap f →
  ∃ n f' e' cs', file_write bs f = Ret (Ok n, f') ∧ view f' e' cs' ∧ file_cap f' = file_cap f ∧ 0 <= n <= len bs ∧
    (0 < len bs → 0 < n ∧ marked (f_fs f')) ∧ file_bytes f' = overwrite (f_offset f) (take (Z.to_nat n) bs) (file_bytes f) ∧
    f_offset f' = f_offset f + n ∧ write_frame f f' cs cs'.
Proof.
  intros Hw Hby Hcap. pose proof (vw_vol _ _ _ Hw) as Hv. destruct (fcsize_range f Hv) as [Hr Hcs].
  pose proof (vw_pos _ _ _ Hw) as Hp. pose proof (vw_size _ _ _ Hw) as Hsz. unfold word in Hsz.
  assert (file_cap f <= MAX_FILE_SIZE) as Hmax by (unfold file_cap; lia). pose proof (len_nonneg bs).
  unfold file_write. fthis. rewrite Hcs. unfold urem. destruct (Z.eqb_spec (fcsize f) 0); [lia|]. rewrite lift_Ret. cbv zeta.
  set (r := f_offset f mod fcsize f). pose proof (Z.mod_pos_bound (f_offset f) (fcsize f)) as Hmod. fold r in Hmod.
  unfold MAX_FILE_SIZE in *. rewrite !(wrap_small 32) by (unfold word; lia).
  set (m := Z.min (Z.min (len bs) (fcsize f - r)) (2 ^ 32 - 1 - f_offset f)).
  destruct (Z.eqb_spec m 0) as [E|E].
  { exists 0, f, e, cs. split; [done|]. split; [done|]. split; [done|]. split; [lia|]. split; [lia|].
    rewrite overwrite_nil by lia. split; [done|]. split; [lia|].
    split; [done|by left|done|done|by apply disk_kept_same|done|done]. }
  destruct (set_dirty_ok (f_fs f) Hv) as (fs0&Hd0&Hv0&Hm0&Hk0&_&Ht0&Hc0&Hdk0&Hmk0).
  fstep (on_fs_Ret _ f _ _ Hd0). set (f0 := with_fs f fs0).
  assert (view f0 e cs) as Hw0 by (by apply view_with_fs). pose proof Hk0 as (Hb0&Hty0&Hn0&_).
  assert (fcsize f0 = fcsize f) as Hcs0 by (unfold fcsize; cbn; by rewrite Hb0).
  assert (∀ c, c ∈ cs → cluster_data (f_fs f0) c = cluster_data (f_fs f) c) as Hsame0.
  { intros c Hc. apply Hc0; [by apply (vw_data _ _ _ Hw)|by intros []]. }
  destruct (view_same f e cs f0 e Hw Hw0) as [Hbytes0 Hcap0]; [done|done|exact Ht0|exact Hty0|exact Hn0|exact Hcs0|].
  assert (∃ f1 e1 cs1 c, (if r =? 0 then cluster_for_write else match current_cluster f with Some n => mret n | None => fpanic end) f0
      = Ret (Ok c, f1) ∧ view f1 e1 cs1 ∧ cs1 !! Z.to_nat (f_offset f / fcsize f) = Some c ∧ f_offset f1 = f_offset f ∧
      e_size (ed_data e1) = e_size (ed_data e) ∧ grown f0 f1 cs cs1 ∧ disk_kept fs0 (f_fs f1) (λ _, False) ∧ marked (f_fs f1))
      as (f1&e1&cs1&c&H1&Hw1&Hc&Ho1&Hs1&Hg0&Hdk1&Hm1).
  { destruct (Z.eqb_spec r 0) as [Er|Er].
    - destruct (cluster_for_write_ok f0 e cs Hw0 Hm0) as (f1&e1&cs1&c&H1&Hw1&Hm1&Hc&Ho&Hs&Hg&Hdk);
        [by rewrite Hcs0|rewrite Hcap0; change (f_offset f0) with (f_offset f); lia|].
      exists f1, e1, cs1, c. rewrite Hcs0 in Hc. by split.
    - pose proof (vw_current _ _ _ Hw) as Hcur. destruct (Z.eqb_spec (f_offset f) 0) as [E0|E0].
      { exfalso. apply Er. unfold r. by rewrite E0, Z.mod_0_l by lia. }
      pose proof (vw_room _ _ _ Hw). destruct (view_index f e cs (f_offset f - 1) Hw) as [c Hc]; [lia|lia|].
      rewrite Hc in Hcur. exists f0, e, cs, c. rewrite Hcur. split; [done|]. split; [done|].
      rewrite inner_index in Hc by (done || lia). split; [done|]. split; [done|]. split; [done|].
      split; [|split; [by apply disk_kept_same|done]].
      eapply grown_refl; [exact Hw0|exact Hw0|done|done|done]. }
  fstep H1. assert (grown f f1 cs cs1) as Hg by (by apply (grown_after f f0)).
  pose proof (gr_kept _ _ _ _ Hg) as Hk1. pose proof Hk1 as (Hb1&Hty1&Hn1&_).
  assert (fcsize f1 = fcsize f) as Hcs1 by (unfold fcsize; by rewrite Hb1).
  assert (len (take (Z.to_nat m) bs) = m) as Hlm by (unfold len in *; rewrite length_take; lia).
  assert (wrap64 (offset_from_cluster (f_fs f) c + r) = wrap64 (offset_from_cluster (f_fs f1) c + r)) as ->.
  { destruct (vw_data _ _ _ Hw1 c) as [Hdc _]; [by eapply list_elem_of_lookup_2|].
    destruct (cluster_offset (f_fs f1) c r (vw_vol _ _ _ Hw1) Hdc) as [-> _]; [unfold fcsize in *; lia|].
    rewrite Hb1. apply (cluster_offset (f_fs f) c r Hv); [|unfold fcsize in *; lia].
    unfold ftotal in Hdc. by rewrite Hn1 in Hdc. }
  destruct (write_in_cluster f1 e1 cs1 c (take (Z.to_nat m) bs) Hw1) as (n'&f2&e2&H2&Hw2&Hn2&Hb2&Ho2&Hcap2&Hk2&Ht2&Hc2&Hdk2&Hm2).
  { by rewrite Ho1, Hcs1. } { lia. } { rewrite Ho1, Hcs1. fold r. lia. } { unfold MAX_FILE_SIZE. lia. } { by apply Forall_take. }
  rewrite Ho1, Hcs1 in H2. fold r in H2. exists n', f2, e2, cs1. split; [exact H2|]. split; [done|].
  split; [rewrite Hcap2; apply (gr_cap _ _ _ _ Hg)|]. split; [lia|]. split; [split; [lia|by apply Hm2]|].
  rewrite take_take in Hb2. replace (Z.to_nat n' `min` Z.to_nat m)%nat with (Z.to_nat n') in Hb2 by lia.
  rewrite Hb2, Ho1, (grown_bytes f f1 e e1 cs cs1) by done. split; [done|]. split; [lia|].
  destruct (vw_data _ _ _ Hw1 c) as [Hdc _]; [by eapply list_elem_of_lookup_2|]. unfold ftotal in Hdc. rewrite Hn1 in Hdc.
  pose proof (mark_disk (f_fs f) fs0 (f_fs f1) (f_fs f2) c Hv Hk0 Hk1 (Hm2 Hm1) Hdc Hmk0 Hdk1 Hdk2) as Hmark. split.
  - by eapply kept_trans.
  - apply (gr_new _ _ _ _ Hg).
  - intros y Hy Hnin. rewrite Ht2. by apply (gr_table _ _ _ _ Hg).
  - intros x Hx Hnin. rewrite Hc2, (gr_data _ _ _ _ Hg); [done|done|by intros []|by rewrite Hn1|].
    intros ->. apply Hnin. by eapply list_elem_of_lookup_2.
  - apply (disk_kept_trans (f_fs f) (f_fs f1) _ (λ p, p = mark_at (f_fs f)) (in_cluster (f_fs f1) c)); [done| |done|by left|].
    + apply (disk_kept_trans (f_fs f) fs0 _ (λ p, p = mark_at (f_fs f)) (λ _, False)); [done|done|done|done|done].
    + unfold in_cluster. rewrite Hb1. intros p Hpc. right. exists c. split; [by eapply list_elem_of_lookup_2|exact Hpc].
  - apply Hmark.
  - apply Hmark.
Qed.

(** *** Truncating *)

Definition cut_entry f e : DirEntryEditor :=
  let e := editor_set_size e (f_offset f) in
  if f_offset f =? 0 then editor_set_first_cluster e None (ftype f) else e.

Lemma cut_entry_kept f e : entry_is_file (ed_data e) = true →
  e_size (ed_data (cut_entry f e)) = f_offset f ∧ entry_is_file (ed_data (cut_entry f e)) = true ∧
  entry_first_cluster (ed_data (cut_entry f e)) (ftype f) =
    if f_offset f =? 0 then None else entry_first_cluster (ed_data e) (ftype f).
Proof.
  intros Hf. unfold cut_entry. set (m := editor_set_size e (f_offset f)).
  assert (e_size (ed_data m) = f_offset f ∧ entry_is_file (ed_data m) = true ∧
    ∀ t, entry_first_cluster (ed_data m) t = entry_first_cluster (ed_data e) t) as (Hs&Hfm&Hl).
  { unfold m, editor_set_size, entry_size. rewrite Hf. destruct (Z.eqb_spec (f_offset f) (e_size (ed_data e))); [done|].
    split; [done|]. by split. }
  destruct (f_offset f =? 0); [|done]. unfold editor_set_first_cluster.
  case_bool_decide as E; [by rewrite E|].
  split; [done|]. split; [done|]. apply first_cluster_set; [done|]. destruct (ftype f); by vm_compute.
Qed.

(** The clusters up to the position. *)
Definition cut_chain f (cs : list Z) : list Z := take (Z.to_nat ((f_offset f + fcsize f - 1) / fcsize f)) cs.

(** The file [f'] after the chain was cut to [cut_chain f cs]. *)
Lemma view_cut f e cs fs' : view f e cs → vol_ok fs' → kept (f_fs f) fs' → clusters_kept (f_fs f) fs' (λ _, False) →
  let cs' := cut_chain f cs in
  let first := if f_offset f =? 0 then None else first_cluster f in
  match first with Some c => chain (ftype f) (fat_data fs') c cs' | None => cs' = [] end →
  (∀ x, x ∈ cs' → value (ftype f) (fat_data fs') x ≠ Free) →
  (∀ x, x ∈ cs → x ∉ cs' → value (ftype f) (fat_data fs') x = Free) →
  (∀ x, data_cluster (ftotal f) x → x ∉ cs → value (ftype f) (fat_data fs') x = value (ftype f) (ftable f) x) →
  let f' := mkFile first (current_cluster f) (f_offset f) (Some (cut_entry f e)) fs' in
  view f' (cut_entry f e) cs' ∧ file_bytes f' = take (Z.to_nat (f_offset f)) (file_bytes f) ∧ file_cap f' = file_cap f.
Proof.
  intros Hw Hv' Hk Hc cs' first Hch Hin Hfree Hout f'. pose proof Hk as (Hb&Hty&Hn&_).
  destruct (fcsize_range f (vw_vol _ _ _ Hw)) as [Hr _]. pose proof (vw_pos _ _ _ Hw) as Hp. pose proof (vw_room _ _ _ Hw) as Hroom.
  destruct (cut_entry_kept f e (vw_file _ _ _ Hw)) as (Hs&Hf&Hl). pose proof (vw_size _ _ _ Hw) as Hsz.
  assert (ftype f' = ftype f ∧ ftotal f' = ftotal f ∧ fcsize f' = fcsize f ∧ ftable f' = fat_data fs') as (Et&En&Ec&Etab).
  { unfold ftype, ftotal, fcsize, ftable, f'. cbn [f_fs]. by rewrite Hb, Hty, Hn. }
  set (k := (f_offset f + fcsize f - 1) / fcsize f) in *. unfold cut_chain in cs'. fold k in cs'.
  assert (f_offset f <= k * fcsize f /\ 0 <= k <= Z.of_nat (length cs)) as [Hk1 Hk2].
  { pose proof (Z.mul_succ_div_gt (f_offset f + fcsize f - 1) (fcsize f)). fold k in H. split; [lia|]. split.
    - apply Z.div_pos; lia.
    - assert (k < Z.of_nat (length cs) + 1); [|lia]. apply Z.div_lt_upper_bound; lia. }
  assert (length cs' = Z.to_nat k) as Hlen by (unfold cs'; rewrite length_take; lia).
  assert (∀ x, x ∈ cs' → x ∈ cs) as Hsub by (intros x; apply in_take).
  assert (view f' (cut_entry f e) cs') as Hw'.
  { split; rewrite ?Et, ?En, ?Ec, ?Etab, ?Hs; try done; cbn [f' first_cluster current_cluster f_offset].
    - unfold word in *. lia.
    - intros x Hx. split; [by apply (vw_data _ _ _ Hw), Hsub|by apply Hin].
    - rewrite Hlen. lia.
    - lia.
    - rewrite (vw_current _ _ _ Hw). destruct (Z.eqb_spec (f_offset f) 0); [done|]. unfold cs'. rewrite lookup_take_lt; [done|].
      pose proof (ceil_index (f_offset f) (fcsize f)). pose proof (Z.div_pos (f_offset f - 1) (fcsize f)). fold k in H. lia.
    - rewrite Hl. unfold first. destruct (f_offset f =? 0); [done|]. apply (vw_link _ _ _ Hw). }
  split; [done|]. split.
  - unfold file_bytes. rewrite (view_clusters _ _ _ Hw), (view_clusters _ _ _ Hw').
    destruct (view_size _ _ _ Hw) as [_ ->], (view_size _ _ _ Hw') as [_ ->]. rewrite Hs, take_take.
    replace (Z.to_nat (f_offset f) `min` Z.to_nat (e_size (ed_data e)))%nat with (Z.to_nat (f_offset f)) by lia.
    change (f_fs f') with fs'. rewrite (blocks_ext (cluster_data (f_fs f)) (cluster_data fs') cs').
    + assert (blocks (cluster_data (f_fs f)) cs = blocks (cluster_data (f_fs f)) cs' ++ blocks (cluster_data (f_fs f)) (drop (Z.to_nat k) cs)) as ->
        by (unfold cs'; by rewrite <- blocks_app, take_drop).
      rewrite take_app_le; [done|].
      pose proof (len_blocks (fcsize f) (cluster_data (f_fs f)) cs') as Hlb. rewrite Hlen in Hlb. unfold len in Hlb.
      assert (sized (fcsize f) (cluster_data (f_fs f)) cs') by (intros x Hx; by apply (view_sized _ _ _ Hw), Hsub).
      specialize (Hlb H). lia.
    + intros x Hx. apply Hc; [by apply (vw_data _ _ _ Hw), Hsub|by intros []].
  - unfold file_cap, free_count. rewrite (view_clusters _ _ _ Hw), (view_clusters _ _ _ Hw'), Et, En, Ec, Etab, Hlen.
    rewrite (free_clusters_more _ (ftable f) (fat_data fs') (drop (Z.to_nat k) cs)).
    + rewrite length_drop. do 2 f_equal. lia.
    + pose proof (view_NoDup _ _ _ Hw) as Hnd. rewrite <- (take_drop (Z.to_nat k) cs) in Hnd. by apply list.NoDup_app in Hnd as (_&_&?).
    + intros x Hx. pose proof (in_drop _ _ _ Hx) as Hxc. destruct (vw_data _ _ _ Hw x Hxc) as [Hd Hnf].
      split; [unfold data_cluster in Hd; lia|]. split; [done|]. apply Hfree; [done|]. intros Hx'.
      pose proof (view_NoDup _ _ _ Hw) as Hnd. rewrite <- (take_drop (Z.to_nat k) cs) in Hnd.
      apply list.NoDup_app in Hnd as (_&Hd'&_). by apply (Hd' x).
    + intros x Hx Hnd. destruct (decide (x ∈ cs')) as [Hx'|Hx'].
      * pose proof (Hin x Hx'). pose proof (vw_data _ _ _ Hw x (Hsub x Hx')) as [_ ?]. done.
      * rewrite Hout; [done|unfold data_cluster; lia|]. rewrite <- (take_drop (Z.to_nat k) cs), elem_of_app. by intros [].
Qed.

(** The position in the cluster it ends in, for a position with a cluster. *)
Lemma cut_chain_last f e cs : view f e cs → f_offset f ≠ 0 →
  ∃ c0 c i, first_cluster f = Some c0 ∧ current_cluster f = Some c ∧ chain (ftype f) (ftable f) c0 cs ∧ cs !! i = Some c ∧
    cut_chain f cs = take (S i) cs.
Proof.
  intros Hw Hne. destruct (fcsize_range f (vw_vol _ _ _ Hw)) as [Hr _]. pose proof (vw_pos _ _ _ Hw) as Hp.
  pose proof (vw_room _ _ _ Hw). destruct (view_index f e cs (f_offset f - 1) Hw) as [c Hc]; [lia|lia|].
  pose proof (vw_current _ _ _ Hw) as Hcur. destruct (Z.eqb_spec (f_offset f) 0); [done|]. rewrite Hc in Hcur.
  pose proof (vw_chain _ _ _ Hw) as Hch. destruct (first_cluster f) as [c0|]; [|by subst cs].
  exists c0, c, (Z.to_nat ((f_offset f - 1) / fcsize f)). do 4 (split; [done|]). unfold cut_chain. f_equal.
  rewrite ceil_index by lia. pose proof (Z.div_pos (f_offset f - 1) (fcsize f)). lia.
Qed.

Lemma cut_chain_0 f cs : vol_ok (f_fs f) → f_offset f = 0 → cut_chain f cs = [].
Proof.
  intros Hv Ho. destruct (fcsize_range f Hv) as [Hr _]. unfold cut_chain. rewrite Ho, Z.div_small by lia. done.
Qed.

(** What [truncate] does of a file with the clusters [cs]. *)
Record truncated f cs f' : Prop := {
  tr_entry : ∃ e', view f' e' (cut_chain f cs);
  tr_bytes : file_bytes f' = take (Z.to_nat (f_offset f)) (file_bytes f);
  tr_pos : f_offset f' = f_offset f;
  tr_cap : file_cap f' = file_cap f;
  tr_kept : kept (f_fs f) (f_fs f');
  tr_clusters : clusters_kept (f_fs f) (f_fs f') (λ _, False);
  tr_freed x : x ∈ cs → x ∉ cut_chain f cs → value (ftype f) (ftable f') x = Free;
  tr_table x : data_cluster (ftotal f) x → x ∉ cs → value (ftype f) (ftable f') x = value (ftype f) (ftable f) x }.

Lemma truncate_entry f e : f_entry f = Some e →
  truncate f = match current_cluster f with
    | Some c => on_fs (truncate_cluster_chain c)
    | None => match first_cluster f with
              | Some n => _ ← on_fs (free_cluster_chain n); f ← this; put_file (with_first f None)
              | None => mret tt
              end
    end (with_entry f (Some (cut_entry f e))).
Proof.
  intros He. unfold truncate. fthis. rewrite He. unfold on_entry, mbind at 1, FM_bind at 1. rewrite He. cbn [option_map].
  by destruct (current_cluster f), (first_cluster f).
Qed.

Lemma truncate_to_start f e cs : view f e cs → marked (f_fs f) → f_offset f = 0 →
  ∃ f', truncate f = Ret (Ok tt, f') ∧ truncated f cs f'.
Proof.
  intros Hw Hm E. pose proof (vw_vol _ _ _ Hw) as Hv. pose proof (view_cut f e cs) as Hcut. cbv zeta in Hcut.
  rewrite (truncate_entry f e (vw_entry _ _ _ Hw)). pose proof (cut_chain_0 f cs Hv E) as Hcs'. rewrite Hcs' in Hcut.
  assert (current_cluster f = None) as Hcur by (rewrite (vw_current _ _ _ Hw), E; done).
  rewrite Hcur, E in Hcut. cbn [Z.eqb] in Hcut. rewrite Hcur. destruct (vol_table _ Hv) as [_ Hfit].
  pose proof (vw_chain _ _ _ Hw) as Hch. destruct (first_cluster f) as [c0|] eqn:Hf0.
  - destruct (fs_free_ok (f_fs f) c0 cs Hv Hm Hch) as (fs'&Hr&Hv'&_&Hk&Hc&(_&Hin&Hout)&_); [by apply (vw_data _ _ _ Hw)|].
    destruct (Hcut fs' Hw Hv' Hk Hc eq_refl) as (Hw'&Hb&Hcap);
      [set_solver|by intros; apply Hin|by intros; apply Hout; [apply Hfit|]|].
    eexists. split; [fstep (on_fs_Ret _ (with_entry f (Some (cut_entry f e))) _ _ Hr); fthis; unfold put_file; done|].
    unfold with_first, with_fs, with_entry. cbn [current_cluster f_offset f_entry f_fs]. rewrite Hcur, E.
    split; [rewrite Hcs'; by exists (cut_entry f e)|rewrite E; exact Hb|done|exact Hcap|done|done| |].
    + intros x Hx _. by apply Hin.
    + intros x Hx Hnin. by apply Hout; [apply Hfit|].
  - subst cs. destruct (Hcut (f_fs f) Hw Hv) as (Hw'&Hb&Hcap); try done; [set_solver..|].
    eexists. split; [done|]. unfold with_entry. rewrite Hf0, Hcur, E.
    split; [rewrite Hcs'; by exists (cut_entry f e)|rewrite E; exact Hb|done|exact Hcap|done|done|set_solver|done].
Qed.

Lemma truncate_inside f e cs : view f e cs → marked (f_fs f) → f_offset f ≠ 0 →
  ∃ f', truncate f = Ret (Ok tt, f') ∧ truncated f cs f'.
Proof.
  intros Hw Hm E. pose proof (vw_vol _ _ _ Hw) as Hv. pose proof (view_cut f e cs) as Hcut. cbv zeta in Hcut.
  rewrite (truncate_entry f e (vw_entry _ _ _ Hw)). apply Z.eqb_neq in E as E'. rewrite E' in Hcut.
  destruct (cut_chain_last f e cs Hw E) as (c0&c&i&Hf0&Hcc&Hch&Hi&Hcs'). rewrite Hcs', Hcc in Hcut. rewrite Hcc.
  pose proof (chain_drop _ _ _ _ _ _ Hch Hi) as Hsuf. rewrite (drop_S _ _ _ Hi) in Hsuf.
  pose proof (view_NoDup _ _ _ Hw) as Hnd. pose proof (take_drop_middle cs i c Hi) as Hsplit. rewrite <- Hsplit in Hnd.
  apply list.NoDup_app in Hnd as (_&Hd1&(Hd2&_)%list.NoDup_cons).
  assert (∀ x, x ∈ cs ↔ x ∈ take i cs ∨ x = c ∨ x ∈ drop (S i) cs) as Hmem
    by (intros x; rewrite <- Hsplit at 1; rewrite elem_of_app, elem_of_cons; done).
  assert (∀ x, x ∈ take (S i) cs ↔ x ∈ take i cs ∨ x = c) as Htake
    by (intros x; rewrite (take_S_r _ _ _ Hi), elem_of_app, list_elem_of_singleton; done).
  destruct (fs_truncate_ok (f_fs f) c (drop (S i) cs) Hv Hm Hsuf) as (fs'&Hr&Hv'&_&Hk&Hc&He1&He2&He3).
  { intros x Hx. apply (vw_data _ _ _ Hw), Hmem. set_solver. }
  destruct (vol_table _ Hv) as [_ Hfit].
  assert (∀ x, x ∈ take i cs → value (ftype f) (fat_data fs') x = value (ftype f) (ftable f) x) as Hpre.
  { intros x Hx. apply He3; [by eapply chain_fits, Hmem; [|left]|intros ->|intros Hd]; apply (Hd1 _ Hx); set_solver. }
  assert (∀ x, x ∈ cs → x ∉ take (S i) cs → value (ftype f) (fat_data fs') x = Free) as Hfree.
  { intros x Hx. rewrite Htake. intros Hn. apply He2. apply Hmem in Hx. tauto. }
  assert (∀ x, data_cluster (ftotal f) x → x ∉ cs → value (ftype f) (fat_data fs') x = value (ftype f) (ftable f) x) as Hout.
  { intros x Hx Hn. rewrite Hmem in Hn. apply He3; [by apply Hfit|tauto|tauto]. }
  destruct (Hcut fs' Hw Hv' Hk Hc) as (Hw'&Hb&Hcap); [| |done|done|].
  { rewrite Hf0. apply (chain_cut _ (ftable f) _ _ _ _ c); [done|done| |done|done].
    unfold ftable. rewrite !fat_data_len by done. by destruct Hk as [-> _]. }
  { intros x. rewrite Htake. intros [Hx| ->]; [|intros Hx; unfold ftype in Hx; congruence]. rewrite Hpre by done. apply (vw_data _ _ _ Hw), Hmem. by left. }
  eexists. split; [exact (on_fs_Ret _ (with_entry f (Some (cut_entry f e))) _ _ Hr)|].
  unfold with_fs, with_entry. cbn [first_cluster current_cluster f_offset f_entry]. rewrite Hcc.
  split; [rewrite Hcs'; by exists (cut_entry f e)|exact Hb|done|exact Hcap|done|done| |exact Hout].
  intros x. rewrite Hcs'. apply Hfree.
Qed.

Lemma file_truncate_ok f e cs : view f e cs → marked (f_fs f) →
  ∃ f', truncate f = Ret (Ok tt, f') ∧ truncated f cs f'.
Proof.
  intros Hw Hm. destruct (Z.eq_dec (f_offset f) 0); [by eapply truncate_to_start|by eapply truncate_inside].
Qed.

(** *** The contract of the kernel's FAT files *)

#[export, program] Instance File_file_stream : FileStream (File D) := {
  fok f := ∃ e cs, view f e cs;
  fdata := file_bytes;
  fpos := f_offset;
  fcap := file_cap }.
Next Obligation.
  intros f (e&cs&Hw). rewrite (view_len _ _ _ Hw). pose proof (vw_pos _ _ _ Hw). pose proof (vw_size _ _ _ Hw) as Hs.
  unfold word in Hs. split; [done|]. unfold file_cap, MAX_FILE_SIZE, free_count. rewrite (view_clusters _ _ _ Hw).
  pose proof (vw_room _ _ _ Hw). destruct (fcsize_range f (vw_vol _ _ _ Hw)). nia.
Qed.
Next Obligation.
  intros f n (e&cs&Hw) Hn. destruct (file_read_ok f e cs n Hw Hn) as (bs&f'&e'&Hr&Hw'&Hb&Hc&H4). exists bs, f'.
  split; [done|]. split; [by exists e', cs|]. by split.
Qed.
Next Obligation.
  intros f bs (e&cs&Hw) Hby Hroom. destruct (file_write_ok f e cs bs Hw Hby Hroom) as (n&f'&e'&cs'&Hr&Hw'&Hc&Hn&Hp&Hb&Ho&_).
  exists n, f'. split; [done|]. split; [by exists e', cs'|]. assert (0 < len bs → 0 < n) by (intros ?; by apply Hp). done.
Qed.
Next Obligation.
  intros f sf (e&cs&Hw) t. pose proof (file_seek_ok f e cs sf Hw) as H. cbv zeta in H. unfold t.
  rewrite (view_len _ _ _ Hw). destruct ((0 <=? _) && _); [|exact H].
  destruct H as (f'&Hs&Hw'&Ho&Hb&Hc). exists f'. split; [done|]. split; [by exists e, cs|]. done.
Qed.
End file.

(** ** The claims *)

Section claims.
Context {D : Type} {HD : Stream D} {SS : StreamSpec D} {TP : TimeProvider}.
Implicit Types f : File D.

(** C13. The driver's file on a mounted volume implements a growing byte
    sequence with a position: a read returns bytes at the position, some when
    there are some; a write that the free clusters have room for overwrites or
    extends the bytes by a non-empty prefix of the buffer, and changes, of the
    disk, only the file's own clusters, its chain in the tables, to which it may
    add one cluster that was free, and the byte of the boot sector that marks
    the volume dirty, which is set when it was not: the entries of the other
    clusters stay, and so does every byte outside the tables and the file's
    clusters, and tables that were copies of each other stay so; a seek moves inside the file or is refused. *)
Theorem disk_file_is_byte_sequence f e cs (n : Z) bs (sf : SeekFrom) :
  view f e cs → 0 <= n → Forall (word 8) bs → f_offset f + len bs <= file_cap f →
  (∃ out f' e', file_read n f = Ret (Ok out, f') ∧ view f' e' cs ∧ file_bytes f' = file_bytes f ∧
     out = bytes_at (f_offset f) (len out) (file_bytes f) ∧ len out <= n ∧ f_offset f' = f_offset f + len out ∧
     (0 < n → f_offset f < len (file_bytes f) → 0 < len out)) ∧
  (∃ m f' e' cs', file_write bs f = Ret (Ok m, f') ∧ view f' e' cs' ∧ 0 <= m <= len bs ∧ (0 < len bs → 0 < m ∧ marked (f_fs f')) ∧
     file_bytes f' = overwrite (f_offset f) (take (Z.to_nat m) bs) (file_bytes f) ∧ f_offset f' = f_offset f + m ∧
     file_cap f' = file_cap f ∧ write_frame f f' cs cs') ∧
  (let t := seek_target (f_offset f) (len (file_bytes f)) sf in
   if (0 <=? t) && (t <? 2 ^ 32)
   then ∃ f', file_seek sf f = Ret (Ok (Z.min t (len (file_bytes f))), f') ∧ view f' e cs ∧
          file_bytes f' = file_bytes f ∧ f_offset f' = Z.min t (len (file_bytes f))
   else file_seek sf f = Ret (Err EInvalidInput, f)).
Proof.
  intros Hw Hn Hby Hroom. split; [|split].
  - destruct (file_read_ok f e cs n Hw Hn) as (out&f'&e'&Hr&Hw'&Hb&_&Ho&Hl&Hp&Hpr). exists out, f', e'. by split_and!.
  - destruct (file_write_ok f e cs bs Hw Hby Hroom) as (m&f'&e'&cs'&Hr&Hw'&Hc&Hm&Hpr&Hb&Hp&Hf). exists m, f', e', cs'. repeat (split; [done|]); done.
  - pose proof (file_seek_ok f e cs sf Hw) as H. cbv zeta in *. rewrite (view_len _ _ _ Hw).
    destruct ((0 <=? _) && _); [|exact H]. destruct H as (f'&Hs&Hw'&Hp&Hb&_). exists f'. by split_and!.
Qed.

(** C15. Through the whole stack - the kernel's file, the driver's file, the
    allocation table, the disk - bytes written at the position are read back
    after a seek to where they were written, when the volume has room. *)
Theorem volume_write_read_back (self : FatFile) f e cs buf back :
  view f e cs → readable self = true → writable self = true → Forall (word 8) buf → len back = len buf →
  f_offset f + len buf <= file_cap f →
  ∃ f1 f2 f3, fat_write self buf f = Ret (Some (len buf), f1) ∧
    fat_seek (SStart (f_offset f)) f1 = Ret (Some (f_offset f), f2) ∧
    fat_read self back f2 = Ret ((Some (len buf), buf), f3) ∧
    file_bytes f3 = overwrite (f_offset f) buf (file_bytes f).
Proof.
  intros Hw Hr Hwr Hby Hlen Hroom. assert (fok f) as Hf by (by exists e, cs). pose proof (len_nonneg buf).
  pose proof (fok_bounds f Hf) as [Hp Hc]. cbn [fpos fdata fcap File_file_stream] in Hp, Hc.
  destruct (fat_write_ok self buf f Hf Hwr Hby Hroom) as (f1&H1&Hf1&Hc1&Hd1&Hp1). exists f1.
  cbn [fpos fdata fcap File_file_stream] in Hc1, Hd1, Hp1.
  assert (len (file_bytes f1) = Z.max (len (file_bytes f)) (f_offset f + len buf)) as Hl1 by (rewrite Hd1; by apply len_overwrite).
  destruct (fat_seek_start_ok f1 (f_offset f) Hf1) as (f2&H2&(k&(Hf2&Hc2&Hd2)&Hk&_)&Hp2); [cbn; lia|].
  cbn [fpos fdata fcap File_file_stream] in Hc2, Hd2, Hk, Hp2. assert (k = 0%nat) as -> by lia.
  cbn [repeat] in Hd2. rewrite app_nil_r in Hd2. rewrite Hd2, Z.min_l in Hp2 by lia.
  destruct (fat_read_ok self back f2 Hf2 Hr) as (f3&H3&_&Hd3&_). cbn [fpos fdata File_file_stream] in H3, Hd3.
  rewrite Hp2, Hd2, Hlen, Z.min_l in H3 by lia. rewrite Hd1, bytes_at_overwrite_same in H3 by lia.
  exists f2, f3. split; [done|]. split; [done|]. split; [|by rewrite Hd3, Hd2].
  rewrite H3. do 3 f_equal. by apply splice_all.
Qed.

(** On a volume marked dirty, truncating a file at its position leaves the
    bytes before the position, keeps the clusters they are in and frees every
    other cluster of the file, down to none; entries of clusters that were not
    the file's and all clusters' bytes stay, and what the file gives up the
    volume has again. *)
Theorem disk_file_truncates f e cs : view f e cs → marked (f_fs f) →
  ∃ f', truncate f = Ret (Ok tt, f') ∧ (∃ e', view f' e' (cut_chain f cs)) ∧
    file_bytes f' = take (Z.to_nat (f_offset f)) (file_bytes f) ∧ f_offset f' = f_offset f ∧ file_cap f' = file_cap f ∧
    (∀ x, x ∈ cs → x ∉ cut_chain f cs → value (ftype f) (ftable f') x = Free) ∧
    (∀ x, data_cluster (ftotal f) x → x ∉ cs → value (ftype f) (ftable f') x = value (ftype f) (ftable f) x) ∧
    clusters_kept (f_fs f) (f_fs f') (λ _, False).
Proof.
  intros Hw Hm. destruct (file_truncate_ok f e cs Hw Hm) as (f'&Hr&[]). exists f'. by repeat (split; [done|]).
Qed.
End claims.

(** ** A small volume, for the witnesses

    20 sectors of 512 bytes: the boot sector, two tables of one sector, a root
    directory of one sector and 16 clusters of one sector.  The file has 700
    bytes in the clusters 2 and 3. *)
Module SmallVolume.
Definition bpb : BiosParameterBlock :=
  mkBpb 512 1 1 2 16 20 0xF8 1 0x20 0x40 0 0 0 0 0 0 0 0 (replicate 12 0) 0 0 0x29 0x12345678
    (replicate 11 0x20) (replicate 8 0x20).

Definition fat_bytes : list Z := [0xF8; 0xFF; 0xFF; 0x03; 0xF0; 0xFF] ++ replicate 506 0.

Definition bytes_of_disk : list Z :=
  replicate 512 0 ++ fat_bytes ++ fat_bytes ++ replicate 512 0 ++ replicate 512 5 ++ replicate 512 6 ++ replicate (14 * 512) 0.

Definition volume : FileSystem MemDisk :=
  mkFs (mkMem bytes_of_disk 0) fs_options_new Fat12 bpb 4 1 16 info_default (mkFlags false false).

Definition entry : DirEntryEditor :=
  mkEditor (mkEntry [72; 69; 76; 76; 79; 32; 32; 32; 84; 88; 84] ARCHIVE 0 0 0 0x21 0x21 0 0 0x21 2 700) 1536 false.

(** The file at its end. *)
Definition file : File MemDisk := mkFile (Some 2) (Some 3) 700 (Some entry) volume.

Definition clock : TimeProvider := NullTimeProvider.

Lemma bpb_ok : bpb_word bpb.
Proof. split; split_and?; try (by apply bytes_compute); by vm_compute. Defined.

Lemma bpb_accepted : bpb_valid bpb.
Proof. destruct (bpb_validate_checks bpb bpb_ok tt) as [[H _]|[_ H]]; [exact H|]. vm_compute in H. discriminate H. Defined.

Lemma volume_ok : vol_ok volume.
Proof.
  split; try by vm_compute.
  - split; [|split; by vm_compute]. apply (bool_decide_eq_true_1 (Forall (word 8) bytes_of_disk)). by vm_compute.
  - apply bpb_ok.
  - apply bpb_accepted.
Defined.

Lemma file_view : view file entry [2; 3].
Proof.
  split.
  - apply volume_ok.
  - reflexivity.
  - by vm_compute.
  - by vm_compute.
  - apply chain_next with 3; [by vm_compute|by vm_compute|]. apply chain_end; [by vm_compute|].
    intros n H. vm_compute in H. discriminate H.
  - intros x [->|[->|[]%elem_of_nil]%elem_of_cons]%elem_of_cons; (split; [by vm_compute|]); intros H; vm_compute in H; discriminate H.
  - by vm_compute.
  - by vm_compute.
  - by vm_compute.
  - by vm_compute.
Defined.

(** The file at its position 100 on the volume marked dirty. *)
Definition marked_file : File MemDisk := mkFile (Some 2) (Some 2) 100 (Some entry) (set_flags volume (mkFlags true false)).

Lemma marked_view : view marked_file entry [2; 3].
Proof.
  apply (view_with_position (with_fs file (set_flags volume (mkFlags true false)))); [|by vm_compute|by vm_compute].
  apply view_with_fs; [exact file_view| |done|done]. apply vol_set_flags. exact volume_ok.
Defined.
End SmallVolume.

#[local] Existing Instance SmallVolume.clock.

Lemma disk_file_is_byte_sequence_witness : ∃ m f',
  file_write (replicate 400 9) SmallVolume.file = Ret (Ok m, f') ∧ 0 < m <= 400.
Proof.
  destruct (disk_file_is_byte_sequence SmallVolume.file SmallVolume.entry [2; 3] 0 (replicate 400 9) (SStart 0)) as (_&(m&f'&e'&cs'&H&_&Hm&Hp&_)&_).
  - exact SmallVolume.file_view.
  - lia.
  - apply (bool_decide_eq_true_1 (Forall (word 8) (replicate 400 9))). by vm_compute.
  - by vm_compute.
  - assert (len (replicate 400 9) = 400) as E by by vm_compute. rewrite E in Hm, Hp. exists m, f'. split; [exact H|]. split; [by apply Hp|lia].
Defined.

Lemma volume_write_read_back_witness : ∃ f1 f2 f3,
  fat_write (mkFatFile true true) (replicate 400 9) SmallVolume.file = Ret (Some 400, f1) ∧
  fat_seek (SStart 700) f1 = Ret (Some 700, f2) ∧
  fat_read (mkFatFile true true) (replicate 400 0) f2 = Ret ((Some 400, replicate 400 9), f3).
Proof.
  destruct (volume_write_read_back (mkFatFile true true) SmallVolume.file SmallVolume.entry [2; 3] (replicate 400 9) (replicate 400 0))
    as (f1&f2&f3&H1&H2&H3&_).
  - exact SmallVolume.file_view.
  - reflexivity.
  - reflexivity.
  - apply (bool_decide_eq_true_1 (Forall (word 8) (replicate 400 9))). by vm_compute.
  - reflexivity.
  - by vm_compute.
  - exists f1, f2, f3. split; [exact H1|]. split; [exact H2|exact H3].
Defined.

Lemma disk_file_truncates_witness : ∃ f', truncate SmallVolume.marked_file = Ret (Ok tt, f') ∧
  file_bytes f' = replicate 100 5 ∧ value Fat12 (ftable f') 3 = Free.
Proof.
  destruct (disk_file_truncates SmallVolume.marked_file SmallVolume.entry [2; 3]) as (f'&H1&_&H2&_&_&H3&_).
  - exact SmallVolume.marked_view.
  - reflexivity.
  - exists f'. split; [exact H1|]. split.
    + rewrite H2. by vm_compute.
    + apply (H3 3); [by right; left|]. intros H. assert (cut_chain SmallVolume.marked_file [2; 3] = [2]) as E by by vm_compute.
      rewrite E in H. by apply list_elem_of_singleton in H.
Defined.

(** ** A first write in two parts *)

(** A disk that takes a byte at a time, as [Write::write] may. *)
Module ByteDisk.
Definition stream : Stream MemDisk :=
  {| read := mem_read; write bs := mem_write (take 1 bs); seek := mem_seek; flush := mret tt;
     unexpected_eof_error := EIo; write_zero_error := EIo |}.

Definition at_512 : FileSystem MemDisk :=
  set_disk SmallVolume.volume (mkMem (mem_bytes (disk SmallVolume.volume)) 512).

(** The mark of the first write moves the disk: of two bytes written to the
    table through the adapter the second one goes behind the mark in the boot
    sector. *)
Lemma first_write_torn : ∃ fs', write_all (H := FsIoAdapter (H := stream)) [0xAA; 0xBB] at_512 = Ret (Ok tt, fs') ∧
  bytes_at 512 2 (mem_bytes (disk fs')) = [0xAA; 0xFF] ∧ bytes_at 0x25 2 (mem_bytes (disk fs')) = [1; 0xBB].
Proof. eexists. split; [by vm_compute|]. by vm_compute. Qed.
End ByteDisk.
