(* ===== verification/DirNames.v ===== *)
(** * Names in a FAT directory ([rust-fatfs/src/dir.rs], [dir_entry.rs])

    Paths, the check of a long name, long names in pieces - the generator that
    writes and the builder that reads them - and the generator of short names.
    A character is its code point, a [str] the list of its characters with its
    length in UTF-8; a unit is a [u16].  The driver is built with the features
    [alloc] and [lfn] and without [unicode], as the kernel builds it. *)

From S2P Require Import Prelude Bytes FatIo FatTime FatTable DirEntry BootSector FatFs.

(** ** Characters *)

Definition len_utf8 (c : Z) : Z :=
  if c <? 0x80 then 1 else if c <? 0x800 then 2 else if c <? 0x10000 then 3 else 4.

(** [str::len] *)
Fixpoint str_len (s : list Z) : Z := match s with [] => 0 | c :: s => len_utf8 c + str_len s end.

Definition ascii_uppercase (c : Z) : Z := if (0x61 <=? c) && (c <=? 0x7A) then c - 0x20 else c.

(** [char::encode_utf16] and [str::encode_utf16] *)
Definition encode_utf16_char (c : Z) : list Z :=
  if c <? 0x10000 then [c]
  else let c := c - 0x10000 in [0xD800 + Z.shiftr c 10; 0xDC00 + Z.land c 0x3FF].
Definition encode_utf16 (s : list Z) : list Z := s ≫= encode_utf16_char.

(** [char::decode_utf16]: characters, [None] for a unit without its partner. *)
Fixpoint decode_utf16 (us : list Z) : list (option Z) :=
  match us with
  | [] => []
  | u :: us' =>
      if (u <? 0xD800) || (0xDFFF <? u) then Some u :: decode_utf16 us'
      else if 0xDC00 <=? u then None :: decode_utf16 us'
      else match us' with
           | u2 :: us'' =>
               if (u2 <? 0xDC00) || (0xDFFF <? u2) then None :: decode_utf16 us'
               else Some (Z.lor (Z.shiftl (Z.land u 0x3FF) 10) (Z.land u2 0x3FF) + 0x10000) :: decode_utf16 us''
           | [] => [None]
           end
  end.

(** ** Paths *)

Definition SLASH : Z := 0x2F.

Fixpoint trim_start (p : list Z) : list Z :=
  match p with c :: p' => if c =? SLASH then trim_start p' else p | [] => [] end.
Definition trim_matches (p : list Z) : list Z := reverse (trim_start (reverse (trim_start p))).

(** What is before the first and what is behind it, if there is one. *)
Fixpoint split_once (c : Z) (p : list Z) : option (list Z * list Z) :=
  match p with
  | [] => None
  | x :: p => if x =? c then Some ([], p) else '(a, b) ← split_once c p; Some (x :: a, b)
  end.

Definition split_path (path : list Z) : list Z * option (list Z) :=
  let trimmed_path := trim_matches path in
  match split_once SLASH trimmed_path with
  | Some (name, rest) => (name, Some rest)
  | None => (trimmed_path, None)
  end.

(** ** Long names *)

Definition LFN_PADDING : Z := 0xFFFF.
Definition MAX_LONG_NAME_LEN : Z := 255.
Definition MAX_LONG_DIR_ENTRIES : Z := (MAX_LONG_NAME_LEN + LFN_PART_LEN - 1) / LFN_PART_LEN.

Definition in_range (a b c : Z) : bool := (a <=? c) && (c <=? b).
Definition alphanumeric (c : Z) : bool := in_range 0x61 0x7A c || in_range 0x41 0x5A c || in_range 0x30 0x39 c.

(** The characters of [$%'-_@~`!(){}. +,;=[]^#&] *)
Definition long_name_marks : list Z :=
  [0x24; 0x25; 0x27; 0x2D; 0x5F; 0x40; 0x7E; 0x60; 0x21; 0x28; 0x29; 0x7B; 0x7D; 0x2E; 0x20; 0x2B; 0x2C; 0x3B; 0x3D;
   0x5B; 0x5D; 0x5E; 0x23; 0x26].

Definition long_name_char (c : Z) : bool :=
  alphanumeric c || in_range 0x80 0xFFFF c || bool_decide (c ∈ long_name_marks).

Definition validate_long_name {D} (name : list Z) : FM D unit :=
  if bool_decide (name = []) then fail EInvalidFileNameLength
  else if MAX_LONG_NAME_LEN <? str_len name then fail EInvalidFileNameLength
  else if forallb long_name_char name then mret tt
  else fail EUnsupportedFileNameCharacter.

Definition lfn_checksum (short_name : list Z) : Z :=
  foldl (λ chksum b, wrap8 (wrap8 (wrap8 (Z.shiftl chksum 7) + Z.shiftr chksum 1) + b)) 0 short_name.

(** [LfnBuffer] is its vector of units; [Vec::resize] fills with zeros. *)
Definition LfnBuffer : Type := list Z.
Definition set_len (buf : LfnBuffer) (n : Z) : LfnBuffer :=
  take (Z.to_nat n) buf ++ replicate (Z.to_nat n - length buf) 0.

Record LongNameBuilder := mkBuilder { lb_buf : LfnBuffer; lb_chksum : Z; lb_index : Z }.

Implicit Types b : LongNameBuilder.

Definition builder_new : LongNameBuilder := mkBuilder [] 0 0.
Definition builder_clear b : LongNameBuilder := mkBuilder [] (lb_chksum b) 0.
Definition builder_is_empty b : bool := lb_index b =? 0.

(** The length without the zeros and the padding at the end. *)
Fixpoint name_units_len (us : list Z) : Z :=
  match us with
  | [] => 0
  | u :: us =>
      let n := name_units_len us in
      if 0 <? n then n + 1 else if (u =? 0xFFFF) || (u =? 0) then 0 else 1
  end.

Definition builder_truncate b : LongNameBuilder :=
  mkBuilder (set_len (lb_buf b) (name_units_len (lb_buf b))) (lb_chksum b) (lb_index b).

Definition builder_into_buf b : LfnBuffer :=
  lb_buf (if lb_index b =? 1 then builder_truncate b
          else if negb (builder_is_empty b) then builder_clear b else b).

(** [data.copy_name_to_slice(&mut self.buf.ucs2_units[pos..pos + 13])] *)
Definition builder_copy b (pos : Z) (data : DirLfnEntryData) : outcome LongNameBuilder :=
  if pos + 13 <=? len (lb_buf b)
  then Ret (mkBuilder (splice pos (copy_name_to_slice data) (lb_buf b)) (lb_chksum b) (lb_index b))
  else Panic.

Definition builder_process b (data : DirLfnEntryData) : outcome LongNameBuilder :=
  let is_last := negb (Z.land (l_order data) LFN_ENTRY_LAST_FLAG =? 0) in
  let index := Z.land (l_order data) 0x1F in
  if (index =? 0) || (MAX_LONG_DIR_ENTRIES <? index) then Ret (builder_clear b)
  else
    let pos := LFN_PART_LEN * (index - 1) in
    if is_last then
      builder_copy (mkBuilder (set_len (lb_buf b) (index * LFN_PART_LEN)) (l_checksum data) index) pos data
    else if (lb_index b =? 0) || negb (index =? lb_index b - 1) || negb (l_checksum data =? lb_chksum b)
    then Ret (builder_clear b)
    else builder_copy (mkBuilder (lb_buf b) (lb_chksum b) (lb_index b - 1)) pos data.

Definition builder_validate_chksum b (short_name : list Z) : LongNameBuilder :=
  if builder_is_empty b then b
  else if negb (lfn_checksum short_name =? lb_chksum b) then builder_clear b
  else b.

(** [slice::chunks] *)
Fixpoint chunks_fuel (fuel n : nat) (l : list Z) : list (list Z) :=
  match fuel, l with
  | S fuel, _ :: _ => take n l :: chunks_fuel fuel n (drop n l)
  | _, _ => []
  end.
Definition chunks (n : nat) (l : list Z) : list (list Z) := chunks_fuel (length l) n l.

Record LfnEntriesGenerator := mkLfnGen {
  name_parts_iter : list (list Z);
  lg_checksum : Z;
  lg_index : Z;
  lg_num : Z;
  lg_ended : bool }.

Definition lfn_gen_new (name_utf16 : list Z) (checksum : Z) : LfnEntriesGenerator :=
  mkLfnGen (reverse (chunks (Z.to_nat LFN_PART_LEN) name_utf16)) checksum 0
    ((len name_utf16 + LFN_PART_LEN - 1) / LFN_PART_LEN) false.

(** A piece padded: a zero behind a shorter one, then [0xFFFF]. *)
Definition lfn_part (name_part : list Z) : list Z :=
  let p := splice 0 name_part (replicate 13 LFN_PADDING) in
  if len name_part <? LFN_PART_LEN then splice (len name_part) [0] p else p.

Definition lfn_gen_next (g : LfnEntriesGenerator) : option DirLfnEntryData * LfnEntriesGenerator :=
  if lg_ended g then (None, g)
  else match name_parts_iter g with
       | name_part :: rest =>
           let order := wrap8 (lg_num g - lg_index g) in
           let order := if lg_index g =? 0 then Z.lor order LFN_ENTRY_LAST_FLAG else order in
           (Some (copy_name_from_slice (lfn_new order (lg_checksum g)) (lfn_part name_part)),
            mkLfnGen rest (lg_checksum g) (lg_index g + 1) (lg_num g) (lg_ended g))
       | [] => (None, mkLfnGen [] (lg_checksum g) (lg_index g) (lg_num g) true)
       end.

(** [ExactSizeIterator::len] *)
Definition lfn_gen_len (g : LfnEntriesGenerator) : Z := Z.of_nat (length (name_parts_iter g)).

(** The entries in the order in which they are written. *)
Fixpoint lfn_gen_all (n : nat) (g : LfnEntriesGenerator) : list DirLfnEntryData :=
  match n with
  | O => []
  | S n => match lfn_gen_next g with (Some e, g) => e :: lfn_gen_all n g | (None, _) => [] end
  end.
Definition lfn_entries (name_utf16 : list Z) (checksum : Z) : list DirLfnEntryData :=
  let g := lfn_gen_new name_utf16 checksum in lfn_gen_all (S (length (name_parts_iter g))) g.

(** ** Short names *)

Record ShortNameGenerator := mkGen {
  sg_chksum : Z;
  long_prefix_bitmap : Z;
  prefix_chksum_bitmap : Z;
  name_fits : bool;
  lossy_conv : bool;
  exact_match : bool;
  basename_len : Z;
  short_name : list Z }.

Implicit Types g : ShortNameGenerator.

Definition at_ (l : list Z) (i : Z) : Z := default 0 (l !! Z.to_nat i).

(** The characters of [!#$%&'()-@^_`{}~] *)
Definition short_name_marks : list Z :=
  [0x21; 0x23; 0x24; 0x25; 0x26; 0x27; 0x28; 0x29; 0x2D; 0x40; 0x5E; 0x5F; 0x60; 0x7B; 0x7D; 0x7E].
Definition short_name_char (c : Z) : bool := alphanumeric c || bool_decide (c ∈ short_name_marks).

(** The destination, the position in it and the two flags. *)
Fixpoint copy_short_name_part (dst : list Z) (dst_pos : nat) (lossy_conv : bool) (src : list Z)
    : list Z * Z * bool * bool :=
  match src with
  | [] => (dst, Z.of_nat dst_pos, true, lossy_conv)
  | c :: src =>
      if (dst_pos =? length dst)%nat then (dst, Z.of_nat dst_pos, false, lossy_conv)
      else if (c =? 0x20) || (c =? 0x2E) then copy_short_name_part dst dst_pos true src
      else
        let fixed_c := if short_name_char c then c else 0x5F in
        let lossy_conv := lossy_conv || negb (fixed_c =? c) in
        copy_short_name_part (<[dst_pos := ascii_uppercase fixed_c]> dst) (S dst_pos) lossy_conv src
  end.

Definition name_checksum (name : list Z) : Z :=
  foldl (λ chksum c, wrap16 (wrap16 (Z.shiftr chksum 1 + wrap16 (Z.shiftl chksum 15)) + wrap16 c)) 0 name.

(** What is before and behind the last [c]. *)
Fixpoint rsplit_once (c : Z) (p : list Z) : option (list Z * list Z) :=
  match p with
  | [] => None
  | x :: p =>
      match rsplit_once c p with
      | Some (a, b) => Some (x :: a, b)
      | None => if x =? c then Some ([], p) else None
      end
  end.

(** [&name[1..]], which panics inside of a character. *)
Definition str_tail (name : list Z) : outcome (Z * list Z) :=
  match name with
  | c :: rest => if len_utf8 c =? 1 then Ret (c, rest) else Panic
  | [] => Panic
  end.

Definition short_gen_new (name : list Z) : outcome ShortNameGenerator :=
  '(c, rest) ← str_tail name;
  let dot := rsplit_once 0x2E rest in
  let basename_src := match dot with Some (a, _) => c :: a | None => name end in
  let '(base, basename_len, basename_fits, basename_lossy) :=
    copy_short_name_part (replicate 8 SFN_PADDING) 0 false basename_src in
  let '(ext, name_fits, lossy_conv) :=
    match dot with
    | Some (_, ext_src) =>
        let '(ext, _, ext_fits, ext_lossy) := copy_short_name_part (replicate 3 SFN_PADDING) 0 false ext_src in
        (ext, basename_fits && ext_fits, basename_lossy || ext_lossy)
    | None => (replicate 3 SFN_PADDING, basename_fits, basename_lossy)
    end in
  Ret (mkGen (name_checksum name) 0 0 name_fits lossy_conv false basename_len (base ++ ext)).

Definition generate_dot : list Z := splice 0 [0x2E] (replicate 11 SFN_PADDING).
Definition generate_dotdot : list Z := splice 1 [0x2E] (splice 0 [0x2E] (replicate 11 SFN_PADDING)).

(** [char::to_digit] *)
Definition to_digit (radix c : Z) : option Z :=
  let d := if in_range 0x30 0x39 c then c - 0x30
           else if in_range 0x61 0x7A c then c - 0x61 + 10
           else if in_range 0x41 0x5A c then c - 0x41 + 10
           else radix in
  if d <? radix then Some d else None.

(** [char::from_digit], for a digit *)
Definition from_digit (d : Z) : Z := if d <? 10 then 0x30 + d else 0x61 + (d - 10).

Fixpoint parse_hex (acc : Z) (s : list Z) : option Z :=
  match s with
  | [] => Some acc
  | c :: s => d ← to_digit 16 c; parse_hex (acc * 16 + d) s
  end.

(** [u16::from_str_radix(s, 16)] of four characters, which fit: a sign may come first. *)
Definition u16_from_hex (s : list Z) : option Z :=
  match s with
  | 0x2B :: (_ :: _) as s' => parse_hex 0 s'
  | _ :: _ => parse_hex 0 s
  | [] => None
  end.

Definition u16_to_hex (x : Z) : list Z :=
  ascii_uppercase <$>
    [from_digit (Z.land (Z.shiftr x 12) 0xF); from_digit (Z.land (Z.shiftr x 8) 0xF);
     from_digit (Z.land (Z.shiftr x 4) 0xF); from_digit (Z.land x 0xF)].

Definition set_exact_match g : ShortNameGenerator :=
  mkGen (sg_chksum g) (long_prefix_bitmap g) (prefix_chksum_bitmap g) (name_fits g) (lossy_conv g) true
    (basename_len g) (short_name g).
Definition set_long_prefix g (n : Z) : ShortNameGenerator :=
  mkGen (sg_chksum g) (Z.lor (long_prefix_bitmap g) (wrap16 (Z.shiftl 1 n))) (prefix_chksum_bitmap g) (name_fits g)
    (lossy_conv g) (exact_match g) (basename_len g) (short_name g).
Definition set_prefix_chksum g (n : Z) : ShortNameGenerator :=
  mkGen (sg_chksum g) (long_prefix_bitmap g) (Z.lor (prefix_chksum_bitmap g) (wrap16 (Z.shiftl 1 n))) (name_fits g)
    (lossy_conv g) (exact_match g) (basename_len g) (short_name g).

Definition check_for_long_prefix_collision g (sn : list Z) : ShortNameGenerator :=
  let long_prefix_len := Z.min (basename_len g) 6 in
  if negb (at_ sn long_prefix_len =? 0x7E) then g
  else match to_digit 10 (at_ sn (long_prefix_len + 1)) with
       | Some num_suffix =>
           let long_prefix_matches :=
             bool_decide (bytes_at 0 long_prefix_len sn = bytes_at 0 long_prefix_len (short_name g)) in
           let ext_matches := bool_decide (bytes_at 8 3 sn = bytes_at 8 3 (short_name g)) in
           if long_prefix_matches && ext_matches then set_long_prefix g num_suffix else g
       | None => g
       end.

Definition check_for_short_prefix_collision g (sn : list Z) : ShortNameGenerator :=
  let short_prefix_len := Z.min (basename_len g) 2 in
  if negb (at_ sn (short_prefix_len + 4) =? 0x7E) then g
  else match to_digit 10 (at_ sn (short_prefix_len + 4 + 1)) with
       | Some num_suffix =>
           let short_prefix_matches :=
             bool_decide (bytes_at 0 short_prefix_len sn = bytes_at 0 short_prefix_len (short_name g)) in
           let ext_matches := bool_decide (bytes_at 8 3 sn = bytes_at 8 3 (short_name g)) in
           if short_prefix_matches && ext_matches then
             if bool_decide (u16_from_hex (bytes_at short_prefix_len 4 sn) = Some (sg_chksum g))
             then set_prefix_chksum g num_suffix else g
           else g
       | None => g
       end.

Definition add_existing g (sn : list Z) : ShortNameGenerator :=
  let g := if bool_decide (sn = short_name g) then set_exact_match g else g in
  let g := check_for_long_prefix_collision g sn in
  check_for_short_prefix_collision g sn.

Definition build_prefixed_name g (num : Z) (with_chksum : bool) : list Z :=
  let buf := replicate 11 SFN_PADDING in
  let '(buf, prefix_len) :=
    if with_chksum then
      let prefix_len := Z.min (basename_len g) 2 in
      let buf := splice 0 (bytes_at 0 prefix_len (short_name g)) buf in
      (splice prefix_len (u16_to_hex (sg_chksum g)) buf, prefix_len + 4)
    else
      let prefix_len := Z.min (basename_len g) 6 in
      (splice 0 (bytes_at 0 prefix_len (short_name g)) buf, prefix_len) in
  let buf := splice prefix_len [0x7E] buf in
  let buf := splice (prefix_len + 1) [from_digit num] buf in
  splice 8 (bytes_at 8 3 (short_name g)) buf.

(** The first number of the range whose bit is clear. *)
Definition first_clear (bitmap : Z) (range : list Z) : option Z :=
  head (filter (λ i, Z.land bitmap (wrap16 (Z.shiftl 1 i)) = 0) range).

Definition generate g : result (list Z) :=
  if negb (lossy_conv g) && name_fits g && negb (exact_match g) then Ok (short_name g)
  else match first_clear (long_prefix_bitmap g) (seqZ 1 4) with
       | Some i => Ok (build_prefixed_name g i false)
       | None =>
           match first_clear (prefix_chksum_bitmap g) (seqZ 1 9) with
           | Some i => Ok (build_prefixed_name g i true)
           | None => Err EAlreadyExists
           end
       end.

Definition next_iteration g : ShortNameGenerator :=
  mkGen (wrap16 (sg_chksum g + 1)) 0 0 (name_fits g) (lossy_conv g) (exact_match g) (basename_len g) (short_name g).

(** ** Comparing names *)

(** [Iterator::eq] of the characters in upper case; a unit that is no character never is. *)
Definition eq_name_lfn (lfn_utf16 name : list Z) : bool :=
  if 0 <? len lfn_utf16
  then bool_decide (fmap (option_map ascii_uppercase) (decode_utf16 lfn_utf16) = (λ c, Some (ascii_uppercase c)) <$> name)
  else false.

Definition eq_ignore_case (s : ShortName) (name : list Z) : bool :=
  bool_decide ((λ c, ascii_uppercase (oem_decode c)) <$> short_as_bytes s = ascii_uppercase <$> name).
