(* ===== verification/DirNamesSpec.v ===== *)
(** * Correctness of names in a FAT directory

    A long name written in pieces is read back; a generated short name is
    valid and none of the directory's; the search for one ends. *)

From S2P Require Import Prelude Bytes FatIo FatIoSpec FatTime FatTable DirEntry BootSector FatFs DirNames.

(** ** Long names *)

Implicit Types us : list Z.

Definition padding (u : Z) : Prop := u = 0 ∨ u = LFN_PADDING.

Lemma copy_name_same l part : len part = 13 → copy_name_to_slice (copy_name_from_slice l part) = part.
Proof.
  intros Hl. unfold copy_name_to_slice, copy_name_from_slice. cbn [l_name_0 l_name_1 l_name_2].
  rewrite <- !bytes_at_app by lia. by apply bytes_at_all.
Qed.

Lemma splice_start p l : len p <= len l → splice 0 p l = p ++ drop (length p) l.
Proof. intros. rewrite splice_overwrite by lia. unfold overwrite, len. cbn [Z.to_nat take app]. by rewrite Z.add_0_l, Nat2Z.id. Qed.

(** A piece with its padding. *)
Lemma lfn_part_eq p : len p <= 13 → ∃ pad, lfn_part p = p ++ pad ∧ Forall padding pad ∧ len (lfn_part p) = 13.
Proof.
  intros Hp. unfold lfn_part, LFN_PART_LEN. pose proof (len_nonneg p).
  set (R := replicate 13 LFN_PADDING). assert (len R = 13) as H13 by done.
  assert (∀ k, Forall padding (drop k R)) as Hf by (intros k; apply Forall_drop, Forall_replicate; by right).
  destruct (Z.ltb_spec (len p) 13) as [Hlt|Hge].
  - assert (splice (len p) [0] (splice 0 p R) = splice 0 (p ++ [0]) R) as ->.
    { rewrite splice_app by (rewrite ?len_app; change (len [0]) with 1; lia). by rewrite Z.add_0_l. }
    rewrite splice_start by (rewrite len_app; change (len [0]) with 1; lia). rewrite <- app_assoc. eexists. split; [done|].
    split; [constructor; [by left|apply Hf]|]. rewrite app_assoc, len_app, len_app. change (len [0]) with 1.
    unfold len in *. rewrite length_drop, length_app. simpl in *. lia.
  - rewrite splice_start by lia. eexists. split; [done|]. split; [apply Hf|]. rewrite len_app. unfold len in *. rewrite length_drop. lia.
Qed.

(** The entry of the piece [p] with the number [i], the first of them marked. *)
Definition lfn_entry (first : bool) (c i : Z) (p : list Z) : DirLfnEntryData :=
  copy_name_from_slice (lfn_new (if first then Z.lor i LFN_ENTRY_LAST_FLAG else i) c) (lfn_part p).

Fixpoint lfn_later (c : Z) (ps : list (list Z)) : list DirLfnEntryData :=
  match ps with [] => [] | p :: ps => lfn_entry false c (Z.of_nat (length ps) + 1) p :: lfn_later c ps end.

Lemma lfn_gen_later n c ps : Z.of_nat (length ps) < n <= 20 →
  lfn_gen_all (S (length ps)) (mkLfnGen ps c (n - Z.of_nat (length ps)) n false) = lfn_later c ps.
Proof.
  induction ps as [|p ps IH]; intros Hn; [done|]. cbn [length lfn_gen_all] in *.
  unfold lfn_gen_next at 1. cbn [lg_ended name_parts_iter lg_num lg_index lg_checksum].
  destruct (Z.eqb_spec (n - Z.of_nat (S (length ps))) 0); [lia|]. cbn [lfn_later]. f_equal.
  - unfold lfn_entry. do 2 f_equal. rewrite wrap_small by (unfold word; lia). lia.
  - replace (n - Z.of_nat (S (length ps)) + 1) with (n - Z.of_nat (length ps)) by lia. apply IH. lia.
Qed.

Lemma chunks_fuel_spec fuel n l : (0 < n)%nat → (length l <= fuel)%nat →
  concat (chunks_fuel fuel n l) = l ∧ Forall (λ p, (0 < length p <= n)%nat) (chunks_fuel fuel n l) ∧
  Z.of_nat (length (chunks_fuel fuel n l)) = (len l + Z.of_nat n - 1) / Z.of_nat n.
Proof.
  intros Hn. revert l. induction fuel as [|fuel IH]; intros l Hl.
  - destruct l; [|simpl in Hl; lia]. split; [done|]. split; [constructor|]. unfold len; simpl. by rewrite Z.div_small by lia.
  - destruct l as [|x l]; cbn [chunks_fuel].
    + split; [done|]. split; [constructor|]. unfold len; simpl. by rewrite Z.div_small by lia.
    + destruct (IH (drop n (x :: l))) as (H1&H2&H3); [rewrite length_drop; simpl in *; lia|]. split; [|split].
      * cbn [concat]. rewrite H1. apply take_drop.
      * constructor; [|done]. rewrite length_take. simpl. lia.
      * cbn [length]. rewrite Nat2Z.inj_succ, H3. unfold len. rewrite length_drop. cbn [length].
        destruct (decide (S (length l) <= n)%nat).
        -- replace (S (length l) - n)%nat with 0%nat by lia. rewrite (Z.div_small (Z.of_nat 0 + Z.of_nat n - 1)) by lia.
           apply Z.div_unique with (Z.of_nat (S (length l)) - 1); lia.
        -- replace (Z.of_nat (S (length l)) + Z.of_nat n - 1) with (1 * Z.of_nat n + (Z.of_nat (S (length l) - n) + Z.of_nat n - 1)) by lia.
           rewrite Z.div_add_l by lia. lia.
Qed.

(** The padded pieces are the name and padding behind it. *)
Lemma padded_chunks fuel us : (length us <= fuel)%nat → ∃ pad,
  concat (lfn_part <$> chunks_fuel fuel 13 us) = us ++ pad ∧ Forall padding pad.
Proof.
  revert us. induction fuel as [|fuel IH]; intros us Hl; [destruct us; [by exists []|simpl in Hl; lia]|].
  destruct us as [|x us]; [by exists []|]. cbn [chunks_fuel fmap list_fmap concat].
  destruct (IH (drop 13 (x :: us))) as (pad&Hc&Hp); [rewrite length_drop; simpl in *; lia|].
  fold (fmap lfn_part (chunks_fuel fuel 13 (drop 13 (x :: us)))). rewrite Hc. set (l := x :: us) in *.
  destruct (lfn_part_eq (take 13 l)) as (pad1&H1&Hp1&Hl1); [unfold len; rewrite length_take; lia|]. rewrite H1 in *.
  rewrite len_app in Hl1. destruct (decide (length l <= 13)%nat).
  - rewrite drop_ge, take_ge by lia. exists (pad1 ++ pad). rewrite app_nil_l, app_assoc. split; [done|by apply Forall_app].
  - assert (pad1 = []) as ->.
    { apply length_zero_iff_nil. unfold len in Hl1. rewrite length_take in Hl1. lia. }
    exists pad. rewrite app_nil_r, app_assoc, take_drop. done.
Qed.

Lemma name_units_len_padding pad : Forall padding pad → name_units_len pad = 0.
Proof.
  induction 1 as [|u pad [->| ->] _ IH]; [done|..]; cbn [name_units_len]; by rewrite IH.
Qed.

Lemma name_units_len_app us pad : Forall padding pad → (∀ u, list.last us = Some u → ¬ padding u) →
  name_units_len (us ++ pad) = len us.
Proof.
  intros Hp. induction us as [|u us IH]; intros Hl; [by apply name_units_len_padding|].
  cbn [app name_units_len]. unfold len in *. cbn [length]. destruct us as [|u' us].
  - cbn [app]. rewrite (name_units_len_padding pad Hp). cbn. specialize (Hl u eq_refl). unfold padding, LFN_PADDING in Hl.
    destruct (Z.eqb_spec u 0xFFFF), (Z.eqb_spec u 0); simpl; tauto || done.
  - rewrite IH by done. destruct (Z.ltb_spec 0 (Z.of_nat (length (u' :: us)))); [lia|simpl in *; lia].
Qed.

Lemma set_len_take us pad : set_len (us ++ pad) (len us) = us.
Proof.
  unfold set_len, len. rewrite Nat2Z.id, take_app_length, length_app.
  replace (length us - (length us + length pad))%nat with 0%nat by lia. by rewrite app_nil_r.
Qed.

(** *** The builder *)

Lemma builder_copy_ok b pos data : pos + 13 <= len (lb_buf b) →
  builder_copy b pos data = Ret (mkBuilder (splice pos (copy_name_to_slice data) (lb_buf b)) (lb_chksum b) (lb_index b)).
Proof. intros. unfold builder_copy. destruct (Z.leb_spec (pos + 13) (len (lb_buf b))); [done|lia]. Qed.

Lemma order_first i : 1 <= i <= 20 → Z.land (Z.lor i LFN_ENTRY_LAST_FLAG) 0x1F = i ∧
  Z.land (Z.lor i LFN_ENTRY_LAST_FLAG) LFN_ENTRY_LAST_FLAG ≠ 0 ∧ Z.land i 0x1F = i ∧ Z.land i LFN_ENTRY_LAST_FLAG = 0.
Proof.
  intros Hi. assert (forallb (λ i, (Z.land (Z.lor i LFN_ENTRY_LAST_FLAG) 0x1F =? i) &&
    negb (Z.land (Z.lor i LFN_ENTRY_LAST_FLAG) LFN_ENTRY_LAST_FLAG =? 0) && (Z.land i 0x1F =? i) &&
    (Z.land i LFN_ENTRY_LAST_FLAG =? 0)) (seqZ 1 20) = true) as H by by vm_compute.
  rewrite forallb_forall in H. specialize (H i). rewrite !andb_true_iff, negb_true_iff, !Z.eqb_eq, Z.eqb_neq in H.
  destruct H as [[[??]?]?]; [|done]. apply list_elem_of_In, elem_of_seqZ. lia.
Qed.

(** The pieces behind the first one: the buffer before them is filled from its end. *)
Lemma builder_later c ps b : Forall (λ p, (0 < length p <= 13)%nat) ps → Z.of_nat (length ps) < 20 →
  lb_index b = Z.of_nat (length ps) + 1 → lb_chksum b = c → Z.of_nat (length ps) * 13 <= len (lb_buf b) →
  foldM builder_process b (lfn_later c ps) =
    Ret (mkBuilder (concat (lfn_part <$> reverse ps) ++ drop (13 * length ps) (lb_buf b)) c 1).
Proof.
  revert b. induction ps as [|p ps IH]; intros b Hps Hn Hi Hc Hl.
  - cbn. rewrite drop_0. simpl in Hi. destruct b; cbn in *. by subst.
  - apply list.Forall_cons in Hps as [Hp Hps]. cbn [lfn_later foldM length] in *.
    set (i := Z.of_nat (length ps) + 1). destruct (order_first i) as (_&_&H1&H2); [lia|].
    destruct (lfn_part_eq p) as (pad&_&_&H13); [unfold len; lia|].
    assert (builder_process b (lfn_entry false c i p)
      = Ret (mkBuilder (splice (13 * (i - 1)) (lfn_part p) (lb_buf b)) c i)) as ->.
    { unfold builder_process, lfn_entry. cbn [l_order l_checksum copy_name_from_slice lfn_new]. rewrite H1, H2. cbn [Z.eqb negb].
      destruct (Z.eqb_spec i 0); [lia|]. change MAX_LONG_DIR_ENTRIES with 20. destruct (Z.ltb_spec 20 i); [lia|]. cbn [orb].
      rewrite Hi. destruct (Z.eqb_spec (Z.of_nat (S (length ps)) + 1) 0); [lia|].
      destruct (Z.eqb_spec i (Z.of_nat (S (length ps)) + 1 - 1)); [|lia]. rewrite Hc, Z.eqb_refl. cbn [orb negb].
      rewrite builder_copy_ok by (cbn; unfold LFN_PART_LEN; lia). rewrite copy_name_same by done. cbn [lb_buf lb_chksum lb_index].
      do 2 f_equal. lia. }
    cbn [mbind outcome_bind]. rewrite IH; [|done|lia|done|done|cbn [lb_buf]; rewrite len_splice; lia].
    cbn [lb_buf]. do 2 f_equal. rewrite reverse_cons, fmap_app, concat_app. cbn [fmap list_fmap concat]. rewrite app_nil_r, <- app_assoc.
    f_equal. rewrite splice_overwrite by lia. unfold overwrite. rewrite H13.
    assert (length (take (Z.to_nat (13 * (i - 1))) (lb_buf b)) = (13 * length ps)%nat) as Ht
      by (rewrite length_take; unfold len in Hl; lia).
    rewrite <- Ht, drop_app_length. do 2 f_equal. lia.
Qed.

(** All the pieces of a name, the last one first. *)
Lemma lfn_entries_eq us c ps p : chunks 13 us = ps ++ [p] → len us <= 260 →
  lfn_entries us c = lfn_entry true c (Z.of_nat (length ps) + 1) p :: lfn_later c (reverse ps).
Proof.
  intros Hc Hl. unfold lfn_entries, lfn_gen_new. change (Z.to_nat LFN_PART_LEN) with 13%nat. rewrite Hc, reverse_snoc.
  destruct (chunks_fuel_spec (length us) 13 us) as (_&_&Hn); [lia|lia|]. unfold chunks in Hc. rewrite Hc, length_app in Hn.
  change (len us + LFN_PART_LEN - 1) with (len us + Z.of_nat 13 - 1). change LFN_PART_LEN with (Z.of_nat 13). rewrite <- Hn.
  cbn [length name_parts_iter lfn_gen_all]. unfold lfn_gen_next at 1. cbn [lg_ended name_parts_iter lg_num lg_index lg_checksum Z.eqb].
  assert (Z.of_nat (length ps + 1) <= 20).
  { cbn [length] in Hn. rewrite Hn. apply Z.lt_succ_r, Z.div_lt_upper_bound; lia. }
  f_equal.
  - unfold lfn_entry. rewrite Z.sub_0_r, wrap_small by (unfold word; lia). do 4 f_equal. lia.
  - rewrite Z.add_0_l. replace 1 with (Z.of_nat (length ps + 1) - Z.of_nat (length (reverse ps))) by (rewrite length_reverse; lia).
    apply lfn_gen_later. rewrite length_reverse. lia.
Qed.

Lemma length_set_len buf n : 0 <= n → length (set_len buf n) = Z.to_nat n.
Proof. intros. unfold set_len. rewrite length_app, length_take, length_replicate. lia. Qed.

(** Whatever the builder had before. *)
Lemma builder_reads_back b us c : us ≠ [] → len us <= 260 →
  ∃ pad, foldM builder_process b (lfn_entries us c) = Ret (mkBuilder (us ++ pad) c 1) ∧ Forall padding pad.
Proof.
  intros Hne Hl. destruct (chunks_fuel_spec (length us) 13 us) as (Hcat&Hall&Hnum); [lia|lia|].
  destruct (exists_last (l := chunks 13 us)) as (ps&p&Hps).
  { unfold chunks. intros E. rewrite E in Hcat. by subst us. }
  destruct (padded_chunks (length us) us) as (pad&Hpad&Hpp); [lia|]. fold (chunks 13 us) in *. rewrite Hps in *.
  exists pad. split; [|done]. rewrite (lfn_entries_eq us c ps p Hps Hl). apply list.Forall_app in Hall as [Hps' [Hp _]%list.Forall_cons].
  rewrite length_app in Hnum. cbn [length] in Hnum. change 13%nat with (Z.to_nat 13) in Hnum.
  assert (Z.of_nat (length ps + 1) <= 20) as Hn20. { rewrite Hnum. apply Z.lt_succ_r, Z.div_lt_upper_bound; lia. }
  set (i := Z.of_nat (length ps) + 1). destruct (order_first i) as (H1&H2&_&_); [lia|].
  destruct (lfn_part_eq p) as (pad1&_&_&H13); [unfold len; lia|]. cbn [foldM].
  set (buf := set_len (lb_buf b) (i * LFN_PART_LEN)).
  assert (length buf = Z.to_nat (i * 13)) as Hbuf by (apply length_set_len; unfold LFN_PART_LEN; lia).
  assert (builder_process b (lfn_entry true c i p) = Ret (mkBuilder (splice (13 * (i - 1)) (lfn_part p) buf) c i)) as ->.
  { unfold builder_process, lfn_entry. cbn [l_order l_checksum copy_name_from_slice lfn_new]. rewrite H1. apply Z.eqb_neq in H2. rewrite H2.
    destruct (Z.eqb_spec i 0); [lia|]. change MAX_LONG_DIR_ENTRIES with 20. destruct (Z.ltb_spec 20 i); [lia|]. cbn [orb negb]. fold buf.
    rewrite builder_copy_ok by (cbn; unfold len, LFN_PART_LEN; lia).
    by rewrite copy_name_same. }
  cbn [mbind outcome_bind].
  rewrite builder_later; [|by apply Forall_reverse|rewrite length_reverse; lia|rewrite length_reverse; cbn; lia|done|].
  2: { cbn [lb_buf]. rewrite len_splice, length_reverse. unfold len. lia. }
  cbn [lb_buf]. do 2 f_equal. rewrite reverse_involutive, length_reverse.
  rewrite fmap_app, concat_app in Hpad. cbn [fmap list_fmap concat] in Hpad. rewrite app_nil_r in Hpad. rewrite <- Hpad. f_equal.
  rewrite splice_overwrite by (unfold len in *; lia). unfold overwrite.
  replace (Z.to_nat (13 * (i - 1))) with (13 * length ps)%nat by lia.
  assert (length (take (13 * length ps) buf) = (13 * length ps)%nat) as Ht by (rewrite length_take; lia).
  rewrite <- Ht at 1. rewrite drop_app_length, drop_ge, app_nil_r; [done|]. lia.
Qed.

(** What the builder gives before the short name the pieces belong to. *)
Lemma builder_answers us pad sn : Forall padding pad → (∀ u, list.last us = Some u → u ≠ 0 ∧ u ≠ 0xFFFF) →
  builder_into_buf (builder_validate_chksum (mkBuilder (us ++ pad) (lfn_checksum sn) 1) sn) = us.
Proof.
  intros Hp Hlast. unfold builder_validate_chksum, builder_is_empty. cbn [lb_index lb_chksum Z.eqb].
  rewrite Z.eqb_refl. cbn [negb]. unfold builder_into_buf, builder_truncate. cbn [lb_index lb_buf Z.eqb].
  rewrite name_units_len_app; [apply set_len_take|done|]. intros u Hu. destruct (Hlast u Hu). intros [?|?]; done.
Qed.

(** A long name of at most 260 units written in entries with the checksum of
    the short name, and read in the same order before that short name, is the
    name again, and no copy goes out of range; the last unit must not be zero or
    [0xFFFF], which reading takes for padding. *)
Theorem long_name_roundtrip us sn : us ≠ [] → len us <= 260 → (∀ u, list.last us = Some u → u ≠ 0 ∧ u ≠ 0xFFFF) →
  ∃ b, foldM builder_process builder_new (lfn_entries us (lfn_checksum sn)) = Ret b ∧
    builder_into_buf (builder_validate_chksum b sn) = us.
Proof.
  intros Hne Hl Hlast. destruct (builder_reads_back builder_new us (lfn_checksum sn) Hne Hl) as (pad&Hf&Hp).
  eexists. split; [exact Hf|]. by apply builder_answers.
Qed.

Lemma long_name_roundtrip_witness : ∃ b,
  foldM builder_process builder_new (lfn_entries (replicate 30 0x61) (lfn_checksum (replicate 11 0x41))) = Ret b ∧
  builder_into_buf (builder_validate_chksum b (replicate 11 0x41)) = replicate 30 0x61.
Proof.
  apply (long_name_roundtrip (replicate 30 0x61) (replicate 11 0x41)).
  - discriminate.
  - by vm_compute.
  - intros u Hu. vm_compute in Hu. injection Hu as <-. done.
Defined.

(** A name that ends in U+FFFF is accepted, and read back without it. *)
Lemma last_ffff_lost : validate_long_name [0x61; 0xFFFF] tt = Ret (Ok tt, tt) ∧
  (b ← foldM builder_process builder_new (lfn_entries (encode_utf16 [0x61; 0xFFFF]) 0); Ret (builder_into_buf b)) = Ret [0x61].
Proof. by split; vm_compute. Qed.

(** ** Short names *)

Implicit Types g : ShortNameGenerator.

(** Bytes a short name may have; spaces fill it up. *)
Definition sfn_byte (c : Z) : bool :=
  in_range 0x41 0x5A c || in_range 0x30 0x39 c || bool_decide (c ∈ short_name_marks).
Definition valid_short (sn : list Z) : Prop :=
  length sn = 11%nat ∧ Forall (λ c, sfn_byte c = true ∨ c = SFN_PADDING) sn ∧ ∃ c, sn !! 0%nat = Some c ∧ sfn_byte c = true.

(** What [new] establishes and every call keeps. *)
Record gen_ok g : Prop := {
  go_length : length (short_name g) = 11%nat;
  go_bytes : Forall (λ c, sfn_byte c = true ∨ c = SFN_PADDING) (short_name g);
  go_base : 0 <= basename_len g <= 8;
  go_first : 0 < basename_len g → ∃ c, short_name g !! 0%nat = Some c ∧ sfn_byte c = true;
  go_fits : lossy_conv g = false → 0 < basename_len g;
  go_chksum : word 16 (sg_chksum g) }.

Lemma uppercase_valid c : short_name_char c = true → sfn_byte (ascii_uppercase c) = true.
Proof.
  unfold short_name_char, alphanumeric, sfn_byte, ascii_uppercase, in_range. rewrite !orb_true_iff, bool_decide_eq_true.
  intros [[[H|H]|H]|H]; rewrite ?andb_true_iff, ?Z.leb_le in H.
  - destruct (Z.leb_spec 0x61 c), (Z.leb_spec c 0x7A); try lia. cbn [andb]. left. left. rewrite andb_true_iff, !Z.leb_le. lia.
  - destruct (Z.leb_spec 0x61 c), (Z.leb_spec c 0x7A); try lia. cbn [andb]. left. left. rewrite andb_true_iff, !Z.leb_le. lia.
  - destruct (Z.leb_spec 0x61 c), (Z.leb_spec c 0x7A); try lia. cbn [andb]. left. right. rewrite andb_true_iff, !Z.leb_le. lia.
  - right. assert (forallb (λ c, bool_decide ((if (0x61 <=? c) && (c <=? 0x7A) then c - 0x20 else c) ∈ short_name_marks)) short_name_marks = true)
      as Hf by by vm_compute.
    rewrite forallb_forall in Hf. rewrite bool_decide_eq_true. apply list_elem_of_In in H. specialize (Hf c H).
    by apply bool_decide_eq_true in Hf.
Qed.

Lemma copy_part_ok dst pos lossy src :
  Forall (λ c, sfn_byte c = true ∨ c = SFN_PADDING) dst → (pos <= length dst)%nat →
  ((0 < pos)%nat → ∃ c, dst !! 0%nat = Some c ∧ sfn_byte c = true) →
  let '(dst', pos', fits, lossy') := copy_short_name_part dst pos lossy src in
  length dst' = length dst ∧ Forall (λ c, sfn_byte c = true ∨ c = SFN_PADDING) dst' ∧
  Z.of_nat pos <= pos' <= Z.of_nat (length dst) ∧ (0 < pos' → ∃ c, dst' !! 0%nat = Some c ∧ sfn_byte c = true) ∧
  (lossy' = false → lossy = false ∧ (src ≠ [] → dst ≠ [] → 0 < pos')).
Proof.
  revert dst pos lossy. induction src as [|c src IH]; intros dst pos lossy Hd Hp Hf; cbn [copy_short_name_part].
  - do 2 (split; [done|]). split; [lia|]. split; [intros; apply Hf; lia|]. done.
  - destruct (Nat.eqb_spec pos (length dst)) as [E|E].
    { do 2 (split; [done|]). split; [lia|]. split; [intros; apply Hf; lia|]. intros ->. split; [done|]. intros _ Hne.
      destruct dst; [done|]. simpl in E. lia. }
    destruct ((c =? 0x20) || (c =? 0x2E)).
    { specialize (IH dst pos true Hd Hp Hf). destruct (copy_short_name_part dst pos true src) as [[[dst' pos'] fits] lossy'].
      destruct IH as (H1&H2&H3&H4&H5). do 4 (split; [done|]). intros [? ?]%H5. done. }
    set (fixed := if short_name_char c then c else 0x5F).
    assert (sfn_byte (ascii_uppercase fixed) = true) as Hv.
    { unfold fixed. destruct (short_name_char c) eqn:Hc; [by apply uppercase_valid|by vm_compute]. }
    specialize (IH (<[pos:=ascii_uppercase fixed]> dst) (S pos) (lossy || negb (fixed =? c))).
    destruct (copy_short_name_part _ (S pos) _ src) as [[[dst' pos'] fits] lossy']. rewrite length_insert in IH.
    destruct IH as (H1&H2&H3&H4&H5).
    + apply Forall_insert; [done|by left].
    + lia.
    + intros _. destruct pos as [|pos].
      * eexists. split; [apply list_lookup_insert_eq; lia|done].
      * rewrite list_lookup_insert_ne by done. apply Hf. lia.
    + do 2 (split; [done|]). split; [lia|]. split; [done|]. intros [?%orb_false_elim _]%H5. split; [tauto|lia].
Qed.

Lemma name_checksum_word name : word 16 (name_checksum name).
Proof.
  unfold name_checksum. assert (∀ l a, word 16 a → word 16 (foldl (λ chksum c, wrap16 (wrap16 (Z.shiftr chksum 1 + wrap16 (Z.shiftl chksum 15)) + wrap16 c)) a l)) as H.
  { induction l as [|x l IH]; intros a Ha; [done|]. apply IH, wrap_word. lia. }
  apply H. unfold word. lia.
Qed.

Lemma short_gen_new_ok name g : short_gen_new name = Ret g → gen_ok g ∧ exact_match g = false.
Proof.
  unfold short_gen_new. destruct (str_tail name) as [[c rest]|] eqn:Ht; [|done]. cbn [mbind outcome_bind].
  set (dot := rsplit_once 0x2E rest). set (base_src := match dot with Some (a, _) => c :: a | None => name end).
  assert (base_src ≠ []) as Hne. { unfold base_src. destruct dot as [[a b]|]; [done|]. by destruct name. }
  assert (∀ n src, let '(dst', pos', fits, lossy') := copy_short_name_part (replicate n SFN_PADDING) 0 false src in
    length dst' = n ∧ Forall (λ c, sfn_byte c = true ∨ c = SFN_PADDING) dst' ∧ 0 <= pos' <= Z.of_nat n ∧
    (0 < pos' → ∃ c, dst' !! 0%nat = Some c ∧ sfn_byte c = true) ∧ (lossy' = false → src ≠ [] → (0 < n)%nat → 0 < pos')) as Hcopy.
  { intros n src. pose proof (copy_part_ok (replicate n SFN_PADDING) 0 false src) as H. rewrite length_replicate in H.
    destruct (copy_short_name_part _ _ _ _) as [[[dst' pos'] fits] lossy'].
    destruct H as (H1&H2&H3&H4&H5); [apply Forall_replicate; by right|lia|lia|].
    do 4 (split; [done|]). intros [_ H]%H5 Hs Hn. apply H; [done|]. destruct n; [lia|done]. }
  pose proof (Hcopy 8%nat base_src) as Hb. destruct (copy_short_name_part (replicate 8 SFN_PADDING) 0 false base_src) as [[[base blen] bfits] blossy].
  destruct Hb as (Hb1&Hb2&Hb3&Hb4&Hb5).
  assert (∃ ext fits lossy, match dot with
      | Some (_, ext_src) => let '(ext, _, ext_fits, ext_lossy) := copy_short_name_part (replicate 3 SFN_PADDING) 0 false ext_src in
          (ext, bfits && ext_fits, blossy || ext_lossy)
      | None => (replicate 3 SFN_PADDING, bfits, blossy) end = (ext, fits, lossy) ∧ length ext = 3%nat ∧
      Forall (λ c, sfn_byte c = true ∨ c = SFN_PADDING) ext ∧ (lossy = false → blossy = false)) as (ext&fits&lossy&->&He1&He2&He3).
  { destruct dot as [[a ext_src]|].
    - pose proof (Hcopy 3%nat ext_src) as He. destruct (copy_short_name_part (replicate 3 SFN_PADDING) 0 false ext_src) as [[[ext elen] efits] elossy].
      destruct He as (?&?&_). exists ext, (bfits && efits), (blossy || elossy). do 3 (split; [done|]). by intros [??]%orb_false_elim.
    - eexists _, _, _. split; [done|]. split; [done|]. split; [apply Forall_replicate; by right|done]. }
  intros [= <-]. split; [|done]. split; cbn [short_name basename_len lossy_conv sg_chksum].
  - rewrite length_app. lia.
  - apply list.Forall_app. by split.
  - lia.
  - intros (x&Hx&Hv)%Hb4. exists x. split; [by apply lookup_app_l_Some|done].
  - intros Hl%He3. by apply Hb5; [|done|lia].
  - apply name_checksum_word.
Qed.

(** *** Collisions *)

(** The number with which an existing name is one of those that would be made. *)
Definition collides_long g (sn : list Z) : option Z :=
  let p := Z.min (basename_len g) 6 in
  if (at_ sn p =? 0x7E) && (bool_decide (bytes_at 0 p sn = bytes_at 0 p (short_name g)) &&
      bool_decide (bytes_at 8 3 sn = bytes_at 8 3 (short_name g)))
  then to_digit 10 (at_ sn (p + 1)) else None.

(** The checksum and the number. *)
Definition collides_short g (sn : list Z) : option (Z * Z) :=
  let p := Z.min (basename_len g) 2 in
  if (at_ sn (p + 4) =? 0x7E) && (bool_decide (bytes_at 0 p sn = bytes_at 0 p (short_name g)) &&
      bool_decide (bytes_at 8 3 sn = bytes_at 8 3 (short_name g)))
  then i ← to_digit 10 (at_ sn (p + 4 + 1)); x ← u16_from_hex (bytes_at p 4 sn); Some (x, i) else None.

Lemma long_collision_eq g sn :
  check_for_long_prefix_collision g sn = match collides_long g sn with Some i => set_long_prefix g i | None => g end.
Proof.
  unfold check_for_long_prefix_collision, collides_long. destruct (at_ sn _ =? 0x7E); [|done]. cbn [negb andb].
  destruct (to_digit 10 _) as [i|]; [|by destruct (_ && _)]. by destruct (_ && _).
Qed.

Lemma short_collision_eq g sn :
  check_for_short_prefix_collision g sn =
    match collides_short g sn with Some (x, i) => if x =? sg_chksum g then set_prefix_chksum g i else g | None => g end.
Proof.
  unfold check_for_short_prefix_collision, collides_short. destruct (at_ sn _ =? 0x7E); [|done]. cbn [negb andb].
  destruct (to_digit 10 _) as [i|]; [|by destruct (_ && _)]. destruct (_ && _); [|done]. cbn [mbind option_bind].
  destruct (u16_from_hex _) as [x|]; [|by rewrite bool_decide_eq_false_2]. cbn [option_bind].
  destruct (Z.eqb_spec x (sg_chksum g)) as [->|Hne].
  - rewrite bool_decide_eq_true_2 by done. simpl. by rewrite Z.eqb_refl.
  - rewrite bool_decide_eq_false_2 by congruence. apply Z.eqb_neq in Hne. simpl. by rewrite Hne.
Qed.

(** The parts of the generator that the entries of a directory do not change. *)
Definition same_gen g g' : Prop :=
  sg_chksum g' = sg_chksum g ∧ name_fits g' = name_fits g ∧ lossy_conv g' = lossy_conv g ∧
  basename_len g' = basename_len g ∧ short_name g' = short_name g.

Lemma same_gen_collides g g' sn : same_gen g g' → collides_long g' sn = collides_long g sn ∧ collides_short g' sn = collides_short g sn.
Proof. intros (_&_&_&H1&H2). unfold collides_long, collides_short. by rewrite H1, H2. Qed.

(** What one entry adds to the state. *)
Record added g g' (sn : list Z) : Prop := {
  ad_same : same_gen g g';
  ad_exact : exact_match g' = exact_match g || bool_decide (sn = short_name g);
  ad_long : long_prefix_bitmap g' =
    match collides_long g sn with Some i => Z.lor (long_prefix_bitmap g) (wrap16 (Z.shiftl 1 i)) | None => long_prefix_bitmap g end;
  ad_short : prefix_chksum_bitmap g' =
    match collides_short g sn with
    | Some (x, i) => if x =? sg_chksum g then Z.lor (prefix_chksum_bitmap g) (wrap16 (Z.shiftl 1 i)) else prefix_chksum_bitmap g
    | None => prefix_chksum_bitmap g end }.

Lemma add_existing_added g sn : added g (add_existing g sn) sn.
Proof.
  unfold add_existing. rewrite short_collision_eq, long_collision_eq.
  set (g1 := if bool_decide (sn = short_name g) then set_exact_match g else g).
  assert (same_gen g g1 ∧ long_prefix_bitmap g1 = long_prefix_bitmap g ∧ prefix_chksum_bitmap g1 = prefix_chksum_bitmap g ∧
    exact_match g1 = exact_match g || bool_decide (sn = short_name g)) as (Hs1&Hl1&Hc1&He1).
  { unfold g1. destruct (bool_decide _); [by rewrite orb_true_r|by rewrite orb_false_r]. }
  destruct (same_gen_collides g g1 sn Hs1) as [-> _].
  set (g2 := match collides_long g sn with Some i => set_long_prefix g1 i | None => g1 end).
  assert (same_gen g g2) as Hs2 by (unfold g2; destruct (collides_long g sn); exact Hs1).
  destruct (same_gen_collides g g2 sn Hs2) as [_ ->]. destruct Hs2 as (Hk&_). rewrite Hk.
  unfold g2. split; destruct (collides_long g sn) as [i|], (collides_short g sn) as [[x j]|]; try (destruct (x =? sg_chksum g));
    cbn [set_long_prefix set_prefix_chksum exact_match long_prefix_bitmap prefix_chksum_bitmap]; rewrite ?Hl1, ?Hc1, ?He1; done || exact Hs1.
Qed.

(** All the entries of a directory. *)
Definition rescan g (existing : list (list Z)) : ShortNameGenerator := foldl add_existing g existing.

Lemma testbit_add b i j : 0 <= i < 16 → 0 <= j < 16 →
  Z.testbit (Z.lor b (wrap16 (Z.shiftl 1 i))) j = Z.testbit b j || (i =? j).
Proof.
  intros. rewrite Z.lor_spec. f_equal. rewrite Z.shiftl_1_l.
  assert (wrap16 (2 ^ i) = 2 ^ i) as -> by (apply wrap_small; split; [lia|apply Z.pow_lt_mono_r; lia]).
  rewrite Z.pow2_bits_eqb by lia. done.
Qed.

Lemma to_digit_range radix c d : 0 <= radix → to_digit radix c = Some d → 0 <= d < radix.
Proof.
  unfold to_digit, in_range. intros Hr. repeat case_match; intros [= <-]; rewrite ?andb_true_iff, ?Z.leb_le, ?Z.ltb_lt in *; lia.
Qed.

Lemma collides_long_range g sn i : collides_long g sn = Some i → 0 <= i < 10.
Proof. unfold collides_long. destruct (_ && _); [|done]. by apply to_digit_range. Qed.

Lemma collides_short_range g sn x i : collides_short g sn = Some (x, i) → 0 <= i < 10.
Proof.
  unfold collides_short. destruct (_ && _); [|done]. destruct (to_digit 10 _) as [d|] eqn:Hd; [|done]. cbn [mbind option_bind].
  destruct (u16_from_hex _); [|done]. intros [= _ <-]. by apply to_digit_range in Hd.
Qed.

Lemma exists_elem_cons {A} (P : A → Prop) x (l : list A) : (∃ y, y ∈ x :: l ∧ P y) ↔ P x ∨ ∃ y, y ∈ l ∧ P y.
Proof. setoid_rewrite elem_of_cons. naive_solver. Qed.

Lemma rescan_spec g E : let g' := rescan g E in
  same_gen g g' ∧ (exact_match g' = true ↔ exact_match g = true ∨ short_name g ∈ E) ∧
  (∀ i, 0 <= i < 16 → Z.testbit (long_prefix_bitmap g') i = true ↔
     Z.testbit (long_prefix_bitmap g) i = true ∨ ∃ x, x ∈ E ∧ collides_long g x = Some i) ∧
  (∀ i, 0 <= i < 16 → Z.testbit (prefix_chksum_bitmap g') i = true ↔
     Z.testbit (prefix_chksum_bitmap g) i = true ∨ ∃ x, x ∈ E ∧ collides_short g x = Some (sg_chksum g, i)).
Proof.
  revert g. induction E as [|x E IH]; intros g; cbv zeta in *; cbn [rescan foldl].
  - split; [done|]. split; [|split]; [set_solver|intros; split; [by left|intros [|(x&Hx&_)]; [done|by apply elem_of_nil in Hx]]..].
  - destruct (add_existing_added g x) as [Hs He Hl Hc]. set (g1 := add_existing g x) in *. fold (rescan g1 E).
    destruct (IH g1) as (H1&H2&H3&H4). assert (same_gen g (rescan g1 E)) as Hs'.
    { destruct Hs as (?&?&?&?&?), H1 as (?&?&?&?&?). split_and!; congruence. }
    assert (∀ y, collides_long g1 y = collides_long g y ∧ collides_short g1 y = collides_short g y) as Hcol by (intros; by apply same_gen_collides).
    destruct Hs as (Hk&_&_&_&Hn). rewrite Hn in H2. rewrite Hk in H4.
    split; [done|]. split; [|split].
    + rewrite H2, He, orb_true_iff, bool_decide_eq_true, elem_of_cons. split; intros; intuition congruence.
    + intros i Hi. rewrite H3, Hl by done. setoid_rewrite (λ y, proj1 (Hcol y)). rewrite exists_elem_cons.
      destruct (collides_long g x) as [j|] eqn:Hj; [|assert (None = Some i ↔ False) by done; tauto].
      pose proof (collides_long_range _ _ _ Hj). rewrite testbit_add, orb_true_iff, Z.eqb_eq by lia.
      assert (Some j = Some i ↔ j = i) by (split; congruence). tauto.
    + intros i Hi. rewrite H4, Hc by done. setoid_rewrite (λ y, proj2 (Hcol y)). rewrite exists_elem_cons.
      destruct (collides_short g x) as [[y j]|] eqn:Hj; [|assert (None = Some (sg_chksum g, i) ↔ False) by done; tauto].
      pose proof (collides_short_range _ _ _ _ Hj). destruct (Z.eqb_spec y (sg_chksum g)) as [->|].
      * rewrite testbit_add, orb_true_iff, Z.eqb_eq by lia.
        assert (Some (sg_chksum g, j) = Some (sg_chksum g, i) ↔ j = i) by (split; congruence). tauto.
      * assert (Some (y, j) = Some (sg_chksum g, i) ↔ False) by (split; [congruence|done]). tauto.
Qed.

(** *** The names made *)

Lemma hex_digit d : 0 <= d < 16 → to_digit 16 (ascii_uppercase (from_digit d)) = Some d ∧
  sfn_byte (ascii_uppercase (from_digit d)) = true ∧ ascii_uppercase (from_digit d) ≠ 0x2B.
Proof.
  intros Hd. assert (forallb (λ d, bool_decide (to_digit 16 (ascii_uppercase (from_digit d)) = Some d) &&
    sfn_byte (ascii_uppercase (from_digit d)) && negb (ascii_uppercase (from_digit d) =? 0x2B)) (seqZ 0 16) = true) as H by by vm_compute.
  rewrite forallb_forall in H. specialize (H d). rewrite !andb_true_iff, bool_decide_eq_true, negb_true_iff, Z.eqb_neq in H.
  destruct H as [[??]?]; [|done]. apply list_elem_of_In, elem_of_seqZ. lia.
Qed.

Lemma nibble x k : 0 <= k → Z.land (Z.shiftr x k) 0xF = x / 2 ^ k mod 16.
Proof. intros. rewrite Z.shiftr_div_pow2 by done. change 0xF with (Z.ones 4). by rewrite Z.land_ones. Qed.

Lemma hex_roundtrip x : word 16 x → ∃ a b c d, u16_to_hex x = [a; b; c; d] ∧ u16_from_hex [a; b; c; d] = Some x ∧
  Forall (λ c, sfn_byte c = true) [a; b; c; d].
Proof.
  intros Hx. unfold word in Hx. unfold u16_to_hex. rewrite !nibble by lia.
  assert (Z.land x 0xF = x mod 16) as -> by (change 0xF with (Z.ones 4); by rewrite Z.land_ones). cbn [fmap list_fmap].
  set (d3 := x / 2 ^ 12 mod 16). set (d2 := x / 2 ^ 8 mod 16). set (d1 := x / 2 ^ 4 mod 16). set (d0 := x mod 16).
  destruct (hex_digit d3) as (H3&V3&N3), (hex_digit d2) as (H2&V2&_), (hex_digit d1) as (H1&V1&_), (hex_digit d0) as (H0&V0&_);
    try (apply Z.mod_pos_bound; lia).
  do 4 eexists. split; [done|]. split; [|repeat constructor; done].
  assert (∀ a l, a ≠ 0x2B → u16_from_hex (a :: l) = parse_hex 0 (a :: l)) as Hplus.
  { intros a l Ha. unfold u16_from_hex. repeat case_match; congruence. }
  rewrite Hplus by done. cbn [parse_hex mbind option_bind]. rewrite H3. cbn [mbind option_bind parse_hex].
  rewrite H2. cbn [mbind option_bind parse_hex]. rewrite H1. cbn [mbind option_bind parse_hex]. rewrite H0. cbn [mbind option_bind parse_hex].
  f_equal. subst d0 d1 d2 d3. dlia.
Qed.

(** The names made, by their parts. *)
Lemma at_app_l a b i : 0 <= i < len a → at_ (a ++ b) i = at_ a i.
Proof. intros. unfold at_, len in *. rewrite lookup_app_l by lia. done. Qed.

Definition made (pre mid : list Z) (num : Z) (ext : list Z) : list Z :=
  pre ++ mid ++ [0x7E; from_digit num] ++ replicate (6 - length pre - length mid) SFN_PADDING ++ ext.

Lemma build_made g num (with_chksum : bool) : gen_ok g → let p := Z.min (basename_len g) (if with_chksum then 2 else 6) in
  build_prefixed_name g num with_chksum =
    made (bytes_at 0 p (short_name g)) (if with_chksum then u16_to_hex (sg_chksum g) else []) num (bytes_at 8 3 (short_name g)).
Proof.
  intros [Hl _ Hb _ _ Hk] p. destruct (hex_roundtrip _ Hk) as (h3&h2&h1&h0&Hh&_&_). unfold build_prefixed_name. rewrite Hh.
  destruct (short_name g) as [|a0 [|a1 [|a2 [|a3 [|a4 [|a5 [|a6 [|a7 [|a8 [|a9 [|a10 [|? ?]]]]]]]]]]]]; try done.
  assert (p = 0 ∨ p = 1 ∨ p = 2 ∨ p = 3 ∨ p = 4 ∨ p = 5 ∨ p = 6) as Hp by (unfold p; destruct with_chksum; lia).
  destruct with_chksum; fold p.
  - assert (p = 0 ∨ p = 1 ∨ p = 2) as Hp' by (unfold p; lia). clearbody p. unfold made. destruct Hp' as [->|[->| ->]]; reflexivity.
  - clearbody p. unfold made. destruct Hp as [->|[->|[->|[->|[->|[->| ->]]]]]]; reflexivity.
Qed.

Lemma decimal_digit i : 0 <= i < 10 → to_digit 10 (from_digit i) = Some i ∧ sfn_byte (from_digit i) = true.
Proof.
  intros Hi. unfold from_digit, to_digit, sfn_byte, in_range. destruct (Z.ltb_spec i 10); [|lia].
  assert ((48 <=? 48 + i) && (48 + i <=? 57) = true) as -> by (rewrite andb_true_iff, !Z.leb_le; lia).
  rewrite Z.add_simpl_l. destruct (Z.ltb_spec i 10); [|lia]. by rewrite orb_true_r.
Qed.

Lemma made_parts pre mid num ext : len pre + len mid <= 6 → len ext = 3 → let n := len pre + len mid in let sn := made pre mid num ext in
  at_ sn n = 0x7E ∧ at_ sn (n + 1) = from_digit num ∧ bytes_at 0 (len pre) sn = pre ∧ bytes_at (len pre) (len mid) sn = mid ∧
  bytes_at 8 3 sn = ext.
Proof.
  intros Hn He n sn. pose proof (len_nonneg pre). pose proof (len_nonneg mid).
  set (r := replicate (6 - length pre - length mid) SFN_PADDING). assert (len r = 6 - n) as Hr by (unfold len, r in *; rewrite length_replicate; lia).
  assert (∀ k, 0 <= k < 2 → at_ sn (n + k) = at_ [0x7E; from_digit num] k) as Hat.
  { intros k Hk. unfold at_, sn, made. rewrite !lookup_app_r by (unfold len in *; lia).
    replace (Z.to_nat (n + k) - length pre - length mid)%nat with (Z.to_nat k) by (unfold n, len; lia).
    rewrite lookup_app_l; [done|simpl; lia]. }
  split; [rewrite <- (Z.add_0_r n); apply (Hat 0); lia|]. split; [apply (Hat 1); lia|].
  split; [unfold sn, made; rewrite bytes_at_app_l by lia; by apply bytes_at_all|]. split.
  - unfold sn, made. rewrite <- (Z.add_0_r (len pre)), bytes_at_app_r, bytes_at_app_l by lia. by apply bytes_at_all.
  - assert (sn = (pre ++ mid ++ [0x7E; from_digit num] ++ r) ++ ext) as -> by (unfold sn, made; by rewrite <- !app_assoc).
    assert (len (pre ++ mid ++ [0x7E; from_digit num] ++ r) = 8) as E8 by (rewrite !len_app, Hr; unfold n; change (len [_; _]) with 2; lia).
    rewrite <- E8 at 1. rewrite <- (Z.add_0_r (len _)), bytes_at_app_r by lia. rewrite <- He. by apply bytes_at_all.
Qed.

Lemma len_prefix g p : gen_ok g → 0 <= p <= 8 → len (bytes_at 0 p (short_name g)) = p ∧ len (bytes_at 8 3 (short_name g)) = 3.
Proof. intros [Hl _ _ _ _ _] Hp. split; apply len_bytes_at; unfold len; lia. Qed.

Lemma build_collides_long g i : gen_ok g → 0 <= i < 10 → collides_long g (build_prefixed_name g i false) = Some i.
Proof.
  intros Hg Hi. rewrite build_made by done. pose proof (go_base _ Hg). unfold collides_long. set (p := Z.min (basename_len g) 6).
  destruct (len_prefix g p Hg) as [Hp He]; [lia|].
  destruct (made_parts (bytes_at 0 p (short_name g)) [] i (bytes_at 8 3 (short_name g))) as (H1&H2&H3&_&H5); [rewrite Hp; change (len []) with 0; lia|done|].
  rewrite Hp in *. change (len []) with 0 in *. rewrite Z.add_0_r in *. rewrite H1, H2, H3, H5, !bool_decide_eq_true_2 by done.
  by apply decimal_digit.
Qed.

Lemma build_collides_short g i : gen_ok g → 0 <= i < 10 → collides_short g (build_prefixed_name g i true) = Some (sg_chksum g, i).
Proof.
  intros Hg Hi. rewrite build_made by done. pose proof (go_base _ Hg). unfold collides_short. set (p := Z.min (basename_len g) 2).
  destruct (len_prefix g p Hg) as [Hp He]; [lia|]. destruct (hex_roundtrip _ (go_chksum _ Hg)) as (h3&h2&h1&h0&->&Hx&_).
  destruct (made_parts (bytes_at 0 p (short_name g)) [h3; h2; h1; h0] i (bytes_at 8 3 (short_name g))) as (H1&H2&H3&H4&H5);
    [rewrite Hp; change (len [_; _; _; _]) with 4; lia|done|].
  rewrite Hp in *. change (len [_; _; _; _]) with 4 in *. rewrite H1, H2, H3, H4, H5, !bool_decide_eq_true_2 by done.
  destruct (decimal_digit i Hi) as [-> _]. cbn [Z.eqb andb mbind option_bind]. by rewrite Hx.
Qed.

Lemma build_valid g i (with_chksum : bool) : gen_ok g → 0 <= i < 10 → valid_short (build_prefixed_name g i with_chksum).
Proof.
  intros Hg Hi. rewrite build_made by done. destruct Hg as [Hl Hv Hb Hf _ Hk].
  destruct (decimal_digit i Hi) as [_ Hd]. destruct (hex_roundtrip _ Hk) as (h3&h2&h1&h0&->&_&Hx).
  set (p := Z.min (basename_len g) (if with_chksum then 2 else 6)).
  assert (0 <= p <= if with_chksum then 2 else 6) as Hp by (unfold p; destruct with_chksum; lia).
  assert (length (bytes_at 0 p (short_name g)) = Z.to_nat p) as Hlp
    by (unfold bytes_at; rewrite length_take, length_drop, Hl; destruct with_chksum; lia).
  assert (length (if with_chksum then [h3; h2; h1; h0] else []) = if with_chksum then 4%nat else 0%nat) as Hlm by (by destruct with_chksum).
  unfold made. split; [|split].
  - rewrite !length_app, length_replicate, Hlp, Hlm. unfold bytes_at. rewrite length_take, length_drop, Hl. cbn [length]. destruct with_chksum; lia.
  - repeat (apply list.Forall_app; split).
    + by apply Forall_take, Forall_drop.
    + destruct with_chksum; [|constructor]. apply (list.Forall_impl _ _ _ Hx); by left.
    + constructor; [left; by vm_compute|]. constructor; [by left|constructor].
    + apply Forall_replicate. by right.
    + by apply Forall_take, Forall_drop.
  - destruct (decide (p = 0)) as [->|Hne].
    + destruct with_chksum; cbn [app bytes_at].
      * exists h3. split; [done|]. by apply list.Forall_cons in Hx as [? _].
      * exists 0x7E. split; [done|by vm_compute].
    + destruct Hf as (c&Hc&Hcv); [unfold p in *; lia|]. exists c. split; [|done].
      rewrite lookup_app_l by lia. unfold bytes_at. rewrite lookup_take_lt by lia. by rewrite lookup_drop.
Qed.

Lemma same_gen_ok g g' : same_gen g g' → gen_ok g → gen_ok g'.
Proof. intros (H1&H2&H3&H4&H5) []. split; rewrite ?H1, ?H3, ?H4, ?H5; done. Qed.

Lemma next_gen_ok g : gen_ok g → gen_ok (next_iteration g).
Proof. intros []. split; try done. apply wrap_word. lia. Qed.

Lemma first_clear_Some bitmap range i : first_clear bitmap range = Some i → Forall (λ i, 0 <= i < 16) range →
  i ∈ range ∧ Z.testbit bitmap i = false.
Proof.
  unfold first_clear. intros Hh Hr. assert (i ∈ filter (λ i, Z.land bitmap (wrap16 (Z.shiftl 1 i)) = 0) range) as Hi.
  { destruct (filter _ range); [done|]. injection Hh as ->. by left. }
  apply list_elem_of_filter in Hi as [Hz Hi]. split; [done|]. rewrite list.Forall_forall in Hr. specialize (Hr i Hi). cbv beta in Hr.
  assert (wrap16 (Z.shiftl 1 i) = 2 ^ i) as E by (rewrite Z.shiftl_1_l; apply wrap_small; split; [lia|apply Z.pow_lt_mono_r; lia]).
  apply (f_equal (λ z, Z.testbit z i)) in Hz. rewrite E, Z.land_spec, Z.pow2_bits_true, andb_true_r, Z.bits_0 in Hz by lia. done.
Qed.

Lemma first_clear_None bitmap range i : first_clear bitmap range = None → i ∈ range → 0 <= i < 16 → Z.testbit bitmap i = true.
Proof.
  unfold first_clear. intros Hh Hi Hr. destruct (Z.testbit bitmap i) eqn:Hb; [done|exfalso].
  assert (i ∈ filter (λ i, Z.land bitmap (wrap16 (Z.shiftl 1 i)) = 0) range) as Hin; [|destruct (filter _ range); [by apply elem_of_nil in Hin|done]].
  apply list_elem_of_filter. split; [|done].
  assert (wrap16 (Z.shiftl 1 i) = 2 ^ i) as -> by (rewrite Z.shiftl_1_l; apply wrap_small; split; [lia|apply Z.pow_lt_mono_r; lia]).
  apply Z.bits_inj'. intros j Hj. rewrite Z.land_spec, Z.pow2_bits_eqb, Z.bits_0 by lia. destruct (Z.eqb_spec i j) as [<-|]; [|apply andb_false_r].
  by rewrite Hb.
Qed.

Lemma seqZ_digits n : 0 <= n <= 9 → Forall (λ i, 0 <= i < 16) (seqZ 1 n).
Proof. intros. apply list.Forall_forall. intros i Hi%elem_of_seqZ. lia. Qed.

(** A name made after the directory's entries were seen is valid and new. *)
Lemma generate_fresh g E sn : gen_ok g → generate (rescan g E) = Ok sn → valid_short sn ∧ sn ∉ E.
Proof.
  intros Hg. destruct (rescan_spec g E) as (Hs&He&Hl&Hc). set (g' := rescan g E) in *. pose proof (same_gen_ok _ _ Hs Hg) as Hg'.
  unfold generate. destruct (negb (lossy_conv g') && name_fits g' && negb (exact_match g')) eqn:Has.
  { intros [= <-]. rewrite !andb_true_iff, !negb_true_iff in Has. destruct Has as [[Hlo _] Hex]. split.
    - destruct Hg' as [? ? ? Hf Hfit _]. split; [done|]. split; [done|]. by apply Hf, Hfit.
    - destruct Hs as (_&_&_&_&Hn). rewrite Hn. intros Hin. assert (exact_match g' = true) by (apply He; by right). congruence. }
  destruct (first_clear (long_prefix_bitmap g') (seqZ 1 4)) as [i|] eqn:Hi.
  { intros [= <-]. apply first_clear_Some in Hi as [Hi%elem_of_seqZ Hb]; [|by apply seqZ_digits]. split; [apply build_valid; [done|lia]|].
    intros Hin. assert (Z.testbit (long_prefix_bitmap g') i = true); [|congruence]. apply Hl; [lia|]. right. exists (build_prefixed_name g' i false).
    split; [done|]. destruct (same_gen_collides g g' (build_prefixed_name g' i false) Hs) as [<- _]. apply build_collides_long; [done|lia]. }
  destruct (first_clear (prefix_chksum_bitmap g') (seqZ 1 9)) as [j|] eqn:Hj; [|done].
  intros [= <-]. apply first_clear_Some in Hj as [Hj%elem_of_seqZ Hb]; [|by apply seqZ_digits]. split; [apply build_valid; [done|lia]|].
  intros Hin. assert (Z.testbit (prefix_chksum_bitmap g') j = true); [|congruence]. apply Hc; [lia|]. right. exists (build_prefixed_name g' j true).
  split; [done|]. destruct (same_gen_collides g g' (build_prefixed_name g' j true) Hs) as [_ <-].
  rewrite build_collides_short by (done || lia). destruct Hs as [-> _]. done.
Qed.

(** *** The search *)

(** What [check_for_existence] does of a directory with the short names [E]:
    rounds of seeing all of them and trying. *)
Fixpoint search_short_name (fuel : nat) g (E : list (list Z)) : option (list Z) :=
  let g := rescan g E in
  match generate g with
  | Ok sn => Some sn
  | Err _ => match fuel with O => None | S fuel => search_short_name fuel (next_iteration g) E end
  end.

Lemma search_fresh fuel g E sn : gen_ok g → search_short_name fuel g E = Some sn → valid_short sn ∧ sn ∉ E.
Proof.
  revert g. induction fuel as [|fuel IH]; intros g Hg; cbn [search_short_name];
    destruct (generate (rescan g E)) as [n|] eqn:Hgen; try done; try (intros [= <-]; by eapply generate_fresh).
  apply IH, next_gen_ok. destruct (rescan_spec g E) as (Hs&_). by eapply same_gen_ok.
Qed.

(** A round that fails: all nine names with the checksum are there. *)
Lemma round_fails g E e : prefix_chksum_bitmap g = 0 → generate (rescan g E) = Err e →
  ∀ i, 1 <= i <= 9 → ∃ x, x ∈ E ∧ collides_short g x = Some (sg_chksum g, i).
Proof.
  intros Hz Hgen i Hi. destruct (rescan_spec g E) as (_&_&_&Hc). unfold generate in Hgen.
  destruct (negb _ && _ && _); [done|]. destruct (first_clear (long_prefix_bitmap _) _); [done|].
  destruct (first_clear (prefix_chksum_bitmap _) _) as [|] eqn:Hf; [done|].
  apply (first_clear_None _ _ i) in Hf; [|apply elem_of_seqZ; lia|lia]. apply Hc in Hf as [Hb|Hx]; [|done|lia].
  by rewrite Hz, Z.bits_0 in Hb.
Qed.

Definition round_keys (c : Z) (k : nat) : list (Z * Z) := (λ i, ((c + Z.of_nat k) mod 2 ^ 16, i)) <$> seqZ 1 9.

Lemma search_fails fuel g E : prefix_chksum_bitmap g = 0 → word 16 (sg_chksum g) → search_short_name fuel g E = None →
  ∀ k, (k <= fuel)%nat → ∀ key, key ∈ round_keys (sg_chksum g) k → ∃ x, x ∈ E ∧ collides_short g x = Some key.
Proof.
  revert g. induction fuel as [|fuel IH]; intros g Hz Hw Hn k Hk key Hkey; cbn [search_short_name] in Hn;
    destruct (generate (rescan g E)) as [n|e] eqn:Hgen; try done.
  - assert (k = 0%nat) as -> by lia. apply list_elem_of_fmap in Hkey as (i&->&Hi%elem_of_seqZ).
    rewrite Z.add_0_r, Z.mod_small by exact Hw. eapply round_fails; [done|done|lia].
  - destruct k as [|k].
    { apply list_elem_of_fmap in Hkey as (i&->&Hi%elem_of_seqZ). rewrite Z.add_0_r, Z.mod_small by exact Hw. eapply round_fails; [done|done|lia]. }
    destruct (rescan_spec g E) as ((Hc&_&_&Hb&Hs)&_).
    destruct (IH (next_iteration (rescan g E))) with (k := k) (key := key) as (x&Hx&Hk'); [done|apply wrap_word; lia|done|lia| |].
    + apply list_elem_of_fmap in Hkey as (i&->&Hi). apply list_elem_of_fmap. exists i. split; [|done]. f_equal.
      cbn [next_iteration sg_chksum]. rewrite Hc. unfold wrap. rewrite Zplus_mod_idemp_l. f_equal. lia.
    + exists x. split; [done|]. rewrite <- Hk'. unfold collides_short. cbn [next_iteration basename_len short_name]. by rewrite Hb, Hs.
Qed.

Lemma keyed_length {A B} (key : A → option B) (L : list B) (E : list A) :
  NoDup L → (∀ b, b ∈ L → ∃ x, x ∈ E ∧ key x = Some b) → (length L <= length E)%nat.
Proof.
  intros Hnd Hk. transitivity (length (omap key E)).
  - apply submseteq_length, NoDup_submseteq; [done|]. intros b Hb. apply list_elem_of_omap. destruct (Hk b Hb) as (x&?&?). by exists x.
  - clear. induction E as [|x E IH]; [done|]. cbn. destruct (key x); simpl; lia.
Qed.

Lemma length_bind_const {A B} (f : A → list B) n (l : list A) : (∀ x, length (f x) = n) → length (l ≫= f) = (n * length l)%nat.
Proof. intros Hf. induction l as [|x l IH]; [simpl; lia|]. rewrite bind_cons, length_app, Hf, IH. simpl. lia. Qed.

Lemma round_keys_NoDup c fuel : Z.of_nat fuel < 2 ^ 16 → NoDup (seq 0 (S fuel) ≫= round_keys c).
Proof.
  intros Hf. apply NoDup_bind.
  - intros k1 k2 [y i] Hk1%elem_of_seq Hk2%elem_of_seq (i1&[= -> ->]&_)%list_elem_of_fmap (i2&[= Hm ->]&_)%list_elem_of_fmap.
    assert (Z.of_nat k1 = Z.of_nat k2); [|lia]. dlia.
  - intros k _. apply NoDup_fmap_2; [intros i j [= ->]; done|]. apply NoDup_seqZ.
  - apply NoDup_seq.
Qed.

Lemma search_ends g E : prefix_chksum_bitmap g = 0 → word 16 (sg_chksum g) → Z.of_nat (length E) < 9 * 2 ^ 16 →
  ∃ sn, search_short_name (length E / 9) g E = Some sn.
Proof.
  intros Hz Hw HE. destruct (search_short_name (length E / 9) g E) as [sn|] eqn:Hn; [by exists sn|exfalso].
  pose proof (search_fails _ g E Hz Hw Hn) as Hk. set (fuel := (length E / 9)%nat) in *.
  assert (fuel < 2 ^ 16)%nat. { apply Nat.Div0.div_lt_upper_bound. change (2 ^ 16)%nat with (Z.to_nat (2 ^ 16)). lia. }
  pose proof (keyed_length (collides_short g) (seq 0 (S fuel) ≫= round_keys (sg_chksum g)) E) as Hl.
  rewrite (length_bind_const _ 9) in Hl by done. rewrite length_seq in Hl.
  pose proof (Nat.div_mod_eq (length E) 9). pose proof (Nat.mod_upper_bound (length E) 9). fold fuel in H0.
  assert (9 * S fuel <= length E)%nat; [|lia]. apply Hl.
  - apply round_keys_NoDup. change (2 ^ 16)%nat with (Z.to_nat (2 ^ 16)) in H. lia.
  - intros key (k&Hkey&Hin%elem_of_seq)%list_elem_of_bind. eapply Hk; [|exact Hkey]. lia.
Qed.

Lemma short_gen_bitmap name g : short_gen_new name = Ret g → prefix_chksum_bitmap g = 0.
Proof.
  unfold short_gen_new. destruct (str_tail name) as [[c rest]|]; [|done]. cbn [mbind outcome_bind]. intros H. repeat case_match; by injection H as <-.
Qed.

Lemma short_gen_ascii c rest : c < 0x80 → ∃ g, short_gen_new (c :: rest) = Ret g.
Proof.
  intros Hc. unfold short_gen_new, str_tail, len_utf8. destruct (Z.ltb_spec c 0x80); [|lia]. change (1 =? 1) with true. cbn [mbind outcome_bind].
  repeat case_match; by eexists.
Qed.

(** C33. The search for a short name for a new entry ends after at most one round
    in nine of the directory's entries, whatever they are, and finds a name in
    the 8.3 format - eleven bytes of the allowed ones and padding, the first no
    padding - that none of the entries has. *)
Theorem short_name_found name g E : short_gen_new name = Ret g → Z.of_nat (length E) < 9 * 2 ^ 16 →
  ∃ sn, search_short_name (length E / 9) g E = Some sn ∧ valid_short sn ∧ sn ∉ E.
Proof.
  intros Hnew HE. destruct (short_gen_new_ok name g Hnew) as [Hg _].
  destruct (search_ends g E) as (sn&Hs); [by eapply short_gen_bitmap|apply Hg|done|].
  exists sn. split; [done|]. by eapply search_fresh.
Qed.

(** [TextFile.txt] and two of the names it can have. *)
Definition text_file : list Z := [0x54; 0x65; 0x78; 0x74; 0x46; 0x69; 0x6C; 0x65; 0x2E; 0x74; 0x78; 0x74].
Definition text_file_short (i : Z) : list Z := [0x54; 0x45; 0x58; 0x54; 0x46; 0x49; 0x7E; i; 0x54; 0x58; 0x54].

Lemma short_name_found_witness : ∃ g, short_gen_new text_file = Ret g ∧
  search_short_name 0 g [text_file_short 0x31; [0x54; 0x45; 0x58; 0x54; 0x46; 0x49; 0x4C; 0x45; 0x54; 0x58; 0x54]] = Some (text_file_short 0x32).
Proof.
  destruct (short_gen_new text_file) as [g|] eqn:Hg; [|vm_compute in Hg; discriminate Hg]. exists g. split; [done|].
  destruct (short_name_found text_file g [text_file_short 0x31; [0x54; 0x45; 0x58; 0x54; 0x46; 0x49; 0x4C; 0x45; 0x54; 0x58; 0x54]] Hg) as (sn&Hs&_).
  - by vm_compute.
  - vm_compute in Hg. injection Hg as <-. vm_compute. reflexivity.
Defined.

(** A new entry's short name is generated before its long name is checked, and
    the generator cuts the first byte off the name: for the empty name, and for
    every name that starts with a character beyond ASCII - which the check
    allows - it panics. *)
Theorem short_name_of_non_ascii_panics name :
  (match name with c :: _ => 0x80 <= c | [] => True end) ↔ short_gen_new name = Panic.
Proof.
  unfold short_gen_new, str_tail. destruct name as [|c rest]; [done|]. unfold len_utf8.
  destruct (Z.ltb_spec c 0x80) as [Hc|Hc].
  - split; [lia|]. change (1 =? 1) with true. cbn [mbind outcome_bind]. repeat case_match; discriminate.
  - split; [|done]. intros _. by destruct (c <? 0x800), (c <? 0x10000).
Qed.
