(* ===== verification/Dir.v ===== *)
(** * Directories of a FAT volume ([rust-fatfs/src/dir.rs])

    A directory is a stream of entries: a file without a size, or the window of
    the root directory of a FAT12 or FAT16 volume.  The first part reads, looks
    for room in and writes such a stream; the second part has the operations of
    [Dir] on the volume, each on a clone of the directory's stream, which is
    dropped - that is flushed - at its end.  A directory that is open keeps
    where it is, not the volume it refers to. *)

From S2P Require Import Prelude Bytes FatIo FatTime FatTable DirEntry BootSector FatFs DiskFile DirNames.

(** [DirEntry]: what listing a directory gives. *)
Record DirEntry := mkDirEntry {
  de_data : DirFileEntryData;
  de_short_name : ShortName;
  de_lfn_utf16 : LfnBuffer;
  de_entry_pos : Z;
  de_offset_range : Z * Z }.

Implicit Types de : DirEntry.

Definition de_editor de : DirEntryEditor := editor_new (de_data de) (de_entry_pos de).
Definition is_same_entry de other : bool := de_entry_pos de =? de_entry_pos other.
Definition eq_name de (name : list Z) : bool :=
  eq_name_lfn (de_lfn_utf16 de) name || eq_ignore_case (de_short_name de) name.

(** [file_name], of the units that are characters. *)
Definition file_name de : list Z :=
  if 0 <? len (de_lfn_utf16 de) then default 0xFFFD <$> decode_utf16 (de_lfn_utf16 de)
  else oem_decode <$> short_as_bytes (entry_lowercase_name (de_data de)).

(** ** A stream of entries *)

(** Where the stream is on the disk; a file at its start is nowhere. *)
Class AbsPos (S : Type) := stream_abs_pos : S → outcome (option Z).

Section entries.
Context {S : Type} `{Stream S} {AP : AbsPos S}.

(** [stream.abs_pos().unwrap()] *)
Definition abs_pos_unwrap : FM S Z :=
  s ← this;
  p ← lift (stream_abs_pos s);
  match p with Some p => mret p | None => fpanic end.

Definition should_ship_entry (skip_volume : bool) (raw_entry : DirEntryData) : bool :=
  if is_deleted raw_entry then true
  else match raw_entry with
       | DFile sfn_entry => skip_volume && entry_is_volume sfn_entry
       | DLfn _ => false
       end.

(** The loop of [read_dir_entry]; a turn for every entry is enough. *)
Fixpoint read_dir_entry_loop (fuel : nat) (skip_volume : bool) (lfn_builder : LongNameBuilder) (offset begin_offset : Z)
    : FM S (option DirEntry) :=
  match fuel with
  | O => fpanic
  | Datatypes.S fuel =>
      raw_entry ← deserialize;
      let offset := wrap64 (offset + DIR_ENTRY_SIZE) in
      if is_end raw_entry then mret None
      else if should_ship_entry skip_volume raw_entry
      then read_dir_entry_loop fuel skip_volume (builder_clear lfn_builder) offset offset
      else
        match raw_entry with
        | DFile data =>
            end_abs_pos ← abs_pos_unwrap;
            let abs_pos := wrap64 (end_abs_pos - DIR_ENTRY_SIZE) in
            let lfn_builder := builder_validate_chksum lfn_builder (e_name data) in
            mret (Some (mkDirEntry data (ShortName_new (e_name data)) (builder_into_buf lfn_builder) abs_pos
              (begin_offset, offset)))
        | DLfn data =>
            lfn_builder ← lift (builder_process lfn_builder data);
            read_dir_entry_loop fuel skip_volume lfn_builder offset begin_offset
        end
  end.

Definition read_dir_entry (fuel : nat) (skip_volume : bool) : FM S (option DirEntry) :=
  offset ← seek (SCurrent 0);
  read_dir_entry_loop fuel skip_volume builder_new offset offset.

(** The loop of [find_entry]: the entry with the name, or none and the generator
    after all entries were added to it. *)
Fixpoint find_entry_loop (fuel rounds : nat) (name : list Z) (expect_dir : option bool) (short_name_gen : option ShortNameGenerator)
    : FM S (option DirEntry * option ShortNameGenerator) :=
  match rounds with
  | O => fpanic
  | Datatypes.S rounds =>
      r ← read_dir_entry fuel true;
      match r with
      | None => mret (None, short_name_gen)
      | Some e =>
          if eq_name e name then
            match expect_dir with
            | Some d => if Bool.eqb (entry_is_dir (de_data e)) d then mret (Some e, short_name_gen) else fail EInvalidInput
            | None => mret (Some e, short_name_gen)
            end
          else find_entry_loop fuel rounds name expect_dir ((λ g, add_existing g (e_name (de_data e))) <$> short_name_gen)
      end
  end.

(** The loop of [find_volume_entry]. *)
Fixpoint find_volume_loop (fuel rounds : nat) : FM S (option DirEntry) :=
  match rounds with
  | O => fpanic
  | Datatypes.S rounds =>
      r ← read_dir_entry fuel false;
      match r with
      | None => mret None
      | Some e => if entry_is_volume (de_data e) then mret (Some e) else find_volume_loop fuel rounds
      end
  end.

(** The loop of [is_empty]. *)
Fixpoint is_empty_loop (fuel rounds : nat) : FM S bool :=
  match rounds with
  | O => fpanic
  | Datatypes.S rounds =>
      r ← read_dir_entry fuel true;
      match r with
      | None => mret true
      | Some e =>
          let name := short_as_bytes (de_short_name e) in
          if negb (bool_decide (name = [0x2E])) && negb (bool_decide (name = [0x2E; 0x2E])) then mret false
          else is_empty_loop fuel rounds
      end
  end.

(** The loop of [find_free_entries]; the stream is left where the entries go. *)
Fixpoint find_free_loop (fuel : nat) (num_entries first_free num_free i : Z) : FM S unit :=
  match fuel with
  | O => fpanic
  | Datatypes.S fuel =>
      raw_entry ← deserialize;
      if is_end raw_entry then
        let first_free := if num_free =? 0 then i else first_free in
        _ ← seek (SStart (wrap32 (first_free * DIR_ENTRY_SIZE)));
        mret tt
      else if is_deleted raw_entry then
        let first_free := if num_free =? 0 then i else first_free in
        let num_free := wrap32 (num_free + 1) in
        if num_free =? num_entries then
          _ ← seek (SStart (wrap32 (first_free * DIR_ENTRY_SIZE)));
          mret tt
        else find_free_loop fuel num_entries first_free num_free (wrap32 (i + 1))
      else find_free_loop fuel num_entries first_free 0 (wrap32 (i + 1))
  end.

Definition find_free_entries (fuel : nat) (num_entries : Z) : FM S unit := find_free_loop fuel num_entries 0 0 0.

(** [for lfn_entry in lfn_iter { lfn_entry.serialize(&mut stream)?; }] *)
Fixpoint serialize_lfns (es : list DirLfnEntryData) : FM S unit :=
  match es with
  | [] => mret tt
  | e :: es => _ ← lfn_serialize e; serialize_lfns es
  end.

Definition alloc_and_write_lfn_entries (fuel : nat) (lfn_utf16 : LfnBuffer) (short_name : list Z) : FM S Z :=
  let lfn_chsum := lfn_checksum short_name in
  let lfn_iter := lfn_gen_new lfn_utf16 lfn_chsum in
  let num_entries := wrap32 (lfn_gen_len lfn_iter + 1) in
  _ ← find_free_entries fuel num_entries;
  start_pos ← seek (SCurrent 0);
  _ ← serialize_lfns (lfn_entries lfn_utf16 lfn_chsum);
  mret start_pos.

(** [write_entry] behind the check of the name. *)
Definition write_entry_at (fuel : nat) (name : list Z) (raw_entry : DirFileEntryData) : FM S DirEntry :=
  let lfn_utf16 := encode_utf16 name in
  start_pos ← alloc_and_write_lfn_entries fuel lfn_utf16 (e_name raw_entry);
  _ ← entry_serialize raw_entry;
  end_pos ← seek (SCurrent 0);
  end_abs_pos ← abs_pos_unwrap;
  let start_abs_pos := wrap64 (end_abs_pos - DIR_ENTRY_SIZE) in
  mret (mkDirEntry raw_entry (ShortName_new (e_name raw_entry)) lfn_utf16 start_abs_pos (start_pos, end_pos)).

(** Marks [n] entries as deleted. *)
Fixpoint delete_loop (n : nat) : FM S unit :=
  match n with
  | O => mret tt
  | Datatypes.S n =>
      data ← deserialize;
      let data := set_deleted data in
      _ ← seek (SCurrent (- DIR_ENTRY_SIZE));
      _ ← serialize data;
      delete_loop n
  end.

Definition delete_entries de : FM S unit :=
  let '(a, b) := de_offset_range de in
  _ ← seek (SStart a);
  delete_loop (Z.to_nat (wrap64 (b - a) / DIR_ENTRY_SIZE)).
End entries.

(** ** [DirRawStream] *)

Inductive DirRawStream (D : Type) :=
| RFile (f : File D)
| RRoot (s : DiskSlice (FileSystem D)).
Arguments RFile {D}.
Arguments RRoot {D}.

Section stream.
Context {D : Type} `{Stream D} {TP : TimeProvider}.

Definition on_raw {A} (x : FM (File D) A) (y : FM (DiskSlice (FileSystem D)) A) : FM (DirRawStream D) A := λ s,
  match s with
  | RFile f => '(r, f) ← x f; Ret (r, RFile f)
  | RRoot s => '(r, s) ← y s; Ret (r, RRoot s)
  end.

#[export] Instance DirRawStream_stream : Stream (DirRawStream D) :=
  {| read n := on_raw (read n) (read n); write bs := on_raw (write bs) (write bs); seek p := on_raw (seek p) (seek p);
     flush := on_raw file_flush flush;
     unexpected_eof_error := EUnexpectedEof; write_zero_error := EWriteZero |}.

#[export] Instance DirRawStream_abs_pos : AbsPos (DirRawStream D) := λ s,
  match s with RFile f => file_abs_pos f | RRoot s => Ret (Some (abs_pos s)) end.

(** ** Open directories *)

(** The stream of a [Dir] without the volume. *)
Inductive Dir :=
| DFileDir (first_cluster current_cluster : option Z) (offset : Z) (entry : option DirEntryEditor)
| DRootDir (slice : DiskSlice unit).

Implicit Types dir : Dir.

Definition with_inner {A B} (s : DiskSlice A) (b : B) : DiskSlice B :=
  mkSlice (begin s) (slice_size s) (offset s) (mirrors s) b.

Definition dir_stream dir (fs : FileSystem D) : DirRawStream D :=
  match dir with
  | DFileDir first current off entry => RFile (mkFile first current off entry fs)
  | DRootDir s => RRoot (with_inner s fs)
  end.

Definition dir_first_cluster dir : option Z :=
  match dir with DFileDir first _ _ _ => first | DRootDir _ => None end.

(** Dropping a stream flushes a file and forgets the error. *)
Definition drop_stream (s : DirRawStream D) : outcome (FileSystem D) :=
  match s with
  | RFile f => '(_, f) ← file_flush f; Ret (f_fs f)
  | RRoot s => Ret (inner s)
  end.

(** [x] on a clone of the directory's stream, which is dropped after. *)
Definition on_clone {A} dir (x : FM (DirRawStream D) A) : FM (FileSystem D) A := λ fs,
  '(r, s) ← x (dir_stream dir fs);
  fs ← drop_stream s;
  Ret (r, fs).

(** [x] and then the drop of a [Dir] that was made for it. *)
Definition dropping {A} dir (x : FM (FileSystem D) A) : FM (FileSystem D) A := λ fs,
  '(r, fs) ← x fs;
  fs ← drop_stream (dir_stream dir fs);
  Ret (r, fs).

(** The same when only an error drops it. *)
Definition dropping_on_error {A} dir (x : FM (FileSystem D) A) : FM (FileSystem D) A := λ fs,
  match x fs with
  | Ret (Err e, fs) => fs ← drop_stream (dir_stream dir fs); Ret (Err e, fs)
  | r => r
  end.

Definition root_dir (fs : FileSystem D) : Dir :=
  match fs_type fs with
  | Fat32 => DFileDir (Some (root_dir_first_cluster (fs_bpb fs))) None 0 None
  | _ => DRootDir (from_sectors (fs_bpb fs) (wrap32 (fs_first_data_sector fs - fs_root_dir_sectors fs))
           (fs_root_dir_sectors fs) 1 tt)
  end.

Definition de_first_cluster de (fs : FileSystem D) : option Z := entry_first_cluster (de_data de) (fs_type fs).

Definition to_file de : FM (FileSystem D) (FileSystem D → File D) :=
  fs ← this;
  if entry_is_dir (de_data de) then fpanic
  else mret (file_new (de_first_cluster de fs) (Some (de_editor de))).

Definition to_dir de : FM (FileSystem D) Dir :=
  fs ← this;
  if entry_is_dir (de_data de) then
    mret (match de_first_cluster de fs with
          | Some n => DFileDir (Some n) None 0 (Some (de_editor de))
          | None => root_dir fs
          end)
  else fpanic.

(** The entries of a directory without a loop in its chain are fewer. *)
Definition dir_fuel (fs : FileSystem D) : nat :=
  Z.to_nat ((fs_total_clusters fs * fs_cluster_size fs + fs_root_dir_sectors fs * bytes_per_sector (fs_bpb fs)) / DIR_ENTRY_SIZE) + 2.

(** ** Looking for entries *)

(** The entry, or none and the generator; [find_entry] fails with [NotFound] there. *)
Definition find_entry_gen dir (name : list Z) (expect_dir : option bool) (g : option ShortNameGenerator)
    : FM (FileSystem D) (option DirEntry * option ShortNameGenerator) :=
  fs ← this;
  on_clone dir (find_entry_loop (dir_fuel fs) (dir_fuel fs) name expect_dir g).

Definition find_entry dir (name : list Z) (expect_dir : option bool) : FM (FileSystem D) DirEntry :=
  '(r, _) ← find_entry_gen dir name expect_dir None;
  match r with Some e => mret e | None => fail ENotFound end.

Definition find_volume_entry dir : FM (FileSystem D) (option DirEntry) :=
  fs ← this;
  on_clone dir (find_volume_loop (dir_fuel fs) (dir_fuel fs)).

(** The rounds of [check_for_existence]: the entry, or a short name for a new one. *)
Fixpoint check_for_existence_loop (rounds : nat) dir (name : list Z) (expect_dir : option bool) (g : ShortNameGenerator)
    : FM (FileSystem D) (DirEntry + list Z) :=
  match rounds with
  | O => fpanic
  | S rounds =>
      '(r, g) ← find_entry_gen dir name expect_dir (Some g);
      match r, g with
      | Some e, _ => mret (inl e)
      | None, Some g =>
          match generate g with
          | Ok name' => mret (inr name')
          | Err _ => check_for_existence_loop rounds dir name expect_dir (next_iteration g)
          end
      | None, None => fpanic
      end
  end.

Definition check_for_existence dir (name : list Z) (expect_dir : option bool) : FM (FileSystem D) (DirEntry + list Z) :=
  fs ← this;
  short_name_gen ← lift (short_gen_new name);
  check_for_existence_loop (dir_fuel fs) dir name expect_dir short_name_gen.

(** [if let Some(rest) = rest_opt { self.find_entry(name, Some(true))?.to_dir().f(rest) }] *)
Definition in_subdir {A} dir (name : list Z) (f : Dir → FM (FileSystem D) A) : FM (FileSystem D) A :=
  e ← find_entry dir name (Some true);
  sub ← to_dir e;
  dropping sub (f sub).

(** A path has fewer components than characters. *)
Fixpoint open_dir_at (fuel : nat) dir (path : list Z) : FM (FileSystem D) Dir :=
  match fuel with
  | O => fpanic
  | S fuel =>
      match split_path path with
      | (name, Some rest) => in_subdir dir name (λ sub, open_dir_at fuel sub rest)
      | (name, None) => e ← find_entry dir name (Some true); to_dir e
      end
  end.
Definition open_dir dir (path : list Z) : FM (FileSystem D) Dir := open_dir_at (S (length path)) dir path.

Fixpoint open_file_at (fuel : nat) dir (path : list Z) : FM (FileSystem D) (FileSystem D → File D) :=
  match fuel with
  | O => fpanic
  | S fuel =>
      match split_path path with
      | (name, Some rest) => in_subdir dir name (λ sub, open_file_at fuel sub rest)
      | (name, None) => e ← find_entry dir name (Some false); to_file e
      end
  end.
Definition open_file dir (path : list Z) : FM (FileSystem D) (FileSystem D → File D) := open_file_at (S (length path)) dir path.

(** ** Making entries *)

Definition create_sfn_entry (fs : FileSystem D) (short_name : list Z) (attrs : Z) (first_cluster : option Z) : DirFileEntryData :=
  let raw_entry := entry_new short_name attrs in
  let raw_entry := entry_set_first_cluster raw_entry first_cluster (fs_type fs) in
  let now := get_current_date_time in
  let raw_entry := entry_set_created raw_entry now in
  let raw_entry := entry_set_accessed raw_entry (date now) in
  entry_set_modified raw_entry now.

Definition write_entry dir (name : list Z) (raw_entry : DirFileEntryData) : FM (FileSystem D) DirEntry :=
  fs ← this;
  _ ← validate_long_name name;
  on_clone dir (write_entry_at (dir_fuel fs) name raw_entry).

Fixpoint create_file_at (fuel : nat) dir (path : list Z) : FM (FileSystem D) (FileSystem D → File D) :=
  match fuel with
  | O => fpanic
  | S fuel =>
      match split_path path with
      | (name, Some rest) => in_subdir dir name (λ sub, create_file_at fuel sub rest)
      | (name, None) =>
          r ← check_for_existence dir name (Some false);
          match r with
          | inr short_name =>
              fs ← this;
              e ← write_entry dir name (create_sfn_entry fs short_name 0 None);
              to_file e
          | inl e => to_file e
          end
      end
  end.
Definition create_file dir (path : list Z) : FM (FileSystem D) (FileSystem D → File D) := create_file_at (S (length path)) dir path.

Fixpoint create_dir_at (fuel : nat) dir (path : list Z) : FM (FileSystem D) Dir :=
  match fuel with
  | O => fpanic
  | S fuel =>
      match split_path path with
      | (name, Some rest) => in_subdir dir name (λ sub, create_dir_at fuel sub rest)
      | (name, None) =>
          r ← check_for_existence dir name (Some true);
          match r with
          | inr short_name =>
              cluster ← fs_alloc_cluster None true;
              fs ← this;
              entry ← write_entry dir name (create_sfn_entry fs short_name DIRECTORY (Some cluster));
              sub ← to_dir entry;
              _ ← dropping_on_error sub (
                fs ← this;
                _ ← write_entry sub [0x2E] (create_sfn_entry fs generate_dot DIRECTORY (de_first_cluster entry fs));
                fs ← this;
                write_entry sub [0x2E; 0x2E] (create_sfn_entry fs generate_dotdot DIRECTORY (dir_first_cluster dir)));
              mret sub
          | inl e => to_dir e
          end
      end
  end.
Definition create_dir dir (path : list Z) : FM (FileSystem D) Dir := create_dir_at (S (length path)) dir path.

(** ** Removing and renaming *)

Definition is_empty dir : FM (FileSystem D) bool :=
  fs ← this;
  on_clone dir (is_empty_loop (dir_fuel fs) (dir_fuel fs)).

Fixpoint remove_at (fuel : nat) dir (path : list Z) : FM (FileSystem D) unit :=
  match fuel with
  | O => fpanic
  | S fuel =>
      match split_path path with
      | (name, Some rest) => in_subdir dir name (λ sub, remove_at fuel sub rest)
      | (name, None) =>
          e ← find_entry dir name None;
          has_files ← (if entry_is_dir (de_data e) then
              sub ← to_dir e;
              empty ← dropping sub (is_empty sub);
              mret (negb empty)
            else mret false : FM (FileSystem D) bool);
          if (has_files : bool) then fail EDirectoryIsNotEmpty
          else
            fs ← this;
            _ ← (match de_first_cluster e fs with
                 | Some n => free_cluster_chain n
                 | None => mret tt
                 end);
            on_clone dir (delete_entries e)
      end
  end.
Definition remove dir (path : list Z) : FM (FileSystem D) unit := remove_at (S (length path)) dir path.

Definition rename_internal dir (src_name : list Z) (dst_dir : Dir) (dst_name : list Z) : FM (FileSystem D) unit :=
  e ← find_entry dir src_name None;
  r ← check_for_existence dst_dir dst_name None;
  match r with
  | inl dst_e => if is_same_entry e dst_e then mret tt else fail EAlreadyExists
  | inr short_name =>
      _ ← on_clone dir (delete_entries e);
      _ ← write_entry dst_dir dst_name (entry_renamed (de_data e) short_name);
      mret tt
  end.

Fixpoint rename_at (fuel : nat) dir (src_path : list Z) (dst_dir : Dir) (dst_path : list Z) : FM (FileSystem D) unit :=
  match fuel with
  | O => fpanic
  | S fuel =>
      match split_path src_path with
      | (src_name, Some rest) => in_subdir dir src_name (λ sub, rename_at fuel sub rest dst_dir dst_path)
      | (_, None) =>
          match split_path dst_path with
          | (dst_name, Some rest) => in_subdir dst_dir dst_name (λ sub, rename_at fuel dir src_path sub rest)
          | (_, None) => rename_internal dir src_path dst_dir dst_path
          end
      end
  end.
Definition rename dir (src_path : list Z) (dst_dir : Dir) (dst_path : list Z) : FM (FileSystem D) unit :=
  rename_at (S (length src_path + length dst_path)) dir src_path dst_dir dst_path.

(** ** The volume label *)

Definition read_volume_label_from_root_dir_as_bytes : FM (FileSystem D) (option (list Z)) :=
  fs ← this;
  let root := root_dir fs in
  r ← dropping root (find_volume_entry root);
  mret ((λ e : DirEntry, e_name (de_data e)) <$> r).

Definition read_volume_label_from_root_dir : FM (FileSystem D) (option (list Z)) :=
  volume_label_opt ← read_volume_label_from_root_dir_as_bytes;
  mret ((λ volume_label : list Z, oem_decode <$> bytes_at 0 (unpadded_len volume_label) volume_label) <$> volume_label_opt).
End stream.
