(* ===== verification/DirSpec.v ===== *)
(** * Correctness of directories

    Against the contract of a stream: any contents are read without a panic,
    slot by slot; a new entry goes where the directory has room and is listed
    after, among the entries that were there before. *)

From S2P Require Import Prelude Bytes FatIo FatIoSpec FatTime FatTable DirEntry DirEntrySpec BootSector FatFs FatFsSpec.
From S2P Require Import DiskFile DirNames DirNamesSpec Dir.

(** ** Slots *)

(** What 32 bytes are as an entry. *)
Definition parse_slot (bs : list Z) : DirEntryData :=
  let name := take 11 bs in
  let attrs := attrs_from_bits_truncate (le_at 11 1 bs) in
  if Z.land attrs LFN =? LFN then
    DLfn (mkLfn (first_byte name) (le_units (drop 1 name)) attrs (le_at 12 1 bs) (le_at 13 1 bs)
      (le_units (bytes_at 14 12 bs)) (le_at 26 2 bs) (le_units (bytes_at 28 4 bs)))
  else
    DFile (mkEntry name attrs (le_at 12 1 bs) (le_at 13 1 bs) (le_at 14 2 bs) (le_at 16 2 bs) (le_at 18 2 bs)
      (le_at 20 2 bs) (le_at 22 2 bs) (le_at 24 2 bs) (le_at 26 2 bs) (le_at 28 4 bs)).

Section slots.
Context {S : Type} {HS : Stream S} {SS : StreamSpec S}.

Lemma decodes_cut {A B} n (x : FM S A) (y : A → FM S B) a b bs : Decodes x (take n bs) a → Decodes (y a) (drop n bs) b →
  Decodes (x ≫= y) bs b.
Proof. intros Hx Hy. rewrite <- (take_drop n bs). by eapply decodes_bind. Qed.

Lemma decodes_raw n bs : length bs = n → Decodes (x ← read_exact (Z.of_nat n); mret (le_combine x)) bs (le_combine bs).
Proof. intros <-. eapply decodes_last; [apply decodes_exact|done]. Qed.

Lemma decodes_units n bs : length bs = (2 * n)%nat → Decodes (read_units n) bs (le_units bs).
Proof.
  revert bs. induction n as [|n IH]; intros bs Hl; [destruct bs; [apply decodes_ret|done]|].
  destruct bs as [|b0 [|b1 bs]]; try (simpl in Hl; lia). cbn [read_units].
  assert (length bs = (2 * n)%nat) as Hl2 by (cbn [length] in Hl; lia).
  apply (decodes_cut 2 _ _ (le_combine [b0; b1])); [by apply (decodes_raw 2)|]. cbn [drop].
  eapply decodes_last; [by apply IH|done].
Qed.

#[local] Ltac raw_field :=
  lazymatch goal with
  | |- Decodes (mbind _ (read_units ?n)) _ _ => eapply (decodes_cut (2 * n)); [by apply decodes_units|cbn [drop]]
  | |- Decodes (mbind _ _) _ _ =>
      first [eapply (decodes_cut 1); [by apply (decodes_raw 1)|cbn [drop]]
            |eapply (decodes_cut 2); [by apply (decodes_raw 2)|cbn [drop]]
            |eapply (decodes_cut 4); [by apply (decodes_raw 4)|cbn [drop]]]
  end.

(** Any 32 bytes are read as an entry. *)
Lemma slot_decodes bs : length bs = 32%nat → Decodes deserialize bs (parse_slot bs).
Proof.
  intros Hl. assert (Decodes (read_exact SFN_SIZE ≫= deserialize_rest) bs (parse_slot bs)) as Hd.
  { do 32 (destruct bs as [|? bs]; [done|]). destruct bs; [|done].
    eapply (decodes_cut 11); [match goal with |- Decodes _ ?l _ => exact (decodes_exact l) end|]. cbn [take drop]. unfold deserialize_rest, parse_slot. cbv zeta.
    eapply (decodes_cut 1); [by apply (decodes_raw 1)|cbn [drop]].
    match goal with |- Decodes (if Z.land ?a LFN =? LFN then _ else _) _ (if Z.land ?b LFN =? LFN then _ else _) => change b with a end.
    destruct (_ =? LFN); repeat raw_field; exact (decodes_ret _). }
  intros d Hok Hlen Hbs. destruct (Hd d Hok Hlen Hbs) as (d'&Hr&Hm). exists d'. split; [|done].
  unfold deserialize. revert Hr. unfold mbind, FM_bind. by destruct (read_exact _ d) as [[[name'|e] d1]|].
Qed.
End slots.

(** ** Contents of a directory as a list of slots *)

Definition slot (l : list Z) (k : nat) : DirEntryData := parse_slot (bytes_at (32 * Z.of_nat k) 32 l).
Definition slots (l : list Z) : list DirEntryData := slot l <$> seq 0 (Z.to_nat (len l / 32)).

Lemma length_slots l : length (slots l) = Z.to_nat (len l / 32).
Proof. unfold slots. by rewrite length_fmap, length_seq. Qed.

Lemma slots_lookup l k : (k < length (slots l))%nat → slots l !! k = Some (slot l k).
Proof.
  intros Hk. rewrite length_slots in Hk. unfold slots. rewrite list_lookup_fmap, lookup_seq_lt by done. done.
Qed.

Lemma slots_drop l k : (k < length (slots l))%nat → drop k (slots l) = slot l k :: drop (S k) (slots l).
Proof. intros Hk. by apply drop_S, slots_lookup. Qed.

(** The units of a piece of a long name. *)
Definition slot_ok (x : DirEntryData) : Prop :=
  match x with DLfn d => len (copy_name_to_slice d) = 13 | DFile _ => True end.

Lemma length_le_units bs n : length bs = (2 * n)%nat → length (le_units bs) = n.
Proof.
  revert bs. induction n as [|n IH]; intros bs Hl; [by destruct bs|].
  destruct bs as [|b0 [|b1 bs]]; cbn [length] in Hl; try lia. cbn [le_units length]. rewrite IH; lia.
Qed.

Lemma parse_slot_ok bs : length bs = 32%nat → slot_ok (parse_slot bs).
Proof.
  intros Hl. unfold parse_slot. destruct (_ =? LFN); [|done]. cbn [slot_ok]. unfold copy_name_to_slice. cbn [l_name_0 l_name_1 l_name_2].
  unfold len. rewrite !length_app, (length_le_units _ 5), (length_le_units _ 6), (length_le_units _ 2); [done|..];
    unfold bytes_at; rewrite ?length_take, ?length_drop, ?length_take, Hl; done.
Qed.

Lemma parse_slot_marks bs : length bs = 32%nat → is_end (parse_slot bs) = (first_byte bs =? 0) ∧
  is_deleted (parse_slot bs) = (first_byte bs =? DIR_ENTRY_DELETED_FLAG).
Proof.
  intros Hl. assert (first_byte (take 11 bs) = first_byte bs) as E by (unfold first_byte; by rewrite lookup_take_lt by lia).
  unfold parse_slot. destruct (_ =? LFN); cbn [is_end is_deleted]; unfold lfn_is_end, lfn_is_deleted, entry_is_end, entry_is_deleted;
    cbn [l_order e_name]; by rewrite E.
Qed.

(** ** The builder on any contents *)

Definition builder_ok (b : LongNameBuilder) : Prop := 0 <= lb_index b ∧ lb_index b * 13 <= len (lb_buf b).

Lemma len_set_len buf n : 0 <= n → len (set_len buf n) = n.
Proof. intros. unfold len. rewrite length_set_len; lia. Qed.

(** No piece is copied outside of the buffer, whatever comes in which order. *)
Lemma builder_process_ok b d : builder_ok b → len (copy_name_to_slice d) = 13 →
  ∃ b', builder_process b d = Ret b' ∧ builder_ok b'.
Proof.
  intros [Hi Hb] Hd. unfold builder_process. assert (builder_ok (builder_clear b)) as Hclear by (split; [done|cbn; apply len_nonneg]).
  set (i := Z.land (l_order d) 0x1F). assert (0 <= i) as Hi0 by (apply Z.land_nonneg; right; lia).
  destruct (Z.eqb_spec i 0); [by eexists|]. destruct (Z.ltb_spec MAX_LONG_DIR_ENTRIES i); [by eexists|]. cbn [orb].
  destruct (negb (_ =? 0)).
  - rewrite builder_copy_ok by (cbn [lb_buf]; rewrite len_set_len; unfold LFN_PART_LEN; lia). eexists. split; [done|].
    split; cbn [lb_index lb_buf]; [done|]. rewrite len_splice, len_set_len; unfold LFN_PART_LEN; lia.
  - destruct (Z.eqb_spec (lb_index b) 0); [by eexists|]. destruct (Z.eqb_spec i (lb_index b - 1)); [|by eexists]. cbn [orb negb].
    destruct (_ =? lb_chksum b); [|by eexists]. cbn [negb].
    rewrite builder_copy_ok by (cbn [lb_buf]; unfold LFN_PART_LEN; lia). eexists. split; [done|].
    split; cbn [lb_index lb_buf]; [lia|]. rewrite len_splice. lia.
Qed.

Definition builder_after (b : LongNameBuilder) (d : DirLfnEntryData) : LongNameBuilder :=
  match builder_process b d with Ret b' => b' | Panic => b end.

Lemma builder_after_ok b d : builder_ok b → len (copy_name_to_slice d) = 13 →
  builder_process b d = Ret (builder_after b d) ∧ builder_ok (builder_after b d).
Proof. intros Hb Hd. destruct (builder_process_ok b d Hb Hd) as (b'&H&Hb'). unfold builder_after. rewrite H. done. Qed.

(** ** The listing *)

Section listing.
Context (abs_at : Z → Z).

(** The entry whose own slot is [k], with what its builder has. *)
Definition listed (data : DirFileEntryData) (b : LongNameBuilder) (beg : Z) (k : nat) : DirEntry :=
  mkDirEntry data (ShortName_new (e_name data)) (builder_into_buf (builder_validate_chksum b (e_name data)))
    (wrap64 (abs_at (32 * (Z.of_nat k + 1)) - DIR_ENTRY_SIZE)) (beg, 32 * (Z.of_nat k + 1)).

(** The next entry of the slots [ss], the first of which is [k], and the slot behind it. *)
Fixpoint scan (skip : bool) (b : LongNameBuilder) (k : nat) (beg : Z) (ss : list DirEntryData) : option (DirEntry * nat) :=
  match ss with
  | [] => None
  | raw :: ss =>
      if is_end raw then None
      else if should_ship_entry skip raw then scan skip (builder_clear b) (S k) (32 * (Z.of_nat k + 1)) ss
      else match raw with
           | DFile data => Some (listed data b beg k, S k)
           | DLfn d => scan skip (builder_after b d) (S k) beg ss
           end
  end.

(** All entries from there. *)
Fixpoint listing (skip : bool) (b : LongNameBuilder) (k : nat) (beg : Z) (ss : list DirEntryData) : list DirEntry :=
  match ss with
  | [] => []
  | raw :: ss =>
      if is_end raw then []
      else if should_ship_entry skip raw then listing skip (builder_clear b) (S k) (32 * (Z.of_nat k + 1)) ss
      else match raw with
           | DFile data => listed data b beg k :: listing skip builder_new (S k) (32 * (Z.of_nat k + 1)) ss
           | DLfn d => listing skip (builder_after b d) (S k) beg ss
           end
  end.

Definition entries (skip : bool) (l : list Z) : list DirEntry := listing skip builder_new 0 0 (slots l).

Lemma listing_scan skip b k beg ss : listing skip b k beg ss =
  match scan skip b k beg ss with
  | Some (e, k') => e :: listing skip builder_new k' (32 * Z.of_nat k') (drop (k' - k) ss)
  | None => []
  end.
Proof.
  revert b k beg. induction ss as [|raw ss IH]; intros b k beg; [done|]. cbn [listing scan]. destruct (is_end raw); [done|].
  assert (∀ b beg, match scan skip b (S k) beg ss with
    | Some (e, k') => e :: listing skip builder_new k' (32 * Z.of_nat k') (drop (k' - S k) ss) | None => [] end =
    match scan skip b (S k) beg ss with
    | Some (e, k') => e :: listing skip builder_new k' (32 * Z.of_nat k') (drop (k' - k) (raw :: ss)) | None => [] end) as Hs.
  { intros b' beg'. destruct (scan skip b' (S k) beg' ss) as [[e k']|] eqn:Hsc; [|done].
    assert (S k <= k')%nat as Hle; [|by replace (k' - k)%nat with (S (k' - S k)) by lia].
    clear IH. revert b' beg' Hsc. generalize (S k). induction ss as [|raw' ss IH]; intros j b' beg'; [done|]. cbn [scan].
    destruct (is_end raw'); [done|]. destruct (should_ship_entry skip raw'); [intros Hsc%IH; lia|].
    destruct raw'; [intros [= _ <-]; lia|intros Hsc%IH; lia]. }
  destruct (should_ship_entry skip raw); [by rewrite <- Hs|]. destruct raw as [data|d]; [|by rewrite <- Hs].
  replace (S k - k)%nat with 1%nat by lia. cbn [drop]. rewrite drop_0. do 2 f_equal. lia.
Qed.
End listing.

(** ** Reading a directory *)

(** What a directory asks of its stream: the error at the end, and positions on
    the disk that depend on the position alone. *)
Class DirStreamSpec (S : Type) {HS : Stream S} {SS : StreamSpec S} {AP : AbsPos S} := {
  eof_error : unexpected_eof_error (D := S) = EUnexpectedEof;
  abs_at : Z → Z;
  abs_ok s : ok s → 0 < pos s → stream_abs_pos s = Ret (Some (abs_at (pos s))) }.

(** Whole slots. *)
Definition whole (l : list Z) : Prop := len l = 32 * (len l / 32).

Lemma slot_bytes l k : whole l → (k < length (slots l))%nat → length (bytes_at (32 * Z.of_nat k) 32 l) = 32%nat ∧
  32 * Z.of_nat k + 32 <= len l.
Proof.
  intros Hw Hk. rewrite length_slots in Hk. unfold whole in Hw. pose proof (len_nonneg l).
  assert (32 * Z.of_nat k + 32 <= len l) by lia. split; [|done].
  pose proof (len_bytes_at (32 * Z.of_nat k) 32 l) as Hl. unfold len in *. lia.
Qed.

Section reading.
Context {S : Type} {HS : Stream S} {SS : StreamSpec S} {AP : AbsPos S} {DS : DirStreamSpec S}.
Implicit Types s : S.

(** The next slot, or an end entry behind the last. *)
Lemma deserialize_ok s k : ok s → whole (data s) → pos s = 32 * Z.of_nat k → (k <= length (slots (data s)))%nat →
  ∃ s', ok s' ∧ data s' = data s ∧
    if decide (k < length (slots (data s)))%nat
    then deserialize s = Ret (Ok (slot (data s) k), s') ∧ pos s' = 32 * (Z.of_nat k + 1)
    else deserialize s = Ret (Ok (DFile entry_default), s').
Proof.
  intros Hs Hw Hp Hk. destruct (decide (k < length (slots (data s)))%nat) as [Hlt|Hge].
  - destruct (slot_bytes _ _ Hw Hlt) as [Hl Hin].
    destruct (slot_decodes (bytes_at (32 * Z.of_nat k) 32 (data s)) Hl s Hs) as (s'&Hr&Hs'&Hd&Hp').
    { unfold len at 1. rewrite Hl. lia. } { unfold len at 1. rewrite Hl, Hp. done. }
    exists s'. split; [done|]. split; [done|]. split; [done|]. rewrite Hp'. unfold len. rewrite Hl. lia.
  - rewrite length_slots in *. unfold whole in Hw. assert (pos s = len (data s)) as Hend by (pose proof (len_nonneg (data s)); lia).
    destruct (read_ok s SFN_SIZE Hs) as (bs&s'&Hr&Hs'&Hd&Hle&Hbs&_&_); [unfold SFN_SIZE; lia|].
    assert (bs = []) as ->.
    { rewrite Hbs, Hend. unfold bytes_at. rewrite drop_ge by (unfold len; lia). apply take_nil. }
    exists s'. split; [done|]. split; [done|]. unfold deserialize.
    assert (read_exact SFN_SIZE s = Ret (Err EUnexpectedEof, s')) as ->; [|done].
    unfold read_exact. change (Z.to_nat SFN_SIZE + 1)%nat with 12%nat. cbn [read_exact_loop]. change (SFN_SIZE =? 0) with false. cbn iota.
    fstep Hr. by rewrite eof_error.
Qed.

Lemma default_is_end : is_end (DFile entry_default) = true.
Proof. done. Qed.

(** Reading from slot [k] on; the state of the builder is any. *)
Lemma entry_loop_ok skip fuel k b beg s : ok s → whole (data s) → pos s = 32 * Z.of_nat k → (k <= length (slots (data s)))%nat →
  (length (slots (data s)) - k < fuel)%nat → builder_ok b →
  ∃ s', ok s' ∧ data s' = data s ∧
    match scan abs_at skip b k beg (drop k (slots (data s))) with
    | Some (e, k') => read_dir_entry_loop fuel skip b (32 * Z.of_nat k) beg s = Ret (Ok (Some e), s') ∧ pos s' = 32 * Z.of_nat k' ∧
        (k < k' <= length (slots (data s)))%nat
    | None => read_dir_entry_loop fuel skip b (32 * Z.of_nat k) beg s = Ret (Ok None, s')
    end.
Proof.
  revert k b beg s. induction fuel as [|fuel IH]; intros k b beg s Hs Hw Hp Hk Hf Hb; [lia|]. cbn [read_dir_entry_loop].
  destruct (deserialize_ok s k Hs Hw Hp Hk) as (s1&Hs1&Hd1&Hr). case_decide as Hlt.
  2: { rewrite drop_ge by lia. fstep Hr. by exists s1. }
  destruct Hr as [Hr Hp1]. fstep Hr. rewrite (slots_drop _ _ Hlt). cbn [scan].
  pose proof (len_ok s Hs) as Hlen. destruct (slot_bytes _ _ Hw Hlt) as [Hl32 Hin]. unfold word in Hlen.
  assert (wrap64 (32 * Z.of_nat k + DIR_ENTRY_SIZE) = 32 * (Z.of_nat k + 1)) as Hoff
    by (rewrite wrap_small; unfold word, DIR_ENTRY_SIZE; lia).
  rewrite Hoff. pose proof (parse_slot_ok _ Hl32) as Hok. fold (slot (data s) k) in Hok.
  destruct (is_end (slot (data s) k)); [by exists s1|].
  assert (∀ b' beg', builder_ok b' → ∃ s', ok s' ∧ data s' = data s ∧
    match scan abs_at skip b' (Datatypes.S k) beg' (drop (Datatypes.S k) (slots (data s))) with
    | Some (e, k') => read_dir_entry_loop fuel skip b' (32 * (Z.of_nat k + 1)) beg' s1 = Ret (Ok (Some e), s') ∧ pos s' = 32 * Z.of_nat k' ∧
        (k < k' <= length (slots (data s)))%nat
    | None => read_dir_entry_loop fuel skip b' (32 * (Z.of_nat k + 1)) beg' s1 = Ret (Ok None, s')
    end) as Hnext.
  { intros b' beg' Hb'. destruct (IH (Datatypes.S k) b' beg' s1 Hs1) as (s'&Hs'&Hd'&Hres); rewrite ?Hd1; try done; try lia.
    replace (32 * Z.of_nat (Datatypes.S k)) with (32 * (Z.of_nat k + 1)) in Hres by lia. rewrite Hd1 in *.
    exists s'. split; [done|]. split; [done|]. destruct (scan _ _ _ _ _ _) as [[e k']|]; [|done].
    destruct Hres as (?&?&?). split; [done|]. split; [done|lia]. }
  destruct (should_ship_entry skip (slot (data s) k)).
  { apply Hnext. split; [done|cbn; apply len_nonneg]. }
  destruct (slot (data s) k) as [e|d] eqn:Hsl.
  - assert (abs_pos_unwrap s1 = Ret (Ok (abs_at (32 * (Z.of_nat k + 1))), s1)) as Ha.
    { unfold abs_pos_unwrap. rewrite (FM_step this _ s1 s1 s1 eq_refl), abs_ok by (done || rewrite Hp1; lia). by rewrite Hp1. }
    fstep Ha. exists s1. split; [done|]. split; [done|]. split; [done|]. split; [rewrite Hp1; lia|lia].
  - cbn [slot_ok] in Hok. destruct (builder_after_ok b d Hb Hok) as [Hbp Hb']. rewrite Hbp, lift_Ret. by apply Hnext.
Qed.

Lemma read_dir_entry_ok skip fuel k s : ok s → whole (data s) → pos s = 32 * Z.of_nat k → (k <= length (slots (data s)))%nat →
  (length (slots (data s)) - k < fuel)%nat →
  ∃ s', ok s' ∧ data s' = data s ∧
    match scan abs_at skip builder_new k (32 * Z.of_nat k) (drop k (slots (data s))) with
    | Some (e, k') => read_dir_entry fuel skip s = Ret (Ok (Some e), s') ∧ pos s' = 32 * Z.of_nat k' ∧ (k < k' <= length (slots (data s)))%nat
    | None => read_dir_entry fuel skip s = Ret (Ok None, s')
    end.
Proof.
  intros Hs Hw Hp Hk Hf. destruct (seek_cur_ok s 0 Hs) as (s1&Hsk&Hs1&Hd1&Hp1); [pose proof (pos_ok s Hs); lia|].
  rewrite Z.add_0_r in *. unfold read_dir_entry.
  destruct (entry_loop_ok skip fuel k builder_new (32 * Z.of_nat k) s1 Hs1) as (s'&Hs'&Hd'&Hres); rewrite ?Hd1, ?Hp1; try done.
  rewrite Hd1 in *. exists s'. split; [done|]. split; [done|]. rewrite (FM_step _ _ _ _ _ Hsk), Hp. exact Hres.
Qed.

(** The first of the entries with the name, or all of them for the generator. *)
Fixpoint find_in (name : list Z) (es : list DirEntry) (g : option ShortNameGenerator) : option DirEntry * option ShortNameGenerator :=
  match es with
  | [] => (None, g)
  | e :: es => if eq_name e name then (Some e, g) else find_in name es ((λ g, add_existing g (e_name (de_data e))) <$> g)
  end.

Definition found (expect_dir : option bool) (r : option DirEntry * option ShortNameGenerator)
    : result (option DirEntry * option ShortNameGenerator) :=
  match r.1, expect_dir with
  | Some e, Some d => if Bool.eqb (entry_is_dir (de_data e)) d then Ok r else Err EInvalidInput
  | _, _ => Ok r
  end.

Lemma find_entry_loop_ok fuel rounds name expect_dir g k s : ok s → whole (data s) → pos s = 32 * Z.of_nat k →
  (k <= length (slots (data s)))%nat → (length (slots (data s)) - k < fuel)%nat → (length (slots (data s)) - k < rounds)%nat →
  ∃ s', find_entry_loop fuel rounds name expect_dir g s
      = Ret (found expect_dir (find_in name (listing abs_at true builder_new k (32 * Z.of_nat k) (drop k (slots (data s)))) g), s') ∧
    ok s' ∧ data s' = data s.
Proof.
  revert k g s. induction rounds as [|rounds IH]; intros k g s Hs Hw Hp Hk Hf Hr; [lia|]. cbn [find_entry_loop].
  destruct (read_dir_entry_ok true fuel k s Hs Hw Hp Hk Hf) as (s1&Hs1&Hd1&Hres). rewrite listing_scan.
  destruct (scan _ _ _ _ _ _) as [[e k']|]; [|fstep Hres; exists s1; by destruct expect_dir].
  destruct Hres as (Hrd&Hp1&Hk'). fstep Hrd. cbn [find_in]. destruct (eq_name e name).
  { exists s1. unfold found. cbn [fst]. destruct expect_dir as [d|]; [|done]. by destruct (Bool.eqb _ d). }
  rewrite drop_drop. replace (k + (k' - k))%nat with k' by lia.
  destruct (IH k' ((λ g, add_existing g (e_name (de_data e))) <$> g) s1) as (s2&H2&Hs2&Hd2); rewrite ?Hd1; try done; try lia.
  exists s2. rewrite Hd1 in *. by split.
Qed.
End reading.
