(* ===== verification/DirWriteSpec.v ===== *)
(** * Correctness of changes to a directory

    A new entry goes to free slots, is listed after with its name and the data
    it was given, and leaves the entries that were there as they were; the
    entry that is deleted is the only one the listing loses. *)

From S2P Require Import Prelude Bytes FatIo FatIoSpec FatTime FatTable DirEntry DirEntrySpec BootSector FatFs FatFsSpec.
From S2P Require Import DiskFile DirNames DirNamesSpec Dir DirSpec.

(** ** Slots that are written *)

Lemma units_bytes_bytes us : Forall (word 8) (units_bytes us).
Proof. induction us as [|u us IH]; [constructor|]. apply list.Forall_app. split; [apply le_split_bytes|done]. Qed.

Lemma data_bytes_bytes x : data_ok x → Forall (word 8) (data_bytes x).
Proof.
  destruct x as [e|d]; intros Hx; cbn [data_bytes].
  - unfold entry_bytes. rewrite !list.Forall_app. split_and!; try apply le_split_bytes. apply (eo_name e Hx).
  - unfold lfn_bytes. rewrite !list.Forall_app. split_and!; apply le_split_bytes || apply units_bytes_bytes.
Qed.

Lemma length_data_bytes x : data_ok x → length (data_bytes x) = 32%nat.
Proof. intros H%len_data_bytes. unfold len, DIR_ENTRY_SIZE in H. lia. Qed.

(** Reading is one function of the bytes: what was serialized is parsed. *)
Lemma parse_data_bytes x : data_ok x → parse_slot (data_bytes x) = x.
Proof.
  intros Hx. pose proof (length_data_bytes x Hx) as Hl. set (d := mkMem (data_bytes x) 0).
  assert (ok d) as Hd.
  { split; [by apply data_bytes_bytes|]. cbn. unfold len. rewrite Hl. unfold word. lia. }
  assert (pos d + len (data_bytes x) <= len (data d)) as Hin by (cbn; lia).
  assert (bytes_at (pos d) (len (data_bytes x)) (data d) = data_bytes x) as Hb by by apply bytes_at_all.
  destruct (deserialize_decodes x Hx d Hd Hin Hb) as (d1&H1&_). destruct (slot_decodes _ Hl d Hd Hin Hb) as (d2&H2&_). congruence.
Qed.

Lemma le_units_words us : Forall (word 8) us → Forall (word 16) (le_units us).
Proof.
  assert (∀ n us, (length us < n)%nat → Forall (word 8) us → Forall (word 16) (le_units us)) as H; [|intros Hw; apply (H (S (length us))); [lia|done]].
  clear us. induction n as [|n IH]; intros us Hn Hf; [lia|]. destruct us as [|a [|b us]]; [by constructor|by constructor|]. cbn [le_units].
  apply list.Forall_cons in Hf as [Ha [Hb Hf]%list.Forall_cons]. constructor; [|apply IH; [simpl in *; lia|done]].
  apply (le_combine_bound [a; b]). constructor; [done|constructor; [done|constructor]].
Qed.

Lemma attrs_word x : 0 <= x → word 6 (attrs_from_bits_truncate x).
Proof. intros. unfold attrs_from_bits_truncate. change 0x3F with (Z.ones 6). rewrite Z.land_ones by lia. apply Z.mod_pos_bound. lia. Qed.

Lemma parse_slot_data_ok bs : length bs = 32%nat → Forall (word 8) bs → data_ok (parse_slot bs).
Proof.
  intros Hl Hb. assert (∀ p n, 0 <= p → 0 <= n → p + n <= 32 → word (8 * n) (le_at p n bs)) as Hle
    by (intros; apply le_at_bound; unfold len; rewrite ?Hl; done || lia).
  assert (∀ p n, Forall (word 8) (bytes_at p n bs)) as Hat by (intros; by apply bytes_at_bytes).
  assert (word 6 (attrs_from_bits_truncate (le_at 11 1 bs))) as Ha by (apply attrs_word, (Hle 11 1); lia).
  unfold parse_slot. cbv zeta. destruct (Z.eqb_spec (Z.land (attrs_from_bits_truncate (le_at 11 1 bs)) LFN) LFN) as [E|E].
  - assert (∀ p n, 0 <= p → p + Z.of_nat (2 * n) <= 32 → length (le_units (bytes_at p (Z.of_nat (2 * n)) bs)) = n) as Hlu.
    { intros p n Hp Hn. apply length_le_units. pose proof (len_bytes_at p (Z.of_nat (2 * n)) bs). unfold len in *. lia. }
    split; cbn [l_name_0 l_name_1 l_name_2 l_attrs l_order l_entry_type l_checksum l_reserved_0].
    + split; [|split; [by apply (Hlu 14 6%nat)|by apply (Hlu 28 2%nat)]]. apply length_le_units. rewrite length_drop, length_take. lia.
    + split_and!; apply le_units_words; [|apply Hat..]. by apply Forall_drop, Forall_take.
    + done.
    + split_and!; [|by apply (Hle 12 1)|by apply (Hle 13 1)]. destruct bs as [|b bs]; [done|]. by apply list.Forall_cons in Hb as [Hb _].
    + by apply (Hle 26 2).
  - split; cbn [e_name e_attrs e_reserved_0 e_create_time_0 e_create_time_1 e_create_date e_access_date e_first_cluster_hi
      e_modify_time e_modify_date e_first_cluster_lo e_size].
    + split; [rewrite length_take; lia|by apply Forall_take].
    + done.
    + split; [by apply (Hle 12 1)|by apply (Hle 13 1)].
    + split_and!; [by apply (Hle 14 2)|by apply (Hle 16 2)|by apply (Hle 18 2)|by apply (Hle 22 2)|by apply (Hle 24 2)].
    + split; [by apply (Hle 20 2)|by apply (Hle 26 2)].
    + by apply (Hle 28 4).
Qed.

Definition slots_bytes (ds : list DirEntryData) : list Z := ds ≫= data_bytes.

Lemma len_slots_bytes ds : Forall data_ok ds → len (slots_bytes ds) = 32 * Z.of_nat (length ds).
Proof.
  induction 1 as [|d ds Hd _ IH]; [done|]. unfold slots_bytes in *. cbn [mbind list_bind length]. rewrite len_app, IH, len_data_bytes by done.
  unfold DIR_ENTRY_SIZE. lia.
Qed.

Lemma slots_bytes_at ds j d : Forall data_ok ds → ds !! j = Some d → bytes_at (32 * Z.of_nat j) 32 (slots_bytes ds) = data_bytes d.
Proof.
  intros Hds. revert j. induction Hds as [|x ds Hx _ IH]; intros j Hj; [done|].
  assert (len (data_bytes x) = 32) as Hl by (unfold len; rewrite length_data_bytes; done).
  change (slots_bytes (x :: ds)) with (data_bytes x ++ slots_bytes ds). destruct j as [|j]; cbn in Hj.
  - injection Hj as ->. rewrite bytes_at_app_l by lia. by apply bytes_at_all.
  - replace (32 * Z.of_nat (S j)) with (len (data_bytes x) + 32 * Z.of_nat j) by lia. rewrite bytes_at_app_r by lia. by apply IH.
Qed.

(** Writing entries to the slots from [k] on. *)
Lemma slots_splice l k ds : whole l → Forall data_ok ds → (k + length ds <= length (slots l))%nat →
  slots (splice (32 * Z.of_nat k) (slots_bytes ds) l) = take k (slots l) ++ ds ++ drop (k + length ds) (slots l).
Proof.
  intros Hw Hds Hk. pose proof (len_slots_bytes ds Hds) as Hl. rewrite length_slots in Hk. unfold whole in Hw. pose proof (len_nonneg l).
  assert (32 * Z.of_nat k + len (slots_bytes ds) <= len l) as Hin by lia.
  apply list_eq_same_length with (n := length (slots l)); [|by rewrite !length_slots, len_splice|].
  { rewrite !length_app, length_take, length_drop, length_slots. lia. }
  intros j x y Hj Hx Hy. rewrite slots_lookup in Hx by (rewrite length_slots, len_splice, <- length_slots; done). injection Hx as <-. unfold slot.
  destruct (decide (j < k)%nat) as [Hlt|Hge].
  { rewrite lookup_app_l in Hy by (rewrite length_take, length_slots; lia). rewrite lookup_take_lt, slots_lookup in Hy by done.
    injection Hy as <-. unfold slot. rewrite bytes_at_splice_disjoint; [done|lia..]. }
  assert (length (take k (slots l)) = k) as Hlk by (rewrite length_take, length_slots; lia).
  rewrite lookup_app_r, Hlk in Hy by lia. destruct (decide (j < k + length ds)%nat) as [Hlt|Hge2].
  - rewrite lookup_app_l in Hy by lia. rewrite <- (parse_data_bytes y) by (by eapply list.Forall_lookup_1). f_equal.
    rewrite <- (slots_bytes_at ds (j - k) y Hds Hy). rewrite length_slots in Hj.
    rewrite <- (bytes_at_splice_same (32 * Z.of_nat k) (slots_bytes ds) l) at 2 by lia.
    rewrite bytes_at_bytes_at by lia. f_equal. lia.
  - rewrite lookup_app_r, lookup_drop in Hy by lia. replace (k + length ds + (j - k - length ds))%nat with j in Hy by lia.
    rewrite slots_lookup in Hy by done. injection Hy as <-. unfold slot. rewrite bytes_at_splice_disjoint; [done|lia..].
Qed.

(** ** The listing, part by part *)

(** A piece of a long name that is in use. *)
Definition live_lfn (x : DirEntryData) : Prop :=
  match x with DLfn d => lfn_is_end d = false ∧ lfn_is_deleted d = false | DFile _ => False end.

Definition free_slot (x : DirEntryData) : Prop := is_end x = false ∧ is_deleted x = true.

Section listing.
Context (abs_at : Z → Z) (skip : bool).
#[local] Abbreviation listing := (listing abs_at skip).

(** The checksum of a builder without pieces does not matter. *)
Lemma listing_cleared c k beg ss : listing (mkBuilder [] c 0) k beg ss = listing builder_new k beg ss.
Proof.
  revert c k beg. induction ss as [|raw ss IH]; intros c k beg; [done|]. cbn [DirSpec.listing]. destruct (is_end raw); [done|].
  destruct (should_ship_entry skip raw); [unfold builder_clear; cbn; by rewrite IH|]. destruct raw as [e|d]; [done|].
  unfold builder_after, builder_process. cbn [lb_index lb_chksum lb_buf builder_new Z.eqb orb].
  destruct ((_ =? 0) || _); [unfold builder_clear; cbn; by rewrite IH|]. destruct (negb _); [|unfold builder_clear; cbn; by rewrite IH].
  destruct (builder_copy _ _ _) eqn:Hc; [done|]. by rewrite IH.
Qed.

Lemma listing_clear b k beg ss : listing (builder_clear b) k beg ss = listing builder_new k beg ss.
Proof. apply listing_cleared. Qed.

(** Pieces are taken by the builder. *)
Lemma listing_lfns ds b b' k beg ss : Forall (λ d, live_lfn (DLfn d)) ds → foldM builder_process b ds = Ret b' →
  listing b k beg ((DLfn <$> ds) ++ ss) = listing b' (k + length ds) beg ss.
Proof.
  revert b k. induction ds as [|d ds IH]; intros b k Hds Hf.
  - injection Hf as ->. cbn. by rewrite Nat.add_0_r.
  - apply list.Forall_cons in Hds as [[He Hd] Hds]. cbn [foldM] in Hf. destruct (builder_process b d) as [b1|] eqn:Hb; [|done].
    cbn [mbind outcome_bind] in Hf. cbn [fmap list_fmap app DirSpec.listing]. cbn [is_end should_ship_entry].
    unfold should_ship_entry. cbn [is_deleted]. rewrite He, Hd. unfold builder_after. rewrite Hb. rewrite (IH b1 (S k) Hds Hf).
    f_equal. cbn [length]. lia.
Qed.

(** Deleted entries clear the builder. *)
Lemma listing_deleted X b k beg ss : Forall free_slot X → X ≠ [] →
  listing b k beg (X ++ ss) = listing builder_new (k + length X) (32 * Z.of_nat (k + length X)) ss.
Proof.
  revert b k beg. induction X as [|x X IH]; intros b k beg HX Hne; [done|]. apply list.Forall_cons in HX as [[He Hd] HX].
  cbn [app DirSpec.listing length]. rewrite He. unfold should_ship_entry at 1. rewrite Hd, listing_clear.
  destruct X as [|y X].
  - cbn [app length]. f_equal; lia.
  - rewrite IH by done. f_equal; cbn [length]; lia.
Qed.

(** The entries of a part without an end, and what the builder has after it. *)
Lemma listing_prefix ss1 b k beg : Forall (λ x, is_end x = false) ss1 → Forall slot_ok ss1 → builder_ok b →
  ∃ es b' beg', builder_ok b' ∧ ∀ ss2, listing b k beg (ss1 ++ ss2) = es ++ listing b' (k + length ss1) beg' ss2.
Proof.
  revert b k beg. induction ss1 as [|x ss1 IH]; intros b k beg He Hok Hb.
  - exists [], b, beg. split; [done|]. intros. cbn. by rewrite Nat.add_0_r.
  - apply list.Forall_cons in He as [He Hes]. apply list.Forall_cons in Hok as [Hx Hok]. cbn [app DirSpec.listing length]. rewrite He.
    assert (∀ b k beg, builder_ok b → ∃ es b' beg', builder_ok b' ∧
      ∀ ss2, listing b k beg (ss1 ++ ss2) = es ++ listing b' (k + length ss1) beg' ss2) as IH' by (intros; by apply IH).
    assert (∀ b, builder_ok (builder_clear b)) as Hclr by (intros; split; [done|apply len_nonneg]).
    destruct (should_ship_entry skip x).
    { destruct (IH' (builder_clear b) (S k) (32 * (Z.of_nat k + 1)) (Hclr b)) as (es&b'&beg'&Hb'&Hl). exists es, b', beg'. split; [done|].
      intros. rewrite Hl. do 2 f_equal. lia. }
    destruct x as [e|d].
    + destruct (IH' builder_new (S k) (32 * (Z.of_nat k + 1)) (Hclr builder_new)) as (es&b'&beg'&Hb'&Hl).
      exists (listed abs_at e b beg k :: es), b', beg'. split; [done|]. intros. rewrite Hl. cbn [app]. do 3 f_equal. lia.
    + destruct (builder_after_ok b d Hb Hx) as [_ Hb1]. destruct (IH' _ (S k) beg Hb1) as (es&b'&beg'&Hb'&Hl).
      exists es, b', beg'. split; [done|]. intros. rewrite Hl. do 2 f_equal. lia.
Qed.

(** Behind the end there is nothing. *)
Lemma listing_end b k beg ss : Forall (λ x, is_end x = true) ss → listing b k beg ss = [].
Proof. destruct 1 as [|x ss Hx _]; [done|]. cbn. by rewrite Hx. Qed.

(** Where an entry of the listing is: its pieces and its own slot, in the range
    it reports; without them the listing has the other entries.  [mid0] are the
    pieces that were taken already, the first of them in slot [k0]. *)
Lemma listing_without_from ss mid0 b k0 k l1 e l2 : listing b k (32 * Z.of_nat k0) ss = l1 ++ e :: l2 → k = (k0 + length mid0)%nat →
  Forall (λ x, is_end x = false) mid0 →
  (∀ ss', listing builder_new k0 (32 * Z.of_nat k0) (mid0 ++ ss') = listing b k (32 * Z.of_nat k0) ss') →
  ∃ ss1 mid ss2, mid0 ++ ss = ss1 ++ mid ++ ss2 ∧ mid ≠ [] ∧ Forall (λ x, is_end x = false) (ss1 ++ mid) ∧
    de_offset_range e = (32 * Z.of_nat (k0 + length ss1), 32 * Z.of_nat (k0 + length ss1 + length mid)) ∧
    ∀ X, Forall free_slot X → length X = length mid → listing builder_new k0 (32 * Z.of_nat k0) (ss1 ++ X ++ ss2) = l1 ++ l2.
Proof.
  revert mid0 b k0 k l1. induction ss as [|x ss IH]; intros mid0 b k0 k l1 Hl Hk Hm Heq; [by destruct l1|].
  cbn [DirSpec.listing] in Hl. destruct (is_end x) eqn:He; [by destruct l1|].
  (* an entry of the listing behind [x] *)
  assert (∀ l0 l1', listing builder_new (S k) (32 * Z.of_nat (S k)) ss = l1' ++ e :: l2 → l1 = l0 ++ l1' →
    (∀ ss', listing b k (32 * Z.of_nat k0) (x :: ss') = l0 ++ listing builder_new (S k) (32 * Z.of_nat (S k)) ss') →
    ∃ ss1 mid ss2, mid0 ++ x :: ss = ss1 ++ mid ++ ss2 ∧ mid ≠ [] ∧ Forall (λ x, is_end x = false) (ss1 ++ mid) ∧
      de_offset_range e = (32 * Z.of_nat (k0 + length ss1), 32 * Z.of_nat (k0 + length ss1 + length mid)) ∧
      ∀ X, Forall free_slot X → length X = length mid → listing builder_new k0 (32 * Z.of_nat k0) (ss1 ++ X ++ ss2) = l1 ++ l2) as Hbehind.
  { intros l0 l1' Hl' -> Hx. destruct (IH [] builder_new (S k) (S k) l1' Hl') as (ss1&mid&ss2&Hss&Hne&Hf&Hr&HX); [simpl; lia|done|done|].
    exists (mid0 ++ x :: ss1), mid, ss2. cbn [app] in Hss. rewrite Hss. split; [by rewrite <- app_assoc|]. split; [done|]. split.
    { rewrite <- app_assoc. apply list.Forall_app. split; [done|]. by constructor. }
    split; [rewrite Hr, length_app; cbn [length]; do 2 f_equal; lia|].
    intros X HXf HXl. rewrite <- app_assoc, Heq. cbn [app]. by rewrite Hx, HX, app_assoc. }
  replace (32 * (Z.of_nat k + 1)) with (32 * Z.of_nat (S k)) in Hl by lia.
  destruct (should_ship_entry skip x) eqn:Hs.
  { rewrite listing_clear in Hl. apply (Hbehind [] l1 Hl eq_refl). intros ss'. cbn [DirSpec.listing]. rewrite He, Hs, listing_clear.
    by replace (32 * (Z.of_nat k + 1)) with (32 * Z.of_nat (S k)) by lia. }
  destruct x as [data|d].
  - destruct l1 as [|e1 l1]; injection Hl as He1 Hl.
    + exists [], (mid0 ++ [DFile data]), ss. rewrite <- app_assoc. split; [done|]. split; [by destruct mid0|].
      split; [cbn [app]; apply list.Forall_app; split; [done|by constructor]|]. split.
      * rewrite <- He1. unfold listed. cbn [de_offset_range]. rewrite length_app. cbn [length]. do 2 f_equal; lia.
      * intros X HXf HXl. rewrite length_app in HXl. cbn [app length] in *. rewrite listing_deleted; [|done|by intros ->; simpl in HXl; lia].
        rewrite HXl, <- Hl. f_equal; lia.
    + apply (Hbehind [e1] l1 Hl eq_refl). intros ss'. cbn [DirSpec.listing]. rewrite He, Hs, <- He1. cbn [app]. do 2 f_equal. lia.
  - destruct (IH (mid0 ++ [DLfn d]) (builder_after b d) k0 (S k) l1 Hl) as (ss1&mid&ss2&Hss&?).
    + rewrite length_app. simpl. lia.
    + apply list.Forall_app. split; [done|by constructor].
    + intros ss'. rewrite <- app_assoc, Heq. cbn [app DirSpec.listing]. by rewrite He, Hs.
    + exists ss1, mid, ss2. by rewrite <- Hss, <- app_assoc.
Qed.

Lemma listing_without ss l1 e l2 : listing builder_new 0 0 ss = l1 ++ e :: l2 →
  ∃ ss1 mid ss2, ss = ss1 ++ mid ++ ss2 ∧ mid ≠ [] ∧ Forall (λ x, is_end x = false) (ss1 ++ mid) ∧
    de_offset_range e = (32 * Z.of_nat (length ss1), 32 * Z.of_nat (length ss1 + length mid)) ∧
    ∀ X, Forall free_slot X → length X = length mid → listing builder_new 0 0 (ss1 ++ X ++ ss2) = l1 ++ l2.
Proof. intros Hl. by apply (listing_without_from ss [] builder_new 0 0 l1 e l2). Qed.
End listing.

(** ** Room for a new entry *)

(** Nothing is in use from here. *)
Definition dead (ss : list DirEntryData) : Prop := match ss with x :: _ => is_end x = true | [] => True end.

(** Where [n] entries go: to deleted ones, at the end of the directory as many as there are. *)
Definition room (n : nat) (ss : list DirEntryData) (A run rest : list DirEntryData) : Prop :=
  ss = A ++ run ++ rest ∧ Forall (λ x, is_end x = false) A ∧ Forall free_slot run ∧ (length run <= n)%nat ∧ (length run = n ∨ dead rest).

Section changes.
Context {S : Type} {HS : Stream S} {SS : StreamSpec S} {AP : AbsPos S} {DS : DirStreamSpec S}.
Implicit Types s : S.

Lemma seek_slot s k : ok s → whole (data s) → word 32 (len (data s)) → (k <= length (slots (data s)))%nat →
  ∃ s', (_ ← seek (SStart (wrap32 (Z.of_nat k * DIR_ENTRY_SIZE))); mret tt) s = Ret (Ok tt, s') ∧ ok s' ∧ data s' = data s ∧
    pos s' = 32 * Z.of_nat k.
Proof.
  intros Hs Hw Hl Hk. rewrite length_slots in Hk. unfold whole in Hw. pose proof (len_nonneg (data s)). unfold word in Hl.
  rewrite wrap_small by (unfold word, DIR_ENTRY_SIZE; lia). unfold DIR_ENTRY_SIZE.
  destruct (seek_ok s (Z.of_nat k * 32) Hs) as (s'&H1&Hs'&Hd&Hp); [lia|]. fstep H1. exists s'. split; [done|]. split_and!; done || lia.
Qed.

Lemma free_slots_loop_ok fuel n A run rest s : ok s → whole (data s) → word 32 (len (data s)) → slots (data s) = A ++ run ++ rest →
  pos s = 32 * Z.of_nat (length A + length run) → (length rest < fuel)%nat → (length run < n)%nat → Z.of_nat n < 2 ^ 32 →
  Forall (λ x, is_end x = false) A → Forall free_slot run →
  ∀ first, (run ≠ [] → first = Z.of_nat (length A)) →
  ∃ A' run' rest' s', room n (slots (data s)) A' run' rest' ∧ ok s' ∧ data s' = data s ∧ pos s' = 32 * Z.of_nat (length A') ∧
    find_free_loop fuel (Z.of_nat n) first (Z.of_nat (length run)) (Z.of_nat (length A + length run)) s = Ret (Ok tt, s').
Proof.
  intros Hs Hw Hl Hss Hp Hf Hn Hn32 HA Hrun. revert A run rest s Hs Hw Hl Hss Hp Hf Hn HA Hrun.
  induction fuel as [|fuel IH]; intros A run rest s Hs Hw Hl Hss Hp Hf Hn HA Hrun first Hfirst; [lia|]. cbn [find_free_loop].
  assert (length (slots (data s)) = length A + length run + length rest)%nat as Hlen by (rewrite Hss, !length_app; lia).
  assert (Z.of_nat (length (slots (data s))) * 32 < 2 ^ 32) as Hsmall.
  { rewrite length_slots. unfold whole in Hw. pose proof (len_nonneg (data s)). unfold word in Hl. lia. }
  destruct (deserialize_ok s (length A + length run) Hs Hw Hp) as (s1&Hs1&Hd1&Hr); [lia|].
  assert ((if Z.of_nat (length run) =? 0 then Z.of_nat (length A + length run) else first) = Z.of_nat (length A)) as Hfst.
  { destruct (Z.eqb_spec (Z.of_nat (length run)) 0); [lia|]. apply Hfirst. by intros ->. }
  assert (∀ (A' : list DirEntryData) s', ok s' → data s' = data s → (length A' <= length (slots (data s)))%nat →
    ∃ s2, ok s2 ∧ data s2 = data s ∧ pos s2 = 32 * Z.of_nat (length A') ∧
      (_ ← seek (SStart (wrap32 (Z.of_nat (length A') * DIR_ENTRY_SIZE))); mret tt) s' = Ret (Ok tt, s2)) as Hseek.
  { intros A' s' Hs' Hd' Hk. destruct (seek_slot s' (length A') Hs') as (s2&?&?&?&?); [by rewrite Hd'..|]. exists s2. rewrite Hd' in *. done. }
  case_decide as Hlt.
  2: { fstep Hr. rewrite default_is_end, Hfst. destruct (Hseek A s1 Hs1 Hd1) as (s2&?&?&?&?); [lia|].
    exists A, run, rest, s2. split; [|by split_and!]. split; [done|]. split; [done|]. split; [done|]. split; [lia|]. right.
    destruct rest; [done|]. simpl in Hlen. lia. }
  destruct Hr as [Hr Hp1]. destruct rest as [|x rest]; [simpl in Hlen; lia|].
  assert (slot (data s) (length A + length run) = x) as Hx.
  { apply (f_equal (λ l, l !! (length A + length run)%nat)) in Hss. rewrite slots_lookup in Hss by done.
    rewrite app_assoc, lookup_app_r in Hss by (rewrite length_app; lia). rewrite length_app, Nat.sub_diag in Hss. by injection Hss. }
  rewrite Hx in Hr. fstep Hr. destruct (is_end x) eqn:He.
  { rewrite Hfst. destruct (Hseek A s1 Hs1 Hd1) as (s2&?&?&?&?); [lia|].
    exists A, run, (x :: rest), s2. split; [|by split_and!]. split; [done|]. split; [done|]. split; [done|]. split; [lia|by right]. }
  simpl in Hlen, Hf. destruct (is_deleted x) eqn:Hdel.
  - rewrite Hfst. assert (wrap32 (Z.of_nat (length run) + 1) = Z.of_nat (length (run ++ [x]))) as ->.
    { rewrite length_app, wrap_small; cbn [length]; unfold word; lia. }
    assert (Forall free_slot (run ++ [x])) as Hrun' by (apply list.Forall_app; split; [done|by repeat constructor]).
    assert (slots (data s) = A ++ (run ++ [x]) ++ rest) as Hss' by by rewrite <- app_assoc.
    destruct (Z.eqb_spec (Z.of_nat (length (run ++ [x]))) (Z.of_nat n)) as [E|E].
    + destruct (Hseek A s1 Hs1 Hd1) as (s2&?&?&?&?); [lia|]. exists A, (run ++ [x]), rest, s2. split; [|by split_and!].
      split; [done|]. split; [done|]. split; [done|]. rewrite length_app in *. split; [lia|left; lia].
    + rewrite length_app in E. cbn [length] in E.
      assert (wrap32 (Z.of_nat (length A + length run) + 1) = Z.of_nat (length A + length (run ++ [x]))) as ->.
      { rewrite length_app, wrap_small; cbn [length]; unfold word; lia. }
      destruct (IH A (run ++ [x]) rest s1 Hs1) with (first := Z.of_nat (length A)) as (A'&run'&rest'&s'&H); rewrite ?Hd1 in *; try done.
      * rewrite Hp1, length_app. simpl. lia.
      * lia.
      * rewrite length_app. simpl. lia.
      * by exists A', run', rest', s'.
  - assert (wrap32 (Z.of_nat (length A + length run) + 1) = Z.of_nat (length (A ++ run ++ [x]) + length (@nil DirEntryData))) as ->.
    { rewrite !length_app, wrap_small; cbn [length]; unfold word; lia. }
    destruct (IH (A ++ run ++ [x]) [] rest s1 Hs1) with (first := first) as (A'&run'&rest'&s'&H); rewrite ?Hd1 in *; try done.
    + by rewrite <- !app_assoc.
    + rewrite Hp1, !length_app. simpl. lia.
    + lia.
    + simpl. lia.
    + rewrite !list.Forall_app. split_and!; [done| |by constructor]. eapply list.Forall_impl; [exact Hrun|]. by intros y [? _].
    + by exists A', run', rest', s'.
Qed.

Lemma find_free_ok fuel n s : ok s → whole (data s) → word 32 (len (data s)) → pos s = 0 → (0 < n)%nat → Z.of_nat n < 2 ^ 32 →
  (length (slots (data s)) < fuel)%nat →
  ∃ A run rest s', room n (slots (data s)) A run rest ∧ ok s' ∧ data s' = data s ∧ pos s' = 32 * Z.of_nat (length A) ∧
    find_free_entries fuel (Z.of_nat n) s = Ret (Ok tt, s').
Proof. intros. by apply (free_slots_loop_ok fuel n [] [] (slots (data s)) s). Qed.

(** *** The entries of a long name *)

Definition new_piece (x : DirLfnEntryData) : Prop := data_ok (DLfn x) ∧ live_lfn (DLfn x).

Lemma bytes_at_word w p n l : Forall (word w) l → Forall (word w) (bytes_at p n l).
Proof. intros. by apply Forall_take, Forall_drop. Qed.

Lemma lfn_entry_new first c i p : 1 <= i <= 20 → (length p <= 13)%nat → Forall (word 16) p → word 8 c → new_piece (lfn_entry first c i p).
Proof.
  intros Hi Hl Hp Hc. destruct (lfn_part_eq p) as (pad&Heq&Hpad&H13); [unfold len; lia|].
  assert (Forall (word 16) (lfn_part p)) as Hw.
  { rewrite Heq, list.Forall_app. split; [done|]. eapply list.Forall_impl; [exact Hpad|]. intros u [->| ->]; unfold word, LFN_PADDING; lia. }
  assert (∀ q n, 0 <= q → q + Z.of_nat n <= 13 → length (bytes_at q (Z.of_nat n) (lfn_part p)) = n) as Hlen.
  { intros q n Hq Hn. pose proof (len_bytes_at q (Z.of_nat n) (lfn_part p)). unfold len in *. lia. }
  set (o := if first then Z.lor i LFN_ENTRY_LAST_FLAG else i).
  assert (1 <= o <= 0x54) as Ho.
  { assert (forallb (λ i, (1 <=? Z.lor i LFN_ENTRY_LAST_FLAG) && (Z.lor i LFN_ENTRY_LAST_FLAG <=? 0x54)) (seqZ 1 20) = true) as H by by vm_compute.
    rewrite forallb_forall in H. specialize (H i). rewrite andb_true_iff, !Z.leb_le in H.
    unfold o. destruct first; [|lia]. apply H, list_elem_of_In, elem_of_seqZ. lia. }
  unfold new_piece, lfn_entry. fold o. split.
  - split; cbn [l_name_0 l_name_1 l_name_2 l_attrs l_order l_entry_type l_checksum l_reserved_0 copy_name_from_slice lfn_new].
    + split_and!; [by apply (Hlen 0 5%nat)|by apply (Hlen 5 6%nat)|by apply (Hlen 11 2%nat)].
    + split_and!; by apply bytes_at_word.
    + by vm_compute.
    + unfold word in *. lia.
    + unfold word. lia.
  - cbn. unfold lfn_is_end, lfn_is_deleted, DIR_ENTRY_DELETED_FLAG. cbn [l_order copy_name_from_slice lfn_new]. lia.
Qed.

Lemma lfn_later_new c ps : (length ps < 20)%nat → Forall (λ p, (length p <= 13)%nat ∧ Forall (word 16) p) ps → word 8 c →
  Forall new_piece (lfn_later c ps).
Proof.
  intros Hl Hps Hc. induction Hps as [|p ps [Hp Hw] _ IH]; [constructor|]. cbn [length lfn_later] in *. constructor; [|apply IH; lia].
  apply lfn_entry_new; done || lia.
Qed.

Lemma lfn_entries_new us c : us ≠ [] → len us <= 260 → Forall (word 16) us → word 8 c →
  Forall new_piece (lfn_entries us c) ∧ lfn_gen_len (lfn_gen_new us c) = Z.of_nat (length (lfn_entries us c)) ∧
  (0 < length (lfn_entries us c) <= 20)%nat.
Proof.
  intros Hne Hl Hw Hc. destruct (chunks_fuel_spec (length us) 13 us) as (Hcat&Hall&Hnum); [lia|lia|].
  destruct (exists_last (l := chunks 13 us)) as (ps&p&Hps).
  { unfold chunks. intros E. rewrite E in Hcat. by subst us. }
  fold (chunks 13 us) in *. rewrite (lfn_entries_eq us c ps p Hps Hl). rewrite Hps in Hnum, Hall, Hcat. rewrite length_app in Hnum.
  cbn [length] in Hnum. assert (Z.of_nat (length ps + 1) <= 20) as Hn20. { rewrite Hnum. apply Z.lt_succ_r, Z.div_lt_upper_bound; lia. }
  assert (Forall (λ p, (length p <= 13)%nat ∧ Forall (word 16) p) (ps ++ [p])) as Hpieces.
  { apply list.Forall_forall. intros q Hq. rewrite list.Forall_forall in Hall. split; [specialize (Hall q Hq); lia|].
    rewrite <- Hcat in Hw. rewrite list.Forall_forall in Hw |- *. intros u Hu. apply Hw, list_elem_of_In, in_concat. exists q. by rewrite <- !list_elem_of_In. }
  apply list.Forall_app in Hpieces as [Hps' [[Hp Hpw] _]%list.Forall_cons].
  assert (length (lfn_later c (reverse ps)) = length ps) as Hll.
  { rewrite <- (length_reverse ps). clear. induction (reverse ps) as [|q qs IH]; [done|]. simpl. by rewrite IH. }
  split; [|split].
  - constructor; [apply lfn_entry_new; done || lia|]. apply lfn_later_new; [rewrite length_reverse; lia|by apply Forall_reverse|done].
  - unfold lfn_gen_len, lfn_gen_new. cbn [name_parts_iter length]. change (Z.to_nat LFN_PART_LEN) with 13%nat. rewrite Hps, length_reverse, length_app, Hll.
    simpl. lia.
  - cbn [length]. rewrite Hll. lia.
Qed.

Lemma serialize_lfns_writes ds : Forall new_piece ds → Writes (D := S) (serialize_lfns ds) (slots_bytes (DLfn <$> ds)).
Proof.
  induction 1 as [|d ds [Hd _] _ IH]; [apply writes_nil|]. cbn [serialize_lfns fmap list_fmap].
  apply (writes_bind _ _ (data_bytes (DLfn d))); [apply lfn_serialize_writes|exact IH].
Qed.

(** *** Names that are accepted *)

(** What a [char] of a [str] is. *)
Definition is_char (c : Z) : Prop := 0 <= c <= 0x10FFFF ∧ (c < 0xD800 ∨ 0xDFFF < c).

Definition accepted (name : list Z) : Prop :=
  name ≠ [] ∧ str_len name <= 255 ∧ Forall (λ c, is_char c ∧ long_name_char c = true) name.

Lemma long_name_char_range c : long_name_char c = true → 0x20 <= c <= 0xFFFF.
Proof.
  unfold long_name_char, alphanumeric, in_range. rewrite !orb_true_iff, !andb_true_iff, !Z.leb_le, bool_decide_eq_true.
  intros [?|H]; [lia|]. unfold long_name_marks in H. rewrite !elem_of_cons, elem_of_nil in H. lia.
Qed.

Lemma accepted_units name : accepted name → encode_utf16 name = name ∧ decode_utf16 name = Some <$> name ∧ Forall (word 16) name ∧
  len name <= 255.
Proof.
  intros (_&Hl&Hc). assert (len name <= str_len name) as Hlen.
  { clear. unfold len. induction name as [|c name IH]; [done|]. cbn [length str_len]. unfold len_utf8. zcases; lia. }
  split; [|split; [|split; [|lia]]]; clear Hl Hlen; induction Hc as [|c name [Hc Hn] _ IH]; try done;
    apply long_name_char_range in Hn; destruct Hc as [_ Hc].
  - change (encode_utf16_char c ++ encode_utf16 name = c :: name). rewrite IH. unfold encode_utf16_char. destruct (Z.ltb_spec c 0x10000); [done|lia].
  - cbn [decode_utf16 fmap list_fmap]. destruct (Z.ltb_spec c 0xD800); cbn [orb]; [by rewrite IH|].
    destruct (Z.ltb_spec 0xDFFF c); [by rewrite IH|lia].
  - constructor; [unfold word; lia|done].
Qed.

Lemma validate_ok name (d : S) : accepted name → validate_long_name name d = Ret (Ok tt, d).
Proof.
  intros (Hne&Hl&Hc). unfold validate_long_name. rewrite bool_decide_eq_false_2 by done. unfold MAX_LONG_NAME_LEN.
  destruct (Z.ltb_spec 255 (str_len name)); [lia|]. assert (forallb long_name_char name = true) as ->; [|done].
  apply forallb_forall. intros c Hin. rewrite list.Forall_forall in Hc. by apply Hc, list_elem_of_In.
Qed.

Lemma lfn_checksum_word sn : word 8 (lfn_checksum sn).
Proof.
  unfold lfn_checksum. assert (∀ l a, word 8 a → word 8 (foldl (λ chksum b, wrap8 (wrap8 (wrap8 (Z.shiftl chksum 7) + Z.shiftr chksum 1) + b)) a l)) as H.
  { induction l as [|x l IH]; intros a Ha; [done|]. apply IH, wrap_word. lia. }
  apply H. unfold word. lia.
Qed.

(** *** Writing *)

(** The number of slots before the end, behind which all are unused. *)
Fixpoint used (ss : list DirEntryData) : nat :=
  match ss with x :: ss => if is_end x then O else Datatypes.S (used ss) | [] => O end.

Definition tidy (ss : list DirEntryData) : Prop := Forall (λ x, is_end x = true) (drop (used ss) ss).

Lemma used_app A B : Forall (λ x, is_end x = false) A → used (A ++ B) = (length A + used B)%nat.
Proof. induction 1 as [|x A Hx _ IH]; [done|]. cbn. by rewrite Hx, IH. Qed.

Lemma room_used n ss A run rest : room n ss A run rest → (length A <= used ss)%nat.
Proof. intros (->&HA&_). rewrite used_app by done. lia. Qed.

Definition put (ss A X : list DirEntryData) : list DirEntryData := A ++ X ++ drop (length A + length X) ss.

(** The entries of [name] with the data [raw]. *)
Definition new_entries (name : list Z) (raw : DirFileEntryData) : list DirEntryData :=
  (DLfn <$> lfn_entries name (lfn_checksum (e_name raw))) ++ [DFile raw].

Lemma length_new_entries name raw : length (new_entries name raw) = (length (lfn_entries name (lfn_checksum (e_name raw))) + 1)%nat.
Proof. unfold new_entries. rewrite length_app, length_fmap. done. Qed.

(** Data that is listed as an entry. *)
Definition live_data (raw : DirFileEntryData) : Prop :=
  entry_ok raw ∧ entry_is_end raw = false ∧ entry_is_deleted raw = false ∧ entry_is_volume raw = false.

Lemma write_entry_at_ok fuel name raw s : ok s → whole (data s) → word 32 (len (data s)) → pos s = 0 → accepted name → entry_ok raw →
  (length (slots (data s)) < fuel)%nat → (used (slots (data s)) + length (new_entries name raw) <= length (slots (data s)))%nat →
  ∃ A run rest s', let k := (length A + length (new_entries name raw))%nat in
    room (length (new_entries name raw)) (slots (data s)) A run rest ∧ ok s' ∧ len (data s') = len (data s) ∧
    slots (data s') = put (slots (data s)) A (new_entries name raw) ∧
    write_entry_at fuel name raw s = Ret (Ok (mkDirEntry raw (ShortName_new (e_name raw)) name
      (wrap64 (abs_at (32 * Z.of_nat k) - DIR_ENTRY_SIZE)) (32 * Z.of_nat (length A), 32 * Z.of_nat k)), s').
Proof.
  intros Hs Hw Hl Hp Hname Hraw Hf Hroom. destruct (accepted_units name Hname) as (Hus&_&Hw16&H255). destruct Hname as (Hne&_).
  destruct (lfn_entries_new name (lfn_checksum (e_name raw)) Hne) as (Hnew&Hnum&Hcount); [lia|done|apply lfn_checksum_word|].
  rewrite length_new_entries in *. set (ds := lfn_entries name (lfn_checksum (e_name raw))) in *.
  destruct (find_free_ok fuel (length ds + 1) s Hs Hw Hl Hp) as (A&run&rest&s1&Hr&Hs1&Hd1&Hp1&Hfree); [lia|lia|done|].
  pose proof (room_used _ _ _ _ _ Hr) as Hused.
  assert (Forall data_ok (new_entries name raw)) as Hok.
  { apply list.Forall_app. split; [apply Forall_fmap; eapply list.Forall_impl; [exact Hnew|]; by intros ? [? _]|by constructor]. }
  assert (Z.of_nat (length A + (length ds + 1)) * 32 <= len (data s)) as Hin.
  { rewrite length_slots in *. unfold whole in Hw. pose proof (len_nonneg (data s)). lia. }
  assert (Writes (D := S) (_ ← serialize_lfns ds; entry_serialize raw) (slots_bytes (new_entries name raw))) as Hwrites.
  { unfold new_entries, slots_bytes. rewrite bind_app. apply writes_bind; [by apply serialize_lfns_writes|]. cbn [mbind list_bind].
    rewrite app_nil_r. apply entry_serialize_writes, (eo_name raw Hraw). }
  pose proof (len_slots_bytes _ Hok) as Hsb. rewrite length_new_entries in Hsb. fold ds in Hsb.
  destruct (seek_cur_ok s1 0 Hs1) as (s1'&Hcur&Hs1'&Hd1'&Hp1'); [rewrite Hp1, Hd1; lia|]. rewrite Hp1, Z.add_0_r in *.
  destruct (Hwrites s1' Hs1') as (s2&Hwr&Hs2&Hd2&Hp2); [rewrite Hd1', Hd1, Hp1'; lia|]. rewrite Hd1', Hd1, Hp1' in *.
  destruct (seek_cur_ok s2 0 Hs2) as (s3&Hcur3&Hs3&Hd3&Hp3); [rewrite Hp2, Hd2, len_splice; lia|]. rewrite Hp2, Z.add_0_r in *.
  exists A, run, rest, s3. split; [done|]. split; [done|]. split; [by rewrite Hd3, Hd2, len_splice|]. split.
  { rewrite Hd3, Hd2, slots_splice by (rewrite ?length_new_entries; fold ds; done || lia). unfold put. f_equal.
    destruct Hr as (->&_). by rewrite take_app_length. }
  assert (32 * Z.of_nat (length A) + len (slots_bytes (new_entries name raw)) = 32 * Z.of_nat (length A + (length ds + 1))) as Hend by lia.
  rewrite Hend in *. assert (abs_pos_unwrap s3 = Ret (Ok (abs_at (32 * Z.of_nat (length A + (length ds + 1)))), s3)) as Habs.
  { unfold abs_pos_unwrap. rewrite (FM_step this _ s3 s3 s3 eq_refl), abs_ok by (done || lia). by rewrite Hp3. }
  unfold mbind, FM_bind in Hwr. destruct (serialize_lfns ds s1') as [[[[]|?] sm]|] eqn:Hlf; [|done..].
  assert (alloc_and_write_lfn_entries fuel name (e_name raw) s = Ret (Ok (32 * Z.of_nat (length A)), sm)) as Halloc.
  { unfold alloc_and_write_lfn_entries. cbv zeta. rewrite Hnum. fold ds. rewrite wrap_small by (unfold word; lia).
    replace (Z.of_nat (length ds) + 1) with (Z.of_nat (length ds + 1)) by lia. fstep Hfree. fstep Hcur. by fstep Hlf. }
  unfold write_entry_at. rewrite Hus. cbv zeta. fstep Halloc. fstep Hwr. fstep Hcur3. fstep Habs. done.
Qed.

(** *** What is listed after *)

Lemma listing_put skip name raw ss A run rest : let n := length (new_entries name raw) in let k := (length A + n)%nat in
  room n ss A run rest → tidy ss → Forall slot_ok ss → accepted name → list.last name ≠ Some 0xFFFF → live_data raw →
  ∃ l1 l2 beg, listing abs_at skip builder_new 0 0 ss = l1 ++ l2 ∧
    listing abs_at skip builder_new 0 0 (put ss A (new_entries name raw)) =
      l1 ++ mkDirEntry raw (ShortName_new (e_name raw)) name (wrap64 (abs_at (32 * Z.of_nat k) - DIR_ENTRY_SIZE)) (beg, 32 * Z.of_nat k) :: l2.
Proof.
  intros n k Hroom Htidy Hok Hname Hlast (Hraw&He&Hd&Hv). pose proof (accepted_units name Hname) as (_&_&Hw16&H255).
  pose proof Hname as (Hne&_&Hchars). set (c := lfn_checksum (e_name raw)).
  destruct (lfn_entries_new name c Hne) as (Hnew&_&Hcount); [lia|done|apply lfn_checksum_word|].
  assert (n = length (lfn_entries name c) + 1)%nat as Hn by apply length_new_entries.
  destruct Hroom as (Hss&HA&Hrun&Hle&Hcase). rewrite Hss in Hok. apply list.Forall_app in Hok as [HokA _].
  destruct (listing_prefix abs_at skip A builder_new 0 0 HA HokA) as (es&b'&beg&Hb'&Hl); [split; [done|apply len_nonneg]|].
  destruct (builder_reads_back b' name c Hne) as (pad&Hfold&Hpad); [lia|].
  exists es, (listing abs_at skip builder_new k (32 * Z.of_nat k) (drop k ss)), beg. split.
  - rewrite Hss at 1. rewrite Hl. f_equal. destruct Hcase as [Hfull|Hdead].
    + rewrite listing_deleted; [|done|by intros ->; simpl in Hfull; lia]. rewrite Hfull. f_equal.
      rewrite Hss, app_assoc. unfold k. rewrite <- Hfull, <- length_app. by rewrite drop_app_length.
    + transitivity (@nil DirEntry).
      * destruct run as [|x run]; [|rewrite listing_deleted by done]; (destruct rest as [|y rest]; [done|]; cbn; by rewrite Hdead).
      * symmetry. apply listing_end. unfold tidy in Htidy. assert (used ss = length A + length run)%nat as Hu.
        { rewrite Hss, app_assoc, used_app, length_app; [destruct rest; [simpl; lia|cbn; rewrite Hdead; lia]|].
          apply list.Forall_app. split; [done|]. eapply list.Forall_impl; [exact Hrun|]. by intros x [? _]. }
        rewrite Hu in Htidy. replace k with (length A + length run + (n - length run))%nat by lia. rewrite <- drop_drop. by apply Forall_drop.
  - unfold put, new_entries. rewrite Hl. fold c. rewrite <- app_assoc, (listing_lfns _ _ _ _ (mkBuilder (name ++ pad) c 1)); [|by eapply list.Forall_impl; [exact Hnew|]; intros ? [_ ?]|done].
    cbn [app DirSpec.listing is_end]. rewrite He. unfold should_ship_entry. cbn [is_deleted]. rewrite Hd, Hv, andb_false_r.
    f_equal. assert (0 + length A + length (lfn_entries name c) + 1 = k)%nat as Hk by lia. f_equal.
    + unfold listed. unfold c at 1. rewrite builder_answers; [f_equal; [do 2 f_equal; f_equal; lia|f_equal; lia]|done|].
      intros u Hu. rewrite list.Forall_forall in Hchars. split; [|by intros ->].
      assert (u ∈ name) as [_ Hin%long_name_char_range]%Hchars by (by apply last_Some_elem_of). lia.
    + f_equal; lia.
Qed.

Lemma slots_ok l : whole l → Forall slot_ok (slots l).
Proof.
  intros Hw. apply list.Forall_lookup. intros k x Hk. apply lookup_lt_Some in Hk as Hlt. rewrite slots_lookup in Hk by done.
  injection Hk as <-. by apply parse_slot_ok, slot_bytes.
Qed.

Lemma slots_data_ok s : ok s → whole (data s) → Forall data_ok (slots (data s)).
Proof.
  intros Hs Hw. apply list.Forall_lookup. intros k x Hk. apply lookup_lt_Some in Hk as Hlt. rewrite slots_lookup in Hk by done.
  injection Hk as <-. apply parse_slot_data_ok; [by apply slot_bytes|by apply bytes_at_bytes, bytes_ok].
Qed.

Lemma tidy_app A B : Forall (λ x, is_end x = false) A → tidy (A ++ B) ↔ tidy B.
Proof. intros HA. unfold tidy. by rewrite used_app, drop_app_add by done. Qed.

Lemma tidy_ends B : Forall (λ x, is_end x = true) B → tidy B.
Proof. intros. by apply Forall_drop. Qed.

Lemma tidy_dead B : tidy B → dead B → Forall (λ x, is_end x = true) B.
Proof. destruct B as [|x B]; [done|]. unfold tidy. cbn. intros Ht Hx. rewrite Hx in Ht. exact Ht. Qed.

Lemma free_not_end run : Forall free_slot run → Forall (λ x, is_end x = false) run.
Proof. intros H. eapply list.Forall_impl; [exact H|]. by intros x [? _]. Qed.

Lemma tidy_put ss X A run rest : room (length X) ss A run rest → Forall (λ x, is_end x = false) X → tidy ss → tidy (put ss A X).
Proof.
  intros (->&HA&Hrun&Hle&Hcase) HX Ht. unfold put. rewrite !tidy_app in * by (done || by apply free_not_end).
  rewrite drop_app_add, drop_app_ge by done. destruct Hcase as [->|Hd]; [by rewrite Nat.sub_diag|].
  by apply tidy_ends, Forall_drop, tidy_dead.
Qed.

Lemma new_entries_live name raw : accepted name → live_data raw → Forall (λ x, is_end x = false) (new_entries name raw).
Proof.
  intros Hname (Hraw&He&_). destruct (accepted_units name Hname) as (_&_&Hw&Hl). destruct Hname as (Hne&_).
  destruct (lfn_entries_new name (lfn_checksum (e_name raw)) Hne) as (Hnew&_); [lia|done|apply lfn_checksum_word|].
  apply list.Forall_app. split; [|by constructor]. apply Forall_fmap. eapply list.Forall_impl; [exact Hnew|]. by intros d [_ [? _]].
Qed.

Lemma eq_name_new e name : accepted name → de_lfn_utf16 e = name → eq_name e name = true.
Proof.
  intros Hname He. destruct (accepted_units name Hname) as (_&Hd&_). unfold eq_name, eq_name_lfn. rewrite He, Hd.
  destruct name as [|c name]; [by destruct Hname|]. unfold len. cbn [length]. destruct (Z.ltb_spec 0 (Z.of_nat (Datatypes.S (length name)))); [|lia].
  rewrite bool_decide_eq_true_2; [done|]. rewrite <- list_fmap_compose. done.
Qed.

Lemma find_in_app name l1 e l2 : (∀ x, x ∈ l1 → eq_name x name = false) → eq_name e name = true →
  find_in name (l1 ++ e :: l2) None = (Some e, None).
Proof.
  intros Hl He. induction l1 as [|x l1 IH]; cbn [app find_in]; [by rewrite He|]. rewrite (Hl x) by set_solver. cbn. apply IH. set_solver.
Qed.

(** A written entry is listed, the others as they were. *)
Lemma new_entry_listed fuel name raw s : ok s → whole (data s) → word 32 (len (data s)) → pos s = 0 → accepted name →
  list.last name ≠ Some 0xFFFF → live_data raw → tidy (slots (data s)) → (length (slots (data s)) < fuel)%nat →
  (used (slots (data s)) + length (new_entries name raw) <= length (slots (data s)))%nat →
  ∃ e e' l1 l2 s', write_entry_at fuel name raw s = Ret (Ok e, s') ∧ ok s' ∧ len (data s') = len (data s) ∧
    tidy (slots (data s')) ∧ entries abs_at true (data s) = l1 ++ l2 ∧ entries abs_at true (data s') = l1 ++ e' :: l2 ∧
    de_data e' = raw ∧ de_lfn_utf16 e' = name ∧ de_data e = raw ∧ de_lfn_utf16 e = name ∧ de_entry_pos e = de_entry_pos e'.
Proof.
  intros Hs Hw Hl Hp Hname Hlast Hraw Htidy Hf Hroom.
  destruct (write_entry_at_ok fuel name raw s Hs Hw Hl Hp Hname (proj1 Hraw) Hf Hroom) as (A&run&rest&s'&Hr&Hs'&Hlen&Hslots&Hwrite).
  destruct (listing_put true name raw _ A run rest Hr Htidy (slots_ok _ Hw) Hname Hlast Hraw) as (l1&l2&beg&Hold&Hnew).
  eexists _, _, l1, l2, s'. split; [exact Hwrite|]. split; [done|]. split; [done|]. split; [|split; [exact Hold|split]].
  - rewrite Hslots. eapply tidy_put; [exact Hr|by apply new_entries_live|done].
  - unfold entries. rewrite Hslots. exact Hnew.
  - done.
Qed.

(** *** Deleting *)

Lemma set_deleted_ok x : data_ok x → data_ok (set_deleted x) ∧ free_slot (set_deleted x).
Proof.
  destruct x as [e|d]; intros Hx; cbn [set_deleted].
  - destruct Hx as [[Hn Hb] ?????]. split.
    + split; try done. cbn [entry_set_deleted entry_renamed e_name]. unfold set_first_byte. rewrite length_insert.
      split; [done|]. apply Forall_insert; [done|]. unfold word, DIR_ENTRY_DELETED_FLAG. lia.
    + unfold free_slot. cbn. unfold entry_is_end, entry_is_deleted, first_byte, set_first_byte. cbn [entry_set_deleted entry_renamed e_name].
      unfold set_first_byte. rewrite list_lookup_insert_eq by lia. done.
  - destruct Hx as [?? Ha (_&?&?) ?]. split; [|done]. split; try done.
Qed.

Lemma delete_loop_ok B mid C s : ok s → whole (data s) → slots (data s) = B ++ mid ++ C → pos s = 32 * Z.of_nat (length B) →
  ∃ s', delete_loop (length mid) s = Ret (Ok tt, s') ∧ ok s' ∧ len (data s') = len (data s) ∧
    slots (data s') = B ++ (set_deleted <$> mid) ++ C.
Proof.
  revert B s. induction mid as [|x mid IH]; intros B s Hs Hw Hss Hp; [by exists s|]. cbn [length delete_loop].
  pose proof (slots_data_ok s Hs Hw) as Hdok. rewrite Hss, !list.Forall_app in Hdok. destruct Hdok as (_&[Hx _]%list.Forall_cons&_).
  destruct (set_deleted_ok x Hx) as [Hx' _]. assert (length (slots (data s)) = length B + Datatypes.S (length mid + length C))%nat as Hlen
    by (rewrite Hss, !length_app; simpl; lia).
  destruct (deserialize_ok s (length B) Hs Hw Hp) as (s1&Hs1&Hd1&Hr); [lia|]. rewrite decide_True in Hr by lia. destruct Hr as [Hr Hp1].
  assert (slot (data s) (length B) = x) as Hsl.
  { apply (f_equal (λ l, l !! length B)) in Hss. rewrite slots_lookup, lookup_app_r, Nat.sub_diag in Hss by lia. by injection Hss. }
  rewrite Hsl in Hr. fstep Hr. cbv zeta.
  assert (32 * Z.of_nat (length B) + 32 <= len (data s)) as Hin by (apply slot_bytes; [done|lia]).
  destruct (seek_cur_ok s1 (- DIR_ENTRY_SIZE) Hs1) as (s2&Hsk&Hs2&Hd2&Hp2); [rewrite Hp1, Hd1; unfold DIR_ENTRY_SIZE; lia|]. fstep Hsk.
  pose proof (len_data_bytes _ Hx') as Hlb. unfold DIR_ENTRY_SIZE in *.
  destruct (serialize_writes _ Hx' s2 Hs2) as (s3&Hwr&Hs3&Hd3&Hp3); [rewrite Hp2, Hd2, Hp1, Hd1; lia|]. fstep Hwr.
  replace (pos s2) with (32 * Z.of_nat (length B)) in Hd3, Hp3 by lia. rewrite Hd2, Hd1 in Hd3.
  assert (slots (data s3) = (B ++ [set_deleted x]) ++ mid ++ C) as Hss3.
  { rewrite Hd3. assert (data_bytes (set_deleted x) = slots_bytes [set_deleted x]) as -> by (unfold slots_bytes; cbn [mbind list_bind]; by rewrite app_nil_r).
    rewrite slots_splice; [|done|by repeat constructor|simpl; lia]. rewrite Hss, take_app_length, <- app_assoc. f_equal. cbn [app]. f_equal.
    rewrite drop_app_add. done. }
  destruct (IH (B ++ [set_deleted x]) s3 Hs3) as (s'&H'&Hs'&Hlen'&Hss').
  - unfold whole. by rewrite Hd3, len_splice.
  - done.
  - rewrite Hp3, length_app, Hlb. simpl. lia.
  - exists s'. split; [exact H'|]. split; [done|]. split; [by rewrite Hlen', Hd3, len_splice|]. by rewrite Hss', <- app_assoc.
Qed.

(** Without the entry [e] the listing has the others. *)
Lemma entry_removed skip s l1 e l2 : ok s → whole (data s) → entries abs_at skip (data s) = l1 ++ e :: l2 →
  ∃ s', delete_entries e s = Ret (Ok tt, s') ∧ ok s' ∧ len (data s') = len (data s) ∧
    entries abs_at skip (data s') = l1 ++ l2 ∧ (tidy (slots (data s)) → tidy (slots (data s'))) ∧
    used (slots (data s')) = used (slots (data s)).
Proof.
  intros Hs Hw Hl. destruct (listing_without abs_at skip _ l1 e l2 Hl) as (ss1&mid&ss2&Hss&Hne&Hends&Hrange&HX).
  pose proof (len_ok s Hs) as Hlen. unfold word in Hlen.
  assert (32 * Z.of_nat (length ss1 + length mid) <= len (data s)) as Hin.
  { pose proof (length_slots (data s)) as Hn. rewrite Hss, !length_app in Hn. unfold whole in Hw. pose proof (len_nonneg (data s)). lia. }
  destruct (seek_ok s (32 * Z.of_nat (length ss1)) Hs) as (s1&Hsk&Hs1&Hd1&Hp1); [lia|].
  destruct (delete_loop_ok ss1 mid ss2 s1 Hs1) as (s'&Hdel&Hs'&Hlen'&Hss'); [by rewrite Hd1|by rewrite Hd1|done|]. rewrite Hd1 in *.
  pose proof (slots_data_ok s Hs Hw) as Hdok. rewrite Hss, !list.Forall_app in Hdok. destruct Hdok as (_&Hmid&_).
  assert (Forall free_slot (set_deleted <$> mid)) as Hfree.
  { apply Forall_fmap. eapply list.Forall_impl; [exact Hmid|]. intros x Hx. by apply set_deleted_ok. }
  exists s'. split; [|split; [done|split; [done|split; [|split]]]].
  - unfold delete_entries. rewrite Hrange. fstep Hsk. rewrite wrap_small by (unfold word; lia). unfold DIR_ENTRY_SIZE.
    replace (32 * Z.of_nat (length ss1 + length mid) - 32 * Z.of_nat (length ss1)) with (Z.of_nat (length mid) * 32) by lia.
    rewrite Z.div_mul by lia. by rewrite Nat2Z.id.
  - unfold entries. rewrite Hss'. apply HX; [done|by rewrite length_fmap].
  - rewrite Hss, Hss'. apply list.Forall_app in Hends as [H1 H2]. by rewrite !tidy_app by (done || by apply free_not_end).
  - rewrite Hss, Hss'. apply list.Forall_app in Hends as [H1 H2]. rewrite !used_app, length_fmap by (done || by apply free_not_end). done.
Qed.
End changes.
