(* ===== verification/RootDirSpec.v ===== *)
(** * Correctness of the root directory of a FAT12 or FAT16 volume

    The root directory is a window of the disk between the tables and the
    clusters.  Through it the operations of [Dir] on a mounted volume get their
    meaning: a created file is found and nothing else of the volume changes, a
    removed one is gone and its clusters are free. *)

From S2P Require Import Prelude Bytes FatIo FatIoSpec FatTime FatTable FatTableSpec DirEntry DirEntrySpec BootSector.
From S2P Require Import BootSectorSpec FatFs FatFsSpec DiskFile DiskFileSpec DirNames DirNamesSpec Dir DirSpec.
From S2P Require Import DirWriteSpec.

Definition root_begin (b : BiosParameterBlock) : Z := (data_start b - root_sectors b) * bytes_per_sector b.
Definition root_len (b : BiosParameterBlock) : Z := root_sectors b * bytes_per_sector b.
Definition root_data {D} `{StreamSpec D} (fs : FileSystem D) : list Z :=
  bytes_at (root_begin (fs_bpb fs)) (root_len (fs_bpb fs)) (data (disk fs)).

Section root.
Context {D : Type} {HD : Stream D} {SS : StreamSpec D} {TP : TimeProvider}.
Implicit Types fs : FileSystem D.

(** A volume with a root directory of its own, marked already. *)
Record root_ok fs : Prop := {
  ro_vol : vol_ok fs;
  ro_marked : marked fs;
  ro_type : fs_type fs ≠ Fat32;
  ro_sectors : fs_root_dir_sectors fs = root_sectors (fs_bpb fs) }.

(** Between the tables and the clusters. *)
Lemma root_place fs : vol_ok fs →
  fat_begin (fs_bpb fs) + fat_mirrors (fs_bpb fs) * fat_size (fs_bpb fs) <= root_begin (fs_bpb fs) ∧
  root_begin (fs_bpb fs) + root_len (fs_bpb fs) = cluster_off (fs_bpb fs) 2 ∧
  0 <= root_begin (fs_bpb fs) ∧ 0 <= root_len (fs_bpb fs) < 2 ^ 22 ∧
  root_begin (fs_bpb fs) + root_len (fs_bpb fs) <= len (data (disk fs)).
Proof.
  intros Hv. destruct (vol_numbers fs Hv) as [H1 H2 H3 H4 H5 H6 H7 H8].
  pose proof (vol_places fs Hv) as [(Hf1&Hf2&Hf3) _ Hc _ (_&Hcs&_)]. destruct (Hc 2) as (_&Hl&_).
  { pose proof (vo_total fs Hv). unfold data_cluster. lia. }
  destruct Hv as [_ Hw Hva Hact _ Ht _ _ Hcl Hlen _]. set (b := fs_bpb fs) in *.
  destruct (bw_16 b Hw) as (_&_&Hre&_). unfold word in Hre.
  assert (root_sectors b * bytes_per_sector b <= root_entries b * 32 + bytes_per_sector b - 1) as Hrl
    by (unfold root_sectors; rewrite Z.mul_comm; apply Z.mul_div_le; lia).
  assert (0 <= fats b * sectors_per_fat b) by nia.
  unfold fat_begin, fat_size, fat_mirrors, cluster_off, csize, root_begin, root_len, data_start in *.
  change (2 - 2) with 0. split.
  { destruct (mirroring_enabled b); [nia|]. specialize (Hact eq_refl).
    assert ((active_fat b + 1) * sectors_per_fat b <= fats b * sectors_per_fat b) by (apply Z.mul_le_mono_nonneg_r; lia). nia. }
  split; [nia|]. split; [nia|]. split; [nia|]. change (2 - 2) with 0 in Hl. nia.
Qed.

Lemma root_whole fs : vol_ok fs → whole (root_data fs) ∧ len (root_data fs) = root_len (fs_bpb fs).
Proof.
  intros Hv. destruct (root_place fs Hv) as (_&_&H1&[H2 _]&H3). pose proof (bv_sector _ (vo_valid fs Hv)) as Hs.
  assert (len (root_data fs) = root_len (fs_bpb fs)) as Hl by (apply len_bytes_at; lia). split; [|done].
  unfold whole. rewrite Hl. unfold root_len. assert (∃ k, bytes_per_sector (fs_bpb fs) = 32 * k) as [k Hk].
  { clear -Hs. rewrite !elem_of_cons, elem_of_nil in Hs. exists (bytes_per_sector (fs_bpb fs) / 32). dlia. }
  rewrite Hk. replace (root_sectors (fs_bpb fs) * (32 * k)) with ((root_sectors (fs_bpb fs) * k) * 32) by lia. rewrite Z.div_mul by lia. lia.
Qed.

(** What an operation on the root directory may change of the disk. *)
Definition root_only fs (d : D) : Prop :=
  ok d ∧ outside (root_begin (fs_bpb fs)) (root_len (fs_bpb fs)) 1 (data (disk fs)) (data d).

Lemma root_only_refl fs : vol_ok fs → root_only fs (disk fs).
Proof. intros []. done. Qed.

Lemma root_only_trans fs d d' : root_only fs d → root_only (set_disk fs d) d' → root_only fs d'.
Proof.
  intros (_&H1&H2&H5) (Hd&H3&H4&H6). cbn [fs_bpb set_disk disk] in *. split; [done|]. split; [congruence|].
  split; [|tauto]. intros. rewrite H4 by done. by apply H2.
Qed.

(** The table and all clusters are as they were. *)
Lemma root_only_vol fs d : vol_ok fs → root_only fs d → vol_ok (set_disk fs d) ∧ kept fs (set_disk fs d) ∧
  fat_data (set_disk fs d) = fat_data fs ∧ clusters_kept fs (set_disk fs d) (λ _, False).
Proof.
  intros Hv (Hd&Hl&Ho). destruct (root_place fs Hv) as (H1&H2&H3&[H4 _]&H5). pose proof (vol_places fs Hv) as [(Hf1&Hf2&Hf3) _ Hcl _ [_ Hcs]].
  split; [by apply vol_set_disk|]. split; [done|]. split.
  - unfold fat_data. cbn [fs_bpb set_disk disk]. apply Ho; [lia|lia|left; nia].
  - intros c Hc _. destruct (Hcl c Hc) as (?&_). unfold cluster_data. cbn [fs_bpb set_disk disk]. apply Ho; [lia|lia|right; lia].
Qed.

Lemma root_ok_set fs d : root_ok fs → root_only fs d → root_ok (set_disk fs d).
Proof. intros [Hv Hm Ht Hs] Hd. destruct (root_only_vol fs d Hv Hd) as (?&_). by split. Qed.

(** ** Its stream *)

Lemma on_raw_root {A} (x : FM (File D) A) (y : FM (DiskSlice (FileSystem D)) A) s r s' :
  y s = Ret (r, s') → on_raw x y (RRoot s) = Ret (r, RRoot s').
Proof. unfold on_raw. by intros ->. Qed.

Section stream.
Context (fs0 : FileSystem D) (Hm : marked fs0).
#[local] Abbreviation b0 := (fs_bpb fs0).

Definition window : StreamSpec (DiskSlice (FileSystem D)) :=
  framed (SS := marked_spec fs0 Hm) (root_begin b0) (root_len b0) 1 (data (disk fs0)).

Definition raw_ok (r : DirRawStream D) : Prop := match r with RRoot s => ok (StreamSpec := window) s | RFile _ => False end.
Definition raw_data (r : DirRawStream D) : list Z := match r with RRoot s => data (StreamSpec := window) s | RFile _ => [] end.
Definition raw_pos (r : DirRawStream D) : Z := match r with RRoot s => pos (StreamSpec := window) s | RFile _ => 0 end.

#[program] Definition root_spec : StreamSpec (DirRawStream D) := {| ok := raw_ok; data := raw_data; pos := raw_pos |}.
Next Obligation. intros [f|s]; [done|]. apply (bytes_ok (StreamSpec := window)). Qed.
Next Obligation. intros [f|s]; [done|]. apply (len_ok (StreamSpec := window)). Qed.
Next Obligation. intros [f|s]; [done|]. apply (pos_ok (StreamSpec := window)). Qed.
Next Obligation.
  intros [f|s] n; [done|]. intros Hs Hn. destruct (read_ok (StreamSpec := window) s n Hs Hn) as (bs&s'&Hr&H).
  exists bs, (RRoot s'). split; [|exact H]. exact (on_raw_root _ _ _ _ _ Hr).
Qed.
Next Obligation.
  intros [f|s] bs; [done|]. intros Hs Hb Hf. destruct (write_ok (StreamSpec := window) s bs Hs Hb Hf) as (n&s'&Hr&H).
  exists n, (RRoot s'). split; [|exact H]. exact (on_raw_root _ _ _ _ _ Hr).
Qed.
Next Obligation.
  intros [f|s] p; [done|]. intros Hs Hp. destruct (seek_ok (StreamSpec := window) s p Hs Hp) as (s'&Hr&H).
  exists (RRoot s'). split; [|exact H]. exact (on_raw_root _ _ _ _ _ Hr).
Qed.
Next Obligation.
  intros [f|s] p; [done|]. intros Hs Hp. destruct (seek_cur_ok (StreamSpec := window) s p Hs Hp) as (s'&Hr&H).
  exists (RRoot s'). split; [|exact H]. exact (on_raw_root _ _ _ _ _ Hr).
Qed.
Next Obligation.
  intros [f|s]; [done|]. intros Hs. destruct (flush_ok (StreamSpec := window) s Hs) as (s'&Hr&H).
  exists (RRoot s'). split; [|exact H]. exact (on_raw_root _ _ _ _ _ Hr).
Qed.

#[program] Definition root_dir_spec : DirStreamSpec (DirRawStream D) (SS := root_spec) :=
  {| DirSpec.abs_at p := wrap64 (root_begin b0 + p) |}.
Next Obligation. done. Qed.
Next Obligation.
  intros [f|s]; [done|]. intros (Hs&Hb&_) _. injection Hb as Hb _ _. cbn. unfold abs_pos. by rewrite Hb.
Qed.
End stream.

(** ** Operations on the root directory *)

Lemma root_stream_eq fs : root_ok fs →
  dir_stream (root_dir fs) fs = RRoot (mkSlice (root_begin (fs_bpb fs)) (root_len (fs_bpb fs)) 0 1 fs).
Proof.
  intros [Hv _ Ht Hs]. destruct (root_place fs Hv) as (_&_&H1&[H2 H2']&H3). destruct (vol_numbers fs Hv) as [N1 N2 N3 N4 N5 N6 N7 N8].
  pose proof (vo_first fs Hv) as Hf. pose proof (vo_clusters fs Hv) as Hc. pose proof (vo_total fs Hv).
  pose proof (len_ok _ (vo_disk fs Hv)) as Hl. unfold word in Hl. set (b := fs_bpb fs) in *.
  assert (root_sectors b <= data_start b) by (unfold data_start; nia). assert (data_start b < 2 ^ 32) by nia.
  assert (root_sectors b < 2 ^ 32) by lia.
  assert (root_dir fs = DRootDir (mkSlice (root_begin b) (root_len b) 0 1 tt)) as ->; [|done].
  assert (root_dir fs = DRootDir (from_sectors b (wrap32 (fs_first_data_sector fs - fs_root_dir_sectors fs)) (fs_root_dir_sectors fs) 1 tt)) as ->
    by (unfold root_dir; by destruct (fs_type fs)).
  unfold from_sectors, slice_new, bytes_from_sectors. rewrite Hs, Hf. fold b. rewrite (wrap_small 32) by (unfold word; lia).
  fold (root_begin b) (root_len b). rewrite !wrap_small by (unfold word; lia). done.
Qed.

Lemma root_fuel fs : root_ok fs → (length (slots (root_data fs)) < dir_fuel fs)%nat.
Proof.
  intros [Hv _ _ Hs]. destruct (root_whole fs Hv) as [_ Hl]. destruct (vol_places fs Hv) as [_ _ _ _ [Hcs ?]]. pose proof (vo_total fs Hv).
  rewrite length_slots, Hl. unfold dir_fuel. rewrite Hs, Hcs. fold (root_len (fs_bpb fs)). unfold DIR_ENTRY_SIZE.
  assert (root_len (fs_bpb fs) / 32 <= (fs_total_clusters fs * csize (fs_bpb fs) + root_len (fs_bpb fs)) / 32) by (apply Z.div_le_mono; nia). lia.
Qed.

Section operation.
Context (fs : FileSystem D) (Hr : root_ok fs).
#[local] Abbreviation spec := (root_spec fs (ro_marked fs Hr)).

(** A call proved of a stream with the contents of the root directory. *)
Lemma on_root_ok {A} (x : FM (DirRawStream D) A) (R : result A → list Z → Prop) :
  (∀ s, ok (StreamSpec := spec) s → data (StreamSpec := spec) s = root_data fs → pos (StreamSpec := spec) s = 0 →
    ∃ r s', x s = Ret (r, s') ∧ ok (StreamSpec := spec) s' ∧ R r (data (StreamSpec := spec) s')) →
  ∃ r d, on_clone (root_dir fs) x fs = Ret (r, set_disk fs d) ∧ root_only fs d ∧ R r (root_data (set_disk fs d)).
Proof.
  intros Hx. pose proof (ro_vol fs Hr) as Hv. destruct (root_place fs Hv) as (_&_&H1&[H2 _]&H3).
  unfold on_clone. rewrite (root_stream_eq fs Hr).
  destruct (Hx (RRoot (mkSlice (root_begin (fs_bpb fs)) (root_len (fs_bpb fs)) 0 1 fs))) as (r&s'&->&Hs'&HR).
  - split; [|split; [done|by split]]. split; [split; [apply Hv|by destruct fs]|]. cbn. lia.
  - cbn. unfold mirror. cbn. by rewrite Z.add_0_r.
  - done.
  - destruct s' as [f|s']; [done|]. destruct Hs' as (Hsl&Hb&Ho). destruct Hsl as ([Hd Heq]&_). exists r, (disk (inner s')).
    cbn [mbind outcome_bind drop_stream]. split; [by rewrite <- Heq|]. split; [done|].
    cbn in HR. unfold mirror in HR. injection Hb as Hb1 Hb2 _. rewrite Hb1, Hb2, Z.mul_0_l, Z.add_0_r in HR. exact HR.
Qed.
End operation.

(** Where the root directory is on the disk. *)
Definition root_abs (b : BiosParameterBlock) (p : Z) : Z := wrap64 (root_begin b + p).

Definition root_entries fs : list DirEntry := entries (root_abs (fs_bpb fs)) true (root_data fs).

Lemma root_word fs : vol_ok fs → word 32 (len (root_data fs)).
Proof. intros Hv. destruct (root_whole fs Hv) as [_ ->]. destruct (root_place fs Hv) as (_&_&_&?&_). unfold word. lia. Qed.

(** *** Looking for an entry *)

Lemma root_find fs name expect g : root_ok fs →
  ∃ d, find_entry_gen (root_dir fs) name expect g fs = Ret (found expect (find_in name (root_entries fs) g), set_disk fs d) ∧
    root_only fs d ∧ root_data (set_disk fs d) = root_data fs.
Proof.
  intros Hr. destruct (root_whole fs (ro_vol fs Hr)) as [Hw _].
  destruct (on_root_ok fs Hr (find_entry_loop (dir_fuel fs) (dir_fuel fs) name expect g)
    (λ r l, r = found expect (find_in name (root_entries fs) g) ∧ l = root_data fs)) as (r&d&Hx&Hd&->&Hl).
  - intros s Hs Hdata Hp. pose proof (root_fuel fs Hr) as Hf.
    destruct (find_entry_loop_ok (DS := root_dir_spec fs (ro_marked fs Hr)) (dir_fuel fs) (dir_fuel fs) name expect g 0 s Hs)
      as (s'&Hx&Hs'&Hd'); rewrite ?Hdata; try done; try lia.
    eexists _, s'. split; [exact Hx|]. split; [done|]. rewrite Hdata, drop_0. split; [done|congruence].
  - by exists d.
Qed.

Lemma find_in_none name es g : (∀ e, e ∈ es → eq_name e name = false) →
  find_in name es (Some g) = (None, Some (rescan g ((λ e, e_name (de_data e)) <$> es))).
Proof.
  revert g. induction es as [|e es IH]; intros g He; [done|]. cbn [find_in fmap list_fmap rescan foldl option_map]. rewrite (He e) by set_solver.
  apply IH. set_solver.
Qed.

Lemma length_listing at_ skip b k beg ss : (length (listing at_ skip b k beg ss) <= length ss)%nat.
Proof.
  revert b k beg. induction ss as [|x ss IH]; intros b k beg; [done|]. cbn [listing length]. destruct (is_end x); [simpl; lia|].
  destruct (should_ship_entry skip x); [specialize (IH (builder_clear b) (S k) (32 * (Z.of_nat k + 1))); lia|].
  destruct x as [e|d]; [specialize (IH builder_new (S k) (32 * (Z.of_nat k + 1))); simpl; lia|specialize (IH (builder_after b d) (S k) beg); lia].
Qed.

Lemma root_same fs d : root_only fs d → root_data (set_disk fs d) = root_data fs → root_entries (set_disk fs d) = root_entries fs.
Proof. intros _ H. unfold root_entries. cbn [fs_bpb set_disk]. by rewrite H. Qed.

(** Rounds of looking at all entries, until a short name is free. *)
Lemma root_check fs name expect n g sn rounds : root_ok fs → (∀ e, e ∈ root_entries fs → eq_name e name = false) →
  search_short_name n g ((λ e, e_name (de_data e)) <$> root_entries fs) = Some sn → (n < rounds)%nat →
  ∃ d, check_for_existence_loop rounds (root_dir fs) name expect g fs = Ret (Ok (inr sn), set_disk fs d) ∧
    root_only fs d ∧ root_data (set_disk fs d) = root_data fs.
Proof.
  intros Hr Hno. revert fs g rounds Hr Hno. induction n as [|n IH]; intros fs g rounds Hr Hno Hs Hn; (destruct rounds as [|rounds]; [lia|]);
    cbn [check_for_existence_loop]; destruct (root_find fs name expect (Some g) Hr) as (d&Hf&Hd&Hdata);
    rewrite find_in_none in Hf by done; unfold found in Hf; cbn [fst] in Hf; fstep Hf; cbn [search_short_name] in Hs;
    destruct (generate _) as [sn'|err]; try done; try (injection Hs as ->; by exists d).
  destruct (IH (set_disk fs d) (next_iteration (rescan g ((λ e, e_name (de_data e)) <$> root_entries fs))) rounds) as (d'&Hx&Hd'&Hdata').
  - by apply root_ok_set.
  - by rewrite (root_same fs d).
  - by rewrite (root_same fs d).
  - lia.
  - exists d'. split; [exact Hx|]. split; [by eapply root_only_trans|]. by rewrite <- Hdata.
Qed.

(** Deleting an entry of the root directory. *)
Lemma root_delete fs e l1 l2 : root_ok fs → root_entries fs = l1 ++ e :: l2 →
  ∃ d, on_clone (root_dir fs) (delete_entries e) fs = Ret (Ok tt, set_disk fs d) ∧ root_only fs d ∧
    root_entries (set_disk fs d) = l1 ++ l2 ∧ (tidy (slots (root_data fs)) → tidy (slots (root_data (set_disk fs d)))) ∧
    used (slots (root_data (set_disk fs d))) = used (slots (root_data fs)).
Proof.
  intros Hr Hl. destruct (root_whole fs (ro_vol fs Hr)) as [Hw _].
  destruct (on_root_ok fs Hr (delete_entries e) (λ r l, r = Ok tt ∧ entries (root_abs (fs_bpb fs)) true l = l1 ++ l2 ∧
    (tidy (slots (root_data fs)) → tidy (slots l)) ∧ used (slots l) = used (slots (root_data fs)))) as (r&d&H&Hd&->&?&?&?).
  { intros s Hs Hdata Hp. destruct (entry_removed (DS := root_dir_spec fs (ro_marked fs Hr)) true s l1 e l2 Hs) as (s'&Hx&Hs'&_&Hls&Hts&Hus);
      rewrite ?Hdata in *; try done. by exists (Ok tt), s'. }
  by exists d.
Qed.

(** A short name for a name that no entry has. *)
Lemma root_short_name fs c name expect : root_ok fs → c < 0x80 → (∀ e, e ∈ root_entries fs → eq_name e (c :: name) = false) →
  ∃ sn d, check_for_existence (root_dir fs) (c :: name) expect fs = Ret (Ok (inr sn), set_disk fs d) ∧ root_only fs d ∧
    root_data (set_disk fs d) = root_data fs ∧ valid_short sn ∧ ∀ x, x ∈ root_entries fs → e_name (de_data x) ≠ sn.
Proof.
  intros Hr Hc Hno. destruct (short_gen_ascii c name Hc) as [g Hg]. pose proof (ro_vol fs Hr) as Hv.
  set (E := (λ e, e_name (de_data e)) <$> root_entries fs).
  assert (length E <= length (slots (root_data fs)))%nat as HE by (unfold E; rewrite length_fmap; apply length_listing).
  destruct (root_whole fs Hv) as [_ Hrl]. destruct (root_place fs Hv) as (_&_&_&[Hrl0 Hrl1]&_). pose proof (root_fuel fs Hr) as Hfuel.
  assert (len (root_data fs) / 32 < 2 ^ 17) as Hslots17 by (rewrite Hrl; apply Z.div_lt_upper_bound; lia).
  assert (Z.of_nat (length E) < 9 * 2 ^ 16) as Hlen by (rewrite length_slots in HE; lia).
  destruct (search_ends g E) as (sn&Hsn); [by eapply short_gen_bitmap|apply (short_gen_new_ok _ _ Hg)|done|].
  destruct (search_fresh _ _ _ _ (proj1 (short_gen_new_ok _ _ Hg)) Hsn) as [Hvalid Hfresh].
  destruct (root_check fs (c :: name) expect (length E / 9) g sn (dir_fuel fs) Hr Hno Hsn) as (d1&H1&Hd1&Hdata1).
  { pose proof (Nat.Div0.div_le_upper_bound (length E) 9 (length E)). lia. }
  exists sn, d1. split; [unfold check_for_existence; rewrite (FM_step this _ fs fs fs eq_refl), Hg, lift_Ret; exact H1|].
  split; [done|]. split; [done|]. split; [done|]. intros x Hx Heq. apply Hfresh, list_elem_of_fmap. by exists x.
Qed.

Lemma root_find_at fs name e l1 l2 : root_ok fs → root_entries fs = l1 ++ e :: l2 → (∀ x, x ∈ l1 → eq_name x name = false) →
  eq_name e name = true →
  ∃ d, Dir.find_entry (root_dir fs) name None fs = Ret (Ok e, set_disk fs d) ∧ root_only fs d ∧ root_data (set_disk fs d) = root_data fs.
Proof.
  intros Hr Hl Hl1 He. destruct (root_find fs name None None Hr) as (d&H&Hd&Hdata). rewrite Hl, find_in_app in H by done. unfold found in H.
  cbn [fst] in H. exists d. split; [|done]. unfold Dir.find_entry. by fstep H.
Qed.

(** *** Creating a file *)

(** The fields of the clock are [u16]s. *)
Class ClockOk : Prop := clock_ok : word 16 (day (date get_current_date_time)) ∧ word 16 (sec (time get_current_date_time)).
Context {CK : ClockOk}.

Lemma clock_words : word 16 (Date_encode (date get_current_date_time)) ∧ word 16 (fst (Time_encode (time get_current_date_time))) ∧
  word 8 (snd (Time_encode (time get_current_date_time))).
Proof.
  destruct clock_ok as [Hd Hs]. assert (∀ x k, word 16 (shl 16 x k)) as Hshl by (intros; apply wrap_word; lia).
  split; [|split]; unfold Date_encode, Time_encode; cbn [fst snd]; [| |apply wrap_word; lia].
  - repeat apply word_lor; done || lia.
  - repeat apply word_lor; try done; try lia. unfold word in *. dlia.
Qed.

(** The bytes of a generated short name: none marks an end or a deleted entry. *)
Lemma valid_short_bytes sn : valid_short sn → Forall (word 8) sn ∧ 0x21 <= first_byte sn < 0x80.
Proof.
  intros (_&Hb&c&Hc&Hv). assert (∀ x, sfn_byte x = true → 0x21 <= x < 0x80) as Hrange.
  { intros x. unfold sfn_byte, in_range. rewrite !orb_true_iff, !andb_true_iff, !Z.leb_le, bool_decide_eq_true.
    intros [?|Hx]; [lia|]. unfold short_name_marks in Hx. rewrite !elem_of_cons, elem_of_nil in Hx. lia. }
  split; [|unfold first_byte; rewrite Hc; by apply Hrange].
  eapply list.Forall_impl; [exact Hb|]. intros x [Hx%Hrange| ->]; unfold word, SFN_PADDING; lia.
Qed.

(** The entry of a new file is one that is listed. *)
Lemma sfn_entry_live fs sn : valid_short sn → live_data (create_sfn_entry fs sn 0 None).
Proof.
  intros Hsn. pose proof (valid_short_bytes sn Hsn) as [Hby Hfst]. destruct Hsn as [Hl _]. destruct clock_words as (W1&W2&W3).
  split; [|unfold entry_is_end, entry_is_deleted, DIR_ENTRY_DELETED_FLAG; cbn [create_sfn_entry entry_set_modified entry_set_accessed entry_set_created entry_set_first_cluster entry_new e_name]; split_and!; [lia|lia|done]].
  unfold create_sfn_entry, entry_set_first_cluster, entry_new. cbn [default].
  split; cbn [entry_set_modified entry_set_accessed entry_set_created e_name e_attrs e_reserved_0 e_create_time_0 e_create_time_1 e_create_date e_access_date e_first_cluster_hi e_modify_time e_modify_date e_first_cluster_lo e_size];
    try done.
  split; [by destruct (fs_type fs)|done].
Qed.

Lemma new_entries_count name raw : accepted name → length (new_entries name raw) = Z.to_nat ((len name + 12) / 13 + 1).
Proof.
  intros Hn. destruct (accepted_units name Hn) as (_&_&Hw&Hl). destruct Hn as (Hne&_). rewrite length_new_entries.
  destruct (lfn_entries_new name (lfn_checksum (e_name raw)) Hne) as (_&Hc&_); [lia|done|apply lfn_checksum_word|].
  unfold lfn_gen_len, lfn_gen_new in Hc. cbn [name_parts_iter] in Hc. rewrite length_reverse in Hc.
  destruct (chunks_fuel_spec (length name) 13 name) as (_&_&Hnum); [lia|lia|]. change (Z.to_nat LFN_PART_LEN) with 13%nat in Hc. unfold chunks in Hc.
  rewrite Hnum in Hc. replace (len name + Z.of_nat 13 - 1) with (len name + 12) in Hc by lia. change (Z.of_nat 13) with 13 in Hc. lia.
Qed.

Lemma root_write fs name raw : root_ok fs → accepted name → list.last name ≠ Some 0xFFFF → live_data raw → tidy (slots (root_data fs)) →
  (used (slots (root_data fs)) + length (new_entries name raw) <= length (slots (root_data fs)))%nat →
  ∃ e e' l1 l2 d, write_entry (root_dir fs) name raw fs = Ret (Ok e, set_disk fs d) ∧ root_only fs d ∧
    tidy (slots (root_data (set_disk fs d))) ∧ root_entries fs = l1 ++ l2 ∧ root_entries (set_disk fs d) = l1 ++ e' :: l2 ∧
    de_data e' = raw ∧ de_lfn_utf16 e' = name ∧ de_data e = raw ∧ de_lfn_utf16 e = name ∧ de_entry_pos e = de_entry_pos e'.
Proof.
  intros Hr Hn Hlast Hraw Ht Hroom. destruct (root_whole fs (ro_vol fs Hr)) as [Hw _]. pose proof (root_word fs (ro_vol fs Hr)) as Hw32.
  destruct (on_root_ok fs Hr (write_entry_at (dir_fuel fs) name raw) (λ r l, ∃ e e' l1 l2, r = Ok e ∧ tidy (slots l) ∧
    root_entries fs = l1 ++ l2 ∧ entries (root_abs (fs_bpb fs)) true l = l1 ++ e' :: l2 ∧
    de_data e' = raw ∧ de_lfn_utf16 e' = name ∧ de_data e = raw ∧ de_lfn_utf16 e = name ∧ de_entry_pos e = de_entry_pos e'))
    as (r&d&Hx&Hd&(e&e'&l1&l2&->&H)).
  - intros s Hs Hdata Hp.
    destruct (new_entry_listed (DS := root_dir_spec fs (ro_marked fs Hr)) (dir_fuel fs) name raw s Hs) as (e&e'&l1&l2&s'&Hx&Hs'&_&H1&H2);
      rewrite ?Hdata in *; try done; [by apply root_fuel|]. eexists _, s'. split; [exact Hx|]. split; [done|]. by exists e, e', l1, l2.
  - exists e, e', l1, l2, d. split; [|done]. unfold write_entry. rewrite (FM_step this _ fs fs fs eq_refl). by fstep (validate_ok name fs Hn).
Qed.

Lemma to_file_same fs e e' : de_data e = de_data e' → de_entry_pos e = de_entry_pos e' → to_file e fs = to_file e' fs.
Proof. intros H1 H2. unfold to_file, de_first_cluster, de_editor. by rewrite H1, H2. Qed.

(** The file made and its entry. *)
Lemma create_in_root fs path c name : root_ok fs → split_path path = (c :: name, None) → accepted (c :: name) → c < 0x80 →
  list.last (c :: name) ≠ Some 0xFFFF → tidy (slots (root_data fs)) →
  Z.of_nat (used (slots (root_data fs))) + (len (c :: name) + 12) / 13 + 1 <= len (root_data fs) / 32 →
  (∀ e, e ∈ root_entries fs → eq_name e (c :: name) = false) →
  ∃ d file e l1 l2, let fs' := set_disk fs d in create_file (root_dir fs) path fs = Ret (Ok file, fs') ∧ root_only fs d ∧
    entry_is_dir (de_data e) = false ∧
    root_ok fs' ∧ tidy (slots (root_data fs')) ∧ fat_data fs' = fat_data fs ∧ clusters_kept fs fs' (λ _, False) ∧
    root_entries fs = l1 ++ l2 ∧ root_entries fs' = l1 ++ e :: l2 ∧ de_lfn_utf16 e = c :: name ∧ entry_size (de_data e) = Some 0 ∧
    (∀ x, x ∈ root_entries fs → e_name (de_data x) ≠ e_name (de_data e)) ∧
    ∃ fs'', open_file (root_dir fs') path fs' = Ret (Ok file, fs'').
Proof.
  intros Hr Hpath Hname Hc Hlast Ht Hroom Hno. pose proof (ro_vol fs Hr) as Hv.
  destruct (root_short_name fs c name (Some false) Hr Hc Hno) as (sn&d1&H1&Hd1&Hdata1&Hvalid&Hfresh). set (n := c :: name) in *.
  set (fs1 := set_disk fs d1). pose proof (root_ok_set fs d1 Hr Hd1) as Hr1. set (raw := create_sfn_entry fs1 sn 0 None).
  destruct (root_write fs1 n raw Hr1 Hname Hlast (sfn_entry_live fs1 sn Hvalid)) as (e&e'&l1&l2&d2&H2&Hd2&Ht2&Hl&Hl'&E1&E2&E3&E4&E5).
  { unfold fs1. by rewrite Hdata1. }
  { unfold fs1. rewrite Hdata1, new_entries_count, length_slots by done. pose proof (len_nonneg n).
    assert (0 <= (len n + 12) / 13) by (apply Z.div_pos; lia). lia. }
  unfold fs1 in Hl. rewrite (root_same fs d1 Hd1 Hdata1) in Hl. pose proof (root_only_trans _ _ _ Hd1 Hd2) as Hd.
  destruct (root_only_vol fs d2 Hv Hd) as (_&_&Hfat&Hcl). change (set_disk fs1 d2) with (set_disk fs d2) in *.
  assert (entry_is_dir (de_data e) = false ∧ entry_is_dir (de_data e') = false) as [Hdir Hdir'] by (rewrite E1, E3; by split).
  exists d2, (file_new (de_first_cluster e (set_disk fs d2)) (Some (de_editor e))), e', l1, l2. cbv zeta. split; [|split; [done|split; [done|split; [by apply root_ok_set|]]]].
  - unfold create_file. cbn [create_file_at]. rewrite Hpath.
    fstep H1. rewrite (FM_step this _ fs1 fs1 fs1 eq_refl). fstep H2. unfold to_file. rewrite (FM_step this _ _ _ _ eq_refl), Hdir. done.
  - do 4 (split; [done|]). split; [exact Hl'|]. split; [done|]. split; [by rewrite E1|]. split.
    { intros x Hx. rewrite E1. by apply Hfresh. }
    destruct (root_find (set_disk fs d2) n (Some false) None (root_ok_set fs d2 Hr Hd)) as (d3&H3&_).
    rewrite Hl', find_in_app in H3; [|intros x Hx; apply Hno; rewrite Hl; set_solver|by apply eq_name_new].
    unfold found in H3. cbn [fst] in H3. rewrite Hdir' in H3. cbn [Bool.eqb] in H3. exists (set_disk (set_disk fs d2) d3).
    unfold open_file. cbn [open_file_at]. rewrite Hpath. fold n.
    assert (Dir.find_entry (root_dir (set_disk fs d2)) n (Some false) (set_disk fs d2) = Ret (Ok e', set_disk (set_disk fs d2) d3)) as Hfe
      by (unfold Dir.find_entry; by fstep H3).
    fstep Hfe. rewrite (to_file_same _ e' e) by congruence. unfold to_file. rewrite (FM_step this _ _ _ _ eq_refl), Hdir. done.
Qed.

(** Creating a file by a name that no entry of the root directory has succeeds
    when there is room for its entries, finds it a short name that no entry has
    and writes its entries where none is in use: the directory lists the new
    entry among the old ones, which are as they were, the tables and all the
    clusters keep their bytes, and opening the name gives the new file. *)
Theorem root_file_created fs path c name : root_ok fs → split_path path = (c :: name, None) → accepted (c :: name) → c < 0x80 →
  list.last (c :: name) ≠ Some 0xFFFF → tidy (slots (root_data fs)) →
  Z.of_nat (used (slots (root_data fs))) + (len (c :: name) + 12) / 13 + 1 <= len (root_data fs) / 32 →
  (∀ e, e ∈ root_entries fs → eq_name e (c :: name) = false) →
  ∃ fs' file e l1 l2, create_file (root_dir fs) path fs = Ret (Ok file, fs') ∧
    root_ok fs' ∧ tidy (slots (root_data fs')) ∧ fat_data fs' = fat_data fs ∧ clusters_kept fs fs' (λ _, False) ∧
    root_entries fs = l1 ++ l2 ∧ root_entries fs' = l1 ++ e :: l2 ∧ de_lfn_utf16 e = c :: name ∧ entry_size (de_data e) = Some 0 ∧
    (∀ x, x ∈ root_entries fs → e_name (de_data x) ≠ e_name (de_data e)) ∧
    ∃ fs'', open_file (root_dir fs') path fs' = Ret (Ok file, fs'').
Proof.
  intros. destruct (create_in_root fs path c name) as (d&file&e&l1&l2&E1&_&_&E2); [done..|].
  exists (set_disk fs d), file, e, l1, l2. by split.
Qed.

(** *** Any contents *)

Lemma find_in_find name es : find_in name es None = (List.find (λ e, eq_name e name) es, None).
Proof. induction es as [|e es IH]; [done|]. cbn [find_in List.find option_map]. destruct (eq_name e name); [done|]. exact IH. Qed.

(** Whatever bytes the root directory has - pieces of long names in any order,
    with any numbers and checksums, or none - a lookup ends without a panic,
    answers the first listed entry with the name, by its long or short name in
    any case, [NotFound] without one and [InvalidInput] when it is a file for
    which a directory was asked or the other way around; nothing is written. *)
Theorem root_lookup fs name (expect : option bool) : root_ok fs →
  ∃ fs', Dir.find_entry (root_dir fs) name expect fs =
      Ret (match List.find (λ e, eq_name e name) (root_entries fs) with
           | Some e =>
               match expect with
               | Some d => if Bool.eqb (entry_is_dir (de_data e)) d then Ok e else Err EInvalidInput
               | None => Ok e
               end
           | None => Err ENotFound
           end, fs') ∧
    root_ok fs' ∧ root_data fs' = root_data fs ∧ fat_data fs' = fat_data fs ∧ clusters_kept fs fs' (λ _, False).
Proof.
  intros Hr. destruct (root_find fs name expect None Hr) as (d&H&Hd&Hdata). rewrite find_in_find in H. unfold found in H. cbn [fst] in H.
  destruct (root_only_vol fs d (ro_vol fs Hr) Hd) as (_&_&Hfat&Hcl). exists (set_disk fs d). split; [|split; [by apply root_ok_set|done]].
  unfold Dir.find_entry. destruct (List.find _ _) as [e|]; [|by fstep H]. destruct expect as [x|]; [|by fstep H].
  destruct (Bool.eqb _ x); [by fstep H|]. by rewrite (FM_step_err _ _ _ _ _ H).
Qed.

(** *** Removing a file *)

(** The table does not reach the root directory. *)
Lemma fat_only_root fs d : vol_ok fs → fat_only fs d → root_data (set_disk fs d) = root_data fs.
Proof.
  intros Hv (_&_&Ho). destruct (root_place fs Hv) as (H1&_&H3&[H4 _]&_). pose proof (vol_places fs Hv) as [(Hf1&Hf2&Hf3) _ _ _ _].
  apply Ho; [done|done|right; done].
Qed.

(** Freeing the clusters of an entry, if it has any. *)
Lemma free_entry_ok fs (first : option Z) cs : root_ok fs →
  match first with
  | Some c => chain (fs_type fs) (fat_data fs) c cs ∧
      (∀ x, x ∈ cs → data_cluster (fs_total_clusters fs) x ∧ value (fs_type fs) (fat_data fs) x ≠ Free)
  | None => cs = []
  end →
  ∃ fs', match first with Some n => free_cluster_chain n | None => mret tt end fs = Ret (Ok tt, fs') ∧ root_ok fs' ∧
    root_dir fs' = root_dir fs ∧ root_data fs' = root_data fs ∧ kept fs fs' ∧ clusters_kept fs fs' (λ _, False) ∧
    freed (fs_type fs) (fat_data fs) (fat_data fs') cs.
Proof.
  intros Hr. destruct first as [c|]; [intros [Hch Hcs]|intros ->].
  - destruct Hr as [Hv Hm Ht Hs]. destruct (fs_free_ok fs c cs Hv Hm Hch Hcs) as (fs'&H&Hv'&Hm'&Hk&Hc&Hf&Ho&Hs'). exists fs'. split; [done|].
    pose proof (vo_first fs Hv) as Hf1. pose proof (vo_first fs' Hv') as Hf2. pose proof (fat_only_root fs _ Hv Ho) as Hroot.
    destruct Hk as (Hb&Hty&Htot&Hopt&Hlen). split; [split; [done|done|by rewrite Hty|by rewrite Hs', Hb]|]. split.
    { unfold root_dir. by rewrite Hty, Hb, Hs', Hf1, Hf2, Hb. }
    split; [|done]. rewrite <- Hroot. unfold root_data. by rewrite Hb.
  - exists fs. do 4 (split; [done|]). split; [done|]. split; [done|]. split; [done|]. split; [set_solver|done].
Qed.

(** The entry gone and its clusters free. *)
Lemma remove_in_root fs path name e l1 l2 cs : root_ok fs → split_path path = (name, None) →
  root_entries fs = l1 ++ e :: l2 → (∀ x, x ∈ l1 → eq_name x name = false) → eq_name e name = true → entry_is_dir (de_data e) = false →
  match de_first_cluster e fs with
  | Some c => chain (fs_type fs) (fat_data fs) c cs ∧
      (∀ x, x ∈ cs → data_cluster (fs_total_clusters fs) x ∧ value (fs_type fs) (fat_data fs) x ≠ Free)
  | None => cs = []
  end →
  ∃ fs', remove (root_dir fs) path fs = Ret (Ok tt, fs') ∧ root_ok fs' ∧ root_entries fs' = l1 ++ l2 ∧
    (tidy (slots (root_data fs)) → tidy (slots (root_data fs'))) ∧
    freed (fs_type fs) (fat_data fs) (fat_data fs') cs ∧ clusters_kept fs fs' (λ _, False).
Proof.
  intros Hr Hpath Hl Hl1 He Hdir Hcs. pose proof (ro_vol fs Hr) as Hv.
  destruct (root_find_at fs name e l1 l2 Hr Hl Hl1 He) as (d1&H1&Hd1&Hdata1).
  set (fs1 := set_disk fs d1) in *. pose proof (root_ok_set fs d1 Hr Hd1) as Hr1. fold fs1 in Hr1.
  destruct (root_only_vol fs d1 Hv Hd1) as (_&_&Hfat1&Hcl1). fold fs1 in Hfat1, Hcl1.
  destruct (free_entry_ok fs1 (de_first_cluster e fs1) cs Hr1) as (fs2&H2&Hr2&Hdir2&Hroot2&(Hb2&Hty2&Htot2&_)&Hcl2&Hfr).
  { rewrite Hfat1. exact Hcs. }
  destruct (root_delete fs2 e l1 l2 Hr2) as (d3&H3&Hd3&Hl3&Ht3&_).
  { unfold root_entries. rewrite Hb2, Hroot2, Hdata1. exact Hl. }
  destruct (root_only_vol fs2 d3 (ro_vol fs2 Hr2) Hd3) as (_&_&Hfat3&Hcl3). exists (set_disk fs2 d3). split.
  { unfold remove. cbn [remove_at]. rewrite Hpath.
    fstep H1.
    rewrite Hdir. rewrite (FM_step (mret false) _ fs1 false fs1 eq_refl). cbn iota. rewrite (FM_step this _ fs1 fs1 fs1 eq_refl). fstep H2.
    change (root_dir fs) with (root_dir fs1). rewrite <- Hdir2. exact H3. }
  split; [by apply root_ok_set|]. split; [exact Hl3|]. split.
  { intros Ht. apply Ht3. rewrite Hroot2. by rewrite Hdata1. }
  rewrite Hfat3. rewrite Hfat1 in Hfr. split; [exact Hfr|]. intros x Hx Hn. rewrite Hcl3; [|by rewrite Htot2|done]. rewrite Hcl2 by done. by apply Hcl1.
Qed.

(** Removing a file of the root directory by the name of its entry takes this
    entry alone out of the listing and frees all the clusters of its chain;
    the entries of the tables outside of the chain and the bytes of all
    clusters are as they were. *)
Theorem root_file_removed fs path name e l1 l2 cs : root_ok fs → split_path path = (name, None) →
  root_entries fs = l1 ++ e :: l2 → (∀ x, x ∈ l1 → eq_name x name = false) → eq_name e name = true → entry_is_dir (de_data e) = false →
  match de_first_cluster e fs with
  | Some c => chain (fs_type fs) (fat_data fs) c cs ∧
      (∀ x, x ∈ cs → data_cluster (fs_total_clusters fs) x ∧ value (fs_type fs) (fat_data fs) x ≠ Free)
  | None => cs = []
  end →
  ∃ fs', remove (root_dir fs) path fs = Ret (Ok tt, fs') ∧ root_ok fs' ∧ root_entries fs' = l1 ++ l2 ∧
    (tidy (slots (root_data fs)) → tidy (slots (root_data fs'))) ∧
    freed (fs_type fs) (fat_data fs) (fat_data fs') cs ∧ clusters_kept fs fs' (λ _, False).
Proof. apply remove_in_root. Qed.

(** *** Renaming *)

(** Only entries of the slots are listed, labels not. *)
Lemma listing_data at_ b k beg ss e : e ∈ listing at_ true b k beg ss →
  DFile (de_data e) ∈ ss ∧ is_end (DFile (de_data e)) = false ∧ entry_is_volume (de_data e) = false.
Proof.
  revert b k beg. induction ss as [|x ss IH]; intros b k beg; cbn [listing]; [by intros ?%elem_of_nil|].
  destruct (is_end x) eqn:Hx; [by intros ?%elem_of_nil|].
  assert (∀ b k beg, e ∈ listing at_ true b k beg ss → DFile (de_data e) ∈ x :: ss ∧ is_end (DFile (de_data e)) = false ∧ entry_is_volume (de_data e) = false) as IH'.
  { intros b' k' beg' (?&?)%IH. split; [by right|done]. }
  destruct (should_ship_entry true x) eqn:Hs; [apply IH'|]. destruct x as [d|d]; [|apply IH'].
  intros [->|He]%elem_of_cons; [|by eapply IH']. split; [by left|]. split; [done|]. unfold should_ship_entry in Hs. cbn [listed de_data].
  destruct (is_deleted (DFile d)); [done|]. exact Hs.
Qed.

Lemma root_entry_ok fs e : root_ok fs → e ∈ root_entries fs → entry_ok (de_data e) ∧ entry_is_volume (de_data e) = false.
Proof.
  intros [Hv _ _ _] (Hin&_&Hvol)%listing_data. split; [|done]. destruct (root_whole fs Hv) as [Hw _].
  apply list_elem_of_lookup in Hin as [k Hk]. apply lookup_lt_Some in Hk as Hlt. rewrite slots_lookup in Hk by done. injection Hk as Hk.
  destruct (slot_bytes _ _ Hw Hlt) as [Hl _]. pose proof (parse_slot_data_ok _ Hl) as Hok. unfold slot in Hk. rewrite Hk in Hok. apply Hok.
  apply bytes_at_bytes, bytes_at_bytes, bytes_ok, (vo_disk fs Hv).
Qed.

Lemma renamed_live raw sn : entry_ok raw → entry_is_volume raw = false → valid_short sn → live_data (entry_renamed raw sn).
Proof.
  intros [Hn Ha Hb Ht Hc Hs] Hv Hsn. pose proof (valid_short_bytes sn Hsn) as [Hby Hfst]. destruct Hsn as [Hl _].
  split; [by split|]. unfold entry_is_end, entry_is_deleted, DIR_ENTRY_DELETED_FLAG. cbn [entry_renamed e_name]. split_and!; [lia|lia|done].
Qed.

(** What a rename does before it writes the new entry. *)
Lemma rename_deletes fs src s' c name d' e l1 l2 : root_ok fs → split_path src = (s', None) → split_path (c :: name) = (d', None) →
  root_entries fs = l1 ++ e :: l2 → (∀ x, x ∈ l1 → eq_name x src = false) → eq_name e src = true →
  (∀ x, x ∈ root_entries fs → eq_name x (c :: name) = false) → c < 0x80 →
  ∃ sn d, rename (root_dir fs) src (root_dir fs) (c :: name) fs =
      (_ ← write_entry (root_dir fs) (c :: name) (entry_renamed (de_data e) sn); mret tt) (set_disk fs d) ∧
    valid_short sn ∧ root_only fs d ∧ root_entries (set_disk fs d) = l1 ++ l2 ∧
    (tidy (slots (root_data fs)) → tidy (slots (root_data (set_disk fs d)))) ∧
    used (slots (root_data (set_disk fs d))) = used (slots (root_data fs)).
Proof.
  intros Hr Hsrc Hdst Hl Hl1 He Hno Hc. destruct (root_find_at fs src e l1 l2 Hr Hl Hl1 He) as (d1&H1&Hd1&Hdata1).
  pose proof (root_ok_set fs d1 Hr Hd1) as Hr1.
  destruct (root_short_name (set_disk fs d1) c name None Hr1 Hc) as (sn&d2&H2&Hd2&Hdata2&Hsn&_); [by rewrite (root_same fs d1)|].
  pose proof (root_ok_set _ d2 Hr1 Hd2) as Hr2.
  destruct (root_delete _ e l1 l2 Hr2) as (d3&H3&Hd3&Hl3&Ht3&Hu3).
  { rewrite (root_same _ d2 Hd2 Hdata2). by rewrite (root_same fs d1 Hd1 Hdata1). }
  rewrite Hdata2, Hdata1 in Ht3, Hu3. exists sn, d3. split; [|split; [done|split; [|done]]].
  - unfold rename. cbn [rename_at]. rewrite Hsrc, Hdst. unfold rename_internal. fstep H1. fstep H2. by fstep H3.
  - eapply root_only_trans; [exact Hd1|]. eapply root_only_trans; [exact Hd2|exact Hd3].
Qed.

(** Renaming an entry of the root directory to a name that no entry has makes
    one entry with the new name and the old one's data - attributes, times,
    first cluster and size - in place of the old one; the others, the tables
    and the clusters are as they were. *)
Theorem root_entry_renamed fs src s' c name d' e l1 l2 : root_ok fs → split_path src = (s', None) → split_path (c :: name) = (d', None) →
  root_entries fs = l1 ++ e :: l2 → (∀ x, x ∈ l1 → eq_name x src = false) → eq_name e src = true →
  (∀ x, x ∈ root_entries fs → eq_name x (c :: name) = false) → c < 0x80 →
  accepted (c :: name) → list.last (c :: name) ≠ Some 0xFFFF → tidy (slots (root_data fs)) →
  Z.of_nat (used (slots (root_data fs))) + (len (c :: name) + 12) / 13 + 1 <= len (root_data fs) / 32 →
  ∃ fs' e' l1' l2', rename (root_dir fs) src (root_dir fs) (c :: name) fs = Ret (Ok tt, fs') ∧ root_ok fs' ∧
    tidy (slots (root_data fs')) ∧ l1 ++ l2 = l1' ++ l2' ∧ root_entries fs' = l1' ++ e' :: l2' ∧ de_lfn_utf16 e' = c :: name ∧
    de_data e' = entry_renamed (de_data e) (e_name (de_data e')) ∧ valid_short (e_name (de_data e')) ∧
    fat_data fs' = fat_data fs ∧ clusters_kept fs fs' (λ _, False).
Proof.
  intros Hr Hsrc Hdst Hl Hl1 He Hno Hc Hname Hlast Ht Hroom.
  destruct (rename_deletes fs src s' c name d' e l1 l2) as (sn&d&H1&Hsn&Hd&Hld&Htd&Hud); [done..|]. pose proof (root_ok_set fs d Hr Hd) as Hr1.
  destruct (root_entry_ok fs e Hr) as [Hok Hvol]; [rewrite Hl; set_solver|].
  destruct (root_whole fs (ro_vol fs Hr)) as [_ Hlen]. destruct (root_whole _ (ro_vol _ Hr1)) as [_ Hlen1]. cbn [fs_bpb set_disk] in Hlen1.
  destruct (root_write (set_disk fs d) (c :: name) (entry_renamed (de_data e) sn) Hr1 Hname Hlast) as (e0&e'&l1'&l2'&d2&H2&Hd2&Ht2&Hl2&Hl2'&E1&E2&_).
  - by apply renamed_live.
  - by apply Htd.
  - rewrite Hud, new_entries_count, length_slots, Hlen1, <- Hlen by done. pose proof (len_nonneg (c :: name)).
    assert (0 <= (len (c :: name) + 12) / 13) by (apply Z.div_pos; lia). lia.
  - pose proof (root_only_trans _ _ _ Hd Hd2) as Hd'. destruct (root_only_vol fs d2 (ro_vol fs Hr) Hd') as (_&_&Hfat&Hcl).
    exists (set_disk fs d2), e', l1', l2'. rewrite H1. split; [by fstep H2|]. split; [by apply root_ok_set|]. split; [exact Ht2|].
    split; [congruence|]. split; [exact Hl2'|]. split; [done|]. rewrite E1. by split_and!.
Qed.

Lemma validate_same {A B} name (a : A) (b : B) err : validate_long_name name a = Ret (Err err, a) → validate_long_name name b = Ret (Err err, b).
Proof. unfold validate_long_name. repeat case_match; intros [= <-]; done. Qed.

(** A rename to a name that is not accepted reports it, but after the old entry
    was deleted: the file is gone from the directory, and its clusters are not
    free. *)
Theorem rename_to_invalid_loses_file fs src s' c name d' e l1 l2 err : root_ok fs → split_path src = (s', None) →
  split_path (c :: name) = (d', None) → root_entries fs = l1 ++ e :: l2 → (∀ x, x ∈ l1 → eq_name x src = false) → eq_name e src = true →
  (∀ x, x ∈ root_entries fs → eq_name x (c :: name) = false) → c < 0x80 → validate_long_name (c :: name) tt = Ret (Err err, tt) →
  ∃ fs', rename (root_dir fs) src (root_dir fs) (c :: name) fs = Ret (Err err, fs') ∧ root_entries fs' = l1 ++ l2 ∧
    fat_data fs' = fat_data fs.
Proof.
  intros Hr Hsrc Hdst Hl Hl1 He Hno Hc Hbad.
  destruct (rename_deletes fs src s' c name d' e l1 l2) as (sn&d&H1&_&Hd&Hld&_); [done..|].
  destruct (root_only_vol fs d (ro_vol fs Hr) Hd) as (_&_&Hfat&_). exists (set_disk fs d). split; [|done]. rewrite H1.
  assert (write_entry (root_dir fs) (c :: name) (entry_renamed (de_data e) sn) (set_disk fs d) = Ret (Err err, set_disk fs d)) as Hw.
  { unfold write_entry. rewrite (FM_step this _ _ _ _ eq_refl). by rewrite (FM_step_err _ _ _ _ _ (validate_same _ tt (set_disk fs d) err Hbad)). }
  by rewrite (FM_step_err _ _ _ _ _ Hw).
Qed.
End root.

(** ** A concrete root directory *)

(** The volume of the files' example, marked, with the entry of its file: the
    file HELLO.TXT with the clusters 2 and 3. *)
Module RootVolume.
Definition bytes_of_disk : list Z :=
  replicate 512 0 ++ SmallVolume.fat_bytes ++ SmallVolume.fat_bytes ++ (entry_bytes (ed_data SmallVolume.entry) ++ replicate 480 0) ++
  replicate 512 5 ++ replicate 512 6 ++ replicate (14 * 512) 0.

Definition volume : FileSystem MemDisk :=
  mkFs (mkMem bytes_of_disk 0) fs_options_new Fat12 SmallVolume.bpb 4 1 16 info_default (mkFlags true false).

Lemma root_volume_ok : root_ok volume.
Proof.
  split; [|by vm_compute..]. split; try by vm_compute.
  - split; [|split; by vm_compute]. apply (bool_decide_eq_true_1 (Forall (word 8) bytes_of_disk)). by vm_compute.
  - apply SmallVolume.bpb_ok.
  - apply SmallVolume.bpb_accepted.
Defined.

Lemma volume_tidy : tidy (slots (root_data volume)).
Proof. apply (bool_decide_eq_true_1 (Forall (λ x, is_end x = true) (drop (used (slots (root_data volume))) (slots (root_data volume))))). by vm_compute. Defined.

(** What HELLO.TXT is listed as. *)
Definition hello : DirEntry :=
  mkDirEntry (ed_data SmallVolume.entry) (ShortName_new (e_name (ed_data SmallVolume.entry))) [] 1536 (0, 32).

Lemma volume_entries : root_entries volume = [hello].
Proof. by vm_compute. Defined.

Lemma no_match name : eq_name hello name = false → ∀ e, e ∈ root_entries volume → eq_name e name = false.
Proof. intros H e. rewrite volume_entries, list_elem_of_singleton. by intros ->. Defined.

Lemma accepted_by_check name : bool_decide (name ≠ []) && (str_len name <=? 255) &&
  forallb (λ c, (0 <=? c) && (c <? 0xD800) && long_name_char c) name = true → accepted name.
Proof.
  rewrite !andb_true_iff, bool_decide_eq_true, Z.leb_le, forallb_forall. intros [[Hne Hl] Hc]. split; [done|]. split; [done|].
  apply list.Forall_forall. intros c Hin%list_elem_of_In%Hc. rewrite !andb_true_iff, Z.leb_le, Z.ltb_lt in Hin. destruct Hin as [[? ?] ?].
  split; [split; [lia|by left]|done].
Defined.

Lemma hello_chain : chain (fs_type volume) (fat_data volume) 2 [2; 3] ∧
  (∀ x, x ∈ [2; 3] → data_cluster (fs_total_clusters volume) x ∧ value (fs_type volume) (fat_data volume) x ≠ Free).
Proof.
  split.
  - apply chain_next with 3; [by vm_compute|by vm_compute|]. apply chain_end; [by vm_compute|]. intros n H. vm_compute in H. discriminate H.
  - intros x [->|[->|[]%elem_of_nil]%elem_of_cons]%elem_of_cons; (split; [by vm_compute|]); intros H; vm_compute in H; discriminate H.
Defined.

(** "hello.txt", "a b.txt", "b" and "a*b". *)
Definition hello_name : list Z := [0x68; 0x65; 0x6C; 0x6C; 0x6F; 0x2E; 0x74; 0x78; 0x74].
Definition new_name : list Z := [0x61; 0x20; 0x62; 0x2E; 0x74; 0x78; 0x74].
Definition bad_name : list Z := [0x61; 0x2A; 0x62].

Lemma small_clock_ok : ClockOk (TP := SmallVolume.clock).
Proof. split; vm_compute; split; discriminate || done. Defined.
End RootVolume.

#[local] Existing Instance SmallVolume.clock.
#[local] Existing Instance RootVolume.small_clock_ok.

Lemma root_lookup_witness : ∃ fs', Dir.find_entry (root_dir RootVolume.volume) RootVolume.hello_name (Some false) RootVolume.volume
    = Ret (Ok RootVolume.hello, fs') ∧ root_data fs' = root_data RootVolume.volume.
Proof.
  destruct (root_lookup RootVolume.volume RootVolume.hello_name (Some false) RootVolume.root_volume_ok) as (fs'&H&_&Hd&_).
  exists fs'. split; [|exact Hd]. rewrite RootVolume.volume_entries in H. exact H.
Defined.

Lemma root_file_created_witness : ∃ fs' file, create_file (root_dir RootVolume.volume) (SLASH :: RootVolume.new_name) RootVolume.volume = Ret (Ok file, fs') ∧
  length (root_entries fs') = 2%nat.
Proof.
  destruct (root_file_created RootVolume.volume (SLASH :: RootVolume.new_name) 0x61 [0x20; 0x62; 0x2E; 0x74; 0x78; 0x74])
    as (fs'&file&e&l1&l2&H&_&_&_&_&Hl&Hl'&_).
  - exact RootVolume.root_volume_ok.
  - reflexivity.
  - apply RootVolume.accepted_by_check. by vm_compute.
  - lia.
  - discriminate.
  - exact RootVolume.volume_tidy.
  - by vm_compute.
  - apply RootVolume.no_match. by vm_compute.
  - exists fs', file. split; [exact H|]. rewrite Hl'. rewrite RootVolume.volume_entries in Hl.
    apply (f_equal length) in Hl. rewrite length_app in *. simpl in *. lia.
Defined.

Lemma root_file_removed_witness : ∃ fs', remove (root_dir RootVolume.volume) RootVolume.hello_name RootVolume.volume = Ret (Ok tt, fs') ∧
  root_entries fs' = [] ∧ value Fat12 (fat_data fs') 3 = Free.
Proof.
  destruct (root_file_removed RootVolume.volume RootVolume.hello_name RootVolume.hello_name RootVolume.hello [] [] [2; 3])
    as (fs'&H&_&Hl&_&(_&Hf&_)&_).
  - exact RootVolume.root_volume_ok.
  - reflexivity.
  - exact RootVolume.volume_entries.
  - by intros x ?%elem_of_nil.
  - by vm_compute.
  - reflexivity.
  - exact RootVolume.hello_chain.
  - exists fs'. split; [exact H|]. split; [exact Hl|]. apply Hf. right. left.
Defined.

Lemma root_entry_renamed_witness : ∃ fs' e', rename (root_dir RootVolume.volume) RootVolume.hello_name (root_dir RootVolume.volume) RootVolume.new_name RootVolume.volume
    = Ret (Ok tt, fs') ∧ root_entries fs' = [e'] ∧ entry_size (de_data e') = Some 700.
Proof.
  destruct (root_entry_renamed RootVolume.volume RootVolume.hello_name RootVolume.hello_name 0x61 [0x20; 0x62; 0x2E; 0x74; 0x78; 0x74] RootVolume.new_name
    RootVolume.hello [] []) as (fs'&e'&l1&l2&H&_&_&Hnil&Hl&_&Hd&_).
  - exact RootVolume.root_volume_ok.
  - reflexivity.
  - reflexivity.
  - exact RootVolume.volume_entries.
  - by intros x ?%elem_of_nil.
  - by vm_compute.
  - apply RootVolume.no_match. by vm_compute.
  - lia.
  - apply RootVolume.accepted_by_check. by vm_compute.
  - discriminate.
  - exact RootVolume.volume_tidy.
  - by vm_compute.
  - exists fs', e'. split; [exact H|]. symmetry in Hnil. apply app_eq_nil in Hnil as [-> ->]. split; [exact Hl|]. rewrite Hd. reflexivity.
Defined.

Lemma rename_to_invalid_loses_file_witness : ∃ fs', rename (root_dir RootVolume.volume) RootVolume.hello_name (root_dir RootVolume.volume) RootVolume.bad_name RootVolume.volume
    = Ret (Err EUnsupportedFileNameCharacter, fs') ∧ root_entries fs' = [].
Proof.
  destruct (rename_to_invalid_loses_file RootVolume.volume RootVolume.hello_name RootVolume.hello_name 0x61 [0x2A; 0x62] RootVolume.bad_name
    RootVolume.hello [] [] EUnsupportedFileNameCharacter) as (fs'&H&Hl&_).
  - exact RootVolume.root_volume_ok.
  - reflexivity.
  - reflexivity.
  - exact RootVolume.volume_entries.
  - by intros x ?%elem_of_nil.
  - by vm_compute.
  - apply RootVolume.no_match. by vm_compute.
  - lia.
  - reflexivity.
  - exists fs'. split; [exact H|exact Hl].
Defined.
