(* ===== verification/Paths.v ===== *)
(** * Path names of the kernel (kernel/src/file/device/mod.rs)

    Splitting a path into its directory, rid of [.] and [..], and the last name
    ([parse_dir], [split_path_and_file]).  A [str] is the list of its
    characters; a position in it is an offset in bytes of its UTF-8. *)

From S2P Require Import Prelude Bytes DirNames.

Definition DOT : Z := 0x2E.

(** [ROOT_DIR] *)
Definition ROOT_DIR : list Z := [DOT; SLASH].

(** ** Strings by byte offsets *)

(** The characters of an ASCII literal. *)
Definition lit (s : string) : list Z := (λ c, Z.of_N (Ascii.N_of_ascii c)) <$> String.list_ascii_of_string s.

(** [&s[n..]] *)
Fixpoint str_from (s : list Z) (n : Z) : outcome (list Z) :=
  if n =? 0 then Ret s
  else match s with
       | c :: s => if len_utf8 c <=? n then str_from s (n - len_utf8 c) else Panic
       | [] => Panic
       end.

(** [&s[..n]] *)
Fixpoint str_to (s : list Z) (n : Z) : outcome (list Z) :=
  if n =? 0 then Ret []
  else match s with
       | c :: s => if len_utf8 c <=? n then p ← str_to s (n - len_utf8 c); Ret (c :: p) else Panic
       | [] => Panic
       end.

(** [&s[a..b]] *)
Definition str_range (s : list Z) (a b : Z) : outcome (list Z) := s ← str_from s a; str_to s (b - a).

(** [s.find(c)] *)
Fixpoint str_find (c : Z) (s : list Z) : option Z :=
  match s with
  | [] => None
  | x :: s => if x =? c then Some 0 else n ← str_find c s; Some (len_utf8 x + n)
  end.

(** [String::pop] *)
Definition str_pop (s : list Z) : option Z * list Z := (list.last s, take (length s - 1) s).

Definition starts_with (p s : list Z) : bool := bool_decide (take (length p) s = p).
Definition ends_with (c : Z) (s : list Z) : bool := bool_decide (list.last s = Some c).

(** ** [parse_dir] *)

(** [while path.len() > 1 && path.pop() != Some('/') {}]; a turn pops one character. *)
Fixpoint pop_name (fuel : nat) (path : list Z) : list Z :=
  match fuel with
  | O => path
  | S fuel =>
      if 1 <? str_len path then
        let '(c, path) := str_pop path in
        if bool_decide (c ≠ Some SLASH) then pop_name fuel path else path
      else path
  end.

(** The parent of a directory. *)
Definition pop_dir (path : list Z) : list Z :=
  let '(_, path) := str_pop path in
  pop_name (length path) path ++ [SLASH].

(** A turn goes past one [/]; running out of [fuel] counts as a panic. *)
Fixpoint parse_dir_loop (fuel : nat) (path child_path : list Z) (pos : Z) : outcome (list Z * Z) :=
  match fuel with
  | O => Panic
  | S fuel =>
      rest ← str_from child_path pos;
      match str_find SLASH rest with
      | Some new_pos =>
          name ← str_range child_path pos (pos + new_pos);
          path ← (if (new_pos =? 2) && bool_decide (name = [DOT; DOT]) then Ret (pop_dir path)
                  else if (new_pos =? 1) && bool_decide (name = [DOT]) then Ret path
                  else if negb (new_pos =? 0) then
                    name ← str_range child_path pos (pos + new_pos + 1);
                    Ret (path ++ name)
                  else Ret path);
          parse_dir_loop fuel path child_path (pos + (new_pos + 1))
      | None => Ret (path, pos)
      end
  end.

Definition parse_dir (path child_path : list Z) : outcome (list Z * Z) :=
  parse_dir_loop (S (length child_path)) path child_path 0.

(** ** [split_path_and_file] *)

Definition start_pos (dir_name : list Z) : Z :=
  if starts_with ROOT_DIR dir_name then 2 else if starts_with [SLASH] dir_name then 1 else 0.

Definition split_path_and_file (dir_name file_path : list Z) : outcome (option (list Z * list Z)) :=
  if negb (ends_with SLASH dir_name) then Ret None
  else
    dir_name ← str_from dir_name (start_pos dir_name);
    '(dir, _) ← parse_dir ROOT_DIR dir_name;
    '(dir, pos) ← parse_dir dir file_path;
    file ← str_from file_path pos;
    Ret (Some (dir, file)).

(** [FdDir::new]: an open directory keeps its path, with a [/] at the end. *)
Definition fd_dir_new (dir : list Z) : list Z := if ends_with SLASH dir then dir else dir ++ [SLASH].

(** ** Paths given to system calls ([syscall/fs.rs]) *)

Definition AT_FDCWD : Z := -100.

(** [get_dir_from_fd]: [dir] is the current directory of the task and [get_dir]
    the path of an open descriptor, if it is one of a directory. *)
Definition get_dir_from_fd (dir : list Z) (get_dir : Z → option (list Z)) (dir_fd : Z) : option (list Z) :=
  if dir_fd =? AT_FDCWD then Some dir else get_dir (wrap64 dir_fd).

Definition resolve_path_from_fd (dir : list Z) (get_dir : Z → option (list Z)) (dir_fd : Z) (file_path : list Z)
    : outcome (option (list Z * list Z)) :=
  if starts_with [SLASH] file_path then
    if 1 <? str_len file_path then file ← str_from file_path 1; Ret (Some (ROOT_DIR, file))
    else Ret (Some (ROOT_DIR, file_path))
  else
    match get_dir_from_fd dir get_dir dir_fd with
    | Some dir => Ret (Some (dir, file_path))
    | None => Ret None
    end.

(** The directory [sys_chdir] switches to: the new path, and the current one,
    which may get a [/]. *)
Definition chdir_path (dir file_path : list Z) : list Z * list Z :=
  if starts_with [SLASH] file_path then (DOT :: file_path, dir)
  else let dir := fd_dir_new dir in (dir ++ file_path, dir).
