(* ===== verification/PathsSpec.v ===== *)
(** * A split path is the normal form of its names

    [segs] cuts a string at its slashes and [walk] goes through the names with
    a stack; [split_path_and_file] computes the same, never panics, and what it
    returns is a fixed point of it. *)

From S2P Require Import Prelude Bytes DirNames Paths.

(** ** The reference: names and a stack *)

(** The names that end with a slash, and what is behind the last slash. *)
Fixpoint segs (s : list Z) : list (list Z) * list Z :=
  match s with
  | [] => ([], [])
  | c :: s =>
      let '(l, r) := segs s in
      if c =? SLASH then ([] :: l, r)
      else match l with [] => ([], c :: r) | n :: l => ((c :: n) :: l, r) end
  end.

Definition unsegs (l : list (list Z)) : list Z := concat (map (λ n, n ++ [SLASH]) l).

(** Going from a directory, the list of the names from the root, to [n]. *)
Definition step_to (st : list (list Z)) (n : list Z) : list (list Z) :=
  if decide (n = [] ∨ n = [DOT]) then st
  else if decide (n = [DOT; DOT]) then take (length st - 1) st
  else st ++ [n].
Definition walk (st l : list (list Z)) : list (list Z) := foldl step_to st l.

(** The name of a directory in the kernel. *)
Definition dir_path (st : list (list Z)) : list Z := ROOT_DIR ++ unsegs st.

Definition plain (n : list Z) : Prop := (SLASH ∉ n) ∧ n ≠ [] ∧ n ≠ [DOT] ∧ n ≠ [DOT; DOT].

(** ** Byte offsets *)

Lemma len_utf8_pos c : 1 <= len_utf8 c.
Proof. unfold len_utf8. repeat case_match; lia. Qed.

Lemma str_len_nonneg s : 0 <= str_len s.
Proof. induction s as [|c s IH]; simpl; [lia|]. pose proof (len_utf8_pos c). lia. Qed.

Lemma str_len_app s t : str_len (s ++ t) = str_len s + str_len t.
Proof. induction s; simpl; lia. Qed.

Lemma str_from_0 s : str_from s 0 = Ret s.
Proof. by destruct s. Qed.

Lemma str_from_app s t : str_from (s ++ t) (str_len s) = Ret t.
Proof.
  induction s as [|c s IH]; [apply str_from_0|]. cbn [app str_from str_len].
  pose proof (len_utf8_pos c). pose proof (str_len_nonneg s).
  rewrite (proj2 (Z.eqb_neq _ _)), (proj2 (Z.leb_le _ _)) by lia.
  by replace (len_utf8 c + str_len s - len_utf8 c) with (str_len s) by lia.
Qed.

Lemma str_to_app s t : str_to (s ++ t) (str_len s) = Ret s.
Proof.
  induction s as [|c s IH]; [by destruct t|]. cbn [app str_to str_len].
  pose proof (len_utf8_pos c). pose proof (str_len_nonneg s).
  rewrite (proj2 (Z.eqb_neq _ _)), (proj2 (Z.leb_le _ _)) by lia.
  replace (len_utf8 c + str_len s - len_utf8 c) with (str_len s) by lia. by rewrite IH.
Qed.

Lemma str_range_app p s t : str_range (p ++ s ++ t) (str_len p) (str_len p + str_len s) = Ret s.
Proof.
  unfold str_range. rewrite str_from_app. cbn.
  replace (str_len p + str_len s - str_len p) with (str_len s) by lia. apply str_to_app.
Qed.

Lemma str_find_slash n t : SLASH ∉ n → str_find SLASH (n ++ SLASH :: t) = Some (str_len n).
Proof.
  induction n as [|c n IH]; intros Hn; [done|]. apply not_elem_of_cons in Hn as [Hc Hn].
  cbn [app str_find str_len]. rewrite (proj2 (Z.eqb_neq _ _)) by done. by rewrite IH.
Qed.

Lemma str_find_none n : SLASH ∉ n → str_find SLASH n = None.
Proof.
  induction n as [|c n IH]; intros Hn; [done|]. apply not_elem_of_cons in Hn as [Hc Hn].
  cbn [str_find]. rewrite (proj2 (Z.eqb_neq _ _)) by done. by rewrite IH.
Qed.

Lemma str_pop_snoc s c : str_pop (s ++ [c]) = (Some c, s).
Proof.
  unfold str_pop. rewrite last_snoc, length_app. cbn. f_equal.
  replace (length s + 1 - 1)%nat with (length s) by lia. apply take_app_length.
Qed.

(** ** The parent *)

Lemma pop_name_to_slash fuel q n :
  q ≠ [] → SLASH ∉ n → (length n < fuel)%nat → pop_name fuel (q ++ SLASH :: n) = q.
Proof.
  intros Hq. assert (1 <= str_len q).
  { destruct q as [|c q]; [done|]. simpl. pose proof (len_utf8_pos c). pose proof (str_len_nonneg q). lia. }
  revert fuel. induction n as [|c n IH] using rev_ind; intros [|fuel] Hn Hf; try lia; cbn [pop_name].
  - rewrite str_len_app, (proj2 (Z.ltb_lt _ _)) by (cbn; lia). rewrite str_pop_snoc.
    by rewrite bool_decide_false by naive_solver.
  - rewrite length_app in Hf. cbn in Hf. apply not_elem_of_app in Hn as [Hn Hc].
    rewrite list_elem_of_singleton in Hc.
    rewrite str_len_app. cbn [str_len]. pose proof (str_len_nonneg (n ++ [c])).
    rewrite (proj2 (Z.ltb_lt _ _)) by (pose proof (len_utf8_pos SLASH); lia).
    rewrite app_comm_cons, app_assoc, str_pop_snoc, bool_decide_true by naive_solver.
    apply IH; [done|lia].
Qed.

Lemma unsegs_app l k : unsegs (l ++ k) = unsegs l ++ unsegs k.
Proof. unfold unsegs. by rewrite map_app, concat_app. Qed.

Lemma dir_path_snoc st n : dir_path (st ++ [n]) = dir_path st ++ n ++ [SLASH].
Proof. unfold dir_path. rewrite unsegs_app, app_assoc. unfold unsegs. simpl. by rewrite app_nil_r. Qed.

Lemma dir_path_ends st : ∃ q, q ≠ [] ∧ dir_path st = q ++ [SLASH].
Proof.
  destruct st as [|n st _] using rev_ind; [by exists [DOT]|].
  rewrite dir_path_snoc, app_assoc. eexists; split; [|done]. unfold dir_path, ROOT_DIR. done.
Qed.

Lemma pop_dir_path st : Forall (λ n, SLASH ∉ n) st → pop_dir (dir_path st) = dir_path (take (length st - 1) st).
Proof.
  destruct st as [|n st _] using rev_ind; [done|]. intros [Hst Hn]%list.Forall_app.
  apply list.Forall_cons in Hn as [Hn _].
  rewrite length_app. cbn [length]. replace (length st + 1 - 1)%nat with (length st) by lia.
  rewrite take_app_length. rewrite dir_path_snoc, app_assoc. unfold pop_dir. rewrite str_pop_snoc.
  destruct (dir_path_ends st) as (q & Hq & ->).
  rewrite <- app_assoc. cbn [app]. rewrite pop_name_to_slash; [done..|].
  rewrite !length_app. cbn. lia.
Qed.

(** ** [parse_dir] walks *)

Lemma step_to_noslash st n : Forall (λ n, SLASH ∉ n) st → SLASH ∉ n → Forall (λ n, SLASH ∉ n) (step_to st n).
Proof. intros. unfold step_to. repeat case_decide; auto using list.Forall_take. apply list.Forall_app; auto. Qed.

Lemma parse_dir_loop_walk l fuel st pre r :
  Forall (λ n, SLASH ∉ n) st → Forall (λ n, SLASH ∉ n) l → SLASH ∉ r → (length l < fuel)%nat →
  parse_dir_loop fuel (dir_path st) (pre ++ unsegs l ++ r) (str_len pre) =
    Ret (dir_path (walk st l), str_len (pre ++ unsegs l)).
Proof.
  revert fuel st pre. induction l as [|n l IH]; intros [|fuel] st pre Hst Hl Hr Hf; cbn in Hf; try lia;
    cbn [parse_dir_loop]; rewrite str_from_app, bind_Ret.
  - cbn. rewrite str_find_none by done. by rewrite app_nil_r.
  - apply list.Forall_cons in Hl as [Hn Hl].
    change (unsegs (n :: l)) with ((n ++ [SLASH]) ++ unsegs l).
    rewrite <- !app_assoc. cbn [app]. rewrite str_find_slash by done.
    rewrite str_range_app, bind_Ret.
    assert (str_range (pre ++ n ++ SLASH :: unsegs l ++ r) (str_len pre) (str_len pre + str_len n + 1) =
      Ret (n ++ [SLASH])) as Hr2.
    { replace (str_len pre + str_len n + 1) with (str_len pre + str_len (n ++ [SLASH])) by (rewrite str_len_app; cbn; lia).
      rewrite <- (str_range_app pre (n ++ [SLASH]) (unsegs l ++ r)). by rewrite <- !app_assoc. }
    rewrite Hr2. clear Hr2.
    assert ((if (str_len n =? 2) && bool_decide (n = [DOT; DOT]) then Ret (pop_dir (dir_path st))
       else if (str_len n =? 1) && bool_decide (n = [DOT]) then Ret (dir_path st)
       else if negb (str_len n =? 0) then Ret (n ++ [SLASH]) ≫= (λ name, Ret (dir_path st ++ name)) else Ret (dir_path st))
      = Ret (dir_path (step_to st n))) as ->.
    { unfold step_to. destruct (decide (n = [DOT; DOT])) as [->|H2].
      { change (str_len [DOT; DOT] =? 2) with true. cbn [andb]. rewrite bool_decide_true, pop_dir_path by done. by case_decide as Hd; [destruct Hd|]. }
      rewrite (bool_decide_false (n = [DOT; DOT])), andb_false_r by done.
      destruct (decide (n = [DOT])) as [->|H1]; [done|].
      rewrite (bool_decide_false (n = [DOT])), andb_false_r by done.
      destruct n as [|c n]; [done|]. rewrite (proj2 (Z.eqb_neq _ _)).
      2: { simpl. pose proof (len_utf8_pos c). pose proof (str_len_nonneg n). lia. }
      rewrite decide_False by naive_solver. cbn [negb]. rewrite bind_Ret. by rewrite dir_path_snoc. }
    rewrite bind_Ret.
    specialize (IH fuel (step_to st n) (pre ++ n ++ [SLASH])).
    rewrite str_len_app, str_len_app, <- !app_assoc in IH. cbn [str_len app] in IH.
    change (len_utf8 SLASH + 0) with 1 in IH.
    rewrite IH; [|auto using step_to_noslash..|lia]. f_equal.
Qed.

Lemma segs_spec s : s = unsegs (segs s).1 ++ (segs s).2 ∧ Forall (λ n, SLASH ∉ n) (segs s).1 ∧ (SLASH ∉ (segs s).2).
Proof.
  induction s as [|c s (IH & Hl & Hr)]; [split_and!; [done|by apply list.Forall_nil|apply not_elem_of_nil]|]. cbn [segs].
  destruct (segs s) as [l r]; cbn in *. destruct (Z.eqb_spec c SLASH) as [->|Hc].
  - cbn. rewrite <- IH. split_and!; [done| |done]. constructor; [apply not_elem_of_nil|done].
  - destruct l as [|n l]; cbn in *.
    + split_and!; [by rewrite IH|done|]. apply not_elem_of_cons. naive_solver.
    + apply list.Forall_cons in Hl as [Hn Hl]. split_and!; [by rewrite IH| |done].
      constructor; [|done]. apply not_elem_of_cons. naive_solver.
Qed.

Lemma length_segs s : (length (segs s).1 <= length s)%nat.
Proof.
  induction s as [|c s IH]; [done|]. cbn [segs length]. destruct (segs s) as [l r]; cbn in *.
  case_match; [cbn; lia|]. destruct l; cbn in *; lia.
Qed.

Lemma parse_dir_walk st s : Forall (λ n, SLASH ∉ n) st →
  parse_dir (dir_path st) s = Ret (dir_path (walk st (segs s).1), str_len (unsegs (segs s).1)).
Proof.
  intros Hst. destruct (segs_spec s) as (Hs & Hl & Hr). unfold parse_dir.
  pose proof (length_segs s). rewrite Hs at 2. apply (parse_dir_loop_walk (segs s).1 _ st []); [done..|lia].
Qed.

(** ** [split_path_and_file] *)

Lemma walk_app st l k : walk st (l ++ k) = walk (walk st l) k.
Proof. apply foldl_app. Qed.

Lemma walk_noslash l : ∀ st, Forall (λ n, SLASH ∉ n) st → Forall (λ n, SLASH ∉ n) l → Forall (λ n, SLASH ∉ n) (walk st l).
Proof.
  induction l as [|n l IH]; intros st Hst Hl; [done|]. apply list.Forall_cons in Hl as [??].
  apply IH; [by apply step_to_noslash|done].
Qed.

Lemma segs_skip s : ∀ rest, str_from s (start_pos s) = Ret rest → walk [] (segs rest).1 = walk [] (segs s).1.
Proof.
  intros rest. unfold start_pos, starts_with.
  destruct (decide (take (length ROOT_DIR) s = ROOT_DIR)) as [Hs|Hs].
  - rewrite (bool_decide_true _ Hs). destruct s as [|a [|b s]]; try done. cbn in Hs. injection Hs as -> ->.
    cbn [str_from]. change (len_utf8 DOT) with 1. change (len_utf8 SLASH) with 1. cbn. rewrite str_from_0.
    intros [= <-]. by destruct (segs s) as [[|] ?].
  - rewrite (bool_decide_false _ Hs).
    destruct (decide (take (length [SLASH]) s = [SLASH])) as [Hs1|Hs1].
    + rewrite (bool_decide_true _ Hs1). destruct s as [|a s]; [done|]. cbn in Hs1. rewrite take_0 in Hs1. injection Hs1 as ->.
      cbn. rewrite str_from_0. intros [= <-]. by destruct (segs s) as [l ?].
    + rewrite (bool_decide_false _ Hs1), str_from_0. by intros [= <-].
Qed.

Lemma str_from_start s : is_Ret (str_from s (start_pos s)).
Proof.
  unfold start_pos, starts_with.
  destruct (decide (take (length ROOT_DIR) s = ROOT_DIR)) as [Hs|Hs].
  - rewrite (bool_decide_true _ Hs). rewrite <- (take_drop (length ROOT_DIR) s), Hs.
    eexists. apply (str_from_app ROOT_DIR).
  - rewrite (bool_decide_false _ Hs). case_bool_decide as Hs1; [|by eexists; apply str_from_0].
    rewrite <- (take_drop (length [SLASH]) s), Hs1. eexists. apply (str_from_app [SLASH]).
Qed.

(** The names a pair of a directory and a path in it goes through. *)
Definition path_names (dir_name file_path : list Z) : list (list Z) := (segs dir_name).1 ++ (segs file_path).1.

Lemma split_walks dir_name file_path :
  split_path_and_file dir_name file_path =
    Ret (if ends_with SLASH dir_name
         then Some (dir_path (walk [] (path_names dir_name file_path)), (segs file_path).2)
         else None).
Proof.
  unfold split_path_and_file. destruct (ends_with SLASH dir_name); [|done]. cbn [negb].
  destruct (str_from_start dir_name) as [rest Hrest]. rewrite Hrest, bind_Ret.
  change ROOT_DIR with (dir_path []). rewrite parse_dir_walk, bind_Ret by constructor. cbv beta iota.
  rewrite parse_dir_walk, bind_Ret by (apply walk_noslash; [constructor|apply segs_spec]). cbv beta iota.
  destruct (segs_spec file_path) as (Hf & _).
  rewrite Hf at 1. rewrite str_from_app, bind_Ret.
  unfold path_names. by rewrite walk_app, (segs_skip _ _ Hrest).
Qed.

(** C23. Splitting a path never panics and ends; its directory is [./] and the
    names that a walk over all names of the directory and the path, empty
    names, [.] and [..] resolved and [..] staying in the root, ends with; the
    file is what is behind the last slash.  The walk is by a stack of names,
    the code edits one string by byte offsets. *)
Theorem split_path_normalises dir_name file_path :
  split_path_and_file dir_name file_path =
    Ret (if ends_with SLASH dir_name
         then Some (dir_path (walk [] (path_names dir_name file_path)), (segs file_path).2)
         else None).
Proof. apply split_walks. Qed.

(** ** Split paths are a normal form *)

(** The directory of a split path: slash-terminated names from the root, none
    of them empty, [.], [..] or with a slash in it. *)
Definition normal_dir (d : list Z) : Prop := ∃ st, d = dir_path st ∧ Forall plain st.

Lemma step_to_plain st n : Forall plain st → SLASH ∉ n → Forall plain (step_to st n).
Proof.
  intros. unfold step_to. repeat case_decide; auto using list.Forall_take.
  apply list.Forall_app; split; [done|]. constructor; [|done]. unfold plain. naive_solver.
Qed.

Lemma walk_plain l : ∀ st, Forall plain st → Forall (λ n, SLASH ∉ n) l → Forall plain (walk st l).
Proof.
  induction l as [|n l IH]; intros st Hst Hl; [done|]. apply list.Forall_cons in Hl as [??].
  apply IH; [by apply step_to_plain|done].
Qed.

Lemma walk_plain_id l : ∀ st, Forall plain l → walk st l = st ++ l.
Proof.
  induction l as [|n l IH]; intros st Hl; [by rewrite app_nil_r|]. apply list.Forall_cons in Hl as [(?&?&?&?) Hl].
  cbn. rewrite IH by done. unfold step_to. rewrite !decide_False by naive_solver. by rewrite <- app_assoc.
Qed.

Lemma segs_noslash r : SLASH ∉ r → segs r = ([], r).
Proof.
  induction r as [|c r IH]; intros Hr; [done|]. apply not_elem_of_cons in Hr as [Hc Hr].
  cbn. rewrite IH by done. by rewrite (proj2 (Z.eqb_neq _ _)).
Qed.

Lemma segs_name n r : SLASH ∉ n → segs (n ++ SLASH :: r) = (n :: (segs r).1, (segs r).2).
Proof.
  induction n as [|c n IH]; intros Hn.
  - cbn. by destruct (segs r).
  - apply not_elem_of_cons in Hn as [Hc Hn]. cbn. rewrite IH by done. by rewrite (proj2 (Z.eqb_neq _ _)).
Qed.

Lemma segs_unsegs l r : Forall (λ n, SLASH ∉ n) l → SLASH ∉ r → segs (unsegs l ++ r) = (l, r).
Proof.
  intros Hl Hr. induction Hl as [|n l Hn Hl IH]; [by apply segs_noslash|].
  change (unsegs (n :: l)) with ((n ++ [SLASH]) ++ unsegs l). rewrite <- !app_assoc. cbn [app].
  by rewrite segs_name, IH.
Qed.

Lemma plain_noslash st : Forall plain st → Forall (λ n, SLASH ∉ n) st.
Proof. intros H. eapply list.Forall_impl; [exact H|]. by intros n (?&?). Qed.

Lemma ends_with_dir_path st : ends_with SLASH (dir_path st) = true.
Proof.
  destruct (dir_path_ends st) as (q & _ & ->). unfold ends_with. rewrite last_snoc. by apply bool_decide_true.
Qed.

Lemma segs_dir_path st : Forall (λ n, SLASH ∉ n) st → (segs (dir_path st)).1 = [DOT] :: st.
Proof.
  intros Hst. unfold dir_path. change (ROOT_DIR ++ unsegs st) with ([DOT] ++ SLASH :: unsegs st).
  rewrite segs_name by (rewrite list_elem_of_singleton; done). cbn.
  pose proof (segs_unsegs st [] Hst (not_elem_of_nil _)) as Hs. rewrite app_nil_r in Hs. by rewrite Hs.
Qed.

(** Splitting relative to a normal directory. *)
Lemma split_from_dir st file_path : Forall plain st →
  split_path_and_file (dir_path st) file_path = Ret (Some (dir_path (walk st (segs file_path).1), (segs file_path).2)).
Proof.
  intros Hst. rewrite split_walks, ends_with_dir_path. do 3 f_equal. f_equal. unfold path_names.
  rewrite segs_dir_path by auto using plain_noslash. cbn [app].
  change (walk [] ([DOT] :: st ++ (segs file_path).1)) with (walk [] (st ++ (segs file_path).1)).
  by rewrite walk_app, (walk_plain_id st []).
Qed.

Lemma dir_path_inj st st' :
  Forall (λ n, SLASH ∉ n) st → Forall (λ n, SLASH ∉ n) st' → dir_path st = dir_path st' → st = st'.
Proof. intros H1 H2 E. pose proof (segs_dir_path st H1) as E1. rewrite E, segs_dir_path in E1 by done. by injection E1. Qed.

Lemma split_path_is_normal_aux dir_name file_path d f :
  split_path_and_file dir_name file_path = Ret (Some (d, f)) →
  normal_dir d ∧ (SLASH ∉ f) ∧ split_path_and_file d f = Ret (Some (d, f)).
Proof.
  rewrite split_walks. destruct (ends_with SLASH dir_name); [|done]. intros [= <- <-].
  assert (Forall plain (walk [] (path_names dir_name file_path))) as Hst.
  { apply walk_plain; [constructor|]. apply list.Forall_app; split; apply segs_spec. }
  assert (SLASH ∉ (segs file_path).2) as Hf by apply segs_spec.
  split_and!; [by eexists|done|]. rewrite split_from_dir by done. by rewrite (segs_noslash _ Hf).
Qed.

(** C39. What splitting a path returns is of the normal form: the directory is a
    normal one, the file has no slash, and splitting the two again gives them
    back; so the keys of the link tables and of the virtual directories name a
    place in one way only. *)
Theorem split_path_is_normal dir_name file_path d f :
  split_path_and_file dir_name file_path = Ret (Some (d, f)) →
  normal_dir d ∧ (SLASH ∉ f) ∧ split_path_and_file d f = Ret (Some (d, f)).
Proof. apply split_path_is_normal_aux. Qed.

(** The bytes of the path names [./a//b/] and [.././/../../c/x]. *)
Definition w_dir : list Z := [DOT; SLASH; 97; SLASH; SLASH; 98; SLASH].
Definition w_file : list Z := [DOT; DOT; SLASH; DOT; SLASH; SLASH; DOT; DOT; SLASH; DOT; DOT; SLASH; 99; SLASH; 120].

Lemma split_path_is_normal_witness :
  split_path_and_file w_dir w_file = Ret (Some ([DOT; SLASH; 99; SLASH], [120])) ∧
  normal_dir [DOT; SLASH; 99; SLASH] ∧ (SLASH ∉ [120]) ∧
  split_path_and_file [DOT; SLASH; 99; SLASH] [120] = Ret (Some ([DOT; SLASH; 99; SLASH], [120])).
Proof. split; [by vm_compute|]. apply (split_path_is_normal w_dir w_file). by vm_compute. Defined.
