(* ===== verification/Vfs.v ===== *)
(** * Virtual directories (kernel/src/file/vfs/mod.rs, virt_dir.rs)

    The table [VFS_DIRS] of directories by their path, and the directories it
    and their parents refer to.  An [Arc] is an address: a directory is in
    [v_dirs], a file in memory in [v_files], both under the address it was made
    at; what nothing refers to any more is left there. *)

From S2P Require Import Prelude Bytes BitAlloc Addr PageFrame FatIo BaseFile VirtFile DirNames Paths.

(** ** [OpenFlags] (modules/base-file/src/open_flags.rs) *)

Definition O_WRONLY : Z := 2 ^ 0.
Definition O_RDWR : Z := 2 ^ 1.
Definition O_CREATE : Z := 2 ^ 6.
Definition O_EXCL : Z := 2 ^ 9.
Definition O_DSYNC : Z := 2 ^ 16.
Definition O_CLOEXEC : Z := 2 ^ 19.
Definition O_DIR : Z := 2 ^ 21.

Definition has_flags (flags f : Z) : bool := Z.land flags f =? f.

Definition open_read_write (flags : Z) : bool * bool :=
  if flags =? 0 then (true, false) else if has_flags flags O_WRONLY then (false, true) else (true, true).
Definition flags_readable (flags : Z) : bool := negb (has_flags flags O_WRONLY).
Definition flags_writable (flags : Z) : bool := has_flags flags O_WRONLY || has_flags flags O_RDWR.

(** ** Directories *)

(** [Arc<dyn File>] as the entries of a virtual directory hold it. *)
Inductive FileRef := RNull | RZero | RFile (p : Z) | RDir (p : Z).

#[export] Instance FileRef_eq_dec : EqDecision FileRef.
Proof. solve_decision. Defined.

Record VirtDir := mkVirtDir { vd_name : list Z; vd_entry : list (list Z * FileRef) }.

Definition vd_new (name : list Z) : VirtDir := mkVirtDir name [].

(** [self.entry.lock().iter().find(|&e| e.name == *file_name)] *)
Fixpoint find_name (file_name : list Z) (es : list (list Z * FileRef)) : option FileRef :=
  match es with
  | [] => None
  | (n, f) :: es => if decide (n = file_name) then Some f else find_name file_name es
  end.

Definition vd_check_file_exists (d : VirtDir) (file_name : list Z) : bool :=
  match find_name file_name (vd_entry d) with Some _ => true | None => false end.

Definition vd_push (d : VirtDir) (name : list Z) (file : FileRef) : VirtDir :=
  mkVirtDir (vd_name d) (vd_entry d ++ [(name, file)]).

(** [drain_filter] takes out every entry of the name; the first one is returned. *)
Definition vd_remove_file (d : VirtDir) (file_name : list Z) : option FileRef * VirtDir :=
  (snd <$> head (filter (λ e, e.1 = file_name) (vd_entry d)),
   mkVirtDir (vd_name d) (filter (λ e, e.1 ≠ file_name) (vd_entry d))).

(** [VirtDir::create_file] *)
Definition vd_create_file (d : VirtDir) (name : list Z) (file : FileRef) : bool * VirtDir :=
  if vd_check_file_exists d name then (false, d) else (true, vd_push d name file).

(** ** The table *)

Record Vfs := mkVfs {
  vfs_dirs : gmap (list Z) Z;
  v_dirs : gmap Z VirtDir;
  v_files : gmap Z VirtFileInner;
  v_next : Z }.

Implicit Types v : Vfs.

Definition set_dir v (p : Z) (d : VirtDir) : Vfs := mkVfs (vfs_dirs v) (<[p := d]> (v_dirs v)) (v_files v) (v_next v).
Definition set_file v (p : Z) (f : VirtFileInner) : Vfs := mkVfs (vfs_dirs v) (v_dirs v) (<[p := f]> (v_files v)) (v_next v).
Definition set_vfs_dirs v (m : gmap (list Z) Z) : Vfs := mkVfs m (v_dirs v) (v_files v) (v_next v).

(** [Arc::new] *)
Definition new_dir v (d : VirtDir) : Z * Vfs :=
  (v_next v, mkVfs (vfs_dirs v) (<[v_next v := d]> (v_dirs v)) (v_files v) (v_next v + 1)).
Definition new_file v (f : VirtFileInner) : Z * Vfs :=
  (v_next v, mkVfs (vfs_dirs v) (v_dirs v) (<[v_next v := f]> (v_files v)) (v_next v + 1)).

(** [dir.strip_prefix("./")?.strip_suffix("/")?] *)
Definition strip_prefix (p s : list Z) : option (list Z) :=
  if starts_with p s then Some (drop (length p) s) else None.
Definition strip_suffix (c : Z) (s : list Z) : option (list Z) :=
  if ends_with c s then Some (take (length s - 1) s) else None.
Definition vfs_key (dir : list Z) : option (list Z) := s ← strip_prefix ROOT_DIR dir; strip_suffix SLASH s.

(** [VFS_DIRS.lock().get(key)]: the address of the directory. *)
Definition get_virt_dir_if_possible v (dir : list Z) : option Z := key ← vfs_key dir; vfs_dirs v !! key.

(** What the address refers to. *)
Definition virt_dir v (p : Z) : outcome VirtDir := unwrap (v_dirs v !! p).

Definition check_virt_dir_exists v (dir : list Z) : option bool :=
  key ← vfs_key dir; Some (bool_decide (is_Some (vfs_dirs v !! key))).

Definition check_virt_file_exists v (dir file_name : list Z) : outcome (option bool) :=
  match get_virt_dir_if_possible v dir with
  | Some p => d ← virt_dir v p; Ret (Some (vd_check_file_exists d file_name))
  | None => Ret None
  end.

(** [VirtDir::mkdir] on the directory at [p] *)
Definition vd_mkdir v (p : Z) (dir_name : list Z) : outcome (option Z * Vfs) :=
  d ← virt_dir v p;
  if vd_check_file_exists d dir_name then Ret (None, v)
  else
    let '(q, v) := new_dir v (vd_new (vd_name d ++ [SLASH] ++ dir_name)) in
    Ret (Some q, set_dir v p (vd_push d dir_name (RDir q))).

Definition try_make_virt_dir v (p : Z) (new_dir_name : list Z) : outcome (bool * Vfs) :=
  '(r, v) ← vd_mkdir v p new_dir_name;
  match r with
  | Some q => d ← virt_dir v q; Ret (true, set_vfs_dirs v (<[vd_name d := q]> (vfs_dirs v)))
  | None => Ret (false, v)
  end.

(** A removed directory leaves the table too ([get_dir] of the other files is
    [None]). *)
Definition try_remove_virt_file v (dir file_name : list Z) : outcome (option bool * Vfs) :=
  match get_virt_dir_if_possible v dir with
  | None => Ret (None, v)
  | Some p =>
      d ← virt_dir v p;
      let '(r, d) := vd_remove_file d file_name in
      let v := set_dir v p d in
      match r with
      | None => Ret (Some false, v)
      | Some (RDir q) =>
          sub ← virt_dir v q;
          Ret (Some true, set_vfs_dirs v (delete (vd_name sub) (vfs_dirs v)))
      | Some _ => Ret (Some true, v)
      end
  end.

Section vfs.
Context {A : Type} `{BitAlloc A} `{PageFrameConfig}.

(** [File::clear]: only a file in memory has anything to clear. *)
Definition ref_clear v (f : FileRef) : M A Vfs :=
  match f with
  | RFile p => file ← lift_outcome (unwrap (v_files v !! p)); file ← vf_clear file; mret (set_file v p file)
  | _ => mret v
  end.

(** [VirtDir::get_file] on the directory at [p] *)
Definition vd_get_file v (p : Z) (file_name : list Z) (flags : Z) : M A (option FileRef * Vfs) :=
  d ← lift_outcome (virt_dir v p);
  if has_flags flags O_DIR || has_flags flags O_DSYNC || (str_len file_name =? 0) then
    mret (if str_len file_name =? 0 then Some (RDir p) else find_name file_name (vd_entry d), v)
  else
    match find_name file_name (vd_entry d) with
    | Some f =>
        if has_flags flags O_EXCL then mret (None, v)
        else if has_flags flags O_CREATE then v ← ref_clear v f; mret (Some f, v)
        else mret (Some f, v)
    | None =>
        if has_flags flags O_CREATE then
          let '(q, v) := new_file v vf_new in
          mret (Some (RFile q), set_dir v p (vd_push d file_name (RFile q)))
        else mret (None, v)
    end.

Definition get_virt_file_if_possible v (dir file : list Z) (flags : Z) : M A (option FileRef * Vfs) :=
  match get_virt_dir_if_possible v dir with
  | Some p => vd_get_file v p file flags
  | None => mret (None, v)
  end.
End vfs.

(** ** The table at the start: [dev] with [null] and [zero], and [var/tmp] *)

Definition DEV : list Z := [100; 101; 118].
Definition VAR_TMP : list Z := [118; 97; 114; SLASH; 116; 109; 112].
Definition NULL : list Z := [110; 117; 108; 108].
Definition ZERO : list Z := [122; 101; 114; 111].

Definition VFS_DIRS : Vfs :=
  let dev := (vd_create_file (vd_create_file (vd_new DEV) NULL RNull).2 ZERO RZero).2 in
  let '(p, v) := new_dir (mkVfs ∅ ∅ ∅ 0) dev in
  let '(q, v) := new_dir v (vd_new VAR_TMP) in
  set_vfs_dirs v (<[VAR_TMP := q]> (<[DEV := p]> (vfs_dirs v))).

(** ** [NullFile] and [ZeroFile] as files ([null.rs], [zero.rs]) *)

#[export] Instance NullFile_File {W} : File W unit := {|
  file_read _ buf := mret (None, buf);
  file_write _ buf := mret (Some (len buf));
  file_seek _ _ := mret None;
  file_read_from_offset := read_from_offset_default (λ _ buf, mret (None, buf)) (λ _ _, mret None);
  file_write_to_offset := write_to_offset_default (λ _ buf, mret (Some (len buf))) (λ _ _, mret None) |}.

Definition zero_read {W} (_ : unit) (buf : list Z) : M W (option Z * list Z) :=
  mret (Some (len buf), repeat 0 (length buf)).
