(* ===== verification/VfsSpec.v ===== *)
(** * The virtual directories are a map of maps

    The table and the directories it refers to stand for a map from the path of
    a directory to its address and its entries by name; every operation of
    [Vfs] is the one step of [vspec] on that map, and never panics. *)

From S2P Require Import Prelude Bytes BitAlloc BitAllocSpec Addr PageFrame PageFrameSpec FatIo BaseFile VirtFile.
From S2P Require Import DirNames Paths PathsSpec Vfs.

(** ** The specification *)

(** A directory: its address and what its names refer to. *)
Abbreviation Entries := (gmap (list Z) FileRef).
Abbreviation VMap := (gmap (list Z) (Z * Entries)).

Inductive vop :=
| VMkdir (dir n : list Z)
| VRemove (dir n : list Z)
| VFileExists (dir n : list Z)
| VDirExists (dir : list Z)
| VOpen (dir n : list Z) (flags : Z).

Inductive vres := VBool (r : option bool) | VRef (r : option FileRef).

Definition sub_key (k n : list Z) : list Z := k ++ [SLASH] ++ n.

(** [next] is the address of what is made. *)
Definition vspec (next : Z) (m : VMap) (o : vop) : vres * VMap :=
  let at_dir dir := k ← vfs_key dir; '(p, es) ← m !! k; Some (k, p, es) in
  match o with
  | VMkdir dir n =>
      match at_dir dir with
      | Some (k, p, es) =>
          if decide (is_Some (es !! n)) then (VBool (Some false), m)
          else (VBool (Some true), <[sub_key k n := (next, ∅)]> (<[k := (p, <[n := RDir next]> es)]> m))
      | None => (VBool None, m)
      end
  | VRemove dir n =>
      match at_dir dir with
      | Some (k, p, es) =>
          let m' := <[k := (p, delete n es)]> m in
          match es !! n with
          | Some (RDir _) => (VBool (Some true), delete (sub_key k n) m')
          | Some _ => (VBool (Some true), m')
          | None => (VBool (Some false), m)
          end
      | None => (VBool None, m)
      end
  | VFileExists dir n =>
      (VBool ('(k, p, es) ← at_dir dir; Some (bool_decide (is_Some (es !! n)))), m)
  | VDirExists dir => (VBool (k ← vfs_key dir; Some (bool_decide (is_Some (m !! k)))), m)
  | VOpen dir n flags =>
      match at_dir dir with
      | None => (VRef None, m)
      | Some (k, p, es) =>
          if has_flags flags O_DIR || has_flags flags O_DSYNC || bool_decide (n = []) then
            (VRef (if decide (n = []) then Some (RDir p) else es !! n), m)
          else match es !! n with
               | Some f => (VRef (if has_flags flags O_EXCL then None else Some f), m)
               | None =>
                   if has_flags flags O_CREATE then (VRef (Some (RFile next)), <[k := (p, <[n := RFile next]> es)]> m)
                   else (VRef None, m)
               end
      end
  end.

(** The calls of the code. *)
Section run.
Context {A : Type} `{BitAlloc A} `{PageFrameConfig}.

Definition vrun (o : vop) (v : Vfs) : M A (vres * Vfs) :=
  match o with
  | VMkdir dir n =>
      match get_virt_dir_if_possible v dir with
      | Some p => '(b, v) ← lift_outcome (try_make_virt_dir v p n); mret (VBool (Some b), v)
      | None => mret (VBool None, v)
      end
  | VRemove dir n => '(b, v) ← lift_outcome (try_remove_virt_file v dir n); mret (VBool b, v)
  | VFileExists dir n => b ← lift_outcome (check_virt_file_exists v dir n); mret (VBool b, v)
  | VDirExists dir => mret (VBool (check_virt_dir_exists v dir), v)
  | VOpen dir n flags => '(f, v) ← get_virt_file_if_possible v dir n flags; mret (VRef f, v)
  end.
End run.

(** The name the operation is about; the callers get it from
    [split_path_and_file]. *)
Definition op_name (o : vop) : list Z :=
  match o with VMkdir _ n | VRemove _ n | VFileExists _ n | VOpen _ n _ => n | VDirExists _ => [] end.

(** ** The invariant *)

Definition ref_ok (v : Vfs) (d : VirtDir) (e : list Z * FileRef) : Prop :=
  (SLASH ∉ e.1) ∧
  match e.2 with
  | RDir q => ∃ d', v_dirs v !! q = Some d' ∧ vd_name d' = sub_key (vd_name d) e.1
  | RFile q => is_Some (v_files v !! q)
  | _ => True
  end.

Record vfs_ok (v : Vfs) : Prop := {
  (** a path leads to the directory of that name *)
  vo_table : ∀ k p, vfs_dirs v !! k = Some p → ∃ d, v_dirs v !! p = Some d ∧ vd_name d = k;
  vo_names : ∀ p d, v_dirs v !! p = Some d → NoDup (vd_entry d).*1;
  vo_refs : ∀ p d, v_dirs v !! p = Some d → Forall (ref_ok v d) (vd_entry d);
  (** the directories in a directory with a path have one *)
  vo_paths : ∀ k p d n q, vfs_dirs v !! k = Some p → v_dirs v !! p = Some d →
    (n, RDir q) ∈ vd_entry d → vfs_dirs v !! sub_key k n = Some q;
  vo_next : ∀ p, v_next v <= p → v_dirs v !! p = None ∧ v_files v !! p = None }.

Definition vabs (v : Vfs) : VMap :=
  (λ p, (p, list_to_map (vd_entry (default (vd_new []) (v_dirs v !! p))))) <$> vfs_dirs v.

(** ** Names in a list of entries *)

Lemma find_name_map n es : find_name n es = (list_to_map es : Entries) !! n.
Proof.
  induction es as [|[m f] es IH]; [done|]. cbn [find_name]. rewrite list_to_map_cons. case_decide as Hn.
  - subst. by rewrite lookup_insert_eq.
  - by rewrite lookup_insert_ne.
Qed.

Lemma find_name_elem n es f : find_name n es = Some f → (n, f) ∈ es.
Proof. rewrite find_name_map. apply elem_of_list_to_map_2. Qed.

Lemma find_name_none n es : find_name n es = None ↔ n ∉ es.*1.
Proof. rewrite find_name_map. symmetry. apply not_elem_of_list_to_map. Qed.

Lemma vd_exists_map d n :
  vd_check_file_exists d n = bool_decide (is_Some ((list_to_map (vd_entry d) : Entries) !! n)).
Proof.
  unfold vd_check_file_exists. rewrite find_name_map.
  destruct ((list_to_map (vd_entry d) : Entries) !! n); [by rewrite bool_decide_true by eauto|].
  rewrite bool_decide_false; [done|]. by intros [??].
Qed.

Lemma push_map es n f : n ∉ es.*1 →
  (list_to_map (es ++ [(n, f)]) : Entries) = <[n := f]> (list_to_map es).
Proof.
  intros Hn. rewrite list_to_map_app. cbn. apply map_eq. intros i.
  destruct (decide (i = n)) as [->|].
  - rewrite lookup_union_r by (by apply not_elem_of_list_to_map). by rewrite !lookup_insert_eq.
  - rewrite lookup_union, !lookup_insert_ne, lookup_empty by done. by destruct (_ !! i).
Qed.

Lemma drop_name_map es n :
  (list_to_map (filter (λ e : list Z * FileRef, e.1 ≠ n) es) : Entries) = delete n (list_to_map es).
Proof.
  induction es as [|[m f] es IH]; [symmetry; apply delete_empty|]. rewrite filter_cons. case_decide as Hm; cbn [fst] in Hm.
  - rewrite !list_to_map_cons, IH. symmetry. by apply delete_insert_ne.
  - assert (m = n) as -> by (destruct (decide (m = n)); tauto). rewrite list_to_map_cons, IH. symmetry. apply delete_insert_eq.
Qed.

Lemma drop_name_nodup es n : NoDup es.*1 → NoDup (filter (λ e : list Z * FileRef, e.1 ≠ n) es).*1.
Proof.
  induction es as [|e es IH]; intros Hes; [apply NoDup_nil_2|]. rewrite filter_cons. cbn in Hes. apply list.NoDup_cons in Hes as [He Hes].
  case_decide; [|by apply IH]. cbn. apply list.NoDup_cons. split; [|by apply IH].
  intros (e' & E & [_ ?]%(list_elem_of_filter (λ e : list Z * FileRef, e.1 ≠ n)))%list_elem_of_fmap.
  apply He. apply list_elem_of_fmap. eauto.
Qed.

Lemma head_name es n : snd <$> head (filter (λ e : list Z * FileRef, e.1 = n) es) = find_name n es.
Proof.
  induction es as [|[m f] es IH]; [done|]. rewrite filter_cons. cbn [fst find_name].
  case_decide; cbn; [done|apply IH].
Qed.

(** ** Keys *)

Lemma sub_key_inj k n k' n' :
  SLASH ∉ n → SLASH ∉ n' → sub_key k n = sub_key k' n' → k = k' ∧ n = n'.
Proof.
  unfold sub_key. intros Hn Hn' E. cbn in E.
  apply app_eq_inv in E as [([|c t] & -> & E2)|([|c t] & -> & E2)]; cbn in E2; injection E2; intros; subst.
  - by rewrite app_nil_r.
  - exfalso. apply Hn'. apply elem_of_app. right. by left.
  - by rewrite app_nil_r.
  - exfalso. apply Hn. apply elem_of_app. right. by left.
Qed.

Section ok.
Implicit Types v : Vfs.

Lemma vabs_lookup v k :
  vabs v !! k = (λ p, (p, list_to_map (vd_entry (default (vd_new []) (v_dirs v !! p))))) <$> vfs_dirs v !! k.
Proof. apply lookup_fmap. Qed.

(** What is known of a directory of the table. *)
Lemma at_dir v dir p : vfs_ok v → get_virt_dir_if_possible v dir = Some p →
  ∃ k d, vfs_key dir = Some k ∧ vfs_dirs v !! k = Some p ∧ v_dirs v !! p = Some d ∧ vd_name d = k ∧
    vabs v !! k = Some (p, list_to_map (vd_entry d)).
Proof.
  intros Hv Hp. unfold get_virt_dir_if_possible in Hp. destruct (vfs_key dir) as [k|]; [|done]. cbn in Hp.
  destruct (vo_table v Hv k p Hp) as (d & Hd & Hk). exists k, d. split_and!; try done.
  rewrite vabs_lookup, Hp. cbn. by rewrite Hd.
Qed.

Lemma no_dir v dir : get_virt_dir_if_possible v dir = None → (k ← vfs_key dir; vabs v !! k) = None.
Proof.
  unfold get_virt_dir_if_possible. destruct (vfs_key dir) as [k|]; [|done]. cbn. intros Hp.
  by rewrite vabs_lookup, Hp.
Qed.

Lemma table_inj v k k' p : vfs_ok v → vfs_dirs v !! k = Some p → vfs_dirs v !! k' = Some p → k = k'.
Proof.
  intros Hv H1 H2. destruct (vo_table v Hv _ _ H1) as (d & Hd & <-), (vo_table v Hv _ _ H2) as (d' & Hd' & <-). congruence.
Qed.

(** Another directory at the address of [k]. *)
Lemma vabs_set_dir v k p d : vfs_ok v → vfs_dirs v !! k = Some p →
  vabs (set_dir v p d) = <[k := (p, list_to_map (vd_entry d))]> (vabs v).
Proof.
  intros Hv Hp. apply map_eq. intros i. rewrite vabs_lookup. cbn. destruct (decide (i = k)) as [->|Hi].
  - rewrite lookup_insert_eq, Hp. cbn. by rewrite lookup_insert_eq.
  - rewrite lookup_insert_ne, vabs_lookup by done. destruct (vfs_dirs v !! i) as [q|] eqn:Hq; [|done]. cbn.
    rewrite lookup_insert_ne; [done|]. intros <-. by apply Hi, (table_inj v i k p).
Qed.

Lemma vabs_new_dir v d : vfs_ok v → vabs (new_dir v d).2 = vabs v.
Proof.
  intros Hv. apply map_eq. intros i. rewrite !vabs_lookup. cbn. destruct (vfs_dirs v !! i) as [q|] eqn:Hq; [|done]. cbn.
  destruct (vo_table v Hv _ _ Hq) as (d' & Hd & _). rewrite lookup_insert_ne; [done|]. intros <-.
  by rewrite (proj1 (vo_next v Hv (v_next v) ltac:(lia))) in Hd.
Qed.

Lemma vabs_file v p f m : vabs (mkVfs (vfs_dirs v) (v_dirs v) (<[p := f]> (v_files v)) m) = vabs v.
Proof. done. Qed.

Lemma vabs_insert v k q : vabs (set_vfs_dirs v (<[k := q]> (vfs_dirs v))) =
  <[k := (q, list_to_map (vd_entry (default (vd_new []) (v_dirs v !! q))))]> (vabs v).
Proof. unfold vabs at 1. cbn. by rewrite fmap_insert. Qed.

Lemma vabs_delete v k : vabs (set_vfs_dirs v (delete k (vfs_dirs v))) = delete k (vabs v).
Proof. unfold vabs at 1. cbn. by rewrite fmap_delete. Qed.

(** ** The invariant is kept *)

Lemma ref_ok_mono v v' d e :
  (∀ q d', v_dirs v !! q = Some d' → ∃ d'', v_dirs v' !! q = Some d'' ∧ vd_name d'' = vd_name d') →
  (∀ q, is_Some (v_files v !! q) → is_Some (v_files v' !! q)) →
  ref_ok v d e → ref_ok v' d e.
Proof.
  intros H1 H2 [Hn Hr]. split; [done|]. destruct e as [n [| |q|q]]; cbn in *; auto.
  destruct Hr as (d' & Hd' & E). destruct (H1 _ _ Hd') as (d'' & ? & ?). exists d''. split; [done|]. congruence.
Qed.

Lemma fresh_name d n f : NoDup (vd_entry d).*1 → vd_check_file_exists d n = false →
  NoDup (vd_entry (vd_push d n f)).*1.
Proof.
  intros Hd Hn. cbn. rewrite fmap_app. apply list.NoDup_app. split_and!; [done| |by apply NoDup_singleton].
  intros x Hx. cbn. rewrite list_elem_of_singleton. intros ->. unfold vd_check_file_exists in Hn.
  destruct (find_name n (vd_entry d)) eqn:E; [done|]. by apply find_name_none in E.
Qed.

(** A new entry for a file. *)
Lemma ok_push_file v p d n : vfs_ok v → v_dirs v !! p = Some d → vd_check_file_exists d n = false → SLASH ∉ n →
  vfs_ok (set_dir (new_file v vf_new).2 p (vd_push d n (RFile (v_next v)))).
Proof.
  intros Hv Hd Hn Hs. set (v' := set_dir _ _ _).
  assert (∀ q d', v_dirs v !! q = Some d' → ∃ d'', v_dirs v' !! q = Some d'' ∧ vd_name d'' = vd_name d') as Hmono.
  { intros q d' Hq. cbn. destruct (decide (q = p)) as [->|]; [rewrite lookup_insert_eq|rewrite lookup_insert_ne by done; eauto].
    eexists; split; [done|]. cbn. congruence. }
  assert (∀ q, is_Some (v_files v !! q) → is_Some (v_files v' !! q)) as Hfiles.
  { intros q ?. cbn. destruct (decide (q = v_next v)) as [->|]; [rewrite lookup_insert_eq|rewrite lookup_insert_ne by done]; eauto. }
  split.
  - intros k q Hq. destruct (vo_table v Hv _ _ Hq) as (d' & Hd' & <-). destruct (Hmono _ _ Hd') as (d'' & ? & ?). eauto.
  - intros q d' Hq. cbn in Hq. apply lookup_insert_Some in Hq as [[<- <-]|[? Hq]].
    + by apply fresh_name; [apply (vo_names v Hv p)|].
    + by apply (vo_names v Hv q).
  - intros q d' Hq. cbn in Hq. apply lookup_insert_Some in Hq as [[<- <-]|[? Hq]].
    + cbn. apply list.Forall_app. split.
      * eapply list.Forall_impl; [apply (vo_refs v Hv p d Hd)|]. intros e He. by apply (ref_ok_mono v v' d).
      * constructor; [|constructor]. split; [done|]. cbn. rewrite lookup_insert_eq. eauto.
    + eapply list.Forall_impl; [apply (vo_refs v Hv q d' Hq)|]. intros e He. by apply (ref_ok_mono v v' d').
  - intros k q d' n' q' Hk Hq He. cbn in Hk, Hq |- *. apply lookup_insert_Some in Hq as [[<- <-]|[? Hq]].
    + cbn in He. apply elem_of_app in He as [He|He]; [|apply list_elem_of_singleton in He; done].
      by apply (vo_paths v Hv k p d n').
    + by apply (vo_paths v Hv k q d' n').
  - intros q Hq. cbn in Hq |- *. assert (q ≠ p) as Hqp.
    { intros ->. pose proof (proj1 (vo_next v Hv p ltac:(lia))). congruence. }
    rewrite !lookup_insert_ne by lia. apply (vo_next v Hv). lia.
Qed.

Lemma ok_set_file v p f f' : vfs_ok v → v_files v !! p = Some f → vfs_ok (set_file v p f').
Proof.
  intros Hv Hp. split.
  - apply (vo_table v Hv).
  - apply (vo_names v Hv).
  - intros q d Hq. eapply list.Forall_impl; [apply (vo_refs v Hv q d Hq)|]. intros e He.
    eapply ref_ok_mono; [..|exact He]; [eauto|]. intros q' ?. cbn.
    destruct (decide (q' = p)) as [->|]; [rewrite lookup_insert_eq|rewrite lookup_insert_ne by done]; eauto.
  - apply (vo_paths v Hv).
  - intros q Hq. cbn in Hq. split; [by apply (vo_next v Hv)|]. cbn.
    rewrite lookup_insert_ne; [by apply (vo_next v Hv)|]. intros ->.
    pose proof (proj2 (vo_next v Hv q Hq)). congruence.
Qed.

(** [mkdir]: a new directory, its entry and its path. *)
Definition made_dir v (k : list Z) (p : Z) (d : VirtDir) (n : list Z) : Vfs :=
  let '(q, v') := new_dir v (vd_new (sub_key k n)) in
  set_vfs_dirs (set_dir v' p (vd_push d n (RDir q))) (<[sub_key k n := q]> (vfs_dirs v)).

Lemma try_make_virt_dir_eq v k p d n : vfs_ok v → v_dirs v !! p = Some d → vd_name d = k →
  try_make_virt_dir v p n = Ret (if vd_check_file_exists d n then (false, v) else (true, made_dir v k p d n)).
Proof.
  intros Hv Hd <-. assert (v_next v ≠ p) as Hp.
  { intros <-. by rewrite (proj1 (vo_next v Hv (v_next v) ltac:(lia))) in Hd. }
  unfold try_make_virt_dir, vd_mkdir, virt_dir. rewrite Hd. cbn [unwrap]. rewrite bind_Ret.
  destruct (vd_check_file_exists d n); [done|]. cbn. rewrite lookup_insert_ne, lookup_insert_eq by done. done.
Qed.

Lemma ok_made_dir v k p d n : vfs_ok v → vfs_dirs v !! k = Some p → v_dirs v !! p = Some d → vd_name d = k →
  vd_check_file_exists d n = false → SLASH ∉ n → vfs_ok (made_dir v k p d n).
Proof.
  intros Hv Hk Hd <- Hn Hs. set (v' := made_dir _ _ _ _ _). set (q := v_next v).
  assert (v_dirs v !! q = None) as Hq by (apply (vo_next v Hv); unfold q; lia).
  assert (p ≠ q) as Hpq by congruence.
  assert (∀ r d', v_dirs v !! r = Some d' → ∃ d'', v_dirs v' !! r = Some d'' ∧ vd_name d'' = vd_name d') as Hmono.
  { intros r d' Hr. assert (r ≠ q) by congruence. cbn. destruct (decide (r = p)) as [->|].
    - rewrite lookup_insert_eq. eexists; split; [done|]. cbn. congruence.
    - rewrite !lookup_insert_ne by done. eauto. }
  assert (∀ r d', v_dirs v' !! r = Some d' →
      (r = p ∧ d' = vd_push d n (RDir q)) ∨ (r = q ∧ d' = vd_new (sub_key (vd_name d) n)) ∨
      (r ≠ q ∧ v_dirs v !! r = Some d')) as Hdirs.
  { intros r d' Hr. cbn in Hr. apply lookup_insert_Some in Hr as [[<- <-]|[? Hr]]; [by left|].
    apply lookup_insert_Some in Hr as [[<- <-]|[? Hr]]; auto. }
  split.
  - intros k r Hr. cbn in Hr. apply lookup_insert_Some in Hr as [[<- <-]|[? Hr]].
    + cbn. rewrite lookup_insert_ne, lookup_insert_eq by done. eauto.
    + destruct (vo_table v Hv _ _ Hr) as (d' & Hd' & <-). destruct (Hmono _ _ Hd') as (d'' & ? & ?). eauto.
  - intros r d' Hr. destruct (Hdirs _ _ Hr) as [[-> ->]|[[-> ->]|[_ Hr']]].
    + by apply fresh_name; [apply (vo_names v Hv p)|].
    + apply NoDup_nil_2.
    + by apply (vo_names v Hv r).
  - assert (∀ r d', v_dirs v !! r = Some d' → Forall (ref_ok v' d') (vd_entry d')) as Hold.
    { intros r d' Hr. eapply list.Forall_impl; [apply (vo_refs v Hv r d' Hr)|]. intros e He.
      by apply (ref_ok_mono v v' d'). }
    intros r d' Hr. destruct (Hdirs _ _ Hr) as [[-> ->]|[[-> ->]|[_ Hr']]].
    + cbn. apply list.Forall_app. split; [apply (Hold p d Hd)|]. constructor; [|constructor]. split; [done|]. cbn.
      rewrite lookup_insert_ne, lookup_insert_eq by done. eauto.
    + constructor.
    + by apply (Hold r).
  - intros k r d' n' q' Hr Hd' He. cbn in Hr. apply lookup_insert_Some in Hr as [[<- <-]|[Hkr Hr]].
    + destruct (Hdirs _ _ Hd') as [[Hc ->]|[[_ ->]|[Hc _]]]; [done|by apply not_elem_of_nil in He|done].
    + destruct (vo_table v Hv _ _ Hr) as (d0 & Hd0 & Hk0).
      assert (∀ d1, v_dirs v !! r = Some d1 → (n', RDir q') ∈ vd_entry d1 →
        vfs_dirs v' !! sub_key k n' = Some q') as Hold.
      { intros d1 Hd1 He1. cbn. rewrite lookup_insert_ne; [by apply (vo_paths v Hv k r d1 n')|]. intros E.
        pose proof (vo_refs v Hv r d1 Hd1) as Hrefs. rewrite list.Forall_forall in Hrefs.
        destruct (Hrefs _ He1) as [Hs' _]. apply sub_key_inj in E as [E ->]; [|done..].
        assert (r = p) as -> by congruence. assert (d1 = d) as -> by congruence.
        unfold vd_check_file_exists in Hn. destruct (find_name n' (vd_entry d)) eqn:F; [done|].
        apply find_name_none in F. apply F. apply list_elem_of_fmap. by exists (n', RDir q'). }
      destruct (Hdirs _ _ Hd') as [[-> ->]|[[-> ->]|[_ Hr']]].
      * cbn in He. apply elem_of_app in He as [He|He]; [by apply (Hold d)|].
        apply list_elem_of_singleton in He as [= -> ->].
        assert (k = vd_name d) as -> by (by apply (table_inj v k _ p)). cbn. by rewrite lookup_insert_eq.
      * congruence.
      * by apply (Hold d').
  - intros r Hr. cbn in Hr |- *. assert (r ≠ p).
    { intros ->. pose proof (proj1 (vo_next v Hv p ltac:(lia))). congruence. }
    rewrite !lookup_insert_ne by (unfold q in *; lia). apply (vo_next v Hv). lia.
Qed.

Lemma vabs_made_dir v k p d n : vfs_ok v → vfs_dirs v !! k = Some p → v_dirs v !! p = Some d →
  vd_check_file_exists d n = false →
  vabs (made_dir v k p d n) =
    <[sub_key k n := (v_next v, ∅)]> (<[k := (p, <[n := RDir (v_next v)]> (list_to_map (vd_entry d)))]> (vabs v)).
Proof.
  intros Hv Ht Hd Hn. assert (v_dirs v !! v_next v = None) as Hq by (apply (vo_next v Hv); lia).
  assert (v_next v ≠ p) as Hpq by congruence.
  apply map_eq. intros i. rewrite vabs_lookup. cbn. destruct (decide (i = sub_key k n)) as [->|Hi].
  { rewrite !lookup_insert_eq. cbn. by rewrite lookup_insert_ne, lookup_insert_eq. }
  rewrite (lookup_insert_ne (vfs_dirs v)), (lookup_insert_ne (<[k:=_]> _)) by done.
  destruct (decide (i = k)) as [->|Hk].
  { rewrite Ht, lookup_insert_eq. cbn. rewrite lookup_insert_eq. cbn. rewrite push_map; [done|].
    unfold vd_check_file_exists in Hn. destruct (find_name n (vd_entry d)) eqn:F; [done|]. by apply find_name_none in F. }
  rewrite lookup_insert_ne, vabs_lookup by done. destruct (vfs_dirs v !! i) as [r|] eqn:Hr; [|done]. cbn.
  destruct (vo_table v Hv _ _ Hr) as (d' & Hd' & _).
  rewrite !lookup_insert_ne; [done|congruence|]. intros <-. by apply Hk, (table_inj v i k p).
Qed.

(** [remove_file]: the entries of the name go, the path of a directory too. *)
Lemma ok_removed v k p d n f : vfs_ok v → vfs_dirs v !! k = Some p → v_dirs v !! p = Some d → vd_name d = k →
  find_name n (vd_entry d) = Some f →
  vfs_ok (set_vfs_dirs (set_dir v p (vd_remove_file d n).2)
    (match f with RDir _ => delete (sub_key k n) (vfs_dirs v) | _ => vfs_dirs v end)).
Proof.
  intros Hv Hk Hd <- Hf. set (v' := set_vfs_dirs _ _). set (es := vd_entry (vd_remove_file d n).2).
  assert (∀ e, e ∈ es ↔ e.1 ≠ n ∧ e ∈ vd_entry d) as Hes by (intros e; apply (list_elem_of_filter (λ e : list Z * FileRef, e.1 ≠ n))).
  assert (∀ r d', v_dirs v !! r = Some d' → ∃ d'', v_dirs v' !! r = Some d'' ∧ vd_name d'' = vd_name d') as Hmono.
  { intros r d' Hr. cbn. destruct (decide (r = p)) as [->|]; [rewrite lookup_insert_eq|rewrite lookup_insert_ne by done; eauto].
    eexists; split; [done|]. cbn. congruence. }
  assert (∀ r d', v_dirs v' !! r = Some d' → ∃ d0, v_dirs v !! r = Some d0 ∧ vd_name d' = vd_name d0 ∧
      NoDup (vd_entry d').*1 ∧ ∀ e, e ∈ vd_entry d' → e ∈ vd_entry d0 ∧ (r = p → e.1 ≠ n)) as Hdirs.
  { intros r d' Hr. cbn in Hr. apply lookup_insert_Some in Hr as [[<- <-]|[? Hr]].
    - exists d. split_and!; [done..| |].
      + apply drop_name_nodup, (vo_names v Hv p d Hd).
      + intros e [He1 He2]%Hes. auto.
    - exists d'. split_and!; [done..|by apply (vo_names v Hv r)|]. intros e He. split; [done|]. by intros ->. }
  assert (∀ k' r, vfs_dirs v' !! k' = Some r → vfs_dirs v !! k' = Some r) as Htab.
  { intros k' r. cbn. destruct f; try done. intros [_ ?]%lookup_delete_Some. done. }
  split.
  - intros k r Hr%Htab. destruct (vo_table v Hv _ _ Hr) as (d' & Hd' & <-). destruct (Hmono _ _ Hd') as (d'' & ? & ?). eauto.
  - intros r d' Hr. by destruct (Hdirs _ _ Hr) as (d0 & ? & ? & ? & ?).
  - intros r d' Hr. destruct (Hdirs _ _ Hr) as (d0 & Hd0 & En & _ & He). apply list.Forall_forall. intros e Hin.
    pose proof (vo_refs v Hv r d0 Hd0) as Hrefs. rewrite list.Forall_forall in Hrefs.
    destruct (ref_ok_mono v v' d0 e Hmono (λ q H, H) (Hrefs e (proj1 (He e Hin)))) as [Hs1 Hs2].
    split; [done|]. by rewrite En.
  - intros k r d' n' q' Hr Hd' He. pose proof (Htab _ _ Hr) as Hr0.
    destruct (Hdirs _ _ Hd') as (d0 & Hd0 & _ & _ & Hin). destruct (Hin _ He) as [He0 Hne].
    pose proof (vo_paths v Hv k r d0 n' q' Hr0 Hd0 He0) as Hq. cbn.
    assert (sub_key (vd_name d) n ≠ sub_key k n') as Hsub; [|destruct f; [done..|by rewrite lookup_delete_ne]].
    pose proof (vo_refs v Hv) as Hrefs. intros E.
    pose proof (Hrefs r d0 Hd0) as H1. rewrite list.Forall_forall in H1. destruct (H1 _ He0) as [Hs1 _].
    pose proof (Hrefs p d Hd) as H2. rewrite list.Forall_forall in H2. destruct (H2 _ (find_name_elem _ _ _ Hf)) as [Hs2 _].
    apply sub_key_inj in E as [<- E2]; [|done..]. apply Hne; [|done]. congruence.
  - intros r Hr. cbn in Hr |- *. rewrite lookup_insert_ne; [by apply (vo_next v Hv)|]. intros <-.
    pose proof (proj1 (vo_next v Hv _ Hr)). congruence.
Qed.
End ok.

Lemma drop_name_id es n : n ∉ es.*1 → filter (λ e : list Z * FileRef, e.1 ≠ n) es = es.
Proof.
  induction es as [|e es IH]; intros Hn; [done|]. cbn in Hn. apply not_elem_of_cons in Hn as [He Hn].
  rewrite filter_cons, decide_True by done. by rewrite IH.
Qed.

Lemma set_dir_id v p d : v_dirs v !! p = Some d → set_dir v p d = v.
Proof. intros Hp. destruct v. unfold set_dir. cbn in *. by rewrite insert_id. Qed.

Lemma str_len_nil s : (str_len s =? 0) = bool_decide (s = []).
Proof.
  destruct s as [|c s]; [done|]. rewrite bool_decide_false by done. apply Z.eqb_neq. cbn.
  pose proof (len_utf8_pos c). pose proof (str_len_nonneg s). lia.
Qed.

Section refinement.
Context {A : Type} `{BitAlloc A} `{PageFrameConfig}.
Implicit Types (v : Vfs) (a : A).

(** [o] goes to a result and a state that the specification has too. *)
Definition simulates (o : vop) v a : Prop :=
  ∃ r v' a', vrun o v a = Ret ((r, v'), a') ∧ vspec (v_next v) (vabs v) o = (r, vabs v') ∧ vfs_ok v'.

Lemma spec_at {B} v (dir k : list Z) (p : Z) (d : VirtDir) (f : list Z * Z * Entries → B) (g : B) : 
  vfs_key dir = Some k → vabs v !! k = Some (p, list_to_map (vd_entry d)) →
  (match (k ← vfs_key dir; '(p, es) ← vabs v !! k; Some (k, p, es)) with Some x => f x | None => g end) =
  f (k, p, list_to_map (vd_entry d)).
Proof. intros -> E. cbn. by rewrite E. Qed.

Lemma spec_none {B} v (dir : list Z) (f : list Z * Z * Entries → B) (g : B) : 
  get_virt_dir_if_possible v dir = None →
  (match (k ← vfs_key dir; '(p, es) ← vabs v !! k; Some (k, p, es)) with Some x => f x | None => g end) = g.
Proof. intros Hp%no_dir. destruct (vfs_key dir); [|done]. cbn in *. by rewrite Hp. Qed.

Lemma lift_outcome_Ret {R S} (x : R) (f : R → M A S) : (lift_outcome (Ret x) ≫= f) = f x.
Proof. reflexivity. Qed.

Lemma mkdir_simulates v a (dir n : list Z) : vfs_ok v → SLASH ∉ n → simulates (VMkdir dir n) v a.
Proof.
  intros Hv Hn. unfold simulates. cbn [vrun vspec].
  destruct (get_virt_dir_if_possible v dir) as [p|] eqn:Hp.
  2: { rewrite spec_none by done. eexists _, _, _. split_and!; done. }
  destruct (at_dir v dir p Hv Hp) as (k & d & Hk & Ht & Hd & Hname & Habs).
  rewrite (spec_at _ _ _ _ _ _ _ Hk Habs).
  unfold lift_outcome. rewrite (try_make_virt_dir_eq v k p d n) by done. rewrite vd_exists_map.
  destruct (decide (is_Some ((list_to_map (vd_entry d) : Entries) !! n))) as [Hex|Hex].
  - rewrite bool_decide_true by done. eexists _, _, _. split_and!; done.
  - assert (vd_check_file_exists d n = false) as Hfresh by (by rewrite vd_exists_map, bool_decide_false).
    rewrite bool_decide_false by done. eexists _, _, _. split_and!; [done| |by apply ok_made_dir].
    f_equal. symmetry. by apply vabs_made_dir.
Qed.

Lemma remove_simulates v a (dir n : list Z) : vfs_ok v → simulates (VRemove dir n) v a.
Proof.
  intros Hv. unfold simulates. cbn [vrun vspec]. unfold lift_outcome, try_remove_virt_file.
  destruct (get_virt_dir_if_possible v dir) as [p|] eqn:Hp.
  2: { rewrite spec_none by done. eexists _, _, _. split_and!; done. }
  destruct (at_dir v dir p Hv Hp) as (k & d & Hk & Ht & Hd & Hname & Habs).
  rewrite (spec_at _ _ _ _ _ _ _ Hk Habs). unfold virt_dir. rewrite Hd. cbn [unwrap vd_remove_file].
  rewrite bind_Ret, head_name, <- find_name_map. destruct (find_name n (vd_entry d)) as [f|] eqn:Hf.
  - pose proof (ok_removed v k p d n f Hv Ht Hd Hname Hf) as Hok.
    pose proof (vabs_set_dir v k p (vd_remove_file d n).2 Hv Ht) as Hset. cbn [vd_remove_file snd vd_entry] in Hset.
    rewrite drop_name_map in Hset.
    destruct f as [| |q|q]; [eexists _, _, _; split_and!; [done|by rewrite Hset|exact Hok]..|].
    pose proof (vo_refs v Hv p d Hd) as Hrefs. rewrite list.Forall_forall in Hrefs.
    destruct (Hrefs _ (find_name_elem _ _ _ Hf)) as [_ (sub & Hsub & Esub)]. cbn in Hsub, Esub.
    assert (∃ sub', v_dirs (set_dir v p (vd_remove_file d n).2) !! q = Some sub' ∧ vd_name sub' = sub_key k n) as (sub' & Hsub' & Esub').
    { cbn. destruct (decide (q = p)) as [->|]; [rewrite lookup_insert_eq|rewrite lookup_insert_ne by done].
      - eexists; split; [done|]. cbn. congruence.
      - exists sub. split; [done|]. congruence. }
    cbn [vd_remove_file snd] in Hsub', Hok. rewrite Hsub'. cbn [unwrap]. rewrite bind_Ret, Esub'.
    eexists _, _, _. split_and!; [done| |exact Hok]. rewrite vabs_delete, Hset. done.
  - eexists _, _, _. apply find_name_none in Hf. rewrite drop_name_id by done.
    replace (mkVirtDir (vd_name d) (vd_entry d)) with d by (by destruct d).
    rewrite set_dir_id by done. split_and!; done.
Qed.

Lemma open_simulates v a (dir n : list Z) flags : vfs_ok v → SLASH ∉ n →
  (∀ (p : Z) f, v_files v !! p = Some f → is_Ret (vf_clear f a)) → simulates (VOpen dir n flags) v a.
Proof.
  intros Hv Hn Hclear. unfold simulates. cbn [vrun vspec]. unfold get_virt_file_if_possible.
  destruct (get_virt_dir_if_possible v dir) as [p|] eqn:Hp.
  2: { rewrite spec_none by done. eexists _, _, _. split_and!; done. }
  destruct (at_dir v dir p Hv Hp) as (k & d & Hk & Ht & Hd & Hname & Habs).
  rewrite (spec_at _ _ _ _ _ _ _ Hk Habs). unfold vd_get_file, virt_dir. rewrite Hd. cbn [unwrap].
  rewrite lift_outcome_Ret. cbv beta. rewrite str_len_nil, <- find_name_map.
  destruct (has_flags flags O_DIR || has_flags flags O_DSYNC || bool_decide (n = [])) eqn:Hdir.
  { eexists _, _, _. split_and!; [done| |done]. destruct (decide (n = [])) as [Hn'|Hn'];
      [by rewrite (bool_decide_true _ Hn')|by rewrite (bool_decide_false _ Hn')]. }
  destruct (find_name n (vd_entry d)) as [f|] eqn:Hf.
  - destruct (has_flags flags O_EXCL); [eexists _, _, _; split_and!; done|].
    destruct (has_flags flags O_CREATE); [|eexists _, _, _; split_and!; done].
    destruct f as [| |q|q]; try (eexists _, _, _; split_and!; done).
    pose proof (vo_refs v Hv p d Hd) as Hrefs. rewrite list.Forall_forall in Hrefs.
    destruct (Hrefs _ (find_name_elem _ _ _ Hf)) as [_ [file Hfile]]. cbn in Hfile.
    destruct (Hclear q file Hfile) as [[file' a'] Hc]. cbn [ref_clear]. rewrite Hfile. cbn [unwrap]. rewrite lift_outcome_Ret.
    unfold mbind, M_bind. rewrite Hc. eexists _, _, _. split_and!; [done|done|]. by eapply ok_set_file.
  - destruct (has_flags flags O_CREATE); [|eexists _, _, _; split_and!; done].
    assert (vd_check_file_exists d n = false) as Hfresh by (unfold vd_check_file_exists; by rewrite Hf).
    eexists _, _, _. split_and!; [done| |by apply (ok_push_file v p d n)].
    f_equal. symmetry. rewrite find_name_none in Hf. rewrite <- push_map by done.
    exact (vabs_set_dir v k p (vd_push d n (RFile (v_next v))) Hv Ht).
Qed.

Lemma simulates_ok o v a : vfs_ok v → SLASH ∉ op_name o →
  (∀ (p : Z) f, v_files v !! p = Some f → is_Ret (vf_clear f a)) → simulates o v a.
Proof.
  intros Hv Hn Hc. destruct o as [dir n|dir n|dir n|dir|dir n flags].
  - by apply mkdir_simulates.
  - by apply remove_simulates.
  - unfold simulates. cbn [vrun vspec]. unfold check_virt_file_exists.
    destruct (get_virt_dir_if_possible v dir) as [p|] eqn:Hp.
    + destruct (at_dir v dir p Hv Hp) as (k & d & Hk & Ht & Hd & Hname & Habs). unfold virt_dir. rewrite Hd.
      cbn [unwrap]. rewrite bind_Ret, lift_outcome_Ret. eexists _, _, _. split_and!; [done| |done].
      rewrite Hk. cbn. rewrite Habs. cbn. by rewrite vd_exists_map.
    + eexists _, _, _. split_and!; [done| |done]. pose proof (no_dir v dir Hp) as Hno.
      destruct (vfs_key dir); [|done]. cbn in *. by rewrite Hno.
  - unfold simulates. cbn [vrun vspec]. eexists _, _, _. split_and!; [done| |done]. unfold check_virt_dir_exists.
    destruct (vfs_key dir) as [k|]; [|done]. cbn. rewrite vabs_lookup.
    do 3 f_equal. apply bool_decide_ext. by rewrite fmap_is_Some.
  - by apply open_simulates.
Qed.
End refinement.

(** The table at the start is as it should be. *)
Lemma vfs_ok_boot : vfs_ok VFS_DIRS.
Proof.
  assert (∀ p d, v_dirs VFS_DIRS !! p = Some d → (p = 0 ∧ d = mkVirtDir DEV [(NULL, RNull); (ZERO, RZero)]) ∨
      (p = 1 ∧ d = vd_new VAR_TMP)) as Hdirs.
  { intros p d Hp. change (v_dirs VFS_DIRS) with (<[1 := vd_new VAR_TMP]> (<[0 := mkVirtDir DEV [(NULL, RNull); (ZERO, RZero)]]> (∅ : gmap Z VirtDir))) in Hp.
    apply lookup_insert_Some in Hp as [[<- <-]|[_ Hp]]; [by right|].
    apply lookup_insert_Some in Hp as [[<- <-]|[_ Hp]]; [by left|]. by apply lookup_empty_Some in Hp. }
  split.
  - intros k p Hp. change (vfs_dirs VFS_DIRS) with (<[VAR_TMP := 1]> (<[DEV := 0]> (∅ : gmap (list Z) Z))) in Hp.
    apply lookup_insert_Some in Hp as [[<- <-]|[_ Hp]]; [by exists (vd_new VAR_TMP)|].
    apply lookup_insert_Some in Hp as [[<- <-]|[_ Hp]]; [by eexists|]. by apply lookup_empty_Some in Hp.
  - intros p d [[-> ->]|[-> ->]]%Hdirs; by apply (bool_decide_unpack _).
  - intros p d [[-> ->]|[-> ->]]%Hdirs; repeat constructor; cbn; by apply (bool_decide_unpack _).
  - intros k p d n q _ [[-> ->]|[-> ->]]%Hdirs; cbn; [|by intros ?%not_elem_of_nil].
    intros [[= _]|[[= _]|Hn%not_elem_of_nil]%elem_of_cons]%elem_of_cons. done.
  - intros p Hp. cbn in Hp. split; [|apply lookup_empty].
    destruct (v_dirs VFS_DIRS !! p) eqn:E; [|done]. destruct (Hdirs _ _ E) as [[-> _]|[-> _]]; lia.
Qed.

(** C34. The virtual directories, [VFS_DIRS] and the objects it refers to, are a
    map from the path of a directory to its entries by name: making and removing
    an entry, the two checks and opening return without a panic what the map
    says and change it as the map's operation does, from the table at the start
    on; so an entry is where it was put, and nothing else changes. *)
Theorem virtual_dirs_are_a_map {A} `{BitAlloc A} `{PageFrameConfig} :
  vfs_ok VFS_DIRS ∧
  ∀ (v : Vfs) (a : A) o, vfs_ok v → (SLASH ∉ op_name o) →
    (∀ (p : Z) f, v_files v !! p = Some f → is_Ret (vf_clear f a)) →
    ∃ r v' a', vrun o v a = Ret ((r, v'), a') ∧ vspec (v_next v) (vabs v) o = (r, vabs v') ∧ vfs_ok v'.
Proof. split; [apply vfs_ok_boot|]. intros. by apply simulates_ok. Qed.

Section at_boot.
Import Machine.

(** [mkdir ./dev/x] at the start. *)
Lemma virtual_dirs_are_a_map_witness :
  ∃ r v' a', vrun (A := Tower 0) (VMkdir [DOT; SLASH; 100; 101; 118; SLASH] [120]) VFS_DIRS machine_alloc = Ret ((r, v'), a') ∧
    vspec 2 (vabs VFS_DIRS) (VMkdir [DOT; SLASH; 100; 101; 118; SLASH] [120]) = (r, vabs v') ∧ r = VBool (Some true).
Proof.
  destruct (virtual_dirs_are_a_map (A := Tower 0)) as [Hboot Hstep].
  destruct (Hstep VFS_DIRS machine_alloc (VMkdir [DOT; SLASH; 100; 101; 118; SLASH] [120]) Hboot) as (r & v' & a' & E1 & E2 & _).
  - apply (bool_decide_unpack _). by vm_compute.
  - intros p f Hp. change (v_files VFS_DIRS) with (∅ : gmap Z VirtFileInner) in Hp. by apply lookup_empty_Some in Hp.
  - exists r, v', a'. split_and!; [exact E1|exact E2|]. assert (fst (r, vabs v') = VBool (Some true)) as Hr; [|exact Hr].
    rewrite <- E2. by vm_compute.
Defined.
End at_boot.

(** Removing a directory takes its own path only: the directories in it stay
    in the table, and what is in them can still be opened. *)
Lemma removed_dir_leaves_subdirs (next : Z) (m : VMap) (dir k : list Z) (p : Z) (es : Entries) (n : list Z) (q : Z) (n' : list Z) :
  vfs_key dir = Some k → m !! k = Some (p, es) → es !! n = Some (RDir q) →
  is_Some (m !! sub_key (sub_key k n) n') → sub_key (sub_key k n) n' ≠ k →
  is_Some ((vspec next m (VRemove dir n)).2 !! sub_key (sub_key k n) n') ∧
  (vspec next m (VRemove dir n)).2 !! sub_key k n = None.
Proof.
  intros Hk Hm Hes Hsub Hne. cbn. rewrite Hk. cbn. rewrite Hm. cbn. rewrite Hes. cbn.
  assert (sub_key k n ≠ sub_key (sub_key k n) n') as Hne2.
  { intros E. apply (f_equal length) in E. unfold sub_key in E. rewrite !length_app in E. cbn in E. lia. }
  split; [by rewrite lookup_delete_ne, lookup_insert_ne|]. apply lookup_delete_eq.
Qed.

(** [mkdir("/dev/")]: behind the slash there is no name, and a directory with
    the empty name is made in [dev]. *)
Lemma mkdir_of_no_name_succeeds :
  (vspec 2 (vabs VFS_DIRS) (VMkdir (lit "./dev/") [])).1 = VBool (Some true).
Proof. by vm_compute. Qed.
