(* ===== verification/FileNs.v ===== *)
(** * Files by name (kernel/src/file/device/mod.rs, link.rs)

    The kernel's view of its one FAT volume ([MEMORY_FS]) and the virtual
    directories: opening, checking, making, removing and renaming by path, the
    tables of hard links above both, and the list of mounted devices. *)

From S2P Require Import Prelude Bytes BitAlloc Addr PageFrame FatIo FatTime FatTable DirEntry BootSector FatFs DiskFile.
From S2P Require Import DirNames Dir.
From S2P Require BaseFile FatFile.
From S2P Require Import VirtFile Errors Paths Vfs.

(** A file by its split path, the keys and values of the link tables. *)
Record FileDisc := mkDisc { disc_path : list Z; disc_file : list Z }.

#[export] Instance FileDisc_eq_dec : EqDecision FileDisc.
Proof. solve_decision. Defined.

#[export] Instance FileDisc_countable : Countable FileDisc.
Proof.
  refine (inj_countable' (λ d, (disc_path d, disc_file d)) (λ '(p, f), mkDisc p f) _). by intros [].
Defined.

(** [MountedFs] *)
Record MountedFs := mkMounted { mfs_device : list Z; mfs_mnt_dir : list Z }.

Section names.
Context {D : Type} `{Stream D} {TP : TimeProvider}.
Context {A : Type} `{BitAlloc A} `{PageFrameConfig}.

(** The state: [MEMORY_FS], the virtual directories with the frame allocator,
    [LINK_PATH_MAP], [LINK_COUNT_MAP] and [MOUNTED]. *)
Record Kfs := mkKfs {
  k_fat : FileSystem D;
  k_vfs : Vfs;
  k_mem : A;
  k_link : gmap FileDisc FileDisc;
  k_count : gmap FileDisc Z;
  k_mounted : list MountedFs }.

Definition set_links (w : Kfs) link count : Kfs := mkKfs (k_fat w) (k_vfs w) (k_mem w) link count (k_mounted w).
Definition set_mounted (w : Kfs) l : Kfs := mkKfs (k_fat w) (k_vfs w) (k_mem w) (k_link w) (k_count w) l.

(** ** Calls on the parts *)

Definition gets {R} (f : Kfs → R) : M Kfs R := λ w, Ret (f w, w).
Definition lift_o {R} (o : outcome R) : M Kfs R := λ w, r ← o; Ret (r, w).

(** A call of the FAT driver, whose result the caller looks at; one that must
    not fail. *)
Definition fat {R} (x : FM (FileSystem D) R) : M Kfs (result R) := λ w,
  '(r, fs) ← x (k_fat w); Ret (r, mkKfs fs (k_vfs w) (k_mem w) (k_link w) (k_count w) (k_mounted w)).
Definition fat_unwrap {R} (x : FM (FileSystem D) R) : M Kfs R :=
  r ← fat x; match r with Ok a => mret a | Err _ => λ _, Panic end.

Definition on_vfs {R} (f : Vfs → outcome (R * Vfs)) : M Kfs R := λ w,
  '(r, v) ← f (k_vfs w); Ret (r, mkKfs (k_fat w) v (k_mem w) (k_link w) (k_count w) (k_mounted w)).
Definition on_vfs_mem {R} (f : Vfs → M A (R * Vfs)) : M Kfs R := λ w,
  '(r, v, a) ← f (k_vfs w) (k_mem w); Ret (r, mkKfs (k_fat w) v a (k_link w) (k_count w) (k_mounted w)).

(** An open [Dir] of the driver goes out of scope. *)
Definition drop_dir (d : Dir) : M Kfs unit := fat_unwrap (λ fs, fs ← drop_stream (dir_stream d fs); Ret (Ok tt, fs)).

(** [MEMORY_FS.root_dir()] *)
Definition memory_root : M Kfs Dir := gets (λ w, root_dir (k_fat w)).

(** ** Links and paths *)

Definition parse_file_name (p : list Z * list Z) : M Kfs (list Z * list Z) :=
  gets (λ w, match k_link w !! mkDisc p.1 p.2 with
             | Some disc => (disc_path disc, disc_file disc)
             | None => p
             end).

Definition map_path_and_file (dir_name file_path : list Z) : M Kfs (option (list Z * list Z)) :=
  r ← lift_o (split_path_and_file dir_name file_path);
  match r with Some p => p ← parse_file_name p; mret (Some p) | None => mret None end.

(** [split_path_and_file(..).map(..).map(parse_file_name)] *)
Definition split_and_parse := map_path_and_file.

(** It takes [root] and drops it if it returns another directory. *)
Definition inner_open_dir (root : Dir) (dir_name : list Z) : M Kfs (option Dir) :=
  if decide (dir_name = ROOT_DIR) then mret (Some root)
  else
    path ← lift_o (str_from dir_name 2);
    r ← fat (open_dir root path);
    _ ← drop_dir root;
    mret (match r with Ok dir => Some dir | Err _ => None end).

(** The first entry of the name, comparing names exactly. *)
Fixpoint iter_find {S} `{Stream S} {AP : AbsPos S} (fuel rounds : nat) (name : list Z) : FM S (option DirEntry) :=
  match rounds with
  | O => fpanic
  | Datatypes.S rounds =>
      r ← catch (read_dir_entry fuel true) (λ _, fpanic);
      match r with
      | None => mret None
      | Some file => if decide (file_name file = name) then mret (Some file) else iter_find fuel rounds name
      end
  end.

Definition find_in_dir (dir : Dir) (name : list Z) : M Kfs (option DirEntry) :=
  fat_unwrap (fs ← this; on_clone dir (iter_find (dir_fuel fs) (dir_fuel fs) name)).

(** ** Checks *)

Definition check_file_exists (dir_name file_path : list Z) : M Kfs bool :=
  root ← memory_root;
  r ← map_path_and_file dir_name file_path;
  match r with
  | None => _ ← drop_dir root; mret false
  | Some (real_dir, file_name) =>
      e ← on_vfs (λ v, e ← check_virt_file_exists v real_dir file_name; Ret (e, v));
      match e with
      | Some ex => _ ← drop_dir root; mret ex
      | None =>
          d ← inner_open_dir root real_dir;
          match d with
          | None => mret false
          | Some dir =>
              file ← find_in_dir dir file_name;
              _ ← drop_dir dir;
              mret (match file with Some file => negb (entry_is_dir (de_data file)) | None => false end)
          end
      end
  end.

Definition check_dir_exists (dir_name : list Z) : M Kfs bool :=
  root ← memory_root;
  let dir_name := fd_dir_new dir_name in
  r ← map_path_and_file dir_name [];
  '(dir_name, _) ← lift_o (unwrap r);
  e ← gets (λ w, check_virt_dir_exists (k_vfs w) dir_name);
  if decide (e = Some true) then _ ← drop_dir root; mret true
  else
    d ← inner_open_dir root dir_name;
    match d with
    | Some dir => _ ← drop_dir dir; mret true
    | None => mret false
    end.

(** ** Opening *)

(** What [open_file] returns: a file of a virtual directory, the path of a
    directory ([FdDir]), or a file of the volume ([FatFile]: the driver's file,
    which refers to the volume, and how it was opened). *)
Inductive OpenFile :=
| OVirt (f : FileRef)
| ODir (dir : list Z)
| OFat (self : FatFile.FatFile) (dir name : list Z) (flags : Z) (file : FileSystem D → File D).

(** A call on an open file of the volume; the file after it. *)
Definition on_file_of {R} (file : FileSystem D → File D) (x : M (File D) R) : M Kfs (R * (FileSystem D → File D)) := λ w,
  '(r, f) ← x (file (k_fat w));
  Ret (r, λ fs, mkFile (first_cluster f) (current_cluster f) (f_offset f) (f_entry f) fs,
       mkKfs (f_fs f) (k_vfs w) (k_mem w) (k_link w) (k_count w) (k_mounted w)).

(** Dropping an open file flushes it. *)
Definition drop_file (file : FileSystem D → File D) : M Kfs unit :=
  '(_, _) ← on_file_of file (λ f, '(_, f) ← file_flush f; Ret (tt, f)); mret tt.

(** [fat_file.seek(Start(0)).unwrap(); file.truncate().unwrap()] *)
Definition empty_file (file : FileSystem D → File D) : M Kfs (FileSystem D → File D) :=
  '(_, file) ← on_file_of file (
    r ← FatFile.fat_seek (SStart 0);
    _ ← BaseFile.unwrapM r;
    FatFile.inner_unwrap truncate);
  mret file.

Definition TMP : list Z := lit "./tmp/".

(** The part of [open_file] behind [inner_open_dir]. *)
Definition open_in_dir (dir : Dir) (real_dir file_name : list Z) (flags : Z) : M Kfs (option OpenFile) :=
  if has_flags flags O_DIR || has_flags flags O_DSYNC || (str_len file_name =? 0) then
    if str_len file_name =? 0 then mret (Some (ODir (fd_dir_new (real_dir ++ file_name))))
    else
      r ← fat (open_dir dir file_name);
      match r with
      | Ok sub => _ ← drop_dir sub; mret (Some (ODir (fd_dir_new (real_dir ++ file_name))))
      | Err _ => mret None
      end
  else
    let '(readable, writable) := open_read_write flags in
    r ← fat (open_file dir file_name);
    match r with
    | Ok file =>
        if has_flags flags O_EXCL && negb (starts_with TMP real_dir) then _ ← drop_file file; mret None
        else
          file ← (if has_flags flags O_CREATE then empty_file file else mret file);
          mret (Some (OFat (FatFile.mkFatFile readable writable) real_dir file_name flags file))
    | Err ENotFound =>
        if has_flags flags O_CREATE then
          file ← fat_unwrap (create_file dir file_name);
          mret (Some (OFat (FatFile.mkFatFile readable writable) real_dir file_name flags file))
        else mret None
    | Err _ => mret None
    end.

Definition k_open_file (dir_name file_path : list Z) (flags : Z) : M Kfs (option OpenFile) :=
  root ← memory_root;
  r ← map_path_and_file dir_name file_path;
  match r with
  | None => _ ← drop_dir root; mret None
  | Some (real_dir, file_name) =>
      find_in_vfs ← on_vfs_mem (λ v, get_virt_file_if_possible v real_dir file_name flags);
      match find_in_vfs with
      | Some f => _ ← drop_dir root; mret (Some (OVirt f))
      | None =>
          let file_name := if decide (file_name = [DOT]) then [] else file_name in
          d ← inner_open_dir root real_dir;
          match d with
          | Some dir => r ← open_in_dir dir real_dir file_name flags; _ ← drop_dir dir; mret r
          | None => mret None
          end
      end
  end.

(** ** Making, removing, renaming *)

(** [remove_file] of the kernel: the file has to exist and the path to be split. *)
Definition k_remove_file (path name : list Z) : M Kfs unit :=
  root ← memory_root;
  r ← on_vfs (λ v, try_remove_virt_file v path name);
  match r with
  | Some _ => drop_dir root
  | None =>
      d ← inner_open_dir root path;
      dir ← lift_o (unwrap d);
      _ ← fat_unwrap (remove dir name);
      drop_dir dir
  end.

Definition mkdir (dir_name file_path : list Z) : M Kfs bool :=
  root ← memory_root;
  r ← map_path_and_file dir_name file_path;
  match r with
  | None => _ ← drop_dir root; mret false
  | Some (real_dir, file_name) =>
      vdir ← gets (λ w, get_virt_dir_if_possible (k_vfs w) real_dir);
      match vdir with
      | Some p => b ← on_vfs (λ v, try_make_virt_dir v p file_name); _ ← drop_dir root; mret b
      | None =>
          d ← inner_open_dir root real_dir;
          match d with
          | None => mret false
          | Some dir =>
              ok ← (if str_len file_name =? 0 then mret false
                    else
                      file ← find_in_dir dir file_name;
                      match file with
                      | Some _ => mret false
                      | None =>
                          r ← fat (create_dir dir file_name);
                          match r with
                          | Ok sub => _ ← drop_dir sub; mret true
                          | Err _ => mret false
                          end
                      end);
              _ ← drop_dir dir;
              mret ok
          end
      end
  end.

Definition rename_or_move (old_dir old_file new_dir new_file : list Z) (replace : bool) : M Kfs (SysResult unit) :=
  root ← memory_root;
  d ← inner_open_dir root old_dir;
  match d with
  | None => mret (inr EINVAL)
  | Some old_dir =>
      root ← memory_root;
      d ← inner_open_dir root new_dir;
      match d with
      | None => _ ← drop_dir old_dir; mret (inr EINVAL)
      | Some new_dir =>
          r ← fat (rename old_dir old_file new_dir new_file);
          res ← (match r with
                 | Ok _ => mret (inl tt)
                 | Err EAlreadyExists =>
                     if replace : bool then
                       _ ← fat_unwrap (remove new_dir new_file);
                       r ← fat (rename old_dir old_file new_dir new_file);
                       mret (match r with Ok _ => inl tt | Err _ => inr EINVAL end)
                     else mret (inr EEXIST)
                 | Err ENotFound => mret (inr ENOENT)
                 | Err _ => mret (inr EINVAL)
                 end);
          _ ← drop_dir new_dir;
          _ ← drop_dir old_dir;
          mret res
      end
  end.

(** [get_dir_entry_iter]: the open directory whose entries are listed. *)
Definition get_dir_entry_iter (dir_name : list Z) : M Kfs (option Dir) :=
  root ← memory_root;
  r ← map_path_and_file dir_name [];
  '(dir_name, _) ← lift_o (unwrap r);
  d ← inner_open_dir root dir_name;
  match d with
  | Some dir => _ ← drop_dir dir; mret (Some dir)
  | None => mret None
  end.

(** ** Hard links ([link.rs]) *)

(** [*count_map.entry(value).or_insert(1) += 1] and its entry in the path map. *)
Definition add_link (real_path real_file user_path user_file : list Z) : M Kfs unit := λ w,
  let key := mkDisc user_path user_file in
  let value := mkDisc real_path real_file in
  let count := <[value := wrap64 (default 1 (k_count w !! value) + 1)]> (k_count w) in
  let link := match k_link w !! key with
              | Some _ => <[key := value]> (k_link w)
              | None => <[value := value]> (<[key := value]> (k_link w))
              end in
  Ret (tt, set_links w link count).

Definition try_add_link (old_path old_file new_path new_file : list Z) : M Kfs bool :=
  old ← split_and_parse old_path old_file;
  match old with
  | None => mret false
  | Some (old_path, old_file) =>
      new ← split_and_parse new_path new_file;
      match new with
      | None => mret false
      | Some (new_path, new_file) =>
          b ← check_file_exists old_path old_file;
          if negb b then mret false
          else
            b ← check_file_exists new_path new_file;
            if negb b then _ ← add_link old_path old_file new_path new_file; mret true
            else mret false
      end
  end.

Definition get_link_count (path file : list Z) : M Kfs Z :=
  '(path, file) ← parse_file_name (path, file);
  gets (λ w, default 1 (k_count w !! mkDisc path file)).

(** The tables when a name of [value] goes: what [map.remove(&key).unwrap()] and
    the decrement leave, and whether the last name went. *)
Definition unlink (key value : FileDisc) : M Kfs bool := λ w,
  link ← (match k_count w !! value with
          | Some _ => _ ← unwrap (k_link w !! key); Ret (delete key (k_link w))
          | None => Ret (k_link w)
          end);
  let count := wrap64 (default 1 (k_count w !! value) - 1) in
  if count =? 0 then Ret (true, set_links w link (delete value (k_count w)))
  else Ret (false, set_links w link (<[value := count]> (k_count w))).

Definition try_remove_link (path file : list Z) : M Kfs bool :=
  let key := mkDisc path file in
  r ← split_and_parse path file;
  match r with
  | None => mret false
  | Some (real_path, real_file) =>
      b ← check_file_exists real_path real_file;
      if b : bool then
        last ← unlink key (mkDisc real_path real_file);
        _ ← (if last : bool then k_remove_file real_path real_file else mret tt);
        mret true
      else
        b ← check_dir_exists (real_path ++ real_file);
        if b : bool then _ ← k_remove_file real_path real_file; mret true
        else mret false
  end.

(** [s.ends_with(t)] for a string [t] *)
Definition ends_with_str (t s : list Z) : bool := starts_with (reverse t) (reverse s).

Definition GCC_INCLUDE : list Z := lit "./riscv64-linux-musl-native/lib/gcc/riscv64-linux-musl/11.2.1/include/".
Definition GCC_LINK_INCLUDE : list Z := lit "/riscv64-linux-musl-native/include/".

(** A path that ends with a slash is cut into its parent and its last name. *)
Definition last_name (path file : list Z) : outcome (list Z * list Z) :=
  if decide (file = []) then
    if decide (path = ROOT_DIR) then Ret (path, ROOT_DIR)
    else
      let '(c, path) := str_pop path in
      _ ← unwrap c;
      '(parent, name) ← unwrap (rsplit_once SLASH path);
      Ret (parent ++ [SLASH], name)
  else Ret (path, file).

Definition read_link (path file : list Z) : M Kfs (option (list Z)) :=
  let file := if ends_with_str (lit "/.") file || ends_with_str (lit "/..") file then file ++ [SLASH] else file in
  r ← map_path_and_file path file;
  match r with
  | None => mret None
  | Some (path, file) =>
      '(path, file) ← lift_o (last_name path file);
      gets (λ w, match k_link w !! mkDisc path file with
                 | Some disc => Some (disc_path disc ++ disc_file disc)
                 | None => rest ← strip_prefix GCC_INCLUDE path; Some (GCC_LINK_INCLUDE ++ rest ++ file)
                 end)
  end.

(** ** Mounted devices *)

(** [MOUNTED.lock().push(m)] and [.retain(|mfs| mfs.mnt_dir != mount_path)], with
    whether it took any out. *)
Definition push_mounted (m : MountedFs) : M Kfs unit := λ w, Ret (tt, set_mounted w (k_mounted w ++ [m])).
Definition retain_mounted (mount_path : list Z) : M Kfs bool := λ w,
  let mounted := filter (λ mfs, mfs_mnt_dir mfs ≠ mount_path) (k_mounted w) in
  Ret (bool_decide (length mounted < length (k_mounted w))%nat, set_mounted w mounted).

Definition mount_fat_fs (device_path device_file mount_path : list Z) : M Kfs bool :=
  dev ← split_and_parse device_path device_file;
  match dev with
  | None => mret false
  | Some (device_path, device_file) =>
      r ← lift_o (split_path_and_file mount_path []);
      '(mount_path, _) ← lift_o (unwrap r);
      b ← check_dir_exists mount_path;
      if b : bool then
        _ ← push_mounted (mkMounted (device_path ++ device_file) mount_path); mret true
      else mret false
  end.

Definition umount_fat_fs (mount_path : list Z) : M Kfs bool :=
  r ← lift_o (split_path_and_file mount_path []);
  '(mount_path, _) ← lift_o (unwrap r);
  retain_mounted mount_path.

(** ** The files every boot makes *)

Definition drop_open (f : OpenFile) : M Kfs unit :=
  match f with OFat _ _ _ _ file => drop_file file | _ => mret tt end.

Definition link_all (l : list (string * string * string * string)) : M Kfs unit :=
  foldMW (λ _ '(old_path, old_file, new_path, new_file),
    _ ← try_add_link (lit old_path) (lit old_file) (lit new_path) (lit new_file); mret tt) tt l.

Definition fs_init : M Kfs unit :=
  _ ← mkdir ROOT_DIR (lit "dev");
  _ ← mkdir ROOT_DIR (lit "lib");
  _ ← mkdir ROOT_DIR (lit "tmp");
  _ ← link_all [("./bin/", "sh", "./bin/", "busybox"); ("./bin/", "ls", "./bin/", "busybox")]%string;
  _ ← mkdir (lit "dev/") (lit "shm");
  _ ← link_all [("./", "tls_get_new-dtv_dso.so", "./lib/", "tls_get_new-dtv_dso.so");
                ("./", "libc.so", "./lib/", "ld-musl-riscv64-sf.so.1");
                ("./", "libc.so", "./lib/", "ld-musl-riscv64.so.1")]%string;
  _ ← mkdir ROOT_DIR (lit "sbin");
  _ ← link_all [("./", "lmbench_all", "./sbin/", "lmbench_all"); ("./", "busybox", "./sbin/", "busybox");
                ("./", "busybox", "/sbin/", "ls")]%string;
  _ ← mkdir ROOT_DIR (lit "proc");
  meminfo ← k_open_file (lit "./proc/") (lit "meminfo") O_CREATE;
  meminfo ← lift_o (unwrap meminfo);
  mounts ← k_open_file (lit "./proc/") (lit "mounts") O_CREATE;
  mounts ← lift_o (unwrap mounts);
  _ ← mkdir (lit "dev/") (lit "misc");
  rtc ← k_open_file (lit "./dev/misc/") (lit "rtc") O_CREATE;
  rtc ← lift_o (unwrap rtc);
  lat_sig ← k_open_file ROOT_DIR (lit "lat_sig") O_CREATE;
  _ ← match lat_sig with Some f => drop_open f | None => mret tt end;
  _ ← drop_open rtc;
  _ ← drop_open mounts;
  drop_open meminfo.
End names.
