(* ===== verification/FileNsSpec.v ===== *)
(** * Hard links are further names of one file

    The invariant of the link tables - a real file is one of its own names and
    is counted with all of them - and that making and removing a link keeps it
    and does what it should; and the case in which removing one panics. *)

From S2P Require Import Prelude Bytes BitAlloc BitAllocSpec Addr PageFrame PageFrameSpec FatIo FatIoSpec FatTime.
From S2P Require Import FatTable DirEntry BootSector FatFs DiskFile DirNames Dir DiskFileSpec RootDirSpec.
From S2P Require Import VirtFile Paths PathsSpec Vfs VfsSpec FileNs.

(** ** The tables *)

Abbreviation Links := (gmap FileDisc FileDisc).

(** How many names lead to [v]. *)
Definition names (link : Links) (v : FileDisc) : Z := Z.of_nat (base.size (filter (λ kv : FileDisc * FileDisc, kv.2 = v) link)).

(** A split path. *)
Definition normal_disc (d : FileDisc) : Prop := normal_dir (disc_path d) ∧ (SLASH ∉ disc_file d).

Record links_ok (link : Links) (count : gmap FileDisc Z) : Prop := {
  lo_real : ∀ k v, link !! k = Some v → link !! v = Some v;
  lo_normal : ∀ k v, link !! k = Some v → normal_disc k;
  lo_count : ∀ v, count !! v = if decide (names link v = 0) then None else Some (names link v);
  lo_word : ∀ v, names link v < 2 ^ 63 }.

Lemma names_insert_new link k v u : link !! k = None →
  names (<[k := v]> link) u = names link u + (if decide (v = u) then 1 else 0).
Proof.
  intros Hk. unfold names. rewrite map_filter_insert. cbn. case_decide.
  - rewrite map_size_insert_None; [lia|]. apply map_lookup_filter_None. by left.
  - by rewrite map_filter_delete, delete_id, Z.add_0_r by (apply map_lookup_filter_None; by left).
Qed.

Lemma names_delete link k v u : link !! k = Some v →
  names (delete k link) u = names link u - (if decide (v = u) then 1 else 0).
Proof.
  intros Hk. unfold names. rewrite map_filter_delete. case_decide as Hu.
  - assert (filter (λ kv : FileDisc * FileDisc, kv.2 = u) link !! k = Some v) as Hf by (by apply map_lookup_filter_Some).
    rewrite map_size_delete, Hf. pose proof (map_size_ne_0_lookup_2 _ k (mk_is_Some _ _ Hf)). lia.
  - rewrite delete_id; [lia|]. apply map_lookup_filter_None. right. intros v' Hv'. cbn. congruence.
Qed.

Lemma names_pos link k v : link !! k = Some v → 0 < names link v.
Proof.
  intros Hk. unfold names. assert (filter (λ kv : FileDisc * FileDisc, kv.2 = v) link !! k = Some v) as Hf by (by apply map_lookup_filter_Some).
  pose proof (map_size_ne_0_lookup_2 _ k (mk_is_Some _ _ Hf)). lia.
Qed.

Lemma names_0 link v : (∀ k, link !! k ≠ Some v) → names link v = 0.
Proof.
  intros Hv. unfold names. assert (filter (λ kv : FileDisc * FileDisc, kv.2 = v) link = ∅) as ->.
  { apply map_empty. intros k. apply map_lookup_filter_None. right. intros v' Hk E. cbn in E. subst. by apply (Hv k). }
  by rewrite map_size_empty.
Qed.

(** What a path leads to. *)
Definition resolve (link : Links) (d : FileDisc) : FileDisc := default d (link !! d).

Lemma resolve_real link count d : links_ok link count → link !! resolve link d = None ∨ link !! resolve link d = Some (resolve link d).
Proof.
  intros Hl. unfold resolve. destruct (link !! d) as [v|] eqn:Hd; cbn; [right; by apply (lo_real _ _ Hl d)|by left].
Qed.

Lemma resolve_normal link count d : links_ok link count → normal_disc d → normal_disc (resolve link d).
Proof.
  intros Hl Hd. unfold resolve. destruct (link !! d) as [v|] eqn:E; cbn; [|done].
  apply (lo_normal _ _ Hl v v). by apply (lo_real _ _ Hl d).
Qed.

Lemma links_ok_empty : links_ok ∅ ∅.
Proof.
  split; [done|done| |]; intros v.
  - rewrite decide_True; [done|]. by apply names_0.
  - by rewrite names_0.
Qed.

(** A file that is no name of itself has no names. *)
Lemma names_unlinked link count v : links_ok link count → link !! v = None → names link v = 0.
Proof. intros Hl Hv. apply names_0. intros k Hk. apply (lo_real _ _ Hl) in Hk. congruence. Qed.

Definition link_added (link : Links) (real user : FileDisc) : Links := <[real := real]> (<[user := real]> link).
Definition count_of (link : Links) (v : FileDisc) : Z := Z.max 1 (names link v).

Lemma count_default link count v : links_ok link count → default 1 (count !! v) = count_of link v.
Proof.
  intros Hl. rewrite (lo_count _ _ Hl). unfold count_of. pose proof (Nat2Z.is_nonneg (base.size (filter (λ kv : FileDisc * FileDisc, kv.2 = v) link))).
  case_decide as Hn; cbn; [by rewrite Hn|]. unfold names in *. lia.
Qed.

Lemma names_added link count real user v : links_ok link count → link !! user = None → user ≠ real →
  link !! real = None ∨ link !! real = Some real →
  names (link_added link real user) v = if decide (v = real) then count_of link real + 1 else names link v.
Proof.
  intros Hl Hu Hne Hr. unfold link_added, count_of. destruct Hr as [Hr|Hr].
  - rewrite !names_insert_new by (rewrite ?lookup_insert_ne; done).
    destruct (decide (v = real)) as [->|]; [|rewrite !decide_False by done; lia].
    rewrite (names_unlinked link count) by done. rewrite !decide_True by done. lia.
  - rewrite insert_id by (by rewrite lookup_insert_ne). rewrite names_insert_new by done.
    pose proof (names_pos _ _ _ Hr).
    destruct (decide (v = real)) as [->|]; [rewrite decide_True by done; lia|rewrite decide_False by done; lia].
Qed.

Lemma links_ok_add link count real user : links_ok link count → link !! user = None → user ≠ real →
  link !! real = None ∨ link !! real = Some real → normal_disc user → normal_disc real →
  count_of link real + 1 < 2 ^ 63 →
  links_ok (link_added link real user) (<[real := wrap64 (count_of link real + 1)]> count).
Proof.
  intros Hl Hu Hne Hr Hnu Hnr Hb. assert (0 < count_of link real) by (unfold count_of; lia). split.
  - intros k v Hk. unfold link_added in Hk |- *. destruct (decide (v = real)) as [->|Hv]; [by rewrite lookup_insert_eq|].
    apply lookup_insert_Some in Hk as [[_ <-]|[_ Hk]]; [done|].
    apply lookup_insert_Some in Hk as [[_ <-]|[_ Hk]]; [done|]. apply (lo_real _ _ Hl) in Hk.
    rewrite !lookup_insert_ne; congruence.
  - intros k v Hk. unfold link_added in Hk. apply lookup_insert_Some in Hk as [[<- _]|[_ Hk]]; [done|].
    apply lookup_insert_Some in Hk as [[<- _]|[_ Hk]]; [done|]. by apply (lo_normal _ _ Hl) in Hk.
  - intros v. rewrite (names_added link count) by done. destruct (decide (v = real)) as [->|Hv].
    + rewrite lookup_insert_eq, decide_False by lia. f_equal. apply wrap_small. unfold word. lia.
    + rewrite lookup_insert_ne by done. apply (lo_count _ _ Hl).
  - intros v. rewrite (names_added link count) by done. case_decide; [done|]. apply (lo_word _ _ Hl).
Qed.

Lemma names_removed link k real v : link !! k = Some real →
  names (delete k link) v = if decide (v = real) then names link real - 1 else names link v.
Proof.
  intros Hk. rewrite (names_delete link k real) by done. destruct (decide (v = real)) as [->|Hv].
  - by rewrite decide_True.
  - rewrite decide_False by done. lia.
Qed.

Lemma links_ok_remove link count k real : links_ok link count → link !! k = Some real → k ≠ real →
  links_ok (delete k link) (<[real := wrap64 (count_of link real - 1)]> count) ∧
  2 <= count_of link real ∧ count_of (delete k link) real = count_of link real - 1.
Proof.
  intros Hl Hk Hne. pose proof (lo_real _ _ Hl _ _ Hk) as Hr.
  assert (0 < names (delete k link) real) as Hpos.
  { apply (names_pos _ real). by rewrite lookup_delete_ne. }
  rewrite (names_removed _ _ real), decide_True in Hpos by done.
  assert (count_of link real = names link real) as Hc by (unfold count_of; lia).
  pose proof (lo_word _ _ Hl real). rewrite Hc. split_and!; [split|lia|].
  - intros k' v [Hk1 Hk']%lookup_delete_Some. apply (lo_real _ _ Hl) in Hk'. destruct (decide (k = v)) as [<-|]; [congruence|].
    by rewrite lookup_delete_ne.
  - intros k' v [_ Hk']%lookup_delete_Some. by apply (lo_normal _ _ Hl) in Hk'.
  - intros v. rewrite (names_removed _ _ real) by done. destruct (decide (v = real)) as [->|Hv].
    + rewrite lookup_insert_eq, decide_False by lia. f_equal. apply wrap_small. unfold word. lia.
    + rewrite lookup_insert_ne by done. apply (lo_count _ _ Hl).
  - intros v. rewrite (names_removed _ _ real) by done. case_decide; [lia|]. apply (lo_word _ _ Hl).
  - unfold count_of. rewrite (names_removed _ _ real), decide_True by done. lia.
Qed.

(** ** Calls that leave the tables alone *)

Section names.
Context {D : Type} `{Stream D} {TP : TimeProvider}.
Context {A : Type} `{BitAlloc A} `{PageFrameConfig}.
Implicit Types w : Kfs (D := D) (A := A).

Definition keeps_links {R} (x : M (Kfs (D := D) (A := A)) R) : Prop := ∀ w r w',
  x w = Ret (r, w') → k_link w' = k_link w ∧ k_count w' = k_count w.

Lemma keeps_ret {R} (r : R) : keeps_links (mret r).
Proof. by intros w r' w' [= _ <-]. Qed.

Lemma keeps_bind {R S} (x : M _ R) (f : R → M _ S) :
  keeps_links x → (∀ r, keeps_links (f r)) → keeps_links (x ≫= f).
Proof.
  intros Hx Hf w r w' E. unfold mbind, M_bind in E. destruct (x w) as [[s w1]|] eqn:Ex; [|done].
  destruct (Hx _ _ _ Ex) as [<- <-]. by apply (Hf s w1 r w').
Qed.

Lemma keeps_panic {R} : keeps_links (λ _, Panic : outcome (R * _)).
Proof. by intros w r w' ?. Qed.

Lemma keeps_gets {R} (f : _ → R) : keeps_links (gets f).
Proof. by intros w r w' [= _ <-]. Qed.

Lemma keeps_lift_o {R} (o : outcome R) : keeps_links (lift_o o).
Proof. intros w r w' E. unfold lift_o in E. by destruct o; simplify_eq/=. Qed.

Lemma keeps_fat {R} (x : FM (FileSystem D) R) : keeps_links (fat x).
Proof. intros w r w' E. unfold fat in E. by destruct (x (k_fat w)) as [[]|]; simplify_eq/=. Qed.

Lemma keeps_on_vfs {R} (f : Vfs → outcome (R * Vfs)) : keeps_links (on_vfs f).
Proof. intros w r w' E. unfold on_vfs in E. by destruct (f (k_vfs w)) as [[]|]; simplify_eq/=. Qed.
End names.

Create HintDb keeps.
#[export] Hint Resolve keeps_ret keeps_gets keeps_lift_o keeps_fat keeps_on_vfs keeps_panic : keeps.
Ltac keeps := repeat first [done | apply keeps_bind; [|intros ?] | case_match | solve [eauto with keeps]].

Section calls.
Context {D : Type} `{Stream D} {TP : TimeProvider}.
Context {A : Type} `{BitAlloc A} `{PageFrameConfig}.
Implicit Types w : Kfs (D := D) (A := A).

Lemma keeps_fat_unwrap {R} (x : FM (FileSystem D) R) : keeps_links (A := A) (fat_unwrap x).
Proof. unfold fat_unwrap. keeps. Qed.
#[local] Hint Resolve keeps_fat_unwrap : keeps.

Lemma keeps_drop_dir d : keeps_links (D := D) (A := A) (drop_dir d).
Proof. unfold drop_dir. keeps. Qed.
#[local] Hint Resolve keeps_drop_dir : keeps.

Lemma keeps_map_path d f : keeps_links (D := D) (A := A) (map_path_and_file d f).
Proof. unfold map_path_and_file, parse_file_name. keeps. Qed.
#[local] Hint Resolve keeps_map_path : keeps.

Lemma keeps_inner_open_dir root d : keeps_links (D := D) (A := A) (inner_open_dir root d).
Proof. unfold inner_open_dir. keeps. Qed.
#[local] Hint Resolve keeps_inner_open_dir : keeps.

Lemma keeps_check_file d f : keeps_links (D := D) (A := A) (check_file_exists d f).
Proof. unfold check_file_exists, memory_root, find_in_dir. keeps. Qed.

Lemma keeps_check_dir d : keeps_links (D := D) (A := A) (check_dir_exists d).
Proof. unfold check_dir_exists, memory_root. keeps. Qed.

Lemma keeps_remove_file p n : keeps_links (D := D) (A := A) (k_remove_file p n).
Proof. unfold k_remove_file, memory_root. keeps. Qed.

(** ** Links *)

Definition disc_of (p : list Z * list Z) : FileDisc := mkDisc p.1 p.2.

Lemma map_path_resolves w dir_name file_path p : split_path_and_file dir_name file_path = Ret (Some p) →
  map_path_and_file dir_name file_path w =
    Ret (Some (disc_path (resolve (k_link w) (disc_of p)), disc_file (resolve (k_link w) (disc_of p))), w).
Proof.
  intros Hs. unfold map_path_and_file, lift_o, mbind, M_bind. rewrite Hs. cbn. unfold resolve, disc_of.
  destruct p as [d f]; cbn. by destruct (k_link w !! mkDisc d f).
Qed.

Definition file_exists (d : FileDisc) : M (Kfs (D := D) (A := A)) bool := check_file_exists (disc_path d) (disc_file d).

(** A hard link: when the file exists and the new name does not, the new
    name leads to the file from then on, every other name to what it did, the
    file has one more name, and its count is that of its names. *)
Theorem hard_link_made w w1 w2 old_path old_file new_path new_file old new :
  links_ok (k_link w) (k_count w) →
  split_path_and_file old_path old_file = Ret (Some old) → split_path_and_file new_path new_file = Ret (Some new) →
  k_link w !! disc_of new = None → disc_of new ≠ resolve (k_link w) (disc_of old) →
  count_of (k_link w) (resolve (k_link w) (disc_of old)) + 1 < 2 ^ 63 →
  file_exists (resolve (k_link w) (disc_of old)) w = Ret (true, w1) → file_exists (disc_of new) w1 = Ret (false, w2) →
  ∃ w', try_add_link old_path old_file new_path new_file w = Ret (true, w') ∧
    links_ok (k_link w') (k_count w') ∧
    (∀ d, resolve (k_link w') d =
      if decide (d = disc_of new) then resolve (k_link w) (disc_of old) else resolve (k_link w) d) ∧
    (∀ v, count_of (k_link w') v =
      count_of (k_link w) v + (if decide (v = resolve (k_link w) (disc_of old)) then 1 else 0)) ∧
    get_link_count new.1 new.2 w' = Ret (count_of (k_link w') (resolve (k_link w) (disc_of old)), w') ∧
    k_fat w' = k_fat w2 ∧ k_vfs w' = k_vfs w2.
Proof.
  intros Hl Hold Hnew Hfresh Hne Hb E1 E2. set (real := resolve (k_link w) (disc_of old)) in *.
  destruct (keeps_check_file _ _ w _ _ E1) as [L1 C1]. destruct (keeps_check_file _ _ w1 _ _ E2) as [L2 C2].
  assert (links_ok (link_added (k_link w) real (disc_of new))
    (<[real := wrap64 (count_of (k_link w) real + 1)]> (k_count w))) as Hok.
  { apply links_ok_add; try done.
    - by apply (resolve_real _ (k_count w)).
    - destruct new as [d f]. apply split_path_is_normal_aux in Hnew as (? & ? & _). by split.
    - apply (resolve_normal _ (k_count w)); [done|]. destruct old as [d f].
      apply split_path_is_normal_aux in Hold as (? & ? & _). by split. }
  exists (set_links w2 (link_added (k_link w) real (disc_of new)) (<[real := wrap64 (count_of (k_link w) real + 1)]> (k_count w))).
  cbn [k_link k_count k_fat k_vfs set_links]. split_and!; try done.
  - unfold try_add_link, split_and_parse. unfold mbind at 1, M_bind at 1. rewrite (map_path_resolves w _ _ _ Hold).
    fold real. unfold mbind at 1, M_bind at 1. rewrite (map_path_resolves w _ _ _ Hnew).
    assert (resolve (k_link w) (disc_of new) = disc_of new) as -> by (unfold resolve; by rewrite Hfresh).
    unfold mbind at 1, M_bind at 1. unfold file_exists in E1, E2. rewrite E1. cbn [negb].
    unfold mbind at 1, M_bind at 1. rewrite E2. cbn [negb].
    unfold mbind, M_bind, add_link. rewrite L2, L1, C2, C1.
    replace (mkDisc (disc_path real) (disc_file real)) with real by (by destruct real).
    replace (mkDisc (disc_path (disc_of new)) (disc_file (disc_of new))) with (disc_of new) by done.
    rewrite Hfresh. by rewrite (count_default (k_link w)).
  - intros d. unfold resolve at 1, link_added. pose proof (resolve_real _ _ (disc_of old) Hl) as Hr. fold real in Hr.
    destruct (decide (d = real)) as [->|Hd].
    + rewrite lookup_insert_eq, decide_False by done. cbn. unfold resolve. by destruct Hr as [->| ->].
    + rewrite lookup_insert_ne by done. case_decide as Hd2; [subst d; by rewrite lookup_insert_eq|by rewrite lookup_insert_ne].
  - intros v. unfold count_of at 1. rewrite (names_added (k_link w) (k_count w)) by (done || by apply (resolve_real _ (k_count w))).
    unfold count_of. case_decide as Hv; [subst v; lia|lia].
  - unfold get_link_count, parse_file_name, gets, mbind, M_bind. cbn [k_link k_count set_links fst snd].
    rewrite <- (count_default _ _ real Hok). unfold link_added at 1.
    change (mkDisc new.1 new.2) with (disc_of new). rewrite lookup_insert_ne, lookup_insert_eq by done. by destruct real.
Qed.

(** Removing a further name of a file by its split path: the name leads to
    nothing else than itself again, every other name to what it did, the file
    has one name less and is not touched. *)
Theorem hard_link_removed w w1 path file real :
  links_ok (k_link w) (k_count w) → split_path_and_file path file = Ret (Some (path, file)) →
  k_link w !! mkDisc path file = Some real → mkDisc path file ≠ real →
  file_exists real w = Ret (true, w1) →
  ∃ w', try_remove_link path file w = Ret (true, w') ∧
    links_ok (k_link w') (k_count w') ∧
    (∀ d, resolve (k_link w') d = if decide (d = mkDisc path file) then d else resolve (k_link w) d) ∧
    get_link_count (disc_path real) (disc_file real) w' = Ret (count_of (k_link w) real - 1, w') ∧
    k_fat w' = k_fat w1 ∧ k_vfs w' = k_vfs w1.
Proof.
  intros Hl Hs Hk Hne E1. destruct (keeps_check_file _ _ w _ _ E1) as [L1 C1].
  destruct (links_ok_remove _ _ _ _ Hl Hk Hne) as (Hok & H2 & Hc).
  exists (set_links w1 (delete (mkDisc path file) (k_link w)) (<[real := wrap64 (count_of (k_link w) real - 1)]> (k_count w))).
  assert (wrap64 (count_of (k_link w) real - 1) = count_of (k_link w) real - 1) as Hw.
  { apply wrap_small. pose proof (lo_word _ _ Hl real). unfold word, count_of in *. lia. }
  assert (resolve (k_link w) (mkDisc path file) = real) as Hres by (unfold resolve; by rewrite Hk).
  cbn [k_link k_count k_fat k_vfs set_links]. split_and!; try done.
  - unfold try_remove_link, split_and_parse. unfold mbind at 1, M_bind at 1. rewrite (map_path_resolves w _ _ _ Hs).
    change (disc_of (path, file)) with (mkDisc path file). rewrite Hres.
    unfold mbind at 1, M_bind at 1. unfold file_exists in E1. rewrite E1.
    unfold mbind at 1, M_bind at 1. unfold unlink. replace (mkDisc (disc_path real) (disc_file real)) with real by (by destruct real).
    assert (is_Some (k_count w !! real)) as [c Hcount].
    { rewrite (lo_count _ _ Hl). pose proof (names_pos _ _ _ Hk). rewrite decide_False by lia. eauto. }
    pose proof (count_default _ _ real Hl) as Hdef. rewrite Hcount in Hdef. cbn in Hdef.
    rewrite C1, L1, Hcount, Hk. cbn [unwrap default]. rewrite !bind_Ret. unfold id. rewrite Hdef, Hw.
    destruct (Z.eqb_spec (count_of (k_link w) real - 1) 0); [lia|done].
  - intros d. unfold resolve at 1. case_decide as Hd; [subst d; by rewrite lookup_delete_eq|by rewrite lookup_delete_ne].
  - unfold get_link_count, parse_file_name, gets, mbind, M_bind. cbn [k_link k_count set_links fst snd].
    replace (mkDisc (disc_path real) (disc_file real)) with real by (by destruct real).
    rewrite lookup_delete_ne, (lo_real _ _ Hl _ _ Hk) by done. cbv beta iota.
    replace (mkDisc (disc_path real) (disc_file real)) with real by (by destruct real).
    cbn [k_count set_links]. rewrite lookup_insert_eq. cbn. by rewrite Hw.
Qed.

(** [map.remove(&key).unwrap()] on a name that is not in the table. *)
Lemma unlink_absent_panics w w1 path file p real : links_ok (k_link w) (k_count w) →
  split_path_and_file path file = Ret (Some p) → resolve (k_link w) (disc_of p) = real →
  k_link w !! real = Some real → k_link w !! mkDisc path file = None →
  file_exists real w = Ret (true, w1) → try_remove_link path file w = Panic.
Proof.
  intros Hl Hs Hres Hr Habs E1. destruct (keeps_check_file _ _ w _ _ E1) as [L1 C1].
  unfold try_remove_link, split_and_parse. unfold mbind at 1, M_bind at 1. rewrite (map_path_resolves w _ _ _ Hs), Hres.
  unfold mbind at 1, M_bind at 1. unfold file_exists in E1. rewrite E1.
  unfold mbind at 1, M_bind at 1. unfold unlink. replace (mkDisc (disc_path real) (disc_file real)) with real by (by destruct real).
  rewrite C1, L1, (lo_count _ _ Hl). pose proof (names_pos _ _ _ Hr). rewrite decide_False by lia. by rewrite Habs.
Qed.

(** Removing a file that has links panics when the path given has a
    directory in it: the table is asked for the path as it is given - a current
    directory or the root, and the rest - and not as it was entered, split. *)
Theorem unlink_in_subdirectory_panics w w1 path file p :
  links_ok (k_link w) (k_count w) → SLASH ∈ file → split_path_and_file path file = Ret (Some p) →
  is_Some (k_link w !! resolve (k_link w) (disc_of p)) →
  file_exists (resolve (k_link w) (disc_of p)) w = Ret (true, w1) →
  try_remove_link path file w = Panic.
Proof.
  intros Hl Hslash Hs [v Hv] E1. eapply unlink_absent_panics; [done..| | |exact E1].
  - pose proof (resolve_real _ _ (disc_of p) Hl) as [Hr|Hr]; [congruence|exact Hr].
  - destruct (k_link w !! mkDisc path file) as [u|] eqn:E; [|done]. by destruct (lo_normal _ _ Hl _ _ E) as [_ Hf].
Qed.

(** The first name of a file with links leaves the table but not the disk, so a
    second removal finds the file and panics too. *)
Lemma unlink_first_name_twice_panics w w0 w1 w2 path file :
  links_ok (k_link w) (k_count w) → split_path_and_file path file = Ret (Some (path, file)) →
  k_link w !! mkDisc path file = Some (mkDisc path file) → 2 <= count_of (k_link w) (mkDisc path file) →
  file_exists (mkDisc path file) w = Ret (true, w0) → try_remove_link path file w = Ret (true, w1) →
  file_exists (mkDisc path file) w1 = Ret (true, w2) →
  try_remove_link path file w1 = Panic.
Proof.
  intros Hl Hs Hk H2 E0 E1 E2. destruct (keeps_check_file _ _ w _ _ E0) as [L0 C0].
  assert (k_link w1 = delete (mkDisc path file) (k_link w) ∧ is_Some (k_count w1 !! mkDisc path file)) as [L1 [c C1]].
  { unfold try_remove_link, split_and_parse in E1. unfold mbind at 1, M_bind at 1 in E1.
    rewrite (map_path_resolves w _ _ _ Hs) in E1. change (disc_of (path, file)) with (mkDisc path file) in E1.
    assert (resolve (k_link w) (mkDisc path file) = mkDisc path file) as Hres by (unfold resolve; by rewrite Hk).
    rewrite Hres in E1. unfold file_exists in E0. cbn [disc_path disc_file] in E0, E1.
    unfold mbind at 1, M_bind at 1 in E1. rewrite E0 in E1.
    unfold mbind at 1, M_bind at 1 in E1. unfold unlink in E1. pose proof (names_pos _ _ _ Hk).
    pose proof (lo_word _ _ Hl (mkDisc path file)). unfold count_of in H2.
    rewrite C0, L0, (lo_count _ _ Hl), decide_False, Hk in E1 by lia. cbn [unwrap default] in E1. rewrite !bind_Ret in E1. unfold id in E1.
    rewrite (wrap_small 64) in E1 by (unfold word; lia). rewrite (proj2 (Z.eqb_neq _ _)) in E1 by lia.
    injection E1 as <-. cbn. rewrite lookup_insert_eq. eauto. }
  destruct (keeps_check_file _ _ w1 _ _ E2) as [L2 C2].
  unfold try_remove_link, split_and_parse. unfold mbind at 1, M_bind at 1. rewrite (map_path_resolves w1 _ _ _ Hs).
  change (disc_of (path, file)) with (mkDisc path file).
  assert (resolve (k_link w1) (mkDisc path file) = mkDisc path file) as -> by (unfold resolve; by rewrite L1, lookup_delete_eq).
  cbn [disc_path disc_file].
  unfold mbind at 1, M_bind at 1. unfold file_exists in E2. cbn in E2. rewrite E2.
  unfold mbind at 1, M_bind at 1. unfold unlink. by rewrite C2, L2, L1, C1, lookup_delete_eq.
Qed.
End calls.

(** ** A volume with one file, and a link to it *)

Module LinkedVolume.
Export Machine.
#[export] Existing Instance SmallVolume.clock.

Definition hello : FileDisc := mkDisc ROOT_DIR (lit "HELLO.TXT").
Definition hi : FileDisc := mkDisc ROOT_DIR (lit "hi").

Definition boot : Kfs (D := MemDisk) (A := Tower 0) := mkKfs RootVolume.volume VFS_DIRS machine_alloc ∅ ∅ [].
Definition linked : Kfs (D := MemDisk) (A := Tower 0) := set_links boot (link_added ∅ hello hi) (<[hello := 2]> ∅).

Lemma root_normal f : SLASH ∉ f → normal_disc (mkDisc ROOT_DIR f).
Proof. intros Hf. split; [|done]. by exists []. Defined.

Lemma linked_ok : links_ok (k_link linked) (k_count linked).
Proof.
  assert (2 = wrap64 (count_of ∅ hello + 1)) as E.
  { unfold count_of. rewrite names_0 by done. by vm_compute. }
  unfold linked. cbn [k_link k_count set_links]. rewrite E.
  apply (links_ok_add ∅ ∅ hello hi links_ok_empty); [done|done|by left|..].
  - apply root_normal. by apply (bool_decide_unpack _).
  - apply root_normal. by apply (bool_decide_unpack _).
  - unfold count_of. rewrite names_0 by done. done.
Defined.

(** What the run of a call tells. *)
Lemma runs {W R} `{EqDecision R} (x : outcome (R * W)) r (q : W → bool) :
  match x with Ret (r', w) => bool_decide (r' = r) && q w | Panic => false end = true → ∃ w, x = Ret (r, w) ∧ q w = true.
Proof. destruct x as [[r' w]|]; [|done]. rewrite andb_true_iff, bool_decide_eq_true. intros [-> Hq]. eauto. Defined.
End LinkedVolume.

Section witnesses.
Import LinkedVolume.

(** [link("HELLO.TXT", "dev/../hi")] *)
Lemma hard_link_made_witness :
  ∃ w', try_add_link ROOT_DIR (lit "HELLO.TXT") ROOT_DIR (lit "dev/../hi") boot = Ret (true, w') ∧
    resolve (k_link w') hi = hello ∧ get_link_count ROOT_DIR (lit "hi") w' = Ret (count_of (k_link w') hello, w').
Proof.
  destruct (runs (file_exists hello boot) true
    (λ w, match file_exists hi w with Ret (b, w) => bool_decide (b = false) && true | Panic => false end)) as (w1 & E1 & Hq);
    [by vm_compute|].
  destruct (runs _ _ _ Hq) as (w2 & E2 & _).
  destruct (hard_link_made boot w1 w2 ROOT_DIR (lit "HELLO.TXT") ROOT_DIR (lit "dev/../hi") (ROOT_DIR, lit "HELLO.TXT") (ROOT_DIR, lit "hi"))
    as (w' & Hrun & _ & Hres & _ & Hcnt & _).
  - apply links_ok_empty.
  - by vm_compute.
  - by vm_compute.
  - done.
  - by vm_compute.
  - by vm_compute.
  - exact E1.
  - exact E2.
  - exists w'. split; [exact Hrun|]. split; [|exact Hcnt]. rewrite (Hres hi). by vm_compute.
Defined.

Lemma hard_link_removed_witness :
  ∃ w', try_remove_link ROOT_DIR (lit "hi") linked = Ret (true, w') ∧ resolve (k_link w') hi = hi.
Proof.
  destruct (runs (file_exists hello linked) true (λ _, true)) as (w1 & E1 & _); [by vm_compute|].
  destruct (hard_link_removed linked w1 ROOT_DIR (lit "hi") hello) as (w' & Hrun & _ & Hres & _).
  - exact linked_ok.
  - by vm_compute.
  - by vm_compute.
  - by vm_compute.
  - exact E1.
  - exists w'. split; [exact Hrun|]. rewrite (Hres hi). by vm_compute.
Defined.

(** [unlink("/dev/../hi")]: the root and the rest. *)
Lemma unlink_in_subdirectory_panics_witness :
  try_remove_link ROOT_DIR (lit "dev/../hi") linked = Panic.
Proof.
  destruct (runs (file_exists hello linked) true (λ _, true)) as (w1 & E1 & _); [by vm_compute|].
  apply (unlink_in_subdirectory_panics linked w1 ROOT_DIR (lit "dev/../hi") (ROOT_DIR, lit "hi")).
  - exact linked_ok.
  - apply (bool_decide_unpack _). by vm_compute.
  - by vm_compute.
  - exists hello. by vm_compute.
  - exact E1.
Defined.
End witnesses.
