(* ===== verification/FileNsRootSpec.v ===== *)
(** * Opening by path on the mounted volume

    What [open_file], [check_file_exists] and [mkdir] of the kernel do for a
    file whose directory is the root, down to the entries on the disk: the path
    is split, the link tables and the virtual directories are asked, and the
    driver makes the entry. *)

From S2P Require Import Prelude Bytes BitAlloc BitAllocSpec Addr PageFrame PageFrameSpec FatIo FatIoSpec FatTime.
From S2P Require Import FatTable FatTableSpec DirEntry DirEntrySpec BootSector BootSectorSpec FatFs FatFsSpec DiskFile.
From S2P Require Import DiskFileSpec DirNames DirNamesSpec Dir DirSpec DirWriteSpec RootDirSpec.
From S2P Require FatFile.
From S2P Require Import VirtFile Paths PathsSpec Vfs VfsSpec FileNs FileNsSpec.

(** ** Looking through the entries of the root directory *)

Section reading.
Context {S : Type} {HS : Stream S} {SS : StreamSpec S} {AP : AbsPos S} {DS : DirStreamSpec S}.

Lemma iter_find_ok fuel rounds name k s : ok s → whole (data s) → pos s = 32 * Z.of_nat k →
  (k <= length (slots (data s)))%nat → (length (slots (data s)) - k < fuel)%nat → (length (slots (data s)) - k < rounds)%nat →
  ∃ s', iter_find fuel rounds name s
      = Ret (Ok (List.find (λ e, bool_decide (file_name e = name))
          (listing abs_at true builder_new k (32 * Z.of_nat k) (drop k (slots (data s))))), s') ∧
    ok s' ∧ data s' = data s.
Proof.
  revert k s. induction rounds as [|rounds IH]; intros k s Hs Hw Hp Hk Hf Hr; [lia|]. cbn [iter_find].
  destruct (read_dir_entry_ok true fuel k s Hs Hw Hp Hk Hf) as (s1&Hs1&Hd1&Hres). rewrite listing_scan.
  assert (∀ r, read_dir_entry fuel true s = Ret (Ok r, s1) →
    catch (read_dir_entry fuel true) (λ _, fpanic) s = Ret (Ok r, s1)) as Hcatch by (unfold catch; by intros r ->).
  destruct (scan _ _ _ _ _ _) as [[e k']|]; [|apply Hcatch in Hres; fstep Hres; by exists s1].
  destruct Hres as (Hrd%Hcatch&Hp1&Hk'). fstep Hrd. cbn [List.find]. case_decide as He.
  { rewrite bool_decide_true by done. by exists s1. }
  rewrite bool_decide_false by done. rewrite drop_drop. replace (k + (k' - k))%nat with k' by lia.
  destruct (IH k' s1) as (s2&H2&Hs2&Hd2); rewrite ?Hd1; try done; try lia.
  exists s2. rewrite Hd1 in *. by split.
Qed.
End reading.

Section root.
Context {D : Type} {HD : Stream D} {SS : StreamSpec D} {TP : TimeProvider}.
Implicit Types fs : FileSystem D.

Lemma root_iter_find fs name : root_ok fs →
  ∃ d, (fs' ← this; on_clone (root_dir fs) (iter_find (dir_fuel fs') (dir_fuel fs') name)) fs =
      Ret (Ok (List.find (λ e, bool_decide (file_name e = name)) (root_entries fs)), set_disk fs d) ∧
    root_only fs d ∧ root_data (set_disk fs d) = root_data fs.
Proof.
  intros Hr. destruct (root_whole fs (ro_vol fs Hr)) as [Hw _]. rewrite (FM_step this _ fs fs fs eq_refl).
  destruct (on_root_ok fs Hr (iter_find (dir_fuel fs) (dir_fuel fs) name)
    (λ r l, r = Ok (List.find (λ e, bool_decide (file_name e = name)) (root_entries fs)) ∧ l = root_data fs)) as (r&d&Hx&Hd&->&Hl).
  - intros s Hs Hdata Hp. pose proof (root_fuel fs Hr) as Hf.
    destruct (iter_find_ok (DS := root_dir_spec fs (ro_marked fs Hr)) (dir_fuel fs) (dir_fuel fs) name 0 s Hs)
      as (s'&Hx&Hs'&Hd'); rewrite ?Hdata; try done; try lia.
    eexists _, s'. split; [exact Hx|]. split; [done|]. rewrite Hdata, drop_0. split; [done|congruence].
  - by exists d.
Qed.

(** A root directory of a FAT12/16 volume is a window of the disk, which has
    nothing to flush. *)
Lemma root_is_window fs : root_ok fs → ∃ s, root_dir fs = DRootDir s.
Proof. intros [_ _ Ht _]. unfold root_dir. destruct (fs_type fs); eauto. done. Qed.

Lemma root_dir_set fs d : root_dir (set_disk fs d) = root_dir fs.
Proof. done. Qed.

Lemma split_plain n : SLASH ∉ n → split_path n = (n, None).
Proof.
  intros Hn. assert (∀ p, SLASH ∉ p → trim_start p = p) as Htrim.
  { intros [|c p] Hp; [done|]. apply not_elem_of_cons in Hp as [Hc _]. cbn. by rewrite (proj2 (Z.eqb_neq _ _)). }
  assert (trim_matches n = n) as E.
  { unfold trim_matches. rewrite (Htrim n Hn), Htrim; [apply reverse_involutive|]. by rewrite elem_of_reverse. }
  unfold split_path. rewrite E. assert (split_once SLASH n = None) as ->; [|done].
  clear E. induction n as [|c n IH]; [done|]. apply not_elem_of_cons in Hn as [Hc Hn]. cbn.
  rewrite (proj2 (Z.eqb_neq _ _)) by done. by rewrite IH.
Qed.

(** No entry of the name: opening fails with [NotFound] and writes nothing. *)
Lemma root_open_missing fs name : root_ok fs → SLASH ∉ name → (∀ e, e ∈ root_entries fs → eq_name e name = false) →
  ∃ d, open_file (root_dir fs) name fs = Ret (Err ENotFound, set_disk fs d) ∧ root_only fs d ∧
    root_data (set_disk fs d) = root_data fs.
Proof.
  intros Hr Hn Hno. destruct (root_find fs name (Some false) None Hr) as (d&H&Hd&Hdata).
  exists d. split; [|done]. unfold open_file. cbn [open_file_at]. rewrite split_plain by done.
  assert (find_in name (root_entries fs) None = (None, None)) as E.
  { rewrite find_in_find. f_equal. clear H Hd Hdata. induction (root_entries fs) as [|e es IH]; [done|].
    cbn. rewrite Hno by set_solver. apply IH. set_solver. }
  rewrite E in H. unfold found in H. cbn in H.
  assert (Dir.find_entry (root_dir fs) name (Some false) fs = Ret (Err ENotFound, set_disk fs d)) as Hfe
    by (unfold Dir.find_entry; by fstep H).
  by rewrite (FM_step_err _ _ _ _ _ Hfe).
Qed.
End root.

(** ** Calls of the kernel on it *)

Lemma new_file_name e n : accepted n → de_lfn_utf16 e = n → file_name e = n.
Proof.
  intros Hn E. destruct (accepted_units n Hn) as (_&Hd&_). unfold file_name. rewrite E.
  assert (n ≠ []) as Hne by apply Hn. rewrite (proj2 (Z.ltb_lt _ _)) by (destruct n; [done|unfold len; cbn; lia]).
  rewrite Hd, <- list_fmap_compose. apply list_fmap_id.
Qed.

Section kernel.
Context {D : Type} {HD : Stream D} {SS : StreamSpec D} {TP : TimeProvider} {CK : ClockOk}.
Context {A : Type} `{BitAlloc A} `{PageFrameConfig}.
Implicit Types w : Kfs (D := D) (A := A).

Definition set_fat w (fs : FileSystem D) : Kfs (D := D) (A := A) := mkKfs fs (k_vfs w) (k_mem w) (k_link w) (k_count w) (k_mounted w).

Lemma fat_run {R} (x : FM (FileSystem D) R) w r fs : x (k_fat w) = Ret (r, fs) → fat x w = Ret (r, set_fat w fs).
Proof. intros E. unfold fat. by rewrite E. Qed.

Lemma fat_unwrap_run {R} (x : FM (FileSystem D) R) w r fs :
  x (k_fat w) = Ret (Ok r, fs) → fat_unwrap x w = Ret (r, set_fat w fs).
Proof. intros E. unfold fat_unwrap. by rewrite (M_bind_Ret _ _ _ _ _ (fat_run _ _ _ _ E)). Qed.

Lemma drop_root w s : drop_dir (DRootDir s) w = Ret (tt, w).
Proof. unfold drop_dir. rewrite (fat_unwrap_run _ w tt (k_fat w)); [by destruct w|done]. Qed.

Lemma path_in_root w dir_name file_path n :
  split_path_and_file dir_name file_path = Ret (Some (ROOT_DIR, n)) → k_link w !! mkDisc ROOT_DIR n = None →
  map_path_and_file dir_name file_path w = Ret (Some (ROOT_DIR, n), w).
Proof.
  intros Hs Hl. rewrite (map_path_resolves w _ _ _ Hs). unfold resolve, disc_of. cbn [fst snd]. by rewrite Hl.
Qed.


(** The check of a file looks for the name among the entries. *)
Lemma check_in_root w dir_name file_path n : root_ok (k_fat w) →
  split_path_and_file dir_name file_path = Ret (Some (ROOT_DIR, n)) → k_link w !! mkDisc ROOT_DIR n = None →
  ∃ d, check_file_exists dir_name file_path w =
      Ret (match List.find (λ e, bool_decide (file_name e = n)) (root_entries (k_fat w)) with
           | Some e => negb (entry_is_dir (de_data e))
           | None => false
           end, set_fat w (set_disk (k_fat w) d)) ∧
    root_only (k_fat w) d ∧ root_data (set_disk (k_fat w) d) = root_data (k_fat w).
Proof.
  intros Hr Hs Hl. destruct (root_iter_find (k_fat w) n Hr) as (d&Hx&Hd&Hdata). exists d. split; [|done].
  destruct (root_is_window _ Hr) as [s Hroot]. unfold check_file_exists, memory_root.
  assert (gets (λ w, root_dir (k_fat w)) w = Ret (root_dir (k_fat w), w)) as Hg by done.
  step Hg. step (path_in_root _ _ _ _ Hs Hl).
  assert (on_vfs (λ v, e ← check_virt_file_exists v ROOT_DIR n; Ret (e, v)) w = Ret (None, w)) as Hv by (by destruct w).
  step Hv. assert (inner_open_dir (root_dir (k_fat w)) ROOT_DIR w = Ret (Some (root_dir (k_fat w)), w)) as Ho by done.
  step Ho. unfold find_in_dir. step (fat_unwrap_run _ w _ _ Hx). rewrite Hroot. step (drop_root (set_fat w (set_disk (k_fat w) d)) s).
  by destruct (List.find _ _).
Qed.

(** Opening a path with [CREATE], when its directory is the root, the name
    is no link and new there, makes the file: of everything only the root
    directory changes, by one entry with that name and size 0, and the file
    comes back with the access the flags ask for, also when it is opened again;
    the kernel's check then finds it. *)
Theorem open_creates_file w dir_name file_path flags c name : let n := c :: name in
  root_ok (k_fat w) → split_path_and_file dir_name file_path = Ret (Some (ROOT_DIR, n)) →
  k_link w !! mkDisc ROOT_DIR n = None → accepted n → n ≠ [DOT] → c < 0x80 → list.last n ≠ Some 0xFFFF →
  has_flags flags O_CREATE = true → has_flags flags O_DIR = false → has_flags flags O_DSYNC = false →
  tidy (slots (root_data (k_fat w))) →
  Z.of_nat (used (slots (root_data (k_fat w)))) + (len n + 12) / 13 + 1 <= len (root_data (k_fat w)) / 32 →
  (∀ e, e ∈ root_entries (k_fat w) → eq_name e n = false ∧ file_name e ≠ n) →
  ∃ fs file e l1 l2, k_open_file dir_name file_path flags w =
      Ret (Some (OFat (FatFile.mkFatFile (fst (open_read_write flags)) (snd (open_read_write flags))) ROOT_DIR n flags file), set_fat w fs) ∧
    root_ok fs ∧ fat_data fs = fat_data (k_fat w) ∧ clusters_kept (k_fat w) fs (λ _, False) ∧
    root_entries (k_fat w) = l1 ++ l2 ∧ root_entries fs = l1 ++ e :: l2 ∧
    de_lfn_utf16 e = n ∧ entry_size (de_data e) = Some 0 ∧
    (∃ fs', open_file (root_dir fs) n fs = Ret (Ok file, fs')) ∧
    ∃ w', check_file_exists dir_name file_path (set_fat w fs) = Ret (true, w').
Proof.
  intros n Hr Hs Hl Hn Hdot Hc Hlast Hcreate Hdir Hdsync Ht Hroom Hno.
  assert (SLASH ∉ n) as Hslash by (destruct (split_path_is_normal_aux _ _ _ _ Hs) as (_&?&_); done).
  assert (∀ e, e ∈ root_entries (k_fat w) → eq_name e n = false) as Hno1 by (intros e He; by apply Hno).
  destruct (root_open_missing (k_fat w) n Hr Hslash Hno1) as (d1&H1&Hd1&Hdata1).
  pose proof (root_ok_set _ d1 Hr Hd1) as Hr1. pose proof (root_same _ d1 Hd1 Hdata1) as Hents1.
  destruct (create_in_root (set_disk (k_fat w) d1) n c name Hr1) as (d2&file&e&l1&l2&H2&Hd2&Hfile&Hr2&_&Hfat&Hcl&Hl1&Hl2&Hlfn&Hsize&_&Hopen);
    rewrite ?Hdata1, ?Hents1; try done; [by apply split_plain|]. rewrite Hents1 in Hl1.
  pose proof (root_only_trans _ _ _ Hd1 Hd2) as Hd. destruct (root_only_vol _ _ (ro_vol _ Hr) Hd) as (_&_&Hfat2&Hcl2).
  change (set_disk (set_disk (k_fat w) d1) d2) with (set_disk (k_fat w) d2) in *.
  exists (set_disk (k_fat w) d2), file, e, l1, l2. destruct (root_is_window _ Hr) as [s Hroot].
  split; [|do 7 (split; [done|]); split; [exact Hopen|]].
  - unfold k_open_file, memory_root.
    assert (gets (λ w, root_dir (k_fat w)) w = Ret (root_dir (k_fat w), w)) as Hg by done.
    step Hg. step (path_in_root _ _ _ _ Hs Hl).
    assert (on_vfs_mem (λ v, get_virt_file_if_possible v ROOT_DIR n flags) w = Ret (None, w)) as Hv by (by destruct w).
    step Hv. rewrite decide_False by done.
    assert (inner_open_dir (root_dir (k_fat w)) ROOT_DIR w = Ret (Some (root_dir (k_fat w)), w)) as Ho by done.
    step Ho.
    assert (open_in_dir (root_dir (k_fat w)) ROOT_DIR n flags w =
      Ret (Some (OFat (FatFile.mkFatFile (fst (open_read_write flags)) (snd (open_read_write flags))) ROOT_DIR n flags file),
           set_fat w (set_disk (k_fat w) d2))) as Hin.
    { unfold open_in_dir. rewrite Hdir, Hdsync, str_len_nil, bool_decide_false by done. cbn [orb].
      destruct (open_read_write flags) as [rd wr]. step (fat_run _ w _ _ H1). rewrite Hcreate.
      change (root_dir (k_fat w)) with (root_dir (set_disk (k_fat w) d1)) in *.
      by step (fat_unwrap_run _ (set_fat w (set_disk (k_fat w) d1)) _ _ H2). }
    step Hin. rewrite Hroot. by step (drop_root (set_fat w (set_disk (k_fat w) d2)) s).
  - destruct (check_in_root (set_fat w (set_disk (k_fat w) d2)) dir_name file_path n Hr2 Hs Hl) as (d3&H3&_).
    eexists. rewrite H3. cbn [k_fat set_fat]. rewrite Hl2.
    assert (List.find (λ e, bool_decide (file_name e = n)) (l1 ++ e :: l2) = Some e) as ->; [|by rewrite Hfile].
    assert (∀ x, x ∈ l1 → file_name x ≠ n) as Hl1n.
    { intros x Hx. apply Hno. rewrite Hl1. apply elem_of_app. by left. }
    clear -Hl1n Hn Hlfn. induction l1 as [|x l1 IH]; cbn.
    + rewrite bool_decide_true; [done|by apply new_file_name].
    + rewrite bool_decide_false by (apply Hl1n; left). apply IH. intros y Hy. apply Hl1n. by right.
Qed.
(** C18. Removing a file of the root directory that has no links by a path, as
    [unlink] does it: its entry leaves the directory, its clusters are free, and
    nothing else changes - the other entries, the virtual directories and the
    link tables are as they were. *)
Theorem unlink_removes_file w path file n e l1 l2 cs : root_ok (k_fat w) →
  split_path_and_file path file = Ret (Some (ROOT_DIR, n)) →
  k_link w !! mkDisc ROOT_DIR n = None → k_count w !! mkDisc ROOT_DIR n = None →
  root_entries (k_fat w) = l1 ++ e :: l2 → (∀ x, x ∈ l1 → eq_name x n = false ∧ file_name x ≠ n) →
  eq_name e n = true → file_name e = n → entry_is_dir (de_data e) = false →
  match de_first_cluster e (k_fat w) with
  | Some c => chain (fs_type (k_fat w)) (fat_data (k_fat w)) c cs ∧
      (∀ x, x ∈ cs → data_cluster (fs_total_clusters (k_fat w)) x ∧ value (fs_type (k_fat w)) (fat_data (k_fat w)) x ≠ Free)
  | None => cs = []
  end →
  ∃ fs, try_remove_link path file w = Ret (true, set_fat w fs) ∧ root_ok fs ∧ root_entries fs = l1 ++ l2 ∧
    freed (fs_type (k_fat w)) (fat_data (k_fat w)) (fat_data fs) cs ∧ clusters_kept (k_fat w) fs (λ _, False).
Proof.
  intros Hr Hs Hl Hcount Hents Hl1 He Hname Hfile Hcs.
  destruct (split_path_is_normal_aux _ _ _ _ Hs) as (_&Hslash&Hs').
  destruct (check_in_root w ROOT_DIR n n Hr Hs' Hl) as (d&Hcheck&Hd&Hdata).
  assert (List.find (λ x, bool_decide (file_name x = n)) (root_entries (k_fat w)) = Some e) as Hfind.
  { rewrite Hents. clear -Hl1 Hname. induction l1 as [|x l1 IH]; cbn; [by rewrite bool_decide_true|].
    rewrite bool_decide_false by (apply Hl1; left). apply IH. intros y Hy. apply Hl1. by right. }
  rewrite Hfind, Hfile in Hcheck. cbn [negb] in Hcheck. set (fs1 := set_disk (k_fat w) d) in *.
  destruct (root_only_vol _ _ (ro_vol _ Hr) Hd) as (_&_&Hfat&Hcl). fold fs1 in Hfat, Hcl.
  destruct (remove_in_root fs1 n n e l1 l2 cs) as (fs&Hrm&Hr2&Hents2&_&Hfr&Hcl2); try done.
  - by apply root_ok_set.
  - by apply split_plain.
  - unfold fs1. by rewrite (root_same _ _ Hd Hdata).
  - intros x Hx. by apply Hl1.
  - by rewrite Hfat.
  - rewrite Hfat in Hfr. exists fs. split; [|split; [done|split; [done|split; [done|]]]].
    2: { intros x Hx Hn. rewrite Hcl2 by done. by apply Hcl. }
    destruct (root_is_window _ Hr) as [s Hroot]. unfold try_remove_link, split_and_parse.
    step (path_in_root _ _ _ _ Hs Hl). step Hcheck.
    assert (unlink (mkDisc path file) (mkDisc ROOT_DIR n) (set_fat w fs1) = Ret (true, set_fat w fs1)) as Hu.
    { unfold unlink. cbn [k_count k_link set_fat]. rewrite Hcount. cbn [default]. rewrite bind_Ret.
      change (wrap64 (1 - 1) =? 0) with true. cbn iota. unfold set_links, set_fat. cbn. by rewrite delete_id. }
    step Hu.
    assert (k_remove_file ROOT_DIR n (set_fat w fs1) = Ret (tt, set_fat w fs)) as Hrun; [|by step Hrun].
    unfold k_remove_file, memory_root.
    assert (gets (λ w, root_dir (k_fat w)) (set_fat w fs1) = Ret (root_dir fs1, set_fat w fs1)) as Hg by done.
    step Hg.
    assert (on_vfs (λ v, try_remove_virt_file v ROOT_DIR n) (set_fat w fs1) = Ret (None, set_fat w fs1)) as Hv by done.
    step Hv.
    assert (inner_open_dir (root_dir fs1) ROOT_DIR (set_fat w fs1) = Ret (Some (root_dir fs1), set_fat w fs1)) as Ho by done.
    step Ho. assert (lift_o (unwrap (Some (root_dir fs1))) (set_fat w fs1) = Ret (root_dir fs1, set_fat w fs1)) as Hx by done.
    step Hx. step (fat_unwrap_run _ (set_fat w fs1) _ _ Hrm). change (root_dir fs1) with (root_dir (k_fat w)). rewrite Hroot.
    by rewrite drop_root.
Qed.
End kernel.

Section witness.
Import LinkedVolume.
#[local] Existing Instance RootVolume.small_clock_ok.

(** [open("./dev/../a b.txt", O_CREAT)] on the volume with one file. *)
Lemma open_creates_file_witness : ∃ w' file,
  k_open_file ROOT_DIR (lit "dev/../a b.txt") O_CREATE boot =
    Ret (Some (OFat (FatFile.mkFatFile true true) ROOT_DIR (lit "a b.txt") O_CREATE file), w') ∧
  length (root_entries (k_fat w')) = 2%nat.
Proof.
  destruct (open_creates_file boot ROOT_DIR (lit "dev/../a b.txt") O_CREATE 0x61 (lit " b.txt"))
    as (fs&file&e&l1&l2&Hrun&_&_&_&Hl1&Hl2&_).
  - exact RootVolume.root_volume_ok.
  - by vm_compute.
  - done.
  - apply RootVolume.accepted_by_check. by vm_compute.
  - done.
  - done.
  - done.
  - by vm_compute.
  - by vm_compute.
  - by vm_compute.
  - exact RootVolume.volume_tidy.
  - by vm_compute.
  - intros x. change (k_fat boot) with RootVolume.volume. rewrite RootVolume.volume_entries, list_elem_of_singleton. intros ->.
    split; [by vm_compute|]. intros E. by vm_compute in E.
  - exists (set_fat boot fs), file. split; [exact Hrun|]. cbn [k_fat set_fat].
    change (k_fat boot) with RootVolume.volume in Hl1. rewrite RootVolume.volume_entries in Hl1.
    rewrite Hl2. apply (f_equal length) in Hl1. rewrite !length_app in *. cbn in *. lia.
Defined.

(** [unlink("dev/../HELLO.TXT")] *)
Lemma unlink_removes_file_witness : ∃ w',
  try_remove_link ROOT_DIR (lit "dev/../HELLO.TXT") boot = Ret (true, w') ∧ root_entries (k_fat w') = [].
Proof.
  destruct (unlink_removes_file boot ROOT_DIR (lit "dev/../HELLO.TXT") (lit "HELLO.TXT") RootVolume.hello [] [] [2; 3])
    as (fs&Hrun&_&Hents&_).
  - exact RootVolume.root_volume_ok.
  - by vm_compute.
  - done.
  - done.
  - exact RootVolume.volume_entries.
  - by intros x Hx%not_elem_of_nil.
  - by vm_compute.
  - by vm_compute.
  - by vm_compute.
  - exact RootVolume.hello_chain.
  - exists (set_fat boot fs). by split.
Defined.
End witness.
