(* ===== verification/Waiting.v ===== *)
(** * Waiting for files (modules/poll, modules/select, modules/epoll)

    The system calls that look at descriptors again and again until one is ready
    or the time is over.  What they ask of the kernel, one question after the
    other ([TaskTrampoline], the readiness methods of [File] and the clock), is a
    parameter: a question is answered in the state [W] it finds and leaves the
    state the next one finds, so other cores go on between any two questions.
    Between two rounds the task gives way ([suspend_current_task]). *)

From stdpp Require Import sorting.
From S2P Require Import Prelude Bytes Bitset Errors.

(** What the modules ask of the kernel.  The clocks are [usize]. *)
Class TaskTrampoline (W F : Type) := {
  tt_get_file : Z → W → option F * W;
  in_exceptional_conditions : F → W → bool * W;
  is_hang_up : F → W → bool * W;
  ready_to_read : F → W → bool * W;
  ready_to_write : F → W → bool * W;
  get_time : W → Z;
  get_time_ms : W → Z;
  manually_alloc_range : Z → Z → W → bool * W;
  manually_alloc_user_str : Z → Z → W → bool * W;
  suspend_current_task : W → W;
  get_time_usize w : 0 <= get_time w < 2 ^ 64;
  get_time_ms_usize w : 0 <= get_time_ms w < 2 ^ 64 }.

Definition USIZE_MAX : Z := 2 ^ 64 - 1.

(** The flags of [PollEvents]; those of [EpollEventType] have the same values. *)
Definition EV_IN : Z := 0x1.
Definition EV_OUT : Z := 0x4.
Definition EV_ERR : Z := 0x8.
Definition EV_HUP : Z := 0x10.

Record PollFd := mkPollFd { pf_fd : Z; pf_events : Z; pf_revents : Z }.

Section waiting.
Context {W F : Type} `{TaskTrampoline W F}.

(** One question after the other. *)
Fixpoint mapQ {X Y} (f : X → W → Y * W) (l : list X) (w : W) : list Y * W :=
  match l with
  | [] => ([], w)
  | x :: l => let '(y, w) := f x w in let '(ys, w) := mapQ f l w in (y :: ys, w)
  end.

(** [poll]: what happened of the events asked for; errors and a closed other end
    always count. *)
Definition poll (file : F) (events : Z) (w : W) : Z * W :=
  let ret := 0 in
  let '(b, w) := in_exceptional_conditions file w in
  let ret := if b : bool then Z.lor ret EV_ERR else ret in
  let '(b, w) := is_hang_up file w in
  let ret := if b : bool then Z.lor ret EV_HUP else ret in
  let '(b, w) := if Z.land events EV_IN =? EV_IN then ready_to_read file w else (false, w) in
  let ret := if b : bool then Z.lor ret EV_IN else ret in
  let '(b, w) := if Z.land events EV_OUT =? EV_OUT then ready_to_write file w else (false, w) in
  (if b : bool then Z.lor ret EV_OUT else ret, w).

(** ** The loop

    A round asks about everything and updates what the call keeps, [s]; the loop
    ends when it found something or the time is over.  [None]: after [fuel]
    rounds the call is still waiting. *)
Fixpoint wait {R S} (fuel : nat) (round : S → W → R * S * W) (found : R → bool) (now : W → Z) (expire_time : Z)
    (s : S) (w : W) : option (R * S * W) :=
  match fuel with
  | O => None
  | S fuel =>
      let '(r, s, w) := round s w in
      if found r || (expire_time <? now w) then Some (r, s, w)
      else wait fuel round found now expire_time s (suspend_current_task w)
  end.

(** ** [ppoll] *)

(** One descriptor; whether it counts. *)
Definition poll_fd (req_fd : PollFd) (w : W) : bool * PollFd * W :=
  let '(file, w) := tt_get_file (wrap64 (pf_fd req_fd)) w in
  match file with
  | Some file =>
      let '(revents, w) := poll file (pf_events req_fd) w in
      (negb (revents =? 0), mkPollFd (pf_fd req_fd) (pf_events req_fd) revents, w)
  | None => (true, mkPollFd (pf_fd req_fd) (pf_events req_fd) EV_ERR, w)
  end.

(** All of them: the number that counts. *)
Definition poll_round (fds : list PollFd) (w : W) : Z * list PollFd * W :=
  let '(rs, w) := mapQ poll_fd fds w in
  (Z.of_nat (length (filter (λ r, fst r = true) rs)), snd <$> rs, w).

Definition ppoll (fuel : nat) (fds : list PollFd) (expire_time : Z) (w : W) : option (Z * list PollFd * W) :=
  wait fuel poll_round (λ set, 0 <? set) get_time expire_time fds w.

(** The limit of a time span; without one the call never expires. *)
Definition expire_at (now : Z) (timeout : option Z) : Z :=
  match timeout with Some t => wrap64 (now + t) | None => USIZE_MAX end.

(** [sys_ppoll] with the descriptors read from the user, which it writes back;
    [get_ticks] of the time span is an argument. *)
Definition sys_ppoll (fuel : nat) (ufds : Z) (fds : list PollFd) (timeout : option (Z * Z)) (w : W)
    : option (SysResult Z * list PollFd * W) :=
  let '(ok, w) := manually_alloc_user_str ufds (wrap64 (Z.of_nat (length fds) * 8)) w in
  if negb ok then Some (inr EFAULT, fds, w)
  else match timeout with
       | Some (addr, ticks) =>
           let '(ok, w) := manually_alloc_range addr (wrap64 (addr + 15)) w in
           if negb ok then Some (inr EFAULT, fds, w)
           else '(set, fds, w) ← ppoll fuel fds (expire_at (get_time w) (Some ticks)) w; Some (inl set, fds, w)
       | None => '(set, fds, w) ← ppoll fuel fds (expire_at (get_time w) None) w; Some (inl set, fds, w)
       end.

(** ** [pselect] *)

(** The files of the bits, in the order of the descriptors; [None] when one is
    not open. *)
Fixpoint select_files (set : ShadowBitset) (words : Z → Z) (fds : list Z) (w : W) : option (list (Z * F)) * W :=
  match fds with
  | [] => (Some [], w)
  | fd :: fds =>
      if sb_check set fd words then
        let '(file, w) := tt_get_file fd w in
        match file with
        | Some file =>
            let '(rest, w) := select_files set words fds w in
            ((λ rest, (fd, file) :: rest) <$> rest, w)
        | None => (None, w)
        end
      else select_files set words fds w
  end.

Definition init_fd_sets (addr len : Z) (words : Z → Z) (w : W)
    : SysResult (list (Z * F) * ShadowBitset) * (Z → Z) * W :=
  let shadow_bitset := mkShadow addr len in
  if addr =? 0 then (inl ([], shadow_bitset), words, w)
  else
    let '(ok, w) := manually_alloc_range addr (wrap64 (addr + Z.land (wrap64 (len + 63)) 63)) w in
    if negb ok then (inr EFAULT, words, w)
    else
      let '(files, w) := select_files shadow_bitset words (seqZ 0 len) w in
      match files with
      | Some files => (inl (files, shadow_bitset), sb_clear shadow_bitset words, w)
      | None => (inr EBADF, words, w)
      end.

(** The bits of the files that are ready; how many. *)
Fixpoint mark_files (ready : F → W → bool * W) (set : ShadowBitset) (files : list (Z * F)) (n : Z) (words : Z → Z)
    (w : W) : Z * (Z → Z) * W :=
  match files with
  | [] => (n, words, w)
  | (fd, file) :: files =>
      let '(b, w) := ready file w in
      if b : bool then mark_files ready set files (n + 1) (sb_set set fd words) w
      else mark_files ready set files n words w
  end.

(** The three sets: the files asked for and the words of the user. *)
Record FdSets := mkSets { fs_files : list (Z * F); fs_set : ShadowBitset; fs_words : Z → Z }.

Definition mark_ready (ready : F → W → bool * W) (s : FdSets) (n : Z) (w : W) : Z * FdSets * W :=
  if sb_is_valid (fs_set s) then
    let '(n, words, w) := mark_files ready (fs_set s) (fs_files s) n (fs_words s) w in
    (n, mkSets (fs_files s) (fs_set s) words, w)
  else (n, s, w).

Definition select_round (sets : FdSets * FdSets * FdSets) (w : W) : Z * (FdSets * FdSets * FdSets) * W :=
  let '(r, wr, e) := sets in
  let set := 0 in
  let '(set, r, w) := mark_ready ready_to_read r set w in
  let '(set, wr, w) := mark_ready ready_to_write wr set w in
  let '(set, e, w) := mark_ready in_exceptional_conditions e set w in
  (set, (r, wr, e), w).

(** The time is looked at after the task gave way. *)
Fixpoint select_loop (fuel : nat) (expire_time : Z) (sets : FdSets * FdSets * FdSets) (w : W)
    : option (Z * (FdSets * FdSets * FdSets) * W) :=
  match fuel with
  | O => None
  | S fuel =>
      let '(set, sets, w) := select_round sets w in
      if 0 <? set then Some (set, sets, w)
      else
        let w := suspend_current_task w in
        if expire_time <? get_time w then Some (0, sets, w) else select_loop fuel expire_time sets w
  end.

Definition FD_LIMIT_HARD : Z := 256.

(** The words of the three sets after the call; a set that was cleared before an
    error stays so. *)
Definition sys_pselect6 (fuel : nat) (nfds readfds writefds exceptfds : Z) (rw ww ew : Z → Z) (timeout : option (Z * Z)) (w : W)
    : option (SysResult Z * ((Z → Z) * (Z → Z) * (Z → Z)) * W) :=
  if FD_LIMIT_HARD <=? nfds then Some (inr EINVAL, (rw, ww, ew), w)
  else match init_fd_sets readfds nfds rw w with
  | (inr e, rw, w) => Some (inr e, (rw, ww, ew), w)
  | (inl (rfiles, rset), rw, w) =>
  match init_fd_sets writefds nfds ww w with
  | (inr e, ww, w) => Some (inr e, (rw, ww, ew), w)
  | (inl (wfiles, wset), ww, w) =>
  match init_fd_sets exceptfds nfds ew w with
  | (inr e, ew, w) => Some (inr e, (rw, ww, ew), w)
  | (inl (efiles, eset), ew, w) =>
      let run expire_time w :=
        '(set, (r, wr, e), w) ← select_loop fuel expire_time (mkSets rfiles rset rw, mkSets wfiles wset ww, mkSets efiles eset ew) w;
        Some (inl set, (fs_words r, fs_words wr, fs_words e), w) in
      match timeout with
      | Some (addr, ticks) =>
          let '(ok, w) := manually_alloc_range addr (wrap64 (addr + 15)) w in
          if negb ok then Some (inr EFAULT, (rw, ww, ew), w)
          else run (expire_at (get_time w) (Some ticks)) w
      | None => run (expire_at (get_time w) None) w
      end
  end end end.
End waiting.

(** ** [epoll] *)

Record EpollEvent := mkEpollEvent { ev_events : Z; ev_data : Z }.

#[export] Instance EpollEvent_eq_dec : EqDecision EpollEvent.
Proof. solve_decision. Defined.

Inductive EpollCtl := ADD | DEL | MOD.

(** [EpollCtl::try_from] *)
Definition epoll_ctl_of (op : Z) : option EpollCtl :=
  if op =? 1 then Some ADD else if op =? 2 then Some DEL else if op =? 3 then Some MOD else None.

(** [interest_list]: the events asked for, by descriptor. *)
Abbreviation Interest := (gmap Z EpollEvent).

Definition epoll_ctl (op : EpollCtl) (fd : Z) (event : EpollEvent) (interest : Interest) : SysResult unit * Interest :=
  match op with
  | ADD => match interest !! fd with Some _ => (inr EEXIST, interest) | None => (inl tt, <[fd := event]> interest) end
  | MOD => match interest !! fd with Some _ => (inl tt, <[fd := event]> interest) | None => (inr ENOENT, interest) end
  | DEL => match interest !! fd with Some _ => (inl tt, delete fd interest) | None => (inr ENOENT, delete fd interest) end
  end.

Definition key_le (a b : Z * EpollEvent) : Prop := a.1 <= b.1.

#[export] Instance key_le_dec : RelDecision key_le.
Proof. intros a b. unfold key_le. apply _. Defined.

(** The entries of a map in the order of the keys, as [BTreeMap] goes through them. *)
Definition in_order (interest : Interest) : list (Z * EpollEvent) :=
  merge_sort key_le (map_to_list interest).

(** The data of every event is its descriptor from here on. *)
Definition get_epoll_events (interest : Interest) : list EpollEvent :=
  (λ '(fd, evt), mkEpollEvent (ev_events evt) (wrap64 fd)) <$> in_order interest.

Section epoll.
Context {W F : Type} `{TaskTrampoline W F}.

(** What one event gives back, if anything. *)
Definition epoll_one (req_fd : EpollEvent) (w : W) : option EpollEvent * W :=
  let '(file, w) := tt_get_file (ev_data req_fd) w in
  match file with
  | Some file =>
      let '(revents, w) := poll file (ev_events req_fd) w in
      (if revents =? 0 then None else Some (mkEpollEvent revents (ev_data req_fd)), w)
  | None => (Some (mkEpollEvent EV_ERR (ev_data req_fd)), w)
  end.

Definition epoll_round (epoll_events : list EpollEvent) (w : W) : list EpollEvent * list EpollEvent * W :=
  let '(rs, w) := mapQ epoll_one epoll_events w in
  (omap id rs, epoll_events, w).

Definition epoll_wait (fuel : nat) (interest : Interest) (expire_time : Z) (w : W) : option (list EpollEvent * W) :=
  '(ret_events, _, w) ←
    wait fuel epoll_round (λ ret_events, negb (bool_decide (ret_events = []))) get_time_ms expire_time (get_epoll_events interest) w;
  Some (ret_events, w).

(** [ready_to_read] of an epoll file. *)
Fixpoint epoll_any (epoll_events : list EpollEvent) (w : W) : bool * W :=
  match epoll_events with
  | [] => (false, w)
  | req_fd :: epoll_events =>
      let '(file, w) := tt_get_file (ev_data req_fd) w in
      match file with
      | Some file =>
          let '(revents, w) := poll file (ev_events req_fd) w in
          if negb (revents =? 0) then (true, w) else epoll_any epoll_events w
      | None => epoll_any epoll_events w
      end
  end.

Definition epoll_ready_to_read (interest : Interest) (w : W) : bool * W := epoll_any (get_epoll_events interest) w.

(** [downcast_ref::<EpollFile>()]: the address of the list, which clones share. *)
Class EpollFiles (F : Type) := as_epoll : F → option Z.
Context `{EpollFiles F}.

(** [push_file] of a new list with its address; the descriptor, or none. *)
Definition sys_epoll_create (push_file : Z → W → option Z * W) (epolls : gmap Z Interest) (w : W)
    : SysResult Z * gmap Z Interest * W :=
  let p := fresh (dom epolls) in
  match push_file p w with
  | (Some fd, w) => (inl fd, <[p := ∅]> epolls, w)
  | (None, w) => (inr EMFILE, epolls, w)
  end.

(** The epoll file of a descriptor. *)
Definition get_epoll (epfd : Z) (w : W) : option Z * W :=
  let '(file, w) := tt_get_file (wrap64 epfd) w in (file ≫= as_epoll, w).

Definition sys_epoll_ctl (epfd op fd event_ptr : Z) (event : EpollEvent) (epolls : gmap Z Interest) (w : W)
    : SysResult Z * gmap Z Interest * W :=
  let '(ok, w) := manually_alloc_range event_ptr (wrap64 (event_ptr + 15)) w in
  if negb ok then (inr EFAULT, epolls, w)
  else match epoll_ctl_of op with
  | None => (inr EINVAL, epolls, w)
  | Some operator =>
  match get_epoll epfd w with
  | (None, w) => (inr EBADF, epolls, w)
  | (Some p, w) =>
  match tt_get_file (wrap64 fd) w with
  | (None, w) => (inr EBADF, epolls, w)
  | (Some _, w) =>
      let '(r, interest) := epoll_ctl operator fd event (default ∅ (epolls !! p)) in
      (match r with inl _ => inl 0 | inr e => inr e end, <[p := interest]> epolls, w)
  end end end.

(** The number and the events written to the user, from [event] on: all of
    them, [maxevents] is not looked at. *)
Definition sys_epoll_wait (fuel : nat) (epfd event_ptr maxevents timeout : Z) (epolls : gmap Z Interest) (w : W)
    : option (SysResult Z * list EpollEvent * W) :=
  let '(ok, w) := manually_alloc_range event_ptr (wrap64 (event_ptr + 15)) w in
  if negb ok then Some (inr EFAULT, [], w)
  else match get_epoll epfd w with
  | (None, w) => Some (inr EBADF, [], w)
  | (Some p, w) =>
      let expire_time := if 0 <=? timeout then wrap64 (get_time_ms w + timeout) else USIZE_MAX in
      '(ret_events, w) ← epoll_wait fuel (default ∅ (epolls !! p)) expire_time w;
      Some (inl (Z.of_nat (length ret_events)), ret_events, w)
  end.
End epoll.
