(* ===== verification/WaitingSpec.v ===== *)
(** * Waiting ends with what is ready

    A wait returns after the first round in which something asked for answered
    or the time was over, and then reports what answered in that round, all of
    it and nothing else; without such a round it never returns. *)

From stdpp Require Import sorting.
From S2P Require Import Prelude Bytes Bitset Errors Waiting.

(** ** Questions *)

Section asked.
Context {W F : Type} {TT : TaskTrampoline W F}.

(** The state in which each question is asked. *)
Fixpoint asked {X Y} (f : X → W → Y * W) (l : list X) (w : W) : list (X * W) :=
  match l with [] => [] | x :: l => (x, w) :: asked f l (f x w).2 end.

Lemma asked_fst {X Y} (f : X → W → Y * W) l w : (asked f l w).*1 = l.
Proof. revert w. induction l as [|x l IH]; intros w; [done|]. cbn. by rewrite IH. Qed.

Lemma mapQ_asked {X Y} (f : X → W → Y * W) l w :
  (mapQ f l w).1 = (λ xw : X * W, (f xw.1 xw.2).1) <$> asked f l w.
Proof.
  revert w. induction l as [|x l IH]; intros w; [done|]. cbn. specialize (IH (f x w).2).
  destruct (f x w) as [y w1]. cbn in *. destruct (mapQ f l w1) as [ys w2]. cbn in *. by rewrite IH.
Qed.

(** Questions of the same kind. *)
Lemma asked_fmap {X X' Y Y'} (f : X → W → Y * W) (f' : X' → W → Y' * W) (g : X → X') l w :
  (∀ x w, x ∈ l → (f' (g x) w).2 = (f x w).2) →
  asked f' (g <$> l) w = prod_map g id <$> asked f l w ∧ (mapQ f' (g <$> l) w).2 = (mapQ f l w).2.
Proof.
  revert w. induction l as [|x l IH]; intros w Hg; [done|]. cbn. rewrite Hg by (by left).
  destruct (IH (f x w).2) as [H1 H2]; [intros; apply Hg; by right|]. split; [by rewrite H1|].
  pose proof (Hg x w ltac:(by left)) as Hx. destruct (f x w) as [y w1], (f' (g x) w) as [y' w1']. cbn in *. subst.
  destruct (mapQ f' (g <$> l) w1), (mapQ f l w1). done.
Qed.

(** ** The loop *)

Section rounds.
Context {R St : Type} (round : St → W → R * St * W) (found : R → bool) (now : W → Z) (expire_time : Z) (s : St).
(** A round does not depend on what the rounds before left. *)
Context (Hround : ∀ w w', round (round s w').1.2 w = round s w).

(** The state at the beginning of round [k]. *)
Definition turn (k : nat) (w : W) : W := Nat.iter k (λ w, suspend_current_task (round s w).2) w.

Lemma turn_S k w : turn k (suspend_current_task (round s w).2) = turn (S k) w.
Proof. unfold turn. by rewrite Nat.iter_succ_r. Qed.

Definition stops (w : W) : bool := found (round s w).1.1 || (expire_time <? now (round s w).2).

Lemma wait_stops k : ∀ fuel w, (∀ j, (j < k)%nat → stops (turn j w) = false) → stops (turn k w) = true → (k < fuel)%nat →
  wait fuel round found now expire_time s w = Some (round s (turn k w)).
Proof.
  assert (∀ fuel w s', (∀ w', round s' w' = round s w') → (∀ j, (j < k)%nat → stops (turn j w) = false) →
    stops (turn k w) = true → (k < fuel)%nat →
    wait fuel round found now expire_time s' w = Some (round s (turn k w))) as Hgen; [|intros; by apply Hgen].
  induction k as [|k IH]; intros [|fuel] w s' Hs Hj Hk Hf; try lia; cbn [wait]; rewrite Hs.
  - change (turn 0 w) with w in *. unfold stops in Hk. destruct (round s w) as [[r s2] w2] eqn:E. cbn [fst snd] in Hk. by rewrite Hk.
  - pose proof (Hj 0%nat ltac:(lia)) as H0. change (turn 0 w) with w in H0. unfold stops in H0.
    pose proof (turn_S k w) as HS. pose proof (λ j, turn_S j w) as HSj.
    destruct (round s w) as [[r s2] w2] eqn:E. cbn [fst snd] in H0, HS, HSj. rewrite H0, (IH fuel).
    + by rewrite HS.
    + intros w'. specialize (Hround w' w). by rewrite E in Hround.
    + intros j ?. rewrite HSj. apply Hj. lia.
    + by rewrite HS.
    + lia.
Qed.

Lemma wait_never fuel : ∀ w, (∀ k, stops (turn k w) = false) → wait fuel round found now expire_time s w = None.
Proof.
  assert (∀ w s', (∀ w', round s' w' = round s w') → (∀ k, stops (turn k w) = false) →
    wait fuel round found now expire_time s' w = None) as Hgen; [|intros; by apply Hgen].
  induction fuel as [|fuel IH]; intros w s' Hs Hk; [done|]. cbn [wait]. rewrite Hs.
  pose proof (Hk 0%nat) as H0. change (turn 0 w) with w in H0. unfold stops in H0. pose proof (λ j, turn_S j w) as HSj.
  destruct (round s w) as [[r s2] w2] eqn:E. cbn [fst snd] in H0, HSj. rewrite H0. apply IH.
  - intros w'. specialize (Hround w' w). by rewrite E in Hround.
  - intros k. by rewrite HSj.
Qed.

Lemma first_stop (stop : nat → bool) : (∃ k, stop k = true) → ∃ k, stop k = true ∧ ∀ j, (j < k)%nat → stop j = false.
Proof.
  intros [n Hn]. revert stop Hn. induction n as [|n IH]; intros stop Hn.
  - exists 0%nat. split; [done|]. lia.
  - destruct (stop 0%nat) eqn:E; [exists 0%nat; split; [done|lia]|].
    destruct (IH (λ k, stop (S k)) Hn) as (k & Hk & Hj). exists (S k). split; [done|].
    intros [|j] ?; [done|]. apply Hj. lia.
Qed.

(** A round comes in which something is found or the time is over. *)
Definition will_stop (w : W) : Prop :=
  ∃ k, found (round s (turn k w)).1.1 = true ∨ expire_time < now (round s (turn k w)).2.

Lemma wait_returns w : will_stop w → ∃ k,
  (∀ j, (j < k)%nat → found (round s (turn j w)).1.1 = false ∧ now (round s (turn j w)).2 <= expire_time) ∧
  (∀ fuel, (k < fuel)%nat → wait fuel round found now expire_time s w = Some (round s (turn k w))) ∧
  (found (round s (turn k w)).1.1 = true ∨ expire_time < now (round s (turn k w)).2).
Proof.
  intros [n Hn]. destruct (first_stop (λ k, stops (turn k w))) as (k & Hk & Hj).
  { exists n. unfold stops. rewrite orb_true_iff, Z.ltb_lt. exact Hn. }
  exists k. split_and!.
  - intros j Hlt. specialize (Hj j Hlt). unfold stops in Hj. apply orb_false_iff in Hj as [? ?]. split; [done|]. lia.
  - intros fuel Hf. by apply wait_stops.
  - unfold stops in Hk. rewrite orb_true_iff, Z.ltb_lt in Hk. exact Hk.
Qed.
End rounds.

(** ** What a file answers *)

(** Each question is asked in the state the one before left; reading and writing
    only when asked for. *)
Lemma poll_bits w file events i : 0 <= i →
  let err := in_exceptional_conditions file w in
  let hup := is_hang_up file err.2 in
  let rd := if Z.testbit events 0 then ready_to_read file hup.2 else (false, hup.2) in
  let wr := if Z.testbit events 2 then ready_to_write file rd.2 else (false, rd.2) in
  Z.testbit (poll file events w).1 i =
    ((i =? 0) && rd.1) || ((i =? 2) && wr.1) || ((i =? 3) && err.1) || ((i =? 4) && hup.1) ∧
  (poll file events w).2 = wr.2.
Proof.
  intros Hi err hup rd wr. assert (∀ k, 0 <= k → (Z.land events (2 ^ k) =? 2 ^ k) = Z.testbit events k) as Hbit.
  { intros k Hk. destruct (Z.testbit events k) eqn:E.
    - apply Z.eqb_eq, Z.bits_inj'. intros j Hj. rewrite Z.land_spec, Z.pow2_bits_eqb by done.
      destruct (Z.eqb_spec k j) as [->|]; [by rewrite E|by rewrite andb_false_r].
    - apply Z.eqb_neq. intros E2. apply (f_equal (λ z, Z.testbit z k)) in E2.
      rewrite Z.land_spec, Z.pow2_bits_true, E in E2 by done. done. }
  unfold poll. change EV_IN with (2 ^ 0). change EV_OUT with (2 ^ 2). change EV_ERR with (2 ^ 3). change EV_HUP with (2 ^ 4).
  rewrite !Hbit by lia. subst wr rd hup err.
  destruct (in_exceptional_conditions file w) as [e w1]. cbn [fst snd]. destruct (is_hang_up file w1) as [h w2]. cbn [fst snd].
  destruct (if Z.testbit events 0 then ready_to_read file w2 else (false, w2)) as [r w3]. cbn [fst snd].
  destruct (if Z.testbit events 2 then ready_to_write file w3 else (false, w3)) as [o w4]. cbn [fst snd]. split; [|done].
  destruct e, h, r, o; rewrite ?Z.lor_spec, ?Z.pow2_bits_eqb, ?Z.bits_0 by lia;
    destruct (Z.eqb_spec i 0), (Z.eqb_spec i 2), (Z.eqb_spec i 3), (Z.eqb_spec i 4), (Z.eqb_spec 0 i), (Z.eqb_spec 2 i),
      (Z.eqb_spec 3 i), (Z.eqb_spec 4 i); try lia; done.
Qed.

(** What a descriptor answers. *)
Definition answer (fd events : Z) (w : W) : Z * W :=
  let '(file, w) := tt_get_file (wrap64 fd) w in
  match file with Some file => poll file events w | None => (EV_ERR, w) end.

(** ** [ppoll] *)

Definition poll_ask (p : PollFd) : W → Z * W := answer (pf_fd p) (pf_events p).
Definition answered (pw : PollFd * W) : PollFd := mkPollFd (pf_fd pw.1) (pf_events pw.1) (poll_ask pw.1 pw.2).1.

Lemma poll_fd_answer p w :
  poll_fd p w = (negb ((poll_ask p w).1 =? 0), answered (p, w), (poll_ask p w).2).
Proof.
  unfold poll_fd, answered, poll_ask, answer. cbn [fst snd]. destruct (tt_get_file _ w) as [[file|] w1]; [|done].
  by destruct (poll file _ w1).
Qed.

Definition poll_asked (fds : list PollFd) (w : W) : list (PollFd * W) := asked poll_ask fds w.
Definition poll_ready (pw : PollFd * W) : Prop := (poll_ask pw.1 pw.2).1 ≠ 0.
#[local] Instance poll_ready_dec pw : Decision (poll_ready pw).
Proof. unfold poll_ready. apply _. Defined.

Lemma poll_round_answer fds w : poll_round fds w =
  (Z.of_nat (length (filter poll_ready (poll_asked fds w))), answered <$> poll_asked fds w, (mapQ poll_ask fds w).2).
Proof.
  unfold poll_round, poll_asked.
  destruct (asked_fmap poll_ask poll_fd id fds w) as [Ha Hw]; [intros p w' _; by rewrite poll_fd_answer|].
  rewrite list_fmap_id in Ha, Hw. pose proof (mapQ_asked poll_fd fds w) as Hm. rewrite Ha, <- list_fmap_compose in Hm.
  rewrite (list_fmap_ext _ (λ pw : PollFd * W, (negb ((poll_ask pw.1 pw.2).1 =? 0), answered pw))) in Hm
    by (intros i [p v] _; unfold compose; cbn; by rewrite poll_fd_answer).
  destruct (mapQ poll_fd fds w) as [rs w2]. cbn [fst snd] in *. subst rs w2. f_equal. clear Ha.
  induction (asked poll_ask fds w) as [|pw l IH]; [done|]. injection IH as IH1 IH2. cbn [fmap list_fmap]. rewrite !filter_cons, IH2.
  f_equal. unfold poll_ready at 1. cbn [fst snd]. destruct (Z.eqb_spec (poll_ask pw.1 pw.2).1 0) as [E|E]; cbn [negb].
  - rewrite decide_False by done. rewrite decide_False by (intros Hn; by apply Hn). exact IH1.
  - rewrite decide_True by done. rewrite decide_True by done. cbn [length]. lia.
Qed.

Lemma poll_round_again fds w w' : poll_round (poll_round fds w').1.2 w = poll_round fds w.
Proof.
  rewrite (poll_round_answer fds w'). cbn [fst snd].
  assert (∀ l : list (PollFd * W), poll_round (answered <$> l) w = poll_round l.*1 w) as Hl.
  { intros l. unfold poll_round.
    assert (mapQ poll_fd (answered <$> l) w = mapQ poll_fd l.*1 w) as ->; [|done].
    revert w. induction l as [|[p v] l IH]; intros w; [done|]. cbn [fmap list_fmap mapQ fst].
    rewrite !poll_fd_answer. cbn [answered poll_ask pf_fd pf_events fst snd]. fold (poll_ask p). by rewrite IH. }
  rewrite Hl. unfold poll_asked. by rewrite asked_fst.
Qed.

(** [ppoll] returns after the first round in which a descriptor it was given
    answered or the time was over, when there is such a round; it leaves in each
    entry what the descriptor answered when it was asked in that round - the
    events asked for that can be served, errors and a closed other end, an error
    for one that is not open - and returns how many answered anything. *)
Theorem ppoll_answers (fds : list PollFd) expire_time (w : W) :
  will_stop poll_round (λ set, 0 <? set) get_time expire_time fds w →
  let start k := turn poll_round fds k w in
  let over k := expire_time < get_time (mapQ poll_ask fds (start k)).2 in
  ∃ k, (∀ j, (j < k)%nat → (∀ pw, pw ∈ poll_asked fds (start j) → ¬ poll_ready pw) ∧ ¬ over j) ∧
    (∀ fuel, (k < fuel)%nat → ppoll fuel fds expire_time w =
      Some (Z.of_nat (length (filter poll_ready (poll_asked fds (start k)))), answered <$> poll_asked fds (start k),
            (mapQ poll_ask fds (start k)).2)) ∧
    ((∃ pw, pw ∈ poll_asked fds (start k) ∧ poll_ready pw) ∨ over k).
Proof.
  intros Hstop start over. destruct (wait_returns poll_round (λ set, 0 <? set) get_time expire_time fds (poll_round_again fds) w Hstop)
    as (k & Hj & Hk & Hend).
  assert (∀ w, (0 <? (poll_round fds w).1.1) = true ↔ ∃ pw, pw ∈ poll_asked fds w ∧ poll_ready pw) as Hfound.
  { intros w0. rewrite poll_round_answer, Z.ltb_lt. cbn [fst]. split.
    - intros Hn. destruct (filter poll_ready (poll_asked fds w0)) as [|p l] eqn:E; [cbn in Hn; lia|].
      exists p. apply and_comm, (list_elem_of_filter poll_ready). rewrite E. left.
    - intros (p & Hp & Ha). assert (p ∈ filter poll_ready (poll_asked fds w0)) as Hin by (by apply list_elem_of_filter).
      destruct (filter _ _); [by apply not_elem_of_nil in Hin|cbn; lia]. }
  exists k. split_and!.
  - intros j Hlt. destruct (Hj j Hlt) as [Hn Ht]. rewrite poll_round_answer in Ht. split; [|unfold over; cbn in Ht; unfold start; lia].
    intros pw Hp Hr. rewrite (proj2 (Hfound _)) in Hn; [done|]. by exists pw.
  - intros fuel Hf. unfold ppoll. rewrite (Hk fuel Hf). by rewrite poll_round_answer.
  - rewrite Hfound, poll_round_answer in Hend. exact Hend.
Qed.

(** ** [epoll_wait] *)

Definition epoll_ask (fe : Z * EpollEvent) : W → Z * W := answer fe.1 (ev_events fe.2).
Definition epoll_event (fe : Z * EpollEvent) : EpollEvent := mkEpollEvent (ev_events fe.2) (wrap64 fe.1).

Lemma epoll_one_answer fe w : epoll_one (epoll_event fe) w =
  (if (epoll_ask fe w).1 =? 0 then None else Some (mkEpollEvent (epoll_ask fe w).1 (wrap64 fe.1)), (epoll_ask fe w).2).
Proof.
  unfold epoll_one, epoll_event, epoll_ask, answer. cbn [ev_data ev_events].
  destruct (tt_get_file _ w) as [[file|] w1]; [|done]. by destruct (poll file _ w1).
Qed.

Lemma in_order_perm interest : in_order interest ≡ₚ map_to_list interest.
Proof. apply merge_sort_Permutation. Qed.

#[local] Instance key_le_total : Total key_le.
Proof. intros a b. unfold key_le. lia. Qed.
#[local] Instance key_le_trans : Transitive key_le.
Proof. intros a b c. unfold key_le. lia. Qed.

Lemma in_order_sorted interest : StronglySorted key_le (in_order interest).
Proof. apply Sorted_StronglySorted; [apply _|]. apply Sorted_merge_sort. apply _. Qed.

(** The questions of a round that starts in the state [w], with the state each
    is asked in; those that are answered. *)
Definition epoll_asked (interest : Interest) (w : W) : list (Z * EpollEvent * W) := asked epoll_ask (in_order interest) w.
Definition epoll_answers (few : Z * EpollEvent * W) : Prop := (epoll_ask few.1 few.2).1 ≠ 0.
#[local] Instance epoll_answers_dec few : Decision (epoll_answers few).
Proof. unfold epoll_answers. apply _. Defined.

(** The state in which the round ends. *)
Definition epoll_end (interest : Interest) (w : W) : W := (mapQ epoll_ask (in_order interest) w).2.
Definition report (few : Z * EpollEvent * W) : EpollEvent := mkEpollEvent (epoll_ask few.1 few.2).1 (wrap64 few.1.1).

Lemma epoll_round_report interest w : epoll_round (get_epoll_events interest) w =
  (report <$> filter epoll_answers (epoll_asked interest w), get_epoll_events interest, epoll_end interest w).
Proof.
  unfold epoll_round, epoll_asked, epoll_end.
  assert (get_epoll_events interest = epoll_event <$> in_order interest) as ->.
  { unfold get_epoll_events. apply list_fmap_ext. by intros i [fd evt] _. }
  destruct (asked_fmap epoll_ask epoll_one epoll_event (in_order interest) w) as [Ha Hw].
  { intros fe w' _. by rewrite epoll_one_answer. }
  pose proof (mapQ_asked epoll_one (epoll_event <$> in_order interest) w) as Hm. rewrite Ha, <- list_fmap_compose in Hm.
  rewrite (list_fmap_ext _ (λ few : Z * EpollEvent * W, if (epoll_ask few.1 few.2).1 =? 0 then None else Some (report few))) in Hm
    by (intros i [fe v] _; unfold compose; cbn; by rewrite epoll_one_answer).
  destruct (mapQ epoll_one _ w) as [rs w2]. cbn [fst snd] in *. subst rs w2. f_equal. f_equal. clear Ha.
  induction (asked epoll_ask (in_order interest) w) as [|few l IH]; [done|]. cbn [fmap list_fmap omap list_omap].
  rewrite filter_cons. unfold epoll_answers at 1. destruct (Z.eqb_spec (epoll_ask few.1 few.2).1 0) as [E|E]; cbn [id].
  - rewrite decide_False by (intros Hn; by apply Hn). exact IH.
  - rewrite decide_True by done. cbn [fmap list_fmap]. f_equal. exact IH.
Qed.

Lemma in_order_lt interest : StronglySorted (λ a b, a.1 < b.1) (in_order interest).
Proof.
  assert (NoDup (in_order interest).*1) as Hnd by (rewrite in_order_perm; apply NoDup_fst_map_to_list).
  pose proof (in_order_sorted interest) as Hs. induction Hs as [|fe es Hs IH Hle]; [constructor|].
  cbn [fmap list_fmap] in Hnd. apply list.NoDup_cons in Hnd as [Hni Hnd].
  constructor; [by apply IH|]. apply list.Forall_forall. intros x Hx.
  rewrite list.Forall_forall in Hle. specialize (Hle x Hx). unfold key_le in Hle.
  assert (fe.1 ≠ x.1); [|lia]. intros E. apply Hni. rewrite E. apply list_elem_of_fmap. eauto.
Qed.

(** The state in which round [k] of [epoll_wait] starts. *)
Definition epoll_turn (interest : Interest) (k : nat) (w : W) : W :=
  Nat.iter k (λ w, suspend_current_task (epoll_end interest w)) w.

Lemma epoll_turn_eq interest k w : turn epoll_round (get_epoll_events interest) k w = epoll_turn interest k w.
Proof.
  induction k as [|k IH]; [done|]. unfold turn, epoll_turn in *. rewrite !Nat.iter_succ, IH. by rewrite epoll_round_report.
Qed.

(** C40. [epoll_wait] asks the descriptors of the interest list round after round,
    each once and in their order, while other cores go on between any two
    questions.  If a round comes in which one answers or after which the time
    is over, it returns after the first such round, with one event for each
    descriptor that answered when it was asked in that round, and no other, in
    the order of the descriptors; the data of an event is its descriptor.
    Without such a round it never returns; and a wait without a time limit
    ([usize::MAX]) never ends for the time. *)
Theorem epoll_wait_answers (interest : Interest) expire_time (w : W) :
  let start k := epoll_turn interest k w in
  let asks k := epoll_asked interest (start k) in
  let over k := expire_time < get_time_ms (epoll_end interest (start k)) in
  let quiet k := (∀ few, few ∈ asks k → ¬ epoll_answers few) ∧ ¬ over k in
  ((∃ n, (∃ few, few ∈ asks n ∧ epoll_answers few) ∨ over n) → ∃ k,
     (∀ j, (j < k)%nat → quiet j) ∧
     (∀ fuel, (k < fuel)%nat → epoll_wait fuel interest expire_time w =
        Some (report <$> filter epoll_answers (asks k), epoll_end interest (start k))) ∧
     (filter epoll_answers (asks k) = [] → over k)) ∧
  ((∀ k, quiet k) → ∀ fuel, epoll_wait fuel interest expire_time w = None) ∧
  (∀ k, (∀ fd evt, (fd, evt) ∈ (asks k).*1 ↔ interest !! fd = Some evt) ∧ StronglySorted (λ a b, a.1 < b.1) (asks k).*1) ∧
  (expire_time = USIZE_MAX → ∀ k, ¬ over k).
Proof.
  intros start asks over quiet.
  assert (∀ k, turn epoll_round (get_epoll_events interest) k w = start k) as Hturn by (intros k; apply epoll_turn_eq).
  set (found := λ r : list EpollEvent, negb (bool_decide (r = []))).
  assert (∀ l : list (Z * EpollEvent * W), found (report <$> filter epoll_answers l) = true ↔ ∃ few, few ∈ l ∧ epoll_answers few) as Hfound.
  { intros l. unfold found. rewrite negb_true_iff, bool_decide_eq_false. split.
    - intros Hn. destruct (filter epoll_answers l) as [|few l'] eqn:E; [done|].
      exists few. apply and_comm, (list_elem_of_filter epoll_answers). rewrite E. left.
    - intros (few & Hf & Ha) E%fmap_nil_inv. assert (few ∈ filter epoll_answers l) as Hin by (by apply list_elem_of_filter).
      rewrite E in Hin. by apply not_elem_of_nil in Hin. }
  assert (∀ v v', epoll_round (epoll_round (get_epoll_events interest) v').1.2 v = epoll_round (get_epoll_events interest) v) as Hagain.
  { intros v v'. by rewrite (epoll_round_report interest v'). }
  split_and!.
  - intros (n & Hn).
    destruct (wait_returns epoll_round found get_time_ms expire_time (get_epoll_events interest) Hagain w) as (k & Hj & Hk & Hend).
    { exists n. rewrite Hturn, epoll_round_report. cbn [fst snd]. rewrite Hfound. exact Hn. }
    exists k. split_and!.
    + intros j Hlt. destruct (Hj j Hlt) as [H1 H2]. rewrite Hturn, epoll_round_report in H1, H2. cbn [fst snd] in H1, H2.
      split; [|unfold over; lia]. intros few Hf Ha. rewrite (proj2 (Hfound _)) in H1; [done|by exists few].
    + intros fuel Hf. unfold epoll_wait. fold found. rewrite (Hk fuel Hf), Hturn, epoll_round_report. done.
    + intros Hes. rewrite Hturn, epoll_round_report in Hend. cbn [fst snd] in Hend. unfold asks in Hes. rewrite Hes in Hend.
      by destruct Hend.
  - intros Hq fuel. unfold epoll_wait. fold found.
    rewrite (wait_never epoll_round found get_time_ms expire_time (get_epoll_events interest) Hagain fuel); [done|].
    intros k. unfold stops. rewrite Hturn, epoll_round_report. cbn [fst snd]. destruct (Hq k) as [H1 H2].
    apply orb_false_iff. split; [|unfold over in H2; lia].
    apply not_true_is_false. rewrite Hfound. intros (few & Hf & Ha). by apply (H1 few).
  - intros k. unfold asks, epoll_asked. rewrite asked_fst. split; [|apply in_order_lt].
    intros fd evt. rewrite in_order_perm. apply elem_of_map_to_list.
  - intros -> k. unfold over, USIZE_MAX. pose proof (get_time_ms_usize (epoll_end interest (start k))). lia.
Qed.

(** [maxevents] does not bound the events that are written. *)
Lemma maxevents_ignored `{EpollFiles F} fuel epfd ptr m1 m2 timeout epolls w :
  sys_epoll_wait fuel epfd ptr m1 timeout epolls w = sys_epoll_wait fuel epfd ptr m2 timeout epolls w.
Proof. done. Qed.

(** ** [pselect] *)

(** A set of up to 64 descriptors is one word. *)
Lemma shadow_bit_word len0 (addr fd : Z) (words : Z → Z) : 0 <= fd < 64 → len0 <= 64 →
  sb_check (mkShadow addr len0) fd words = Z.testbit (words 0) fd.
Proof.
  intros Hfd Hl. unfold sb_check. assert (Z.shiftr fd 8 = 0) as ->.
  { rewrite Z.shiftr_div_pow2 by lia. apply Z.div_small. change (2 ^ 8) with 256. lia. }
  assert (Z.land fd 0x3f = fd) as ->.
  { change 0x3f with (Z.ones 6). rewrite Z.land_ones by lia. apply Z.mod_small. change (2 ^ 6) with 64. lia. }
  destruct (Z.testbit (words 0) fd) eqn:E.
  - apply negb_true_iff, Z.eqb_neq. intros E2. apply (f_equal (λ z, Z.testbit z fd)) in E2.
    rewrite Z.land_spec, E, testbit_shl1, Z.eqb_refl, Z.bits_0 in E2 by lia. done.
  - apply negb_false_iff, Z.eqb_eq, Z.bits_inj'. intros i Hi. rewrite Z.land_spec, testbit_shl1, Z.bits_0 by lia.
    destruct (Z.eqb_spec i fd) as [->|]; [by rewrite E|by rewrite andb_false_r].
Qed.

Lemma shadow_set_word len0 (addr fd : Z) (words : Z → Z) i : 0 <= fd < len0 → len0 <= 64 → 0 <= i →
  Z.testbit (sb_set (mkShadow addr len0) fd words 0) i = Z.testbit (words 0) i || (i =? fd).
Proof.
  intros Hfd Hl Hi. unfold sb_set. cbn [sb_len]. rewrite (proj2 (Z.ltb_lt _ _)) by lia.
  assert (Z.shiftr fd 8 = 0) as ->.
  { rewrite Z.shiftr_div_pow2 by lia. apply Z.div_small. change (2 ^ 8) with 256. lia. }
  assert (Z.land fd 0x3f = fd) as ->.
  { change 0x3f with (Z.ones 6). rewrite Z.land_ones by lia. apply Z.mod_small. change (2 ^ 6) with 64. lia. }
  cbn. by rewrite Z.lor_spec, testbit_shl1 by lia.
Qed.

(** The files of a set are those of the bits, each as it was found when its turn
    came; an error when one is not open then. *)
Lemma select_files_ok set words fds w :
  match (select_files set words fds w).1 with
  | Some files => files.*1 = filter (λ fd, sb_check set fd words = true) fds
  | None => ∃ fd w', fd ∈ fds ∧ sb_check set fd words = true ∧ (tt_get_file fd w').1 = None
  end.
Proof.
  revert w. induction fds as [|fd fds IH]; intros w; [done|]. cbn [select_files]. rewrite filter_cons.
  destruct (sb_check set fd words) eqn:Hb.
  - destruct (tt_get_file fd w) as [[file|] w1] eqn:Hf; cbn [fst].
    2: { exists fd, w. rewrite Hf. split_and!; [by left|done|done]. }
    specialize (IH w1). destruct (select_files set words fds w1) as [[rest|] w2]; cbn in *.
    + rewrite decide_True by done. by rewrite IH.
    + destruct IH as (fd' & w' & ? & ? & ?). exists fd', w'. split_and!; [by right|done|done].
  - specialize (IH w). destruct (select_files set words fds w) as [[rest|] w2]; cbn in *.
    + rewrite decide_False by done. exact IH.
    + destruct IH as (fd' & w' & ? & ? & ?). exists fd', w'. split_and!; [by right|done|done].
Qed.

(** The files of a set that answered, in the state each was asked in. *)
Definition file_ask (ready : F → W → bool * W) (f : Z * F) : W → bool * W := ready f.2.
Definition set_asked (s : FdSets (F := F)) : list (Z * F) := if sb_is_valid (fs_set s) then fs_files s else [].
Definition set_ready (ready : F → W → bool * W) (s : FdSets (F := F)) (w : W) : list (Z * F * W) :=
  filter (λ fw, (file_ask ready fw.1 fw.2).1 = true) (asked (file_ask ready) (set_asked s) w).
Definition set_end (ready : F → W → bool * W) (s : FdSets (F := F)) (w : W) : W := (mapQ (file_ask ready) (set_asked s) w).2.

(** A set with the bits of some files. *)
Definition with_bits (s : FdSets (F := F)) (fds : list Z) : FdSets (F := F) :=
  mkSets (fs_files s) (fs_set s) (foldl (λ words fd, sb_set (fs_set s) fd words) (fs_words s) fds).

Lemma mark_ready_ok ready s n w :
  mark_ready ready s n w =
    (n + Z.of_nat (length (set_ready ready s w)), with_bits s (set_ready ready s w).*1.*1, set_end ready s w).
Proof.
  unfold mark_ready, set_ready, set_end, set_asked, with_bits. destruct (sb_is_valid (fs_set s)).
  2: { cbn. rewrite Z.add_0_r. by destruct s. }
  destruct s as [files set words]. cbn [fs_files fs_set fs_words]. revert n words w.
  assert (∀ n words w, mark_files ready set files n words w =
    (let l := filter (λ fw : Z * F * W, (file_ask ready fw.1 fw.2).1 = true) (asked (file_ask ready) files w) in
     (n + Z.of_nat (length l), foldl (λ words fd, sb_set set fd words) words l.*1.*1, (mapQ (file_ask ready) files w).2))) as Hm.
  { induction files as [|[fd file] files IH]; intros n words w; [cbn; by rewrite Z.add_0_r|].
    cbn [mark_files asked mapQ]. rewrite filter_cons. cbn [fst snd]. change (file_ask ready (fd, file)) with (ready file).
    destruct (ready file w) as [b w1]. cbn [fst snd]. destruct b; rewrite IH; destruct (mapQ _ files w1); cbn.
    - rewrite decide_True by done. cbn [length fmap list_fmap foldl fst]. f_equal. f_equal. lia.
    - rewrite decide_False by done. done. }
  intros n words w. by rewrite Hm.
Qed.

(** How many answer in a round of [pselect], the sets after it and its end. *)
Lemma select_round_ok r wr e w :
  let w1 := set_end ready_to_read r w in
  let w2 := set_end ready_to_write wr w1 in
  select_round (r, wr, e) w =
    (Z.of_nat (length (set_ready ready_to_read r w)) + Z.of_nat (length (set_ready ready_to_write wr w1)) +
       Z.of_nat (length (set_ready in_exceptional_conditions e w2)),
     (with_bits r (set_ready ready_to_read r w).*1.*1, with_bits wr (set_ready ready_to_write wr w1).*1.*1,
      with_bits e (set_ready in_exceptional_conditions e w2).*1.*1), set_end in_exceptional_conditions e w2).
Proof. cbv zeta. unfold select_round. by rewrite !mark_ready_ok. Qed.

Lemma with_bits_nil (s : FdSets (F := F)) : with_bits s [] = s.
Proof. by destruct s. Qed.

(** A round in which nothing answered leaves the sets alone. *)
Lemma select_round_none sets w : (select_round sets w).1.1 <= 0 → (select_round sets w).1.2 = sets.
Proof.
  destruct sets as [[r wr] e]. pose proof (select_round_ok r wr e w) as H. cbv zeta in H. rewrite H. cbn [fst snd]. intros Hn.
  assert (∀ {X} (l : list X), Z.of_nat (length l) <= 0 → l = []) as Hnil by (intros X [|x l]; cbn; [done|lia]).
  rewrite (Hnil _ (set_ready ready_to_read r w)) by lia.
  rewrite (Hnil _ (set_ready ready_to_write wr _)) by lia.
  rewrite (Hnil _ (set_ready in_exceptional_conditions e _)) by lia. cbn. by rewrite !with_bits_nil.
Qed.

(** The bits of a set after a round: those it had, and those of the files that
    answered. *)
Lemma with_bits_bit files addr nfds words fds fd : nfds <= 64 → (∀ x, x ∈ fds → 0 <= x < nfds) → 0 <= fd < nfds →
  Z.testbit (fs_words (with_bits (mkSets files (mkShadow addr nfds) words) fds) 0) fd = true ↔
    Z.testbit (words 0) fd = true ∨ fd ∈ fds.
Proof.
  intros Hn Hfds Hfd. unfold with_bits. cbn [fs_words fs_set fs_files]. revert words.
  induction fds as [|x fds IH]; intros words; cbn [foldl].
  - split; [by left|]. by intros [?|?%not_elem_of_nil].
  - pose proof (Hfds x ltac:(by left)). rewrite IH by (intros y ?; apply Hfds; by right).
    rewrite shadow_set_word by lia. rewrite orb_true_iff, Z.eqb_eq, elem_of_cons. tauto.
Qed.

(** The loop of [pselect] returns after the first round in which a file answered
    or after which the time was over, if there is one, with the sets as that
    round left them and the number of files that answered. *)
Theorem select_loop_answers sets expire_time (w : W) :
  let start k := turn select_round sets k w in
  let count k := (select_round sets (start k)).1.1 in
  let over k := expire_time < get_time (start (S k)) in
  (∃ k, 0 < count k ∨ over k) → ∃ k,
    (∀ j, (j < k)%nat → count j <= 0 ∧ ¬ over j) ∧ (0 < count k ∨ over k) ∧
    ∀ fuel, (k < fuel)%nat → select_loop fuel expire_time sets w =
      Some (if 0 <? count k then select_round sets (start k) else (0, sets, start (S k))).
Proof.
  intros start count over [n Hn].
  destruct (first_stop (λ k, (0 <? count k) || (expire_time <? get_time (start (S k))))) as (k & Hk & Hj).
  { exists n. rewrite orb_true_iff, !Z.ltb_lt. exact Hn. }
  rewrite orb_true_iff, !Z.ltb_lt in Hk.
  assert (∀ j, (j < k)%nat → count j <= 0 ∧ ¬ over j) as Hj'.
  { intros j Hlt. specialize (Hj j Hlt). rewrite orb_false_iff, !Z.ltb_ge in Hj. unfold over. lia. }
  exists k. split; [done|]. split; [done|]. subst start count over. clear Hj n Hn. cbv beta in *.
  revert w Hk Hj'. induction k as [|k IH]; intros w Hk Hj [|fuel] Hf; try lia; cbn [select_loop].
  - pose proof (turn_S select_round sets 0 w) as HS. change (turn select_round sets 0 ?v) with v in *. rewrite <- HS in *.
    pose proof (select_round_none sets w) as Hnone. destruct (select_round sets w) as [[c s2] w2]. cbn [fst snd] in *.
    destruct (Z.ltb_spec 0 c); [done|]. destruct Hk as [?|Hk]; [lia|]. rewrite (proj2 (Z.ltb_lt _ _)) by done. by rewrite Hnone.
  - destruct (Hj 0%nat ltac:(lia)) as [H0 H1]. pose proof (λ k, turn_S select_round sets k w) as HS.
    pose proof (HS 0%nat) as HS0. change (turn select_round sets 0 ?v) with v in *. rewrite <- HS0 in H1.
    rewrite <- (HS k), <- (HS (S k)) in *. assert (∀ j, (j < k)%nat → turn select_round sets (S j) w = turn select_round sets j (suspend_current_task (select_round sets w).2)) as HSj by done.
    pose proof (select_round_none sets w) as Hnone. destruct (select_round sets w) as [[c s2] w2]. cbn [fst snd] in *.
    rewrite (proj2 (Z.ltb_ge _ _)) by done. rewrite (proj2 (Z.ltb_ge _ _)) by lia. rewrite Hnone by done.
    apply IH; [done| |lia]. intros j Hlt. specialize (Hj (S j) ltac:(lia)). by rewrite <- !HS in Hj.
Qed.
End asked.

(** ** A clock and eight files

    The state is the time, which a question takes no part of; file 3 can be read
    from time 5 on. *)

Section ticking.
Definition clock_now (w : Z) : Z := Z.max 0 (Z.min w USIZE_MAX).

Lemma clock_now_usize w : 0 <= clock_now w < 2 ^ 64.
Proof. unfold clock_now, USIZE_MAX. lia. Defined.

#[local] Instance ticking : TaskTrampoline Z Z := {|
  tt_get_file fd w := (if (0 <=? fd) && (fd <? 8) then Some fd else None, w);
  in_exceptional_conditions _ w := (false, w);
  is_hang_up _ w := (false, w);
  ready_to_read f w := ((f =? 3) && (5 <=? w), w);
  ready_to_write _ w := (false, w);
  get_time := clock_now;
  get_time_ms := clock_now;
  manually_alloc_range _ _ w := (true, w);
  manually_alloc_user_str _ _ w := (true, w);
  suspend_current_task w := w + 1;
  get_time_usize := clock_now_usize;
  get_time_ms_usize := clock_now_usize |}.

(** Waiting for file 3 from time 0 on, with a limit of 100. *)
Lemma ppoll_answers_witness : ∃ k, ∀ fuel, (k < fuel)%nat → ∃ n fds w,
  ppoll fuel [mkPollFd 3 EV_IN 0; mkPollFd 4 EV_IN 0] 100 0 = Some (n, fds, w).
Proof.
  destruct (ppoll_answers [mkPollFd 3 EV_IN 0; mkPollFd 4 EV_IN 0] 100 0) as (k & _ & Hk & _).
  { exists 5%nat. left. vm_compute. reflexivity. }
  exists k. intros fuel Hf. eexists _, _, _. by apply Hk.
Defined.

(** The same with [epoll]: it answers in the sixth round. *)
Lemma epoll_wait_answers_witness :
  let interest := <[3 := mkEpollEvent EV_IN 77]> ∅ in
  (∃ n, (∃ few, few ∈ epoll_asked interest (epoll_turn interest n 0) ∧ epoll_answers few) ∨
        100 < clock_now (epoll_end interest (epoll_turn interest n 0))) ∧
  ∃ k, ∀ fuel, (k < fuel)%nat → ∃ es w, epoll_wait fuel interest 100 0 = Some (es, w).
Proof.
  intros interest.
  assert (∃ n, (∃ few, few ∈ epoll_asked interest (epoll_turn interest n 0) ∧ epoll_answers few) ∨
        100 < get_time_ms (epoll_end interest (epoll_turn interest n 0))) as Hstop.
  { exists 5%nat. left. exists (3, mkEpollEvent EV_IN 77, 5). split; [vm_compute; by left|]. by vm_compute. }
  split; [exact Hstop|].
  destruct (proj1 (epoll_wait_answers interest 100 0) Hstop) as (k & _ & Hk & _).
  exists k. intros fuel Hf. eexists _, _. by apply Hk.
Defined.
End ticking.
