(* ===== verification/TimeStat.v ===== *)
(** * Times and interval timers (modules/timer, kernel/src/task/time_stat.rs)

    Seconds with a part, and the time statistics of a thread: user and kernel
    time, and its timer, which sends a signal when it runs out.  The time in
    microseconds is an argument.  The conversions through [f64] are left out. *)

From S2P Require Import Prelude Bytes Bitset Errors Signals.

(** ** [TimeSpec] and [TimeVal] *)

Definition CLOCK_FREQ : Z := 12500000.
Definition USEC_PER_SEC : Z := 1000000.
Definition NSEC_PER_SEC : Z := 1000000000.
Definition INTERRUPT_PER_SEC : Z := 10.
Definition USEC_PER_INTERRUPT : Z := USEC_PER_SEC / INTERRUPT_PER_SEC.
Definition MACHINE_TICKS_PER_USEC : Z := CLOCK_FREQ / USEC_PER_SEC.
Definition NSEC_PER_MACHINE_TICKS : Z := NSEC_PER_SEC / CLOCK_FREQ.
Definition UTIME_NOW : Z := 0x3fffffff.
Definition UTIME_OMIT : Z := 0x3ffffffe.

(** The clock in other units. *)
Definition time_ms (time : Z) : Z := wrap64 (time * 1000) / CLOCK_FREQ.
Definition time_sec (time : Z) : Z := time / CLOCK_FREQ.
Definition time_us (time : Z) : Z := time / MACHINE_TICKS_PER_USEC.
Definition next_trigger (time : Z) : Z := wrap64 (time + CLOCK_FREQ / INTERRUPT_PER_SEC).

Record TimeSpec := mkSpec { tv_sec : Z; tv_nsec : Z }.

Definition set_as_utime (now self other : TimeSpec) : TimeSpec :=
  if tv_nsec other =? UTIME_NOW then now else if tv_nsec other =? UTIME_OMIT then self else other.

Definition get_ticks (self : TimeSpec) : Z := wrap64 (wrap64 (tv_sec self * CLOCK_FREQ) + tv_nsec self / NSEC_PER_MACHINE_TICKS).

Definition spec_add (a b : TimeSpec) : TimeSpec :=
  let s := wrap64 (tv_sec a + tv_sec b) in
  let n := wrap64 (tv_nsec a + tv_nsec b) in
  if NSEC_PER_SEC <=? n then mkSpec (wrap64 (s + 1)) (n - NSEC_PER_SEC) else mkSpec s n.

Record TimeVal := mkVal { sec : Z; usec : Z }.

Definition val_add (a b : TimeVal) : TimeVal :=
  let s := wrap64 (sec a + sec b) in
  let u := wrap64 (usec a + usec b) in
  if USEC_PER_SEC <=? u then mkVal (wrap64 (s + 1)) (u - USEC_PER_SEC) else mkVal s u.

(** [From<TimeSpec>], [From<usize>] and [Into<usize>] *)
Definition val_of_spec (spec : TimeSpec) : TimeVal := mkVal (tv_sec spec) (tv_nsec spec / USEC_PER_SEC).
Definition val_of_usec (usec : Z) : TimeVal := mkVal (usec / USEC_PER_SEC) (usec mod USEC_PER_SEC).
Definition usec_of_val (self : TimeVal) : Z := wrap64 (wrap64 (sec self * USEC_PER_SEC) + usec self).

(** ** [TimeStat] *)

Inductive TimerType := NONE | REAL | VIRTUAL | PROF.

#[export] Instance TimerType_eq_dec : EqDecision TimerType.
Proof. solve_decision. Defined.

(** [From<usize>]: the number as an [i32]. *)
Definition timer_type_of (num : Z) : TimerType :=
  let n := swrap 32 num in
  if n =? 0 then REAL else if n =? 1 then VIRTUAL else if n =? 2 then PROF else NONE.

Record TimeStat := mkTime {
  ts_tid : Z;
  utime_us : Z;
  stime_us : Z;
  user_tick : Z;
  kernel_tick : Z;
  start_tick : Z;
  timer_type : TimerType;
  timer_interval_us : Z;
  timer_remained_us : Z }.

Implicit Types self : TimeStat.

Definition ts_new (tid now : Z) : TimeStat := mkTime tid 0 0 0 0 now NONE 0 0.
Definition ts_clear (now : Z) self : TimeStat :=
  mkTime (ts_tid self) 0 0 0 0 now (timer_type self) (timer_interval_us self) (timer_remained_us self).

Definition set_remained self (r : Z) : TimeStat :=
  mkTime (ts_tid self) (utime_us self) (stime_us self) (user_tick self) (kernel_tick self) (start_tick self)
    (timer_type self) (timer_interval_us self) r.
Definition add_utime self (d : Z) : TimeStat :=
  mkTime (ts_tid self) (wrap64 (utime_us self + d)) (stime_us self) (user_tick self) (kernel_tick self) (start_tick self)
    (timer_type self) (timer_interval_us self) (timer_remained_us self).
Definition add_stime self (d : Z) : TimeStat :=
  mkTime (ts_tid self) (utime_us self) (wrap64 (stime_us self + d)) (user_tick self) (kernel_tick self) (start_tick self)
    (timer_type self) (timer_interval_us self) (timer_remained_us self).
Definition set_user_tick self (t : Z) : TimeStat :=
  mkTime (ts_tid self) (utime_us self) (stime_us self) t (kernel_tick self) (start_tick self)
    (timer_type self) (timer_interval_us self) (timer_remained_us self).
Definition set_kernel_tick self (t : Z) : TimeStat :=
  mkTime (ts_tid self) (utime_us self) (stime_us self) (user_tick self) t (start_tick self)
    (timer_type self) (timer_interval_us self) (timer_remained_us self).

Definition SIGALRM : Z := 14.
Definition SIGVTALRM : Z := 26.
Definition SIGPROF : Z := 27.

Definition timer_signal (t : TimerType) : option Z :=
  match t with REAL => Some SIGALRM | VIRTUAL => Some SIGVTALRM | PROF => Some SIGPROF | NONE => None end.

(** Whether the timer ran out, the statistics and the signals of all threads. *)
Definition update_timer_and_send_signal (delta : Z) self (t : Tid2Signals) : bool * (TimeStat * Tid2Signals) :=
  if timer_remained_us self =? 0 then (false, (self, t))
  else if delta <? timer_remained_us self then (false, (set_remained self (timer_remained_us self - delta), t))
  else
    (true, (set_remained self (timer_interval_us self),
            match timer_signal (timer_type self) with Some s => send_signal (ts_tid self) s t | None => t end)).

Definition kernel_counts self : bool := bool_decide (timer_type self = REAL) || bool_decide (timer_type self = PROF).

Definition timer_kernel_to_user (now : Z) self (t : Tid2Signals) : TimeStat * Tid2Signals :=
  let delta := wrap64 (now - kernel_tick self) in
  let '(self, t) := if kernel_counts self then snd (update_timer_and_send_signal delta self t) else (self, t) in
  (set_user_tick (add_stime self delta) now, t).

Definition timer_user_to_kernel (now : Z) self (t : Tid2Signals) : TimeStat * Tid2Signals :=
  let delta := wrap64 (now - kernel_tick self) in
  let '(self, t) := if bool_decide (timer_type self ≠ NONE) then snd (update_timer_and_send_signal delta self t) else (self, t) in
  (set_kernel_tick (add_utime self delta) now, t).

Definition switch_into_task (now : Z) self : TimeStat := set_kernel_tick self now.

Definition switch_out_task (now : Z) self (t : Tid2Signals) : TimeStat * Tid2Signals :=
  let delta := wrap64 (now - kernel_tick self) in
  let self := add_stime self delta in
  if kernel_counts self then snd (update_timer_and_send_signal delta self t) else (self, t).

Definition output_raw self : Z * Z := (utime_us self, stime_us self).
Definition ts_output self : TimeVal * TimeVal := (val_of_usec (utime_us self), val_of_usec (stime_us self)).
Definition output_raw_timer self : Z * Z := (timer_interval_us self, timer_remained_us self).

Definition set_raw_timer (interval remained type : Z) self : bool * TimeStat :=
  let ty := timer_type_of type in
  (bool_decide (ty ≠ NONE),
   mkTime (ts_tid self) (utime_us self) (stime_us self) (user_tick self) (kernel_tick self) (start_tick self) ty interval remained).

(** ** The system calls on a timer; the user's pointers are all mapped *)

Record ITimerVal := mkITimer { it_interval : TimeVal; it_value : TimeVal }.

Definition sys_gettimer self : ITimerVal :=
  let '(interval, remained) := output_raw_timer self in
  mkITimer (val_of_usec interval) (val_of_usec remained).

Definition sys_settimer (which : Z) (new_value : ITimerVal) self : SysResult Z * ITimerVal * TimeStat :=
  let old := sys_gettimer self in
  let '(ok, self) := set_raw_timer (usec_of_val (it_interval new_value)) (usec_of_val (it_value new_value)) which self in
  (if ok : bool then inl 0 else inr EFAULT, old, self).

Definition RUSAGE_SELF : Z := 0.
Definition RUSAGE_CHILDREN : Z := -1.
Definition RUSAGE_THREAD : Z := 1.

Definition sys_getrusage (who : Z) self : SysResult Z * option (TimeVal * TimeVal) :=
  if (who =? RUSAGE_SELF) || (who =? RUSAGE_CHILDREN) || (who =? RUSAGE_THREAD) then
    let '(utime_us, stime_us) := output_raw self in
    (inl 0, Some (val_of_usec utime_us, val_of_usec stime_us))
  else (inr EINVAL, None).

Record TMS := mkTMS { tms_utime : Z; tms_stime : Z; tms_cutime : Z; tms_cstime : Z }.

(** At the time [now] in microseconds. *)
Definition sys_times (now : Z) self : Z * TMS :=
  let '(utime, stime) := output_raw self in
  (now / USEC_PER_INTERRUPT, mkTMS utime stime utime stime).

Definition sys_get_time_of_day (now : Z) : TimeVal := val_of_usec now.

(** ** What the time statistics count

    A timer sends its signal in the first step that uses up what remained, and
    starts again with the interval; the two halves of a [TimeVal] are division
    and remainder; and the user time of a thread is all the time since it was
    last given the processor. *)

(** ** Timers *)

Definition countdown (ds : list Z) (self : TimeStat) (t : Tid2Signals) : TimeStat * Tid2Signals :=
  foldl (λ st d, (update_timer_and_send_signal d st.1 st.2).2) (self, t) ds.

Lemma countdown_app ds1 ds2 self t :
  countdown (ds1 ++ ds2) self t = countdown ds2 (countdown ds1 self t).1 (countdown ds1 self t).2.
Proof. unfold countdown. rewrite foldl_app. by destruct (foldl _ (self, t) ds1). Qed.

Lemma set_remained_twice self a b : set_remained (set_remained self a) b = set_remained self b.
Proof. done. Qed.

Lemma set_remained_same self : set_remained self (timer_remained_us self) = self.
Proof. by destruct self. Qed.

Lemma countdown_stopped ds self t : timer_remained_us self = 0 → countdown ds self t = (self, t).
Proof.
  intros H0. unfold countdown. induction ds as [|d ds IH]; [done|]. cbn [foldl fst snd].
  unfold update_timer_and_send_signal at 2. by rewrite H0.
Qed.

Lemma countdown_waits ds : ∀ self t, Forall (Z.le 0) ds → foldr Z.add 0 ds < timer_remained_us self →
  countdown ds self t = (set_remained self (timer_remained_us self - foldr Z.add 0 ds), t).
Proof.
  induction ds as [|d ds IH]; intros self t Hds Hlt; cbn [foldr] in *.
  - by rewrite Z.sub_0_r, set_remained_same.
  - apply list.Forall_cons in Hds as [Hd Hds].
    assert (0 <= foldr Z.add 0 ds) by (clear - Hds; induction Hds; cbn [foldr]; lia).
    change (d :: ds) with ([d] ++ ds). rewrite countdown_app. unfold countdown at 2 3, update_timer_and_send_signal. cbn [foldl fst snd].
    rewrite (proj2 (Z.eqb_neq _ _)), (proj2 (Z.ltb_lt _ _)) by lia. cbn [fst snd].
    rewrite IH by (done || (cbn; lia)). rewrite set_remained_twice. cbn [set_remained timer_remained_us]. f_equal. f_equal. lia.
Qed.

Lemma countdown_fires ds d self t s signals : Forall (Z.le 0) ds → foldr Z.add 0 ds < timer_remained_us self <= foldr Z.add 0 ds + d →
  timer_signal (timer_type self) = Some s → t !! ts_tid self = Some signals →
  countdown (ds ++ [d]) self t =
  (set_remained self (timer_interval_us self), <[ts_tid self := try_add_bit signals s]> t).
Proof.
  intros Hds [Hlt Hle] Hs Ht. rewrite countdown_app, (countdown_waits ds) by done.
  unfold countdown, update_timer_and_send_signal. cbn [foldl fst snd set_remained timer_remained_us timer_type timer_interval_us ts_tid].
  rewrite (proj2 (Z.eqb_neq _ _)), (proj2 (Z.ltb_ge _ _)) by lia. cbn [fst snd]. rewrite Hs. unfold send_signal. by rewrite Ht.
Qed.

(**  A running timer that is told of the time that passes, step by step,
    changes nothing but what remains until the first step with which the
    passed time reaches what remained; in that step the signal of its kind is
    added to the signals of its thread, and to nothing else, and the interval
    is what remains.  If the interval is zero, no later step changes anything. *)
Theorem timer_fires_when_used_up ds d later self t s signals :
  Forall (Z.le 0) ds → foldr Z.add 0 ds < timer_remained_us self <= foldr Z.add 0 ds + d →
  timer_signal (timer_type self) = Some s → t !! ts_tid self = Some signals →
  countdown ds self t = (set_remained self (timer_remained_us self - foldr Z.add 0 ds), t) ∧
  countdown (ds ++ [d]) self t =
    (set_remained self (timer_interval_us self), <[ts_tid self := try_add_bit signals s]> t) ∧
  (timer_interval_us self = 0 → countdown (ds ++ [d] ++ later) self t = countdown (ds ++ [d]) self t).
Proof.
  intros Hds Hd Hs Ht. split; [apply countdown_waits; [done|lia]|]. pose proof (countdown_fires _ _ _ _ _ _ Hds Hd Hs Ht) as Hf.
  split; [done|]. intros Hi. rewrite app_assoc, countdown_app, Hf. by apply countdown_stopped.
Qed.

(** A thread with no signals yet and a timer of 100 microseconds. *)
Definition timed : TimeStat := mkTime 5 0 0 0 0 0 REAL 0 100.

Lemma timer_fires_when_used_up_witness :
  (countdown [30; 40; 30; 9] timed {[ 5 := recv_new ]}).1 = set_remained timed 0 ∧
  countdown [30; 40] timed {[ 5 := recv_new ]} = (set_remained timed 30, {[ 5 := recv_new ]}).
Proof.
  destruct (timer_fires_when_used_up [30; 40] 30 [9] timed {[ 5 := recv_new ]} SIGALRM recv_new) as (Hwait & Hfire & Hstop);
    [repeat constructor; lia|cbn; lia|done|by vm_compute|].
  split; [|done]. change [30; 40; 30; 9] with ([30; 40] ++ [30] ++ [9]). rewrite (Hstop eq_refl), Hfire. done.
Defined.

(** Setting a timer of a kind that does not exist fails, and has stopped the
    timer that ran. *)
Lemma bad_settimer_stops_timer which new self t d :
  timer_type_of which = NONE →
  (sys_settimer which new self).1.1 = inr EFAULT ∧
  (timer_user_to_kernel d (sys_settimer which new self).2 t).2 = t ∧
  (timer_kernel_to_user d (sys_settimer which new self).2 t).2 = t.
Proof.
  intros Hw. unfold sys_settimer, set_raw_timer. rewrite Hw. cbn. split_and!; done.
Qed.

(** ** Units *)

Definition val_ok (v : TimeVal) : Prop := 0 <= sec v ∧ 0 <= usec v < USEC_PER_SEC.

Lemma val_of_usec_ok u : 0 <= u → val_ok (val_of_usec u).
Proof. intros. unfold val_ok, val_of_usec, USEC_PER_SEC. cbn [sec usec]. dlia. Qed.

Lemma usec_of_val_of_usec u : 0 <= u < 2 ^ 64 → usec_of_val (val_of_usec u) = u.
Proof.
  intros. unfold usec_of_val, val_of_usec, USEC_PER_SEC. cbn [sec usec].
  unfold wrap. dlia.
Qed.

Lemma val_of_usec_of_val v : val_ok v → sec v * USEC_PER_SEC + usec v < 2 ^ 64 → val_of_usec (usec_of_val v) = v.
Proof.
  destruct v as [s u]. unfold val_ok, usec_of_val, val_of_usec, USEC_PER_SEC. cbn [sec usec]. intros [? ?] ?.
  unfold wrap. rewrite Z.mod_small, (Z.mod_small (s * _)) by (rewrite ?(Z.mod_small (s * _)); lia). f_equal; dlia.
Qed.

Lemma val_add_usec a b : val_ok a → val_ok b → sec a + sec b + 1 < 2 ^ 64 →
  val_ok (val_add a b) ∧
  sec (val_add a b) * USEC_PER_SEC + usec (val_add a b) =
    (sec a * USEC_PER_SEC + usec a) + (sec b * USEC_PER_SEC + usec b).
Proof.
  destruct a as [s u], b as [s' u']. unfold val_ok, val_add, USEC_PER_SEC. cbn [sec usec]. intros [? ?] [? ?] ?.
  rewrite (wrap_small 64 (s + _)), (wrap_small 64 (u + _)) by (unfold word; lia). destruct (1000000 <=? u + u') eqn:E; cbn [sec usec]; [rewrite wrap_small by (unfold word; lia)|]; lia.
Qed.

(** What a timer is set to is what it reads back as. *)
Lemma gettimer_of_settimer which new self :
  val_ok (it_interval new) → val_ok (it_value new) →
  sec (it_interval new) * USEC_PER_SEC + usec (it_interval new) < 2 ^ 64 →
  sec (it_value new) * USEC_PER_SEC + usec (it_value new) < 2 ^ 64 →
  sys_gettimer (sys_settimer which new self).2 = new.
Proof.
  intros ????. unfold sys_settimer. cbn [set_raw_timer sys_gettimer snd output_raw_timer timer_interval_us timer_remained_us].
  unfold sys_gettimer. cbn [output_raw_timer set_raw_timer timer_interval_us timer_remained_us].
  rewrite !val_of_usec_of_val by done. by destruct new.
Qed.

(** The conversion from nanoseconds yields milliseconds. *)
Lemma val_of_spec_is_milliseconds s ms : val_of_spec (mkSpec s (ms * 1000000)) = mkVal s ms.
Proof. unfold val_of_spec, USEC_PER_SEC. cbn [tv_sec tv_nsec]. f_equal. dlia. Qed.

(** ** User time

    A trap from user mode calls [timer_user_to_kernel] twice (in
    [trap_handler] and in [user_trap_handler]) and [timer_kernel_to_user] when
    it is done. *)

Record UserTrap := mkUserTrap { entered : Z; handled : Z; left_at : Z }.

Definition trap (st : TimeStat * Tid2Signals) (u : UserTrap) : TimeStat * Tid2Signals :=
  let st := timer_user_to_kernel (entered u) st.1 st.2 in
  let st := timer_user_to_kernel (handled u) st.1 st.2 in
  timer_kernel_to_user (left_at u) st.1 st.2.

Lemma update_timer_times d self t : let self' := (update_timer_and_send_signal d self t).2.1 in
  utime_us self' = utime_us self ∧ stime_us self' = stime_us self ∧ kernel_tick self' = kernel_tick self.
Proof.
  unfold update_timer_and_send_signal. destruct (timer_remained_us self =? 0); [done|].
  by destruct (d <? timer_remained_us self).
Qed.

Lemma user_to_kernel_times now self t : let self' := (timer_user_to_kernel now self t).1 in
  utime_us self' = wrap64 (utime_us self + wrap64 (now - kernel_tick self)) ∧
  stime_us self' = stime_us self ∧ kernel_tick self' = now.
Proof.
  unfold timer_user_to_kernel. set (d := wrap64 (now - kernel_tick self)). case_bool_decide; [|done].
  pose proof (update_timer_times d self t) as (Hu & Hs & Hk). destruct (update_timer_and_send_signal d self t) as [? [self' t']].
  cbn in *. by rewrite Hu, Hs.
Qed.

Lemma kernel_to_user_times now self t : let self' := (timer_kernel_to_user now self t).1 in
  utime_us self' = utime_us self ∧
  stime_us self' = wrap64 (stime_us self + wrap64 (now - kernel_tick self)) ∧ kernel_tick self' = kernel_tick self.
Proof.
  unfold timer_kernel_to_user. set (d := wrap64 (now - kernel_tick self)). destruct (kernel_counts self); [|done].
  pose proof (update_timer_times d self t) as (Hu & Hs & Hk). destruct (update_timer_and_send_signal d self t) as [? [self' t']].
  cbn in *. by rewrite Hu, Hs, Hk.
Qed.

Lemma wrap64_add_delta x a b : wrap64 (x + wrap64 (b - a)) = wrap64 (x + (b - a)).
Proof. unfold wrap. by rewrite Zplus_mod_idemp_r. Qed.

(** The user time of a thread grows by all the time from its dispatch to its
    last trap, with the time spent in the kernel between. *)
Lemma user_time_counts_kernel_time us : ∀ self t,
  let self' := (foldl trap (self, t) us).1 in
  let end_ := default (kernel_tick self) (handled <$> list.last us) in
  wrap64 (utime_us self') = wrap64 (utime_us self + (end_ - kernel_tick self)) ∧ kernel_tick self' = end_.
Proof.
  induction us as [|u us IH] using rev_ind; intros self t.
  { cbn. rewrite Z.sub_diag, Z.add_0_r. done. }
  rewrite foldl_app, last_snoc. cbn [foldl default fmap option_fmap option_map]. specialize (IH self t).
  destruct (foldl trap (self, t) us) as [s1 t1]. destruct IH as [IHu IHk]. cbn [fst] in *. unfold trap. cbn [fst snd].
  pose proof (user_to_kernel_times (entered u) s1 t1) as (Hu2 & _ & Hk2).
  destruct (timer_user_to_kernel (entered u) s1 t1) as [s2 t2]. cbn [fst snd] in *.
  pose proof (user_to_kernel_times (handled u) s2 t2) as (Hu3 & _ & Hk3).
  destruct (timer_user_to_kernel (handled u) s2 t2) as [s3 t3]. cbn [fst snd] in *.
  pose proof (kernel_to_user_times (left_at u) s3 t3) as (Hu4 & _ & Hk4). rewrite Hk4, Hu4, Hu3, Hk2, Hu2, Hk3.
  split; [|done]. rewrite !wrap64_add_delta. unfold wrap in *. rewrite Zmod_mod.
  rewrite Zplus_mod_idemp_l, <-Z.add_assoc, <-Zplus_mod_idemp_l, IHu, Zplus_mod_idemp_l. f_equal.
  rewrite IHk. unfold id; lia.
Qed.
