(* ===== verification/FdCalls.v ===== *)
(** * System calls on descriptors (kernel/src/syscall/fs.rs)

    Reading, writing, seeking, duplicating, closing, pipes, [fcntl] and
    [sendfile], on the descriptor table of the process and the files behind it,
    which are handles into a shared state.  The buffers of the user are
    arguments and results; whether an address is or can be mapped is the
    interface [UserMemory]. *)

From S2P Require Import Prelude Bytes BitAlloc Errors FatIo BaseFile FdTable Vfs.

(** [manually_alloc_user_str] and [manually_alloc_page] of the address space. *)
Class UserMemory := {
  manually_alloc_user_str : Z → Z → bool;
  manually_alloc_page : Z → bool }.

(** What the calls use of a file besides [File]; [Pipe::new_pipe]. *)
Class FileStatus (W F : Type) := {
  get_status : F → W → Z;
  set_status : F → Z → W → bool * W;
  set_close_on_exec : F → bool → W → bool * W;
  new_pipe : W → (F * F) * W }.

(** [OpenFlags::from_bits]: every bit has to be known. *)
Definition O_ALL : Z :=
  2 ^ 0 + 2 ^ 1 + 2 ^ 6 + 2 ^ 7 + 2 ^ 8 + 2 ^ 9 + 2 ^ 11 + 2 ^ 14 + 2 ^ 15 + 2 ^ 16 + 2 ^ 17 + 2 ^ 19 + 2 ^ 21.
Definition open_from_bits (bits : Z) : option Z :=
  if Z.land bits (wnot 32 O_ALL) =? 0 then Some bits else None.

Definition SENDFILE_BUFFER_SIZE : Z := 0x2000.
Definition SEEK_SET : Z := 0.
Definition SEEK_CUR : Z := 1.
Definition SEEK_END : Z := 2.

Inductive Fcntl64Cmd := F_DUPFD | F_GETFD | F_SETFD | F_GETFL | F_SETFL | F_DUPFD_CLOEXEC.

(** [Fcntl64Cmd::try_from] *)
Definition fcntl_cmd_of (cmd : Z) : option Fcntl64Cmd :=
  if cmd =? 0 then Some F_DUPFD else if cmd =? 1 then Some F_GETFD else if cmd =? 2 then Some F_SETFD
  else if cmd =? 3 then Some F_GETFL else if cmd =? 4 then Some F_SETFL
  else if cmd =? 1030 then Some F_DUPFD_CLOEXEC else None.

Section calls.
Context {A : Type} `{BitAlloc A} {UM : UserMemory}.
Context {W F : Type} `{File W F} `{FileStatus W F}.

(** The table of the process and the files. *)
Record Fds := mkFds { d_table : FdManager A F; d_files : W }.

(** A call on the table; one on the files. *)
Definition on_table {R} (x : FdManager A F → outcome (R * FdManager A F)) : M Fds R := λ w,
  '(r, m) ← x (d_table w); Ret (r, mkFds m (d_files w)).
Definition on_files {R} (x : M W R) : M Fds R := λ w,
  '(r, fw) ← x (d_files w); Ret (r, mkFds (d_table w) fw).

(** [task.fd_manager.lock().get_file(fd)] *)
Definition the_file (fd : Z) : M Fds (OSResult F) := on_table (λ m, r ← get_file m fd; Ret (r, m)).

(** ** Reading and writing *)

(** The buffer [bytes] at [buf] comes back as the call leaves it. *)
Definition sys_read (fd buf : Z) (bytes : list Z) : M Fds (SysResult Z * list Z) :=
  if negb (manually_alloc_user_str buf (len bytes)) then mret (inr EFAULT, bytes)
  else
    r ← the_file fd;
    match r with
    | OsOk file =>
        '(n, bytes) ← on_files (file_read file bytes);
        mret (match n with Some read_len => inl read_len | None => inr EINVAL end, bytes)
    | OsErr _ => mret (inr EINVAL, bytes)
    end.

Definition sys_write (fd buf : Z) (bytes : list Z) : M Fds (SysResult Z) :=
  if negb (manually_alloc_user_str buf (len bytes)) then mret (inr EFAULT)
  else
    r ← the_file fd;
    match r with
    | OsOk file =>
        n ← on_files (file_write file bytes);
        mret (match n with Some write_len => inl write_len | None => inr EINVAL end)
    | OsErr _ => mret (inr EINVAL)
    end.

(** The vectors, each an address with the bytes there. *)
Fixpoint readv_loop (fd : Z) (iov : list (Z * list Z)) (read_len : Z) : M Fds (Z * list (Z * list Z)) :=
  match iov with
  | [] => mret (read_len, [])
  | (base, bytes) :: iov' =>
      '(r, bytes) ← sys_read fd base bytes;
      match r with
      | inl n => '(read_len, iov') ← readv_loop fd iov' (wrap64 (read_len + n)); mret (read_len, (base, bytes) :: iov')
      | inr _ => mret (read_len, (base, bytes) :: iov')
      end
  end.

Definition sys_readv (fd : Z) (iov : list (Z * list Z)) : M Fds (SysResult Z * list (Z * list Z)) :=
  '(read_len, iov) ← readv_loop fd iov 0; mret (inl read_len, iov).

Fixpoint writev_loop (fd : Z) (iov : list (Z * list Z)) (written_len : Z) : M Fds Z :=
  match iov with
  | [] => mret written_len
  | (base, bytes) :: iov =>
      if base =? 0 then writev_loop fd iov written_len
      else
        r ← sys_write fd base bytes;
        match r with
        | inl n => writev_loop fd iov (wrap64 (written_len + n))
        | inr _ => mret written_len
        end
  end.

Definition sys_writev (fd : Z) (iov : list (Z * list Z)) : M Fds (SysResult Z) :=
  written_len ← writev_loop fd iov 0; mret (inl written_len).

Definition sys_pread (fd buf : Z) (bytes : list Z) (offset : Z) : M Fds (SysResult Z * list Z) :=
  if negb (manually_alloc_page buf) then mret (inr EFAULT, bytes)
  else
    r ← the_file fd;
    match r with
    | OsOk file =>
        pos ← on_files (file_seek file (SStart offset));
        if decide (pos = Some offset) then
          '(n, bytes) ← on_files (file_read file bytes);
          mret (match n with Some read_len => inl read_len | None => inr EINVAL end, bytes)
        else mret (inr EINVAL, bytes)
    | OsErr _ => mret (inr EINVAL, bytes)
    end.

(** [offset] is the word of the user, [whence] as an [isize]. *)
Definition sys_lseek (fd offset whence : Z) : M Fds (SysResult Z) :=
  r ← the_file fd;
  match r with
  | OsOk file =>
      let seek s := n ← on_files (file_seek file s); mret (match n with Some n => inl n | None => inr EINVAL end) in
      if whence =? SEEK_SET then seek (SStart offset)
      else if whence =? SEEK_CUR then seek (SCurrent (swrap 64 offset))
      else if whence =? SEEK_END then seek (SEnd (swrap 64 offset))
      else mret (inr EINVAL)
  | OsErr _ => mret (inr EBADF)
  end.

(** ** Descriptors *)

Definition sys_close (fd : Z) : M Fds (SysResult Z) :=
  r ← on_table (λ m, remove_file m fd);
  mret (match r with OsOk _ => inl 0 | OsErr _ => inr EINVAL end).

(** The descriptors it stores for the user, [fd as u32]. *)
Definition sys_pipe : M Fds (SysResult Z * option (Z * Z)) :=
  '(pipe_read, pipe_write) ← on_files (λ w, Ret (new_pipe w));
  r ← on_table (λ m, push m pipe_read);
  match r with
  | OsOk fd1 =>
      r ← on_table (λ m, push m pipe_write);
      match r with
      | OsOk fd2 => mret (inl 0, Some (wrap32 fd1, wrap32 fd2))
      | OsErr _ => _ ← on_table (λ m, remove_file m fd1); mret (inr EINVAL, None)
      end
  | OsErr _ => mret (inr EINVAL, None)
  end.

Definition sys_dup (fd : Z) : M Fds (SysResult Z) :=
  r ← on_table (λ m, copy_fd_anywhere m fd);
  mret (match r with OsOk new_fd => inl new_fd | OsErr _ => inr EMFILE end).

Definition sys_dup3 (old_fd new_fd : Z) : M Fds (SysResult Z) :=
  b ← on_table (λ m, copy_fd_to m old_fd new_fd);
  mret (if b : bool then inl new_fd else inr EINVAL).

(** [sys_umask]: the old mask, an [i32], as a word. *)
Definition sys_umask (new_mask : Z) : M Fds (SysResult Z) :=
  old_mask ← on_table (λ m, Ret (set_umask_and_get_old m new_mask));
  mret (inl (wrap64 old_mask)).

Definition sys_fcntl64 (fd cmd arg : Z) : M Fds (SysResult Z) :=
  r ← the_file fd;
  match r with
  | OsErr _ => mret (inr EBADF)
  | OsOk file =>
      match fcntl_cmd_of cmd with
      | Some F_DUPFD =>
          r ← on_table (λ m, copy_fd_anywhere m fd);
          mret (match r with OsOk new_fd => inl new_fd | OsErr _ => inr EMFILE end)
      | Some F_GETFD =>
          status ← on_files (λ w, Ret (get_status file w, w));
          mret (inl (if has_flags status O_CLOEXEC then 1 else 0))
      | Some F_SETFD =>
          b ← on_files (λ w, Ret (set_close_on_exec file (negb (Z.land arg 1 =? 0)) w));
          mret (if b : bool then inl 0 else inr EINVAL)
      | Some F_GETFL => status ← on_files (λ w, Ret (get_status file w, w)); mret (inl status)
      | Some F_SETFL =>
          match open_from_bits (wrap32 arg) with
          | Some flags =>
              b ← on_files (λ w, Ret (set_status file flags w));
              mret (if b : bool then inl 0 else inr EINVAL)
          | None => mret (inr EINVAL)
          end
      | Some F_DUPFD_CLOEXEC =>
          r ← on_table (λ m, copy_fd_anywhere m fd);
          match r with
          | OsOk new_fd =>
              b ← on_files (λ w, Ret (set_close_on_exec file (negb (Z.land arg 1 =? 0)) w));
              if b : bool then mret (inl new_fd)
              else
                _ ← on_table (λ m, '(r, m) ← remove_file m new_fd;
                                   match r with OsOk _ => Ret (tt, m) | OsErr _ => Panic end);
                mret (inr EMFILE)
          | OsErr _ => mret (inr EMFILE)
          end
      | None => mret (inr EINVAL)
      end
  end.

(** Only the checks. *)
Definition sys_ioctl (fd request argp : Z) : M Fds (SysResult Z) :=
  r ← the_file fd;
  match r with
  | OsErr _ => mret (inr EBADF)
  | OsOk _ => mret (if manually_alloc_page argp then inl 0 else inr EFAULT)
  end.

(** ** [sendfile] *)

(** [&buf[..n]] *)
Definition prefix_of (n : Z) (buf : list Z) : outcome (list Z) :=
  if n <=? len buf then Ret (take (Z.to_nat n) buf) else Panic.

(** The position to come back to: the file's own, or the one asked for. *)
Definition sendfile_pos (in_file : F) (offset off : Z) : M Fds (SysResult Z) :=
  if offset =? 0 then pos ← on_files (file_seek in_file (SCurrent 0)); mret (inl (default 0 pos))
  else if negb (manually_alloc_page offset) then mret (inr EFAULT)
  else pos ← on_files (file_seek in_file (SStart off)); mret (match pos with Some pos => inl pos | None => inr ESPIPE end).

(** [off] is what the user has at the address [offset]; it comes back too. *)
Definition sys_sendfile64 (out_fd in_fd offset off count : Z) : M Fds (SysResult Z * Z) :=
  o ← the_file out_fd;
  i ← the_file in_fd;
  match o, i with
  | OsOk out_file, OsOk in_file =>
      pos ← sendfile_pos in_file offset off;
      match pos with
      | inr e => mret (inr e, off)
      | inl current_pos =>
          let buf := repeat 0 (Z.to_nat (Z.min count SENDFILE_BUFFER_SIZE)) in
          '(r, buf) ← on_files (file_read in_file buf);
          match r with
          | None => mret (inr EINVAL, off)
          | Some read_len =>
              part ← (λ w, p ← prefix_of read_len buf; Ret (p, w));
              r ← on_files (file_write out_file part);
              match r with
              | None => mret (inr EINVAL, off)
              | Some write_len =>
                  if negb (offset =? 0) then
                    _ ← on_files (file_seek in_file (SStart current_pos));
                    mret (inl write_len, wrap64 (off + write_len))
                  else if negb (write_len =? read_len) then
                    _ ← on_files (file_seek in_file (SCurrent (swrap 64 (swrap 64 write_len - swrap 64 read_len))));
                    mret (inl write_len, off)
                  else mret (inl write_len, off)
              end
          end
      end
  | _, _ => mret (inr EBADF, off)
  end.
End calls.
Arguments Fds A W F : clear implicits.
