(* ===== verification/FdCallsSpec.v ===== *)
(** * What the calls on descriptors do

    A pipe gets both its descriptors or none; reading into several buffers is
    one read into all of them; [sendfile] sends the next bytes of a file, as
    many as the other file takes, and leaves the rest. *)

From S2P Require Import Prelude Bytes BitAlloc BitAllocSpec Errors FatIo BaseFile FdTable FdTableSpec Vfs FdCalls.

(** ** Files that are byte strings with a position *)

(** [src] reads from [bs_bytes] at [bs_pos] and can be sought; [snk] takes some of
    what it is given, behind what it has. *)
Class ByteFiles (W F : Type) `{File W F} (src snk : F) := {
  bs_ok : W → Prop;
  bs_bytes : W → list Z;
  bs_pos : W → Z;
  bs_sent : W → list Z;
  bs_range w : bs_ok w → 0 <= bs_pos w <= len (bs_bytes w) ∧ len (bs_bytes w) < 2 ^ 63;
  bs_read w buf : bs_ok w → let n := Z.min (len buf) (len (bs_bytes w) - bs_pos w) in
    ∃ w', file_read src buf w = Ret ((Some n, splice 0 (bytes_at (bs_pos w) n (bs_bytes w)) buf), w') ∧
      bs_ok w' ∧ bs_bytes w' = bs_bytes w ∧ bs_pos w' = bs_pos w + n ∧ bs_sent w' = bs_sent w;
  bs_seek w p : bs_ok w → 0 <= p <= len (bs_bytes w) →
    ∃ w', file_seek src (SStart p) w = Ret (Some p, w') ∧
      bs_ok w' ∧ bs_bytes w' = bs_bytes w ∧ bs_pos w' = p ∧ bs_sent w' = bs_sent w;
  bs_skip w d : bs_ok w → 0 <= bs_pos w + d <= len (bs_bytes w) →
    ∃ w', file_seek src (SCurrent d) w = Ret (Some (bs_pos w + d), w') ∧
      bs_ok w' ∧ bs_bytes w' = bs_bytes w ∧ bs_pos w' = bs_pos w + d ∧ bs_sent w' = bs_sent w;
  bs_write w bs : bs_ok w → ∃ k w', file_write snk bs w = Ret (Some k, w') ∧ 0 <= k <= len bs ∧
      bs_ok w' ∧ bs_bytes w' = bs_bytes w ∧ bs_pos w' = bs_pos w ∧ bs_sent w' = bs_sent w ++ bytes_at 0 k bs }.

Section calls.
Context {A : Type} `{BitAlloc A} {UM : UserMemory}.
Context {W F : Type} {FI : File W F} {FS : FileStatus W F}.
Implicit Types w : Fds A W F.

Definition is_file w (fd : Z) (f : F) : Prop := 0 <= fd ∧ file_at (d_table w) fd = Some f.

Lemma on_files_run {R} (x : M W R) w r fw : x (d_files w) = Ret (r, fw) → on_files x w = Ret (r, mkFds (d_table w) fw).
Proof. intros Hx. unfold on_files. by rewrite Hx. Qed.

Lemma the_file_run w fd : 0 <= fd → the_file fd w =
  Ret (match file_at (d_table w) fd with Some f => OsOk f | None => OsErr FdManager_FdNotFound end, w).
Proof.
  intros Hfd. unfold the_file, on_table. rewrite get_file_spec, !bind_Ret by done. by destruct w.
Qed.

Lemma the_file_open w fd f : is_file w fd f → the_file fd w = Ret (OsOk f, w).
Proof. intros [? Hf]. by rewrite the_file_run, Hf by done. Qed.

Lemma the_file_closed w fd : 0 <= fd → file_at (d_table w) fd = None → the_file fd w = Ret (OsErr FdManager_FdNotFound, w).
Proof. intros ? Hf. by rewrite the_file_run, Hf by done. Qed.

(** Reading into buffers of a closed descriptor succeeds with nothing. *)
Lemma readv_of_closed w fd iov : 0 <= fd → file_at (d_table w) fd = None → sys_readv fd iov w = Ret ((inl 0, iov), w).
Proof.
  intros Hfd Hf. unfold sys_readv. destruct iov as [|[base bytes] iov]; [done|]. cbn [readv_loop].
  assert (∃ e, sys_read fd base bytes w = Ret ((inr e, bytes), w)) as [e He].
  { unfold sys_read. destruct (negb _); [by exists EFAULT|]. step (the_file_closed w fd Hfd Hf). by exists EINVAL. }
  erewrite M_bind_Ret; [|erewrite M_bind_Ret; [|exact He]; cbv beta iota; reflexivity]. done.
Qed.

(** ** Pipes *)

Lemma on_table_run {R} (x : FdManager A F → outcome (R * FdManager A F)) w r m :
  x (d_table w) = Ret (r, m) → on_table x w = Ret (r, mkFds m (d_files w)).
Proof. intros Hx. unfold on_table. by rewrite Hx. Qed.

Section pipe.
Context {V : BitAllocView A} {BS : BitAllocSpec A}.

Definition lowest_closed (m : FdManager A F) (fd : Z) : Prop :=
  0 <= fd < limit m ∧ file_at m fd = None ∧ ∀ j, 0 <= j < fd → file_at m j ≠ None.

(** C38.  [pipe] puts the two ends at the two lowest descriptors that are not
    open, the reading end first, and changes no other; when there are not two it
    fails and every descriptor is as before. *)
Theorem pipe_gets_both_or_none w : inv (d_table w) →
  let '((pipe_read, pipe_write), files) := new_pipe (d_files w) in
  (∃ fd1 fd2 m1 m2, sys_pipe w = Ret ((inl 0, Some (fd1, fd2)), mkFds m2 files) ∧ inv m2 ∧
     lowest_closed (d_table w) fd1 ∧ table_set (d_table w) m1 fd1 (Some pipe_read) ∧
     lowest_closed m1 fd2 ∧ table_set m1 m2 fd2 (Some pipe_write)) ∨
  (∃ m', sys_pipe w = Ret ((inr EINVAL, None), mkFds m' files) ∧ inv m' ∧
     (∀ j, 0 <= j → file_at m' j = file_at (d_table w) j) ∧
     ∃ k, ∀ j, 0 <= j < limit (d_table w) → j ≠ k → file_at (d_table w) j ≠ None).
Proof.
  intros Hinv. destruct (new_pipe (d_files w)) as [[rd wr] fw] eqn:Hnew.
  assert (on_files (λ fw, Ret (new_pipe fw)) w = Ret ((rd, wr), mkFds (d_table w) fw)) as Hp
    by (apply on_files_run; by rewrite Hnew).
  set (m := d_table w) in *. unfold sys_pipe. rewrite (M_bind_Ret _ _ _ _ _ Hp). cbv beta iota.
  destruct (push_spec m rd Hinv) as [(fd1&m1&Hr1&Hfd1&Hn1&Hlow1&Hinv1&Hset1)|[Hr1 Hall]].
  2: { right. exists m. split; [|split_and!; [done..|exists 0; auto]].
       by rewrite (M_bind_Ret _ _ _ _ _ (on_table_run _ (mkFds m fw) _ _ Hr1)). }
  rewrite (M_bind_Ret _ _ _ _ _ (on_table_run _ (mkFds m fw) _ _ Hr1)). cbv beta iota.
  pose proof Hset1 as (Hat1&Hl1&_). pose proof Hinv as (_&_&Hlim&_).
  destruct (push_spec m1 wr Hinv1) as [(fd2&m2&Hr2&Hfd2&Hn2&Hlow2&Hinv2&Hset2)|[Hr2 Hall]];
    rewrite (M_bind_Ret _ _ _ _ _ (on_table_run _ (mkFds m1 fw) _ _ Hr2)); cbv beta iota.
  - left. exists fd1, fd2, m1, m2. split; [|done]. unfold mret, M_ret. cbn [d_files].
    by rewrite !wrap_small by (unfold word; lia).
  - right. pose proof (remove_file_spec m1 fd1 Hinv1 ltac:(lia)) as Hrem.
    rewrite Hat1, decide_True in Hrem by lia. destruct Hrem as (m2&Hr3&Hinv2&Hat2&_&_); [lia|].
    exists m2. rewrite (M_bind_Ret _ _ _ _ _ (on_table_run _ (mkFds m1 fw) _ _ Hr3)).
    split_and!; [done|done| |].
    + intros j Hj. rewrite Hat2, Hat1 by done. case_decide; by subst.
    + exists fd1. intros j Hj Hne. specialize (Hall j). rewrite Hat1, decide_False in Hall by (done || lia). apply Hall. lia.
Qed.
End pipe.

(** ** Reading into several buffers *)

Section bytes.
Context {src snk : F} {BF : ByteFiles W F src snk}.
Context (Hmapped : ∀ a n, manually_alloc_user_str a n = true) (Hpage : ∀ a, manually_alloc_page a = true).

(** The file stands [k] bytes further in [w'] than in [w]. *)
Definition moved w w' (k : Z) : Prop :=
  d_table w' = d_table w ∧ bs_ok (d_files w') ∧ bs_bytes (d_files w') = bs_bytes (d_files w) ∧
  bs_pos (d_files w') = bs_pos (d_files w) + k ∧ bs_sent (d_files w') = bs_sent (d_files w).

Definition remaining w : Z := len (bs_bytes (d_files w)) - bs_pos (d_files w).

(** [buf] after reading at the position. *)
Definition filled w (buf : list Z) : list Z :=
  splice 0 (bytes_at (bs_pos (d_files w)) (Z.min (len buf) (remaining w)) (bs_bytes (d_files w))) buf.

Lemma read_fills w fd base buf : bs_ok (d_files w) → is_file w fd src →
  let n := Z.min (len buf) (remaining w) in
  ∃ w', sys_read fd base buf w = Ret ((inl n, filled w buf), w') ∧ moved w w' n.
Proof.
  intros Hok Hf n. unfold sys_read. rewrite Hmapped. cbn [negb].
  step (the_file_open w fd src Hf). destruct (bs_read (d_files w) buf Hok) as (fw&Hr&Hmv).
  exists (mkFds (d_table w) fw). split; [|done]. by step (on_files_run _ w _ _ Hr).
Qed.

Lemma moved_trans w1 w2 w3 a b : moved w1 w2 a → moved w2 w3 b → moved w1 w3 (a + b).
Proof.
  intros (?&?&Hb&Hp&?) (?&?&Hb'&Hp'&?). unfold moved. rewrite Hp', Hp, Hb', Hb. split_and!; [congruence|done|done|lia|congruence].
Qed.

(** A read into two buffers is one after the other. *)
Lemma filled_app w w' a b : moved w w' (Z.min (len a) (remaining w)) → bs_ok (d_files w) →
  filled w (a ++ b) = filled w a ++ filled w' b ∧
  Z.min (len (a ++ b)) (remaining w) = Z.min (len a) (remaining w) + Z.min (len b) (remaining w').
Proof.
  intros (_&_&Hb&Hp&_) Hok. destruct (bs_range (d_files w) Hok) as [Hpos _].
  pose proof (len_nonneg a). pose proof (len_nonneg b).
  unfold filled, remaining in *. rewrite Hb, Hp, len_app.
  set (l := bs_bytes (d_files w)) in *. set (p := bs_pos (d_files w)) in *.
  split; [|lia]. destruct (decide (len a <= len l - p)).
  - rewrite (Z.min_l (len a)) by lia. replace (Z.min (len a + len b) (len l - p)) with (len a + Z.min (len b) (len l - (p + len a))) by lia.
    by rewrite bytes_at_app, splice_app_both by (rewrite ?len_bytes_at; lia).
  - rewrite !Z.min_r by lia. replace (len l - (p + (len l - p))) with 0 by lia.
    rewrite bytes_at_0, splice_nil. apply splice_app_l; rewrite ?len_bytes_at; lia.
Qed.
Lemma moved_file w w' k fd f : moved w w' k → is_file w fd f → is_file w' fd f.
Proof. intros (Ht&_) [? Hf]. split; [done|]. by rewrite Ht. Qed.

Lemma moved_0 w : bs_ok (d_files w) → moved w w 0.
Proof. intros. split_and!; try done. lia. Qed.

Lemma readv_loop_fills fd iov : ∀ w acc, bs_ok (d_files w) → is_file w fd src →
  0 <= acc → acc + len (concat iov.*2) < 2 ^ 63 →
  let n := Z.min (len (concat iov.*2)) (remaining w) in
  ∃ iov' w', readv_loop fd iov acc w = Ret ((acc + n, iov'), w') ∧ moved w w' n ∧
    iov'.*1 = iov.*1 ∧ concat iov'.*2 = filled w (concat iov.*2).
Proof.
  induction iov as [|[base buf] iov IH]; intros w acc Hok Hf Hacc Hlen; cbn [readv_loop fmap list_fmap concat snd fst] in *.
  - exists [], w. pose proof (bs_range _ Hok) as [? _]. assert (Z.min (len []) (remaining w) = 0) as Hz by (change (len []) with 0; unfold remaining; lia).
    rewrite Hz, Z.add_0_r. split_and!; [done|by apply moved_0|done|]. unfold filled. by rewrite Hz, bytes_at_0.
  - change (snd <$> iov) with (iov.*2) in *. change (fst <$> iov) with (iov.*1) in *. rewrite len_app in Hlen.
    pose proof (len_nonneg buf). pose proof (len_nonneg (concat iov.*2)).
    destruct (read_fills w fd base buf Hok Hf) as (w1&Hr&Hmv1). step Hr.
    pose proof (bs_range _ Hok) as [? _].
    set (n1 := Z.min (len buf) (remaining w)) in *. assert (0 <= n1 <= len buf) by (unfold n1, remaining in *; lia).
    destruct (filled_app w w1 buf (concat iov.*2) Hmv1 Hok) as [Hfill Hmin].
    destruct (IH w1 (acc + n1)) as (iov'&w2&Hr2&Hmv2&Hfst&Hsnd); [apply Hmv1|by eapply moved_file|lia|lia|].
    exists ((base, filled w buf) :: iov'), w2. rewrite wrap_small by (unfold word; lia). step Hr2.
    split_and!; [rewrite Hmin; unfold mret, M_ret; do 3 f_equal; fold n1; lia|rewrite Hmin; by eapply moved_trans
      |cbn; by f_equal|cbn [fmap list_fmap concat snd]; change (snd <$> iov') with (iov'.*2); by rewrite Hsnd, Hfill].
Qed.

(**  Reading a file into several buffers fills them with what one read into
    one buffer of their whole length would give, returns the same number and
    leaves the file at the same position. *)
Theorem readv_is_one_read w fd base iov : bs_ok (d_files w) → is_file w fd src → len (concat iov.*2) < 2 ^ 63 →
  ∃ n out iov' w1 w2, sys_read fd base (concat iov.*2) w = Ret ((inl n, out), w1) ∧
    sys_readv fd iov w = Ret ((inl n, iov'), w2) ∧
    iov'.*1 = iov.*1 ∧ concat iov'.*2 = out ∧
    bs_pos (d_files w2) = bs_pos (d_files w1) ∧ bs_bytes (d_files w2) = bs_bytes (d_files w1) ∧
    d_table w2 = d_table w1.
Proof.
  intros Hok Hf Hlen. destruct (read_fills w fd base (concat iov.*2) Hok Hf) as (w1&Hr&Ht1&_&Hb1&Hp1&_).
  destruct (readv_loop_fills fd iov w 0 Hok Hf) as (iov'&w2&Hr2&(Ht2&_&Hb2&Hp2&_)&Hfst&Hsnd); [done|lia|].
  eexists _, _, iov', w1, w2. split; [exact Hr|]. unfold sys_readv. step Hr2. split_and!; try done; congruence.
Qed.

(** ** [sendfile] *)

Lemma prefix_spliced n (bs : list Z) (buf : list Z) : len bs = n → n <= len buf → prefix_of n (splice 0 bs buf) = Ret bs.
Proof.
  intros Hn Hle. unfold prefix_of. rewrite len_splice. pose proof (len_nonneg bs).
  rewrite (proj2 (Z.leb_le _ _)) by done. f_equal. subst n.
  transitivity (bytes_at 0 (len bs) (splice 0 bs buf)); [done|]. by apply bytes_at_splice_same.
Qed.

(** What a call of [sendfile] sends from position [p]: [k] bytes, at most [n]. *)
Definition sent_from w w' (p k : Z) : Prop :=
  d_table w' = d_table w ∧ bs_ok (d_files w') ∧ bs_bytes (d_files w') = bs_bytes (d_files w) ∧
  bs_sent (d_files w') = bs_sent (d_files w) ++ bytes_at p k (bs_bytes (d_files w)).

Definition sendable (count p : Z) w : Z :=
  Z.min (Z.min count SENDFILE_BUFFER_SIZE) (len (bs_bytes (d_files w)) - p).

Lemma sendfile_position w offset off : bs_ok (d_files w) → (offset ≠ 0 → 0 <= off <= len (bs_bytes (d_files w))) →
  let p := if offset =? 0 then bs_pos (d_files w) else off in
  ∃ w', sendfile_pos src offset off w = Ret (inl p, w') ∧ moved w w' (p - bs_pos (d_files w)).
Proof.
  intros Hok Hoff. destruct (bs_range _ Hok) as [Hpos _]. unfold sendfile_pos. destruct (Z.eqb_spec offset 0).
  - destruct (bs_skip (d_files w) 0 Hok ltac:(lia)) as (fw&Hr&?&?&?&?). exists (mkFds (d_table w) fw).
    step (on_files_run _ w _ _ Hr). split; [cbn; by rewrite Z.add_0_r|]. split_and!; cbn; try done. lia.
  - rewrite Hpage. cbn [negb]. destruct (bs_seek (d_files w) off Hok ltac:(auto)) as (fw&Hr&?&?&?&?).
    exists (mkFds (d_table w) fw). step (on_files_run _ w _ _ Hr). split; [done|]. split_and!; cbn; try done. lia.
Qed.

(**  [sendfile] between two open files, with a position that lies in the
    first one, sends the bytes from there on: as many as the second one takes
    of those asked for, present and fitting its buffer.  Without an address
    for the position the first file then stands behind the last byte that was
    sent; with one, the position at the address moves on and the file stands at
    the old one. *)
Theorem sendfile_sends_next_bytes w out_fd in_fd offset off count :
  bs_ok (d_files w) → is_file w out_fd snk → is_file w in_fd src → 0 <= count →
  (offset ≠ 0 → 0 <= off <= len (bs_bytes (d_files w))) →
  let p := if offset =? 0 then bs_pos (d_files w) else off in
  ∃ k w', sys_sendfile64 out_fd in_fd offset off count w =
      Ret ((inl k, if offset =? 0 then off else off + k), w') ∧
    0 <= k <= sendable count p w ∧ sent_from w w' p k ∧
    bs_pos (d_files w') = if offset =? 0 then p + k else p.
Proof.
  intros Hok Hout Hin Hcount Hoff p. destruct (bs_range _ Hok) as [Hpos Hlen].
  assert (0 <= p <= len (bs_bytes (d_files w))) as Hp by (unfold p; destruct (Z.eqb_spec offset 0); auto).
  unfold sys_sendfile64. step (the_file_open _ _ _ Hout). step (the_file_open _ _ _ Hin).
  destruct (sendfile_position w offset off Hok Hoff) as (w1&Hr1&Ht1&Hok1&Hb1&Hp1&Hs1). fold p in Hr1, Hp1. step Hr1.
  set (buf := repeat 0 _). assert (len buf = Z.min count SENDFILE_BUFFER_SIZE) as Hbuf.
  { unfold len, buf. rewrite repeat_length. unfold SENDFILE_BUFFER_SIZE. lia. }
  destruct (bs_read (d_files w1) buf Hok1) as (fw2&Hr2&Hok2&Hb2&Hp2&Hs2). 
  replace (bs_pos (d_files w1)) with p in * by lia. rewrite Hb1, Hbuf in *. fold (sendable count p w) in *.
  set (n := sendable count p w) in *. assert (0 <= n <= len buf) as Hn by (unfold n, sendable, SENDFILE_BUFFER_SIZE in *; lia).
  assert (p + n <= len (bs_bytes (d_files w))) as Hpn by (unfold n, sendable; lia).
  step (on_files_run _ w1 _ _ Hr2).
  set (part := bytes_at p n (bs_bytes (d_files w))) in *. assert (len part = n) as Hpart by (unfold part; rewrite len_bytes_at; lia).
  erewrite M_bind_Ret; [|cbv beta; rewrite prefix_spliced by lia; reflexivity]. cbv beta iota.
  destruct (bs_write fw2 part Hok2) as (k&fw3&Hr3&Hk&Hok3&Hb3&Hp3&Hs3).
  step (on_files_run _ (mkFds (d_table w1) fw2) _ _ Hr3). cbn [d_table].
  assert (bs_sent fw3 = bs_sent (d_files w) ++ bytes_at p k (bs_bytes (d_files w))) as Hsent.
  { rewrite Hs3, Hs2, Hs1. f_equal. unfold part. rewrite bytes_at_bytes_at by lia. by rewrite Z.add_0_r. }
  exists k. destruct (Z.eqb_spec offset 0) as [E|E]; cbn [negb].
  - destruct (Z.eqb_spec k n) as [->|Hne]; cbn [negb].
    + exists (mkFds (d_table w1) fw3). unfold sent_from; split_and!; cbn; try done; try lia; congruence.
    + destruct (bs_skip fw3 (k - n) Hok3) as (fw4&Hr4&?&Hb4&Hp4&Hs4); [rewrite Hb3, Hb2; lia|].
      assert (swrap 64 (swrap 64 k - swrap 64 n) = k - n) as -> by (rewrite (swrap_small 64 k), (swrap_small 64 n) by lia; apply swrap_small; lia).
      rewrite (M_bind_Ret _ _ _ _ _ (on_files_run _ (mkFds (d_table w1) fw3) _ _ Hr4)).
      exists (mkFds (d_table w1) fw4). unfold sent_from; split_and!; cbn; try done; try lia; congruence.
  - destruct (bs_seek fw3 p Hok3) as (fw4&Hr4&?&Hb4&Hp4&Hs4); [rewrite Hb3, Hb2; lia|].
    rewrite (M_bind_Ret _ _ _ _ _ (on_files_run _ (mkFds (d_table w1) fw3) _ _ Hr4)).
    exists (mkFds (d_table w1) fw4). rewrite wrap_small by (unfold word; unfold p in *; destruct (Z.eqb_spec offset 0); lia).
    unfold sent_from; split_and!; cbn; try done; try lia; congruence.
Qed.
End bytes.
End calls.

(** ** A concrete file and a sink that takes five bytes at a time *)

Section witness.
Import BitFieldModel.

Definition Src : Type := (list Z * Z) * list Z.

#[local] Instance src_file : File Src bool := {|
  file_read _ buf w := let '((c, p), s) := w in
    let n := Z.min (len buf) (len c - p) in
    Ret ((Some n, splice 0 (bytes_at p n c) buf), ((c, p + n), s));
  file_write _ bs w := let '(f, s) := w in let k := Z.min 5 (len bs) in Ret (Some k, (f, s ++ bytes_at 0 k bs));
  file_seek _ sf w := let '((c, p), s) := w in
    let q := match sf with SStart q => q | SCurrent d => p + d | SEnd d => len c + d end in Ret (Some q, ((c, q), s));
  file_read_from_offset _ _ buf := mret (None, buf);
  file_write_to_offset _ _ _ := mret None |}.

#[local] Instance src_status : FileStatus Src bool := {|
  get_status _ _ := 0; set_status _ _ w := (false, w); set_close_on_exec _ _ w := (false, w); new_pipe w := ((true, false), w) |}.

#[local] Instance all_mapped : UserMemory := {| manually_alloc_user_str _ _ := true; manually_alloc_page _ := true |}.

#[local, program] Instance src_bytes : ByteFiles Src bool true false := {|
  bs_ok w := 0 <= w.1.2 <= len w.1.1 ∧ len w.1.1 < 2 ^ 63; bs_bytes w := w.1.1; bs_pos w := w.1.2; bs_sent w := w.2 |}.
Next Obligation. done. Qed.
Next Obligation.
  intros [[c p] s] buf [? ?]. cbn in *. eexists. split; [done|]. cbn. pose proof (len_nonneg buf). split_and!; done || lia.
Qed.
Next Obligation. intros [[c p] s] q [? ?] ?. cbn in *. eexists. split; [done|]. cbn. split_and!; done || lia. Qed.
Next Obligation. intros [[c p] s] q [? ?] ?. cbn in *. eexists. split; [done|]. cbn. split_and!; done || lia. Qed.
Next Obligation.
  intros [[c p] s] bs [? ?]. cbn in *. eexists _, _. split; [done|]. pose proof (len_nonneg bs). cbn. split_and!; done || lia.
Qed.

(** Descriptors 0 and 1 are the source, 2 the sink. *)
Definition w_table : outcome (FdManager (Tower 1) bool) := fd_new true true false 18.

Lemma w_table_ok : ∃ m, w_table = Ret m ∧ inv m ∧ file_at m 0 = Some true ∧ file_at m 2 = Some false.
Proof.
  destruct (fd_new_spec (BS := w_spec) true true false 18 eq_refl) as (m&Hr&[Hi _]&_&Hat).
  exists m. split; [exact Hr|]. split; [exact Hi|]. clear Hr. split; rewrite Hat by lia; reflexivity.
Qed.

(** Twelve bytes, the file at the fourth one. *)
Definition src : Src := (([0; 1; 2; 3; 4; 5; 6; 7; 8; 9; 10; 11], 3), []).

Lemma src_ok : bs_ok src.
Proof. cbn. unfold len; cbn. lia. Qed.

Lemma pipe_gets_both_or_none_witness : ∃ m : FdManager (Tower 1) bool, inv m ∧
  (let w := mkFds m src in
   (∃ fd1 fd2 m1 m2, sys_pipe w = Ret ((inl 0, Some (fd1, fd2)), mkFds m2 src) ∧ inv m2 ∧
     lowest_closed m fd1 ∧ table_set m m1 fd1 (Some true) ∧ lowest_closed m1 fd2 ∧ table_set m1 m2 fd2 (Some false)) ∨
   (∃ m', sys_pipe w = Ret ((inr EINVAL, None), mkFds m' src) ∧ inv m' ∧
     (∀ j, 0 <= j → file_at m' j = file_at m j) ∧ ∃ k, ∀ j, 0 <= j < limit m → j ≠ k → file_at m j ≠ None)).
Proof.
  destruct w_table_ok as (m&_&Hi&_&_). exists m. split; [exact Hi|].
  exact (pipe_gets_both_or_none (BS := w_spec) (mkFds m src) Hi).
Defined.

Lemma readv_is_one_read_witness : ∃ (m : FdManager (Tower 1) bool) iov' w2,
  sys_readv 0 [(1, [255; 255]); (2, [255; 255; 255])] (mkFds m src) = Ret ((inl 5, iov'), w2) ∧
  concat iov'.*2 = [3; 4; 5; 6; 7].
Proof.
  destruct w_table_ok as (m&_&_&H0&_).
  destruct (readv_is_one_read (UM := all_mapped) (BF := src_bytes) (λ _ _, eq_refl) (mkFds m src) 0 1 [(1, [255; 255]); (2, [255; 255; 255])])
    as (n&out&iov'&w1&w2&Hr&Hr2&_&Hout&_); [exact src_ok|split; [lia|exact H0]|vm_compute; reflexivity|].
  destruct (read_fills (UM := all_mapped) (BF := src_bytes) (λ _ _, eq_refl) (mkFds m src) 0 1 [255; 255; 255; 255; 255] src_ok) as (w1'&Hr'&_);
    [split; [lia|exact H0]|].
  exists m, iov', w2. change (concat [[255; 255]; [255; 255; 255]]) with [255; 255; 255; 255; 255] in Hr.
  cbn [fmap list_fmap snd concat app] in Hr. rewrite Hr in Hr'. injection Hr' as -> -> ->. exact (conj Hr2 Hout).
Defined.

Lemma sendfile_sends_next_bytes_witness : ∃ (m : FdManager (Tower 1) bool) k w',
  sys_sendfile64 2 0 0 0 100 (mkFds m src) = Ret ((inl k, 0), w') ∧
  0 <= k <= 9 ∧ (d_files w').2 = bytes_at 3 k src.1.1 ∧ (d_files w').1.2 = 3 + k.
Proof.
  destruct w_table_ok as (m&_&_&H0&H2).
  destruct (sendfile_sends_next_bytes (UM := all_mapped) (BF := src_bytes) (λ _, eq_refl) (mkFds m src) 2 0 0 0 100)
    as (k&w'&Hr&Hk&(_&_&_&Hs)&Hp); [exact src_ok|split; [lia|exact H2]|split; [lia|exact H0]|lia|lia|].
  exists m, k, w'. exact (conj Hr (conj Hk (conj Hs Hp))).
Defined.
End witness.
