(* ===== verification/PathCalls.v ===== *)
(** * System calls on paths (kernel/src/syscall/fs.rs)

    What a process asks for by name: its current directory, opening, checking,
    making, linking, removing, renaming, mounting and listing.  A path is
    resolved against the current directory or the directory behind a
    descriptor and handed to the files by name.  A path of the user is the
    string behind its pointer; whether an address can be mapped is
    [UserMemory].  Locks: a call that takes a lock its task holds never returns,
    which is [Panic] here. *)

From S2P Require Import Prelude Bytes BitAlloc BitAllocSpec Addr PageFrame PageFrameSpec FatIo FatIoSpec FatTime.
From S2P Require Import FatTable FatTableSpec DirEntry DirEntrySpec BootSector BootSectorSpec FatFs FatFsSpec DiskFile.
From S2P Require Import DiskFileSpec DirNames DirNamesSpec Dir DirSpec DirWriteSpec RootDirSpec.
From S2P Require FatFile.
From S2P Require Import VirtFile Errors Paths PathsSpec Vfs VfsSpec FdTable FdTableSpec FdCalls FdCallsSpec FileNs.
From S2P Require Import FileNsSpec FileNsRootSpec.

Section calls.
Context {D : Type} `{Stream D} {TP : TimeProvider}.
Context {A : Type} `{BitAlloc A} `{PageFrameConfig}.
Context {FA : Type} `{BitAlloc FA} {UM : UserMemory}.

(** A task: the files by name, its table of descriptors, the open files its
    descriptors refer to by their address, and its current directory. *)
Record Task := mkTask {
  t_kfs : Kfs (D := D) (A := A);
  t_table : FdManager FA Z;
  t_open : gmap Z (OpenFile (D := D));
  t_dir : list Z }.
Implicit Types w : Task.

Definition on_kfs {R} (x : M Kfs R) : M Task R := λ w,
  '(r, k) ← x (t_kfs w); Ret (r, mkTask k (t_table w) (t_open w) (t_dir w)).
Definition on_fds {R} (x : FdManager FA Z → outcome (R * FdManager FA Z)) : M Task R := λ w,
  '(r, m) ← x (t_table w); Ret (r, mkTask (t_kfs w) m (t_open w) (t_dir w)).
Definition set_dir (dir : list Z) : M Task unit := λ w, Ret (tt, mkTask (t_kfs w) (t_table w) (t_open w) dir).

(** [Arc::new]: a new address for an open file. *)
Definition new_open (file : OpenFile (D := D)) : M Task Z := λ w,
  let p := fresh (dom (t_open w)) in
  Ret (p, mkTask (t_kfs w) (t_table w) (<[p := file]> (t_open w)) (t_dir w)).

(** [File::get_dir]: [FdDir] has its path, a virtual directory its name. *)
Definition open_get_dir (v : Vfs) (file : OpenFile (D := D)) : option (list Z) :=
  match file with
  | ODir dir => Some dir
  | OVirt (RDir p) => vd_name <$> (v_dirs v !! p)
  | _ => None
  end.

(** The directory behind a descriptor; looking it up does not panic. *)
Definition fd_dir w (fd : Z) : option (list Z) :=
  match get_file (t_table w) fd with
  | Ret (OsOk p) => file ← t_open w !! p; open_get_dir (k_vfs (t_kfs w)) file
  | _ => None
  end.

Definition resolve (dir_fd : Z) (path : list Z) : M Task (option (list Z * list Z)) := λ w,
  r ← resolve_path_from_fd (t_dir w) (fd_dir w) dir_fd path; Ret (r, w).

(** The same while the task holds its table: asking for the directory of a
    descriptor takes the lock again. *)
Definition resolve_locked (dir_fd : Z) (path : list Z) : M Task (option (list Z * list Z)) :=
  if starts_with [SLASH] path || (dir_fd =? AT_FDCWD) then resolve dir_fd path else λ _, Panic.

(** ** The current directory *)

(** The string comes back without the leading dot; the byte [0] follows it. *)
Definition sys_getcwd (buf len : Z) : M Task (SysResult Z * option (list Z)) := λ w,
  if negb (manually_alloc_page buf) then Ret ((inr EFAULT, None), w)
  else if str_len (t_dir w) <=? len then s ← str_from (t_dir w) 1; Ret ((inl buf, Some s), w)
  else Ret ((inr ERANGE, None), w).

Definition sys_chdir (addr : Z) (path : list Z) : M Task (SysResult Z) :=
  if negb (manually_alloc_page addr) then mret (inr EINVAL)
  else
    p ← (λ w, Ret (chdir_path (t_dir w) path, w));
    _ ← set_dir (snd p);
    b ← on_kfs (check_dir_exists (fst p));
    if b : bool then _ ← set_dir (fst p); mret (inl 0) else mret (inr EINVAL).

Definition sys_access (dir_fd addr : Z) (path : list Z) : M Task (SysResult Z) :=
  if negb (manually_alloc_page addr) then mret (inr EFAULT)
  else
    r ← resolve dir_fd path;
    match r with
    | Some (path, file) =>
        b ← on_kfs (check_file_exists path file);
        if b : bool then mret (inl 0)
        else
          b ← on_kfs (check_dir_exists (path ++ file));
          mret (if b : bool then inl 0 else inr ENOENT)
    | None => mret (inr EINVAL)
    end.

(** ** Opening *)

(** The current directory itself, and a path that begins with [.//]. *)
Definition dot_path (file_path : list Z) : list Z :=
  if decide (file_path = [DOT]) then [DOT; SLASH]
  else if starts_with [DOT; SLASH; SLASH] file_path then DOT :: drop 2 file_path
  else file_path.

Definition sys_open (dir_fd addr : Z) (path : list Z) (flags : Z) : M Task (SysResult Z) :=
  full ← on_fds is_full;
  if full : bool then mret (inr EMFILE)
  else if negb (manually_alloc_page addr) then mret (inr EINVAL)
  else
    r ← resolve_locked dir_fd path;
    match r with
    | None => mret (inr ENOENT)
    | Some (parent_dir, file_path) =>
        let file_path := dot_path file_path in
        match open_from_bits flags with
        | None => mret (inr ENOENT)
        | Some open_flags =>
            node ← on_kfs (k_open_file parent_dir file_path open_flags);
            match node with
            | Some node =>
                p ← new_open node;
                r ← on_fds (λ m, push m p);
                mret (match r with OsOk fd => inl fd | OsErr _ => inr ENOENT end)
            | None =>
                if has_flags open_flags O_EXCL then mret (inr EEXIST)
                else
                  b ← on_kfs (check_dir_exists (parent_dir ++ file_path));
                  mret (if b : bool then inr EISDIR else inr ENOENT)
            end
        end
    end.

(** ** Making, linking, removing, renaming *)

(** A call that is made on a resolved path or fails. *)
Definition with_path (dir_fd : Z) (path : list Z) (f : list Z → list Z → M Task (SysResult Z)) : M Task (SysResult Z) :=
  r ← resolve dir_fd path;
  match r with Some (path, file) => f path file | None => mret (inr EINVAL) end.

Definition sys_mkdir (dir_fd : Z) (path : list Z) : M Task (SysResult Z) :=
  with_path dir_fd path (λ parent_dir file_path,
    b ← on_kfs (mkdir parent_dir file_path);
    mret (if b : bool then inl 0 else inr EEXIST)).

Definition sys_linkat (old_dir_fd : Z) (old_path : list Z) (new_dir_fd : Z) (new_path : list Z) : M Task (SysResult Z) :=
  with_path old_dir_fd old_path (λ old_path old_file,
    with_path new_dir_fd new_path (λ new_path new_file,
      b ← on_kfs (try_add_link old_path old_file new_path new_file);
      mret (if b : bool then inl 0 else inr EINVAL))).

Definition sys_unlinkat (dir_fd : Z) (path : list Z) : M Task (SysResult Z) :=
  with_path dir_fd path (λ path file,
    b ← on_kfs (try_remove_link path file);
    mret (if b : bool then inl 0 else inr EINVAL)).

Definition NOREPLACE : Z := 2 ^ 0.

Definition sys_renameat2 (old_dir_fd old_addr : Z) (old_path : list Z) (new_dir_fd new_addr : Z) (new_path : list Z) (flags : Z)
    : M Task (SysResult Z) :=
  if negb (manually_alloc_page old_addr) || negb (manually_alloc_page new_addr) then mret (inr EFAULT)
  else
    with_path old_dir_fd old_path (λ old_path old_file,
      with_path new_dir_fd new_path (λ new_path new_file,
        r ← on_kfs (rename_or_move old_path old_file new_path new_file (negb (has_flags flags NOREPLACE)));
        mret (match r with inl _ => inl 0 | inr e => inr e end))).

(** ** Mounting *)

Definition VFAT : list Z := lit "vfat".

Definition sys_mount (device mount_path fs_type : list Z) : M Task (SysResult Z) :=
  if negb (bool_decide (fs_type = VFAT)) then mret (inr EINVAL)
  else
    with_path AT_FDCWD device (λ device_path device_file,
      with_path AT_FDCWD mount_path (λ mount_path mount_file,
        b ← on_kfs (mount_fat_fs device_path device_file (fd_dir_new (mount_path ++ mount_file)));
        mret (if b : bool then inl 0 else inr EINVAL))).

Definition sys_umount (mount_path : list Z) : M Task (SysResult Z) :=
  with_path AT_FDCWD mount_path (λ mount_path mount_file,
    b ← on_kfs (umount_fat_fs (fd_dir_new (mount_path ++ mount_file)));
    mret (if b : bool then inl 0 else inr EINVAL)).

(** ** Reading links and directories *)

Definition SELF_EXE : list Z := lit "proc/self/exe".
Definition LMBENCH : list Z := lit "/lmbench_all".

(** The bytes written to the buffer; the second ones in full, whatever [len] is. *)
Definition sys_readlinkat (dir_fd addr : Z) (path : list Z) (buf len : Z) : M Task (SysResult Z * list Z) :=
  if negb (manually_alloc_page addr) || negb (manually_alloc_user_str buf len) then mret (inr EFAULT, [])
  else
    r ← resolve dir_fd path;
    match r with
    | Some (path, file) =>
        if decide (file = SELF_EXE) then
          let write_len := Z.min len (str_len LMBENCH) in
          mret (inl write_len, take (Z.to_nat write_len) LMBENCH)
        else
          l ← on_kfs (read_link path file);
          mret (match l with Some linked_file => (inl (str_len linked_file), linked_file) | None => (inr EINVAL, []) end)
    | None => mret (inr EINVAL, [])
    end.

(** [Dirent64] with its name, which a byte [0] ends. *)
Record Dirent64 := mkDirent { d_ino : Z; d_off : Z; d_reclen : Z; d_type : Z; d_name : list Z }.

Definition D_NAME_OFFSET : Z := 8 + 8 + 2 + 1.
Definition DT_DIR : Z := 4.
Definition DT_REG : Z := 8.

Definition dirent_of (de : DirEntry) (entry_size : Z) : Dirent64 :=
  mkDirent 1 (-1) (wrap16 entry_size) (if entry_is_dir (de_data de) then DT_DIR else DT_REG) (file_name de).

(** [for entry in dir_iter]: records as long as they fit the buffer. *)
Fixpoint getdents_loop {S} `{Stream S} {AP : AbsPos S} (fuel rounds : nat) (offset len : Z) : FM S (Z * list Dirent64) :=
  match rounds with
  | O => fpanic
  | Datatypes.S rounds =>
      r ← catch (read_dir_entry fuel true) (λ _, fpanic);
      match r with
      | None => mret (offset, [])
      | Some file =>
          let entry_size := wrap64 (D_NAME_OFFSET + str_len (file_name file) + 1) in
          if len <? wrap64 (offset + entry_size) then mret (offset, [])
          else
            '(offset, ents) ← getdents_loop fuel rounds (wrap64 (offset + entry_size)) len;
            mret (offset, dirent_of file entry_size :: ents)
      end
  end.

(** [d_off] is the one of the record in the buffer before the call. *)
Definition sys_getdents64 (fd buf len d_off : Z) : M Task (SysResult Z * list Dirent64) :=
  if d_off =? -1 then mret (inl 0, [])
  else
    dir ← (λ w, Ret (get_dir_from_fd (t_dir w) (fd_dir w) (swrap 32 fd), w));
    match dir with
    | None => mret (inr EINVAL, [])
    | Some dir =>
        if negb (manually_alloc_page buf) || negb (manually_alloc_page (wrap64 (buf + len - 1))) then mret (inr EFAULT, [])
        else
          it ← on_kfs (get_dir_entry_iter dir);
          match it with
          | None => mret (inr EINVAL, [])
          | Some dir =>
              '(offset, ents) ← on_kfs (fat_unwrap (fs ← this; on_clone dir (getdents_loop (dir_fuel fs) (dir_fuel fs) 0 len)));
              mret (inl offset, ents)
          end
    end.
End calls.

(** ** What the calls on paths do

    Opening a new file makes it in the directory and gives it the lowest
    descriptor; the current directory is the path that was switched to; opening
    by the descriptor of a directory never returns. *)

Section calls.
Context {D : Type} {HD : Stream D} {SS : StreamSpec D} {TP : TimeProvider} {TO : ClockOk}.
Context {A : Type} `{BitAlloc A} {PC : PageFrameConfig}.
Context {FA : Type} {FB : BitAlloc FA} {V : BitAllocView FA} {BS : BitAllocSpec FA} {UM : UserMemory}.
Implicit Types w : Task (D := D) (A := A) (FA := FA).

Lemma on_kfs_run {R} (x : M _ R) w r k : x (t_kfs w) = Ret (r, k) →
  on_kfs x w = Ret (r, mkTask k (t_table w) (t_open w) (t_dir w)).
Proof. intros Hx. unfold on_kfs. by rewrite Hx. Qed.

Lemma on_fds_run {R} (x : FdManager FA Z → outcome (R * FdManager FA Z)) w r m : x (t_table w) = Ret (r, m) →
  on_fds x w = Ret (r, mkTask (t_kfs w) m (t_open w) (t_dir w)).
Proof. intros Hx. unfold on_fds. by rewrite Hx. Qed.

Lemma fd_dir_files w w' : files (t_table w) = files (t_table w') → t_open w = t_open w' → t_kfs w = t_kfs w' → fd_dir w = fd_dir w'.
Proof. intros Hf Ho Hk. unfold fd_dir, get_file, nfiles. by rewrite Hf, Ho, Hk. Qed.

Lemma not_full (m : FdManager FA Z) fd : inv m → 0 <= fd < limit m → file_at m fd = None →
  ∃ m', is_full m = Ret (false, m') ∧ inv m' ∧ files m' = files m ∧ limit m' = limit m ∧ umask m' = umask m.
Proof.
  intros Hm Hfd Hf. destruct (is_full_spec m Hm) as (b&m'&Hr&Hm'&Hfiles&Hl&Hu&Hb). exists m'.
  destruct b; [by destruct (proj1 Hb eq_refl fd Hfd)|]. by split_and!.
Qed.

(** C16.  Opening a new name of the root directory with [CREATE] by an absolute
    path or one from the current directory, when a descriptor is left: the
    directory gets one empty file of that name and is otherwise as before, as
    are the files of all other directories, and the call returns the lowest
    descriptor that was not open, which refers to the new file with the access
    the flags ask for; the other descriptors and the current directory stay. *)
Theorem open_makes_file_and_descriptor w dir_fd addr path flags dir_name file_path free_fd c name : let n := c :: name in
  inv (t_table w) → 0 <= free_fd < limit (t_table w) → file_at (t_table w) free_fd = None →
  manually_alloc_page addr = true → starts_with [SLASH] path = true ∨ dir_fd = AT_FDCWD →
  resolve_path_from_fd (t_dir w) (fd_dir w) dir_fd path = Ret (Some (dir_name, file_path)) →
  open_from_bits flags = Some flags →
  root_ok (k_fat (t_kfs w)) → split_path_and_file dir_name (dot_path file_path) = Ret (Some (ROOT_DIR, n)) →
  k_link (t_kfs w) !! mkDisc ROOT_DIR n = None → accepted n → n ≠ [DOT] → c < 0x80 → list.last n ≠ Some 0xFFFF →
  has_flags flags O_CREATE = true → has_flags flags O_DIR = false → has_flags flags O_DSYNC = false →
  tidy (slots (root_data (k_fat (t_kfs w)))) →
  Z.of_nat (used (slots (root_data (k_fat (t_kfs w))))) + (len n + 12) / 13 + 1 <= len (root_data (k_fat (t_kfs w))) / 32 →
  (∀ e, e ∈ root_entries (k_fat (t_kfs w)) → eq_name e n = false ∧ file_name e ≠ n) →
  ∃ fd p m fs file e l1 l2, sys_open dir_fd addr path flags w = Ret (inl fd, mkTask (set_fat (t_kfs w) fs) m
      (<[p := OFat (FatFile.mkFatFile (fst (open_read_write flags)) (snd (open_read_write flags))) ROOT_DIR n flags file]> (t_open w))
      (t_dir w)) ∧
    t_open w !! p = None ∧ lowest_closed (t_table w) fd ∧ table_set (t_table w) m fd (Some p) ∧ inv m ∧
    root_ok fs ∧ fat_data fs = fat_data (k_fat (t_kfs w)) ∧ clusters_kept (k_fat (t_kfs w)) fs (λ _, False) ∧
    root_entries (k_fat (t_kfs w)) = l1 ++ l2 ∧ root_entries fs = l1 ++ e :: l2 ∧
    de_lfn_utf16 e = n ∧ entry_size (de_data e) = Some 0 ∧
    ∃ fs', open_file (root_dir fs) n fs = Ret (Ok file, fs').
Proof.
  intros n Hinv Hfree Hfn Hpage Hlock Hres Hbits Hroot Hs Hl Hn Hdot Hc Hlast Hcreate Hdir Hdsync Ht Hroom Hno.
  destruct (not_full (t_table w) free_fd Hinv Hfree Hfn) as (m0&Hfull&Hinv0&Hfiles0&Hlim0&Hu0).
  destruct (open_creates_file (t_kfs w) dir_name (dot_path file_path) flags c name)
    as (fs&file&e&l1&l2&Hopen&Hroot'&Hfat&Hcl&Hl1&Hl2&Hlfn&Hsize&Hagain&_); try done.
  unfold sys_open. step (on_fds_run _ w _ _ Hfull). rewrite Hpage. cbn [negb].
  assert (resolve_locked dir_fd path (mkTask (t_kfs w) m0 (t_open w) (t_dir w)) =
    Ret (Some (dir_name, file_path), mkTask (t_kfs w) m0 (t_open w) (t_dir w))) as Hr.
  { unfold resolve_locked. assert (starts_with [SLASH] path || (dir_fd =? AT_FDCWD) = true) as ->.
    { destruct Hlock as [->| ->]; [done|]. by rewrite orb_true_r. }
    unfold resolve. cbn [t_dir]. by rewrite (fd_dir_files (mkTask (t_kfs w) m0 (t_open w) (t_dir w)) w), Hres. }
  step Hr. rewrite Hbits. step (on_kfs_run _ (mkTask (t_kfs w) m0 (t_open w) (t_dir w)) _ _ Hopen). cbn [t_table t_open t_dir].
  set (node := OFat _ _ _ _ file). set (p := fresh (dom (t_open w))).
  assert (new_open node (mkTask (set_fat (t_kfs w) fs) m0 (t_open w) (t_dir w)) =
    Ret (p, mkTask (set_fat (t_kfs w) fs) m0 (<[p := node]> (t_open w)) (t_dir w))) as Hnew by done.
  step Hnew.
  assert (∀ j, file_at m0 j = file_at (t_table w) j) as Hat0 by (intros j; unfold file_at; by rewrite Hfiles0).
  destruct (push_spec m0 p Hinv0) as [(fd&m&Hpush&Hfd&Hnone&Hlow&Hinvm&Hset&Hlm&Hum)|[_ Hall]].
  2: { destruct (Hall free_fd); [lia|by rewrite Hat0]. }
  step (on_fds_run (λ m, push m p) (mkTask (set_fat (t_kfs w) fs) m0 (<[p := node]> (t_open w)) (t_dir w)) _ _ Hpush).
  exists fd, p, m, fs, file, e, l1, l2. split; [done|]. split_and!; try done.
  - apply not_elem_of_dom, is_fresh.
  - split_and!; [lia|lia|by rewrite <- Hat0|]. intros j Hj. rewrite <- Hat0. by apply Hlow.
  - split_and!; [|by rewrite Hlm|by rewrite Hum]. intros j Hj. rewrite <- Hat0. by apply Hset.
Qed.

(** Opening a path that does not begin with a slash by the descriptor of a
    directory never returns while a descriptor is left: the call holds the table
    when it looks the directory up in it. *)
Lemma open_by_descriptor_hangs w dir_fd addr path flags free_fd :
  inv (t_table w) → 0 <= free_fd < limit (t_table w) → file_at (t_table w) free_fd = None →
  manually_alloc_page addr = true → starts_with [SLASH] path = false → dir_fd ≠ AT_FDCWD →
  sys_open dir_fd addr path flags w = Panic.
Proof.
  intros Hinv Hfree Hfn Hpage Hrel Hfd. destruct (not_full (t_table w) free_fd Hinv Hfree Hfn) as (m0&Hfull&_).
  unfold sys_open. step (on_fds_run _ w _ _ Hfull). rewrite Hpage. cbn [negb].
  unfold resolve_locked. rewrite Hrel. by rewrite (proj2 (Z.eqb_neq _ _)).
Qed.

(** ** The current directory *)

(** A directory that was switched to by an absolute path is what [getcwd] says. *)
Lemma getcwd_of_chdir w w' addr path buf n :
  starts_with [SLASH] path = true → sys_chdir addr path w = Ret (inl 0, w') →
  manually_alloc_page buf = true → str_len path < n →
  sys_getcwd buf n w' = Ret ((inl buf, Some path), w').
Proof.
  intros Habs Hrun Hbuf Hn. unfold sys_chdir in Hrun. destruct (manually_alloc_page addr); [|done]. cbn [negb] in Hrun.
  unfold mbind, M_bind, chdir_path, set_dir in Hrun. rewrite Habs in Hrun. cbn [fst snd] in Hrun.
  destruct (on_kfs _ _) as [[b w1]|]; [|done]. destruct b; [|done]. injection Hrun as <-.
  unfold sys_getcwd. rewrite Hbuf. cbn [negb t_dir].
  assert (str_len (DOT :: path) = 1 + str_len path) as Hlen by done. rewrite (proj2 (Z.leb_le _ _)) by lia.
  assert (str_from (DOT :: path) 1 = Ret path) as ->; [|done].
  change 1 with (str_len [DOT]). apply (str_from_app [DOT] path).
Qed.

(** The buffer of [readlink] takes the whole link, however short it is. *)
Lemma readlink_ignores_length dir_fd addr path buf n1 n2 : (∀ a n, manually_alloc_user_str a n = true) →
  (∀ w, match resolve dir_fd path w with Ret (Some (_, file), _) => file ≠ SELF_EXE | _ => True end) → ∀ w,
  sys_readlinkat dir_fd addr path buf n1 w = sys_readlinkat dir_fd addr path buf n2 w.
Proof.
  intros Hm Hne w. unfold sys_readlinkat. rewrite !Hm. destruct (negb _ || negb _); [done|].
  unfold mbind at 1 3, M_bind at 1 3. specialize (Hne w). destruct (resolve dir_fd path w) as [[[[p f]|] w']|]; [|done..].
  by rewrite !decide_False.
Qed.
End calls.

Section witness.
Import LinkedVolume BitFieldModel.
#[local] Existing Instance RootVolume.small_clock_ok.
#[local] Instance every_page : UserMemory := {| manually_alloc_user_str _ _ := true; manually_alloc_page _ := true |}.

Definition w_fds : outcome (FdManager (Tower 1) Z) := fd_new 0 1 2 18.

Lemma w_fds_ok : ∃ m, w_fds = Ret m ∧ inv m ∧ limit m = 256 ∧ file_at m 3 = None.
Proof.
  destruct (fd_new_spec (BS := w_spec) 0 1 2 18 eq_refl) as (m&Hr&[Hi _]&Hl&Hat).
  exists m. split; [exact Hr|]. split; [exact Hi|]. split; [exact Hl|]. rewrite Hat by lia. reflexivity.
Qed.

(** [open("/dev/../a b.txt", O_CREAT)] on the volume with one file, with the
    three standard descriptors open. *)
Lemma open_makes_file_and_descriptor_witness : ∃ (m : FdManager (Tower 1) Z) fd w',
  sys_open AT_FDCWD 1 (lit "/dev/../a b.txt") O_CREATE (mkTask boot m ∅ ROOT_DIR) = Ret (inl fd, w') ∧
  lowest_closed m fd ∧ length (root_entries (k_fat (t_kfs w'))) = 2%nat.
Proof.
  destruct w_fds_ok as (m&_&Hi&Hl&H3).
  destruct (open_makes_file_and_descriptor (BS := w_spec) (mkTask boot m ∅ ROOT_DIR) AT_FDCWD 1 (lit "/dev/../a b.txt") O_CREATE
    ROOT_DIR (lit "dev/../a b.txt") 3 0x61 (lit " b.txt"))
    as (fd&p&m'&fs&file&e&l1&l2&Hrun&_&Hlow&_&_&_&_&_&Hl1&Hl2&_).
  - exact Hi.
  - cbn [t_table]. lia.
  - exact H3.
  - done.
  - by left.
  - by vm_compute.
  - by vm_compute.
  - exact RootVolume.root_volume_ok.
  - by vm_compute.
  - done.
  - apply RootVolume.accepted_by_check. by vm_compute.
  - done.
  - done.
  - done.
  - by vm_compute.
  - by vm_compute.
  - by vm_compute.
  - exact RootVolume.volume_tidy.
  - by vm_compute.
  - intros x. change (k_fat (t_kfs _)) with RootVolume.volume. rewrite RootVolume.volume_entries, list_elem_of_singleton. intros ->.
    split; [by vm_compute|]. intros E. by vm_compute in E.
  - eexists m, fd, _. split; [exact Hrun|]. split; [exact Hlow|]. cbn [t_kfs k_fat set_fat].
    change (k_fat (t_kfs _)) with RootVolume.volume in Hl1. rewrite RootVolume.volume_entries in Hl1.
    rewrite Hl2. apply (f_equal length) in Hl1. rewrite !length_app in *. cbn in *. lia.
Defined.

(** A descriptor of [/dev]: its directory has no slash at the end, so no path is
    found from it; making a directory there answers that it exists. *)
Definition with_dev : outcome (Task (D := MemDisk) (A := Tower 0) (FA := Tower 1)) :=
  m ← w_fds;
  '(_, w) ← sys_open AT_FDCWD 1 (lit "/dev/") 0 (mkTask boot m ∅ ROOT_DIR);
  Ret w.

Lemma mkdirat_in_dev_fails : ∃ w, with_dev = Ret w ∧
  option_map fst (match sys_mkdir 3 (lit "x") w with Ret r => Some r | Panic => None end) = Some (inr EEXIST) ∧
  option_map fst (match sys_mkdir AT_FDCWD (lit "/dev/x") w with Ret r => Some r | Panic => None end) = Some (inl 0).
Proof.
  destruct with_dev as [w|] eqn:E; [|by vm_compute in E]. exists w. split; [done|].
  vm_compute in E. injection E as <-. by vm_compute.
Qed.
End witness.
