(* ===== verification/InitStack.v ===== *)
(** * The first stack of a user program (kernel/src/loaders/init_stack.rs, init_info.rs)

    [InitStack] grows downwards and collects what a program finds on its stack;
    [serialize] pushes the arguments, the environment and the auxiliary vector.
    The bytes of a new buffer are whatever was there: an argument. *)

From S2P Require Import Prelude Bytes.

Definition USER_INIT_STACK_SIZE : Z := 0x4000.
Definition AT_PHDR : Z := 3.
Definition AT_PHENT : Z := 4.
Definition AT_PHNUM : Z := 5.
Definition AT_PAGESZ : Z := 6.
Definition AT_RANDOM : Z := 25.

Record InitStack := mkStack { sp : Z; buttom : Z; stack_data : list Z }.

Implicit Types self : InitStack.

(** [stale]: the bytes of the buffer, [USER_INIT_STACK_SIZE] of them. *)
Definition stack_new (stale : list Z) (sp : Z) : InitStack := mkStack sp sp stale.

(** [push_slice] of the bytes of a slice whose elements are aligned to [align]. *)
Definition push_slice (align : Z) (vs : list Z) self : outcome InitStack :=
  let sp := wrap64 (sp self - len vs) in
  let sp := sp - sp mod align in
  let used := wrap64 (buttom self - sp) in
  _ ← assert (used <=? len (stack_data self));
  let offset := len (stack_data self) - used in
  Ret (mkStack sp (buttom self) (splice offset vs (stack_data self))).

(** The bytes of a slice of words. *)
Definition words (vs : list Z) : list Z := concat (le_split 8 <$> vs).

Definition push_words (vs : list Z) self : outcome InitStack := push_slice 8 (words vs) self.

(** The position of the string, which a byte [0] ends. *)
Definition push_str (s : list Z) self : outcome (Z * InitStack) :=
  st ← push_slice 1 [0] self;
  st ← push_slice 1 s st;
  Ret (sp st, st).

(** [.iter().map(|item| writer.push_str(item)).collect()] *)
Fixpoint push_strs (l : list (list Z)) self : outcome (list Z * InitStack) :=
  match l with
  | [] => Ret ([], self)
  | s :: l =>
      '(p, st) ← push_str s self;
      '(ps, st) ← push_strs l st;
      Ret (p :: ps, st)
  end.

(** [Deref]: the part in use. *)
Definition stack_bytes self : list Z :=
  drop (Z.to_nat (len (stack_data self) - wrap64 (buttom self - sp self))) (stack_data self).

(** [InitInfo]; the auxiliary vector in the order of its keys. *)
Record InitInfo := mkInfo { args : list (list Z); envs : list (list Z); auxv : list (Z * Z) }.

Definition RANDOM_STR : list Z := [3703830112808742751; 7081108068768079778].

Definition aux_word (random_pos : Z) (a : Z * Z) : list Z :=
  [fst a; if fst a =? AT_RANDOM then random_pos else snd a].

Fixpoint push_auxv (random_pos : Z) (l : list (Z * Z)) self : outcome InitStack :=
  match l with
  | [] => Ret self
  | a :: l => st ← push_words (aux_word random_pos a) self; push_auxv random_pos l st
  end.

Definition serialize (info : InitInfo) (stale : list Z) (stack_top : Z) : outcome InitStack :=
  let writer := stack_new stale stack_top in
  arg0 ← index (args info) 0;
  '(_, writer) ← push_str arg0 writer;
  writer ← push_words RANDOM_STR writer;
  let random_pos := sp writer in
  '(envp, writer) ← push_strs (envs info) writer;
  '(argv, writer) ← push_strs (args info) writer;
  writer ← push_words [0; 0] writer;
  writer ← push_auxv random_pos (auxv info) writer;
  writer ← push_words [0] writer;
  writer ← push_words envp writer;
  writer ← push_words [0] writer;
  writer ← push_words argv writer;
  push_words [Z.of_nat (length argv)] writer.

(** ** What a program finds on its first stack

    From the stack pointer up: the number of the arguments, a pointer to each,
    a null pointer, the same for the environment, and the auxiliary vector with
    a null pair behind it; every pointer leads to its string. *)

Implicit Types st : InitStack.

(** The buffer lies below the bottom, and [n] bytes are left. *)
Definition stack_ok st (n : Z) : Prop :=
  buttom st - len (stack_data st) <= sp st <= buttom st ∧ 0 <= buttom st - len (stack_data st) ∧ buttom st < 2 ^ 64 ∧
  n <= len (stack_data st) - (buttom st - sp st).

Lemma stack_ok_le st n m : stack_ok st n → m <= n → stack_ok st m.
Proof. intros (?&?&?&?) ?. split_and!; lia. Qed.

(** The bytes at an address of the stack. *)
Definition holds st (a : Z) (bs : list Z) : Prop :=
  sp st <= a ∧ a + len bs <= buttom st ∧
  bytes_at (len (stack_data st) - (buttom st - a)) (len bs) (stack_data st) = bs.

(** [st'] comes from [st] by pushing: what was there stays. *)
Definition extends st st' : Prop := buttom st' = buttom st ∧ len (stack_data st') = len (stack_data st) ∧
  ∀ a bs, holds st a bs → holds st' a bs.

Lemma extends_refl st : extends st st.
Proof. done. Qed.

Lemma extends_trans st1 st2 st3 : extends st1 st2 → extends st2 st3 → extends st1 st3.
Proof. intros (?&?&?) (?&?&?). split_and!; try congruence. auto. Qed.

Lemma holds_app st a x y : holds st a x → holds st (a + len x) y → sp st <= buttom st → buttom st <= sp st + len (stack_data st) →
  holds st a (x ++ y).
Proof.
  intros (Ha&Hx&Hbx) (_&Hy&Hby) ??. pose proof (len_nonneg x). pose proof (len_nonneg y).
  split_and!; [done|rewrite len_app; lia|]. rewrite len_app, bytes_at_app by lia. f_equal; [done|].
  rewrite <- Hby at 2. f_equal. lia.
Qed.

(** ** Pushing *)

Lemma push_slice_ok align vs st n : 0 < align → stack_ok st (len vs + (sp st - len vs) mod align + n) → 0 <= n →
  ∃ st', push_slice align vs st = Ret st' ∧ stack_ok st' n ∧ extends st st' ∧ holds st' (sp st') vs ∧
    sp st' = sp st - len vs - (sp st - len vs) mod align ∧ sp st' mod align = 0.
Proof.
  intros Hal (Hsp&Hlow&Htop&Hroom) Hn. pose proof (len_nonneg vs). unfold push_slice.
  pose proof (Z.mod_pos_bound (sp st - len vs) align Hal) as Hm. set (m := (sp st - len vs) mod align) in *.
  rewrite (wrap_small 64 (sp st - len vs)) by (unfold word; lia). fold m.
  rewrite (wrap_small 64) by (unfold word; lia). rewrite (proj2 (Z.leb_le _ _)) by lia. unfold assert. rewrite bind_Ret.
  set (sp' := sp st - len vs - m). set (o := len (stack_data st) - (buttom st - sp')).
  exists (mkStack sp' (buttom st) (splice o vs (stack_data st))). unfold stack_ok, extends, holds. cbn [sp buttom stack_data].
  rewrite len_splice. split_and!; try done; try lia.
  - intros a bs (Ha&Hb&Hbs). split_and!; [lia|done|]. pose proof (len_nonneg bs).
    rewrite bytes_at_splice_disjoint by lia. done.
  - unfold o. apply bytes_at_splice_same; lia.
  - unfold sp', m. rewrite Zminus_mod_idemp_r, Z.sub_diag. apply Z.mod_0_l. lia.
Qed.

Lemma push_str_ok s st k n : stack_ok st k → len s + 1 + n <= k → 0 <= n →
  ∃ st', push_str s st = Ret (sp st', st') ∧ stack_ok st' n ∧ extends st st' ∧ holds st' (sp st') (s ++ [0]).
Proof.
  intros Hk Hle Hn. pose proof (stack_ok_le _ _ _ Hk Hle) as Hok. pose proof (len_nonneg s). unfold push_str.
  destruct (push_slice_ok 1 [0] st (len s + n)) as (st1&Hr1&Hok1&He1&Hh1&_&_);
    [lia|rewrite Z.mod_1_r; change (len [0]) with 1; by replace (1 + 0 + (len s + n)) with (len s + 1 + n) by lia|lia|].
  destruct (push_slice_ok 1 s st1 n) as (st2&Hr2&Hok2&He2&Hh2&Hsp2&_); [lia|rewrite Z.mod_1_r; by rewrite Z.add_0_r|done|].
  run Hr1. run Hr2. exists st2. split_and!; [done|done|by eapply extends_trans|].
  rewrite Z.mod_1_r in Hsp2. apply holds_app; [done|..]; try (destruct Hok2 as (?&?&?); lia).
  replace (sp st2 + len s) with (sp st1) by lia. by apply He2.
Qed.

Definition c_strs (l : list (list Z)) : Z := foldr (λ s n, len s + 1 + n) 0 l.

Lemma c_strs_nonneg l : 0 <= c_strs l.
Proof. induction l as [|s l IH]; cbn; [done|]. pose proof (len_nonneg s). unfold c_strs in IH. lia. Qed.

Lemma push_strs_ok l : ∀ st k n, stack_ok st k → c_strs l + n <= k → 0 <= n →
  ∃ ps st', push_strs l st = Ret (ps, st') ∧ stack_ok st' n ∧ extends st st' ∧ Forall2 (λ p s, holds st' p (s ++ [0])) ps l.
Proof.
  induction l as [|s l IH]; intros st k n Hok Hle Hn; cbn [push_strs].
  - exists [], st. split_and!; try done. by eapply stack_ok_le.
  - pose proof (c_strs_nonneg l). change (c_strs (s :: l)) with (len s + 1 + c_strs l) in Hle.
    destruct (push_str_ok s st k (c_strs l + n) Hok ltac:(lia) ltac:(lia)) as (st1&Hr1&Hok1&He1&Hh1).
    destruct (IH st1 _ n Hok1 ltac:(lia) Hn) as (ps&st2&Hr2&Hok2&He2&Hh2). run Hr1. cbv beta iota. run Hr2.
    exists (sp st1 :: ps), st2. split_and!; [done|done|by eapply extends_trans|]. constructor; [by apply He2|done].
Qed.

Lemma len_words vs : len (words vs) = 8 * Z.of_nat (length vs).
Proof.
  unfold words. induction vs as [|v vs IH]; [done|]. cbn [fmap list_fmap concat]. rewrite len_app.
  change (le_split 8 <$> vs) with (le_split 8 <$> vs) in *. rewrite IH. unfold len. rewrite length_le_split. cbn [length]. lia.
Qed.

Lemma words_app a b : words (a ++ b) = words a ++ words b.
Proof. unfold words. by rewrite fmap_app, concat_app. Qed.

(** Pushing words on an aligned stack: they lie right below what was on top. *)
Lemma push_words_ok vs st k n top : stack_ok st k → 8 * Z.of_nat (length vs) + n <= k → 0 <= n → sp st mod 8 = 0 → holds st (sp st) top →
  ∃ st', push_words vs st = Ret st' ∧ stack_ok st' n ∧ extends st st' ∧ sp st' mod 8 = 0 ∧ holds st' (sp st') (words vs ++ top).
Proof.
  intros Hk Hle Hn Hal Htop. pose proof (stack_ok_le _ _ _ Hk Hle) as Hok. unfold push_words.
  assert ((sp st - len (words vs)) mod 8 = 0) as Hm by (rewrite len_words; dlia).
  destruct (push_slice_ok 8 (words vs) st n) as (st1&Hr&Hok1&He&Hh&Hsp&Hal1);
    [lia|rewrite Hm, len_words; by rewrite Z.add_0_r|done|]. rewrite Hm in Hsp.
  exists st1. split_and!; try done. apply holds_app; [done|..]; try (destruct Hok1 as (?&?&?); lia).
  replace (sp st1 + len (words vs)) with (sp st) by lia. by apply He.
Qed.

(** The first words after strings, which align the stack. *)
Lemma push_words_aligns vs st k n : stack_ok st k → 8 * Z.of_nat (length vs) + 7 + n <= k → 0 <= n →
  ∃ st', push_words vs st = Ret st' ∧ stack_ok st' n ∧ extends st st' ∧ sp st' mod 8 = 0 ∧ holds st' (sp st') (words vs).
Proof.
  intros Hk Hle Hn. pose proof (stack_ok_le _ _ _ Hk Hle) as Hok. unfold push_words. pose proof (Z.mod_pos_bound (sp st - len (words vs)) 8 ltac:(lia)).
  destruct (push_slice_ok 8 (words vs) st n) as (st1&Hr&Hok1&He&Hh&_&Hal1);
    [lia|eapply stack_ok_le; [exact Hok|rewrite len_words in *; lia]|done|]. by exists st1.
Qed.

Definition aux_words (rnd : Z) (l : list (Z * Z)) : list Z := concat (aux_word rnd <$> reverse l).

Lemma aux_words_cons rnd a l : aux_words rnd (a :: l) = aux_words rnd l ++ aux_word rnd a.
Proof. unfold aux_words. rewrite reverse_cons, fmap_app, concat_app. cbn [fmap list_fmap concat]. by rewrite app_nil_r. Qed.

Lemma push_auxv_ok rnd l : ∀ st k n top, stack_ok st k → 16 * Z.of_nat (length l) + n <= k → 0 <= n → sp st mod 8 = 0 → holds st (sp st) top →
  ∃ st', push_auxv rnd l st = Ret st' ∧ stack_ok st' n ∧ extends st st' ∧ sp st' mod 8 = 0 ∧ holds st' (sp st') (words (aux_words rnd l) ++ top).
Proof.
  induction l as [|a l IH]; intros st k n top Hok Hle Hn Hal Htop; cbn [push_auxv length] in *.
  - exists st. split_and!; try done. by eapply stack_ok_le.
  - destruct (push_words_ok (aux_word rnd a) st k (16 * Z.of_nat (length l) + n) top Hok
      ltac:(cbn [aux_word length]; lia) ltac:(lia) Hal Htop) as (st1&Hr1&Hok1&He1&Hal1&Hh1).
    destruct (IH st1 _ n _ Hok1 ltac:(lia) Hn Hal1 Hh1) as (st2&Hr2&Hok2&He2&Hal2&Hh2). run Hr1.
    exists st2. split_and!; [done|done|by eapply extends_trans|done|].
    rewrite aux_words_cons, words_app, <- app_assoc. exact Hh2.
Qed.

(** ** The whole stack *)

(** What the program finds at an address from the stack pointer on. *)
Definition found st (a : Z) (bs : list Z) : Prop :=
  sp st <= a ∧ bytes_at (a - sp st) (len bs) (stack_bytes st) = bs.

Lemma holds_found st a bs : stack_ok st 0 → holds st a bs → found st a bs.
Proof.
  intros (Hsp&Hlow&Htop&Hroom) (Ha&Hb&Hbs). split; [done|]. unfold stack_bytes.
  pose proof (len_nonneg (stack_data st)).
  rewrite wrap_small by (unfold word; lia). rewrite <- Hbs at 2. unfold bytes_at. rewrite drop_drop. f_equal. f_equal. lia.
Qed.

(** The room that is enough, alignment included. *)
Definition need (info : InitInfo) : Z :=
  len (default [] (args info !! 0%nat)) + 1 + 23 + c_strs (envs info) + c_strs (args info) + 23 +
  16 * Z.of_nat (length (auxv info)) + 8 + 8 * Z.of_nat (length (envs info)) + 8 + 8 * Z.of_nat (length (args info)) + 8.

(** What a program finds, as words, from its stack pointer on. *)
Definition stack_words (argv envp : list Z) (rnd : Z) (aux : list (Z * Z)) : list Z :=
  [Z.of_nat (length argv)] ++ argv ++ [0] ++ envp ++ [0] ++ aux_words rnd aux ++ [0; 0].

(** The vectors, on top of the strings. *)
Lemma push_vectors_ok argv envp rnd aux st :
  stack_ok st (23 + 16 * Z.of_nat (length aux) + 8 + 8 * Z.of_nat (length envp) + 8 + 8 * Z.of_nat (length argv) + 8) →
  ∃ st', (st ← push_words [0; 0] st; st ← push_auxv rnd aux st; st ← push_words [0] st; st ← push_words envp st;
          st ← push_words [0] st; st ← push_words argv st; push_words [Z.of_nat (length argv)] st) = Ret st' ∧
    stack_ok st' 0 ∧ extends st st' ∧ sp st' mod 8 = 0 ∧ holds st' (sp st') (words (stack_words argv envp rnd aux)).
Proof.
  set (ne := Z.of_nat (length envp)). set (na := Z.of_nat (length argv)). set (nx := Z.of_nat (length aux)).
  assert (0 <= ne ∧ 0 <= na ∧ 0 <= nx) as (?&?&?) by lia. intros Hok0.
  destruct (push_words_aligns [0; 0] st _ (16 * nx + 8 + 8 * ne + 8 + 8 * na + 8)
    Hok0 ltac:(cbn [length]; lia) ltac:(lia)) as (st1&Hr1&Hok1&He1&Hal1&Hh1). run Hr1.
  destruct (push_auxv_ok rnd aux st1 _ (8 + 8 * ne + 8 + 8 * na + 8) _
    Hok1 ltac:(lia) ltac:(lia) Hal1 Hh1) as (st2&Hr2&Hok2&He2&Hal2&Hh2). run Hr2.
  destruct (push_words_ok [0] st2 _ (8 * ne + 8 + 8 * na + 8) _
    Hok2 ltac:(cbn [length]; lia) ltac:(lia) Hal2 Hh2) as (st3&Hr3&Hok3&He3&Hal3&Hh3). run Hr3.
  destruct (push_words_ok envp st3 _ (8 + 8 * na + 8) _
    Hok3 ltac:(lia) ltac:(lia) Hal3 Hh3) as (st4&Hr4&Hok4&He4&Hal4&Hh4). run Hr4.
  destruct (push_words_ok [0] st4 _ (8 * na + 8) _
    Hok4 ltac:(cbn [length]; lia) ltac:(lia) Hal4 Hh4) as (st5&Hr5&Hok5&He5&Hal5&Hh5). run Hr5.
  destruct (push_words_ok argv st5 _ 8 _
    Hok5 ltac:(lia) ltac:(lia) Hal5 Hh5) as (st6&Hr6&Hok6&He6&Hal6&Hh6). run Hr6.
  destruct (push_words_ok [na] st6 _ 0 _
    Hok6 ltac:(cbn [length]; lia) ltac:(lia) Hal6 Hh6) as (st7&Hr7&Hok7&He7&Hal7&Hh7).
  exists st7. split_and!; [exact Hr7|done| |done|unfold stack_words; by rewrite !words_app].
  repeat (eapply extends_trans; [eassumption|]). apply extends_refl.
Qed.

(** C36.  A program with at least one argument, whose strings and vectors fit
    the buffer, starts with an aligned stack pointer to the number of its
    arguments, their addresses, a null pointer, the addresses of its
    environment, a null pointer and its auxiliary vector, the last entry first
    and a null pair behind it; the strings, each with a byte zero behind it, and
    the sixteen random bytes are found at those addresses. *)
Theorem program_finds_its_arguments info stale top : args info ≠ [] → need info <= len stale → len stale <= top < 2 ^ 64 →
  ∃ st argv envp rnd, serialize info stale top = Ret st ∧ buttom st = top ∧ sp st mod 8 = 0 ∧
    found st (sp st) (words (stack_words argv envp rnd (auxv info))) ∧
    Forall2 (λ p s, found st p (s ++ [0])) argv (args info) ∧
    Forall2 (λ p s, found st p (s ++ [0])) envp (envs info) ∧ found st rnd (words RANDOM_STR).
Proof.
  intros Hargs Hneed Htop. unfold serialize. destruct (args info) as [|arg0 args'] eqn:Ea; [done|].
  rewrite <- Ea in *. assert (index (args info) 0 = Ret arg0) as Hi by (by rewrite Ea). run Hi.
  unfold need in Hneed. assert (default [] (args info !! 0%nat) = arg0) as E0 by (by rewrite Ea). rewrite E0 in Hneed.
  pose proof (c_strs_nonneg (envs info)). pose proof (c_strs_nonneg (args info)). pose proof (len_nonneg arg0).
  set (v := 23 + 16 * Z.of_nat (length (auxv info)) + 8 + 8 * Z.of_nat (length (envs info)) + 8 + 8 * Z.of_nat (length (args info)) + 8).
  assert (0 <= v) by lia.
  assert (stack_ok (stack_new stale top) (len stale)) as Hok0.
  { unfold stack_ok, stack_new. cbn. pose proof (len_nonneg stale). lia. }
  destruct (push_str_ok arg0 (stack_new stale top) _ (23 + c_strs (envs info) + c_strs (args info) + v)
    Hok0 ltac:(lia) ltac:(lia)) as (st1&Hr1&Hok1&He1&_). run Hr1. cbv beta iota.
  destruct (push_words_aligns RANDOM_STR st1 _ (c_strs (envs info) + c_strs (args info) + v)
    Hok1 ltac:(cbn [RANDOM_STR length]; lia) ltac:(lia)) as (st2&Hr2&Hok2&He2&_&Hrnd). run Hr2.
  destruct (push_strs_ok (envs info) st2 _ (c_strs (args info) + v)
    Hok2 ltac:(lia) ltac:(lia)) as (envp&st3&Hr3&Hok3&He3&Henv). run Hr3. cbv beta iota.
  destruct (push_strs_ok (args info) st3 _ v
    Hok3 ltac:(lia) ltac:(lia)) as (argv&st4&Hr4&Hok4&He4&Harg). run Hr4. cbv beta iota.
  destruct (push_vectors_ok argv envp (sp st2) (auxv info) st4) as (st&Hr&Hok&He&Hal&Hh).
  { by rewrite (Forall2_length Henv), (Forall2_length Harg). }
  assert (extends st3 st) as Hx3 by (by eapply extends_trans). assert (extends st2 st) as Hx2 by (by eapply extends_trans).
  exists st, argv, envp, (sp st2). split_and!; [exact Hr| |done|by apply holds_found| | |].
  - destruct Hx2 as (->&_). destruct He2 as (->&_). by destruct He1 as (->&_).
  - eapply list.Forall2_impl; [exact Harg|]. intros p s Hp. apply holds_found; [done|]. by apply He.
  - eapply list.Forall2_impl; [exact Henv|]. intros p s Hp. apply holds_found; [done|]. by apply Hx3.
  - apply holds_found; [done|]. by apply Hx2.
Qed.

(** A program whose strings do not fit brings the kernel down. *)
Lemma long_argument_panics arg stale top : USER_INIT_STACK_SIZE <= top < 2 ^ 64 → len stale = USER_INIT_STACK_SIZE →
  USER_INIT_STACK_SIZE <= len arg < top → serialize (mkInfo [arg] [] []) stale top = Panic.
Proof.
  intros Htop Hst Harg. unfold serialize. cbn [args]. change (index [arg] 0) with (Ret arg). rewrite bind_Ret.
  unfold push_str. destruct (push_slice_ok 1 [0] (stack_new stale top) 0) as (st1&Hr1&_&(Hb&Hl&_)&_&Hsp&_).
  - lia.
  - unfold stack_ok, stack_new. cbn. rewrite Z.mod_1_r. unfold len, USER_INIT_STACK_SIZE in *. cbn. lia.
  - done.
  - rewrite Z.mod_1_r, Z.sub_0_r in Hsp. cbn [stack_new sp buttom stack_data] in *. change (len [0]) with 1 in Hsp.
    run Hr1. unfold push_slice. rewrite Hb, Hl, Hsp, Z.mod_1_r, Z.sub_0_r.
    rewrite (wrap_small 64 (top - 1 - len arg)) by (unfold word, USER_INIT_STACK_SIZE in *; lia).
    rewrite wrap_small by (unfold word, USER_INIT_STACK_SIZE in *; lia). by rewrite (proj2 (Z.leb_gt _ _)) by lia.
Qed.

(** A program called [sh] with the argument [-c], on a buffer of zeros. *)
Definition sh : InitInfo := mkInfo [[115; 104]; [45; 99]] [[65; 61; 49]] [(AT_PHENT, 56); (AT_RANDOM, 0)].

Lemma program_finds_its_arguments_witness : ∃ st argv envp rnd,
  serialize sh (repeat 0 (Z.to_nat USER_INIT_STACK_SIZE)) 0x40000000 = Ret st ∧ length argv = 2%nat ∧
  found st (sp st) (words (stack_words argv envp rnd [(AT_PHENT, 56); (AT_RANDOM, 0)])).
Proof.
  destruct (program_finds_its_arguments sh (repeat 0 (Z.to_nat USER_INIT_STACK_SIZE)) 0x40000000) as (st&argv&envp&rnd&Hr&_&_&Hw&Ha&_).
  - done.
  - unfold len. rewrite repeat_length, Z2Nat.id by done. by vm_compute.
  - unfold len. rewrite repeat_length, Z2Nat.id by done. unfold USER_INIT_STACK_SIZE. lia.
  - exists st, argv, envp, rnd. split; [exact Hr|]. split; [exact (Forall2_length Ha)|exact Hw].
Defined.
