(* ===== verification/Sockets.v ===== *)
(** * Sockets on the loopback (kernel/src/file/socket, kernel/src/syscall/socket.rs)

    A port is a buffer of bytes; a socket sends to the port of its remote
    endpoint and receives from its local one; connecting writes the address of
    the caller to the port a hundred above.  A socket behind the table of
    descriptors is an address in a store; a file that is not in it is no
    socket. *)

From S2P Require Import Prelude Bytes BitAlloc Errors Vfs FdTable FdCalls.

Definition SOCKET_BUFFER_SIZE_LIMIT : Z := 0x200000.
Definition LOCAL_LOOPBACK_ADDR : Z := 0x7f000001.

(** ** Ports ([loopback.rs]) *)

Abbreviation Ports := (gmap Z (list Z)).

(** [PortData::read], with the buffer it fills, and [PortData::write] *)
Definition port_read (data buf : list Z) : Z * list Z * list Z :=
  let read_len := Z.min (len data) (len buf) in
  (read_len, splice 0 (bytes_at 0 read_len data) buf, drop (Z.to_nat read_len) data).
Definition port_write (data buf : list Z) : option Z * list Z :=
  let write_len := Z.min (wrap64 (SOCKET_BUFFER_SIZE_LIMIT - len data)) (len buf) in
  if write_len =? 0 then (None, data) else (Some write_len, data ++ bytes_at 0 write_len buf).

Definition can_read (port : Z) (map : Ports) : option Z :=
  data ← map !! port; if 0 <? len data then Some (len data) else None.

Definition can_write (port : Z) (map : Ports) : option Z :=
  match map !! port with
  | Some data => if len data <? SOCKET_BUFFER_SIZE_LIMIT then Some (SOCKET_BUFFER_SIZE_LIMIT - len data) else None
  | None => Some SOCKET_BUFFER_SIZE_LIMIT
  end.

Definition read_from_port (port : Z) (buf : list Z) (map : Ports) : option Z * list Z * Ports :=
  match map !! port with
  | Some data =>
      if 0 <? len data then let '(n, buf, data) := port_read data buf in (Some n, buf, <[port := data]> map)
      else (None, buf, map)
  | None => (None, buf, map)
  end.

Definition write_to_port (port : Z) (buf : list Z) (map : Ports) : option Z * Ports :=
  let '(write_len, data) := port_write (default [] (map !! port)) buf in (write_len, <[port := data]> map).

(** ** Addresses ([resolution.rs]) *)

Inductive AddrType := Ip (ip port : Z) | Unknown.

#[export] Instance AddrType_eq_dec : EqDecision AddrType.
Proof. solve_decision. Defined.

Definition FAMILY_INTERNET : Z := 2.

(** [from_be] of the [n] bytes at [p], and [IpAddr] with its numbers in network order. *)
Definition be_at (p n : Z) (bytes : list Z) : Z := le_combine (reverse (bytes_at p n bytes)).
Definition ip_addr (port addr : Z) : list Z :=
  le_split 2 FAMILY_INTERNET ++ reverse (le_split 2 port) ++ reverse (le_split 4 addr).

(** The address in the bytes behind the user's pointer. *)
Definition addr_resolution (bytes : list Z) : AddrType :=
  if le_at 0 2 bytes =? FAMILY_INTERNET then Ip (be_at 4 4 bytes) (be_at 2 2 bytes) else Unknown.

(** [EPHEMERAL_PORT]; the port it answers is the one it holds then. *)
Definition get_ephemeral_port (ephemeral : Z) : Z :=
  let e := if ephemeral =? 0 then 49152 else ephemeral in
  if e =? 65535 then 49152 else wrap16 (e + 1).

(** ** [Socket] *)

Inductive Domain := AF_UNIX | AF_INET.
Inductive SocketType :=
| SOCK_STREAM | SOCK_DGRAM | SOCK_RAW | SOCK_RDM | SOCK_SEQPACKET | SOCK_DCCP | SOCK_PACKET.

Record Socket := mkSocket {
  domain : Domain;
  stype : SocketType;
  protocol : Z;
  sk_flags : Z;
  local_endpoint : option AddrType;
  remote_endpoint : option AddrType;
  is_listening : bool }.

Definition O_NON_BLOCK : Z := 2 ^ 11.
Definition SOCKET_TYPE_MASK : Z := 0xff.

(** [try_from]; the two flags above the mask cannot come through it. *)
Definition domain_of (d : Z) : option Domain := if d =? 1 then Some AF_UNIX else if d =? 2 then Some AF_INET else None.
Definition socket_type_of (t : Z) : option SocketType :=
  if t =? 1 then Some SOCK_STREAM else if t =? 2 then Some SOCK_DGRAM else if t =? 3 then Some SOCK_RAW
  else if t =? 4 then Some SOCK_RDM else if t =? 5 then Some SOCK_SEQPACKET else if t =? 6 then Some SOCK_DCCP
  else if t =? 10 then Some SOCK_PACKET else None.

Definition socket_new (d : Domain) (t : SocketType) (protocol : Z) : Socket :=
  mkSocket d t protocol (Z.lor (Z.lor O_RDWR O_CLOEXEC) O_NON_BLOCK) None None false.
Definition clonew (s : Socket) : Socket :=
  mkSocket (domain s) (stype s) (protocol s) O_RDWR (local_endpoint s) (remote_endpoint s) false.

Definition set_listening (listen : bool) (s : Socket) : Socket :=
  mkSocket (domain s) (stype s) (protocol s) (sk_flags s) (local_endpoint s) (remote_endpoint s) listen.
Definition set_local (a : AddrType) (s : Socket) : Socket :=
  mkSocket (domain s) (stype s) (protocol s) (sk_flags s) (Some a) (remote_endpoint s) (is_listening s).
Definition set_remote (a : AddrType) (s : Socket) : Socket :=
  mkSocket (domain s) (stype s) (protocol s) (sk_flags s) (local_endpoint s) (Some a) (is_listening s).

(** [fl.set(flag, flags.contains(flag))] *)
Definition set_flag (fl flag : Z) (on : bool) : Z := if on then Z.lor fl flag else Z.land fl (wnot 32 flag).
Definition sk_set_status (flags : Z) (s : Socket) : Socket :=
  let fl := set_flag (sk_flags s) O_NON_BLOCK (has_flags flags O_NON_BLOCK) in
  let fl := set_flag fl O_CLOEXEC (has_flags flags O_CLOEXEC) in
  mkSocket (domain s) (stype s) (protocol s) fl (local_endpoint s) (remote_endpoint s) (is_listening s).

(** The ports and the next ephemeral port. *)
Record Net := mkNet { ports : Ports; ephemeral : Z }.

(** [set_endpoint]: the port it set, for a local endpoint a free one for 0. *)
Definition set_endpoint (bytes : list Z) (is_remote : bool) (s : Socket) (n : Net) : option Z * Socket * Net :=
  match addr_resolution bytes with
  | Ip ip port =>
      if is_remote then (Some port, set_remote (Ip ip port) s, n)
      else if port =? 0 then
        let e := get_ephemeral_port (ephemeral n) in (Some e, set_local (Ip ip e) s, mkNet (ports n) e)
      else (Some port, set_local (Ip ip port) s, n)
  | Unknown => (None, s, n)
  end.

Definition sk_ready_to_read (s : Socket) (n : Net) : bool :=
  match local_endpoint s with
  | Some (Ip _ port) =>
      let port := if is_listening s then wrap16 (port + 100) else port in
      match can_read port (ports n) with Some _ => true | None => false end
  | _ => false
  end.

Definition sk_ready_to_write (s : Socket) (n : Net) : bool :=
  match remote_endpoint s with
  | Some (Ip _ port) => match can_write port (ports n) with Some _ => true | None => false end
  | _ => true
  end.

(** The port a message goes to. *)
Definition dest_port (flags port : Z) (n : Net) : Z * Net :=
  if port =? 0 then
    let e := get_ephemeral_port (ephemeral n) in
    (if flags =? 100 then wrap16 (wrap16 (e + 100) - 2) else wrap16 (e - 1), mkNet (ports n) e)
  else (if flags =? 100 then wrap16 (port + 100) else port, n).

Definition is_local (ip : Z) : bool := (ip =? 0) || (ip =? LOCAL_LOOPBACK_ADDR).

(** [sendto] with the bytes of the destination, if there is one. *)
Definition sk_sendto (s : Socket) (buf : list Z) (flags : Z) (dest : option (list Z)) (n : Net) : option Z * Net :=
  match (match dest with None => default Unknown (remote_endpoint s) | Some bytes => addr_resolution bytes end) with
  | Ip ip port =>
      if is_local ip then
        let '(port, n) := dest_port flags port n in
        let '(r, map) := write_to_port port buf (ports n) in (r, mkNet map (ephemeral n))
      else (None, n)
  | Unknown => (None, n)
  end.

(** [recvfrom]; the length of the address is 8 whenever one is known. *)
Definition sk_recvfrom (s : Socket) (buf : list Z) (flags : Z) (src : option (list Z)) (n : Net) : option Z * list Z * Net :=
  match (match src with None => default Unknown (local_endpoint s) | Some bytes => addr_resolution bytes end) with
  | Ip ip port =>
      if is_local ip then
        let port := if flags =? 100 then wrap16 (port + 100) else port in
        let '(r, buf, map) := read_from_port port buf (ports n) in (r, buf, mkNet map (ephemeral n))
      else (None, buf, n)
  | Unknown => (None, buf, n)
  end.

(** [read] and [write] of the file *)
Definition sk_read (s : Socket) (buf : list Z) (n : Net) : option Z * list Z * Net := sk_recvfrom s buf 0 None n.
Definition sk_write (s : Socket) (buf : list Z) (n : Net) : option Z * Net := sk_sendto s buf 0 None n.

(** ** System calls *)

Section calls.
Context {A : Type} `{BitAlloc A} {UM : UserMemory}.

(** The table of the process, the sockets by address, and the network. *)
Record SockTask := mkSk { s_table : FdManager A Z; s_socks : gmap Z Socket; s_net : Net }.
Implicit Types w : SockTask.

(** The other tasks, while this one gives way. *)
Context (suspend_current_task : SockTask → SockTask).

Definition on_sk_table {R} (x : FdManager A Z → outcome (R * FdManager A Z)) : M SockTask R := λ w,
  '(r, m) ← x (s_table w); Ret (r, mkSk m (s_socks w) (s_net w)).

Definition sk_file (fd : Z) : M SockTask (OSResult Z) := on_sk_table (λ m, r ← get_file m fd; Ret (r, m)).

(** A call on the file at [p]: a socket, or what another file does. *)
Definition on_socket {R} (p : Z) (f : Socket → Net → R * Socket * Net) (other : SockTask → outcome (R * SockTask)) : M SockTask R := λ w,
  match s_socks w !! p with
  | Some s => let '(r, s, n) := f s (s_net w) in Ret (r, mkSk (s_table w) (<[p := s]> (s_socks w)) n)
  | None => other w
  end.

(** [downcast_ref::<Socket>().unwrap()] *)
Definition the_socket {R} (p : Z) (f : Socket → Net → R * Socket * Net) : M SockTask R := on_socket p f (λ _, Panic).

(** [file.sendto] and [file.recvfrom] *)
Definition file_sendto (p : Z) (buf : list Z) (flags : Z) (dest : option (list Z)) : M SockTask (option Z) :=
  on_socket p (λ s n, let '(r, n) := sk_sendto s buf flags dest n in (r, s, n)) (λ w, Ret (None, w)).
Definition file_recvfrom (p : Z) (buf : list Z) (flags : Z) : M SockTask (option Z * list Z) :=
  on_socket p (λ s n, let '(r, buf, n) := sk_recvfrom s buf flags None n in ((r, buf), s, n)) (λ w, Ret ((None, buf), w)).

(** A new socket behind a new descriptor. *)
Definition push_socket (s : Socket) : M SockTask (SysResult Z) := λ w,
  let p := fresh (dom (s_socks w)) in
  (r ← on_sk_table (λ m, push m p); mret (match r with OsOk fd => inl fd | OsErr _ => inr EMFILE end))
    (mkSk (s_table w) (<[p := s]> (s_socks w)) (s_net w)).

Definition sys_socket (d t protocol : Z) : M SockTask (SysResult Z) :=
  match domain_of d with
  | None => mret (inr EAFNOSUPPORT)
  | Some d =>
      match socket_type_of (Z.land t SOCKET_TYPE_MASK) with
      | None => mret (inr EINVAL)
      | Some t => push_socket (socket_new d t protocol)
      end
  end.

Definition sys_sendto (fd addr : Z) (buf : list Z) (flags : Z) (dest : option (list Z)) : M SockTask (SysResult Z) :=
  if negb (manually_alloc_user_str addr (len buf)) then mret (inr EFAULT)
  else
    r ← sk_file fd;
    match r with
    | OsOk file => n ← file_sendto file buf flags dest; mret (match n with Some n => inl n | None => inr EINVAL end)
    | OsErr _ => mret (inr EBADF)
    end.

(** The status of another file is empty: it never stops waiting. *)
Definition get_sk_flags (p : Z) : M SockTask Z := λ w, Ret (match s_socks w !! p with Some s => sk_flags s | None => 0 end, w).

Fixpoint recv_loop (fuel : nat) (fd : Z) (buf : list Z) : M SockTask (option (SysResult Z * list Z)) :=
  match fuel with
  | O => mret None
  | S fuel =>
      r ← sk_file fd;
      match r with
      | OsErr _ => mret (Some (inr EBADF, buf))
      | OsOk file =>
          '(n, buf) ← file_recvfrom file buf 0;
          match n with
          | Some read_len => mret (Some (inl read_len, buf))
          | None =>
              fl ← get_sk_flags file;
              if has_flags fl O_NON_BLOCK then mret (Some (inr EAGAIN, buf))
              else _ ← (λ w, Ret (tt, suspend_current_task w)); recv_loop fuel fd buf
          end
      end
  end.

(** [None]: after [fuel] rounds the call is still waiting. *)
Definition sys_recvfrom (fuel : nat) (fd addr : Z) (buf : list Z) : M SockTask (option (SysResult Z * list Z)) :=
  if negb (manually_alloc_user_str addr (len buf)) then mret (Some (inr EFAULT, buf)) else recv_loop fuel fd buf.

Definition sys_bind (fd addr addr_len : Z) (bytes : list Z) : M SockTask (SysResult Z) :=
  if negb (manually_alloc_user_str addr addr_len) then mret (inr EFAULT)
  else
    r ← sk_file fd;
    match r with
    | OsOk file => p ← the_socket file (set_endpoint bytes false); mret (match p with Some _ => inl 0 | None => inr EINVAL end)
    | OsErr _ => mret (inr EBADF)
    end.

Definition sys_listen (fd : Z) : M SockTask (SysResult Z) :=
  r ← sk_file fd;
  match r with
  | OsOk file => _ ← the_socket file (λ s n, (tt, set_listening true s, n)); mret (inl 0)
  | OsErr _ => mret (inr EBADF)
  end.

Definition sys_connect (fd addr addr_len : Z) (bytes : list Z) : M SockTask (SysResult Z) :=
  if negb (manually_alloc_user_str addr addr_len) then mret (inr EFAULT)
  else
    r ← sk_file fd;
    match r with
    | OsErr _ => mret (inr EBADF)
    | OsOk file =>
        lport ← the_socket file (set_endpoint (ip_addr 0 0) false);
        match lport with
        | None => mret (inr EINVAL)
        | Some lport =>
            n ← file_sendto file (ip_addr lport LOCAL_LOOPBACK_ADDR) 100 (Some bytes);
            match n with
            | None => mret (inr ECONNREFUSED)
            | Some _ => _ ← the_socket file (set_endpoint bytes true); mret (inl 0)
            end
        end
    end.

(** [mem]: the bytes behind the address of the user, which come back. *)
Fixpoint accept_loop (fuel : nat) (fd flags : Z) (mem : list Z) : M SockTask (option (SysResult Z * list Z)) :=
  match fuel with
  | O => mret None
  | S fuel =>
      r ← sk_file fd;
      match r with
      | OsErr _ => mret (Some (inr EBADF, mem))
      | OsOk file =>
          '(n, buffer) ← file_recvfrom file (repeat 0 64) 100;
          match n with
          | Some read_len =>
              let mem := overwrite 0 (bytes_at 0 read_len buffer) mem in
              s ← the_socket file (λ s n, let '(_, s, n) := set_endpoint mem true s n in (s, s, n));
              r ← push_socket (clonew s);
              mret (Some (r, mem))
          | None =>
              match open_from_bits (Z.land (wrap32 flags) (wnot 32 SOCKET_TYPE_MASK)) with
              | Some fl =>
                  if has_flags fl O_NON_BLOCK then mret (Some (inr EAGAIN, mem))
                  else _ ← (λ w, Ret (tt, suspend_current_task w)); accept_loop fuel fd flags mem
              | None => _ ← (λ w, Ret (tt, suspend_current_task w)); accept_loop fuel fd flags mem
              end
          end
      end
  end.

Definition sys_accept4 (fuel : nat) (fd addr addr_len flags : Z) (mem : list Z) : M SockTask (option (SysResult Z * list Z)) :=
  if negb (manually_alloc_page addr) || negb (manually_alloc_page addr_len) then mret (Some (inr EINVAL, mem))
  else accept_loop fuel fd flags mem.
End calls.
Arguments SockTask A : clear implicits.
