(* ===== verification/SocketsSpec.v ===== *)
(** * The loopback delivers what was sent

    A port is a queue of bytes of bounded length; a socket that connects and the
    one the listener accepts are each other's ends. *)

From S2P Require Import Prelude Bytes BitAlloc BitAllocSpec Errors Vfs FdTable FdTableSpec FdCalls FdCallsSpec Sockets.

(** ** Ports *)

Definition pending (port : Z) (map : Ports) : list Z := default [] (map !! port).

Definition ports_ok (map : Ports) : Prop := ∀ port, len (pending port map) <= SOCKET_BUFFER_SIZE_LIMIT.

Lemma pending_insert port q data (map : Ports) : pending q (<[port := data]> map) = if decide (q = port) then data else pending q map.
Proof. unfold pending. case_decide; subst; [by rewrite lookup_insert_eq|by rewrite lookup_insert_ne]. Qed.

Lemma ports_ok_insert port data map : ports_ok map → len data <= SOCKET_BUFFER_SIZE_LIMIT → ports_ok (<[port := data]> map).
Proof. intros Hm Hd q. rewrite pending_insert. case_decide; auto. Qed.

(** How much a write takes. *)
Definition taken (port : Z) (buf : list Z) (map : Ports) : Z := Z.min (SOCKET_BUFFER_SIZE_LIMIT - len (pending port map)) (len buf).

Lemma write_to_port_ok port buf map : ports_ok map → let k := taken port buf map in
  ∃ map', write_to_port port buf map = (if k =? 0 then None else Some k, map') ∧ 0 <= k <= len buf ∧ ports_ok map' ∧
    ∀ q, pending q map' = if decide (q = port) then pending port map ++ bytes_at 0 k buf else pending q map.
Proof.
  intros Hm k. pose proof (Hm port) as Hl. pose proof (len_nonneg buf). pose proof (len_nonneg (pending port map)).
  unfold write_to_port, port_write. fold (pending port map).
  rewrite (wrap_small 64) by (unfold word, SOCKET_BUFFER_SIZE_LIMIT in *; lia). fold (taken port buf map). fold k.
  assert (0 <= k <= len buf) as Hk by (unfold k, taken; lia).
  destruct (Z.eqb_spec k 0) as [E|E]; (eexists; split; [done|]; split; [done|]; split).
  - by apply ports_ok_insert.
  - intros q. rewrite pending_insert. case_decide; [|done]. by rewrite E, bytes_at_0, app_nil_r.
  - apply ports_ok_insert; [done|]. rewrite len_app, len_bytes_at_min by lia. unfold k, taken in *. lia.
  - intros q. by rewrite pending_insert.
Qed.

Lemma read_from_port_ok port buf map : ports_ok map → let k := Z.min (len (pending port map)) (len buf) in
  ∃ map', read_from_port port buf map =
      (if len (pending port map) =? 0 then None else Some k, splice 0 (bytes_at 0 k (pending port map)) buf, map') ∧
    ports_ok map' ∧ ∀ q, pending q map' = if decide (q = port) then drop (Z.to_nat k) (pending port map) else pending q map.
Proof.
  intros Hm k. pose proof (Hm port) as Hl. pose proof (len_nonneg buf). unfold read_from_port. 
  assert (len (pending port map) = 0 → ∃ map', (None, buf, map) =
      (if len (pending port map) =? 0 then None else Some k, splice 0 (bytes_at 0 k (pending port map)) buf, map') ∧
    ports_ok map' ∧ ∀ q, pending q map' = if decide (q = port) then drop (Z.to_nat k) (pending port map) else pending q map) as Hnone.
  { intros E. exists map. assert (k = 0) as -> by (unfold k; lia). rewrite E, bytes_at_0, splice_nil. cbn [Z.to_nat drop].
    split_and!; [done|done|]. intros q. by case_decide; subst. }
  destruct (map !! port) as [data|] eqn:Ep; [|apply Hnone; unfold pending; by rewrite Ep].
  assert (pending port map = data) as Ed by (unfold pending; by rewrite Ep). unfold k in *. rewrite Ed in *. pose proof (len_nonneg data).
  destruct (Z.ltb_spec 0 (len data)); [|apply Hnone; lia]. rewrite (proj2 (Z.eqb_neq _ _)) by lia. unfold port_read.
  eexists. split; [done|]. split.
  - apply ports_ok_insert; [done|]. unfold len in *. rewrite length_drop. lia.
  - intros q. by rewrite pending_insert.
Qed.

Inductive PortOp := Send (port : Z) (buf : list Z) | Recv (port : Z) (buf : list Z).

(** What an operation of one port put in, and took out, by what it returned. *)
Definition port_step (op : PortOp) (map : Ports) : (Z * list Z * list Z) * Ports :=
  match op with
  | Send port buf => let '(r, map) := write_to_port port buf map in ((port, bytes_at 0 (default 0 r) buf, []), map)
  | Recv port buf => let '(r, buf, map) := read_from_port port buf map in ((port, [], bytes_at 0 (default 0 r) buf), map)
  end.

(** All that was sent to a port, all that was received from it, and the ports after. *)
Fixpoint traffic (port : Z) (ops : list PortOp) (map : Ports) : list Z * list Z * Ports :=
  match ops with
  | [] => ([], [], map)
  | op :: ops =>
      let '((q, put, got), map) := port_step op map in
      let '(sent, received, map) := traffic port ops map in
      if decide (q = port) then (put ++ sent, got ++ received, map) else (sent, received, map)
  end.

Lemma port_step_fifo op map : ports_ok map → let '((q, put, got), map') := port_step op map in
  ports_ok map' ∧ pending q map ++ put = got ++ pending q map' ∧ ∀ r, r ≠ q → pending r map' = pending r map.
Proof.
  intros Hm. destruct op as [port buf|port buf]; cbn [port_step].
  - destruct (write_to_port_ok port buf map Hm) as (map'&->&Hk&Hok&Hp). split_and!; [done| |].
    + rewrite Hp, decide_True by done. cbn [app]. by destruct (Z.eqb_spec (taken port buf map) 0) as [->|].
    + intros r Hr. by rewrite Hp, decide_False.
  - destruct (read_from_port_ok port buf map Hm) as (map'&->&Hok&Hp). split_and!; [done| |].
    + rewrite Hp, decide_True, app_nil_r by done. pose proof (len_nonneg (pending port map)). pose proof (len_nonneg buf).
      destruct (Z.eqb_spec (len (pending port map)) 0) as [E|E]; cbn [default].
      * rewrite bytes_at_0. assert (pending port map = []) as -> by (destruct (pending port map); [done|unfold len in E; cbn in E; lia]).
        by rewrite drop_nil.
      * unfold id. set (k := Z.min _ _) in *.
        assert (len (bytes_at 0 k (pending port map)) = k) as Hl by (rewrite len_bytes_at; unfold k; lia).
        rewrite <- Hl at 1. rewrite bytes_at_splice_same by (rewrite ?Hl; unfold k; lia). symmetry. apply take_drop.
    + intros r Hr. by rewrite Hp, decide_False.
Qed.

(**  Whatever is sent and received on any ports, in any order: the bytes
    that were received from a port, and those that wait there, are the ones
    that were sent to it, in that order, and no port keeps more than the limit. *)
Theorem loopback_is_fifo port ops map : ports_ok map →
  let '(sent, received, map') := traffic port ops map in
  pending port map ++ sent = received ++ pending port map' ∧ ports_ok map'.
Proof.
  revert map. induction ops as [|op ops IH]; intros map Hm; cbn [traffic].
  { by rewrite app_nil_r. }
  pose proof (port_step_fifo op map Hm) as Hs. destruct (port_step op map) as [[[q put] got] map1].
  destruct Hs as (Hm1&Hq&Hother). specialize (IH map1 Hm1). destruct (traffic port ops map1) as [[sent received] map'].
  destruct IH as [IH Hm']. case_decide as E; subst; [|by rewrite <- Hother].
  split; [|done]. by rewrite app_assoc, Hq, <- !app_assoc, IH.
Qed.

(** ** Addresses *)

Lemma bytes_at_mid p n a b c : len a = p → len b = n → bytes_at p n (a ++ b ++ c) = b.
Proof.
  intros <- <-. pose proof (len_nonneg b). rewrite <- (Z.add_0_r (len a)), bytes_at_app_r, bytes_at_app_l by lia. by apply bytes_at_all.
Qed.

Lemma ip_addr_resolves port addr rest : word 16 port → word 32 addr → addr_resolution (ip_addr port addr ++ rest) = Ip addr port.
Proof.
  intros Hp Ha. unfold addr_resolution, be_at, le_at, ip_addr.
  assert (len (le_split 2 FAMILY_INTERNET) = 2 ∧ len (reverse (le_split 2 port)) = 2 ∧ len (reverse (le_split 4 addr)) = 4) as (H1&H2&H3).
  { unfold len. by rewrite !length_reverse, !length_le_split. }
  rewrite <- !app_assoc. rewrite (bytes_at_app_l 0 2), (bytes_at_all 2) by lia. rewrite (bytes_at_mid 2 2) by done.
  rewrite (app_assoc (le_split 2 _)), (bytes_at_mid 4 4) by (rewrite ?len_app; lia).
  rewrite !reverse_involutive, !le_combine_split. cbn iota. f_equal; by apply Z.mod_small.
Qed.

Lemma len_ip_addr port addr : len (ip_addr port addr) = 8.
Proof. unfold ip_addr. rewrite !len_app. unfold len. by rewrite !length_reverse, !length_le_split. Qed.

Lemma ephemeral_range e : word 16 e → word 16 (get_ephemeral_port e) ∧ get_ephemeral_port e ≠ 0.
Proof.
  unfold get_ephemeral_port, word. intros He. destruct (Z.eqb_spec e 0) as [->|]; [by cbn|].
  destruct (Z.eqb_spec e 65535); [by subst|]. rewrite wrap_small by (unfold word; lia). lia.
Qed.

(** ** Messages between sockets *)

Definition net_ok (n : Net) : Prop := ports_ok (ports n) ∧ word 16 (ephemeral n).

(** A message to a port nothing waits at is what the next read of it gets. *)
Lemma message_arrives (s r : Socket) ip ip' port msg buf n : net_ok n → is_local ip = true → is_local ip' = true → port ≠ 0 →
  remote_endpoint s = Some (Ip ip port) → local_endpoint r = Some (Ip ip' port) → pending port (ports n) = [] →
  0 < len msg <= SOCKET_BUFFER_SIZE_LIMIT → len msg <= len buf →
  ∃ n1 n2, sk_write s msg n = (Some (len msg), n1) ∧ sk_read r buf n1 = (Some (len msg), splice 0 msg buf, n2) ∧
    net_ok n2 ∧ ∀ q, pending q (ports n2) = pending q (ports n).
Proof.
  intros [Hok He] Hip Hip' Hport Hs Hr Hnone Hmsg Hbuf.
  destruct (write_to_port_ok port msg (ports n) Hok) as (map1&Hw&_&Hok1&Hp1).
  assert (taken port msg (ports n) = len msg) as Et by (unfold taken; rewrite Hnone; change (len []) with 0; lia).
  rewrite Et, (proj2 (Z.eqb_neq _ _)) in Hw by lia. rewrite Et, Hnone in Hp1. cbn [app] in Hp1. rewrite bytes_at_all in Hp1 by done.
  destruct (read_from_port_ok port buf map1 Hok1) as (map2&Hrd&Hok2&Hp2). rewrite Hp1, decide_True in Hrd, Hp2 by done.
  rewrite (proj2 (Z.eqb_neq _ _)) in Hrd by lia. rewrite Z.min_l in Hrd, Hp2 by done. rewrite bytes_at_all in Hrd by done.
  exists (mkNet map1 (ephemeral n)), (mkNet map2 (ephemeral n)). split_and!.
  - unfold sk_write, sk_sendto. rewrite Hs. cbn [default]. unfold id. rewrite Hip. unfold dest_port.
    rewrite (proj2 (Z.eqb_neq _ _)) by done. change (0 =? 100) with false. cbn iota. by rewrite Hw.
  - unfold sk_read, sk_recvfrom. rewrite Hr. cbn [default]. unfold id. rewrite Hip'. change (0 =? 100) with false. cbn iota. cbn [ports ephemeral]. by rewrite Hrd.
  - by split.
  - intros q. cbn [ports]. rewrite Hp2. case_decide as E.
    + subst. rewrite Hnone. apply drop_ge. unfold len. lia.
    + by rewrite Hp1, decide_False.
Qed.

(** ** Connecting *)

Section calls.
Context {A : Type} {BA : BitAlloc A} {V : BitAllocView A} {BS : BitAllocSpec A} {UM : UserMemory}.
Context (suspend : SockTask A → SockTask A).
Context (Hmapped : ∀ a n, manually_alloc_user_str a n = true) (Hpage : ∀ a, manually_alloc_page a = true).
Implicit Types w : SockTask A.

Definition is_sock w (fd p : Z) (s : Socket) : Prop := 0 <= fd ∧ file_at (s_table w) fd = Some p ∧ s_socks w !! p = Some s.

Lemma sk_file_run w fd p s : is_sock w fd p s → sk_file fd w = Ret (OsOk p, w).
Proof. intros (Hfd&Hf&_). unfold sk_file, on_sk_table. rewrite get_file_spec, Hf, !bind_Ret by done. by destruct w. Qed.

Lemma on_socket_run {R} w p s (f : Socket → Net → R * Socket * Net) other r s' n : s_socks w !! p = Some s →
  f s (s_net w) = (r, s', n) → on_socket p f other w = Ret (r, mkSk (s_table w) (<[p := s']> (s_socks w)) n).
Proof. intros Hs Hf. unfold on_socket. by rewrite Hs, Hf. Qed.

(** Binding, listening and connecting panic on a file that is no socket. *)
Lemma other_file_panics w fd p a n bytes : 0 <= fd → file_at (s_table w) fd = Some p → s_socks w !! p = None →
  sys_bind fd a n bytes w = Panic ∧ sys_listen fd w = Panic ∧ sys_connect fd a n bytes w = Panic.
Proof.
  intros Hfd Hf Hp. assert (sk_file fd w = Ret (OsOk p, w)) as Hr.
  { unfold sk_file, on_sk_table. rewrite get_file_spec, Hf, !bind_Ret by done. by destruct w. }
  assert (∀ R (f : Socket → Net → R * Socket * Net), the_socket p f w = Panic) as Hpanic.
  { intros R f. unfold the_socket, on_socket. by rewrite Hp. }
  unfold sys_bind, sys_listen, sys_connect. rewrite !Hmapped. cbn [negb].
  unfold mbind, M_bind. rewrite Hr, !Hpanic. done.
Qed.

Lemma push_socket_run w s fd : inv (s_table w) → 0 <= fd < limit (s_table w) → file_at (s_table w) fd = None →
  ∃ nfd m, push_socket s w = Ret (inl nfd, mkSk m (<[fresh (dom (s_socks w)) := s]> (s_socks w)) (s_net w)) ∧
    lowest_closed (s_table w) nfd ∧ table_set (s_table w) m nfd (Some (fresh (dom (s_socks w)))) ∧ inv m.
Proof.
  intros Hinv Hfd Hnone. unfold push_socket. set (p := fresh _).
  destruct (push_spec (s_table w) p Hinv) as [(nfd&m&Hpush&Hn&Hnn&Hlow&Hinvm&Hset)|[_ Hall]]; [|by destruct (Hall fd)].
  exists nfd, m. split; [|done]. unfold on_sk_table, mbind, M_bind. cbn [s_table]. by rewrite Hpush.
Qed.

(** The address of a caller in the queue of those who connect. *)
Definition caller (l : Z) : list Z := ip_addr l LOCAL_LOOPBACK_ADDR.

(** A message a hundred ports above, to an empty queue, and its receipt. *)
Lemma call_arrives (c s : Socket) bytes l ip ip' port n : net_ok n → is_local ip = true → is_local ip' = true → port ≠ 0 →
  addr_resolution bytes = Ip ip' port → local_endpoint s = Some (Ip ip port) →
  pending (wrap16 (port + 100)) (ports n) = [] →
  ∃ n1 n2, sk_sendto c (caller l) 100 (Some bytes) n = (Some 8, n1) ∧
    sk_recvfrom s (repeat 0 64) 100 None n1 = (Some 8, splice 0 (caller l) (repeat 0 64), n2) ∧
    net_ok n2 ∧ ephemeral n2 = ephemeral n ∧ ∀ q, pending q (ports n2) = pending q (ports n).
Proof.
  intros Hn Hip Hip' Hport Hb Hs Hnone.
  destruct (write_to_port_ok (wrap16 (port + 100)) (caller l) (ports n) (proj1 Hn)) as (map1&Hw&_&Hok1&Hp1).
  assert (taken (wrap16 (port + 100)) (caller l) (ports n) = 8) as Et.
  { unfold taken, caller. rewrite Hnone, len_ip_addr. by vm_compute. }
  rewrite Et in Hw, Hp1. rewrite Hnone in Hp1. cbn [app] in Hp1. rewrite bytes_at_all in Hp1 by apply len_ip_addr.
  destruct (read_from_port_ok (wrap16 (port + 100)) (repeat 0 64) map1 Hok1) as (map2&Hrd&Hok2&Hp2).
  rewrite Hp1, decide_True in Hrd, Hp2 by done. unfold caller in Hrd, Hp2 at 1 2. rewrite len_ip_addr in Hrd, Hp2.
  change (Z.min 8 (len (repeat 0 64))) with 8 in *. fold (caller l) in Hrd, Hp2. rewrite bytes_at_all in Hrd by apply len_ip_addr.
  exists (mkNet map1 (ephemeral n)), (mkNet map2 (ephemeral n)). split_and!.
  - unfold sk_sendto. rewrite Hb, Hip'. unfold dest_port. rewrite (proj2 (Z.eqb_neq _ _)) by done.
    change (100 =? 100) with true. cbn iota. by rewrite Hw.
  - unfold sk_recvfrom. rewrite Hs. cbn [default]. unfold id. rewrite Hip. change (100 =? 100) with true. cbn iota.
    cbn [ports ephemeral]. by rewrite Hrd.
  - by split; [|apply Hn].
  - done.
  - intros q. cbn [ports]. rewrite Hp2. case_decide as E; [|by rewrite Hp1, decide_False].
    subst. rewrite Hnone. by apply drop_ge.
Qed.
(** The two ends after [connect] and [accept]. *)
Definition client_end (c : Socket) (l ip port : Z) : Socket := set_remote (Ip ip port) (set_local (Ip 0 l) c).
Definition server_end (s : Socket) (l : Z) : Socket := set_remote (Ip LOCAL_LOOPBACK_ADDR l) s.

(** What [connect] leaves before the address is sent. *)
Lemma connect_sends w cfd pc c a n bytes l ip port n1 : is_sock w cfd pc c → net_ok (s_net w) →
  addr_resolution bytes = Ip ip port → l = get_ephemeral_port (ephemeral (s_net w)) →
  sk_sendto (set_local (Ip 0 l) c) (caller l) 100 (Some bytes) (mkNet (ports (s_net w)) l) = (Some 8, n1) →
  sys_connect cfd a n bytes w = Ret (inl 0, mkSk (s_table w) (<[pc := client_end c l ip port]> (s_socks w)) n1).
Proof.
  intros Hc Hn Hb Hl Hsend. unfold sys_connect. rewrite Hmapped. cbn [negb]. step (sk_file_run w cfd pc c Hc).
  assert (set_endpoint (ip_addr 0 0) false c (s_net w) = (Some l, set_local (Ip 0 l) c, mkNet (ports (s_net w)) l)) as Hset.
  { unfold set_endpoint. rewrite <- (app_nil_r (ip_addr 0 0)), ip_addr_resolves by (unfold word; lia).
    change (0 =? 0) with true. cbn iota. by rewrite <- Hl. }
  step (on_socket_run w pc c (set_endpoint (ip_addr 0 0) false) (λ _, Panic) _ _ _ (proj2 (proj2 Hc)) Hset).
  set (w1 := mkSk _ _ _). assert (s_socks w1 !! pc = Some (set_local (Ip 0 l) c)) as Hc1 by apply lookup_insert_eq.
  unfold file_sendto at 1.
  step (on_socket_run w1 pc _ (λ s n, let '(r, n) := sk_sendto s (caller l) 100 (Some bytes) n in (r, s, n)) (λ w, Ret (None, w))
    (Some 8) _ n1 Hc1 ltac:(unfold w1; cbn [s_net]; by rewrite Hsend)).
  set (w2 := mkSk _ _ _). assert (s_socks w2 !! pc = Some (set_local (Ip 0 l) c)) as Hc2 by apply lookup_insert_eq.
  step (on_socket_run w2 pc _ (set_endpoint bytes true) (λ _, Panic) _ _ n1 Hc2
    ltac:(unfold set_endpoint; rewrite Hb; reflexivity)).
  unfold w2, w1. cbn [s_table s_socks]. by rewrite !insert_insert_eq.
Qed.

(** [accept] when the address of one caller waits. *)
Lemma accept_takes w sfd ps s a b flags mem l n2 free_fd : is_sock w sfd ps s → inv (s_table w) →
  0 <= free_fd < limit (s_table w) → file_at (s_table w) free_fd = None → word 16 l →
  sk_recvfrom s (repeat 0 64) 100 None (s_net w) = (Some 8, splice 0 (caller l) (repeat 0 64), n2) →
  ∃ nfd m w', sys_accept4 suspend 1 sfd a b flags mem w = Ret (Some (inl nfd, caller l ++ drop 8 mem), w') ∧
    s_table w' = m ∧ s_net w' = n2 ∧ lowest_closed (s_table w) nfd ∧ inv m ∧
    is_sock w' nfd (fresh (dom (s_socks w))) (clonew (server_end s l)) ∧
    s_socks w' = <[fresh (dom (s_socks w)) := clonew (server_end s l)]> (<[ps := server_end s l]> (s_socks w)) ∧
    table_set (s_table w) m nfd (Some (fresh (dom (s_socks w)))).
Proof.
  intros Hs Hinv Hfree Hnone Hl Hrecv. unfold sys_accept4. rewrite !Hpage. cbn [negb orb accept_loop].
  step (sk_file_run w sfd ps s Hs). unfold file_recvfrom at 1.
  step (on_socket_run w ps s (λ s n, let '(r, buf, n) := sk_recvfrom s (repeat 0 64) 100 None n in ((r, buf), s, n)) (λ w, Ret ((None, repeat 0 64), w))
    (Some 8, splice 0 (caller l) (repeat 0 64)) s n2 (proj2 (proj2 Hs)) ltac:(cbv beta; by rewrite Hrecv)).
  assert (bytes_at 0 8 (splice 0 (caller l) (repeat 0 64)) = caller l) as ->.
  { change 8 with (len (caller l)). by apply bytes_at_splice_same. }
  assert (overwrite 0 (caller l) mem = caller l ++ drop 8 mem) as -> by done.
  set (w1 := mkSk _ _ _). assert (s_socks w1 = s_socks w) as Hsame by (apply insert_id, Hs).
  step (on_socket_run w1 ps s (λ s n, let '(_, s, n) := set_endpoint (caller l ++ drop 8 mem) true s n in (s, s, n)) (λ _, Panic)
    (server_end s l) (server_end s l) n2 ltac:(rewrite Hsame; apply Hs)
    ltac:(unfold set_endpoint, caller; by rewrite ip_addr_resolves by (done || (unfold word, LOCAL_LOOPBACK_ADDR; lia)))).
  rewrite Hsame. set (w2 := mkSk _ _ _).
  assert (dom (s_socks w2) = dom (s_socks w)) as Hdom.
  { unfold w2. cbn [s_socks]. apply dom_insert_lookup_L. rewrite (proj2 (proj2 Hs)). by eexists. }
  destruct (push_socket_run w2 (clonew (server_end s l)) free_fd Hinv Hfree Hnone) as (nfd&m&Hp&Hlow&Hset&Hm).
  rewrite Hdom in *. step Hp. exists nfd, m. eexists. split; [done|]. cbn [s_table s_net s_socks]. split_and!; try done.
  split_and!; cbn [s_table s_socks]; [apply Hlow| |apply lookup_insert_eq].
  destruct Hset as (Hat&_). rewrite Hat by apply Hlow. by rewrite decide_True.
Qed.

(** C35.  Connecting a socket to the port of a listener at which nobody waits, and
    accepting there: both succeed; the new socket has the lowest descriptor that
    was not open, listens on no port of its own but has that of the listener and
    the caller's as the other end, and the caller has the other two; the user
    gets the caller's address, no byte is left at any port, and what either end
    sends is what the other reads. *)
Theorem connect_then_accept w cfd pc c sfd ps s ip ip' port bytes mem free_fd a n a' b flags :
  let l := get_ephemeral_port (ephemeral (s_net w)) in
  is_sock w cfd pc c → is_sock w sfd ps s → pc ≠ ps → net_ok (s_net w) →
  inv (s_table w) → 0 <= free_fd < limit (s_table w) → file_at (s_table w) free_fd = None →
  local_endpoint s = Some (Ip ip port) → is_local ip = true → port ≠ 0 →
  addr_resolution bytes = Ip ip' port → is_local ip' = true →
  pending (wrap16 (port + 100)) (ports (s_net w)) = [] →
  ∃ nfd pn w1 w2, sys_connect cfd a n bytes w = Ret (inl 0, w1) ∧
    sys_accept4 suspend 1 sfd a' b flags mem w1 = Ret (Some (inl nfd, caller l ++ drop 8 mem), w2) ∧
    lowest_closed (s_table w) nfd ∧ is_sock w2 cfd pc (client_end c l ip' port) ∧
    is_sock w2 nfd pn (clonew (server_end s l)) ∧ is_sock w2 sfd ps (server_end s l) ∧
    net_ok (s_net w2) ∧ (∀ q, pending q (ports (s_net w2)) = pending q (ports (s_net w))) ∧
    ∀ msg buf q, 0 < len msg <= SOCKET_BUFFER_SIZE_LIMIT → len msg <= len buf → q = port ∨ q = l →
      pending q (ports (s_net w)) = [] →
      let '(from, to) := if decide (q = port) then (client_end c l ip' port, clonew (server_end s l))
                         else (clonew (server_end s l), client_end c l ip' port) in
      ∃ n1 n2, sk_write from msg (s_net w2) = (Some (len msg), n1) ∧ sk_read to buf n1 = (Some (len msg), splice 0 msg buf, n2).
Proof.
  intros l Hc Hs Hne Hn Hinv Hfree Hnone Hlocal Hip Hport Hb Hip' Hempty.
  destruct (ephemeral_range _ (proj2 Hn)) as [Hl Hl0]. fold l in Hl, Hl0.
  assert (net_ok (mkNet (ports (s_net w)) l)) as Hn' by (split; [apply Hn|done]).
  destruct (call_arrives (set_local (Ip 0 l) c) s bytes l ip ip' port (mkNet (ports (s_net w)) l)) as (n1&n2&Hsend&Hrecv&Hn2&_&Hpend); try done.
  pose proof (connect_sends w cfd pc c a n bytes l ip' port n1 Hc Hn Hb eq_refl Hsend) as Hrun. set (w1 := mkSk _ _ n1) in Hrun.
  assert (is_sock w1 sfd ps s) as Hs1.
  { destruct Hs as (?&?&?). split_and!; [done|done|]. unfold w1. cbn [s_socks]. by rewrite lookup_insert_ne. }
  destruct (accept_takes w1 sfd ps s a' b flags mem l n2 free_fd Hs1 Hinv Hfree Hnone Hl Hrecv)
    as (nfd&m&w2&Hacc&Ht2&Hnet2&Hlow&Hm&Hnew&Hsocks&Hset). set (pn := fresh _) in *.
  assert (∀ p x, s_socks w1 !! p = Some x → pn ≠ p) as Hfresh.
  { intros p x Hx Hp. apply (is_fresh (dom (s_socks w1))). fold pn. rewrite Hp. apply elem_of_dom. by exists x. }
  assert (∀ fd p x, is_sock w1 fd p x → is_sock w2 fd p (if decide (p = ps) then server_end s l else x)) as Hkeep.
  { intros fd p x (Hfd&Hf&Hx). split_and!; [done| |].
    - rewrite Ht2. destruct Hset as (Hat&_). rewrite Hat by done. rewrite decide_False; [done|].
      intros ->. destruct Hlow as (_&Hn0&_). by rewrite Hn0 in Hf.
    - rewrite Hsocks, lookup_insert_ne by (by eapply Hfresh). case_decide; [subst; apply lookup_insert_eq|by rewrite lookup_insert_ne]. }
  exists nfd, pn, w1, w2. split; [exact Hrun|]. split; [exact Hacc|]. split; [exact Hlow|].
  split. { specialize (Hkeep cfd pc (client_end c l ip' port)). rewrite decide_False in Hkeep by done. apply Hkeep.
           destruct Hc as (?&?&_). split_and!; [done|done|apply lookup_insert_eq]. }
  split; [exact Hnew|]. split. { specialize (Hkeep sfd ps s Hs1). by rewrite decide_True in Hkeep. }
  rewrite Hnet2. split; [done|]. split; [done|]. intros msg buf q Hmsg Hbuf Hq Hqe.
  assert (pending q (ports n2) = []) as Hq2 by (by rewrite Hpend). case_decide as E.
  - subst q. destruct (message_arrives (client_end c l ip' port) (clonew (server_end s l)) ip' ip port msg buf n2) as (?&?&?&?&_); eauto.
  - destruct Hq as [?| ->]; [done|].
    destruct (message_arrives (clonew (server_end s l)) (client_end c l ip' port) LOCAL_LOOPBACK_ADDR 0 l msg buf n2) as (?&?&?&?&_); eauto.
Qed.
End calls.

Lemma loopback_is_fifo_witness :
  traffic 7 [Send 7 [1; 2; 3]; Send 8 [9]; Recv 7 [0; 0]; Send 7 [4]] ∅ = ([1; 2; 3; 4], [1; 2], <[7 := [3; 4]]> {[8 := [9]]}) ∧
  [1; 2; 3; 4] = [1; 2] ++ pending 7 (<[7 := [3; 4]]> {[8 := [9]]} : Ports).
Proof.
  assert (traffic 7 [Send 7 [1; 2; 3]; Send 8 [9]; Recv 7 [0; 0]; Send 7 [4]] ∅ = ([1; 2; 3; 4], [1; 2], <[7 := [3; 4]]> {[8 := [9]]})) as E.
  { vm_compute. reflexivity. }
  split; [exact E|]. pose proof (loopback_is_fifo 7 [Send 7 [1; 2; 3]; Send 8 [9]; Recv 7 [0; 0]; Send 7 [4]] ∅) as H.
  rewrite E in H. apply H. intros q. unfold pending. rewrite lookup_empty. done.
Defined.

Section witness.
Import BitFieldModel.
#[local] Instance all_user : UserMemory := {| manually_alloc_user_str _ _ := true; manually_alloc_page _ := true |}.

Definition stream : Socket := socket_new AF_INET SOCK_STREAM 0.
Definition listener : Socket := set_listening true (set_local (Ip 0 80) stream).

(** Descriptor 1 is a new socket, 2 a listener at port 80; connecting to 127.0.0.1:80. *)
Definition sock_task (m : FdManager (Tower 1) Z) : SockTask (Tower 1) := mkSk m {[ 1 := stream; 2 := listener ]} (mkNet ∅ 0).

Lemma connect_then_accept_witness : ∃ (m : FdManager (Tower 1) Z) nfd w1 w2,
  sys_connect 1 0 16 (ip_addr 80 LOCAL_LOOPBACK_ADDR) (sock_task m) = Ret (inl 0, w1) ∧
  sys_accept4 id 1 2 0 0 0 (repeat 0 16) w1 = Ret (Some (inl nfd, caller 49153 ++ repeat 0 8), w2) ∧
  lowest_closed m nfd ∧
  ∃ n1 n2, sk_write (client_end stream 49153 LOCAL_LOOPBACK_ADDR 80) [104; 105] (s_net w2) = (Some 2, n1) ∧
    sk_read (clonew (server_end listener 49153)) [0; 0; 0] n1 = (Some 2, [104; 105; 0], n2).
Proof.
  destruct (fd_new_spec (BS := w_spec) 0 1 2 18 eq_refl) as (m&_&[Hi _]&Hl&Hat).
  assert (file_at m 1 = Some 1) as H1 by (rewrite Hat by lia; reflexivity).
  assert (file_at m 2 = Some 2) as H2 by (rewrite Hat by lia; reflexivity).
  assert (file_at m 3 = None) as H3 by (rewrite Hat by lia; reflexivity).
  destruct (connect_then_accept (BS := w_spec) (UM := all_user) id (λ _ _, eq_refl) (λ _, eq_refl) (sock_task m) 1 1 stream 2 2 listener
    0 LOCAL_LOOPBACK_ADDR 80 (ip_addr 80 LOCAL_LOOPBACK_ADDR) (repeat 0 16) 3 0 16 0 0 0) as (nfd&pn&w1&w2&Hc&Ha&Hlow&_&_&_&_&_&Hmsg).
  - split; [lia|]. split; [exact H1|]. by vm_compute.
  - split; [lia|]. split; [exact H2|]. by vm_compute.
  - lia.
  - split; [|by vm_compute]. intros q. unfold pending. cbn. rewrite lookup_empty. done.
  - exact Hi.
  - cbn [sock_task s_table]. rewrite Hl. lia.
  - exact H3.
  - done.
  - done.
  - lia.
  - by vm_compute.
  - done.
  - done.
  - exists m, nfd, w1, w2. split; [exact Hc|]. split; [exact Ha|]. split; [exact Hlow|].
    apply (Hmsg [104; 105] [0; 0; 0] 80); [by vm_compute|by vm_compute|by left|done].
Defined.
End witness.
