(* ===== verification/SpinLock.v ===== *)
(** * The spin locks of dependencies/kernel-sync

    [spin.rs]: [SpinMutex], the mutex without the feature [ticket], and
    [mcslock.rs]: [MCSLock], as atomic steps of cores that share their flags.
    Atomic operations take effect one after the other. *)

From S2P Require Import Prelude TicketLock.

(** ** [spin.rs] *)

Module Spin.

(** Where a core is: outside; before the compare-exchange of [lock]; in the
    loop that waits for the flag to look clear; before the compare-exchange of
    [try_lock]; with the guard. *)
Inductive spin_point := Outside | Locking | Polling | Trying | Holding | Panicked.

#[export] Instance spin_point_eq_dec : EqDecision spin_point.
Proof. solve_decision. Defined.

Record SCore := mkSCore { scpu : Cpu; sat : spin_point }.

Record SpinMutex := mkSpin { locked : bool; scores : list SCore }.

Definition spin_new (l : list SCore) : SpinMutex := mkSpin false l.

Definition spin_is_locked (m : SpinMutex) : bool := locked m.

(** [pop_off] on the way out. *)
Definition spin_leave (c : Cpu) : SCore :=
  match pop_off c with Ret c' => mkSCore c' Outside | Panic => mkSCore c Panicked end.

(** The steps of a core.  The weak compare-exchange of [lock] may fail for no
    reason. *)
Inductive spin_act := ALock | ACas (spurious : bool) | APoll | ATry | ATryCas | ADrop.

Section acts.
Context (m : SpinMutex) (i : nat) (c : SCore).

Definition spin_move (l : bool) (c' : SCore) : SpinMutex := mkSpin l (<[i := c']> (scores m)).

Definition spin_lock : SpinMutex := spin_move (locked m) (mkSCore (push_off (scpu c)) Locking).

Definition spin_cas (spurious : bool) : SpinMutex :=
  if negb spurious && negb (locked m) then spin_move true (mkSCore (scpu c) Holding)
  else spin_move (locked m) (mkSCore (scpu c) Polling).

Definition spin_poll : SpinMutex :=
  if spin_is_locked m then m else spin_move (locked m) (mkSCore (scpu c) Locking).

Definition spin_try : SpinMutex := spin_move (locked m) (mkSCore (push_off (scpu c)) Trying).

Definition spin_try_cas : SpinMutex :=
  if negb (locked m) then spin_move true (mkSCore (scpu c) Holding) else spin_move (locked m) (spin_leave (scpu c)).

Definition spin_drop : SpinMutex := spin_move false (spin_leave (scpu c)).
End acts.

(** [None] when the act is not the next one of the core. *)
Definition spin_core_act (m : SpinMutex) (i : nat) (a : spin_act) : option SpinMutex :=
  c ← scores m !! i;
  match a, sat c with
  | ALock, Outside => Some (spin_lock m i c)
  | ACas spurious, Locking => Some (spin_cas m i c spurious)
  | APoll, Polling => Some (spin_poll m i c)
  | ATry, Outside => Some (spin_try m i c)
  | ATryCas, Trying => Some (spin_try_cas m i c)
  | ADrop, Holding => Some (spin_drop m i c)
  | _, _ => None
  end.

Definition spin_step (m m' : SpinMutex) : Prop := ∃ i a, spin_core_act m i a = Some m'.

Fixpoint spin_run (m : SpinMutex) (l : list (nat * spin_act)) : option SpinMutex :=
  match l with
  | [] => Some m
  | (i, a) :: l' => m' ← spin_core_act m i a; spin_run m' l'
  end.

End Spin.

(** ** [mcslock.rs] *)

Module Mcs.

Inductive LockChannel := Normal | Interrupt.

#[export] Instance LockChannel_eq_dec : EqDecision LockChannel.
Proof. solve_decision. Defined.

(** The two flags of [locked]: [locked[Normal]] and [locked[Interrupt]]. *)
Definition mcs_flags := (bool * bool)%type.

Definition mcs_flag (l : mcs_flags) (channel : LockChannel) : bool :=
  match channel with Normal => l.1 | Interrupt => l.2 end.

Definition mcs_set_flag (l : mcs_flags) (channel : LockChannel) (b : bool) : mcs_flags :=
  match channel with Normal => (b, l.2) | Interrupt => (l.1, b) end.

(** Where a thread of execution is: [lock], its waiting loop, or with a guard
    of the channel.  Nothing touches the interrupts. *)
Inductive mcs_point := Outside | Locking (channel : LockChannel) | Polling (channel : LockChannel) | Holding (channel : LockChannel).

#[export] Instance mcs_point_eq_dec : EqDecision mcs_point.
Proof. solve_decision. Defined.

Record MCSLock := mkMcs { locked : mcs_flags; users : list mcs_point }.

Definition mcs_new (l : list mcs_point) : MCSLock := mkMcs (false, false) l.

Definition mcs_is_locked (m : MCSLock) (channel : LockChannel) : bool := mcs_flag (locked m) channel.

Inductive mcs_act :=
| ALock (channel : LockChannel) | ACas (spurious : bool) | APoll | ATry (channel : LockChannel) | ADrop.

Section acts.
Context (m : MCSLock) (i : nat) (channel : LockChannel).

Definition mcs_move (l : mcs_flags) (p : mcs_point) : MCSLock := mkMcs l (<[i := p]> (users m)).

Definition mcs_cas (spurious : bool) : MCSLock :=
  if negb spurious && negb (mcs_flag (locked m) channel)
  then mcs_move (mcs_set_flag (locked m) channel true) (Holding channel)
  else mcs_move (locked m) (Polling channel).

Definition mcs_poll : MCSLock :=
  if mcs_is_locked m channel then m else mcs_move (locked m) (Locking channel).

Definition mcs_try_lock : MCSLock :=
  if negb (mcs_flag (locked m) channel)
  then mcs_move (mcs_set_flag (locked m) channel true) (Holding channel)
  else mcs_move (locked m) Outside.

Definition mcs_drop : MCSLock := mcs_move (mcs_set_flag (locked m) channel false) Outside.
End acts.

Definition mcs_user_act (m : MCSLock) (i : nat) (a : mcs_act) : option MCSLock :=
  p ← users m !! i;
  match a, p with
  | ALock channel, Outside => Some (mcs_move m i (locked m) (Locking channel))
  | ACas spurious, Locking channel => Some (mcs_cas m i channel spurious)
  | APoll, Polling channel => Some (mcs_poll m i channel)
  | ATry channel, Outside => Some (mcs_try_lock m i channel)
  | ADrop, Holding channel => Some (mcs_drop m i channel)
  | _, _ => None
  end.

Definition mcs_step (m m' : MCSLock) : Prop := ∃ i a, mcs_user_act m i a = Some m'.

Fixpoint mcs_run (m : MCSLock) (l : list (nat * mcs_act)) : option MCSLock :=
  match l with
  | [] => Some m
  | (i, a) :: l' => m' ← mcs_user_act m i a; mcs_run m' l'
  end.

End Mcs.

(** ** Correctness of the spin locks

    The number of guards in the hands of cores is the lock's flag, read as a
    number: a [SpinMutex] has one holder at most and is locked exactly when it
    has one.  The same holds of each channel of an [MCSLock], and not of the
    two together: they guard one value. *)

(** ** Counting holders *)

Section count.
Context {A : Type} (P : A → bool).

Fixpoint holders (l : list A) : nat :=
  match l with [] => 0 | x :: l' => Nat.b2n (P x) + holders l' end.

Lemma holders_insert (l : list A) (i : nat) (x x' : A) : l !! i = Some x →
  (holders (<[i := x']> l) + Nat.b2n (P x) = holders l + Nat.b2n (P x'))%nat.
Proof.
  revert i. induction l as [|y l IH]; intros [|i] Hi; try done.
  - injection Hi as ->. cbn. lia.
  - specialize (IH i Hi). change (<[S i := x']> (y :: l)) with (y :: <[i := x']> l). cbn [holders]. lia.
Qed.

Lemma holders_one (l : list A) (i : nat) (x : A) : l !! i = Some x → P x = true → (1 <= holders l)%nat.
Proof.
  revert i. induction l as [|y l IH]; intros [|i] Hi HP; try done; cbn in *.
  - injection Hi as ->. rewrite HP. cbn. lia.
  - pose proof (IH i Hi HP). lia.
Qed.

(** The flag counts the holders. *)
Definition flag_counts (b : bool) (l : list A) : Prop := holders l = Nat.b2n b.

Lemma counts_move (b b' : bool) l i x x' : flag_counts b l → l !! i = Some x →
  (Nat.b2n b' + Nat.b2n (P x) = Nat.b2n b + Nat.b2n (P x'))%nat → flag_counts b' (<[i := x']> l).
Proof. unfold flag_counts. intros Hf Hi He. pose proof (holders_insert l i x x' Hi). lia. Qed.

Lemma counts_locked b l i x : flag_counts b l → l !! i = Some x → P x = true → b = true.
Proof. unfold flag_counts. intros Hf Hi HP. pose proof (holders_one l i x Hi HP). destruct b; [done|cbn in *; lia]. Qed.

(** One holder at most. *)
Lemma counts_unique b l i j x y : flag_counts b l → l !! i = Some x → l !! j = Some y →
  P x = true → P y = true → i = j.
Proof.
  unfold flag_counts. intros Hf. assert (holders l <= 1)%nat as Hle by (destruct b; cbn in *; lia). clear Hf.
  revert i j Hle. induction l as [|z l IH]; intros [|i] [|j] Hle Hi Hj Hx Hy; try done; cbn in *.
  - injection Hi as ->. rewrite Hx in Hle. cbn in Hle. pose proof (holders_one l j y Hj Hy). lia.
  - injection Hj as ->. rewrite Hy in Hle. cbn in Hle. pose proof (holders_one l i x Hi Hx). lia.
  - f_equal. apply IH; try done. lia.
Qed.
End count.

(** ** [SpinMutex] *)

Section spin.
Import Spin.

Definition holding (c : SCore) : bool := bool_decide (sat c = Holding).

(** A core whose interrupts were [b] outside. *)
Definition score_ok (b : bool) (c : SCore) : Prop :=
  match sat c with
  | Outside => noff (scpu c) = 0 ∧ sie (scpu c) = b
  | Panicked => False
  | _ => noff (scpu c) = 1 ∧ sie (scpu c) = false ∧ interrupt_enable (scpu c) = b
  end.

Record spin_ok (bs : list bool) (m : SpinMutex) : Prop := {
  sp_counts : flag_counts holding (locked m) (scores m);
  sp_cores : Forall2 score_ok bs (scores m) }.

Lemma entered_ok b c p : noff (scpu c) = 0 → sie (scpu c) = b → p ≠ Outside → p ≠ Panicked →
  score_ok b (mkSCore (push_off (scpu c)) p).
Proof. destruct c as [[k e s] q]. cbn. intros -> ->. unfold score_ok. cbn. by destruct p. Qed.

Lemma left_ok b c : noff (scpu c) = 1 → sie (scpu c) = false → interrupt_enable (scpu c) = b →
  score_ok b (spin_leave (scpu c)) ∧ sat (spin_leave (scpu c)) = Outside.
Proof.
  destruct c as [[k e s] p]. cbn. intros -> -> ->. unfold spin_leave, pop_off. cbn. unfold score_ok. cbn. by destruct b.
Qed.

(** Moving core [i] keeps the invariant. *)
Lemma move_ok bs m i c c' l : spin_ok bs m → scores m !! i = Some c →
  (Nat.b2n l + Nat.b2n (holding c) = Nat.b2n (locked m) + Nat.b2n (holding c'))%nat →
  (∀ b, score_ok b c → score_ok b c') → spin_ok bs (spin_move m i l c').
Proof.
  intros [Hf Hc] Hi He Hok. split; cbn [locked scores spin_move]; [by eapply counts_move|].
  destruct (Forall2_lookup_r _ _ _ _ _ Hc Hi) as (b&Hb&Hcb).
  rewrite <- (list_insert_id bs i b) by done. apply Forall2_insert; [done|by apply Hok].
Qed.

(** Moves that keep the interrupts as they are, enter and leave. *)
Lemma stay_ok bs m i c l p : spin_ok bs m → scores m !! i = Some c →
  (Nat.b2n l + Nat.b2n (holding c) = Nat.b2n (locked m) + Nat.b2n (bool_decide (p = Holding)))%nat →
  sat c ≠ Outside → p ≠ Outside → p ≠ Panicked → spin_ok bs (spin_move m i l (mkSCore (scpu c) p)).
Proof.
  intros Hok Hi He H0 H1 H2. eapply move_ok; [done|exact Hi|done|]. intros b. unfold score_ok. cbn.
  by destruct (sat c), p.
Qed.

Lemma enter_ok bs m i c p : spin_ok bs m → scores m !! i = Some c → sat c = Outside → p = Locking ∨ p = Trying →
  spin_ok bs (spin_move m i (locked m) (mkSCore (push_off (scpu c)) p)).
Proof.
  intros Hok Hi Hat Hp. eapply move_ok; [done|exact Hi| |].
  - unfold holding. rewrite Hat. by destruct Hp as [-> | ->].
  - intros b. unfold score_ok at 1. rewrite Hat. intros [??]. apply entered_ok; try done; by destruct Hp as [-> | ->].
Qed.

Lemma spin_exit_ok bs m i c l : spin_ok bs m → scores m !! i = Some c → sat c ≠ Outside →
  (Nat.b2n l + Nat.b2n (holding c) = Nat.b2n (locked m))%nat → spin_ok bs (spin_move m i l (spin_leave (scpu c))).
Proof.
  intros Hok Hi Hat He. destruct (Forall2_lookup_r _ _ _ _ _ (sp_cores _ _ Hok) Hi) as (b0&_&Hb0).
  assert (∀ b, score_ok b c → score_ok b (spin_leave (scpu c)) ∧ sat (spin_leave (scpu c)) = Outside) as Hleave.
  { intros b. unfold score_ok at 1. destruct (sat c); try done; intros (?&?&?); by apply left_ok. }
  eapply move_ok; [done|exact Hi| |intros b Hb; by apply Hleave].
  replace (holding (spin_leave (scpu c))) with false; [cbn [Nat.b2n]; lia|].
  unfold holding. by destruct (Hleave b0 Hb0) as [_ ->].
Qed.

Lemma spin_act_ok bs m i a m' : spin_ok bs m → spin_core_act m i a = Some m' → spin_ok bs m'.
Proof.
  intros Hok. unfold spin_core_act. destruct (scores m !! i) as [c|] eqn:Hi; [|done]. cbn [mbind option_bind].
  assert (holding c = bool_decide (sat c = Holding)) as Hh by done.
  unfold spin_lock, spin_cas, spin_poll, spin_try, spin_try_cas, spin_drop, spin_is_locked.
  destruct a as [|[]| | | |], (sat c) eqn:Hat; try done; cbn [negb andb];
    try (destruct (locked m) eqn:Hl; cbn [negb]); intros [= <-]; try done; rewrite <- ?Hl.
  all: try (apply enter_ok; by eauto).
  all: try (apply stay_ok; try done; rewrite ?Hat, ?Hh, ?Hl; done).
  all: try (apply spin_exit_ok; try done; rewrite ?Hat, ?Hh, ?Hl; done).
  exfalso. pose proof (counts_locked holding _ _ i c (sp_counts _ _ Hok) Hi Hh). congruence.
Qed.

(** The mutex no core holds, interrupts as the cores have them. *)
Definition spin_fresh (l : list SCore) : Prop := Forall (λ c, sat c = Outside ∧ noff (scpu c) = 0) l.

Lemma spin_new_ok l : spin_fresh l → spin_ok ((λ c, sie (scpu c)) <$> l) (spin_new l).
Proof.
  intros Hf. split; cbn [spin_new locked scores].
  - unfold flag_counts. induction Hf as [|c l [Hc _] _ IH]; [done|]. cbn. unfold holding. by rewrite Hc.
  - induction Hf as [|c l [Hc Hn] _ IH]; cbn; constructor; [|done]. unfold score_ok. by rewrite Hc.
Qed.

Lemma spin_reach_ok l m : spin_fresh l → rtc spin_step (spin_new l) m → spin_ok ((λ c, sie (scpu c)) <$> l) m.
Proof.
  intros Hf%spin_new_ok Hr. revert Hf. induction Hr as [|m0 m1 m2 (i&a&Ha) _ IH]; [done|].
  intros Hok. apply IH. by eapply spin_act_ok.
Qed.

(** However the cores take turns, one of them at most holds the [SpinMutex],
    its flag is up exactly then, a holder has its interrupts off, no core
    panics, and a core that is out again has the interrupts it came with. *)
Lemma spin_mutex_excludes l m : spin_fresh l → rtc spin_step (spin_new l) m →
  (∀ i j c d, scores m !! i = Some c → scores m !! j = Some d → sat c = Holding → sat d = Holding → i = j) ∧
  (∀ i c, scores m !! i = Some c → sat c = Holding → spin_is_locked m = true ∧ sie (scpu c) = false) ∧
  (∀ i c, scores m !! i = Some c → sat c ≠ Panicked) ∧
  (∀ i c c0, scores m !! i = Some c → l !! i = Some c0 → sat c = Outside → sie (scpu c) = sie (scpu c0)).
Proof.
  intros Hf [Hc Hs]%spin_reach_ok; [|done].
  assert (∀ i c, scores m !! i = Some c → ∃ b, ((λ c, sie (scpu c)) <$> l) !! i = Some b ∧ score_ok b c) as Hat
    by (intros i c Hi; by eapply Forall2_lookup_r).
  split_and!.
  - intros i j c d Hi Hj H1 H2. eapply (counts_unique holding); [exact Hc|exact Hi|exact Hj| |]; by apply bool_decide_true.
  - intros i c Hi H1. split; [by eapply (counts_locked holding); [exact Hc|exact Hi|apply bool_decide_true]|].
    destruct (Hat i c Hi) as (b&_&Hb). unfold score_ok in Hb. rewrite H1 in Hb. naive_solver.
  - intros i c Hi H1. destruct (Hat i c Hi) as (b&_&Hb). unfold score_ok in Hb. by rewrite H1 in Hb.
  - intros i c c0 Hi H0 H1. destruct (Hat i c Hi) as (b&Hb&Hok). rewrite list_lookup_fmap, H0 in Hb.
    injection Hb as <-. unfold score_ok in Hok. rewrite H1 in Hok. naive_solver.
Qed.

(** A free mutex is taken in one attempt, by [lock] when its compare-exchange
    does not fail for no reason, and by [try_lock]. *)
Lemma free_spin_mutex_taken m i c : scores m !! i = Some c → locked m = false →
  (sat c = Outside → ∃ m' c', spin_run m [(i, ALock); (i, ACas false)] = Some m' ∧ scores m' !! i = Some c' ∧
     sat c' = Holding) ∧
  (sat c = Outside → ∃ m' c', spin_run m [(i, ATry); (i, ATryCas)] = Some m' ∧ scores m' !! i = Some c' ∧
     sat c' = Holding).
Proof.
  intros Hi Hl. pose proof (lookup_lt_Some _ _ _ Hi) as Hlt.
  split; intros Hat; eexists _, _; (split; [|split]).
  all: try (cbn [spin_run spin_core_act]; unfold spin_core_act, spin_lock, spin_try, spin_cas, spin_try_cas, spin_move; rewrite Hi;
    cbn [mbind option_bind]; rewrite Hat; cbn [scores locked mbind option_bind];
    rewrite list_lookup_insert_eq by done; cbn [mbind option_bind sat]; rewrite Hl; cbn [negb andb]; reflexivity).
  all: try (cbn [scores]; rewrite list_lookup_insert_eq; [done|by rewrite length_insert]).
  all: done.
Qed.
End spin.

(** ** [MCSLock] *)

Section mcs.
Import Mcs.
Implicit Types channel : LockChannel.

Definition holding_on channel (p : mcs_point) : bool := bool_decide (p = Holding channel).

Definition mcs_ok (m : MCSLock) : Prop := ∀ channel, flag_counts (holding_on channel) (mcs_flag (locked m) channel) (users m).

Lemma flag_set_same l channel b : mcs_flag (mcs_set_flag l channel b) channel = b.
Proof. by destruct channel. Qed.

Lemma flag_set_other l channel channel' b : channel' ≠ channel → mcs_flag (mcs_set_flag l channel b) channel' = mcs_flag l channel'.
Proof. by destruct channel, channel'. Qed.

(** A user that takes or gives one channel leaves the other alone. *)
Lemma mcs_turn_ok m i p p' channel b : mcs_ok m → users m !! i = Some p →
  (Nat.b2n b + Nat.b2n (holding_on channel p) = Nat.b2n (mcs_flag (locked m) channel) + Nat.b2n (holding_on channel p'))%nat →
  (∀ channel', channel' ≠ channel → holding_on channel' p' = holding_on channel' p) →
  mcs_ok (mcs_move m i (mcs_set_flag (locked m) channel b) p').
Proof.
  intros Hok Hi He Hother channel'. cbn [mcs_move locked users]. destruct (decide (channel' = channel)) as [->|Hne].
  - rewrite flag_set_same. by eapply counts_move; [apply (Hok channel)|exact Hi|].
  - rewrite flag_set_other by done. eapply counts_move; [apply (Hok channel')|exact Hi|]. by rewrite Hother.
Qed.

Lemma mcs_stay_ok m i p p' : mcs_ok m → users m !! i = Some p →
  (∀ channel, holding_on channel p' = holding_on channel p) → mcs_ok (mcs_move m i (locked m) p').
Proof. intros Hok Hi Hs channel. eapply counts_move; [apply (Hok channel)|exact Hi|]. by rewrite Hs. Qed.

Lemma holding_on_point channel p : holding_on channel p =
  match p with Holding ch => bool_decide (ch = channel) | _ => false end.
Proof. unfold holding_on. destruct p; repeat case_bool_decide; naive_solver. Qed.

Lemma mcs_act_ok m i a m' : mcs_ok m → mcs_user_act m i a = Some m' → mcs_ok m'.
Proof.
  intros Hok. unfold mcs_user_act. destruct (users m !! i) as [p|] eqn:Hi; [|done]. cbn [mbind option_bind].
  unfold mcs_cas, mcs_poll, mcs_try_lock, mcs_drop, mcs_is_locked.
  destruct a as [ch|[]| |ch|], p as [|ch'|ch'|ch'] eqn:Hp; try done; cbn [negb andb];
    try (destruct (mcs_flag _ _) eqn:Hl; cbn [negb]); intros [= <-]; try done.
  all: try (eapply mcs_stay_ok; [done|exact Hi|intros ch0; by rewrite !holding_on_point]).
  all: eapply mcs_turn_ok; [done|exact Hi| |intros ch0 Hne; rewrite !holding_on_point; try done; by case_bool_decide].
  all: rewrite !holding_on_point, ?Hl, ?bool_decide_true by done; try done.
  by rewrite (counts_locked (holding_on ch') _ _ i p (Hok ch')); [|by rewrite Hp|rewrite holding_on_point, Hp; by apply bool_decide_true].
Qed.

(** Each channel has one holder at most, and its flag is up exactly for it. *)
Lemma mcs_channel_excludes n m : rtc mcs_step (mcs_new (replicate n Outside)) m →
  (∀ channel i j, users m !! i = Some (Holding channel) → users m !! j = Some (Holding channel) → i = j) ∧
  (∀ channel i, users m !! i = Some (Holding channel) → mcs_is_locked m channel = true).
Proof.
  assert (mcs_ok (mcs_new (replicate n Outside))) as H0.
  { intros channel. unfold flag_counts. cbn. replace (mcs_flag _ _) with false by (by destruct channel).
    induction n as [|n IH]; [done|]. cbn. by rewrite holding_on_point, IH. }
  intros Hr. assert (mcs_ok m) as Hok.
  { revert H0. induction Hr as [|m0 m1 m2 (i&a&Ha) _ IH]; [done|]. intros Hok. apply IH. by eapply mcs_act_ok. }
  split; intros channel i; [intros j Hi Hj|intros Hi].
  - by eapply (counts_unique (holding_on channel)); [apply (Hok channel)|exact Hi|exact Hj| |]; apply bool_decide_true.
  - by eapply (counts_locked (holding_on channel)); [apply (Hok channel)|exact Hi|apply bool_decide_true].
Qed.

(** The two channels do not exclude each other: two guards of the one value,
    one taken on each channel, are there at the same time. *)
Lemma mcs_channels_overlap : ∃ m, rtc mcs_step (mcs_new [Outside; Outside]) m ∧
  users m = [Holding Normal; Holding Interrupt].
Proof.
  eexists. split; [|shelve].
  eapply rtc_l; [exists 0%nat, (ATry Normal); reflexivity|]. eapply rtc_l; [exists 1%nat, (ATry Interrupt); reflexivity|].
  apply rtc_refl. Unshelve. reflexivity.
Qed.
End mcs.
