(* ===== verification/LazySpec.v ===== *)
(** * The bytes of a lazy area

    Reading and writing an area whose pages come when they are needed is
    reading and writing one string of bytes, zero where no page is yet. *)

From S2P Require Import Prelude Bytes BitAlloc BitAllocSpec Addr PageFrame PageFrameSpec Errors PageTable PageTableSpec.
From S2P Require Import FatIo BaseFile FatFile FatFileSpec RangeMap RangeMapSpec VmArea VmAreaSpec.

(** ** Strings in blocks of one page *)

Lemma len_concat (L : list (list Z)) : Forall (λ b, len b = 4096) L → len (concat L) = 4096 * Z.of_nat (length L).
Proof. induction 1 as [|b L Hb _ IH]; [done|]. cbn [concat length]. rewrite len_app, IH, Hb. lia. Qed.

Section block.
Context (L : list (list Z)) (i : nat) (b : list Z).
Context (HL : Forall (λ b, len b = 4096) L) (Hi : L !! i = Some b).

(** Block [i] of the string, with what is before and behind it. *)
Lemma concat_at : ∃ pre post, concat L = pre ++ b ++ post ∧ len pre = 4096 * Z.of_nat i ∧ len b = 4096 ∧
  ∀ b', concat (<[i := b']> L) = pre ++ b' ++ post.
Proof.
  pose proof (lookup_lt_Some _ _ _ Hi) as Hlt. exists (concat (take i L)), (concat (drop (S i) L)).
  assert (∀ b', concat (<[i := b']> L) = concat (take i L) ++ b' ++ concat (drop (S i) L)) as Hins.
  { intros b'. rewrite insert_take_drop by done. by rewrite concat_app. }
  split_and!; [by rewrite <- (Hins b), list_insert_id|..|done].
  - rewrite len_concat by (by apply Forall_take). rewrite length_take_le; lia.
  - rewrite list.Forall_lookup in HL. by apply (HL i).
Qed.

Lemma block_bytes o n : 0 <= o → 0 <= n → o + n <= 4096 → bytes_at o n b = bytes_at (4096 * Z.of_nat i + o) n (concat L).
Proof.
  intros Ho Hn Hon. destruct concat_at as (pre&post&Hc&Hpre&Hb&_).
  rewrite Hc, <- Hpre, bytes_at_app_r, bytes_at_app_l by lia. done.
Qed.

Lemma block_splice o bs : 0 <= o → o + len bs <= 4096 →
  concat (<[i := splice o bs b]> L) = splice (4096 * Z.of_nat i + o) bs (concat L).
Proof.
  intros Ho Hbs. destruct concat_at as (pre&post&Hc&Hpre&Hb&Hins).
  rewrite Hins, Hc, <- Hpre, splice_app_r, splice_app_l by lia. done.
Qed.
End block.

(** ** Areas *)

Section lazy_spec.
Context {A : Type} {ops : BitAlloc A} {V : BitAllocView A} {BS : BitAllocSpec A}.
Context {cfg : PageFrameConfig} {CO : ConfigOk cfg (CAP A)}.
Context {FW F : Type} {HF : File FW F}.
Context (R : Z → bool) (others : list Frame).

Implicit Types p : PmAreaLazy F.
Implicit Types w : VmWorld A FW.

Definition slot_bytes (slot : option PFrame) : list Z := match slot with Some pf => pf_data pf | None => zero_bytes end.
Definition area_bytes p : list Z := concat (slot_bytes <$> lz_frames p).
Definition area_frames p : list Frame := omap (option_map pf_frame) (lz_frames p).

(** Every page there is one page long; the frames are the area's own. *)
Definition lazy_ok p w : Prop :=
  Forall (λ slot, len (slot_bytes slot) = 4096) (lz_frames p) ∧ frames_inv R (vw_alloc w) (area_frames p ++ others).

Lemma slot_blocks p w : lazy_ok p w → Forall (λ b, len b = 4096) (slot_bytes <$> lz_frames p).
Proof. intros [H _]. by apply list.Forall_fmap. Qed.

Lemma len_area_bytes p w : lazy_ok p w → len (area_bytes p) = 4096 * Z.of_nat (length (lz_frames p)).
Proof. intros H. unfold area_bytes. rewrite len_concat by (by eapply slot_blocks). by rewrite length_fmap. Qed.

Lemma area_frames_set p i slot pf : lz_frames p !! i = Some slot →
  match slot with Some pf0 => pf_frame pf0 = pf_frame pf | None => True end →
  area_frames (set_slot p (Z.of_nat i) (Some pf)) ≡ₚ
    match slot with Some _ => area_frames p | None => pf_frame pf :: area_frames p end.
Proof.
  intros Hi Hpf. unfold area_frames, set_slot. cbn [lz_frames]. rewrite Nat2Z.id.
  assert (omap (option_map pf_frame) (lz_frames p) = omap (option_map pf_frame) (take i (lz_frames p)) ++
    match slot with Some pf0 => [pf_frame pf0] | None => [] end ++ omap (option_map pf_frame) (drop (S i) (lz_frames p))) as ->.
  { rewrite <- (take_drop_middle _ _ _ Hi) at 1. rewrite omap_app. by destruct slot. }
  rewrite insert_take_drop by (by eapply lookup_lt_Some). rewrite omap_app. cbn. destruct slot as [pf0|]; cbn.
  - by rewrite Hpf.
  - by rewrite <- Permutation_middle.
Qed.

(** A page that is there gets other bytes; one that is not comes with them. *)
Lemma set_slot_ok p w w' i slot pf bs o : lazy_ok p w → lz_frames p !! i = Some slot → pf_data pf = splice o bs (slot_bytes slot) →
  0 <= o → o + len bs <= 4096 → match slot with Some pf0 => pf_frame pf0 = pf_frame pf | None => True end →
  frames_inv R (vw_alloc w') (match slot with Some _ => area_frames p | None => pf_frame pf :: area_frames p end ++ others) →
  lazy_ok (set_slot p (Z.of_nat i) (Some pf)) w' ∧
  area_bytes (set_slot p (Z.of_nat i) (Some pf)) = splice (4096 * Z.of_nat i + o) bs (area_bytes p).
Proof.
  intros Hok Hi Hpf Ho Hbs Hsame Hinv. pose proof Hok as [Hfull _]. split; [split|].
  - cbn [set_slot lz_frames]. rewrite Nat2Z.id. apply Forall_insert; [done|]. cbn [slot_bytes]. rewrite Hpf, len_splice.
    rewrite list.Forall_lookup in Hfull. by apply (Hfull i).
  - eapply frames_inv_perm; [|exact Hinv]. by rewrite (area_frames_set p i slot pf Hi Hsame).
  - unfold area_bytes. cbn [set_slot lz_frames]. rewrite Nat2Z.id, list_fmap_insert. cbn [slot_bytes]. rewrite Hpf.
    apply block_splice; [by eapply slot_blocks|by rewrite list_lookup_fmap, Hi|done|done].
Qed.

Lemma no_free_count (a : A) : (∀ i, free a i = false) → free_count a = 0.
Proof.
  intros Hno. unfold free_count. rewrite (sum_below_ext _ (λ _, 0)) by (intros; by rewrite Hno).
  induction (Z.to_nat (CAP A)) as [|n IH]; simpl; [done|]. by rewrite IH.
Qed.

(** One turn of [for_each_frame]: as many bytes as the page has, unless the
    memory runs out. *)
Definition turn_len (start n : Z) : Z := Z.min (4096 - start mod 4096) n.

Lemma turn_ok {S} (op : S → Z → list Z → S * list Z) fuel st p start n processed w :
  lazy_ok p w → 0 <= start → 0 < n → start + n <= 4096 * Z.of_nat (length (lz_frames p)) →
  4096 * Z.of_nat (length (lz_frames p)) < 2 ^ 63 → 0 <= processed → processed + n < 2 ^ 63 →
  let k := turn_len start n in
  let '(st', bs) := op st processed (bytes_at start k (area_bytes p)) in
  len bs = k →
  (∃ p' w', for_each_loop op (Datatypes.S fuel) p st start n processed w =
       for_each_loop op fuel p' st' (start + k) (n - k) (processed + k) w' ∧
     lazy_ok p' w' ∧ length (lz_frames p') = length (lz_frames p) ∧ lz_backend p' = lz_backend p ∧
     area_bytes p' = splice start bs (area_bytes p) ∧ vw_pt w' = vw_pt w ∧ vw_mem w' = vw_mem w ∧ vw_files w' = vw_files w ∧
     (∃ pf, lz_frames p' = <[Z.to_nat (start / 4096) := Some pf]> (lz_frames p)) ∧
     (lz_frames p !! Z.to_nat (start / 4096) = Some None → free_count (vw_alloc w') = free_count (vw_alloc w) - 1)) ∨
  (for_each_loop op (Datatypes.S fuel) p st start n processed w = Ret ((OsErr Memory_RunOutOfMemory, st, p), w) ∧
     ∀ i, free (vw_alloc w) i = false).
Proof.
  intros Hok Hs Hn Hsn Hmax Hp Hpn k. destruct (op st processed _) as [st' bs] eqn:Hop. intros Hlen.
  pose proof (Z.mod_pos_bound start 4096 ltac:(lia)) as Hmod.
  assert (0 < k <= 4096 - start mod 4096 ∧ k <= n) as Hk by (unfold k, turn_len; lia).
  set (i := Z.to_nat (start / 4096)). assert (Z.of_nat i = start / 4096) as Hi by (unfold i; dlia).
  assert (is_Some (lz_frames p !! i)) as [slot Hslot] by (apply lookup_lt_is_Some; dlia).
  cbn [for_each_loop]. destruct (Z.ltb_spec 0 n); [|lia].
  rewrite align_down_div by (unfold word; lia). replace (start - start / 4096 * 4096) with (start mod 4096) by dlia.
  unfold PAGE_SIZE. rewrite !(wrap_small 64) by (unfold word; lia). fold (turn_len start n). fold k.
  rewrite Z.div_mul by lia. rewrite <- Hi.
  assert (lift (W := VmWorld A FW) (index (lz_frames p) (Z.of_nat i)) w = Ret (slot, w)) as Hidx
    by (unfold lift; by rewrite (index_nat _ _ _ Hslot)).
  step Hidx.
  assert (4096 * Z.of_nat i + start mod 4096 = start) as Hat by dlia.
  assert (op st processed (bytes_at (start mod 4096) k (slot_bytes slot)) = (st', bs)) as Hop'.
  { rewrite <- Hop. f_equal. unfold area_bytes. rewrite <- Hat at 2. apply block_bytes; try lia.
    - by eapply slot_blocks.
    - by rewrite list_lookup_fmap, Hslot. }
  assert (∀ pf w', pf_data pf = slot_bytes slot → match slot with Some pf0 => pf_frame pf0 = pf_frame pf | None => True end →
    frames_inv R (vw_alloc w') (match slot with Some _ => area_frames p | None => pf_frame pf :: area_frames p end ++ others) →
    let p' := set_slot p (Z.of_nat i) (Some (mkPFrame (pf_frame pf) (splice (start mod 4096) bs (pf_data pf)))) in
    lazy_ok p' w' ∧ length (lz_frames p') = length (lz_frames p) ∧ area_bytes p' = splice start bs (area_bytes p) ∧
    ∃ pf', lz_frames p' = <[i := Some pf']> (lz_frames p)) as Hput.
  { intros pf w' Hpf Hsame Hinv p'. rewrite <- Hat at 1.
    destruct (set_slot_ok p w w' i slot (mkPFrame (pf_frame pf) (splice (start mod 4096) bs (pf_data pf))) bs (start mod 4096))
      as [H1 H2]; try done; try lia; [by cbn; rewrite Hpf|]. split_and!; [exact H1| |exact H2|].
    - unfold p', set_slot. cbn [lz_frames]. by rewrite length_insert.
    - unfold p', set_slot. cbn [lz_frames]. rewrite Nat2Z.id. by eexists. }
  destruct slot as [pf|].
  - left. unfold mbind at 1, M_bind at 1. unfold mret at 1, M_ret at 1. cbv beta iota. cbn [slot_bytes] in Hop'. rewrite Hop'.
    destruct (Hput pf w eq_refl eq_refl (proj2 Hok)) as (H1&H2&H3&H4). eexists _, w. fold i. rewrite Hslot. by split_and!.
  - destruct (frame_new_spec R (vw_alloc w) _ (proj2 Hok)) as [(fr&al&Hnew&Hinv&Hfr1)|[Hnew Hno]].
    + left. unfold mbind at 1, M_bind at 1. unfold mbind at 1, M_bind at 1. rewrite (on_alloc_ok _ _ _ _ Hnew).
      unfold mret at 1, M_ret at 1. cbv beta iota. cbn [option_map pf_data pf_frame]. cbn [slot_bytes] in Hop'. rewrite Hop'.
      destruct (Hput (mkPFrame fr zero_bytes) (mkVmWorld (vw_pt w) al (vw_mem w) (vw_files w)) eq_refl I Hinv) as (H1&H2&H3&H4).
      eexists _, _. fold i. split_and!; try done. intros _. cbn [vw_alloc].
      pose proof (frames_count R _ _ (proj2 Hok)) as Hc. pose proof (frames_count R _ _ Hinv) as Hc'. cbn [held] in Hc'. lia.
    + right. split; [|done]. unfold mbind at 1, M_bind at 1. unfold mbind at 1, M_bind at 1. rewrite (on_alloc_ok _ _ _ _ Hnew).
      by destruct w.
Qed.

(** What a loop over the bytes from [start] on leaves: an answer [good], or
    the memory ran out. *)
Definition loop_done p w (r : OSResult Z) p' w' (good : Prop) : Prop :=
  lazy_ok p' w' ∧ length (lz_frames p') = length (lz_frames p) ∧ lz_backend p' = lz_backend p ∧
  vw_pt w' = vw_pt w ∧ vw_mem w' = vw_mem w ∧ vw_files w' = vw_files w ∧
  (good ∨ r = OsErr Memory_RunOutOfMemory ∧ ∀ i, free (vw_alloc w') i = false).

Definition fits p (start n processed : Z) : Prop :=
  0 <= start ∧ 0 <= n ∧ start + n <= 4096 * Z.of_nat (length (lz_frames p)) ∧
  4096 * Z.of_nat (length (lz_frames p)) < 2 ^ 63 ∧ 0 <= processed ∧ processed + n < 2 ^ 63.

Definition write_op (src : list Z) (_ : unit) (processed : Z) (bs : list Z) : unit * list Z :=
  (tt, bytes_at processed (len bs) src).

Lemma turn_len_bounds start n : 0 < n → 0 < turn_len start n <= n.
Proof. intros. unfold turn_len. pose proof (Z.mod_pos_bound start 4096 ltac:(lia)). lia. Qed.

Lemma lazy_write_loop_ok src fuel : ∀ p start n processed w, lazy_ok p w → fits p start n processed →
  processed + n = len src → (Z.to_nat n <= fuel)%nat →
  ∃ r p' w', for_each_loop (write_op src) fuel p tt start n processed w = Ret ((r, tt, p'), w') ∧
    loop_done p w r p' w' (r = OsOk (processed + n) ∧
      area_bytes p' = splice start (bytes_at processed n src) (area_bytes p)).
Proof.
  induction fuel as [|fuel IH]; intros p start n processed w Hok (H1&H2&H3&H4&H5&H6) Hsrc Hfuel.
  { exists (OsOk processed), p, w. split; [done|]. split_and!; try done. left.
    assert (n = 0) as -> by lia. rewrite bytes_at_0, splice_nil. split; [f_equal; lia|done]. }
  destruct (decide (n = 0)) as [->|Hn].
  { exists (OsOk processed), p, w. split; [done|]. split_and!; try done. left.
    rewrite bytes_at_0, splice_nil. split; [f_equal; lia|done]. }
  pose proof (turn_len_bounds start n ltac:(lia)) as Hk. pose proof (len_area_bytes p w Hok) as Hla.
  pose proof (turn_ok (write_op src) fuel tt p start n processed w Hok H1 ltac:(lia) H3 H4 H5 H6) as Ht.
  cbn zeta in Ht. unfold write_op at 1 in Ht. rewrite (len_bytes_at start) in Ht by lia. set (k := turn_len start n) in *.
  destruct Ht as [(p1&w1&Hrun&Hok1&Hl1&Hb1&Ha1&Hpt1&Hm1&Hf1&_)|[Hrun Hno]]; [apply len_bytes_at; lia| |].
  - destruct (IH p1 (start + k) (n - k) (processed + k) w1 Hok1) as (r&p2&w2&Hrun2&Hok2&Hl2&Hb2&Hpt2&Hm2&Hf2&Hd);
      [unfold fits; rewrite Hl1; lia|lia|lia|].
    exists r, p2, w2. split; [by rewrite Hrun|]. split_and!; try (done || congruence).
    destruct Hd as [[-> Hd]|Hd]; [left|by right]. split; [f_equal; lia|]. rewrite Hd, Ha1.
    replace n with (k + (n - k)) at 2 by lia. rewrite (bytes_at_app processed) by lia.
    rewrite splice_app by (rewrite ?len_app, ?len_bytes_at by lia; lia). by rewrite len_bytes_at by lia.
  - exists (OsErr Memory_RunOutOfMemory), p, w. split; [exact Hrun|]. split_and!; try done. by right.
Qed.

(** The pages that [n] bytes from [start] on are on. *)
Definition pages_under (start n : Z) : Z := if n =? 0 then 0 else (start + n + 4095) / 4096 - start / 4096.

(** Where no page is there yet, the memory runs out when there are fewer free
    frames than pages to write in. *)
Lemma lazy_write_loop_room src fuel : ∀ p start n processed w r p' w', lazy_ok p w → fits p start n processed →
  processed + n = len src → (Z.to_nat n <= fuel)%nat →
  (∀ i slot, start / 4096 <= Z.of_nat i → lz_frames p !! i = Some slot → slot = None) →
  for_each_loop (write_op src) fuel p tt start n processed w = Ret ((r, tt, p'), w') →
  r = OsErr Memory_RunOutOfMemory ↔ free_count (vw_alloc w) < pages_under start n.
Proof.
  induction fuel as [|fuel IH]; intros p start n processed w r p' w' Hok (H1&H2&H3&H4&H5&H6) Hsrc Hfuel Hnone Hr.
  { injection Hr as <- _ _. assert (n = 0) as -> by lia. cbn. pose proof (free_count_bound (vw_alloc w)).
    split; [done|lia]. }
  pose proof (free_count_bound (vw_alloc w)) as Hfc. unfold pages_under.
  destruct (Z.eqb_spec n 0) as [->|Hn].
  { injection Hr as <- _ _. split; [done|lia]. }
  pose proof (turn_len_bounds start n ltac:(lia)) as Hk. pose proof (len_area_bytes p w Hok) as Hla.
  pose proof (turn_ok (write_op src) fuel tt p start n processed w Hok H1 ltac:(lia) H3 H4 H5 H6) as Ht.
  cbn zeta in Ht. unfold write_op at 1 in Ht. rewrite (len_bytes_at start) in Ht by lia. unfold turn_len in Ht, Hk.
  set (k := Z.min _ _) in *.
  destruct Ht as [(p1&w1&Hrun&Hok1&Hl1&_&_&_&_&_&[pf Hset]&Hone)|[Hrun Hno]]; [apply len_bytes_at; lia| |].
  - rewrite Hrun in Hr. assert (is_Some (lz_frames p !! Z.to_nat (start / 4096))) as [slot Hslot] by (apply lookup_lt_is_Some; dlia).
    rewrite (Hnone (Z.to_nat (start / 4096)) slot) in Hslot by (done || dlia). specialize (Hone Hslot).
    pose proof (free_count_bound (vw_alloc w1)).
    destruct (decide (n - k = 0)) as [Hz|Hz].
    + rewrite Hz in Hr. assert (r = OsOk (processed + k)) as -> by (destruct fuel; injection Hr; by intros).
      split; [done|]. clear -Hk H1 Hz Hone H. unfold k in *. dlia.
    + rewrite (IH p1 (start + k) (n - k) (processed + k) w1 r p' w'); [|done|unfold fits; rewrite Hl1; lia|lia|lia| |done].
      * unfold pages_under. rewrite Hone. destruct (Z.eqb_spec (n - k) 0); [done|]. clear -Hk H1 Hz. unfold k in *. dlia.
      * intros i s Hi His. rewrite Hset in His. assert (start / 4096 < Z.of_nat i) by (clear -Hi Hk H1 Hz; unfold k in *; dlia).
        rewrite list_lookup_insert_ne in His by dlia. apply (Hnone i s); [lia|done].
  - rewrite Hrun in Hr. injection Hr as <- _ _. rewrite (no_free_count _ Hno). split; [|done]. intros _. clear -Hn H1 H2. dlia.
Qed.

(** Writing splices the bytes in. *)
Lemma lazy_write_ok p offset src w : lazy_ok p w → 0 <= offset < 4096 * Z.of_nat (length (lz_frames p)) →
  offset + len src <= 4096 * Z.of_nat (length (lz_frames p)) → 4096 * Z.of_nat (length (lz_frames p)) < 2 ^ 63 →
  ∃ r p' w', lazy_write p offset src w = Ret ((r, p'), w') ∧
    loop_done p w r p' w' (r = OsOk (len src) ∧ area_bytes p' = splice offset src (area_bytes p)) ∧
    ((∀ i slot, offset / 4096 <= Z.of_nat i → lz_frames p !! i = Some slot → slot = None) →
     r = OsErr Memory_RunOutOfMemory ↔ free_count (vw_alloc w) < pages_under offset (len src)).
Proof.
  intros Hok H1 H2 H4. pose proof (len_nonneg src). unfold lazy_write, for_each_frame. rewrite lazy_size_small by lia.
  destruct (Z.leb_spec (Z.of_nat (length (lz_frames p)) * 4096) offset); [lia|].
  rewrite (wrap_small 64 (offset + len src)) by (unfold word; lia).
  destruct (Z.ltb_spec (Z.of_nat (length (lz_frames p)) * 4096) (offset + len src)); [lia|]. cbn [orb].
  destruct (lazy_write_loop_ok src (Z.to_nat (len src)) p offset (len src) 0 w Hok) as (r&p'&w'&Hrun&Hd);
    [unfold fits; lia|lia|lia|].
  exists r, p', w'. split; [unfold write_op in Hrun; by step Hrun|]. rewrite bytes_at_all in Hd by done. split; [done|]. intros Hnone.
  refine (lazy_write_loop_room src (Z.to_nat (len src)) p offset (len src) 0 w r p' w' Hok _ _ _ Hnone Hrun); [unfold fits; lia|lia|lia].
Qed.

Definition read_op (dst : list Z) (processed : Z) (bs : list Z) : list Z * list Z := (splice processed bs dst, bs).

Lemma splice_same start k l : 0 <= start → 0 <= k → start + k <= len l → splice start (bytes_at start k l) l = l.
Proof.
  intros. apply list_eq. intros i. rewrite splice_lookup by (rewrite ?len_bytes_at; lia). case_decide as Hd; [|done].
  rewrite len_bytes_at in Hd by lia. rewrite bytes_at_lookup by lia. case_decide; [f_equal; lia|lia].
Qed.

Lemma lazy_read_loop_ok fuel : ∀ p start n processed dst w, lazy_ok p w → fits p start n processed →
  processed + n = len dst → (Z.to_nat n <= fuel)%nat →
  ∃ r dst' p' w', for_each_loop read_op fuel p dst start n processed w = Ret ((r, dst', p'), w') ∧
    loop_done p w r p' w' (r = OsOk (processed + n) ∧ area_bytes p' = area_bytes p ∧
      dst' = splice processed (bytes_at start n (area_bytes p)) dst).
Proof.
  induction fuel as [|fuel IH]; intros p start n processed dst w Hok (H1&H2&H3&H4&H5&H6) Hsrc Hfuel.
  { exists (OsOk processed), dst, p, w. split; [done|]. split_and!; try done. left.
    assert (n = 0) as -> by lia. rewrite bytes_at_0, splice_nil. split; [f_equal; lia|done]. }
  destruct (decide (n = 0)) as [->|Hn].
  { exists (OsOk processed), dst, p, w. split; [done|]. split_and!; try done. left.
    rewrite bytes_at_0, splice_nil. split; [f_equal; lia|done]. }
  pose proof (turn_len_bounds start n ltac:(lia)) as Hk. pose proof (len_area_bytes p w Hok) as Hla.
  pose proof (turn_ok read_op fuel dst p start n processed w Hok H1 ltac:(lia) H3 H4 H5 H6) as Ht.
  cbn zeta in Ht. unfold read_op at 1 in Ht. set (k := turn_len start n) in *.
  destruct Ht as [(p1&w1&Hrun&Hok1&Hl1&Hb1&Ha1&Hpt1&Hm1&Hf1&_)|[Hrun Hno]]; [apply len_bytes_at; lia| |].
  - rewrite splice_same in Ha1 by lia.
    destruct (IH p1 (start + k) (n - k) (processed + k) (splice processed (bytes_at start k (area_bytes p)) dst) w1 Hok1)
      as (r&dst'&p2&w2&Hrun2&Hok2&Hl2&Hb2&Hpt2&Hm2&Hf2&Hd);
      [unfold fits; rewrite Hl1; lia|rewrite len_splice; lia|lia|].
    exists r, dst', p2, w2. split; [by rewrite Hrun|]. split_and!; try (done || congruence).
    destruct Hd as [(->&Hd&->)|Hd]; [left|by right]. split_and!; [f_equal; lia|congruence|]. rewrite Ha1.
    replace n with (k + (n - k)) at 2 by lia. rewrite (bytes_at_app start) by lia.
    rewrite splice_app by (rewrite ?len_app, ?len_bytes_at by lia; lia). by rewrite len_bytes_at by lia.
  - exists (OsErr Memory_RunOutOfMemory), dst, p, w. split; [exact Hrun|]. split_and!; try done. by right.
Qed.

(** Reading gives the bytes and changes none. *)
Lemma lazy_read_ok p offset dst w : lazy_ok p w → 0 <= offset → offset + len dst <= 4096 * Z.of_nat (length (lz_frames p)) →
  0 < len dst → 4096 * Z.of_nat (length (lz_frames p)) < 2 ^ 63 →
  ∃ r dst' p' w', lazy_read p offset dst w = Ret ((r, dst', p'), w') ∧
    loop_done p w r p' w' (r = OsOk (len dst) ∧ area_bytes p' = area_bytes p ∧ dst' = bytes_at offset (len dst) (area_bytes p)).
Proof.
  intros Hok H1 H2 H3 H4. unfold lazy_read, for_each_frame. rewrite lazy_size_small by lia.
  destruct (Z.leb_spec (Z.of_nat (length (lz_frames p)) * 4096) offset); [lia|].
  rewrite (wrap_small 64 (offset + len dst)) by (unfold word; lia).
  destruct (Z.ltb_spec (Z.of_nat (length (lz_frames p)) * 4096) (offset + len dst)); [lia|]. cbn [orb].
  destruct (lazy_read_loop_ok (Z.to_nat (len dst)) p offset (len dst) 0 dst w Hok) as (r&dst'&p'&w'&Hrun&Hd);
    [unfold fits; lia|lia|lia|].
  exists r, dst', p', w'. split; [exact Hrun|].
  rewrite splice_all in Hd by (rewrite len_bytes_at by (rewrite ?(len_area_bytes p w Hok); lia); done). exact Hd.
Qed.

(** A new area holds zeros. *)
Lemma lazy_new_ok pages backend w : 0 < pages <= 1048576 → frames_inv R (vw_alloc w) others →
  ∃ p, lazy_new (F := F) pages backend = OsOk p ∧ lazy_ok p w ∧ Z.of_nat (length (lz_frames p)) = pages ∧
    area_bytes p = repeat 0 (Z.to_nat (4096 * pages)) ∧ ∀ i slot, lz_frames p !! i = Some slot → slot = None.
Proof.
  intros Hp Hinv. unfold lazy_new. destruct (Z.eqb_spec pages 0) as [|_]; [lia|].
  change (page_count USER_VIRT_ADDR_LIMIT) with 1048576. destruct (Z.ltb_spec 1048576 pages); [lia|].
  eexists. split; [done|]. cbn [lz_frames]. remember (Z.to_nat pages) as n eqn:Hn.
  assert (∀ k, omap (option_map pf_frame) (repeat None k) = []) as Hno by (intros k; by induction k).
  split_and!.
  - split; [|unfold area_frames; cbn [lz_frames]; by rewrite Hno]. apply list.Forall_forall. intros slot Hin.
    by apply list_elem_of_In, repeat_spec in Hin as ->.
  - rewrite repeat_length. lia.
  - unfold area_bytes. cbn [lz_frames]. replace (Z.to_nat (4096 * pages)) with (n * 4096)%nat by lia.
    clear. induction n as [|n IH]; [done|]. cbn [repeat fmap list_fmap concat].
    change (concat _) with (concat (slot_bytes <$> repeat None n)). rewrite IH. rewrite Nat.mul_succ_l, Nat.add_comm, repeat_app.
    done.
  - intros i slot Hi. cbn [lz_frames] in Hi. apply list_elem_of_lookup_2 in Hi. by apply list_elem_of_In, repeat_spec in Hi.
Qed.

(** Dropping an area gives its frames back. *)
Lemma lazy_drop_ok p w : frames_inv R (vw_alloc w) (area_frames p ++ others) →
  ∃ a, lazy_drop p w = Ret (tt, mkVmWorld (vw_pt w) a (vw_mem w) (vw_files w)) ∧ frames_inv R a others.
Proof.
  unfold lazy_drop, area_frames. generalize (lz_frames p). intros l. revert w. induction l as [|slot l IH]; intros w Hinv.
  - exists (vw_alloc w). by destruct w.
  - cbn [foldMW]. destruct slot as [pf|]; [|exact (IH w Hinv)].
    destruct (frame_drop_spec R (vw_alloc w) _ (omap (option_map pf_frame) l ++ others) (pf_frame pf) Hinv) as (a&Hd&Hinv'); [done|].
    step (on_alloc_ok _ _ _ _ Hd). destruct (IH (mkVmWorld (vw_pt w) a (vw_mem w) (vw_files w)) Hinv') as (a'&Hr&Hi). by exists a'.
Qed.
End lazy_spec.
