(* ===== verification/MemCalls.v ===== *)
(** * System calls on memory (kernel/src/syscall/process.rs, task.rs, flags.rs)

    [mmap], [munmap], [mprotect], [msync], [brk] and [sysinfo] on the address
    space of a process, its descriptors and the top of its heap.  The words of
    the call are arguments; a bit that the flags of a call do not know panics
    or is dropped, as the dispatcher in syscall/mod.rs has it. *)

From S2P Require Import Prelude Bytes BitAlloc BitAllocSpec Addr PageFrame PageFrameSpec Errors PageTable PageTableSpec.
From S2P Require Import FatIo BaseFile FatFile FatFileSpec RangeMap RangeMapSpec VmArea VmAreaSpec MemorySet.
From S2P Require Import MemorySetSpec FdTable.

(** ** Flags *)

Definition PROT_READ : Z := 2 ^ 0.
Definition PROT_WRITE : Z := 2 ^ 1.
Definition PROT_EXEC : Z := 2 ^ 2.
Definition MAP_SHARED : Z := 2 ^ 0.
Definition MAP_PRIVATE : Z := 2 ^ 1.
Definition MAP_FIXED : Z := 2 ^ 4.
Definition MAP_ANONYMOUS : Z := 2 ^ 5.
Definition MAP_NORESERVE : Z := 2 ^ 14.
Definition MS_ASYNC : Z := 2 ^ 0.
Definition MS_INVALIDATE : Z := 2 ^ 1.
Definition MS_SYNC : Z := 2 ^ 2.

Definition PROT_ALL : Z := PROT_READ + PROT_WRITE + PROT_EXEC.
Definition MAP_ALL : Z := MAP_SHARED + MAP_PRIVATE + MAP_FIXED + MAP_ANONYMOUS + MAP_NORESERVE.
Definition MSYNC_ALL : Z := MS_ASYNC + MS_INVALIDATE + MS_SYNC.

(** [from_bits_truncate], [from_bits] of the low word of an argument. *)
Definition truncate_bits (all word_ : Z) : Z := Z.land (wrap 32 word_) all.
Definition known_bits (all word_ : Z) : option Z :=
  if Z.land (wrap 32 word_) (wnot 32 all) =? 0 then Some (wrap 32 word_) else None.

(** [MMAPPROT] as [PTEFlags] and as [SyncPolicy] *)
Definition prot_flags (prot : Z) : Z :=
  let flag := USER in
  let flag := if contains_flags prot PROT_READ then Z.lor flag READ else flag in
  let flag := if contains_flags prot PROT_WRITE then Z.lor flag WRITE else flag in
  if contains_flags prot PROT_EXEC then Z.lor flag EXECUTE else flag.

Definition prot_policy (prot : Z) : SyncPolicy :=
  if contains_flags prot PROT_READ && contains_flags prot PROT_WRITE then SyncReadWrite
  else if contains_flags prot PROT_WRITE then SyncWrite
  else SyncRead.

Definition USER_STACK_SIZE : Z := 0x200000.
Definition USER_STACK_OFFSET : Z := 0x40000000 - USER_STACK_SIZE.
Definition USE_MSYNC : bool := true.

Section calls.
Context {A : Type} `{BitAlloc A} `{PageFrameConfig}.
Context {FW F : Type} `{File FW F}.
Context {SB : StaleBytes}.
Context {FA : Type} `{BitAlloc FA}.

(** A process: its address space in the world, its descriptors, its heap. *)
Record Proc := mkProc {
  p_vm : MemorySet (F := F);
  p_world : VmWorld A FW;
  p_fds : FdManager FA F;
  user_heap_top : Z }.

(** A call on the address space ([self.vm.lock()]); one on the files; one on
    the descriptors. *)
Definition on_vm {R} (f : MemorySet (F := F) → M (VmWorld A FW) (R * MemorySet (F := F))) : M Proc R := λ p,
  '(r, vm, w) ← f (p_vm p) (p_world p); Ret (r, mkProc vm w (p_fds p) (user_heap_top p)).
Definition on_proc_files {R} (f : M FW R) : M Proc R := λ p,
  '(r, w) ← on_files f (p_world p); Ret (r, mkProc (p_vm p) w (p_fds p) (user_heap_top p)).
Definition proc_file (fd : Z) : M Proc (OSResult F) := λ p, r ← get_file (p_fds p) fd; Ret (r, p).

(** ** The calls of [TaskControlBlock] *)

Definition ok {R} (r : OSResult R) : option R := match r with OsOk x => Some x | OsErr _ => None end.

Definition task_mmap (s e flags : Z) (backend : option (BackEndFile F)) (anywhere : bool) : M Proc (option Z) :=
  r ← on_vm (λ vm, push_with_backend vm s e flags backend anywhere); mret (ok r).
Definition task_munmap (s e : Z) : M Proc bool := on_vm (λ vm, munmap vm s e).
Definition task_mprotect (s e new_flags : Z) : M Proc bool := on_vm (λ vm, MemorySet.mprotect vm s e new_flags).
Definition task_msync (s e : Z) : M Proc bool :=
  r ← on_vm (λ vm, r ← msync_areas vm s e; mret (r, vm)); mret (bool_decide (is_Some (ok r))).

(** [set_user_heap_top]; [user_sp]: the stack pointer of the user. *)
Definition set_user_heap_top (user_sp new_top : Z) : M Proc Z := λ p,
  if (USER_STACK_OFFSET <=? new_top) && (new_top <? user_sp)
  then Ret (new_top, mkProc (p_vm p) (p_world p) (p_fds p) new_top)
  else Ret (user_heap_top p, p).

(** ** The system calls *)

Definition sys_brk (user_sp brk : Z) : M Proc (SysResult Z) :=
  if brk =? 0 then λ p, Ret (inl (user_heap_top p), p)
  else top ← set_user_heap_top user_sp brk; mret (inl top).

(** What the branches of [sys_mmap] do with the answer of [task.mmap]. *)
Definition mmap_answer (r : option Z) : SysResult Z := match r with Some start => inl start | None => inr EINVAL end.

(** [fd] is the [i32] of the call. *)
Definition sys_mmap (start len prot flags fd offset : Z) : M Proc (SysResult Z) :=
  let prot := truncate_bits PROT_ALL prot in
  let flags := truncate_bits MAP_ALL flags in
  let len := wrap64 (align_up (wrap64 (start + len)) - align_down start) in
  let start := align_down start in
  if (start =? 0) && contains_flags flags MAP_FIXED then mret (inr EINVAL)
  else
    let anywhere := (start =? 0) || negb (contains_flags flags MAP_FIXED) in
    let stop := wrap64 (start + len) in
    if contains_flags flags MAP_ANONYMOUS then
      if (fd =? -1) && (offset =? 0) then
        r ← task_mmap start stop (prot_flags prot) None anywhere; mret (mmap_answer r)
      else mret (inr EINVAL)
    else
      file ← proc_file (wrap64 fd);
      match file with
      | OsErr _ => mret (inr EINVAL)
      | OsOk file =>
          off ← on_proc_files (file_seek file (SStart offset));
          match off with
          | None => mret (inr EINVAL)
          | Some _ =>
              let backend := mkBackEnd file offset (prot_policy prot) in
              r ← task_mmap start stop (prot_flags prot) (Some backend) anywhere; mret (mmap_answer r)
          end
      end.

Definition sys_munmap (start len : Z) : M Proc (SysResult Z) :=
  b ← task_munmap start (wrap64 (start + len)); mret (if b : bool then inl 0 else inr EINVAL).

(** [MMAPPROT::from_bits(..).unwrap()] *)
Definition sys_mprotect (start len prot : Z) : M Proc (SysResult Z) :=
  prot ← unwrapM (known_bits PROT_ALL prot);
  b ← task_mprotect start (wrap64 (start + len)) (prot_flags prot); mret (if b : bool then inl 0 else inr EINVAL).

Definition sys_msync (start len flags : Z) : M Proc (SysResult Z) :=
  flags ← unwrapM (known_bits MSYNC_ALL flags);
  if negb USE_MSYNC then mret (inl 0)
  else if negb (page_offset start =? 0) || negb (page_offset (wrap64 (start + len)) =? 0) then mret (inr EINVAL)
  else if contains_flags flags MS_INVALIDATE then mret (inl 0)
  else b ← task_msync start (wrap64 (start + len)); mret (if b : bool then inl 0 else inr ENOMEM).

(** [SysInfo] has 112 bytes; the time since the start in seconds, which goes
    to its first field. *)
Definition SYSINFO_SIZE : Z := 112.
Definition sys_sysinfo (now_sec info : Z) : M Proc (SysResult Z * option Z) :=
  r ← on_vm (λ vm, manually_alloc_type vm SYSINFO_SIZE info);
  match r with
  | OsErr _ => mret (inr EFAULT, None)
  | OsOk _ => mret (inl 0, Some now_sec)
  end.

End calls.

(** ** What the memory calls do

    [mmap] and [munmap] of anonymous memory, [mprotect], [brk], and the calls
    a user panics the kernel with. *)

Section mem_calls.
Context {A : Type} {ops : BitAlloc A} {V : BitAllocView A} {BS : BitAllocSpec A}.
Context {cfg : PageFrameConfig} {CO : ConfigOk cfg (CAP A)} {PCO : PtConfigOk cfg (CAP A)}.
Context {FW F : Type} {HF : File FW F} {FO : FilesOk FW F}.
Context {SB : StaleBytes}.
Context {FA : Type} {fops : BitAlloc FA}.
Context (top : Z) (Htop : 0 < top <= 512) (R : Z → bool) (rest : list Frame).

Abbreviation P := (Proc (A := A) (FW := FW) (F := F) (FA := FA)).
Implicit Types p : P.

(** The address space of the process is well-formed; its rights. *)
Definition proc_ok p : Prop := ms_ok top Htop R rest (p_world p) (p_vm p).
Definition proc_rights p (x : Z) : option Z := rights top Htop R rest (p_vm p) x.
Definition proc_mapped p (x : Z) : bool := vm_mapped top (p_world p) x.

(** The call leaves the descriptors and the heap alone. *)
Definition keeps_rest p p' : Prop := p_fds p' = p_fds p ∧ user_heap_top p' = user_heap_top p.

Lemma on_vm_ok {X} (f : MemorySet (F := F) → M (VmWorld A FW) (X * MemorySet (F := F))) p r vm w :
  f (p_vm p) (p_world p) = Ret ((r, vm), w) → on_vm f p = Ret (r, mkProc vm w (p_fds p) (user_heap_top p)).
Proof. intros Hf. unfold on_vm. by rewrite Hf. Qed.

Lemma on_vm_panic {X} (f : MemorySet (F := F) → M (VmWorld A FW) (X * MemorySet (F := F))) p :
  f (p_vm p) (p_world p) = Panic → on_vm f p = Panic.
Proof. intros Hf. unfold on_vm. by rewrite Hf. Qed.

(** ** Flags *)

Lemma prot_flags_word prot : word 8 (prot_flags prot).
Proof. unfold prot_flags, word. repeat case_match; vm_compute; split; congruence. Qed.

(** The user and exactly the rights asked for. *)
Lemma prot_flags_bits prot : 0 <= prot →
  contains_flags (prot_flags prot) USER = true ∧
  contains_flags (prot_flags prot) READ = Z.testbit prot 0 ∧
  contains_flags (prot_flags prot) WRITE = Z.testbit prot 1 ∧
  contains_flags (prot_flags prot) EXECUTE = Z.testbit prot 2.
Proof.
  intros Hp. assert (∀ k, 0 <= k → contains_flags prot (2 ^ k) = Z.testbit prot k) as Hc.
  { intros k Hk. unfold contains_flags. destruct (Z.testbit prot k) eqn:Hb.
    - apply Z.eqb_eq. apply Z.bits_inj'. intros i Hi. rewrite Z.land_spec, Z.pow2_bits_eqb by done.
      destruct (Z.eqb_spec k i) as [<-|]; [by rewrite Hb|by rewrite andb_false_r].
    - apply Z.eqb_neq. intros He. apply (f_equal (λ z, Z.testbit z k)) in He.
      rewrite Z.land_spec, Z.pow2_bits_eqb, Hb, Z.eqb_refl in He by done. done. }
  unfold prot_flags, PROT_READ, PROT_WRITE, PROT_EXEC. rewrite !Hc by done.
  destruct (Z.testbit prot 0), (Z.testbit prot 1), (Z.testbit prot 2); by vm_compute.
Qed.

(** ** [mmap] and [munmap] *)

(** The pages for [len] bytes. *)
Definition pages_for (len : Z) : Z := (len + 4095) / 4096 * 4096.

Lemma pages_for_bounds len : len <= pages_for len < len + 4096 ∧ pages_for len mod 4096 = 0.
Proof. unfold pages_for. split; [dlia|]. by rewrite Z.mod_mul. Qed.

(** [mmap(NULL, len, prot, MAP_PRIVATE | MAP_ANONYMOUS, -1, 0)] *)
Definition mmap_call (len prot : Z) : M P (SysResult Z) := sys_mmap 0 len prot (MAP_PRIVATE + MAP_ANONYMOUS) (-1) 0.

Definition the_flags (prot : Z) : Z := prot_flags (truncate_bits PROT_ALL prot).

Lemma mmap_call_run len prot p : 0 <= len <= 2 ^ 32 - 4096 →
  mmap_call len prot p = (r ← task_mmap 0 (0 + pages_for len) (the_flags prot) None true; mret (mmap_answer r)) p.
Proof.
  intros Hlen. destruct (pages_for_bounds len) as [Hb Hm]. unfold mmap_call, sys_mmap.
  change (truncate_bits MAP_ALL (MAP_PRIVATE + MAP_ANONYMOUS)) with 34. change (align_down 0) with 0.
  change (contains_flags 34 MAP_FIXED) with false. change (contains_flags 34 MAP_ANONYMOUS) with true.
  rewrite Z.eqb_refl. cbn [andb orb negb]. change (-1 =? -1) with true. cbn [andb].
  rewrite (wrap_small 64 (0 + len)) by (unfold word; lia). rewrite align_up_div by lia.
  fold (pages_for (0 + len)). rewrite !Z.add_0_l, Z.sub_0_r, (wrap_small 64 (pages_for len)) by (unfold word; lia).
  rewrite wrap_small by (unfold word; lia). done.
Qed.

Lemma mmap_anonymous_ok p len prot addr : proc_ok p → 0 < len <= 2 ^ 32 - 4096 →
  find_free_area (area_map (p_vm p)) 0 (pages_for len) = Some addr → addr + pages_for len <= top * 2 ^ 30 →
  0 <= addr ∧ addr mod 4096 = 0 ∧ (∀ x, addr <= x < addr + pages_for len → proc_rights p x = None) ∧
  ((∃ p', mmap_call len prot p = Ret (inl addr, p') ∧ proc_ok p' ∧ keeps_rest p p' ∧
      (∀ x, proc_rights p' x = if (addr <=? x) && (x <? addr + pages_for len) then Some (the_flags prot) else proc_rights p x) ∧
      ∀ x, proc_mapped p' x = proc_mapped p x) ∨
   (mmap_call len prot p = Panic ∧ map_ran_out (p_world p) (new_area addr (addr + pages_for len) (the_flags prot) None))).
Proof.
  intros Hok Hlen Hff Hend. destruct (pages_for_bounds len) as [Hb Hm].
  pose proof (find_free_area_aligned top Htop R rest _ _ _ _ _ Hok (eq_refl (0 mod 4096)) Hff) as Hal.
  destruct (push_anywhere_ok top Htop R rest (p_world p) (p_vm p) 0 (pages_for len) (the_flags prot) None addr)
    as (Hpos&Hfree&Hcases); try done; [lia|unfold LOWER_LIMIT; lia|apply prot_flags_word|].
  split_and!; try done. rewrite mmap_call_run by lia. unfold task_mmap.
  destruct Hcases as [(ms'&w'&Hrun&Hms'&Hr&Hmp)|[Hrun Hno]]; [left|right].
  - eexists. split; [unfold mbind at 1, M_bind at 1; unfold mbind at 1, M_bind at 1; by rewrite (on_vm_ok _ _ _ _ _ Hrun)|].
    by split_and!.
  - split; [|done]. unfold mbind at 1, M_bind at 1. unfold mbind at 1, M_bind at 1. by rewrite (on_vm_panic _ _ Hrun).
Qed.

(** [munmap] of whole pages. *)
Lemma sys_munmap_ok p s n : proc_ok p → s mod 4096 = 0 → n mod 4096 = 0 → 0 <= s → 0 < n → s + n < 2 ^ 64 →
  ∃ p', sys_munmap s n p = Ret (inl 0, p') ∧ proc_ok p' ∧ keeps_rest p p' ∧
    (∀ x, proc_rights p' x = if (s <=? x) && (x <? s + n) then None else proc_rights p x) ∧
    ∀ x, proc_mapped p' x = if (s <=? x) && (x <? s + n) then false else proc_mapped p x.
Proof.
  intros Hok Hs Hn Hs0 Hn0 Hsn.
  destruct (munmap_ok top Htop R rest (p_world p) (p_vm p) s (s + n) Hok) as (ms'&w'&Hrun&Hms'&Hr&Hmp);
    [lia|apply cut_ok_fits; exact Hs|apply cut_ok_fits; change ((s + n) mod 4096 = 0); dlia|].
  eexists. split; [unfold sys_munmap, task_munmap; unfold mbind at 1, M_bind at 1;
    rewrite wrap_small by (unfold word; lia); by rewrite (on_vm_ok _ _ _ _ _ Hrun)|]. by split_and!.
Qed.

Lemma no_rights_unmapped p x : proc_ok p → proc_rights p x = None → proc_mapped p x = false.
Proof.
  intros [_ Hm _ _] Hx. destruct (proc_mapped p x) eqn:Hmx; [|done]. exfalso.
  destruct (proj2 Hm x Hmx) as [c Hc]. unfold proc_rights, rights, ram_view in Hx. by rewrite Hx in Hc.
Qed.

Lemma mmap_munmap_ok p len prot addr : proc_ok p → 0 < len <= 2 ^ 32 - 4096 →
  find_free_area (area_map (p_vm p)) 0 (pages_for len) = Some addr → addr + pages_for len <= top * 2 ^ 30 →
  (∃ p' p'', mmap_call len prot p = Ret (inl addr, p') ∧ proc_ok p' ∧
     (∀ x, addr <= x < addr + len → proc_rights p x = None ∧ proc_rights p' x = Some (the_flags prot)) ∧
     sys_munmap addr (pages_for len) p' = Ret (inl 0, p'') ∧ proc_ok p'' ∧ keeps_rest p p'' ∧
     (∀ x, proc_rights p'' x = proc_rights p x) ∧ ∀ x, proc_mapped p'' x = proc_mapped p x) ∨
  (mmap_call len prot p = Panic ∧ map_ran_out (p_world p) (new_area addr (addr + pages_for len) (the_flags prot) None)).
Proof.
  intros Hok Hlen Hff Hend. destruct (pages_for_bounds len) as [Hb Hm].
  destruct (mmap_anonymous_ok p len prot addr Hok Hlen Hff Hend) as (H0&Hal&Hfree&[(p'&Hrun&Hok'&Hk&Hr&Hmp)|]); [left|by right].
  destruct (sys_munmap_ok p' addr (pages_for len) Hok' Hal Hm H0 ltac:(lia) ltac:(lia)) as (p''&Hun&Hok''&Hk''&Hr''&Hm'').
  exists p', p''. destruct Hk as [Hk1 Hk2], Hk'' as [Hk3 Hk4]. split_and!; try done; try congruence.
  - intros x Hx. split; [apply Hfree; lia|]. rewrite Hr. destruct (Z.leb_spec addr x), (Z.ltb_spec x (addr + pages_for len)); done || lia.
  - split; congruence.
  - intros x. rewrite Hr'', Hr. destruct ((addr <=? x) && (x <? addr + pages_for len)) eqn:Hx; [|done].
    symmetry. apply Hfree. lia.
  - intros x. rewrite Hm'', Hmp. destruct ((addr <=? x) && (x <? addr + pages_for len)) eqn:Hx; [|done].
    symmetry. apply no_rights_unmapped; [done|]. apply Hfree. lia.
Qed.

(** ** What a user panics the kernel with *)

(** A mapping of no bytes, where the range map finds a place for it. *)
Lemma empty_mmap_panics p prot addr : find_free_area (area_map (p_vm p)) 0 0 = Some addr → 0 <= addr < 2 ^ 63 →
  mmap_call 0 prot p = Panic.
Proof.
  intros Hff Ha. rewrite mmap_call_run by lia. change (pages_for 0) with 0. rewrite Z.add_0_r. unfold task_mmap.
  unfold mbind at 1, M_bind at 1. unfold mbind at 1, M_bind at 1. rewrite on_vm_panic; [done|].
  unfold push_with_backend. cbn [negb andb]. change (0 - 0) with 0. unfold mmap_anywhere. change (wrap64 0) with 0. rewrite Hff.
  unfold mbind at 1, M_bind at 1. unfold mbind at 1, M_bind at 1. by rewrite (mmap_area_lengths R 0) by lia.
Qed.

(** [mprotect] and [msync] with a bit they do not know. *)
Lemma unknown_prot_panics p s n prot : Z.testbit (wrap 32 prot) 3 = true → sys_mprotect s n prot p = Panic.
Proof.
  intros Hb. unfold sys_mprotect, known_bits. destruct (Z.eqb_spec (Z.land (wrap 32 prot) (wnot 32 PROT_ALL)) 0) as [He|]; [|done].
  apply (f_equal (λ z, Z.testbit z 3)) in He. rewrite Z.land_spec, Hb in He. done.
Qed.

(** ** [brk] *)

(** [brk] answers the top of the heap, which lies in the user's stack area
    below its stack pointer when it was moved there. *)
Lemma brk_moves_heap_top user_sp brk p : ∃ p', sys_brk user_sp brk p = Ret (inl (user_heap_top p'), p') ∧
  p_vm p' = p_vm p ∧ p_fds p' = p_fds p ∧
  user_heap_top p' = if (USER_STACK_OFFSET <=? brk) && (brk <? user_sp) then brk else user_heap_top p.
Proof.
  unfold sys_brk, set_user_heap_top. destruct (Z.eqb_spec brk 0) as [->|]; [by exists p|].
  unfold mbind, M_bind. destruct (_ && _); [by exists (mkProc (p_vm p) (p_world p) (p_fds p) brk)|by exists p].
Qed.
End mem_calls.

(** ** Properties *)

Section properties.
Context {A : Type} {ops : BitAlloc A} {V : BitAllocView A} {BS : BitAllocSpec A}.
Context {cfg : PageFrameConfig} {CO : ConfigOk cfg (CAP A)} {PCO : PtConfigOk cfg (CAP A)}.
Context {FW F : Type} {HF : File FW F} {FO : FilesOk FW F}.
Context {SB : StaleBytes}.
Context {FA : Type} {fops : BitAlloc FA}.
Context (top : Z) (Htop : 0 < top <= 512) (R : Z → bool) (rest : list Frame).

(** C21. The system call [mmap] of anonymous memory without an address, of at
    least one and at most 2^32 - 4096 bytes, when the process has a free area of
    that many pages and the first one is inside the user's part of the page
    table, answers the address of that area, where the process had nothing, and gives it, page by page, the rights the call asks for and the
    user's; [munmap] of those pages answers 0
    and brings back every right and every mapped address the process had,
    with its descriptors and its heap untouched in between.  The only other
    end of such a call is the panic of [mmap] when the frames for the tables run
    out; a call for no bytes panics too ([empty_mmap_panics]). *)
Theorem mmap_then_munmap (p : Proc (A := A) (FW := FW) (F := F) (FA := FA)) (len prot addr : Z) :
  proc_ok top Htop R rest p → 0 < len <= 2 ^ 32 - 4096 →
  find_free_area (area_map (p_vm p)) 0 (pages_for len) = Some addr → addr + pages_for len <= top * 2 ^ 30 →
  (∃ p' p'', mmap_call len prot p = Ret (inl addr, p') ∧ proc_ok top Htop R rest p' ∧
     (∀ x, addr <= x < addr + len →
        proc_rights top Htop R rest p x = None ∧ proc_rights top Htop R rest p' x = Some (the_flags prot)) ∧
     sys_munmap addr (pages_for len) p' = Ret (inl 0, p'') ∧ proc_ok top Htop R rest p'' ∧ keeps_rest p p'' ∧
     (∀ x, proc_rights top Htop R rest p'' x = proc_rights top Htop R rest p x) ∧
     ∀ x, proc_mapped top p'' x = proc_mapped top p x) ∨
  (mmap_call len prot p = Panic ∧
   map_ran_out (p_world p) (new_area addr (addr + pages_for len) (the_flags prot) None)).
Proof. by apply mmap_munmap_ok. Qed.
End properties.

Import MemorySetSpec.Small.

(** A new process of the small machine with no descriptors asks for five
    thousand bytes to read and write. *)
Lemma mmap_then_munmap_witness :
  ∃ ms w, new_user (A := Tower 0) (F := unit) world0 = Ret (ms, w) ∧
    let p := mkProc (FA := Tower 0) ms w (mkFd [] DEFAULT 0 0) USER_STACK_OFFSET in
    ∃ p' p'', mmap_call 5000 3 p = Ret (inl 0x1000, p') ∧
      proc_rights 4 small_top first_16 [] p' 0x1000 = Some 22 ∧ sys_munmap 0x1000 8192 p' = Ret (inl 0, p'') ∧
      proc_rights 4 small_top first_16 [] p'' 0x1000 = proc_rights 4 small_top first_16 [] p 0x1000.
Proof.
  destruct (new_user_ok (A := Tower 0) (FW := list Z) (F := unit) 4 small_top first_16 [] world0 world0_files world0_frames)
    as [(ms&w&H1&H2&_)|[_ Hno]]; [|specialize (Hno 0); vm_compute in Hno; congruence].
  exists ms, w. split; [exact H1|]. intros p.
  assert (find_free_area (area_map (p_vm p)) 0 (pages_for 5000) = Some 0x1000 ∧
    returns (mmap_call 5000 3 p) = true) as [Hff Hret].
  { assert (match new_user (A := Tower 0) (F := unit) world0 with
      | Ret (ms, w) => bool_decide (find_free_area (area_map ms) 0 (pages_for 5000) = Some 0x1000) &&
          returns (mmap_call 5000 3 (mkProc (FA := Tower 0) ms w (mkFd [] DEFAULT 0 0) USER_STACK_OFFSET))
      | Panic => false end = true) as Hc by by vm_compute.
    rewrite H1 in Hc. apply andb_prop in Hc as [Hc1 Hc2]. by apply bool_decide_eq_true in Hc1. }
  destruct (mmap_then_munmap 4 small_top first_16 [] p 5000 3 0x1000) as [(p'&p''&Hm&_&Hr&Hu&_&_&Hr''&_)|[Hp _]];
    [exact H2|lia|exact Hff|by vm_compute| |rewrite Hp in Hret; discriminate Hret].
  exists p', p''. split; [exact Hm|]. split; [apply Hr; lia|]. split; [exact Hu|apply Hr''].
Defined.
