(* ===== verification/Loader.v ===== *)
(** * Loading a program (kernel/src/loaders/mod.rs, kernel/src/task/task.rs)

    [ElfLoader::init_vm] fills an address space from an ELF file: its loadable
    segments, the relocations of a dynamic program and the first stack; a
    program with an interpreter is left to that one.  [parse_user_app] finds
    the file.  [exec] replaces the program of a process.

    The crate [xmas_elf], which reads the file, is a parameter: [ElfParser]
    gives what the loader asks of a parsed file, as a record. *)

From S2P Require Import Prelude Bytes BitAlloc Addr PageFrame Errors PageTable FatIo BaseFile RangeMap VmArea MemorySet.
From S2P Require Import Errors FdTable DirNames Paths Signals TimeStat InitStack MemCalls.

(** ** What [xmas_elf] gives *)

Inductive SegType := SegLoad | SegInterp | SegOther.

#[export] Instance SegType_eq_dec : EqDecision SegType.
Proof. solve_decision. Defined.

(** The data of a segment: its bytes, another form, or an error. *)
Inductive SegmentData := Undefined (data : list Z) | SegmentOther | SegmentError.

Record ProgramHeader := mkPh {
  ph_type : SegType;
  ph_start : Z;
  ph_vaddr : Z;
  ph_mem_size : Z;
  ph_read : bool;
  ph_write : bool;
  ph_execute : bool;
  ph_data : SegmentData }.

Record Rela64 := mkRela { r_type : Z; r_sym : Z; r_offset : Z; r_addend : Z }.
(** [st_named]: whether the name of the symbol can be read. *)
Record DynSym := mkSym { st_shndx : Z; st_value : Z; st_named : bool }.

Inductive SectionData := RelaSection (l : list Rela64) | DynSymSection (l : list DynSym) | SectionOther | SectionError.

Record ElfFile := mkElf {
  elf_class64 : bool;
  elf_machine : Z;
  elf_entry : Z;
  elf_ph_offset : Z;
  elf_ph_entry_size : Z;
  elf_ph_count : Z;
  elf_phs : list ProgramHeader;
  elf_sections : list (string * SectionData) }.

Class ElfParser := elf_new : list Z → option ElfFile.

Definition find_section (name : string) (elf : ElfFile) : option SectionData :=
  list_find (λ s, fst s = name) (elf_sections elf) ≫= λ is_, Some (snd (snd is_)).

(** ** Strings as bytes *)

(** The UTF-8 of a character, of a string. *)
Definition utf8_char (c : Z) : list Z :=
  if c <? 0x80 then [c]
  else if c <? 0x800 then [0xC0 + c / 64; 0x80 + c mod 64]
  else if c <? 0x10000 then [0xE0 + c / 4096; 0x80 + c / 64 mod 64; 0x80 + c mod 64]
  else [0xF0 + c / 262144; 0x80 + c / 4096 mod 64; 0x80 + c / 64 mod 64; 0x80 + c mod 64].
Definition utf8 (s : list Z) : list Z := concat (utf8_char <$> s).

(** The number that the bytes of a character stand for, and how many there
    are, by the first one. *)
Definition char_of (bs : list Z) : option (Z * nat) :=
  match bs with
  | [] => None
  | b :: _ =>
      let n := if b <? 0x80 then 1%nat else if b <? 0xE0 then 2%nat else if b <? 0xF0 then 3%nat else 4%nat in
      let lead := if b <? 0x80 then b else if b <? 0xE0 then b - 0xC0 else if b <? 0xF0 then b - 0xE0 else b - 0xF0 in
      let c := foldl (λ c b, c * 64 + (b - 0x80)) lead (take (n - 1) (drop 1 bs)) in
      if bool_decide (utf8_char c = take n bs) && (0 <=? c) && (c <? 0x110000) && negb ((0xD800 <=? c) && (c <=? 0xDFFF))
      then Some (c, n) else None
  end.

(** [core::str::from_utf8]; every turn takes a byte at least. *)
Fixpoint from_utf8_loop (fuel : nat) (bs : list Z) : option (list Z) :=
  match fuel, bs with
  | _, [] => Some []
  | O, _ => None
  | S fuel, _ => '(c, n) ← char_of bs; s ← from_utf8_loop fuel (drop n bs); Some (c :: s)
  end.
Definition from_utf8 (bs : list Z) : option (list Z) := from_utf8_loop (length bs) bs.

(** [raw_ptr_to_ref_str] in the bytes from the pointer on; a string without an
    end in them goes on in other memory, which is not modelled. *)
Fixpoint until_zero (bs : list Z) : option (list Z) :=
  match bs with [] => None | b :: bs => if b =? 0 then Some [] else s ← until_zero bs; Some (b :: s) end.
Definition raw_ptr_to_ref_str (bs : list Z) : outcome (list Z) :=
  bs ← unwrap (until_zero bs); Ret (default (lit "p") (from_utf8 bs)).

(** [path.rfind("/")]: the parts up to and behind the last [/]. *)
Definition rsplit_slash (path : list Z) : option (list Z * list Z) :=
  match list_find (eq SLASH) (reverse path) with
  | Some (i, _) => let n := (length path - i)%nat in Some (take n path, drop n path)
  | None => None
  end.

(** [ends_with] of a string. *)
Definition ends_with_s (t s : list Z) : bool := starts_with (reverse t) (reverse s).

(** ** The loader *)

Definition REL_GOT : Z := 6.
Definition REL_PLT : Z := 7.
Definition REL_RELATIVE : Z := 8.
Definition R_RISCV_64 : Z := 2.
Definition R_RISCV_RELATIVE : Z := 3.
Definition ELF_BASE_RELOCATE : Z := 0x4000000.
Definition EM_RISCV : Z := 0xF3.

(** [From<Flags> for PTEFlags] *)
Definition seg_flags (ph : ProgramHeader) : Z :=
  let ret := USER in
  let ret := if ph_read ph then Z.lor ret READ else ret in
  let ret := if ph_write ph then Z.lor ret WRITE else ret in
  if ph_execute ph then Z.lor ret EXECUTE else ret.

(** The environment of every program. *)
Definition ENVS : list (list Z) := lit <$> [
  "SHLVL=1"; "PATH=/usr/sbin:/usr/bin:/sbin:/bin"; "PWD=/";
  "GCC_EXEC_PREFIX=/riscv64-linux-musl-native/bin/../lib/gcc/";
  "COLLECT_GCC=./riscv64-linux-musl-native/bin/riscv64-linux-musl-gcc";
  "COLLECT_LTO_WRAPPER=/riscv64-linux-musl-native/bin/../libexec/gcc/riscv64-linux-musl/11.2.1/lto-wrapper";
  "COLLECT_GCC_OPTIONS='-march=rv64gc' '-mabi=lp64d' '-march=rv64imafdc' '-dumpdir' 'a.'";
  "COMPILER_PATH=/riscv64-linux-musl-native/bin/../libexec/gcc/riscv64-linux-musl/11.2.1/:/riscv64-linux-musl-native/bin/../libexec/gcc/:/riscv64-linux-musl-native/bin/../lib/gcc/riscv64-linux-musl/11.2.1/../../../../riscv64-linux-musl/bin/";
  "LIBRARY_PATH=/riscv64-linux-musl-native/bin/../lib/gcc/riscv64-linux-musl/11.2.1/:/riscv64-linux-musl-native/bin/../lib/gcc/:/riscv64-linux-musl-native/bin/../lib/gcc/riscv64-linux-musl/11.2.1/../../../../riscv64-linux-musl/lib/:/riscv64-linux-musl-native/bin/../lib/:/riscv64-linux-musl-native/bin/../usr/lib/" ]%string.

(** The files of programs: [check_file_exists], and [open_file] for reading
    with [read_all] of what it opens. *)
Class AppFiles (FW : Type) := {
  app_exists : list Z → list Z → M FW bool;
  app_read : list Z → list Z → M FW (option (list Z)) }.

Section loader.
Context {A : Type} `{BitAlloc A} `{PageFrameConfig}.
Context {FW F : Type} `{File FW F} `{AppFiles FW}.
Context {SB : StaleBytes} {EP : ElfParser}.

Abbreviation W := (VmWorld A FW).
Abbreviation MS := (MemorySet (F := F)).

(** A loader's answer with the address space as it then is. *)
Definition LM (R : Type) : Type := MS → M W (OSResult R * MS).

Definition lret {R} (r : R) : LM R := λ vm, mret (OsOk r, vm).
Definition lerr {R} (e : OSError) : LM R := λ vm, mret (OsErr e, vm).
Definition lpanic {R} : LM R := λ _ _, Panic.
(** [?] *)
Definition lbind {R S} (x : LM R) (f : R → LM S) : LM S := λ vm,
  '(r, vm) ← x vm;
  match r with OsOk r => f r vm | OsErr e => mret (OsErr e, vm) end.
Definition of_outcome {R} (o : outcome R) : LM R := λ vm, r ← lift o; mret (OsOk r, vm).

#[local] Notation "x <~ a ; b" := (lbind a (λ x, b)) (at level 100, a at next level, right associativity).

Fixpoint liter {I} (f : I → LM unit) (l : list I) : LM unit :=
  match l with [] => lret tt | i :: l => _ <~ f i; liter f l end.

(** An area of [pages] pages with [data] at [offset], pushed for [s, e). *)
Definition push_filled (pages offset : Z) (data : list Z) (s e flags : Z) : LM unit := λ vm,
  match lazy_new pages None with
  | OsErr err => mret (OsErr err, vm)
  | OsOk pma =>
      '(r, pma) ← lazy_write pma offset data;
      match r with
      | OsErr err => _ ← lazy_drop pma; mret (OsErr err, vm)
      | OsOk _ =>
          match vm_new s e flags (PmLazy pma) with
          | OsErr err => _ ← lazy_drop pma; mret (OsErr err, vm)
          | OsOk seg => MemorySet.push vm seg
          end
      end
  end.

(** [get_data(..).unwrap()] of a segment that has to be bytes. *)
Definition undefined_data (ph : ProgramHeader) : LM (list Z) :=
  match ph_data ph with
  | Undefined data => lret data
  | SegmentOther => lerr Loader_InvalidSegment
  | SegmentError => lpanic
  end.

(** One turn of the loop over the segments.  [PmAreaLazy::new] comes before
    the data is asked for, with no frame in the area yet. *)
Definition load_segment (dyn_base : Z) (ph : ProgramHeader) : LM unit :=
  if negb (bool_decide (ph_type ph = SegLoad)) then lret tt
  else
    let pgoff := page_offset (ph_vaddr ph) in
    let pages := page_count (wrap64 (ph_mem_size ph + pgoff)) in
    _ <~ (match lazy_new (F := F) pages None with OsOk _ => lret tt | OsErr e => lerr e end);
    data <~ undefined_data ph;
    push_filled pages pgoff data (wrap64 (ph_vaddr ph + dyn_base))
      (wrap64 (wrap64 (ph_vaddr ph + ph_mem_size ph) + dyn_base)) (seg_flags ph).

(** [vm.write(addr, 8, &value.to_ne_bytes(), PTEFlags::empty())?] *)
Definition write_word (addr value : Z) : LM unit := λ vm, ms_write vm addr 8 (le_split 8 value) 0.

(** The symbol of an entry: a name that is not there panics. *)
Definition symbol (syms : list DynSym) (entry : Rela64) : LM Z :=
  dynsym <~ of_outcome (index syms (r_sym entry));
  if st_shndx dynsym =? 0 then (if st_named dynsym then lpanic else lerr Loader_ParseElfFailed)
  else lret (st_value dynsym).

Definition relocate_dyn (dyn_base : Z) (syms : list DynSym) (entry : Rela64) : LM unit :=
  let t := r_type entry in
  let addr := wrap64 (dyn_base + r_offset entry) in
  if (t =? REL_GOT) || (t =? REL_PLT) || (t =? R_RISCV_64) then
    v <~ symbol syms entry;
    write_word addr (wrap64 (wrap64 (dyn_base + v) + r_addend entry))
  else if (t =? REL_RELATIVE) || (t =? R_RISCV_RELATIVE) then
    write_word addr (wrap64 (dyn_base + r_addend entry))
  else lpanic.

Definition relocate_plt (dyn_base : Z) (syms : list DynSym) (entry : Rela64) : LM unit :=
  if r_type entry =? 5 then
    v <~ symbol syms entry;
    write_word (wrap64 (dyn_base + r_offset entry)) (wrap64 (dyn_base + v))
  else lpanic.

(** [get_data(..).unwrap()] of a section that has to be entries, symbols. *)
Definition rela_data (s : SectionData) : LM (list Rela64) :=
  match s with RelaSection l => lret l | SectionError => lpanic | _ => lerr Loader_InvalidSection end.
Definition sym_data (s : SectionData) : LM (list DynSym) :=
  match s with DynSymSection l => lret l | SectionError => lpanic | _ => lerr Loader_InvalidSection end.

Definition relocate (dyn_base : Z) (elf : ElfFile) : LM unit :=
  _ <~ (match find_section ".rela.dyn" elf with
        | Some s =>
            data <~ rela_data s;
            match find_section ".dynsym" elf with
            | Some s => syms <~ sym_data s; liter (relocate_dyn dyn_base syms) data
            | None => lret tt
            end
        | None => lret tt
        end);
  match find_section ".rela.plt" elf with
  | Some s =>
      data <~ rela_data s;
      match find_section ".dynsym" elf with
      | Some s => syms <~ sym_data s; liter (relocate_plt dyn_base syms) data
      | None => lerr Loader_InvalidSection
      end
  | None => lret tt
  end.

(** Where the file begins in memory, and what its addresses are moved by. *)
Definition load_base (elf : ElfFile) : Z * Z :=
  match list_find (λ ph, ph_type ph = SegLoad ∧ ph_start ph = 0) (elf_phs elf) with
  | Some (_, header) =>
      if negb (ph_vaddr header =? 0) then (ph_vaddr header, 0) else (ELF_BASE_RELOCATE, ELF_BASE_RELOCATE)
  | None => (0, 0)
  end.

Definition init_info (elf : ElfFile) (elf_base_vaddr : Z) (args : list (list Z)) : InitInfo :=
  mkInfo (utf8 <$> args) ENVS
    [(AT_PHDR, wrap64 (elf_base_vaddr + elf_ph_offset elf)); (AT_PHENT, elf_ph_entry_size elf);
     (AT_PHNUM, elf_ph_count elf); (AT_PAGESZ, PAGE_SIZE); (AT_RANDOM, 0)].

(** The stack with [init_stack] at its top; its stack pointer. *)
Definition push_stack (init_stack : list Z) : LM Z :=
  let stack_bottom := USER_STACK_OFFSET in
  let stack_top := wrap64 (stack_bottom + USER_STACK_SIZE - len init_stack) in
  _ <~ push_filled (page_count USER_STACK_SIZE) (wrap64 (USER_STACK_SIZE - len init_stack)) init_stack
         stack_bottom stack_top (Z.lor (Z.lor READ WRITE) USER);
  lret stack_top.

(** [ElfLoader::new]; a file that is no ELF file panics. *)
Definition loader_new (data : list Z) : LM ElfFile :=
  elf <~ of_outcome (unwrap (elf_new data));
  if negb (elf_class64 elf) then lerr Loader_ParseElfFailed
  else if negb (elf_machine elf =? EM_RISCV) then lerr Loader_ParseElfFailed
  else lret elf.

(** The part of [init_vm] behind the interpreter; [stale]: the bytes that were
    in the buffer of the stack. *)
Definition init_vm_static (stale : list Z) (elf : ElfFile) (args : list (list Z)) : LM (Z * Z) :=
  let '(elf_base_vaddr, dyn_base) := load_base elf in
  _ <~ liter (load_segment dyn_base) (elf_phs elf);
  _ <~ relocate dyn_base elf;
  st <~ of_outcome (serialize (init_info elf elf_base_vaddr args) stale (USER_STACK_OFFSET + USER_STACK_SIZE));
  sp <~ push_stack (stack_bytes st);
  lret (wrap64 (elf_entry elf + dyn_base), sp).

(** [&args[0]], and [Vec::from(&args[1..])] *)
Definition sh_args (app_dir : list Z) (args : list (list Z)) : outcome (list (list Z)) :=
  arg0 ← index args 0;
  Ret ([lit "busybox"; lit "sh"; app_dir ++ arg0] ++ drop 1 args).

Definition the_app (app_dir app_name : list Z) (args : list (list Z)) : outcome (list Z * list Z * list (list Z)) :=
  if ends_with_s (lit ".sh") app_name
  then args ← sh_args app_dir args; Ret (ROOT_DIR, lit "busybox", args)
  else Ret (app_dir, app_name, args).

Definition read_app (app_dir app_name : list Z) : LM (option (list Z)) := λ vm,
  data ← on_files (app_read app_dir app_name); mret (OsOk data, vm).

(** [parse_user_app] and [init_vm] call each other, once for every interpreter
    on the way; running out of [fuel] stands for a stack that overflows. *)
Fixpoint parse_user_app (fuel : nat) (stale app_dir app_name : list Z) (args : list (list Z)) : LM (Z * Z) :=
  match fuel with
  | O => lpanic
  | S fuel =>
      app <~ of_outcome (the_app app_dir app_name args);
      let '(app_dir, app_name, args) := app in
      data <~ read_app app_dir app_name;
      match data with
      | None => lerr Loader_AppNotFound
      | Some data =>
          elf <~ loader_new data;
          match list_find (λ ph, ph_type ph = SegInterp) (elf_phs elf) with
          | Some (_, interp_header) =>
              data <~ undefined_data interp_header;
              path <~ of_outcome (raw_ptr_to_ref_str data);
              let new_args := path :: args in
              match rsplit_slash path with
              | Some (dir, name) => parse_user_app fuel stale dir name new_args
              | None => parse_user_app fuel stale ROOT_DIR path new_args
              end
          | None => init_vm_static stale elf args
          end
      end
  end.

End loader.

(** ** [TaskControlBlock::exec] *)

Section exec.
Context {A : Type} `{BitAlloc A} `{PageFrameConfig}.
Context {FW F : Type} `{File FW F} `{AppFiles FW}.
Context {SB : StaleBytes} {EP : ElfParser}.
Context {FA : Type} `{BitAlloc FA} (cloexec : F → bool).

(** The parts of a task that [exec] changes; the context its kernel stack
    begins with: entry, stack pointer, [a0] and [a1]. *)
Record Tcb := mkTcb {
  x_proc : Proc (A := A) (FW := FW) (F := F) (FA := FA);
  x_handlers : SignalHandlers;
  x_receivers : SignalReceivers;
  x_time : TimeStat;
  x_dir : list Z;
  x_context : option (Z * Z * Z * Z) }.

Implicit Types t : Tcb.

Definition with_proc t p : Tcb := mkTcb p (x_handlers t) (x_receivers t) (x_time t) (x_dir t) (x_context t).
Definition on_tproc {R} (f : M (Proc (A := A) (FW := FW) (F := F) (FA := FA)) R) : M Tcb R := λ t,
  '(r, p) ← f (x_proc t); Ret (r, with_proc t p).

(** What goes before the new program is looked at. *)
Definition exec_clear (now : Z) : M Tcb unit := λ t,
  let p := x_proc t in
  '(vm, w) ← clear_user_pages_and_save_kernel (p_vm p) (p_world p);
  Ret (tt, mkTcb (mkProc vm w (close_cloexec_files cloexec (p_fds p)) USER_STACK_OFFSET)
             (handlers_clear (x_handlers t)) (recv_clear (x_receivers t)) (ts_clear now (x_time t)) (x_dir t) (x_context t)).

(** [*(user_stack as *const usize)], as the kernel reads it through the page
    table of the process. *)
Definition stack_word (a : Z) : M Tcb Z :=
  r ← on_tproc (on_vm (λ vm, '(r, bs, vm) ← ms_read vm a 8 (repeat 0 8) READ; mret ((r, bs), vm)));
  match r with (OsOk _, bs) => mret (le_combine bs) | (OsErr _, _) => λ _, Panic end.

Definition set_context (cx : Z * Z * Z * Z) : M Tcb unit := λ t,
  Ret (tt, mkTcb (x_proc t) (x_handlers t) (x_receivers t) (x_time t) (x_dir t) (Some cx)).

Definition exec (fuel : nat) (stale : list Z) (now : Z) (app_name : list Z) (args : list (list Z)) : M Tcb bool :=
  dir ← (λ t, Ret (x_dir t, t));
  exists_ ← on_tproc (on_proc_files (app_exists dir app_name));
  if negb exists_ then mret false
  else
    _ ← exec_clear now;
    let args := match args with [] => [app_name] | _ => args end in
    r ← on_tproc (on_vm (parse_user_app fuel stale dir app_name args));
    match r with
    | OsErr _ => mret false
    | OsOk (user_entry, user_stack) =>
        argc ← stack_word user_stack;
        _ ← set_context (user_entry, user_stack, argc, wrap64 (user_stack + 8));
        mret true
    end.

(** [sys_exec]; [None]: the thread has come to its end, with exit code 0. *)
Definition sys_exec (fuel : nat) (stale : list Z) (now : Z) (path : list Z) (args : list (list Z)) : M Tcb (option (SysResult Z)) :=
  done_ ← exec fuel stale now path args; mret (if done_ : bool then Some (inl 0) else None).

End exec.
