(* ===== verification/LoaderSpec.v ===== *)
(** * What loading a program does

    The areas of segments hold the file's bytes with zeros around them; the
    first stack has to fit in one page and in the memory that is free; [exec] of
    a program that is not there changes nothing, and of one that is clears the
    old program whatever comes of it; a program that is its own interpreter is never loaded. *)

From S2P Require Import Prelude Bytes BitAlloc BitAllocSpec Addr PageFrame PageFrameSpec Errors PageTable FatIo BaseFile.
From S2P Require Import RangeMap VmArea VmAreaSpec LazySpec MemorySet MemorySetSpec FdTable DirNames Paths Signals.
From S2P Require Import TimeStat InitStack MemCalls Loader.

(** ** UTF-8 *)

Definition valid_char (c : Z) : Prop := 0 <= c < 0x110000 ∧ ¬ 0xD800 <= c <= 0xDFFF.

Lemma char_of_encoded c b l rest n lead : valid_char c → utf8_char c = b :: l →
  (if b <? 0x80 then 1%nat else if b <? 0xE0 then 2%nat else if b <? 0xF0 then 3%nat else 4%nat) = n → length (b :: l) = n →
  (if b <? 0x80 then b else if b <? 0xE0 then b - 0xC0 else if b <? 0xF0 then b - 0xE0 else b - 0xF0) = lead →
  foldl (λ c b, c * 64 + (b - 0x80)) lead l = c → char_of ((b :: l) ++ rest) = Some (c, n).
Proof.
  intros [Hc Hs] Henc Hn Hlen Hlead Hfold. unfold char_of. cbn [app]. rewrite Hn, Hlead. change (drop 1 (b :: l ++ rest)) with (l ++ rest).
  assert (take (n - 1) (l ++ rest) = l) as -> by (rewrite take_app_le by (simpl in Hlen; lia); apply take_ge; simpl in Hlen; lia).
  rewrite Hfold. rewrite bool_decide_eq_true_2.
  2: { rewrite Henc. change (b :: l ++ rest) with ((b :: l) ++ rest). rewrite <- Hlen. by rewrite take_app_length. }
  destruct (Z.leb_spec 0 c), (Z.ltb_spec c 0x110000); try lia. cbn [andb].
  destruct (Z.leb_spec 0xD800 c), (Z.leb_spec c 0xDFFF); done || lia.
Qed.

Lemma utf8_char_decodes c rest : valid_char c → char_of (utf8_char c ++ rest) = Some (c, length (utf8_char c)).
Proof.
  intros Hv. pose proof Hv as [Hc Hs]. destruct (utf8_char c) as [|b l] eqn:Henc;
    [exfalso; revert Henc; unfold utf8_char; by repeat case_match|].
  assert (∃ lead, (if b <? 0x80 then 1%nat else if b <? 0xE0 then 2%nat else if b <? 0xF0 then 3%nat else 4%nat) = length (b :: l) ∧
    (if b <? 0x80 then b else if b <? 0xE0 then b - 0xC0 else if b <? 0xF0 then b - 0xE0 else b - 0xF0) = lead ∧
    foldl (λ c b, c * 64 + (b - 0x80)) lead l = c) as (lead&H1&H2&H3).
  2: { by eapply char_of_encoded. }
  unfold utf8_char in Henc.
  destruct (Z.ltb_spec c 0x80); [|destruct (Z.ltb_spec c 0x800); [|destruct (Z.ltb_spec c 0x10000)]]; injection Henc as <- <-;
    eexists; (split; [|split; [reflexivity|]]); cbn [foldl length];
    repeat match goal with |- context [?x <? ?y] => destruct (Z.ltb_spec x y); try (exfalso; dlia) end; try done; dlia.
Qed.

(** Decoding undoes encoding. *)
Lemma utf8_roundtrip s : Forall valid_char s → from_utf8 (utf8 s) = Some s.
Proof.
  unfold from_utf8. intros Hs. assert (∀ n, (length (utf8 s) <= n)%nat → from_utf8_loop n (utf8 s) = Some s) as H; [|by apply H].
  induction Hs as [|c s Hc _ IH]; intros n Hn; [by destruct n|].
  change (utf8 (c :: s)) with (utf8_char c ++ utf8 s) in *. rewrite length_app in Hn.
  assert (0 < length (utf8_char c))%nat as Hpos by (unfold utf8_char; repeat case_match; simpl; lia).
  destruct n as [|n]; [lia|]. cbn [from_utf8_loop].
  pose proof (utf8_char_decodes c (utf8 s) Hc) as Hd. destruct (utf8_char c ++ utf8 s) as [|b l] eqn:Heq; [done|].
  rewrite Hd. cbn [mbind option_bind]. rewrite <- Heq, drop_app_length, IH by lia. done.
Qed.

(** ** Areas with bytes in them *)

Section loading.
Context {A : Type} {ops : BitAlloc A} {V : BitAllocView A} {BS : BitAllocSpec A}.
Context {cfg : PageFrameConfig} {CO : ConfigOk cfg (CAP A)}.
Context {FW F : Type} {HF : File FW F} {AF : AppFiles FW}.
Context {SB : StaleBytes} {EP : ElfParser}.
Context (R : Z → bool) (others : list Frame).

Implicit Types vm : MemorySet (F := F).
Implicit Types w : VmWorld A FW.

(** A call that failed: the space as it was, no frame taken. *)
Definition gave_up {X} vm w (e : OSError) (o : outcome (OSResult X * MemorySet (F := F) * VmWorld A FW)) : Prop :=
  ∃ a, o = Ret ((OsErr e, vm), mkVmWorld (vw_pt w) a (vw_mem w) (vw_files w)) ∧ frames_inv R a others.

(** The area [lo, hi) holds [data] at [at_], zeros around it, and its frames
    are its own: what is pushed. *)
Definition pushes vm w (lo hi flags at_ : Z) (data : list Z) (o : outcome (OSResult unit * MemorySet (F := F) * VmWorld A FW)) : Prop :=
  ∃ p w1, o = MemorySet.push vm (mkVmArea lo hi flags (PmLazy p)) w1 ∧
    area_bytes p = splice (at_ - lo) data (repeat 0 (Z.to_nat (hi - lo))) ∧ lazy_ok R others p w1 ∧
    vw_pt w1 = vw_pt w ∧ vw_mem w1 = vw_mem w ∧ vw_files w1 = vw_files w.

Lemma push_filled_ok pages offset data s e flags vm w : frames_inv R (vw_alloc w) others → 0 < pages <= 1048576 →
  0 <= offset < 4096 * pages → offset + len data <= 4096 * pages → 0 <= s < e → e + 4095 < 2 ^ 64 →
  let lo := s / 4096 * 4096 in let hi := (e + 4095) / 4096 * 4096 in
  if free_count (vw_alloc w) <? pages_under offset (len data)
  then gave_up vm w Memory_RunOutOfMemory (push_filled pages offset data s e flags vm w)
  else if hi - lo =? 4096 * pages
  then pushes vm w lo hi flags (lo + offset) data (push_filled pages offset data s e flags vm w)
  else gave_up vm w VmArea_VmSizeNotEqualToPmSize (push_filled pages offset data s e flags vm w).
Proof.
  intros Hinv Hp Ho Hd Hse He lo hi.
  destruct (lazy_new_ok (F := F) R others pages None w Hp Hinv) as (p&Hnew&Hok&Hl&Hz&Hnone).
  unfold push_filled. rewrite Hnew.
  destruct (lazy_write_ok R others p offset data w Hok) as (r&p'&w'&Hw&(Hok'&Hl'&Hb'&Hpt&Hm&Hf&Hcase)&Hroom); [lia|lia|lia|].
  specialize (Hroom (λ i slot _, Hnone i slot)).
  assert (∀ err, gave_up (X := unit) vm w err ((_ ← lazy_drop p'; mret (OsErr err, vm)) w')) as Hdrop.
  { intros err. destruct (lazy_drop_ok R others p' w' (proj2 Hok')) as (a&Hd'&Hi'). exists a. split; [|done].
    unfold mbind, M_bind. rewrite Hd'. by rewrite Hpt, Hm, Hf. }
  destruct (Z.ltb_spec (free_count (vw_alloc w)) (pages_under offset (len data))) as [Hlow|Hroomy].
  { rewrite (proj2 Hroom Hlow) in Hw. step Hw. apply Hdrop. }
  destruct Hcase as [[-> Hbytes]|[-> _]]; [|exfalso; pose proof (proj1 Hroom eq_refl); lia]. step Hw.
  assert (vm_new s e flags (PmLazy p') =
    if hi - lo =? 4096 * pages then OsOk (mkVmArea lo hi flags (PmLazy p')) else OsErr VmArea_VmSizeNotEqualToPmSize) as Hvm.
  { unfold vm_new. destruct (Z.leb_spec e s); [lia|]. rewrite align_down_div by (unfold word; lia).
    rewrite align_up_div by lia. fold lo hi. cbn [pm_size]. rewrite lazy_size_small by lia.
    rewrite wrap_small by (unfold word, hi, lo; dlia). replace (Z.of_nat (length (lz_frames p')) * 4096) with (4096 * pages) by lia.
    by destruct (hi - lo =? 4096 * pages). }
  rewrite Hvm. destruct (Z.eqb_spec (hi - lo) (4096 * pages)) as [Heq|]; [|apply Hdrop].
  exists p', w'. split_and!; try done. by rewrite Hbytes, Hz, Heq, Z.add_simpl_l.
Qed.

(** A loadable segment: the area of its pages, moved by [dyn_base]. *)
Lemma load_segment_ok dyn_base ph data vm w : frames_inv R (vw_alloc w) others → ph_type ph = SegLoad →
  ph_data ph = Undefined data → len data <= ph_mem_size ph → 0 < ph_mem_size ph <= 2 ^ 32 - 4096 →
  0 <= ph_vaddr ph < 2 ^ 62 → 0 <= dyn_base < 2 ^ 62 → dyn_base mod 4096 = 0 →
  let s := ph_vaddr ph + dyn_base in let e := s + ph_mem_size ph in
  gave_up vm w Memory_RunOutOfMemory (load_segment dyn_base ph vm w) ∨
  pushes vm w (s / 4096 * 4096) ((e + 4095) / 4096 * 4096) (seg_flags ph) s data (load_segment dyn_base ph vm w).
Proof.
  intros Hinv Ht Hd Hlen Hmem Hva Hdyn Hal s e. unfold load_segment. rewrite Ht. rewrite bool_decide_eq_true_2 by done. cbn [negb].
  pose proof (len_nonneg data). rewrite page_offset_mod. rewrite (wrap_small 64 (ph_mem_size ph + _)) by (unfold word; dlia).
  rewrite page_count_div by dlia. set (off := ph_vaddr ph mod 4096). set (pages := (ph_mem_size ph + off + 4095) / 4096).
  assert (0 <= off < 4096) as Hoff by (unfold off; dlia). assert (0 < pages <= 1048576) as Hpages by (unfold pages; dlia).
  destruct (lazy_new_ok (F := F) R others pages None w Hpages Hinv) as (p&Hnew&_). rewrite Hnew.
  unfold undefined_data. rewrite Hd.
  rewrite (wrap_small 64 (ph_vaddr ph + dyn_base)), (wrap_small 64 (ph_vaddr ph + ph_mem_size ph)),
    (wrap_small 64 (_ + _ + dyn_base)) by (unfold word; lia).
  replace (ph_vaddr ph + ph_mem_size ph + dyn_base) with e by lia. fold s.
  change (gave_up vm w Memory_RunOutOfMemory (push_filled pages off data s e (seg_flags ph) vm w) ∨
    pushes vm w (s / 4096 * 4096) ((e + 4095) / 4096 * 4096) (seg_flags ph) s data (push_filled pages off data s e (seg_flags ph) vm w)).
  pose proof (push_filled_ok pages off data s e (seg_flags ph) vm w Hinv Hpages) as Hp. cbv zeta in Hp.
  destruct (free_count (vw_alloc w) <? pages_under off (len data)); [left; apply Hp; unfold pages; dlia|right].
  specialize (Hp ltac:(lia) ltac:(unfold pages; dlia) ltac:(lia) ltac:(lia)).
  destruct (Z.eqb_spec ((e + 4095) / 4096 * 4096 - s / 4096 * 4096) (4096 * pages)) as [_|Hne].
  - replace (s / 4096 * 4096 + off) with s in Hp by (unfold s, off; dlia). exact Hp.
  - exfalso. apply Hne. unfold pages, e, s, off. dlia.
Qed.

(** The first stack: its area ends where the stack pointer is, so it has all
    its pages only when the strings take less than one. *)
Lemma push_stack_ok st vm w : frames_inv R (vw_alloc w) others → 0 < len st < 0x200000 →
  if free_count (vw_alloc w) <? (len st + 4095) / 4096
  then gave_up vm w Memory_RunOutOfMemory (push_stack st vm w)
  else if len st <? 4096
  then ∃ p w1, push_stack st vm w = (lbind (λ vm, MemorySet.push vm (mkVmArea USER_STACK_OFFSET 0x40000000 22 (PmLazy p)))
                                     (λ _, lret (0x40000000 - len st))) vm w1 ∧
    area_bytes p = splice (USER_STACK_SIZE - len st) st (repeat 0 (Z.to_nat USER_STACK_SIZE)) ∧ lazy_ok R others p w1 ∧
    vw_pt w1 = vw_pt w ∧ vw_mem w1 = vw_mem w ∧ vw_files w1 = vw_files w
  else gave_up vm w VmArea_VmSizeNotEqualToPmSize (push_stack st vm w).
Proof.
  intros Hinv Hlen. unfold push_stack. change (page_count USER_STACK_SIZE) with 512.
  change (Z.lor (Z.lor READ WRITE) USER) with 22. change (USER_STACK_OFFSET + USER_STACK_SIZE) with 0x40000000.
  change USER_STACK_SIZE with 0x200000. rewrite !(wrap_small 64 (0x200000 - _)), !(wrap_small 64 (0x40000000 - _)) by (unfold word; lia).
  set (s := USER_STACK_OFFSET). assert (s = 0x3FE00000) as Hs by done. set (e := 0x40000000 - len st).
  pose proof (push_filled_ok 512 (0x200000 - len st) st s e 22 vm w Hinv ltac:(lia) ltac:(lia) ltac:(lia) ltac:(unfold e; lia) ltac:(unfold e; lia)) as Hp.
  cbv zeta in Hp. replace (pages_under (0x200000 - len st) (len st)) with ((len st + 4095) / 4096) in Hp
    by (unfold pages_under; destruct (Z.eqb_spec (len st) 0); dlia).
  destruct (free_count (vw_alloc w) <? (len st + 4095) / 4096).
  { destruct Hp as (a&Hrun&Hi). exists a. split; [|done]. unfold lbind. by step Hrun. }
  replace (s / 4096 * 4096) with s in Hp by (rewrite Hs; done).
  destruct (Z.ltb_spec (len st) 4096) as [Hlt|Hge].
  - replace ((e + 4095) / 4096 * 4096) with 0x40000000 in Hp by (unfold e; dlia).
    replace (0x40000000 - s =? 4096 * 512) with true in Hp by (by rewrite Hs).
    destruct Hp as (p&w1&Hrun&Hb&Hok&Hpt&Hm&Hf). replace (s + (0x200000 - len st) - s) with (0x200000 - len st) in Hb by lia.
    replace (0x40000000 - s) with 0x200000 in Hb by (by rewrite Hs). exists p, w1. split_and!; [|exact Hb|exact Hok|done..].
    unfold lbind. unfold mbind, M_bind. by rewrite Hrun.
  - destruct (Z.eqb_spec ((e + 4095) / 4096 * 4096 - s) (4096 * 512)); [exfalso; unfold e in *; dlia|].
    destruct Hp as (a&Hrun&Hi). exists a. split; [|done]. unfold lbind. by step Hrun.
Qed.

(** ** Finding the program *)

Lemma lbind_ok {X Y} (x : LM X) (f : X → LM Y) vm w r vm' w' :
  x vm w = Ret ((OsOk r, vm'), w') → lbind x f vm w = f r vm' w'.
Proof. intros H. unfold lbind. by step H. Qed.

Lemma lbind_panic {X Y} (x : LM X) (f : X → LM Y) vm w : x vm w = Panic → lbind x f vm w = Panic.
Proof. intros H. unfold lbind, mbind, M_bind. by rewrite H. Qed.

Lemma of_outcome_run {X} (o : outcome X) vm w : of_outcome o vm w = (r ← o; Ret ((OsOk r, vm), w)).
Proof. unfold of_outcome, lift, mbind, M_bind. by destruct o. Qed.

Lemma read_app_run dir name data vm w w' : on_files (app_read dir name) w = Ret (data, w') →
  read_app dir name vm w = Ret ((OsOk data, vm), w').
Proof. intros H. unfold read_app. by step H. Qed.

(** A file that is there and that the parser answers [elf] for. *)
Lemma parse_app_run fuel stale dir name args vm w w' data : ends_with_s (lit ".sh") name = false →
  on_files (app_read dir name) w = Ret (Some data, w') →
  parse_user_app (S fuel) stale dir name args vm w =
    lbind (loader_new data) (λ elf,
      match list_find (λ ph, ph_type ph = SegInterp) (elf_phs elf) with
      | Some (_, interp_header) =>
          lbind (undefined_data interp_header) (λ data, lbind (of_outcome (raw_ptr_to_ref_str data)) (λ path,
            match rsplit_slash path with
            | Some (dir, name) => parse_user_app fuel stale dir name (path :: args)
            | None => parse_user_app fuel stale ROOT_DIR path (path :: args)
            end))
      | None => init_vm_static stale elf args
      end) vm w'.
Proof.
  intros Hsh Hread. cbn [parse_user_app]. unfold the_app. rewrite Hsh.
  rewrite (lbind_ok _ _ _ _ (dir, name, args) vm w) by (by rewrite of_outcome_run).
  cbv beta iota. by rewrite (lbind_ok _ _ _ _ _ _ _ (read_app_run _ _ _ vm w w' Hread)).
Qed.

(** A file that is no ELF file. *)
Lemma not_elf_panics fuel stale dir name args data vm w w' : ends_with_s (lit ".sh") name = false →
  on_files (app_read dir name) w = Ret (Some data, w') → elf_new data = None →
  parse_user_app fuel stale dir name args vm w = Panic.
Proof.
  intros Hsh Hread Helf. destruct fuel as [|fuel]; [done|]. rewrite (parse_app_run _ _ _ _ _ _ _ _ _ Hsh Hread).
  apply lbind_panic. unfold loader_new. apply lbind_panic. by rewrite of_outcome_run, Helf.
Qed.

(** A program that is its own interpreter: every turn finds the next. *)
Lemma self_interpreter_never_loads fuel stale dir name data elf k ph bs path :
  (∀ w, on_files (A := A) (app_read dir name) w = Ret (Some data, w)) → ends_with_s (lit ".sh") name = false →
  elf_new data = Some elf → elf_class64 elf = true → elf_machine elf = EM_RISCV →
  list_find (λ ph, ph_type ph = SegInterp) (elf_phs elf) = Some (k, ph) → ph_data ph = Undefined bs →
  raw_ptr_to_ref_str bs = Ret path → rsplit_slash path = Some (dir, name) →
  ∀ args vm w, parse_user_app fuel stale dir name args vm w = Panic.
Proof.
  intros Hread Hsh Helf Hc Hm Hph Hbs Hpath Hsplit. induction fuel as [|fuel IH]; intros args vm w; [done|].
  rewrite (parse_app_run _ _ _ _ _ _ _ _ _ Hsh (Hread w)).
  assert (loader_new data vm w = Ret ((OsOk elf, vm), w)) as Hnew.
  { unfold loader_new. rewrite (lbind_ok _ _ _ _ elf vm w) by (by rewrite of_outcome_run, Helf). by rewrite Hc, Hm. }
  rewrite (lbind_ok _ _ _ _ _ _ _ Hnew), Hph. unfold undefined_data. rewrite Hbs.
  rewrite (lbind_ok (lret bs) _ vm w bs vm w) by done.
  rewrite (lbind_ok _ _ vm w path vm w) by (by rewrite of_outcome_run, Hpath). rewrite Hsplit. apply IH.
Qed.
End loading.

(** ** [exec] *)

Section exec.
Context {A : Type} {ops : BitAlloc A} {cfg : PageFrameConfig}.
Context {FW F : Type} {HF : File FW F} {AF : AppFiles FW}.
Context {SB : StaleBytes} {EP : ElfParser}.
Context {FA : Type} {fops : BitAlloc FA} (cloexec : F → bool).
Implicit Types t : Tcb (A := A) (FW := FW) (F := F) (FA := FA).

Definition with_files t fw : Tcb := with_proc t (mkProc (p_vm (x_proc t))
  (mkVmWorld (vw_pt (p_world (x_proc t))) (vw_alloc (p_world (x_proc t))) (vw_mem (p_world (x_proc t))) fw)
  (p_fds (x_proc t)) (user_heap_top (x_proc t))).

(** A program that is not there: nothing changes but what looking did, and the
    system call ends the caller. *)
Lemma exec_missing fuel stale now name args t fw :
  app_exists (x_dir t) name (vw_files (p_world (x_proc t))) = Ret (false, fw) →
  exec cloexec fuel stale now name args t = Ret (false, with_files t fw) ∧
  sys_exec cloexec fuel stale now name args t = Ret (None, with_files t fw).
Proof.
  intros Hno. assert (exec cloexec fuel stale now name args t = Ret (false, with_files t fw)) as He.
  { unfold exec, on_tproc, on_proc_files, on_files. unfold mbind, M_bind. cbn. by rewrite Hno. }
  split; [done|]. unfold sys_exec, mbind, M_bind. by rewrite He.
Qed.

Lemma bind_inv {W X Y} (x : M W X) (f : X → M W Y) w r w' : (y ← x; f y) w = Ret (r, w') →
  ∃ y w1, x w = Ret (y, w1) ∧ f y w1 = Ret (r, w').
Proof. unfold mbind, M_bind. destruct (x w) as [[y w1]|]; [|done]. by exists y, w1. Qed.

(** Calls on the address space leave the rest of the task alone. *)
Definition same_rest t t' : Prop :=
  x_handlers t' = x_handlers t ∧ x_receivers t' = x_receivers t ∧ x_time t' = x_time t ∧ x_dir t' = x_dir t ∧
  user_heap_top (x_proc t') = user_heap_top (x_proc t) ∧ p_fds (x_proc t') = p_fds (x_proc t).

Lemma on_tproc_rest {X} (f : MemorySet (F := F) → M (VmWorld A FW) (X * MemorySet (F := F))) t r t' :
  on_tproc (on_vm f) t = Ret (r, t') → same_rest t t' ∧ x_context t' = x_context t.
Proof.
  unfold on_tproc, on_vm, mbind, M_bind. cbn. destruct (f _ _) as [[[x vm] w]|]; [|done]. cbn. intros [= <- <-]. by split.
Qed.

Lemma stack_word_rest a t r t' : stack_word a t = Ret (r, t') → same_rest t t'.
Proof.
  unfold stack_word, mbind at 1, M_bind at 1. destruct (on_tproc _ t) as [[[r0 bs] t1]|] eqn:Hr; [|done].
  apply on_tproc_rest in Hr as [Hr _]. destruct r0; [|done]. by intros [= <- <-].
Qed.

(** What a task keeps, and has lost, when [exec] found the program, loaded or
    not. *)
Lemma exec_clears fuel stale now name args t fw b t' :
  app_exists (x_dir t) name (vw_files (p_world (x_proc t))) = Ret (true, fw) →
  exec cloexec fuel stale now name args t = Ret (b, t') →
  x_handlers t' = map (λ _, None) (x_handlers t) ∧ x_receivers t' = mkRecv 0 0 ∧ x_time t' = ts_clear now (x_time t) ∧
  x_dir t' = x_dir t ∧ user_heap_top (x_proc t') = USER_STACK_OFFSET ∧
  p_fds (x_proc t') = close_cloexec_files cloexec (p_fds (x_proc t)) ∧
  (b = false → x_context t' = x_context t).
Proof.
  intros Hex Hrun. unfold exec in Hrun. apply bind_inv in Hrun as (dir&t0&[= <- <-]&Hrun).
  apply bind_inv in Hrun as (ex&t1&Hfs&Hrun).
  unfold on_tproc, on_proc_files, on_files, mbind, M_bind in Hfs. cbn in Hfs. rewrite Hex in Hfs. injection Hfs as <- <-.
  cbn [negb] in Hrun. apply bind_inv in Hrun as (u&t2&Hclear&Hrun).
  unfold exec_clear, mbind, M_bind in Hclear. destruct (clear_user_pages_and_save_kernel _ _) as [[vm w]|]; [|done].
  injection Hclear as <- <-. apply bind_inv in Hrun as (r&t3&Hparse&Hrun).
  apply on_tproc_rest in Hparse as [(H1&H2&H3&H4&H5&H6) H7]. cbn in H1, H2, H3, H4, H5, H6, H7.
  destruct r as [[entry sp]|e].
  - apply bind_inv in Hrun as (argc&t4&Hword&Hrun). apply stack_word_rest in Hword as (G1&G2&G3&G4&G5&G6).
    injection Hrun as <- <-. cbn. split_and!; try (congruence || done); [by rewrite G1, H1|by rewrite G2, H2].
  - injection Hrun as <- <-. split_and!; congruence || done.
Qed.
End exec.


(** ** Properties *)

Section properties.
Context {A : Type} {ops : BitAlloc A} {V : BitAllocView A} {BS : BitAllocSpec A}.
Context {cfg : PageFrameConfig} {CO : ConfigOk cfg (CAP A)}.
Context {FW F : Type} {HF : File FW F} {AF : AppFiles FW}.
Context {SB : StaleBytes} {EP : ElfParser}.
Context (R : Z → bool) (others : list Frame).

(** C29. Loading a segment of a program pushes the area of whole pages around
    its addresses, moved by the base of a dynamic program, with the rights of
    the segment: the bytes of the file stand at the segment's address and
    zeros before and behind them, so also for the part that is in memory only,
    and the frames of the pages are the area's own.  Or the memory runs out;
    then the address space is as it was and every frame is given back. *)
Theorem segment_holds_file (dyn_base : Z) (ph : ProgramHeader) (data : list Z) (vm : MemorySet (F := F)) (w : VmWorld A FW) :
  frames_inv R (vw_alloc w) others → ph_type ph = SegLoad → ph_data ph = Undefined data →
  len data <= ph_mem_size ph → 0 < ph_mem_size ph <= 2 ^ 32 - 4096 →
  0 <= ph_vaddr ph < 2 ^ 62 → 0 <= dyn_base < 2 ^ 62 → dyn_base mod 4096 = 0 →
  let s := ph_vaddr ph + dyn_base in let e := s + ph_mem_size ph in
  gave_up R others vm w Memory_RunOutOfMemory (load_segment dyn_base ph vm w) ∨
  pushes R others vm w (s / 4096 * 4096) ((e + 4095) / 4096 * 4096) (seg_flags ph) s data (load_segment dyn_base ph vm w).
Proof. apply load_segment_ok. Qed.

(** C37. [push_stack], the first stack of a program, of less than the 2 MB of the
    user's stack. When fewer frames are free than the pages of strings, vectors
    and words, it answers that the memory ran out, and only then. Else, with less
    than one page of them, it pushes the area of the user's stack, all of its
    pages, with those bytes right below its top and zeros elsewhere, and the
    stack pointer is where they begin; with a page or more the area would end
    below its last page, and it answers the size error. With an error the address
    space is as it was before the call, with the segments pushed until then, and
    every frame the call took is given back. *)
Theorem first_stack_within_a_page (st : list Z) (vm : MemorySet (F := F)) (w : VmWorld A FW) :
  frames_inv R (vw_alloc w) others → 0 < len st < 0x200000 →
  if free_count (vw_alloc w) <? (len st + 4095) / 4096
  then gave_up R others vm w Memory_RunOutOfMemory (push_stack st vm w)
  else if len st <? 4096
  then ∃ p w1, push_stack st vm w = (lbind (λ vm, MemorySet.push vm (mkVmArea USER_STACK_OFFSET 0x40000000 22 (PmLazy p)))
                                     (λ _, lret (0x40000000 - len st))) vm w1 ∧
    area_bytes p = splice (USER_STACK_SIZE - len st) st (repeat 0 (Z.to_nat USER_STACK_SIZE)) ∧ lazy_ok R others p w1 ∧
    vw_pt w1 = vw_pt w ∧ vw_mem w1 = vw_mem w ∧ vw_files w1 = vw_files w
  else gave_up R others vm w VmArea_VmSizeNotEqualToPmSize (push_stack st vm w).
Proof. apply push_stack_ok. Qed.
End properties.

Import MemorySetSpec.Small.

(** Three bytes at [0x12010] in a segment of a hundred, for a program that is
    moved. *)
Lemma segment_holds_file_witness :
  pushes first_16 [] (mkMemorySet (ram_new 0) true) world0 0x4012000 0x4013000 22 0x4012010 [7; 8; 9]
    (load_segment (F := unit) ELF_BASE_RELOCATE (mkPh SegLoad 0 0x12010 100 true true false (Undefined [7; 8; 9]))
      (mkMemorySet (ram_new 0) true) world0).
Proof.
  destruct (segment_holds_file (F := unit) first_16 [] ELF_BASE_RELOCATE (mkPh SegLoad 0 0x12010 100 true true false (Undefined [7; 8; 9]))
    [7; 8; 9] (mkMemorySet (ram_new 0) true) world0 world0_frames) as [(a&H&_)|H]; try done; try (cbn; lia).
Defined.

(** A page of bytes. *)
Lemma first_stack_within_a_page_witness :
  ∃ a, push_stack (F := unit) (repeat 1 4096) (mkMemorySet (ram_new 0) true) world0 =
    Ret ((OsErr VmArea_VmSizeNotEqualToPmSize, mkMemorySet (ram_new 0) true), mkVmWorld (vw_pt world0) a (vw_mem world0) (vw_files world0)).
Proof.
  assert (len (repeat 1 4096) = 4096) as Hl by (unfold len; by rewrite repeat_length).
  pose proof (first_stack_within_a_page (F := unit) first_16 [] (repeat 1 4096) (mkMemorySet (ram_new 0) true) world0 world0_frames) as H.
  rewrite Hl in H. assert ((free_count (vw_alloc world0) <? (4096 + 4095) / 4096) = false) as E by by vm_compute.
  rewrite E in H. destruct H as (a&H&_); [lia|]. by exists a.
Defined.
