(* ===== verification/Programs.v ===== *)
(** * The files of programs (kernel/src/loaders/mod.rs over kernel/src/file)

    What the loader asks of the files by name, as the kernel's files by name
    give it: the check that a program is there and its whole content. *)

From S2P Require Import Prelude Bytes BitAlloc Addr PageFrame FatIo FatTime FatTable DirEntry BootSector FatFs DiskFile.
From S2P Require Import DirNames Dir.
From S2P Require BaseFile FatFile.
From S2P Require Import VirtFile Errors Paths Vfs FileNs Loader.

Section programs.
Context {D : Type} `{Stream D} {TP : TimeProvider}.
Context {A : Type} `{BitAlloc A} `{PageFrameConfig}.

Abbreviation K := (Kfs (D := D) (A := A)).

Definition O_RDONLY : Z := 0.

Definition open_to_read (dir name : list Z) : M K (option (OpenFile (D := D))) := k_open_file dir name O_RDONLY.

(** [read_all] of a file of the volume, which is dropped then. *)
Definition read_and_drop (file : FileSystem D → File D) : M K (list Z) :=
  '(data, file) ← on_file_of (A := A) file FatFile.fat_read_all;
  _ ← drop_file file;
  mret data.

(** [open_file(dir, name, RDONLY).map(|node| node.read_all())]: only files of
    the volume have a [read_all]; the one the trait provides is not
    implemented. *)
Definition open_and_read_all (dir name : list Z) : M K (option (list Z)) := λ w,
  '(node, w) ← open_to_read dir name w;
  match node with
  | None => Ret (None, w)
  | Some (OFat _ _ _ _ file) => '(data, w) ← read_and_drop file w; Ret (Some data, w)
  | Some _ => Panic
  end.

#[export] Instance kfs_apps : AppFiles K :=
  {| app_exists := check_file_exists (D := D) (A := A); app_read := open_and_read_all |}.

(** The program [/dev/null], and every other virtual file. *)
Lemma virtual_program_panics dir name w f w' :
  open_to_read dir name w = Ret (Some (OVirt f), w') → app_read dir name w = Panic.
Proof. intros Ho. unfold app_read. cbn. unfold open_and_read_all. by rewrite Ho. Qed.
End programs.
