(* ===== verification/FileStat.v ===== *)
(** * Attributes of files (modules/base-file/src/kstat.rs, the [get_stat]s, stdio.rs, and the calls on them)

    What a file says of itself, the console files, and the calls that ask for
    attributes or set the times of a file.  The records of the user are written
    in place: what a file does not write stays. *)

From S2P Require Import Prelude Bytes BitAlloc Addr PageFrame FatIo FatTime FatTable DirEntry BootSector FatFs DiskFile.
From S2P Require Import DirNames Dir.
From S2P Require Import Errors Paths VirtFile Vfs FdTable FdCalls FileNs PathCalls TimeStat.
From S2P Require Loader FatFile.
From S2P Require Import FatFileSpec.
From stdpp Require pretty.

(** ** [StMode] and [Kstat] *)

Definition S_IFREG : Z := 2 ^ 15.
Definition S_IFDIR : Z := 2 ^ 14.
Definition S_IFCHR : Z := 2 ^ 13.
Definition S_IWUSR : Z := 2 ^ 9.
Definition S_IWGRP : Z := 2 ^ 5.
Definition S_IRGRP : Z := 2 ^ 4.

Definition normal_file_mode (file_type : Z) : Z := Z.lor (Z.lor (Z.lor (Z.lor file_type S_IWUSR) S_IWUSR) S_IWGRP) S_IRGRP.

Record Kstat := mkKstat {
  st_dev : Z; st_ino : Z; st_mode : Z; st_nlink : Z; st_uid : Z; st_gid : Z; st_rdev : Z; st_pad0 : Z;
  st_size : Z; st_blksize : Z; st_pad1 : Z; st_blocks : Z;
  st_atime : Z * Z; st_mtime : Z * Z; st_ctime : Z * Z }.

(** The fields every [get_stat] writes; with the times, which the console files
    leave alone. *)
Definition write_stat (dev ino nlink file_type size : Z) (stat : Kstat) : Kstat :=
  mkKstat dev ino (normal_file_mode file_type) nlink 0 0 (st_rdev stat) (st_pad0 stat) size (st_blksize stat) (st_pad1 stat)
    (st_blocks stat) (st_atime stat) (st_mtime stat) (st_ctime stat).
Definition write_times (atime mtime ctime : Z * Z) (stat : Kstat) : Kstat :=
  mkKstat (st_dev stat) (st_ino stat) (st_mode stat) (st_nlink stat) (st_uid stat) (st_gid stat) (st_rdev stat) (st_pad0 stat)
    (st_size stat) (st_blksize stat) (st_pad1 stat) (st_blocks stat) atime mtime ctime.
Definition no_times : Kstat → Kstat := write_times (0, 0) (0, 0) (0, 0).

Definition stdio_stat : Kstat → Kstat := write_stat 1 1 1 S_IFCHR 0.
Definition null_stat (stat : Kstat) : Kstat := no_times (write_stat 0 0 1 S_IFCHR 0 stat).
Definition zero_stat (stat : Kstat) : Kstat := no_times (write_stat 0 0 1 S_IFCHR 0 stat).
Definition virt_file_stat (file_size : Z) (stat : Kstat) : Kstat := no_times (write_stat 0 0 1 S_IFREG file_size stat).
Definition virt_dir_stat (stat : Kstat) : Kstat := no_times (write_stat 2 0 1 S_IFDIR 0 stat).
Definition fd_dir_stat (stat : Kstat) : Kstat := no_times (write_stat 1 0 1 S_IFDIR 0 stat).

(** ** The console files (stdio.rs) *)

(** The console of the platform: a character that came or 0 or 255, a string
    that goes out; the core goes to other tasks. *)
Class Console (W : Type) := {
  getchar : W → Z * W;
  stdout_puts : list Z → W → W;
  stderr_puts : list Z → W → W;
  suspend : W → W }.

Section stdio.
Context {W : Type} `{Console W}.

(** The loop of [Stdin::read]; without end when nothing is typed. *)
Fixpoint stdin_loop (fuel : nat) (w : W) : option (Z * W) :=
  match fuel with
  | O => None
  | S fuel =>
      let '(c, w) := getchar w in
      if (c =? 0) || (c =? 255) then stdin_loop fuel (suspend w) else Some (c, w)
  end.

Definition stdin_read (fuel : nat) (buf : list Z) (w : W) : option (option Z * list Z * W) :=
  match buf with
  | [] => Some (Some 0, buf, w)
  | _ :: rest => '(c, w) ← stdin_loop fuel w; Some (Some 1, c :: rest, w)
  end.

Definition stdout_write (buf : list Z) (w : W) : option Z * W :=
  match Loader.from_utf8 buf with
  | Some data => (Some (len buf), stdout_puts data w)
  | None => (None, w)
  end.

(** Bytes that are not UTF-8 go out as numbers. *)
Definition stderr_write (buf : list Z) (w : W) : option Z * W :=
  match Loader.from_utf8 buf with
  | Some data => (Some (len buf), stderr_puts data w)
  | None => (Some (len buf), foldl (λ w b, stderr_puts (lit (pretty.pretty (Z.to_N b)) ++ [32]) w) w buf)
  end.
End stdio.

(** ** Attributes of open files *)

(** [FatFileInnner] without its flags, which [OFat] has. *)
Record FatTimes := mkTimes { f_atime : TimeSpec; f_mtime : TimeSpec; f_ctime : TimeSpec }.

(** [TimeSpec::default()] thrice: the times of a file as it is opened. *)
Definition new_times : FatTimes := mkTimes (mkSpec 0 0) (mkSpec 0 0) (mkSpec 0 0).

Definition pair_of (t : TimeSpec) : Z * Z := (swrap 64 (tv_sec t), swrap 64 (tv_nsec t)).

(** [FsStat] *)
Record FsStat := mkFsStat {
  f_type : Z; f_bsize : Z; f_blocks : Z; f_bfree : Z; f_bavail : Z; f_files : Z; f_ffree : Z; f_fsid : list Z;
  f_namelen : Z; f_frsize : Z; f_flags : Z; f_spare : list Z }.

(** [get_fs_stat]: constants. *)
Definition get_fs_stat : FsStat :=
  mkFsStat 0 512 (0x40000000 / 512) 1 1 1 1 [0; 0] 256 0x1000 0 [0; 0; 0; 0].

Section stat.
Context {D : Type} `{Stream D} {TP : TimeProvider}.
Context {A : Type} `{BitAlloc A} `{PageFrameConfig}.
Context {FA : Type} `{BitAlloc FA} {UM : UserMemory}.

Abbreviation Kfs := (FileNs.Kfs (D := D) (A := A)).
Abbreviation Task := (PathCalls.Task (D := D) (A := A) (FA := FA)).
Abbreviation OpenFile := (FileNs.OpenFile (D := D)).

(** [get_stat] of a file of the volume, with its times. *)
Definition fat_stat (dir name : list Z) (file : FileSystem D → File D) (times : FatTimes) (stat : Kstat)
    : M Kfs (Kstat * (FileSystem D → File D)) :=
  '(size, file) ← on_file_of file FatFile.fat_stat_size;
  nlink ← get_link_count dir name;
  mret (write_times (pair_of (f_atime times)) (pair_of (f_mtime times)) (pair_of (f_ctime times))
          (write_stat 1 1 (wrap 32 nlink) S_IFREG size stat), file).

(** [file.get_stat(kstat)] of what [open_file] returns: the record, when it was
    written, and the file. *)
Definition open_stat (file : OpenFile) (times : FatTimes) (stat : Kstat) : M Kfs (option Kstat * OpenFile) :=
  match file with
  | OVirt RNull => mret (Some (null_stat stat), file)
  | OVirt RZero => mret (Some (zero_stat stat), file)
  | OVirt (RFile p) => n ← gets (λ w, default 0 (VirtFile.vf_size <$> v_files (k_vfs w) !! p)); mret (Some (virt_file_stat n stat), file)
  | OVirt (RDir _) => mret (Some (virt_dir_stat stat), file)
  | ODir _ => mret (Some (fd_dir_stat stat), file)
  | OFat self dir name flags f =>
      '(stat, f) ← fat_stat dir name f times stat; mret (Some stat, OFat self dir name flags f)
  end.

(** A task with the times of its open files of the volume, by their address. *)
Record TimedTask := mkTimed { tt_task : Task; tt_times : gmap Z FatTimes }.

Definition on_task {R} (x : M Task R) : M TimedTask R := λ w,
  '(r, t) ← x (tt_task w); Ret (r, mkTimed t (tt_times w)).
Definition times_of (w : TimedTask) (p : Z) : FatTimes := default new_times (tt_times w !! p).

Definition set_open (p : Z) (file : OpenFile) : M Task unit := λ w,
  Ret (tt, mkTask (t_kfs w) (t_table w) (<[p := file]> (t_open w)) (t_dir w)).

(** [others]: what [get_stat] of a file that no path leads to writes, such as
    the console files; pipes and sockets write nothing.  The record is mapped
    memory of the user: the calls do not look. *)
Context (others : Z → option (Kstat → Kstat)).

Definition sys_fstat (fd : Z) (stat : Kstat) : M TimedTask (SysResult Z * Kstat) := λ w,
  r ← get_file (t_table (tt_task w)) fd;
  match r with
  | OsErr _ => Ret ((inr EINVAL, stat), w)
  | OsOk p =>
      match t_open (tt_task w) !! p with
      | Some file =>
          (r ← on_task ('(s, file) ← on_kfs (open_stat file (times_of w p) stat); _ ← set_open p file; mret s);
           mret (match r with Some stat => (inl 0, stat) | None => (inr EINVAL, stat) end)) w
      | None =>
          Ret (match others p with Some f => (inl 0, f stat) | None => (inr EINVAL, stat) end, w)
      end
  end.

(** [s.contains(t)] *)
Fixpoint contains_str (t s : list Z) : bool :=
  starts_with t s || match s with [] => false | _ :: s => contains_str t s end.

Definition TMP_CC : list Z := lit "tmp/cc".

(** The attributes of a fresh open file, which is dropped afterwards. *)
Definition stat_and_drop (file : OpenFile) (stat : Kstat) : M Kfs (SysResult Z * Kstat) :=
  '(s, file) ← open_stat file new_times stat;
  _ ← drop_open file;
  mret (match s with Some stat => (inl 0, stat) | None => (inr EINVAL, stat) end).

Definition sys_fstatat (dir_fd : Z) (path : list Z) (stat : Kstat) : M Task (SysResult Z * Kstat) :=
  r ← resolve dir_fd path;
  match r with
  | None => mret (inr EINVAL, stat)
  | Some (path, file) =>
      if contains_str TMP_CC file then mret (inl 0, stat)
      else
        node ← on_kfs (k_open_file path file 0);
        match node with
        | Some node => on_kfs (stat_and_drop node stat)
        | None =>
            node ← on_kfs (k_open_file path file O_DIR);
            match node with
            | Some node => on_kfs (stat_and_drop node stat)
            | None => mret (inr ENOENT, stat)
            end
        end
  end.

Definition sys_statfs (path : list Z) (stat : FsStat) : SysResult Z * FsStat :=
  if decide (path = [SLASH]) then (inl 0, get_fs_stat) else (inr EINVAL, stat).

(** ** Setting times *)

Definition set_times (now atime mtime : TimeSpec) (t : FatTimes) : FatTimes :=
  mkTimes (set_as_utime now (f_atime t) atime) (set_as_utime now (f_mtime t) mtime) (f_ctime t).

(** [now]: the clock.  [spec_addr] is the address of the two times [specs]. *)
Definition new_utimes (now : TimeSpec) (spec_addr : Z) (specs : TimeSpec * TimeSpec) : option (TimeSpec * TimeSpec) :=
  if spec_addr =? 0 then Some (now, now) else if manually_alloc_page spec_addr then Some specs else None.

(** A path: the file is opened, its times are set in the open file, and the
    open file is dropped. *)
Definition utime_path (parent_dir file_path : list Z) : M Task (SysResult Z) :=
  b ← on_kfs (check_file_exists parent_dir file_path);
  if b : bool then
    node ← on_kfs (k_open_file parent_dir file_path 0);
    match node with
    | Some node =>
        _ ← on_kfs (drop_open node);
        mret (match node with OFat _ _ _ _ _ => inl 0 | _ => inr EINVAL end)
    | None => mret (inr EINVAL)
    end
  else
    let full_dir := match rsplit_once SLASH file_path with Some (dir, _) => parent_dir ++ dir | None => parent_dir end in
    b ← on_kfs (check_dir_exists full_dir);
    mret (if b : bool then inr ENOENT else inr ENOTDIR).

Definition sys_utimensat (now : TimeSpec) (dir_fd addr : Z) (path : list Z) (spec_addr : Z) (specs : TimeSpec * TimeSpec)
    : M TimedTask (SysResult Z) := λ w,
  if negb (dir_fd =? AT_FDCWD) && (dir_fd <? 0) then Ret (inr EBADF, w)
  else if (dir_fd =? AT_FDCWD) && negb (manually_alloc_page addr) then Ret (inr EFAULT, w)
  else
    match new_utimes now spec_addr specs with
    | None => Ret (inr EFAULT, w)
    | Some (new_atime, new_mtime) =>
        if 0 <? dir_fd then
          r ← get_file (t_table (tt_task w)) dir_fd;
          match r with
          | OsErr _ => Ret (inr ENOENT, w)
          | OsOk p =>
              match t_open (tt_task w) !! p with
              | Some (OFat _ _ _ _ _) =>
                  Ret (inl 0, mkTimed (tt_task w) (<[p := set_times now new_atime new_mtime (times_of w p)]> (tt_times w)))
              | _ => Ret (inl 0, w)
              end
          end
        else
          on_task (
            r ← resolve_locked dir_fd path;
            match r with
            | Some (parent_dir, file_path) => utime_path parent_dir file_path
            | None => mret (inr ENOENT)
            end) w
    end.

End stat.

(** ** What the attributes are *)

(** Whatever kind of file it is, nobody may execute it and its owner may not
    even read it: bits 6 and 8 of a mode. *)
Lemma mode_bits file_type : file_type ∈ [S_IFREG; S_IFDIR; S_IFCHR] →
  Z.testbit (normal_file_mode file_type) 8 = false ∧ Z.testbit (normal_file_mode file_type) 7 = false ∧
  Z.testbit (normal_file_mode file_type) 6 = false ∧ Z.testbit (normal_file_mode file_type) 9 = true.
Proof. intros [->|[->|[->|[]%not_elem_of_nil]%elem_of_cons]%elem_of_cons]%elem_of_cons; by vm_compute. Qed.

(** *** The console *)

Section stdio_spec.
Context {W : Type} `{Console W}.

(** The world after [k] characters that are none. *)
Definition waited (k : nat) (w : W) : W := Nat.iter k (λ w, suspend (getchar w).2) w.

(** Reading waits for the first byte that is a character and takes one. *)
Lemma stdin_read_ok k fuel b rest w : (k < fuel)%nat →
  (∀ i, (i < k)%nat → (getchar (waited i w)).1 = 0 ∨ (getchar (waited i w)).1 = 255) →
  (getchar (waited k w)).1 ≠ 0 → (getchar (waited k w)).1 ≠ 255 →
  stdin_read fuel (b :: rest) w = Some (Some 1, (getchar (waited k w)).1 :: rest, (getchar (waited k w)).2).
Proof.
  intros Hf Hno H0 H255. cbn [stdin_read].
  enough (stdin_loop fuel w = Some (getchar (waited k w))) as -> by (by destruct (getchar (waited k w))).
  revert fuel w Hf Hno H0 H255. induction k as [|k IH]; intros [|fuel] w Hf Hno H0 H255; try lia; cbn [stdin_loop].
  - change (waited 0 w) with w in *. destruct (getchar w) as [c w']. cbn in *.
    by rewrite (proj2 (Z.eqb_neq _ _) H0), (proj2 (Z.eqb_neq _ _) H255).
  - assert (∀ i, waited (S i) w = waited i (suspend (getchar w).2)) as Hs by (intros i; unfold waited; by rewrite Nat.iter_succ_r).
    pose proof (Hno 0%nat ltac:(lia)) as Hc. change (waited 0 w) with w in Hc. rewrite Hs in *.
    destruct (getchar w) as [c w']. cbn [fst snd] in *.
    assert ((c =? 0) || (c =? 255) = true) as -> by (destruct Hc as [->| ->]; done).
    apply IH; [lia| |done..]. intros i Hi. rewrite <- Hs. apply Hno. lia.
Qed.
End stdio_spec.

(** *** Files of the volume *)

Section size.
Context {D : Type} {HD : Stream D} {FS : FileStream D}.

Lemma pos_and_len_ok d : fok d → ∃ d', FatFile.pos_and_len d = Ret ((fpos d, len (fdata d)), d') ∧
  fok d' ∧ fdata d' = fdata d ∧ fcap d' = fcap d ∧ fpos d' = fpos d.
Proof.
  intros Hd. pose proof (fok_bounds d Hd) as [Hpos Hlen].
  destruct (seek_in d (SCurrent 0) Hd) as (d1&H1&Hd1&Hf1&Hc1&Hp1); [unfold seek_target; lia|].
  destruct (seek_in d1 (SEnd 0) Hd1) as (d2&H2&Hd2&Hf2&Hc2&Hp2); [unfold seek_target; rewrite Hf1; lia|].
  destruct (seek_in d2 (SStart (fpos d)) Hd2) as (d3&H3&Hd3&Hf3&Hc3&Hp3); [unfold seek_target; lia|].
  unfold seek_target in *. rewrite Hf1 in *. rewrite Hf2 in *.
  assert (Z.min (fpos d + 0) (len (fdata d)) = fpos d) as E1 by lia. rewrite E1 in H1.
  assert (Z.min (len (fdata d) + 0) (len (fdata d)) = len (fdata d)) as E2 by lia. rewrite E2 in H2.
  assert (Z.min (fpos d) (len (fdata d)) = fpos d) as E3 by lia. rewrite E3 in Hp3.
  exists d3. unfold FatFile.pos_and_len.
  unfold mbind, M_bind. rewrite (inner_unwrap_ok _ _ _ _ H1). cbn. rewrite (inner_unwrap_ok _ _ _ _ H2). cbn.
  rewrite (inner_unwrap_ok _ _ _ _ H3). cbn. split; [done|]. split_and!; congruence.
Qed.

(** The size a file reports is its length, and asking moves nothing. *)
Lemma fat_stat_size_ok d : fok d → ∃ d', FatFile.fat_stat_size d = Ret (len (fdata d), d') ∧
  fok d' ∧ fdata d' = fdata d ∧ fcap d' = fcap d ∧ fpos d' = fpos d.
Proof.
  intros Hd. destruct (pos_and_len_ok d Hd) as (d'&Hr&Hrest). exists d'. split; [|done].
  unfold FatFile.fat_stat_size, mbind, M_bind. by rewrite Hr.
Qed.

(** A file that can be written says it is not ready for it where writing would
    extend it. *)
Lemma append_never_ready d : fok d → fpos d = len (fdata d) →
  ∃ d', FatFile.fat_ready_to_write (FatFile.mkFatFile true true) d = Ret (false, d').
Proof.
  intros Hd He. destruct (pos_and_len_ok d Hd) as (d'&Hr&_). exists d'.
  unfold FatFile.fat_ready_to_write, mbind, M_bind. cbn. rewrite Hr. cbn. by rewrite He, Z.eqb_refl.
Qed.
End size.

(** *** Times *)

Section times.
Context {D : Type} `{Stream D} {TP : TimeProvider}.
Context {A : Type} `{BitAlloc A} `{PageFrameConfig}.
Context {FA : Type} `{BitAlloc FA} {UM : UserMemory}.
Context (others : Z → option (Kstat → Kstat)).
Abbreviation TimedTask := (FileStat.TimedTask (D := D) (A := A) (FA := FA)).

(** Setting the times of a file by its path changes no times. *)
Lemma utime_path_forgets now addr path spec_addr specs (w w' : TimedTask) r :
  sys_utimensat now AT_FDCWD addr path spec_addr specs w = Ret (r, w') → tt_times w' = tt_times w.
Proof.
  unfold sys_utimensat. change (AT_FDCWD =? AT_FDCWD) with true. change (0 <? AT_FDCWD) with false. cbn [negb andb].
  destruct (manually_alloc_page addr); cbn [negb andb]; [|by intros [= _ <-]].
  destruct (new_utimes now spec_addr specs) as [[new_atime new_mtime]|]; [|by intros [= _ <-]].
  unfold on_task. destruct ((r0 ← resolve_locked AT_FDCWD path; _) (tt_task w)) as [[r1 t]|]; cbn; [|done].
  by intros [= _ <-].
Qed.

(** Setting them through a descriptor: [fstat] reports the times that were set,
    for parts that are neither of the special values. *)
Lemma utime_then_fstat now fd addr path spec_addr atime mtime (w : TimedTask) p self dir name flags file stat w2 s r :
  0 < fd → get_file (t_table (tt_task w)) fd = Ret (OsOk p) → t_open (tt_task w) !! p = Some (OFat self dir name flags file) →
  spec_addr ≠ 0 → manually_alloc_page spec_addr = true →
  tv_nsec atime ≠ UTIME_NOW → tv_nsec atime ≠ UTIME_OMIT → tv_nsec mtime ≠ UTIME_NOW → tv_nsec mtime ≠ UTIME_OMIT →
  ∃ w1, sys_utimensat now fd addr path spec_addr (atime, mtime) w = Ret (inl 0, w1) ∧ tt_task w1 = tt_task w ∧
    (sys_fstat others fd stat w1 = Ret ((r, s), w2) → r = inl 0 ∧ st_atime s = pair_of atime ∧ st_mtime s = pair_of mtime).
Proof.
  intros Hfd Hget Hopen Hs Hm Ha1 Ha2 Hm1 Hm2. unfold sys_utimensat.
  assert ((fd =? AT_FDCWD) = false) as -> by (apply Z.eqb_neq; unfold AT_FDCWD; lia).
  assert ((fd <? 0) = false) as -> by (apply Z.ltb_ge; lia).
  assert ((0 <? fd) = true) as -> by (apply Z.ltb_lt; lia). cbn [negb andb].
  unfold new_utimes. rewrite (proj2 (Z.eqb_neq _ _) Hs), Hm, Hget. cbn [mbind outcome_bind]. rewrite Hopen.
  eexists. split; [reflexivity|]. split; [done|].
  unfold sys_fstat. cbn [tt_task]. rewrite Hget. cbn [mbind outcome_bind]. rewrite Hopen.
  unfold times_of at 1. cbn [tt_times]. rewrite lookup_insert_eq. cbn [default]. unfold id.
  unfold open_stat, fat_stat, set_times, set_as_utime. cbn [f_atime f_mtime f_ctime].
  rewrite (proj2 (Z.eqb_neq _ _) Ha1), (proj2 (Z.eqb_neq _ _) Ha2), (proj2 (Z.eqb_neq _ _) Hm1), (proj2 (Z.eqb_neq _ _) Hm2).
  unfold on_task, on_kfs, mbind, M_bind. cbn [tt_task].
  destruct (on_file_of file FatFile.fat_stat_size (t_kfs (tt_task w))) as [[[n f] k]|]; cbn; [|done].
  destruct (get_link_count dir name k) as [[nlink k']|]; cbn; [|done]. by intros [= <- <- <-].
Qed.
End times.
