(* ===== verification/Syscalls.v ===== *)
(** * The dispatch of system calls (kernel/src/syscall/mod.rs, syscall_no.rs, loops.rs)

    The numbers of the calls, the words in the registers read as the arguments
    of a handler, the counter that ends a thread which calls without end, and
    what goes back to the user.  The handlers are an interface: their own files
    model them, and the calls on the memory of a process are an instance. *)

From S2P Require Import Prelude Bytes BitAlloc PageFrame Errors PageTable FatIo BaseFile RangeMap VmArea MemorySet.
From S2P Require Import FdTable Signals MemCalls.

Inductive SyscallNo :=
| UNKNOWN | GETCWD | EPOLL_CREATE | EPOLL_CTL | EPOLL_WAIT | DUP | DUP3 | FCNTL64 | IOCTL | MKDIR | UNLINKAT | LINKAT
| UMOUNT | MOUNT | STATFS | ACCESS | CHDIR | CHMOD | OPEN | CLOSE | PIPE | GETDENTS64 | LSEEK | READ | WRITE | READV
| WRITEV | PREAD | SENDFILE64 | PSELECT6 | PPOLL | READLINKAT | FSTATAT | FSTAT | FSYNC | FDATASYNC | UTIMENSAT
| EXIT | EXIT_GROUP | SET_TID_ADDRESS | FUTEX | SET_ROBUST_LIST | GET_ROBUST_LIST | NANOSLEEP | GETITIMER | SETITIMER
| CLOCK_GET_TIME | SYSLOG | YIELD | KILL | TKILL | SIGACTION | SIGPROCMASK | SIGTIMEDWAIT | SIGRETURN | TIMES | UNAME
| GETRUSAGE | UMASK | PRCTL | GET_TIME_OF_DAY | GETPID | GETPPID | GETUID | GETEUID | GETGID | GETEGID | GETTID
| SYSINFO | SOCKET | BIND | LISTEN | ACCEPT | CONNECT | GETSOCKNAME | GETPEERNAME | SENDTO | RECVFROM | SETSOCKOPT
| GETSOCKOPT | SHUDOWN | SENDMSG | RECVMSG | BRK | MUNMAP | CLONE | EXECVE | MMAP | MPROTECT | MSYNC | MADVISE
| ACCEPT4 | WAIT4 | PRLIMIT64 | RENAMEAT2 | MEMBARRIER.

#[export] Instance SyscallNo_eq_dec : EqDecision SyscallNo.
Proof. solve_decision. Defined.

(** [From<SyscallNo> for usize] *)
Definition number (s : SyscallNo) : Z :=
  match s with
  | UNKNOWN => 2 ^ 64 - 1 | GETCWD => 17 | EPOLL_CREATE => 20 | EPOLL_CTL => 21 | EPOLL_WAIT => 22 | DUP => 23
  | DUP3 => 24 | FCNTL64 => 25 | IOCTL => 29 | MKDIR => 34 | UNLINKAT => 35 | LINKAT => 37 | UMOUNT => 39
  | MOUNT => 40 | STATFS => 43 | ACCESS => 48 | CHDIR => 49 | CHMOD => 53 | OPEN => 56 | CLOSE => 57 | PIPE => 59
  | GETDENTS64 => 61 | LSEEK => 62 | READ => 63 | WRITE => 64 | READV => 65 | WRITEV => 66 | PREAD => 67
  | SENDFILE64 => 71 | PSELECT6 => 72 | PPOLL => 73 | READLINKAT => 78 | FSTATAT => 79 | FSTAT => 80 | FSYNC => 82
  | FDATASYNC => 83 | UTIMENSAT => 88 | EXIT => 93 | EXIT_GROUP => 94 | SET_TID_ADDRESS => 96 | FUTEX => 98
  | SET_ROBUST_LIST => 99 | GET_ROBUST_LIST => 100 | NANOSLEEP => 101 | GETITIMER => 102 | SETITIMER => 103
  | CLOCK_GET_TIME => 113 | SYSLOG => 116 | YIELD => 124 | KILL => 129 | TKILL => 130 | SIGACTION => 134
  | SIGPROCMASK => 135 | SIGTIMEDWAIT => 137 | SIGRETURN => 139 | TIMES => 153 | UNAME => 160 | GETRUSAGE => 165
  | UMASK => 166 | PRCTL => 167 | GET_TIME_OF_DAY => 169 | GETPID => 172 | GETPPID => 173 | GETUID => 174
  | GETEUID => 175 | GETGID => 176 | GETEGID => 177 | GETTID => 178 | SYSINFO => 179 | SOCKET => 198 | BIND => 200
  | LISTEN => 201 | ACCEPT => 202 | CONNECT => 203 | GETSOCKNAME => 204 | GETPEERNAME => 205 | SENDTO => 206
  | RECVFROM => 207 | SETSOCKOPT => 208 | GETSOCKOPT => 209 | SHUDOWN => 210 | SENDMSG => 211 | RECVMSG => 212
  | BRK => 214 | MUNMAP => 215 | CLONE => 220 | EXECVE => 221 | MMAP => 222 | MPROTECT => 226 | MSYNC => 227
  | MADVISE => 233 | ACCEPT4 => 242 | WAIT4 => 260 | PRLIMIT64 => 261 | RENAMEAT2 => 276 | MEMBARRIER => 283
  end.

(** The variants in the order of the declaration. *)
Definition all_numbers : list SyscallNo :=
  [UNKNOWN; GETCWD; EPOLL_CREATE; EPOLL_CTL; EPOLL_WAIT; DUP; DUP3; FCNTL64; IOCTL; MKDIR; UNLINKAT; LINKAT; UMOUNT;
   MOUNT; STATFS; ACCESS; CHDIR; CHMOD; OPEN; CLOSE; PIPE; GETDENTS64; LSEEK; READ; WRITE; READV; WRITEV; PREAD;
   SENDFILE64; PSELECT6; PPOLL; READLINKAT; FSTATAT; FSTAT; FSYNC; FDATASYNC; UTIMENSAT; EXIT; EXIT_GROUP;
   SET_TID_ADDRESS; FUTEX; SET_ROBUST_LIST; GET_ROBUST_LIST; NANOSLEEP; GETITIMER; SETITIMER; CLOCK_GET_TIME; SYSLOG;
   YIELD; KILL; TKILL; SIGACTION; SIGPROCMASK; SIGTIMEDWAIT; SIGRETURN; TIMES; UNAME; GETRUSAGE; UMASK; PRCTL;
   GET_TIME_OF_DAY; GETPID; GETPPID; GETUID; GETEUID; GETGID; GETEGID; GETTID; SYSINFO; SOCKET; BIND; LISTEN; ACCEPT;
   CONNECT; GETSOCKNAME; GETPEERNAME; SENDTO; RECVFROM; SETSOCKOPT; GETSOCKOPT; SHUDOWN; SENDMSG; RECVMSG; BRK;
   MUNMAP; CLONE; EXECVE; MMAP; MPROTECT; MSYNC; MADVISE; ACCEPT4; WAIT4; PRLIMIT64; RENAMEAT2; MEMBARRIER].

(** [TryFrom<usize> for SyscallNo]: the tests the macro makes, in order. *)
Definition try_from (value : Z) : option SyscallNo := list_find (λ s, number s = value) all_numbers ≫= λ x, Some x.2.

(** ** Calls that never end (loops.rs) *)

Definition LOOP_LIMIT : Z := 100.
Definition LOOP_EXIT_CODE : Z := -100.

Record LoopCounter := mkLoop { cnt : Z; limit : Z }.

(** [DEAD_LOOP_CNT] at the start. *)
Definition dead_loop_cnt : LoopCounter := mkLoop 0 LOOP_LIMIT.

(** [LoopCounter::count] *)
Definition count (self : LoopCounter) : bool * LoopCounter :=
  let cnt := wrap64 (cnt self + 1) in (limit self <=? cnt, mkLoop cnt (limit self)).
(** [LoopCounter::clear] *)
Definition clear (self : LoopCounter) : LoopCounter := mkLoop 0 (limit self).

(** Whether [check_dead_loop] ends the thread. *)
Definition kill_proc (syscall_id : Z) (c : LoopCounter) : bool * LoopCounter :=
  match try_from syscall_id with
  | Some EPOLL_WAIT => count c
  | Some _ => (false, c)
  | None => count c
  end.

(** ** The arguments *)

(** A call of a handler, with the arguments it gets. *)
Inductive Call :=
| Sys_getcwd (buf len : Z)
| Sys_epoll_create (flags : Z)
| Sys_epoll_ctl (epfd op fd event : Z)
| Sys_epoll_wait (epfd event maxevents timeout : Z)
| Sys_dup (fd : Z)
| Sys_dup3 (old_fd new_fd : Z)
| Sys_fcntl64 (fd cmd arg : Z)
| Sys_unlinkat (dir_fd path flags : Z)
| Sys_linkat (old_dir_fd old_path new_dir_fd new_path flags : Z)
| Sys_umount (mount_path flags : Z)
| Sys_mount (device mount_path fs_type flags data : Z)
| Sys_statfs (path stat : Z)
| Sys_access (dir_fd path mode : Z)
| Sys_mkdir (dir_fd path user_mode : Z)
| Sys_chdir (path : Z)
| Sys_open (dir_fd path flags user_mode : Z)
| Sys_close (fd : Z)
| Sys_pipe (pipe : Z)
| Sys_getdents64 (fd buf len : Z)
| Sys_lseek (fd offset whence : Z)
| Sys_read (fd buf len : Z)
| Sys_write (fd buf len : Z)
| Sys_readv (fd iov iov_cnt : Z)
| Sys_writev (fd iov iov_cnt : Z)
| Sys_pread (fd buf count offset : Z)
| Sys_sendfile64 (out_fd in_fd offset count : Z)
| Sys_pselect6 (nfds readfds writefds exceptfds timeout sigmask : Z)
| Sys_ppoll (ufds nfds timeout sigmask : Z)
| Sys_readlinkat (dir_fd path buf len : Z)
| Sys_fstatat (dir_fd path kstat : Z)
| Sys_fstat (fd kstat : Z)
| Sys_utimensat (dir_fd path time_spec flags : Z)
| Sys_exit (exit_code : Z)
| Sys_set_tid_address (addr : Z)
| Sys_futex (uaddr futex_op val val2 uaddr2 val3 : Z)
| Sys_nanosleep (req rem : Z)
| Sys_gettimer (which curr_value : Z)
| Sys_settimer (which new_value old_value : Z)
| Sys_clock_gettime (clockid time_spec : Z)
| Sys_yield
| Sys_kill (pid signal_id : Z)
| Sys_tkill (tid signal_id : Z)
| Sys_sigaction (signum action old_action : Z)
| Sys_sigprocmask (how set old_set sigsetsize : Z)
| Sys_sigreturn
| Sys_times (tms_ptr : Z)
| Sys_uname (uts : Z)
| Sys_getrusage (who utime : Z)
| Sys_umask (new_mask : Z)
| Sys_get_time_of_day (time_val : Z)
| Sys_getpid
| Sys_getppid
| Sys_getuid
| Sys_geteuid
| Sys_getgid
| Sys_getegid
| Sys_gettid
| Sys_sysinfo (info : Z)
| Sys_socket (domain s_type protocol : Z)
| Sys_sendto (fd buf len flags dest_addr addr_len : Z)
| Sys_recvfrom (fd buf len flags src_addr src_len_pos : Z)
| Sys_bind (fd addr addr_len : Z)
| Sys_listen (fd backlog : Z)
| Sys_connect (fd addr addr_len : Z)
| Sys_accept4 (fd addr addr_len flags : Z)
| Sys_brk (brk : Z)
| Sys_munmap (start len : Z)
| Sys_clone (flags user_stack ptid tls ctid : Z)
| Sys_mmap (start len prot flags fd offset : Z)
| Sys_mprotect (start len prot : Z)
| Sys_msync (start len flags : Z)
| Sys_execve (path args envs : Z)
| Sys_wait4 (pid exit_code_ptr option : Z)
| Sys_prlimt64 (pid resource new_limit old_limit : Z)
| Sys_renameat2 (old_dir_fd old_path new_dir_fd new_path flags : Z)
| Sys_ioctl (fd request argp : Z).

(** The bits of [UtimensatFlags], [WaitFlags] and [RenameFlags]. *)
Definition UTIMENSAT_ALL : Z := 2 ^ 8.
Definition WAIT_ALL : Z := 2 ^ 0 + 2 ^ 1 + 2 ^ 3.
Definition RENAME_ALL : Z := 2 ^ 0 + 2 ^ 1 + 2 ^ 2.

Section decode.
(** The six words of the registers, and casts of them. *)
Context (args : list Z).

Definition arg (i : nat) : Z := default 0 (args !! i).
Definition i32 (i : nat) : Z := swrap 32 (arg i).
Definition u32 (i : nat) : Z := wrap 32 (arg i).
Definition isize (i : nat) : Z := swrap 64 (arg i).

Definition handler (c : Call) : outcome (option Call) := Ret (Some c).

(** The arms of the dispatcher; [None] where it answers 0 without a handler. *)
Definition decode (s : SyscallNo) : outcome (option Call) :=
  match s with
  | GETCWD => handler (Sys_getcwd (arg 0) (arg 1))
  | EPOLL_CREATE => handler (Sys_epoll_create (arg 0))
  | EPOLL_CTL => handler (Sys_epoll_ctl (i32 0) (i32 1) (i32 2) (arg 3))
  | EPOLL_WAIT => handler (Sys_epoll_wait (i32 0) (arg 1) (i32 2) (i32 3))
  | DUP => handler (Sys_dup (arg 0))
  | DUP3 => handler (Sys_dup3 (arg 0) (arg 1))
  | FCNTL64 => handler (Sys_fcntl64 (arg 0) (arg 1) (arg 2))
  | UNLINKAT => handler (Sys_unlinkat (i32 0) (arg 1) (u32 2))
  | LINKAT => handler (Sys_linkat (i32 0) (arg 1) (i32 2) (arg 3) (u32 4))
  | UMOUNT => handler (Sys_umount (arg 0) (u32 1))
  | MOUNT => handler (Sys_mount (arg 0) (arg 1) (arg 2) (u32 3) (arg 4))
  | STATFS => handler (Sys_statfs (arg 0) (arg 1))
  | ACCESS => handler (Sys_access (i32 0) (arg 1) (arg 2))
  | MKDIR => handler (Sys_mkdir (i32 0) (arg 1) (u32 2))
  | CHDIR => handler (Sys_chdir (arg 0))
  | OPEN => handler (Sys_open (i32 0) (arg 1) (u32 2) (i32 3))
  | CLOSE => handler (Sys_close (arg 0))
  | PIPE => handler (Sys_pipe (arg 0))
  | GETDENTS64 => handler (Sys_getdents64 (arg 0) (arg 1) (arg 2))
  | LSEEK => handler (Sys_lseek (arg 0) (isize 1) (isize 2))
  | READ => handler (Sys_read (arg 0) (arg 1) (arg 2))
  | WRITE => handler (Sys_write (arg 0) (arg 1) (arg 2))
  | READV => handler (Sys_readv (arg 0) (arg 1) (arg 2))
  | WRITEV => handler (Sys_writev (arg 0) (arg 1) (arg 2))
  | PREAD => handler (Sys_pread (arg 0) (arg 1) (arg 2) (arg 3))
  | SENDFILE64 => handler (Sys_sendfile64 (arg 0) (arg 1) (arg 2) (arg 3))
  | PSELECT6 => handler (Sys_pselect6 (arg 0) (arg 1) (arg 2) (arg 3) (arg 4) (arg 5))
  | PPOLL => handler (Sys_ppoll (arg 0) (arg 1) (arg 2) (arg 3))
  | READLINKAT => handler (Sys_readlinkat (i32 0) (arg 1) (arg 2) (arg 3))
  | FSTATAT => handler (Sys_fstatat (i32 0) (arg 1) (arg 2))
  | FSTAT => handler (Sys_fstat (arg 0) (arg 1))
  | UTIMENSAT => bits ← unwrap (known_bits UTIMENSAT_ALL (arg 3)); handler (Sys_utimensat (i32 0) (arg 1) (arg 2) bits)
  | EXIT => handler (Sys_exit (i32 0))
  | EXIT_GROUP => handler (Sys_exit (i32 0))
  | SET_TID_ADDRESS => handler (Sys_set_tid_address (arg 0))
  | FUTEX => handler (Sys_futex (arg 0) (i32 1) (u32 2) (arg 3) (arg 4) (u32 5))
  | NANOSLEEP => handler (Sys_nanosleep (arg 0) (arg 1))
  | GETITIMER => handler (Sys_gettimer (arg 0) (arg 1))
  | SETITIMER => handler (Sys_settimer (arg 0) (arg 1) (arg 2))
  | CLOCK_GET_TIME => handler (Sys_clock_gettime (arg 0) (arg 1))
  | YIELD => handler Sys_yield
  | KILL => handler (Sys_kill (isize 0) (isize 1))
  | TKILL => handler (Sys_tkill (isize 0) (isize 1))
  | SIGACTION => handler (Sys_sigaction (arg 0) (arg 1) (arg 2))
  | SIGPROCMASK => handler (Sys_sigprocmask (i32 0) (arg 1) (arg 2) (arg 3))
  | SIGRETURN => handler Sys_sigreturn
  | TIMES => handler (Sys_times (arg 0))
  | UNAME => handler (Sys_uname (arg 0))
  | GETRUSAGE => handler (Sys_getrusage (i32 0) (arg 1))
  | UMASK => handler (Sys_umask (i32 0))
  | GET_TIME_OF_DAY => handler (Sys_get_time_of_day (arg 0))
  | GETPID => handler Sys_getpid
  | GETPPID => handler Sys_getppid
  | GETUID => handler Sys_getuid
  | GETEUID => handler Sys_geteuid
  | GETGID => handler Sys_getgid
  | GETEGID => handler Sys_getegid
  | GETTID => handler Sys_gettid
  | SYSINFO => handler (Sys_sysinfo (arg 0))
  | SOCKET => handler (Sys_socket (arg 0) (arg 1) (arg 2))
  | SENDTO => handler (Sys_sendto (arg 0) (arg 1) (arg 2) (i32 3) (arg 4) (arg 5))
  | RECVFROM => handler (Sys_recvfrom (arg 0) (arg 1) (arg 2) (i32 3) (arg 4) (arg 5))
  | BIND => handler (Sys_bind (arg 0) (arg 1) (arg 2))
  | LISTEN => handler (Sys_listen (arg 0) (arg 1))
  | CONNECT => handler (Sys_connect (arg 0) (arg 1) (arg 2))
  | ACCEPT => handler (Sys_accept4 (arg 0) (arg 1) (arg 2) (i32 3))
  | ACCEPT4 => handler (Sys_accept4 (arg 0) (arg 1) (arg 2) (i32 3))
  | BRK => handler (Sys_brk (arg 0))
  | MUNMAP => handler (Sys_munmap (arg 0) (arg 1))
  | CLONE => handler (Sys_clone (arg 0) (isize 1) (arg 2) (arg 3) (arg 4))
  | MMAP => handler (Sys_mmap (arg 0) (arg 1) (truncate_bits PROT_ALL (arg 2)) (truncate_bits MAP_ALL (arg 3)) (i32 4) (arg 5))
  | MPROTECT => bits ← unwrap (known_bits PROT_ALL (arg 2)); handler (Sys_mprotect (arg 0) (arg 1) bits)
  | MSYNC => bits ← unwrap (known_bits MSYNC_ALL (arg 2)); handler (Sys_msync (arg 0) (arg 1) bits)
  | EXECVE => handler (Sys_execve (arg 0) (arg 1) (arg 2))
  | WAIT4 => bits ← unwrap (known_bits WAIT_ALL (arg 2)); handler (Sys_wait4 (isize 0) (arg 1) bits)
  | PRLIMIT64 => handler (Sys_prlimt64 (arg 0) (i32 1) (arg 2) (arg 3))
  | RENAMEAT2 => bits ← unwrap (known_bits RENAME_ALL (arg 4)); handler (Sys_renameat2 (i32 0) (arg 1) (i32 2) (arg 3) bits)
  | IOCTL => handler (Sys_ioctl (arg 0) (arg 1) (arg 2))
  | SIGTIMEDWAIT | MEMBARRIER | FSYNC => Ret None
  | _ => Ret None
  end.

End decode.

(** ** The dispatcher *)

(** The handlers in their world, with the counter all cores share: [None] when
    the thread does not come back from the call.  A call may wait, and other
    cores count and clear while it does. *)
Class Handlers (W : Type) := {
  run_call : Call → M W (option (SysResult Z));
  loop_of : W → LoopCounter;
  set_loop : LoopCounter → W → W }.

Section syscall.
Context {W : Type} `{Handlers W}.

(** [check_dead_loop]: whether the thread goes on. *)
Definition check_dead_loop (syscall_id : Z) : M W bool := λ w,
  let '(kill, c) := kill_proc syscall_id (loop_of w) in
  let w := set_loop c w in
  if kill : bool then '(r, w) ← run_call (Sys_exit LOOP_EXIT_CODE) w; Ret (match r with Some _ => true | None => false end, w)
  else Ret (true, w).

(** [syscall]: the word that goes to the register. *)
Definition syscall (syscall_id : Z) (args : list Z) : M W (option Z) :=
  goes_on ← check_dead_loop syscall_id;
  if goes_on : bool then
    match try_from syscall_id with
    | None => mret (Some 0)
    | Some id =>
        call ← VmArea.lift (decode args id);
        match call with
        | None => mret (Some 0)
        | Some c => r ← run_call c; mret (syscall_result <$> r)
        end
    end
  else mret None.

End syscall.

(** ** The calls on the memory of a process *)

Section memory.
Context {A : Type} `{BitAlloc A} `{PageFrameConfig}.
Context {FW F : Type} `{File FW F}.
Context {SB : StaleBytes}.
Context {FA : Type} `{BitAlloc FA}.

Abbreviation Mem := (Proc (A := A) (FW := FW) (F := F) (FA := FA)).

(** [user_sp], [now_sec]: what [brk] and [sysinfo] read besides the process. *)
Context (user_sp now_sec : Z) (rest : Call → M (Mem * LoopCounter) (option (SysResult Z))).

Definition mem_call (c : Call) : option (M Mem (SysResult Z)) :=
  match c with
  | Sys_brk brk => Some (sys_brk user_sp brk)
  | Sys_mmap start l prot flags fd offset => Some (sys_mmap start l prot flags fd offset)
  | Sys_munmap start l => Some (sys_munmap start l)
  | Sys_mprotect start l prot => Some (sys_mprotect start l prot)
  | Sys_msync start l flags => Some (sys_msync start l flags)
  | Sys_sysinfo info => Some (r ← sys_sysinfo now_sec info; mret r.1)
  | _ => None
  end.

#[export] Instance mem_handlers : Handlers (Mem * LoopCounter) := {|
  run_call := λ c w,
    match mem_call c with
    | Some f => '(r, p) ← f w.1; Ret (Some r, (p, w.2))
    | None => rest c w
    end;
  loop_of := snd;
  set_loop := λ c w, (w.1, c) |}.

End memory.

(** ** What the dispatcher does with a system call

    Numbers and calls go both ways; which words stop the kernel; when a thread
    is ended for calling without end; the calls on memory through it. *)

(** ** Numbers *)

Lemma all_numbers_all s : In s all_numbers.
Proof. apply list_elem_of_In. destruct s; vm_compute; repeat constructor. Qed.

Lemma number_inj s s' : number s = number s' → s = s'.
Proof.
  assert (forallb (λ x, forallb (λ y, bool_decide (x = y) || negb (number x =? number y)) all_numbers) all_numbers = true) as Hc
    by by vm_compute.
  rewrite forallb_forall in Hc. specialize (Hc s (all_numbers_all s)).
  rewrite forallb_forall in Hc. specialize (Hc s' (all_numbers_all s')).
  intros He. rewrite He, Z.eqb_refl, orb_false_r in Hc. by apply bool_decide_eq_true in Hc.
Qed.

(** [try_from] is the inverse of [number] on the words that are a number. *)
Lemma try_from_iff value s : try_from value = Some s ↔ number s = value.
Proof.
  unfold try_from. split.
  - intros H. destruct (list_find _ all_numbers) as [[i s']|] eqn:Hf; [|done]. injection H as <-.
    by apply list_find_Some in Hf as (_&?&_).
  - intros <-. destruct (list_find (λ s0, number s0 = number s) all_numbers) as [[i s']|] eqn:Hf.
    + apply list_find_Some in Hf as (_&He&_). cbn. f_equal. by apply number_inj.
    + exfalso. apply list_find_None in Hf. rewrite Forall_forall in Hf. by apply (Hf s (all_numbers_all s)).
Qed.

Lemma try_from_None value : try_from value = None ↔ ∀ s, number s ≠ value.
Proof.
  rewrite eq_None_not_Some. split.
  - intros H s Hs. apply H. exists s. by apply try_from_iff.
  - intros H [s Hs]. by apply (H s), try_from_iff.
Qed.

(** ** Flags nobody knows *)

Lemma word_land_l w a b : word w a → word w (Z.land a b).
Proof.
  intros Ha. assert (0 <= w) by (destruct (decide (0 <= w)); [done|unfold word in Ha; rewrite Z.pow_neg_r in Ha; lia]).
  rewrite <- (wrap_small w a Ha). unfold wrap. rewrite <- Z.land_ones, <- Z.land_assoc, (Z.land_comm (Z.ones w)), Z.land_assoc by done.
  rewrite Z.land_ones by done. by apply Z.mod_pos_bound, Z.pow_pos_nonneg.
Qed.

(** The calls with flags that have to be known: the argument and the bits. *)
Definition strict_flags (s : SyscallNo) : option (nat * Z) :=
  match s with
  | UTIMENSAT => Some (3%nat, UTIMENSAT_ALL)
  | MPROTECT => Some (2%nat, PROT_ALL)
  | MSYNC => Some (2%nat, MSYNC_ALL)
  | WAIT4 => Some (2%nat, WAIT_ALL)
  | RENAMEAT2 => Some (4%nat, RENAME_ALL)
  | _ => None
  end.

(** Flags that are not known: a low bit of the word is none of them. *)
Definition has_unknown (all v : Z) : Prop := ∃ n, 0 <= n < 32 ∧ Z.testbit v n = true ∧ Z.testbit all n = false.

Lemma known_bits_None all v : word 32 all → known_bits all v = None ↔ has_unknown all v.
Proof.
  intros Hall. unfold known_bits.
  assert (∀ n, 0 <= n < 32 → Z.testbit (Z.land (wrap 32 v) (wnot 32 all)) n = Z.testbit v n && negb (Z.testbit all n)) as Hbit.
  { intros n Hn. rewrite Z.land_spec, wnot_testbit by done. unfold wrap. by rewrite Z.mod_pow2_bits_low by lia. }
  assert (word 32 (Z.land (wrap 32 v) (wnot 32 all))) as Hw.
  { by apply word_land_l, wrap_word. }
  destruct (Z.eqb_spec (Z.land (wrap 32 v) (wnot 32 all)) 0) as [He|Hne]; (split; [|try done]).
  - done.
  - intros (n&Hn&Hv&Ha). exfalso. specialize (Hbit n Hn). by rewrite He, Z.testbit_0_l, Hv, Ha in Hbit.
  - intros _. destruct (decide (Exists (λ n, Z.testbit v n && negb (Z.testbit all n) = true) (seqZ 0 32))) as [Hex|Hno].
    + apply Exists_exists in Hex as (n&Hn&Hb). apply list_elem_of_In, elem_of_seqZ in Hn. apply andb_true_iff in Hb as [Hv Ha%negb_true_iff].
      exists n. split_and!; [lia..|done|done].
    + exfalso. apply Hne, (word_bits_zero 32); [done|]. intros n Hn. rewrite Hbit by done.
      destruct (Z.testbit v n && negb (Z.testbit all n)) eqn:Hb; [|done].
      exfalso. apply Hno, Exists_exists. exists n. split; [apply list_elem_of_In, elem_of_seqZ; lia|done].
Qed.

(** The words of a call stop the kernel exactly when it has such flags and one
    of the low 32 bits of the argument is none of them. *)
Lemma decode_panics s args : decode args s = Panic ↔ ∃ i all, strict_flags s = Some (i, all) ∧ has_unknown all (arg args i).
Proof.
  assert (∀ all i c, word 32 all → (bits ← unwrap (known_bits all (arg args i)); handler (c bits)) = Panic ↔
    ∃ i' all', Some (i, all) = Some (i', all') ∧ has_unknown all' (arg args i')) as Hstrict.
  { intros all i c Hw. transitivity (has_unknown all (arg args i)).
    - rewrite <- known_bits_None by done. by destruct (known_bits all (arg args i)).
    - split; [by exists i, all|]. by intros (?&?&[= <- <-]&?). }
  destruct s; cbn [decode strict_flags]; try (apply Hstrict; by vm_compute).
  all: split; [done|intros (?&?&?&_); done].
Qed.

(** ** Calling without end *)

(** The calls [check_dead_loop] counts: waiting for an epoll, and numbers that
    are none. *)
Definition counted (syscall_id : Z) : bool :=
  match try_from syscall_id with Some s => bool_decide (s = EPOLL_WAIT) | None => true end.

Lemma kill_proc_ok id c : 0 <= cnt c < 2 ^ 64 - 1 → kill_proc id c =
  if counted id then (limit c <=? cnt c + 1, mkLoop (cnt c + 1) (limit c)) else (false, c).
Proof.
  intros Hc. assert (count c = (limit c <=? cnt c + 1, mkLoop (cnt c + 1) (limit c))) as Hcount.
  { unfold count. by rewrite wrap_small by (unfold word; lia). }
  unfold kill_proc, counted. destruct (try_from id) as [s|]; [|done]. by destruct s.
Qed.

(** The calls of a time in which no core takes a new thread: which of them end
    their thread. *)
Fixpoint kills (c : LoopCounter) (ids : list Z) : list bool :=
  match ids with
  | [] => []
  | id :: ids => let '(kill, c) := kill_proc id c in kill :: kills c ids
  end.

(** The counted call that brings their number to the limit ends its thread, and
    so does every counted one after it; no other call does. *)
Lemma kills_ok ids : ∀ c i id, 0 <= cnt c → cnt c + Z.of_nat (length ids) < 2 ^ 64 - 1 → ids !! i = Some id →
  kills c ids !! i = Some (counted id && (limit c <=? cnt c + Z.of_nat (length (filter (λ x, counted x = true) (take (S i) ids))))).
Proof.
  induction ids as [|x ids IH]; intros c i id Hc Hl Hi; [done|].
  cbn [length] in Hl. cbn [kills]. rewrite kill_proc_ok by lia.
  destruct i as [|i].
  - injection Hi as ->. rewrite firstn_cons, firstn_O, filter_cons, filter_nil. destruct (counted id) eqn:Hx; cbn; [|done].
    rewrite decide_True by done. done.
  - cbn in Hi. rewrite firstn_cons, filter_cons. destruct (counted x) eqn:Hx; cbn [lookup list_lookup].
    + rewrite decide_True by done. cbn [length]. erewrite IH; cbn [cnt limit]; [|lia..|done]. do 3 f_equal. lia.
    + rewrite decide_False by done. apply IH; [lia..|done].
Qed.

(** ** What a call answers *)

Section syscall_spec.
Context {W : Type} `{Handlers W}.

(** Below the limit: the handler of a number with its arguments, 0 without a
    handler and for a number that is none, which changes nothing. *)
Lemma syscall_ok id args (w : W) : kill_proc id (loop_of w) = (false, (kill_proc id (loop_of w)).2) →
  let w' := set_loop (kill_proc id (loop_of w)).2 w in
  syscall id args w =
    match try_from id with
    | None => Ret (Some 0, w')
    | Some s =>
        match decode args s with
        | Ret (Some c) => match run_call c w' with Ret (r, w'') => Ret (syscall_result <$> r, w'') | Panic => Panic end
        | Ret None => Ret (Some 0, w')
        | Panic => Panic
        end
    end.
Proof.
  intros Hk w'. unfold syscall, check_dead_loop. unfold mbind at 1, M_bind at 1.
  destruct (kill_proc id (loop_of w)) as [kill c]. injection Hk as ->. cbn [fst snd] in *. fold w'. cbn [mbind outcome_bind].
  destruct (try_from id) as [s|]; [|done]. unfold mbind at 1, M_bind at 1, VmArea.lift.
  destruct (decode args s) as [[c'|]|]; done.
Qed.

Lemma syscall_no_handler id args (w : W) : (kill_proc id (loop_of w)).1 = false →
  (∀ s, id = number s → decode args s = Ret None) →
  syscall id args w = Ret (Some 0, set_loop (kill_proc id (loop_of w)).2 w).
Proof.
  intros Hk Hno. rewrite syscall_ok by (destruct (kill_proc id (loop_of w)); cbn in *; by subst).
  destruct (try_from id) as [s|] eqn:He; [|done]. apply try_from_iff in He. by rewrite (Hno s).
Qed.

(** At the limit the thread does not come back when [exit] does not. *)
Lemma syscall_killed id args (w w' : W) : (kill_proc id (loop_of w)).1 = true →
  run_call (Sys_exit LOOP_EXIT_CODE) (set_loop (kill_proc id (loop_of w)).2 w) = Ret (None, w') →
  syscall id args w = Ret (None, w').
Proof.
  intros Hk Hr. unfold syscall, check_dead_loop. unfold mbind at 1, M_bind at 1.
  destruct (kill_proc id (loop_of w)) as [kill c]. cbn [fst snd] in *. subst kill. by rewrite Hr.
Qed.

End syscall_spec.

(** ** The calls on memory *)

Section memory_spec.
Context {A : Type} `{BitAlloc A} `{PageFrameConfig}.
Context {FW F : Type} `{File FW F}.
Context {SB : StaleBytes}.
Context {FA : Type} `{BitAlloc FA}.
Abbreviation Mem := (Proc (A := A) (FW := FW) (F := F) (FA := FA)).
Context (user_sp now_sec : Z) (rest : Call → M (Mem * LoopCounter) (option (SysResult Z))).

Lemma truncate_truncate all v : word 32 all → truncate_bits all (truncate_bits all v) = truncate_bits all v.
Proof.
  intros Hall. unfold truncate_bits. rewrite (wrap_small 32 (Z.land _ _)).
  - by rewrite <- Z.land_assoc, Z.land_diag.
  - rewrite Z.land_comm. by apply word_land_l.
Qed.

Lemma known_known all v bits : known_bits all v = Some bits → known_bits all bits = Some bits.
Proof.
  unfold known_bits. destruct (_ =? 0) eqn:He; [|done]. intros [= <-].
  by rewrite (wrap_small 32 (wrap 32 v)), He by by apply wrap_word.
Qed.

(** A handler that decodes flags decodes decoded ones the same way. *)
Lemma mmap_decoded start l prot flags fd offset (p : Mem) :
  sys_mmap start l (truncate_bits PROT_ALL prot) (truncate_bits MAP_ALL flags) fd offset p = sys_mmap start l prot flags fd offset p.
Proof. unfold sys_mmap. by rewrite !truncate_truncate by by vm_compute. Qed.

Lemma mprotect_decoded start l prot bits (p : Mem) : known_bits PROT_ALL prot = Some bits →
  sys_mprotect start l bits p = sys_mprotect start l prot p.
Proof. intros Hb. unfold sys_mprotect. by rewrite Hb, (known_known _ _ _ Hb). Qed.

Lemma msync_decoded start l flags bits (p : Mem) : known_bits MSYNC_ALL flags = Some bits →
  sys_msync start l bits p = sys_msync start l flags p.
Proof. intros Hb. unfold sys_msync. by rewrite Hb, (known_known _ _ _ Hb). Qed.

(** The words of a call on memory and what its handler does with them. *)
Definition mem_spec (s : SyscallNo) (args : list Z) : option (M Mem (SysResult Z)) :=
  let a := arg args in
  match s with
  | BRK => Some (sys_brk user_sp (a 0%nat))
  | MMAP => Some (sys_mmap (a 0%nat) (a 1%nat) (a 2%nat) (a 3%nat) (i32 args 4) (a 5%nat))
  | MUNMAP => Some (sys_munmap (a 0%nat) (a 1%nat))
  | MPROTECT => Some (sys_mprotect (a 0%nat) (a 1%nat) (a 2%nat))
  | MSYNC => Some (sys_msync (a 0%nat) (a 1%nat) (a 2%nat))
  | _ => None
  end.

#[local] Existing Instance mem_handlers.

(** A call on memory through the registers is its handler on the raw words,
    panics included. *)
Lemma mem_syscall s args f p lc : mem_spec s args = Some f →
  syscall (H := mem_handlers user_sp now_sec rest) (number s) args (p, lc) =
    match f p with Ret (r, p') => Ret (Some (syscall_result r), (p', lc)) | Panic => Panic end.
Proof.
  intros Hf. assert (try_from (number s) = Some s) as Ht by by apply try_from_iff.
  assert (kill_proc (number s) lc = (false, lc)) as Hk by (unfold kill_proc; rewrite Ht; by destruct s).
  rewrite syscall_ok; cbn [loop_of mem_handlers snd]; rewrite Hk; [|done]. rewrite Ht. cbn [snd set_loop mem_handlers fst].
  destruct s; try discriminate Hf; injection Hf as <-; cbn [decode handler].
  - cbn. by destruct (sys_brk _ _ p) as [[r p']|].
  - cbn. by destruct (sys_munmap _ _ p) as [[r p']|].
  - cbn. rewrite mmap_decoded. by destruct (sys_mmap _ _ _ _ _ _ p) as [[r p']|].
  - destruct (known_bits PROT_ALL (arg args 2)) as [bits|] eqn:Hb; cbn [unwrap mbind outcome_bind handler].
    + cbn. rewrite (mprotect_decoded _ _ _ _ _ Hb). by destruct (sys_mprotect _ _ _ p) as [[r p']|].
    + unfold sys_mprotect. by rewrite Hb.
  - destruct (known_bits MSYNC_ALL (arg args 2)) as [bits|] eqn:Hb; cbn [unwrap mbind outcome_bind handler].
    + cbn. rewrite (msync_decoded _ _ _ _ _ Hb). by destruct (sys_msync _ _ _ p) as [[r p']|].
    + unfold sys_msync. by rewrite Hb.
Qed.

End memory_spec.
