(* ===== verification/Trap.v ===== *)
(** * Traps from the user (kernel/src/trap/mod.rs)

    What the kernel does when a user thread stops: a system call, a page
    fault, the timer, an instruction it may not use; then signals are handled
    on the way back.  A trap from the kernel itself always ends in a panic. *)

From S2P Require Import Syscalls Prelude Bytes BitAlloc BitAllocSpec Addr PageFrame PageFrameSpec Errors PageTable.
From S2P Require Import PageTableSpec FatIo BaseFile FatFile FatFileSpec RangeMap RangeMapSpec VmArea VmAreaSpec.
From S2P Require Import MemorySet MemorySetSpec FdTable Bitset Signals SignalsSpec TimeStat MemCalls.

(** The causes the handler tells apart. *)
Inductive Cause :=
| UserEnvCall | StoreFault | IllegalInstruction | InstructionPageFault | LoadPageFault | StorePageFault
| SupervisorTimer | OtherCause.

#[export] Instance Cause_eq_dec : EqDecision Cause.
Proof. solve_decision. Defined.

Section trap.
Context {A : Type} `{BitAlloc A} `{PageFrameConfig}.
Context {FW F : Type} `{File FW F}.
Context {SB : StaleBytes}.

(** What a trap touches: the thread as its signals see it, its times, the
    table of receivers, its address space in the world, the counter of the
    dispatcher. *)
Record UserTrap := mkUser {
  u_sig : SigThread;
  u_time : TimeStat;
  u_table : Tid2Signals;
  u_vm : MemorySet (F := F);
  u_world : VmWorld A FW;
  u_loop : LoopCounter }.

Implicit Types t : UserTrap.

Definition set_sig t th : UserTrap := mkUser th (u_time t) (u_table t) (u_vm t) (u_world t) (u_loop t).
Definition set_table t tab : UserTrap := mkUser (u_sig t) (u_time t) tab (u_vm t) (u_world t) (u_loop t).

Definition set_u_loop (c : LoopCounter) t : UserTrap := mkUser (u_sig t) (u_time t) (u_table t) (u_vm t) (u_world t) c.

(** [tid]: the thread.  [run]: the handlers of the system calls, which have
    their own files. *)
Context (tid : Z) (run : Call → M UserTrap (option (SysResult Z))).

#[local] Instance user_handlers : Handlers UserTrap := {| run_call := run; loop_of := u_loop; set_loop := set_u_loop |}.

(** A call of the user: the number and the words in the registers, the result
    in [a0]; whether the thread comes back. *)
Definition env_call t : outcome (bool * UserTrap) :=
  let cx := st_cx (u_sig t) in
  let t := set_sig t (set_cx (u_sig t) (set_sepc cx (wrap64 (tc_sepc cx + 4)))) in
  let x := get_x (st_cx (u_sig t)) in
  '(a0, t) ← syscall (x 17%nat) [x 10%nat; x 11%nat; x 12%nat; x 13%nat; x 14%nat; x 15%nat] t;
  Ret (match a0 with
       | Some v => (true, set_sig t (set_cx (u_sig t) (set_a0 (st_cx (u_sig t)) v)))
       | None => (false, t)
       end).

(** The receivers of the thread are one object with those in the table. *)
Definition the_recv t : SignalReceivers := default (st_recv (u_sig t)) (u_table t !! tid).

(** [handle_signals] *)
Definition deliver t : outcome (Fate * UserTrap) :=
  '(fate, th) ← handle_signals (set_recv (u_sig t) (the_recv t));
  let table := match u_table t !! tid with Some _ => <[tid := st_recv th]> (u_table t) | None => u_table t end in
  Ret (fate, mkUser th (u_time t) table (u_vm t) (u_world t) (u_loop t)).

Definition segv t : UserTrap := set_table t (send_signal tid SIGSEGV (u_table t)).

(** [handle_user_page_fault], and [SIGSEGV] when it fails. *)
Definition user_page_fault (stval access : Z) t : outcome UserTrap :=
  '(r, vm, w) ← handle_page_fault (u_vm t) stval access (u_world t);
  let t := mkUser (u_sig t) (u_time t) (u_table t) vm w (u_loop t) in
  Ret (match r with OsOk _ => t | OsErr _ => segv t end).

Definition user_to_kernel (now : Z) t : UserTrap :=
  let '(time, table) := timer_user_to_kernel now (u_time t) (u_table t) in
  mkUser (u_sig t) time table (u_vm t) (u_world t) (u_loop t).
Definition kernel_to_user (now : Z) t : UserTrap :=
  let '(time, table) := timer_kernel_to_user now (u_time t) (u_table t) in
  mkUser (u_sig t) time table (u_vm t) (u_world t) (u_loop t).

(** How the body of the handler goes on: to the signals, straight back, or off
    the core, until the scheduler takes the thread again or for good. *)
Inductive Turn := ToSignals | Straight | Suspended.

Definition trap_body (cause : Cause) (stval : Z) t : outcome (Turn * UserTrap) :=
  match cause with
  | UserEnvCall => '(back, t) ← env_call t; Ret (if back : bool then ToSignals else Suspended, t)
  | StoreFault | IllegalInstruction => Ret (ToSignals, segv t)
  | InstructionPageFault =>
      if stval =? SIGNAL_RETURN_TRAP then Ret (Straight, set_sig t (sigreturn_trap (u_sig t)))
      else t ← user_page_fault stval (Z.lor USER EXECUTE) t; Ret (ToSignals, t)
  | LoadPageFault => t ← user_page_fault stval (Z.lor USER READ) t; Ret (ToSignals, t)
  | StorePageFault => t ← user_page_fault stval (Z.lor USER WRITE) t; Ret (ToSignals, t)
  | SupervisorTimer => Ret (Suspended, t)
  | OtherCause => Panic
  end.

(** [user_trap_handler]; [None] for the thread that is off the core. *)
Definition user_trap_handler (now : Z) (cause : Cause) (stval : Z) t : outcome (option Fate * UserTrap) :=
  '(turn, t) ← trap_body cause stval (user_to_kernel now t);
  match turn with
  | ToSignals => '(fate, t) ← deliver t; Ret (Some fate, t)
  | Straight => Ret (Some Goes, t)
  | Suspended => Ret (None, t)
  end.

(** [trap_handler] for a trap from the user: [now1] and [now2] are the times at
    which the two functions count. *)
Definition trap_handler (now1 now2 now3 : Z) (cause : Cause) (stval : Z) t : outcome (option Fate * UserTrap) :=
  '(fate, t) ← user_trap_handler now2 cause stval (user_to_kernel now1 t);
  match fate with
  | Some Goes => Ret (fate, kernel_to_user now3 t)
  | _ => Ret (fate, t)
  end.

(** [kernel_trap_handler]: every arm comes to the panic at its end. *)
Definition kernel_trap_handler (cause : Cause) t : outcome UserTrap :=
  _ ← (match cause with UserEnvCall => '(_, t) ← env_call t; Ret t | OtherCause => Panic | _ => Ret t end); Panic.

End trap.

(** ** What a trap does to the thread

    A page fault that the address space can serve lets the instruction run
    again; any other one kills a thread that has no handler for it. *)

Section trap_spec.
Context {A : Type} {ops : BitAlloc A} {V : BitAllocView A} {BS : BitAllocSpec A}.
Context {cfg : PageFrameConfig} {CO : ConfigOk cfg (CAP A)} {PCO : PtConfigOk cfg (CAP A)}.
Context {FW F : Type} {HF : File FW F} {FO : FilesOk FW F}.
Context {SB : StaleBytes} (stale_len : ∀ fr, len (stale fr) = PAGE_SIZE).
Context (top : Z) (Htop : 0 < top <= 512) (R : Z → bool) (rest : list Frame).
Context (tid : Z) (run : Call → M (UserTrap (A := A) (FW := FW) (F := F)) (option (SysResult Z))).

Implicit Types t : UserTrap (A := A) (FW := FW) (F := F).

(** The page faults, with the right each needs. *)
Definition fault_access (cause : Cause) : option Z :=
  match cause with
  | InstructionPageFault => Some (Z.lor USER EXECUTE)
  | LoadPageFault => Some (Z.lor USER READ)
  | StorePageFault => Some (Z.lor USER WRITE)
  | _ => None
  end.

(** No timer runs, no signal is pending, no handler is running, and [SIGSEGV]
    is neither masked nor handled. *)
Record quiet t : Prop := {
  q_timer : timer_type (u_time t) = NONE;
  q_recv : ∃ mask, u_table t !! tid = Some (mkRecv mask 0) ∧ word 64 mask ∧ Z.testbit mask 10 = false;
  q_saved : trap_cx_before_signal (u_sig t) = None;
  q_action : get_action_ref (st_handlers (u_sig t)) SIGSEGV = Ret None }.

Lemma user_to_kernel_quiet now t : timer_type (u_time t) = NONE →
  ∃ time, user_to_kernel now t = mkUser (u_sig t) time (u_table t) (u_vm t) (u_world t) (u_loop t) ∧ timer_type time = NONE.
Proof.
  intros Hn. unfold user_to_kernel, timer_user_to_kernel. rewrite Hn. rewrite bool_decide_eq_false_2 by (intros H; by apply H).
  eexists. split; [reflexivity|]. done.
Qed.

(** Nothing pending: the thread goes on as it is. *)
Lemma deliver_nothing t mask : u_table t !! tid = Some (mkRecv mask 0) → word 64 mask →
  ∃ t', deliver tid t = Ret (Goes, t') ∧ st_cx (u_sig t') = st_cx (u_sig t) ∧ u_vm t' = u_vm t ∧ u_world t' = u_world t ∧
    u_table t' = u_table t.
Proof.
  intros Ht Hm. unfold deliver, the_recv. rewrite Ht. cbn [default].
  pose proof (get_one_signal_ok (mkRecv mask 0) ltac:(split; [done|cbn; unfold word; lia])) as Hg.
  unfold handle_signals. cbn [st_recv set_recv].
  destruct (get_one_signal (mkRecv mask 0)) as [[signum|] r'].
  - destruct Hg as (_&_&_&Hp&_). unfold pending in Hp. cbn in Hp. by rewrite Z.testbit_0_l in Hp.
  - eexists. split; [reflexivity|]. split_and!; try done. cbn [u_table st_recv set_recv]. unfold id. by apply (insert_id (M := gmap Z)).
Qed.

(** [SIGSEGV] alone, not masked, without a handler: the thread exits. *)
Lemma deliver_segv t mask : u_table t !! tid = Some (mkRecv mask 0) → word 64 mask → Z.testbit mask 10 = false →
  trap_cx_before_signal (u_sig t) = None → get_action_ref (st_handlers (u_sig t)) SIGSEGV = Ret None →
  ∃ t', deliver tid (segv tid t) = Ret (Exits 0, t') ∧ u_vm t' = u_vm t ∧ u_world t' = u_world t.
Proof.
  intros Ht Hm Hb Hs Ha. set (r := try_add_bit (mkRecv mask 0) SIGSEGV).
  assert (the_recv tid (segv tid t) = r) as Hthe.
  { unfold the_recv, segv, send_signal. rewrite Ht. cbn [u_table set_table].
    assert ((<[tid := r]> (u_table t) : gmap Z SignalReceivers) !! tid = Some r) as Hl by apply lookup_insert_eq.
    exact (f_equal (default (st_recv (u_sig t))) Hl). }
  unfold deliver. rewrite Hthe. change (u_sig (segv tid t)) with (u_sig t).
  assert (recv_ok (mkRecv mask 0)) as Hok by (split; [done|cbn; unfold word; lia]).
  destruct (try_add_bit_ok (mkRecv mask 0) SIGSEGV Hok ltac:(done)) as (Hrok&Hrm&Hrp). fold r in Hrok, Hrm, Hrp.
  pose proof (get_one_signal_ok r Hrok) as Hg. unfold handle_signals. cbn [st_recv set_recv].
  assert (∀ j, is_signal j → pending r j = (j =? SIGSEGV)) as Hpend.
  { intros j Hj. rewrite Hrp by done. unfold pending at 1. cbn. by rewrite Z.testbit_0_l. }
  destruct (get_one_signal r) as [[signum|] r'].
  - destruct Hg as (_&_&Hsig&Hp&_). rewrite Hpend in Hp by done. apply Z.eqb_eq in Hp as ->.
    unfold save_trap_cx_if_not_handling_signals. cbn [trap_cx_before_signal set_recv]. rewrite Hs. cbn [st_handlers set_recv].
    rewrite Ha. cbn. by eexists.
  - destruct Hg as (_&_&_&Hno). specialize (Hno SIGSEGV ltac:(done)). rewrite Hpend in Hno by done.
    unfold masked in Hno. rewrite Hrm in Hno. cbn [recv_mask] in Hno. change (SIGSEGV - 1) with 10 in Hno. rewrite Hb in Hno. by specialize (Hno eq_refl).
Qed.

(** A fault from the user, up to the signals. *)
Lemma fault_body cause access v t : fault_access cause = Some access → (cause = InstructionPageFault → v ≠ SIGNAL_RETURN_TRAP) →
  trap_body tid run cause v t = (t ← user_page_fault tid v access t; Ret (ToSignals, t)).
Proof.
  intros Ha Hv. destruct cause; try done; injection Ha as <-; try done. unfold trap_body.
  by destruct (Z.eqb_spec v SIGNAL_RETURN_TRAP); [exfalso; apply Hv|].
Qed.

Lemma fault_ok now cause access v t : fault_access cause = Some access → (cause = InstructionPageFault → v ≠ SIGNAL_RETURN_TRAP) →
  quiet t → ms_ok top Htop R rest (u_world t) (u_vm t) →
  ∃ r fate t', user_trap_handler tid run now cause v t = Ret (Some fate, t') ∧
    ms_ok top Htop R rest (u_world t') (u_vm t') ∧ (∀ x, rights top Htop R rest (u_vm t') x = rights top Htop R rest (u_vm t) x) ∧
    match rights top Htop R rest (u_vm t) v with
    | None => r = OsErr PageFaultHandler_Unhandled ∧ u_world t' = u_world t
    | Some fl =>
        if contains_flags fl access then fault_done top (u_world t) (u_vm t) v fl (OsErr PageFaultHandler_TrapAtValidPage) r (u_world t')
        else r = OsErr PageFaultHandler_AccessDenied ∧ u_world t' = u_world t
    end ∧
    match r with OsOk _ => fate = Goes ∧ st_cx (u_sig t') = st_cx (u_sig t) | OsErr _ => fate = Exits 0 end.
Proof.
  intros Ha Hv [Hn (mask&Hrecv&Hm&Hb) Hs Hact] Hms.
  destruct (user_to_kernel_quiet now t Hn) as (time&Hu&_).
  destruct (handle_page_fault_ok top Htop R rest stale_len (u_world t) (u_vm t) v access Hms) as (r&vm&w&Hrun&Hms'&Hr&Hcase).
  unfold user_trap_handler. rewrite Hu, (fault_body _ access) by done. unfold user_page_fault. cbn [u_vm u_world u_sig u_time u_table u_loop].
  rewrite Hrun. cbn [mbind outcome_bind].
  set (t1 := mkUser (u_sig t) time (u_table t) vm w (u_loop t)). exists r. destruct r as [[]|e].
  - destruct (deliver_nothing t1 mask Hrecv Hm) as (t'&Hd&Hcx&Hvm&Hw&_). exists Goes, t'.
    cbn. rewrite Hd. cbn. rewrite Hvm, Hw. by split_and!.
  - destruct (deliver_segv t1 mask Hrecv Hm Hb Hs Hact) as (t'&Hd&Hvm&Hw). exists (Exits 0), t'.
    cbn. rewrite Hd. cbn. rewrite Hvm, Hw. by split_and!.
Qed.

(** The thread at the call: past the instruction, with its times counted. *)
Definition at_call now t : UserTrap :=
  let t := user_to_kernel now t in
  set_sig t (set_cx (u_sig t) (set_sepc (st_cx (u_sig t)) (wrap64 (tc_sepc (st_cx (u_sig t)) + 4)))).
Definition call_number t : Z := get_x (st_cx (u_sig t)) 17.
Definition call_args t : list Z := get_x (st_cx (u_sig t)) <$> [10; 11; 12; 13; 14; 15]%nat.

(** A call whose handler answers: the thread goes on after the instruction with
    the answer in [a0], an error as its negative number, and with what the
    handler made of the rest. *)
Lemma system_call_ok now v t s c r t2 : call_number t = number s → s ≠ EPOLL_WAIT → Syscalls.decode (call_args t) s = Ret (Some c) →
  timer_type (u_time t) = NONE → run c (at_call now t) = Ret (Some r, t2) → quiet t2 →
  ∃ t', user_trap_handler tid run now UserEnvCall v t = Ret (Some Goes, t') ∧
    st_cx (u_sig t') = set_a0 (st_cx (u_sig t2)) (syscall_result r) ∧ u_vm t' = u_vm t2 ∧ u_world t' = u_world t2.
Proof.
  intros Hno Hs Hc Ht Hrun [_ (mask&Hrecv&Hm&_) _ _].
  destruct (user_to_kernel_quiet now t Ht) as (time&Hu&_).
  unfold user_trap_handler, trap_body, env_call. fold (at_call now t).
  assert (st_cx (u_sig (user_to_kernel now t)) = st_cx (u_sig t)) as Hcx by by rewrite Hu.
  assert (get_x (st_cx (u_sig (at_call now t))) = get_x (st_cx (u_sig t))) as Hx by (unfold at_call; by rewrite <- Hcx).
  rewrite Hx. change (get_x (st_cx (u_sig t)) 17) with (call_number t). rewrite Hno.
  change [get_x (st_cx (u_sig t)) 10; get_x (st_cx (u_sig t)) 11; get_x (st_cx (u_sig t)) 12; get_x (st_cx (u_sig t)) 13;
    get_x (st_cx (u_sig t)) 14; get_x (st_cx (u_sig t)) 15] with (call_args t).
  assert (∀ lc, kill_proc (number s) lc = (false, lc)) as Hk.
  { intros lc. unfold kill_proc. rewrite (proj2 (try_from_iff _ s) eq_refl). by destruct s. }
  rewrite syscall_ok by by rewrite Hk. rewrite Hk. cbn [snd]. rewrite (proj2 (try_from_iff _ s) eq_refl), Hc. cbn [run_call set_loop loop_of user_handlers].
  assert (set_u_loop (u_loop (at_call now t)) (at_call now t) = at_call now t) as -> by by destruct t.
  rewrite Hrun. cbn [mbind outcome_bind fmap option_fmap option_map].
  set (t3 := set_sig t2 (set_cx (u_sig t2) (set_a0 (st_cx (u_sig t2)) (syscall_result r)))).
  destruct (deliver_nothing t3 mask Hrecv Hm) as (t'&Hd&Hcx'&Hvm&Hw&_). cbn. rewrite Hd. cbn. by exists t'.
Qed.

(** A number that is none, or has no handler: 0 in [a0], nothing else. *)
Lemma no_handler_ok now v t : quiet t → (kill_proc (call_number t) (u_loop t)).1 = false →
  (∀ s, call_number t = number s → Syscalls.decode (call_args t) s = Ret None) →
  ∃ t', user_trap_handler tid run now UserEnvCall v t = Ret (Some Goes, t') ∧
    st_cx (u_sig t') = set_a0 (st_cx (u_sig (at_call now t))) 0 ∧ u_vm t' = u_vm t ∧ u_world t' = u_world t.
Proof.
  intros [Ht (mask&Hrecv&Hm&_) _ _] Hk Hno.
  destruct (user_to_kernel_quiet now t Ht) as (time&Hu&_).
  assert (st_cx (u_sig (user_to_kernel now t)) = st_cx (u_sig t)) as Hcx by by rewrite Hu.
  assert (get_x (st_cx (u_sig (at_call now t))) = get_x (st_cx (u_sig t))) as Hx by (unfold at_call; by rewrite <- Hcx).
  assert (u_loop (at_call now t) = u_loop t) as Hl by (unfold at_call; by rewrite Hu).
  unfold user_trap_handler, trap_body, env_call. fold (at_call now t). rewrite Hx. change (get_x (st_cx (u_sig t)) 17) with (call_number t).
  change [get_x (st_cx (u_sig t)) 10; get_x (st_cx (u_sig t)) 11; get_x (st_cx (u_sig t)) 12; get_x (st_cx (u_sig t)) 13;
    get_x (st_cx (u_sig t)) 14; get_x (st_cx (u_sig t)) 15] with (call_args t).
  rewrite syscall_no_handler by (done || (cbn [loop_of user_handlers]; by rewrite Hl)). cbn [mbind outcome_bind].
  set (t1 := set_loop _ _).
  assert (u_table t1 = u_table t ∧ u_vm t1 = u_vm t ∧ u_world t1 = u_world t) as (Htab&Hvm1&Hw1)
    by (unfold t1, at_call; by rewrite Hu).
  set (t3 := set_sig t1 (set_cx (u_sig t1) (set_a0 (st_cx (u_sig t1)) 0))).
  destruct (deliver_nothing t3 mask) as (t'&Hd&Hcx'&Hvm&Hw&_); [by rewrite <- Hrecv, <- Htab|done|].
  cbn. rewrite Hd. cbn. exists t'. split; [done|]. by rewrite Hcx', Hvm, Hw.
Qed.

End trap_spec.

(** ** Properties *)

Section properties.
Context {A : Type} {ops : BitAlloc A} {V : BitAllocView A} {BS : BitAllocSpec A}.
Context {cfg : PageFrameConfig} {CO : ConfigOk cfg (CAP A)} {PCO : PtConfigOk cfg (CAP A)}.
Context {FW F : Type} {HF : File FW F} {FO : FilesOk FW F}.
Context {SB : StaleBytes}.
Context (top : Z) (Htop : 0 < top <= 512) (R : Z → bool) (rest : list Frame).

(** C27. A page fault of a user thread for which no timer runs, which has no
    signal pending and no handler running, and which neither masks nor handles
    [SIGSEGV], other than the jump to the address that ends a handler: the space
    stays well-formed and its rights stay as they
    are. When the area at the address allows the access and its page was not
    there, the page is mapped to a frame of its own and the thread goes on
    with the registers it had, so its instruction runs again; with no area,
    without the right, at a page that is there already or without memory, the
    thread exits, and in the first three cases nothing of its memory has
    changed. *)
Theorem fault_resumes_or_kills (tid now : Z) (run : Call → M (UserTrap (A := A) (FW := FW) (F := F)) (option (SysResult Z)))
    (cause : Cause) (access v : Z) (t : UserTrap) :
  (∀ fr, len (stale fr) = PAGE_SIZE) →
  fault_access cause = Some access → (cause = InstructionPageFault → v ≠ SIGNAL_RETURN_TRAP) →
  quiet tid t → ms_ok top Htop R rest (u_world t) (u_vm t) →
  ∃ r fate t', user_trap_handler tid run now cause v t = Ret (Some fate, t') ∧
    ms_ok top Htop R rest (u_world t') (u_vm t') ∧ (∀ x, rights top Htop R rest (u_vm t') x = rights top Htop R rest (u_vm t) x) ∧
    match rights top Htop R rest (u_vm t) v with
    | None => r = OsErr PageFaultHandler_Unhandled ∧ u_world t' = u_world t
    | Some fl =>
        if contains_flags fl access then fault_done top (u_world t) (u_vm t) v fl (OsErr PageFaultHandler_TrapAtValidPage) r (u_world t')
        else r = OsErr PageFaultHandler_AccessDenied ∧ u_world t' = u_world t
    end ∧
    match r with OsOk _ => fate = Goes ∧ st_cx (u_sig t') = st_cx (u_sig t) | OsErr _ => fate = Exits 0 end.
Proof. intros Hst. by apply fault_ok. Qed.
End properties.

Import MemorySetSpec.Small.

(** A thread of a new space reads at [0x5000], where nothing is. *)
Lemma fault_resumes_or_kills_witness :
  ∃ ms w, new_user (A := Tower 0) (F := unit) world0 = Ret (ms, w) ∧
    let t := mkUser (mkSig recv_new handlers_new (mkTrap (repeat 0 32) 0 0x1000 0 [0; 0]) None false (λ _, 0))
               (ts_new 2 0) (<[2 := recv_new]> ∅) ms w dead_loop_cnt in
    ∃ t', user_trap_handler 2 (λ _ t, Ret (Some (inl 0), t)) 10 LoadPageFault 0x5000 t = Ret (Some (Exits 0), t') ∧ u_world t' = w.
Proof.
  destruct (new_user_ok (A := Tower 0) (FW := list Z) (F := unit) 4 small_top first_16 [] world0 world0_files world0_frames)
    as [(ms&w&H1&H2&_&H3&_)|[_ Hno]]; [|specialize (Hno 0); vm_compute in Hno; congruence].
  exists ms, w. split; [exact H1|]. intros t.
  destruct (fault_resumes_or_kills 4 small_top first_16 [] 2 10 (λ _ t, Ret (Some (inl 0), t)) LoadPageFault (Z.lor USER READ) 0x5000 t)
    as (r&fate&t'&Hrun&_&_&Hcase&Hfate).
  - intros fr. by vm_compute.
  - done.
  - done.
  - split; [done| |done|by vm_compute]. exists 0. split; [done|]. split; [unfold word; lia|done].
  - exact H2.
  - change (u_vm t) with ms in Hcase. rewrite H3 in Hcase. destruct Hcase as [-> Hw]. subst fate.
    exists t'. split; [exact Hrun|exact Hw].
Defined.
